(* ===== verification/_CoqProject ===== *)
-Q . S2P
Prelude.v
Float64.v
Capacity.v
Catalog.v
Calendar.v
GoLib.v
Cron.v
CronSearch.v
CronParse.v
CronProps.v
Schedules.v
ScheduleProps.v
EdgeLoad.v
Edge.v
EdgeProps.v
Billing.v
Policy.v
Placement.v
Scheduler.v
Offers.v
Cover.v
Fleet.v
Pass.v
Demand.v
Purchase.v
Keep.v
Plan.v
Steps.v
Simulation.v
BuySim.v
KeepSim.v
TargetProps.v
KeepProps.v
KeyProps.v
PlanProps.v
Hosts.v
HostSql.v
Cooldowns.v
Sessions.v
Actuator.v
Machines.v
Reconcile.v
Launcher.v
HostProps.v
Lifecycle.v
LifecycleProps.v
ReserveProps.v
CooldownProps.v
Snapshot.v
Driver.v
DriverProps.v
Credits.v
Admission.v
Payments.v
CreditLoops.v
CreditProps.v
RollupProps.v
PaymentProps.v
Metering.v
MeteringProps.v
MeterPass.v
BillingProps.v
Exec.v
Attempts.v
Claims.v
Submit.v
Scaling.v
ExecInv.v
ExecSteps.v
ExecAdvance.v
ExecFinish.v
ExecClaims.v
ExecSubmit.v
ExecOps.v
ExecMachine.v
ExecDemo.v
ExecProps.v
ScheduleSubmit.v
ExecEffects.v
ScalingBounds.v
