(* ===== verification/Prelude.v ===== *)
(** * LazyCloud: the fleet, tasks, schedules, the edge and billing

    LazyCloud runs users' containers on hosts it buys from EC2 or that
    accounts bring.  Its Go code under src/ decides, in loops, which hosts to
    buy, keep, stop and end, which host each container goes on, which task
    each container runs, when each scheduled function runs, which container
    each HTTP request takes, and what each account owes.  This library models those decisions
    and the transactions that carry them out, and proves what makes them
    correct.

    ** The parts and how they interact

    - The _planner_ (src/internal/compute/fleet_*.go) reads a snapshot of
      hosts, pending containers, prices, quotas and held targets, and one pass
      ([PlanFleet]) returns actions on hosts, a wait for every pending
      container, and what each market holds for the next pass.
    - The _fleet driver_ (planner.go, planner_snapshot.go, planner_markets.go)
      reads that snapshot from the database, plans each account and writes the
      intents.  The launcher, the actuator, the reconciler and the hosts' own
      sessions (launcher.go, fleet_actuator.go, reconcile.go, enrollment.go,
      reserve_session.go and others) carry the intents out: they move the rows
      of the hosts table through its phases and call EC2.
    - _Placement_ (src/internal/compute/capacity.go,
      src/internal/scheduling/placement.go) puts pending containers on ready
      hosts; the planner uses the same capacity test to know what will fit.
    - _Execution_ (src/internal/execution) keeps tasks, attempts,
      dependencies and containers: submits, claims by containers, completions,
      retries, cancellations, reports of hosts, recovery, and how many
      containers each function gets.
    - _Billing_ (src/internal/billing) says what a container pays, which
      bounds what the planner may pay for its host (ratecard.go, pricing.go);
      meters what ran or was stored into a ledger of entries and hours
      (metering.go, measured.go); and pays the hours from an account's credit
      (credits.go, rollup.go, accounts.go, admin.go, enforcement.go).  It says
      what an account's plan admits (admission.go, allowance.go), and turns
      what Stripe reports into credit, plans and reloads (payments.go,
      plans.go).
    - _Schedules_ (src/internal/schedules) keep each scheduled function's next
      due time; a pass of [Fire] submits the due ones to execution.
    - The _edge_ (src/internal/edge) gives HTTP requests units of container
      capacity and publishes the demand that execution scales on.

    ** Files

    Shared: this file (notations, comparisons, sorting, folds, [lia] helpers);
    [Float64] (binary64 arithmetic); [Calendar] (dates and [time.Time] in UTC,
    with the inverse of [time.Date]); [GoLib] (outcomes of a Go call, [strings]
    and [strconv], 64-bit wrap-around).

    Planner, in the order a pass runs: [Capacity], [Catalog] and [Billing]
    (capacity algebra, instance types, prices); [Policy]; [Placement] and
    [Scheduler] (host choice, packing a batch); [Offers] (ranking the ways to
    buy); [Cover] (the beam search for the cheapest set of nodes); [Fleet] (the
    snapshot and plan); [Pass] (the mutable [pass] of fleet_plan.go as a record
    of state, with [act], [buy] and [resume]); [Demand], [Purchase], [Keep]
    (its stages); [Plan] ([PlanFleet]).  [Steps] gives the pass as a
    transition system; [Simulation], [BuySim] and [KeepSim] show that each
    stage is a sequence of those steps; and [TargetProps] (with fleets to
    evaluate), [KeepProps], [KeyProps] and [PlanProps] hold the theorems.

    Hosts: [Hosts] (the table, its phases), [HostSql] (every statement that
    writes it), [Cooldowns] (refused pools and quotas), [Sessions] (sessions
    and the reserve's handshake), [Machines] (joining and enrollment),
    [Actuator] (calls to EC2), [Reconcile], [Launcher]; [Snapshot] and [Driver]
    (the pass around [PlanFleet]).  [HostProps] has what every statement keeps
    of the table; [Lifecycle] makes each transaction a step of one transition
    system; [LifecycleProps], [ReserveProps], [CooldownProps] and [DriverProps]
    hold the theorems.

    Execution: [Exec] (tables and statements), [Attempts] (outcomes, retries,
    dependents, completions, cancellations), [Claims] (claims, reports,
    recovery), [Submit] (admission), [Scaling] (planning).  [ExecInv] states
    the invariant of the tables and how elementary changes keep it;
    [ExecSteps], [ExecAdvance], [ExecFinish], [ExecClaims], [ExecSubmit] and
    [ExecOps] prove it of each group of transactions; [ExecMachine] makes them
    one transition system,
    [ExecDemo] evaluates a history of it, and [ExecProps], [ExecEffects] and
    [ScalingBounds] hold the theorems.

    Billing, beside [Billing]: [Credits] (accounts, lots, hours, balances and
    rollups), [CreditLoops] (the loops that spend credit), [CreditProps] and
    [RollupProps] (what each operation keeps); [Admission] (plans, standing,
    what an account may add, with its theorems); [Payments] (purchases,
    reloads, plan changes and subscriptions) and [PaymentProps]; [Metering] (plans, the ledger,
    the pass), [MeteringProps] and [MeterPass] (plans, writes and the pass);
    [BillingProps] makes them one transition system and holds the theorems.

    Schedules: [Cron] (cron.go), [CronSearch], [CronParse] (the search, the
    field loops, the text), [CronProps] (the theorems);
    [Schedules] (schedules.go and its queries) and [ScheduleProps];
    [ScheduleSubmit] runs the scheduler over execution.

    Edge: [EdgeLoad] (load.go); [Edge] (containers.go and
    the rest of load.go) and [EdgeProps].

    ** How code becomes definitions

    A Go function is a Rocq function of the same name where Rocq allows it; a
    method takes its receiver as an argument, and a method that changes its
    receiver returns it.  [int], [int64] and durations are [Z]; where the code
    can overflow ([setRange], [CPUTime], [costOver], [NextAttemptDelay]) the
    wrap-around, the 128-bit product or the platform's conversion is written
    out.  Times are nanoseconds since year 1, UUIDs are [Z], Go strings are
    Rocq strings.  A call that can fail returns [option], a sum, or [go] of
    [GoLib], which also has panics and loops that never end.  Where the code
    shares objects by pointer, the model has a heap and pointers are indices:
    hosts of a pass are named by their place in the snapshot, and the edge's
    slots and loads live in two heaps, because leases keep them after the maps
    have let go of them.  The planner's memo tables are computed at each use;
    [KeyProps.memo_transparent] justifies it.  Sorts are stable insertion sorts
    with the code's comparison; where the code ranges over a map the order is
    an argument.

    A table is a finite map from primary keys to rows (schedules: a list), a
    SQL statement of the .sql.go files is a function of the transaction's
    clock and the tables, and a transaction is their composition: [Ret] is its
    commit, [Err] leaves the tables as they were.  Transactions that lock the
    rows they read are atomic steps; a pass that works on rows it read in an
    earlier transaction takes them as arguments, so that whatever happened in
    between is covered.  Rows skipped because another transaction holds them
    are arguments of the statements that skip them.

    ** What the theorems show

    - Planning ([PlanProps], [KeepProps], [TargetProps], [KeyProps]): a plan
      never ends or drains a host that holds work up; it buys within the
      fleet's, each market's and each quota's room, which resumes use up too; every pending container has
      one wait, named once, and the waits that name a host name one the plan
      starts; what the plan puts on a host fits it; surplus hosts and reserves
      leave only while the rest hold the target; a replacement pays back; a
      held target is the peak of its window.
    - Hosts ([LifecycleProps], [ReserveProps], [CooldownProps], [DriverProps]):
      in every reachable table each row is well formed for its phase and moves
      only along [CanBecome]; an ended host stays ended; a join token works
      once; a reserve stops and wakes as the handshake says; the actuator makes
      only the calls its rows allow; a refused pool cools for a bounded time;
      and a pass of the driver commits unless a call it makes to execution
      fails or a host cannot be named, its writes are lifecycle transactions,
      and every wait names a row of the table it leaves.
    - Execution ([ExecProps], [ExecEffects], [ScalingBounds]): in every
      reachable state a running task has exactly one running attempt, a queued
      task counts exactly its unfinished upstreams and is never stuck, a
      finished task and its result never change, no container runs more than
      its slots, attempts are bounded; a claim starts only due tasks whose
      upstreams succeeded, with their results, a completion succeeds its task, a
      stale one changes nothing, an exited container leaves no attempt behind;
      and planning a release that runs stays within its maximum and drains no
      container that works.
    - Placement, offers, cover ([Placement], [Scheduler], [Offers], [Cover]):
      no host is overcommitted, the chosen host is the best by the code's
      order, every offer passes the margin and no better one is ranked after a
      worse, and a complete cover meets its need within its limits.
    - Money ([Billing], [BillingProps], [PaymentProps], [Admission]): a charge is the exact product rounded
      half to even, the rate card is total from its last change on; a plan of
      a container bills every instant it should once; over any order of
      passes, grants, refunds, waivers and rollups the books balance (credit
      spent is credit the hours got, an hour costs the sum of its entries, no
      lot or hour is overdrawn), and no instant of a source is billed twice as
      long as passes read what [MeterPass.input_ok] says, with cursors pruned
      as the code prunes them; a
      rollup commits, pays all that credit can pay, and stands until the
      instant it asks to be rechecked at.  Over any interleaving of the
      transactions that settle payments a purchase funds one lot at most,
      reversed by what its row records, and a recorded payment leaves the lot with what Stripe retains of it; an
      account has one plan change open at most; a reload starts only when it
      is due; an invoice's credit is at most what its plans include.  What admission
      lets in keeps an account within its plan, and a deployment is told of its
      region or GPU models exactly when a start of it would be refused for
      another reason than the account's concurrency limit.
    - Schedules: [Next] is the first minute an expression selects and always
      returns; an accepted expression keeps firing; its stored text parses back
      to it; a field selects what its items denote; over any history of
      deploys and passes, a pass of [Fire] at one instant between 2000 and 2071
      ends without error, submits each due schedule it can lock once and leaves
      none of them due; and with execution, every occurrence
      has one task at most, and the task a schedule records is of that
      occurrence ([ScheduleSubmit]).
    - Edge: over any interleaving of its critical sections, every request is
      counted once in the load of its release, no container passes its
      capacity, no release its [max_pending]; a publication says exactly that
      demand; and the sliding peak never misses demand inside its window.
    - Findings, most with a theorem that exhibits them: resumes past the host
      room, a reserve retired while it prepares, a hold that falls early
      ([PlanProps], [TargetProps]); a cron step that overflows and panics, a
      search that misses a schedule across 2100 ([CronProps]); a peak that
      outlives its window under steady traffic ([EdgeLoad]) and a final
      zero that is not published again ([EdgeProps]); decisions traced again at
      every pass ([DriverProps]); a retry delay converted before it is capped
      ([ExecEffects]); accrued cost that stays after the entries it stood for
      are written ([BillingProps]); a sweep that never reads settled purchases
      again, and an old reading of a payment that undoes a refund
      ([PaymentProps]).

    ** Bounds and fuel

    [Cover] extends states at most [cl_Nodes] times, the limit the code checks.
    [resumeFor] loops once per container it still has to place, and
    [PlanProps.resumeFor_finishes] shows that is enough.  [mark] (the loop of
    [setRange]) has 512 iterations for ranges below 128 values; [mark_ends]
    covers every [int] step.  [next_loop] has one iteration per hour up to its
    limit; [next_loop_first] shows it never runs out.  [Fire] has one
    transaction per row of the table and one more; [Fire_ok] shows it ends.
    The failures that spread along dependencies take one round per task; the
    transactions that run them are shown to return.  [entries] has one piece
    per metering period and rate change, and [entries_returns] shows it never
    runs out; a batch of [Rollup] has the code's own limit.  The calendar argument of
    [ParseCron_keeps_firing] covers 2000 to 2071, where every fourth year is a
    leap year.

    ** Parameters

    The Unicode tables behind [strings.Fields] and [strings.ToLower] (used on
    text that is not ASCII) are parameters of [ParseCron].  The schedules'
    admission is the class [Admission] with the law that it returns a task per
    input, which execution discharges.  The names a schedule's row is joined
    with, a release's capacity and [max_pending], and which releases the edge
    has cached are parameters.  EC2's and STS's answers, node images and
    published releases are parameters of the fleet; the class [HostContainers]
    is the interface [Containers] of compute.go, the calls by which the fleet
    moves a host's containers in its own transaction, each of which may fail
    ([Claims] models execution's side of them).  What JSON columns decode to, fresh
    ids, the conversion of a float64 outside int64 ([big]), which workspaces
    have a webhook ([hooked]), what billing admits and grants, and which
    containers leave their host are parameters of execution.  The rows a
    metering pass reads are its input; [input_ok] says what the double-billing
    theorem needs of them, relative to columns that are written once ([facts]):
    distinct rows, a clock that does not go back, containers that lost time to
    preemption read again only inside the look-back, and artifacts stored after
    what their source was billed for; the other theorems take any input; which
    usage a waiver covers, who owns an app and the ids of new lots are
    parameters.  Stripe is a record of the calls the code makes, each with any
    answer; the text of an id is assumed injective; the rows of workspaces,
    members and containers that admission counts are its arguments, and so is
    the folding of GPU names to lower case.  [op_account] stands for the writes of plans and payments to an
    account's row, which the books do not depend on.

    ** Not modelled

    AWS connections, networks and agent releases of src/internal/compute;
    execution's pods, HTTP serving, logs, SSH and snapshots; billing's
    webhooks (which only name what is to be read again), cost pages and
    retention; the host agent, images, storage and disks; the HTTP API, identity and secrets.  They are
    calls to Stripe, AWS, containerd and the kernel, or reads behind the API,
    around little logic of their own.
    Failures of the database itself, logging, metrics and tracing are left out
    of what is modelled. *)

From Stdlib Require Export ZArith Bool List Permutation Sorted Lia.
From stdpp Require Export base list numbers strings gmap.

(** ** Scope and notations *)

Declare Scope go_scope.
Delimit Scope go_scope with go.

(** Go's [==] on comparable types. *)
Notation "a == b" := (bool_decide (a = b)) (at level 70, no associativity) : go_scope.
Notation "a != b" := (negb (bool_decide (a = b))) (at level 70, no associativity) : go_scope.

#[global] Open Scope string_scope.
#[global] Open Scope list_scope.
#[global] Open Scope Z_scope.
#[global] Open Scope go_scope.

Create HintDb fleet.

(** ** Comparisons

    Go's three-way comparisons are negative, zero or positive ints; every one
    the planner uses feeds [cmp.Or] and a sign test, so [comparison] holds
    them. *)

(** [cmp.Or]: the first comparison that is not equal. *)
Definition cmp_or (c d : comparison) : comparison :=
  match c with Eq => d | _ => c end.

Notation "c <+> d" := (cmp_or c d) (at level 65, right associativity) : go_scope.

(** [boolOrder] sorts false before true (fleet_offers.go). *)
Definition boolOrder (a b : bool) : comparison :=
  match a, b with
  | false, true => Lt
  | true, false => Gt
  | _, _ => Eq
  end.

(** [cmp.Or(...) < 0]. *)
Definition is_lt (c : comparison) : bool :=
  match c with Lt => true | _ => false end.

(** A comparison function that is a total preorder: what [slices.SortFunc]
    asks of its argument. *)
Class CmpOrder {A : Type} (cmp : A -> A -> comparison) : Prop := {
  cmp_opp : forall x y, cmp y x = CompOpp (cmp x y);
  cmp_trans : forall x y z, cmp x y <> Gt -> cmp y z <> Gt -> cmp x z <> Gt
}.

Lemma cmp_refl {A} (cmp : A -> A -> comparison) `{!CmpOrder cmp} x : cmp x x = Eq.
Proof. pose proof (cmp_opp x x) as H. destruct (cmp x x); done. Qed.

Lemma cmp_or_order {A} (c d : A -> A -> comparison) :
  CmpOrder c -> CmpOrder d -> CmpOrder (fun x y => c x y <+> d x y).
Proof.
  intros Hc Hd. split.
  - intros x y. unfold cmp_or. rewrite (cmp_opp (cmp := c) x y), (cmp_opp (cmp := d) x y).
    by destruct (c x y).
  - intros x y z. pose proof (cmp_trans (cmp := c) x y z). pose proof (cmp_trans (cmp := c) y z x).
    pose proof (cmp_trans (cmp := c) z x y). pose proof (cmp_trans (cmp := d) x y z).
    pose proof (cmp_opp (cmp := c) x y) as Hxy. pose proof (cmp_opp (cmp := c) y z) as Hyz.
    pose proof (cmp_opp (cmp := c) x z) as Hxz. unfold cmp_or.
    destruct (c x y), (c y z), (c x z), (c y x), (c z y), (c z x); naive_solver.
Qed.

Lemma cmp_preimage_order {A B} (f : B -> A) (c : A -> A -> comparison) :
  CmpOrder c -> CmpOrder (fun x y => c (f x) (f y)).
Proof. intros Hc. split; intros; [by apply cmp_opp | by eapply cmp_trans]. Qed.

Lemma cmp_flip_order {A} (c : A -> A -> comparison) :
  CmpOrder c -> CmpOrder (fun x y => c y x).
Proof. intros Hc. split; intros; [by apply cmp_opp | by eapply (cmp_trans (cmp := c))]. Qed.

#[export] Instance Z_compare_order : CmpOrder Z.compare.
Proof.
  split; [intros; apply Z.compare_antisym|].
  intros x y z. rewrite !Z.compare_ngt_iff. lia.
Qed.

#[export] Instance bool_order_order : CmpOrder boolOrder.
Proof. split; [intros [] []|intros [] [] []]; done. Qed.

(** [strings.Compare], byte by byte. *)
#[export] Instance string_compare_order : CmpOrder String.compare.
Proof.
  split; [intros; apply String.compare_antisym|].
  intros x. induction x as [|a x IH]; intros [|b y] [|c z]; simpl; try done.
  unfold Ascii.compare.
  destruct (N.compare_spec (Ascii.N_of_ascii a) (Ascii.N_of_ascii b)),
    (N.compare_spec (Ascii.N_of_ascii b) (Ascii.N_of_ascii c)),
    (N.compare_spec (Ascii.N_of_ascii a) (Ascii.N_of_ascii c)); try done; try lia.
  apply IH.
Qed.

(** ** Lists *)

(** [slices.IndexFunc], [None] for -1. *)
Fixpoint index_func {A} (f : A -> bool) (l : list A) : option nat :=
  match l with
  | [] => None
  | x :: l => if f x then Some O else S <$> index_func f l
  end.

(** [slices.SortStableFunc]: the sorted order that keeps equal elements in
    place. *)
Fixpoint insert_by {A} (cmp : A -> A -> comparison) (x : A) (l : list A) : list A :=
  match l with
  | [] => [x]
  | y :: l' => if is_lt (cmp y x) then y :: insert_by cmp x l' else x :: l
  end.

Fixpoint sort_by {A} (cmp : A -> A -> comparison) (l : list A) : list A :=
  match l with
  | [] => []
  | x :: l => insert_by cmp x (sort_by cmp l)
  end.

(** [slices.DeleteFunc]. *)
Definition delete_func {A} (del : A -> bool) (l : list A) : list A :=
  List.filter (fun x => negb (del x)) l.

Lemma index_func_Some {A} (f : A -> bool) l i :
  index_func f l = Some i -> exists x, l !! i = Some x /\ f x = true.
Proof.
  revert i. induction l as [|x l IH]; intros i; simpl; [done|].
  destruct (f x) eqn:E.
  - intros [= <-]. eauto.
  - destruct (index_func f l) as [j|]; [|done]. intros [= <-]. simpl. eauto.
Qed.

Lemma index_func_None {A} (f : A -> bool) l :
  index_func f l = None <-> existsb f l = false.
Proof.
  induction l as [|x l IH]; simpl; [done|].
  destruct (f x); simpl; [done|]. rewrite <- IH. by destruct (index_func f l).
Qed.

Lemma index_func_app {A} (f : A -> bool) l k i : index_func f l = Some i -> index_func f (l ++ k) = Some i.
Proof.
  revert i. induction l as [|x l IH]; intros i; simpl; [done|]. destruct (f x); [done|].
  destruct (index_func f l) as [j|]; [|done]. intros [= <-]. by rewrite (IH j).
Qed.

Lemma index_func_first {A} (f : A -> bool) l i j x :
  index_func f l = Some i -> l !! j = Some x -> (j < i)%nat -> f x = false.
Proof.
  revert i j. induction l as [|y l IH]; intros i j; simpl; [done|].
  destruct (f y) eqn:E; [intros [= <-]; lia|].
  destruct (index_func f l) as [k|]; [|done]. intros [= <-] Hj Hlt.
  destruct j; simpl in *; [congruence|]. eapply IH; eauto. lia.
Qed.

Lemma insert_by_perm {A} (cmp : A -> A -> comparison) x l : insert_by cmp x l ≡ₚ x :: l.
Proof.
  induction l as [|y l IH]; simpl; [done|]. case_match; [|done].
  rewrite IH. constructor.
Qed.

Lemma sort_by_perm {A} (cmp : A -> A -> comparison) l : sort_by cmp l ≡ₚ l.
Proof. induction l as [|x l IH]; simpl; [done|]. by rewrite insert_by_perm, IH. Qed.

Lemma sort_by_In {A} (cmp : A -> A -> comparison) l x : In x (sort_by cmp l) <-> In x l.
Proof. split; apply Permutation_in; [|symmetry]; apply sort_by_perm. Qed.

Lemma sort_by_length {A} (cmp : A -> A -> comparison) l : length (sort_by cmp l) = length l.
Proof. apply Permutation_length, sort_by_perm. Qed.

(** The order a sorted list keeps. *)
Definition cmp_le {A} (cmp : A -> A -> comparison) (x y : A) : Prop := cmp x y <> Gt.

Lemma insert_by_sorted {A} (cmp : A -> A -> comparison) `{!CmpOrder cmp} x l :
  StronglySorted (cmp_le cmp) l -> StronglySorted (cmp_le cmp) (insert_by cmp x l).
Proof.
  unfold cmp_le. induction 1 as [|y l Hl IH Hy]; simpl; [repeat constructor|].
  destruct (cmp y x) eqn:E; simpl;
    try (constructor; [by constructor|]; constructor;
         [rewrite (cmp_opp y x), E; done|];
         eapply Forall_impl; [exact Hy|]; intros z Hz; eapply cmp_trans; [|exact Hz];
         rewrite (cmp_opp y x), E; done).
  constructor; [done|].
  eapply Permutation_Forall; [symmetry; apply insert_by_perm|].
  constructor; [by rewrite E|done].
Qed.

Lemma sort_by_sorted {A} (cmp : A -> A -> comparison) `{!CmpOrder cmp} l :
  StronglySorted (cmp_le cmp) (sort_by cmp l).
Proof. induction l; simpl; [constructor|by apply insert_by_sorted]. Qed.

(** Sorting by a comparison that tells distinct elements apart does not
    depend on the order of its input: what makes a sort of a Go map's values
    deterministic. *)
Lemma sort_by_perm_eq {A} (cmp : A -> A -> comparison) `{!CmpOrder cmp} l l' :
  (forall x y, In x l -> In y l -> cmp x y = Eq -> x = y) ->
  l ≡ₚ l' -> sort_by cmp l = sort_by cmp l'.
Proof.
  intros Hinj Hp.
  assert (Hs := sort_by_sorted cmp l). assert (Hs' := sort_by_sorted cmp l').
  assert (Hp' : sort_by cmp l ≡ₚ sort_by cmp l') by (by rewrite !sort_by_perm).
  assert (Hin : forall x y, In x (sort_by cmp l) -> In y (sort_by cmp l) -> cmp x y = Eq -> x = y).
  { intros x y. rewrite !sort_by_In. apply Hinj. }
  clear Hinj Hp. revert Hs Hs' Hp' Hin.
  generalize (sort_by cmp l) (sort_by cmp l'). clear l l'. intros l.
  induction l as [|x l IH]; intros l' Hs Hs' Hp Hin.
  - by apply Permutation_nil_l in Hp.
  - destruct l' as [|y l']; [by apply Permutation_nil_r in Hp|].
    inversion_clear Hs as [|? ? Hsl Hx]. inversion_clear Hs' as [|? ? Hsl' Hy].
    assert (x = y) as ->.
    { assert (Hxy : In y (x :: l)) by (apply (Permutation_in _ (Permutation_sym Hp)); by left).
      assert (Hyx : In x (y :: l')) by (apply (Permutation_in _ Hp); by left).
      destruct Hxy as [|Hxy]; [done|]. destruct Hyx as [|Hyx]; [done|].
      rewrite List.Forall_forall in Hx, Hy. pose proof (Hx y Hxy) as H1.
      pose proof (Hy x Hyx) as H2. apply Hin; [simpl; auto..|].
      unfold cmp_le in *. rewrite (cmp_opp (cmp := cmp) x y) in H2.
      destruct (cmp x y); simpl in *; congruence. }
    f_equal. apply IH; auto.
    + by eapply Permutation_cons_inv.
    + intros; apply Hin; simpl; auto.
Qed.

(** ** Loops over lists *)

(** Induction over a [fold_left] with an invariant that holds at every
    prefix. *)
Lemma fold_left_inv {A B} (P : A -> Prop) (f : A -> B -> A) l a :
  P a -> (forall a b, In b l -> P a -> P (f a b)) -> P (fold_left f l a).
Proof.
  revert a. induction l as [|b l IH]; intros a Ha Hf; simpl; [done|].
  apply IH; [apply Hf; simpl; auto|]. intros; apply Hf; simpl; auto.
Qed.

(** An invariant of a fold that knows what it has folded. *)
Lemma fold_left_prefix {A B} (P : list B -> A -> Prop) (f : A -> B -> A) l a :
  P [] a -> (forall pre x post a, l = pre ++ x :: post -> P pre a -> P (pre ++ [x]) (f a x)) -> P l (fold_left f l a).
Proof.
  intros H0 Hs. enough (H : forall pre post a, l = pre ++ post -> P pre a -> P l (fold_left f post a)) by (by apply (H [])).
  intros pre post. revert pre. induction post as [|x post IH]; intros pre b E Hp; simpl.
  - by rewrite app_nil_r in E; subst.
  - apply (IH (pre ++ [x])); [by rewrite <- app_assoc|]. by eapply Hs.
Qed.

(** The loop that keeps the best positive score seen so far. *)
Definition argmax_step {A B} (f : A -> option (B * Z)) (best : option (B * Z)) (x : A) : option (B * Z) :=
  match f x with
  | Some (y, n) => if n >? match best with Some (_, b) => b | None => 0 end then Some (y, n) else best
  | None => best
  end.

Lemma fold_argmax {A B} (f : A -> option (B * Z)) l :
  (forall y n, fold_left (argmax_step f) l None = Some (y, n) -> 0 < n /\ exists x, In x l /\ f x = Some (y, n)) /\
  (forall x y n, In x l -> f x = Some (y, n) -> 0 < n ->
     exists y' n', fold_left (argmax_step f) l None = Some (y', n') /\ n <= n').
Proof.
  apply (fold_left_prefix (fun pre best =>
    (forall y n, best = Some (y, n) -> 0 < n /\ exists x, In x pre /\ f x = Some (y, n)) /\
    (forall x y n, In x pre -> f x = Some (y, n) -> 0 < n -> exists y' n', best = Some (y', n') /\ n <= n'))); [done|].
  intros pre x post best _ [H1 H2]. unfold argmax_step. destruct (f x) as [[y n]|] eqn:Ef.
  2: { split.
    - intros y' n' E. destruct (H1 y' n' E) as (? & z & ? & ?). split; [done|]. exists z. split; [apply in_or_app; auto|done].
    - intros z y' n' [Hz|[<-|[]]]%in_app_or E Hn; [eauto|congruence]. }
  destruct (Z.gtb_spec n (match best with Some (_, b) => b | None => 0 end)) as [Hg|Hg].
  - assert (Hn : 0 < n). { destruct best as [[z b]|]; [|done]. destruct (H1 z b eq_refl). lia. }
    split.
    + intros y' n' [= <- <-]. split; [done|]. exists x. split; [apply in_or_app; simpl; auto|done].
    + intros z y' n' [Hz|[<-|[]]]%in_app_or E Hn'; [|exists y, n; split; [done|]; replace n' with n by congruence; lia].
      destruct (H2 z y' n' Hz E Hn') as (yb & nb & -> & Hle). exists y, n. split; [done|lia].
  - split.
    + intros y' n' E. destruct (H1 y' n' E) as (? & z & ? & ?). split; [done|]. exists z. split; [apply in_or_app; auto|done].
    + intros z y' n' [Hz|[<-|[]]]%in_app_or E Hn'; [eauto|]. replace n' with n in * by congruence.
      destruct best as [[yb nb]|]; [|lia]. exists yb, nb. split; [done|lia].
Qed.

Lemma fold_left_ext {A B} (f g : A -> B -> A) l a : (forall a x, f a x = g a x) -> fold_left f l a = fold_left g l a.
Proof. intros H. revert a. induction l as [|x l IH]; intros a; simpl; [done|]. by rewrite H, IH. Qed.

Lemma existsb_false {A} (f : A -> bool) l :
  existsb f l = false <-> forall x, In x l -> f x = false.
Proof.
  split.
  - intros H x Hx. apply not_true_iff_false. intros Hf.
    apply not_true_iff_false in H. apply H, existsb_exists. eauto.
  - intros H. apply not_true_iff_false. intros (x & Hx & Hf)%existsb_exists.
    rewrite H in Hf; done.
Qed.

Lemma delete_func_In {A} (del : A -> bool) l x :
  In x (delete_func del l) <-> In x l /\ del x = false.
Proof. unfold delete_func. rewrite List.filter_In, negb_true_iff. done. Qed.

(** ** Sublists and indexed lists *)

Lemma lookup_In {A} (l : list A) n x : l !! n = Some x -> In x l.
Proof. intros H. by eapply list_elem_of_In, list_elem_of_lookup_2. Qed.

Lemma sublist_In {A} (l k : list A) x : sublist l k -> In x l -> In x k.
Proof. rewrite <- !list_elem_of_In. intros Hs Hx. by eapply elem_of_sublist. Qed.

Lemma sublist_map {A B} (f : A -> B) (l k : list A) : sublist l k -> sublist (map f l) (map f k).
Proof. apply (fmap_sublist f). Qed.

Lemma sublist_List_filter {A} (f : A -> bool) (l : list A) : sublist (List.filter f l) l.
Proof. induction l as [|x l IH]; simpl; [done|]. by destruct (f x); constructor. Qed.

Lemma imap_pair_fst {A} (l : list A) : map fst (imap pair l) = seq 0 (length l).
Proof.
  apply list_eq. intros i. rewrite list_lookup_fmap, list_lookup_imap. destruct (l !! i) eqn:E; simpl.
  - symmetry. apply lookup_seq. split; [done|]. by eapply lookup_lt_Some.
  - symmetry. apply lookup_ge_None. rewrite length_seq. by apply lookup_ge_None.
Qed.

Lemma imap_pair_snd {A} (l : list A) : map snd (imap pair l) = l.
Proof. apply list_eq. intros i. rewrite list_lookup_fmap, list_lookup_imap. by destruct (l !! i). Qed.

Lemma imap_pair_In {A} (l : list A) n x : In (n, x) (imap pair l) <-> l !! n = Some x.
Proof.
  rewrite <- list_elem_of_In, list_elem_of_lookup. split.
  - intros [i Hi]. rewrite list_lookup_imap in Hi. destruct (l !! i) eqn:E; [|done]. simpl in Hi. congruence.
  - intros Hn. exists n. by rewrite list_lookup_imap, Hn.
Qed.

Lemma flat_map_alter {A B} (f : A -> list B) (g : A -> A) (l : list A) i x :
  l !! i = Some x -> Permutation (flat_map f (alter g i l) ++ f x) (flat_map f l ++ f (g x)).
Proof.
  revert i. induction l as [|y l IH]; intros [|i] Hi; simplify_eq/=.
  - rewrite (Permutation_app_comm (f (g x))), (Permutation_app_comm (f x)), <- !app_assoc.
    apply Permutation_app_head, Permutation_app_comm.
  - rewrite <- !app_assoc. apply Permutation_app_head, IH. done.
Qed.

Lemma flat_map_insert {A B} (f : A -> list B) (l : list A) i x y :
  l !! i = Some x -> Permutation (flat_map f (<[i := y]> l) ++ f x) (flat_map f l ++ f y).
Proof.
  revert i. induction l as [|z l IH]; intros [|i] Hi; simplify_eq/=.
  - rewrite (Permutation_app_comm (f y)), (Permutation_app_comm (f x)), <- !app_assoc.
    apply Permutation_app_head, Permutation_app_comm.
  - rewrite <- !app_assoc. apply Permutation_app_head, IH. done.
Qed.

(** ** Sums *)

Definition sumZ (l : list Z) : Z := fold_right Z.add 0 l.

Lemma sumZ_app l k : sumZ (l ++ k) = sumZ l + sumZ k.
Proof. induction l; simpl; lia. Qed.

Lemma sumZ_perm l k : l ≡ₚ k -> sumZ l = sumZ k.
Proof. induction 1; simpl; lia. Qed.

Lemma sumZ_nonneg l : (forall x, In x l -> 0 <= x) -> 0 <= sumZ l.
Proof. induction l as [|a l IH]; simpl; intros H; [lia|]. specialize (H a (or_introl eq_refl)) as Ha. assert (0 <= sumZ l) by auto. lia. Qed.

(** ** Booleans *)

(** Splits every boolean conjunction, disjunction and negation the goal's
    hypotheses hold as equations with [true] or [false]. *)
Ltac bools :=
  repeat match goal with
  | H : (_ && _)%bool = true |- _ => apply andb_true_iff in H as [? ?]
  | H : (_ || _)%bool = false |- _ => apply orb_false_iff in H as [? ?]
  | H : negb _ = true |- _ => apply negb_true_iff in H
  | H : negb _ = false |- _ => apply negb_false_iff in H
  | H : bool_decide _ = true |- _ => apply bool_decide_eq_true in H
  | H : bool_decide _ = false |- _ => apply bool_decide_eq_false in H
  | H : (_ <=? _) = true |- _ => apply Z.leb_le in H
  | H : (_ <=? _) = false |- _ => apply Z.leb_gt in H
  | H : (_ <? _) = true |- _ => apply Z.ltb_lt in H
  | H : (_ <? _) = false |- _ => apply Z.ltb_ge in H
  | H : (_ >=? _) = true |- _ => rewrite Z.geb_leb in H
  | H : (_ >=? _) = false |- _ => rewrite Z.geb_leb in H
  | H : (_ >? _) = true |- _ => rewrite Z.gtb_ltb in H
  | H : (_ >? _) = false |- _ => rewrite Z.gtb_ltb in H
  | H : (_ =? _) = true |- _ => apply Z.eqb_eq in H
  | H : (_ =? _) = false |- _ => apply Z.eqb_neq in H
  end.

(** ** Time

    A [time.Time] is nanoseconds since Go's zero time, January 1, year 1,
    UTC, so [time.Time{}] is 0; a [time.Duration] is nanoseconds. *)

Definition nanosecond : Z := 1.
Definition second : Z := 1000000000.
Definition minute : Z := 60 * second.
Definition hour : Z := 60 * minute.

Definition min_int64 : Z := - 2 ^ 63.
Definition max_int64 : Z := 2 ^ 63 - 1.

(** [Time.Sub], which saturates at the range of a duration. *)
Definition time_sub (t u : Z) : Z := Z.max min_int64 (Z.min max_int64 (t - u)).

(** [int64(d / time.Second)]. *)
Definition seconds (d : Z) : Z := Z.quot d second.

(** ** Record updates

    A table row has some fifty columns and an [update] sets a few of them, so
    rows are updated by field.  A record with an [Eta] instance, its
    eta-expansion, gets an updater for each of its projections: the
    eta-expansion with that projection's value changed. *)

Class Eta (R : Type) := eta : R -> R.

Class Field {R T : Type} (p : R -> T) := over : (T -> T) -> R -> R.
#[global] Arguments over {R T} p {Field} f r : simpl never.

Ltac build_field p :=
  match type of p with
  | ?R -> _ =>
      let e := constr:(_ : Eta R) in
      let e := eval hnf in e in
      let f := fresh "f" in let r := fresh "r" in unfold Field; intros f r;
      let b := eval cbv beta in (e r) in
      match eval pattern (p r) in b with
      | ?F _ => let t := eval cbv beta in (F (f (p r))) in exact t
      end
  end.

#[export] Hint Extern 1 (Field ?p) => build_field p : typeclass_instances.

Notation "r <| p := v |>" := (over p (fun _ => v) r)
  (at level 1, left associativity, format "r  <| p  :=  v |>") : go_scope.
