(* ===== verification/Float64.v ===== *)
(** Go's [float64] as the standard's specification of IEEE 754 binary64
    arithmetic (53 bits of precision, exponents below 1024, rounding to
    nearest, ties to even), in Rocq's own executable definition of it. The
    planner computes with floats in two places only: the tightness score of
    [ChooseHost] and the progress of [Cover]; both only divide, add and
    compare. *)

From Stdlib Require Import SpecFloat.
From S2P Require Import Prelude.

Definition float64 : Type := spec_float.

(** [float64(n)] of an integer. *)
Definition of_int (n : Z) : float64 := binary_normalize 53 1024 n 0 false.

(** [x + y] and [x / y]. *)
Definition fadd (x y : float64) : float64 := SFadd 53 1024 x y.
Definition fdiv (x y : float64) : float64 := SFdiv 53 1024 x y.

Definition is_nan_f (x : float64) : bool :=
  match x with S754_nan => true | _ => false end.

(** [cmp.Compare] on floats: a NaN is below every number and equal to a
    NaN. *)
Definition fcompare (x y : float64) : comparison :=
  match is_nan_f x, is_nan_f y with
  | true, true => Eq
  | true, false => Lt
  | false, true => Gt
  | false, false => match SFcompare x y with Some c => c | None => Eq end
  end.

(** The builtin [max] of two floats. *)
Definition fmax (x y : float64) : float64 :=
  if is_nan_f x || is_nan_f y then S754_nan
  else match fcompare x y with Lt => y | _ => x end.

(** The constant 0.001: 0x10624dd2f1a9fc * 2^-62. *)
Definition f0_001 : float64 := S754_finite false 4611686018427388 (-62).

(** Floats compare as the lexicographic order of a key, so [fcompare] is a
    total preorder. *)
Definition fkey (x : float64) : Z * (Z * Z) :=
  match x with
  | S754_nan => (-3, (0, 0))
  | S754_infinity true => (-2, (0, 0))
  | S754_finite true m e => (-1, (- e, - Zpos m))
  | S754_zero _ => (0, (0, 0))
  | S754_finite false m e => (1, (e, Zpos m))
  | S754_infinity false => (2, (0, 0))
  end.

Definition key_compare (a b : Z * (Z * Z)) : comparison :=
  Z.compare (fst a) (fst b) <+> (Z.compare (fst (snd a)) (fst (snd b)) <+> Z.compare (snd (snd a)) (snd (snd b))).

Lemma fcompare_key x y : fcompare x y = key_compare (fkey x) (fkey y).
Proof.
  destruct x as [[]|[]| |[] m e], y as [[]|[]| |[] m' e']; try reflexivity;
    unfold fcompare, key_compare, cmp_or; simpl.
  - rewrite Z.compare_opp, (Z.compare_antisym e e').
    by destruct (e ?= e').
  - by destruct (e ?= e').
Qed.

#[export] Instance key_compare_order : CmpOrder key_compare.
Proof.
  repeat apply cmp_or_order;
    [apply (cmp_preimage_order fst)
    |apply (cmp_preimage_order (fun a : Z * (Z * Z) => fst (snd a)))
    |apply (cmp_preimage_order (fun a : Z * (Z * Z) => snd (snd a)))]; apply _.
Qed.

#[export] Instance fcompare_order : CmpOrder fcompare.
Proof.
  split.
  - intros x y. rewrite !fcompare_key. apply cmp_opp.
  - intros x y z. rewrite !fcompare_key. apply cmp_trans.
Qed.
