(* ===== verification/Capacity.v ===== *)
(** Fleet capacity: CPU, memory and GPUs, the arithmetic every planning
    decision is made in (internal/compute/fleet_policy.go and the record in
    fleet_admin.go), the split of headroom into parts and the first-fit test
    of those parts against free rooms (fleet_target.go), and the core and
    thread arithmetic of internal/cpu/cpu.go.

    Amounts are Go [int64] and [int] values; the model keeps them in [Z] and
    writes Go's truncating division as [Z.quot]. *)

From S2P Require Import Prelude.

(** ** internal/cpu *)

Record Topology := mkTopology { Threads : Z; Cores : Z }.

#[export] Instance Topology_eq_dec : EqDecision Topology.
Proof. solve_decision. Defined.

(** [Validate] refuses a topology no machine has; [true] is no error. *)
Definition validate (t : Topology) : bool :=
  negb ((Cores t <? 1) || (Threads t <? Cores t)).

Definition topology_CPUMillis (t : Topology) : Z := Cores t * 1000.

(** [Topology.VCPUs]: thousandths of a hardware thread. *)
Definition topology_VCPUs (t : Topology) (c : Z) : Z := Z.quot (c * Threads t) (Cores t).

(** [Topology.CPUTime] in Go's [uint64]: the product wraps. *)
Definition CPUTime (t : Topology) (vcpuUsec : Z) : Z :=
  ((vcpuUsec * Cores t) mod 2 ^ 64) / Threads t.

(** ** The record *)

Record FleetCapacity := mkCap { CPUMillis : Z; MemoryBytes : Z; GPUs : Z }.

#[export] Instance FleetCapacity_eq_dec : EqDecision FleetCapacity.
Proof. solve_decision. Defined.

(** [FleetCapacity{}]. *)
Definition cap0 : FleetCapacity := mkCap 0 0 0.

Definition Plus (a b : FleetCapacity) : FleetCapacity :=
  mkCap (CPUMillis a + CPUMillis b) (MemoryBytes a + MemoryBytes b) (GPUs a + GPUs b).

Definition Minus (a b : FleetCapacity) : FleetCapacity :=
  mkCap (CPUMillis a - CPUMillis b) (MemoryBytes a - MemoryBytes b) (GPUs a - GPUs b).

Definition Times (a : FleetCapacity) (n : Z) : FleetCapacity :=
  mkCap (CPUMillis a * n) (MemoryBytes a * n) (GPUs a * n).

Definition Covers (a b : FleetCapacity) : bool :=
  (CPUMillis a >=? CPUMillis b) && (MemoryBytes a >=? MemoryBytes b) && (GPUs a >=? GPUs b).

Definition Upper (a b : FleetCapacity) : FleetCapacity :=
  mkCap (Z.max (CPUMillis a) (CPUMillis b)) (Z.max (MemoryBytes a) (MemoryBytes b)) (Z.max (GPUs a) (GPUs b)).

Definition Lower (a b : FleetCapacity) : FleetCapacity :=
  mkCap (Z.min (CPUMillis a) (CPUMillis b)) (Z.min (MemoryBytes a) (MemoryBytes b)) (Z.min (GPUs a) (GPUs b)).

Definition Clamp (a : FleetCapacity) : FleetCapacity := Upper a cap0.

(** [Percent]: CPU and memory rounded up, GPUs rounded down; nothing when a
    share of GPU load rounds to no card. *)
Definition Percent (a : FleetCapacity) (p : Z) : FleetCapacity :=
  let up v := Z.quot (v * p + 99) 100 in
  let gpus := Z.quot (GPUs a * p) 100 in
  if (GPUs a >? 0) && (gpus =? 0) then cap0
  else mkCap (up (CPUMillis a)) (up (MemoryBytes a)) gpus.

Definition Empty (a : FleetCapacity) : bool := Covers cap0 a.

(** The dimensions of two capacities, in the order the Go loops read them. *)
Definition dims (a b : FleetCapacity) : list (Z * Z) :=
  [(CPUMillis a, CPUMillis b); (MemoryBytes a, MemoryBytes b); (GPUs a, GPUs b)].

(** [fits]: how many copies of [shape] fit in [a], bounded by [limit]. *)
Definition cap_fits (a shape : FleetCapacity) (limit : Z) : Z :=
  fold_left (fun n d => if d.2 >? 0 then Z.min n (Z.quot (Z.max d.1 0) d.2) else n) (dims a shape) limit.

Definition totalOf {T} (items : list T) (f : T -> FleetCapacity) : FleetCapacity :=
  fold_left (fun total item => Plus total (f item)) items cap0.

(** [total] sums capacities (fleet_target.go). *)
Definition total (parts : list FleetCapacity) : FleetCapacity :=
  fold_left Plus parts cap0.

(** [split] divides [c] into the fewest equal parts, rounded up, that each
    fit within [bound]. *)
Definition split_count (c bound : FleetCapacity) : Z :=
  fold_left (fun n d => if d.2 >? 0 then Z.max n (Z.quot (d.1 + d.2 - 1) d.2) else n) (dims c bound) 1.

Definition split (c bound : FleetCapacity) : list FleetCapacity :=
  if Empty c then []
  else
    let n := split_count c bound in
    let up v := Z.quot (v + n - 1) n in
    replicate (Z.to_nat n) (mkCap (up (CPUMillis c)) (up (MemoryBytes c)) (up (GPUs c))).

(** [unplaced]: the parts that do not fit, first fit, in the rooms. *)
Fixpoint unplaced (rooms parts : list FleetCapacity) : list FleetCapacity :=
  match parts with
  | [] => []
  | part :: parts =>
      match index_func (fun r => Covers r part) rooms with
      | None => part :: unplaced rooms parts
      | Some i => unplaced (alter (fun r => Minus r part) i rooms) parts
      end
  end.

Definition placesAll (rooms parts : list FleetCapacity) : bool :=
  match unplaced rooms parts with [] => true | _ => false end.

(** [shapeOrder] sorts shapes by GPUs, then memory, then CPU
    (fleet_cover.go). *)
Definition shapeOrder (a b : FleetCapacity) : comparison :=
  Z.compare (GPUs a) (GPUs b) <+> (Z.compare (MemoryBytes a) (MemoryBytes b) <+> Z.compare (CPUMillis a) (CPUMillis b)).

(** ** The order [Covers] decides *)

Definition cap_le (a b : FleetCapacity) : Prop :=
  CPUMillis a <= CPUMillis b /\ MemoryBytes a <= MemoryBytes b /\ GPUs a <= GPUs b.

Infix "⊑c" := cap_le (at level 70, no associativity) : go_scope.

(** A capacity with no negative dimension. *)
Definition cap_nonneg (a : FleetCapacity) : Prop := cap0 ⊑c a.

Lemma Covers_spec a b : Covers a b = true <-> b ⊑c a.
Proof. unfold Covers, cap_le. rewrite !andb_true_iff, !Z.geb_leb, !Z.leb_le. tauto. Qed.

Lemma Covers_false a b : Covers a b = false <-> ~ b ⊑c a.
Proof. rewrite <- Covers_spec. by destruct (Covers a b). Qed.

Lemma Empty_spec a : Empty a = true <-> a ⊑c cap0.
Proof. apply Covers_spec. Qed.

(** Reduces a capacity goal to linear arithmetic in each dimension. *)
Ltac cap_simpl :=
  repeat match goal with
  | H : Covers _ _ = true |- _ => apply Covers_spec in H
  | H : Covers _ _ = false |- _ => apply Covers_false in H
  | H : Empty _ = true |- _ => apply Empty_spec in H
  | |- Covers _ _ = true => apply Covers_spec
  | |- Empty _ = true => apply Empty_spec
  end;
  unfold cap_nonneg, cap_le, Clamp, Plus, Minus, Times, Upper, Lower, cap0 in *; simpl in *.

Ltac cap_lia := cap_simpl; lia.

Lemma cap_eq a b : a ⊑c b -> b ⊑c a -> a = b.
Proof. destruct a, b. unfold cap_le. simpl. intros. f_equal; lia. Qed.

#[export] Instance cap_le_preorder : PreOrder cap_le.
Proof. split; [intros a; cap_lia|intros a b c; cap_lia]. Qed.

#[export] Instance cap_le_antisymm : AntiSymm (=) cap_le.
Proof. intros a b. apply cap_eq. Qed.

#[export] Instance Plus_proper : Proper (cap_le ==> cap_le ==> cap_le) Plus.
Proof. intros a b ? c d ?. cap_lia. Qed.

Lemma shapeOrder_order : CmpOrder shapeOrder.
Proof.
  repeat apply cmp_or_order;
    [apply (cmp_preimage_order GPUs)|apply (cmp_preimage_order MemoryBytes)|apply (cmp_preimage_order CPUMillis)];
    apply _.
Qed.
#[export] Existing Instance shapeOrder_order.

Lemma Plus_0_l a : Plus cap0 a = a.
Proof. by destruct a. Qed.

Lemma Plus_comm a b : Plus a b = Plus b a.
Proof. unfold Plus. f_equal; lia. Qed.

Lemma Plus_assoc a b c : Plus a (Plus b c) = Plus (Plus a b) c.
Proof. unfold Plus. simpl. f_equal; lia. Qed.

Lemma fold_Plus_acc {T} (f : T -> FleetCapacity) l a :
  fold_left (fun t x => Plus t (f x)) l a = Plus a (fold_left (fun t x => Plus t (f x)) l cap0).
Proof.
  revert a. induction l as [|x l IH]; intros a; simpl.
  - unfold Plus; simpl. destruct a; simpl; f_equal; lia.
  - rewrite (IH (Plus a (f x))), (IH (Plus cap0 (f x))), Plus_0_l. symmetry. apply Plus_assoc.
Qed.

Lemma total_cons x l : total (x :: l) = Plus x (total l).
Proof.
  unfold total at 1. simpl. rewrite Plus_0_l.
  exact (fold_Plus_acc id l x).
Qed.

Lemma totalOf_cons {T} (f : T -> FleetCapacity) x l : totalOf (x :: l) f = Plus (f x) (totalOf l f).
Proof. unfold totalOf. simpl. by rewrite fold_Plus_acc, Plus_0_l. Qed.

Lemma totalOf_app {T} (f : T -> FleetCapacity) l k : totalOf (l ++ k) f = Plus (totalOf l f) (totalOf k f).
Proof. unfold totalOf. rewrite fold_left_app, fold_Plus_acc. done. Qed.

Lemma totalOf_snoc {T} (f : T -> FleetCapacity) l x : totalOf (l ++ [x]) f = Plus (totalOf l f) (f x).
Proof. rewrite totalOf_app, totalOf_cons. f_equal. rewrite Plus_comm. apply Plus_0_l. Qed.

(** A sum depends on the elements, not on their order. *)
#[export] Instance totalOf_perm {T} : Proper ((≡ₚ) ==> eq ==> eq) (@totalOf T).
Proof.
  intros l k H f g <-. induction H; rewrite ?totalOf_cons; try congruence. by rewrite !Plus_assoc, (Plus_comm (f y)).
Qed.

Lemma totalOf_nonneg {T} (f : T -> FleetCapacity) l : (forall x, In x l -> cap_nonneg (f x)) -> cap_nonneg (totalOf l f).
Proof.
  induction l as [|x l IH]; intros H; [cap_lia|]. rewrite totalOf_cons.
  pose proof (H x (or_introl eq_refl)). pose proof (IH (fun y Hy => H y (or_intror Hy))). cap_lia.
Qed.

(** A sum over more elements is no less. *)
Lemma totalOf_incl {T} (f : T -> FleetCapacity) l k :
  NoDup l -> (forall x, In x l -> In x k) -> (forall x, In x k -> cap_nonneg (f x)) -> totalOf l f ⊑c totalOf k f.
Proof.
  intros Hl Hi Hf. assert (Hs : l ⊆+ k).
  { apply NoDup_submseteq; [done|]. intros x. rewrite !list_elem_of_In. auto. }
  apply submseteq_Permutation in Hs as [rest E]. rewrite E, totalOf_app.
  assert (Hr : cap_nonneg (totalOf rest f)).
  { apply totalOf_nonneg. intros x Hx. apply Hf, list_elem_of_In. rewrite E. apply elem_of_app. right. by apply list_elem_of_In. }
  cap_lia.
Qed.

Lemma totalOf_total {T} (f : T -> FleetCapacity) l : totalOf l f = total (f <$> l).
Proof. induction l; simpl; [done|]. by rewrite totalOf_cons, total_cons, IHl. Qed.

Lemma total_replicate n a : total (replicate n a) = Times a (Z.of_nat n).
Proof.
  induction n as [|n IH]; [unfold Times, total, cap0; simpl; f_equal; lia|].
  simpl replicate. rewrite total_cons, IH. unfold Plus, Times. cbn [CPUMillis MemoryBytes GPUs]. f_equal; lia.
Qed.

(** ** Lattice *)

(** [Upper] is the least capacity that covers both, [Lower] the largest
    both cover, and [Clamp] the least non-negative one above its argument. *)
Lemma Upper_lub a b c : Covers c (Upper a b) = Covers c a && Covers c b.
Proof.
  apply eq_iff_eq_true. rewrite andb_true_iff, !Covers_spec. split; [intros H; split; cap_lia|intros [H1 H2]; cap_lia].
Qed.

Lemma Lower_glb a b c : Covers (Lower a b) c = Covers a c && Covers b c.
Proof.
  apply eq_iff_eq_true. rewrite andb_true_iff, !Covers_spec. split; [intros H; split; cap_lia|intros [H1 H2]; cap_lia].
Qed.

Lemma Minus_Plus_covers a b c : Covers (Minus a b) c = Covers a (Plus b c).
Proof. apply eq_iff_eq_true. rewrite !Covers_spec. split; intros; cap_lia. Qed.

(** ** [fits] *)

(** A dimension of [shape] that is positive bounds the copies. *)
Lemma fits_dim x y n : 0 < y -> 0 <= n -> n <= Z.quot (Z.max x 0) y <-> n * y <= Z.max x 0.
Proof.
  intros Hy Hn. rewrite Z.quot_div_nonneg by lia.
  split; intros H.
  - pose proof (Z.mul_div_le (Z.max x 0) y Hy). nia.
  - apply Z.div_le_lower_bound; lia.
Qed.

Lemma cap_fits_min a shape limit n :
  0 <= n ->
  n <= cap_fits a shape limit <->
  n <= limit /\ Forall (fun d => 0 < d.2 -> n * d.2 <= Z.max d.1 0) (dims a shape).
Proof.
  intros Hn. unfold cap_fits. generalize (dims a shape) as ds. intros ds. revert limit.
  induction ds as [|d ds IH]; intros limit; simpl; [by rewrite Forall_nil; tauto|].
  rewrite IH, Forall_cons. destruct (Z.gtb_spec (d.2) 0) as [Hd|Hd].
  - rewrite Z.min_glb_iff, fits_dim by lia. intuition lia.
  - intuition lia.
Qed.

(** [fits] is the number of copies that fit: with a room and a shape that
    are not negative, [n] copies within the limit fit exactly when [n] is at
    most it. *)
Lemma cap_fits_spec a shape limit n :
  cap_nonneg a -> cap_nonneg shape -> 0 <= n <= limit ->
  (n <= cap_fits a shape limit <-> Covers a (Times shape n) = true).
Proof.
  intros Ha Hs Hn. rewrite cap_fits_min by lia. rewrite Covers_spec.
  unfold dims. rewrite !Forall_cons, Forall_nil. unfold cap_nonneg, cap_le, cap0, Times in *. simpl in *.
  split; [intros (_ & H1 & H2 & H3 & _)|intros (H1 & H2 & H3)];
    repeat split; intros; nia.
Qed.

Lemma cap_fits_le_limit a shape limit : 0 <= limit -> 0 <= cap_fits a shape limit <= limit.
Proof.
  intros Hl. split; [apply cap_fits_min; [lia|]|].
  - split; [lia|]. apply List.Forall_forall. intros; lia.
  - destruct (Z.le_gt_cases (cap_fits a shape limit) 0); [lia|].
    eapply (cap_fits_min a shape limit); [|done]. lia.
Qed.

(** ** [split] *)

Lemma split_count_pos c bound : 1 <= split_count c bound.
Proof.
  unfold split_count. apply (fold_left_inv (fun n => 1 <= n)); [lia|].
  intros n d _ Hn. destruct (d.2 >? 0); lia.
Qed.

(** The count suffices in every dimension the bound has, and no smaller
    positive count does. *)
Lemma split_count_spec c bound k :
  cap_nonneg c -> 1 <= k ->
  (split_count c bound <= k <-> Forall (fun d => 0 < d.2 -> d.1 <= k * d.2) (dims c bound)).
Proof.
  intros Hc Hk. unfold split_count.
  assert (Hd : Forall (fun d => 0 <= d.1) (dims c bound)).
  { unfold dims, cap_nonneg, cap_le, cap0 in *. simpl in *. repeat constructor; simpl; lia. }
  cut (forall ds n, Forall (fun d => 0 <= d.1) ds ->
    fold_left (fun n d => if d.2 >? 0 then Z.max n (Z.quot (d.1 + d.2 - 1) d.2) else n) ds n <= k
    <-> n <= k /\ Forall (fun d : Z * Z => 0 < d.2 -> d.1 <= k * d.2) ds).
  { intros H. rewrite H by done. intuition lia. }
  clear Hd Hc c bound. induction ds as [|d ds IH]; intros n Hd; simpl; [by rewrite Forall_nil; tauto|].
  inversion_clear Hd as [|? ? Hd1 Hds]. rewrite IH, Forall_cons by done.
  destruct (Z.gtb_spec (d.2) 0) as [Hp|Hp]; [|intuition lia].
  rewrite Z.max_lub_iff, Z.quot_div_nonneg by lia.
  assert ((d.1 + d.2 - 1) / d.2 <= k <-> d.1 <= k * d.2); [|intuition lia].
  split; intros H.
  - pose proof (Z.mul_succ_div_gt (d.1 + d.2 - 1) (d.2) ltac:(lia)). nia.
  - assert ((d.1 + d.2 - 1) / d.2 < k + 1); [|lia]. apply Z.div_lt_upper_bound; lia.
Qed.

Lemma quot_up_bounds v n : 0 <= v -> 1 <= n -> v <= n * Z.quot (v + n - 1) n < v + n.
Proof.
  intros Hv Hn. rewrite Z.quot_div_nonneg by lia.
  pose proof (Z.mul_div_le (v + n - 1) n ltac:(lia)).
  pose proof (Z.mul_succ_div_gt (v + n - 1) n ltac:(lia)). lia.
Qed.

Lemma quot_up_least v n b : 0 <= v -> 1 <= n -> v <= n * b -> Z.quot (v + n - 1) n <= b.
Proof. intros Hv Hn Hb. pose proof (quot_up_bounds v n Hv Hn). nia. Qed.

(** ** First fit *)

(** An assignment of parts to rooms: the room, by index, each part is put
    in, or none. *)
Definition assigned_to (i : nat) (asg : list (option nat * FleetCapacity)) : list FleetCapacity :=
  omap (fun a => if bool_decide (a.1 = Some i) then Some a.2 else None) asg.

(** What [asg] puts in each room fits it. *)
Definition assignment_fits (rooms : list FleetCapacity) (asg : list (option nat * FleetCapacity)) : Prop :=
  forall i r, rooms !! i = Some r -> assigned_to i asg <> [] -> total (assigned_to i asg) ⊑c r.

Lemma assigned_to_cons i a asg :
  assigned_to i (a :: asg) = if bool_decide (a.1 = Some i) then a.2 :: assigned_to i asg else assigned_to i asg.
Proof. unfold assigned_to. simpl. by case_bool_decide. Qed.

Lemma assignment_fits_None rooms part asg :
  assignment_fits rooms asg -> assignment_fits rooms ((None, part) :: asg).
Proof. intros H i r Hi. rewrite assigned_to_cons. simpl. by apply H. Qed.

Lemma assignment_fits_Some rooms i r part asg :
  rooms !! i = Some r -> part ⊑c r ->
  assignment_fits (alter (fun r => Minus r part) i rooms) asg ->
  assignment_fits rooms ((Some i, part) :: asg).
Proof.
  intros Hi Hr H j r' Hj. rewrite assigned_to_cons. simpl.
  case_bool_decide as E.
  - injection E as <-. rewrite Hi in Hj. injection Hj as <-. intros _. rewrite total_cons.
    destruct (assigned_to i asg) as [|x l] eqn:El; [cap_lia|].
    specialize (H i (Minus r part)). rewrite list_lookup_alter_eq, Hi, El in H.
    specialize (H eq_refl ltac:(done)). cap_lia.
  - intros Hne. apply H; [|done]. rewrite list_lookup_alter_ne; [done|]. congruence.
Qed.

Lemma unplaced_assignment rooms parts :
  exists asg, asg.*2 = parts /\ assignment_fits rooms asg /\
    unplaced rooms parts = (List.filter (fun a => bool_decide (a.1 = None)) asg).*2.
Proof.
  revert rooms. induction parts as [|part parts IH]; intros rooms; simpl.
  { exists []. by repeat split. }
  destruct (index_func _ rooms) as [i|] eqn:E.
  - apply index_func_Some in E as (r & Hi & Hr%Covers_spec).
    destruct (IH (alter (fun r => Minus r part) i rooms)) as (asg & <- & Hf & ->).
    exists ((Some i, part) :: asg). split; [done|]. split; [|done].
    by eapply assignment_fits_Some.
  - destruct (IH rooms) as (asg & <- & Hf & ->). exists ((None, part) :: asg).
    split; [done|]. split; [by apply assignment_fits_None|done].
Qed.

Lemma placesAll_spec rooms parts : placesAll rooms parts = true <-> unplaced rooms parts = [].
Proof. unfold placesAll. by destruct (unplaced rooms parts). Qed.

(** More room never unplaces a part. *)
Lemma placesAll_app rooms more parts : placesAll rooms parts = true -> placesAll (rooms ++ more) parts = true.
Proof.
  rewrite !placesAll_spec. revert rooms. induction parts as [|part parts IH]; intros rooms; simpl; [done|].
  destruct (index_func _ rooms) as [i|] eqn:E; [|done]. rewrite (index_func_app _ _ _ _ E).
  rewrite alter_app_l; [apply IH|]. apply index_func_Some in E as (x & Hx & _). by eapply lookup_lt_Some.
Qed.

Lemma unplaced_In rooms parts x : In x (unplaced rooms parts) -> In x parts.
Proof.
  revert rooms. induction parts as [|p parts IH]; intros rooms; simpl; [done|].
  destruct (index_func _ rooms); simpl; naive_solver.
Qed.

#[export] Hint Resolve Covers_spec : fleet.

(** ** Theorems *)

(** The parts of a split cover what was split. *)
Lemma split_covers c bound : cap_nonneg c -> Covers (total (split c bound)) c = true.
Proof.
  intros Hc. unfold split. destruct (Empty c) eqn:He; [cap_lia|].
  pose proof (split_count_pos c bound) as Hn. set (n := split_count c bound) in *.
  rewrite total_replicate, Z2Nat.id by lia. cap_simpl.
  repeat match goal with |- context [Z.quot (?v + n - 1) n] =>
    pose proof (quot_up_bounds v n ltac:(lia) Hn); generalize dependent (Z.quot (v + n - 1) n) end. intros. lia.
Qed.

(** splitting a headroom [c] into parts bounded by [bound] loses
    nothing and gives parts a start can use: the parts together cover [c],
    each part stays within every dimension [bound] has, they are all equal,
    and no smaller number of equal parts does both. *)
Theorem split_sound (c bound : FleetCapacity) :
  cap_nonneg c -> Empty c = false ->
  Covers (total (split c bound)) c = true /\
  (exists part, split c bound = replicate (length (split c bound)) part /\
     Forall (fun d => 0 < d.2 -> d.1 <= d.2) (dims part bound)) /\
  (forall k part, 1 <= k -> Covers (Times part k) c = true ->
     Forall (fun d => 0 < d.2 -> d.1 <= d.2) (dims part bound) -> Z.of_nat (length (split c bound)) <= k).
Proof.
  intros Hc He. pose proof (split_covers c bound Hc) as Hcov. unfold split in *. rewrite He in *.
  pose proof (split_count_pos c bound) as Hn. set (n := split_count c bound) in *.
  assert (Hspec := split_count_spec c bound n Hc Hn).
  destruct Hspec as [Hb _]. specialize (Hb ltac:(subst n; lia)).
  rewrite length_replicate, Z2Nat.id by lia. split; [|split].
  - done.
  - eexists. split; [reflexivity|]. cap_simpl. unfold dims in *. cbn [CPUMillis MemoryBytes GPUs].
    rewrite !Forall_cons, Forall_nil in *. cbn [fst snd] in *.
    destruct Hb as (H1 & H2 & H3 & _). repeat split; intros; apply quot_up_least; lia.
  - clear Hcov. intros k part Hk Hcov Hpart. subst n. apply split_count_spec; [done..|].
    unfold dims in *. rewrite !Forall_cons, Forall_nil in *. cbn [fst snd] in *.
    cap_simpl. destruct Hpart as (H1 & H2 & H3 & _). repeat split; intros Hd; [specialize (H1 Hd)|specialize (H2 Hd)|specialize (H3 Hd)]; nia.
Qed.

Lemma split_sound_witness :
  Covers (total (split (mkCap 10000 (40 * 2 ^ 30) 0) (mkCap 3000 (64 * 2 ^ 30) 1))) (mkCap 10000 (40 * 2 ^ 30) 0) = true.
Proof.
  apply (split_sound (mkCap 10000 (40 * 2 ^ 30) 0) (mkCap 3000 (64 * 2 ^ 30) 1)); [|reflexivity].
  vm_compute; repeat split; discriminate.
Defined.

(** the first-fit test is sound and greedy. The parts [unplaced]
    does not return are put, each whole, in a room, so that what every room
    takes fits it together; the returned ones are exactly the rest, in order.
    In particular [placesAll] answers yes only when such a placement of every
    part exists. *)
Theorem unplaced_sound (rooms parts : list FleetCapacity) :
  exists asg : list (option nat * FleetCapacity),
    asg.*2 = parts /\
    (forall i r, rooms !! i = Some r -> assigned_to i asg <> [] -> Covers r (total (assigned_to i asg)) = true) /\
    unplaced rooms parts = (List.filter (fun a => bool_decide (a.1 = None)) asg).*2 /\
    (placesAll rooms parts = true -> Forall (fun a => a.1 <> None) asg).
Proof.
  destruct (unplaced_assignment rooms parts) as (asg & H1 & H2 & H3).
  exists asg. split; [done|]. split; [intros; apply Covers_spec; eauto|]. split; [done|].
  rewrite placesAll_spec, H3. intros Hnil. apply List.Forall_forall. intros a Ha Hn.
  assert (Hin : In a.2 (List.filter (fun a => bool_decide (a.1 = None)) asg).*2).
  { apply in_map, List.filter_In. by rewrite bool_decide_eq_true. }
  by rewrite Hnil in Hin.
Qed.

(** [fits] counts exactly: with a room and a shape that are not
    negative, [n] copies of the shape within the limit fit the room when,
    and only when, [n] is at most the count it returns. *)
Theorem fits_exact (a shape : FleetCapacity) (limit n : Z) :
  cap_nonneg a -> cap_nonneg shape -> 0 <= n <= limit ->
  (n <= cap_fits a shape limit <-> Covers a (Times shape n) = true) /\ 0 <= cap_fits a shape limit <= limit.
Proof. intros Ha Hs Hn. split; [by apply cap_fits_spec|apply cap_fits_le_limit; lia]. Qed.

Lemma fits_exact_witness :
  (3 <= cap_fits (mkCap 8000 (32 * 2 ^ 30) 0) (mkCap 2000 (10 * 2 ^ 30) 0) 9 <->
   Covers (mkCap 8000 (32 * 2 ^ 30) 0) (Times (mkCap 2000 (10 * 2 ^ 30) 0) 3) = true) /\
  0 <= cap_fits (mkCap 8000 (32 * 2 ^ 30) 0) (mkCap 2000 (10 * 2 ^ 30) 0) 9 <= 9.
Proof. apply fits_exact; [vm_compute; repeat split; discriminate..|lia]. Defined.
