(* ===== verification/Catalog.v ===== *)
(** The fleet catalog (internal/compute/fleet_catalog.go): the instance types
    the platform buys, what a host of each offers containers, its disk slots
    and volumes, and what its EBS volumes, public address, transfer and
    volume reads cost; with the EC2 vCPU quota class of a type (quotas.go) and
    the shape its Spot pools are scored as (spot_prices.go). *)

From Stdlib Require Import Ascii.
From stdpp Require Import pretty.
From S2P Require Import Prelude Capacity.



(** ** Strings, as the Go standard library cuts them *)

(** [strings.Cut]: the text before and after the first [sep], and whether
    [sep] occurs. *)
Fixpoint str_cut (sep : Ascii.ascii) (s : string) : string * string * bool :=
  match s with
  | EmptyString => ("", "", false)
  | String c s' =>
      if bool_decide (c = sep) then ("", s', true)
      else let '(b, a, ok) := str_cut sep s' in (String c b, a, ok)
  end.

(** [strings.HasPrefix]. *)
Definition has_prefix (s pre : string) : bool := String.prefix pre s.

(** [s[0]] of a non-empty string. *)
Definition first_byte (s : string) : option Ascii.ascii :=
  match s with EmptyString => None | String c _ => Some c end.

(** [strings.ContainsRune]. *)
Fixpoint contains_rune (s : string) (c : Ascii.ascii) : bool :=
  match s with EmptyString => false | String d s' => bool_decide (d = c) || contains_rune s' c end.

(** ** Enumerations of types.go and quotas.go *)

(** [Market]; [MarketNone] is the empty value a host bought from no market
    holds. *)
Inductive Market := MarketNone | MarketSpot | MarketOnDemand.
#[export] Instance Market_eq_dec : EqDecision Market.
Proof. solve_decision. Defined.
#[export] Instance Market_countable : Countable Market.
Proof.
  refine (inj_countable' (fun m => match m with MarketNone => 0 | MarketSpot => 1 | MarketOnDemand => 2 end)%nat
    (fun n => match n with 1 => MarketSpot | 2 => MarketOnDemand | _ => MarketNone end)%nat _).
  by intros [].
Defined.

(** The text of a market, in an offer's key. *)
Definition market_text (m : Market) : string :=
  match m with MarketNone => "" | MarketSpot => "spot" | MarketOnDemand => "on_demand" end.

(** [QuotaClass]; [QuotaNone] is the empty class of a type the fleet's quotas
    do not count. *)
Inductive QuotaClass := QuotaNone | QuotaStandard | QuotaG | QuotaP.
#[export] Instance QuotaClass_eq_dec : EqDecision QuotaClass.
Proof. solve_decision. Defined.
#[export] Instance QuotaClass_countable : Countable QuotaClass.
Proof.
  refine (inj_countable' (fun m => match m with QuotaNone => 0 | QuotaStandard => 1 | QuotaG => 2 | QuotaP => 3 end)%nat
    (fun n => match n with 1 => QuotaStandard | 2 => QuotaG | 3 => QuotaP | _ => QuotaNone end)%nat _).
  by intros [].
Defined.

(** [QuotaClassOf]: the quota class of an instance type, by its family, and
    whether it has one. *)
Definition QuotaClassOf (instanceType : string) : QuotaClass * bool :=
  let family := fst (fst (str_cut "."%char instanceType)) in
  match first_byte family with
  | None => (QuotaNone, false)
  | Some c =>
      if has_prefix family "vt" || (c == "g"%char) then (QuotaG, true)
      else if c == "p"%char then (QuotaP, true)
      else if has_prefix family "inf" || has_prefix family "trn" || has_prefix family "dl" then (QuotaNone, false)
      else if contains_rune "acdhimrtz" c then (QuotaStandard, true)
      else (QuotaNone, false)
  end.

(** ** Types *)

Definition gib : Z := 2 ^ 30.
Definition rootVolumeGiB : Z := 100.
(** hostproto/datavolume.go. *)
Definition FrameCacheBytes : Z := 32 * 2 ^ 30.
Definition DiskDirtyBytes : Z := 4 * 2 ^ 30.

Record CatalogType := mkType {
  t_Name : string;
  t_Architecture : string;
  t_Topology : Topology;
  t_MemoryBytes : Z;
  t_GPU : string;
  t_GPUCount : Z;
  t_Hibernates : bool;
  t_InstanceStore : bool;
  t_prices : list Z }.

#[export] Instance CatalogType_eq_dec : EqDecision CatalogType.
Proof. solve_decision. Defined.

(** [CatalogType{}], what a failed lookup by name returns. *)
Definition type0 : CatalogType := mkType "" "" (mkTopology 0 0) 0 "" 0 false false [0; 0; 0; 0].

Definition priceRegions : list string := ["us-east-2"; "us-west-1"; "us-east-1"; "us-west-2"].

(** [OnDemandMicros]: the price in a region, [None] where the type is not
    sold. *)
Definition OnDemandMicros (t : CatalogType) (region : string) : option Z :=
  match index_func (fun r => r == region) priceRegions with
  | None => None
  | Some n => let price := nth n (t_prices t) 0 in if price =? 0 then None else Some price
  end.

Definition t_CPUMillis (t : CatalogType) : Z := topology_CPUMillis (t_Topology t).
Definition VCPUs (t : CatalogType) : Z := Threads (t_Topology t).

Definition Usable (t : CatalogType) (reportedMemory : Z) : FleetCapacity :=
  let memory :=
    if reportedMemory <=? 0 then
      let nominal := Z.quot (t_MemoryBytes t * 94) 100 in
      nominal - Z.max (512 * 2 ^ 20) (Z.quot nominal 10)
    else reportedMemory in
  mkCap (t_CPUMillis t) memory (t_GPUCount t).

Definition RootGiB (t : CatalogType) (hibernate : bool) : Z :=
  if hibernate && t_Hibernates t then rootVolumeGiB + Z.quot (t_MemoryBytes t + gib - 1) gib
  else rootVolumeGiB.

Definition diskSlotCores : Z := 1.
Definition minDiskSlots : Z := 2.

Definition DiskSlots (t : CatalogType) : Z :=
  Z.max minDiskSlots (Z.quot (Cores (t_Topology t)) diskSlotCores).

Definition DataVolumeGiB (t : CatalogType) : Z :=
  if t_InstanceStore t then 0 else Z.quot (FrameCacheBytes + DiskSlots t * DiskDirtyBytes) gib.

(** [regionRates] and [ratesIn]. *)
Record regionRates := mkRates { gp3GiBMonth : Z; gp3MiBpsMonth : Z; ipv4Hour : Z }.

Definition ratesIn (region : string) : regionRates :=
  if region == "us-west-1" then mkRates 96000 48000 5000 else mkRates 80000 40000 5000.

Definition baselineMiBps : Z := 125.
Definition buildMiBps : Z := 500.
Definition buildCores : Z := 4.

Definition RootMiBps (t : CatalogType) : Z :=
  if Cores (t_Topology t) >=? buildCores then buildMiBps else baselineMiBps.

Definition PricedMiBps (t : CatalogType) (reserve : bool) : Z :=
  if reserve then baselineMiBps else RootMiBps t.

Definition rootDiskMicros (region : string) (gib mibps : Z) : Z :=
  let r := ratesIn region in
  Z.quot (gib * gp3GiBMonth r + (mibps - baselineMiBps) * gp3MiBpsMonth r + 719) 720.

Definition volumesMicros (t : CatalogType) (region : string) (hibernate reserve : bool) : Z :=
  rootDiskMicros region (RootGiB t hibernate + DataVolumeGiB t) (PricedMiBps t reserve).

Definition twoPerCore (vcpus : Z) : Topology := mkTopology vcpus (Z.quot vcpus 2).

(** [transferMicrosPerGB]. *)
Definition transferMicrosPerGB (from to : string) : Z :=
  if from == to then 0
  else if (from +:+ " " +:+ to == "us-east-1 us-east-2") || (from +:+ " " +:+ to == "us-east-2 us-east-1") then 10000
  else 20000.

Definition transferMilliGBPerCoreHour : Z := 500.

Definition transferMicros (storageRegion region : string) (t : CatalogType) : Z :=
  Z.quot (Cores (t_Topology t) * transferMilliGBPerCoreHour * transferMicrosPerGB storageRegion region) 1000.

(** [VolumeRead] (capacity.go). *)
Record VolumeRead := mkRead { vr_Region : string; vr_Bytes : Z }.
#[export] Instance VolumeRead_eq_dec : EqDecision VolumeRead.
Proof. solve_decision. Defined.

(** [readMicros], at cost horizon [costHorizon]. *)
Definition readMicros (costHorizon : Z) (read : option VolumeRead) (region : string) : Z :=
  match read with
  | None => 0
  | Some r =>
      Z.quot (Z.quot (vr_Bytes r * transferMicrosPerGB (vr_Region r) region) 1000000000 * seconds hour)
        (seconds costHorizon)
  end.

Definition hibernationRAMLimit : Z := 32 * gib.

(** [hibernates] (fleet_offers.go). *)
Definition hibernates (t : CatalogType) : bool :=
  t_Hibernates t && (t_MemoryBytes t <=? hibernationRAMLimit).

(** [placementShape] (spot_prices.go). *)
Definition placementShape (t : CatalogType) : string :=
  let class := fst (QuotaClassOf (t_Name t)) in
  if (class == QuotaG) || (class == QuotaP) then t_Name t
  else pretty (VCPUs t) +:+ " vCPUs".

(** ** The catalog *)

Definition cpuType (name : string) (vcpus memGiB : Z) (hib : bool) (prices : list Z) : CatalogType :=
  mkType name "amd64" (twoPerCore vcpus) (memGiB * gib) "" 0 hib false prices.

Definition gpuType (name : string) (vcpus memGiB : Z) (model : string) (cards : Z) (prices : list Z) : CatalogType :=
  mkType name "amd64" (twoPerCore vcpus) (memGiB * gib) model cards false true prices.

Definition FleetCatalog : list CatalogType :=
  [
   cpuType "m7i.large" 2 8 true [100800; 117600; 100800; 100800];
   cpuType "m7i.xlarge" 4 16 true [201600; 235200; 201600; 201600];
   cpuType "c6a.2xlarge" 8 16 true [306000; 381600; 306000; 306000];
   cpuType "c7i.2xlarge" 8 16 true [357000; 445200; 357000; 357000];
   cpuType "m6a.2xlarge" 8 32 true [345600; 403200; 345600; 345600];
   cpuType "m7i.2xlarge" 8 32 true [403200; 470400; 403200; 403200];
   cpuType "r6a.2xlarge" 8 64 true [453600; 504000; 453600; 453600];
   cpuType "r7i.2xlarge" 8 64 true [529200; 588000; 529200; 529200];
   cpuType "c6a.4xlarge" 16 32 true [612000; 763200; 612000; 612000];
   cpuType "m6a.4xlarge" 16 64 true [691200; 806400; 691200; 691200];
   cpuType "m7i.4xlarge" 16 64 true [806400; 940800; 806400; 806400];
   cpuType "r6a.4xlarge" 16 128 true [907200; 1008000; 907200; 907200];
   cpuType "c6a.8xlarge" 32 64 true [1224000; 1526400; 1224000; 1224000];
   cpuType "c6i.8xlarge" 32 64 true [1360000; 1696000; 1360000; 1360000];
   cpuType "m6a.8xlarge" 32 128 true [1382400; 1612800; 1382400; 1382400];
   cpuType "m7i.8xlarge" 32 128 true [1612800; 1881600; 1612800; 1612800];
   cpuType "r6a.8xlarge" 32 256 false [1814400; 2016000; 1814400; 1814400];
   cpuType "m7i.12xlarge" 48 192 false [2419200; 2822400; 2419200; 2419200];
   cpuType "m7i.16xlarge" 64 256 false [3225600; 3763200; 3225600; 3225600];
   gpuType "g4dn.xlarge" 4 16 "T4" 1 [526000; 631000; 526000; 526000];
   gpuType "g4dn.2xlarge" 8 32 "T4" 1 [752000; 902000; 752000; 752000];
   gpuType "g4dn.4xlarge" 16 64 "T4" 1 [1204000; 1445000; 1204000; 1204000];
   gpuType "g4dn.8xlarge" 32 128 "T4" 1 [2176000; 2611000; 2176000; 2176000];
   gpuType "g4dn.16xlarge" 64 256 "T4" 1 [4352000; 5222000; 4352000; 4352000];
   gpuType "g4dn.12xlarge" 48 192 "T4" 4 [3912000; 4694000; 3912000; 3912000];
   gpuType "g4dn.metal" 96 384 "T4" 8 [7824000; 9389000; 7824000; 7824000];
   gpuType "g5.xlarge" 4 16 "A10G" 1 [1006000; 0; 1006000; 1006000];
   gpuType "g5.2xlarge" 8 32 "A10G" 1 [1212000; 0; 1212000; 1212000];
   gpuType "g5.4xlarge" 16 64 "A10G" 1 [1624000; 0; 1624000; 1624000];
   gpuType "g5.8xlarge" 32 128 "A10G" 1 [2448000; 0; 2448000; 2448000];
   gpuType "g5.16xlarge" 64 256 "A10G" 1 [4096000; 0; 4096000; 4096000];
   gpuType "g5.12xlarge" 48 192 "A10G" 4 [5672000; 0; 5672000; 5672000];
   gpuType "g5.24xlarge" 96 384 "A10G" 4 [8144000; 0; 8144000; 8144000];
   gpuType "g5.48xlarge" 192 768 "A10G" 8 [16288000; 0; 16288000; 16288000];
   gpuType "g6.xlarge" 4 16 "L4" 1 [804800; 0; 804800; 804800];
   gpuType "g6.2xlarge" 8 32 "L4" 1 [977600; 0; 977600; 977600];
   gpuType "g6.4xlarge" 16 64 "L4" 1 [1323200; 0; 1323200; 1323200];
   gpuType "g6.8xlarge" 32 128 "L4" 1 [2014400; 0; 2014400; 2014400];
   gpuType "g6.16xlarge" 64 256 "L4" 1 [3396800; 0; 3396800; 3396800];
   gpuType "g6.12xlarge" 48 192 "L4" 4 [4601600; 0; 4601600; 4601600];
   gpuType "g6.24xlarge" 96 384 "L4" 4 [6675200; 0; 6675200; 6675200];
   gpuType "g6.48xlarge" 192 768 "L4" 8 [13350400; 0; 13350400; 13350400];
   gpuType "gr6.4xlarge" 16 128 "L4" 1 [1539200; 0; 1539200; 1539200];
   gpuType "gr6.8xlarge" 32 256 "L4" 1 [2446400; 0; 2446400; 2446400];
   gpuType "g6e.xlarge" 4 32 "L40S" 1 [1861000; 0; 1861000; 1861000];
   gpuType "g6e.2xlarge" 8 64 "L40S" 1 [2242080; 0; 2242080; 2242080];
   gpuType "g6e.4xlarge" 16 128 "L40S" 1 [3004240; 0; 3004240; 3004240];
   gpuType "g6e.8xlarge" 32 256 "L40S" 1 [4528560; 0; 4528560; 4528560];
   gpuType "g6e.16xlarge" 64 512 "L40S" 1 [7577190; 0; 7577190; 7577190];
   gpuType "g6e.12xlarge" 48 384 "L40S" 4 [10492640; 0; 10492640; 10492640];
   gpuType "g6e.24xlarge" 96 768 "L40S" 4 [15065590; 0; 15065590; 15065590];
   gpuType "g6e.48xlarge" 192 1536 "L40S" 8 [30131180; 0; 30131180; 30131180];
   gpuType "g7e.2xlarge" 8 64 "RTXPro6000" 1 [3363120; 0; 3363120; 3363120];
   gpuType "g7e.4xlarge" 16 128 "RTXPro6000" 1 [3998160; 0; 3998160; 3998160];
   gpuType "g7e.8xlarge" 32 256 "RTXPro6000" 1 [5268240; 0; 5268240; 5268240];
   gpuType "g7e.12xlarge" 48 512 "RTXPro6000" 2 [8286080; 0; 8286080; 8286080];
   gpuType "g7e.24xlarge" 96 1024 "RTXPro6000" 4 [16572160; 0; 16572160; 16572160];
   gpuType "g7e.48xlarge" 192 2048 "RTXPro6000" 8 [33144320; 0; 33144320; 33144320];
   gpuType "p4d.24xlarge" 96 1152 "A100-40" 8 [21957640; 0; 21957642; 21957640];
   gpuType "p5.4xlarge" 16 256 "H100" 1 [6880000; 0; 6880000; 6880000];
   gpuType "p5.48xlarge" 192 2048 "H100" 8 [55040000; 68800000; 55040000; 55040000]
  ].

Definition CatalogTypeNamed (name : string) : option CatalogType :=
  List.find (fun t => t_Name t == name) FleetCatalog.

Definition FleetArchitectures : list string :=
  fold_left (fun architectures t =>
    if existsb (fun a => a == t_Architecture t) architectures then architectures
    else (architectures ++ [t_Architecture t])%list) FleetCatalog [].
