(* ===== verification/Calendar.v ===== *)
(** Civil dates as Go's [time.Date] counts them: days and nanoseconds since
    January 1 of year 1, UTC, the zero [time.Time]. *)

From S2P Require Import Prelude.

Definition is_leap (y : Z) : bool :=
  (y mod 4 =? 0) && (negb (y mod 100 =? 0) || (y mod 400 =? 0)).

(** Days before a month (1 to 12) of a common year. *)
Definition days_before_month (m : Z) : Z :=
  nth (Z.to_nat (m - 1)) [0; 31; 59; 90; 120; 151; 181; 212; 243; 273; 304; 334] 0.

(** Days before January 1 of year [y]. *)
Definition days_before_year (y : Z) : Z :=
  365 * (y - 1) + (y - 1) / 4 - (y - 1) / 100 + (y - 1) / 400.

(** The day of a date; a day past the month's end runs on into the next, as
    [time.Date] normalizes it. *)
Definition day_number (y m d : Z) : Z :=
  days_before_year y + days_before_month m + (if (m >? 2) && is_leap y then 1 else 0) + d - 1.

Definition day_nanos : Z := 24 * hour.

(** [time.Date] in UTC. *)
Definition time_Date (y mo d h mi s ns : Z) : Z :=
  day_number y mo d * day_nanos + h * hour + mi * minute + s * second + ns.

(** Dates the standard library documents: 1970-01-01 is 719162 days after the
    zero time, and 2000-02-29 is the day before 2000-03-01. *)
Lemma day_number_epoch : day_number 1970 1 1 = 719162.
Proof. reflexivity. Qed.

Lemma day_number_leap : day_number 2000 3 1 = day_number 2000 2 29 + 1.
Proof. reflexivity. Qed.

(** ** The date of a day

    [Time.Year], [Time.Month] and [Time.Day] read a date off the day number.
    A 400-year cycle has 146097 days, its first three centuries 36524 each,
    four years 1461. *)

Definition civil_year (n : Z) : Z :=
  let r := n mod 146097 in
  let c := Z.min 3 (r / 36524) in
  let r4 := (r - 36524 * c) mod 1461 in
  400 * (n / 146097) + 100 * c + 4 * ((r - 36524 * c) / 1461) + Z.min 3 (r4 / 365) + 1.

(** Days of a year before one of its months. *)
Definition before_month (leap : bool) (m : Z) : Z :=
  days_before_month m + (if (m >? 2) && leap then 1 else 0).

Definition month_length (leap : bool) (m : Z) : Z :=
  (if m =? 12 then (if leap then 366 else 365) else before_month leap (m + 1)) - before_month leap m.

Definition months : list Z := [1; 2; 3; 4; 5; 6; 7; 8; 9; 10; 11; 12].

(** The month of a day of the year counted from 0: the last that has begun. *)
Definition civil_month (leap : bool) (yday : Z) : Z :=
  Z.of_nat (length (List.filter (fun m => before_month leap m <=? yday) months)).

Definition date_year (n : Z) : Z := civil_year n.
Definition date_yday (n : Z) : Z := n - days_before_year (civil_year n).
Definition date_month (n : Z) : Z := civil_month (is_leap (date_year n)) (date_yday n).
Definition date_day (n : Z) : Z :=
  date_yday n - before_month (is_leap (date_year n)) (date_month n) + 1.

(** [Time.Weekday], Sunday 0: the first day of year 1 is a Monday. *)
Definition date_weekday (n : Z) : Z := (n + 1) mod 7.

(** The parts of a time in UTC. *)
Definition day_of (t : Z) : Z := t / day_nanos.
Definition time_Year (t : Z) : Z := date_year (day_of t).
Definition time_Month (t : Z) : Z := date_month (day_of t).
Definition time_Day (t : Z) : Z := date_day (day_of t).
Definition time_Weekday (t : Z) : Z := date_weekday (day_of t).
Definition time_Hour (t : Z) : Z := t mod day_nanos / hour.
Definition time_Minute (t : Z) : Z := t mod hour / minute.

(** [Time.Truncate] to a whole minute, counted from the zero time. *)
Definition truncate_minute (t : Z) : Z := t - t mod minute.

(** [Time.AddDate]: the date moves, the time of day stays. *)
Definition time_AddDate (t years days : Z) : Z :=
  day_number (time_Year t + years) (time_Month t) (time_Day t + days) * day_nanos + t mod day_nanos.

(** ** Years *)

Lemma div_step y k : 0 < k -> y / k = (y - 1) / k + (if y mod k =? 0 then 1 else 0).
Proof.
  intros Hk. pose proof (Z.div_mod y k ltac:(lia)). pose proof (Z.mod_pos_bound y k Hk).
  destruct (Z.eqb_spec (y mod k) 0).
  - rewrite <- (Z.div_unique_pos (y - 1) k (y / k - 1) (k - 1)); lia.
  - rewrite <- (Z.div_unique_pos (y - 1) k (y / k) (y mod k - 1)); lia.
Qed.

Lemma mod_multiple y a b : 0 < a -> 0 < b -> y mod (a * b) = 0 -> y mod a = 0.
Proof.
  intros Ha Hb H. apply Z.mod_divide in H; [|lia]. apply Z.mod_divide; [lia|].
  destruct H as [q ->]. exists (q * b). lia.
Qed.

Definition year_length (y : Z) : Z := if is_leap y then 366 else 365.

Lemma days_before_next_year y : days_before_year (y + 1) = days_before_year y + year_length y.
Proof.
  unfold days_before_year, year_length, is_leap. replace (y + 1 - 1) with y by lia.
  rewrite (div_step y 4), (div_step y 100), (div_step y 400) by lia.
  pose proof (mod_multiple y 4 25 ltac:(lia) ltac:(lia)). pose proof (mod_multiple y 100 4 ltac:(lia) ltac:(lia)).
  destruct (Z.eqb_spec (y mod 4) 0), (Z.eqb_spec (y mod 100) 0), (Z.eqb_spec (y mod 400) 0); simpl;
    try lia; exfalso; auto.
Qed.

Lemma days_before_year_le y z : y <= z -> days_before_year y <= days_before_year z.
Proof.
  intros H. replace z with (y + Z.of_nat (Z.to_nat (z - y))) by lia.
  induction (Z.to_nat (z - y)) as [|k IH]; [rewrite Z.add_0_r; lia|].
  replace (y + Z.of_nat (S k)) with (y + Z.of_nat k + 1) by lia.
  rewrite days_before_next_year. unfold year_length. destruct (is_leap _); lia.
Qed.

(** The day of a date lies within its year. *)
Lemma civil_year_spec n : days_before_year (civil_year n) <= n < days_before_year (civil_year n + 1).
Proof.
  unfold civil_year; cbv zeta.
  set (r := n mod 146097). set (c := Z.min 3 (r / 36524)). set (r1 := r - 36524 * c).
  set (q := r1 / 1461). set (r4 := r1 mod 1461). set (d := Z.min 3 (r4 / 365)).
  pose proof (Z.mod_pos_bound n 146097 ltac:(lia)) as Hr. fold r in Hr.
  pose proof (Z.div_mod n 146097 ltac:(lia)) as Hn. fold r in Hn.
  pose proof (Z.div_mod r 36524 ltac:(lia)). pose proof (Z.mod_pos_bound r 36524 ltac:(lia)).
  assert (Hc : 0 <= c <= 3 /\ 0 <= r1 /\ (c < 3 -> r1 < 36524) /\ r1 < 36525) by (unfold r1, c; lia).
  pose proof (Z.div_mod r1 1461 ltac:(lia)) as Hr1. fold r4 q in Hr1.
  pose proof (Z.mod_pos_bound r1 1461 ltac:(lia)) as Hr4. fold r4 in Hr4.
  pose proof (Z.div_mod r4 365 ltac:(lia)). pose proof (Z.mod_pos_bound r4 365 ltac:(lia)).
  assert (Hd : 0 <= d <= 3 /\ 365 * d <= r4 /\ (d < 3 -> r4 < 365 * d + 365)) by (unfold d; lia).
  set (a := n / 146097) in *.
  rewrite (days_before_next_year (400 * a + 100 * c + 4 * q + d + 1)).
  assert (Hq : 0 <= q <= 24) by lia.
  assert (Hb : days_before_year (400 * a + 100 * c + 4 * q + d + 1) = 146097 * a + 36524 * c + 1461 * q + 365 * d).
  { unfold days_before_year. replace (_ + 1 - 1) with (400 * a + 100 * c + 4 * q + d) by lia.
    rewrite <- (Z.div_unique_pos _ 4 (100 * a + 25 * c + q) d), <- (Z.div_unique_pos _ 100 (4 * a + c) (4 * q + d)),
      <- (Z.div_unique_pos _ 400 a (100 * c + 4 * q + d)); lia. }
  rewrite Hb. split; [unfold r1 in *; lia|].
  unfold year_length, is_leap.
  rewrite <- (Z.mod_unique_pos (400 * a + 100 * c + 4 * q + d + 1) 4 (100 * a + 25 * c + q + (if d =? 3 then 1 else 0)) (if d =? 3 then 0 else d + 1))
    by (destruct (Z.eqb_spec d 3); lia).
  destruct (Z.eqb_spec d 3) as [Ed|Ed]; [|simpl; rewrite (proj2 (Z.eqb_neq (d + 1) 0)) by lia; simpl; lia].
  simpl. set (y := 400 * a + 100 * c + 4 * q + d + 1).
  destruct (decide (q = 24)) as [Eq|Eq].
  - destruct (decide (c = 3)) as [Ec|Ec].
    + rewrite <- (Z.mod_unique_pos y 400 (a + 1) 0) by (unfold y; lia). rewrite orb_true_r. lia.
    + destruct (_ || _); lia.
  - rewrite <- (Z.mod_unique_pos y 100 (4 * a + c) (4 * q + 4)) by (unfold y; lia).
    rewrite (proj2 (Z.eqb_neq (4 * q + 4) 0)) by lia. simpl. lia.
Qed.

Lemma civil_year_unique n y : days_before_year y <= n < days_before_year (y + 1) -> civil_year n = y.
Proof.
  intros H. pose proof (civil_year_spec n) as Hc.
  destruct (Z.lt_trichotomy (civil_year n) y) as [L|[E|L]]; [|exact E|].
  - pose proof (days_before_year_le (civil_year n + 1) y ltac:(lia)). lia.
  - pose proof (days_before_year_le (y + 1) (civil_year n) ltac:(lia)). lia.
Qed.

(** ** Months *)

Definition month_ok (leap : bool) (yday : Z) : bool :=
  let m := civil_month leap yday in
  (1 <=? m) && (m <=? 12) && (before_month leap m <=? yday) && (yday <? before_month leap m + month_length leap m).

Definition ydays (leap : bool) : list Z := map Z.of_nat (seq 0 (if leap then 366 else 365)).

Lemma ydays_In (leap : bool) yday : 0 <= yday < (if leap then 366 else 365) -> In yday (ydays leap).
Proof. intros H. apply in_map_iff. exists (Z.to_nat yday). rewrite in_seq. destruct leap; lia. Qed.

Lemma civil_month_table (leap : bool) : forallb (month_ok leap) (ydays leap) = true.
Proof. destruct leap; vm_compute; reflexivity. Qed.

Lemma civil_month_spec (leap : bool) yday :
  0 <= yday < (if leap then 366 else 365) -> month_ok leap yday = true.
Proof.
  intros H. pose proof (civil_month_table leap) as Hall. rewrite forallb_forall in Hall.
  apply Hall, ydays_In, H.
Qed.

(** A day of a valid date: month and day of the month in their ranges. *)
Definition valid_date (y m d : Z) : Prop := 1 <= m <= 12 /\ 1 <= d <= month_length (is_leap y) m.

Lemma date_yday_range n : 0 <= date_yday n < year_length (date_year n).
Proof.
  unfold date_yday, date_year. pose proof (civil_year_spec n). rewrite days_before_next_year in H. lia.
Qed.

(** Reading a date off a day number and counting its day again. *)
Lemma date_roundtrip n :
  day_number (date_year n) (date_month n) (date_day n) = n /\ valid_date (date_year n) (date_month n) (date_day n).
Proof.
  pose proof (civil_month_spec (is_leap (date_year n)) (date_yday n) (date_yday_range n)) as H.
  unfold month_ok in H; fold (date_month n) in H. rewrite !andb_true_iff, !Z.leb_le, Z.ltb_lt in H.
  assert (Hy : date_yday n = n - days_before_year (date_year n)) by reflexivity.
  assert (Hd : date_day n = date_yday n - before_month (is_leap (date_year n)) (date_month n) + 1) by reflexivity.
  revert H Hy Hd. unfold valid_date.
  generalize (date_day n), (date_month n), (date_yday n), (date_year n). intros d m yd y H Hy Hd.
  assert (Hn : day_number y m d = days_before_year y + before_month (is_leap y) m + d - 1)
    by (unfold day_number, before_month; lia).
  rewrite Hn. lia.
Qed.

Lemma months_In m : 1 <= m <= 12 -> In m months.
Proof. intros H. unfold months. simpl. lia. Qed.

Lemma month_length_pos (leap : bool) m : 1 <= m <= 12 -> 28 <= month_length leap m <= 31.
Proof.
  intros H. assert (Ht : forallb (fun m => (28 <=? month_length leap m) && (month_length leap m <=? 31)) months = true)
    by (destruct leap; reflexivity).
  rewrite forallb_forall in Ht. specialize (Ht m (months_In m H)).
  by rewrite andb_true_iff, !Z.leb_le in Ht.
Qed.

Definition month_days (leap : bool) (m : Z) : list Z := map Z.of_nat (seq 1 (Z.to_nat (month_length leap m))).

Definition month_of_day_ok (leap : bool) (m d : Z) : bool :=
  let yday := before_month leap m + d - 1 in
  (0 <=? yday) && (yday <? if leap then 366 else 365) && (civil_month leap yday =? m).

Lemma month_days_table (leap : bool) :
  forallb (fun m => forallb (month_of_day_ok leap m) (month_days leap m)) months = true.
Proof. destruct leap; vm_compute; reflexivity. Qed.

Lemma before_month_months (leap : bool) m d :
  1 <= m <= 12 -> 1 <= d <= month_length leap m ->
  0 <= before_month leap m + d - 1 < (if leap then 366 else 365) /\ civil_month leap (before_month leap m + d - 1) = m.
Proof.
  intros Hm Hd. pose proof (month_days_table leap) as Hall. rewrite forallb_forall in Hall.
  specialize (Hall m (months_In m Hm)). rewrite forallb_forall in Hall. specialize (Hall d).
  assert (Hin : In d (month_days leap m)) by (apply in_map_iff; exists (Z.to_nat d); rewrite in_seq; lia).
  apply Hall in Hin. unfold month_of_day_ok in Hin.
  rewrite !andb_true_iff, Z.leb_le, Z.ltb_lt, Z.eqb_eq in Hin. lia.
Qed.

Lemma day_number_parts y m d :
  valid_date y m d ->
  date_year (day_number y m d) = y /\ date_month (day_number y m d) = m /\ date_day (day_number y m d) = d.
Proof.
  intros [Hm Hd]. pose proof (before_month_months _ m d Hm Hd) as [Hy Em].
  assert (Hn : day_number y m d = days_before_year y + (before_month (is_leap y) m + d - 1))
    by (unfold day_number, before_month; lia).
  assert (Ey : date_year (day_number y m d) = y).
  { apply civil_year_unique. rewrite days_before_next_year. unfold year_length. lia. }
  assert (Ed : date_yday (day_number y m d) = before_month (is_leap y) m + d - 1).
  { unfold date_yday. unfold date_year in Ey. rewrite Ey. lia. }
  unfold date_day, date_month. rewrite Ey, Ed, Em. repeat split; lia.
Qed.

Lemma day_number_add y m d k : day_number y m (d + k) = day_number y m d + k.
Proof. unfold day_number. lia. Qed.

(** ** The time of day *)

Lemma time_Date_sum y mo d h mi s ns :
  time_Date y mo d h mi s ns = day_number y mo d * day_nanos + h * hour + mi * minute + s * second + ns.
Proof. reflexivity. Qed.

Lemma day_of_date t : day_number (time_Year t) (time_Month t) (time_Day t) = day_of t.
Proof. exact (proj1 (date_roundtrip (day_of t))). Qed.

Lemma time_parts t :
  0 <= time_Hour t < 24 /\ 0 <= time_Minute t < 60 /\
  t = day_of t * day_nanos + time_Hour t * hour + time_Minute t * minute + t mod minute.
Proof.
  unfold time_Hour, time_Minute, day_of, day_nanos.
  pose proof (Z.div_mod t (24 * hour)). pose proof (Z.mod_pos_bound t (24 * hour)).
  pose proof (Z.div_mod (t mod (24 * hour)) hour). pose proof (Z.mod_pos_bound (t mod (24 * hour)) hour).
  pose proof (Z.div_mod (t mod hour) minute). pose proof (Z.mod_pos_bound (t mod hour) minute).
  assert (Eh : t mod (24 * hour) mod hour = t mod hour).
  { apply Z.mod_mod_divide. exists 24. reflexivity. }
  assert (Em : t mod hour mod minute = t mod minute).
  { apply Z.mod_mod_divide. exists 60. reflexivity. }
  rewrite Eh in *. rewrite Em in *. unfold hour, minute, second in *. lia.
Qed.
