(* ===== verification/GoLib.v ===== *)
(** What the modelled code uses of Go's [strings] and [strconv], and the
    outcome of a Go call.

    A Go string is a sequence of bytes, so a Rocq [string] holds it.  Every
    separator the code passes to [strings.Split], [strings.Cut] and
    [strings.Contains] is one byte, and the functions take it as an
    [ascii]. *)

From Stdlib Require Export Ascii.
From S2P Require Import Prelude.

(** ** The outcome of a call

    A call returns a value or an error, or it panics.  [Spins] is a loop that
    has used up the fuel its model gives it; the theorems about each loop
    show that it is never the outcome. *)

Inductive go (E A : Type) : Type :=
| Ret (a : A)
| Err (e : E)
| Panic
| Spins.
Arguments Ret {E A} a.
Arguments Err {E A} e.
Arguments Panic {E A}.
Arguments Spins {E A}.

Definition go_bind {E A B} (x : go E A) (f : A -> go E B) : go E B :=
  match x with
  | Ret a => f a
  | Err e => Err e
  | Panic => Panic
  | Spins => Spins
  end.

Notation "x <-! e ; f" := (go_bind e (fun x => f)) (at level 100, e at level 200, right associativity) : go_scope.

(** [if err != nil { return ..., other }]: the caller replaces the error. *)
Definition map_err {E F A} (e : F) (x : go E A) : go F A :=
  match x with
  | Ret a => Ret a
  | Err _ => Err e
  | Panic => Panic
  | Spins => Spins
  end.

(** A [for] loop over a list that returns at the first error. *)
Fixpoint go_fold {E A B} (f : A -> B -> go E A) (l : list B) (a : A) : go E A :=
  match l with
  | [] => Ret a
  | x :: l' => a' <-! f a x; go_fold f l' a'
  end.

Lemma go_bind_Ret {E A B} (x : go E A) (f : A -> go E B) b :
  go_bind x f = Ret b -> exists a, x = Ret a /\ f a = Ret b.
Proof. destruct x; simpl; try discriminate. eauto. Qed.

Lemma map_err_Ret {E F A} (e : F) (x : go E A) a : map_err e x = Ret a -> x = Ret a.
Proof. destruct x; simpl; congruence. Qed.

(** Induction on the iterations of a loop that returned. *)
Lemma go_fold_prefix {E A B} (P : list B -> A -> Prop) (f : A -> B -> go E A) l a b :
  P [] a ->
  (forall done x s s', In x l -> P done s -> f s x = Ret s' -> P (done ++ [x]) s') ->
  go_fold f l a = Ret b -> P l b.
Proof.
  intros Hnil Hstep. enough (H : forall l1 l2 s, l = l1 ++ l2 -> P l1 s -> go_fold f l2 s = Ret b -> P l b)
    by (intros Hf; apply (H [] l a); auto).
  intros l1 l2. revert l1. induction l2 as [|x l2 IH]; intros l1 s Hl Hs Hf; simpl in Hf.
  - injection Hf as <-. rewrite Hl, app_nil_r. exact Hs.
  - apply go_bind_Ret in Hf as (s' & Hx & Hf).
    apply (IH (l1 ++ [x]) s'); [by rewrite <- app_assoc | | exact Hf].
    apply (Hstep l1 x s s'); auto. rewrite Hl. apply in_elt.
Qed.

(** A loop that neither panics nor spins at any iteration does neither. *)
Definition returns {E A} (x : go E A) : Prop := x <> Panic /\ x <> Spins.

Lemma returns_Ret {E A} (a : A) : returns (Ret (E := E) a).
Proof. split; discriminate. Qed.

Lemma returns_Err {E A} (e : E) : returns (Err (A := A) e).
Proof. split; discriminate. Qed.

Lemma returns_bind {E A B} (x : go E A) (f : A -> go E B) :
  returns x -> (forall a, x = Ret a -> returns (f a)) -> returns (go_bind x f).
Proof. intros [Hp Hs] Hf. destruct x; simpl; try congruence; [auto | apply returns_Err]. Qed.

Lemma returns_map_err {E F A} (e : F) (x : go E A) : returns x -> returns (map_err e x).
Proof. intros [Hp Hs]. destruct x; simpl; try congruence; split; discriminate. Qed.

Lemma returns_go_fold {E A B} (P : A -> Prop) (f : A -> B -> go E A) l a :
  P a -> (forall s x, In x l -> P s -> returns (f s x) /\ forall s', f s x = Ret s' -> P s') ->
  returns (go_fold f l a).
Proof.
  revert a. induction l as [|x l IH]; intros a Ha Hf; simpl; [apply returns_Ret|].
  destruct (Hf a x) as [Hr Hp]; [by left | exact Ha |].
  apply returns_bind; [exact Hr|]. intros a' Ha'.
  apply IH; [by apply Hp|]. intros s y Hy. apply Hf. by right.
Qed.

(** A call that neither panics nor spins succeeds once it has no error. *)
Definition errorless {E A} (x : go E A) : Prop := forall e, x <> Err e.

Lemma errorless_bind {E A B} (x : go E A) (f : A -> go E B) :
  errorless x -> (forall a, x = Ret a -> errorless (f a)) -> errorless (go_bind x f).
Proof. intros Hx Hf. destruct x as [a|e| |]; simpl; [by apply Hf|by destruct (Hx e)|done|done]. Qed.

Lemma errorless_Ret {E A} (a : A) : errorless (Ret (E := E) a).
Proof. done. Qed.

Lemma returns_errorless {E A} (x : go E A) : returns x -> errorless x -> exists a, x = Ret a.
Proof. intros [Hp Hs] He. destruct x as [a|e| |]; [by exists a|by destruct (He e)|done|done]. Qed.

Create HintDb go_returns.
#[export] Hint Resolve returns_Ret returns_Err returns_bind returns_map_err : go_returns.

(** ** 64-bit integers *)

(** The value of an [int] after an operation that may overflow. *)
Definition wrap64 (z : Z) : Z := (z + 2 ^ 63) mod 2 ^ 64 - 2 ^ 63.

Lemma wrap64_id z : min_int64 <= z <= max_int64 -> wrap64 z = z.
Proof.
  unfold wrap64, min_int64, max_int64. intros H.
  rewrite Z.mod_small; lia.
Qed.

Lemma wrap64_above z : max_int64 < z <= max_int64 + 2 ^ 64 -> wrap64 z = z - 2 ^ 64.
Proof.
  unfold wrap64, max_int64. intros H.
  replace (z + 2 ^ 63) with (z - 2 ^ 63 + 1 * 2 ^ 64) by lia.
  rewrite Z.mod_add by lia. rewrite Z.mod_small; lia.
Qed.

(** ** strings *)

Definition code (c : ascii) : Z := Z.of_N (N_of_ascii c).

Definition is_ascii (s : string) : bool :=
  forallb (fun c => code c <? 128) (String.list_ascii_of_string s).

(** The bytes of a string all satisfy a test. *)
Definition all_chars (f : ascii -> bool) (s : string) : bool := forallb f (String.list_ascii_of_string s).

Definition has_char (s : string) (c : ascii) : bool := existsb (Ascii.eqb c) (String.list_ascii_of_string s).

(** [strings.Fields] on ASCII text: the maximal runs of bytes that are not
    white space ([\t], [\n], [\v], [\f], [\r] and space). *)
Definition is_space (c : ascii) : bool := ((9 <=? code c) && (code c <=? 13)) || (code c =? 32).

Fixpoint fields_from (s : string) : string * list string :=
  match s with
  | EmptyString => ("", [])
  | String c s' =>
      let '(word, words) := fields_from s' in
      if is_space c then ("", if word == "" then words else word :: words) else (String c word, words)
  end.

Definition ascii_fields (s : string) : list string :=
  let '(word, words) := fields_from s in if word == "" then words else word :: words.

(** [strings.ToLower] on ASCII text. *)
Definition lower_char (c : ascii) : ascii :=
  if (65 <=? code c) && (code c <=? 90) then ascii_of_N (N_of_ascii c + 32) else c.

Fixpoint ascii_lower (s : string) : string :=
  match s with
  | EmptyString => ""
  | String c s' => String (lower_char c) (ascii_lower s')
  end.

(** [strings.Split] and [strings.SplitSeq]. *)
Fixpoint Split (sep : ascii) (s : string) : list string :=
  match s with
  | EmptyString => [""]
  | String c s' =>
      if Ascii.eqb c sep then "" :: Split sep s'
      else match Split sep s' with
           | [] => [String c ""]
           | w :: ws => String c w :: ws
           end
  end.

(** [strings.Cut]: the text before and after the first separator, or [None]
    for the code's [ok = false], when the text before is all of it. *)
Fixpoint Cut (sep : ascii) (s : string) : option (string * string) :=
  match s with
  | EmptyString => None
  | String c s' =>
      if Ascii.eqb c sep then Some ("", s')
      else match Cut sep s' with
           | Some (before, after) => Some (String c before, after)
           | None => None
           end
  end.

(** [strings.TrimSuffix] where the text has the suffix; [None] where
    [strings.HasSuffix] is false. *)
Fixpoint CutSuffix (suffix s : string) : option string :=
  if s == suffix then Some ""
  else match s with
       | EmptyString => None
       | String c s' =>
           match CutSuffix suffix s' with
           | Some t => Some (String c t)
           | None => None
           end
       end.

(** ** strconv *)

Definition is_digit (c : ascii) : bool := (48 <=? code c) && (code c <=? 57).

Fixpoint digits_value (acc : Z) (s : string) : Z :=
  match s with
  | EmptyString => acc
  | String c s' => digits_value (10 * acc + (code c - 48)) s'
  end.

(** A non-empty run of decimal digits. *)
Definition read_digits (s : string) : option Z :=
  if (s != "") && all_chars is_digit s then Some (digits_value 0 s) else None.

(** [strconv.Atoi]: an optional sign and decimal digits, within [int64]. *)
Definition Atoi (s : string) : option Z :=
  let '(neg, digits) :=
    match s with
    | String c s' =>
        if Ascii.eqb c "-"%char then (true, s') else if Ascii.eqb c "+"%char then (false, s') else (false, s)
    | EmptyString => (false, s)
    end in
  n ← read_digits digits;
  let v := if neg : bool then - n else n in
  if (min_int64 <=? v) && (v <=? max_int64) then Some v else None.

(** [strconv.Itoa] and [%d] of a natural number: its decimal digits. *)
Definition digit_char (d : Z) : ascii := ascii_of_N (Z.to_N (48 + d)).

Fixpoint digits_of (fuel : nat) (n : Z) (rest : string) : string :=
  match fuel with
  | O => rest
  | S fuel' =>
      if n <? 10 then String (digit_char n) rest
      else digits_of fuel' (n / 10) (String (digit_char (n mod 10)) rest)
  end.

(** Nineteen digits hold any [int64]. *)
Definition Itoa (n : Z) : string := digits_of 19 n "".

(** ** Lemmas *)

Lemma all_chars_cons f c s : all_chars f (String c s) = f c && all_chars f s.
Proof. reflexivity. Qed.

Lemma all_chars_app f s t : all_chars f (s ++ t) = all_chars f s && all_chars f t.
Proof.
  induction s as [|c s IH]; [done|].
  change (String c s ++ t)%string with (String c (s ++ t)). rewrite !all_chars_cons, IH. apply andb_assoc.
Qed.

Lemma all_chars_impl (f g : ascii -> bool) s :
  (forall c, f c = true -> g c = true) -> all_chars f s = true -> all_chars g s = true.
Proof.
  intros H. induction s as [|c s IH]; [done|]. rewrite !all_chars_cons.
  intros [Hc Hs]%andb_true_iff. rewrite H by done. by apply IH.
Qed.

Lemma Split_nonempty sep s : Split sep s <> [].
Proof. destruct s as [|c s]; simpl; [done|]. destruct (Ascii.eqb c sep); [done|]. by destruct (Split sep s). Qed.

(** Splitting and joining: the separator is the only byte the parts drop. *)
Lemma Split_chars f sep s :
  f sep = true -> Forall (fun w => all_chars f w = true) (Split sep s) -> all_chars f s = true.
Proof.
  intros Hsep. induction s as [|c s IH]; simpl; [done|]. rewrite all_chars_cons.
  destruct (Ascii.eqb_spec c sep) as [->|Hc].
  - intros H. inversion H; subst. rewrite Hsep. by apply IH.
  - pose proof (Split_nonempty sep s) as Hne. destruct (Split sep s) as [|w ws] eqn:E; [done|].
    intros H. inversion H as [|? ? Hw Hws]; subst. rewrite all_chars_cons in Hw.
    apply andb_true_iff in Hw as [Hc' Hw]. rewrite Hc'. apply IH. by constructor.
Qed.

Lemma Cut_chars f sep s before after :
  Cut sep s = Some (before, after) -> f sep = true ->
  all_chars f before = true -> all_chars f after = true -> all_chars f s = true.
Proof.
  revert before. induction s as [|c s IH]; intros before; simpl; [done|]. rewrite all_chars_cons.
  destruct (Ascii.eqb_spec c sep) as [->|Hc].
  - intros [= <- <-] Hs _ Ha. by rewrite Hs, Ha.
  - destruct (Cut sep s) as [[b a]|]; [|done]. intros [= <- <-] Hs Hb Ha.
    rewrite all_chars_cons in Hb. apply andb_true_iff in Hb as [Hc' Hb]. rewrite Hc'. by apply (IH b).
Qed.

Lemma CutSuffix_app suffix s t : CutSuffix suffix s = Some t -> s = (t ++ suffix)%string.
Proof.
  revert t. induction s as [|c s IH]; intros t; cbn -[bool_decide].
  - destruct (decide ("" = suffix)) as [<-|Hne]; case_bool_decide; try done. by intros [= <-].
  - case_bool_decide as E; [intros [= <-]; by subst|].
    destruct (CutSuffix suffix s) as [u|]; [|done]. intros [= <-].
    change (String c u ++ suffix)%string with (String c (u ++ suffix)). f_equal. by apply IH.
Qed.

Lemma Atoi_bounds s v : Atoi s = Some v -> min_int64 <= v <= max_int64.
Proof.
  unfold Atoi. destruct (match s with EmptyString => _ | String c s' => _ end) as [neg digits].
  intros (n & _ & H)%bind_Some. destruct (_ && _) eqn:E in H; [|done].
  injection H as <-. apply andb_true_iff in E as [?%Z.leb_le ?%Z.leb_le]. done.
Qed.

Lemma read_digits_chars s n : read_digits s = Some n -> all_chars is_digit s = true.
Proof. unfold read_digits. destruct (_ && _) eqn:E; [|done]. by apply andb_true_iff in E as [_ E]. Qed.

Lemma Atoi_chars (f : ascii -> bool) s v :
  f "-"%char = true -> f "+"%char = true -> (forall c, is_digit c = true -> f c = true) ->
  Atoi s = Some v -> all_chars f s = true /\ s <> "".
Proof.
  intros Hm Hp Hd. unfold Atoi. destruct s as [|c s]; [done|]. intros H. split; [|done]. revert H.
  rewrite all_chars_cons.
  destruct (Ascii.eqb_spec c "-"%char) as [->|_]; [|destruct (Ascii.eqb_spec c "+"%char) as [->|_]];
    intros (n & H%read_digits_chars & _)%bind_Some; [rewrite Hm | rewrite Hp |].
  1, 2: by rewrite (all_chars_impl _ f s Hd H).
  rewrite <- all_chars_cons. by apply (all_chars_impl _ f _ Hd H).
Qed.
