(* ===== verification/Cron.v ===== *)
(** Cron expressions (src/internal/schedules/cron.go): their normalization
    and parse, the days and minutes they select, and the search for the next
    one.

    The code's fixed-size arrays of flags are lists of the same length.  A
    field's step is any [int], so the loop of [setRange] runs on wrapping
    64-bit arithmetic, and an index outside the array panics as it does in
    Go. *)

From S2P Require Import Prelude Calendar GoLib.

(** ** Data *)

(** [dayMatcher]: days 1 to 31, and the month's last day. *)
Record dayMatcher := {
  dm_days : list bool;
  dm_last : bool
}.

(** [weekdayMatcher]: weekdays, Sunday 0, and each one's nth of the month. *)
Record weekdayMatcher := {
  wm_weekdays : list bool;
  wm_nth : list (list bool)
}.

Record Cron := {
  cr_expression : string;
  cr_minutes : list bool;
  cr_hours : list bool;
  cr_months : list bool;
  cr_days : dayMatcher;
  cr_weekdays : weekdayMatcher;
  cr_dayOr : bool
}.

(** [Cron.String]. *)
Definition Cron_String (c : Cron) : string := cr_expression c.

(** The one error of a field, [errField]. *)
Inductive field_error := errField.

(** [InvalidCronError]: the message users see. *)
Inductive cron_error := InvalidCronError (message : string).

(** A read of an array the code indexes within its length. *)
Definition flag (set : list bool) (i : Z) : bool := nth (Z.to_nat i) set false.

(** [set[i] = true] on a slice: an index outside it panics. *)
Definition set_flag {E} (set : list bool) (i : Z) : go E (list bool) :=
  if (0 <=? i) && (i <? Z.of_nat (length set)) then Ret (<[Z.to_nat i := true]> set) else Panic.

Definition no_flags (n : nat) : list bool := repeat false n.

(** ** Names, aliases and limits *)

Definition alias (name : string) : option string :=
  if (name == "@annually") || (name == "@yearly") then Some "0 0 1 1 *"
  else if name == "@monthly" then Some "0 0 1 * *"
  else if name == "@weekly" then Some "0 0 * * 0"
  else if (name == "@daily") || (name == "@midnight") then Some "0 0 * * *"
  else if name == "@hourly" then Some "0 * * * *"
  else None.

Definition intervalLimit (unit : string) : Z :=
  if unit == "m" then 59 else if unit == "h" then 23 else 31.

(** Three-letter names packed in one string: the name's place when it starts
    on a multiple of three. *)
Definition packed_name (table name : string) : option Z :=
  if Nat.eqb (String.length name) 3 then
    match String.index 0 name table with
    | Some n => if Z.of_nat n mod 3 =? 0 then Some (Z.of_nat n / 3) else None
    | None => None
    end
  else None.

Definition monthName (name : string) : option Z :=
  n ← packed_name "janfebmaraprmayjunjulaugsepoctnovdec" name; Some (n + 1).

Definition weekdayName (name : string) : option Z := packed_name "sunmontuewedthufrisat" name.

Definition noNames (name : string) : option Z := None.

(** ** Fields *)

Definition value (text : string) (low high : Z) (names : string -> option Z) : go field_error Z :=
  match names text with
  | Some v => Ret v
  | None =>
      match Atoi text with
      | Some v => if (v <? low) || (v >? high) then Err errField else Ret v
      | None => Err errField
      end
  end.

(** [parseItem]: an item as a range, possibly reversed, and a step. *)
Definition parseItem (item : string) (low high : Z) (names : string -> option Z) : go field_error (Z * Z * Z) :=
  let '(base, stepText) :=
    match Cut "/"%char item with
    | Some (b, s) => (b, Some s)
    | None => (item, None)
    end in
  step <-! match stepText with
           | None => Ret 1
           | Some s =>
               match Atoi s with
               | Some v => if v <? 1 then Err errField else Ret v
               | None => Err errField
               end
           end;
  if (base == "*") || (base == "?") then Ret (low, high, step)
  else match Cut "-"%char base with
       | Some (a, b) =>
           from <-! value a low high names;
           to <-! value b low high names;
           Ret (from, to, step)
       | None =>
           from <-! value base low high names;
           Ret (from, (if stepText is Some _ then high else from), step)
       end.

(** [for v := from; v <= to; v += step { set[low+(v-low)%size] = true }]. *)
Fixpoint mark {E} (fuel : nat) (set : list bool) (low size v to step : Z) : go E (list bool) :=
  if v <=? to then
    match fuel with
    | O => Spins
    | S fuel' =>
        set' <-! set_flag set (low + Z.rem (wrap64 (v - low)) size);
        mark fuel' set' low size (wrap64 (v + step)) to step
    end
  else Ret set.

(** No field has more than 60 values, so a reversed range stays below 128;
    the loop visits at most that many, also when [v] overflows. *)
Definition mark_fuel : nat := 512.

Definition setRange_item (low high : Z) (names : string -> option Z) (set : list bool) (item : string) :
    go field_error (list bool) :=
  r <-! parseItem item low high names;
  let '(from, to, step) := r in
  let size := high - low + 1 in
  mark mark_fuel set low size from (if from >? to then to + size else to) step.

Definition setRange (set : list bool) (field : string) (low high : Z) (names : string -> option Z) :
    go field_error (list bool) :=
  go_fold (setRange_item low high names) (Split ","%char field) set.

(** ** The day fields *)

Definition unrestricted (field : string) : bool :=
  existsb (fun item => (item == "*") || (item == "?")) (Split ","%char field).

(** [for v := from; v <= 31; v++ { d.days[v] = true }]: the array has 32
    flags. *)
Definition mark_from (from : Z) (days : list bool) : list bool :=
  imap (fun i b => b || (from <=? Z.of_nat i)) days.

Definition parseDays_item (d : dayMatcher) (item : string) : go field_error dayMatcher :=
  if item == "l" then Ret {| dm_days := dm_days d; dm_last := true |}
  else match CutSuffix "-l" item with
       | Some text =>
           from <-! value text 1 31 noNames;
           Ret {| dm_days := mark_from from (dm_days d); dm_last := dm_last d |}
       | None =>
           match CutSuffix "w" item with
           | Some text =>
               v <-! value text 1 31 noNames;
               days <-! set_flag (dm_days d) v;
               Ret {| dm_days := days; dm_last := dm_last d |}
           | None =>
               days <-! setRange (dm_days d) item 1 31 noNames;
               Ret {| dm_days := days; dm_last := dm_last d |}
           end
       end.

Definition parseDays (field : string) : go field_error dayMatcher :=
  go_fold parseDays_item (Split ","%char field) {| dm_days := no_flags 32; dm_last := false |}.

(** [for d, set := range days { w.weekdays[d%7] = w.weekdays[d%7] || set }]:
    Sunday is 0 and 7. *)
Definition fold_week (weekdays days : list bool) : list bool :=
  fold_left (fun w (p : nat * bool) => <[(p.1 mod 7)%nat := nth (p.1 mod 7) w false || p.2]> w) (imap pair days) weekdays.

Definition parseWeekdays_item (alone : bool) (w : weekdayMatcher) (item : string) : go field_error weekdayMatcher :=
  match Cut "#"%char item with
  | Some (day, nth_) =>
      if negb alone then Err errField
      else
        d <-! value day 0 7 weekdayName;
        match Atoi nth_ with
        | Some n =>
            if (n <? 1) || (n >? 5) then Err errField
            else
              row <-! set_flag (nth (Z.to_nat (d mod 7)) (wm_nth w) []) n;
              Ret {| wm_weekdays := wm_weekdays w; wm_nth := <[Z.to_nat (d mod 7) := row]> (wm_nth w) |}
        | None => Err errField
        end
  | None =>
      days <-! setRange (no_flags 8) item 0 7 weekdayName;
      Ret {| wm_weekdays := fold_week (wm_weekdays w) days; wm_nth := wm_nth w |}
  end.

Definition parseWeekdays (field : string) : go field_error weekdayMatcher :=
  let items := Split ","%char field in
  go_fold (parseWeekdays_item (Nat.eqb (length items) 1)) items
    {| wm_weekdays := no_flags 7; wm_nth := repeat (no_flags 6) 7 |}.

(** ** Matching and the search *)

(** [dayMatcher.match]. *)
Definition day_match (d : dayMatcher) (t : Z) : bool :=
  flag (dm_days d) (time_Day t) || (dm_last d && (time_Day (time_AddDate t 0 1) =? 1)).

(** [weekdayMatcher.match]. *)
Definition weekday_match (w : weekdayMatcher) (t : Z) : bool :=
  let day := time_Weekday t in
  flag (wm_weekdays w) day || flag (nth (Z.to_nat day) (wm_nth w) []) ((time_Day t - 1) / 7 + 1).

Definition dayMatches (c : Cron) (t : Z) : bool :=
  if negb (flag (cr_months c) (time_Month t)) then false
  else if cr_dayOr c then day_match (cr_days c) t || weekday_match (cr_weekdays c) t
  else day_match (cr_days c) t && weekday_match (cr_weekdays c) t.

(** [for m := t.Minute(); m < 60; m++]: the first selected minute from [m]. *)
Fixpoint minute_from (minutes : list bool) (m : Z) (left_ : nat) : option Z :=
  match left_ with
  | O => None
  | S k => if flag minutes m then Some m else minute_from minutes (m + 1) k
  end.

(** The body of [Next]'s loop: a result, or the time it goes on from. *)
Definition next_step (c : Cron) (t : Z) : Z + Z :=
  if negb (dayMatches c t) then
    inr (time_Date (time_Year t) (time_Month t) (time_Day t + 1) 0 0 0 0)
  else
    match (if flag (cr_hours c) (time_Hour t)
           then minute_from (cr_minutes c) (time_Minute t) (Z.to_nat (60 - time_Minute t)) else None) with
    | Some m => inl (time_Date (time_Year t) (time_Month t) (time_Day t) (time_Hour t) m 0 0)
    | None => inr (time_Date (time_Year t) (time_Month t) (time_Day t) (time_Hour t + 1) 0 0 0)
    end.

Fixpoint next_loop (fuel : nat) (c : Cron) (t limit : Z) : go Empty_set (option Z) :=
  if t <? limit then
    match fuel with
    | O => Spins
    | S fuel' =>
        match next_step c t with
        | inl found => Ret (Some found)
        | inr t' => next_loop fuel' c t' limit
        end
    end
  else Ret None.

Definition searchYears : Z := 28.

(** Where the search for a time after [after] starts and ends. *)
Definition next_start (after : Z) : Z := truncate_minute after + minute.
Definition next_limit (after : Z) : Z := time_AddDate (next_start after) searchYears 0.

(** [Cron.Next].  Every iteration moves to a later hour of the clock, so the
    hours up to the limit are enough iterations. *)
Definition Next (c : Cron) (after : Z) : go Empty_set (option Z) :=
  let t := next_start after in
  let limit := next_limit after in
  next_loop (Z.to_nat ((limit - t) / hour + 2)) c t limit.

(** ** ParseCron

    [strings.Fields] and [strings.ToLower] take a faster path on ASCII text.
    For other text they follow the Unicode tables, which are parameters. *)

Section Parse.
Context (unicode_fields : string -> list string) (unicode_lower : string -> string).

Definition Fields (s : string) : list string := if is_ascii s then ascii_fields s else unicode_fields s.
Definition ToLower (s : string) : string := if is_ascii s then ascii_lower s else unicode_lower s.

Definition normalize (expression : string) : string := ToLower (String.concat " " (Fields expression)).

(** The white space of [\s] in a regular expression. *)
Definition re_space (c : ascii) : bool :=
  (code c =? 9) || (code c =? 10) || (code c =? 12) || (code c =? 13) || (code c =? 32).

Fixpoint skip_spaces (s : string) : string :=
  match s with
  | String c s' => if re_space c then skip_spaces s' else s
  | EmptyString => s
  end.

(** The longest run of digits at the start of a string. *)
Fixpoint span_digits (s : string) : string * string :=
  match s with
  | String c s' =>
      if is_digit c then let '(d, r) := span_digits s' in (String c d, r) else ("", s)
  | EmptyString => ("", "")
  end.

Definition strip_every (s : string) : option string :=
  if String.prefix "every" s then Some (String.substring 5 (String.length s - 5)%nat s) else None.

(** [intervalPattern]: [every], white space, a number that starts with 1 to
    9, and one of [m], [h] and [d]; its two groups. *)
Definition intervalPattern (s : string) : option (string * string) :=
  rest ← strip_every s;
  if skip_spaces rest == rest then None
  else
    let '(n, unit) := span_digits (skip_spaces rest) in
    let starts := match n with String c _ => Ascii.eqb c "0"%char | EmptyString => true end in
    if negb starts && ((unit == "m") || (unit == "h") || (unit == "d")) then Some (n, unit) else None.

Definition interval_fields (unit : string) (n : Z) : string :=
  if unit == "m" then ("*/" ++ Itoa n ++ " * * * *")%string
  else if unit == "h" then ("0 */" ++ Itoa n ++ " * * *")%string
  else ("0 0 */" ++ Itoa n ++ " * *")%string.

(** The normalized expression and the five fields it stands for. *)
Definition expand_fields (expression normalized : string) : go cron_error (string * string) :=
  match intervalPattern normalized with
  | Some (digits, unit) =>
      match Atoi digits with
      | Some n =>
          if n >? intervalLimit unit then Err (InvalidCronError ("unsupported cron interval: " ++ expression))
          else Ret (interval_fields unit n, interval_fields unit n)
      | None => Err (InvalidCronError ("unsupported cron interval: " ++ expression))
      end
  | None =>
      if String.prefix "@" normalized then
        match alias normalized with
        | Some expanded => Ret (normalized, expanded)
        | None => Err (InvalidCronError ("unsupported cron alias: " ++ normalized))
        end
      else Ret (normalized, normalized)
  end.

(** The parse of the five fields. *)
Definition parse_fields (normalized p0 p1 p2 p3 p4 : string) : go field_error Cron :=
  minutes <-! setRange (no_flags 60) p0 0 59 noNames;
  hours <-! setRange (no_flags 24) p1 0 23 noNames;
  months_ <-! setRange (no_flags 13) p3 1 12 monthName;
  days <-! parseDays p2;
  weekdays <-! parseWeekdays p4;
  Ret {| cr_expression := normalized; cr_minutes := minutes; cr_hours := hours; cr_months := months_;
         cr_days := days; cr_weekdays := weekdays;
         cr_dayOr := negb (unrestricted p2) && negb (unrestricted p4) |}.

(** The time [ParseCron] first searches from, 2000-01-01. *)
Definition parse_epoch : Z := time_Date 2000 1 1 0 0 0 0.

Definition ParseCron (expression : string) : go cron_error Cron :=
  let normalized := normalize expression in
  if normalized == "" then Err (InvalidCronError "cron expression is required")
  else
    e <-! expand_fields expression normalized;
    match Split " "%char e.2 with
    | [p0; p1; p2; p3; p4] =>
        let invalid := InvalidCronError ("invalid cron expression: " ++ expression) in
        if has_char (p0 ++ p1 ++ p3) "?"%char then Err invalid
        else
          c <-! map_err invalid (parse_fields e.1 p0 p1 p2 p3 p4);
          match Next c parse_epoch with
          | Ret (Some _) => Ret c
          | Ret None => Err invalid
          | Err e => match e with end
          | Panic => Panic
          | Spins => Spins
          end
    | _ => Err (InvalidCronError "cron expression must contain exactly five fields")
    end.

End Parse.
