(* ===== verification/CronSearch.v ===== *)
(** The search of [Cron.Next] against its specification: the first whole
    minute after a time that the expression selects, and how far ahead the
    search has to look. *)

From S2P Require Import Prelude Calendar GoLib Cron.

(** ** The specification *)

Definition whole_minute (t : Z) : Prop := t mod minute = 0.

(** A day the day fields and the month select, by its date. *)
Definition day_selected (c : Cron) (n : Z) : bool :=
  let d := date_day n in
  let day := flag (dm_days (cr_days c)) d ||
             (dm_last (cr_days c) && (d =? month_length (is_leap (date_year n)) (date_month n))) in
  let week := flag (wm_weekdays (cr_weekdays c)) (date_weekday n) ||
              flag (nth (Z.to_nat (date_weekday n)) (wm_nth (cr_weekdays c)) []) ((d - 1) / 7 + 1) in
  flag (cr_months c) (date_month n) && (if cr_dayOr c then day || week else day && week).

(** A minute the expression selects. *)
Definition cron_matches (c : Cron) (t : Z) : bool :=
  day_selected c (day_of t) && flag (cr_hours c) (time_Hour t) && flag (cr_minutes c) (time_Minute t).

(** ** Times and their parts *)

Ltac units := unfold day_nanos, hour, minute, second in *.

Lemma parts_unique D h m s :
  0 <= h < 24 -> 0 <= m < 60 -> 0 <= s < minute ->
  let t := D * day_nanos + h * hour + m * minute + s in
  day_of t = D /\ time_Hour t = h /\ time_Minute t = m /\ t mod minute = s.
Proof.
  intros Hh Hm Hs t. destruct (time_parts t) as (Ph & Pm & Pt).
  pose proof (Z.mod_pos_bound t minute ltac:(units; lia)). unfold t in Pt at 1. units. lia.
Qed.

Lemma date_time_Date t k h m :
  time_Date (time_Year t) (time_Month t) (time_Day t + k) h m 0 0 = (day_of t + k) * day_nanos + h * hour + m * minute.
Proof.
  rewrite time_Date_sum, day_number_add, day_of_date. lia.
Qed.

Lemma same_time_Date t h m :
  time_Date (time_Year t) (time_Month t) (time_Day t) h m 0 0 = day_of t * day_nanos + h * hour + m * minute.
Proof. rewrite time_Date_sum, day_of_date. lia. Qed.

Lemma time_AddDate_day t k : time_AddDate t 0 k = (day_of t + k) * day_nanos + t mod day_nanos.
Proof.
  unfold time_AddDate. by rewrite Z.add_0_r, day_number_add, day_of_date.
Qed.

Lemma day_of_AddDate t k : day_of (time_AddDate t 0 k) = day_of t + k.
Proof.
  rewrite time_AddDate_day. unfold day_of at 1.
  symmetry. apply (Z.div_unique_pos _ _ _ (t mod day_nanos)); [|lia].
  apply Z.mod_pos_bound. units; lia.
Qed.

(** The day after has day 1 exactly on the last day of a month. *)
Lemma next_day_first n :
  (date_day (n + 1) =? 1) = (date_day n =? month_length (is_leap (date_year n)) (date_month n)).
Proof.
  destruct (date_roundtrip n) as [Hn Hv]. revert Hn Hv.
  generalize (date_year n), (date_month n), (date_day n). intros y m d <- [Hm Hd].
  replace (day_number y m d + 1) with (day_number y m (d + 1)) by (unfold day_number; lia).
  destruct (Z.eqb_spec d (month_length (is_leap y) m)) as [E|E].
  - enough (exists y' m', day_number y m (d + 1) = day_number y' m' 1 /\ 1 <= m' <= 12) as (y' & m' & -> & Hm').
    { destruct (day_number_parts y' m' 1) as (_ & _ & ->); [|reflexivity]. split; [exact Hm'|].
      pose proof (month_length_pos (is_leap y') m' Hm'). lia. }
    destruct (Z.eqb_spec m 12) as [->|Hne].
    + exists (y + 1), 1. split; [|lia]. unfold day_number. rewrite days_before_next_year.
      change (1 >? 2) with false. change (12 >? 2) with true. change (days_before_month 1) with 0.
      change (days_before_month 12) with 334. unfold year_length. cbn [andb].
      rewrite E. destruct (is_leap y); [change (month_length true 12) with 31 | change (month_length false 12) with 31]; lia.
    + exists y, (m + 1). split; [|lia]. unfold day_number, month_length, before_month in *.
      rewrite (proj2 (Z.eqb_neq m 12) Hne) in E. lia.
  - destruct (day_number_parts y m (d + 1)) as (_ & _ & ->); [split; lia|]. apply Z.eqb_neq. lia.
Qed.

Lemma dayMatches_selected c t : dayMatches c t = day_selected c (day_of t).
Proof.
  unfold dayMatches, day_selected, day_match, weekday_match, time_Day, time_Month, time_Weekday.
  rewrite day_of_AddDate, next_day_first. destruct (flag (cr_months c) _); [|reflexivity].
  destruct (cr_dayOr c); reflexivity.
Qed.

(** ** One iteration *)

Lemma minute_from_Some minutes m k r :
  minute_from minutes m k = Some r ->
  m <= r < m + Z.of_nat k /\ flag minutes r = true /\ forall i, m <= i < r -> flag minutes i = false.
Proof.
  revert m. induction k as [|k IH]; intros m; cbn [minute_from]; [done|].
  destruct (flag minutes m) eqn:E.
  - intros [= <-]. repeat split; [lia..|done|]. intros i Hi. lia.
  - intros (Hr & Hf & Hi)%IH. repeat split; [lia..|done|]. intros i Him.
    destruct (decide (i = m)) as [->|Hne]; [done|]. apply Hi. lia.
Qed.

Lemma minute_from_None minutes m k i :
  minute_from minutes m k = None -> m <= i < m + Z.of_nat k -> flag minutes i = false.
Proof.
  revert m. induction k as [|k IH]; intros m; cbn [minute_from]; [lia|].
  destruct (flag minutes m) eqn:E; [done|]. intros H Hi.
  destruct (decide (i = m)) as [->|Hne]; [done|]. apply (IH (m + 1)); [done|lia].
Qed.

(** The minutes from one time to another that the expression selects none of. *)
Definition none_between (c : Cron) (t u : Z) : Prop :=
  forall v, t <= v < u -> whole_minute v -> cron_matches c v = false.

Lemma none_between_trans c t u v : none_between c t u -> none_between c u v -> none_between c t v.
Proof. intros Htu Huv w Hw Hm. destruct (Z.lt_ge_cases w u); [apply Htu | apply Huv]; auto; lia. Qed.

(** Two times on the same day. *)
Lemma same_day t u : t <= u < (day_of t + 1) * day_nanos -> day_of u = day_of t.
Proof.
  intros H. destruct (time_parts t) as (? & ? & Pt), (time_parts u) as (? & ? & Pu).
  pose proof (Z.mod_pos_bound t minute ltac:(units; lia)). pose proof (Z.mod_pos_bound u minute ltac:(units; lia)).
  units. lia.
Qed.

Lemma same_hour t u :
  t <= u < day_of t * day_nanos + (time_Hour t + 1) * hour ->
  day_of u = day_of t /\ time_Hour u = time_Hour t /\ time_Minute t <= time_Minute u.
Proof.
  intros H. destruct (time_parts t) as (? & ? & Pt), (time_parts u) as (? & ? & Pu).
  pose proof (Z.mod_pos_bound t minute ltac:(units; lia)). pose proof (Z.mod_pos_bound u minute ltac:(units; lia)).
  units. lia.
Qed.

Lemma next_step_found c t u :
  whole_minute t -> next_step c t = inl u ->
  t <= u < t + hour /\ whole_minute u /\ cron_matches c u = true /\ none_between c t u.
Proof.
  intros Ht. unfold next_step. rewrite dayMatches_selected.
  destruct (day_selected c (day_of t)) eqn:Ed; [|done]. simpl negb; cbv iota.
  destruct (flag (cr_hours c) (time_Hour t)) eqn:Eh; [|done].
  destruct (minute_from _ _ _) as [m|] eqn:Em; [|done]. apply minute_from_Some in Em as (Hm & Hf & Hbefore).
  rewrite same_time_Date. intros [= <-].
  destruct (time_parts t) as (Ph & Pm & Pt). unfold whole_minute in Ht. rewrite Ht in Pt.
  assert (Hm60 : 0 <= m < 60) by lia.
  pose proof (parts_unique (day_of t) (time_Hour t) m 0 Ph Hm60 ltac:(units; lia)) as Hu. cbv zeta in Hu.
  rewrite Z.add_0_r in Hu. destruct Hu as (Ud & Uh & Um & Us).
  repeat split; [units; lia..|exact Us| |].
  - unfold cron_matches. by rewrite Ud, Uh, Um, Ed, Eh, Hf.
  - intros v Hv _. unfold cron_matches. destruct (same_hour t v) as (-> & -> & Hvm); [units; lia|].
    rewrite (Hbefore (time_Minute v)); [by rewrite andb_false_r|]. split; [lia|].
    destruct (time_parts v) as (? & ? & Pv). pose proof (Z.mod_pos_bound v minute ltac:(units; lia)).
    destruct (same_hour t v) as (Ev & Eh' & _); [units; lia|]. units. lia.
Qed.

Lemma next_step_skip c t u :
  whole_minute t -> next_step c t = inr u ->
  t < u /\ t / hour + 1 <= u / hour /\ whole_minute u /\ none_between c t u.
Proof.
  intros Ht. unfold next_step. rewrite dayMatches_selected.
  assert (Hhours : forall u k, t < u -> u = k * hour -> t / hour + 1 <= u / hour /\ whole_minute u).
  { intros w k Hw ->. unfold whole_minute. rewrite Z.div_mul by (units; lia). split.
    - assert (t / hour < k); [|lia]. apply Z.div_lt_upper_bound; units; lia.
    - replace (k * hour) with (k * 60 * minute) by (units; lia). apply Z.mod_mul. units; lia. }
  destruct (time_parts t) as (Ph & Pm & Pt). pose proof (Z.mod_pos_bound t minute ltac:(units; lia)).
  destruct (day_selected c (day_of t)) eqn:Ed; simpl negb; cbv iota.
  - destruct (if flag (cr_hours c) (time_Hour t) then _ else _) as [m|] eqn:Em; [done|].
    rewrite same_time_Date. intros [= <-].
    assert (Hlt : t < day_of t * day_nanos + (time_Hour t + 1) * hour + 0 * minute) by (units; lia).
    split; [exact Hlt|]. destruct (Hhours _ (day_of t * 24 + time_Hour t + 1) Hlt ltac:(units; lia)) as [? ?].
    repeat split; [done..|]. intros v Hv _. unfold cron_matches.
    destruct (same_hour t v) as (Hd & -> & Hm); [units; lia|]. rewrite Hd.
    destruct (flag (cr_hours c) (time_Hour t)); [|by rewrite andb_false_r].
    destruct (time_parts v) as (_ & Hvm & _).
    rewrite (minute_from_None _ _ _ (time_Minute v) Em); [by rewrite andb_false_r|]. lia.
  - rewrite date_time_Date. intros [= <-].
    assert (Hlt : t < (day_of t + 1) * day_nanos + 0 * hour + 0 * minute) by (units; lia).
    split; [exact Hlt|]. destruct (Hhours _ ((day_of t + 1) * 24) Hlt ltac:(units; lia)) as [? ?].
    repeat split; [done..|]. intros v Hv _. unfold cron_matches.
    rewrite (same_day t v), Ed; [reflexivity|]. units; lia.
Qed.

(** ** The loop *)

(** What the search from [t] to [limit] promises. *)
Definition first_match (c : Cron) (t limit : Z) (r : option Z) : Prop :=
  match r with
  | Some u => t <= u < limit + hour /\ whole_minute u /\ cron_matches c u = true /\ none_between c t u
  | None => none_between c t limit
  end.

Lemma next_loop_first c limit fuel t :
  whole_minute t -> limit / hour + 1 <= t / hour + Z.of_nat fuel ->
  exists r, next_loop fuel c t limit = Ret r /\ first_match c t limit r.
Proof.
  revert t. induction fuel as [|fuel IH]; intros t Ht Hfuel; cbn [next_loop].
  - destruct (Z.ltb_spec t limit) as [Hl|Hl].
    + pose proof (Z.div_le_mono t limit hour ltac:(units; lia) ltac:(lia)). lia.
    + exists None. split; [done|]. intros v Hv. lia.
  - destruct (Z.ltb_spec t limit) as [Hl|Hl]; [|exists None; split; [done|]; intros v Hv; lia].
    destruct (next_step c t) as [u|u] eqn:E.
    + apply next_step_found in E as (Hu & Hw & Hm & Hn); [|done]. exists (Some u).
      split; [done|]. repeat split; auto; lia.
    + apply next_step_skip in E as (Hu & Hh & Hw & Hn); [|done].
      destruct (IH u Hw ltac:(lia)) as (r & -> & Hr). exists r. split; [done|].
      destruct r as [w|]; simpl in *.
      * destruct Hr as (? & ? & ? & ?). repeat split; auto; [lia..|]. by apply (none_between_trans c t u w).
      * by apply (none_between_trans c t u limit).
Qed.

Lemma next_start_spec after :
  whole_minute (next_start after) /\ after < next_start after <= after + minute /\
  forall u, after < u -> whole_minute u -> next_start after <= u.
Proof.
  unfold next_start, truncate_minute, whole_minute.
  pose proof (Z.mod_pos_bound after minute ltac:(units; lia)).
  pose proof (Z.div_mod after minute ltac:(units; lia)) as Ha.
  replace (after - after mod minute + minute) with ((after / minute + 1) * minute) by lia.
  split; [apply Z.mod_mul; units; lia|]. split; [lia|].
  intros u Hu Hm. pose proof (Z.div_mod u minute ltac:(units; lia)) as Hd. rewrite Hm in Hd.
  assert (after / minute < u / minute); [|nia]. apply Z.div_lt_upper_bound; [units; lia|]. lia.
Qed.

Lemma Next_spec c after :
  exists r, Next c after = Ret r /\ first_match c (next_start after) (next_limit after) r.
Proof.
  apply next_loop_first; [apply next_start_spec|].
  set (t := next_start after). set (l := next_limit after).
  pose proof (Z.div_mod t hour ltac:(units; lia)). pose proof (Z.mod_pos_bound t hour ltac:(units; lia)).
  pose proof (Z.div_mod l hour ltac:(units; lia)). pose proof (Z.mod_pos_bound l hour ltac:(units; lia)).
  pose proof (Z.div_mod (l - t) hour ltac:(units; lia)). pose proof (Z.mod_pos_bound (l - t) hour ltac:(units; lia)).
  assert (l / hour <= t / hour + (l - t) / hour + 1) by (units; lia).
  lia.
Qed.

(** A minute the expression selects within the search bound is found. *)
Lemma Next_finds c after u :
  after < u < next_limit after -> whole_minute u -> cron_matches c u = true ->
  exists t, Next c after = Ret (Some t) /\ after < t <= u.
Proof.
  intros Hu Hw Hm. destruct (Next_spec c after) as (r & Hr & Hf). destruct (next_start_spec after) as (_ & Hs & Hle).
  specialize (Hle u (proj1 Hu) Hw). destruct r as [t|]; simpl in Hf.
  - destruct Hf as (Ht & _ & _ & Hn). exists t. split; [done|]. split; [lia|].
    destruct (Z.le_gt_cases t u) as [|Hgt]; [done|]. rewrite (Hn u) in Hm; [done|lia|done].
  - rewrite (Hf u) in Hm; [done|lia|done].
Qed.

(** ** The 28-year cycle

    From 1901 to 2099 every fourth year is a leap year, so dates fall on the
    same weekdays every 28 years. *)

Definition cycle : Z := 10227.

Definition in_cycle (n : Z) : Prop := day_number 1901 1 1 <= n <= day_number 2099 12 31.

Lemma leap_in_century y : 1901 <= y <= 2099 -> is_leap y = (y mod 4 =? 0).
Proof.
  intros H. unfold is_leap. destruct (decide (y = 2000)) as [->|Hne]; [reflexivity|].
  destruct (Z.eqb_spec (y mod 100) 0) as [E|E]; [|by rewrite andb_true_r].
  exfalso. pose proof (Z.div_mod y 100 ltac:(lia)). lia.
Qed.

Lemma year_in_cycle n : in_cycle n -> 1901 <= date_year n <= 2099.
Proof.
  unfold in_cycle. intros H. pose proof (civil_year_spec n) as Hy. unfold date_year.
  assert (H1 : days_before_year 1901 = day_number 1901 1 1) by reflexivity.
  assert (H2 : days_before_year 2100 = day_number 2099 12 31 + 1) by reflexivity.
  split.
  - destruct (Z.le_gt_cases 1901 (civil_year n)) as [|Hlt]; [done|].
    pose proof (days_before_year_le (civil_year n + 1) 1901 ltac:(lia)). lia.
  - destruct (Z.le_gt_cases (civil_year n) 2099) as [|Hlt]; [done|].
    pose proof (days_before_year_le 2100 (civil_year n) ltac:(lia)). lia.
Qed.

Lemma day_number_cycle y m d :
  1901 <= y -> y + 28 <= 2099 -> day_number (y + 28) m d = day_number y m d + cycle.
Proof.
  intros H1 H2. unfold day_number, cycle, days_before_year.
  rewrite !leap_in_century by lia. assert ((y + 28) mod 4 = y mod 4) as -> by (replace (y + 28) with (y + 7 * 4) by lia; apply Z.mod_add; lia).
  pose proof (Z.div_mod (y - 1) 4 ltac:(lia)). pose proof (Z.mod_pos_bound (y - 1) 4 ltac:(lia)).
  pose proof (Z.div_mod (y - 1) 100 ltac:(lia)). pose proof (Z.mod_pos_bound (y - 1) 100 ltac:(lia)).
  pose proof (Z.div_mod (y - 1) 400 ltac:(lia)). pose proof (Z.mod_pos_bound (y - 1) 400 ltac:(lia)).
  pose proof (Z.div_mod (y + 28 - 1) 4 ltac:(lia)). pose proof (Z.mod_pos_bound (y + 28 - 1) 4 ltac:(lia)).
  pose proof (Z.div_mod (y + 28 - 1) 100 ltac:(lia)). pose proof (Z.mod_pos_bound (y + 28 - 1) 100 ltac:(lia)).
  pose proof (Z.div_mod (y + 28 - 1) 400 ltac:(lia)). pose proof (Z.mod_pos_bound (y + 28 - 1) 400 ltac:(lia)).
  lia.
Qed.

Lemma day_selected_cycle1 c n : in_cycle n -> in_cycle (n + cycle) -> day_selected c (n + cycle) = day_selected c n.
Proof.
  intros Hn Hc. pose proof (year_in_cycle n Hn) as Hy. pose proof (year_in_cycle _ Hc) as Hyc.
  destruct (date_roundtrip n) as [Ed Hv]. unfold day_selected.
  assert (Hw : date_weekday (n + cycle) = date_weekday n).
  { unfold date_weekday, cycle. replace (n + 10227 + 1) with (n + 1 + 1461 * 7) by lia. apply Z.mod_add. lia. }
  assert (Hlate : date_year n + 28 <= 2099).
  { destruct (Z.le_gt_cases (date_year n) 2071) as [|Hgt]; [lia|]. exfalso.
    pose proof (civil_year_spec n) as Hs. unfold in_cycle, cycle in *. unfold date_year in *.
    pose proof (days_before_year_le 2072 (civil_year n) ltac:(lia)) as Hle.
    change (days_before_year 2072) with 756417 in Hle. change (day_number 2099 12 31) with 766643 in Hc. lia. }
  pose proof (day_number_cycle (date_year n) (date_month n) (date_day n) ltac:(lia) Hlate) as Hs. rewrite Ed in Hs.
  assert (El : is_leap (date_year n + 28) = is_leap (date_year n)).
  { rewrite !leap_in_century by lia. f_equal. replace (date_year n + 28) with (date_year n + 7 * 4) by lia.
    apply Z.mod_add. lia. }
  destruct (day_number_parts (date_year n + 28) (date_month n) (date_day n)) as (Py & Pm & Pd).
  { unfold valid_date. rewrite El. exact Hv. }
  rewrite Hs in Py, Pm, Pd. by rewrite Py, Pm, Pd, Hw, El.
Qed.

Lemma day_selected_cycle c n k :
  0 <= k -> in_cycle n -> in_cycle (n + k * cycle) -> day_selected c (n + k * cycle) = day_selected c n.
Proof.
  intros Hk. pattern k. apply natlike_ind; [by rewrite Z.mul_0_l, Z.add_0_r| |exact Hk].
  intros x Hx IH Hn Hc. assert (Hm : in_cycle (n + x * cycle)) by (unfold in_cycle, cycle in *; lia).
  replace (n + Z.succ x * cycle) with (n + x * cycle + cycle) in * by lia.
  by rewrite day_selected_cycle1, IH.
Qed.

Lemma cron_matches_shift c t k :
  0 <= k -> in_cycle (day_of t) -> in_cycle (day_of t + k * cycle) ->
  cron_matches c (t + k * cycle * day_nanos) = cron_matches c t /\
  (whole_minute (t + k * cycle * day_nanos) <-> whole_minute t).
Proof.
  intros Hk Hn Hc. destruct (time_parts t) as (Ph & Pm & Pt).
  pose proof (Z.mod_pos_bound t minute ltac:(units; lia)) as Hs.
  pose proof (parts_unique (day_of t + k * cycle) (time_Hour t) (time_Minute t) (t mod minute) Ph Pm Hs) as Hu.
  cbv zeta in Hu. replace (_ + t mod minute) with (t + k * cycle * day_nanos) in Hu by (units; unfold cycle; lia).
  destruct Hu as (Ud & Uh & Um & Us). unfold cron_matches, whole_minute.
  rewrite Ud, Uh, Um, Us, day_selected_cycle by done. done.
Qed.

(** The search limit of a time in the cycle is one cycle later. *)
Lemma next_limit_cycle after :
  parse_epoch <= next_start after < time_Date 2072 1 1 0 0 0 0 ->
  next_limit after = next_start after + cycle * day_nanos.
Proof.
  unfold next_limit, time_AddDate, searchYears. generalize (next_start after). intros t Ht.
  rewrite Z.add_0_r.
  assert (Hd : day_number 2000 1 1 <= day_of t < day_number 2072 1 1).
  { unfold parse_epoch in Ht. rewrite !time_Date_sum in Ht. unfold day_of.
    split; [apply Z.div_le_lower_bound | apply Z.div_lt_upper_bound]; units; lia. }
  change (day_number 2000 1 1) with 730119 in Hd. change (day_number 2072 1 1) with 756417 in Hd.
  assert (Hc : in_cycle (day_of t)).
  { unfold in_cycle. change (day_number 1901 1 1) with 693960. change (day_number 2099 12 31) with 766643. lia. }
  pose proof (year_in_cycle _ Hc) as Hy. fold (time_Year t) in Hy.
  assert (Hlate : time_Year t + 28 <= 2099).
  { destruct (Z.le_gt_cases (time_Year t) 2071) as [|Hgt]; [lia|]. exfalso.
    pose proof (civil_year_spec (day_of t)) as Hs. unfold time_Year, date_year in *.
    pose proof (days_before_year_le 2072 (civil_year (day_of t)) ltac:(lia)) as Hle.
    change (days_before_year 2072) with 756417 in Hle. lia. }
  rewrite day_number_cycle, day_of_date by lia.
  pose proof (Z.div_mod t day_nanos ltac:(units; lia)). unfold day_of. lia.
Qed.

(** A match in the cycle repeats, so a search from anywhere between 2000 and
    2072 finds one. *)
Lemma Next_cycle c after t0 :
  parse_epoch < t0 <= parse_epoch + (cycle + 1) * day_nanos -> whole_minute t0 -> cron_matches c t0 = true ->
  parse_epoch <= after < time_Date 2072 1 1 0 0 0 0 - minute ->
  exists t, Next c after = Ret (Some t) /\ after < t < next_limit after.
Proof.
  intros Ht0 Hw Hm Ha. destruct (next_start_spec after) as (_ & Hs & _).
  pose proof (next_limit_cycle after ltac:(lia)) as Hl.
  set (P := cycle * day_nanos) in *. assert (HP : 0 < P) by (unfold P, cycle; units; lia).
  (* the first repeat of [t0] after [after], or the one before [t0] itself *)
  set (k := (after - t0) / P + 1). pose proof (Z.div_mod (after - t0) P ltac:(lia)).
  pose proof (Z.mod_pos_bound (after - t0) P HP).
  assert (Hu : after < t0 + k * P <= after + P) by (unfold k; lia).
  assert (Hday : forall u, parse_epoch <= u < time_Date 2100 1 1 0 0 0 0 -> in_cycle (day_of u)).
  { intros u Hu'. unfold in_cycle, day_of. unfold parse_epoch in Hu'. rewrite !time_Date_sum in Hu'.
    change (day_number 2000 1 1) with 730119 in Hu'. change (day_number 2100 1 1) with 766644 in Hu'.
    change (day_number 1901 1 1) with 693960. change (day_number 2099 12 31) with 766643.
    assert (u / day_nanos < 766644) by (apply Z.div_lt_upper_bound; units; lia).
    assert (693960 <= u / day_nanos) by (apply Z.div_le_lower_bound; units; lia). lia. }
  assert (Hsum : time_Date 2072 1 1 0 0 0 0 + P = time_Date 2100 1 1 0 0 0 0) by reflexivity.
  assert (Hin : in_cycle (day_of (t0 + k * P))) by (apply Hday; lia).
  assert (Hin0 : in_cycle (day_of t0)).
  { apply Hday. split; [lia|]. apply Z.le_lt_trans with (1 := proj2 Ht0). reflexivity. }
  assert (Hshift : forall t j, day_of (t + j * P) = day_of t + j * cycle).
  { intros t j. unfold day_of, P. replace (j * (cycle * day_nanos)) with (j * cycle * day_nanos) by lia.
    apply Z.div_add. units; lia. }
  assert (Hk : cron_matches c (t0 + k * P) = true /\ whole_minute (t0 + k * P)).
  { rewrite Hshift in Hin. destruct (Z.le_gt_cases 0 k) as [Hk|Hk].
    - destruct (cron_matches_shift c t0 k Hk Hin0 Hin) as [Em Ew]. unfold P.
      replace (k * (cycle * day_nanos)) with (k * cycle * day_nanos) by lia. rewrite Em, Ew. done.
    - pose proof (cron_matches_shift c (t0 + k * P) (- k) ltac:(lia)) as H'. rewrite Hshift in H'.
      replace (day_of t0 + k * cycle + - k * cycle) with (day_of t0) in H' by lia.
      destruct (H' Hin Hin0) as [Em Ew]. replace (t0 + k * P + - k * cycle * day_nanos) with t0 in * by (unfold P; lia).
      rewrite <- Em, <- Ew. done. }
  destruct (Next_finds c after (t0 + k * P)) as (t & Ht & Hle); [lia|apply Hk..|].
  exists t. split; [exact Ht|lia].
Qed.

(** The search is reasoned about by its specification from here on. *)
#[global] Opaque Next parse_epoch.
