(* ===== verification/CronParse.v ===== *)
(** The parse of cron fields: the values a field selects, the loop that
    marks them on 64-bit integers, and the bytes an accepted expression is
    made of: visible lowercase ASCII, so normalizing its text again changes
    nothing. *)

From S2P Require Import Prelude Calendar GoLib Cron.

(** ** Values and items *)

Lemma value_Ret text low high names v :
  value text low high names = Ret v -> names text = Some v \/ (Atoi text = Some v /\ low <= v <= high).
Proof.
  unfold value. destruct (names text) as [u|]; [intros [= ->]; by left|].
  destruct (Atoi text) as [u|]; [|done]. destruct (_ || _) eqn:E; [done|]. intros [= ->].
  apply orb_false_iff in E as [?%Z.ltb_ge E]. rewrite Z.gtb_ltb in E. apply Z.ltb_ge in E. right. done.
Qed.

Lemma value_returns text low high names : returns (value text low high names).
Proof.
  unfold value. destruct (names text); auto with go_returns. destruct (Atoi text); auto with go_returns.
  destruct (_ || _); auto with go_returns.
Qed.
#[export] Hint Resolve value_returns : go_returns.

(** Names that stand for values of the field. *)
Definition names_within (names : string -> option Z) (low high : Z) : Prop :=
  forall s v, names s = Some v -> low <= v <= high.

Lemma noNames_within low high : names_within noNames low high.
Proof. intros s v H. discriminate H. Qed.

Lemma substring_length s a b : (String.length (String.substring a b s) <= String.length s - a)%nat.
Proof.
  revert a b. induction s as [|c s IH]; intros a b; [destruct a, b; cbn; lia|].
  destruct a as [|a]; cbn; [|apply IH]. destruct b as [|b]; cbn; [lia|]. specialize (IH 0%nat b). lia.
Qed.

Lemma packed_name_range table name n :
  packed_name table name = Some n -> 0 <= n <= Z.of_nat (String.length table) / 3 - 1.
Proof.
  unfold packed_name. destruct (Nat.eqb_spec (String.length name) 3) as [El|]; [|done].
  destruct (String.index 0 name table) as [k|] eqn:E; [|done]. destruct (_ =? 0); [|done]. intros [= <-].
  apply String.index_correct1 in E. rewrite El in E.
  pose proof (substring_length table k 3) as Hl. rewrite E, El in Hl.
  split; [apply Z.div_pos; lia|].
  assert (Z.of_nat k / 3 + 1 = (Z.of_nat k + 1 * 3) / 3) as Hk by (rewrite Z.div_add; lia).
  pose proof (Z.div_le_mono (Z.of_nat k + 1 * 3) (Z.of_nat (String.length table)) 3 ltac:(lia) ltac:(lia)). lia.
Qed.

Lemma monthName_within : names_within monthName 1 12.
Proof.
  intros s v. unfold monthName. intros (n & H & [= <-])%bind_Some.
  apply packed_name_range in H. change (Z.of_nat (String.length _) / 3 - 1) with 11 in H. lia.
Qed.

Lemma weekdayName_within : names_within weekdayName 0 7.
Proof.
  intros s v H. apply packed_name_range in H. change (Z.of_nat (String.length _) / 3 - 1) with 6 in H. lia.
Qed.
#[export] Hint Resolve noNames_within monthName_within weekdayName_within : go_returns.

Lemma value_range text low high names v :
  names_within names low high -> value text low high names = Ret v -> low <= v <= high.
Proof. intros Hn [H|[_ H]]%value_Ret; [by apply (Hn text)|done]. Qed.

Lemma parseItem_returns item low high names : returns (parseItem item low high names).
Proof.
  unfold parseItem. destruct (match Cut "/"%char item with Some _ => _ | None => _ end) as [base stepText].
  apply returns_bind; [|intros step _].
  { destruct stepText as [s|]; auto with go_returns. destruct (Atoi s); auto with go_returns.
    destruct (_ <? 1); auto with go_returns. }
  destruct (_ || _); auto with go_returns. destruct (Cut _ base) as [[a b]|]; auto 8 with go_returns.
Qed.
#[export] Hint Resolve parseItem_returns : go_returns.

(** An item's bounds are values of the field and its step is positive. *)
Lemma parseItem_range item low high names from to step :
  parseItem item low high names = Ret (from, to, step) -> low <= high -> names_within names low high ->
  low <= from <= high /\ low <= to <= high /\ 1 <= step <= max_int64.
Proof.
  intros Hp Hlh Hn. revert Hp. unfold parseItem. destruct (match Cut "/"%char item with Some _ => _ | None => _ end) as [base stepText].
  intros (s & Hs & H)%go_bind_Ret.
  assert (Hstep : 1 <= s <= max_int64).
  { destruct stepText as [text|]; [|injection Hs as <-; done].
    destruct (Atoi text) as [v|] eqn:Ev; [|done]. destruct (Z.ltb_spec v 1); [done|].
    injection Hs as <-. apply Atoi_bounds in Ev. lia. }
  destruct (_ || _) in H; [injection H as <- <- <-; lia|].
  destruct (Cut _ base) as [[a b]|] in H.
  - apply go_bind_Ret in H as (f & Hf & H). apply go_bind_Ret in H as (u & Hu & [= <- <- <-]).
    apply value_range in Hf; [|done]. apply value_range in Hu; [|done]. lia.
  - apply go_bind_Ret in H as (f & Hf & [= <- <- <-]). apply value_range in Hf; [|done].
    destruct stepText; lia.
Qed.

(** ** The marking loop *)

Lemma set_flag_Ret {E} set i set' :
  set_flag (E := E) set i = Ret set' ->
  0 <= i < Z.of_nat (length set) /\ length set' = length set /\
  forall j, 0 <= j -> flag set' j = flag set j || (j =? i).
Proof.
  unfold set_flag. destruct (_ && _) eqn:B; [|done]. intros [= <-].
  apply andb_true_iff in B as [?%Z.leb_le ?%Z.ltb_lt]. repeat split; [done..|by rewrite length_insert|].
  intros j Hj. unfold flag. rewrite !nth_lookup. destruct (Z.eqb_spec j i) as [->|Hne].
  - rewrite list_lookup_insert_eq by lia. by rewrite orb_true_r.
  - rewrite list_lookup_insert_ne by lia. by rewrite orb_false_r.
Qed.

Lemma set_flag_in {E} set i : 0 <= i < Z.of_nat (length set) -> exists set', set_flag (E := E) set i = Ret set'.
Proof.
  intros [H1 H2]. unfold set_flag. apply Z.leb_le in H1. apply Z.ltb_lt in H2. rewrite H1, H2. by eexists.
Qed.

Section Mark.
Context {E : Type} (low size to step : Z).
Context (Hlow : 0 <= low <= 1) (Hsize : 1 <= size <= 60) (Hto : to <= 127) (Hstep : 1 <= step <= max_int64).

(** Steps the loop can add to a value of the field without overflow. *)
Definition step_fits : Prop := step <= max_int64 - 128.

(** The values the loop visits. *)
Definition visits (v w : Z) : bool := (v <=? w) && (w <=? to) && ((w - v) mod step =? 0).

Lemma visits_step v w : v <= to -> visits v w = (w =? v) || visits (v + step) w.
Proof.
  intros Hv. unfold visits. destruct (Z.eqb_spec w v) as [->|Hne].
  - rewrite Z.leb_refl, Z.sub_diag, Z.mod_0_l by lia. apply Z.leb_le in Hv. by rewrite Hv.
  - cbn [orb]. replace (w - v) with (w - (v + step) + 1 * step) by lia. rewrite Z.mod_add by lia.
    destruct (Z.leb_spec v w), (Z.leb_spec (v + step) w); cbn [andb]; try lia; try reflexivity.
    destruct (w <=? to); [|done]. cbn [andb]. apply Z.eqb_neq. intros Hz.
    apply Z.mod_divide in Hz as [q Hq]; [|lia]. destruct (Z.le_gt_cases 0 q); nia.
Qed.

(** Without overflow the loop marks, modulo the field's size, exactly the
    values it visits, and returns. *)
Lemma mark_fits fuel set v :
  step_fits -> Z.of_nat (length set) = low + size -> low <= v <= 128 -> to - v + 1 <= Z.of_nat fuel ->
  exists set', mark (E := E) fuel set low size v to step = Ret set' /\ length set' = length set /\
    forall j, low <= j < low + size ->
      (flag set' j = true <-> flag set j = true \/ exists w, visits v w = true /\ low + (w - low) mod size = j).
Proof.
  unfold step_fits. intros Hfit. revert set v. induction fuel as [|fuel IH]; intros set v Hlen Hv Hfuel; cbn [mark].
  all: destruct (Z.leb_spec v to) as [Hvt|Hvt].
  - lia.
  - exists set. split_and!; [done..|]. intros j Hj. split; [tauto|]. intros [?|(w & Hw & _)]; [done|].
    unfold visits in Hw. rewrite !andb_true_iff, !Z.leb_le in Hw. lia.
  - rewrite (wrap64_id (v - low)) by (unfold min_int64, max_int64; lia).
    rewrite Z.rem_mod_nonneg by lia. pose proof (Z.mod_pos_bound (v - low) size ltac:(lia)) as Hmod.
    destruct (set_flag_in (E := E) set (low + (v - low) mod size) ltac:(lia)) as [set1 H1].
    rewrite H1. cbn [go_bind]. apply set_flag_Ret in H1 as (_ & Hl1 & Hf1).
    rewrite wrap64_id by (unfold min_int64, max_int64 in *; lia).
    destruct (Z.le_gt_cases (v + step) 128) as [Hb|Hb].
    + destruct (IH set1 (v + step)) as (set' & -> & Hl & Hf); [lia..|]. exists set'. split_and!; [done|lia|].
      intros j Hj. rewrite Hf, Hf1, orb_true_iff, Z.eqb_eq by lia. setoid_rewrite (visits_step v) at 1; [|done].
      setoid_rewrite orb_true_iff. setoid_rewrite Z.eqb_eq. split.
      * intros [[?| ->]|(w & Hw & <-)]; eauto.
      * intros [?|(w & [->|Hw] & <-)]; eauto.
    + exists set1. split_and!; [|done|].
      { destruct fuel; cbn [mark]; rewrite (proj2 (Z.leb_gt (v + step) to)) by lia; done. }
      intros j Hj. rewrite Hf1, orb_true_iff, Z.eqb_eq by lia. setoid_rewrite (visits_step v); [|done].
      setoid_rewrite orb_true_iff. setoid_rewrite Z.eqb_eq. split.
      * intros [?| ->]; eauto.
      * intros [?|(w & [->|Hw] & <-)]; eauto. exfalso. unfold visits in Hw. rewrite !andb_true_iff, !Z.leb_le in Hw. lia.
  - exists set. split_and!; [done..|]. intros j Hj. split; [tauto|]. intros [?|(w & Hw & _)]; [done|].
    unfold visits in Hw. rewrite !andb_true_iff, !Z.leb_le in Hw. lia.
Qed.

(** With a step near the top of [int64] the counter wraps around; every
    second value then falls until the counter passes the range's end or an
    index leaves the array. *)
Lemma mark_overflow fuel set v :
  max_int64 - 128 < step -> -128 <= v <= 128 -> v + 130 <= Z.of_nat fuel ->
  mark (E := E) fuel set low size v to step <> Spins.
Proof.
  intros Hbig. revert set v. induction fuel as [fuel IH] using lt_wf_ind. intros set v Hv Hfuel.
  destruct fuel as [|[|fuel]]; cbn [mark]; [lia..|].
  destruct (Z.leb_spec v to) as [Hvt|Hvt]; [|discriminate].
  destruct (set_flag _ _) as [set1| | |] eqn:Ef; cbn [go_bind]; try discriminate.
  2: { unfold set_flag in Ef. destruct (_ && _); discriminate. }
  destruct (Z.le_gt_cases (v + step) max_int64) as [Hno|Hwrap].
  - rewrite wrap64_id by (unfold min_int64, max_int64 in *; lia).
    rewrite (proj2 (Z.leb_gt (v + step) to)) by (unfold max_int64 in *; lia). discriminate.
  - rewrite (wrap64_above (v + step)) by (unfold max_int64 in *; lia).
    destruct (_ <=? to); [|discriminate].
    destruct (set_flag set1 _) as [set2| | |] eqn:Ef2; cbn [go_bind]; try discriminate.
    2: { unfold set_flag in Ef2. destruct (_ && _); discriminate. }
    rewrite wrap64_id by (unfold min_int64, max_int64 in *; lia).
    apply IH; unfold max_int64 in *; lia.
Qed.

(** The loop ends: it marks, or it panics. *)
Lemma mark_ends set v :
  Z.of_nat (length set) = low + size -> low <= v <= 128 -> mark (E := E) mark_fuel set low size v to step <> Spins.
Proof.
  intros Hlen Hv. destruct (Z.le_gt_cases step (max_int64 - 128)) as [Hfit|Hbig].
  - destruct (mark_fits mark_fuel set v Hfit Hlen Hv) as (set' & -> & _); [unfold mark_fuel; lia|discriminate].
  - apply mark_overflow; [lia..|]. unfold mark_fuel. lia.
Qed.
End Mark.

Lemma mark_length {E} fuel set low size v to step set' :
  mark (E := E) fuel set low size v to step = Ret set' -> length set' = length set.
Proof.
  revert set v. induction fuel as [|fuel IH]; intros set v; cbn [mark]; destruct (v <=? to); try congruence.
  intros (set1 & H1 & H)%go_bind_Ret. apply set_flag_Ret in H1 as (_ & <- & _). by apply IH in H.
Qed.

(** ** setRange *)

(** The values of a field's low end to its high end that an item selects: a
    range from [from] to [to] in steps, which wraps past the field's end when
    it is reversed. *)
Definition range_selects (low high from to step j : Z) : bool :=
  if from <=? to then (from <=? j) && (j <=? to) && ((j - from) mod step =? 0)
  else ((from <=? j) && ((j - from) mod step =? 0)) ||
       ((j <=? to) && ((j + (high - low + 1) - from) mod step =? 0)).

Definition item_selects (low high : Z) (names : string -> option Z) (j : Z) (item : string) : bool :=
  match parseItem item low high names with
  | Ret (from, to, step) => range_selects low high from to step j
  | _ => false
  end.

Lemma range_selects_visits low high from to step j :
  low <= from <= high -> low <= to <= high -> low <= j <= high -> 1 <= step ->
  range_selects low high from to step j = true <->
  exists w, visits (if from >? to then to + (high - low + 1) else to) step from w = true /\
            low + (w - low) mod (high - low + 1) = j.
Proof.
  intros Hf Ht Hj Hs. set (size := high - low + 1).
  assert (Hw : forall w, from <= w -> w <= high + size -> low + (w - low) mod size = j -> w = j \/ w = j + size).
  { intros w H1 H2 Hm. pose proof (Z.div_mod (w - low) size ltac:(unfold size; lia)) as Hd.
    pose proof (Z.div_pos (w - low) size ltac:(lia) ltac:(unfold size; lia)).
    assert ((w - low) / size < 2) by (apply Z.div_lt_upper_bound; unfold size in *; lia).
    assert ((w - low) / size = 0 \/ (w - low) / size = 1) as [E|E] by lia; rewrite E in Hd; lia. }
  assert (Hm0 : low + (j - low) mod size = j) by (rewrite Z.mod_small; unfold size; lia).
  assert (Hm1 : low + (j + size - low) mod size = j).
  { replace (j + size - low) with (j - low + 1 * size) by lia. rewrite Z.mod_add by (unfold size; lia). exact Hm0. }
  unfold range_selects, visits. fold size. rewrite Z.gtb_ltb. split.
  - destruct (Z.leb_spec from to) as [L|L].
    + intros H. exists j. rewrite (proj2 (Z.ltb_ge to from) L). split; [exact H | exact Hm0].
    + rewrite (proj2 (Z.ltb_lt to from) L), orb_true_iff, !andb_true_iff, !Z.leb_le. intros [[H1 H2]|[H1 H2]].
      * exists j. rewrite !andb_true_iff, !Z.leb_le. split_and!; try done. lia.
      * exists (j + size). rewrite !andb_true_iff, !Z.leb_le. split_and!; try done; unfold size in *; lia.
  - intros (w & H & Hm). destruct (Z.leb_spec from to) as [L|L].
    + rewrite (proj2 (Z.ltb_ge to from) L) in H. rewrite !andb_true_iff, !Z.leb_le in *. destruct H as [[H1 H2] H3].
      destruct (Hw w H1 ltac:(unfold size; lia) Hm) as [->| ->]; [done|]. unfold size in *. lia.
    + rewrite (proj2 (Z.ltb_lt to from) L) in H. rewrite orb_true_iff, !andb_true_iff, !Z.leb_le in *.
      destruct H as [[H1 H2] H3]. destruct (Hw w H1 ltac:(lia) Hm) as [->| ->]; [left; done|]. right. split; [lia|done].
Qed.

Section Range.
Context (low high : Z) (names : string -> option Z).
Context (Hlow : 0 <= low <= 1) (Hhigh : low <= high <= low + 59) (Hnames : names_within names low high).

Lemma setRange_item_fits set item from to step :
  Z.of_nat (length set) = high + 1 -> parseItem item low high names = Ret (from, to, step) ->
  step <= max_int64 - 128 ->
  exists set', setRange_item low high names set item = Ret set' /\ length set' = length set /\
    forall j, low <= j <= high -> flag set' j = flag set j || item_selects low high names j item.
Proof.
  intros Hlen Hp Hstep. destruct (parseItem_range _ _ _ _ _ _ _ Hp ltac:(lia) Hnames) as (Hf & Ht & Hs).
  unfold setRange_item, item_selects. rewrite Hp. cbn [go_bind].
  assert (Hend : (if from >? to then to + (high - low + 1) else to) <= 127) by (destruct (from >? to); lia).
  destruct (mark_fits (E := field_error) low (high - low + 1) _ step Hlow ltac:(lia) Hend Hs
              mark_fuel set from Hstep ltac:(lia) ltac:(lia)) as (set' & Hmark & Hl & Hflag).
  { unfold mark_fuel. lia. }
  exists set'. split_and!; [exact Hmark | exact Hl|]. intros j Hj.
  apply Bool.eq_true_iff_eq. rewrite Hflag, orb_true_iff, range_selects_visits by lia. done.
Qed.

Lemma setRange_item_length set item set' :
  setRange_item low high names set item = Ret set' -> length set' = length set.
Proof. intros ([[from to] step] & _ & H)%go_bind_Ret. by apply mark_length in H. Qed.

Lemma setRange_item_ends set item :
  Z.of_nat (length set) = high + 1 -> setRange_item low high names set item <> Spins.
Proof.
  intros Hlen. unfold setRange_item. pose proof (parseItem_returns item low high names) as [_ Hr].
  destruct (parseItem item low high names) as [[[from to] step]| | |] eqn:Hp; try discriminate; [|congruence].
  cbn [go_bind]. destruct (parseItem_range _ _ _ _ _ _ _ Hp ltac:(lia) Hnames) as (Hf & Ht & Hs).
  apply mark_ends; try lia. destruct (from >? to); lia.
Qed.
End Range.

(** A loop over a list that never spins, by an invariant of its state. *)
Lemma go_fold_ends {E A B} (P : A -> Prop) (f : A -> B -> go E A) l a :
  P a -> (forall s x, P s -> f s x <> Spins /\ forall s', f s x = Ret s' -> P s') -> go_fold f l a <> Spins.
Proof.
  intros Ha Hf. revert a Ha. induction l as [|x l IH]; intros a Ha; simpl; [discriminate|].
  destruct (Hf a x Ha) as [Hs Hp]. destruct (f a x); simpl; try congruence. apply IH, Hp. reflexivity.
Qed.

Lemma setRange_length set field low high names set' :
  setRange set field low high names = Ret set' -> length set' = length set.
Proof.
  apply (go_fold_prefix (fun _ s => length s = length set)); [done|].
  intros done x s s' _ <- H. by apply setRange_item_length in H.
Qed.

Lemma setRange_ends set field low high names :
  0 <= low <= 1 -> low <= high <= low + 59 -> names_within names low high -> Z.of_nat (length set) = high + 1 ->
  setRange set field low high names <> Spins.
Proof.
  intros Hl Hh Hn Hlen. apply (go_fold_ends (fun s => length s = length set)); [done|].
  intros s x Hs. split; [apply setRange_item_ends; auto; by rewrite Hs|].
  intros s' H. apply setRange_item_length in H. congruence.
Qed.

Lemma bind_ends {E A B} (x : go E A) (f : A -> go E B) :
  x <> Spins -> (forall a, x = Ret a -> f a <> Spins) -> go_bind x f <> Spins.
Proof. destruct x; simpl; auto; congruence. Qed.

Lemma value_ends text low high names : value text low high names <> Spins.
Proof. apply value_returns. Qed.

Lemma set_flag_ends {E} set i : set_flag (E := E) set i <> Spins.
Proof. unfold set_flag. by destruct (_ && _). Qed.

Lemma parseDays_ends field : parseDays field <> Spins.
Proof.
  apply (go_fold_ends (fun d => length (dm_days d) = 32%nat)); [done|].
  intros d item Hd. unfold parseDays_item. destruct (item == "l").
  { split; [discriminate|]. intros d' [= <-]. done. }
  destruct (CutSuffix "-l" item) as [text|].
  { split; [apply bind_ends; [apply value_ends|discriminate]|].
    intros d' (v & _ & [= <-])%go_bind_Ret. simpl. unfold mark_from. by rewrite length_imap. }
  destruct (CutSuffix "w" item) as [text|].
  { split; [apply bind_ends; [apply value_ends|]; intros v _; apply bind_ends; [apply set_flag_ends|discriminate]|].
    intros d' (v & _ & H)%go_bind_Ret. apply go_bind_Ret in H as (days & Hs%set_flag_Ret & [= <-]). simpl. lia. }
  split.
  - apply bind_ends; [|discriminate]. apply setRange_ends; [lia..|apply noNames_within|]. by rewrite Hd.
  - intros d' (days & Hs%setRange_length & [= <-])%go_bind_Ret. simpl. lia.
Qed.

Lemma parseWeekdays_ends field : parseWeekdays field <> Spins.
Proof.
  apply (go_fold_ends (fun _ => True)); [done|]. intros w item _. split; [|done].
  unfold parseWeekdays_item. destruct (Cut "#"%char item) as [[day n]|].
  - destruct (negb _); [discriminate|]. apply bind_ends; [apply value_ends|]. intros d _.
    destruct (Atoi n) as [v|]; [|discriminate]. destruct (_ || _); [discriminate|].
    apply bind_ends; [apply set_flag_ends|discriminate].
  - apply bind_ends; [|discriminate]. apply setRange_ends; [lia..|apply weekdayName_within|done].
Qed.

Lemma parse_fields_ends normalized p0 p1 p2 p3 p4 : parse_fields normalized p0 p1 p2 p3 p4 <> Spins.
Proof.
  unfold parse_fields.
  apply bind_ends; [apply setRange_ends; [lia..|apply noNames_within|done]|intros minutes _].
  apply bind_ends; [apply setRange_ends; [lia..|apply noNames_within|done]|intros hours _].
  apply bind_ends; [apply setRange_ends; [lia..|apply monthName_within|done]|intros months_ _].
  apply bind_ends; [apply parseDays_ends|intros days _].
  apply bind_ends; [apply parseWeekdays_ends|discriminate].
Qed.

(** The bytes a field may hold: visible, not upper case. *)
Definition plain_char (c : ascii) : bool :=
  (33 <=? code c) && (code c <? 127) && negb ((65 <=? code c) && (code c <=? 90)).

Definition plain (s : string) : Prop := all_chars plain_char s = true /\ s <> "".

(** ** Fields that parse are plain *)

Lemma digit_plain c : is_digit c = true -> plain_char c = true.
Proof.
  unfold is_digit, plain_char. intros [?%Z.leb_le ?%Z.leb_le]%andb_true_iff.
  rewrite (proj2 (Z.leb_le 33 _)), (proj2 (Z.ltb_lt (code c) 127)), (proj2 (Z.leb_gt 65 _)) by lia. done.
Qed.

Lemma Atoi_plain s v : Atoi s = Some v -> plain s.
Proof. apply Atoi_chars; [done..|exact digit_plain]. Qed.

Lemma substring_chars f s a b : all_chars f s = true -> all_chars f (String.substring a b s) = true.
Proof.
  revert a b. induction s as [|c s IH]; intros a b; [by destruct a, b|].
  rewrite all_chars_cons. intros [Hc Hs]%andb_true_iff. destruct a as [|a]; cbn [String.substring]; [|by apply IH].
  destruct b as [|b]; cbn [String.substring]; [done|]. rewrite all_chars_cons, Hc. by apply IH.
Qed.

Lemma packed_name_plain table name n : all_chars plain_char table = true -> packed_name table name = Some n -> plain name.
Proof.
  intros Ht. unfold packed_name. destruct (Nat.eqb_spec (String.length name) 3) as [El|]; [|done].
  destruct (String.index 0 name table) as [k|] eqn:E; [|done]. intros _.
  apply String.index_correct1 in E. split; [rewrite <- E; by apply substring_chars|]. intros ->. discriminate El.
Qed.

(** Names a field reads are plain. *)
Definition plain_names (names : string -> option Z) : Prop := forall s v, names s = Some v -> plain s.

Lemma noNames_plain : plain_names noNames.
Proof. intros s v H. discriminate H. Qed.

Lemma monthName_plain : plain_names monthName.
Proof. intros s v (n & H & _)%bind_Some. revert H. by apply packed_name_plain. Qed.

Lemma weekdayName_plain : plain_names weekdayName.
Proof. intros s v. by apply packed_name_plain. Qed.

Lemma value_plain text low high names v : plain_names names -> value text low high names = Ret v -> plain text.
Proof. intros Hn [H|[H _]]%value_Ret; [by apply (Hn text v) | by apply (Atoi_plain text v)]. Qed.

Lemma Cut_plain sep s a b :
  Cut sep s = Some (a, b) -> plain_char sep = true -> all_chars plain_char a = true ->
  all_chars plain_char b = true -> plain s.
Proof. intros Hc Hs Ha Hb. split; [by apply (Cut_chars _ sep s a b)|]. by intros ->. Qed.

Lemma plain_app s t : all_chars plain_char s = true -> plain t -> plain (s ++ t).
Proof.
  intros Hs [Ht Hne]. split; [by rewrite all_chars_app, Hs, Ht|]. destruct s; [done|discriminate].
Qed.

Lemma parseItem_plain item low high names r :
  plain_names names -> parseItem item low high names = Ret r -> plain item.
Proof.
  intros Hn. unfold parseItem. destruct (Cut "/"%char item) as [[base text]|] eqn:Ecut.
  - intros (step & Hs & H)%go_bind_Ret. apply (Cut_plain _ _ _ _ Ecut eq_refl).
    + destruct (_ || _) eqn:Estar in H.
      { apply orb_true_iff in Estar as [->%bool_decide_eq_true| ->%bool_decide_eq_true]; done. }
      destruct (Cut "-"%char base) as [[a b]|] eqn:Ec in H.
      * apply go_bind_Ret in H as (f & Hf & H). apply go_bind_Ret in H as (u & Hu & _).
        apply (Cut_plain _ _ _ _ Ec eq_refl); [by apply (value_plain _ _ _ _ _ Hn Hf) | by apply (value_plain _ _ _ _ _ Hn Hu)].
      * apply go_bind_Ret in H as (f & Hf & _). by apply (value_plain _ _ _ _ _ Hn Hf).
    + destruct (Atoi text) as [v|] eqn:Ev; [|done]. by apply (Atoi_plain text v).
  - cbn [go_bind]. destruct (_ || _) eqn:Estar.
    { apply orb_true_iff in Estar as [->%bool_decide_eq_true| ->%bool_decide_eq_true]; done. }
    destruct (Cut "-"%char item) as [[a b]|] eqn:Ec.
    + intros H. apply go_bind_Ret in H as (f & Hf & H). apply go_bind_Ret in H as (u & Hu & _).
      apply (Cut_plain _ _ _ _ Ec eq_refl); [by apply (value_plain _ _ _ _ _ Hn Hf) | by apply (value_plain _ _ _ _ _ Hn Hu)].
    + intros H. apply go_bind_Ret in H as (f & Hf & _). by apply (value_plain _ _ _ _ _ Hn Hf).
Qed.

Lemma go_fold_Forall {E A B} (Q : B -> Prop) (f : A -> B -> go E A) l a b :
  (forall s x s', f s x = Ret s' -> Q x) -> go_fold f l a = Ret b -> Forall Q l.
Proof.
  intros Hf. revert a. induction l as [|x l IH]; intros a H; [constructor|].
  apply go_bind_Ret in H as (a' & Hx & H). constructor; [by apply (Hf a x a') | by apply (IH a')].
Qed.

Lemma Split_plain field : Forall plain (Split ","%char field) -> plain field.
Proof.
  intros H. split.
  - apply (Split_chars plain_char ","%char); [done|]. by apply (Forall_impl _ _ _ H); intros w [Hw _].
  - intros ->. inversion H as [|? ? [_ Hne] _]. done.
Qed.

Lemma setRange_plain set field low high names set' :
  plain_names names -> setRange set field low high names = Ret set' -> plain field.
Proof.
  intros Hn H. apply Split_plain. revert H. apply go_fold_Forall. intros s item s' (r & Hr & _)%go_bind_Ret.
  by apply (parseItem_plain item low high names r).
Qed.

Lemma parseDays_plain field d : parseDays field = Ret d -> plain field.
Proof.
  intros H. apply Split_plain. revert H. apply go_fold_Forall. intros s item s'. unfold parseDays_item.
  case_bool_decide as El; [by subst|].
  destruct (CutSuffix "-l" item) as [text|] eqn:Es.
  { intros (v & Hv & _)%go_bind_Ret. apply CutSuffix_app in Es as ->. apply plain_app; [|done].
    by apply (value_plain _ _ _ _ _ noNames_plain Hv). }
  destruct (CutSuffix "w" item) as [text|] eqn:Ew.
  { intros (v & Hv & _)%go_bind_Ret. apply CutSuffix_app in Ew as ->. apply plain_app; [|done].
    by apply (value_plain _ _ _ _ _ noNames_plain Hv). }
  intros (days & Hd & _)%go_bind_Ret. by apply (setRange_plain _ _ _ _ _ _ noNames_plain Hd).
Qed.

Lemma parseWeekdays_plain field w : parseWeekdays field = Ret w -> plain field.
Proof.
  intros H. apply Split_plain. revert H. apply go_fold_Forall. intros s item s'. unfold parseWeekdays_item.
  destruct (Cut "#"%char item) as [[day n]|] eqn:Ec.
  - destruct (negb _); [done|]. intros (d & Hd & H)%go_bind_Ret.
    destruct (Atoi n) as [v|] eqn:Ev; [|done].
    apply (Cut_plain _ _ _ _ Ec eq_refl); [by apply (value_plain _ _ _ _ _ weekdayName_plain Hd) | by apply (Atoi_plain n v)].
  - intros (days & Hd & _)%go_bind_Ret. by apply (setRange_plain _ _ _ _ _ _ weekdayName_plain Hd).
Qed.

Lemma parse_fields_plain normalized p0 p1 p2 p3 p4 c :
  parse_fields normalized p0 p1 p2 p3 p4 = Ret c -> Forall plain [p0; p1; p2; p3; p4] /\ cr_expression c = normalized.
Proof.
  unfold parse_fields. intros (mi & H0%setRange_plain & H)%go_bind_Ret; [|apply noNames_plain].
  apply go_bind_Ret in H as (ho & H1%setRange_plain & H); [|apply noNames_plain].
  apply go_bind_Ret in H as (mo & H3%setRange_plain & H); [|apply monthName_plain].
  apply go_bind_Ret in H as (da & H2%parseDays_plain & H).
  apply go_bind_Ret in H as (we & H4%parseWeekdays_plain & [= <-]).
  split; [|done]. rewrite !Forall_cons, Forall_nil. tauto.
Qed.

(** ** Plain words survive normalization *)

Lemma plain_not_space c : plain_char c = true -> is_space c = false.
Proof.
  unfold plain_char, is_space. intros [[?%Z.leb_le _]%andb_true_iff _]%andb_true_iff.
  rewrite (proj2 (Z.leb_gt (code c) 13)), (proj2 (Z.eqb_neq (code c) 32)) by lia. by rewrite andb_false_r.
Qed.

Lemma plain_lower c : plain_char c = true -> lower_char c = c.
Proof.
  unfold plain_char, lower_char. intros [_ H]%andb_true_iff. apply negb_true_iff in H. by rewrite H.
Qed.

Lemma fields_split s w ws :
  Split " "%char s = w :: ws -> Forall (fun x => all_chars plain_char x = true) (w :: ws) -> Forall plain ws ->
  fields_from s = (w, ws).
Proof.
  revert w ws. induction s as [|c s IH]; intros w ws; cbn [Split fields_from]; [by intros [= <- <-]|].
  destruct (Ascii.eqb_spec c " "%char) as [->|Hc].
  - intros [= <- <-] Hall Hws. destruct (Split " "%char s) as [|w' ws'] eqn:E; [by destruct (Split_nonempty " "%char s)|].
    inversion Hall as [|? ? _ Hall']; subst. inversion Hws as [|? ? [Hw' Hne] Hws']; subst.
    rewrite (IH w' ws' eq_refl Hall' Hws'). simpl is_space; cbv iota. by rewrite bool_decide_false.
  - destruct (Split " "%char s) as [|w' ws'] eqn:E; [by destruct (Split_nonempty " "%char s)|].
    intros [= <- <-] Hall Hws. inversion Hall as [|? ? Hw Hall']; subst.
    rewrite all_chars_cons in Hw. apply andb_true_iff in Hw as [Hc' Hw].
    rewrite (IH w' ws' eq_refl ltac:(by constructor) Hws). by rewrite (plain_not_space c Hc').
Qed.

Lemma concat_Split s : String.concat " " (Split " "%char s) = s.
Proof.
  induction s as [|c s IH]; [done|]. cbn [Split]. pose proof (Split_nonempty " "%char s) as Hne.
  destruct (Ascii.eqb_spec c " "%char) as [->|Hc]; destruct (Split " "%char s) as [|w ws]; try done.
  - rewrite <- IH. reflexivity.
  - rewrite <- IH. destruct ws; reflexivity.
Qed.

(** The bytes of an expression whose fields are plain. *)
Definition text_char (c : ascii) : bool := plain_char c || Ascii.eqb c " "%char.

Lemma text_ascii s : all_chars text_char s = true -> is_ascii s = true.
Proof.
  apply all_chars_impl. intros c [H|H]%orb_true_iff.
  - apply andb_true_iff in H as [[_ ?%Z.ltb_lt]%andb_true_iff _]. apply Z.ltb_lt. lia.
  - apply Ascii.eqb_eq in H as ->. done.
Qed.

Lemma text_lower s : all_chars text_char s = true -> ascii_lower s = s.
Proof.
  induction s as [|c s IH]; [done|]. rewrite all_chars_cons. intros [Hc Hs]%andb_true_iff.
  cbn [ascii_lower]. rewrite (IH Hs). f_equal. apply orb_true_iff in Hc as [Hc|Hc]; [by apply plain_lower|].
  apply Ascii.eqb_eq in Hc as ->. done.
Qed.

Lemma normalize_plain uf ul s : Forall plain (Split " "%char s) -> normalize uf ul s = s.
Proof.
  intros Hp. assert (Ht : all_chars text_char s = true).
  { apply (Split_chars text_char " "%char); [done|]. apply (Forall_impl _ _ _ Hp).
    intros w [Hw _]. revert Hw. apply all_chars_impl. intros c Hc. unfold text_char. by rewrite Hc. }
  assert (Hf : Fields uf s = Split " "%char s).
  { unfold Fields. rewrite (text_ascii s Ht). unfold ascii_fields.
    destruct (Split " "%char s) as [|w ws] eqn:E; [by destruct (Split_nonempty " "%char s)|].
    inversion Hp as [|? ? [Hw Hne] Hws]; subst. rewrite (fields_split s w ws E); [|by apply (Forall_impl _ _ _ Hp); intros x [Hx _]|done].
    by rewrite bool_decide_false. }
  unfold normalize. rewrite Hf, concat_Split. unfold ToLower. rewrite (text_ascii s Ht). by apply text_lower.
Qed.
