(* ===== verification/CronProps.v ===== *)
(** What cron schedules promise: the search finds the first minute an
    expression selects and nothing later, an accepted expression goes on
    firing, and the stored text of an accepted expression parses back to it. *)

From S2P Require Import Prelude Calendar GoLib Cron CronSearch CronParse.

(** ** The parts of an accepted parse *)

(** The last check of the parse, on the outcome of its search. *)
Lemma fires_Ret (r : go Empty_set (option Z)) (c c' : Cron) (invalid : cron_error) :
  match r with
  | Ret (Some _) => Ret c
  | Ret None => Err invalid
  | Err e => match e with end
  | Panic => Panic
  | Spins => Spins
  end = Ret c' -> c = c' /\ exists t, r = Ret (Some t).
Proof. destruct r as [[t|]|[]| |]; try discriminate. intros [= ->]. eauto. Qed.

Section Parse.
Context (uf : string -> list string) (ul : string -> string).

Lemma ParseCron_Ret expression c :
  ParseCron uf ul expression = Ret c ->
  exists nm flds p0 p1 p2 p3 p4 t,
    expand_fields expression (normalize uf ul expression) = Ret (nm, flds) /\ normalize uf ul expression <> "" /\
    Split " "%char flds = [p0; p1; p2; p3; p4] /\ has_char (p0 ++ p1 ++ p3) "?"%char = false /\
    parse_fields nm p0 p1 p2 p3 p4 = Ret c /\ Next c parse_epoch = Ret (Some t).
Proof.
  unfold ParseCron. case_bool_decide as Hne; [done|].
  intros ([nm flds] & He & H)%go_bind_Ret. cbn [fst snd] in H.
  destruct (Split " "%char flds) as [|p0 [|p1 [|p2 [|p3 [|p4 [|p5 ps]]]]]] eqn:Es; try done.
  destruct (has_char _ _) eqn:Eq; [done|]. apply go_bind_Ret in H as (c' & Hc%map_err_Ret & H).
  apply fires_Ret in H as [-> [t Ht]]. exists nm, flds, p0, p1, p2, p3, p4, t. split_and!; assumption || reflexivity.
Qed.

Lemma ParseCron_intro expression nm flds p0 p1 p2 p3 p4 c t :
  normalize uf ul expression <> "" -> expand_fields expression (normalize uf ul expression) = Ret (nm, flds) ->
  Split " "%char flds = [p0; p1; p2; p3; p4] -> has_char (p0 ++ p1 ++ p3) "?"%char = false ->
  parse_fields nm p0 p1 p2 p3 p4 = Ret c -> Next c parse_epoch = Ret (Some t) ->
  ParseCron uf ul expression = Ret c.
Proof.
  intros Hne He Hs Hq Hf Ht. unfold ParseCron. rewrite bool_decide_false, He by exact Hne. cbn [go_bind fst snd].
  rewrite Hs, Hq, Hf. cbn [map_err go_bind]. rewrite Ht. reflexivity.
Qed.

(** An expression that already is in normal form, and stands for the same
    fields, parses to the same. *)
Lemma ParseCron_again expression c flds :
  ParseCron uf ul expression = Ret c -> Cron_String c <> "" ->
  expand_fields expression (normalize uf ul expression) = Ret (Cron_String c, flds) ->
  normalize uf ul (Cron_String c) = Cron_String c ->
  expand_fields (Cron_String c) (Cron_String c) = Ret (Cron_String c, flds) ->
  ParseCron uf ul (Cron_String c) = Ret c.
Proof.
  intros Hp Hne He Hn Hagain. apply ParseCron_Ret in Hp as (nm & flds' & p0 & p1 & p2 & p3 & p4 & t & He' & _ & Hs & Hq & Hf & Ht).
  rewrite He in He'. injection He' as Hnm <-. subst nm.
  apply (ParseCron_intro _ (Cron_String c) flds p0 p1 p2 p3 p4 c t); rewrite ?Hn; assumption.
Qed.

Lemma alias_normal name expanded :
  alias name = Some expanded -> normalize uf ul name = name /\ name <> "" /\ expand_fields name name = Ret (name, expanded).
Proof.
  unfold alias. intros H.
  repeat (destruct (_ || _) eqn:E in H; [apply orb_true_iff in E as [->%bool_decide_eq_true| ->%bool_decide_eq_true]; injection H as <-; done|clear E]).
  all: repeat (case_bool_decide; [subst; injection H as <-; done|]); try done.
  all: destruct (_ || _) eqn:E in H; [apply orb_true_iff in E as [->%bool_decide_eq_true| ->%bool_decide_eq_true]; injection H as <-; done|].
  all: case_bool_decide; [subst; injection H as <-; done|done].
Qed.
End Parse.

(** Every interval the code rewrites is in normal form. *)
Definition plain_interval (unit : string) (n : Z) : bool :=
  let s := interval_fields unit n in
  forallb (fun w => all_chars plain_char w && (w != "")) (Split " "%char s) &&
  bool_decide (intervalPattern s = None) && negb (String.prefix "@" s).

Lemma plain_interval_table :
  forallb (fun unit => forallb (fun n => plain_interval unit (Z.of_nat n)) (seq 0 60)) ["m"; "h"; "d"] = true.
Proof. vm_compute. reflexivity. Qed.

Lemma interval_normal uf ul unit n :
  In unit ["m"; "h"; "d"] -> 0 <= n <= 59 ->
  let s := interval_fields unit n in
  normalize uf ul s = s /\ s <> "" /\ expand_fields s s = Ret (s, s).
Proof.
  intros Hu Hn s. pose proof plain_interval_table as Ht. rewrite forallb_forall in Ht.
  specialize (Ht unit Hu). rewrite forallb_forall in Ht. specialize (Ht (Z.to_nat n)).
  rewrite Z2Nat.id in Ht by lia. specialize (Ht ltac:(apply in_seq; lia)). unfold plain_interval in Ht. fold s in Ht.
  apply andb_true_iff in Ht as [[Hw Hi%bool_decide_eq_true]%andb_true_iff Ha%negb_true_iff].
  split_and!.
  - apply normalize_plain, Forall_forall. intros w Hin. rewrite forallb_forall in Hw.
    apply list_elem_of_In in Hin. specialize (Hw w Hin). apply andb_true_iff in Hw as [H1 H2%negb_true_iff].
    split; [done|]. intros ->. by rewrite bool_decide_true in H2.
  - unfold s, interval_fields. by repeat case_bool_decide.
  - unfold expand_fields. by rewrite Hi, Ha.
Qed.

Lemma span_digits_chars s d r : span_digits s = (d, r) -> all_chars is_digit d = true.
Proof.
  revert d. induction s as [|c s IH]; intros d; cbn [span_digits]; [by intros [= <- <-]|].
  destruct (is_digit c) eqn:E; [|by intros [= <- <-]].
  destruct (span_digits s) as [d' r']. intros [= <- <-]. rewrite all_chars_cons, E. by apply IH.
Qed.

Lemma digits_value_nonneg acc s : 0 <= acc -> all_chars is_digit s = true -> 0 <= digits_value acc s.
Proof.
  revert acc. induction s as [|c s IH]; intros acc Ha; [done|]. rewrite all_chars_cons.
  intros [Hc Hs]%andb_true_iff. apply IH; [|done]. apply andb_true_iff in Hc as [?%Z.leb_le _]. lia.
Qed.

Lemma Atoi_digits s v : all_chars is_digit s = true -> Atoi s = Some v -> 0 <= v.
Proof.
  intros Hd. unfold Atoi, read_digits. destruct s as [|c s]; [done|].
  destruct (Ascii.eqb_spec c "-"%char) as [->|_]; [done|].
  destruct (Ascii.eqb_spec c "+"%char) as [->|_]; [done|].
  intros (n & H & Hv)%bind_Some. destruct (_ && _) in H; [|done]. injection H as <-.
  destruct (_ && _) in Hv; [|done]. injection Hv as <-. exact (digits_value_nonneg 0 (String c s) (Z.le_refl 0) Hd).
Qed.

Lemma intervalPattern_parts s digits unit :
  intervalPattern s = Some (digits, unit) -> all_chars is_digit digits = true /\ In unit ["m"; "h"; "d"].
Proof.
  unfold intervalPattern. intros (rest & _ & H)%bind_Some. destruct (_ == _); [done|].
  destruct (span_digits _) as [d u] eqn:Es. destruct (_ && _) eqn:E; [|done]. injection H as <- <-.
  split; [by apply span_digits_chars in Es|]. apply andb_true_iff in E as [_ E].
  rewrite !orb_true_iff, !bool_decide_eq_true in E. simpl. intuition auto.
Qed.

(** ** The search *)

(** C27: [Cron.Next] always returns.  The time it returns is a whole minute
    after [after] that the expression selects, and no whole minute before it
    is selected; when it reports none, no minute before its 28-year limit is
    selected. *)
Theorem Next_is_first_match (c : Cron) (after : Z) :
  exists r, Next c after = Ret r /\
    match r with
    | Some t =>
        after < t /\ whole_minute t /\ cron_matches c t = true /\
        forall u, after < u < t -> whole_minute u -> cron_matches c u = false
    | None => forall u, after < u < next_limit after -> whole_minute u -> cron_matches c u = false
    end.
Proof.
  destruct (Next_spec c after) as (r & Hr & Hf). destruct (next_start_spec after) as (_ & Hs & Hle).
  exists r. split; [exact Hr|]. destruct r as [t|]; simpl in Hf.
  - destruct Hf as (Ht & Hw & Hm & Hn). split_and!; [lia|exact Hw|exact Hm|].
    intros u Hu Hwu. apply Hn; [|exact Hwu]. specialize (Hle u ltac:(lia) Hwu). lia.
  - intros u Hu Hwu. apply Hf; [|exact Hwu]. specialize (Hle u ltac:(lia) Hwu). lia.
Qed.

Section Parsed.
Context (uf : string -> list string) (ul : string -> string).

(** A parsed expression has a match in the first cycle. *)
Lemma ParseCron_match expression c :
  ParseCron uf ul expression = Ret c ->
  exists t0, parse_epoch < t0 <= parse_epoch + (cycle + 1) * day_nanos /\ whole_minute t0 /\ cron_matches c t0 = true.
Proof.
  intros (nm & flds & p0 & p1 & p2 & p3 & p4 & t & _ & _ & _ & _ & _ & Ht)%ParseCron_Ret.
  destruct (Next_spec c parse_epoch) as (r & Hr & Hf). rewrite Hr in Ht. injection Ht as ->. simpl in Hf.
  destruct Hf as (Hb & Hw & Hm & _). destruct (next_start_spec parse_epoch) as (_ & Hs & _).
  exists t. split_and!; [lia| |exact Hw|exact Hm].
  rewrite next_limit_cycle in Hb.
  - units. unfold cycle in *. lia.
  - split; [lia|]. apply Z.le_lt_trans with (1 := proj2 Hs). reflexivity.
Qed.

(** C37: An expression [ParseCron] accepts keeps firing: from any time between
    2000 and the end of 2071, [Next] finds a later minute, within 28 years. *)
Theorem ParseCron_keeps_firing expression c after :
  ParseCron uf ul expression = Ret c ->
  parse_epoch <= after < time_Date 2072 1 1 0 0 0 0 - minute ->
  exists t, Next c after = Ret (Some t) /\ after < t < next_limit after.
Proof.
  intros Hp Ha. destruct (ParseCron_match expression c Hp) as (t0 & Ht & Hw & Hm).
  exact (Next_cycle c after t0 Ht Hw Hm Ha).
Qed.

(** C38: The normalized text of an accepted expression, which releases store
    and the scheduler parses again at every occurrence, parses back to the
    same schedule. *)
Theorem ParseCron_String_roundtrip expression c :
  ParseCron uf ul expression = Ret c -> ParseCron uf ul (Cron_String c) = Ret c.
Proof.
  intros Hp. pose proof (ParseCron_Ret uf ul expression c Hp) as
    (nm & flds & p0 & p1 & p2 & p3 & p4 & t & He & Hne & Hs & Hq & Hf & Ht).
  destruct (parse_fields_plain _ _ _ _ _ _ _ Hf) as [Hplain Hnm].
  assert (Hstr : Cron_String c = nm) by exact Hnm.
  pose proof He as Hexp. unfold expand_fields in Hexp.
  destruct (intervalPattern _) as [[digits unit]|] eqn:Ei in Hexp.
  - destruct (intervalPattern_parts _ _ _ Ei) as [Hdig Hunit].
    destruct (Atoi digits) as [n|] eqn:En; [|discriminate Hexp]. pose proof (Atoi_digits digits n Hdig En) as Hn.
    destruct (Z.gtb_spec n (intervalLimit unit)) as [|Hle]; [discriminate Hexp|].
    assert (Hlim : intervalLimit unit <= 59) by (unfold intervalLimit; repeat case_bool_decide; lia).
    injection Hexp as Hnm' Hflds.
    destruct (interval_normal uf ul unit n Hunit ltac:(lia)) as (H1 & H2 & H3).
    subst flds. rewrite Hnm' in H1, H2, H3, He.
    apply (ParseCron_again uf ul expression c nm Hp); rewrite Hstr; assumption.
  - destruct (String.prefix "@" _) eqn:Ea in Hexp.
    + destruct (alias _) as [expanded|] eqn:El in Hexp; [|discriminate Hexp].
      injection Hexp as Hnm' Hflds. rewrite Hnm' in El. subst expanded.
      destruct (alias_normal uf ul nm flds El) as (H1 & H2 & H3).
      apply (ParseCron_again uf ul expression c flds Hp); rewrite Hstr; assumption.
    + injection Hexp as Hnm' Hflds. rewrite Hnm' in Hflds. subst flds.
      apply (ParseCron_again uf ul expression c nm Hp); rewrite Hstr; [congruence|exact He| |].
      * apply normalize_plain. rewrite Hs. exact Hplain.
      * unfold expand_fields. rewrite Hnm' in Ei, Ea. rewrite Ei, Ea. reflexivity.
Qed.

(** Parsing ends, whatever the text and however large its steps. *)
Lemma ParseCron_ends expression : ParseCron uf ul expression <> Spins.
Proof.
  unfold ParseCron. destruct (_ == "") ; [discriminate|]. apply bind_ends.
  - unfold expand_fields. destruct (intervalPattern _) as [[d u]|].
    + destruct (Atoi d); [|discriminate]. by destruct (_ >? _).
    + destruct (String.prefix _ _); [|discriminate]. by destruct (alias _).
  - intros [nm flds] _. destruct (Split _ _) as [|p0 [|p1 [|p2 [|p3 [|p4 [|p5 ps]]]]]]; try discriminate.
    destruct (has_char _ _); [discriminate|]. apply bind_ends.
    + pose proof (parse_fields_ends nm p0 p1 p2 p3 p4). cbn [fst]. destruct (parse_fields _ _ _ _ _ _); simpl; congruence.
    + intros c _. destruct (Next_spec c parse_epoch) as ([t|] & -> & _); discriminate.
Qed.
End Parsed.

(** ** Fields *)


(** ** Sample schedules *)

(** Unicode text is refused here: no fields and no mapping. *)
Definition no_unicode_fields (s : string) : list string := [].
Definition same_text (s : string) : string := s.

Definition parsed_fields (normalized p0 p1 p2 p3 p4 : string) : option Cron :=
  match parse_fields normalized p0 p1 p2 p3 p4 with
  | Ret c => Some c
  | _ => None
  end.

Definition empty_cron : Cron :=
  {| cr_expression := ""; cr_minutes := []; cr_hours := []; cr_months := [];
     cr_days := {| dm_days := []; dm_last := false |}; cr_weekdays := {| wm_weekdays := []; wm_nth := [] |};
     cr_dayOr := false |}.

Definition quarter_hourly : Cron :=
  Eval vm_compute in default empty_cron (parsed_fields "*/15 * * * *" "*/15" "*" "*" "*" "*").

(** Midnight on the fifth Sunday of February. *)
Definition fifth_sunday : Cron :=
  Eval vm_compute in default empty_cron (parsed_fields "0 0 * 2 0#5" "0" "0" "*" "2" "0#5").

Lemma quarter_hourly_parses : ParseCron no_unicode_fields same_text "Every 15M" = Ret quarter_hourly.
Proof. vm_compute. reflexivity. Qed.

Lemma ParseCron_keeps_firing_witness :
  exists t, Next quarter_hourly (time_Date 2026 9 7 12 0 0 0) = Ret (Some t) /\
    time_Date 2026 9 7 12 0 0 0 < t < next_limit (time_Date 2026 9 7 12 0 0 0).
Proof.
  apply (ParseCron_keeps_firing no_unicode_fields same_text "Every 15M" quarter_hourly).
  - exact quarter_hourly_parses.
  - split; [discriminate|reflexivity].
Defined.

Lemma ParseCron_String_roundtrip_witness : ParseCron no_unicode_fields same_text "*/15 * * * *" = Ret quarter_hourly.
Proof. exact (ParseCron_String_roundtrip no_unicode_fields same_text "Every 15M" quarter_hourly quarter_hourly_parses). Defined.


(** ** What the search and the parse do not do *)

(** A step is any positive [int], and [setRange] adds it without a bound:
    on the largest one the counter wraps to a negative number, and the index
    it selects is outside the array, so [ParseCron] panics instead of
    returning an error. *)
Theorem ParseCron_step_overflow_panics uf ul : ParseCron uf ul "1/9223372036854775807 * * * *" = Panic.
Proof. vm_compute. reflexivity. Qed.

(** The days [fifth_sunday] selects are leap days. *)
Lemma fifth_sunday_day n :
  day_selected fifth_sunday n = true ->
  date_month n = 2 /\ date_day n = 29 /\ is_leap (date_year n) = true /\ date_weekday n = 0.
Proof.
  unfold day_selected. destruct (date_roundtrip n) as [_ [Hm Hd]]. intros [Hmo H]%andb_true_iff.
  assert (Em : date_month n = 2).
  { assert (Ht : forallb (fun m => Bool.eqb (flag (cr_months fifth_sunday) m) (m =? 2)) months = true) by reflexivity.
    rewrite forallb_forall in Ht. specialize (Ht _ (months_In _ Hm)). rewrite Hmo in Ht.
    destruct (Z.eqb_spec (date_month n) 2); [done|discriminate]. }
  change (cr_dayOr fifth_sunday) with false in H. cbv iota in H. apply andb_true_iff in H as [_ H].
  rewrite Em in Hd.
  assert (Hd29 : 1 <= date_day n <= 29).
  { destruct (is_leap (date_year n)); [change (month_length true 2) with 29 in Hd | change (month_length false 2) with 28 in Hd]; lia. }
  assert (Hw : 0 <= date_weekday n <= 6) by (unfold date_weekday; pose proof (Z.mod_pos_bound (n + 1) 7); lia).
  assert (Ht : forallb (fun w => forallb (fun d => implb
      (flag (wm_weekdays (cr_weekdays fifth_sunday)) (Z.of_nat w) ||
       flag (nth w (wm_nth (cr_weekdays fifth_sunday)) []) ((Z.of_nat d - 1) / 7 + 1))
      (Nat.eqb w 0 && Nat.eqb d 29)) (seq 1 29)) (seq 0 7) = true) by (vm_compute; reflexivity).
  rewrite forallb_forall in Ht. specialize (Ht (Z.to_nat (date_weekday n)) ltac:(apply in_seq; lia)).
  rewrite forallb_forall in Ht. specialize (Ht (Z.to_nat (date_day n)) ltac:(apply in_seq; lia)).
  rewrite !Z2Nat.id in Ht by lia. cbv zeta in H. rewrite H in Ht. cbn [implb] in Ht.
  rewrite andb_true_iff, !Nat.eqb_eq in Ht. split_and!; [exact Em|lia| |lia].
  destruct (is_leap (date_year n)); [reflexivity|]. change (month_length false 2) with 28 in Hd. lia.
Qed.

(** After 2088 the next Sunday that is a leap day is in 2128: 2100 is not a
    leap year. *)
Lemma fifth_sunday_gap n : day_number 2088 3 1 <= n < day_number 2128 2 29 -> day_selected fifth_sunday n = false.
Proof.
  intros Hn. destruct (day_selected fifth_sunday n) eqn:E; [|reflexivity]. exfalso.
  apply fifth_sunday_day in E as (Em & Ed & El & Ew). destruct (date_roundtrip n) as [Hr _].
  rewrite Em, Ed in Hr. pose proof (civil_year_spec n) as Hy. fold (date_year n) in Hy.
  assert (Hyear : 2088 <= date_year n <= 2128).
  { split.
    - destruct (Z.le_gt_cases 2088 (date_year n)); [done|].
      pose proof (days_before_year_le (date_year n + 1) 2088 ltac:(lia)).
      change (days_before_year 2088) with 762261 in *. change (day_number 2088 3 1) with 762321 in Hn. lia.
    - destruct (Z.le_gt_cases (date_year n) 2128); [done|].
      pose proof (days_before_year_le 2129 (date_year n) ltac:(lia)).
      change (days_before_year 2129) with 777236 in *. change (day_number 2128 2 29) with 776929 in Hn. lia. }
  assert (Ht : forallb (fun k => let y := 2088 + Z.of_nat k in
      let m := day_number y 2 29 in
      negb (is_leap y && (date_weekday m =? 0) && (day_number 2088 3 1 <=? m) && (m <? day_number 2128 2 29))) (seq 0 41) = true)
    by (vm_compute; reflexivity).
  rewrite forallb_forall in Ht. specialize (Ht (Z.to_nat (date_year n - 2088)) ltac:(apply in_seq; lia)).
  rewrite Z2Nat.id in Ht by lia. replace (2088 + (date_year n - 2088)) with (date_year n) in Ht by lia.
  cbv zeta in Ht. rewrite Hr, El, Ew, (proj2 (Z.leb_le _ _) (proj1 Hn)), (proj2 (Z.ltb_lt _ _) (proj2 Hn)) in Ht. discriminate Ht.
Qed.

Lemma fifth_sunday_parses uf ul : ParseCron uf ul "0 0 * 2 0#5" = Ret fifth_sunday.
Proof.
  set (leap_sunday := time_Date 2004 2 29 0 0 0 0).
  destruct (Next_finds fifth_sunday parse_epoch leap_sunday) as (t & Ht & _).
  - split; [reflexivity|]. rewrite next_limit_cycle; [reflexivity|]. vm_compute. split; [discriminate|reflexivity].
  - reflexivity.
  - vm_compute. reflexivity.
  - assert (Hn : normalize uf ul "0 0 * 2 0#5" = "0 0 * 2 0#5") by reflexivity.
    apply (ParseCron_intro uf ul _ "0 0 * 2 0#5" "0 0 * 2 0#5" "0" "0" "*" "2" "0#5" _ t);
      [rewrite Hn; discriminate | rewrite Hn; reflexivity | reflexivity | reflexivity | reflexivity | exact Ht].
Qed.

(** Weekdays over dates do not repeat every 28 years across 2100, which
    is not a leap year: [0 0 * 2 0#5] is accepted, and it fires in 2088 and
    again in 2128, but a search after the first finds nothing within its
    28-year limit and reports that the schedule never fires. *)
Theorem Next_misses_across_2100 uf ul :
  ParseCron uf ul "0 0 * 2 0#5" = Ret fifth_sunday /\
  Next fifth_sunday (time_Date 2088 2 29 0 0 0 0) = Ret None /\
  cron_matches fifth_sunday (time_Date 2088 2 29 0 0 0 0) = true /\
  cron_matches fifth_sunday (time_Date 2128 2 29 0 0 0 0) = true.
Proof.
  split; [apply fifth_sunday_parses|]. split; [|split; vm_compute; reflexivity].
  set (after := time_Date 2088 2 29 0 0 0 0).
  destruct (Next_spec fifth_sunday after) as ([t|] & Hr & Hf); [|exact Hr]. exfalso.
  destruct Hf as (Ht & Hw & Hm & _). unfold cron_matches in Hm. apply andb_true_iff in Hm as [Hm Hmin].
  apply andb_true_iff in Hm as [Hday Hhour].
  assert (Hh0 : time_Hour t = 0 /\ time_Minute t = 0).
  { destruct (time_parts t) as (Hh & Hmi & _).
    assert (Hth : forallb (fun h => Bool.eqb (flag (cr_hours fifth_sunday) (Z.of_nat h)) (Nat.eqb h 0)) (seq 0 24) = true) by reflexivity.
    assert (Htm : forallb (fun m => Bool.eqb (flag (cr_minutes fifth_sunday) (Z.of_nat m)) (Nat.eqb m 0)) (seq 0 60) = true) by reflexivity.
    rewrite forallb_forall in Hth, Htm.
    specialize (Hth (Z.to_nat (time_Hour t)) ltac:(apply in_seq; lia)). specialize (Htm (Z.to_nat (time_Minute t)) ltac:(apply in_seq; lia)).
    rewrite !Z2Nat.id in Hth, Htm by lia. rewrite Hhour in Hth. rewrite Hmin in Htm.
    apply Bool.eqb_prop, eq_sym, Nat.eqb_eq in Hth, Htm. clear - Hh Hmi Hth Htm. lia. }
  rewrite fifth_sunday_gap in Hday; [discriminate Hday|].
  destruct (time_parts t) as (_ & _ & Pt). unfold whole_minute in Hw. rewrite Hw, (proj1 Hh0), (proj2 Hh0) in Pt.
  assert (Hs : next_start after = day_number 2088 2 29 * day_nanos + minute) by reflexivity.
  assert (Hl : next_limit after = day_number 2116 2 29 * day_nanos + minute) by (vm_compute; reflexivity).
  rewrite Hs, Hl in Ht. change (day_number 2088 2 29) with 762320 in Ht. change (day_number 2116 2 29) with 772546 in Ht.
  change (day_number 2088 3 1) with 762321. change (day_number 2128 2 29) with 776929. units. lia.
Qed.
