(* ===== verification/Schedules.v ===== *)
(** Cron occurrences (src/internal/schedules/schedules.go and the queries it
    runs): the schedules table, deploy's [Apply], and the scheduler's [Fire].

    The table is a list of rows with distinct workloads, its primary key.  A
    transaction works on a copy of it and commits or rolls back.  Admission is
    another component; [Fire] is proved against the interface it relies on,
    [Admission]. *)

From S2P Require Import Prelude Calendar GoLib Cron.

(** ** The table *)

Record schedule := {
  sc_workload : Z;
  sc_expression : string;
  sc_next_fire_at : Z;
  sc_last_fired_at : option Z;
  sc_last_task_id : option Z;
  sc_last_error : option string
}.

Definition schedules_table := list schedule.

(** [DeleteSchedule]. *)
Definition DeleteSchedule (workload : Z) (t : schedules_table) : schedules_table :=
  List.filter (fun s => negb (sc_workload s =? workload)) t.

(** [ScheduleExpression]: [None] is [pgx.ErrNoRows]. *)
Definition ScheduleExpression (workload : Z) (t : schedules_table) : option string :=
  option_map sc_expression (List.find (fun s => sc_workload s =? workload) t).

Definition new_schedule (workload : Z) (expression : string) (next : Z) : schedule :=
  {| sc_workload := workload; sc_expression := expression; sc_next_fire_at := next;
     sc_last_fired_at := None; sc_last_task_id := None; sc_last_error := None |}.

(** [ReplaceSchedule]: insert, or on conflict start the row over. *)
Definition ReplaceSchedule (workload : Z) (expression : string) (next : Z) (t : schedules_table) : schedules_table :=
  if existsb (fun s => sc_workload s =? workload) t then
    map (fun s => if sc_workload s =? workload then new_schedule workload expression next else s) t
  else t ++ [new_schedule workload expression next].

Record RecordOccurrenceParams := {
  ro_NextFireAt : Z;
  ro_FiredAt : option Z;
  ro_TaskID : option Z;
  ro_Error : option string;
  ro_WorkloadID : Z
}.

Definition occurred (p : RecordOccurrenceParams) (s : schedule) : schedule :=
  {| sc_workload := sc_workload s; sc_expression := sc_expression s;
     sc_next_fire_at := ro_NextFireAt p; sc_last_fired_at := ro_FiredAt p;
     sc_last_task_id := ro_TaskID p; sc_last_error := ro_Error p |}.

(** [RecordOccurrence]. *)
Definition RecordOccurrence (p : RecordOccurrenceParams) (t : schedules_table) : schedules_table :=
  map (fun s => if sc_workload s =? ro_WorkloadID p then occurred p s else s) t.

(** [order by s.next_fire_at, s.workload_id]. *)
Definition due_order (a b : schedule) : comparison :=
  (sc_next_fire_at a ?= sc_next_fire_at b) <+> (sc_workload a ?= sc_workload b).

Definition due (now : Z) (s : schedule) : bool := sc_next_fire_at s <=? now.

(** [LockDueSchedules]: due rows no other transaction has locked, in order,
    up to the batch size.  [limit] counts the rows locked. *)
Definition LockDueSchedules (locked : Z -> bool) (now : Z) (batchSize : nat) (t : schedules_table) : list schedule :=
  firstn batchSize (sort_by due_order (List.filter (fun s => due now s && negb (locked (sc_workload s))) t)).

(** [NextFireAt]: the earliest row, if any. *)
Definition NextFireAt (t : schedules_table) : option Z :=
  head (sort_by Z.compare (map sc_next_fire_at t)).

(** ** Admission *)

(** The workspace, app name and function name of a workload, from the tables
    [LockDueSchedules] joins. *)
Record workload_names := {
  wn_Workspace : Z;
  wn_App : string;
  wn_Function : string
}.

(** What an occurrence asks of admission: the function, by name, and how many
    inputs, each the pickled empty arguments. *)
Record SubmitRequest := {
  sr_Names : workload_names;
  sr_Inputs : nat;
  sr_ScheduledFor : option Z
}.

Inductive submit_error :=
| ErrNotAccepting
| TooManyPendingError (message : string)
| ErrNotFound
| SubmitError (message : string).

(** The state admission changes, its [SubmitInTx], and what schedules rely
    on: a task for every input it accepts. *)
Class Admission (W : Type) := {
  SubmitInTx : W -> SubmitRequest -> W * (list Z + submit_error);
  SubmitInTx_tasks : forall w req w' tasks,
    SubmitInTx w req = (w', inl tasks) -> length tasks = sr_Inputs req
}.

(** ** Fire *)

(** [nextAfter]'s errors, about the stored expression. *)
Inductive fire_error :=
| StoredInvalid (expression : string) (e : cron_error)
| StoredNeverFires (expression : string).

Section Fire.
Context (uf : string -> list string) (ul : string -> string).
Context (joined : Z -> workload_names).
Context {W : Type} `{!Admission W}.

(** Why an occurrence admitted no task. *)
Definition admit_reason (e : submit_error) : string :=
  match e with
  | ErrNotAccepting => "the function is stopped or its app is paused"
  | TooManyPendingError m => m
  | ErrNotFound => "the function has no active release"
  | SubmitError m => ("admission failed: " ++ m)%string
  end.

(** [Schedules.admit]: the savepoint keeps nothing of a refused submission;
    [tasks[0]] of no tasks panics. *)
Definition admit_row (w : W) (row : schedule) : go fire_error (W * (Z + string)) :=
  let req := {| sr_Names := joined (sc_workload row); sr_Inputs := 1; sr_ScheduledFor := Some (sc_next_fire_at row) |} in
  match SubmitInTx w req with
  | (w', inl (task :: _)) => Ret (w', inl task)
  | (_, inl []) => Panic
  | (_, inr e) => Ret (w, inr (admit_reason e))
  end.

(** [nextAfter]. *)
Definition nextAfter (expression : string) (now : Z) : go fire_error Z :=
  match ParseCron uf ul expression with
  | Ret c =>
      match Next c now with
      | Ret (Some t) => Ret t
      | Ret None => Err (StoredNeverFires expression)
      | Err e => match e with end
      | Panic => Panic
      | Spins => Spins
      end
  | Err e => Err (StoredInvalid expression e)
  | Panic => Panic
  | Spins => Spins
  end.

Record FireResult := {
  fr_Admitted : Z;
  fr_Skipped : Z
}.

Definition no_result : FireResult := {| fr_Admitted := 0; fr_Skipped := 0 |}.
Definition add_result (a b : FireResult) : FireResult :=
  {| fr_Admitted := fr_Admitted a + fr_Admitted b; fr_Skipped := fr_Skipped a + fr_Skipped b |}.

Definition fireBatchSize : nat := 100.

(** The state of one transaction. *)
Definition fire_state : Type := schedules_table * W * FireResult.

(** One iteration of the loop over the due rows. *)
Definition fire_row (now : Z) (st : fire_state) (row : schedule) : go fire_error fire_state :=
  let '(t, w, result) := st in
  a <-! admit_row w row;
  next <-! nextAfter (sc_expression row) now;
  let params task err :=
    {| ro_NextFireAt := next; ro_FiredAt := Some (sc_next_fire_at row); ro_TaskID := task; ro_Error := err;
       ro_WorkloadID := sc_workload row |} in
  match a with
  | (w', inl task) =>
      Ret (RecordOccurrence (params (Some task) None) t, w',
           {| fr_Admitted := fr_Admitted result + 1; fr_Skipped := fr_Skipped result |})
  | (w', inr reason) =>
      Ret (RecordOccurrence (params None (Some reason)) t, w',
           {| fr_Admitted := fr_Admitted result; fr_Skipped := fr_Skipped result + 1 |})
  end.

(** [Schedules.fireBatch]: what the transaction commits and how many rows it
    claimed.  An error or a panic commits nothing, which the callers' state
    shows. *)
Definition fireBatch (locked : Z -> bool) (now : Z) (t : schedules_table) (w : W) : go fire_error (fire_state * nat) :=
  let rows := LockDueSchedules locked now fireBatchSize t in
  st <-! go_fold (fire_row now) rows (t, w, no_result);
  Ret (st, length rows).

(** [Schedules.Fire]: batches until one is not full or fails.  The clock gives
    each transaction's [now()].  The state is what the batches committed. *)
Fixpoint Fire (fuel : nat) (locked : Z -> bool) (clock : nat -> Z) (n : nat) (t : schedules_table) (w : W)
    (total : FireResult) : fire_state * go fire_error unit :=
  match fuel with
  | O => ((t, w, total), Spins)
  | S fuel' =>
      match fireBatch locked (clock n) t w with
      | Ret ((t', w', result), claimed) =>
          let total' := add_result total result in
          if Nat.ltb claimed fireBatchSize then ((t', w', total'), Ret tt)
          else Fire fuel' locked clock (S n) t' w' total'
      | Err e => ((t, w, total), Err e)
      | Panic => ((t, w, total), Panic)
      | Spins => ((t, w, total), Spins)
      end
  end.

(** ** Apply *)

(** [Apply], inside the deploy transaction: [None] expression removes the
    schedule. *)
Definition Apply (now : Z) (workload : Z) (expression : option string) (t : schedules_table) :
    go cron_error schedules_table :=
  match expression with
  | None => Ret (DeleteSchedule workload t)
  | Some e =>
      if ScheduleExpression workload t == Some e then Ret t
      else
        c <-! ParseCron uf ul e;
        match Next c now with
        | Ret (Some next) => Ret (ReplaceSchedule workload e next t)
        | Ret None => Err (InvalidCronError ("invalid cron expression: " ++ e)%string)
        | Err err => match err with end
        | Panic => Panic
        | Spins => Spins
        end
  end.
End Fire.
