(* ===== verification/ScheduleProps.v ===== *)
(** What the scheduler promises: a pass admits every due occurrence once and
    leaves every schedule it claimed in the future, and the table only ever
    holds expressions that parse. *)

From S2P Require Import Prelude Calendar GoLib Cron CronSearch CronParse CronProps Schedules.

Lemma Forall2_map_left {A B C} (P : B -> C -> Prop) (f : A -> B) l k :
  Forall2 P (map f l) k -> Forall2 (fun x y => P (f x) y) l k.
Proof.
  revert k. induction l as [|x l IH]; intros k H; inversion H; subst; constructor; auto.
Qed.

Section Fire.
Context (uf : string -> list string) (ul : string -> string) (joined : Z -> workload_names).
Context {W : Type} `{!Admission W}.

(** Rows whose expression the parser accepts. *)
Definition stored_ok (s : schedule) : Prop := exists c, ParseCron uf ul (sc_expression s) = Ret c.

(** The times the calendar argument of the parser covers. *)
Definition clock_ok (now : Z) : Prop := parse_epoch <= now < time_Date 2072 1 1 0 0 0 0 - minute.

(** The record of an occurrence of [s]: its schedule moves to the first time
    after [now], its due time is kept, and it has a task or a reason. *)
Definition occurrence_of (now : Z) (s : schedule) (p : RecordOccurrenceParams) : Prop :=
  nextAfter uf ul (sc_expression s) now = Ret (ro_NextFireAt p) /\ now < ro_NextFireAt p /\
  ro_FiredAt p = Some (sc_next_fire_at s) /\
  ((exists task, ro_TaskID p = Some task /\ ro_Error p = None) \/
   (ro_TaskID p = None /\ exists reason, ro_Error p = Some reason)).

(** What admission answered, as a record keeps it. *)
Definition records (p : RecordOccurrenceParams) (o : Z + string) : Prop :=
  match o with
  | inl task => ro_TaskID p = Some task /\ ro_Error p = None
  | inr reason => ro_TaskID p = None /\ ro_Error p = Some reason
  end.

(** Submitting rows one after another, with what admission answers. *)
Fixpoint admit_all (w : W) (rows : list schedule) : go fire_error (W * list (schedule * (Z + string))) :=
  match rows with
  | [] => Ret (w, [])
  | row :: rows =>
      a <-! admit_row joined w row;
      rest <-! admit_all a.1 rows;
      Ret (rest.1, (row, a.2) :: rest.2)
  end.

(** [s] has fired: it keeps the answer one of the submissions got. *)
Definition fired (outs : list (schedule * (Z + string))) (now : Z) (s s' : schedule) : Prop :=
  exists p o, In (s, o) outs /\ records p o /\ s' = occurred p s /\ occurrence_of now s p.

Lemma fired_more outs outs' now s s' : (forall x, In x outs -> In x outs') -> fired outs now s s' -> fired outs' now s s'.
Proof. intros H (p & o & Hin & Hr). exists p, o. auto. Qed.

Lemma admit_all_app rows rows' : forall w w1 w2 outs outs',
  admit_all w rows = Ret (w1, outs) -> admit_all w1 rows' = Ret (w2, outs') -> admit_all w (rows ++ rows') = Ret (w2, outs ++ outs').
Proof.
  induction rows as [|row rows IH]; intros w w1 w2 outs outs'; simpl; [by intros [= <- <-]|].
  intros ([wa o] & Ha & ([wb os] & Hb & [= <- <-])%go_bind_Ret)%go_bind_Ret H2. simpl in *. rewrite Ha. cbn [go_bind fst snd].
  by rewrite (IH _ _ _ _ _ Hb H2).
Qed.

Lemma admit_all_rows rows : forall w w' outs, admit_all w rows = Ret (w', outs) -> map fst outs = rows.
Proof.
  induction rows as [|row rows IH]; intros w w' outs; simpl; [by intros [= <- <-]|].
  intros ([wa o] & _ & ([wb os] & Hb & [= <- <-])%go_bind_Ret)%go_bind_Ret. simpl. f_equal. by eapply IH.
Qed.

(** The rows a pass claims. *)
Definition claims (locked : Z -> bool) (now : Z) (s : schedule) : bool :=
  due now s && negb (locked (sc_workload s)).

Lemma nextAfter_ok now e :
  clock_ok now -> (exists c, ParseCron uf ul e = Ret c) -> exists t, nextAfter uf ul e now = Ret t /\ now < t.
Proof.
  intros Hnow [c Hc]. destruct (ParseCron_match uf ul e c Hc) as (t0 & Ht0 & Hw & Hm).
  destruct (Next_cycle c now t0 Ht0 Hw Hm Hnow) as (t & Ht & Hlt). exists t.
  unfold nextAfter. rewrite Hc, Ht. split; [reflexivity|lia].
Qed.

Lemma admit_returns w row : exists w' r, admit_row joined w row = Ret (w', r).
Proof.
  unfold admit_row. destruct (SubmitInTx w _) as [w' [[|task tasks]|e]] eqn:E; eauto.
  apply SubmitInTx_tasks in E. discriminate E.
Qed.

(** One row: it always records an occurrence, admitted or skipped. *)
Lemma fire_row_ok now t w res row :
  clock_ok now -> stored_ok row ->
  exists p w' res', fire_row uf ul joined now (t, w, res) row = Ret (RecordOccurrence p t, w', res') /\
    occurrence_of now row p /\ ro_WorkloadID p = sc_workload row /\
    (exists o, admit_row joined w row = Ret (w', o) /\ records p o) /\
    fr_Admitted res' + fr_Skipped res' = fr_Admitted res + fr_Skipped res + 1.
Proof.
  intros Hnow Hok. destruct (nextAfter_ok now _ Hnow Hok) as (next & Hnext & Hlt).
  destruct (admit_returns w row) as (w' & r & Ha). unfold fire_row. rewrite Ha. cbn [go_bind].
  rewrite Hnext. cbn [go_bind]. destruct r as [task|reason].
  - eexists _, w', _. split; [reflexivity|]. unfold occurrence_of; simpl. split_and!; eauto; try lia; by eexists.
  - eexists _, w', _. split; [reflexivity|]. unfold occurrence_of; simpl. split_and!; eauto; try lia; by eexists.
Qed.

(** ** A transaction *)

Definition of_rows (rows : list schedule) (s : schedule) : bool :=
  existsb (fun r => sc_workload r =? sc_workload s) rows.

(** What recording occurrences of [rows] makes of a row of the table. *)
Definition recorded (now : Z) (outs : list (schedule * (Z + string))) (s s' : schedule) : Prop :=
  (of_rows (map fst outs) s = false /\ s' = s) \/
  exists row o p, In (row, o) outs /\ sc_workload row = sc_workload s /\ s' = occurred p s /\ occurrence_of now row p /\ records p o.

Lemma of_rows_In rows s : of_rows rows s = true <-> In (sc_workload s) (map sc_workload rows).
Proof.
  unfold of_rows. rewrite existsb_exists, in_map_iff. split; intros (r & H1 & H2); exists r.
  - apply Z.eqb_eq in H2. done.
  - by rewrite H1, Z.eqb_refl.
Qed.

Lemma fire_rows_ok now rows t w res :
  clock_ok now -> Forall stored_ok rows -> NoDup (map sc_workload rows) ->
  exists t' w' res' outs, go_fold (fire_row uf ul joined now) rows (t, w, res) = Ret (t', w', res') /\
    admit_all w rows = Ret (w', outs) /\ Forall2 (recorded now outs) t t' /\
    fr_Admitted res' + fr_Skipped res' = fr_Admitted res + fr_Skipped res + Z.of_nat (length rows).
Proof.
  intros Hnow. revert t w res. induction rows as [|row rows IH]; intros t w res Hok Hnd.
  { exists t, w, res, []. split; [reflexivity|]. split; [reflexivity|]. split; [|simpl; lia].
    apply Forall2_same_length_lookup. split; [done|]. intros i x y Hx Hy. left. split; [done|congruence]. }
  inversion Hok as [|? ? Hrow Hrest]; subst. cbn [map] in Hnd. apply NoDup_cons in Hnd as [Hni Hnd].
  destruct (fire_row_ok now t w res row Hnow Hrow) as (p & w1 & res1 & Hf & Hp & Hid & (o & Ho & Hrec) & Hres).
  destruct (IH (RecordOccurrence p t) w1 res1 Hrest Hnd) as (t' & w' & res' & outs & Hfold & Hadm & Hrel & Hcount).
  exists t', w', res', ((row, o) :: outs). cbn [go_fold admit_all]. rewrite Hf, Ho. cbn [go_bind fst snd]. rewrite Hadm.
  split_and!; [exact Hfold|done| |simpl length; lia].
  unfold RecordOccurrence in Hrel. apply Forall2_map_left in Hrel. eapply Forall2_impl; [exact Hrel|].
  intros s s'. simpl. rewrite Hid. unfold recorded, of_rows. cbn [map fst existsb].
  destruct (Z.eqb_spec (sc_workload s) (sc_workload row)) as [E|E].
  - intros [[_ ->]|(r & o' & q & Hin & Hw & _)].
    + right. exists row, o, p. split_and!; [by left|done..].
    + exfalso. apply Hni. rewrite <- (admit_all_rows _ _ _ _ Hadm), map_map. apply list_elem_of_In, in_map_iff. exists (r, o').
      split; [simpl in *; congruence|done].
  - rewrite (proj2 (Z.eqb_neq (sc_workload row) (sc_workload s))) by congruence. cbn [orb].
    intros [?|(r & o' & q & Hin & H)]; [by left|]. right. exists r, o', q. split; [by right|done].
Qed.

Lemma claimed_rows locked now n t row :
  In row (LockDueSchedules locked now n t) -> In row t /\ claims locked now row = true.
Proof.
  unfold LockDueSchedules. intros H.
  assert (Hs : In row (sort_by due_order (List.filter (claims locked now) t))).
  { rewrite <- (firstn_skipn n). apply in_or_app. by left. }
  apply sort_by_In, filter_In in Hs. done.
Qed.

Lemma claimed_NoDup locked now n t :
  NoDup (map sc_workload t) -> NoDup (map sc_workload (LockDueSchedules locked now n t)).
Proof.
  intros Hnd. unfold LockDueSchedules. rewrite <- firstn_map.
  apply (sublist_NoDup _ (map sc_workload (sort_by due_order (List.filter (claims locked now) t)))); [|apply sublist_take].
  rewrite sort_by_perm. apply (sublist_NoDup _ (map sc_workload t)); [exact Hnd|].
  apply sublist_map, sublist_List_filter.
Qed.

(** The row of the table with a claimed row's workload is that row. *)
Lemma same_row t r s :
  NoDup (map sc_workload t) -> In r t -> In s t -> sc_workload r = sc_workload s -> r = s.
Proof.
  intros Hnd Hr Hs E. apply list_elem_of_In, list_elem_of_lookup in Hr as [i Hi], Hs as [j Hj].
  assert (i = j); [|congruence].
  apply (NoDup_lookup (map sc_workload t) i j (sc_workload r)); [exact Hnd| |].
  - change (map sc_workload t) with (sc_workload <$> t). rewrite list_lookup_fmap, Hi. done.
  - change (map sc_workload t) with (sc_workload <$> t). rewrite list_lookup_fmap, Hj. simpl. congruence.
Qed.

Lemma Forall2_In_impl {A B} (P Q : A -> B -> Prop) l k :
  (forall x y, In x l -> P x y -> Q x y) -> Forall2 P l k -> Forall2 Q l k.
Proof.
  intros H HP. induction HP as [|x y l k Hxy _ IH]; constructor; [apply H; [by left|done]|].
  apply IH. intros a b Ha. apply H. by right.
Qed.

(** A committed batch: the rows it claimed have fired, the others are as they
    were. *)
Definition batch_effect (outs : list (schedule * (Z + string))) (now : Z) (rows : list schedule) (s s' : schedule) : Prop :=
  if of_rows rows s then fired outs now s s' else s' = s.

Lemma fireBatch_ok locked now t w :
  clock_ok now -> Forall stored_ok t -> NoDup (map sc_workload t) ->
  let rows := LockDueSchedules locked now fireBatchSize t in
  exists t' w' res outs, fireBatch uf ul joined locked now t w = Ret ((t', w', res), length rows) /\
    admit_all w rows = Ret (w', outs) /\
    Forall2 (batch_effect outs now rows) t t' /\ fr_Admitted res + fr_Skipped res = Z.of_nat (length rows).
Proof.
  intros Hnow Hok Hnd rows.
  destruct (fire_rows_ok now rows t w no_result Hnow) as (t' & w' & res & outs & Hf & Hadm & Hrel & Hc).
  { apply List.Forall_forall. intros r Hr. rewrite List.Forall_forall in Hok.
    apply Hok. by apply claimed_rows in Hr as [Hr _]. }
  { by apply claimed_NoDup. }
  exists t', w', res, outs. unfold fireBatch. fold rows. rewrite Hf. split_and!; [done|exact Hadm| |by rewrite Hc].
  pose proof (admit_all_rows _ _ _ _ Hadm) as Erows.
  revert Hrel. apply Forall2_In_impl. intros s s' Hs [[Hno ->]|(r & o & p & Hr & Hw & -> & Hp & Hrec)]; unfold batch_effect.
  - rewrite Erows in Hno. by rewrite Hno.
  - assert (Hrr : In r rows) by (rewrite <- Erows; apply in_map_iff; by exists (r, o)).
    rewrite (proj2 (of_rows_In rows s)) by (apply in_map_iff; exists r; done).
    apply claimed_rows in Hrr as [Hrr _]. pose proof (same_row t r s Hnd Hrr Hs Hw) as ->. by exists p, o.
Qed.

Lemma occurred_keeps p s : sc_workload (occurred p s) = sc_workload s /\ sc_expression (occurred p s) = sc_expression s.
Proof. done. Qed.

Lemma batch_keeps outs now rows t t' :
  Forall2 (batch_effect outs now rows) t t' -> map sc_workload t' = map sc_workload t /\ map sc_expression t' = map sc_expression t.
Proof.
  induction 1 as [|s s' t t' H _ [IH1 IH2]]; [done|]. cbn [map]. rewrite IH1, IH2. unfold batch_effect in H.
  destruct (of_rows rows s); [destruct H as (p & o & _ & _ & -> & _)|rewrite H]; done.
Qed.

Lemma stored_ok_expressions t t' : map sc_expression t' = map sc_expression t -> Forall stored_ok t -> Forall stored_ok t'.
Proof.
  intros E H. assert (Hm : Forall (fun e => exists c, ParseCron uf ul e = Ret c) (map sc_expression t)).
  { apply List.Forall_map. exact H. }
  rewrite <- E in Hm. exact (proj1 (List.Forall_map _ _ _) Hm).
Qed.

Lemma fired_not_claimed locked outs now s s' : fired outs now s s' -> claims locked now s' = false.
Proof.
  intros (p & o & _ & _ & -> & _ & Hlt & _). unfold claims, due. simpl. by rewrite (proj2 (Z.leb_gt _ _) Hlt).
Qed.

(** What is left to claim is what was not claimed, as it was. *)
Lemma effect_rest locked outs now rows t t' :
  Forall2 (batch_effect outs now rows) t t' ->
  List.filter (claims locked now) t' = List.filter (fun x => claims locked now x && negb (of_rows rows x)) t.
Proof.
  induction 1 as [|s s' t t' Hs _ IH]; [done|]. cbn [List.filter]. unfold batch_effect in Hs.
  destruct (of_rows rows s).
  - rewrite (fired_not_claimed locked outs now s s' Hs), andb_false_r. exact IH.
  - rewrite Hs, andb_true_r. destruct (claims locked now s); simpl; [by f_equal|done].
Qed.

Section Batch.
Context (locked : Z -> bool) (now : Z) (t : schedules_table) (Hnd : NoDup (map sc_workload t)).
Let rows := LockDueSchedules locked now fireBatchSize t.

Lemma of_rows_exact s : In s t -> of_rows rows s = true <-> In s rows.
Proof.
  intros Hs. rewrite of_rows_In, in_map_iff. split.
  - intros (r & Hw & Hr). pose proof (claimed_rows _ _ _ _ _ Hr) as [Hrt _].
    by rewrite <- (same_row t r s Hnd Hrt Hs Hw).
  - intros H. by exists s.
Qed.

Lemma of_rows_claims s : In s t -> of_rows rows s = true -> claims locked now s = true.
Proof. intros Hs Hr. apply of_rows_exact in Hr; [|exact Hs]. by apply claimed_rows in Hr as [_ Hr]. Qed.

(** A batch that is not full claimed every row there is to claim. *)
Lemma last_batch s : (length rows < fireBatchSize)%nat -> In s t -> of_rows rows s = claims locked now s.
Proof.
  intros Hlen Hs. apply Bool.eq_true_iff_eq. split; [by apply of_rows_claims|].
  intros Hc. apply of_rows_exact; [exact Hs|].
  change rows with (firstn fireBatchSize (sort_by due_order (List.filter (claims locked now) t))) in *.
  rewrite length_firstn, sort_by_length in Hlen. rewrite firstn_all2 by (rewrite sort_by_length; lia).
  apply sort_by_In, filter_In. done.
Qed.

Lemma filter_split {A} (f g : A -> bool) l :
  (forall x, In x l -> g x = true -> f x = true) ->
  Permutation (List.filter f l) (List.filter g l ++ List.filter (fun x => f x && negb (g x)) l).
Proof.
  induction l as [|x l IH]; intros H; [done|]. cbn [List.filter]. specialize (IH (fun y Hy => H y (or_intror Hy))).
  specialize (H x (or_introl eq_refl)). destruct (g x); [rewrite H by done; simpl; by constructor|]. rewrite andb_true_r.
  destruct (f x); [|exact IH]. rewrite <- Permutation_middle. by constructor.
Qed.

Lemma rows_claimed : Permutation (List.filter (of_rows rows) t) rows.
Proof.
  apply NoDup_Permutation.
  - apply (sublist_NoDup _ t); [|apply sublist_List_filter]. by apply (NoDup_fmap_1 sc_workload).
  - apply (NoDup_fmap_1 sc_workload). by apply claimed_NoDup.
  - intros s. rewrite !list_elem_of_In, filter_In. split.
    + intros [Hs Hr]. by apply of_rows_exact.
    + intros Hr. pose proof (claimed_rows _ _ _ _ _ Hr) as [Hs _]. split; [exact Hs|]. by apply of_rows_exact.
Qed.

(** The rows left to claim after a batch. *)
Lemma claims_left outs t' :
  Forall2 (batch_effect outs now rows) t t' ->
  Permutation (List.filter (claims locked now) t) (rows ++ List.filter (claims locked now) t').
Proof.
  intros H. rewrite (filter_split (claims locked now) (of_rows rows) t of_rows_claims), rows_claimed.
  by rewrite (effect_rest locked outs now rows t t' H).
Qed.
End Batch.

(** ** The pass *)

Definition pass_effect (outs : list (schedule * (Z + string))) (locked : Z -> bool) (now : Z) (s s' : schedule) : Prop :=
  if claims locked now s then fired outs now s s' else s' = s.

Lemma Forall2_compose {A} (P Q R : A -> A -> Prop) l1 l2 l3 :
  (forall x y z, P x y -> Q y z -> R x z) -> Forall2 P l1 l2 -> Forall2 Q l2 l3 -> Forall2 R l1 l3.
Proof.
  intros H HP. revert l3. induction HP as [|x y l1 l2 Hxy _ IH]; intros l3 HQ; inversion HQ; subst; constructor; eauto.
Qed.

Lemma Fire_ok locked clock now fuel n t w total :
  (forall k, clock k = now) -> clock_ok now -> Forall stored_ok t -> NoDup (map sc_workload t) ->
  (length (List.filter (claims locked now) t) < fuel)%nat ->
  exists t' w' total' outs, Fire uf ul joined fuel locked clock n t w total = ((t', w', total'), Ret tt) /\
    admit_all w (map fst outs) = Ret (w', outs) /\ Permutation (map fst outs) (List.filter (claims locked now) t) /\
    Forall2 (pass_effect outs locked now) t t' /\
    fr_Admitted total' + fr_Skipped total' =
      fr_Admitted total + fr_Skipped total + Z.of_nat (length (List.filter (claims locked now) t)).
Proof.
  intros Hclock Hnow. revert n t w total. induction fuel as [|fuel IH]; intros n t w total Hok Hnd Hfuel; [lia|].
  cbn [Fire]. rewrite Hclock.
  destruct (fireBatch_ok locked now t w Hnow Hok Hnd) as (t1 & w1 & res & outs & -> & Hadm & Heff & Hres).
  pose proof (claims_left locked now t Hnd outs t1 Heff) as Hleft. pose proof (admit_all_rows _ _ _ _ Hadm) as Erows.
  set (rows := LockDueSchedules locked now fireBatchSize t) in *. pose proof (Permutation_length Hleft) as Hlen. rewrite length_app in Hlen.
  destruct (Nat.ltb_spec (length rows) fireBatchSize) as [Hlast|Hfull].
  - assert (Hlb : forall s, In s t -> of_rows rows s = claims locked now s)
      by exact (fun s => last_batch locked now t Hnd s Hlast).
    assert (Hnone : List.filter (claims locked now) t1 = []).
    { rewrite (effect_rest locked outs now rows t t1 Heff). revert Hlb. generalize rows. clear. intros rows Hlb. induction t as [|s l IHl]; [done|]. cbn [List.filter].
      rewrite (Hlb s) by by left. rewrite andb_negb_r. apply IHl. intros x Hx. apply Hlb. by right. }
    rewrite Hnone, app_nil_r in Hleft. eexists t1, w1, _, outs. rewrite Erows. split_and!; [reflexivity|exact Hadm|by symmetry| |].
    + revert Heff. apply Forall2_In_impl. intros s s' Hs. unfold batch_effect, pass_effect. by rewrite (Hlb s Hs).
    + rewrite Hnone in Hlen. simpl in *. lia.
  - destruct (batch_keeps outs now rows t t1 Heff) as [Hw He]. unfold fireBatchSize in Hfull.
    destruct (IH (S n) t1 w1 (add_result total res)) as (t' & w' & total' & outs' & -> & Hadm' & Hperm' & Heff' & Hres').
    + by apply (stored_ok_expressions t).
    + by rewrite Hw.
    + lia.
    + exists t', w', total', (outs ++ outs'). rewrite map_app, Erows. split_and!; [reflexivity|by eapply admit_all_app|by rewrite Hperm', Hleft| |].
      * assert (H1 : Forall2 (fun s s' => In s t /\ batch_effect outs now rows s s') t t1)
          by (revert Heff; apply Forall2_In_impl; auto).
        revert H1 Heff'. apply Forall2_compose. intros s s1 s2 [Hs H1]. unfold batch_effect in H1. unfold pass_effect.
        destruct (of_rows rows s) eqn:Er.
        -- rewrite (of_rows_claims locked now t Hnd s Hs Er), (fired_not_claimed locked outs now s s1 H1). intros ->.
           revert H1. apply fired_more. intros x Hx. apply in_or_app. by left.
        -- rewrite H1. destruct (claims locked now s); [|done]. apply fired_more. intros x Hx. apply in_or_app. by right.
      * rewrite Hres'. simpl. lia.
Qed.
End Fire.

(** ** The table over time

    Deploys apply and remove schedules and the scheduler fires them, in any
    order, at any times, with rows locked by others or not, whatever admission
    answers and whether a pass succeeds or fails. *)

Section Reachable.
Context (uf : string -> list string) (ul : string -> string) (joined : Z -> workload_names).
Context {W : Type} `{!Admission W}.

Inductive schedules_step : schedules_table -> schedules_table -> Prop :=
| step_apply now workload expression t t' :
    Apply uf ul now workload expression t = Ret t' -> schedules_step t t'
| step_fire fuel locked clock n (w w' : W) total total' out t t' :
    Fire uf ul joined fuel locked clock n t w total = ((t', w', total'), out) -> schedules_step t t'.

Inductive schedules_reachable : schedules_table -> Prop :=
| reach_empty : schedules_reachable []
| reach_step t t' : schedules_reachable t -> schedules_step t t' -> schedules_reachable t'.

(** The invariant: one row per workload, each with an expression that
    parses. *)
Definition table_ok (t : schedules_table) : Prop :=
  NoDup (map sc_workload t) /\ Forall (stored_ok uf ul) t.

Lemma DeleteSchedule_ok workload t : table_ok t -> table_ok (DeleteSchedule workload t).
Proof.
  intros [Hnd Hok]. split.
  - apply (sublist_NoDup _ (map sc_workload t)); [exact Hnd|]. apply sublist_map, sublist_List_filter.
  - rewrite List.Forall_forall in *. intros s Hs. apply Hok. by apply filter_In in Hs as [Hs _].
Qed.

Lemma replace_workloads workload e next t :
  map sc_workload (map (fun s => if sc_workload s =? workload then new_schedule workload e next else s) t) = map sc_workload t.
Proof.
  rewrite map_map. apply map_ext. intros s. destruct (Z.eqb_spec (sc_workload s) workload) as [E|]; [symmetry; exact E|done].
Qed.

Lemma ReplaceSchedule_ok workload e next t :
  (exists c, ParseCron uf ul e = Ret c) -> table_ok t -> table_ok (ReplaceSchedule workload e next t).
Proof.
  intros He [Hnd Hok]. unfold ReplaceSchedule. destruct (existsb _ t) eqn:Ex; split.
  - by rewrite replace_workloads.
  - apply List.Forall_map. apply (List.Forall_impl _ (P := stored_ok uf ul)); [|exact Hok].
    intros s Hs. destruct (sc_workload s =? workload); [exact He|exact Hs].
  - rewrite map_app. apply NoDup_app. split_and!; [exact Hnd| |apply NoDup_singleton].
    intros x Hx Hn. apply list_elem_of_singleton in Hn. simpl in Hn. subst x.
    apply list_elem_of_In, in_map_iff in Hx as (s & Hs & Hin).
    assert (Htrue : existsb (fun s => sc_workload s =? workload) t = true); [|congruence].
    apply existsb_exists. exists s. split; [exact Hin|]. by apply Z.eqb_eq.
  - apply List.Forall_app. split; [exact Hok|]. by constructor.
Qed.

Lemma Apply_ok now workload expression t t' : Apply uf ul now workload expression t = Ret t' -> table_ok t -> table_ok t'.
Proof.
  unfold Apply. intros H Ht. destruct expression as [e|]; [|injection H as <-; by apply DeleteSchedule_ok].
  destruct (_ == _); [injection H as <-; exact Ht|]. apply go_bind_Ret in H as (c & Hc & H).
  destruct (Next_spec c now) as (r & Hr & _). rewrite Hr in H. destruct r as [next|]; [|discriminate H].
  injection H as <-. apply ReplaceSchedule_ok; [by exists c|exact Ht].
Qed.

Lemma RecordOccurrence_keeps p t :
  map sc_workload (RecordOccurrence p t) = map sc_workload t /\ map sc_expression (RecordOccurrence p t) = map sc_expression t.
Proof.
  unfold RecordOccurrence. rewrite !map_map. split; apply map_ext; intros s; by destruct (_ =? _).
Qed.

(** What every recorded occurrence keeps, a pass keeps. *)
Lemma Fire_invariant (I : schedules_table -> W -> Prop) :
  (forall now t w res row t' w' res', I t w -> fire_row uf ul joined now (t, w, res) row = Ret (t', w', res') -> I t' w') ->
  forall fuel locked clock n t w total t' w' total' out, I t w ->
    Fire uf ul joined fuel locked clock n t w total = ((t', w', total'), out) -> I t' w'.
Proof.
  intros Hrow. induction fuel as [|fuel IH]; intros locked clock n t w total t' w' total' out Hi; cbn [Fire]; [by intros [= <- <- _ _]|].
  destruct (fireBatch _ _ _ _ _ _ _) as [[[[t1 w1] res] claimed]|e| |] eqn:E; try by intros [= <- <- _ _].
  assert (H1 : I t1 w1).
  { unfold fireBatch in E. apply go_bind_Ret in E as ([[t2 w2] res2] & E & [= <- <- <- _]). revert E.
    apply (go_fold_prefix (fun _ (s : fire_state) => I s.1.1 s.1.2)); [done|].
    intros done row [[ta wa] ra] [[tb wb] rb] _ Ha Hr. by apply (Hrow _ _ _ _ _ _ _ _ Ha Hr). }
  destruct (Nat.ltb _ _); [by intros [= <- <- _ _]|]. by apply IH.
Qed.

(** What a recorded occurrence is: the row's task, or the reason there is
    none. *)
Lemma fire_row_records now t w res row t' w' res' : fire_row uf ul joined now (t, w, res) row = Ret (t', w', res') -> exists p r,
  admit_row joined w row = Ret (w', r) /\ t' = RecordOccurrence p t /\ ro_WorkloadID p = sc_workload row /\ ro_FiredAt p = Some (sc_next_fire_at row) /\
  ro_TaskID p = match r with inl task => Some task | inr _ => None end.
Proof.
  unfold fire_row. intros H. apply go_bind_Ret in H as ([w1 r] & Ha & H). apply go_bind_Ret in H as (next & _ & H).
  destruct r as [task|reason]; injection H as <- <- _; eexists _, _; (split; [exact Ha|done]).
Qed.

(** Occurrences change neither the workloads nor the expressions. *)
Lemma Fire_keeps fuel locked clock n t (w : W) total t' w' total' out :
  Fire uf ul joined fuel locked clock n t w total = ((t', w', total'), out) ->
  map sc_workload t' = map sc_workload t /\ map sc_expression t' = map sc_expression t.
Proof.
  apply (Fire_invariant (fun s _ => map sc_workload s = map sc_workload t /\ map sc_expression s = map sc_expression t)); [|done].
  intros now ta wa ra row tb wb rb [E1 E2] H. apply fire_row_records in H as (p & r & _ & -> & _).
  by rewrite (proj1 (RecordOccurrence_keeps _ _)), (proj2 (RecordOccurrence_keeps _ _)).
Qed.

Lemma reachable_ok t : schedules_reachable t -> table_ok t.
Proof.
  induction 1 as [|t t' _ IH Hstep]; [split; constructor|]. destruct Hstep as [now workload e t t' H|fuel locked clock n w w' total total' out t t' H].
  - by apply (Apply_ok _ _ _ _ _ H).
  - apply Fire_keeps in H as [Hw He]. destruct IH as [Hnd Hok]. split; [by rewrite Hw|].
    by apply (stored_ok_expressions uf ul t).
Qed.

(** C16: Whatever deploys and passes came before, a pass of the scheduler whose
    transactions all run at one instant between 2000 and 2071 ends without
    error, in [S (length t)] transactions or fewer. What it does to admission
    is to submit every due schedule whose row it can lock, each once, one after
    another: each records that occurrence with the task admission answered or
    the reason there is none, and moves to the first minute after now that its
    expression selects, so missed occurrences collapse into one. Every other
    schedule stays as it was, and none of the rows the pass could lock is still
    due. *)
Theorem Fire_fires_each_due_once locked now t (w : W) :
  schedules_reachable t -> clock_ok now ->
  exists t' w' total outs,
    Fire uf ul joined (S (length t)) locked (fun _ => now) 0 t w no_result = ((t', w', total), Ret tt) /\
    admit_all joined w (map fst outs) = Ret (w', outs) /\ Permutation (map fst outs) (List.filter (claims locked now) t) /\
    Forall2 (pass_effect uf ul outs locked now) t t' /\
    Forall (fun s' => claims locked now s' = false) t' /\
    fr_Admitted total + fr_Skipped total = Z.of_nat (length (List.filter (claims locked now) t)).
Proof.
  intros [Hnd Hok]%reachable_ok Hnow.
  destruct (Fire_ok uf ul joined locked (fun _ => now) now (S (length t)) 0 t w no_result) as (t' & w' & total & outs & Hf & Hadm & Hperm & Heff & Hc);
    [done|exact Hnow|exact Hok|exact Hnd| |].
  { pose proof (List.filter_length_le (claims locked now) t). lia. }
  exists t', w', total, outs. split_and!; [exact Hf|exact Hadm|exact Hperm|exact Heff| |exact Hc].
  clear -Heff. induction Heff as [|s s' t t' Hs _ IH]; constructor; [|exact IH]. unfold pass_effect in Hs.
  destruct (claims locked now s) eqn:E; [by apply (fired_not_claimed uf ul locked outs now s)|congruence].
Qed.
End Reachable.

(** ** A sample pass *)

(** Admission that numbers tasks, and refuses one function. *)
Definition count_submit (w : Z) (req : SubmitRequest) : Z * (list Z + submit_error) :=
  if wn_Function (sr_Names req) == "paused" then (w, inr ErrNotAccepting)
  else (w + Z.of_nat (sr_Inputs req), inl (map (fun k => w + Z.of_nat k) (seq 0 (sr_Inputs req)))).

Lemma count_submit_tasks w req w' tasks : count_submit w req = (w', inl tasks) -> length tasks = sr_Inputs req.
Proof. unfold count_submit. case_bool_decide; intros [= <- <-]. by rewrite length_map, length_seq. Qed.

#[export] Instance count_admission : Admission Z := {| SubmitInTx := count_submit; SubmitInTx_tasks := count_submit_tasks |}.

Definition sample_names (workload : Z) : workload_names :=
  {| wn_Workspace := 1; wn_App := "reports"; wn_Function := if workload =? 7 then "paused" else "nightly" |}.

Definition deployed_at : Z := time_Date 2026 9 7 12 0 0 0.

Definition sample_schedules : schedules_table :=
  [new_schedule 5 "*/15 * * * *" (time_Date 2026 9 7 12 15 0 0); new_schedule 7 "*/15 * * * *" (time_Date 2026 9 7 12 15 0 0)].

Lemma sample_schedules_reachable :
  schedules_reachable no_unicode_fields same_text sample_names (W := Z) sample_schedules.
Proof.
  apply (reach_step _ _ _ [new_schedule 5 "*/15 * * * *" (time_Date 2026 9 7 12 15 0 0)]).
  - apply (reach_step _ _ _ []); [constructor|].
    apply (step_apply _ _ _ deployed_at 5 (Some "*/15 * * * *")). vm_compute. reflexivity.
  - apply (step_apply _ _ _ deployed_at 7 (Some "*/15 * * * *")). vm_compute. reflexivity.
Qed.

Lemma sample_clock : clock_ok (time_Date 2026 9 7 12 50 0 0).
Proof. vm_compute. split; [discriminate|reflexivity]. Qed.

Lemma Fire_fires_each_due_once_witness :
  exists t' w' total outs,
    Fire no_unicode_fields same_text sample_names 3 (fun _ => false) (fun _ => time_Date 2026 9 7 12 50 0 0) 0
      sample_schedules 100 no_result = ((t', w', total), Ret tt) /\
    admit_all sample_names 100 (map fst outs) = Ret (w', outs) /\ Permutation (map fst outs) sample_schedules /\
    Forall2 (pass_effect no_unicode_fields same_text outs (fun _ => false) (time_Date 2026 9 7 12 50 0 0)) sample_schedules t' /\
    Forall (fun s' => claims (fun _ => false) (time_Date 2026 9 7 12 50 0 0) s' = false) t' /\
    fr_Admitted total + fr_Skipped total = 2.
Proof.
  exact (Fire_fires_each_due_once no_unicode_fields same_text sample_names (fun _ => false)
           (time_Date 2026 9 7 12 50 0 0) sample_schedules 100 sample_schedules_reachable sample_clock).
Defined.

(** The pass: one task, one refusal, both next due at 13:00. *)
Example sample_pass :
  Fire no_unicode_fields same_text sample_names 3 (fun _ => false) (fun _ => time_Date 2026 9 7 12 50 0 0) 0
    sample_schedules 100 no_result =
  (([{| sc_workload := 5; sc_expression := "*/15 * * * *"; sc_next_fire_at := time_Date 2026 9 7 13 0 0 0;
        sc_last_fired_at := Some (time_Date 2026 9 7 12 15 0 0); sc_last_task_id := Some 100; sc_last_error := None |};
     {| sc_workload := 7; sc_expression := "*/15 * * * *"; sc_next_fire_at := time_Date 2026 9 7 13 0 0 0;
        sc_last_fired_at := Some (time_Date 2026 9 7 12 15 0 0); sc_last_task_id := None;
        sc_last_error := Some "the function is stopped or its app is paused" |}], 101,
    {| fr_Admitted := 1; fr_Skipped := 1 |}), Ret tt).
Proof. vm_compute. reflexivity. Qed.
