(* ===== verification/EdgeLoad.v ===== *)
(** The edge's demand on a release (src/internal/edge/load.go): the sliding
    window of its peak, what it never misses and what it never forgets, and
    what the edge publishes to planning.

    Times are nanoseconds, [time.Time{}] is 0, and [Time.Sub] saturates.
    Counts are [int]s that stay far below their bounds.  The two slices of
    [windowMax] are always cut and grown together, so one list of pairs holds
    them. *)

From S2P Require Import Prelude Calendar.

(** ** windowMax *)

Record sample_at := {
  sa_at : Z;
  sa_value : Z
}.

(** A deque of samples, oldest first. *)
Definition windowMax := list sample_at.

(** [for cut+1 < len(w.at) && now.Sub(w.at[cut+1]) > window { cut++ }]: the
    samples before the cut are dropped. *)
Fixpoint cut_window (now window : Z) (w : windowMax) : windowMax :=
  match w with
  | a :: ((b :: _) as rest) => if time_sub now (sa_at b) >? window then cut_window now window rest else w
  | _ => w
  end.

Definition expire (now window : Z) (w : windowMax) : windowMax :=
  match cut_window now window w with
  | [a] => if time_sub now (sa_at a) >? window then [] else [a]
  | w' => w'
  end.

(** The loop of [push] that drops samples from the end while the last is at
    most [value]. *)
Fixpoint drop_dominated (value : Z) (w : windowMax) : windowMax :=
  match w with
  | [] => []
  | a :: rest =>
      match drop_dominated value rest with
      | [] => if sa_value a <=? value then [] else [a]
      | rest' => a :: rest'
      end
  end.

Definition push (now value window : Z) (w : windowMax) : windowMax :=
  drop_dominated value (expire now window w) ++ [{| sa_at := now; sa_value := value |}].

(** [windowMax.max], with the deque it leaves. *)
Definition window_max (now current window : Z) (w : windowMax) : windowMax * Z :=
  let w' := expire now window w in
  (w', match w' with
       | a :: _ => if sa_value a >? current then sa_value a else current
       | [] => current
       end).

(** ** A release's load *)

Record EndpointLoad := {
  el_Release : Z;
  el_InFlight : Z;
  el_Waiting : Z;
  el_WindowPeak : Z
}.

#[export] Instance EndpointLoad_eq_dec : EqDecision EndpointLoad.
Proof. solve_decision. Defined.

Definition zero_load : EndpointLoad := {| el_Release := 0; el_InFlight := 0; el_Waiting := 0; el_WindowPeak := 0 |}.

Record releaseLoad := {
  rl_release : Z;
  rl_keepWarm : Z;
  rl_inFlight : Z;
  rl_waiting : Z;
  rl_window : windowMax;
  rl_served : Z;
  rl_wake : bool;
  rl_published : EndpointLoad;
  rl_renewedAt : Z;
  rl_checkedAt : Z;
  rl_everPushed : bool
}.

(** [&releaseLoad{release: r.id, keepWarm: r.keepWarm}]. *)
Definition new_load (release keepWarm : Z) : releaseLoad :=
  {| rl_release := release; rl_keepWarm := keepWarm; rl_inFlight := 0; rl_waiting := 0; rl_window := [];
     rl_served := 0; rl_wake := false; rl_published := zero_load; rl_renewedAt := 0; rl_checkedAt := 0;
     rl_everPushed := false |}.

(** The fields the operations write. *)
Definition with_counts (inFlight waiting : Z) (l : releaseLoad) : releaseLoad :=
  {| rl_release := rl_release l; rl_keepWarm := rl_keepWarm l; rl_inFlight := inFlight; rl_waiting := waiting;
     rl_window := rl_window l; rl_served := rl_served l; rl_wake := rl_wake l; rl_published := rl_published l;
     rl_renewedAt := rl_renewedAt l; rl_checkedAt := rl_checkedAt l; rl_everPushed := rl_everPushed l |}.

Definition with_window (w : windowMax) (l : releaseLoad) : releaseLoad :=
  {| rl_release := rl_release l; rl_keepWarm := rl_keepWarm l; rl_inFlight := rl_inFlight l; rl_waiting := rl_waiting l;
     rl_window := w; rl_served := rl_served l; rl_wake := rl_wake l; rl_published := rl_published l;
     rl_renewedAt := rl_renewedAt l; rl_checkedAt := rl_checkedAt l; rl_everPushed := rl_everPushed l |}.

Definition with_wake (b : bool) (l : releaseLoad) : releaseLoad :=
  {| rl_release := rl_release l; rl_keepWarm := rl_keepWarm l; rl_inFlight := rl_inFlight l; rl_waiting := rl_waiting l;
     rl_window := rl_window l; rl_served := rl_served l; rl_wake := b; rl_published := rl_published l;
     rl_renewedAt := rl_renewedAt l; rl_checkedAt := rl_checkedAt l; rl_everPushed := rl_everPushed l |}.

Definition with_checked (at_ : Z) (l : releaseLoad) : releaseLoad :=
  {| rl_release := rl_release l; rl_keepWarm := rl_keepWarm l; rl_inFlight := rl_inFlight l; rl_waiting := rl_waiting l;
     rl_window := rl_window l; rl_served := rl_served l; rl_wake := rl_wake l; rl_published := rl_published l;
     rl_renewedAt := rl_renewedAt l; rl_checkedAt := at_; rl_everPushed := rl_everPushed l |}.

Definition with_served (n : Z) (l : releaseLoad) : releaseLoad :=
  {| rl_release := rl_release l; rl_keepWarm := rl_keepWarm l; rl_inFlight := rl_inFlight l; rl_waiting := rl_waiting l;
     rl_window := rl_window l; rl_served := n; rl_wake := rl_wake l; rl_published := rl_published l;
     rl_renewedAt := rl_renewedAt l; rl_checkedAt := rl_checkedAt l; rl_everPushed := rl_everPushed l |}.

(** [releaseLoad.sample]. *)
Definition sample (now : Z) (l : releaseLoad) : releaseLoad :=
  with_window (push now (rl_inFlight l + rl_waiting l) (rl_keepWarm l) (rl_window l)) l.

(** [releaseLoad.failureCheckIn]: the wait, and the load it leaves. *)
Definition failureCheckIn (now interval : Z) (l : releaseLoad) : releaseLoad * Z :=
  let wait := interval - time_sub now (rl_checkedAt l) in
  if wait >? 0 then (l, wait) else (with_checked now l, 0).

(** ** Publication *)

Definition EndpointLoadTTL : Z := 15 * second.
Definition renewAfter : Z := EndpointLoadTTL / 3.

(** The body of [collectLoads]'s loop for one release: the load it keeps, or
    [None] when the release is forgotten, the demand it publishes, and whether
    it wakes planning. *)
Definition collect_load (now : Z) (l : releaseLoad) : option releaseLoad * option EndpointLoad * bool :=
  let '(w, peak) := window_max now (rl_inFlight l + rl_waiting l) (rl_keepWarm l) (rl_window l) in
  let l' := with_window w l in
  let current := {| el_Release := rl_release l; el_InFlight := rl_inFlight l; el_Waiting := rl_waiting l;
                    el_WindowPeak := peak |} in
  let idle := (el_InFlight current =? 0) && (el_Waiting current =? 0) && (el_WindowPeak current =? 0) in
  if idle && (negb (rl_everPushed l) || (rl_published l == current)) then (None, None, false)
  else if (current == rl_published l) && (time_sub now (rl_renewedAt l) <? renewAfter) && negb (rl_wake l)
  then (Some l', None, false)
  else
    (Some {| rl_release := rl_release l; rl_keepWarm := rl_keepWarm l; rl_inFlight := rl_inFlight l;
             rl_waiting := rl_waiting l; rl_window := w; rl_served := rl_served l; rl_wake := false;
             rl_published := current; rl_renewedAt := now; rl_checkedAt := rl_checkedAt l; rl_everPushed := true |},
     Some current, rl_wake l && (el_Waiting current >? 0)).

(** What [publishLoads] does to a load after a failed publication. *)
Definition publish_failed (l : releaseLoad) : releaseLoad :=
  {| rl_release := rl_release l; rl_keepWarm := rl_keepWarm l; rl_inFlight := rl_inFlight l;
     rl_waiting := rl_waiting l; rl_window := rl_window l; rl_served := rl_served l;
     rl_wake := rl_wake l || (rl_waiting l >? 0); rl_published := rl_published l; rl_renewedAt := 0;
     rl_checkedAt := rl_checkedAt l; rl_everPushed := rl_everPushed l |}.

(** ** The deque *)

(** The uses of a window, in time order. *)
Inductive window_op :=
| WPush (at_ value : Z)
| WMax (at_ current : Z).

Definition op_time (o : window_op) : Z :=
  match o with
  | WPush t _ | WMax t _ => t
  end.

Definition window_step (window : Z) (w : windowMax) (o : window_op) : windowMax :=
  match o with
  | WPush t v => push t v window w
  | WMax t c => (window_max t c window w).1
  end.

Definition window_run (window : Z) (ops : list window_op) : windowMax := fold_left (window_step window) ops [].

(** Samples in time order with falling values. *)
Definition sample_before (a b : sample_at) : Prop := sa_at a <= sa_at b /\ sa_value b < sa_value a.

Definition inside (window now t : Z) : Prop := time_sub now t <= window.

Lemma time_sub_mono now t u : t <= u -> time_sub now u <= time_sub now t.
Proof. unfold time_sub. lia. Qed.

Lemma inside_mono window now t u : t <= u -> inside window now t -> inside window now u.
Proof. unfold inside. pose proof (time_sub_mono now t u). lia. Qed.

Lemma inside_earlier window now T t : T <= now -> inside window now t -> inside window T t.
Proof. unfold inside, time_sub. lia. Qed.

(** A deque invariant: ordered, and every sample pushed. *)
Definition deque_ok (w : windowMax) : Prop := StronglySorted sample_before w.

Lemma cut_window_two now window a b w :
  cut_window now window (a :: b :: w) =
  if time_sub now (sa_at b) >? window then cut_window now window (b :: w) else a :: b :: w.
Proof. reflexivity. Qed.

Lemma cut_window_suffix now window w : exists dropped, w = dropped ++ cut_window now window w.
Proof.
  induction w as [|a [|b w] IH]; [by exists [] | by exists [] |]. cbn [cut_window].
  destruct (_ >? _); [|by exists []]. destruct IH as [d Hd]. exists (a :: d). simpl. by rewrite Hd at 1.
Qed.

Lemma cut_window_keeps now window w s :
  deque_ok w -> In s w -> inside window now (sa_at s) -> In s (cut_window now window w).
Proof.
  induction w as [|a [|b w] IH]; intros Hok Hin Hs; [done|done|]. cbn [cut_window].
  destruct (Z.gtb_spec (time_sub now (sa_at b)) window) as [Hgt|Hle]; [|exact Hin].
  inversion Hok as [|? ? Hok' Hall]; subst. apply IH; [exact Hok'| |exact Hs].
  destruct Hin as [<-|Hin]; [|exact Hin]. exfalso. inversion Hall as [|? ? [Hab _] _]; subst.
  apply (inside_mono window now _ _ Hab) in Hs. unfold inside in Hs. lia.
Qed.

Lemma suffix_ok (d w : windowMax) : deque_ok (d ++ w) -> deque_ok w.
Proof. induction d as [|a d IH]; [done|]. intros H. inversion H; subst. by apply IH. Qed.

Lemma expire_In now window w s : In s (expire now window w) -> In s w.
Proof.
  unfold expire. destruct (cut_window_suffix now window w) as [d Hd].
  destruct (cut_window now window w) as [|a [|b r]] eqn:E; rewrite Hd; intros H.
  - contradiction.
  - destruct (_ >? _); [contradiction|]. apply in_or_app. by right.
  - apply in_or_app. by right.
Qed.

Lemma expire_ok now window w : deque_ok w -> deque_ok (expire now window w).
Proof.
  intros H. unfold expire. destruct (cut_window_suffix now window w) as [d Hd]. rewrite Hd in H. apply suffix_ok in H.
  destruct (cut_window now window w) as [|a [|b r]]; [exact H| |exact H]. destruct (_ >? _); [constructor|exact H].
Qed.

(** Only samples outside the window are dropped. *)
Lemma expire_keeps now window w s :
  deque_ok w -> In s w -> inside window now (sa_at s) -> In s (expire now window w).
Proof.
  intros Hok Hin Hs. pose proof (cut_window_keeps now window w s Hok Hin Hs) as Hc. unfold expire.
  destruct (cut_window now window w) as [|a [|b r]]; [exact Hc| |exact Hc].
  destruct Hc as [->|[]]. unfold inside in Hs. destruct (Z.gtb_spec (time_sub now (sa_at s)) window); [lia|by left].
Qed.

(** A deque with nothing inside the window empties. *)
Lemma expire_empties now window w : (forall s, In s w -> ~ inside window now (sa_at s)) -> expire now window w = [].
Proof.
  intros H. unfold expire. assert (Hc : exists s, cut_window now window w = [s] /\ In s w \/ cut_window now window w = [] /\ w = []).
  { induction w as [|a [|b w] IH]; [exists {| sa_at := 0; sa_value := 0 |}; by right|exists a; left; split; [done|by left]|].
    rewrite cut_window_two. specialize (H b) as Hb. unfold inside in Hb.
    destruct (Z.gtb_spec (time_sub now (sa_at b)) window) as [Hgt|Hle]; [|exfalso; apply Hb; [right; by left|lia]].
    destruct IH as [s [[-> Hs]|[_ Hn]]]; [intros s Hs; apply H; by right| |done].
    exists s. left. split; [done|]. by right. }
  destruct Hc as [s [[-> Hs]|[-> _]]]; [|done]. specialize (H s Hs). unfold inside in H.
  destruct (Z.gtb_spec (time_sub now (sa_at s)) window); [done|lia].
Qed.

Lemma drop_dominated_prefix v w : exists dropped,
  w = drop_dominated v w ++ dropped /\ Forall (fun s => sa_value s <= v) dropped.
Proof.
  induction w as [|a w (d & Hw & Hd)]; [by exists []|]. cbn [drop_dominated].
  destruct (drop_dominated v w) as [|b r].
  - cbn [app] in Hw. subst d. destruct (Z.leb_spec (sa_value a) v) as [Hle|].
    + exists (a :: w). split; [done|]. by constructor.
    + by exists w.
  - exists d. split; [|exact Hd]. by rewrite Hw at 1.
Qed.

Lemma drop_dominated_above v w s : deque_ok w -> In s (drop_dominated v w) -> v < sa_value s.
Proof.
  induction w as [|a w IH]; [done|]. intros Hok. inversion Hok as [|? ? Hok' Hall]; subst. cbn [drop_dominated].
  destruct (drop_dominated v w) as [|b r] eqn:E.
  - destruct (Z.leb_spec (sa_value a) v); [done|]. intros [<-|[]]. done.
  - intros [<-|Hin]; [|by apply IH]. specialize (IH Hok').
    destruct (drop_dominated_prefix v w) as (d & Hw & _). rewrite E in Hw.
    assert (Hb : v < sa_value b /\ sa_value b < sa_value a); [|lia].
    rewrite List.Forall_forall in Hall. split.
    + clear -E Hok'. revert b r E. induction w as [|c w IHw]; [done|]. intros b r. inversion Hok' as [|? ? Hw Hc]; subst.
      cbn [drop_dominated]. destruct (drop_dominated v w) as [|b' r'] eqn:E'.
      * destruct (Z.leb_spec (sa_value c) v); [done|]. by intros [= <- <-].
      * intros [= <- <-]. specialize (IHw Hw b' r' eq_refl). destruct (drop_dominated_prefix v w) as (d & Hd & _).
        rewrite E' in Hd. rewrite List.Forall_forall in Hc. destruct (Hc b') as [_ Hlt]; [rewrite Hd; by left|]. lia.
    + apply Hall. rewrite Hw. by left.
Qed.

Lemma drop_dominated_all v w s : In s w -> In s (drop_dominated v w) \/ sa_value s <= v.
Proof.
  destruct (drop_dominated_prefix v w) as (d & Hw & Hd). rewrite Hw at 1. intros [H|H]%in_app_or; [by left|].
  rewrite List.Forall_forall in Hd. right. by apply Hd.
Qed.

(** ** What a run keeps *)

(** After the operations, the deque is ordered, holds only demand that was
    pushed, none of it later than [T], and covers what was pushed inside the
    window. *)
Record window_inv (window T : Z) (ops : list window_op) (w : windowMax) : Prop := {
  wi_ok : deque_ok w;
  wi_pushed : forall s, In s w -> In (WPush (sa_at s) (sa_value s)) ops /\ sa_at s <= T;
  wi_covers : forall t v, In (WPush t v) ops -> inside window T t ->
                exists s, In s w /\ t <= sa_at s /\ v <= sa_value s
}.

Lemma expire_inv window T now ops w :
  T <= now -> window_inv window T ops w -> window_inv window now ops (expire now window w).
Proof.
  intros HT [Hok Hpushed Hcov]. split.
  - by apply expire_ok.
  - intros s Hs. apply expire_In in Hs. destruct (Hpushed s Hs). split; [done|lia].
  - intros t v Hin Hi. destruct (Hcov t v Hin (inside_earlier window now T t HT Hi)) as (s & Hs & Ht & Hv).
    exists s. split; [|done]. apply expire_keeps; [done|done|]. by apply (inside_mono window now t).
Qed.

Lemma push_ok now v window w T ops :
  T <= now -> window_inv window T ops w -> window_inv window now (ops ++ [WPush now v]) (push now v window w).
Proof.
  intros HT Hinv. apply (expire_inv window T now) in Hinv; [|exact HT]. destruct Hinv as [Hok Hpushed Hcov].
  unfold push. set (w1 := expire now window w) in *.
  destruct (drop_dominated_prefix v w1) as (d & Hd & _). split.
  - assert (Hkept : deque_ok (drop_dominated v w1)).
    { rewrite Hd in Hok. clear -Hok. revert Hok. induction (drop_dominated v w1) as [|a r IH]; [constructor|].
      intros H. inversion H as [|? ? H1 H2]; subst. constructor; [by apply IH|].
      apply List.Forall_app in H2. apply H2. }
    assert (Habove : forall s, In s (drop_dominated v w1) -> sample_before s {| sa_at := now; sa_value := v |}).
    { intros s Hs. split; simpl; [|by apply (drop_dominated_above v w1)].
      apply Hpushed. rewrite Hd. apply in_or_app. by left. }
    clear -Hkept Habove. induction (drop_dominated v w1) as [|a r IH]; [repeat constructor|].
    inversion Hkept as [|? ? H1 H2]; subst. simpl. constructor.
    + apply IH; [exact H1|]. intros s Hs. apply Habove. by right.
    + apply List.Forall_app. split; [exact H2|]. constructor; [|constructor]. apply Habove. by left.
  - intros s [Hs|[<-|[]]]%in_app_or.
    + destruct (Hpushed s) as [H1 H2]; [rewrite Hd; apply in_or_app; by left|]. split; [apply in_or_app; by left|done].
    + split; [apply in_or_app; right; by left|simpl; lia].
  - intros t u [Hin|[[= -> ->]|[]]]%in_app_or Hi.
    + destruct (Hcov t u Hin Hi) as (s & Hs & Ht & Hu). destruct (drop_dominated_all v w1 s Hs) as [Hk|Hle].
      * exists s. split; [apply in_or_app; by left|done].
      * exists {| sa_at := now; sa_value := v |}. simpl. split; [apply in_or_app; right; by left|]. 
        destruct (Hpushed s Hs). lia.
    + exists {| sa_at := t; sa_value := u |}. simpl. split; [apply in_or_app; right; by left|lia].
Qed.

(** Operations at times that never go back, from [T] to [now]. *)
Fixpoint in_time_order (T : Z) (ops : list window_op) (now : Z) : Prop :=
  match ops with
  | [] => T <= now
  | o :: ops' => T <= op_time o /\ in_time_order (op_time o) ops' now
  end.

Lemma in_time_order_le T ops now : in_time_order T ops now -> T <= now.
Proof. revert T. induction ops as [|o ops IH]; intros T; [done|]. intros [H1 H2%IH]. lia. Qed.

Lemma window_run_inv window ops done w T now :
  window_inv window T done w -> in_time_order T ops now ->
  exists T', T' <= now /\ window_inv window T' (done ++ ops) (fold_left (window_step window) ops w).
Proof.
  revert done w T. induction ops as [|o ops IH]; intros done w T Hinv Ht.
  - exists T. rewrite app_nil_r. done.
  - destruct Ht as [HT Ht]. replace (done ++ o :: ops) with ((done ++ [o]) ++ ops) by (by rewrite <- app_assoc).
    cbn [fold_left]. apply (IH _ _ (op_time o)); [|exact Ht]. destruct o as [t v|t c]; cbn [window_step op_time] in *.
    + by apply (push_ok t v window w T).
    + apply (expire_inv window T t) in Hinv; [|exact HT]. destruct Hinv as [H1 H2 H3]. split; [exact H1| |].
      * intros s Hs. destruct (H2 s Hs). split; [apply in_or_app; by left|done].
      * intros u v [Hin|[[=]|[]]]%in_app_or. by apply H3.
Qed.

Lemma window_inv_nil window T : window_inv window T [] [].
Proof. split; [constructor|done|done]. Qed.

(** The first sample of an ordered deque is its largest. *)
Lemma head_max a w s : deque_ok (a :: w) -> In s (a :: w) -> sa_value s <= sa_value a.
Proof.
  intros Hok [<-|Hin]; [lia|]. inversion Hok as [|? ? _ Hall]; subst. rewrite List.Forall_forall in Hall.
  destruct (Hall s Hin). lia.
Qed.

(** A release's peak covers its keep-warm window.  Whatever was sampled
    and asked before, in time order, the peak is at least the current demand
    and every demand sampled inside the window; it is the current demand or
    one that was sampled; and once every sample is older than the window it
    is the current demand. *)
Theorem window_max_covers (window T : Z) (ops : list window_op) (now current : Z) :
  in_time_order T ops now ->
  let peak := (window_max now current window (window_run window ops)).2 in
  current <= peak /\
  (forall t v, In (WPush t v) ops -> inside window now t -> v <= peak) /\
  (peak = current \/ exists t, In (WPush t peak) ops) /\
  ((forall t v, In (WPush t v) ops -> ~ inside window now t) -> peak = current).
Proof.
  intros Hord. destruct (window_run_inv window ops [] [] T now (window_inv_nil window T) Hord) as (T' & HT' & Hinv).
  fold (window_run window ops) in Hinv. cbn [app] in Hinv. pose proof (expire_inv window T' now ops _ HT' Hinv) as [Hok Hpushed Hcov].
  assert (Hempty : (forall t v, In (WPush t v) ops -> ~ inside window now t) -> expire now window (window_run window ops) = []).
  { intros H. apply expire_empties. intros s Hs. apply (H (sa_at s) (sa_value s)). by apply Hinv. }
  unfold window_max. cbn [snd]. destruct (expire now window (window_run window ops)) as [|a w].
  - split_and!; [lia| |by left|done]. intros t v Hin Hi. destruct (Hcov t v Hin Hi) as (s & [] & _).
  - assert (Hv : forall t v, In (WPush t v) ops -> inside window now t -> v <= sa_value a).
    { intros t v Hin Hi. destruct (Hcov t v Hin Hi) as (s & Hs & _ & Hle). pose proof (head_max a w s Hok Hs). lia. }
    destruct (Z.gtb_spec (sa_value a) current) as [Hgt|Hle]; split_and!; try lia.
    + exact Hv.
    + right. exists (sa_at a). by apply Hpushed; left.
    + intros H. discriminate (Hempty H).
    + intros t v Hin Hi. specialize (Hv t v Hin Hi). lia.
Qed.

Lemma window_max_covers_witness :
  let ops := [WPush 0 4; WPush (5 * second) 2; WMax (6 * second) 2; WPush (9 * second) 3] in
  let peak := (window_max (30 * second) 1 (20 * second) (window_run (20 * second) ops)).2 in
  1 <= peak /\
  (forall t v, In (WPush t v) ops -> inside (20 * second) (30 * second) t -> v <= peak) /\
  (peak = 1 \/ exists t, In (WPush t peak) ops) /\
  ((forall t v, In (WPush t v) ops -> ~ inside (20 * second) (30 * second) t) -> peak = 1).
Proof.
  exact (window_max_covers (20 * second) 0 [WPush 0 4; WPush (5 * second) 2; WMax (6 * second) 2; WPush (9 * second) 3]
           (30 * second) 1 ltac:(vm_compute; intuition discriminate)).
Defined.

(** ** A peak that stays

    A sample is dropped when the next sample of the deque is outside the
    window, and a later sample replaces the smaller ones before it with its
    own time.  So while demand goes on below an old peak, the sample after the
    peak is always recent, and the peak is never dropped. *)

(** A burst of ten requests at time 0, then demand that alternates between
    one and two, each for a second. *)
Fixpoint steady_traffic (rounds : nat) : list window_op :=
  match rounds with
  | O => [WPush 0 10; WPush second 1; WPush (2 * second) 2]
  | S k => steady_traffic k ++
           [WPush ((2 * Z.of_nat k + 3) * second) 1; WPush ((2 * Z.of_nat k + 4) * second) 2]
  end.

Lemma time_sub_small now t : 0 <= now - t <= 2 * second -> time_sub now t = now - t.
Proof. unfold time_sub, min_int64, max_int64, second. lia. Qed.

Lemma steady_round window at_ v1 v2 v :
  2 * second <= window -> v2 < v -> v1 < v2 ->
  let w := [{| sa_at := 0; sa_value := v |}; {| sa_at := at_; sa_value := v2 |}] in
  push (at_ + 2 * second) v2 window (push (at_ + second) v1 window w) =
  [{| sa_at := 0; sa_value := v |}; {| sa_at := at_ + 2 * second; sa_value := v2 |}].
Proof.
  intros Hw Hv H1 w. assert (Hs : 0 < second) by (unfold second; lia).
  assert (E1 : push (at_ + second) v1 window w = w ++ [{| sa_at := at_ + second; sa_value := v1 |}]).
  { unfold push, expire, w. rewrite cut_window_two. cbn [sa_at]. rewrite (time_sub_small (at_ + second) at_) by lia.
    destruct (Z.gtb_spec (at_ + second - at_) window); [lia|]. cbn [drop_dominated sa_value].
    destruct (Z.leb_spec v2 v1); [lia|]. reflexivity. }
  rewrite E1. unfold push, expire, w. cbn [app]. rewrite cut_window_two. cbn [sa_at].
  rewrite (time_sub_small (at_ + 2 * second) at_) by lia.
  destruct (Z.gtb_spec (at_ + 2 * second - at_) window); [lia|]. cbn [drop_dominated sa_value].
  destruct (Z.leb_spec v1 v2); [|lia]. destruct (Z.leb_spec v2 v2); [|lia]. destruct (Z.leb_spec v v2); [lia|]. reflexivity.
Qed.

Lemma steady_window window k :
  2 * second <= window ->
  window_run window (steady_traffic k) =
  [{| sa_at := 0; sa_value := 10 |}; {| sa_at := (2 * Z.of_nat k + 2) * second; sa_value := 2 |}].
Proof.
  intros Hw. unfold window_run. induction k as [|k IH].
  - cbn [steady_traffic fold_left window_step]. 
    assert (E : push 0 10 window [] = [{| sa_at := 0; sa_value := 10 |}]) by reflexivity. rewrite E.
    assert (E1 : push second 1 window [{| sa_at := 0; sa_value := 10 |}] =
                 [{| sa_at := 0; sa_value := 10 |}; {| sa_at := second; sa_value := 1 |}]).
    { unfold push, expire. cbn [cut_window sa_at]. rewrite (time_sub_small second 0) by (unfold second; lia).
      destruct (Z.gtb_spec (second - 0) window); [unfold second in *; lia|]. reflexivity. }
    rewrite E1. unfold push, expire. rewrite cut_window_two. cbn [sa_at].
    rewrite (time_sub_small (2 * second) second) by (unfold second; lia).
    destruct (Z.gtb_spec (2 * second - second) window); [unfold second in *; lia|]. reflexivity.
  - cbn [steady_traffic]. rewrite fold_left_app, IH. cbn [fold_left window_step].
    replace ((2 * Z.of_nat k + 3) * second) with ((2 * Z.of_nat k + 2) * second + second) by lia.
    replace ((2 * Z.of_nat k + 4) * second) with ((2 * Z.of_nat k + 2) * second + 2 * second) by lia.
    rewrite (steady_round window ((2 * Z.of_nat k + 2) * second) 1 2 10) by lia.
    replace ((2 * Z.of_nat (S k) + 2) * second) with ((2 * Z.of_nat k + 2) * second + 2 * second) by lia. reflexivity.
Qed.

(** The peak of a burst outlives its window for as long as smaller demand
    goes on: with any keep-warm window of two seconds or more, after a burst
    of ten at time 0 and any number of two-second rounds of one and two
    requests, the peak is still ten, however long ago the burst ended. *)
Theorem window_max_keeps_old_peak (window : Z) (rounds : nat) :
  2 * second <= window ->
  (window_max ((2 * Z.of_nat rounds + 2) * second) 2 window (window_run window (steady_traffic rounds))).2 = 10.
Proof.
  intros Hw. rewrite steady_window by exact Hw. unfold window_max, expire. rewrite cut_window_two. cbn [sa_at].
  rewrite time_sub_small by (unfold second; lia).
  destruct (Z.gtb_spec ((2 * Z.of_nat rounds + 2) * second - (2 * Z.of_nat rounds + 2) * second) window); [unfold second in *; lia|].
  reflexivity.
Qed.

(** Two minutes after the burst, with a keep-warm window of one. *)
Lemma window_max_keeps_old_peak_witness :
  2 * second <= 60 * second /\
  (window_max (122 * second) 2 (60 * second) (window_run (60 * second) (steady_traffic 60))).2 = 10.
Proof. split; [vm_compute; discriminate|]. exact (window_max_keeps_old_peak (60 * second) 60 ltac:(vm_compute; discriminate)). Defined.
