(* ===== verification/Edge.v ===== *)
(** The edge's requests (src/internal/edge/containers.go, load.go and
    watch.go): how a request takes a unit of a container's capacity or waits
    for one, and what every request counts towards.

    Slots and loads are objects the code shares by pointer: a lease keeps its
    slot and its load while the container set is replaced and loads are
    forgotten.  So they live in two heaps, pointers are indices, and the maps
    of the edge hold pointers.  Each operation below is one critical section
    under [e.mu]; the order of [range] over a map is an argument, any
    permutation of it. *)

From S2P Require Import Prelude Calendar EdgeLoad.

(** ** Data *)

Record slot := {
  sl_id : Z;
  sl_release : Z;
  sl_version : Z;
  sl_host : Z;
  sl_inflight : Z;
  sl_avoid : Z
}.

Definition with_inflight (n : Z) (s : slot) : slot :=
  {| sl_id := sl_id s; sl_release := sl_release s; sl_version := sl_version s; sl_host := sl_host s;
     sl_inflight := n; sl_avoid := sl_avoid s |}.

Definition with_avoid (until : Z) (s : slot) : slot :=
  {| sl_id := sl_id s; sl_release := sl_release s; sl_version := sl_version s; sl_host := sl_host s;
     sl_inflight := sl_inflight s; sl_avoid := until |}.

(** [changed] counts how often the channel was closed and replaced. *)
Record workloadState := {
  ws_loaded : bool;
  ws_started : Z;
  ws_applied : Z;
  ws_stale : bool;
  ws_containers : list nat;
  ws_changed : nat
}.

Definition new_workload : workloadState :=
  {| ws_loaded := false; ws_started := 0; ws_applied := 0; ws_stale := false; ws_containers := []; ws_changed := 0 |}.

Record Edge := {
  ed_slots : list slot;
  ed_heap : list releaseLoad;
  ed_workloads : gmap Z workloadState;
  ed_loads : gmap Z nat
}.

Definition with_slots (slots : list slot) (e : Edge) : Edge :=
  {| ed_slots := slots; ed_heap := ed_heap e; ed_workloads := ed_workloads e; ed_loads := ed_loads e |}.
Definition with_heap (heap : list releaseLoad) (e : Edge) : Edge :=
  {| ed_slots := ed_slots e; ed_heap := heap; ed_workloads := ed_workloads e; ed_loads := ed_loads e |}.
Definition with_workloads (w : gmap Z workloadState) (e : Edge) : Edge :=
  {| ed_slots := ed_slots e; ed_heap := ed_heap e; ed_workloads := w; ed_loads := ed_loads e |}.

(** A write through a pointer. *)
Definition at_slot (p : nat) (f : slot -> slot) (e : Edge) : Edge := with_slots (alter f p (ed_slots e)) e.
Definition at_load (p : nat) (f : releaseLoad -> releaseLoad) (e : Edge) : Edge := with_heap (alter f p (ed_heap e)) e.

(** [target], with what the edge reads of its workload and release. *)
Record target := {
  tg_workload : Z;
  tg_release : Z;
  tg_keepWarm : Z;
  tg_maxPending : Z;
  tg_version : option Z;
  tg_latest : bool;
  tg_container : option Z
}.

(** ** The container set *)

(** [stateLocked]. *)
Definition stateLocked (workload : Z) (e : Edge) : Edge :=
  match ed_workloads e !! workload with
  | Some _ => e
  | None => with_workloads (<[workload := new_workload]> (ed_workloads e)) e
  end.

(** [workloadState.wake]. *)
Definition ws_wake (ws : workloadState) : workloadState :=
  {| ws_loaded := ws_loaded ws; ws_started := ws_started ws; ws_applied := ws_applied ws; ws_stale := ws_stale ws;
     ws_containers := ws_containers ws; ws_changed := S (ws_changed ws) |}.

(** The start of [Edge.load]: the read's number. *)
Definition begin_read (ws : workloadState) : workloadState :=
  {| ws_loaded := ws_loaded ws; ws_started := ws_started ws + 1; ws_applied := ws_applied ws; ws_stale := ws_stale ws;
     ws_containers := ws_containers ws; ws_changed := ws_changed ws |}.

Definition load_begin (workload : Z) (e : Edge) : Edge :=
  let e' := stateLocked workload e in
  with_workloads (alter begin_read workload (ed_workloads e')) e'.

(** [execution.EndpointContainer]. *)
Record EndpointContainer := {
  ec_Container : Z;
  ec_Release : Z;
  ec_Version : Z;
  ec_Host : Z
}.

Definition new_slot (row : EndpointContainer) : slot :=
  {| sl_id := ec_Container row; sl_release := ec_Release row; sl_version := ec_Version row; sl_host := ec_Host row;
     sl_inflight := 0; sl_avoid := 0 |}.

(** [ws.containers[id]]. *)
Definition find_slot (slots : list slot) (set : list nat) (id : Z) : option nat :=
  List.find (fun p => match slots !! p with Some s => sl_id s =? id | None => false end) set.

(** The loop of [applyLocked]: a container still present keeps its slot, a
    new one gets a new slot. *)
Definition apply_row (old : list nat) (st : list slot * list nat) (row : EndpointContainer) : list slot * list nat :=
  let '(slots, next) := st in
  match find_slot slots old (ec_Container row) with
  | Some p => (alter (with_avoid 0) p slots, next ++ [p])
  | None => (slots ++ [new_slot row], next ++ [length slots])
  end.

Definition applyLocked (workload read : Z) (rows : list EndpointContainer) (e : Edge) : Edge :=
  match ed_workloads e !! workload with
  | None => e
  | Some ws =>
      if read <? ws_applied ws then e
      else
        let '(slots, next) := fold_left (apply_row (ws_containers ws)) rows (ed_slots e, []) in
        let ws' := {| ws_loaded := true; ws_started := ws_started ws; ws_applied := read; ws_stale := false;
                      ws_containers := next; ws_changed := ws_changed ws |} in
        with_workloads (<[workload := ws_wake ws']> (ed_workloads e)) (with_slots slots e)
  end.

(** [markChanged] when the refresh queue is full. *)
Definition mark_stale (workload : Z) (e : Edge) : Edge :=
  with_workloads (alter (fun ws => ws_wake
    {| ws_loaded := ws_loaded ws; ws_started := ws_started ws; ws_applied := ws_applied ws; ws_stale := true;
       ws_containers := ws_containers ws; ws_changed := ws_changed ws |}) workload (ed_workloads e)) e.

(** ** Choosing a container *)

(** [capacityLocked]: a release dropped from the cache counts as one. *)
Definition capacityLocked (capacity : Z -> Z) (cached : Z -> bool) (s : slot) : Z :=
  if cached (sl_release s) then capacity (sl_release s) else 1.

Section Pick.
Context (capacity : Z -> Z) (cached : Z -> bool) (now : Z) (slots : list slot).

(** The loop of [candidates] in [pickLocked]: the best slot so far with its
    free capacity, and whether any matched. *)
Definition candidate_step (accept : slot -> bool) (st : option (nat * Z) * bool) (p : nat) : option (nat * Z) * bool :=
  let '(best, found) := st in
  match slots !! p with
  | None => st
  | Some s =>
      if negb (accept s) then st
      else if now <? sl_avoid s then (best, true)
      else
        let free := capacityLocked capacity cached s - sl_inflight s in
        if (free >? 0) && match best with None => true | Some (_, b) => free >? b end
        then (Some (p, free), true)
        else (best, true)
  end.

Definition candidates (accept : slot -> bool) (order : list nat) : option nat * bool :=
  let '(best, found) := fold_left (candidate_step accept) order (None, false) in (option_map fst best, found).

(** The newest version older than [active] among the containers, or 0. *)
Definition newest_version (active : Z) (order : list nat) : Z :=
  fold_left (fun newest p => match slots !! p with
                             | Some s => if (sl_version s >? newest) && (sl_version s <? active) then sl_version s else newest
                             | None => newest
                             end) order 0.

Definition pickLocked (t : target) (order : list nat) : option nat * bool :=
  match tg_container t with
  | Some id => candidates (fun s => sl_id s =? id) order
  | None =>
      let '(best, found) := candidates (fun s => sl_release s =? tg_release t) order in
      if found || negb (tg_latest t) then (best, found)
      else
        match tg_version t with
        | None => (None, false)
        | Some active =>
            let newest := newest_version active order in
            if newest =? 0 then (None, false) else candidates (fun s => sl_version s =? newest) order
        end
  end.
End Pick.

(** ** A request *)

(** [demandLocked]. *)
Definition demandLocked (t : target) (e : Edge) : Edge * nat :=
  match ed_loads e !! tg_release t with
  | Some p => (e, p)
  | None =>
      let p := length (ed_heap e) in
      ({| ed_slots := ed_slots e; ed_heap := ed_heap e ++ [new_load (tg_release t) (tg_keepWarm t)];
          ed_workloads := ed_workloads e; ed_loads := <[tg_release t := p]> (ed_loads e) |}, p)
  end.

(** What one iteration of [acquire] comes to: a lease of a slot, counted in a
    load; a wait, counted in a load; or a refusal. *)
Inductive acquired :=
| Leased (slot_ load_ : nat)
| Waits (load_ : nat) (any : bool)
| TooManyWait
| Reload.

Definition add_waiting (d : Z) (l : releaseLoad) : releaseLoad := with_counts (rl_inFlight l) (rl_waiting l + d) l.
Definition add_inFlight (d : Z) (l : releaseLoad) : releaseLoad := with_counts (rl_inFlight l + d) (rl_waiting l) l.

(** The locked part of one iteration of [acquire]'s loop.  [waiting] is the
    load the request already waits in, if it does. *)
Definition acquire_step (capacity : Z -> Z) (cached : Z -> bool) (failureCheck now : Z) (order : list nat)
    (t : target) (waiting : option nat) (e : Edge) : Edge * acquired :=
  match ed_workloads e !! tg_workload t with
  | None => (e, Reload)
  | Some ws =>
      if ws_stale ws then (e, Reload)
      else
        let '(e1, p) := match waiting with Some p => (e, p) | None => demandLocked t e end in
        match pickLocked capacity cached now (ed_slots e1) t order with
        | (Some s, _) =>
            let e2 := at_slot s (fun x => with_inflight (sl_inflight x + 1) x) e1 in
            let leave := fun l => if waiting is Some _ then add_waiting (-1) l else l in
            (at_load p (fun l => sample now (add_inFlight 1 (leave l))) e2, Leased s p)
        | (None, any) =>
            let full := match ed_heap e1 !! p with Some l => rl_waiting l >=? tg_maxPending t | None => true end in
            match waiting with
            | None =>
                if full then (e1, TooManyWait)
                else
                  let e2 := at_load p (fun l => sample now (add_waiting 1 l)) e1 in
                  (if any then e2 else at_load p (fun l => (failureCheckIn now failureCheck l).1) e2, Waits p any)
            | Some _ =>
                (if any then e1 else at_load p (fun l => (failureCheckIn now failureCheck l).1) e1, Waits p any)
            end
        end
  end.

(** The deferred end of a wait. *)
Definition end_wait (now : Z) (p : nat) (e : Edge) : Edge :=
  at_load p (fun l => sample now (add_waiting (-1) l)) e.

(** [lease.end] of a lease that has not ended. *)
Definition end_lease (now workload : Z) (s p : nat) (e : Edge) : Edge :=
  let e1 := at_slot s (fun x => with_inflight (sl_inflight x - 1) x) e in
  let e2 := at_load p (fun l => with_served (rl_served l + 1) (sample now (add_inFlight (-1) l))) e1 in
  with_workloads (alter ws_wake workload (ed_workloads e2)) e2.

(** The first part of [lease.refused]. *)
Definition avoidFor : Z := 200000000.
Definition avoid_slot (now : Z) (s : nat) (e : Edge) : Edge := at_slot s (with_avoid (now + avoidFor)) e.

(** [overPending]. *)
Definition overPending (t : target) (e : Edge) : bool :=
  match ed_loads e !! tg_release t with
  | Some p => match ed_heap e !! p with Some l => rl_waiting l >=? tg_maxPending t | None => false end
  | None => false
  end.

(** ** Publication *)

(** [kick]. *)
Definition kick (release : Z) (e : Edge) : Edge :=
  match ed_loads e !! release with
  | Some p => at_load p (with_wake true) e
  | None => e
  end.

(** One iteration of [collectLoads]'s loop. *)
Definition collect_step (now : Z) (st : Edge * list EndpointLoad * list Z) (release : Z) : Edge * list EndpointLoad * list Z :=
  let '(e, loads, wake) := st in
  match ed_loads e !! release with
  | None => st
  | Some p =>
      match ed_heap e !! p with
      | None => st
      | Some l =>
          match collect_load now l with
          | (None, _, _) =>
              ({| ed_slots := ed_slots e;
                  ed_heap := alter (with_window (window_max now (rl_inFlight l + rl_waiting l) (rl_keepWarm l) (rl_window l)).1) p (ed_heap e);
                  ed_workloads := ed_workloads e; ed_loads := delete release (ed_loads e) |}, loads, wake)
          | (Some l', pub, w) =>
              (at_load p (fun _ => l') e, loads ++ option_list pub, if w : bool then wake ++ [release] else wake)
          end
      end
  end.

Definition collectLoads (now : Z) (order : list Z) (e : Edge) : Edge * list EndpointLoad * list Z :=
  fold_left (collect_step now) order (e, [], []).

(** [publishLoads] after a failed publication: every load of the edge. *)
Definition publication_failed (order : list Z) (e : Edge) : Edge :=
  fold_left (fun e r => match ed_loads e !! r with Some p => at_load p publish_failed e | None => e end) order e.

(** [forgetReplacedWindows] for one replaced release. *)
Definition forget_window (release : Z) (e : Edge) : Edge :=
  match ed_loads e !! release with
  | Some p => at_load p (with_window []) e
  | None => e
  end.
