(* ===== verification/EdgeProps.v ===== *)
(** The edge under any interleaving of its requests: every request waiting or
    in flight is counted once, in the load planning reads for its release, no
    container holds more requests than its capacity, and no release has more
    than [max_pending] waiting. *)

From S2P Require Import Prelude Calendar EdgeLoad Edge.

(** ** The system *)

(** A request between two critical sections: waiting, counted in a load;
    holding a slot, counted in a load; or over. *)
Inductive request :=
| Waiting (t : target) (load_ : nat)
| Holding (t : target) (slot_ load_ : nat)
| Over.

Record system := {
  sy_edge : Edge;
  sy_requests : list request
}.

Definition holds_slot (p : nat) (r : request) : bool := if r is Holding _ s _ then Nat.eqb s p else false.
Definition holds_load (p : nat) (r : request) : bool := if r is Holding _ _ l then Nat.eqb l p else false.
Definition waits_load (p : nat) (r : request) : bool := if r is Waiting _ l then Nat.eqb l p else false.

Definition count (f : request -> bool) (l : list request) : Z := Z.of_nat (length (List.filter f l)).

(** The request an iteration of [acquire] leaves. *)
Definition after_acquire (t : target) (a : acquired) : option request :=
  match a with
  | Leased s p => Some (Holding t s p)
  | Waits p _ => Some (Waiting t p)
  | TooManyWait | Reload => None
  end.

Section System.
(** What a release's settings say: the requests one container admits, at
    least one, and [max_pending]. *)
Context (capacity maxPending : Z -> Z).

Definition wf_target (t : target) : Prop := tg_maxPending t = maxPending (tg_release t).

(** The steps of the edge: each one critical section of one goroutine. *)
Inductive edge_step : system -> system -> Prop :=
| st_arrive cached check now order t e reqs e' a :
    wf_target t ->
    acquire_step capacity cached check now order t None e = (e', a) ->
    (forall ws, ed_workloads e !! tg_workload t = Some ws -> order ≡ₚ ws_containers ws) ->
    edge_step {| sy_edge := e; sy_requests := reqs |}
              {| sy_edge := e'; sy_requests := reqs ++ option_list (after_acquire t a) |}
| st_retry cached check now order t p i e reqs e' a :
    reqs !! i = Some (Waiting t p) ->
    acquire_step capacity cached check now order t (Some p) e = (e', a) ->
    (forall ws, ed_workloads e !! tg_workload t = Some ws -> order ≡ₚ ws_containers ws) ->
    edge_step {| sy_edge := e; sy_requests := reqs |}
              {| sy_edge := e'; sy_requests := <[i := default (Waiting t p) (after_acquire t a)]> reqs |}
| st_give_up now t p i e reqs :
    reqs !! i = Some (Waiting t p) ->
    edge_step {| sy_edge := e; sy_requests := reqs |}
              {| sy_edge := end_wait now p e; sy_requests := <[i := Over]> reqs |}
| st_end now t s p i e reqs :
    reqs !! i = Some (Holding t s p) ->
    edge_step {| sy_edge := e; sy_requests := reqs |}
              {| sy_edge := end_lease now (tg_workload t) s p e; sy_requests := <[i := Over]> reqs |}
| st_avoid now t s p i e reqs :
    reqs !! i = Some (Holding t s p) ->
    edge_step {| sy_edge := e; sy_requests := reqs |} {| sy_edge := avoid_slot now s e; sy_requests := reqs |}
| st_load_begin workload e reqs :
    edge_step {| sy_edge := e; sy_requests := reqs |} {| sy_edge := load_begin workload e; sy_requests := reqs |}
| st_apply workload read rows e reqs :
    edge_step {| sy_edge := e; sy_requests := reqs |} {| sy_edge := applyLocked workload read rows e; sy_requests := reqs |}
| st_stale workload e reqs :
    edge_step {| sy_edge := e; sy_requests := reqs |} {| sy_edge := mark_stale workload e; sy_requests := reqs |}
| st_kick release e reqs :
    edge_step {| sy_edge := e; sy_requests := reqs |} {| sy_edge := kick release e; sy_requests := reqs |}
| st_collect now order e reqs e' loads wake :
    collectLoads now order e = (e', loads, wake) ->
    edge_step {| sy_edge := e; sy_requests := reqs |} {| sy_edge := e'; sy_requests := reqs |}
| st_publish_failed order e reqs :
    edge_step {| sy_edge := e; sy_requests := reqs |} {| sy_edge := publication_failed order e; sy_requests := reqs |}
| st_forget release e reqs :
    edge_step {| sy_edge := e; sy_requests := reqs |} {| sy_edge := forget_window release e; sy_requests := reqs |}.

Definition empty_edge : Edge := {| ed_slots := []; ed_heap := []; ed_workloads := ∅; ed_loads := ∅ |}.

Inductive edge_reachable : system -> Prop :=
| er_start : edge_reachable {| sy_edge := empty_edge; sy_requests := [] |}
| er_step s s' : edge_reachable s -> edge_step s s' -> edge_reachable s'.

(** ** The invariant *)

(** The load planning reads for a release, through the map. *)
Definition tracked (e : Edge) (release : Z) (p : nat) : Prop :=
  ed_loads e !! release = Some p /\ exists l, ed_heap e !! p = Some l /\ rl_release l = release.

Definition request_ok (e : Edge) (r : request) : Prop :=
  match r with
  | Waiting t p => wf_target t /\ tracked e (tg_release t) p
  | Holding t s p => tracked e (tg_release t) p /\ (s < length (ed_slots e))%nat
  | Over => True
  end.

Record edge_inv (e : Edge) (reqs : list request) : Prop := {
  inv_slot : forall p s, ed_slots e !! p = Some s ->
    sl_inflight s = count (holds_slot p) reqs /\ sl_inflight s <= capacity (sl_release s);
  inv_load : forall p l, ed_heap e !! p = Some l ->
    rl_inFlight l = count (holds_load p) reqs /\ rl_waiting l = count (waits_load p) reqs /\
    rl_waiting l <= maxPending (rl_release l);
  inv_map : forall r p, ed_loads e !! r = Some p -> exists l, ed_heap e !! p = Some l /\ rl_release l = r;
  inv_requests : Forall (request_ok e) reqs
}.

(** ** Counting *)

Definition b2z (b : bool) : Z := if b then 1 else 0.

Lemma count_app f l k : count f (l ++ k) = count f l + count f k.
Proof. unfold count. rewrite List.filter_app, length_app. lia. Qed.

Lemma count_one f r : count f [r] = b2z (f r).
Proof. unfold count. simpl. by destruct (f r). Qed.

Lemma count_insert f l i r old :
  l !! i = Some old -> count f (<[i := r]> l) = count f l - b2z (f old) + b2z (f r).
Proof.
  revert i. induction l as [|x l IH]; intros [|i] H; try done; unfold count in *; simpl in *.
  - injection H as ->. destruct (f old), (f r); simpl; lia.
  - specialize (IH i H). destruct (f x); simpl length; lia.
Qed.

Lemma count_zero f l : (forall r, In r l -> f r = false) -> count f l = 0.
Proof.
  intros H. unfold count. induction l as [|x l IH]; [done|]. simpl. rewrite (H x) by (by left).
  apply IH. intros r Hr. apply H. by right.
Qed.

Lemma count_zero_inv f l r : count f l = 0 -> In r l -> f r = false.
Proof.
  unfold count. intros H Hin. destruct (f r) eqn:E; [|done].
  assert (Hf : In r (List.filter f l)) by (apply filter_In; done).
  destruct (List.filter f l); [done|simpl in H; lia].
Qed.

(** ** Changes to the heaps *)

Lemma alter_lookup {A} (f : A -> A) i (l : list A) j :
  alter f i l !! j = if decide (i = j) then f <$> l !! j else l !! j.
Proof. destruct (decide (i = j)) as [->|H]; [apply list_lookup_alter_eq | by apply list_lookup_alter_ne]. Qed.

Definition delta (p q : nat) (d : Z) : Z := if decide (p = q) then d else 0.

(** Slots whose releases stay, and whose counts stay but for [ds] more at
    [sp]; slots may be added, with no requests. *)
Record slots_step (sp : nat) (ds : Z) (slots slots' : list slot) : Prop := {
  ss_old : forall q s', slots' !! q = Some s' ->
    (exists s, slots !! q = Some s /\ sl_release s' = sl_release s /\ sl_inflight s' = sl_inflight s + delta sp q ds) \/
    ((length slots <= q)%nat /\ sl_inflight s' = 0);
  ss_length : (length slots <= length slots')%nat
}.

(** Loads whose releases stay, and whose counts stay but for [di] in flight
    and [dw] waiting at [p]. *)
Record loads_step (p : nat) (di dw : Z) (heap heap' : list releaseLoad) : Prop := {
  ls_counts : forall q l', heap' !! q = Some l' -> exists l, heap !! q = Some l /\ rl_release l' = rl_release l /\
    rl_inFlight l' = rl_inFlight l + delta p q di /\ rl_waiting l' = rl_waiting l + delta p q dw;
  ls_kept : forall q l, heap !! q = Some l -> exists l', heap' !! q = Some l' /\ rl_release l' = rl_release l
}.

Lemma slots_step_refl sp slots : slots_step sp 0 slots slots.
Proof. split; [|done]. intros q s' H. left. exists s'. unfold delta. destruct (decide _); split_and!; auto; lia. Qed.

Lemma slots_step_alter sp ds f slots :
  (forall s, sl_release (f s) = sl_release s /\ sl_inflight (f s) = sl_inflight s + ds) ->
  slots_step sp ds slots (alter f sp slots).
Proof.
  intros Hf. split; [|by rewrite length_alter]. intros q s'. rewrite alter_lookup. unfold delta.
  destruct (decide (sp = q)) as [->|Hne]; intros H; left.
  - destruct (slots !! q) as [s|]; [|done]. injection H as <-. exists s. split; [done|]. apply Hf.
  - exists s'. split_and!; [done|done|lia].
Qed.

Lemma loads_step_refl p heap : loads_step p 0 0 heap heap.
Proof.
  split; [|eauto]. intros q l H. exists l. unfold delta. destruct (decide _); split_and!; auto; lia.
Qed.

Lemma loads_step_alter p di dw f heap :
  (forall l, rl_release (f l) = rl_release l /\ rl_inFlight (f l) = rl_inFlight l + di /\ rl_waiting (f l) = rl_waiting l + dw) ->
  loads_step p di dw heap (alter f p heap).
Proof.
  intros Hf. split.
  - intros q l'. rewrite alter_lookup. unfold delta. destruct (decide (p = q)) as [->|Hne]; intros H.
    + destruct (heap !! q) as [l|]; [|done]. injection H as <-. exists l. split; [done|]. apply Hf.
    + exists l'. split_and!; [done|done|lia|lia].
  - intros q l H. rewrite alter_lookup, H. destruct (decide (p = q)); [|eauto]. exists (f l). split; [done|]. apply Hf.
Qed.

Lemma loads_step_trans p di dw heap heap1 heap2 :
  loads_step p di dw heap heap1 -> loads_step p 0 0 heap1 heap2 -> loads_step p di dw heap heap2.
Proof.
  intros [H1 K1] [H2 K2]. split.
  - intros q l2 Hq. destruct (H2 q l2 Hq) as (l1 & Hq1 & R1 & I1 & W1). destruct (H1 q l1 Hq1) as (l & Hl & R & I & W).
    exists l. unfold delta in *. destruct (decide (p = q)); split_and!; try done; try congruence; lia.
  - intros q l Hq. destruct (K1 q l Hq) as (l1 & Hq1 & R1). destruct (K2 q l1 Hq1) as (l2 & Hq2 & R2).
    exists l2. split; [done|congruence].
Qed.

(** Fields that are not counts. *)
Definition same_counts (f : releaseLoad -> releaseLoad) : Prop :=
  forall l, rl_release (f l) = rl_release l /\ rl_inFlight (f l) = rl_inFlight l /\ rl_waiting (f l) = rl_waiting l.

Lemma loads_step_frame p q f heap : same_counts f -> loads_step p 0 0 heap (alter f q heap).
Proof.
  intros Hf. assert (Hf' : forall l, rl_release (f l) = rl_release l /\ rl_inFlight (f l) = rl_inFlight l + 0 /\ rl_waiting (f l) = rl_waiting l + 0)
    by (intros l; destruct (Hf l) as (? & ? & ?); split_and!; lia).
  destruct (loads_step_alter q 0 0 f heap Hf') as [H K]. split; [|exact K]. intros r l Hl.
  destruct (H r l Hl) as (l0 & ? & ? & ? & ?). exists l0. unfold delta in *.
  destruct (decide (p = r)), (decide (q = r)); split_and!; auto; lia.
Qed.

(** ** Preservation *)

Lemma request_ok_step e e' p di dw r :
  loads_step p di dw (ed_heap e) (ed_heap e') -> (length (ed_slots e) <= length (ed_slots e'))%nat ->
  ed_loads e' = ed_loads e -> request_ok e r -> request_ok e' r.
Proof.
  intros Hl Hs Hm. assert (Ht : forall rel q, tracked e rel q -> tracked e' rel q).
  { intros rel q [H1 (l & H2 & H3)]. split; [by rewrite Hm|]. destruct (ls_kept _ _ _ _ _ Hl q l H2) as (l' & H4 & H5).
    exists l'. split; [done|congruence]. }
  destruct r as [t q|t s q|]; simpl; [|intros [H1 H2]; split; [by apply Ht|lia]|done]. intros [H1 H2]. split; [done|by apply Ht].
Qed.

(** A step that changes counts at one load and one slot as it changes the
    requests. *)
Lemma inv_change e reqs e' reqs' p di dw sp ds :
  (forall r, 1 <= capacity r) ->
  edge_inv e reqs -> loads_step p di dw (ed_heap e) (ed_heap e') -> slots_step sp ds (ed_slots e) (ed_slots e') ->
  ed_loads e' = ed_loads e ->
  (forall q, count (holds_load q) reqs' = count (holds_load q) reqs + delta p q di) ->
  (forall q, count (waits_load q) reqs' = count (waits_load q) reqs + delta p q dw) ->
  (forall q, count (holds_slot q) reqs' = count (holds_slot q) reqs + delta sp q ds) ->
  (forall l, ed_heap e !! p = Some l -> rl_waiting l + dw <= maxPending (rl_release l)) ->
  (forall s, ed_slots e !! sp = Some s -> sl_inflight s + ds <= capacity (sl_release s)) ->
  (ds = 0 \/ (sp < length (ed_slots e))%nat) ->
  Forall (request_ok e) reqs' -> edge_inv e' reqs'.
Proof.
  intros Hcap [Islot Iload Imap Ireq] HL HS Hm Hhl Hwl Hhs Hmax Hfits Hsp Hreq. split.
  - intros q s' Hq. destruct (ss_old _ _ _ _ HS q s' Hq) as [(s & Hs & Hr & Hi)|[Hge Hzero]].
    + destruct (Islot q s Hs) as [Hc Hle]. rewrite Hhs, Hi, Hr, Hc. split; [done|]. rewrite <- Hc.
      unfold delta. destruct (decide (sp = q)) as [->|]; [by apply Hfits|lia].
    + rewrite Hzero, Hhs. split; [|specialize (Hcap (sl_release s')); lia].
      rewrite (count_zero (holds_slot q) reqs).
      * unfold delta. destruct (decide (sp = q)) as [->|]; [destruct Hsp; lia|lia].
      * intros r Hr. rewrite List.Forall_forall in Ireq. specialize (Ireq r Hr). destruct r; [done| |done].
        destruct Ireq as [_ Hlt]. simpl. apply Nat.eqb_neq. lia.
  - intros q l' Hq. destruct (ls_counts _ _ _ _ _ HL q l' Hq) as (l & Hl & Hr & Hi & Hw).
    destruct (Iload q l Hl) as (Ci & Cw & Hle). rewrite Hhl, Hwl, Hi, Hw, Hr, Ci, Cw. split_and!; [done|done|].
    rewrite <- Cw. unfold delta. destruct (decide (p = q)) as [->|]; [by apply Hmax|lia].
  - intros r q Hq. rewrite Hm in Hq. destruct (Imap r q Hq) as (l & Hl & Hr).
    destruct (ls_kept _ _ _ _ _ HL q l Hl) as (l' & Hl' & Hr'). exists l'. split; [done|congruence].
  - apply (List.Forall_impl _ (P := request_ok e)); [|exact Hreq]. intros r.
    apply (request_ok_step e e' p di dw r HL); [apply HS|exact Hm].
Qed.

Lemma delta_zero p q : delta p q 0 = 0.
Proof. unfold delta. by destruct (decide _). Qed.

(** A step that changes no counts and no requests. *)
Lemma inv_frame e e' reqs p sp :
  (forall r, 1 <= capacity r) ->
  edge_inv e reqs -> loads_step p 0 0 (ed_heap e) (ed_heap e') -> slots_step sp 0 (ed_slots e) (ed_slots e') ->
  ed_loads e' = ed_loads e -> edge_inv e' reqs.
Proof.
  intros Hcap Hinv HL HS Hm. apply (inv_change e reqs e' reqs p 0 0 sp 0); auto; try (intros; rewrite delta_zero; lia).
  - intros l Hl. destruct (inv_load e reqs Hinv p l Hl) as (_ & _ & ?). lia.
  - intros s Hs. destruct (inv_slot e reqs Hinv sp s Hs). lia.
  - apply Hinv.
Qed.

(** ** The parts of a step *)

Context (Hcap : forall r, 1 <= capacity r) (Hmax : forall r, 0 <= maxPending r).

Lemma inv_held e reqs r p : edge_inv e reqs -> In r reqs -> holds_load p r = true \/ waits_load p r = true -> (p < length (ed_heap e))%nat.
Proof.
  intros Hinv Hin H. pose proof (inv_requests e reqs Hinv) as Hr. rewrite List.Forall_forall in Hr. specialize (Hr r Hin).
  destruct r as [t q|t s q|]; simpl in H; [| |destruct H; discriminate].
  - destruct H as [?|H]; [done|]. apply Nat.eqb_eq in H as ->. destruct Hr as [_ [_ (l & Hl & _)]]. by apply lookup_lt_Some in Hl.
  - destruct H as [H|?]; [|done]. apply Nat.eqb_eq in H as ->. destruct Hr as [[_ (l & Hl & _)] _]. by apply lookup_lt_Some in Hl.
Qed.

Lemma demandLocked_inv e reqs t e1 p :
  edge_inv e reqs -> demandLocked t e = (e1, p) ->
  edge_inv e1 reqs /\ tracked e1 (tg_release t) p /\ ed_slots e1 = ed_slots e.
Proof.
  intros Hinv. unfold demandLocked. destruct (ed_loads e !! tg_release t) as [q|] eqn:E; intros [= <- <-].
  { split_and!; [exact Hinv| |done]. split; [done|]. by apply (inv_map e reqs Hinv). }
  assert (Hnew : (ed_heap e ++ [new_load (tg_release t) (tg_keepWarm t)]) !! length (ed_heap e) = Some (new_load (tg_release t) (tg_keepWarm t)))
    by (rewrite lookup_app_r, Nat.sub_diag by lia; done).
  split_and!; [|split; simpl; [by rewrite lookup_insert_eq|by eexists]|done].
  split; simpl.
  - apply Hinv.
  - intros q l Hq. destruct (decide (q < length (ed_heap e))%nat) as [Hlt|Hge].
    + rewrite lookup_app_l in Hq by done. by apply (inv_load e reqs Hinv).
    + assert (q = length (ed_heap e)) as ->.
      { apply lookup_lt_Some in Hq. rewrite length_app in Hq. simpl in Hq. lia. }
      rewrite Hnew in Hq. injection Hq as <-. simpl. rewrite !count_zero; [split_and!; [done|done|apply Hmax]| |].
      all: intros r Hr; apply not_true_is_false; intros Hh;
        pose proof (inv_held e reqs r (length (ed_heap e)) Hinv Hr ltac:(auto)); lia.
  - intros r q Hq. apply lookup_insert_Some in Hq as [[<- <-]|[_ Hq]]; [by eexists|].
    destruct (inv_map e reqs Hinv r q Hq) as (l & Hl & Hr). exists l. split; [|done]. rewrite lookup_app_l; [done|].
    by apply lookup_lt_Some in Hl.
  - apply (List.Forall_impl _ (P := request_ok e)); [|apply Hinv]. intros r.
    assert (Ht : forall rel q, tracked e rel q -> tracked
      {| ed_slots := ed_slots e; ed_heap := ed_heap e ++ [new_load (tg_release t) (tg_keepWarm t)];
         ed_workloads := ed_workloads e; ed_loads := <[tg_release t := length (ed_heap e)]> (ed_loads e) |} rel q).
    { intros rel q [H1 (l & H2 & H3)]. split; simpl.
      - rewrite lookup_insert_ne; [done|]. intros Heq. rewrite Heq in E. congruence.
      - exists l. split; [|done]. rewrite lookup_app_l; [done|]. by apply lookup_lt_Some in H2. }
    destruct r as [t' q|t' s' q|]; simpl; [intros [? ?]; auto|intros [? ?]; auto|done].
Qed.

(** The best candidate so far has room. *)
Definition roomy (cached : Z -> bool) (slots : list slot) (accept : slot -> bool) (seen : list nat) (best : option (nat * Z)) : Prop :=
  match best with
  | None => True
  | Some (p, free) => exists s, slots !! p = Some s /\ In p seen /\ accept s = true /\
      free = capacityLocked capacity cached s - sl_inflight s /\ 0 < free
  end.

Lemma roomy_more cached slots accept seen p best :
  roomy cached slots accept seen best -> roomy cached slots accept (seen ++ [p]) best.
Proof.
  destruct best as [[q free]|]; [|done]. intros (s & ? & ? & ?). exists s. split_and!; try tauto. apply in_or_app. by left.
Qed.

Lemma candidates_Some cached now slots accept order p any :
  candidates capacity cached now slots accept order = (Some p, any) ->
  exists s, slots !! p = Some s /\ In p order /\ accept s = true /\ sl_inflight s < capacityLocked capacity cached s.
Proof.
  unfold candidates.
  assert (H : roomy cached slots accept order (fold_left (candidate_step capacity cached now slots accept) order (None, false)).1).
  { apply (fold_left_prefix (fun seen st => roomy cached slots accept seen st.1)); [done|].
    intros seen q post [best found] _ IH. apply (roomy_more _ _ _ _ q) in IH. unfold candidate_step. simpl in IH.
    destruct (slots !! q) as [s|] eqn:Es; [|exact IH]. destruct (accept s) eqn:Ea; [|exact IH]. cbn [negb].
    destruct (now <? sl_avoid s); [exact IH|]. destruct (_ && _) eqn:Ef; [|exact IH].
    apply andb_true_iff in Ef as [Ef _]. rewrite Z.gtb_ltb, Z.ltb_lt in Ef. exists s. split_and!; try done.
    apply in_or_app. right. by left. }
  destruct (fold_left _ _ _) as [[[q free]|] found]; simpl in *; [|done]. intros [= -> _].
  destruct H as (s & ? & ? & ? & ? & ?). exists s. split_and!; try done. lia.
Qed.

Lemma pickLocked_Some cached now slots t order p any :
  pickLocked capacity cached now slots t order = (Some p, any) ->
  exists s, slots !! p = Some s /\ In p order /\ sl_inflight s < capacity (sl_release s).
Proof.
  assert (Hc : forall accept, candidates capacity cached now slots accept order = (Some p, any) ->
            exists s, slots !! p = Some s /\ In p order /\ sl_inflight s < capacity (sl_release s)).
  { intros accept H. apply candidates_Some in H as (s & ? & ? & ? & Hlt). exists s. split_and!; try done.
    unfold capacityLocked in Hlt. specialize (Hcap (sl_release s)). destruct (cached _); lia. }
  unfold pickLocked. destruct (tg_container t); [apply Hc|].
  destruct (candidates _ _ _ _ _ order) as [best found] eqn:E. destruct (found || _).
  - intros [= -> ->]. by apply (Hc _ E).
  - destruct (tg_version t); [|done]. destruct (_ =? 0); [done|apply Hc].
Qed.

Lemma sample_counts now l : rl_release (sample now l) = rl_release l /\ rl_inFlight (sample now l) = rl_inFlight l /\ rl_waiting (sample now l) = rl_waiting l.
Proof. done. Qed.

Lemma failureCheckIn_counts now interval : same_counts (fun l => (failureCheckIn now interval l).1).
Proof. intros l. unfold failureCheckIn. by destruct (_ >? 0). Qed.

(** Replacing a request: what it adds to each count. *)
Lemma insert_counts reqs i old r p q sp di dw ds :
  reqs !! i = Some old ->
  (b2z (holds_load q r) - b2z (holds_load q old) = delta p q di) ->
  (b2z (waits_load q r) - b2z (waits_load q old) = delta p q dw) ->
  (b2z (holds_slot q r) - b2z (holds_slot q old) = delta sp q ds) ->
  count (holds_load q) (<[i := r]> reqs) = count (holds_load q) reqs + delta p q di /\
  count (waits_load q) (<[i := r]> reqs) = count (waits_load q) reqs + delta p q dw /\
  count (holds_slot q) (<[i := r]> reqs) = count (holds_slot q) reqs + delta sp q ds.
Proof. intros Hi H1 H2 H3. rewrite !(count_insert _ _ _ _ _ Hi). lia. Qed.

Lemma b2z_eqb p q d : delta p q d = d * b2z (Nat.eqb p q).
Proof. unfold delta. destruct (decide (p = q)) as [->|H]; [rewrite Nat.eqb_refl | rewrite (proj2 (Nat.eqb_neq p q) H)]; simpl; lia. Qed.

Lemma Forall_insert_ok {A} (P : A -> Prop) (l : list A) i x : Forall P l -> P x -> Forall P (<[i := x]> l).
Proof. intros H Hx. by apply Forall_insert. Qed.

(** What an iteration of [acquire] does once it has its load. *)
Lemma acquire_step_parts cached check now order t waiting e e' a :
  acquire_step capacity cached check now order t waiting e = (e', a) ->
  (e' = e /\ a = Reload) \/
  exists e1 p, (match waiting with Some p => (e, p) | None => demandLocked t e end) = (e1, p) /\
    ed_loads e' = ed_loads e1 /\
    match a with
    | Leased s q => q = p /\
        (exists x, ed_slots e1 !! s = Some x /\ sl_inflight x < capacity (sl_release x)) /\
        slots_step s 1 (ed_slots e1) (ed_slots e') /\
        loads_step p 1 (if waiting is Some _ then -1 else 0) (ed_heap e1) (ed_heap e')
    | Waits q _ => q = p /\ ed_slots e' = ed_slots e1 /\
        loads_step p 0 (if waiting is Some _ then 0 else 1) (ed_heap e1) (ed_heap e') /\
        (waiting = None -> exists l, ed_heap e1 !! p = Some l /\ rl_waiting l < tg_maxPending t)
    | TooManyWait => waiting = None /\ e' = e1
    | Reload => False
    end.
Proof.
  unfold acquire_step. destruct (ed_workloads e !! tg_workload t) as [ws|]; [|intros [= <- <-]; by left].
  destruct (ws_stale ws); [intros [= <- <-]; by left|]. intros H. right.
  destruct (match waiting with Some p => (e, p) | None => demandLocked t e end) as [e1 p] eqn:Ed. exists e1, p. split; [done|].
  destruct (pickLocked _ _ _ _ _ _) as [[s|] any] eqn:Ep.
  - injection H as <- <-. split; [done|]. split; [done|]. split.
    { apply pickLocked_Some in Ep as (x & ? & _ & ?). by exists x. }
    split; [by apply slots_step_alter|]. apply loads_step_alter. intros l. destruct waiting; simpl; split_and!; lia.
  - assert (Hcheck : forall e2, loads_step p 0 0 (ed_heap e2)
        (ed_heap (if any then e2 else at_load p (fun l => (failureCheckIn now check l).1) e2))).
    { intros e2. destruct any; [apply loads_step_refl|apply loads_step_frame, failureCheckIn_counts]. }
    destruct waiting as [q|].
    + injection H as <- <-. destruct any; (split; [done|]); (split; [done|]); (split; [done|]); (split; [|done]).
      * apply (Hcheck e1).
      * apply (Hcheck e1).
    + destruct (ed_heap e1 !! p) as [l|] eqn:El.
      * destruct (Z.geb_spec (rl_waiting l) (tg_maxPending t)) as [Hge|Hlt]; injection H as <- <-; [done|].
        destruct any; (split; [done|]); (split; [done|]); (split; [done|]); (split; [|intros _; exists l; split; [done|lia]]).
        -- apply loads_step_alter. intros x. simpl. split_and!; lia.
        -- apply (loads_step_trans p 0 1 _ (ed_heap (at_load p (fun l => sample now (add_waiting 1 l)) e1))).
           ++ apply loads_step_alter. intros x. simpl. split_and!; lia.
           ++ apply loads_step_frame, failureCheckIn_counts.
      * by injection H as <- <-.
Qed.

Ltac counts := intros; rewrite ?count_app, ?count_one, ?b2z_eqb; simpl; lia.

Lemma acquire_arrives_inv cached check now order t e reqs e' a :
  wf_target t -> edge_inv e reqs -> acquire_step capacity cached check now order t None e = (e', a) ->
  edge_inv e' (reqs ++ option_list (after_acquire t a)).
Proof.
  intros Hwf Hinv H. apply acquire_step_parts in H as [[-> ->]|(e1 & p & Hd & Hm & H)].
  { simpl. by rewrite app_nil_r. }
  destruct (demandLocked_inv e reqs t e1 p Hinv Hd) as (Hinv1 & Htr & _).
  destruct a as [s q|q any| |]; simpl.
  - destruct H as (-> & (x & Hx & Hfree) & HS & HL).
    apply (inv_change e1 reqs e' _ p 1 0 s 1 Hcap Hinv1 HL HS Hm).
    + counts.
    + counts.
    + counts.
    + intros l Hl. destruct (inv_load _ _ Hinv1 p l Hl) as (_ & _ & ?). lia.
    + intros y Hy. rewrite Hx in Hy. injection Hy as <-. lia.
    + right. by apply lookup_lt_Some in Hx.
    + apply List.Forall_app. split; [apply Hinv1|]. constructor; [|constructor]. split; [done|]. by apply lookup_lt_Some in Hx.
  - destruct H as (-> & Hs & HL & Hroom). destruct (Hroom eq_refl) as (l & Hl & Hlt).
    apply (inv_change e1 reqs e' _ p 0 1 0 0 Hcap Hinv1 HL); [rewrite Hs; apply slots_step_refl|exact Hm|counts|counts|counts| | |by left|].
    + intros l' Hl'. rewrite Hl in Hl'. injection Hl' as <-. destruct Htr as [_ (l2 & Hl2 & Hr)]. rewrite Hl in Hl2. injection Hl2 as <-.
      rewrite Hr. unfold wf_target in Hwf. lia.
    + intros y Hy. destruct (inv_slot _ _ Hinv1 0%nat y Hy). lia.
    + apply List.Forall_app. split; [apply Hinv1|]. constructor; [|constructor]. done.
  - destruct H as [_ ->]. by rewrite app_nil_r.
  - contradiction.
Qed.

Lemma acquire_retries_inv cached check now order t p i e reqs e' a :
  reqs !! i = Some (Waiting t p) -> edge_inv e reqs ->
  acquire_step capacity cached check now order t (Some p) e = (e', a) ->
  edge_inv e' (<[i := default (Waiting t p) (after_acquire t a)]> reqs).
Proof.
  intros Hi Hinv H. pose proof (inv_requests e reqs Hinv) as Hok. rewrite List.Forall_forall in Hok.
  destruct (Hok _ (lookup_In _ _ _ Hi)) as [Hwf Htr].
  apply acquire_step_parts in H as [[-> ->]|(e1 & q & Hd & Hm & H)].
  { simpl. by rewrite list_insert_id. }
  injection Hd as <- <-. destruct a as [s q|q any| |]; simpl.
  - destruct H as (-> & (x & Hx & Hfree) & HS & HL).
    assert (Hc : forall q, count (holds_load q) (<[i := Holding t s p]> reqs) = count (holds_load q) reqs + delta p q 1 /\
                count (waits_load q) (<[i := Holding t s p]> reqs) = count (waits_load q) reqs + delta p q (-1) /\
                count (holds_slot q) (<[i := Holding t s p]> reqs) = count (holds_slot q) reqs + delta s q 1).
    { intros q. apply (insert_counts reqs i (Waiting t p)); [done|counts..]. }
    apply (inv_change e reqs e' _ p 1 (-1) s 1 Hcap Hinv HL HS Hm); [apply Hc..| | | |].
    + intros l Hl. destruct (inv_load _ _ Hinv p l Hl) as (_ & _ & ?). lia.
    + intros y Hy. rewrite Hx in Hy. injection Hy as <-. lia.
    + right. by apply lookup_lt_Some in Hx.
    + apply Forall_insert_ok; [apply Hinv|]. split; [done|]. by apply lookup_lt_Some in Hx.
  - destruct H as (-> & Hs & HL & _). rewrite list_insert_id by done.
    apply (inv_frame e e' reqs p 0%nat Hcap Hinv HL); [rewrite Hs; apply slots_step_refl|exact Hm].
  - destruct H as [Hn _]. discriminate Hn.
  - contradiction.
Qed.

Lemma give_up_inv now t p i e reqs :
  reqs !! i = Some (Waiting t p) -> edge_inv e reqs -> edge_inv (end_wait now p e) (<[i := Over]> reqs).
Proof.
  intros Hi Hinv.
  assert (Hc : forall q, count (holds_load q) (<[i := Over]> reqs) = count (holds_load q) reqs + delta p q 0 /\
              count (waits_load q) (<[i := Over]> reqs) = count (waits_load q) reqs + delta p q (-1) /\
              count (holds_slot q) (<[i := Over]> reqs) = count (holds_slot q) reqs + delta 0 q 0).
  { intros q. apply (insert_counts reqs i (Waiting t p)); [done|counts..]. }
  apply (inv_change e reqs _ _ p 0 (-1) 0 0 Hcap Hinv); [| | |apply Hc..| | | |].
  - apply loads_step_alter. intros l. simpl. split_and!; lia.
  - apply slots_step_refl.
  - done.
  - intros l Hl. destruct (inv_load _ _ Hinv p l Hl) as (_ & _ & ?). lia.
  - intros y Hy. destruct (inv_slot _ _ Hinv 0%nat y Hy). lia.
  - by left.
  - apply Forall_insert_ok; [apply Hinv|done].
Qed.

Lemma end_lease_inv now t s p i e reqs :
  reqs !! i = Some (Holding t s p) -> edge_inv e reqs -> edge_inv (end_lease now (tg_workload t) s p e) (<[i := Over]> reqs).
Proof.
  intros Hi Hinv. pose proof (inv_requests e reqs Hinv) as Hok. rewrite List.Forall_forall in Hok.
  destruct (Hok _ (lookup_In _ _ _ Hi)) as [_ Hs].
  assert (Hc : forall q, count (holds_load q) (<[i := Over]> reqs) = count (holds_load q) reqs + delta p q (-1) /\
              count (waits_load q) (<[i := Over]> reqs) = count (waits_load q) reqs + delta p q 0 /\
              count (holds_slot q) (<[i := Over]> reqs) = count (holds_slot q) reqs + delta s q (-1)).
  { intros q. apply (insert_counts reqs i (Holding t s p)); [done|counts..]. }
  apply (inv_change e reqs _ _ p (-1) 0 s (-1) Hcap Hinv); [| | |apply Hc..| | | |].
  - apply loads_step_alter. intros l. simpl. split_and!; lia.
  - apply slots_step_alter. intros x. simpl. split; lia.
  - done.
  - intros l Hl. destruct (inv_load _ _ Hinv p l Hl) as (_ & _ & ?). lia.
  - intros y Hy. destruct (inv_slot _ _ Hinv s y Hy). lia.
  - by right.
  - apply Forall_insert_ok; [apply Hinv|done].
Qed.

(** ** Steps that change no counts *)

Lemma slots_step_trans sp a b c : slots_step sp 0 a b -> slots_step sp 0 b c -> slots_step sp 0 a c.
Proof.
  intros [H1 L1] [H2 L2]. split; [|lia]. intros q z Hz. destruct (H2 q z Hz) as [(y & Hy & R2 & I2)|[Hge Hz0]].
  - destruct (H1 q y Hy) as [(x & Hx & R1 & I1)|[Hge Hy0]].
    + left. exists x. rewrite delta_zero in *. split_and!; [done|congruence|lia].
    + right. rewrite delta_zero in I2. split; [done|lia].
  - right. split; [lia|done].
Qed.

Lemma slots_step_app sp slots row : slots_step sp 0 slots (slots ++ [new_slot row]).
Proof.
  split; [|rewrite length_app; lia]. intros q s Hq. destruct (decide (q < length slots)%nat) as [Hlt|Hge].
  - rewrite lookup_app_l in Hq by done. left. exists s. rewrite delta_zero. split_and!; auto; lia.
  - right. split; [lia|]. apply lookup_lt_Some in Hq as Hl. rewrite length_app in Hl. simpl in Hl.
    assert (q = length slots) as -> by lia. rewrite lookup_app_r, Nat.sub_diag in Hq by lia. by injection Hq as <-.
Qed.

Lemma apply_rows_step sp old rows st :
  slots_step sp 0 st.1 (fold_left (apply_row old) rows st).1.
Proof.
  revert st. induction rows as [|row rows IH]; intros [slots next]; cbn [fold_left]; [apply slots_step_refl|].
  eapply slots_step_trans; [|apply IH]. unfold apply_row. destruct (find_slot slots old (ec_Container row)) as [p|]; simpl.
  - assert (Ha : forall q, slots_step q 0 slots (alter (with_avoid 0) p slots)).
    { intros q. destruct (slots_step_alter p 0 (with_avoid 0) slots) as [H L]; [intros x; simpl; split; lia|]. split; [|exact L].
      intros r s Hr. destruct (H r s Hr) as [(x & ? & ? & Hx)|?]; [left|by right]. exists x. rewrite delta_zero in *. done. }
    apply Ha.
  - apply slots_step_app.
Qed.

Lemma frame_inv e e' reqs p f :
  edge_inv e reqs -> same_counts f -> ed_heap e' = alter f p (ed_heap e) -> ed_slots e' = ed_slots e ->
  ed_loads e' = ed_loads e -> edge_inv e' reqs.
Proof.
  intros Hinv Hf Hh Hs Hm. apply (inv_frame e e' reqs p 0%nat Hcap Hinv); [|rewrite Hs; apply slots_step_refl|exact Hm].
  rewrite Hh. by apply loads_step_frame.
Qed.

Lemma workloads_inv w e reqs : edge_inv e reqs -> edge_inv (with_workloads w e) reqs.
Proof. intros Hinv. apply (inv_frame e _ reqs 0%nat 0%nat Hcap Hinv); [apply loads_step_refl|apply slots_step_refl|done]. Qed.

Lemma applyLocked_inv workload read rows e reqs : edge_inv e reqs -> edge_inv (applyLocked workload read rows e) reqs.
Proof.
  intros Hinv. unfold applyLocked. destruct (ed_workloads e !! workload) as [ws|]; [|exact Hinv].
  destruct (_ <? _); [exact Hinv|].
  pose proof (apply_rows_step 0%nat (ws_containers ws) rows (ed_slots e, [])) as HS.
  destruct (fold_left _ rows _) as [slots next]. apply workloads_inv.
  apply (inv_frame e _ reqs 0%nat 0%nat Hcap Hinv); [apply loads_step_refl|exact HS|done].
Qed.

(** A release whose load no request counts in may be forgotten. *)
Lemma forget_inv e reqs r p l :
  edge_inv e reqs -> ed_loads e !! r = Some p -> ed_heap e !! p = Some l -> rl_inFlight l = 0 -> rl_waiting l = 0 ->
  edge_inv {| ed_slots := ed_slots e; ed_heap := ed_heap e; ed_workloads := ed_workloads e; ed_loads := delete r (ed_loads e) |} reqs.
Proof.
  intros Hinv Hr Hl Hi Hw. destruct (inv_load _ _ Hinv p l Hl) as (Ci & Cw & _). rewrite Hi in Ci. rewrite Hw in Cw.
  destruct Hinv as [Islot Iload Imap Ireq]. split; simpl; [exact Islot|exact Iload| |].
  - intros r' q Hq. apply lookup_delete_Some in Hq as [_ Hq]. by apply Imap.
  - rewrite List.Forall_forall in *. intros x Hx. specialize (Ireq x Hx).
    assert (Ht : forall rel q, tracked e rel q -> q <> p -> tracked
        {| ed_slots := ed_slots e; ed_heap := ed_heap e; ed_workloads := ed_workloads e; ed_loads := delete r (ed_loads e) |} rel q).
    { intros rel q [H1 H2] Hne. split; simpl; [|exact H2]. rewrite lookup_delete_ne; [done|]. intros ->. congruence. }
    destruct x as [t q|t s q|]; simpl in *; [| |done].
    + destruct Ireq as [? ?]. split; [done|]. apply Ht; [done|]. intros ->.
      pose proof (count_zero_inv (waits_load p) reqs _ (eq_sym Cw) Hx) as Hf. simpl in Hf. by rewrite Nat.eqb_refl in Hf.
    + destruct Ireq as [? ?]. split; [|done]. apply Ht; [done|]. intros ->.
      pose proof (count_zero_inv (holds_load p) reqs _ (eq_sym Ci) Hx) as Hf. simpl in Hf. by rewrite Nat.eqb_refl in Hf.
Qed.

(** [collectLoads] forgets only an idle release, and keeps the counts of the
    others. *)
Lemma collect_load_counts now l :
  match collect_load now l with
  | (None, _, _) => rl_inFlight l = 0 /\ rl_waiting l = 0
  | (Some l', _, _) => rl_release l' = rl_release l /\ rl_inFlight l' = rl_inFlight l /\ rl_waiting l' = rl_waiting l
  end.
Proof.
  unfold collect_load. destruct (window_max _ _ _ _) as [w peak].
  cbn [el_InFlight el_Waiting el_WindowPeak].
  destruct ((rl_inFlight l =? 0) && (rl_waiting l =? 0) && (peak =? 0)) eqn:Eidle; cbn [andb].
  - destruct (negb _ || _).
    + rewrite !andb_true_iff, !Z.eqb_eq in Eidle. tauto.
    + destruct (_ && negb _); done.
  - destruct (_ && negb _); done.
Qed.

Lemma collect_step_inv now st r reqs : edge_inv st.1.1 reqs -> edge_inv (collect_step now st r).1.1 reqs.
Proof.
  destruct st as [[e loads] wake]. simpl. intros Hinv. destruct (ed_loads e !! r) as [p|] eqn:Er; [|exact Hinv].
  destruct (ed_heap e !! p) as [l|] eqn:El; [|exact Hinv]. pose proof (collect_load_counts now l) as Hc.
  destruct (collect_load now l) as [[[l'|] pub] w]; simpl.
  - apply (inv_frame e _ reqs p 0%nat Hcap Hinv); [|apply slots_step_refl|done].
    destruct Hc as (Hr & Hi & Hw). split; simpl.
    + intros q x. rewrite alter_lookup, delta_zero. destruct (decide (p = q)) as [<-|].
      * rewrite El. intros [= <-]. exists l. split_and!; auto; lia.
      * intros Hx. exists x. split_and!; auto; lia.
    + intros q x Hx. rewrite alter_lookup. destruct (decide (p = q)) as [<-|]; [|eauto].
      rewrite El in Hx. injection Hx as <-. rewrite El. exists l'. done.
  - set (w' := expire now (rl_keepWarm l) (rl_window l)). set (e1 := at_load p (with_window w') e).
    assert (Hinv1 : edge_inv e1 reqs) by (apply (frame_inv e e1 reqs p (with_window w')); done).
    apply (forget_inv e1 reqs r p (with_window w' l) Hinv1); [done| |apply Hc|apply Hc].
    simpl. rewrite alter_lookup, El. by destruct (decide (p = p)).
Qed.

Lemma collectLoads_inv now order e reqs : edge_inv e reqs -> edge_inv (collectLoads now order e).1.1 reqs.
Proof.
  unfold collectLoads. intros Hinv. apply (fold_left_inv (fun st => edge_inv st.1.1 reqs)); [exact Hinv|].
  intros st r _ Hst. by apply collect_step_inv.
Qed.

Lemma edge_step_inv s s' : edge_step s s' -> edge_inv (sy_edge s) (sy_requests s) -> edge_inv (sy_edge s') (sy_requests s').
Proof.
  destruct 1 as [cached check now order t e reqs e' a Hwf H _|cached check now order t p i e reqs e' a Hi H _|
                 now t p i e reqs Hi|now t sp p i e reqs Hi|now t sp p i e reqs Hi|workload e reqs|workload read rows e reqs|
                 workload e reqs|release e reqs|now order e reqs e' loads wake H|order e reqs|release e reqs]; simpl; intros Hinv.
  - by apply (acquire_arrives_inv _ _ _ _ _ _ _ _ _ Hwf Hinv H).
  - by apply (acquire_retries_inv _ _ _ _ _ _ _ _ _ _ _ Hi Hinv H).
  - by apply (give_up_inv now t).
  - by apply end_lease_inv.
  - apply (inv_frame e _ reqs 0%nat sp Hcap Hinv); [apply loads_step_refl| |done].
    apply slots_step_alter. intros x. simpl. split; lia.
  - apply workloads_inv. unfold stateLocked. destruct (ed_workloads e !! workload); [exact Hinv|by apply workloads_inv].
  - by apply applyLocked_inv.
  - by apply workloads_inv.
  - unfold kick. destruct (ed_loads e !! release) as [p|]; [|exact Hinv]. by apply (frame_inv e _ reqs p (with_wake true)).
  - pose proof (collectLoads_inv now order e reqs Hinv) as Hc. by rewrite H in Hc.
  - apply (fold_left_inv (fun e => edge_inv e reqs)); [exact Hinv|]. intros e1 r _ H1.
    destruct (ed_loads e1 !! r) as [p|]; [|exact H1]. by apply (frame_inv e1 _ reqs p publish_failed).
  - unfold forget_window. destruct (ed_loads e !! release) as [p|]; [|exact Hinv]. by apply (frame_inv e _ reqs p (with_window [])).
Qed.

Lemma edge_reachable_inv s : edge_reachable s -> edge_inv (sy_edge s) (sy_requests s).
Proof.
  induction 1 as [|s s' _ IH Hstep]; [|by apply (edge_step_inv s)].
  split; simpl; [done|done| |constructor]. intros r p H. by rewrite lookup_empty in H.
Qed.

(** ** Requests by release *)

Definition in_flight_for (release : Z) (r : request) : bool := if r is Holding t _ _ then tg_release t =? release else false.
Definition waiting_for (release : Z) (r : request) : bool := if r is Waiting t _ then tg_release t =? release else false.

Lemma count_ext f g l : (forall r, In r l -> f r = g r) -> count f l = count g l.
Proof.
  intros H. unfold count. induction l as [|x l IH]; [done|]. simpl. rewrite (H x) by (by left).
  assert (IH' : Z.of_nat (length (List.filter f l)) = Z.of_nat (length (List.filter g l))) by (apply IH; intros r Hr; apply H; by right).
  destruct (g x); simpl length; lia.
Qed.

(** Under the invariant, the requests that point to a tracked load are the
    requests for its release. *)
Lemma tracked_counts e reqs release p :
  edge_inv e reqs -> ed_loads e !! release = Some p ->
  count (holds_load p) reqs = count (in_flight_for release) reqs /\
  count (waits_load p) reqs = count (waiting_for release) reqs.
Proof.
  intros Hinv Hp. destruct (inv_map e reqs Hinv release p Hp) as (l & Hl & Hrel).
  pose proof (inv_requests e reqs Hinv) as Hok. rewrite List.Forall_forall in Hok.
  assert (Heq : forall rel q, tracked e rel q -> Nat.eqb q p = (rel =? release)).
  { intros rel q [H1 (l' & H2 & H3)]. destruct (Z.eqb_spec rel release) as [->|Hne].
    - rewrite Hp in H1. injection H1 as ->. apply Nat.eqb_refl.
    - apply Nat.eqb_neq. intros ->. rewrite Hl in H2. injection H2 as ->. congruence. }
  split; apply count_ext; intros r Hr; specialize (Hok r Hr); destruct r as [t q|t s q|]; simpl in *; try done; destruct Hok; by apply Heq.
Qed.

Lemma untracked_counts e reqs release :
  edge_inv e reqs -> ed_loads e !! release = None ->
  count (in_flight_for release) reqs = 0 /\ count (waiting_for release) reqs = 0.
Proof.
  intros Hinv Hn. pose proof (inv_requests e reqs Hinv) as Hok. rewrite List.Forall_forall in Hok.
  split; apply count_zero; intros r Hr; specialize (Hok r Hr); destruct r as [t q|t s q|]; simpl in *; try done;
    apply Z.eqb_neq; intros E; rewrite <- E in Hn.
  - destruct Hok as [[H _] _]. congruence.
  - destruct Hok as [_ [H _]]. congruence.
Qed.

Lemma count_nonneg f l : 0 <= count f l.
Proof. unfold count. lia. Qed.

(** C11: Under any interleaving of requests arriving, waking, giving up and
    ending, of container sets being replaced, and of loads being published,
    failed, forgotten and cleared: each container's count is the number of
    requests that hold it and never passes its capacity; and for each release
    the edge tracks, the load's counts are the requests in flight and waiting
    for that release, with at most [max_pending] waiting, while a release it
    does not track has no request at all. *)
Theorem edge_counts_every_request (s : system) :
  edge_reachable s ->
  (forall p x, ed_slots (sy_edge s) !! p = Some x ->
     sl_inflight x = count (holds_slot p) (sy_requests s) /\ 0 <= sl_inflight x <= capacity (sl_release x)) /\
  (forall release,
     match ed_loads (sy_edge s) !! release with
     | Some p => exists l, ed_heap (sy_edge s) !! p = Some l /\ rl_release l = release /\
         rl_inFlight l = count (in_flight_for release) (sy_requests s) /\
         rl_waiting l = count (waiting_for release) (sy_requests s) /\ rl_waiting l <= maxPending release
     | None => count (in_flight_for release) (sy_requests s) = 0 /\ count (waiting_for release) (sy_requests s) = 0
     end).
Proof.
  intros Hr. pose proof (edge_reachable_inv s Hr) as Hinv. split.
  - intros p x Hx. destruct (inv_slot _ _ Hinv p x Hx) as [Hc Hle]. pose proof (count_nonneg (holds_slot p) (sy_requests s)). lia.
  - intros release. destruct (ed_loads (sy_edge s) !! release) as [p|] eqn:E; [|by apply (untracked_counts (sy_edge s))].
    destruct (inv_map _ _ Hinv release p E) as (l & Hl & Hrel). exists l.
    destruct (inv_load _ _ Hinv p l Hl) as (Hi & Hw & Hm). destruct (tracked_counts _ _ release p Hinv E) as [Ei Ew].
    rewrite <- Hrel at 4. split_and!; [done|done|congruence|congruence|done].
Qed.

(** ** Publication *)

(** The demand of a load, with the peak of its window. *)
Definition demand_of (l : releaseLoad) (peak : Z) : EndpointLoad :=
  {| el_Release := rl_release l; el_InFlight := rl_inFlight l; el_Waiting := rl_waiting l; el_WindowPeak := peak |}.

Lemma window_max_ge now current window w : current <= (window_max now current window w).2.
Proof.
  unfold window_max. destruct (expire _ _ _) as [|a ?]; simpl; [lia|]. destruct (Z.gtb_spec (sa_value a) current); lia.
Qed.

Lemma collect_load_publishes now l :
  match collect_load now l with
  | (None, pub, _) => pub = None /\ rl_inFlight l = 0 /\ rl_waiting l = 0 /\ (rl_everPushed l = false \/ rl_published l = demand_of l 0)
  | (Some l', pub, _) =>
      exists peak, rl_inFlight l + rl_waiting l <= peak /\ rl_published l' = demand_of l peak /\
        (pub = None \/ pub = Some (demand_of l peak))
  end.
Proof.
  unfold collect_load. pose proof (window_max_ge now (rl_inFlight l + rl_waiting l) (rl_keepWarm l) (rl_window l)) as Hge.
  destruct (window_max _ _ _ _) as [w peak]. cbn [el_InFlight el_Waiting el_WindowPeak snd] in *. fold (demand_of l peak).
  assert (Hsent : forall x : bool, exists peak0, rl_inFlight l + rl_waiting l <= peak0 /\ demand_of l peak = demand_of l peak0 /\
      (Some (demand_of l peak) = None \/ Some (demand_of l peak) = Some (demand_of l peak0))) by (intros _; exists peak; auto).
  destruct ((rl_inFlight l =? 0) && (rl_waiting l =? 0) && (peak =? 0)) eqn:Eidle; cbn [andb].
  - destruct (negb _ || _) eqn:Eo.
    + rewrite !andb_true_iff, !Z.eqb_eq in Eidle. destruct Eidle as [[Hi Hw] ->].
      apply orb_true_iff in Eo as [Eo%negb_true_iff|Eo%bool_decide_eq_true]; auto.
    + destruct (_ && negb _) eqn:Es; [|exact (Hsent true)]. rewrite !andb_true_iff, bool_decide_eq_true in Es.
      exists peak. split_and!; [done| |by left]. simpl. destruct Es as [[<- _] _]. done.
  - destruct (_ && negb _) eqn:Es; [|exact (Hsent true)]. rewrite !andb_true_iff, bool_decide_eq_true in Es.
    exists peak. split_and!; [done| |by left]. simpl. destruct Es as [[<- _] _]. done.
Qed.

(** What the loop has done to a release once it has passed it. *)
Definition collected (now : Z) (e1 : Edge) (release : Z) (p : nat) (l : releaseLoad) : Prop :=
  match collect_load now l with
  | (None, _, _) => ed_loads e1 !! release = None
  | (Some l', _, _) => ed_loads e1 !! release = Some p /\ ed_heap e1 !! p = Some l'
  end.

Definition collect_progress (now : Z) (e : Edge) (seen : list Z) (st : Edge * list EndpointLoad * list Z) : Prop :=
  let '(e1, loads, wake) := st in
  (forall r p l, ed_loads e !! r = Some p -> ed_heap e !! p = Some l ->
     if bool_decide (r ∈ seen) then collected now e1 r p l
     else ed_loads e1 !! r = Some p /\ ed_heap e1 !! p = Some l) /\
  (forall r p, ed_loads e1 !! r = Some p -> ed_loads e !! r = Some p) /\
  (forall x, In x loads -> exists r p l, ed_loads e !! r = Some p /\ ed_heap e !! p = Some l /\ (collect_load now l).1.2 = Some x).

Lemma collect_step_progress now e reqs seen st r :
  edge_inv e reqs -> (r ∉ seen) -> collect_progress now e seen st -> collect_progress now e (seen ++ [r]) (collect_step now st r).
Proof.
  destruct st as [[e1 loads] wake]. intros Hinv Hnew (Hall & Hsub & Hloads). cbn [collect_step].
  assert (Hin : forall x, x ∈ seen ++ [r] <-> x ∈ seen \/ x = r)
    by (intros x; by rewrite elem_of_app, list_elem_of_singleton).
  destruct (ed_loads e1 !! r) as [p|] eqn:Er.
  2: { split_and!; [|exact Hsub|exact Hloads]. intros r' p' l' Hp Hl. specialize (Hall r' p' l' Hp Hl).
       destruct (decide (r' = r)) as [->|Hne].
       - rewrite bool_decide_false in Hall by exact Hnew. destruct Hall. congruence.
       - rewrite (bool_decide_ext (r' ∈ seen ++ [r]) (r' ∈ seen)); [exact Hall|]. rewrite Hin. tauto. }
  pose proof (Hsub r p Er) as Hep. destruct (inv_map e reqs Hinv r p Hep) as (l & Hl & Hrel).
  assert (Hl1 : ed_heap e1 !! p = Some l).
  { specialize (Hall r p l Hep Hl). rewrite bool_decide_false in Hall by exact Hnew. apply Hall. }
  rewrite Hl1. assert (Hptr : forall r' p', r' <> r -> ed_loads e !! r' = Some p' -> p' <> p).
  { intros r' p' Hne Hp' ->. destruct (inv_map e reqs Hinv r' p Hp') as (l' & Hl' & Hrel'). congruence. }
  destruct (collect_load now l) as [[[l'|] pub] w] eqn:Ec.
  - split_and!.
    + intros r' p' x Hp Hx. destruct (decide (r' = r)) as [->|Hne].
      * rewrite bool_decide_true by (apply Hin; by right). assert (p' = p) as -> by congruence. assert (x = l) as -> by congruence.
        unfold collected. rewrite Ec. split; [done|]. simpl. rewrite alter_lookup, Hl1. by destruct (decide (p = p)).
      * rewrite (bool_decide_ext (r' ∈ seen ++ [r]) (r' ∈ seen)) by (rewrite Hin; tauto).
        specialize (Hall r' p' x Hp Hx). pose proof (Hptr r' p' Hne Hp) as Hpp.
        assert (Hh : ed_heap (at_load p (fun _ => l') e1) !! p' = ed_heap e1 !! p').
        { simpl. rewrite alter_lookup. destruct (decide (p = p')); [congruence|done]. }
        unfold collected. rewrite Hh. exact Hall.
    + exact Hsub.
    + intros x [Hx|Hx]%in_app_or; [by apply Hloads|]. exists r, p, l. rewrite Ec. split_and!; [done|done|].
      destruct pub as [y|]; [|done]. destruct Hx as [->|[]]. done.
  - split_and!; simpl.
    + intros r' p' x Hp Hx. destruct (decide (r' = r)) as [->|Hne].
      * rewrite bool_decide_true by (apply Hin; by right). assert (p' = p) as -> by congruence. assert (x = l) as -> by congruence.
        unfold collected. rewrite Ec. simpl. apply lookup_delete_eq.
      * rewrite (bool_decide_ext (r' ∈ seen ++ [r]) (r' ∈ seen)) by (rewrite Hin; tauto).
        specialize (Hall r' p' x Hp Hx). pose proof (Hptr r' p' Hne Hp) as Hpp. unfold collected. simpl.
        rewrite lookup_delete_ne by congruence. rewrite alter_lookup. destruct (decide (p = p')); [congruence|exact Hall].
    + intros r' p' H. apply lookup_delete_Some in H as [_ H]. by apply Hsub.
    + exact Hloads.
Qed.

Lemma collectLoads_progress now order e reqs :
  edge_inv e reqs -> NoDup order -> collect_progress now e order (collectLoads now order e).
Proof.
  intros Hinv Hnd. unfold collectLoads. apply (fold_left_prefix (collect_progress now e)).
  - split_and!; [|done|done]. intros r p l Hp Hl. rewrite bool_decide_false; [done|apply not_elem_of_nil].
  - intros pre r post st E Hst. apply (collect_step_progress now e reqs); [exact Hinv| |exact Hst].
    rewrite E in Hnd. apply NoDup_app in Hnd as (_ & Hd & _). intros Hin. apply (Hd r); [done|by left].
Qed.

(** A publication says what the edge holds.  Collected in any order over
    the tracked releases, every load to publish carries the requests in flight
    and waiting for its release; after it, every release still tracked has its
    present demand as the last published, with a peak no lower; and a release
    is forgotten only when it has no request and planning last saw nothing or
    zero of it. *)
Theorem collectLoads_publishes_demand (s : system) now order e' loads wake :
  edge_reachable s -> NoDup order -> (forall r p, ed_loads (sy_edge s) !! r = Some p -> In r order) ->
  collectLoads now order (sy_edge s) = (e', loads, wake) ->
  (forall x, In x loads ->
     el_InFlight x = count (in_flight_for (el_Release x)) (sy_requests s) /\
     el_Waiting x = count (waiting_for (el_Release x)) (sy_requests s) /\ el_InFlight x + el_Waiting x <= el_WindowPeak x) /\
  (forall r p, ed_loads (sy_edge s) !! r = Some p -> exists l, ed_heap (sy_edge s) !! p = Some l /\
     match ed_loads e' !! r with
     | Some q => q = p /\ exists l' peak, ed_heap e' !! p = Some l' /\
         rl_published l' = {| el_Release := r; el_InFlight := count (in_flight_for r) (sy_requests s);
                              el_Waiting := count (waiting_for r) (sy_requests s); el_WindowPeak := peak |} /\
         count (in_flight_for r) (sy_requests s) + count (waiting_for r) (sy_requests s) <= peak
     | None => count (in_flight_for r) (sy_requests s) = 0 /\ count (waiting_for r) (sy_requests s) = 0 /\
         (rl_everPushed l = false \/ rl_published l = {| el_Release := r; el_InFlight := 0; el_Waiting := 0; el_WindowPeak := 0 |})
     end).
Proof.
  intros Hr Hnd Hcover Hc. pose proof (edge_reachable_inv s Hr) as Hinv.
  pose proof (collectLoads_progress now order _ _ Hinv Hnd) as Hp. rewrite Hc in Hp. destruct Hp as (Hall & _ & Hloads).
  assert (Hcounts : forall r p l, ed_loads (sy_edge s) !! r = Some p -> ed_heap (sy_edge s) !! p = Some l ->
    rl_release l = r /\ rl_inFlight l = count (in_flight_for r) (sy_requests s) /\ rl_waiting l = count (waiting_for r) (sy_requests s)).
  { intros r p l Hp Hl. destruct (inv_map _ _ Hinv r p Hp) as (l0 & Hl0 & Hrel). assert (l0 = l) as -> by congruence.
    destruct (inv_load _ _ Hinv p l Hl) as (Hi & Hw & _). destruct (tracked_counts _ _ r p Hinv Hp) as [Ei Ew]. split_and!; congruence. }
  split.
  - intros x Hx. destruct (Hloads x Hx) as (r & p & l & Hp & Hl & Hpub). destruct (Hcounts r p l Hp Hl) as (Hrel & Hi & Hw).
    pose proof (collect_load_publishes now l) as Hcl. destruct (collect_load now l) as [[[l'|] pub] w]; simpl in Hpub; subst pub.
    + destruct Hcl as (peak & Hge & _ & [?|[= ->]]); [done|]. simpl. rewrite Hrel, <- Hi, <- Hw. done.
    + by destruct Hcl as [? _].
  - intros r p Hp. destruct (inv_map _ _ Hinv r p Hp) as (l & Hl & _). exists l. split; [done|].
    destruct (Hcounts r p l Hp Hl) as (Hrel & Hi & Hw).
    specialize (Hall r p l Hp Hl). rewrite bool_decide_true in Hall by (apply list_elem_of_In; by apply (Hcover r p)). unfold collected in Hall.
    pose proof (collect_load_publishes now l) as Hcl. destruct (collect_load now l) as [[[l'|] pub] w].
    + destruct Hall as [-> Hl']. split; [done|]. destruct Hcl as (peak & Hge & Hpub & _). exists l', peak.
      rewrite <- Hi, <- Hw, Hpub. unfold demand_of. rewrite Hrel. done.
    + rewrite Hall. destruct Hcl as (_ & Hi0 & Hw0 & Hlast). unfold demand_of in Hlast. rewrite Hi0, Hw0, Hrel in Hlast.
      split_and!; [congruence|congruence|exact Hlast].
Qed.
End System.

(** ** A sample run *)

Definition one_request (release : Z) : Z := 1.
Definition two_pending (release : Z) : Z := 2.

Definition sample_target : target :=
  {| tg_workload := 1; tg_release := 10; tg_keepWarm := 60 * second; tg_maxPending := 2; tg_version := Some 3;
     tg_latest := true; tg_container := None |}.

(** One container; one request holds it and one waits. *)
Definition sample_loaded : Edge :=
  applyLocked 1 1 [{| ec_Container := 100; ec_Release := 10; ec_Version := 3; ec_Host := 7 |}] (load_begin 1 empty_edge).

Definition sample_arrive (now : Z) (e : Edge) : Edge * acquired :=
  acquire_step one_request (fun _ => true) second now [0%nat] sample_target None e.

Definition sample_busy : system :=
  {| sy_edge := (sample_arrive (2 * second) (sample_arrive second sample_loaded).1).1;
     sy_requests := [Holding sample_target 0 0; Waiting sample_target 0] |}.

Lemma sample_arrive_step now e reqs :
  (forall ws, ed_workloads e !! 1 = Some ws -> [0%nat] ≡ₚ ws_containers ws) ->
  edge_step one_request two_pending {| sy_edge := e; sy_requests := reqs |}
    {| sy_edge := (sample_arrive now e).1;
       sy_requests := reqs ++ option_list (after_acquire sample_target (sample_arrive now e).2) |}.
Proof.
  intros Ho. apply (st_arrive _ _ (fun _ => true) second now [0%nat] sample_target); [reflexivity| |exact Ho].
  apply surjective_pairing.
Qed.

Lemma sample_busy_reachable : edge_reachable one_request two_pending sample_busy.
Proof.
  apply (er_step _ _ {| sy_edge := (sample_arrive second sample_loaded).1; sy_requests := [Holding sample_target 0 0] |}).
  - apply (er_step _ _ {| sy_edge := sample_loaded; sy_requests := [] |}).
    + apply (er_step _ _ {| sy_edge := load_begin 1 empty_edge; sy_requests := [] |}); [|apply st_apply].
      apply (er_step _ _ _ _ (er_start _ _)). apply st_load_begin.
    + apply (sample_arrive_step second sample_loaded []). intros ws H. vm_compute in H. by injection H as <-.
  - apply (sample_arrive_step (2 * second) (sample_arrive second sample_loaded).1 [Holding sample_target 0 0]). intros ws H. vm_compute in H. by injection H as <-.
Qed.

Lemma edge_counts_every_request_witness :
  (forall p x, ed_slots (sy_edge sample_busy) !! p = Some x ->
     sl_inflight x = count (holds_slot p) (sy_requests sample_busy) /\ 0 <= sl_inflight x <= one_request (sl_release x)) /\
  (forall release,
     match ed_loads (sy_edge sample_busy) !! release with
     | Some p => exists l, ed_heap (sy_edge sample_busy) !! p = Some l /\ rl_release l = release /\
         rl_inFlight l = count (in_flight_for release) (sy_requests sample_busy) /\
         rl_waiting l = count (waiting_for release) (sy_requests sample_busy) /\ rl_waiting l <= two_pending release
     | None => count (in_flight_for release) (sy_requests sample_busy) = 0 /\ count (waiting_for release) (sy_requests sample_busy) = 0
     end).
Proof.
  exact (edge_counts_every_request one_request two_pending (fun _ => Z.le_refl 1) (fun _ => Z.le_0_2) sample_busy sample_busy_reachable).
Defined.

Definition sample_collected : Edge * list EndpointLoad * list Z := collectLoads (3 * second) [10] (sy_edge sample_busy).

Lemma collectLoads_publishes_demand_witness :
  (forall x, In x sample_collected.1.2 ->
     el_InFlight x = count (in_flight_for (el_Release x)) (sy_requests sample_busy) /\
     el_Waiting x = count (waiting_for (el_Release x)) (sy_requests sample_busy) /\ el_InFlight x + el_Waiting x <= el_WindowPeak x) /\
  sample_collected.1.2 = [{| el_Release := 10; el_InFlight := 1; el_Waiting := 1; el_WindowPeak := 2 |}].
Proof.
  split; [|vm_compute; reflexivity].
  refine (proj1 (collectLoads_publishes_demand one_request two_pending (fun _ => Z.le_refl 1) (fun _ => Z.le_0_2) sample_busy
                   (3 * second) [10] sample_collected.1.1 sample_collected.1.2 sample_collected.2 sample_busy_reachable
                   (NoDup_singleton 10) _ _)).
  - intros r p H. left. vm_compute in H. destruct (decide (r = 10)) as [->|Hne]; [reflexivity|exfalso].
    assert (Hn : ed_loads (sy_edge sample_busy) !! r = None); [|vm_compute in Hn; congruence].
    change (ed_loads (sy_edge sample_busy)) with (<[10 := 0%nat]> (∅ : gmap Z nat)). by rewrite lookup_insert_ne.
  - unfold sample_collected. destruct (collectLoads _ _ _) as [[? ?] ?]. reflexivity.
Defined.

(** The final zero of a release, when its publication fails, is not published
    again: the next collection forgets the release.  Planning then counts the
    demand it last saw until that demand's lease lapses. *)
Definition ended_load : releaseLoad :=
  {| rl_release := 10; rl_keepWarm := 0; rl_inFlight := 0; rl_waiting := 0; rl_window := []; rl_served := 1; rl_wake := false;
     rl_published := {| el_Release := 10; el_InFlight := 1; el_Waiting := 0; el_WindowPeak := 1 |};
     rl_renewedAt := 100 * second; rl_checkedAt := 0; rl_everPushed := true |}.

Definition zero_sent : releaseLoad := default ended_load (collect_load (101 * second) ended_load).1.1.

Example final_zero_lost :
  (collect_load (101 * second) ended_load).1.2 =
    Some {| el_Release := 10; el_InFlight := 0; el_Waiting := 0; el_WindowPeak := 0 |} /\
  collect_load (102 * second) (publish_failed zero_sent) = (None, None, false).
Proof. split; vm_compute; reflexivity. Qed.
