(* ===== verification/Billing.v ===== *)
(** The rate card and its arithmetic (internal/billing/ratecard.go and
    pricing.go): the published price history, the card in force at an
    instant, placement multipliers, and the exact pricing of an interval,
    rounded half to even to whole nanodollars.

    Errors are [None]; [multiplied] and [cardRate] panic in Go where they
    have no answer, which is [None] too, so a theorem that the history is
    [Some] says no panic happens. *)

From S2P Require Import Prelude Calendar.

(** ** Types *)

Inductive BillingOwner := OwnerPlatformFleet | OwnerConnectedCloud | OwnerSelfHosted.
#[export] Instance BillingOwner_eq_dec : EqDecision BillingOwner.
Proof. solve_decision. Defined.

Inductive RateClass := ClassAuto | ClassPinned | ClassNonPreemptible | ClassPinnedNonPreemptible.
#[export] Instance RateClass_eq_dec : EqDecision RateClass.
Proof. solve_decision. Defined.

(** The text of a class, which [FleetComputeRates] sorts by. *)
Definition class_text (c : RateClass) : string :=
  match c with
  | ClassAuto => "auto"
  | ClassPinned => "pinned"
  | ClassNonPreemptible => "non_preemptible"
  | ClassPinnedNonPreemptible => "pinned_non_preemptible"
  end.

Definition RateClassFor (pinned preemptible : bool) : RateClass :=
  if preemptible && pinned then ClassPinned
  else if preemptible then ClassAuto
  else if pinned then ClassPinnedNonPreemptible
  else ClassNonPreemptible.

(** A GPU type is its name; the empty name is no GPU. *)
Definition noGPU : string := "".

Record GPUModel := mkModel { gm_Type : string; gm_Enabled : bool }.

Definition GPUModels : list GPUModel :=
  [mkModel "T4" true; mkModel "A10G" true; mkModel "L4" true; mkModel "L40S" true; mkModel "A100-40" false;
   mkModel "RTXPro6000" false; mkModel "H100" false].

Definition enabledGPUs : list string := gm_Type <$> List.filter gm_Enabled GPUModels.

Definition GPUEnabled (model : string) : bool := existsb (fun g => g == model) enabledGPUs.

Record ComputeRate := mkRate {
  cr_Owner : BillingOwner;
  cr_Class : RateClass;
  cr_GPU : string;
  ContainerHour : Z;
  CPUHour : Z;
  MemoryGiBHour : Z;
  GPUCardHour : Z }.
#[export] Instance ComputeRate_eq_dec : EqDecision ComputeRate.
Proof. solve_decision. Defined.

Definition rateKey : Type := BillingOwner * RateClass * string.
Definition rate_key (r : ComputeRate) : rateKey := (cr_Owner r, cr_Class r, cr_GPU r).

Record PlatformRate := mkPlatform { EgressGiB : Z; VolumeGiBMonth : Z }.
Record DiskRate := mkDisk { StoredGiBMonth : Z; AttachedGiBMonth : Z }.

Record rateChange := mkChange {
  rc_version : string;
  rc_effectiveAt : Z;
  rc_compute : list ComputeRate;
  rc_platform : option PlatformRate;
  rc_disk : option DiskRate }.

Record shapeRate := mkShapeRate { sr_owner : BillingOwner; sr_containerHour : Z; sr_cpuHour : Z; sr_memoryGiB : Z }.
Record gpuRate := mkGpuRate { gr_model : string; gr_fleetHour : Z }.

(** ** Publications *)

Definition managementFeePercent : Z := 8.

Definition managementFee (fleetHour : Z) : Z :=
  let fee := Z.quot (fleetHour * managementFeePercent) 100 in
  Z.quot fee 3600 * 3600.

Definition cardRate (g : gpuRate) (owner : BillingOwner) : Z :=
  match owner with
  | OwnerPlatformFleet => gr_fleetHour g
  | OwnerConnectedCloud => managementFee (gr_fleetHour g)
  | OwnerSelfHosted => 0
  end.

Definition shapesFrom (fleet : shapeRate) : list shapeRate :=
  [fleet;
   mkShapeRate OwnerConnectedCloud (managementFee (sr_containerHour fleet)) (managementFee (sr_cpuHour fleet))
     (managementFee (sr_memoryGiB fleet));
   mkShapeRate OwnerSelfHosted 0 0 0].

Definition computeRates (shapes : list shapeRate) (gpus : list gpuRate) : list ComputeRate :=
  flat_map (fun s =>
    let base := mkRate (sr_owner s) ClassAuto noGPU (sr_containerHour s) (sr_cpuHour s) (sr_memoryGiB s) 0 in
    base :: map (fun g =>
      mkRate (sr_owner s) ClassAuto (gr_model g) (sr_containerHour s) (sr_cpuHour s) (sr_memoryGiB s)
        (cardRate g (sr_owner s))) gpus) shapes.

Record Placement := mkPlacement {
  pl_Class : RateClass;
  pl_Name : string;
  pl_Pinned : bool;
  pl_Preemptible : bool;
  CPUMemoryTenths : Z;
  GPUTenths : Z }.

Definition placements : list Placement :=
  map (fun '(pinned, preemptible, name) =>
    let location := if pinned : bool then 15 else 10 in
    let cpuMemory := if negb preemptible then location * 3 else location in
    mkPlacement (RateClassFor pinned preemptible) name pinned preemptible cpuMemory location)
    [(false, true, "Automatic"); (true, true, "Selected location"); (false, false, "Automatic, non-preemptible");
     (true, false, "Selected location, non-preemptible")].

(** [multiplied] panics on a rate that is no whole number of nanodollars. *)
Definition multiplied (hourly tenths : Z) : option Z :=
  if negb (Z.rem (hourly * tenths) 10 =? 0) then None else Some (Z.quot (hourly * tenths) 10).

Definition placementRate (p : Placement) (r : ComputeRate) : option ComputeRate :=
  if cr_Owner r == OwnerPlatformFleet then
    cpu ← multiplied (CPUHour r) (CPUMemoryTenths p);
    mem ← multiplied (MemoryGiBHour r) (CPUMemoryTenths p);
    gpu ← multiplied (GPUCardHour r) (GPUTenths p);
    Some (mkRate (cr_Owner r) (pl_Class p) (cr_GPU r) (ContainerHour r) cpu mem gpu)
  else Some (mkRate (cr_Owner r) (pl_Class p) (cr_GPU r) (ContainerHour r) (CPUHour r) (MemoryGiBHour r) (GPUCardHour r)).

Definition placementRates (auto : list ComputeRate) (keep : RateClass -> bool) : option (list ComputeRate) :=
  rs ← mapM (fun p => mapM (placementRate p) auto) (List.filter (fun p => keep (pl_Class p)) placements);
  Some (concat rs).

(** [rateHistory]. *)
Definition initialGPUs : list gpuRate :=
  [mkGpuRate "T4" 560880000; mkGpuRate "A10G" 1201201200; mkGpuRate "L4" 899398800; mkGpuRate "L40S" 2138346000;
   mkGpuRate "A100-40" 1993860000; mkGpuRate "A100-80" 2925626400; mkGpuRate "H100" 3372120000; mkGpuRate "H200" 3918236400].

Definition septemberGPUs : list gpuRate :=
  map (fun g =>
    if gr_model g == "T4" then mkGpuRate (gr_model g) 550000000
    else if gr_model g == "A10G" then mkGpuRate (gr_model g) 1000000000
    else if gr_model g == "L4" then mkGpuRate (gr_model g) 750000000
    else g) initialGPUs.

Definition spotGPUs : list gpuRate :=
  [mkGpuRate "T4" 350000000; mkGpuRate "A10G" 750000000; mkGpuRate "L4" 500000000; mkGpuRate "L40S" 1350000000;
   mkGpuRate "A100-40" 1500000000; mkGpuRate "A100-80" 2925626400; mkGpuRate "H100" 2250000000; mkGpuRate "H200" 3250000000].

Definition octoberGPUs : list gpuRate :=
  [mkGpuRate "T4" 550000000; mkGpuRate "A10G" 1000000000; mkGpuRate "L4" 720000000; mkGpuRate "RTXPro4500" 950000000;
   mkGpuRate "L40S" 1800000000; mkGpuRate "RTXPro6000" 2800000000; mkGpuRate "H100" 3650000000].

Definition october30GPUs : list gpuRate :=
  [mkGpuRate "L4" 780000000; mkGpuRate "L40S" 1900000000; mkGpuRate "RTXPro6000" 2970000000;
   mkGpuRate "A100-40" 2060000000; mkGpuRate "H100" 3870000000].

Definition gpuOnly (rates : list ComputeRate) : list ComputeRate :=
  delete_func (fun r => cr_GPU r == noGPU) rates.

Definition rateHistory : option (list rateChange) :=
  let initial := computeRates (shapesFrom (mkShapeRate OwnerPlatformFleet 0 55126800 7560000)) initialGPUs in
  let september := shapesFrom (mkShapeRate OwnerPlatformFleet 0 44000000 7500000) in
  let all := fun _ => true in
  r2 ← placementRates initial (fun c => c != ClassAuto);
  r3 ← placementRates (computeRates september septemberGPUs) all;
  r4 ← placementRates (computeRates september spotGPUs) all;
  r6 ← placementRates (computeRates september octoberGPUs) all;
  r7 ← placementRates (computeRates september october30GPUs) all;
  Some [
    mkChange "2026-08-18.a" (time_Date 2026 1 1 0 0 0 0) initial (Some (mkPlatform 0 50000000)) None;
    mkChange "2026-09-09.a" (time_Date 2026 9 9 0 0 0 0) r2 None None;
    mkChange "2026-09-10.a" (time_Date 2026 9 10 4 9 5 835918000) r3 (Some (mkPlatform 130000000 50000000)) None;
    mkChange "2026-09-10.b" (time_Date 2026 9 10 4 58 18 736793000) (gpuOnly r4) None None;
    mkChange "2026-09-23.a" (time_Date 2026 9 23 0 0 0 0) [] None (Some (mkDisk 50000000 200000000));
    mkChange "2026-10-27.a" (time_Date 2026 10 27 5 0 0 0) (gpuOnly r6) None None;
    mkChange "2026-10-30.a" (time_Date 2026 10 30 10 0 0 0) (gpuOnly r7) None None].

(** ** The card in force *)

(** [RateCard]; its maps are association lists, the last written first. *)
Record RateCard := mkCard {
  rd_Version : string;
  rd_EffectiveAt : Z;
  rd_compute : list (rateKey * ComputeRate);
  rd_classSince : list (RateClass * Z);
  rd_Platform : PlatformRate;
  rd_Disk : option DiskRate }.

Definition card0 : RateCard := mkCard "" 0 [] [] (mkPlatform 0 0) None.

Definition assoc {K V} `{EqDecision K} (k : K) (l : list (K * V)) : option V :=
  snd <$> List.find (fun e => bool_decide (e.1 = k)) l.

(** A map write: the entry of the key replaced. *)
Definition assoc_set {K V} `{EqDecision K} (k : K) (v : V) (l : list (K * V)) : list (K * V) :=
  (k, v) :: List.filter (fun e => negb (bool_decide (e.1 = k))) l.

(** One publication merged into the card. *)
Definition apply_change (card : RateCard) (change : rateChange) : RateCard :=
  mkCard (rc_version change) (rc_effectiveAt change)
    (fold_left (fun m rate => assoc_set (rate_key rate) rate m) (rc_compute change) (rd_compute card))
    (fold_left (fun m rate => assoc_set (cr_Class rate) (rc_effectiveAt change) m) (rc_compute change) (rd_classSince card))
    (match rc_platform change with Some p => p | None => rd_Platform card end)
    (match rc_disk change with Some d => Some d | None => rd_Disk card end).

(** [cardAt] merges every publication in force at [t]; it stops at the
    first later one. *)
Fixpoint card_walk (card : RateCard) (found : bool) (history : list rateChange) (t : Z) : option RateCard :=
  match history with
  | [] => if found then Some card else None
  | change :: history =>
      if rc_effectiveAt change >? t then (if found then Some card else None)
      else card_walk (apply_change card change) true history t
  end.

Definition cardAt (history : list rateChange) (t : Z) : option RateCard := card_walk card0 false history t.

Definition changesBetween (history : list rateChange) (from to : Z) : list Z :=
  map rc_effectiveAt (List.filter (fun c => (rc_effectiveAt c >? from) && (rc_effectiveAt c <? to)) history).

Definition computeRate (c : RateCard) (owner : BillingOwner) (class : RateClass) (gpu : string) : option ComputeRate :=
  assoc (owner, class, gpu) (rd_compute c).

(** [FleetComputeRates]: the platform fleet's rates in force, in class and
    GPU order. *)
Definition FleetComputeRates (history : list rateChange) (t : Z) : option (list ComputeRate) :=
  card ← cardAt history t;
  Some (sort_by (fun a b =>
      if cr_Class a != cr_Class b then String.compare (class_text (cr_Class a)) (class_text (cr_Class b))
      else String.compare (cr_GPU a) (cr_GPU b))
    (List.filter (fun r => cr_Owner r == OwnerPlatformFleet) (map snd (rd_compute card)))).

(** ** Pricing *)

Definition bytesPerGiB : Z := 2 ^ 30.
Definition microsPerHour : Z := 3600000000.
Definition millisPerCPU : Z := 1000.
Definition microsecondsPerSec : Z := 1000000.
Definition storageMonthSeconds : Z := 2592000.

(** [costOver]: exact big-integer arithmetic, divided once and rounded half
    to even. *)
Definition costOver (rate units perUnit micros periodMicros : Z) : Z :=
  if (rate =? 0) || (units =? 0) || (micros =? 0) then 0
  else
    let num := rate * units * micros in
    let den := perUnit * periodMicros in
    let q := Z.quot num den in
    let r := Z.rem num den in
    match Z.compare (Z.shiftl r 1) den with
    | Gt => q + 1
    | Eq => if Z.testbit q 0 then q + 1 else q
    | Lt => q
    end.

Definition cost (hourly units perUnit micros : Z) : Z := costOver hourly units perUnit micros microsPerHour.

(** [d.Microseconds()]. *)
Definition microseconds (d : Z) : Z := Z.quot d 1000.

Definition storageCost (gibMonth bytes d : Z) : Z :=
  costOver gibMonth bytes bytesPerGiB (microseconds d) (storageMonthSeconds * microsecondsPerSec).

Record Shape := mkShape {
  sh_Owner : BillingOwner;
  sh_Class : RateClass;
  sh_GPU : string;
  sh_GPUCount : Z;
  sh_CPUMillis : Z;
  sh_MemoryBytes : Z }.

Record Charge := mkCharge {
  ch_Version : string;
  ContainerNanos : Z;
  CPUNanos : Z;
  MemoryNanos : Z;
  GPUNanos : Z;
  StoredBytes : Z;
  AttachedBytes : Z;
  StorageNanos : Z;
  AttachedNanos : Z;
  EgressBytes : Z;
  EgressNanos : Z }.

(** [Charge.Total]. *)
Definition Total (c : Charge) : Z :=
  ContainerNanos c + CPUNanos c + MemoryNanos c + GPUNanos c + StorageNanos c + AttachedNanos c + EgressNanos c.

(** [price]; [None] is an error. *)
Definition price (c : RateCard) (shape : Shape) (d : Z) : option Charge :=
  if negb (sh_GPUCount shape =? 0) && (sh_GPU shape == noGPU) then None
  else
    let gpu := if sh_GPUCount shape =? 0 then noGPU else sh_GPU shape in
    rate ← computeRate c (sh_Owner shape) (sh_Class shape) gpu;
    let micros := microseconds d in
    Some (mkCharge (rd_Version c)
      (cost (ContainerHour rate) 1 1 micros)
      (cost (CPUHour rate) (sh_CPUMillis shape) millisPerCPU micros)
      (cost (MemoryGiBHour rate) (sh_MemoryBytes shape) bytesPerGiB micros)
      (cost (GPUCardHour rate) (sh_GPUCount shape) 1 micros)
      0 0 0 0 0 0).

(** ** Lemmas *)

(** Rounding half to even: the integer nearest [num / den], the even one of
    two as near. *)
Definition half_even (num den c : Z) : Prop :=
  2 * Z.abs (c * den - num) <= den /\ (2 * Z.abs (c * den - num) = den -> Z.even c = true).

Lemma half_even_unique num den c d : 0 < den -> half_even num den c -> half_even num den d -> c = d.
Proof.
  intros Hden [Hc He] [Hd Hf].
  assert (Habs : Z.abs (c - d) * den <= den) by nia.
  destruct (Z.eq_dec c d) as [|Hne]; [done|exfalso].
  assert (Z.abs (c - d) = 1) by nia.
  assert (Hcd : 2 * Z.abs (c * den - num) = den /\ 2 * Z.abs (d * den - num) = den) by nia.
  destruct Hcd as [H1 H2]. apply He, Z.even_spec in H1 as [x ->]. apply Hf, Z.even_spec in H2 as [y ->]. lia.
Qed.

Lemma costOver_half_even rate units perUnit micros period :
  0 <= rate -> 0 <= units -> 0 <= micros -> 0 < perUnit -> 0 < period ->
  half_even (rate * units * micros) (perUnit * period) (costOver rate units perUnit micros period).
Proof.
  intros Hr Hu Hm Hp Hq. unfold costOver, half_even.
  destruct (_ || _ || _) eqn:E.
  { assert (rate * units * micros = 0) as ->; [|split; [nia|done]].
    apply orb_true_iff in E as [[E|E]%orb_true_iff|E]; bools; subst; lia. }
  assert (Hn : 0 <= rate * units * micros) by nia. set (num := rate * units * micros) in *.
  assert (Hd : 0 < perUnit * period) by nia. set (den := perUnit * period) in *. clearbody num den.
  pose proof (Z.quot_rem' num den) as Hqr. pose proof (Z.rem_bound_pos num den Hn Hd) as Hb.
  set (q := Z.quot num den) in *. set (r := Z.rem num den) in *. clearbody q r.
  rewrite Z.shiftl_mul_pow2 by lia. change (2 ^ 1) with 2.
  destruct (Z.compare_spec (r * 2) den) as [H|H|H].
  - rewrite Z.bit0_odd. pose proof (Z.negb_odd q) as Ho. destruct (Z.odd q); simpl in Ho.
    + split; [nia|]. intros _. by rewrite Z.even_add, <- Ho.
    + split; [nia|]. done.
  - split; [nia|]. intros; nia.
  - split; [nia|]. intros; nia.
Qed.

(** The card at an instant every publication precedes merges them all. *)
Lemma card_walk_all card found history t :
  Forall (fun c => rc_effectiveAt c <= t) history -> (found = true \/ history <> []) ->
  card_walk card found history t = Some (fold_left apply_change history card).
Proof.
  revert card found. induction history as [|c h IH]; intros card found Hall Hf; simpl.
  - destruct Hf as [->|]; done.
  - inversion_clear Hall. destruct (Z.gtb_spec (rc_effectiveAt c) t); [lia|]. apply IH; auto.
Qed.

Lemma card_walk_same card found history t u :
  Forall (fun c => rc_effectiveAt c <= t <-> rc_effectiveAt c <= u) history ->
  card_walk card found history t = card_walk card found history u.
Proof.
  revert card found. induction history as [|c h IH]; intros card found Hall; simpl; [done|].
  inversion_clear Hall.
  destruct (Z.gtb_spec (rc_effectiveAt c) t), (Z.gtb_spec (rc_effectiveAt c) u); try lia; auto.
Qed.

(** The published history, and the card all of it gives. *)
Definition published : list rateChange := default [] rateHistory.

Definition current_card : RateCard := fold_left apply_change published card0.

Definition priced_fleet_gpus : list string := noGPU :: enabledGPUs.

Definition all_classes : list RateClass := [ClassAuto; ClassPinned; ClassNonPreemptible; ClassPinnedNonPreemptible].

Lemma all_classes_In c : In c all_classes.
Proof. destruct c; simpl; tauto. Qed.

(** Every owner and class has a rate for CPU work and every enabled model,
    and the platform's is never free. *)
Definition card_complete (card : RateCard) : bool :=
  forallb (fun class => forallb (fun gpu =>
    forallb (fun owner =>
      match computeRate card owner class gpu with
      | None => false
      | Some r => (owner != OwnerPlatformFleet) || ((CPUHour r >? 0) && (MemoryGiBHour r >? 0) && ((gpu == noGPU) || (GPUCardHour r >? 0)))
      end) [OwnerPlatformFleet; OwnerConnectedCloud; OwnerSelfHosted]) priced_fleet_gpus) all_classes.

Lemma current_card_complete : card_complete current_card = true.
Proof. vm_compute. reflexivity. Qed.

Lemma rateHistory_published : rateHistory = Some published.
Proof.
  unfold published. assert (H : bool_decide (is_Some rateHistory) = true) by (vm_compute; reflexivity).
  bools. by destruct H as [h ->].
Qed.

Lemma published_length : length published = 7%nat.
Proof. vm_compute. reflexivity. Qed.

Lemma published_dates : forallb (fun c => rc_effectiveAt c <=? time_Date 2026 10 30 10 0 0 0) published = true.
Proof. vm_compute. reflexivity. Qed.

(** ** Theorems *)

(** an interval's price is the exact product of rate, resource and
    time, rounded once, half to even: the cost is the integer nearest the
    exact quotient, and the even one of two as near. *)
Theorem costOver_exact (rate units perUnit micros period : Z) :
  0 <= rate -> 0 <= units -> 0 <= micros -> 0 < perUnit -> 0 < period ->
  half_even (rate * units * micros) (perUnit * period) (costOver rate units perUnit micros period) /\
  (forall c, half_even (rate * units * micros) (perUnit * period) c -> c = costOver rate units perUnit micros period).
Proof.
  intros Hr Hu Hm Hp Hq. assert (H := costOver_half_even rate units perUnit micros period Hr Hu Hm Hp Hq).
  split; [done|]. intros c Hc. eapply half_even_unique; [|done|done]. nia.
Qed.

Lemma costOver_exact_witness :
  half_even (44000000 * 1500 * 1800000001) (1000 * microsPerHour) (costOver 44000000 1500 1000 1800000001 microsPerHour) /\
  (forall c, half_even (44000000 * 1500 * 1800000001) (1000 * microsPerHour) c ->
     c = costOver 44000000 1500 1000 1800000001 microsPerHour).
Proof. apply costOver_exact; vm_compute; congruence. Defined.

(** publishing the price history panics nowhere (every placement
    multiplier gives whole nanodollars), and from the last publication on the
    card answers for every owner, every placement class and CPU work or any
    GPU model the platform fleet offers, never at a zero price on platform
    capacity. *)
Theorem rate_card_total (t : Z) :
  time_Date 2026 10 30 10 0 0 0 <= t ->
  exists history card, rateHistory = Some history /\ cardAt history t = Some card /\
    forall owner class gpu, gpu = noGPU \/ GPUEnabled gpu = true ->
      exists r, computeRate card owner class gpu = Some r /\
        (owner = OwnerPlatformFleet -> 0 < CPUHour r /\ 0 < MemoryGiBHour r /\ (gpu = noGPU \/ 0 < GPUCardHour r)).
Proof.
  intros Ht. exists published, current_card. split; [apply rateHistory_published|]. split.
  { apply card_walk_all; [|right; intros E; pose proof published_length; by rewrite E in *].
    apply List.Forall_forall. intros c Hc. assert (Hd := published_dates). rewrite forallb_forall in Hd.
    specialize (Hd c Hc). bools. lia. }
  intros owner class gpu Hgpu. assert (H := current_card_complete).
  unfold card_complete in H. rewrite forallb_forall in H. specialize (H class (all_classes_In class)).
  rewrite forallb_forall in H. assert (Hin : In gpu priced_fleet_gpus).
  { destruct Hgpu as [->|Hg]; [by left|]. right. unfold GPUEnabled in Hg.
    apply existsb_exists in Hg as (g & Hin & Heq). bools. by subst. }
  specialize (H gpu Hin). rewrite forallb_forall in H. specialize (H owner ltac:(destruct owner; simpl; tauto)).
  destruct (computeRate current_card owner class gpu) as [r|]; [|done]. exists r. split; [done|]. intros ->.
  apply orb_true_iff in H as [H|H]; bools; [done|]. split; [lia|]. split; [lia|].
  apply orb_true_iff in H0 as [H0|H0]; bools; [by left|right; lia].
Qed.

Lemma rate_card_total_witness :
  exists history card, rateHistory = Some history /\ cardAt history (time_Date 2026 11 1 0 0 0 0) = Some card /\
    forall owner class gpu, gpu = noGPU \/ GPUEnabled gpu = true ->
      exists r, computeRate card owner class gpu = Some r /\
        (owner = OwnerPlatformFleet -> 0 < CPUHour r /\ 0 < MemoryGiBHour r /\ (gpu = noGPU \/ 0 < GPUCardHour r)).
Proof. apply rate_card_total. vm_compute. discriminate. Defined.

(** splitting an interval at [changesBetween] prices each part under
    one card: two instants of the interval with no returned change between
    them have the same card. *)
Theorem changesBetween_constant (history : list rateChange) (from to t u : Z) :
  from <= t -> t <= u -> u < to ->
  (forall c, In c (changesBetween history from to) -> ~ (t < c <= u)) ->
  cardAt history t = cardAt history u.
Proof.
  intros H1 H2 H3 Hc. apply card_walk_same, List.Forall_forall. intros c Hin.
  split; [lia|]. intros Hle. destruct (Z.le_gt_cases (rc_effectiveAt c) t); [done|]. exfalso.
  apply (Hc (rc_effectiveAt c)); [|lia]. unfold changesBetween. apply in_map, List.filter_In.
  split; [done|]. rewrite Z.gtb_ltb. apply andb_true_iff. split; apply Z.ltb_lt; lia.
Qed.

Lemma changesBetween_constant_witness :
  cardAt published (time_Date 2026 9 10 6 0 0 0) = cardAt published (time_Date 2026 9 20 0 0 0 0).
Proof.
  apply (changesBetween_constant published (time_Date 2026 9 10 0 0 0 0) (time_Date 2026 10 1 0 0 0 0));
    [vm_compute; congruence..|].
  intros c Hc. vm_compute in Hc. destruct Hc as [<-|[<-|[<-|[]]]]; vm_compute; intros [? ?]; congruence.
Defined.
