(* ===== verification/Policy.v ===== *)
(** The fleet policy (internal/compute/fleet_policy.go): purchase markets,
    headroom targets, the largest shape a market's reserve fits, and the
    policy record with the values the planner runs. *)

From S2P Require Import Prelude Capacity Catalog.

(** ** Markets *)

Record ReserveMarket := mkRM { Preemptible : bool; rm_GPU : string }.

#[export] Instance ReserveMarket_eq_dec : EqDecision ReserveMarket.
Proof. solve_decision. Defined.
#[export] Instance ReserveMarket_countable : Countable ReserveMarket.
Proof.
  refine (inj_countable' (fun m => (Preemptible m, rm_GPU m)) (fun p => mkRM p.1 p.2) _). by intros [].
Defined.

(** [ReserveMarket.String]. *)
Definition rm_String (m : ReserveMarket) : string :=
  (if Preemptible m then "spot" else "on_demand") +:+ ":" +:+ (if rm_GPU m != "" then rm_GPU m else "cpu").

Definition spotCPU (m : ReserveMarket) : bool := m == mkRM true "".

Definition buyMarket (m : ReserveMarket) : Market :=
  if Preemptible m then MarketSpot else MarketOnDemand.

Definition reserveMarketOf (market : Market) (gpu : string) : ReserveMarket :=
  mkRM (market == MarketSpot) gpu.

(** ** Targets *)

Record HeadroomTarget := mkHT { Floor : FleetCapacity; LoadPercent : Z }.
#[export] Instance HeadroomTarget_eq_dec : EqDecision HeadroomTarget.
Proof. solve_decision. Defined.

(** [HeadroomTarget{}]. *)
Definition ht0 : HeadroomTarget := mkHT cap0 0.

(** [HeadroomTarget.Of]. *)
Definition ht_Of (t : HeadroomTarget) (load : FleetCapacity) : FleetCapacity :=
  Upper (Floor t) (Percent load (LoadPercent t)).

Record MarketReserve := mkMR {
  Warm : HeadroomTarget;
  Stopped : HeadroomTarget;
  FitLargest : bool;
  AwaitReturn : bool }.

Definition mr0 : MarketReserve := mkMR ht0 ht0 false false.

Record LargestShape := mkLS {
  ls_Window : Z;
  ls_Default : FleetCapacity;
  ls_SpotGPU : FleetCapacity;
  ls_Cap : FleetCapacity;
  ls_CapDisks : Z }.

(** The most a type of the model within the cap offers. *)
Definition ls_offered (s : LargestShape) (gpu : string) (catalog : list CatalogType) : FleetCapacity :=
  fold_left (fun offered t =>
    let u := Usable t 0 in
    if (t_GPU t == gpu) && Covers (ls_Cap s) u then Upper offered u else offered) catalog cap0.

(** [LargestShape.of]. *)
Definition ls_of (s : LargestShape) (m : ReserveMarket) (largest : FleetCapacity) (disks : Z)
    (catalog : list CatalogType) : FleetCapacity * Z :=
  let bounded largest := (Lower (Lower largest (ls_Cap s)) (ls_offered s (rm_GPU m) catalog), Z.min disks (ls_CapDisks s)) in
  if rm_GPU m == "" then bounded (Upper largest (ls_Default s))
  else if GPUs largest >? 0 then bounded (mkCap (CPUMillis largest) (MemoryBytes largest) 1)
  else if Preemptible m then bounded (ls_SpotGPU s)
  else (cap0, 0).

Record GPUReserve := mkGR { gr_Spot : MarketReserve; gr_OnDemand : MarketReserve }.
Record BatchWindow := mkBW { bw_Quiet : Z; bw_Max : Z }.
Record StartTimes := mkST {
  st_Launch : Z; st_GPULaunch : Z; st_Resume : Z; st_GPUResume : Z; st_SpotDisable : Z; st_SpotDisableMax : Z }.

Record Policy := mkPolicy {
  MarginPercent : Z;
  Provision : Z;
  CostHorizon : Z;
  MaxGrowthActions : Z;
  p_Spot : MarketReserve;
  p_OnDemand : MarketReserve;
  p_GPU : gmap string GPUReserve;
  p_LargestShape : LargestShape;
  ArrivalWindow : Z;
  WarmWindow : Z;
  Batch : BatchWindow;
  Keep : Z;
  SpotPriceAge : Z;
  SpotWait : Z;
  LossCapPercent : Z;
  LossBudget : Z;
  QueueTimeout : Z;
  Starts : StartTimes }.

(** ** The policy the planner runs *)

Definition DefaultPolicy : Policy :=
  let cpuMarket := mkMR (mkHT (mkCap 1000 (4 * gib) 0) 25) (mkHT (mkCap 3000 (12 * gib) 0) 50) true false in
  let spotMarket := mkMR (Warm cpuMarket) (mkHT (Floor (Stopped cpuMarket)) 0) true false in
  let card := mkMR (mkHT cap0 25) (mkHT cap0 50) true false in
  let spotCard := mkMR (Warm card) (Stopped card) true true in
  let gpus := list_to_map (map (fun model => (model, mkGR spotCard card)) ["T4"; "A10G"; "L4"]) in
  let fits := Usable (mkType "" "" (twoPerCore 16) (32 * gib) "" 0 false false [0; 0; 0; 0]) 0 in
  let oneCard := Usable (mkType "" "" (twoPerCore 8) (32 * gib) "" 1 false false [0; 0; 0; 0]) 0 in
  let limit := mkType "" "" (twoPerCore 32) (64 * gib) "" 1 false false [0; 0; 0; 0] in
  {| MarginPercent := 5;
     Provision := 300 * second;
     CostHorizon := hour;
     MaxGrowthActions := 16;
     p_Spot := spotMarket;
     p_OnDemand := cpuMarket;
     p_GPU := gpus;
     p_LargestShape := mkLS (7 * 24 * hour) fits oneCard (Usable limit 0) (DiskSlots limit);
     ArrivalWindow := 2 * minute;
     WarmWindow := 30 * minute;
     Batch := mkBW second (5 * second);
     Keep := 2 * minute;
     SpotPriceAge := hour;
     SpotWait := 2 * minute;
     LossCapPercent := 15;
     LossBudget := 20000000;
     QueueTimeout := 20 * minute;
     Starts := mkST (23 * second) (150 * second) (15 * second) (70 * second) (66 * second) (180 * second) |}.

(** [Policy.Reserve]: a GPU model the policy leaves out keeps nothing. *)
Definition Reserve (p : Policy) (m : ReserveMarket) : MarketReserve :=
  let gpu := default (mkGR mr0 mr0) (p_GPU p !! rm_GPU m) in
  if (rm_GPU m != "") && Preemptible m then gr_Spot gpu
  else if rm_GPU m != "" then gr_OnDemand gpu
  else if Preemptible m then p_Spot p
  else p_OnDemand p.

(** [Policy.Markets]. *)
Definition Markets (p : Policy) : list ReserveMarket :=
  let cards := sort_by String.compare (map fst (map_to_list (p_GPU p))) in
  [mkRM true ""; mkRM false ""] ++ flat_map (fun card => [mkRM true card; mkRM false card]) cards.

(** The markets a policy names are distinct while every card it reserves has
    a name. *)
Lemma Markets_NoDup p : p_GPU p !! "" = None -> NoDup (Markets p).
Proof.
  intros Hn. unfold Markets.
  assert (Hs : NoDup (sort_by String.compare (map fst (map_to_list (p_GPU p))))).
  { rewrite sort_by_perm. apply NoDup_fst_map_to_list. }
  assert (He : ~ In "" (sort_by String.compare (map fst (map_to_list (p_GPU p))))).
  { rewrite sort_by_In. intros ([k v] & Hk & Hin)%in_map_iff. simpl in Hk. subst k.
    apply list_elem_of_In, elem_of_map_to_list in Hin. congruence. }
  revert Hs He. generalize (sort_by String.compare (map fst (map_to_list (p_GPU p)))) as cards.
  intros cards Hs He.
  assert (Hin : forall m, m ∈ flat_map (fun card => [mkRM true card; mkRM false card]) cards -> In (rm_GPU m) cards).
  { intros m (c & Hc & [<-|[<-|[]]])%list_elem_of_In%in_flat_map; done. }
  assert (Hnd : NoDup (flat_map (fun card => [mkRM true card; mkRM false card]) cards)).
  { clear He Hin. induction Hs as [|c cards Hc Hs IH]; simpl; [constructor|].
    assert (forall m, m ∈ flat_map (fun card => [mkRM true card; mkRM false card]) cards -> In (rm_GPU m) cards).
    { intros m (c' & Hc' & [<-|[<-|[]]])%list_elem_of_In%in_flat_map; done. }
    constructor; [|constructor; [|done]].
    - rewrite elem_of_cons. intros [?|Hm%H]; [done|]. by apply Hc, list_elem_of_In.
    - intros Hm%H. by apply Hc, list_elem_of_In. }
  simpl. constructor; [|constructor; [|done]].
  - rewrite elem_of_cons. by intros [?|?%Hin].
  - by intros ?%Hin.
Qed.
