(* ===== verification/Placement.v ===== *)
(** Host capacity and the choice of a host (internal/compute/capacity.go):
    what a container requires, what a host offers, whether one accepts and
    fits the other, the host [ChooseHost] picks and the room a placement
    takes, GPU work evicting packed CPU work.

    Ids are UUIDs, modelled as their 128-bit value: their canonical text is
    fixed-width lowercase hex, so comparing texts compares values. *)

From S2P Require Import Prelude Float64 Capacity Catalog.

Definition uuid : Type := Z.
Definition HostID : Type := Z.

Inductive HostKind := KindPlatform | KindConnection | KindMachine.
#[export] Instance HostKind_eq_dec : EqDecision HostKind.
Proof. solve_decision. Defined.

Inductive Provider := ProviderAgent | ProviderAWS.
#[export] Instance Provider_eq_dec : EqDecision Provider.
Proof. solve_decision. Defined.

Definition GPUAny : string := "any".

Record Requirement := mkReq {
  r_Workspace : uuid;
  r_Connection : option uuid;
  r_Machine : string;
  r_Region : string;
  r_Zone : string;
  r_Preemptible : bool;
  r_GPUs : list string;
  r_GPUCount : Z;
  r_CPUMillis : Z;
  r_MemoryBytes : Z;
  r_Disks : Z;
  r_Prefer : option HostID;
  r_Read : option VolumeRead;
  r_Packs : bool }.
#[export] Instance Requirement_eq_dec : EqDecision Requirement.
Proof. solve_decision. Defined.

(** [Requirement{}]. *)
Definition req0 : Requirement := mkReq 0 None "" "" "" false [] 0 0 0 0 None None false.

Definition VolumeReadOf (region : option string) (bytes : Z) : option VolumeRead :=
  match region with None => None | Some region => Some (mkRead region bytes) end.

Definition GPUsNeeded (r : Requirement) : Z :=
  if (r_GPUCount r =? 0) && negb (bool_decide (r_GPUs r = [])) then 1 else r_GPUCount r.

(** [reservedShape] (fleet_plan.go): what a requirement reserves on a
    host. *)
Definition reservedShape (r : Requirement) : FleetCapacity := mkCap (r_CPUMillis r) (r_MemoryBytes r) (GPUsNeeded r).

Record HostCapacity := mkHC {
  hc_Host : HostID;
  hc_Kind : HostKind;
  hc_Provider : Provider;
  hc_Connection : option uuid;
  hc_Name : string;
  hc_Workspaces : list uuid;
  hc_Region : string;
  hc_Zone : string;
  hc_ZoneID : string;
  hc_Market : Market;
  hc_GPUType : string;
  hc_GPUCount : Z;
  hc_CPUMillis : Z;
  hc_MemoryBytes : Z;
  FreeCPUMillis : Z;
  FreeMemoryBytes : Z;
  FreeGPUs : Z;
  FreeDiskSlots : Z;
  hc_HandsBack : bool;
  hc_Packed : FleetCapacity }.

(** The host with other free resources and packed work. *)
Definition hc_with_free (h : HostCapacity) (cpu mem gpus disks : Z) (packed : FleetCapacity) : HostCapacity :=
  mkHC (hc_Host h) (hc_Kind h) (hc_Provider h) (hc_Connection h) (hc_Name h) (hc_Workspaces h) (hc_Region h) (hc_Zone h)
    (hc_ZoneID h) (hc_Market h) (hc_GPUType h) (hc_GPUCount h) (hc_CPUMillis h) (hc_MemoryBytes h)
    cpu mem gpus disks (hc_HandsBack h) packed.

(** ** Acceptance *)

(** [sameOwner] (planner.go). *)
Definition sameOwner (a b : option uuid) : bool :=
  match a, b with
  | None, None => true
  | Some a, Some b => a =? b
  | _, _ => false
  end.

Definition GPUAccepted (preference : list string) (model : string) : bool :=
  if model == "" then false else existsb (fun p => (p == GPUAny) || (p == model)) preference.

(** [GPURank], -1 for a model the preference does not name. *)
Definition GPURank (preference : list string) (model : string) : Z :=
  match index_func (fun p => (p == GPUAny) || (p == model)) preference with
  | Some n => Z.of_nat n
  | None => -1
  end.

Definition ProductRegion (region : string) : string :=
  if existsb (fun r => r == region) ["us-east-1"; "us-east-2"] then "us-east"
  else if existsb (fun r => r == region) ["us-west-1"; "us-west-2"] then "us-west"
  else if existsb (fun r => r == region) ["eu-central-1"; "eu-central-2"] then "eu-central"
  else if region == "eu-north-1" then "eu-north"
  else if existsb (fun r => r == region) ["ap-southeast-1"; "ap-southeast-3"; "ap-southeast-5"] then "ap-southeast"
  else "".

(** [HostCapacity.packs]. *)
Definition packs (h : HostCapacity) (r : Requirement) : bool :=
  r_Packs r && (GPUsNeeded r =? 0) && (hc_GPUCount h >? 0) && (hc_Provider h == ProviderAWS) && (FreeGPUs h <? hc_GPUCount h).

Definition Accepts (h : HostCapacity) (r : Requirement) : bool :=
  let target :=
    if r_Machine r != "" then
      negb ((hc_Kind h != KindMachine) || (hc_Name h != r_Machine r) || negb (existsb (fun w => w =? r_Workspace r) (hc_Workspaces h)))
    else negb ((hc_Kind h == KindMachine) || negb (sameOwner (hc_Connection h) (r_Connection r))) in
  if negb target then false
  else if (r_Region r != "") && (ProductRegion (hc_Region h) != r_Region r) then false
  else if (r_Zone r != "") && (hc_Zone h != r_Zone r) && (hc_ZoneID h != r_Zone r) then false
  else if (negb (r_Preemptible r) && (hc_Market h == MarketSpot)) || (r_Preemptible r && hc_HandsBack h) then false
  else if GPUsNeeded r >? 0 then (hc_GPUCount h >=? GPUsNeeded r) && GPUAccepted (r_GPUs r) (hc_GPUType h)
  else (hc_GPUCount h =? 0) || (hc_Provider h != ProviderAWS) || packs h r.

(** [HostCapacity.room]: the CPU and memory [r] may take. *)
Definition hc_room (h : HostCapacity) (r : Requirement) : FleetCapacity :=
  let room := mkCap (FreeCPUMillis h) (FreeMemoryBytes h) 0 in
  if GPUsNeeded r >? 0 then Plus room (hc_Packed h) else room.

Definition Fits (h : HostCapacity) (r : Requirement) : bool :=
  let room := hc_room h r in
  Accepts h r && (CPUMillis room >=? r_CPUMillis r) && (MemoryBytes room >=? r_MemoryBytes r) &&
  (FreeGPUs h >=? GPUsNeeded r) && (FreeDiskSlots h >=? r_Disks r).

Definition Evicts (h : HostCapacity) (r : Requirement) : bool :=
  (GPUsNeeded r >? 0) && ((FreeCPUMillis h <? r_CPUMillis r) || (FreeMemoryBytes h <? r_MemoryBytes r)).

(** ** Taking room *)

Definition Evict (h : HostCapacity) (shape : FleetCapacity) : HostCapacity :=
  hc_with_free h (FreeCPUMillis h + CPUMillis shape) (FreeMemoryBytes h + MemoryBytes shape) (FreeGPUs h) (FreeDiskSlots h)
    (Minus (hc_Packed h) shape).

(** [HostCapacity.Reserve]. *)
Definition hc_Reserve (h : HostCapacity) (r : Requirement) : HostCapacity :=
  let h := hc_with_free h (FreeCPUMillis h - r_CPUMillis r) (FreeMemoryBytes h - r_MemoryBytes r) (FreeGPUs h - GPUsNeeded r)
    (FreeDiskSlots h - r_Disks r) (hc_Packed h) in
  if GPUsNeeded r >? 0 then Evict h (mkCap (Z.max (- FreeCPUMillis h) 0) (Z.max (- FreeMemoryBytes h) 0) 0)
  else h.

(** ** Choosing a host *)

Definition floorHost (h : HostCapacity) : bool :=
  (hc_Kind h != KindMachine) && (hc_Market h == MarketOnDemand) && (hc_GPUCount h =? 0).

Definition keepsFloor (h : HostCapacity) (floor : FleetCapacity) : bool :=
  floorHost h && (FreeCPUMillis h >=? CPUMillis floor) && (FreeMemoryBytes h >=? MemoryBytes floor).

(** A host of [r]'s account that keeps the floor free. *)
Definition holder (r : Requirement) (floor : FleetCapacity) (h : HostCapacity) : bool :=
  keepsFloor h floor && sameOwner (hc_Connection h) (r_Connection r).

(** [holders], which [ChooseHost] counts only for Spot-tolerant work under a
    floor. *)
Definition count_holders (hosts : list HostCapacity) (r : Requirement) (floor : FleetCapacity) : Z :=
  if r_Preemptible r && negb (Empty floor) then Z.of_nat (length (List.filter (holder r floor) hosts)) else 0.

Record rank := mkRank { borrows : bool; elsewhere : bool; remote : bool; unpacked : bool; evicts : bool; score : float64 }.

Definition rank_of (h : HostCapacity) (r : Requirement) : rank := {|
  borrows := r_Preemptible r && (hc_Market h != MarketSpot);
  elsewhere := match r_Prefer r with None => true | Some id => negb (hc_Host h =? id) end;
  remote := match r_Read r with None => true | Some read => hc_Region h != vr_Region read end;
  unpacked := negb (packs h r);
  evicts := Evicts h r;
  score := fadd (fdiv (of_int (FreeCPUMillis h - r_CPUMillis r)) (of_int (hc_CPUMillis h)))
                (fdiv (of_int (FreeMemoryBytes h - r_MemoryBytes r)) (of_int (hc_MemoryBytes h))) |}.

Definition rank_compare (a b : rank) : comparison :=
  boolOrder (borrows a) (borrows b) <+> (boolOrder (elsewhere a) (elsewhere b) <+> (boolOrder (remote a) (remote b) <+>
  (boolOrder (unpacked a) (unpacked b) <+> (boolOrder (evicts a) (evicts b) <+> fcompare (score a) (score b))))).

(** The hosts the loop of [ChooseHost] does not skip: sized ones that fit,
    and of those [r] would borrow the ones that leave a holder of the floor. *)
Definition eligible (holders : Z) (r : Requirement) (floor : FleetCapacity) (h : HostCapacity) : bool :=
  if (hc_CPUMillis h <=? 0) || (hc_MemoryBytes h <=? 0) || negb (Fits h r) then false
  else if borrows (rank_of h r) && negb (Empty floor) && floorHost h then
    let after := hc_Reserve h r in
    let left := if keepsFloor h floor && negb (keepsFloor after floor) then holders - 1 else holders in
    negb (left <? 1)
  else true.

Fixpoint choose_loop (holders : Z) (r : Requirement) (floor : FleetCapacity) (i : nat) (hosts : list HostCapacity)
    (best : option (nat * rank)) : option (nat * rank) :=
  match hosts with
  | [] => best
  | h :: hosts =>
      let best :=
        if eligible holders r floor h then
          match best with
          | None => Some (i, rank_of h r)
          | Some (_, bestRank) => if is_lt (rank_compare (rank_of h r) bestRank) then Some (i, rank_of h r) else best
          end
        else best in
      choose_loop holders r floor (S i) hosts best
  end.

(** [ChooseHost]: the index of the host, [None] for -1. *)
Definition ChooseHost (hosts : list HostCapacity) (r : Requirement) (floor : FleetCapacity) : option nat :=
  fst <$> choose_loop (count_holders hosts r floor) r floor 0 hosts None.

(** ** Lemmas *)

#[export] Instance rank_compare_order : CmpOrder rank_compare.
Proof.
  repeat apply cmp_or_order;
    [apply (cmp_preimage_order borrows)|apply (cmp_preimage_order elsewhere)|apply (cmp_preimage_order remote)
    |apply (cmp_preimage_order unpacked)|apply (cmp_preimage_order evicts)|apply (cmp_preimage_order score)]; apply _.
Qed.

(** What the loop holds after a prefix of hosts: the first eligible host of
    the lowest rank. *)
Definition best_of (holders : Z) (r : Requirement) (floor : FleetCapacity) (hosts : list HostCapacity)
    (best : option (nat * rank)) : Prop :=
  match best with
  | None => forall h, In h hosts -> eligible holders r floor h = false
  | Some (i, rk) =>
      (exists h, hosts !! i = Some h /\ eligible holders r floor h = true /\ rk = rank_of h r) /\
      (forall j h, hosts !! j = Some h -> eligible holders r floor h = true ->
         rank_compare rk (rank_of h r) <> Gt /\ ((j < i)%nat -> rank_compare rk (rank_of h r) = Lt))
  end.

Lemma best_of_skip holders r floor pre h best :
  eligible holders r floor h = false ->
  best_of holders r floor pre best -> best_of holders r floor (pre ++ [h]) best.
Proof.
  intros He. destruct best as [[i rk]|]; simpl.
  - intros [(hi & Hi & Hel & Hrk) Hmin]. split.
    + exists hi. split; [|done]. by apply lookup_app_l_Some.
    + intros j h' [Hj|[_ Hj]]%lookup_app_Some; [by apply Hmin|].
      apply list_lookup_singleton_Some in Hj as [_ <-]. congruence.
  - intros Hn h' [Hin|[<-|[]]]%in_app_iff; auto.
Qed.

Lemma best_of_take holders r floor pre h best :
  eligible holders r floor h = true ->
  best_of holders r floor pre best ->
  best_of holders r floor (pre ++ [h])
    (match best with
     | None => Some (length pre, rank_of h r)
     | Some (_, rk) => if is_lt (rank_compare (rank_of h r) rk) then Some (length pre, rank_of h r) else best
     end).
Proof.
  intros He Hb.
  assert (Hlast : (pre ++ [h]) !! length pre = Some h) by (by rewrite lookup_app_r, Nat.sub_diag).
  destruct best as [[i rk]|]; simpl in *.
  - destruct Hb as [(hi & Hi & Hel & Hrk) Hmin].
    destruct (rank_compare (rank_of h r) rk) eqn:E; simpl;
      try (split; [exists hi; split; [by apply lookup_app_l_Some|done]|];
           intros j h' [Hj|[Hlen Hj]]%lookup_app_Some; [by apply Hmin|]; intros _;
           apply list_lookup_singleton_Some in Hj as [Hj <-];
           rewrite (cmp_opp (cmp := rank_compare) (rank_of h r)), E; split; [done|];
           apply lookup_lt_Some in Hi; lia).
    split; [by exists h|]. intros j h' Hj Hj'.
    apply lookup_app_Some in Hj as [Hj|[Hlen Hj]].
    + destruct (Hmin j h' Hj Hj') as [Hle _].
      assert (rank_compare (rank_of h r) (rank_of h' r) = Lt); [|rewrite H; done].
      destruct (rank_compare (rank_of h r) (rank_of h' r)) eqn:E'; [|done|].
      * exfalso. apply (cmp_trans rk (rank_of h' r) (rank_of h r)); [done| |].
        -- by rewrite (cmp_opp (cmp := rank_compare) (rank_of h r)), E'.
        -- by rewrite (cmp_opp (cmp := rank_compare) (rank_of h r)), E.
      * exfalso. eapply (cmp_trans (rank_of h r) rk (rank_of h' r)); [by rewrite E|done|done].
    + apply list_lookup_singleton_Some in Hj as [Hj <-]. rewrite cmp_refl by apply _. split; [done|lia].
  - split; [by exists h|]. intros j h' [Hj|[Hlen Hj]]%lookup_app_Some Hj'.
    + exfalso. rewrite (Hb h') in Hj'; [done|]. by apply list_elem_of_lookup_2, list_elem_of_In in Hj.
    + apply list_lookup_singleton_Some in Hj as [Hj <-]. rewrite cmp_refl by apply _. split; [done|lia].
Qed.

Lemma choose_loop_best holders r floor pre hosts best :
  best_of holders r floor pre best ->
  best_of holders r floor (pre ++ hosts) (choose_loop holders r floor (length pre) hosts best).
Proof.
  revert pre best. induction hosts as [|h hosts IH]; intros pre best Hb; simpl; [by rewrite app_nil_r|].
  replace (S (length pre)) with (length (pre ++ [h])) by (rewrite length_app; simpl; lia).
  change (h :: hosts) with ([h] ++ hosts). rewrite app_assoc. apply IH.
  destruct (eligible holders r floor h) eqn:E.
  - by apply (best_of_take _ _ _ pre h best E Hb).
  - by apply best_of_skip.
Qed.

Lemma ChooseHost_best hosts r floor :
  exists best, ChooseHost hosts r floor = fst <$> best /\ best_of (count_holders hosts r floor) r floor hosts best.
Proof.
  eexists. split; [reflexivity|]. apply (choose_loop_best _ _ _ [] hosts None). by intros h [].
Qed.

Lemma eligible_Fits holders r floor h :
  eligible holders r floor h = true -> Fits h r = true /\ 0 < hc_CPUMillis h /\ 0 < hc_MemoryBytes h.
Proof. unfold eligible. destruct (_ || _ || _) eqn:E; [done|]. intros _. bools. repeat split; [done|lia..]. Qed.

Lemma ChooseHost_Fits hosts r floor i h :
  ChooseHost hosts r floor = Some i -> hosts !! i = Some h -> Fits h r = true.
Proof.
  destruct (ChooseHost_best hosts r floor) as (best & -> & Hb). destruct best as [[i' rk]|]; [|done].
  intros [= ->] Hi. destruct Hb as [(h' & Hi' & Hel & _) _]. apply eligible_Fits in Hel as [? _]. congruence.
Qed.

(** Free room and packed work of a host are not negative. *)
Definition hc_wf (h : HostCapacity) : Prop :=
  0 <= FreeCPUMillis h /\ 0 <= FreeMemoryBytes h /\ 0 <= FreeGPUs h /\ 0 <= FreeDiskSlots h /\
  0 <= CPUMillis (hc_Packed h) /\ 0 <= MemoryBytes (hc_Packed h).

Lemma hc_Reserve_wf h r : Fits h r = true -> hc_wf h -> hc_wf (hc_Reserve h r).
Proof.
  unfold Fits, hc_room, hc_wf, hc_Reserve. intros HF Hwf. bools.
  destruct (GPUsNeeded r >? 0) eqn:E; simpl in *; bools; lia.
Qed.

Lemma hc_Reserve_fixed h r :
  let h' := hc_Reserve h r in
  hc_Host h' = hc_Host h /\ hc_Kind h' = hc_Kind h /\ hc_Connection h' = hc_Connection h /\ hc_Market h' = hc_Market h /\
  hc_GPUCount h' = hc_GPUCount h.
Proof. unfold hc_Reserve. by destruct (GPUsNeeded r >? 0). Qed.

Lemma filter_insert_length {A} (f : A -> bool) (l : list A) i x y :
  l !! i = Some x ->
  Z.of_nat (length (List.filter f (<[i:=y]> l))) =
  Z.of_nat (length (List.filter f l)) - Z.b2z (f x) + Z.b2z (f y).
Proof.
  revert i. induction l as [|a l IH]; intros [|i] Hi; simplify_eq/=.
  - destruct (f x), (f y); simpl; lia.
  - specialize (IH i Hi). destruct (f a); simpl; lia.
Qed.

(** ** Theorems *)

(** [ChooseHost] answers -1 exactly when no host is eligible; otherwise
    the host it names is eligible, so it accepts the container and has room
    for it, and no eligible host ranks before it: borrowing, the preferred
    host, the read region, packing, eviction and the tightness score decide
    in that order, and the first of equals wins. *)
Theorem ChooseHost_optimal (hosts : list HostCapacity) (r : Requirement) (floor : FleetCapacity) :
  let holders := count_holders hosts r floor in
  match ChooseHost hosts r floor with
  | None => forall h, In h hosts -> eligible holders r floor h = false
  | Some i => exists h, hosts !! i = Some h /\ Fits h r = true /\ eligible holders r floor h = true /\
      forall j h', hosts !! j = Some h' -> eligible holders r floor h' = true ->
        rank_compare (rank_of h r) (rank_of h' r) <> Gt /\
        ((j < i)%nat -> rank_compare (rank_of h r) (rank_of h' r) = Lt)
  end.
Proof.
  simpl. destruct (ChooseHost_best hosts r floor) as (best & -> & Hb).
  destruct best as [[i rk]|]; simpl in *; [|done].
  destruct Hb as [(h & Hi & He & ->) Hmin]. exists h. split; [done|]. split; [by eapply eligible_Fits|done].
Qed.

(** Spot-tolerant work never takes the last of the on-demand warm
    floor: once it is placed on an on-demand fleet CPU host, some host of
    its account still keeps the floor free, so work that cannot run on Spot
    starts at once. *)
Theorem ChooseHost_keeps_floor (hosts : list HostCapacity) (r : Requirement) (floor : FleetCapacity) (i : nat) (h : HostCapacity) :
  ChooseHost hosts r floor = Some i -> hosts !! i = Some h ->
  r_Preemptible r = true -> Empty floor = false -> floorHost h = true ->
  exists h', In h' (<[i := hc_Reserve h r]> hosts) /\ holder r floor h' = true.
Proof.
  intros Hc Hi Hp He Hf. destruct (ChooseHost_best hosts r floor) as (best & E & Hb).
  rewrite Hc in E. destruct best as [[i' rk]|]; [|done]. injection E as <-.
  destruct Hb as [(h' & Hi' & Hel & _) _]. assert (h' = h) as -> by congruence.
  assert (Hfit := proj1 (eligible_Fits _ _ _ _ Hel)).
  unfold eligible in Hel. destruct (_ || _ || _); [done|]. unfold rank_of in Hel.
  assert (Hm : hc_Market h = MarketOnDemand) by (unfold floorHost in Hf; bools; done).
  simpl in Hel. rewrite Hp, He, Hf, Hm in Hel. simpl in Hel. bools.
  assert (Hown : sameOwner (hc_Connection h) (r_Connection r) = true).
  { unfold Fits, Accepts in Hfit. unfold floorHost in Hf. bools.
    destruct (r_Machine r != ""); simpl in *; case_bool_decide; try done.
    by destruct (sameOwner (hc_Connection h) (r_Connection r)). }
  destruct (hc_Reserve_fixed h r) as (_ & _ & Hcon & _).
  assert (Hn : 1 <= Z.of_nat (length (List.filter (holder r floor) (<[i:=hc_Reserve h r]> hosts)))).
  { rewrite (filter_insert_length _ _ _ h) by done. unfold count_holders in Hel. rewrite Hp, He in Hel. simpl in Hel.
    unfold holder at 2 3. rewrite Hcon, Hown, !andb_true_r.
    destruct (keepsFloor h floor), (keepsFloor (hc_Reserve h r) floor); simpl in *; lia. }
  destruct (List.filter (holder r floor) (<[i:=hc_Reserve h r]> hosts)) as [|x l] eqn:Ex; [simpl in Hn; lia|].
  exists x. apply List.filter_In. rewrite Ex. by left.
Qed.

(** reserving a container that fits keeps a host's books straight:
    free CPU, memory, GPUs and disk slots and the packed CPU work all stay
    non-negative, and free room plus packed work falls by exactly what the
    container reserves, whether it fits the free room or evicts packed work. *)
Theorem Reserve_sound (h : HostCapacity) (r : Requirement) :
  Fits h r = true -> hc_wf h ->
  hc_wf (hc_Reserve h r) /\
  FreeCPUMillis (hc_Reserve h r) + CPUMillis (hc_Packed (hc_Reserve h r)) =
    FreeCPUMillis h + CPUMillis (hc_Packed h) - r_CPUMillis r /\
  FreeMemoryBytes (hc_Reserve h r) + MemoryBytes (hc_Packed (hc_Reserve h r)) =
    FreeMemoryBytes h + MemoryBytes (hc_Packed h) - r_MemoryBytes r /\
  FreeGPUs (hc_Reserve h r) = FreeGPUs h - GPUsNeeded r /\
  FreeDiskSlots (hc_Reserve h r) = FreeDiskSlots h - r_Disks r /\
  (Evicts h r = false -> hc_Packed (hc_Reserve h r) = hc_Packed h).
Proof.
  intros HF Hwf. split; [by apply hc_Reserve_wf|].
  unfold hc_Reserve, Evicts. destruct (GPUsNeeded r >? 0) eqn:E; simpl; repeat split; try lia; intros He; bools;
    try done.
  destruct (hc_Packed h); unfold Minus; simpl; f_equal; lia.
Qed.

(** A GPU host with 8 cores and 32 GiB running GPU and packed CPU work, and
    an on-demand CPU host, for the witnesses. *)
Definition sample_gpu_host : HostCapacity :=
  mkHC 7 KindPlatform ProviderAWS None "" [] "us-east-1" "us-east-1a" "use1-az1" MarketOnDemand "L4" 4 8000 (32 * gib)
    1000 (4 * gib) 2 4 false (mkCap 4000 (8 * gib) 0).

Definition sample_cpu_host (id : Z) (freeCPU freeMem : Z) : HostCapacity :=
  mkHC id KindPlatform ProviderAWS None "" [] "us-east-1" "us-east-1a" "use1-az1" MarketOnDemand "" 0 8000 (32 * gib)
    freeCPU freeMem 0 4 false cap0.

Definition sample_gpu_work : Requirement :=
  mkReq 1 None "" "" "" false ["L4"] 1 3000 (10 * gib) 1 None None false.

Definition sample_spot_work : Requirement :=
  mkReq 1 None "" "" "" true [] 0 2000 (4 * gib) 0 None None false.

Definition sample_floor : FleetCapacity := mkCap 1000 (4 * gib) 0.

Lemma ChooseHost_keeps_floor_witness :
  exists h', In h' (<[0%nat := hc_Reserve (sample_cpu_host 1 2500 (16 * gib)) sample_spot_work]>
      [sample_cpu_host 1 2500 (16 * gib); sample_cpu_host 2 8000 (30 * gib)]) /\
    holder sample_spot_work sample_floor h' = true.
Proof.
  apply (ChooseHost_keeps_floor [sample_cpu_host 1 2500 (16 * gib); sample_cpu_host 2 8000 (30 * gib)]);
    vm_compute; reflexivity.
Defined.

Lemma Reserve_sound_witness :
  let h := sample_gpu_host in let r := sample_gpu_work in
  hc_wf (hc_Reserve h r) /\
  FreeCPUMillis (hc_Reserve h r) + CPUMillis (hc_Packed (hc_Reserve h r)) =
    FreeCPUMillis h + CPUMillis (hc_Packed h) - r_CPUMillis r /\
  FreeMemoryBytes (hc_Reserve h r) + MemoryBytes (hc_Packed (hc_Reserve h r)) =
    FreeMemoryBytes h + MemoryBytes (hc_Packed h) - r_MemoryBytes r /\
  FreeGPUs (hc_Reserve h r) = FreeGPUs h - GPUsNeeded r /\
  FreeDiskSlots (hc_Reserve h r) = FreeDiskSlots h - r_Disks r /\
  (Evicts h r = false -> hc_Packed (hc_Reserve h r) = hc_Packed h).
Proof. apply Reserve_sound; vm_compute; repeat split; congruence. Defined.
