(* ===== verification/Scheduler.v ===== *)
(** Placement of pending containers (internal/scheduling/placement.go): the
    packing of one batch onto the hosts with free capacity. The rows the
    database returns are the inputs; the transaction around it is not
    modelled. *)

From S2P Require Import Prelude Capacity Catalog Policy Placement.

(** ** Rows (placement.sql.go) *)

Record PendingContainersRow := mkPending {
  pc_ID : uuid;
  pc_WorkspaceID : uuid;
  pc_CpuMillis : Z;
  pc_MemoryBytes : Z;
  pc_ConnectionID : option uuid;
  pc_Machine : string;
  pc_Region : string;
  pc_Zone : string;
  pc_Preemptible : bool;
  pc_Gpus : list string;
  pc_GpuCount : Z;
  pc_Disks : Z;
  pc_DiskHost : option uuid;
  pc_Bought : option uuid;
  pc_ReadRegion : option string;
  pc_ReadBytes : Z;
  pc_Packs : bool }.

Record PackedContainersRow := mkPacked {
  pk_ID : uuid;
  pk_HostID : uuid;
  pk_CpuMillis : Z;
  pk_MemoryBytes : Z }.

(** ** Operations *)

(** [requirement]. *)
Definition requirement (c : PendingContainersRow) : Requirement :=
  mkReq (pc_WorkspaceID c) (pc_ConnectionID c) (pc_Machine c) (pc_Region c) (pc_Zone c) (pc_Preemptible c) (pc_Gpus c)
    (pc_GpuCount c) (pc_CpuMillis c) (pc_MemoryBytes c) (pc_Disks c) (pc_DiskHost c)
    (VolumeReadOf (pc_ReadRegion c) (pc_ReadBytes c)) (pc_Packs c).

(** [boolRank], through [cmp.Compare]. *)
Definition boolRank (b : bool) : Z := if b then 1 else 0.

(** The hosts whose packed containers [packedOn] reads. *)
Definition packed_hosts (hosts : list HostCapacity) (pending : list PendingContainersRow) : list HostID :=
  if existsb (fun c => GPUsNeeded (requirement c) >? 0) pending
  then map hc_Host (List.filter (fun h => negb (Empty (hc_Packed h))) hosts)
  else [].

(** [packedOn]: the rows [read] returns for those hosts, by host. *)
Definition packedOn (read : list HostID -> list PackedContainersRow) (hosts : list HostCapacity)
    (pending : list PendingContainersRow) : gmap HostID (list PackedContainersRow) :=
  match packed_hosts hosts pending with
  | [] => ∅
  | ids => fold_left (fun out r => <[pk_HostID r := default [] (out !! pk_HostID r) ++ [r]]> out) (read ids) ∅
  end.

(** An assignment: the container, its host and the packed containers it
    evicts there. *)
Record assignment := mkAsg { as_container : PendingContainersRow; as_host : HostID; as_evicts : list PackedContainersRow }.

(** The variables [pack] updates. *)
Record pack_state := mkPS {
  ps_free : list HostCapacity;
  ps_packed : gmap HostID (list PackedContainersRow);
  ps_assigned : list assignment }.

Definition bought_bin (free : list HostCapacity) (c : PendingContainersRow) : option nat :=
  match pc_Bought c with
  | None => None
  | Some id => index_func (fun h => hc_Host h =? id) free
  end.

(** Whether the host bought for [c] serves with room for it. *)
Definition bought_fits (free : list HostCapacity) (c : PendingContainersRow) : bool :=
  match bought_bin free c with
  | Some i => match free !! i with Some h => Fits h (requirement c) | None => false end
  | None => false
  end.

Definition shape_of (r : PackedContainersRow) : FleetCapacity := mkCap (pk_CpuMillis r) (pk_MemoryBytes r) 0.

(** Evicts packed containers in their order until the work fits or none is
    left: the host, the rows left and those evicted. *)
Fixpoint evict_loop (need : Requirement) (h : HostCapacity) (rest : list PackedContainersRow) :
    HostCapacity * list PackedContainersRow * list PackedContainersRow :=
  match rest with
  | [] => (h, [], [])
  | r :: rest' =>
      if Evicts h need then
        let '(h', kept, out) := evict_loop need (Evict h (shape_of r)) rest' in (h', kept, r :: out)
      else (h, rest, [])
  end.

(** One container of the loop of [pack]. *)
Definition pack_one (floor : FleetCapacity) (st : pack_state) (c : PendingContainersRow) : pack_state :=
  let need := requirement c in
  let best := if bought_fits (ps_free st) c then bought_bin (ps_free st) c else ChooseHost (ps_free st) need floor in
  match best with
  | None => st
  | Some i =>
      match ps_free st !! i with
      | None => st
      | Some h =>
          let '(h', rest, evicts) := evict_loop need h (default [] (ps_packed st !! hc_Host h)) in
          if Evicts h' need then st
          else
            mkPS (<[i := hc_Reserve h' need]> (ps_free st))
              (match evicts with [] => ps_packed st | _ => <[hc_Host h := rest]> (ps_packed st) end)
              (ps_assigned st ++ [mkAsg c (hc_Host h) evicts])
      end
  end.

(** The order [pack] takes the batch in: containers whose bought host has
    room, then those that cannot run on Spot, then the rest. *)
Definition pack_order (hosts : list HostCapacity) (pending : list PendingContainersRow) : list PendingContainersRow :=
  List.filter (bought_fits hosts) pending ++
  sort_by (fun a b => Z.compare (boolRank (pc_Preemptible a)) (boolRank (pc_Preemptible b)))
    (List.filter (fun c => negb (bought_fits hosts c)) pending).

Definition pack_run (hosts : list HostCapacity) (pending : list PendingContainersRow)
    (packed : gmap HostID (list PackedContainersRow)) : pack_state :=
  fold_left (pack_one (Floor (Warm (p_OnDemand DefaultPolicy)))) (pack_order hosts pending) (mkPS hosts packed []).

(** [pack]: parallel container and host ids, and what each assignment
    evicts. *)
Definition pack (hosts : list HostCapacity) (pending : list PendingContainersRow)
    (packed : gmap HostID (list PackedContainersRow)) : list uuid * list uuid * gmap uuid (list uuid) :=
  let assigned := ps_assigned (pack_run hosts pending packed) in
  (map (fun a => pc_ID (as_container a)) assigned,
   map as_host assigned,
   fold_left (fun victims a =>
     match as_evicts a with
     | [] => victims
     | evicts => <[pc_ID (as_container a) := map pk_ID evicts]> victims
     end) assigned ∅).

(** ** What a batch puts on a host *)

Definition on_host (h : HostID) (assigned : list assignment) : list assignment :=
  List.filter (fun a => as_host a =? h) assigned.

Definition reserved_on (h : HostID) (assigned : list assignment) : FleetCapacity :=
  totalOf (on_host h assigned) (fun a => reservedShape (requirement (as_container a))).

Definition disks_on (h : HostID) (assigned : list assignment) : Z :=
  sumZ (map (fun a => pc_Disks (as_container a)) (on_host h assigned)).

Definition evicted_on (h : HostID) (assigned : list assignment) : list PackedContainersRow :=
  concat (map as_evicts (on_host h assigned)).

(** A host's free CPU, memory and GPUs. *)
Definition free_of (h : HostCapacity) : FleetCapacity := mkCap (FreeCPUMillis h) (FreeMemoryBytes h) (FreeGPUs h).

(** ** Lemmas *)

(** Evicting packed rows moves their room from packed to free. *)
Lemma evict_loop_spec need h rest h' kept out :
  evict_loop need h rest = (h', kept, out) ->
  rest = out ++ kept /\
  h' = hc_with_free h (FreeCPUMillis h + CPUMillis (total (map shape_of out)))
         (FreeMemoryBytes h + MemoryBytes (total (map shape_of out))) (FreeGPUs h) (FreeDiskSlots h)
         (Minus (hc_Packed h) (total (map shape_of out))).
Proof.
  assert (Hid : forall h, h = hc_with_free h (FreeCPUMillis h + CPUMillis (total [])) (FreeMemoryBytes h + MemoryBytes (total []))
            (FreeGPUs h) (FreeDiskSlots h) (Minus (hc_Packed h) (total []))).
  { intros []. unfold hc_with_free, total, Minus. simpl. f_equal; try lia.
    match goal with |- ?p = mkCap _ _ _ => destruct p; simpl; f_equal; lia end. }
  revert h h' kept out. induction rest as [|r rest IH]; intros h h' kept out; simpl.
  - intros [= <- <- <-]. split; [done|apply Hid].
  - destruct (Evicts h need).
    + destruct (evict_loop need (Evict h (shape_of r)) rest) as [[h1 l1] o1] eqn:E. intros [= <- <- <-].
      apply IH in E as [-> ->]. split; [done|]. simpl map. rewrite total_cons.
      unfold Evict, hc_with_free, Minus, Plus. simpl. f_equal; try lia. f_equal; lia.
    + intros [= <- <- <-]. split; [done|apply Hid].
Qed.

(** The host list keeps its ids, each host's books stay straight with room
    for the packed rows left, and what was assigned and evicted accounts for
    the difference from the start. *)
Record pack_inv (hosts : list HostCapacity) (packed : gmap HostID (list PackedContainersRow)) (st : pack_state) : Prop := {
  pi_ids : map hc_Host (ps_free st) = map hc_Host hosts;
  pi_wf : forall i h, ps_free st !! i = Some h ->
    hc_wf h /\ total (map shape_of (default [] (ps_packed st !! hc_Host h))) ⊑c hc_Packed h;
  pi_rows : forall id, default [] (packed !! id) = evicted_on id (ps_assigned st) ++ default [] (ps_packed st !! id);
  pi_books : forall i h0 h, hosts !! i = Some h0 -> ps_free st !! i = Some h ->
    free_of h = Minus (Plus (free_of h0) (total (map shape_of (evicted_on (hc_Host h0) (ps_assigned st)))))
                  (reserved_on (hc_Host h0) (ps_assigned st)) /\
    FreeDiskSlots h = FreeDiskSlots h0 - disks_on (hc_Host h0) (ps_assigned st) }.

Lemma on_host_app h l a :
  on_host h (l ++ [a]) = on_host h l ++ (if as_host a =? h then [a] else []).
Proof. unfold on_host. rewrite List.filter_app. simpl. by destruct (as_host a =? h). Qed.

Lemma evicted_on_app h l a :
  evicted_on h (l ++ [a]) = evicted_on h l ++ (if as_host a =? h then as_evicts a else []).
Proof.
  unfold evicted_on. rewrite on_host_app, map_app, concat_app. f_equal.
  destruct (as_host a =? h); simpl; [apply app_nil_r|done].
Qed.

Lemma reserved_on_app h l a :
  reserved_on h (l ++ [a]) =
  Plus (reserved_on h l) (if as_host a =? h then reservedShape (requirement (as_container a)) else cap0).
Proof.
  unfold reserved_on. rewrite on_host_app, totalOf_app. f_equal.
  destruct (as_host a =? h); [|done]. unfold totalOf. simpl. apply Plus_0_l.
Qed.

Lemma disks_on_app h l a :
  disks_on h (l ++ [a]) = disks_on h l + (if as_host a =? h then pc_Disks (as_container a) else 0).
Proof.
  unfold disks_on. rewrite on_host_app, map_app, sumZ_app. f_equal. destruct (as_host a =? h); simpl; lia.
Qed.

Lemma total_app l k : total (l ++ k) = Plus (total l) (total k).
Proof. rewrite <- (list_fmap_id l), <- (list_fmap_id k), <- fmap_app, <- !totalOf_total. apply totalOf_app. Qed.

(** A packed row holds no negative room. *)
Definition row_nonneg (r : PackedContainersRow) : Prop := 0 <= pk_CpuMillis r /\ 0 <= pk_MemoryBytes r.

Lemma total_rows_nonneg rows : Forall row_nonneg rows -> cap_nonneg (total (map shape_of rows)).
Proof.
  induction 1 as [|r rows [H1 H2] Hr IH]; [cap_lia|]. simpl. rewrite total_cons. unfold shape_of at 1. cap_lia.
Qed.

Lemma total_rows_GPUs rows : GPUs (total (map shape_of rows)) = 0.
Proof. induction rows as [|r rows IH]; [done|]. simpl. rewrite total_cons. simpl. lia. Qed.

(** What the host is once the loop has evicted for [need] and reserved it. *)
Lemma pack_reserve h need h' rest evicts rows :
  Fits h need = true -> hc_wf h -> Forall row_nonneg rows -> total (map shape_of rows) ⊑c hc_Packed h ->
  evict_loop need h rows = (h', rest, evicts) -> Evicts h' need = false ->
  let hn := hc_Reserve h' need in
  hc_Host hn = hc_Host h /\ hc_wf hn /\ total (map shape_of rest) ⊑c hc_Packed hn /\
  free_of hn = Minus (Plus (free_of h) (total (map shape_of evicts))) (reservedShape need) /\
  FreeDiskSlots hn = FreeDiskSlots h - r_Disks need.
Proof.
  intros HF Hwf Hrows Hpk Hev He. apply evict_loop_spec in Hev as [-> ->].
  apply Forall_app in Hrows as [Hr1%total_rows_nonneg Hr2%total_rows_nonneg].
  rewrite map_app, total_app in Hpk. set (e := total (map shape_of evicts)) in *. set (k := total (map shape_of rest)) in *.
  assert (Hg : GPUs e = 0) by apply total_rows_GPUs. clearbody e k. unfold Evicts in He. simpl in He. unfold Fits, hc_room in HF. bools.
  unfold hc_Reserve, hc_wf, free_of, reservedShape in *. cap_simpl.
  destruct (GPUsNeeded need >? 0) eqn:E; simpl in *; bools; cap_simpl;
    (split; [done|]); (split; [lia|]); (split; [lia|]); (split; [f_equal; lia|lia]).
Qed.

(** The bin a container goes to fits it. *)
Lemma pack_best_fits floor st c i h :
  (if bought_fits (ps_free st) c then bought_bin (ps_free st) c else ChooseHost (ps_free st) (requirement c) floor) = Some i ->
  ps_free st !! i = Some h -> Fits h (requirement c) = true.
Proof.
  unfold bought_fits. intros Hb Hi. destruct (bought_bin (ps_free st) c) as [j|] eqn:Ej;
    [|by eapply ChooseHost_Fits].
  destruct (ps_free st !! j) as [hj|] eqn:Ehj; [destruct (Fits hj (requirement c)) eqn:Ef|];
    try by eapply ChooseHost_Fits. congruence.
Qed.

Lemma insert_ids (free : list HostCapacity) i h h' :
  free !! i = Some h -> hc_Host h' = hc_Host h -> map hc_Host (<[i:=h']> free) = map hc_Host free.
Proof.
  intros Hi Hh. rewrite list_fmap_insert, Hh. apply list_insert_id. by rewrite list_lookup_fmap, Hi.
Qed.

Lemma pack_one_inv floor hosts packed st c :
  NoDup (map hc_Host hosts) -> (forall id, Forall row_nonneg (default [] (packed !! id))) ->
  pack_inv hosts packed st -> pack_inv hosts packed (pack_one floor st c).
Proof.
  intros Hnd Hrows [Hids Hwf Hrw Hbk]. unfold pack_one.
  destruct (if bought_fits _ _ then _ else _) as [i|] eqn:Eb; [|by split].
  destruct (ps_free st !! i) as [h|] eqn:Hi; [|by split].
  assert (HF := pack_best_fits _ _ _ _ _ Eb Hi). destruct (Hwf i h Hi) as [Hh Hp].
  destruct (evict_loop (requirement c) h _) as [[h' rest] evicts] eqn:Ev.
  destruct (Evicts h' (requirement c)) eqn:Ee; [by split|].
  assert (Hrn : Forall row_nonneg (default [] (ps_packed st !! hc_Host h))).
  { specialize (Hrows (hc_Host h)). rewrite Hrw in Hrows. by apply Forall_app in Hrows as [_ ?]. }
  destruct (pack_reserve h (requirement c) h' rest evicts _ HF Hh Hrn Hp Ev Ee) as (Hid & Hwn & Hpn & Hfn & Hdn).
  assert (Hpk : forall id, default [] ((match evicts with [] => ps_packed st | _ => <[hc_Host h:=rest]> (ps_packed st) end) !! id)
            = if hc_Host h =? id then rest else default [] (ps_packed st !! id)).
  { apply evict_loop_spec in Ev as [Hsplit _]. intros id. destruct (Z.eqb_spec (hc_Host h) id) as [<-|Hne].
    - destruct evicts; [exact Hsplit|]. by rewrite lookup_insert_eq.
    - destruct evicts; [done|]. by rewrite lookup_insert_ne. }
  split; simpl.
  - by rewrite (insert_ids _ _ h).
  - intros j hj Hj. rewrite Hpk. apply list_lookup_insert_Some in Hj as [(-> & <- & _)|[Hne Hj]].
    + rewrite Hid, Z.eqb_refl. done.
    + destruct (Hwf j hj Hj) as [? ?]. destruct (Z.eqb_spec (hc_Host h) (hc_Host hj)) as [E|]; [|done].
      exfalso. apply Hne. rewrite <- Hids in Hnd. eapply NoDup_lookup; [exact Hnd|..]; rewrite list_lookup_fmap; [by rewrite Hi|by rewrite Hj; simpl; congruence].
  - intros id. rewrite evicted_on_app, Hpk, Hrw. simpl. rewrite <- app_assoc. f_equal.
    destruct (Z.eqb_spec (hc_Host h) id) as [<-|]; [|done]. by apply evict_loop_spec in Ev as [-> _].
  - intros j h0 hj Hj0 Hj. rewrite evicted_on_app, reserved_on_app, disks_on_app, map_app, total_app. simpl.
    assert (Hid0 : forall k hk, ps_free st !! k = Some hk -> hosts !! k = Some h0 -> hc_Host hk = hc_Host h0).
    { intros k hk Hk Hk0. assert (E : map hc_Host (ps_free st) !! k = map hc_Host hosts !! k) by (by rewrite Hids).
      rewrite !list_lookup_fmap, Hk, Hk0 in E. by injection E. }
    apply list_lookup_insert_Some in Hj as [(-> & <- & _)|[Hne Hj]].
    + destruct (Hbk j h0 h Hj0 Hi) as [B1 B2]. rewrite (Hid0 j h Hi Hj0), Z.eqb_refl, Hfn, Hdn, B1, B2.
      split; [|simpl; lia]. unfold Minus, Plus. simpl. f_equal; lia.
    + destruct (Hbk j h0 hj Hj0 Hj) as [B1 B2]. destruct (Z.eqb_spec (hc_Host h) (hc_Host h0)) as [E|].
      * exfalso. apply Hne. rewrite <- Hids in Hnd. eapply NoDup_lookup; [exact Hnd|..]; rewrite list_lookup_fmap;
          [by rewrite Hi|rewrite Hj; simpl; f_equal; rewrite E; by eapply Hid0].
      * rewrite B1, B2. split; [|lia]. unfold Minus, Plus, total. simpl. f_equal; lia.
Qed.

Lemma pack_run_inv hosts pending packed :
  NoDup (map hc_Host hosts) -> (forall id, Forall row_nonneg (default [] (packed !! id))) ->
  (forall i h, hosts !! i = Some h -> hc_wf h /\ total (map shape_of (default [] (packed !! hc_Host h))) ⊑c hc_Packed h) ->
  pack_inv hosts packed (pack_run hosts pending packed).
Proof.
  intros Hnd Hrows Hwf. unfold pack_run. apply fold_left_inv; [|intros; by apply pack_one_inv].
  split; simpl; [done|done|done|].
  intros i h0 h Hi Hj. assert (h = h0) as -> by congruence. unfold evicted_on, reserved_on, disks_on. simpl.
  split; [|lia]. unfold free_of, Minus, Plus, total, totalOf. simpl. f_equal; lia.
Qed.

(** Every container of the batch is considered once. *)
Lemma pack_order_perm hosts pending : pack_order hosts pending ≡ₚ pending.
Proof.
  unfold pack_order. rewrite sort_by_perm. induction pending as [|c pending IH]; simpl; [done|].
  destruct (bought_fits hosts c); simpl; [by rewrite IH|].
  rewrite <- Permutation_middle. by rewrite IH.
Qed.

(** What is assigned is a subsequence of the containers considered, each to
    one of the hosts, which accepts it. *)
Lemma pack_run_assigned hosts pending packed :
  let st := pack_run hosts pending packed in
  sublist (map as_container (ps_assigned st)) (pack_order hosts pending).
Proof.
  simpl. unfold pack_run.
  cut (forall floor l st, sublist (map as_container (ps_assigned (fold_left (pack_one floor) l st)))
         (map as_container (ps_assigned st) ++ l)).
  { intros H. apply (H _ _ (mkPS hosts packed [])). }
  intros floor l. induction l as [|c l IH]; intros st; simpl; [by rewrite app_nil_r|].
  etrans; [apply IH|]. unfold pack_one.
  assert (Hskip : sublist (map as_container (ps_assigned st) ++ l) (map as_container (ps_assigned st) ++ c :: l)).
  { apply sublist_app; [done|]. by apply sublist_cons. }
  destruct (if bought_fits _ _ then _ else _) as [i|]; [|done].
  destruct (ps_free st !! i) as [h|]; [|done].
  destruct (evict_loop _ _ _) as [[h' rest] ev]. destruct (Evicts h' _); [done|].
  simpl. rewrite map_app, <- app_assoc. done.
Qed.

(** ** Theorems *)

(** C35: a placement batch never overcommits a host. On every host, the
    CPU, memory and GPUs the batch reserves fit the free capacity read at its
    start together with the room of the packed CPU containers it evicts
    there, the disks fit the free slots, and each evicted container is one of
    the host's packed ones, taken once, in the order the query gave. *)
Theorem pack_no_overcommit (hosts : list HostCapacity) (pending : list PendingContainersRow)
    (packed : gmap HostID (list PackedContainersRow)) (i : nat) (h : HostCapacity) :
  NoDup (map hc_Host hosts) ->
  (forall id, Forall row_nonneg (default [] (packed !! id))) ->
  (forall i h, hosts !! i = Some h -> hc_wf h /\ total (map shape_of (default [] (packed !! hc_Host h))) ⊑c hc_Packed h) ->
  hosts !! i = Some h ->
  let assigned := ps_assigned (pack_run hosts pending packed) in
  Covers (Plus (free_of h) (total (map shape_of (evicted_on (hc_Host h) assigned)))) (reserved_on (hc_Host h) assigned) = true /\
  disks_on (hc_Host h) assigned <= FreeDiskSlots h /\
  (exists rest, default [] (packed !! hc_Host h) = evicted_on (hc_Host h) assigned ++ rest).
Proof.
  intros Hnd Hrows Hwf Hi. destruct (pack_run_inv hosts pending packed Hnd Hrows Hwf) as [Hids Hw Hrw Hbk].
  simpl. set (st := pack_run hosts pending packed) in *. clearbody st.
  destruct (ps_free st !! i) as [hf|] eqn:Hf.
  2:{ exfalso. assert (E : map hc_Host (ps_free st) !! i = map hc_Host hosts !! i) by (by rewrite Hids).
      by rewrite !list_lookup_fmap, Hf, Hi in E. }
  destruct (Hbk i h hf Hi Hf) as [B1 B2]. destruct (Hw i hf Hf) as [(W1 & W2 & W3 & W4 & _) _].
  split; [|split; [lia|eauto]].
  unfold free_of at 1, Minus in B1. injection B1 as C1 C2 C3. cap_lia.
Qed.

(** A batch over a GPU host running packed CPU work and a CPU host. *)
Definition sample_pending (id : uuid) (preemptible : bool) (gpus : list string) (cpu mem : Z) : PendingContainersRow :=
  mkPending id 1 cpu mem None "" "" "" preemptible gpus 0 0 None None None 0 false.

Definition sample_batch : list PendingContainersRow :=
  [sample_pending 101 true ["L4"] 3000 (10 * gib); sample_pending 102 false [] 2000 (4 * gib)].

Definition sample_rows : gmap HostID (list PackedContainersRow) :=
  {[ 7 := [mkPacked 201 7 2500 (3 * gib); mkPacked 202 7 1500 (5 * gib)] ]}.

Lemma pack_no_overcommit_witness :
  let assigned := ps_assigned (pack_run [sample_gpu_host; sample_cpu_host 8 8000 (30 * gib)] sample_batch sample_rows) in
  length assigned = 2%nat /\
  Covers (Plus (free_of sample_gpu_host) (total (map shape_of (evicted_on 7 assigned)))) (reserved_on 7 assigned) = true.
Proof.
  split; [reflexivity|].
  apply (pack_no_overcommit [sample_gpu_host; sample_cpu_host 8 8000 (30 * gib)] sample_batch sample_rows 0 sample_gpu_host).
  - apply (bool_decide_unpack _). vm_compute. exact I.
  - intros id. unfold sample_rows. destruct (decide (id = 7)) as [->|Hne].
    + vm_compute. repeat constructor; discriminate.
    + rewrite lookup_singleton_ne by congruence. constructor.
  - intros [|[|i]] h Hh; try discriminate; injection Hh as <-; vm_compute; repeat split; discriminate.
  - reflexivity.
Defined.

(** a batch assigns each pending container at most once and assigns
    nothing else: what it assigns is a subsequence of the batch in placement
    order, and that order is the batch rearranged, containers whose bought
    host has room first and, of the rest, those that cannot run on Spot
    before those that can. *)
Theorem pack_assigns_once (hosts : list HostCapacity) (pending : list PendingContainersRow)
    (packed : gmap HostID (list PackedContainersRow)) :
  NoDup (map pc_ID pending) ->
  let '(ids, hostIDs, _) := pack hosts pending packed in
  NoDup ids /\ length ids = length hostIDs /\ (forall id, In id ids -> In id (map pc_ID pending)) /\
  exists bought rest, pack_order hosts pending = bought ++ rest /\ (bought ++ rest) ≡ₚ pending /\
    Forall (fun c => bought_fits hosts c = true) bought /\
    StronglySorted (fun a b => pc_Preemptible a = true -> pc_Preemptible b = true) rest.
Proof.
  intros Hnd. unfold pack. simpl. assert (Hsub := pack_run_assigned hosts pending packed). simpl in Hsub.
  set (asg := ps_assigned (pack_run hosts pending packed)) in *. clearbody asg.
  assert (Hids : sublist (map (fun a => pc_ID (as_container a)) asg) (map pc_ID (pack_order hosts pending))).
  { rewrite <- (map_map as_container pc_ID). by apply fmap_sublist. }
  assert (Hnd' : NoDup (map pc_ID (pack_order hosts pending))).
  { assert (Hp := pack_order_perm hosts pending). by rewrite Hp. }
  split; [by eapply sublist_NoDup|]. split; [by rewrite !length_map|]. split.
  - intros id Hid. apply list_elem_of_In. assert (Hp := pack_order_perm hosts pending).
    rewrite <- Hp. eapply elem_of_sublist; [|exact Hids]. by apply list_elem_of_In.
  - eexists _, _. split; [reflexivity|]. split; [apply (pack_order_perm hosts pending)|]. split.
    + apply List.Forall_forall. by intros c [_ ?]%List.filter_In.
    + assert (Ho : CmpOrder (fun a b => Z.compare (boolRank (pc_Preemptible a)) (boolRank (pc_Preemptible b))))
        by (apply (cmp_preimage_order (fun c => boolRank (pc_Preemptible c))); apply _).
      assert (Hs := sort_by_sorted _ (List.filter (fun c => negb (bought_fits hosts c)) pending) (CmpOrder0 := Ho)).
      induction Hs as [|x l Hs IH Hx]; constructor; [done|].
      eapply Forall_impl; [exact Hx|]. intros y Hy. unfold cmp_le in Hy.
      destruct (pc_Preemptible x), (pc_Preemptible y); simpl in Hy; done.
Qed.

Lemma pack_assigns_once_witness :
  let '(ids, hostIDs, _) := pack [sample_gpu_host; sample_cpu_host 8 8000 (30 * gib)] sample_batch sample_rows in
  NoDup ids /\ length ids = length hostIDs /\ (forall id, In id ids -> In id (map pc_ID sample_batch)) /\
  exists bought rest, pack_order [sample_gpu_host; sample_cpu_host 8 8000 (30 * gib)] sample_batch = bought ++ rest /\
    (bought ++ rest) ≡ₚ sample_batch /\
    Forall (fun c => bought_fits [sample_gpu_host; sample_cpu_host 8 8000 (30 * gib)] c = true) bought /\
    StronglySorted (fun a b => pc_Preemptible a = true -> pc_Preemptible b = true) rest.
Proof.
  apply (pack_assigns_once [sample_gpu_host; sample_cpu_host 8 8000 (30 * gib)] sample_batch sample_rows).
  apply (bool_decide_unpack _). vm_compute. exact I.
Defined.
