(* ===== verification/Offers.v ===== *)
(** Ways to buy a host (internal/compute/fleet_offers.go): EC2 quotas and
    cooldowns, Spot quotes and placement scores, the purchase margin, the
    ranking of offers for a need and the size rule of GPU purchases. *)

From S2P Require Import Prelude Capacity Catalog Calendar Billing Policy Placement.

(** ** Inputs *)

Record OfferCooldown := mkCooldown {
  oc_Region : string; oc_ZoneID : string; oc_InstanceType : string; oc_Market : Market; oc_Until : Z; oc_Quota : bool }.

Record QuotaKey := mkQK { qk_Region : string; qk_Class : QuotaClass; qk_Market : Market }.
#[export] Instance QuotaKey_eq_dec : EqDecision QuotaKey.
Proof. solve_decision. Defined.
#[export] Instance QuotaKey_countable : Countable QuotaKey.
Proof.
  refine (inj_countable' (fun k => (qk_Region k, qk_Class k, qk_Market k)) (fun p => mkQK p.1.1 p.1.2 p.2) _). by intros [].
Defined.

Record VCPUQuota := mkQuota { vq_Key : QuotaKey; vq_VCPUs : Z }.

(** [SpotQuote] (spot_prices.go). *)
Record SpotQuote := mkQuote {
  sq_Region : string; sq_ZoneID : string; sq_InstanceType : string; sq_HourlyMicros : Z; sq_EffectiveAt : Z;
  sq_ObservedAt : Z; PlacementScore : Z }.

(** [Subnet] and [Network] (offers.go). *)
Record Subnet := mkSubnet { sn_ID : string; sn_Zone : string; sn_ZoneID : string }.
Record Network := mkNetwork { VPCID : string; SecurityGroupID : string; Subnets : list Subnet }.

Record OfferInputs := mkInputs {
  oi_Now : Z;
  Catalog : list CatalogType;
  Networks : gmap string Network;
  oi_Spot : list SpotQuote;
  Cooldowns : list OfferCooldown;
  Rates : list ComputeRate;
  ReportedMemory : gmap string Z;
  ZoneHosts : gmap string Z;
  ZoneTypes : gmap string (gmap string (list string));
  Quotas : list VCPUQuota;
  QuotaUsed : gmap QuotaKey Z;
  OwnerPays : bool;
  WaiveMargin : bool;
  StorageRegion : string;
  ReadBytes : gmap ReserveMarket Z }.

(** The assignments the planner makes to a copy of the inputs. *)
Definition with_QuotaUsed (i : OfferInputs) (v : gmap QuotaKey Z) : OfferInputs :=
  mkInputs (oi_Now i) (Catalog i) (Networks i) (oi_Spot i) (Cooldowns i) (Rates i) (ReportedMemory i) (ZoneHosts i)
    (ZoneTypes i) (Quotas i) v (OwnerPays i) (WaiveMargin i) (StorageRegion i) (ReadBytes i).
Definition with_Cooldowns (i : OfferInputs) (v : list OfferCooldown) : OfferInputs :=
  mkInputs (oi_Now i) (Catalog i) (Networks i) (oi_Spot i) v (Rates i) (ReportedMemory i) (ZoneHosts i)
    (ZoneTypes i) (Quotas i) (QuotaUsed i) (OwnerPays i) (WaiveMargin i) (StorageRegion i) (ReadBytes i).
Definition with_Quotas (i : OfferInputs) (v : list VCPUQuota) : OfferInputs :=
  mkInputs (oi_Now i) (Catalog i) (Networks i) (oi_Spot i) (Cooldowns i) (Rates i) (ReportedMemory i) (ZoneHosts i)
    (ZoneTypes i) v (QuotaUsed i) (OwnerPays i) (WaiveMargin i) (StorageRegion i) (ReadBytes i).
Definition with_OwnerPays (i : OfferInputs) (v : bool) : OfferInputs :=
  mkInputs (oi_Now i) (Catalog i) (Networks i) (oi_Spot i) (Cooldowns i) (Rates i) (ReportedMemory i) (ZoneHosts i)
    (ZoneTypes i) (Quotas i) (QuotaUsed i) v (WaiveMargin i) (StorageRegion i) (ReadBytes i).
Definition with_WaiveMargin (i : OfferInputs) (v : bool) : OfferInputs :=
  mkInputs (oi_Now i) (Catalog i) (Networks i) (oi_Spot i) (Cooldowns i) (Rates i) (ReportedMemory i) (ZoneHosts i)
    (ZoneTypes i) (Quotas i) (QuotaUsed i) (OwnerPays i) v (StorageRegion i) (ReadBytes i).
Definition with_Now (i : OfferInputs) (v : Z) : OfferInputs :=
  mkInputs v (Catalog i) (Networks i) (oi_Spot i) (Cooldowns i) (Rates i) (ReportedMemory i) (ZoneHosts i)
    (ZoneTypes i) (Quotas i) (QuotaUsed i) (OwnerPays i) (WaiveMargin i) (StorageRegion i) (ReadBytes i).

(** [marketRead]. *)
Definition marketRead (i : OfferInputs) (m : ReserveMarket) : option VolumeRead :=
  match ReadBytes i !! m with None => None | Some bytes => Some (mkRead (StorageRegion i) bytes) end.

(** [quotaRoom]: what each known quota leaves after [used]. *)
Definition quotaRoom (quotas : list VCPUQuota) (used : gmap QuotaKey Z) : gmap QuotaKey Z :=
  fold_left (fun room q => <[vq_Key q := vq_VCPUs q - default 0 (used !! vq_Key q)]> room) quotas ∅.

(** ** Offers *)

Record FleetOffer := mkOffer {
  o_Type : CatalogType;
  o_Region : string;
  o_Zone : string;
  o_ZoneID : string;
  o_Market : Market;
  o_Usable : FleetCapacity;
  Hibernate : bool;
  HourlyMicros : Z;
  StoppedMicros : Z;
  TransferMicros : Z;
  ReadMicros : Z;
  PlacementPenalty : Z;
  o_Quota : QuotaKey }.
#[export] Instance FleetOffer_eq_dec : EqDecision FleetOffer.
Proof. solve_decision. Defined.

Definition placementPenaltyPercent : Z := 4.
Definition placementFloor : Z := 1.

(** [FleetOffer.Key]. *)
Definition offer_Key (o : FleetOffer) : string :=
  o_Region o +:+ "/" +:+ o_ZoneID o +:+ "/" +:+ t_Name (o_Type o) +:+ "/" +:+ market_text (o_Market o).

(** [FleetOffer.ranked] and [running]. *)
Definition ranked (o : FleetOffer) (micros : Z) : Z := Z.quot (micros * (100 + PlacementPenalty o)) 100.
Definition running (o : FleetOffer) : Z := HourlyMicros o + TransferMicros o + ReadMicros o.

Definition servingCost (p : Policy) (o : FleetOffer) : Z := ranked o (running o * seconds (CostHorizon p)).

Definition reserveCost (p : Policy) (o : FleetOffer) : Z :=
  ranked o ((StoppedMicros o + ReadMicros o) * seconds (CostHorizon p) + HourlyMicros o * seconds (Provision p)).

(** ** The purchase margin *)

Inductive purchaseRejection := rejectUnpricedCapacity | rejectInsufficientMargin.
#[export] Instance purchaseRejection_eq_dec : EqDecision purchaseRejection.
Proof. solve_decision. Defined.

(** [indexRates]: the last rate of each class and GPU. *)
Definition rateIndex : Type := list (RateClass * string * ComputeRate).
Definition indexRates (rates : list ComputeRate) : rateIndex :=
  fold_left (fun index r => assoc_set (cr_Class r, cr_GPU r) r index) rates [].

Definition hourRevenue (rate : ComputeRate) (capacity : FleetCapacity) : Z :=
  Z.quot (CPUMillis capacity * CPUHour rate) 1000 +
  Z.quot (MemoryBytes capacity) gib * MemoryGiBHour rate + Z.quot (Z.rem (MemoryBytes capacity) gib * MemoryGiBHour rate) gib +
  GPUs capacity * GPUCardHour rate.

(** The class the work an offer is bought for pays. *)
Definition pays_class (need : Requirement) (o : FleetOffer) : RateClass :=
  RateClassFor ((r_Region need != "") || (r_Zone need != "")) (r_Preemptible need || (o_Market o == MarketSpot)).

Definition marginRejection (p : Policy) (rates : rateIndex) (o : FleetOffer) (need : Requirement) : option purchaseRejection :=
  match assoc (pays_class need o, t_GPU (o_Type o)) rates with
  | None => Some rejectUnpricedCapacity
  | Some rate =>
      if (CPUMillis (o_Usable o) <=? 0) || (MemoryBytes (o_Usable o) <=? 0) then Some rejectUnpricedCapacity
      else
        let revenue := hourRevenue rate (o_Usable o) in
        if revenue <=? 0 then Some rejectUnpricedCapacity
        else if HourlyMicros o >? Z.quot (revenue * (100 - MarginPercent p)) 100000 then Some rejectInsufficientMargin
        else None
  end.

(** ** Cooldowns and Spot quotes *)

(** [cooled]: a cooldown holds an offer back at [now]. *)
Definition cooled (cooldowns : list OfferCooldown) (now : Z) (region zoneID instanceType : string) (market : Market) : bool :=
  let class := fst (QuotaClassOf instanceType) in
  existsb (fun c =>
    if (oc_Region c != region) || ((oc_ZoneID c != "") && (oc_ZoneID c != zoneID)) || (oc_Market c != market) || negb (oc_Until c >? now)
    then false
    else
      let '(cooledClass, ok) := QuotaClassOf (oc_InstanceType c) in
      (oc_InstanceType c == instanceType) || (oc_Quota c && ok && (cooledClass == class))) cooldowns.

(** A Spot pool: region, zone id and instance type. *)
Definition spotPool : Type := string * string * string.

Definition freshSpot (p : Policy) (quotes : list SpotQuote) (now : Z) : gmap spotPool SpotQuote :=
  fold_left (fun fresh q =>
    if time_sub now (sq_ObservedAt q) >? SpotPriceAge p then fresh
    else
      let pool := (sq_Region q, sq_ZoneID q, sq_InstanceType q) in
      match fresh !! pool with
      | Some best => if sq_ObservedAt q >? sq_ObservedAt best then <[pool := q]> fresh else fresh
      | None => <[pool := q]> fresh
      end) quotes ∅.

Record scoreRange := mkRange { sr_best : Z; sr_worst : Z }.

Definition placementRanges (p : Policy) (i : OfferInputs) : gmap string scoreRange :=
  let shapes : gmap string string := fold_left (fun m t => <[t_Name t := placementShape t]> m) (Catalog i) ∅ in
  fold_left (fun ranges q =>
    match shapes !! sq_InstanceType q with
    | None => ranges
    | Some shape =>
        if (PlacementScore q =? 0) || (time_sub (oi_Now i) (sq_ObservedAt q) >? SpotPriceAge p) then ranges
        else
          let r := default (mkRange (PlacementScore q) (PlacementScore q)) (ranges !! shape) in
          <[shape := mkRange (Z.max (sr_best r) (PlacementScore q)) (Z.min (sr_worst r) (PlacementScore q))]> ranges
    end) (oi_Spot i) ∅.

Definition placementPenalty (ranges : gmap string scoreRange) (shape : string) (score : Z) : Z :=
  match ranges !! shape with
  | None => 0
  | Some r => placementPenaltyPercent * (sr_best r - (if score =? 0 then sr_worst r else score))
  end.

(** ** Ranking *)

(** The shape an offer must hold, and whether type [t] in a zone of [region]
    can be bought at all for [need]: sold there, offered in the zone, of the
    GPU kind and model the need takes and the fleet runs, with room and disk
    slots, and for a reserve within the cap. *)
Definition need_shape (need : Requirement) : FleetCapacity :=
  mkCap (r_CPUMillis need) (r_MemoryBytes need) (GPUsNeeded need).

Definition type_admitted (p : Policy) (need : Requirement) (reserve : bool) (i : OfferInputs) (region : string)
    (subnet : Subnet) (t : CatalogType) : bool :=
  let gpus := GPUsNeeded need in
  let usable := Usable t (default 0 (ReportedMemory i !! t_Name t)) in
  negb (match ZoneTypes i !! region with
        | Some zones => negb (existsb (fun n => n == t_Name t) (default [] (zones !! sn_ZoneID subnet)))
        | None => false
        end) &&
  negb (bool_decide (OnDemandMicros t region = None) || negb (Bool.eqb (gpus >? 0) (t_GPUCount t >? 0)) || (t_GPUCount t <? gpus) ||
        ((gpus >? 0) && negb (GPUAccepted (r_GPUs need) (t_GPU t))) ||
        ((t_GPU t != "") && negb (OwnerPays i) && negb (GPUEnabled (t_GPU t)))) &&
  negb (negb (Covers usable (need_shape need)) || (DiskSlots t <? r_Disks need) ||
        (reserve && negb (Covers (ls_Cap (p_LargestShape p)) usable))).

(** The hourly compute price and placement penalty of an offer, [None] for a
    Spot pool with no fresh quote or scored at the placement floor. *)
Definition market_price (p : Policy) (i : OfferInputs) (spot : gmap spotPool SpotQuote) (scores : gmap string scoreRange)
    (region : string) (subnet : Subnet) (t : CatalogType) (market : Market) : option (Z * Z) :=
  if market == MarketSpot then
    match spot !! (region, sn_ZoneID subnet, t_Name t) with
    | None => None
    | Some q =>
        if negb (PlacementScore q =? 0) && (PlacementScore q <=? placementFloor) then None
        else Some (sq_HourlyMicros q, placementPenalty scores (placementShape t) (PlacementScore q))
    end
  else Some (default 0 (OnDemandMicros t region), 0).

(** The offer of type [t] in one zone and market, [None] where the loop of
    [RankOffers] skips it. *)
Definition offer_at (p : Policy) (need : Requirement) (reserve : bool) (i : OfferInputs) (rates : rateIndex)
    (scores : gmap string scoreRange) (spot : gmap spotPool SpotQuote) (room : gmap QuotaKey Z)
    (region : string) (subnet : Subnet) (t : CatalogType) (market : Market) : option FleetOffer :=
  let hibernate := reserve && hibernates t in
  let disk := volumesMicros t region hibernate reserve in
  match market_price p i spot scores region subnet t market with
  | None => None
  | Some (compute, penalty) =>
      let quota := mkQK region (fst (QuotaClassOf (t_Name t))) market in
      if cooled (Cooldowns i) (oi_Now i) region (sn_ZoneID subnet) (t_Name t) market ||
         (match room !! quota with Some free => free <? VCPUs t | None => false end) then None
      else
        let o := mkOffer t region (sn_Zone subnet) (sn_ZoneID subnet) market
          (Usable t (default 0 (ReportedMemory i !! t_Name t))) hibernate
          (compute + disk + ipv4Hour (ratesIn region)) disk (transferMicros (StorageRegion i) region t)
          (readMicros (CostHorizon p) (r_Read need) region) penalty quota in
        match marginRejection p rates o need with
        | Some why =>
            if negb (OwnerPays i) && (negb (WaiveMargin i) || (why != rejectInsufficientMargin)) then None else Some o
        | None => Some o
        end
  end.

Definition need_markets (need : Requirement) : list Market :=
  if r_Preemptible need then [MarketSpot; MarketOnDemand] else [MarketOnDemand].

(** The offers in the order the loops of [RankOffers] append them. *)
Definition found_offers (p : Policy) (need : Requirement) (reserve : bool) (i : OfferInputs) : list FleetOffer :=
  let rates := indexRates (Rates i) in
  let scores := placementRanges p i in
  let spot := freshSpot p (oi_Spot i) (oi_Now i) in
  let room := quotaRoom (Quotas i) (QuotaUsed i) in
  flat_map (fun region =>
    if (r_Region need != "") && (ProductRegion region != r_Region need) then []
    else flat_map (fun subnet =>
      if (r_Zone need != "") && (sn_Zone subnet != r_Zone need) && (sn_ZoneID subnet != r_Zone need) then []
      else flat_map (fun t =>
        if type_admitted p need reserve i region subnet t
        then omap (offer_at p need reserve i rates scores spot room region subnet t) (need_markets need)
        else []) (Catalog i))
      (match Networks i !! region with Some n => Subnets n | None => [] end))
    (sort_by String.compare (map fst (map_to_list (Networks i)))).

(** The order of [RankOffers]: GPU preference, a reserve's cost, hourly cost
    with transfer, read and penalty, hosts in the zone, key. *)
Definition offer_order (p : Policy) (need : Requirement) (reserve : bool) (i : OfferInputs) (a b : FleetOffer) : comparison :=
  let kept o := if reserve then reserveCost p o else 0 in
  Z.compare (GPURank (r_GPUs need) (t_GPU (o_Type a))) (GPURank (r_GPUs need) (t_GPU (o_Type b))) <+>
  (Z.compare (kept a) (kept b) <+>
  (Z.compare (ranked a (running a)) (ranked b (running b)) <+>
  (Z.compare (default 0 (ZoneHosts i !! o_ZoneID a)) (default 0 (ZoneHosts i !! o_ZoneID b)) <+>
   String.compare (offer_Key a) (offer_Key b)))).

Definition RankOffers (p : Policy) (need : Requirement) (reserve : bool) (i : OfferInputs) : list FleetOffer :=
  sort_by (offer_order p need reserve i) (found_offers p need reserve i).

(** ** The size rule *)

Definition sizeRefs (p : Policy) (need : Requirement) (reserve : bool) (i : OfferInputs) : list FleetOffer :=
  match r_GPUs need with
  | [] => []
  | _ =>
      fold_left (fun refs o =>
        if existsb (fun r => (t_Name (o_Type r) == t_Name (o_Type o)) && (o_Market r == o_Market o)) refs then refs
        else refs ++ [o]) (RankOffers p need reserve (with_Quotas (with_Cooldowns i []) [])) []
  end.

Definition availableSoon (p : Policy) (i : OfferInputs) : OfferInputs := with_Now i (oi_Now i + bw_Max (Batch p)).

(** [Policy.sized]. *)
Definition sized (p : Policy) (o : FleetOffer) (holds : FleetCapacity) (disks : Z) (refs available : list FleetOffer) : bool :=
  let limit := Upper (ls_Cap (p_LargestShape p)) holds in
  (t_GPU (o_Type o) == "") ||
  negb (existsb (fun r =>
    if (t_Name (o_Type r) == t_Name (o_Type o)) || (o_Market r != o_Market o) || (t_GPU (o_Type r) != t_GPU (o_Type o)) ||
       negb (Covers (o_Usable r) holds) || (DiskSlots (o_Type r) <? disks) then false
    else (t_GPUCount (o_Type r) <? t_GPUCount (o_Type o)) ||
         (Covers limit (o_Usable r) && negb (Covers limit (o_Usable o))) ||
         (Covers (o_Usable o) (o_Usable r) &&
          existsb (fun a => (t_Name (o_Type a) == t_Name (o_Type r)) && (o_Market a == o_Market r)) available)) refs).

(** ** Lemmas *)

Lemma RankOffers_In p need reserve i o :
  In o (RankOffers p need reserve i) <->
  exists region net subnet t market,
    Networks i !! region = Some net /\ In subnet (Subnets net) /\ In t (Catalog i) /\ In market (need_markets need) /\
    (r_Region need = "" \/ ProductRegion region = r_Region need) /\
    (r_Zone need = "" \/ sn_Zone subnet = r_Zone need \/ sn_ZoneID subnet = r_Zone need) /\
    type_admitted p need reserve i region subnet t = true /\
    offer_at p need reserve i (indexRates (Rates i)) (placementRanges p i) (freshSpot p (oi_Spot i) (oi_Now i))
      (quotaRoom (Quotas i) (QuotaUsed i)) region subnet t market = Some o.
Proof.
  unfold RankOffers, found_offers. rewrite sort_by_In, in_flat_map. split.
  - intros (region & _ & H). destruct ((r_Region need != "") && _) eqn:E1; [done|].
    apply in_flat_map in H as (subnet & Hsub & H). destruct (Networks i !! region) as [net|] eqn:En; [|done].
    destruct ((r_Zone need != "") && _ && _) eqn:E2; [done|].
    apply in_flat_map in H as (t & Ht & H). destruct (type_admitted _ _ _ _ _ _ _) eqn:E3; [|done].
    apply list_elem_of_In, list_elem_of_omap in H as (market & Hm%list_elem_of_In & Ho).
    exists region, net, subnet, t, market. repeat split; try done.
    + apply andb_false_iff in E1 as [E|E]; bools; auto.
    + apply andb_false_iff in E2 as [[E|E]%andb_false_iff|E]; bools; auto.
  - intros (region & net & subnet & t & market & Hn & Hs & Ht & Hm & H1 & H2 & H3 & H4).
    exists region. split.
    { rewrite sort_by_In. apply in_map_iff. exists (region, net). split; [done|].
      by apply list_elem_of_In, elem_of_map_to_list. }
    destruct ((r_Region need != "") && _) eqn:E1; [bools; naive_solver|].
    rewrite Hn. apply in_flat_map. exists subnet. split; [done|].
    destruct ((r_Zone need != "") && _ && _) eqn:E2; [bools; naive_solver|].
    apply in_flat_map. exists t. split; [done|]. rewrite H3.
    apply list_elem_of_In, list_elem_of_omap. exists market. split; [by apply list_elem_of_In|done].
Qed.

#[export] Instance offer_order_order p need reserve i : CmpOrder (offer_order p need reserve i).
Proof.
  unfold offer_order. repeat apply cmp_or_order.
  - apply (cmp_preimage_order (fun o => GPURank (r_GPUs need) (t_GPU (o_Type o)))). apply _.
  - apply (cmp_preimage_order (fun o => if reserve then reserveCost p o else 0)). apply _.
  - apply (cmp_preimage_order (fun o => ranked o (running o))). apply _.
  - apply (cmp_preimage_order (fun o => default 0 (ZoneHosts i !! o_ZoneID o))). apply _.
  - apply (cmp_preimage_order offer_Key). apply _.
Qed.

(** A pool's fresh quote is one of the quotes, recent enough. *)
Lemma freshSpot_Some p quotes now pool q :
  freshSpot p quotes now !! pool = Some q ->
  In q quotes /\ pool = (sq_Region q, sq_ZoneID q, sq_InstanceType q) /\ time_sub now (sq_ObservedAt q) <= SpotPriceAge p.
Proof.
  unfold freshSpot. revert q. apply (fold_left_inv (fun m : gmap spotPool SpotQuote => forall q, m !! pool = Some q ->
    In q quotes /\ pool = (sq_Region q, sq_ZoneID q, sq_InstanceType q) /\ time_sub now (sq_ObservedAt q) <= SpotPriceAge p)).
  { intros q. by rewrite lookup_empty. }
  intros m b Hb IH q. destruct (Z.gtb_spec (time_sub now (sq_ObservedAt b)) (SpotPriceAge p)); [apply IH|].
  assert (Hins : <[(sq_Region b, sq_ZoneID b, sq_InstanceType b) := b]> m !! pool = Some q ->
    In q quotes /\ pool = (sq_Region q, sq_ZoneID q, sq_InstanceType q) /\ time_sub now (sq_ObservedAt q) <= SpotPriceAge p).
  { intros [[<- <-]|[_ Hq]]%lookup_insert_Some; [done|by apply IH]. }
  destruct (m !! (sq_Region b, sq_ZoneID b, sq_InstanceType b)) as [s|]; [destruct (sq_ObservedAt b >? sq_ObservedAt s)|]; auto.
Qed.

(** What [offer_at] puts in an offer, and the tests the offer passed. *)
Lemma offer_at_Some p need reserve i rates scores spot room region subnet t market o :
  offer_at p need reserve i rates scores spot room region subnet t market = Some o ->
  o_Type o = t /\ o_Region o = region /\ o_Zone o = sn_Zone subnet /\ o_ZoneID o = sn_ZoneID subnet /\ o_Market o = market /\
  o_Usable o = Usable t (default 0 (ReportedMemory i !! t_Name t)) /\
  o_Quota o = mkQK region (fst (QuotaClassOf (t_Name t))) market /\
  (exists penalty, market_price p i spot scores region subnet t market =
     Some (HourlyMicros o - StoppedMicros o - ipv4Hour (ratesIn region), penalty)) /\
  cooled (Cooldowns i) (oi_Now i) region (sn_ZoneID subnet) (t_Name t) market = false /\
  (forall free, room !! o_Quota o = Some free -> VCPUs t <= free) /\
  (OwnerPays i = false -> WaiveMargin i = false -> marginRejection p rates o need = None).
Proof.
  unfold offer_at. destruct (market_price _ _ _ _ _ _ _ _) as [[compute penalty]|] eqn:Em; [|done].
  destruct (cooled _ _ _ _ _ _ || _) eqn:Ec; [done|]. apply orb_false_iff in Ec as [Ec Eq].
  intros H. assert (Ho : Some o = Some (mkOffer t region (sn_Zone subnet) (sn_ZoneID subnet) market
    (Usable t (default 0 (ReportedMemory i !! t_Name t))) (reserve && hibernates t)
    (compute + volumesMicros t region (reserve && hibernates t) reserve + ipv4Hour (ratesIn region))
    (volumesMicros t region (reserve && hibernates t) reserve) (transferMicros (StorageRegion i) region t)
    (readMicros (CostHorizon p) (r_Read need) region) penalty (mkQK region (fst (QuotaClassOf (t_Name t))) market)) /\
    (OwnerPays i = false -> WaiveMargin i = false -> marginRejection p rates o need = None)).
  { destruct (marginRejection _ _ _ _) as [why|] eqn:Er.
    - destruct (negb (OwnerPays i) && _) eqn:E; [done|]. injection H as <-. split; [done|].
      intros H1 H2. by rewrite H1, H2 in E.
    - injection H as <-. split; [done|]. done. }
  destruct Ho as [[= ->] Hm]. simpl. repeat split; try done.
  - exists penalty. do 2 f_equal. lia.
  - intros free Hf. rewrite Hf in Eq. bools. lia.
Qed.

(** An offer holds the shape it is ranked for. *)
Lemma RankOffers_holds p need reserve i o : In o (RankOffers p need reserve i) -> need_shape need ⊑c o_Usable o.
Proof.
  intros (region & net & subnet & t & market & _ & _ & _ & _ & _ & _ & Ha & Ho)%RankOffers_In.
  apply offer_at_Some in Ho as (_ & _ & _ & _ & _ & -> & _). unfold type_admitted in Ha. bools. by apply Covers_spec.
Qed.

Lemma marginRejection_None p rates o need :
  marginRejection p rates o need = None ->
  exists rate, assoc (pays_class need o, t_GPU (o_Type o)) rates = Some rate /\
    HourlyMicros o <= Z.quot (hourRevenue rate (o_Usable o) * (100 - MarginPercent p)) 100000 /\ 0 < hourRevenue rate (o_Usable o).
Proof.
  unfold marginRejection. destruct (assoc _ _) as [rate|]; [|done].
  destruct (_ || _); [done|]. destruct (hourRevenue rate (o_Usable o) <=? 0) eqn:E; [done|].
  destruct (HourlyMicros o >? _) eqn:E'; [done|]. intros _. bools. eauto.
Qed.

Lemma quot_le_mul a b c : 0 < c -> 0 <= b -> a <= Z.quot b c -> a * c <= b.
Proof. intros Hc Hb H. rewrite Z.quot_div_nonneg in H by lia. pose proof (Z.mul_div_le b c Hc). nia. Qed.

Lemma need_markets_In need m :
  In m (need_markets need) -> m = MarketOnDemand \/ m = MarketSpot /\ r_Preemptible need = true.
Proof. unfold need_markets. destruct (r_Preemptible need); simpl; naive_solver. Qed.

(** ** Theorems *)

(** every offer [RankOffers] lists can host the need. It is a
    catalogued type sold in a launchable zone the need allows, on a market
    the need allows, with room, GPUs of an accepted model and disk slots for
    it; its pool does not cool after a refusal and its quota, where known,
    has room for the host; a Spot offer is priced by a fresh quote of its own
    pool; and a reserve lies within the size cap. *)
Theorem RankOffers_sound (p : Policy) (need : Requirement) (reserve : bool) (i : OfferInputs) (o : FleetOffer) :
  In o (RankOffers p need reserve i) ->
  let shape := mkCap (r_CPUMillis need) (r_MemoryBytes need) (GPUsNeeded need) in
  In (o_Type o) (Catalog i) /\ OnDemandMicros (o_Type o) (o_Region o) <> None /\
  (exists net subnet, Networks i !! o_Region o = Some net /\ In subnet (Subnets net) /\
     sn_Zone subnet = o_Zone o /\ sn_ZoneID subnet = o_ZoneID o) /\
  (r_Region need = "" \/ ProductRegion (o_Region o) = r_Region need) /\
  (r_Zone need = "" \/ o_Zone o = r_Zone need \/ o_ZoneID o = r_Zone need) /\
  (o_Market o = MarketOnDemand \/ o_Market o = MarketSpot /\ r_Preemptible need = true) /\
  Covers (o_Usable o) shape = true /\ r_Disks need <= DiskSlots (o_Type o) /\
  (0 < GPUsNeeded need -> GPUAccepted (r_GPUs need) (t_GPU (o_Type o)) = true) /\
  (0 < GPUsNeeded need <-> 0 < t_GPUCount (o_Type o)) /\
  cooled (Cooldowns i) (oi_Now i) (o_Region o) (o_ZoneID o) (t_Name (o_Type o)) (o_Market o) = false /\
  (forall free, quotaRoom (Quotas i) (QuotaUsed i) !! o_Quota o = Some free -> VCPUs (o_Type o) <= free) /\
  (o_Market o = MarketSpot -> exists q, In q (oi_Spot i) /\
     (sq_Region q, sq_ZoneID q, sq_InstanceType q) = (o_Region o, o_ZoneID o, t_Name (o_Type o)) /\
     time_sub (oi_Now i) (sq_ObservedAt q) <= SpotPriceAge p /\
     HourlyMicros o = sq_HourlyMicros q + StoppedMicros o + ipv4Hour (ratesIn (o_Region o))) /\
  (reserve = true -> Covers (ls_Cap (p_LargestShape p)) (o_Usable o) = true).
Proof.
  intros (region & net & subnet & t & market & Hn & Hs & Ht & Hm & Hr & Hz & Ha & Ho)%RankOffers_In.
  apply offer_at_Some in Ho as (-> & -> & Ez & Ezi & -> & -> & Eq & [pen Hp] & Hc & Hq & _).
  unfold type_admitted in Ha. bools. repeat match goal with H : (_ || _)%bool = false |- _ => apply orb_false_iff in H as [? ?] end.
  bools. simpl. rewrite Ez, Ezi.
  split; [done|]. split; [done|]. split; [eauto 6|]. do 2 (split; [done|]). split; [by apply need_markets_In|].
  split; [done|]. split; [lia|]. split.
  { intros Hg. destruct (GPUsNeeded need >? 0) eqn:E; bools; [|lia].
    by match goal with H : (true && _)%bool = false |- _ => simpl in H; apply negb_false_iff in H end. }
  split.
  { match goal with H : Bool.eqb _ _ = true |- _ => apply eqb_prop in H; rename H into Hb end.
    rewrite !Z.gtb_ltb in Hb. destruct (Z.ltb_spec 0 (GPUsNeeded need)), (Z.ltb_spec 0 (t_GPUCount t)); try done; lia. }
  split; [done|]. split; [done|]. split.
  - intros ->. unfold market_price in Hp. simpl in Hp.
    destruct (freshSpot p (oi_Spot i) (oi_Now i) !! _) as [q|] eqn:Es; [|done].
    destruct (negb (PlacementScore q =? 0) && _); [done|]. injection Hp as Hp _.
    apply freshSpot_Some in Es as (? & ? & ?). exists q. repeat split; try done. lia.
  - intros ->. by match goal with H : (true && _)%bool = false |- _ => simpl in H; apply negb_false_iff in H end.
Qed.

(** A region with one zone, current rates, a Spot quote and a known quota. *)
Definition sample_now : Z := time_Date 2026 11 1 12 0 0 0.

Definition sample_inputs : OfferInputs :=
  mkInputs sample_now FleetCatalog
    {[ "us-east-2" := mkNetwork "vpc" "sg" [mkSubnet "subnet-1" "us-east-2a" "use2-az1"] ]}
    [mkQuote "us-east-2" "use2-az1" "m7i.2xlarge" 160000 sample_now sample_now 7;
     mkQuote "us-east-2" "use2-az1" "g6.xlarge" 300000 sample_now sample_now 5]
    [] (default [] (FleetComputeRates published sample_now)) ∅ ∅ ∅
    [mkQuota (mkQK "us-east-2" QuotaStandard MarketSpot) 64] ∅ false false "us-east-2" ∅.

Definition sample_need : Requirement := mkReq 0 None "" "us-east" "" true [] 0 3000 (16 * gib) 1 None None false.

Definition sample_gpu_need : Requirement := mkReq 0 None "" "" "" true ["L4"] 1 1000 (8 * gib) 0 None None false.

Lemma RankOffers_sound_witness :
  exists o, In o (RankOffers DefaultPolicy sample_need false sample_inputs) /\ o_Market o = MarketSpot /\
    Covers (o_Usable o) (mkCap (r_CPUMillis sample_need) (r_MemoryBytes sample_need) (GPUsNeeded sample_need)) = true.
Proof.
  destruct (RankOffers DefaultPolicy sample_need false sample_inputs) as [|o l] eqn:E; [vm_compute in E; discriminate|].
  assert (Hin : In o (RankOffers DefaultPolicy sample_need false sample_inputs)) by (rewrite E; left; reflexivity).
  exists o. split; [left; reflexivity|]. split; [vm_compute in E; injection E as <- _; reflexivity|].
  apply (RankOffers_sound DefaultPolicy sample_need false sample_inputs o Hin).
Defined.

(** a purchase on the platform's account keeps its margin: unless the
    owner pays or the margin is waived, an offer's hourly price, in
    thousandths of a micro, is at most the unreserved share
    [100 - MarginPercent] of what its usable capacity earns an hour at the
    rate class the work pays, and that class has a rate. *)
Theorem RankOffers_margin (p : Policy) (need : Requirement) (reserve : bool) (i : OfferInputs) (o : FleetOffer) :
  In o (RankOffers p need reserve i) -> OwnerPays i = false -> WaiveMargin i = false -> MarginPercent p <= 100 ->
  exists rate, assoc (pays_class need o, t_GPU (o_Type o)) (indexRates (Rates i)) = Some rate /\
    0 < hourRevenue rate (o_Usable o) /\
    HourlyMicros o * 1000 * 100 <= hourRevenue rate (o_Usable o) * (100 - MarginPercent p).
Proof.
  intros (region & net & subnet & t & market & _ & _ & _ & _ & _ & _ & _ & Ho)%RankOffers_In H1 H2 Hm.
  apply offer_at_Some in Ho as (_ & _ & _ & _ & _ & _ & _ & _ & _ & _ & Hr).
  destruct (marginRejection_None _ _ _ _ (Hr H1 H2)) as (rate & Ha & Hq & Hpos).
  exists rate. repeat split; [done|done|]. apply quot_le_mul in Hq; nia.
Qed.

Lemma RankOffers_margin_witness :
  exists o rate, In o (RankOffers DefaultPolicy sample_gpu_need false sample_inputs) /\
    assoc (pays_class sample_gpu_need o, t_GPU (o_Type o)) (indexRates (Rates sample_inputs)) = Some rate /\
    HourlyMicros o * 1000 * 100 <= hourRevenue rate (o_Usable o) * (100 - MarginPercent DefaultPolicy).
Proof.
  destruct (RankOffers DefaultPolicy sample_gpu_need false sample_inputs) as [|o l] eqn:E; [vm_compute in E; discriminate|].
  assert (Hin : In o (RankOffers DefaultPolicy sample_gpu_need false sample_inputs)) by (rewrite E; left; reflexivity).
  destruct (RankOffers_margin DefaultPolicy sample_gpu_need false sample_inputs o Hin eq_refl eq_refl ltac:(discriminate))
    as (rate & H1 & H2 & H3).
  exists o, rate. split; [left; reflexivity|]. split; assumption.
Defined.

(** the ranking is best first and loses nothing: the list is sorted by
    GPU preference, reserve cost, hourly cost, hosts in the zone and key, and
    every admitted type on every market the need allows, in every subnet it
    may launch in, is listed exactly when [offer_at] builds its offer. *)
Theorem RankOffers_best_first (p : Policy) (need : Requirement) (reserve : bool) (i : OfferInputs) :
  StronglySorted (fun a b => offer_order p need reserve i a b <> Gt) (RankOffers p need reserve i) /\
  (forall region net subnet t market o,
     Networks i !! region = Some net -> In subnet (Subnets net) -> In t (Catalog i) -> In market (need_markets need) ->
     (r_Region need = "" \/ ProductRegion region = r_Region need) ->
     (r_Zone need = "" \/ sn_Zone subnet = r_Zone need \/ sn_ZoneID subnet = r_Zone need) ->
     type_admitted p need reserve i region subnet t = true ->
     offer_at p need reserve i (indexRates (Rates i)) (placementRanges p i) (freshSpot p (oi_Spot i) (oi_Now i))
       (quotaRoom (Quotas i) (QuotaUsed i)) region subnet t market = Some o ->
     In o (RankOffers p need reserve i)).
Proof.
  split; [apply sort_by_sorted; apply _|].
  intros region net subnet t market o ? ? ? ? ? ? ? ?. apply RankOffers_In. by exists region, net, subnet, t, market.
Qed.
