(* ===== verification/Cover.v ===== *)
(** The purchase cover (internal/compute/fleet_cover.go): a bounded beam
    search over sets of nodes that places items whole, supplies aggregate
    room and keeps node, quota and size limits, at the lowest cost it finds.

    Go ranges over two maps here. The order of the limited quotas only
    permutes a vector the search compares whole, and the partial covers of a
    round are sorted by a total order, so the model takes one order for each. *)

From S2P Require Import Prelude Float64 Capacity Catalog Billing Policy Placement Offers.

Definition coverWidth : Z := 128.

Record CoverItem := mkItem { ci_Shape : FleetCapacity; ci_Disks : Z; ci_Count : Z; ci_Market : option Market; Rides : bool }.
#[export] Instance CoverItem_eq_dec : EqDecision CoverItem.
Proof. solve_decision. Defined.

(** [takes]: a node of offer [o] may hold the item. *)
Definition takes (i : CoverItem) (o : FleetOffer) : bool :=
  match ci_Market i with None => true | Some m => m == o_Market o end.

(** [CoverItem.fits]. *)
Definition item_fits (i : CoverItem) (free : FleetCapacity) (disks limit : Z) : Z :=
  let limit := if ci_Disks i >? 0 then Z.min limit (Z.quot disks (ci_Disks i)) else limit in
  cap_fits free (ci_Shape i) limit.

Record CoverNeed := mkNeed { Items : list CoverItem; Aggregate : FleetCapacity }.
Record CoverNode := mkNode { cn_Offer : FleetOffer; Placed : list Z }.

Record CoverLimits := mkLimits {
  cl_Nodes : Z;
  cl_VCPUs : gmap QuotaKey Z;
  Sized : option (FleetOffer -> FleetCapacity -> Z -> bool) }.

Record CoverResult := mkResult { cr_Nodes : list CoverNode; UnmetItems : list CoverItem; Supplied : FleetCapacity }.

(** [CoverResult.Complete]. *)
Definition Complete (r : CoverResult) (need : CoverNeed) : bool :=
  negb (existsb (fun i => negb (Rides i)) (UnmetItems r)) && Covers (Supplied r) (Aggregate need).

Record coverState := mkState {
  s_cost : Z;
  s_remaining : list Z;
  s_supplied : FleetCapacity;
  s_nodes : list nat;
  s_placed : list (list Z);
  s_progress : float64;
  s_quota : list Z }.

(** ** Candidates *)

Definition coverCandidates (offers : list FleetOffer) (need : CoverNeed) (cost : FleetOffer -> Z) (limits : CoverLimits) :
    list FleetOffer :=
  let marketed := existsb (fun i => bool_decide (ci_Market i <> None)) (Items need) in
  let limited o := bool_decide (is_Some (cl_VCPUs limits !! o_Quota o)) in
  fold_left (fun out o =>
    if Empty (Aggregate need) && negb (existsb (fun i => takes i o && (item_fits i (o_Usable o) (DiskSlots (o_Type o)) 1 >? 0)) (Items need))
    then out
    else
      match index_func (fun c =>
        (o_Usable c == o_Usable o) && (negb marketed || (o_Market c == o_Market o)) &&
        ((negb (limited o) && negb (limited c)) || (o_Quota c == o_Quota o))) out with
      | None => out ++ [o]
      | Some n =>
          match out !! n with
          | Some c => if cost o <? cost c then <[n := o]> out else out
          | None => out
          end
      end) offers [].

(** ** One more node *)

(** The variables of [add] while it fills a node. *)
Record fill := mkFill {
  f_free : FleetCapacity; f_disks : Z; f_placed : list Z; f_remaining : list Z; f_moved : bool; f_holds : bool }.

Definition fill_step (need : CoverNeed) (o : FleetOffer) (st : fill) (v : bool * nat) : fill :=
  let '(rides, i) := v in
  match Items need !! i, f_remaining st !! i with
  | Some item, Some left_i =>
      if negb (Bool.eqb (Rides item) rides) || (rides && negb (f_holds st)) || negb (takes item o) then st
      else
        let n := item_fits item (f_free st) (f_disks st) left_i in
        if n >? 0 then
          mkFill (Minus (f_free st) (Times (ci_Shape item) n)) (f_disks st - n * ci_Disks item)
            (<[i := n]> (f_placed st)) (<[i := left_i - n]> (f_remaining st)) true (f_holds st || negb rides)
        else st
  | _, _ => st
  end.

Definition fill_node (need : CoverNeed) (order : list nat) (o : FleetOffer) (remaining : list Z) : fill :=
  fold_left (fill_step need o) (flat_map (fun rides => map (fun i => (rides, i)) order) [false; true])
    (mkFill (o_Usable o) (DiskSlots (o_Type o)) (replicate (length (Items need)) 0) remaining false false).

(** [coverage]: items placed and the share of each aggregate dimension
    supplied. *)
Definition coverage (remaining : list Z) (supplied : FleetCapacity) (need : CoverNeed) (total : Z) : float64 :=
  fold_left (fun progress d => if d.2 >? 0 then fadd progress (fdiv (of_int d.1) (of_int d.2)) else progress)
    (dims supplied (Aggregate need)) (of_int (total - sumZ remaining)).

(** [coverState.add]. *)
Definition add (need : CoverNeed) (order : list nat) (total : Z) (sized : option (FleetOffer -> FleetCapacity -> Z -> bool))
    (s : coverState) (c : nat) (o : FleetOffer) (price : Z) : coverState * bool :=
  let f := fill_node need order o (s_remaining s) in
  let supplied := Lower (Plus (s_supplied s) (f_free f)) (Aggregate need) in
  let moved := f_moved f || (supplied != s_supplied s) in
  let moved :=
    match sized with
    | Some sized =>
        if moved && negb (sized o (Plus (Minus (o_Usable o) (f_free f)) (Minus supplied (s_supplied s)))
                            (DiskSlots (o_Type o) - f_disks f))
        then false else moved
    | None => moved
    end in
  (mkState (s_cost s + price) (f_remaining f) supplied (s_nodes s ++ [c]) (s_placed s ++ [f_placed f])
     (coverage (f_remaining f) supplied need total) (s_quota s), moved).

Definition ratio (s : coverState) : float64 := fdiv (of_int (s_cost s)) (fmax (s_progress s) f0_001).

(** [coverState.complete]. *)
Definition complete (need : CoverNeed) (s : coverState) : bool :=
  forallb (fun '(n, item) => negb ((n >? 0) && negb (Rides item))) (zip (s_remaining s) (Items need)) &&
  Covers (s_supplied s) (Aggregate need).

(** [coverState.key]: the numbers its text lists, which within one search
    determine the text and are determined by it. *)
Definition state_key (s : coverState) : list Z * FleetCapacity * list Z := (s_remaining s, s_supplied s, s_quota s).

Definition betterPartial (s other : coverState) : bool :=
  match Z.compare (sumZ (s_remaining other)) (sumZ (s_remaining s)) <+>
        (Z.compare (CPUMillis (s_supplied s)) (CPUMillis (s_supplied other)) <+>
        (Z.compare (MemoryBytes (s_supplied s)) (MemoryBytes (s_supplied other)) <+>
        (Z.compare (GPUs (s_supplied s)) (GPUs (s_supplied other)) <+>
         Z.compare (s_cost other) (s_cost s)))) with
  | Gt => true
  | _ => false
  end.

(** [slices.Compare] on node lists. *)
Fixpoint nodes_compare (a b : list nat) : comparison :=
  match a, b with
  | [], [] => Eq
  | [], _ => Lt
  | _, [] => Gt
  | x :: a, y :: b => Nat.compare x y <+> nodes_compare a b
  end.

Definition state_order (a b : coverState) : comparison :=
  fcompare (ratio a) (ratio b) <+> (Z.compare (s_cost a) (s_cost b) <+> nodes_compare (s_nodes a) (s_nodes b)).

(** [coverState.result]. *)
Definition result (candidates : list FleetOffer) (need : CoverNeed) (s : coverState) : CoverResult :=
  mkResult
    (omap (fun '(c, placed) => o ← candidates !! c; Some (mkNode o placed)) (zip (s_nodes s) (s_placed s)))
    (omap (fun '(n, item) => if n >? 0 then Some (mkItem (ci_Shape item) (ci_Disks item) n (ci_Market item) (Rides item)) else None)
       (zip (s_remaining s) (Items need)))
    (s_supplied s).

(** ** The search *)

Record search := mkSearch {
  expanded : list (list Z * FleetCapacity * list Z * coverState);
  best : option coverState }.

Section Search.
Context (need : CoverNeed) (cost : FleetOffer -> Z) (limits : CoverLimits) (candidates : list FleetOffer)
  (quotas : list QuotaKey) (order : list nat) (total : Z).

(** Partial cover [s] with one more node of offer [o], the candidate of
    index [c]; [None] when the node would pass its quota or moves nothing. *)
Definition extend (s : coverState) (co : nat * FleetOffer) : option coverState :=
  let '(c, o) := co in
  let q := index_func (fun k => k == o_Quota o) quotas in
  let over :=
    match q with
    | Some q => default 0 (s_quota s !! q) + VCPUs (o_Type o) >? default 0 (cl_VCPUs limits !! o_Quota o)
    | None => false
    end in
  if over then None
  else
    let '(next, moved) := add need order total (Sized limits) s c o (cost o) in
    let next :=
      match q with
      | Some q => mkState (s_cost next) (s_remaining next) (s_supplied next) (s_nodes next) (s_placed next) (s_progress next)
                    (alter (fun v => v + VCPUs (o_Type o)) q (s_quota next))
      | None => next
      end in
    if moved then Some next else None.

(** The inner loop's body. *)
Definition expand_one (s : coverState) (e : search) (co : nat * FleetOffer) : search :=
  match extend s co with
  | None => e
  | Some next =>
      if match best e with Some b => s_cost next >=? s_cost b | None => false end then e
      else if complete need next then mkSearch (expanded e) (Some next)
      else
        match assoc (state_key next) (expanded e) with
        | Some prev => if s_cost next <? s_cost prev then mkSearch (assoc_set (state_key next) next (expanded e)) (best e) else e
        | None => mkSearch (assoc_set (state_key next) next (expanded e)) (best e)
        end
  end.

(** One depth: every partial cover with every candidate. *)
Definition expand (states : list coverState) (b : option coverState) : search :=
  fold_left (fun e s => fold_left (expand_one s) (imap (fun c o => (c, o)) candidates) e) states (mkSearch [] b).

Fixpoint search_loop (depth : nat) (states : list coverState) (partial : coverState) (b : option coverState) :
    coverState * option coverState :=
  match depth, states with
  | S depth, _ :: _ =>
      let e := expand states b in
      let states := firstn (Z.to_nat coverWidth) (sort_by state_order (map snd (expanded e))) in
      let partial := fold_left (fun partial s => if betterPartial s partial then s else partial) states partial in
      search_loop depth states partial (best e)
  | _, _ => (partial, b)
  end.
End Search.

(** The order items are placed in: largest shape first. *)
Definition item_order (need : CoverNeed) : list nat :=
  sort_by (fun a b =>
    match Items need !! a, Items need !! b with
    | Some ia, Some ib => shapeOrder (ci_Shape ib) (ci_Shape ia)
    | _, _ => Eq
    end) (seq 0 (length (Items need))).

(** The known quotas a candidate counts against. *)
Definition cover_quotas (candidates : list FleetOffer) (limits : CoverLimits) : list QuotaKey :=
  List.filter (fun key => existsb (fun o => o_Quota o == key) candidates) (map fst (map_to_list (cl_VCPUs limits))).

Definition start_state (need : CoverNeed) (quotas : list QuotaKey) : coverState :=
  mkState 0 (map ci_Count (Items need)) cap0 [] [] (of_int 0) (replicate (length quotas) 0).

Definition Cover (offers : list FleetOffer) (need : CoverNeed) (cost : FleetOffer -> Z) (limits : CoverLimits) : CoverResult :=
  let candidates := coverCandidates offers need cost limits in
  let quotas := cover_quotas candidates limits in
  let start := start_state need quotas in
  let total := sumZ (map ci_Count (Items need)) in
  let '(partial, b) := search_loop need cost limits candidates quotas (item_order need) total
    (Z.to_nat (cl_Nodes limits)) [start] start None in
  result candidates need (match b with Some b => b | None => partial end).

(** ** What a node holds *)

(** The room and disks [placed] copies of each item take. *)
Fixpoint placed_cap (items : list CoverItem) (placed : list Z) : FleetCapacity :=
  match items, placed with
  | i :: items, n :: placed => Plus (Times (ci_Shape i) n) (placed_cap items placed)
  | _, _ => cap0
  end.

Fixpoint placed_disks (items : list CoverItem) (placed : list Z) : Z :=
  match items, placed with
  | i :: items, n :: placed => n * ci_Disks i + placed_disks items placed
  | _, _ => 0
  end.

Lemma placed_cap_zero items k : placed_cap items (replicate k 0) = cap0.
Proof.
  revert k. induction items as [|i items IH]; intros [|k]; simpl; try done.
  rewrite IH. unfold Plus, Times, cap0. simpl. f_equal; lia.
Qed.

Lemma placed_disks_zero items k : placed_disks items (replicate k 0) = 0.
Proof. revert k. induction items as [|i items IH]; intros [|k]; simpl; try done. by rewrite IH. Qed.

Lemma placed_cap_insert items placed i item n :
  items !! i = Some item -> placed !! i = Some 0 ->
  placed_cap items (<[i := n]> placed) = Plus (placed_cap items placed) (Times (ci_Shape item) n).
Proof.
  revert placed i. induction items as [|it items IH]; intros [|p placed] [|i] Hi Hp; simplify_eq/=.
  - unfold Plus, Times. simpl. f_equal; lia.
  - rewrite IH by done. unfold Plus, Times. simpl. f_equal; lia.
Qed.

Lemma placed_disks_insert items placed i item n :
  items !! i = Some item -> placed !! i = Some 0 ->
  placed_disks items (<[i := n]> placed) = placed_disks items placed + n * ci_Disks item.
Proof.
  revert placed i. induction items as [|it items IH]; intros [|p placed] [|i] Hi Hp; simplify_eq/=; [lia|].
  rewrite IH by done. lia.
Qed.

(** How many of an item fit never takes more than the room, the disk slots
    or the limit leave. *)
Lemma item_fits_sound item free disks limit n :
  item_fits item free disks limit = n -> 0 < n -> 0 <= limit -> 0 <= disks -> cap_nonneg free ->
  n <= limit /\ cap_nonneg (Minus free (Times (ci_Shape item) n)) /\ 0 <= disks - n * ci_Disks item.
Proof.
  unfold item_fits. intros Hn Hpos Hl Hd Hf.
  set (limit' := if ci_Disks item >? 0 then Z.min limit (Z.quot disks (ci_Disks item)) else limit) in *.
  assert (Hlim : n <= limit' /\ Forall (fun d => 0 < d.2 -> n * d.2 <= Z.max d.1 0) (dims free (ci_Shape item))).
  { apply cap_fits_min; lia. }
  destruct Hlim as [Hle Hall]. unfold dims in Hall. rewrite !Forall_cons in Hall. simpl in Hall.
  destruct Hall as (H1 & H2 & H3 & _). subst limit'.
  assert (Hdisk : n <= limit /\ 0 <= disks - n * ci_Disks item).
  { destruct (Z.gtb_spec (ci_Disks item) 0); [|nia].
    rewrite Z.quot_div_nonneg in Hle by lia. pose proof (Z.mul_div_le disks (ci_Disks item) ltac:(lia)). nia. }
  destruct Hdisk as [Hl2 Hd2]. split; [done|]. split; [|done]. clear Hn Hle. cap_simpl.
  repeat split; nia.
Qed.

(** A node filled up to some point of the placement order. *)
Record fill_inv (need : CoverNeed) (o : FleetOffer) (remaining : list Z) (todo : list (bool * nat)) (f : fill) : Prop := {
  fi_len : length (f_placed f) = length (Items need);
  fi_free : f_free f = Minus (o_Usable o) (placed_cap (Items need) (f_placed f));
  fi_nonneg : cap_nonneg (f_free f);
  fi_disks : f_disks f = DiskSlots (o_Type o) - placed_disks (Items need) (f_placed f) /\ 0 <= f_disks f;
  fi_count : Forall2 (fun p '(r0, r) => 0 <= p /\ 0 <= r /\ p + r = r0) (f_placed f) (zip remaining (f_remaining f)) /\
             length remaining = length (f_remaining f);
  fi_take : forall i item p, Items need !! i = Some item -> f_placed f !! i = Some p -> 0 < p ->
    takes item o = true /\ (Rides item = true -> f_holds f = true);
  fi_holds : f_holds f = true -> exists i item p, Items need !! i = Some item /\ f_placed f !! i = Some p /\ 0 < p /\ Rides item = false;
  fi_moved : f_moved f = false -> f_placed f = replicate (length (Items need)) 0;
  fi_todo : forall rides i item, In (rides, i) todo -> Items need !! i = Some item -> Rides item = rides -> f_placed f !! i = Some 0 }.

Lemma fill_step_inv need o remaining v todo f :
  ~ In v todo -> fill_inv need o remaining (v :: todo) f -> fill_inv need o remaining todo (fill_step need o f v).
Proof.
  destruct v as [rides i]. intros Hnin Hinv. unfold fill_step.
  assert (Hskip : fill_inv need o remaining todo f).
  { destruct Hinv as [? ? ? ? ? ? ? ? Htodo]. split; auto. intros. eapply Htodo; eauto. by right. }
  destruct (Items need !! i) as [item|] eqn:Hitem; [|done].
  destruct (f_remaining f !! i) as [ri|] eqn:Hri; [|done].
  destruct (_ || _ || _) eqn:Econd; [done|]. bools.
  match goal with H : Bool.eqb _ _ = true |- _ => apply eqb_prop in H; subst rides end.
  destruct (Z.gtb_spec (item_fits item (f_free f) (f_disks f) ri) 0) as [Hpos|]; [|done].
  destruct Hinv as [Hlen Hfree Hnn [Hdk Hdk0] [Hc Hlr] Htk Hhd Hmv Htodo].
  assert (Hp0 : f_placed f !! i = Some 0) by (by eapply Htodo; [left|..]).
  assert (Hrem : exists r0, remaining !! i = Some r0 /\ 0 <= ri /\ ri = r0).
  { assert (Hlt := lookup_lt_Some _ _ _ Hri). rewrite <- Hlr in Hlt. apply lookup_lt_is_Some in Hlt as [r0 Hr0].
    exists r0. assert (Hz : zip remaining (f_remaining f) !! i = Some (r0, ri)) by (apply lookup_zip_with_Some; eauto).
    destruct (Forall2_lookup_lr _ _ _ _ _ _ Hc Hp0 Hz) as (? & ? & ?). split; [done|lia]. }
  destruct Hrem as (r0 & Hr0 & Hri0 & ->).
  set (n := item_fits item (f_free f) (f_disks f) r0) in *.
  destruct (item_fits_sound item (f_free f) (f_disks f) r0 n eq_refl Hpos Hri0 Hdk0 Hnn) as (Hn & Hnn' & Hdk').
  split; simpl.
  - by rewrite length_insert.
  - rewrite (placed_cap_insert _ _ _ item) by done. rewrite Hfree. unfold Minus, Plus. simpl. f_equal; lia.
  - done.
  - rewrite (placed_disks_insert _ _ _ item) by done. lia.
  - rewrite length_insert. split; [|done]. apply Forall2_same_length_lookup. split.
    { rewrite length_insert, length_zip_with, length_insert, (Forall2_length _ _ _ Hc), length_zip_with. done. }
    intros j p z Hp (r0' & r & -> & Hz1 & Hz2)%lookup_zip_with_Some.
    apply list_lookup_insert_Some in Hp as [(-> & <- & _)|[Hne Hp]].
    + rewrite list_lookup_insert_eq in Hz2 by (by eapply lookup_lt_Some). simplify_eq. lia.
    + rewrite list_lookup_insert_ne in Hz2 by done.
      assert (Hz : zip remaining (f_remaining f) !! j = Some (r0', r)) by (apply lookup_zip_with_Some; eauto).
      apply (Forall2_lookup_lr _ _ _ _ _ _ Hc Hp Hz).
  - intros j it p Hj Hp Hp0'. apply list_lookup_insert_Some in Hp as [(-> & <- & _)|[Hne Hp]].
    + simplify_eq. split; [done|]. intros Hr. rewrite Hr in *. simpl in *.
      match goal with H : negb (f_holds f) = false |- _ => by rewrite negb_false_iff in H; rewrite H end.
    + destruct (Htk j it p Hj Hp Hp0') as [? Hh]. split; [done|]. intros Hr. by rewrite (Hh Hr).
  - intros _. destruct (Rides item) eqn:Er.
    + simpl in *. bools. destruct Hhd as (j & it & p & ? & ? & ? & ?); [done|].
      exists j, it, p. repeat split; try done. rewrite list_lookup_insert_ne; [done|]. intros <-. congruence.
    + exists i, item, n. repeat split; try done. apply list_lookup_insert_eq. by eapply lookup_lt_Some.
  - done.
  - intros rides j it Hin Hj Hr. assert (j <> i).
    { intros ->. simplify_eq. done. }
    rewrite list_lookup_insert_ne by done. eapply Htodo; eauto. by right.
Qed.

(** ** The search preserves what one more node preserves *)

Section SearchInv.
Context (need : CoverNeed) (cost : FleetOffer -> Z) (limits : CoverLimits) (candidates : list FleetOffer)
  (quotas : list QuotaKey) (order : list nat) (total : Z).
Context (P : nat -> coverState -> Prop).

Hypothesis extend_P : forall d s c o next, P d s -> candidates !! c = Some o ->
  extend need cost limits quotas order total s (c, o) = Some next -> P (S d) next.

(** The covers of a round of depth [S d]: [P (S d)] of the partial ones, and
    of the best one at some depth reached. *)
Definition search_inv (d : nat) (e : search) : Prop :=
  (forall s, In s (map snd (expanded e)) -> P (S d) s) /\
  (forall b, best e = Some b -> complete need b = true /\ exists d', (d' <= S d)%nat /\ P d' b).

Lemma assoc_set_In (k : list Z * FleetCapacity * list Z) v (l : list (list Z * FleetCapacity * list Z * coverState)) s :
  In s (map snd (assoc_set k v l)) -> s = v \/ In s (map snd l).
Proof.
  unfold assoc_set. simpl. intros [->|H]; [by left|right].
  apply in_map_iff in H as (x & <- & Hx). apply List.filter_In in Hx as [Hx _]. by apply in_map.
Qed.

Lemma expand_one_inv d s e co :
  P d s -> candidates !! co.1 = Some co.2 -> search_inv d e ->
  search_inv d (expand_one need cost limits quotas order total s e co).
Proof.
  destruct co as [c o]. simpl. intros Hs Hc [He Hb]. unfold expand_one.
  destruct (extend _ _ _ _ _ _ s (c, o)) as [next|] eqn:En; [|done].
  assert (Hnext := extend_P d s c o next Hs Hc En).
  destruct (match best e with Some b => _ | None => false end); [done|].
  destruct (complete need next) eqn:Ec.
  { split; [done|]. simpl. intros b [= <-]. eauto. }
  assert (Hset : search_inv d (mkSearch (assoc_set (state_key next) next (expanded e)) (best e))).
  { split; [|done]. simpl. intros s' [->|Hs']%assoc_set_In; auto. }
  destruct (assoc _ _) as [prev|]; [|done]. by destruct (s_cost next <? s_cost prev).
Qed.

Lemma expand_inv d states b :
  (forall s, In s states -> P d s) ->
  (forall b', b = Some b' -> complete need b' = true /\ exists d', (d' <= S d)%nat /\ P d' b') ->
  search_inv d (expand need cost limits candidates quotas order total states b).
Proof.
  intros Hs Hb. unfold expand. apply fold_left_inv; [by split|].
  intros e s Hin He. apply fold_left_inv; [done|].
  intros e' co Hco He'. apply expand_one_inv; [auto|..|done].
  apply list_elem_of_In, list_elem_of_lookup in Hco as [k Hk]. rewrite list_lookup_imap in Hk.
  destruct (candidates !! k) as [o|] eqn:E; [|done]. by injection Hk as <-.
Qed.

Lemma search_loop_inv depth d states partial b :
  (forall s, In s states -> P d s) -> (exists d', (d' <= d)%nat /\ P d' partial) ->
  (forall b', b = Some b' -> complete need b' = true /\ exists d', (d' <= d)%nat /\ P d' b') ->
  let '(partial', b') := search_loop need cost limits candidates quotas order total depth states partial b in
  (exists d', (d' <= d + depth)%nat /\ P d' partial') /\
  (forall x, b' = Some x -> complete need x = true /\ exists d', (d' <= d + depth)%nat /\ P d' x).
Proof.
  revert d states partial b. induction depth as [|depth IH]; intros d states partial b Hs Hp Hb; simpl.
  { rewrite Nat.add_0_r. done. }
  destruct states as [|s states].
  { split; [destruct Hp as (d' & ? & ?); exists d'; split; [lia|done]|].
    intros x Hx. destruct (Hb x Hx) as (? & d' & ? & ?). split; [done|]. exists d'. split; [lia|done]. }
  assert (He : search_inv d (expand need cost limits candidates quotas order total (s :: states) b)).
  { apply expand_inv; [done|]. intros b' Hb'. destruct (Hb b' Hb') as (? & d' & ? & ?). split; [done|].
    exists d'. split; [lia|done]. }
  destruct He as [He1 He2]. set (e := expand need cost limits candidates quotas order total (s :: states) b) in *.
  set (next := firstn (Z.to_nat coverWidth) (sort_by state_order (map snd (expanded e)))).
  assert (Hnext : forall s', In s' next -> P (S d) s').
  { intros s' Hs'. apply He1. eapply sort_by_In. rewrite <- (firstn_skipn (Z.to_nat coverWidth)).
    apply in_app_iff. by left. }
  specialize (IH (S d) next (fold_left (fun partial s => if betterPartial s partial then s else partial) next partial) (best e)).
  replace (d + S depth)%nat with (S d + depth)%nat by lia. apply IH; [done| |done].
  apply fold_left_inv.
  - destruct Hp as (d' & ? & ?). exists d'. split; [lia|done].
  - intros a s' Hin Ha. destruct (betterPartial s' a); [|done]. exists (S d). split; [lia|auto].
Qed.
End SearchInv.

(** ** What a cover is *)

(** How many of item [i] a node takes. *)
Definition placed_at (i : nat) (n : CoverNode) : Z := default 0 (Placed n !! i).

(** A node of offer [o] that takes [placed] of each item keeps the offer's
    room and disk slots, its items' markets, riding items beside one that
    does not ride, and the size rule for what it holds: the items and the
    aggregate room it supplies, which is free on it. *)
Record node_ok (need : CoverNeed) (sized : option (FleetOffer -> FleetCapacity -> Z -> bool)) (n : CoverNode) : Prop := {
  no_len : length (Placed n) = length (Items need);
  no_nonneg : Forall (fun p => 0 <= p) (Placed n);
  no_room : placed_cap (Items need) (Placed n) ⊑c o_Usable (cn_Offer n);
  no_disks : placed_disks (Items need) (Placed n) <= DiskSlots (o_Type (cn_Offer n));
  no_takes : forall i item, Items need !! i = Some item -> 0 < placed_at i n ->
    takes item (cn_Offer n) = true /\
    (Rides item = true -> exists j it, Items need !! j = Some it /\ 0 < placed_at j n /\ Rides it = false);
  no_sized : forall f, sized = Some f -> exists room, cap_nonneg room /\
    room ⊑c Minus (o_Usable (cn_Offer n)) (placed_cap (Items need) (Placed n)) /\
    f (cn_Offer n) (Plus (placed_cap (Items need) (Placed n)) room) (placed_disks (Items need) (Placed n)) = true }.

(** The room the nodes have free of items. *)
Definition nodes_free (need : CoverNeed) (ns : list CoverNode) : FleetCapacity :=
  totalOf ns (fun n => Minus (o_Usable (cn_Offer n)) (placed_cap (Items need) (Placed n))).

Definition quota_use (key : QuotaKey) (ns : list CoverNode) : Z :=
  sumZ (map (fun n => VCPUs (o_Type (cn_Offer n))) (List.filter (fun n => o_Quota (cn_Offer n) == key) ns)).

(** A set of nodes with the items they leave, the room they supply and what
    they cost. *)
Record cover_ok (need : CoverNeed) (cost : FleetOffer -> Z) (limits : CoverLimits) (ns : list CoverNode) (remaining : list Z)
    (supplied : FleetCapacity) (c : Z) : Prop := {
  co_nodes : Forall (node_ok need (Sized limits)) ns;
  co_len : length remaining = length (Items need);
  co_count : forall i item, Items need !! i = Some item -> exists r, remaining !! i = Some r /\ 0 <= r /\
    r + sumZ (map (placed_at i) ns) = ci_Count item;
  co_supplied : cap_nonneg supplied /\ supplied ⊑c Aggregate need /\ supplied ⊑c nodes_free need ns;
  co_cost : c = sumZ (map (fun n => cost (cn_Offer n)) ns) }.

(** The nodes of a state. *)
Definition nodes_of (candidates : list FleetOffer) (s : coverState) : list CoverNode :=
  omap (fun '(c, placed) => o ← candidates !! c; Some (mkNode o placed)) (zip (s_nodes s) (s_placed s)).

(** A state of depth [d] of a search: its nodes are candidates and a cover,
    and the vCPUs they count keep every limited quota. *)
Record state_ok (need : CoverNeed) (cost : FleetOffer -> Z) (limits : CoverLimits) (candidates : list FleetOffer)
    (quotas : list QuotaKey) (d : nat) (s : coverState) : Prop := {
  so_nodes : length (s_nodes s) = d /\ length (s_placed s) = d /\ length (nodes_of candidates s) = d;
  so_in : Forall (fun n => In (cn_Offer n) candidates) (nodes_of candidates s);
  so_cover : cover_ok need cost limits (nodes_of candidates s) (s_remaining s) (s_supplied s) (s_cost s);
  so_quota : length (s_quota s) = length quotas /\ forall q key, quotas !! q = Some key ->
    default 0 (s_quota s !! q) = quota_use key (nodes_of candidates s) /\
    (Exists (fun n => o_Quota (cn_Offer n) = key) (nodes_of candidates s) ->
     quota_use key (nodes_of candidates s) <= default 0 (cl_VCPUs limits !! key)) }.

Lemma item_order_perm need : item_order need ≡ₚ seq 0 (length (Items need)).
Proof. apply sort_by_perm. Qed.

(** The loop visits each item once in each pass. *)
Lemma visits_NoDup order : NoDup order -> NoDup (flat_map (fun rides => map (fun i : nat => (rides, i)) order) [false; true]).
Proof.
  intros H. simpl. rewrite app_nil_r. apply NoDup_app. split; [by apply NoDup_fmap_2; [intros ? ? [=]|]|]. split.
  - intros x [i [-> _]]%list_elem_of_fmap [j [? _]]%list_elem_of_fmap. done.
  - apply NoDup_fmap_2; [by intros ? ? [=]|done].
Qed.

Lemma fill_fold_inv need o remaining l f :
  NoDup l -> fill_inv need o remaining l f -> fill_inv need o remaining [] (fold_left (fill_step need o) l f).
Proof.
  revert f. induction l as [|v l IH]; intros f Hnd Hf; simpl; [done|].
  inversion_clear Hnd. apply IH; [done|]. apply fill_step_inv; [|done]. by rewrite <- list_elem_of_In.
Qed.

Lemma fill_node_inv need order o remaining :
  NoDup order -> length remaining = length (Items need) -> Forall (fun r => 0 <= r) remaining -> cap_nonneg (o_Usable o) ->
  fill_inv need o remaining [] (fill_node need order o remaining).
Proof.
  intros Hnd Hlen Hrem Hus. apply fill_fold_inv; [by apply visits_NoDup|]. split; simpl.
  - apply length_replicate.
  - rewrite placed_cap_zero. unfold Minus, cap0. destruct (o_Usable o). simpl. f_equal; lia.
  - done.
  - rewrite placed_disks_zero. unfold DiskSlots, minDiskSlots. lia.
  - split; [|done]. rewrite <- Hlen. clear Hlen Hnd. induction Hrem; simpl; constructor; [lia|done].
  - intros i item p _ Hp Hpos. apply lookup_replicate in Hp as [-> _]. lia.
  - done.
  - done.
  - intros rides i item _ Hi _. apply lookup_replicate. split; [done|]. by eapply lookup_lt_Some.
Qed.

Lemma nodes_of_snoc candidates s s' c o placed :
  candidates !! c = Some o -> s_nodes s' = s_nodes s ++ [c] -> s_placed s' = s_placed s ++ [placed] ->
  length (s_nodes s) = length (s_placed s) -> nodes_of candidates s' = nodes_of candidates s ++ [mkNode o placed].
Proof.
  intros Hc Hn Hp Hl. unfold nodes_of. rewrite Hn, Hp, zip_with_app by done. rewrite omap_app. simpl. by rewrite Hc.
Qed.

(** Adding a node to a cover gives a cover. *)
Lemma cover_ok_add need cost limits ns s order total c o next :
  NoDup order -> cap_nonneg (o_Usable o) -> cap_nonneg (Aggregate need) ->
  cover_ok need cost limits ns (s_remaining s) (s_supplied s) (s_cost s) ->
  add need order total (Sized limits) s c o (cost o) = (next, true) ->
  exists placed, s_placed next = s_placed s ++ [placed] /\
    cover_ok need cost limits (ns ++ [mkNode o placed]) (s_remaining next) (s_supplied next) (s_cost next).
Proof.
  intros Hnd Hus Hagg [Hno Hlen Hcnt (Hs1 & Hs2 & Hs3) Hco] Hadd. unfold add in Hadd.
  set (f := fill_node need order o (s_remaining s)) in *.
  assert (Hrem : Forall (fun r => 0 <= r) (s_remaining s)).
  { apply Forall_lookup. intros i r Hr. assert (Hi := lookup_lt_Some _ _ _ Hr). rewrite Hlen in Hi.
    apply lookup_lt_is_Some in Hi as [item Hitem]. destruct (Hcnt i item Hitem) as (r' & Hr' & ? & _). congruence. }
  assert (Hf : fill_inv need o (s_remaining s) [] f) by (by apply fill_node_inv).
  clearbody f. destruct Hf as [Fl Ff Fn [Fd Fd0] [Fc Fr] Ft Fh Fm _].
  injection Hadd as <- Hmoved. simpl. exists (f_placed f). split; [done|].
  set (supplied := Lower (Plus (s_supplied s) (f_free f)) (Aggregate need)) in *.
  assert (Hplaced : Forall (fun p => 0 <= p) (f_placed f)).
  { clear -Fc. induction Fc as [|p [r0 r] ? ? (? & ? & ?)]; constructor; done. }
  split.
  - apply Forall_app. split; [done|]. constructor; [|done]. split; simpl.
    + done.
    + done.
    + rewrite Ff in Fn. cap_lia.
    + lia.
    + intros i item Hi Hp. unfold placed_at in Hp |- *. simpl in Hp |- *.
      destruct (f_placed f !! i) as [p|] eqn:Ep; [|simpl in Hp; lia]. simpl in Hp.
      destruct (Ft i item p Hi Ep Hp) as [Ht Hr]. split; [done|]. intros Hrides.
      destruct (Fh (Hr Hrides)) as (j & it & pj & Hj & Hpj & Hpos & Hnr). exists j, it. by rewrite Hpj.
    + intros sz Hsz. rewrite Hsz in Hmoved.
      exists (Minus supplied (s_supplied s)). subst supplied.
      split; [clear -Fn Hs1 Hs2; cap_lia|]. split; [rewrite Ff; clear; cap_lia|].
      destruct (_ && negb (sz _ _ _)) eqn:E in Hmoved; [done|]. rewrite Hmoved in E. simpl in E. apply negb_false_iff in E.
      rewrite <- E. f_equal; [|lia]. f_equal. rewrite Ff. unfold Minus. simpl. destruct (placed_cap (Items need) (f_placed f)). simpl. f_equal; lia.
  - congruence.
  - intros i item Hi. destruct (Hcnt i item Hi) as (r & Hr & Hr0 & Hsum).
    assert (Hlt := lookup_lt_Some _ _ _ Hi). rewrite <- Fl in Hlt. apply lookup_lt_is_Some in Hlt as [p Hp].
    destruct (Forall2_lookup_l _ _ _ _ _ Fc Hp) as ([r0 r'] & Hz & Hp0 & Hr' & Hsum').
    apply lookup_zip_with_Some in Hz as (? & ? & [= <- <-] & Hz1 & Hz2). rewrite Hr in Hz1. injection Hz1 as <-.
    exists r'. repeat split; [done|done|]. rewrite map_app, sumZ_app. simpl. unfold placed_at at 2. simpl. rewrite Hp. simpl. lia.
  - subst supplied. split; [clear -Fn Hs1 Hagg; cap_lia|]. split; [clear; cap_lia|].
    unfold nodes_free in *. rewrite totalOf_app. unfold totalOf at 2. simpl. rewrite Plus_0_l, <- Ff.
    revert Hs3. generalize (totalOf ns (fun n => Minus (o_Usable (cn_Offer n)) (placed_cap (Items need) (Placed n)))).
    clear. intros. cap_lia.
  - rewrite map_app, sumZ_app, Hco. simpl. lia.
Qed.

Lemma quota_use_snoc key ns n :
  quota_use key (ns ++ [n]) = quota_use key ns + (if o_Quota (cn_Offer n) == key then VCPUs (o_Type (cn_Offer n)) else 0).
Proof.
  unfold quota_use. rewrite List.filter_app, map_app, sumZ_app. simpl. case_bool_decide; simpl; lia.
Qed.

Lemma extend_ok need cost limits candidates quotas order total d s c o next :
  NoDup order -> NoDup quotas -> Forall (fun o => cap_nonneg (o_Usable o)) candidates -> cap_nonneg (Aggregate need) ->
  state_ok need cost limits candidates quotas d s -> candidates !! c = Some o ->
  extend need cost limits quotas order total s (c, o) = Some next ->
  state_ok need cost limits candidates quotas (S d) next.
Proof.
  intros Hord Hnq Hus Hagg [(Hd1 & Hd2 & Hd3) Hin Hcov [Hql Hq]] Hc Hext. unfold extend in Hext.
  assert (Huo : cap_nonneg (o_Usable o)) by (by eapply Forall_lookup_1 in Hus).
  destruct (match index_func _ quotas with Some q => _ | None => false end) eqn:Eover; [done|].
  destruct (add _ _ _ _ _ _ _ _) as [next' moved] eqn:Eadd.
  destruct moved; [|done]. injection Hext as Hext.
  destruct (cover_ok_add need cost limits (nodes_of candidates s) s order total c o next' Hord Huo Hagg Hcov Eadd)
    as (placed & Hpl & Hcov').
  assert (Hadd' : s_nodes next' = s_nodes s ++ [c] /\ s_quota next' = s_quota s).
  { unfold add in Eadd. by injection Eadd as <- _. }
  destruct Hadd' as [Hnd' Hqu'].
  assert (Hsame : s_nodes next = s_nodes next' /\ s_placed next = s_placed next' /\ s_remaining next = s_remaining next' /\
                  s_supplied next = s_supplied next' /\ s_cost next = s_cost next').
  { rewrite <- Hext. by destruct (index_func _ quotas). }
  destruct Hsame as (E1 & E2 & E3 & E4 & E5).
  assert (Hns : nodes_of candidates next = nodes_of candidates s ++ [mkNode o placed]).
  { apply (nodes_of_snoc _ _ _ c); [done|by rewrite E1|by rewrite E2|congruence]. }
  split.
  - rewrite E1, E2, Hnd', Hpl, Hns, !length_app. simpl. lia.
  - rewrite Hns. apply Forall_app. split; [done|]. constructor; [|done]. simpl.
    apply list_elem_of_In, list_elem_of_lookup. eauto.
  - by rewrite Hns, E3, E4, E5.
  - rewrite Hns. destruct (index_func _ quotas) as [qi|] eqn:Eqi; rewrite <- Hext; simpl; rewrite Hqu'.
    + apply index_func_Some in Eqi as (key' & Hqi & Hkey'). bools. subst key'.
      rewrite length_alter. split; [done|]. intros q key Hk. destruct (Hq q key Hk) as [Hv Hb].
      rewrite quota_use_snoc. simpl. destruct (decide (q = qi)) as [->|Hne].
      * assert (key = o_Quota o) as -> by congruence. rewrite bool_decide_eq_true_2 by done.
        destruct (s_quota s !! qi) as [v|] eqn:Ev.
        2:{ apply lookup_ge_None in Ev. apply lookup_lt_Some in Hk. lia. }
        rewrite list_lookup_alter_eq, Ev. simpl in *. split; [lia|]. intros _. bools. lia.
      * rewrite list_lookup_alter_ne by done. assert (o_Quota o <> key).
        { intros <-. apply Hne. by eapply NoDup_lookup. }
        rewrite bool_decide_eq_false_2 by done. split; [lia|].
        intros [He|He]%Exists_app; [specialize (Hb He); lia|]. apply Exists_cons in He as [?|He]; [done|by apply Exists_nil in He].
    + rewrite index_func_None, existsb_false in Eqi. split; [done|]. intros q key Hk.
      destruct (Hq q key Hk) as [Hv Hb]. rewrite quota_use_snoc. simpl.
      assert (o_Quota o <> key).
      { intros <-. apply list_elem_of_lookup_2, list_elem_of_In, Eqi in Hk. bools. done. }
      rewrite bool_decide_eq_false_2 by done. split; [lia|].
      intros [He|He]%Exists_app; [specialize (Hb He); lia|]. apply Exists_cons in He as [?|He]; [done|by apply Exists_nil in He].
Qed.

Lemma start_state_ok need cost limits candidates quotas :
  Forall (fun i => 0 <= ci_Count i) (Items need) -> cap_nonneg (Aggregate need) ->
  state_ok need cost limits candidates quotas 0 (start_state need quotas).
Proof.
  intros Hc Hagg. split; [done|constructor| |].
  - split; simpl; [constructor|by rewrite length_map| |unfold nodes_free, totalOf; simpl; done|done].
    intros i item Hi. exists (ci_Count item). split; [by rewrite list_lookup_fmap, Hi|]. simpl.
    rewrite Forall_lookup in Hc. specialize (Hc i item Hi). simpl in Hc. lia.
  - simpl. split; [apply length_replicate|]. intros q key Hq. unfold quota_use. simpl. split.
    + destruct (replicate (length quotas) 0 !! q) as [v|] eqn:E; [|done]. by apply lookup_replicate in E as [-> _].
    + intros He. by apply Exists_nil in He.
Qed.

Lemma coverCandidates_In offers need cost limits o :
  In o (coverCandidates offers need cost limits) -> In o offers.
Proof.
  unfold coverCandidates. revert o.
  apply (fold_left_inv (fun out => forall o, In o out -> In o offers)); [done|].
  intros out o Hin IH x. destruct (_ && _); [apply IH|].
  destruct (index_func _ out) as [n|].
  - destruct (out !! n) as [c|]; [|apply IH]. destruct (cost o <? cost c); [|apply IH].
    intros Hx%list_elem_of_In. apply list_elem_of_lookup in Hx as [k Hk].
    apply list_lookup_insert_Some in Hk as [(_ & <- & _)|[_ Hk]]; [done|].
    apply IH. apply list_elem_of_In, list_elem_of_lookup. eauto.
  - rewrite in_app_iff. simpl. naive_solver.
Qed.

Lemma cover_quotas_NoDup candidates limits : NoDup (cover_quotas candidates limits).
Proof. apply NoDup_ListNoDup, List.NoDup_filter, NoDup_ListNoDup, NoDup_fst_map_to_list. Qed.

Lemma cover_quotas_In candidates limits key :
  is_Some (cl_VCPUs limits !! key) -> (exists o, In o candidates /\ o_Quota o = key) -> In key (cover_quotas candidates limits).
Proof.
  intros [v Hv] (o & Ho & Hk). apply List.filter_In. split.
  - apply in_map_iff. exists (key, v). split; [done|]. by apply list_elem_of_In, elem_of_map_to_list.
  - apply existsb_exists. exists o. by rewrite bool_decide_eq_true.
Qed.

(** The state [Cover] returns. *)
Lemma Cover_state offers need cost limits :
  Forall (fun o => cap_nonneg (o_Usable o)) offers -> Forall (fun i => 0 <= ci_Count i) (Items need) ->
  cap_nonneg (Aggregate need) ->
  let candidates := coverCandidates offers need cost limits in
  let quotas := cover_quotas candidates limits in
  exists d s, (d <= Z.to_nat (cl_Nodes limits))%nat /\ state_ok need cost limits candidates quotas d s /\
    Cover offers need cost limits = result candidates need s.
Proof.
  intros Hus Hc Hagg candidates quotas. unfold Cover. fold candidates quotas.
  assert (Hcand : Forall (fun o => cap_nonneg (o_Usable o)) candidates).
  { apply List.Forall_forall. intros o Ho%coverCandidates_In. rewrite List.Forall_forall in Hus. auto. }
  assert (Hord : NoDup (item_order need)) by (rewrite item_order_perm; apply NoDup_seq).
  assert (Hloop := search_loop_inv need cost limits candidates quotas (item_order need) (sumZ (map ci_Count (Items need)))
    (state_ok need cost limits candidates quotas)
    (fun d s c o next Hs Ho He => extend_ok need cost limits candidates quotas _ _ d s c o next
       Hord (cover_quotas_NoDup candidates limits) Hcand Hagg Hs Ho He)
    (Z.to_nat (cl_Nodes limits)) 0 [start_state need quotas] (start_state need quotas) None).
  destruct (search_loop _ _ _ _ _ _ _ _ _ _ _) as [partial b].
  assert (Hstart := start_state_ok need cost limits candidates quotas Hc Hagg).
  destruct Hloop as [(d & Hd & Hs) Hb].
  - intros s [<-|[]]. done.
  - exists 0%nat. split; [lia|done].
  - done.
  - destruct b as [b|]; [|by exists d, partial].
    destruct (Hb b eq_refl) as (_ & d' & Hd' & Hs'). by exists d', b.
Qed.

Lemma result_nodes candidates need s : cr_Nodes (result candidates need s) = nodes_of candidates s.
Proof. done. Qed.

(** How many of item [i] a result leaves unmet, by the need's index. *)
Lemma result_unmet candidates need s i item r :
  Items need !! i = Some item -> s_remaining s !! i = Some r -> 0 < r ->
  In (mkItem (ci_Shape item) (ci_Disks item) r (ci_Market item) (Rides item)) (UnmetItems (result candidates need s)).
Proof.
  intros Hi Hr Hpos. simpl. apply list_elem_of_In, list_elem_of_omap. exists (r, item).
  split; [apply list_elem_of_lookup; exists i; apply lookup_zip_with_Some; eauto|].
  destruct (Z.gtb_spec r 0); [done|lia].
Qed.

Lemma result_unmet_total candidates need s :
  Forall (fun r => 0 <= r) (s_remaining s) -> length (s_remaining s) = length (Items need) ->
  sumZ (map ci_Count (UnmetItems (result candidates need s))) = sumZ (s_remaining s).
Proof.
  simpl. generalize (s_remaining s) (Items need). intros rem items. revert items.
  induction rem as [|r rem IH]; intros [|item items] Hrem Hlen; simplify_eq/=; [done|].
  inversion_clear Hrem. specialize (IH items ltac:(done) Hlen).
  destruct (Z.gtb_spec r 0); simpl in *; lia.
Qed.

(** ** The best cover found only gets cheaper *)

(** [b] is a cover no dearer than [c]. *)
Definition at_most (c : Z) (b : option coverState) : Prop := exists s, b = Some s /\ s_cost s <= c.

Section Cheapest.
Context (need : CoverNeed) (cost : FleetOffer -> Z) (limits : CoverLimits) (candidates : list FleetOffer)
  (quotas : list QuotaKey) (order : list nat) (total : Z).

Lemma expand_one_at_most c s e co :
  at_most c (best e) -> at_most c (best (expand_one need cost limits quotas order total s e co)).
Proof.
  intros (b & Hb & Hc). unfold expand_one. destruct (extend _ _ _ _ _ _ s co) as [next|]; [|by exists b].
  rewrite Hb. destruct (Z.geb_spec (s_cost next) (s_cost b)); [by exists b|].
  destruct (complete need next); [exists next; split; [done|lia]|].
  destruct (assoc _ _); [destruct (_ <? _)|]; by exists b.
Qed.

Lemma expand_one_found s e co next :
  extend need cost limits quotas order total s co = Some next -> complete need next = true ->
  at_most (s_cost next) (best (expand_one need cost limits quotas order total s e co)).
Proof.
  intros He Hc. unfold expand_one. rewrite He, Hc. destruct (best e) as [b|] eqn:Eb.
  - destruct (Z.geb_spec (s_cost next) (s_cost b)); [exists b; split; [done|lia]|exists next; split; [done|lia]].
  - exists next. split; [done|lia].
Qed.

Lemma expand_at_most c states b : at_most c b -> at_most c (best (expand need cost limits candidates quotas order total states b)).
Proof.
  intros H. unfold expand. apply (fold_left_inv (fun e => at_most c (best e))); [done|].
  intros e s _ He. apply (fold_left_inv (fun e => at_most c (best e))); [done|].
  intros; by apply expand_one_at_most.
Qed.

Lemma fold_expand_found s l e co next :
  In co l -> extend need cost limits quotas order total s co = Some next -> complete need next = true ->
  at_most (s_cost next) (best (fold_left (expand_one need cost limits quotas order total s) l e)).
Proof.
  revert e. induction l as [|x l IH]; intros e Hin He Hc; simpl; [done|]. destruct Hin as [->|Hin]; [|by apply IH].
  apply (fold_left_inv (fun e => at_most (s_cost next) (best e))); [by apply expand_one_found|].
  intros; by apply expand_one_at_most.
Qed.

Lemma search_loop_at_most c depth states partial b :
  at_most c b -> at_most c (snd (search_loop need cost limits candidates quotas order total depth states partial b)).
Proof.
  revert states partial b. induction depth as [|depth IH]; intros states partial b Hb; simpl; [done|].
  destruct states; [done|]. by apply IH, expand_at_most.
Qed.

Lemma search_loop_found depth s partial b c o next :
  candidates !! c = Some o -> extend need cost limits quotas order total s (c, o) = Some next -> complete need next = true ->
  at_most (s_cost next) (snd (search_loop need cost limits candidates quotas order total (S depth) [s] partial b)).
Proof.
  intros Hc He Hn. cbn [search_loop]. apply search_loop_at_most. unfold expand. simpl.
  eapply fold_expand_found; [|done|done].
  apply list_elem_of_In, list_elem_of_lookup. exists c. by rewrite list_lookup_imap, Hc.
Qed.
End Cheapest.

Lemma complete_result candidates need s :
  complete need s = true -> Complete (result candidates need s) need = true.
Proof.
  unfold complete, Complete. intros H. bools. apply andb_true_iff. split; [|done]. apply negb_true_iff, existsb_false.
  intros item Hi. simpl in Hi. apply list_elem_of_In, list_elem_of_omap in Hi as ([n it] & Hz & Hs).
  destruct (n >? 0) eqn:En; [|done]. injection Hs as <-. simpl. apply list_elem_of_In in Hz.
  rewrite forallb_forall in H. specialize (H _ Hz). simpl in H. rewrite En in H. simpl in H. rewrite negb_involutive in H. by rewrite H.
Qed.

(** One node of candidate [o] that covers the whole need within the limits. *)
Definition covers_alone (offers : list FleetOffer) (need : CoverNeed) (cost : FleetOffer -> Z) (limits : CoverLimits) (o : FleetOffer) : Prop :=
  let candidates := coverCandidates offers need cost limits in
  let quotas := cover_quotas candidates limits in
  exists c next, candidates !! c = Some o /\
    extend need cost limits quotas (item_order need) (sumZ (map ci_Count (Items need))) (start_state need quotas) (c, o) = Some next /\
    complete need next = true.

(** ** Theorems *)

(** What a cover promises the planner that buys it. *)
Record cover_promise (offers : list FleetOffer) (need : CoverNeed) (limits : CoverLimits) (r : CoverResult) : Prop := {
  cp_nodes : Z.of_nat (length (cr_Nodes r)) <= Z.max 0 (cl_Nodes limits);
  cp_ok : Forall (fun n => In (cn_Offer n) offers /\ node_ok need (Sized limits) n) (cr_Nodes r);
  cp_count : forall i item, Items need !! i = Some item -> exists rest, 0 <= rest /\
    rest + sumZ (map (placed_at i) (cr_Nodes r)) = ci_Count item /\
    (0 < rest -> In (mkItem (ci_Shape item) (ci_Disks item) rest (ci_Market item) (Rides item)) (UnmetItems r));
  cp_unmet : Forall (fun i => 0 <= ci_Count i) (UnmetItems r);
  cp_supplied : Covers (Aggregate need) (Supplied r) = true /\ Covers (nodes_free need (cr_Nodes r)) (Supplied r) = true;
  cp_quota : forall key v n, cl_VCPUs limits !! key = Some v -> In n (cr_Nodes r) -> o_Quota (cn_Offer n) = key ->
    quota_use key (cr_Nodes r) <= v }.

Lemma Cover_promise offers need cost limits :
  Forall (fun o => cap_nonneg (o_Usable o)) offers -> Forall (fun i => 0 <= ci_Count i) (Items need) ->
  cap_nonneg (Aggregate need) -> cover_promise offers need limits (Cover offers need cost limits).
Proof.
  intros Hus Hc Hagg. destruct (Cover_state offers need cost limits Hus Hc Hagg) as (d & s & Hd & Hs & Hr).
  rewrite Hr. destruct Hs as [(_ & _ & Hlen) Hin [Hno Hrl Hcnt (Hs1 & Hs2 & Hs3) _] [_ Hq]].
  split; rewrite ?result_nodes; [lia| | | |split; by apply Covers_spec|].
  - apply Forall_and. split; [|done]. eapply Forall_impl; [exact Hin|]. simpl. intros n. apply coverCandidates_In.
  - intros i item Hi. destruct (Hcnt i item Hi) as (rest & Hrest & Hr0 & Hsum). exists rest. repeat split; [done..|].
    intros Hpos. by eapply result_unmet.
  - apply List.Forall_forall. intros it Hit%list_elem_of_In. apply list_elem_of_omap in Hit as ([n item] & _ & E).
    destruct (Z.gtb_spec n 0); [injection E as <-; simpl; lia|done].
  - intros key v n Hv Hn Hkey.
    assert (Hk : In key (cover_quotas (coverCandidates offers need cost limits) limits)).
    { apply cover_quotas_In; [eauto|]. exists (cn_Offer n). split; [|done]. rewrite List.Forall_forall in Hin. auto. }
    apply list_elem_of_In, list_elem_of_lookup in Hk as [q Hqk]. destruct (Hq q key Hqk) as [_ Hle].
    rewrite Hv in Hle. apply Hle. apply List.Exists_exists. eauto.
Qed.

(** a cover keeps every limit it was given. It buys at most the nodes
    allowed, each of an offered type; what each node takes fits its usable
    room and disk slots together, on the item's market, a riding item only
    beside one that does not ride; the size rule admits each node for what it
    holds; every item is placed or left unmet, none twice; the aggregate room
    it reports is free on its nodes and no more than asked; and the nodes on
    a known quota keep its vCPUs. *)
Theorem Cover_sound (offers : list FleetOffer) (need : CoverNeed) (cost : FleetOffer -> Z) (limits : CoverLimits) :
  Forall (fun o => cap_nonneg (o_Usable o)) offers -> Forall (fun i => 0 <= ci_Count i) (Items need) ->
  cap_nonneg (Aggregate need) ->
  let r := Cover offers need cost limits in
  Z.of_nat (length (cr_Nodes r)) <= Z.max 0 (cl_Nodes limits) /\
  Forall (fun n => In (cn_Offer n) offers /\ node_ok need (Sized limits) n) (cr_Nodes r) /\
  (forall i item, Items need !! i = Some item -> exists rest, 0 <= rest /\
     rest + sumZ (map (placed_at i) (cr_Nodes r)) = ci_Count item /\
     (0 < rest -> In (mkItem (ci_Shape item) (ci_Disks item) rest (ci_Market item) (Rides item)) (UnmetItems r))) /\
  Covers (Aggregate need) (Supplied r) = true /\ Covers (nodes_free need (cr_Nodes r)) (Supplied r) = true /\
  (forall key v n, cl_VCPUs limits !! key = Some v -> In n (cr_Nodes r) -> o_Quota (cn_Offer n) = key ->
     quota_use key (cr_Nodes r) <= v).
Proof.
  intros Hus Hc Hagg r. destruct (Cover_promise offers need cost limits Hus Hc Hagg) as [Hn Hok Hcnt _ [Hs1 Hs2] Hq].
  subst r. auto 10.
Qed.

(** a complete cover meets the need: every item that does not ride is
    placed in full on the nodes, and the nodes have the aggregate room free
    beside the items. *)
Theorem Cover_complete_meets (offers : list FleetOffer) (need : CoverNeed) (cost : FleetOffer -> Z) (limits : CoverLimits) :
  Forall (fun o => cap_nonneg (o_Usable o)) offers -> Forall (fun i => 0 <= ci_Count i) (Items need) ->
  cap_nonneg (Aggregate need) ->
  Complete (Cover offers need cost limits) need = true ->
  (forall i item, Items need !! i = Some item -> Rides item = false ->
     sumZ (map (placed_at i) (cr_Nodes (Cover offers need cost limits))) = ci_Count item) /\
  Covers (nodes_free need (cr_Nodes (Cover offers need cost limits))) (Aggregate need) = true.
Proof.
  intros Hus Hc Hagg. destruct (Cover_state offers need cost limits Hus Hc Hagg) as (d & s & Hd & Hs & Hr).
  rewrite Hr, result_nodes. destruct Hs as [_ _ [_ _ Hcnt (Hs1 & Hs2 & Hs3) _] _]. unfold Complete. intros Hcomp. bools.
  rewrite existsb_false in *. split.
  - intros i item Hi Hride. destruct (Hcnt i item Hi) as (rest & Hrest & Hr0 & Hsum).
    destruct (Z.eq_dec rest 0) as [->|]; [lia|]. exfalso.
    assert (Hu := result_unmet (coverCandidates offers need cost limits) need s i item rest Hi Hrest ltac:(lia)).
    match goal with H : forall x, In x (UnmetItems _) -> _ |- _ => specialize (H _ Hu); simpl in H; by rewrite Hride in H end.
  - apply Covers_spec. match goal with H : Covers (Supplied _) _ = true |- _ => apply Covers_spec in H; simpl in H end.
    by etrans.
Qed.

(** a cover is never dearer than one node would be: when one candidate
    covers the whole need alone within the limits, the cover returned is
    complete and its nodes together cost at most that one. *)
Theorem Cover_not_dearer_than_one (offers : list FleetOffer) (need : CoverNeed) (cost : FleetOffer -> Z) (limits : CoverLimits) (o : FleetOffer) :
  Forall (fun o => cap_nonneg (o_Usable o)) offers -> Forall (fun i => 0 <= ci_Count i) (Items need) ->
  cap_nonneg (Aggregate need) -> 1 <= cl_Nodes limits ->
  covers_alone offers need cost limits o ->
  Complete (Cover offers need cost limits) need = true /\
  sumZ (map (fun n => cost (cn_Offer n)) (cr_Nodes (Cover offers need cost limits))) <= cost o.
Proof.
  intros Hus Hc Hagg Hn (c & next & Hco & Hext & Hcomp). unfold Cover.
  set (candidates := coverCandidates offers need cost limits) in *. set (quotas := cover_quotas candidates limits) in *.
  assert (Hcand : Forall (fun o => cap_nonneg (o_Usable o)) candidates).
  { apply List.Forall_forall. intros x Hx%coverCandidates_In. rewrite List.Forall_forall in Hus. auto. }
  assert (Hord : NoDup (item_order need)) by (rewrite item_order_perm; apply NoDup_seq).
  assert (Hstart := start_state_ok need cost limits candidates quotas Hc Hagg).
  assert (Hext_ok := fun d s c o next Hs Ho He => extend_ok need cost limits candidates quotas (item_order need)
    (sumZ (map ci_Count (Items need))) d s c o next Hord (cover_quotas_NoDup candidates limits) Hcand Hagg Hs Ho He).
  destruct (Z.to_nat (cl_Nodes limits)) as [|depth] eqn:Ed; [lia|].
  assert (Hfound := search_loop_found need cost limits candidates quotas (item_order need) (sumZ (map ci_Count (Items need)))
    depth (start_state need quotas) (start_state need quotas) None c o next Hco Hext Hcomp).
  assert (Hloop := search_loop_inv need cost limits candidates quotas (item_order need) (sumZ (map ci_Count (Items need)))
    (state_ok need cost limits candidates quotas) Hext_ok (S depth) 0 [start_state need quotas] (start_state need quotas) None).
  destruct (search_loop _ _ _ _ _ _ _ _ _ _ _) as [partial b]. simpl in Hfound. destruct Hfound as (s & -> & Hle).
  destruct Hloop as [_ Hb]; [by intros x [<-|[]]|exists 0%nat; split; [lia|done]|done|].
  destruct (Hb s eq_refl) as (Hs & d' & _ & Hok). split; [by apply complete_result|].
  rewrite result_nodes. destruct Hok as [_ _ [_ _ _ _ Hcost] _]. rewrite <- Hcost.
  destruct (Hext_ok 0%nat _ c o next Hstart Hco Hext) as [(_ & _ & _) _ [_ _ _ _ Hcost'] _].
  assert (Hnc : s_cost next = cost o).
  { unfold extend in Hext. destruct (match index_func _ quotas with Some q => _ | None => false end); [done|].
    destruct (add _ _ _ _ _ _ _ _) as [n' m'] eqn:Ea. unfold add in Ea. destruct m'; [|done].
    injection Hext as <-. injection Ea as <- _. destruct (index_func _ quotas); simpl; lia. }
  lia.
Qed.

(** Offers, a need of two shapes beside aggregate room, and limits with a
    quota, for the witnesses. *)
Definition sample_offers : list FleetOffer :=
  RankOffers DefaultPolicy (mkReq 0 None "" "" "" true [] 0 0 0 0 None None false) false sample_inputs.

Definition sample_cover_need : CoverNeed :=
  mkNeed [mkItem (mkCap 2000 (4 * gib) 0) 0 2 None false; mkItem (mkCap 500 gib 0) 1 3 None true] (mkCap 1000 (2 * gib) 0).

Definition sample_limits : CoverLimits :=
  mkLimits 3 {[ mkQK "us-east-2" QuotaStandard MarketSpot := 8 ]} (Some (fun _ _ _ => true)).

Lemma sample_offers_nonneg : Forall (fun o => cap_nonneg (o_Usable o)) sample_offers.
Proof.
  apply List.Forall_forall. intros o Ho. apply Covers_spec.
  assert (H : forallb (fun o => Covers (o_Usable o) cap0) sample_offers = true) by (vm_compute; reflexivity).
  rewrite forallb_forall in H. by apply H.
Qed.

Lemma sample_need_counts : Forall (fun i => 0 <= ci_Count i) (Items sample_cover_need).
Proof. repeat constructor; discriminate. Qed.

Lemma sample_need_aggregate : cap_nonneg (Aggregate sample_cover_need).
Proof. vm_compute. repeat split; discriminate. Qed.

Lemma Cover_sound_witness :
  let r := Cover sample_offers sample_cover_need (servingCost DefaultPolicy) sample_limits in
  Z.of_nat (length (cr_Nodes r)) <= 3 /\
  Forall (fun n => In (cn_Offer n) sample_offers /\ node_ok sample_cover_need (Sized sample_limits) n) (cr_Nodes r) /\
  cr_Nodes r <> [].
Proof.
  destruct (Cover_sound sample_offers sample_cover_need (servingCost DefaultPolicy) sample_limits
    sample_offers_nonneg sample_need_counts sample_need_aggregate) as (H1 & H2 & _).
  split; [exact H1|]. split; [exact H2|]. vm_compute. discriminate.
Defined.

Lemma Cover_complete_meets_witness :
  (forall i item, Items sample_cover_need !! i = Some item -> Rides item = false ->
     sumZ (map (placed_at i) (cr_Nodes (Cover sample_offers sample_cover_need (servingCost DefaultPolicy) sample_limits))) = ci_Count item) /\
  Covers (nodes_free sample_cover_need (cr_Nodes (Cover sample_offers sample_cover_need (servingCost DefaultPolicy) sample_limits)))
    (Aggregate sample_cover_need) = true.
Proof.
  apply (Cover_complete_meets sample_offers sample_cover_need (servingCost DefaultPolicy) sample_limits
    sample_offers_nonneg sample_need_counts sample_need_aggregate). vm_compute. reflexivity.
Defined.

Lemma Cover_not_dearer_than_one_witness :
  exists o, covers_alone sample_offers sample_cover_need (servingCost DefaultPolicy) sample_limits o /\
    Complete (Cover sample_offers sample_cover_need (servingCost DefaultPolicy) sample_limits) sample_cover_need = true /\
    sumZ (map (fun n => servingCost DefaultPolicy (cn_Offer n))
      (cr_Nodes (Cover sample_offers sample_cover_need (servingCost DefaultPolicy) sample_limits))) <= servingCost DefaultPolicy o.
Proof.
  assert (H : exists o, covers_alone sample_offers sample_cover_need (servingCost DefaultPolicy) sample_limits o).
  { eexists. eexists 4%nat. eexists. split; [vm_compute; reflexivity|]. split; [vm_compute; reflexivity|]. vm_compute. reflexivity. }
  destruct H as [o Ho]. exists o. split; [exact Ho|].
  apply (Cover_not_dearer_than_one sample_offers sample_cover_need (servingCost DefaultPolicy) sample_limits o
    sample_offers_nonneg sample_need_counts sample_need_aggregate); [discriminate|exact Ho].
Defined.
