(* ===== verification/Fleet.v ===== *)
(** The planner's data (internal/compute/fleet_plan.go, fleet_target.go,
    fleet_admin.go, planner.go): platform hosts and their states, the snapshot
    a pass reads, the actions, waits and market plans it produces, and the
    held targets that published plans carry from one pass to the next. *)

From S2P Require Import Prelude Capacity Catalog Billing Policy Placement Offers Cover.

(** ** Hosts *)

(** [FleetState] (fleet_admin.go, fleet_plan.go). *)
Inductive FleetState :=
  | FleetServing | FleetStarting | FleetDraining | FleetUnavailable | FleetTerminating
  | FleetPreparing | FleetStopping | FleetStopped | FleetHibernateUnverified | FleetImageSaved.
#[export] Instance FleetState_eq_dec : EqDecision FleetState.
Proof. solve_decision. Defined.

Definition state_text (s : FleetState) : string :=
  match s with
  | FleetServing => "serving"
  | FleetStarting => "starting"
  | FleetDraining => "draining"
  | FleetUnavailable => "unavailable"
  | FleetTerminating => "terminating"
  | FleetPreparing => "preparing"
  | FleetStopping => "stopping"
  | FleetStopped => "stopped"
  | FleetHibernateUnverified => "hibernate_unverified"
  | FleetImageSaved => "image_saved"
  end.

Inductive ReserveMode := ReserveStop | ReserveHibernate.
#[export] Instance ReserveMode_eq_dec : EqDecision ReserveMode.
Proof. solve_decision. Defined.

(** One platform host as the planner sees it; a nil pointer is [None]. *)
Record FleetHost := mkHost {
  h_ID : HostID;
  h_InstanceType : string;
  h_Region : string;
  h_Zone : string;
  h_ZoneID : string;
  h_Market : Market;
  h_GPU : string;
  h_Usable : FleetCapacity;
  h_State : FleetState;
  h_Load : FleetCapacity;
  h_Packed : FleetCapacity;
  h_Containers : Z;
  h_UsedDisks : Z;
  h_Protected : bool;
  h_StartRefused : bool;
  h_Requested : bool;
  h_UpdateDue : bool;
  h_ReserveMode : option ReserveMode;
  h_HibernationConfigured : bool;
  h_Stoppable : bool;
  h_HourlyMicros : option Z;
  h_PhaseAt : Z;
  h_Replaces : option HostID;
  h_RightsizeRefusedAt : option Z;
  h_StoppedAt : option Z;
  h_Slept : bool;
  h_HandsBack : bool;
  h_Moves : list Requirement;
  h_Stays : bool }.

(** The fields a pass assigns: state, load, reserve mode, hand-back. *)
Definition h_with (h : FleetHost) (state : FleetState) (load : FleetCapacity) (mode : option ReserveMode) (back : bool) : FleetHost :=
  mkHost (h_ID h) (h_InstanceType h) (h_Region h) (h_Zone h) (h_ZoneID h) (h_Market h) (h_GPU h) (h_Usable h)
    state load (h_Packed h) (h_Containers h) (h_UsedDisks h) (h_Protected h) (h_StartRefused h) (h_Requested h)
    (h_UpdateDue h) mode (h_HibernationConfigured h) (h_Stoppable h) (h_HourlyMicros h) (h_PhaseAt h) (h_Replaces h)
    (h_RightsizeRefusedAt h) (h_StoppedAt h) (h_Slept h) back (h_Moves h) (h_Stays h).

Definition set_State (v : FleetState) (h : FleetHost) : FleetHost := h_with h v (h_Load h) (h_ReserveMode h) (h_HandsBack h).
Definition add_Load (v : FleetCapacity) (h : FleetHost) : FleetHost :=
  h_with h (h_State h) (Plus (h_Load h) v) (h_ReserveMode h) (h_HandsBack h).
Definition set_Preparing (mode : ReserveMode) (h : FleetHost) : FleetHost :=
  h_with h FleetPreparing (h_Load h) (Some mode) (h_HandsBack h).
Definition set_HandsBack (v : bool) (h : FleetHost) : FleetHost := h_with h (h_State h) (h_Load h) (h_ReserveMode h) v.

(** [FleetHost.market]. *)
Definition market (h : FleetHost) : ReserveMarket := reserveMarketOf (h_Market h) (h_GPU h).

(** [FleetHost.room] and [free]. *)
Definition host_room (h : FleetHost) : FleetCapacity := Clamp (Minus (h_Usable h) (h_Load h)).
Definition free (h : FleetHost) : FleetCapacity := if h_UpdateDue h then cap0 else host_room h.

Definition resumable (h : FleetHost) : bool :=
  (h_State h == FleetStopped) || (h_State h == FleetHibernateUnverified) || (h_State h == FleetImageSaved).

(** [FleetHost.reserve]. *)
Definition reserve_host (h : FleetHost) : bool :=
  resumable h || (h_State h == FleetPreparing) || (h_State h == FleetStopping).

(** [FleetHost.capacity]. *)
Definition capacity (h : FleetHost) : HostCapacity :=
  let free := host_room h in
  mkHC (h_ID h) KindPlatform ProviderAWS None "" [] (h_Region h) (h_Zone h) (h_ZoneID h) (h_Market h) (h_GPU h)
    (GPUs (h_Usable h)) (CPUMillis (h_Usable h)) (MemoryBytes (h_Usable h))
    (CPUMillis free) (MemoryBytes free) (GPUs free)
    (match CatalogTypeNamed (h_InstanceType h) with Some t => Z.max 0 (DiskSlots t - h_UsedDisks h) | None => 0 end)
    (h_HandsBack h) (h_Packed h).

Definition forWork (h : FleetHost) (room : HostCapacity) : HostCapacity :=
  if h_UpdateDue h then hc_with_free room 0 0 0 0 (hc_Packed room) else room.

Definition serving (h : FleetHost) : bool := h_State h == FleetServing.
Definition starting (h : FleetHost) : bool := h_State h == FleetStarting.

Definition busy (h : FleetHost) : bool :=
  if h_GPU h != "" then GPUs (h_Load h) >? 0 else h_Containers h >? 0.

(** [QuotaUse] (fleet_offers.go): the vCPUs of every instance EC2 may run. *)
Definition QuotaUse (hosts : list FleetHost) (catalog : list CatalogType) : gmap QuotaKey Z :=
  fold_left (fun used h =>
    if resumable h then used
    else match List.find (fun t => t_Name t == h_InstanceType h) catalog with
         | None => used
         | Some t =>
             let key := mkQK (h_Region h) (fst (QuotaClassOf (h_InstanceType h))) (h_Market h) in
             <[key := default 0 (used !! key) + VCPUs t]> used
         end) hosts ∅.

(** ** Held targets (fleet_target.go) *)

Record LoadPeak := mkPeak { lp_Load : FleetCapacity; lp_At : Z }.

Definition hold (p : LoadPeak) (value : FleetCapacity) (now window : Z) : LoadPeak :=
  if value == lp_Load p then p
  else if Covers value (lp_Load p) || (time_sub now (lp_At p) >=? window) then mkPeak value now
  else mkPeak (Upper (lp_Load p) value) (lp_At p).

Record MarketHolds := mkHolds { mh_Running : LoadPeak; mh_Stopped : LoadPeak; ShortSince : Z }.
Definition holds0 : MarketHolds := mkHolds (mkPeak cap0 0) (mkPeak cap0 0) 0.

(** ** The snapshot *)

Record PendingContainer := mkPC { pd_ID : uuid; pd_Since : Z; pd_Host : option HostID }.
Record DemandGroup := mkDG { dg_Need : Requirement; dg_Containers : list PendingContainer }.

Record FleetSnapshot := mkSnapshot {
  s_Now : Z;
  s_Hosts : list FleetHost;
  s_Pending : list DemandGroup;
  Recent : gmap ReserveMarket FleetCapacity;
  Started : gmap ReserveMarket FleetCapacity;
  Burst : gmap ReserveMarket FleetCapacity;
  Arrived : gmap ReserveMarket FleetCapacity;
  RecentDisks : gmap ReserveMarket Z;
  s_Offers : OfferInputs;
  HostRoom : Z;
  ReserveRoom : Z;
  s_BatchWait : Z;
  s_Holds : gmap ReserveMarket MarketHolds;
  AtLossSpent : Z }.

(** The snapshot with other offer inputs. *)
Definition s_with_Offers (s : FleetSnapshot) (i : OfferInputs) : FleetSnapshot :=
  mkSnapshot (s_Now s) (s_Hosts s) (s_Pending s) (Recent s) (Started s) (Burst s) (Arrived s) (RecentDisks s) i
    (HostRoom s) (ReserveRoom s) (s_BatchWait s) (s_Holds s) (AtLossSpent s).

(** ** The plan *)

Inductive FleetActionKind :=
  | ActionResume | ActionBuy | ActionBuyReserve | ActionReturnToReserve | ActionDrain | ActionRetireReserve
  | ActionCancel | ActionRightsize | ActionHandBack | ActionLend.
#[export] Instance FleetActionKind_eq_dec : EqDecision FleetActionKind.
Proof. solve_decision. Defined.

Inductive ActionReason :=
  | ReasonWork | ReasonFloor | ReasonLoad | ReasonSpotWait | ReasonReserve | ReasonLargest | ReasonCheaper | ReasonIdle
  | ReasonInterrupted | ReasonSurplus | ReasonUnclaimed | ReasonSpotHosts | ReasonSpotRefuses.
#[export] Instance ActionReason_eq_dec : EqDecision ActionReason.
Proof. solve_decision. Defined.

(** [CapacityWait] (planner.go). *)
Inductive CapacityWait :=
  | WaitNone | WaitProvisioning | WaitLimit | WaitBatch | WaitDeferred | WaitDemand | WaitKeep | WaitReturning
  | WaitCooldown | WaitQuota | WaitMargin | WaitNoOffer.
#[export] Instance CapacityWait_eq_dec : EqDecision CapacityWait.
Proof. solve_decision. Defined.

Record FleetAction := mkAction {
  a_Kind : FleetActionKind;
  a_Reason : ActionReason;
  a_Market : ReserveMarket;
  a_Host : option HostID;
  a_Offer : option FleetOffer;
  a_Mode : option ReserveMode;
  a_Containers : list uuid;
  a_Holds : FleetCapacity }.

(** An action on a host alone. *)
Definition host_action (kind : FleetActionKind) (reason : ActionReason) (m : ReserveMarket) (h : HostID)
    (mode : option ReserveMode) : FleetAction := mkAction kind reason m (Some h) None mode [] cap0.

Record ContainerWait := mkWait { w_Container : uuid; w_Wait : option CapacityWait; w_Host : option HostID; w_Action : option nat }.

(** [FleetStateCapacity] (fleet_admin.go). *)
Record FleetStateCapacity := mkFSC { sc_State : FleetState; sc_Machines : Z; sc_Capacity : FleetCapacity; sc_Allocated : FleetCapacity }.

Record MarketPlan := mkMP {
  mp_Market : ReserveMarket;
  mp_Load : FleetCapacity;
  mp_WarmTarget : FleetCapacity;
  mp_WarmFree : FleetCapacity;
  mp_WarmPending : FleetCapacity;
  mp_StoppedTarget : FleetCapacity;
  mp_ReserveReady : FleetCapacity;
  mp_ReservePending : FleetCapacity;
  mp_Shortfall : FleetCapacity;
  mp_StoppedShortfall : FleetCapacity;
  mp_Holds : MarketHolds;
  mp_Reason : CapacityWait;
  mp_States : list FleetStateCapacity }.

Record FleetPlan := mkPlan {
  fp_Markets : list MarketPlan;
  fp_Actions : list FleetAction;
  fp_Waits : list ContainerWait;
  fp_BatchWait : Z }.

(** [ActionReason.Message] and [CapacityWait.Message]. *)
Definition reason_Message (r : ActionReason) : string :=
  match r with
  | ReasonWork => "pending work"
  | ReasonFloor => "the warm floor"
  | ReasonLoad => "headroom for load and arrivals"
  | ReasonSpotWait => "Spot refused past the Spot wait"
  | ReasonReserve => "the stopped target"
  | ReasonLargest => "a reserve that fits the largest shape"
  | ReasonCheaper => "a cheaper type pays back"
  | ReasonIdle => "idle past its timeout"
  | ReasonInterrupted => "stopped after its reclaim notice"
  | ReasonSurplus => "beyond the stopped target"
  | ReasonUnclaimed => "nothing waits for it"
  | ReasonSpotHosts => "Spot can host its work"
  | ReasonSpotRefuses => "Spot cannot host its work"
  end.

Definition wait_Message (w : CapacityWait) : string :=
  match w with
  | WaitNone => ""
  | WaitProvisioning => "a host is being bought for it"
  | WaitLimit => "fleet host limit reached"
  | WaitBatch => "purchases wait for arrivals to settle"
  | WaitDeferred => "growth continues next pass"
  | WaitDemand => "headroom waits for pending work"
  | WaitKeep => "headroom taken by work is replaced after the keep window"
  | WaitReturning => "reserves wait for hosts to return"
  | WaitCooldown => "offers cooling after refusals"
  | WaitQuota => "vCPU quota reached"
  | WaitMargin => "no offer keeps the purchase margin"
  | WaitNoOffer => "no offer fits"
  end.
