(* ===== verification/Pass.v ===== *)
(** The working state of one planning pass (the [pass] type of
    internal/compute/fleet_plan.go) and the operations its stages share: the
    offer rankings, GPU models, quotas, what hosts cost, which reserves are
    ready, and the primitive steps [act], [buy] and [resume].

    A pass reads the policy [p] and the snapshot [s] and mutates the rest, so
    [p] and [s] are arguments and the record [pass] holds what changes. A
    [*FleetHost] is an index into [ps_hosts]; a [*marketView] is its market,
    looked up in [ps_byMarket]. The tables [offers] and [spotOffers] of the
    source memoize [classOffers], [marketRanking] and [spotOffered], which
    depend on the snapshot and on what a pass never changes, so the model
    computes them at each use. A map from markets or hosts to bool that is
    only ever set is a set. *)

From S2P Require Import Prelude Capacity Catalog Billing Policy Placement Offers Cover Fleet.

(** ** State *)

(** [marketTarget] (fleet_target.go). *)
Record marketTarget := mkTarget {
  t_m : ReserveMarket;
  t_load : FleetCapacity;
  t_want : FleetCapacity;
  t_arriving : bool;
  t_holds : MarketHolds;
  t_headroom : FleetCapacity;
  t_floor : FleetCapacity;
  t_part : FleetCapacity;
  t_heldParts : list FleetCapacity;
  t_wantParts : list FleetCapacity;
  t_largest : FleetCapacity;
  t_largestDisks : Z;
  t_loaded : bool }.

(** [v.holds.ShortSince = now]. *)
Definition t_set_ShortSince (now : Z) (t : marketTarget) : marketTarget :=
  mkTarget (t_m t) (t_load t) (t_want t) (t_arriving t) (mkHolds (mh_Running (t_holds t)) (mh_Stopped (t_holds t)) now)
    (t_headroom t) (t_floor t) (t_part t) (t_heldParts t) (t_wantParts t) (t_largest t) (t_largestDisks t) (t_loaded t).

Record marketView := mkView {
  v_target : marketTarget;
  v_kept : list nat;
  v_capacity : FleetCapacity;
  v_covered : FleetCapacity;
  v_unplaced : list FleetCapacity;
  v_retired : gset HostID;
  v_shortfall : FleetCapacity;
  v_stoppedShort : FleetCapacity;
  v_runningReason : CapacityWait;
  v_stoppedReason : CapacityWait }.

Definition v_set_target (v : marketTarget) (v0 : marketView) : marketView :=
  mkView v (v_kept v0) (v_capacity v0) (v_covered v0) (v_unplaced v0) (v_retired v0) (v_shortfall v0)
    (v_stoppedShort v0) (v_runningReason v0) (v_stoppedReason v0).
Definition v_set_kept (v : list nat) (v0 : marketView) : marketView :=
  mkView (v_target v0) v (v_capacity v0) (v_covered v0) (v_unplaced v0) (v_retired v0) (v_shortfall v0)
    (v_stoppedShort v0) (v_runningReason v0) (v_stoppedReason v0).
Definition v_set_capacity (v : FleetCapacity) (v0 : marketView) : marketView :=
  mkView (v_target v0) (v_kept v0) v (v_covered v0) (v_unplaced v0) (v_retired v0) (v_shortfall v0)
    (v_stoppedShort v0) (v_runningReason v0) (v_stoppedReason v0).
Definition v_set_covered (v : FleetCapacity) (v0 : marketView) : marketView :=
  mkView (v_target v0) (v_kept v0) (v_capacity v0) v (v_unplaced v0) (v_retired v0) (v_shortfall v0)
    (v_stoppedShort v0) (v_runningReason v0) (v_stoppedReason v0).
Definition v_set_unplaced (v : list FleetCapacity) (v0 : marketView) : marketView :=
  mkView (v_target v0) (v_kept v0) (v_capacity v0) (v_covered v0) v (v_retired v0) (v_shortfall v0)
    (v_stoppedShort v0) (v_runningReason v0) (v_stoppedReason v0).
Definition v_set_retired (v : gset HostID) (v0 : marketView) : marketView :=
  mkView (v_target v0) (v_kept v0) (v_capacity v0) (v_covered v0) (v_unplaced v0) v (v_shortfall v0)
    (v_stoppedShort v0) (v_runningReason v0) (v_stoppedReason v0).
Definition v_set_shortfall (v : FleetCapacity) (v0 : marketView) : marketView :=
  mkView (v_target v0) (v_kept v0) (v_capacity v0) (v_covered v0) (v_unplaced v0) (v_retired v0) v
    (v_stoppedShort v0) (v_runningReason v0) (v_stoppedReason v0).
Definition v_set_stoppedShort (v : FleetCapacity) (v0 : marketView) : marketView :=
  mkView (v_target v0) (v_kept v0) (v_capacity v0) (v_covered v0) (v_unplaced v0) (v_retired v0) (v_shortfall v0) v
    (v_runningReason v0) (v_stoppedReason v0).
Definition v_set_runningReason (v : CapacityWait) (v0 : marketView) : marketView :=
  mkView (v_target v0) (v_kept v0) (v_capacity v0) (v_covered v0) (v_unplaced v0) (v_retired v0) (v_shortfall v0)
    (v_stoppedShort v0) v (v_stoppedReason v0).
Definition v_set_stoppedReason (v : CapacityWait) (v0 : marketView) : marketView :=
  mkView (v_target v0) (v_kept v0) (v_capacity v0) (v_covered v0) (v_unplaced v0) (v_retired v0) (v_shortfall v0)
    (v_stoppedShort v0) (v_runningReason v0) v.

(** The market of a view, and the view of a market as [targets] makes it. *)
Definition v_m (v : marketView) : ReserveMarket := t_m (v_target v).
Definition view_of (t : marketTarget) : marketView := mkView t [] cap0 cap0 [] ∅ cap0 cap0 WaitNone WaitNone.

Record plannedHost := mkPlanned { pl_market : ReserveMarket; pl_offer : FleetOffer; pl_reserve : bool; pl_holds : FleetCapacity }.

Record pass := mkPass {
  ps_hosts : list FleetHost;
  ps_markets : list MarketPlan;
  ps_actions : list FleetAction;
  ps_waits : list ContainerWait;
  ps_batchWait : Z;
  ps_planned : list plannedHost;
  ps_used : gmap ReserveMarket Z;
  ps_waiting : gset ReserveMarket;
  ps_limited : gset ReserveMarket;
  ps_batched : gset ReserveMarket;
  ps_hostRoom : Z;
  ps_reserveRoom : Z;
  ps_byMarket : gmap ReserveMarket marketView;
  ps_claimed : gset HostID;
  ps_partsShort : gmap ReserveMarket (list FleetCapacity);
  ps_quotaUsed : gmap QuotaKey Z }.

Definition set_hosts (v : list FleetHost) (ps : pass) : pass :=
  mkPass v (ps_markets ps) (ps_actions ps) (ps_waits ps) (ps_batchWait ps) (ps_planned ps) (ps_used ps)
    (ps_waiting ps) (ps_limited ps) (ps_batched ps) (ps_hostRoom ps) (ps_reserveRoom ps) (ps_byMarket ps)
    (ps_claimed ps) (ps_partsShort ps) (ps_quotaUsed ps).
Definition set_markets (v : list MarketPlan) (ps : pass) : pass :=
  mkPass (ps_hosts ps) v (ps_actions ps) (ps_waits ps) (ps_batchWait ps) (ps_planned ps) (ps_used ps) (ps_waiting ps)
    (ps_limited ps) (ps_batched ps) (ps_hostRoom ps) (ps_reserveRoom ps) (ps_byMarket ps) (ps_claimed ps)
    (ps_partsShort ps) (ps_quotaUsed ps).
Definition set_actions (v : list FleetAction) (ps : pass) : pass :=
  mkPass (ps_hosts ps) (ps_markets ps) v (ps_waits ps) (ps_batchWait ps) (ps_planned ps) (ps_used ps) (ps_waiting ps)
    (ps_limited ps) (ps_batched ps) (ps_hostRoom ps) (ps_reserveRoom ps) (ps_byMarket ps) (ps_claimed ps)
    (ps_partsShort ps) (ps_quotaUsed ps).
Definition set_waits (v : list ContainerWait) (ps : pass) : pass :=
  mkPass (ps_hosts ps) (ps_markets ps) (ps_actions ps) v (ps_batchWait ps) (ps_planned ps) (ps_used ps)
    (ps_waiting ps) (ps_limited ps) (ps_batched ps) (ps_hostRoom ps) (ps_reserveRoom ps) (ps_byMarket ps)
    (ps_claimed ps) (ps_partsShort ps) (ps_quotaUsed ps).
Definition set_batchWait (v : Z) (ps : pass) : pass :=
  mkPass (ps_hosts ps) (ps_markets ps) (ps_actions ps) (ps_waits ps) v (ps_planned ps) (ps_used ps) (ps_waiting ps)
    (ps_limited ps) (ps_batched ps) (ps_hostRoom ps) (ps_reserveRoom ps) (ps_byMarket ps) (ps_claimed ps)
    (ps_partsShort ps) (ps_quotaUsed ps).
Definition set_planned (v : list plannedHost) (ps : pass) : pass :=
  mkPass (ps_hosts ps) (ps_markets ps) (ps_actions ps) (ps_waits ps) (ps_batchWait ps) v (ps_used ps) (ps_waiting ps)
    (ps_limited ps) (ps_batched ps) (ps_hostRoom ps) (ps_reserveRoom ps) (ps_byMarket ps) (ps_claimed ps)
    (ps_partsShort ps) (ps_quotaUsed ps).
Definition set_used (v : gmap ReserveMarket Z) (ps : pass) : pass :=
  mkPass (ps_hosts ps) (ps_markets ps) (ps_actions ps) (ps_waits ps) (ps_batchWait ps) (ps_planned ps) v
    (ps_waiting ps) (ps_limited ps) (ps_batched ps) (ps_hostRoom ps) (ps_reserveRoom ps) (ps_byMarket ps)
    (ps_claimed ps) (ps_partsShort ps) (ps_quotaUsed ps).
Definition set_waiting (v : gset ReserveMarket) (ps : pass) : pass :=
  mkPass (ps_hosts ps) (ps_markets ps) (ps_actions ps) (ps_waits ps) (ps_batchWait ps) (ps_planned ps) (ps_used ps) v
    (ps_limited ps) (ps_batched ps) (ps_hostRoom ps) (ps_reserveRoom ps) (ps_byMarket ps) (ps_claimed ps)
    (ps_partsShort ps) (ps_quotaUsed ps).
Definition set_limited (v : gset ReserveMarket) (ps : pass) : pass :=
  mkPass (ps_hosts ps) (ps_markets ps) (ps_actions ps) (ps_waits ps) (ps_batchWait ps) (ps_planned ps) (ps_used ps)
    (ps_waiting ps) v (ps_batched ps) (ps_hostRoom ps) (ps_reserveRoom ps) (ps_byMarket ps) (ps_claimed ps)
    (ps_partsShort ps) (ps_quotaUsed ps).
Definition set_batched (v : gset ReserveMarket) (ps : pass) : pass :=
  mkPass (ps_hosts ps) (ps_markets ps) (ps_actions ps) (ps_waits ps) (ps_batchWait ps) (ps_planned ps) (ps_used ps)
    (ps_waiting ps) (ps_limited ps) v (ps_hostRoom ps) (ps_reserveRoom ps) (ps_byMarket ps) (ps_claimed ps)
    (ps_partsShort ps) (ps_quotaUsed ps).
Definition set_hostRoom (v : Z) (ps : pass) : pass :=
  mkPass (ps_hosts ps) (ps_markets ps) (ps_actions ps) (ps_waits ps) (ps_batchWait ps) (ps_planned ps) (ps_used ps)
    (ps_waiting ps) (ps_limited ps) (ps_batched ps) v (ps_reserveRoom ps) (ps_byMarket ps) (ps_claimed ps)
    (ps_partsShort ps) (ps_quotaUsed ps).
Definition set_reserveRoom (v : Z) (ps : pass) : pass :=
  mkPass (ps_hosts ps) (ps_markets ps) (ps_actions ps) (ps_waits ps) (ps_batchWait ps) (ps_planned ps) (ps_used ps)
    (ps_waiting ps) (ps_limited ps) (ps_batched ps) (ps_hostRoom ps) v (ps_byMarket ps) (ps_claimed ps)
    (ps_partsShort ps) (ps_quotaUsed ps).
Definition set_byMarket (v : gmap ReserveMarket marketView) (ps : pass) : pass :=
  mkPass (ps_hosts ps) (ps_markets ps) (ps_actions ps) (ps_waits ps) (ps_batchWait ps) (ps_planned ps) (ps_used ps)
    (ps_waiting ps) (ps_limited ps) (ps_batched ps) (ps_hostRoom ps) (ps_reserveRoom ps) v (ps_claimed ps)
    (ps_partsShort ps) (ps_quotaUsed ps).
Definition set_claimed (v : gset HostID) (ps : pass) : pass :=
  mkPass (ps_hosts ps) (ps_markets ps) (ps_actions ps) (ps_waits ps) (ps_batchWait ps) (ps_planned ps) (ps_used ps)
    (ps_waiting ps) (ps_limited ps) (ps_batched ps) (ps_hostRoom ps) (ps_reserveRoom ps) (ps_byMarket ps) v
    (ps_partsShort ps) (ps_quotaUsed ps).
Definition set_partsShort (v : gmap ReserveMarket (list FleetCapacity)) (ps : pass) : pass :=
  mkPass (ps_hosts ps) (ps_markets ps) (ps_actions ps) (ps_waits ps) (ps_batchWait ps) (ps_planned ps) (ps_used ps)
    (ps_waiting ps) (ps_limited ps) (ps_batched ps) (ps_hostRoom ps) (ps_reserveRoom ps) (ps_byMarket ps)
    (ps_claimed ps) v (ps_quotaUsed ps).
Definition set_quotaUsed (v : gmap QuotaKey Z) (ps : pass) : pass :=
  mkPass (ps_hosts ps) (ps_markets ps) (ps_actions ps) (ps_waits ps) (ps_batchWait ps) (ps_planned ps) (ps_used ps)
    (ps_waiting ps) (ps_limited ps) (ps_batched ps) (ps_hostRoom ps) (ps_reserveRoom ps) (ps_byMarket ps)
    (ps_claimed ps) (ps_partsShort ps) v.

(** [coverItem]: one pending container during the pass. *)
Record coverItem := mkCI { it_id : uuid; it_since : Z; it_need : Requirement; it_market : ReserveMarket; it_bought : option HostID; it_wait : nat }.

(** [ranking]: offers, size references and those available soon. *)
Record ranking := mkRanking { rk_offers : list FleetOffer; rk_refs : list FleetOffer; rk_soon : list FleetOffer }.

(** A host by index; every index a pass holds is one of its hosts. *)
Definition host0 : FleetHost :=
  mkHost 0 "" "" "" "" MarketNone "" cap0 FleetTerminating cap0 cap0 0 0 false false false false None false false None 0 None None
    None false false [] false.
Definition host (ps : pass) (i : nat) : FleetHost := default host0 (ps_hosts ps !! i).
Definition update_host (i : nat) (f : FleetHost -> FleetHost) (ps : pass) : pass :=
  set_hosts (alter f i (ps_hosts ps)) ps.

Definition inMarket (ps : pass) (m : ReserveMarket) (keep : FleetHost -> bool) : list nat :=
  List.filter (fun i => (market (host ps i) == m) && keep (host ps i)) (seq 0 (length (ps_hosts ps))).

(** What [totalOf] sums over hosts. *)
Definition usable_of (ps : pass) (idx : list nat) : FleetCapacity := totalOf idx (fun i => h_Usable (host ps i)).

(** A view by market: [targets] gives every market of a host or item one. *)
Definition target0 : marketTarget := mkTarget (mkRM false "") cap0 cap0 false holds0 cap0 cap0 cap0 [] [] cap0 0 false.
Definition view (ps : pass) (m : ReserveMarket) : marketView := default (view_of target0) (ps_byMarket ps !! m).
Definition update_view (m : ReserveMarket) (f : marketView -> marketView) (ps : pass) : pass :=
  set_byMarket (<[m := f (view ps m)]> (ps_byMarket ps)) ps.

(** ** Requirements of markets and classes *)

Definition marketNeed (m : ReserveMarket) : Requirement :=
  mkReq 0 None "" "" "" (Preemptible m) (if rm_GPU m != "" then [rm_GPU m] else []) 0 0 0 0 None None false.

(** [need.Read = read]. *)
Definition r_with_Read (r : Requirement) (read : option VolumeRead) : Requirement :=
  mkReq (r_Workspace r) (r_Connection r) (r_Machine r) (r_Region r) (r_Zone r) (r_Preemptible r) (r_GPUs r) (r_GPUCount r)
    (r_CPUMillis r) (r_MemoryBytes r) (r_Disks r) (r_Prefer r) read (r_Packs r).

Definition needOf (class : Requirement) (shape : FleetCapacity) : Requirement :=
  mkReq (r_Workspace class) (r_Connection class) (r_Machine class) (r_Region class) (r_Zone class) (r_Preemptible class)
    (r_GPUs class) (GPUs shape) (CPUMillis shape) (MemoryBytes shape) (r_Disks class) (r_Prefer class) (r_Read class) (r_Packs class).

Definition shapeNeed (m : ReserveMarket) (shape : FleetCapacity) : Requirement := needOf (marketNeed m) shape.

Definition boolKey (b : bool) : string := if b then "1" else "0".

(** The key of a demand class, before and with the region it reads. *)
Definition class_base (need : Requirement) : string :=
  "demand/" +:+ r_Region need +:+ "/" +:+ r_Zone need +:+ "/" +:+ boolKey (r_Preemptible need) +:+ "/" +:+
  String.concat "," (r_GPUs need).
Definition class_key (need : Requirement) : string :=
  match r_Read need with Some read => class_base need +:+ "/" +:+ vr_Region read | None => class_base need end.

(** [size]: GPUs dominate, then CPU and memory. *)
Definition size (r : Requirement) : Z :=
  Z.shiftl (GPUsNeeded r) 40 + r_CPUMillis r + Z.quot (Z.shiftr (r_MemoryBytes r) 20) 4.


Section Pass.
Context (p : Policy) (s : FleetSnapshot).

(** [classReads]: the largest read pending work of each class makes. *)
Definition classReads : gmap string Z :=
  fold_left (fun reads g =>
    match r_Read (dg_Need g) with
    | None => reads
    | Some read => let key := class_key (dg_Need g) in <[key := Z.max (default 0 (reads !! key)) (vr_Bytes read)]> reads
    end) (s_Pending s) ∅.

(** [classKey]: what offers depend on in a requirement. *)
Definition classNeed (need : Requirement) : Requirement :=
  mkReq 0 None "" (r_Region need) (r_Zone need) (r_Preemptible need) (r_GPUs need) 0 0 0 0 None
    (match r_Read need with
     | Some read => Some (mkRead (vr_Region read) (default 0 (classReads !! class_key need)))
     | None => None
     end) false.
Definition classKey (need : Requirement) : Requirement * string := (classNeed need, class_key need).

(** [ps.spot]. *)
Definition pass_spot : gmap spotPool SpotQuote := freshSpot p (oi_Spot (s_Offers s)) (s_Now s).

(** ** Offers *)

(** The ranking of one need: its offers, and the size rule's references. *)
Definition rank_need (need : Requirement) (reserve : bool) (offers : list FleetOffer) (i : OfferInputs) : ranking :=
  let refs := sizeRefs p need reserve i in
  mkRanking offers refs (match refs with [] => [] | _ => RankOffers p need reserve (availableSoon p i) end).

Definition classOffers (need : Requirement) : ranking :=
  let c := classNeed need in rank_need c false (RankOffers p c false (s_Offers s)) (s_Offers s).

Definition marketRanking (m : ReserveMarket) (reserve : bool) : ranking :=
  let need := r_with_Read (marketNeed m) (marketRead (s_Offers s) m) in
  rank_need need reserve
    (delete_func (fun o => (o_Market o != buyMarket m) || (t_GPU (o_Type o) != rm_GPU m)) (RankOffers p need reserve (s_Offers s)))
    (s_Offers s).

Definition marketOffers (m : ReserveMarket) (reserve : bool) : list FleetOffer := rk_offers (marketRanking m reserve).

Definition typeNamed (name : string) : option CatalogType :=
  List.find (fun t => t_Name t == name) (Catalog (s_Offers s)).

(** The type found, or the zero type where the source ignores a miss. *)
Definition typeOf (name : string) : CatalogType := default type0 (typeNamed name).

(** [gpuModels] with the record of each model it sorts. *)
Record model := mkModel { md_name : string; md_rank : Z; md_stocked : bool; md_perCard : Z }.

Definition model_order (a b : model) : comparison :=
  Z.compare (md_rank a) (md_rank b) <+> (boolOrder (negb (md_stocked a)) (negb (md_stocked b)) <+>
  (Z.compare (md_perCard a) (md_perCard b) <+> String.compare (md_name a) (md_name b))).

Definition gpu_step (ps : pass) (need : Requirement) (models : list model) (o : FleetOffer) : list model :=
  let gpu := t_GPU (o_Type o) in
  let rank := GPURank (r_GPUs need) gpu in
  if (gpu == "") || (rank <? 0) then models
  else if (nth (Z.to_nat rank) (r_GPUs need) "" == GPUAny) && bool_decide (p_GPU p !! gpu = None) then models
  else
    let per := Z.quot (HourlyMicros o) (t_GPUCount (o_Type o)) in
    match index_func (fun m => md_name m == gpu) models with
    | Some i => alter (fun m => mkModel (md_name m) (md_rank m) (md_stocked m) (Z.min (md_perCard m) per)) i models
    | None =>
        let stocked := existsb (fun h => (h_GPU h == gpu) && (h_State h != FleetTerminating)) (ps_hosts ps) in
        models ++ [mkModel gpu rank stocked per]
    end.

Definition gpuModels (ps : pass) (need : Requirement) (offers : list FleetOffer) : list string :=
  map md_name (sort_by model_order (fold_left (gpu_step ps need) offers [])).

Definition demandMarket (ps : pass) (need : Requirement) : ReserveMarket :=
  if GPUsNeeded need =? 0 then mkRM (r_Preemptible need) ""
  else mkRM (r_Preemptible need)
    (match gpuModels ps need (rk_offers (classOffers need)) with
     | m :: _ => m
     | [] => match List.find (fun m => m != GPUAny) (r_GPUs need) with Some m => m | None => GPUAny end
     end).

Definition spotOffered (ps : pass) (need : Requirement) : bool :=
  let shape := reservedShape need in
  let r := classOffers need in
  let models := gpuModels ps need (rk_offers r) in
  existsb (fun o =>
    (o_Market o == MarketSpot) && ((GPUs shape =? 0) || existsb (fun m => m == t_GPU (o_Type o)) models) &&
    Covers (o_Usable o) shape && (DiskSlots (o_Type o) >=? r_Disks need) &&
    sized p o shape (r_Disks need) (rk_refs r) (rk_soon r)) (rk_offers r).

(** ** Limits, quotas and costs *)

(** [pass.room]: the growth actions market [m] may still take. *)
Definition room (ps : pass) (m : ReserveMarket) : Z := MaxGrowthActions p - default 0 (ps_used ps !! m).

(** [batching]: purchases wait for arrivals to settle, and the plan says so. *)
Definition batching (ps : pass) : bool * pass :=
  if s_BatchWait s <=? 0 then (false, ps) else (true, set_batchWait (s_BatchWait s) ps).

Definition limits (ps : pass) (nodes : Z) (r : ranking) : CoverLimits :=
  mkLimits nodes (quotaRoom (Quotas (s_Offers s)) (ps_quotaUsed ps))
    (Some (fun o holds disks => sized p o holds disks (rk_refs r) (rk_soon r))).

Definition quotaOf (region instanceType : string) (mk : Market) : QuotaKey * Z :=
  (mkQK region (fst (QuotaClassOf instanceType)) mk, VCPUs (typeOf instanceType)).

Definition startable (ps : pass) (h : FleetHost) : bool :=
  let '(key, vcpus) := quotaOf (h_Region h) (h_InstanceType h) (h_Market h) in
  match quotaRoom (Quotas (s_Offers s)) (ps_quotaUsed ps) !! key with Some left_v => left_v >=? vcpus | None => true end.

(** [pass.start]: counts a start against its quota. *)
Definition start (region instanceType : string) (mk : Market) (ps : pass) : pass :=
  let '(key, vcpus) := quotaOf region instanceType mk in
  set_quotaUsed (<[key := default 0 (ps_quotaUsed ps !! key) + vcpus]> (ps_quotaUsed ps)) ps.

Definition stoppedMicros (h : FleetHost) : Z :=
  match typeNamed (h_InstanceType h) with
  | None => 0
  | Some t => volumesMicros t (h_Region h) (h_ReserveMode h == Some ReserveHibernate) (bool_decide (is_Some (h_ReserveMode h)))
  end.

(** [pass.cooled]. *)
Definition host_cooled (h : FleetHost) : bool :=
  cooled (Cooldowns (s_Offers s)) (s_Now s) (h_Region h) (h_ZoneID h) (h_InstanceType h) (h_Market h).

(** The hourly compute price of [h]'s pool now, where one is known. *)
Definition pool_price (h : FleetHost) : option Z :=
  if h_Market h == MarketSpot then sq_HourlyMicros <$> pass_spot !! (h_Region h, h_ZoneID h, h_InstanceType h)
  else OnDemandMicros (typeOf (h_InstanceType h)) (h_Region h).

(** [hostCost]: over the cost horizon, [None] when no price is known. *)
Definition hostCost (h : FleetHost) : option Z :=
  let catalogued := typeNamed (h_InstanceType h) in
  let transfer := match catalogued with Some t => transferMicros (StorageRegion (s_Offers s)) (h_Region h) t | None => 0 end in
  let read := readMicros (CostHorizon p) (marketRead (s_Offers s) (market h)) (h_Region h) in
  let hourly :=
    match catalogued, pool_price h with
    | Some t, Some compute =>
        Some (compute + volumesMicros t (h_Region h) (h_HibernationConfigured h) false + ipv4Hour (ratesIn (h_Region h)))
    | _, _ => h_HourlyMicros h
    end in
  match hourly with
  | None => None
  | Some hourly =>
      Some (servingCost p (mkOffer type0 "" "" "" MarketNone cap0 false hourly 0 transfer read 0 (mkQK "" QuotaNone MarketNone)))
  end.

(** [retention]: idle hosts by what keeping them costs. *)
Definition retention (a b : FleetHost) : comparison :=
  boolOrder (bool_decide (hostCost a = None)) (bool_decide (hostCost b = None)) <+>
  (Z.compare (default 0 (hostCost a)) (default 0 (hostCost b)) <+>
  (Z.compare (CPUMillis (h_Usable a)) (CPUMillis (h_Usable b)) <+>
  (Z.compare (MemoryBytes (h_Usable a)) (MemoryBytes (h_Usable b)) <+> Z.compare (h_ID a) (h_ID b)))).

(** ** Reserves *)

(** [stalled]. *)
Definition stalled (h : FleetHost) : bool :=
  match h_StoppedAt h with Some at_ => time_sub (s_Now s) at_ >? st_SpotDisableMax (Starts p) | None => false end.

(** [ready]: reserve [h] can resume now, for [work] or for headroom. *)
Definition ready (ps : pass) (h : FleetHost) (work : bool) : bool :=
  let stopping := (h_State h == FleetStopping) && bool_decide (is_Some (h_StoppedAt h)) && negb (stalled h) in
  if h_Protected h || h_StartRefused h then false
  else if resumable h then startable ps h
  else if negb stopping then false
  else
    let st := Starts p in
    let '(launch, serves) := if h_GPU h != "" then (st_GPULaunch st, st_GPUResume st) else (st_Launch st, st_Resume st) in
    let serves := serves + Z.max 0 (time_sub (default 0 (h_StoppedAt h) + st_SpotDisable st) (s_Now s)) in
    work && (serves <? launch).

(** [marketView.fits] and [fitsLargest]. *)
Definition view_fits (v : marketView) (usable : FleetCapacity) (t : CatalogType) : bool :=
  Covers usable (t_largest (v_target v)) && (DiskSlots t >=? t_largestDisks (v_target v)).
Definition fitsLargest (v : marketView) (h : FleetHost) : bool := view_fits v (h_Usable h) (typeOf (h_InstanceType h)).

(** [counted]: a reserve that holds market [v]'s stopped target. *)
Definition counted (v : marketView) (h : FleetHost) : bool :=
  reserve_host h && negb (h_Protected h) && negb (bool_decide (h_ID h ∈ v_retired v)).

(** [holdsLargest]: a counted reserve other than [skip], or one this pass
    buys, fits the largest shape. *)
Definition holdsLargest (ps : pass) (v : marketView) (skip : HostID) : bool :=
  Empty (t_largest (v_target v)) ||
  existsb (fun i => negb (h_ID (host ps i) =? skip) && fitsLargest v (host ps i)) (inMarket ps (v_m v) (counted v)) ||
  existsb (fun n => (pl_market n == v_m v) && pl_reserve n && view_fits v (o_Usable (pl_offer n)) (o_Type (pl_offer n))) (ps_planned ps).

Definition leavesLarge (ps : pass) (h : FleetHost) : bool :=
  let v := view ps (market h) in negb (fitsLargest v h) || holdsLargest ps v (h_ID h).

Definition lendable (ps : pass) (h : FleetHost) : bool :=
  let v := view ps (market h) in
  let others := inMarket ps (v_m v) (fun r => negb (h_ID r =? h_ID h) && resumable r && counted v r) in
  Covers (usable_of ps others) (lp_Load (mh_Stopped (t_holds (v_target v)))) && leavesLarge ps h.

(** ** Primitive steps *)

Definition grows (kind : FleetActionKind) : bool :=
  match kind with
  | ActionResume | ActionBuy | ActionBuyReserve | ActionRightsize => true
  | _ => false
  end.

(** [act]: appends the action; its index is the number of actions before. *)
Definition act (a : FleetAction) (ps : pass) : nat * pass :=
  let ps' := if grows (a_Kind a) then set_used (<[a_Market a := default 0 (ps_used ps !! a_Market a) + 1]> (ps_used ps)) ps else ps in
  (length (ps_actions ps'), set_actions (ps_actions ps' ++ [a]) ps').

Definition buy (m : ReserveMarket) (o : FleetOffer) (kind : FleetActionKind) (reason : ActionReason) (holds : FleetCapacity)
    (containers : list uuid) (replaces : option HostID) (ps : pass) : nat * pass :=
  let reserve := kind == ActionBuyReserve in
  let mode := if reserve then Some (if Hibernate o then ReserveHibernate else ReserveStop) else None in
  let ps := if reserve then set_reserveRoom (ps_reserveRoom ps - 1) ps else ps in
  let ps := set_hostRoom (ps_hostRoom ps - 1) ps in
  let ps := set_planned (ps_planned ps ++ [mkPlanned (reserveMarketOf (o_Market o) (t_GPU (o_Type o))) o reserve holds]) ps in
  let ps := start (o_Region o) (t_Name (o_Type o)) (o_Market o) ps in
  act (mkAction kind reason m replaces (Some o) mode containers holds) ps.

Definition resume (m : ReserveMarket) (i : nat) (reason : ActionReason) (containers : list uuid) (ps : pass) : pass :=
  let h := host ps i in
  let ps :=
    if h_State h != FleetStopping
    then start (h_Region h) (h_InstanceType h) (h_Market h) (set_hostRoom (ps_hostRoom ps - 1) ps)
    else ps in
  let ps := update_host i (set_State FleetStarting) ps in
  let ps := set_reserveRoom (ps_reserveRoom ps + 1) ps in
  snd (act (mkAction ActionResume reason m (Some (h_ID h)) None None containers cap0) ps).

(** [provisioning] and [waits]. *)
Definition provisioning (it : coverItem) (h : option HostID) (action : option nat) (ps : pass) : pass :=
  set_waits (alter (fun w => mkWait (w_Container w) (Some WaitProvisioning) h action) (it_wait it) (ps_waits ps)) ps.

Definition waits (it : coverItem) (wait : CapacityWait) (ps : pass) : pass :=
  set_waiting ({[ it_market it ]} ∪ ps_waiting ps)
    (set_waits (alter (fun w => mkWait (w_Container w) (Some wait) (w_Host w) (w_Action w)) (it_wait it) (ps_waits ps)) ps).

(** [shortReason]: why market [m]'s purchases fall short of [need]. *)
Definition shortReason (ps : pass) (m : ReserveMarket) (need : Requirement) (reserve : bool) : CapacityWait :=
  let offered (i : OfferInputs) :=
    existsb (fun o => (o_Market o == buyMarket m) && (t_GPU (o_Type o) == rm_GPU m)) (RankOffers p need reserve i) in
  let i := s_Offers s in
  if (ps_hostRoom ps <=? 0) || (reserve && (ps_reserveRoom ps <=? 0)) then WaitLimit
  else if s_BatchWait s >? 0 then WaitBatch
  else if room ps m <=? 0 then WaitDeferred
  else if offered i then WaitQuota
  else if offered (with_Cooldowns i []) then WaitCooldown
  else if offered (with_Quotas i []) then WaitQuota
  else if offered (with_OwnerPays i true) then WaitMargin
  else WaitNoOffer.

End Pass.
