(* ===== verification/Demand.v ===== *)
(** What a market's hosts should hold (internal/compute/fleet_target.go), and
    its pending work (fleet_plan.go): on-demand hosts that hand Spot-tolerant
    work back, the pending containers in order, and the cover that places each
    on ready room, a starting host, a resumed reserve or a purchase. *)

From S2P Require Import Prelude Capacity Catalog Billing Policy Placement Offers Cover Fleet Pass.

Section Target.
Context (p : Policy) (s : FleetSnapshot).

(** [marketLoad]: CPU work packed into a GPU host loads the CPU Spot market. *)
Definition marketLoad (hosts : list FleetHost) (m : ReserveMarket) : FleetCapacity :=
  fold_left (fun load h =>
    let load := if market h == m then Plus load (Minus (h_Load h) (h_Packed h)) else load in
    if spotCPU m then Plus load (h_Packed h) else load) hosts cap0.

(** The load, largest shape and most disks with the market's items. *)
Definition item_demand (m : ReserveMarket) (items : list coverItem) (load largest : FleetCapacity) (disks : Z) :
    FleetCapacity * FleetCapacity * Z :=
  fold_left (fun '(load, largest, disks) it =>
    if it_market it == m
    then (Plus load (reservedShape (it_need it)), Upper largest (reservedShape (it_need it)), Z.max disks (r_Disks (it_need it)))
    else (load, largest, disks)) items (load, largest, disks).

(** The floor and headroom of a market under [load], and whether arrivals set
    the headroom. *)
Definition warm_target (m : ReserveMarket) (load : FleetCapacity) : FleetCapacity * FleetCapacity * bool :=
  let r := Reserve p m in
  let share := Percent load (LoadPercent (Warm r)) in
  let started := default cap0 (Started s !! m) in
  let arrived := default cap0 (Arrived s !! m) in
  let floor := Floor (Warm r) in
  let '(floor, warm) :=
    if negb (Empty floor) then
      let floor := Upper floor (Lower started (ls_Cap (p_LargestShape p))) in
      (floor, Upper (Upper floor share) (default cap0 (Burst s !! m)))
    else (floor, Upper floor share) in
  if spotCPU m && (Warm r != ht0) then
    let arrivals := Plus floor arrived in
    (floor, Upper warm arrivals, negb (Empty arrived) && Covers arrivals warm)
  else (floor, warm, false).

(** [pass.target]. *)
Definition target (hosts : list FleetHost) (m : ReserveMarket) (items : list coverItem) : marketTarget :=
  let r := Reserve p m in
  let held := default holds0 (s_Holds s !! m) in
  let '(load, recent, disks) :=
    item_demand m items (marketLoad hosts m) (default cap0 (Recent s !! m)) (default 0 (RecentDisks s !! m)) in
  let '(floor, warm, arriving) := warm_target m load in
  let want := Plus load warm in
  let running := hold (mh_Running held) want (s_Now s) (Keep p) in
  let stopped := ht_Of (Stopped r) load in
  let '(largest, largestDisks, stopped) :=
    if FitLargest r then
      let '(largest, largestDisks) := ls_of (p_LargestShape p) m recent disks (Catalog (s_Offers s)) in
      (largest, largestDisks, Upper stopped (Plus (Floor (Stopped r)) largest))
    else (cap0, 0, stopped) in
  let stoppedHold := hold (mh_Stopped held) stopped (s_Now s) (CostHorizon p) in
  let part := if Empty largest then Lower floor (ls_Cap (p_LargestShape p)) else largest in
  mkTarget m load want arriving (mkHolds running stoppedHold (ShortSince held)) warm floor part
    (split (Clamp (Minus (lp_Load running) load)) part) (split warm part) largest largestDisks
    (FitLargest r && negb (Covers (Plus (Floor (Stopped r)) largest) (lp_Load stoppedHold))).

(** The markets of the policy, then those a host or item adds, by name. *)
Definition add_market (markets : list ReserveMarket) (m : ReserveMarket) : list ReserveMarket :=
  if existsb (fun m' => m' == m) markets then markets else markets ++ [m].

Definition markets_of (hosts : list FleetHost) (items : list coverItem) : list ReserveMarket :=
  let known := Markets p in
  let all := fold_left add_market (map it_market items) (fold_left add_market (map market hosts) known) in
  known ++ sort_by (fun a b => String.compare (rm_String a) (rm_String b)) (drop (length known) all).

(** [targets]: the markets in order, each with its view. *)
Definition targets (items : list coverItem) (ps : pass) : list ReserveMarket * pass :=
  let markets := markets_of (ps_hosts ps) items in
  (markets, fold_left (fun ps m =>
     set_byMarket (<[m := view_of (target (ps_hosts ps) m items)]> (ps_byMarket ps)) ps) markets ps).

End Target.

Section Demand.
Context (p : Policy) (s : FleetSnapshot).

(** ** Handing back *)

Definition spotCooling (h : FleetHost) : bool :=
  existsb (fun c =>
    (oc_Market c == MarketSpot) && (oc_Region c == h_Region h) && (oc_Until c >? s_Now s) &&
    match typeNamed s (oc_InstanceType c) with Some t => t_GPU t == h_GPU h | None => false end) (Cooldowns (s_Offers s)).

(** One host of [handBack]. *)
Definition handBack_one (ps : pass) (i : nat) : pass :=
  let h := host ps i in
  if (h_Market h != MarketOnDemand) || (h_State h != FleetServing) then ps
  else
    let offered := negb (existsb (fun need => negb (spotOffered p s ps need)) (h_Moves h)) in
    let back := offered && negb (h_Stays h) &&
      (h_HandsBack h || (negb (bool_decide (h_Moves h = [])) && negb (spotCooling h))) in
    if Bool.eqb back (h_HandsBack h) then ps
    else
      let ps := update_host i (set_HandsBack back) ps in
      snd (act (if back then host_action ActionHandBack ReasonSpotHosts (market h) (h_ID h) None
                else host_action ActionLend ReasonSpotRefuses (market h) (h_ID h) None) ps).

Definition handBack (ps : pass) : pass := fold_left handBack_one (seq 0 (length (ps_hosts ps))) ps.

(** ** Pending containers *)

Definition item_compare (a b : coverItem) : comparison :=
  boolOrder (bool_decide (it_bought a = None)) (bool_decide (it_bought b = None)) <+>
  (boolOrder (r_Preemptible (it_need a)) (r_Preemptible (it_need b)) <+>
   Z.compare (size (it_need b) - size (it_need a)) 0).

(** The items in snapshot order, wait [n] for the [n]th. *)
Definition raw_items (ps : pass) : list coverItem :=
  imap (fun n '(need, m, c) => mkCI (pd_ID c) (pd_Since c) need m (pd_Host c) n)
    (flat_map (fun g => map (fun c => (dg_Need g, demandMarket p s ps (dg_Need g), c)) (dg_Containers g)) (s_Pending s)).

Definition pendingItems (ps : pass) : list coverItem * pass :=
  (sort_by item_compare (raw_items ps),
   set_waits (ps_waits ps ++ map (fun it => mkWait (it_id it) None None None) (raw_items ps)) ps).

(** ** Bins *)

Record bin := mkBin { b_host : nat; b_room : HostCapacity }.

Definition binRooms (ps : pass) (bins : list bin) : list HostCapacity := map (fun b => forWork (host ps (b_host b)) (b_room b)) bins.

(** [bins[i].room.Reserve(need)] with the room for work it mirrors. *)
Definition reserve_bin (ps : pass) (need : Requirement) (i : nat) (bins : list bin) (rooms : list HostCapacity) :
    list bin * list HostCapacity :=
  match bins !! i with
  | None => (bins, rooms)
  | Some b =>
      let r := hc_Reserve (b_room b) need in
      (<[i := mkBin (b_host b) r]> bins, <[i := forWork (host ps (b_host b)) r]> rooms)
  end.

Definition boughtBin (ps : pass) (it : coverItem) (ready_bins : list bin) (rooms : list HostCapacity) : option nat :=
  match it_bought it with
  | None => None
  | Some id =>
      match index_func (fun b => h_ID (host ps (b_host b)) =? id) ready_bins with
      | None => None
      | Some i => match rooms !! i with Some r => if Fits r (it_need it) then Some i else None | None => None end
      end
  end.

Definition remaining (h : FleetHost) : Z :=
  let launch := if h_GPU h != "" then st_GPULaunch (Starts p) else st_Launch (Starts p) in
  Z.max 0 (launch - time_sub (s_Now s) (h_PhaseAt h)).

Definition resumeTime (need : Requirement) : Z :=
  if GPUsNeeded need >? 0 then st_GPUResume (Starts p) else st_Resume (Starts p).

Definition reserveFits (ps : pass) (it : coverItem) : bool :=
  existsb (fun h => (market h == it_market it) && ready p s ps h true && Covers (h_Usable h) (reservedShape (it_need it)) &&
                    (room p ps (it_market it) >? 0)) (ps_hosts ps).

(** [comingFor]: the starting host the container waits for. *)
Definition comingFor (ps : pass) (coming : list bin) (rooms : list HostCapacity) (it : coverItem) (floor : FleetCapacity) : option nat :=
  match ChooseHost rooms (it_need it) floor with
  | None => None
  | Some i =>
      match coming !! i with
      | None => None
      | Some b =>
          if (remaining (host ps (b_host b)) >? resumeTime (it_need it)) && reserveFits ps it then None else Some i
      end
  end.

(** [booting.need.Packs = false]. *)
Definition without_packs (it : coverItem) : coverItem :=
  let r := it_need it in
  mkCI (it_id it) (it_since it)
    (mkReq (r_Workspace r) (r_Connection r) (r_Machine r) (r_Region r) (r_Zone r) (r_Preemptible r) (r_GPUs r) (r_GPUCount r)
       (r_CPUMillis r) (r_MemoryBytes r) (r_Disks r) (r_Prefer r) (r_Read r) false)
    (it_market it) (it_bought it) (it_wait it).

(** ** The cover over running hosts *)

Record cover_run := mkRun {
  cv_ps : pass;
  cv_ready : list bin;
  cv_readyRooms : list HostCapacity;
  cv_coming : list bin;
  cv_comingRooms : list HostCapacity;
  cv_left : list coverItem }.

(** The host takes the container: its load grows and it is claimed. *)
Definition claim (it : coverItem) (b : bin) (ps : pass) : pass :=
  let ps := update_host (b_host b) (add_Load (reservedShape (it_need it))) ps in
  set_claimed ({[ h_ID (host ps (b_host b)) ]} ∪ ps_claimed ps) ps.

Definition take_ready (st : cover_run) (it : coverItem) (i : nat) (record : bin -> pass -> pass) : cover_run :=
  match cv_ready st !! i with
  | None => st
  | Some b =>
      let '(bins, rooms) := reserve_bin (cv_ps st) (it_need it) i (cv_ready st) (cv_readyRooms st) in
      mkRun (record b (claim it b (cv_ps st))) bins rooms (cv_coming st) (cv_comingRooms st) (cv_left st)
  end.

(** [need] is what the room gives; the container's wait names the host. *)
Definition take_coming (st : cover_run) (it : coverItem) (need : Requirement) (i : nat) : cover_run :=
  match cv_coming st !! i with
  | None => st
  | Some b =>
      let '(bins, rooms) := reserve_bin (cv_ps st) need i (cv_coming st) (cv_comingRooms st) in
      mkRun (provisioning it (Some (h_ID (host (cv_ps st) (b_host b)))) None (claim it b (cv_ps st)))
        (cv_ready st) (cv_readyRooms st) bins rooms (cv_left st)
  end.

(** The coming host bought for a container, or the ready one that serves it
    once its agent updates. *)
Definition bought_coming (st : cover_run) (it : coverItem) : option nat :=
  match it_bought it with
  | None => None
  | Some id => index_func (fun b => h_ID (host (cv_ps st) (b_host b)) =? id) (cv_coming st)
  end.
Definition bought_updating (st : cover_run) (it : coverItem) : option nat :=
  match it_bought it with
  | None => None
  | Some id => index_func (fun b => (h_ID (host (cv_ps st) (b_host b)) =? id) && h_UpdateDue (host (cv_ps st) (b_host b))) (cv_ready st)
  end.

(** One container of [cover]. *)
Definition cover_one (floor : FleetCapacity) (st : cover_run) (it : coverItem) : cover_run :=
  let ps := cv_ps st in
  if (r_Machine (it_need it) != "") || bool_decide (is_Some (r_Connection (it_need it))) then st
  else match boughtBin ps it (cv_ready st) (cv_readyRooms st) with
  | Some i =>
      take_ready st it i (fun _ ps =>
        set_waits (alter (fun w => mkWait (w_Container w) (w_Wait w) (it_bought it) (w_Action w)) (it_wait it) (ps_waits ps)) ps)
  | None =>
  match ChooseHost (cv_readyRooms st) (it_need it) floor with
  | Some i => take_ready st it i (fun _ ps => ps)
  | None =>
  match bought_coming st it with
  | Some i => take_coming st it (it_need it) i
  | None =>
  match bought_updating st it with
  | Some i =>
      match cv_ready st !! i with
      | Some b => mkRun (provisioning it (Some (h_ID (host ps (b_host b)))) None ps)
                    (cv_ready st) (cv_readyRooms st) (cv_coming st) (cv_comingRooms st) (cv_left st)
      | None => st
      end
  | None =>
  match comingFor ps (cv_coming st) (cv_comingRooms st) (without_packs it) floor with
  | Some i => take_coming st it (it_need (without_packs it)) i
  | None => mkRun ps (cv_ready st) (cv_readyRooms st) (cv_coming st) (cv_comingRooms st) (cv_left st ++ [it])
  end end end end end.

Definition bins_of (ps : pass) (keep : FleetHost -> bool) : list bin :=
  map (fun i => mkBin i (capacity (host ps i))) (List.filter (fun i => keep (host ps i)) (seq 0 (length (ps_hosts ps)))).

(** [cover] up to the reserves: what ready and starting hosts take, and the
    parts of headroom ready hosts then lack. *)
Definition cover_running (items : list coverItem) (ps : pass) : list coverItem * pass :=
  let ready_bins := bins_of ps serving in
  let coming := bins_of ps (fun h => starting h && negb (stalled p s h)) in
  let floor := Floor (Warm (p_OnDemand p)) in
  let st := fold_left (cover_one floor) items
    (mkRun ps ready_bins (binRooms ps ready_bins) coming (binRooms ps coming) []) in
  let ps := cv_ps st in
  let short m v :=
    unplaced (map (fun '(_, r) => mkCap (FreeCPUMillis r) (FreeMemoryBytes r) (FreeGPUs r))
      (List.filter (fun '(b, _) => market (host ps (b_host b)) == m) (zip (cv_ready st) (cv_readyRooms st))))
      (t_wantParts (v_target v)) in
  (cv_left st, set_partsShort (map_imap (fun m v => Some (short m v)) (ps_byMarket ps)) ps).

End Demand.
