(* ===== verification/Purchase.v ===== *)
(** Resumes and purchases for pending work (internal/compute/fleet_plan.go):
    the reserve that serves the containers best, the classes of containers
    that share offers, and the covers bought for them, at a loss only past the
    Spot wait and within the loss cap and budget. *)

From S2P Require Import Prelude Capacity Catalog Billing Policy Placement Offers Cover Fleet Pass Demand.

Section Purchase.
Context (p : Policy) (s : FleetSnapshot).

(** ** Resumes *)

(** A reserve [bestReserve] weighs: the host, the containers it takes by
    index, what they read across regions and whether its room left holds the
    parts of headroom its market lacks. *)
Record reserve_choice := mkChoice { rc_host : nat; rc_taken : list nat; rc_read : Z; rc_floor : bool }.

(** The containers a reserve takes, first fit, and its room left. *)
Definition takes_of (ps : pass) (lends : Requirement -> bool) (items : list coverItem) (r : HostCapacity) : list nat * HostCapacity :=
  fold_left (fun '(taken, r) '(n, it) =>
    if (room p ps (it_market it) <=? 0) || negb (Fits r (it_need it)) || (r_Preemptible (it_need it) && negb (lends (it_need it)))
    then (taken, r)
    else (taken ++ [n], hc_Reserve r (it_need it))) (imap pair items) ([], r).

(** The market of the first container taken. *)
Definition first_market (items : list coverItem) (taken : list nat) : option ReserveMarket :=
  match taken with n :: _ => it_market <$> items !! n | [] => None end.

Definition choice_of (ps : pass) (items : list coverItem) (i : nat) : option reserve_choice :=
  let h := host ps i in
  if negb (ready p s ps h true) then None
  else
    let spotWork := existsb (fun it => r_Preemptible (it_need it)) items in
    let onDemand := h_Market h == MarketOnDemand in
    let lendsCPU := spotWork && onDemand && (h_GPU h == "") && lendable s ps h in
    let lends need := negb onDemand || ((lendsCPU || (h_GPU h != "")) && negb (spotOffered p s ps need)) in
    let '(taken, r) := takes_of ps lends items (capacity h) in
    match taken with
    | [] => None
    | _ =>
        let read := sumZ (map (fun n => match items !! n with
                                        | Some it => readMicros (CostHorizon p) (r_Read (it_need it)) (h_Region h)
                                        | None => 0
                                        end) taken) in
        let short := default [] (ps_partsShort ps !! market h) in
        let floor := negb (bool_decide (short = [])) &&
          placesAll [mkCap (FreeCPUMillis r) (FreeMemoryBytes r) (FreeGPUs r)] short in
        Some (mkChoice i taken read floor)
    end.

Definition choice_order (ps : pass) (items : list coverItem) (a b : reserve_choice) : comparison :=
  let other c := bool_decide (Some (market (host ps (rc_host c))) <> first_market items (rc_taken c)) in
  let some c := (length (rc_taken c) <? length items)%nat in
  let ha := host ps (rc_host a) in
  let hb := host ps (rc_host b) in
  boolOrder (other a) (other b) <+>
  (boolOrder (h_State ha == FleetStopping) (h_State hb == FleetStopping) <+>
  (Z.compare (Z.of_nat (length (rc_taken b))) (Z.of_nat (length (rc_taken a))) <+>
  (boolOrder (negb (rc_floor a)) (negb (rc_floor b)) <+>
  (Z.compare (rc_read a) (rc_read b) <+>
  (boolOrder (some a) (some b) <+>
  (shapeOrder (h_Usable ha) (h_Usable hb) <+> retention p s ha hb)))))).

Definition best_step (ps : pass) (items : list coverItem) (best : option reserve_choice) (i : nat) : option reserve_choice :=
  match choice_of ps items i with
  | None => best
  | Some c =>
      match best with
      | None => Some c
      | Some b => if is_lt (choice_order ps items c b) then Some c else best
      end
  end.

Definition bestReserve (ps : pass) (items : list coverItem) : option reserve_choice :=
  fold_left (best_step ps items) (seq 0 (length (ps_hosts ps))) None.

(** The items with their indices, those in [taken] or not. *)
Definition picked (taken : list nat) (items : list coverItem) : list coverItem :=
  map snd (List.filter (fun '(n, _) => bool_decide (n ∈ taken)) (imap pair items)).
Definition unpicked (taken : list nat) (items : list coverItem) : list coverItem :=
  map snd (List.filter (fun '(n, _) => negb (bool_decide (n ∈ taken))) (imap pair items)).

(** [resumeFor]; a round takes a container or ends the loop, so as many
    rounds as items are enough. *)
Fixpoint resumeFor_loop (fuel : nat) (items : list coverItem) (ps : pass) : list coverItem * pass :=
  match fuel with
  | O => (items, ps)
  | S fuel =>
      if bool_decide (items = []) || (ps_hostRoom ps <=? 0) then (items, ps)
      else match bestReserve ps items with
           | None => (items, ps)
           | Some c =>
               let ids := omap (fun n => it_id <$> items !! n) (rc_taken c) in
               let m := default (mkRM false "") (first_market items (rc_taken c)) in
               let id := h_ID (host ps (rc_host c)) in
               let ps := resume s m (rc_host c) ReasonWork ids ps in
               let ps := fold_left (fun ps it => provisioning it (Some id) None ps) (picked (rc_taken c) items) ps in
               resumeFor_loop fuel (unpicked (rc_taken c) items) ps
           end
  end.
Definition resumeFor (items : list coverItem) (ps : pass) : list coverItem * pass := resumeFor_loop (length items) items ps.

(** ** Classes of pending work *)

Record itemGroup := mkGroup { g_shape : FleetCapacity; g_disks : Z; g_items : list coverItem }.
Record demandClass := mkClass { c_need : Requirement; c_key : string; c_market : ReserveMarket; c_groups : list itemGroup }.

Definition c_set_groups (groups : list itemGroup) (c : demandClass) : demandClass := mkClass (c_need c) (c_key c) (c_market c) groups.
Definition g_set_items (items : list coverItem) (g : itemGroup) : itemGroup := mkGroup (g_shape g) (g_disks g) items.

Definition add_group (groups : list itemGroup) (it : coverItem) : list itemGroup :=
  let shape := reservedShape (it_need it) in
  match index_func (fun g => (g_shape g == shape) && (g_disks g =? r_Disks (it_need it))) groups with
  | Some i => alter (fun g => g_set_items (g_items g ++ [it]) g) i groups
  | None => groups ++ [mkGroup shape (r_Disks (it_need it)) [it]]
  end.

Definition add_class (classes : list demandClass) (it : coverItem) : list demandClass :=
  let '(need, key) := classKey s (it_need it) in
  match index_func (fun c => c_key c == key) classes with
  | Some n => alter (fun c => c_set_groups (add_group (c_groups c) it) c) n classes
  | None => classes ++ [mkClass need key (it_market it) (add_group [] it)]
  end.

Definition classes_of (items : list coverItem) : list demandClass := fold_left add_class items [].

(** [coverNeed]: what is left of the groups [only] keeps, and the index of
    each need item's group. *)
Definition coverNeed (c : demandClass) (only : itemGroup -> bool) : CoverNeed * list nat :=
  let kept := List.filter (fun '(_, g) => negb (bool_decide (g_items g = [])) && only g) (imap pair (c_groups c)) in
  (mkNeed (map (fun '(_, g) => mkItem (g_shape g) (g_disks g) (Z.of_nat (length (g_items g))) None false) kept) cap0, map fst kept).

(** The containers a node takes: the first [n] of each group it places. *)
Definition take_placed (at_ : list nat) (placed : list Z) (groups : list itemGroup) : list coverItem * list itemGroup :=
  fold_left (fun '(taken, groups) '(i, n) =>
    match groups !! i with
    | None => (taken, groups)
    | Some g => (taken ++ take (Z.to_nat n) (g_items g), <[i := g_set_items (drop (Z.to_nat n) (g_items g)) g]> groups)
    end) (zip at_ placed) ([], groups).

(** One node of [coverClass]. *)
Definition buy_node (m : ReserveMarket) (at_ : list nat) (atLoss : bool) (st : demandClass * pass) (node : CoverNode) : demandClass * pass :=
  let '(c, ps) := st in
  let '(taken, groups) := take_placed at_ (Placed node) (c_groups c) in
  let holds := totalOf taken (fun it => reservedShape (it_need it)) in
  let '(action, ps) := buy s m (cn_Offer node) ActionBuy (if atLoss then ReasonSpotWait else ReasonWork) holds (map it_id taken) None ps in
  (c_set_groups groups c, fold_left (fun ps it => provisioning it None (Some action) ps) taken ps).

Definition coverClass (c : demandClass) (m : ReserveMarket) (offers : list FleetOffer) (r : ranking) (only : itemGroup -> bool)
    (atLoss : bool) (ps : pass) : demandClass * pass :=
  let '(need, at_) := coverNeed c only in
  match at_ with
  | [] => (c, ps)
  | _ =>
      let result := Cover offers need (servingCost p) (limits p s ps (Z.min (room p ps m) (ps_hostRoom ps)) r) in
      fold_left (buy_node m at_ atLoss) (cr_Nodes result) (c, ps)
  end.

(** ** Buying past the Spot wait *)

(** The container has waited the Spot wait and no Spot offer can host it. *)
Definition waited (ps : pass) (it : coverItem) : bool :=
  (time_sub (s_Now s) (it_since it) >=? SpotWait p) && negb (spotOffered p s ps (it_need it)).

(** [overCap]: the loss on what the container alone bills passes the cap. *)
Definition overCap (it : coverItem) (o : FleetOffer) : bool :=
  let i := with_WaiveMargin (s_Offers s) true in
  if OwnerPays i then false
  else match assoc (RateClassFor ((r_Region (it_need it) != "") || (r_Zone (it_need it) != "")) true, t_GPU (o_Type o)) (indexRates (Rates i)) with
       | None => true
       | Some rate =>
           hourRevenue rate (reservedShape (it_need it)) * 100 <? HourlyMicros o * (100 - LossCapPercent p) * 1000
       end.

Definition atLoss_ranking (need : Requirement) : ranking :=
  let i := with_WaiveMargin (s_Offers s) true in
  mkRanking (RankOffers p need false i) (sizeRefs p need false i) (RankOffers p need false (availableSoon p i)).

(** One container, alone: Spot of any model it accepts, then on-demand. *)
Definition buy_alone (r : ranking) (c : demandClass) (g : itemGroup) (it : coverItem) (ps : pass) : demandClass * pass :=
  fold_left (fun st mk =>
    fold_left (fun '(alone, ps) model =>
      coverClass alone (mkRM true model)
        (delete_func (fun o => (t_GPU (o_Type o) != model) || (o_Market o != mk) || overCap it o) (rk_offers r)) r (fun _ => true) true ps)
      (gpuModels p (snd st) (c_need c) (rk_offers r)) st)
    [MarketSpot; MarketOnDemand]
    (mkClass (c_need c) (c_key c) (c_market c) [mkGroup (g_shape g) (g_disks g) [it]], ps).

(** One container of group [gi] of [buyAtLoss]. *)
Definition atLoss_one (r : ranking) (gi : nat) (st : demandClass * pass) (it : coverItem) : demandClass * pass :=
  let '(c, ps) := st in
  match c_groups c !! gi with
  | None => st
  | Some g =>
      if negb (waited ps it) then st
      else
        let '(alone, ps) := buy_alone r c g it ps in
        if forallb (fun g => bool_decide (g_items g = [])) (take 1 (c_groups alone))
        then (c_set_groups (<[gi := g_set_items (delete_func (fun o => it_id o =? it_id it) (g_items g)) g]> (c_groups c)) c, ps)
        else (c, ps)
  end.

Definition buyAtLoss (c : demandClass) (ps : pass) : demandClass * pass :=
  if negb (existsb (fun g => existsb (waited ps) (g_items g)) (c_groups c)) then (c, ps)
  else if negb (OwnerPays (s_Offers s)) && (Z.quot (AtLossSpent s * LossCapPercent p) 100 >=? LossBudget p) then (c, ps)
  else
    let r := atLoss_ranking (c_need c) in
    fold_left (fun st gi =>
      fold_left (atLoss_one r gi) (match c_groups (fst st) !! gi with Some g => g_items g | None => [] end) st)
      (seq 0 (length (c_groups c))) (c, ps).

(** ** Buying a class *)

(** [buy] of [buyClass]: the models in order, from one market's offers. *)
Definition buy_models (r : ranking) (m : ReserveMarket) (mk : Market) (only : pass -> itemGroup -> bool) (models : list string)
    (st : demandClass * pass) : demandClass * pass :=
  fold_left (fun '(c, ps) model =>
    coverClass c (mkRM (Preemptible m) model)
      (delete_func (fun o => (t_GPU (o_Type o) != model) || (o_Market o != mk)) (rk_offers r)) r (only ps) false ps) models st.

(** [g.items[0]] of a group the cover has checked is not empty. *)
Definition not_on_spot (ps : pass) (g : itemGroup) : bool :=
  match g_items g with it :: _ => negb (spotOffered p s ps (it_need it)) | [] => false end.

Definition buyClass (c : demandClass) (r : ranking) (ps : pass) : demandClass * pass :=
  let m := c_market c in
  if rm_GPU m != "" then
    let models := gpuModels p ps (c_need c) (rk_offers r) in
    if negb (Preemptible m) then buy_models r m MarketOnDemand (fun _ _ => true) models (c, ps)
    else
      let st := buy_models r m MarketSpot (fun _ _ => true) models (c, ps) in
      let '(c, ps) := buy_models r m MarketOnDemand not_on_spot models st in
      buyAtLoss c ps
  else
    let '(c, ps) :=
      match ps_byMarket ps !! m with
      | Some v =>
          if spotCPU m then
            let least := Lower (t_headroom (v_target v)) (ls_Cap (p_LargestShape p)) in
            coverClass c m (delete_func (fun o => (o_Market o != MarketSpot) || negb (Covers (o_Usable o) least)) (rk_offers r)) r
              (fun _ => true) false ps
          else (c, ps)
      | None => (c, ps)
      end in
    coverClass c m (rk_offers r) r (fun _ => true) false ps.

(** The wait of each container of a class no purchase took; the reason a
    group falls short is settled at its first container. *)
Definition wait_one (c : demandClass) (held : bool) (short : CapacityWait) (ps : pass) (it : coverItem) : pass :=
  if ps_hostRoom ps <=? 0 then
    let ps := waits it WaitLimit ps in set_limited ({[ c_market c ]} ∪ ps_limited ps) ps
  else if held then
    let ps := waits it WaitBatch ps in set_batched ({[ c_market c ]} ∪ ps_batched ps) ps
  else waits it short ps.

Definition wait_group (c : demandClass) (held : bool) (ps : pass) (g : itemGroup) : pass :=
  fold_left (wait_one c held (shortReason p s ps (c_market c) (needOf (c_need c) (g_shape g)) false)) (g_items g) ps.

(** One class of [buyFor]. *)
Definition buy_class_step (ps : pass) (c : demandClass) : pass :=
  let '(held, ps) := if ps_hostRoom ps >? 0 then batching s ps else (false, ps) in
  let '(c, ps) := if (ps_hostRoom ps >? 0) && negb held then buyClass c (classOffers p s (c_need c)) ps else (c, ps) in
  fold_left (wait_group c held) (c_groups c) ps.

Definition buyFor (items : list coverItem) (ps : pass) : pass := fold_left buy_class_step (classes_of items) ps.

(** [cover]. *)
Definition cover (items : list coverItem) (ps : pass) : pass :=
  let '(left_items, ps) := cover_running p s items ps in
  let '(left_items, ps) := resumeFor left_items ps in
  buyFor left_items ps.

End Purchase.
