(* ===== verification/Keep.v ===== *)
(** Each market's hosts and reserves (internal/compute/fleet_keep.go): the
    hosts it keeps until they cover its running target, how a surplus host
    leaves, how the market grows, the reserves it holds, buys and retires for
    its stopped target, and the replacement of a host a cheaper type pays
    back on. *)

From S2P Require Import Prelude Capacity Catalog Billing Policy Placement Offers Cover Fleet Pass.

Section Keep.
Context (p : Policy) (s : FleetSnapshot).

(** ** Keeping hosts *)

Definition stays (ps : pass) (h : FleetHost) : bool :=
  busy h || bool_decide (h_ID h ∈ ps_claimed ps) || (starting h && negb (h_Requested h)) || h_UpdateDue h ||
  (h_Requested h && bool_decide (is_Some (h_Replaces h))).

Definition leaving (ps : pass) (v : marketView) (h : FleetHost) : bool :=
  (h_Slept h && stays ps h) ||
  negb (bool_decide (inMarket ps (v_m v) (fun r => h_Replaces r == Some (h_ID h)) = [])).

Definition keep_compare (ps : pass) (i j : nat) : comparison :=
  let a := host ps i in
  let b := host ps j in
  boolOrder (negb (stays ps a)) (negb (stays ps b)) <+> (boolOrder (h_Requested a) (h_Requested b) <+>
  (boolOrder (h_Slept a) (h_Slept b) <+> retention p s a b)).

Definition keepOrder (ps : pass) (v : marketView) : list nat :=
  sort_by (keep_compare ps)
    (inMarket ps (v_m v) (fun h => negb (reserve_host h) && (serving h || starting h || h_Requested h))).

Definition returnable (h : FleetHost) : bool :=
  bool_decide (is_Some (typeNamed s (h_InstanceType h))) && h_Stoppable h && negb (h_Protected h).

(** [reserveSupply]: what the counted reserves hold, host [skip] aside. *)
Definition reserveSupply (ps : pass) (v : marketView) (skip : HostID) : FleetCapacity :=
  usable_of ps (inMarket ps (v_m v) (fun h => negb (h_ID h =? skip) && counted v h)).

(** Why a surplus host returns to the reserve; [None] when it drains. *)
Definition return_reason (ps : pass) (v : marketView) (h : FleetHost) : option ActionReason :=
  if negb (returnable h) then None
  else if negb (Covers (reserveSupply ps v (h_ID h)) (lp_Load (mh_Stopped (t_holds (v_target v))))) then Some ReasonReserve
  else if fitsLargest s v h && negb (holdsLargest s ps v (h_ID h)) then Some ReasonLargest
  else None.

Definition leave (v : marketView) (i : nat) (ps : pass) : pass :=
  let h := host ps i in
  if h_Requested h then snd (act (host_action ActionCancel ReasonUnclaimed (v_m v) (h_ID h) None) ps)
  else
    match return_reason ps v h with
    | Some why =>
        if ps_reserveRoom ps >? 0 then
          let mode := if h_HibernationConfigured h && hibernates (typeOf s (h_InstanceType h)) then ReserveHibernate else ReserveStop in
          let ps := set_reserveRoom (ps_reserveRoom ps - 1) (update_host i (set_Preparing mode) ps) in
          snd (act (host_action ActionReturnToReserve why (v_m v) (h_ID h) (Some mode)) ps)
        else snd (act (host_action ActionDrain ReasonIdle (v_m v) (h_ID h) None) (update_host i (set_State FleetDraining) ps))
    | None => snd (act (host_action ActionDrain ReasonIdle (v_m v) (h_ID h) None) (update_host i (set_State FleetDraining) ps))
    end.

(** The variables of [keep]: the view, the free room of the kept serving
    hosts and that of every kept host and purchase. *)
Record keep_run := mkKeep { k_ps : pass; k_view : marketView; k_ready : list FleetCapacity; k_rooms : list FleetCapacity }.

Definition keep_planned (v : marketView) (planned : list plannedHost) : marketView * list FleetCapacity :=
  fold_left (fun '(v, rooms) n =>
    if (pl_market n == v_m v) && negb (pl_reserve n)
    then (v_set_capacity (Plus (v_capacity v) (o_Usable (pl_offer n))) v, rooms ++ [Clamp (Minus (o_Usable (pl_offer n)) (pl_holds n))])
    else (v, rooms)) planned (v, []).

(** The hosts kept so far cover what a host like [h] would be kept for. *)
Definition surplus (k : keep_run) (h : FleetHost) : bool :=
  let t := v_target (k_view k) in
  if h_Requested h then Covers (v_capacity (k_view k)) (t_want t) && placesAll (k_rooms k) (t_wantParts t)
  else Covers (v_covered (k_view k)) (lp_Load (mh_Running (t_holds t))) && placesAll (k_ready k) (t_heldParts t).

Definition keep_one (k : keep_run) (i : nat) : keep_run :=
  let ps := k_ps k in
  let h := host ps i in
  let v := k_view k in
  if negb (stays ps h) && surplus k h then mkKeep (leave v i ps) v (k_ready k) (k_rooms k)
  else
    let v := v_set_kept (v_kept v ++ [i]) v in
    let v := v_set_capacity (Plus (v_capacity v) (h_Usable h)) v in
    let rooms := k_rooms k ++ [host_room h] in
    if negb (serving h) then mkKeep ps v (k_ready k) rooms
    else if leaving ps v h then mkKeep ps (v_set_covered (Plus (v_covered v) (h_Load h)) v) (k_ready k) rooms
    else mkKeep ps (v_set_covered (Plus (v_covered v) (h_Usable h)) v) (k_ready k ++ [host_room h]) rooms.

Definition keep_walk (m : ReserveMarket) (ps : pass) : keep_run :=
  let v := view ps m in
  let '(v1, rooms) := keep_planned v (ps_planned ps) in
  fold_left keep_one (keepOrder ps v) (mkKeep ps v1 [] rooms).

Definition keep (m : ReserveMarket) (ps : pass) : pass :=
  let k := keep_walk m ps in
  update_view m (fun _ => v_set_unplaced (unplaced (k_rooms k) (t_wantParts (v_target (k_view k)))) (k_view k)) (k_ps k).

(** ** Growing *)

Definition needMet (need : CoverNeed) : bool := bool_decide (Items need = []) && Empty (Aggregate need).
Definition growReason (need : CoverNeed) : ActionReason := if negb (bool_decide (Items need = [])) then ReasonFloor else ReasonLoad.

(** [resumePays]: resuming [h] costs no more than the cheapest purchase. *)
Definition resumePays (ps : pass) (h : FleetHost) (need : CoverNeed) : bool :=
  let m := market h in
  let r := marketRanking p s m false in
  let result := Cover (rk_offers r) need (servingCost p) (limits p s ps (Z.min (room p ps m) (ps_hostRoom ps)) r) in
  if negb (Complete result need) then true
  else
    let purchase := sumZ (map (fun n => servingCost p (cn_Offer n) + HourlyMicros (cn_Offer n) * seconds (Provision p)) (cr_Nodes result)) in
    match hostCost p s h with
    | Some cost => cost - stoppedMicros s h * seconds (CostHorizon p) <=? purchase
    | None => false
    end.

(** The items that fit no room left of a host, and that room. *)
Definition fit_items (usable : FleetCapacity) (items : list CoverItem) : FleetCapacity * list CoverItem :=
  fold_left (fun '(r, rest) it => if Covers r (ci_Shape it) then (Minus r (ci_Shape it), rest) else (r, rest ++ [it])) items (usable, []).

(** The loop of [resumesFor]: it only collects, so the limits it reads do not
    move while it walks. *)
Fixpoint resumes_loop (ps : pass) (v : marketView) (order : list nat) (need : CoverNeed) : list nat * CoverNeed :=
  match order with
  | [] => ([], need)
  | i :: order =>
      let h := host ps i in
      if needMet need || (ps_hostRoom ps <=? 0) || (room p ps (v_m v) <=? 0) then ([], need)
      else
        let '(r, rest) := fit_items (h_Usable h) (Items need) in
        if ((length rest =? length (Items need))%nat && Empty (Aggregate need)) || negb (leavesLarge s ps h) || negb (resumePays ps h need)
        then resumes_loop ps v order need
        else let '(out, need) := resumes_loop ps v order (mkNeed rest (Clamp (Minus (Aggregate need) r))) in (i :: out, need)
  end.

Definition resumesFor (ps : pass) (v : marketView) (need : CoverNeed) : list nat * CoverNeed :=
  resumes_loop ps v
    (sort_by (fun i j => retention p s (host ps i) (host ps j)) (inMarket ps (v_m v) (fun h => ready p s ps h false))) need.

(** [buy] of [buyHeadroom] and [coverReserves]: what a node must hold. *)
Definition node_holds (need : CoverNeed) (node : CoverNode) : FleetCapacity :=
  fold_left (fun holds '(i, n) =>
    if n >? 0 then match Items need !! i with Some it => Upper holds (ci_Shape it) | None => holds end else holds)
    (imap pair (Placed node)) (Lower (o_Usable (cn_Offer node)) (Aggregate need)).
Definition node_places (node : CoverNode) : bool := existsb (fun n => n >? 0) (Placed node).

Definition buy_growth (m : ReserveMarket) (r : ranking) (offers : list FleetOffer) (need : CoverNeed) (ps : pass) : CoverResult * pass :=
  let result := Cover offers need (servingCost p) (limits p s ps (Z.min (room p ps m) (ps_hostRoom ps)) r) in
  (result, fold_left (fun ps node =>
     snd (buy s m (cn_Offer node) ActionBuy (growReason need) (node_holds need node) [] None ps)) (cr_Nodes result) ps).

(** What is left of [need] after [result], and both covers as one. *)
Definition need_after (need : CoverNeed) (result : CoverResult) : CoverNeed :=
  mkNeed (UnmetItems result) (Clamp (Minus (Aggregate need) (Supplied result))).
Definition join_results (a b : CoverResult) : CoverResult :=
  mkResult (cr_Nodes a ++ cr_Nodes b) (UnmetItems b) (Plus (Supplied a) (Supplied b)).

Definition buyHeadroom (v : marketView) (need : CoverNeed) (ps : pass) : CoverResult * pass :=
  let m := v_m v in
  let t := v_target v in
  let r := marketRanking p s m false in
  if rm_GPU m != "" then
    buy_growth m r (delete_func (fun o => negb (sized p o (t_largest t) (t_largestDisks t) (rk_refs r) (rk_soon r))) (rk_offers r)) need ps
  else if negb (spotCPU m) then buy_growth m r (rk_offers r) need ps
  else
    let least := Lower (t_headroom t) (ls_Cap (p_LargestShape p)) in
    let '(result, ps) := buy_growth m r (delete_func (fun o => negb (Covers (o_Usable o) least)) (rk_offers r)) need ps in
    if Complete result need then (result, ps)
    else
      let '(rest, ps) := buy_growth m r (rk_offers r) (need_after need result) ps in
      (join_results result rest, ps).

(** What the kept hosts leave of the running target. *)
Definition grow_need (v : marketView) : CoverNeed :=
  let parts := total (v_unplaced v) in
  mkNeed (map (fun part => mkItem part 0 1 None false) (v_unplaced v))
    (Clamp (Minus (Clamp (Minus (t_want (v_target v)) (v_capacity v))) parts)).

(** The floor the kept hosts hold once their work ends. *)
Definition floor_taken (ps : pass) (v : marketView) : bool :=
  let t := v_target v in
  let running := totalOf (v_kept v) (fun i => h_Load (host ps i)) in
  Covers (t_floor t) (v_shortfall v) && Covers (v_capacity v) (Clamp (Minus (t_want t) running)).

Definition unmet_total (items : list CoverItem) (acc : FleetCapacity) : FleetCapacity :=
  fold_left (fun acc it => Plus acc (Times (ci_Shape it) (ci_Count it))) items acc.

(** Resumes and purchases for what the market lacks. *)
Definition grow_supply (v : marketView) (need : CoverNeed) (ps : pass) : marketView * pass :=
  let m := v_m v in
  let '(out, need) := resumesFor ps v need in
  let ps := fold_left (fun ps i => resume s m i (growReason need) [] ps) out ps in
  if needMet need then (v_set_shortfall cap0 v, ps)
  else
    let '(batch, ps) := batching s ps in
    if batch then (v_set_runningReason WaitBatch v, ps)
    else
      let '(result, ps) := buyHeadroom v need ps in
      let v := v_set_shortfall (unmet_total (UnmetItems result) (Clamp (Minus (Aggregate need) (Supplied result)))) v in
      if negb (Empty (v_shortfall v))
      then (v_set_runningReason (shortReason p s ps m (shapeNeed m (v_shortfall v)) false) v, ps)
      else (v, ps).

Definition grow (m : ReserveMarket) (ps : pass) : pass :=
  let v := view ps m in
  let need := grow_need v in
  if needMet need then update_view m (v_set_target (t_set_ShortSince 0 (v_target v))) ps
  else
    let v := if ShortSince (t_holds (v_target v)) =? 0 then v_set_target (t_set_ShortSince (s_Now s) (v_target v)) v else v in
    let v := v_set_shortfall (Plus (Aggregate need) (total (v_unplaced v))) v in
    if bool_decide (v_m v ∈ ps_waiting ps) then update_view m (fun _ => v_set_runningReason WaitDemand v) ps
    else if floor_taken ps v && negb (t_arriving (v_target v)) &&
            (time_sub (s_Now s) (ShortSince (t_holds (v_target v))) <? Policy.Keep p)
    then update_view m (fun _ => v_set_runningReason WaitKeep v) ps
    else if (ps_hostRoom ps <=? 0) || (room p ps (v_m v) <=? 0)
    then update_view m (fun _ => v_set_runningReason (shortReason p s ps (v_m v) (shapeNeed (v_m v) (v_shortfall v)) false) v) ps
    else let '(v, ps) := grow_supply v need ps in update_view m (fun _ => v) ps.

(** ** Reserves *)

(** [dueBack]: a host that returns to the reserve. *)
Definition dueBack (ps : pass) (v : marketView) (h : FleetHost) : bool :=
  if (negb (serving h) && negb (starting h)) || negb (returnable h) then false
  else if AwaitReturn (Reserve p (v_m v)) then true
  else h_Slept h && ((negb (busy h) && negb (bool_decide (h_ID h ∈ ps_claimed ps))) || (time_sub (s_Now s) (h_PhaseAt h) <? Policy.Keep p)).

Definition dueBackSupply (ps : pass) (v : marketView) : FleetCapacity :=
  usable_of ps (inMarket ps (v_m v) (dueBack ps v)).

Definition preferHibernating (offers : list FleetOffer) (shape : FleetCapacity) (disks : Z) : list FleetOffer :=
  let fits o := Covers (o_Usable o) shape && (DiskSlots (o_Type o) >=? disks) in
  if negb (existsb (fun o => Hibernate o && fits o) offers) then offers
  else delete_func (fun o => negb (Hibernate o) && fits o) offers.

(** [misplaced]: a region the market would buy its largest reserve out of. *)
Definition misplaced (v : marketView) (region : string) : bool :=
  match marketRead (s_Offers s) (v_m v) with
  | None => false
  | Some r =>
      if region == vr_Region r then false
      else
        let t := v_target v in
        let offers := preferHibernating (marketOffers p s (v_m v) true) (t_largest t) (t_largestDisks t) in
        let saved := readMicros (CostHorizon p) (Some r) region * seconds (CostHorizon p) in
        match List.find (fun o => view_fits v (o_Usable o) (o_Type o)) offers with
        | None => false
        | Some o => (o_Region o == vr_Region r) && (HourlyMicros o * seconds (Provision p) <? saved)
        end
  end.

Definition growable (h : FleetHost) : bool := bool_decide (is_Some (typeNamed s (h_InstanceType h))) && negb (host_cooled s h).

Definition reserve_order (v : marketView) (a b : FleetHost) : comparison :=
  boolOrder (negb (counted v a)) (negb (counted v b)) <+>
  (boolOrder (misplaced v (h_Region a)) (misplaced v (h_Region b)) <+>
  (boolOrder (negb (fitsLargest s v a)) (negb (fitsLargest s v b)) <+>
  (boolOrder (negb (resumable a)) (negb (resumable b)) <+>
  (boolOrder (growable a) (growable b) <+>
  (Z.compare (stoppedMicros s a) (stoppedMicros s b) <+>
  (Z.compare (CPUMillis (h_Usable a)) (CPUMillis (h_Usable b)) <+> Z.compare (h_ID a) (h_ID b))))))).

(** Retiring reserve [i]. *)
Definition retire (reason : ActionReason) (i : nat) (st : marketView * pass) : marketView * pass :=
  let '(v, ps) := st in
  let id := h_ID (host ps i) in
  (v_set_retired ({[ id ]} ∪ v_retired v) v,
   snd (act (host_action ActionRetireReserve reason (v_m v) id None) (set_reserveRoom (ps_reserveRoom ps + 1) ps))).

(** The variables of the walk of [reserves]. *)
Record reserve_run := mkRes { rr_view : marketView; rr_ps : pass; rr_covered : FleetCapacity; rr_ready : FleetCapacity; rr_readyLargest : bool }.

Definition reserve_one (tgt : FleetCapacity) (st : reserve_run) (i : nat) : reserve_run :=
  let v := rr_view st in
  let h := host (rr_ps st) i in
  if Covers (rr_ready st) tgt && rr_readyLargest st then
    let '(v, ps) := retire ReasonSurplus i (v, rr_ps st) in mkRes v ps (rr_covered st) (rr_ready st) (rr_readyLargest st)
  else if counted v h then
    let covered := Plus (rr_covered st) (h_Usable h) in
    if resumable h
    then mkRes v (rr_ps st) covered (Plus (rr_ready st) (h_Usable h)) (rr_readyLargest st || fitsLargest s v h)
    else mkRes v (rr_ps st) covered (rr_ready st) (rr_readyLargest st)
  else st.

Definition reserve_walk (v : marketView) (ps : pass) : reserve_run :=
  let '(v, ps) := fold_left (fun st i => retire ReasonInterrupted i st)
    (inMarket ps (v_m v) (fun h => resumable h && h_Protected h)) (v, ps) in
  let candidates := inMarket ps (v_m v) (fun h => reserve_host h && negb (h_Protected h) && (h_State h != FleetStopping)) in
  fold_left (reserve_one (lp_Load (mh_Stopped (t_holds (v_target v)))))
    (sort_by (fun i j => reserve_order v (host ps i) (host ps j)) candidates)
    (mkRes v ps cap0 cap0 (Empty (t_largest (v_target v)))).

(** [coverReserves] and [buyReserves]. *)
Definition coverReserves (m : ReserveMarket) (need : CoverNeed) (offers : list FleetOffer) (ps : pass) : CoverResult * pass :=
  let result := Cover offers need (reserveCost p)
    (limits p s ps (Z.min (room p ps m) (Z.min (ps_reserveRoom ps) (ps_hostRoom ps))) (marketRanking p s m true)) in
  (result, fold_left (fun ps node =>
     snd (buy s m (cn_Offer node) ActionBuyReserve (if node_places node then ReasonLargest else ReasonReserve)
            (node_holds need node) [] None ps)) (cr_Nodes result) ps).

Definition buyReserves (v : marketView) (need : CoverNeed) (shape least : FleetCapacity) (ps : pass) : CoverResult * pass :=
  let m := v_m v in
  let offers := marketOffers p s m true in
  let offers := if negb (Empty shape) then preferHibernating offers shape (t_largestDisks (v_target v)) else offers in
  let sized_offers := delete_func (fun o => negb (Covers (o_Usable o) least)) offers in
  if Empty least || bool_decide (sized_offers = []) then coverReserves m need offers ps
  else
    let '(result, ps) := coverReserves m need sized_offers ps in
    if Complete result need then (result, ps)
    else
      let '(rest, ps) := coverReserves m (need_after need result) offers ps in
      (join_results result rest, ps).

Definition lacksLargest (ps : pass) (v : marketView) : bool :=
  negb (holdsLargest s ps v 0) &&
  negb (existsb (fun i => fitsLargest s v (host ps i)) (inMarket ps (v_m v) (dueBack ps v))).

(** [reserveReason]. *)
Definition reserveReason (item : FleetCapacity) (st : marketView * pass) : marketView * pass :=
  let '(v, ps) := st in
  if Empty (v_stoppedShort v) then (v, ps)
  else (v_set_stoppedReason (shortReason p s ps (v_m v) (shapeNeed (v_m v) item) true) v, ps).

(** One reserve that fits the largest shape. *)
Definition largest_item (v : marketView) (item : FleetCapacity) : CoverItem := mkItem item (t_largestDisks (v_target v)) 1 None false.

(** The purchases of a target a share of load sets. *)
Definition buy_loaded (v : marketView) (short item : FleetCapacity) (ps : pass) : marketView * pass :=
  let need := if Empty item then mkNeed [] short else mkNeed [largest_item v item] (Clamp (Minus short item)) in
  let least :=
    if spotCPU (v_m v) then Lower (lp_Load (mh_Stopped (t_holds (v_target v)))) (ls_Default (p_LargestShape p)) else cap0 in
  let '(result, ps) := buyReserves v need least least ps in
  let short_left :=
    match UnmetItems result with
    | [] => Clamp (Minus (Aggregate need) (Supplied result))
    | _ => Upper (Clamp (Minus short (Supplied result))) item
    end in
  reserveReason item (v_set_stoppedShort short_left v, ps).

(** The purchases of a target at its floor. *)
Definition buy_floor (v : marketView) (short item : FleetCapacity) (ps : pass) : marketView * pass :=
  let '(supplied, unmet, ps) :=
    if Empty item then (cap0, false, ps)
    else
      let '(result, ps) := buyReserves v (mkNeed [largest_item v item] cap0) item cap0 ps in
      (totalOf (cr_Nodes result) (fun n => o_Usable (cn_Offer n)), negb (bool_decide (UnmetItems result = [])), ps) in
  let rest := Clamp (Minus short (Upper supplied item)) in
  let '(supplied, ps) :=
    if Empty rest then (supplied, ps)
    else let '(result, ps) := buyReserves v (mkNeed [] rest) cap0 cap0 ps in (Plus supplied (Supplied result), ps) in
  let left_short := Clamp (Minus short supplied) in
  reserveReason item (v_set_stoppedShort (if unmet then Upper left_short item else left_short) v, ps).

Definition reserves (m : ReserveMarket) (ps : pass) : pass :=
  let st := reserve_walk (view ps m) ps in
  let v := rr_view st in
  let ps := rr_ps st in
  let tgt := lp_Load (mh_Stopped (t_holds (v_target v))) in
  let item := if holdsLargest s ps v 0 then cap0 else t_largest (v_target v) in
  let v := v_set_stoppedShort (Upper (Clamp (Minus tgt (rr_covered st))) item) v in
  let short := Clamp (Minus (Minus tgt (reserveSupply ps v 0)) (dueBackSupply ps v)) in
  let '(v, ps) :=
    if Empty (v_stoppedShort v) then (v, ps)
    else if bool_decide (v_m v ∈ ps_waiting ps) then (v_set_stoppedReason WaitDemand v, ps)
    else if Empty short && negb (lacksLargest ps v) then (v_set_stoppedReason WaitReturning v, ps)
    else
      let '(batch, ps) := batching s ps in
      if batch then (v_set_stoppedReason WaitBatch v, ps)
      else if t_loaded (v_target v) then buy_loaded v short item ps
      else buy_floor v short item ps in
  update_view m (fun _ => v) ps.

(** ** Rightsizing *)

Definition holdsOf (ps : pass) (v : marketView) (h : FleetHost) : FleetCapacity :=
  let t := v_target v in
  let holds := Lower (Clamp (Minus (t_want t) (Minus (v_capacity v) (h_Usable h)))) (h_Usable h) in
  let rooms := map (fun i => host_room (host ps i))
    (List.filter (fun i => negb (h_ID (host ps i) =? h_ID h) && serving (host ps i) && negb (leaving ps v (host ps i))) (v_kept v)) in
  Upper holds (total (unplaced rooms (t_wantParts t))).

(** [replacement]: the offer that pays back most for replacing [h]. *)
Definition replacement (ps : pass) (v : marketView) (h : FleetHost) : option (FleetOffer * Z) :=
  let refused := match h_RightsizeRefusedAt h with Some at_ => time_sub (s_Now s) at_ <? CostHorizon p | None => false end in
  match hostCost p s h with
  | None => None
  | Some cost =>
      if negb (serving h) || busy h || bool_decide (h_ID h ∈ ps_claimed ps) || h_Protected h || refused then None
      else
        let need := holdsOf ps v h in
        if Empty need then None
        else fold_left (fun best o =>
          let payback := cost - servingCost p o - HourlyMicros o * seconds (Provision p) in
          if (t_Name (o_Type o) != h_InstanceType h) && Covers (o_Usable o) need &&
             (payback >? match best with Some (_, b) => b | None => 0 end)
          then Some (o, payback) else best) (marketOffers p s (v_m v) false) None
  end.

(** A market at rest: nothing waits, moves or has just become ready. *)
Definition steady (ps : pass) (v : marketView) : bool :=
  let m := v_m v in
  let moving := existsb (fun a => (a_Market a == m) && (a_Kind a != ActionRetireReserve)) (ps_actions ps) in
  let coming := existsb (fun i => negb (serving (host ps i)) || (time_sub (s_Now s) (h_PhaseAt (host ps i)) <? Policy.Keep p)) (v_kept v) in
  negb (bool_decide (m ∈ ps_waiting ps) || (s_BatchWait s >? 0) || moving || coming ||
        (lp_Load (mh_Running (t_holds (v_target v))) != t_want (v_target v)) || (room p ps m <=? 0) || (ps_hostRoom ps <=? 0)).

Definition best_replacement (ps : pass) (v : marketView) : option (FleetOffer * nat * Z) :=
  fold_left (fun best i =>
    match replacement ps v (host ps i) with
    | Some (o, payback) =>
        if payback >? match best with Some (_, _, b) => b | None => 0 end then Some (o, i, payback) else best
    | None => best
    end) (v_kept v) None.

Definition rightsize (m : ReserveMarket) (ps : pass) : pass :=
  let v := view ps m in
  if negb (steady ps v) then ps
  else match best_replacement ps v with
       | None => ps
       | Some (o, i, _) =>
           snd (buy s (v_m v) o ActionRightsize ReasonCheaper (holdsOf ps v (host ps i)) [] (Some (h_ID (host ps i))) ps)
       end.

End Keep.
