(* ===== verification/Plan.v ===== *)
(** One planning pass ([PlanFleet], internal/compute/fleet_plan.go) and the
    plan it publishes for each market. *)

From S2P Require Import Prelude Capacity Catalog Billing Policy Placement Offers Cover Fleet Pass Demand Purchase Keep.

Section Plan.
Context (p : Policy) (s : FleetSnapshot).

Definition warmFree (ps : pass) (m : ReserveMarket) : FleetCapacity :=
  totalOf (inMarket ps m serving) (fun i => free (host ps i)).

Definition warmPending (ps : pass) (m : ReserveMarket) : FleetCapacity :=
  fold_left (fun pending n => if (pl_market n == m) && negb (pl_reserve n) then Plus pending (o_Usable (pl_offer n)) else pending)
    (ps_planned ps) (usable_of ps (inMarket ps m starting)).

(** [states]: the snapshot's hosts of a market by state. *)
Definition state_add (out : list FleetStateCapacity) (h : FleetHost) : list FleetStateCapacity :=
  match index_func (fun c => sc_State c == h_State h) out with
  | Some i => alter (fun c => mkFSC (sc_State c) (sc_Machines c + 1) (Plus (sc_Capacity c) (h_Usable h)) (Plus (sc_Allocated c) (h_Load h))) i out
  | None => out ++ [mkFSC (h_State h) 1 (Plus cap0 (h_Usable h)) (Plus cap0 (h_Load h))]
  end.

Definition states (m : ReserveMarket) : list FleetStateCapacity :=
  sort_by (fun a b => String.compare (state_text (sc_State a)) (state_text (sc_State b)))
    (fold_left state_add (List.filter (fun h => market h == m) (s_Hosts s)) []).

Definition report_reason (ps : pass) (v : marketView) : CapacityWait :=
  if bool_decide (v_m v ∈ ps_limited ps) then WaitLimit
  else if bool_decide (v_m v ∈ ps_batched ps) then WaitBatch
  else if negb (Empty (v_shortfall v)) then v_runningReason v
  else if negb (Empty (v_stoppedShort v)) then v_stoppedReason v
  else WaitNone.

Definition report (m : ReserveMarket) (ps : pass) : MarketPlan :=
  let v := view ps m in
  let t := v_target v in
  let held := inMarket ps (v_m v) (fun h => reserve_host h && negb (bool_decide (h_ID h ∈ v_retired v))) in
  let ready_held := usable_of ps (List.filter (fun i => resumable (host ps i)) held) in
  mkMP (v_m v) (t_load t) (t_headroom t) (warmFree ps (v_m v)) (warmPending ps (v_m v)) (lp_Load (mh_Stopped (t_holds t)))
    ready_held (Clamp (Minus (usable_of ps held) ready_held)) (v_shortfall v) (v_stoppedShort v) (t_holds t)
    (report_reason ps v) (states (v_m v)).

(** One market's stages. *)
Definition market_pass (ps : pass) (m : ReserveMarket) : pass :=
  let ps := rightsize p s m (reserves p s m (grow p s m (keep p s m ps))) in
  set_markets (ps_markets ps ++ [report m ps]) ps.

(** The pass before any stage. *)
Definition start_pass : pass :=
  mkPass (s_Hosts s) [] [] [] 0 [] ∅ ∅ ∅ ∅ (HostRoom s) (ReserveRoom s) ∅ ∅ ∅ (QuotaUse (s_Hosts s) (Catalog (s_Offers s))).

(** The stages of a pass over a snapshot whose offer inputs count the quota
    its hosts use. *)
Definition work_pass : list ReserveMarket * pass :=
  let ps := handBack p s start_pass in
  let '(items, ps) := pendingItems p s ps in
  let '(markets, ps) := targets p s items ps in
  (markets, cover p s items ps).

Definition run_pass : pass := let '(markets, ps) := work_pass in fold_left market_pass markets ps.

Definition plan_of (ps : pass) : FleetPlan := mkPlan (ps_markets ps) (ps_actions ps) (ps_waits ps) (ps_batchWait ps).

End Plan.

Definition PlanFleet (p : Policy) (s : FleetSnapshot) : FleetPlan :=
  plan_of (run_pass p (s_with_Offers s (with_QuotaUsed (s_Offers s) (QuotaUse (s_Hosts s) (Catalog (s_Offers s)))))).
