(* ===== verification/Steps.v ===== *)
(** The planning pass as a transition system.

    Every change a stage makes to the pass is one of the steps below, with the
    guard the source checks before it: claims and waits come before any host
    leaves, a purchase finds host room, growth room and quota room left, a
    resume names a stopped or stopping reserve, and only a host nothing holds
    leaves. [Simulation.v] shows that every stage of [PlanFleet] is a sequence
    of these steps; the invariants here hold of every state they reach. *)

From S2P Require Import Prelude Capacity Catalog Billing Policy Placement Offers Cover Fleet Pass Demand Purchase Keep Plan.

(** ** Action kinds *)

(** A host leaves the serving fleet. *)
Definition leaves (k : FleetActionKind) : bool :=
  match k with ActionReturnToReserve | ActionDrain | ActionCancel => true | _ => false end.

(** A host is bought. *)
Definition purchase (k : FleetActionKind) : bool :=
  match k with ActionBuy | ActionBuyReserve | ActionRightsize => true | _ => false end.

(** How many actions satisfy a test. *)
Definition count_actions (f : FleetAction -> bool) (l : list FleetAction) : Z := Z.of_nat (length (List.filter f l)).

Lemma count_actions_app f l k : count_actions f (l ++ k) = count_actions f l + count_actions f k.
Proof. unfold count_actions. rewrite List.filter_app, length_app. lia. Qed.

Lemma count_actions_nonneg f l : 0 <= count_actions f l.
Proof. unfold count_actions. lia. Qed.

Section Steps.
Context (p : Policy) (s : FleetSnapshot).

(** ** Guards *)

Definition pending_ids : list uuid := flat_map (fun g => map pd_ID (dg_Containers g)) (s_Pending s).

Definition no_leaves (ps : pass) : Prop := Forall (fun a => leaves (a_Kind a) = false) (ps_actions ps).

(** The containers resumes and purchases name so far. *)
Definition bought_ids (ps : pass) : list uuid := flat_map a_Containers (ps_actions ps).

Definition fresh (ps : pass) (cs : list uuid) : Prop :=
  NoDup cs /\ forall c, In c cs -> In c pending_ids /\ ~ In c (bought_ids ps).

(** Hosts a wait may name: claimed ones, ones updating their agent, ones that
    start and cannot be cancelled. *)
Definition awaited (ps : pass) (id : HostID) : Prop :=
  id ∈ ps_claimed ps \/
  exists h, In h (ps_hosts ps) /\ h_ID h = id /\ (h_UpdateDue h = true \/ (starting h = true /\ h_Requested h = false)).

(** A wait that names an action names the purchase made for its container. *)
Definition wait_action_ok (ps : pass) (w : ContainerWait) : Prop :=
  forall n, w_Action w = Some n -> w_Wait w = Some WaitProvisioning /\
    exists a, ps_actions ps !! n = Some a /\ a_Kind a = ActionBuy /\ In (w_Container w) (a_Containers a).
Definition wait_host_ok (ps : pass) (w : ContainerWait) : Prop :=
  forall id, w_Host w = Some id -> awaited ps id.

(** A purchase of [o] counts against its own quota. *)
Definition counts_quota (o : FleetOffer) : Prop :=
  quotaOf s (o_Region o) (t_Name (o_Type o)) (o_Market o) = (o_Quota o, VCPUs (o_Type o)) /\ 0 <= VCPUs (o_Type o).

(** What a purchase may rely on. *)
Record buy_guard (ps : pass) (m : ReserveMarket) (o : FleetOffer) (kind : FleetActionKind) (holds : FleetCapacity)
    (cs : list uuid) : Prop := {
  bg_kind : purchase kind = true;
  bg_hostRoom : 0 < ps_hostRoom ps;
  bg_room : 0 < room p ps m;
  bg_reserve : kind = ActionBuyReserve -> 0 < ps_reserveRoom ps;
  bg_holds : cs <> [] -> holds ⊑c o_Usable o;
  bg_fresh : fresh ps cs;
  bg_counts : counts_quota o;
  bg_quota : kind <> ActionRightsize -> forall v, quotaRoom (Quotas (s_Offers s)) (ps_quotaUsed ps) !! o_Quota o = Some v ->
    VCPUs (o_Type o) <= v }.

Record leave_guard (ps : pass) (i : nat) : Prop := {
  lg_host : (i < length (ps_hosts ps))%nat;
  lg_stays : stays ps (host ps i) = false;
  lg_reserve : reserve_host (host ps i) = false;
  lg_phase : serving (host ps i) || starting (host ps i) || h_Requested (host ps i) = true }.

(** What a stage that only settles views and flags leaves alone. *)
Record quiet (ps ps' : pass) : Prop := {
  q_hosts : ps_hosts ps' = ps_hosts ps;
  q_actions : ps_actions ps' = ps_actions ps;
  q_waits : ps_waits ps' = ps_waits ps;
  q_planned : ps_planned ps' = ps_planned ps;
  q_used : ps_used ps' = ps_used ps;
  q_hostRoom : ps_hostRoom ps' = ps_hostRoom ps;
  q_reserveRoom : ps_reserveRoom ps' = ps_reserveRoom ps;
  q_claimed : ps_claimed ps' = ps_claimed ps;
  q_quotaUsed : ps_quotaUsed ps' = ps_quotaUsed ps }.

(** ** Steps *)

Inductive step : pass -> pass -> Prop :=
  | step_quiet ps ps' : quiet ps ps' -> step ps ps'
  | step_back ps i back a :
      (i < length (ps_hosts ps))%nat -> In (a_Kind a) [ActionHandBack; ActionLend] -> a_Containers a = [] ->
      a_Host a = Some (h_ID (host ps i)) -> step ps (snd (act a (update_host i (set_HandsBack back) ps)))
  | step_pend ps ws :
      ps_waits ps = [] -> map w_Container ws = pending_ids ->
      Forall (fun w => w_Host w = None /\ w_Action w = None) ws -> step ps (set_waits ws ps)
  | step_claim ps it b :
      no_leaves ps -> (b_host b < length (ps_hosts ps))%nat -> step ps (claim it b ps)
  | step_note ps k f :
      no_leaves ps ->
      (forall w, ps_waits ps !! k = Some w -> w_Container (f w) = w_Container w /\ wait_action_ok ps (f w) /\ wait_host_ok ps (f w)) ->
      step ps (set_waits (alter f k (ps_waits ps)) ps)
  | step_buy ps m o kind reason holds cs replaces :
      buy_guard ps m o kind holds cs -> (kind = ActionRightsize -> replaces <> None) -> step ps (snd (buy s m o kind reason holds cs replaces ps))
  | step_resume ps m i reason cs :
      (i < length (ps_hosts ps))%nat -> resumable (host ps i) || (h_State (host ps i) == FleetStopping) = true ->
      h_Protected (host ps i) = false -> h_StartRefused (host ps i) = false -> fresh ps cs ->
      step ps (resume s m i reason cs ps)
  | step_leave ps v i : leave_guard ps i -> step ps (leave s v i ps)
  | step_retire ps reason m i :
      (i < length (ps_hosts ps))%nat -> reserve_host (host ps i) = true -> h_State (host ps i) <> FleetStopping ->
      step ps (snd (act (host_action ActionRetireReserve reason m (h_ID (host ps i)) None)
                 (set_reserveRoom (ps_reserveRoom ps + 1) ps))).

Definition steps : pass -> pass -> Prop := rtc step.

Lemma steps_refl ps : steps ps ps.
Proof. apply rtc_refl. Qed.
Lemma steps_trans ps1 ps2 ps3 : steps ps1 ps2 -> steps ps2 ps3 -> steps ps1 ps3.
Proof. apply transitivity. Qed.
Lemma steps_one ps ps' : step ps ps' -> steps ps ps'.
Proof. apply rtc_once. Qed.

(** An invariant a step keeps holds after any steps. *)
Lemma steps_inv (P : pass -> Prop) :
  (forall ps ps', P ps -> step ps ps' -> P ps') -> forall ps ps', steps ps ps' -> P ps -> P ps'.
Proof. intros H ps ps' Hs. induction Hs; eauto. Qed.

End Steps.

(** ** What each primitive step writes *)

Create Rewrite HintDb pass.
#[global] Arguments act : simpl never.
#[global] Arguments buy : simpl never.
#[global] Arguments resume : simpl never.
#[global] Arguments leave : simpl never.

Section Fields.
Context (s : FleetSnapshot).

Lemma act_hosts a ps : ps_hosts (snd (act a ps)) = ps_hosts ps.
Proof. unfold act. by destruct (grows _). Qed.
Lemma act_actions a ps : ps_actions (snd (act a ps)) = ps_actions ps ++ [a].
Proof. unfold act. by destruct (grows _). Qed.
Lemma act_index a ps : fst (act a ps) = length (ps_actions ps).
Proof. unfold act. by destruct (grows _). Qed.
Lemma act_waits a ps : ps_waits (snd (act a ps)) = ps_waits ps.
Proof. unfold act. by destruct (grows _). Qed.
Lemma act_planned a ps : ps_planned (snd (act a ps)) = ps_planned ps.
Proof. unfold act. by destruct (grows _). Qed.
Lemma act_claimed a ps : ps_claimed (snd (act a ps)) = ps_claimed ps.
Proof. unfold act. by destruct (grows _). Qed.
Lemma act_hostRoom a ps : ps_hostRoom (snd (act a ps)) = ps_hostRoom ps.
Proof. unfold act. by destruct (grows _). Qed.
Lemma act_reserveRoom a ps : ps_reserveRoom (snd (act a ps)) = ps_reserveRoom ps.
Proof. unfold act. by destruct (grows _). Qed.
Lemma act_quotaUsed a ps : ps_quotaUsed (snd (act a ps)) = ps_quotaUsed ps.
Proof. unfold act. by destruct (grows _). Qed.
Lemma act_byMarket a ps : ps_byMarket (snd (act a ps)) = ps_byMarket ps.
Proof. unfold act. by destruct (grows _). Qed.
Lemma act_used a ps :
  ps_used (snd (act a ps)) = if grows (a_Kind a) then <[a_Market a := default 0 (ps_used ps !! a_Market a) + 1]> (ps_used ps) else ps_used ps.
Proof. unfold act. by destruct (grows _). Qed.

(** The action a purchase appends. *)
Definition buy_action (m : ReserveMarket) (o : FleetOffer) (kind : FleetActionKind) (reason : ActionReason) (holds : FleetCapacity)
    (cs : list uuid) (replaces : option HostID) : FleetAction :=
  mkAction kind reason m replaces (Some o)
    (if kind == ActionBuyReserve then Some (if Hibernate o then ReserveHibernate else ReserveStop) else None) cs holds.

Lemma buy_act m o kind reason holds cs replaces ps :
  exists ps', buy s m o kind reason holds cs replaces ps = act (buy_action m o kind reason holds cs replaces) ps' /\
    ps_hosts ps' = ps_hosts ps /\ ps_actions ps' = ps_actions ps /\ ps_waits ps' = ps_waits ps /\
    ps_claimed ps' = ps_claimed ps /\ ps_used ps' = ps_used ps /\ ps_byMarket ps' = ps_byMarket ps /\
    ps_hostRoom ps' = ps_hostRoom ps - 1 /\
    ps_reserveRoom ps' = (if kind == ActionBuyReserve then ps_reserveRoom ps - 1 else ps_reserveRoom ps) /\
    ps_planned ps' = ps_planned ps ++ [mkPlanned (reserveMarketOf (o_Market o) (t_GPU (o_Type o))) o (kind == ActionBuyReserve) holds].
Proof. unfold buy. destruct (kind == ActionBuyReserve) eqn:E; eexists; (split; [unfold buy_action; rewrite E; reflexivity|done]). Qed.

Lemma buy_hosts m o kind reason holds cs replaces ps : ps_hosts (snd (buy s m o kind reason holds cs replaces ps)) = ps_hosts ps.
Proof. edestruct buy_act as (ps' & -> & ? & _). by rewrite act_hosts. Qed.
Lemma buy_actions m o kind reason holds cs replaces ps :
  ps_actions (snd (buy s m o kind reason holds cs replaces ps)) = ps_actions ps ++ [buy_action m o kind reason holds cs replaces].
Proof. edestruct buy_act as (ps' & -> & _ & E & _). by rewrite act_actions, E. Qed.
Lemma buy_index m o kind reason holds cs replaces ps : fst (buy s m o kind reason holds cs replaces ps) = length (ps_actions ps).
Proof. edestruct buy_act as (ps' & -> & _ & E & _). by rewrite act_index, E. Qed.
Lemma buy_waits m o kind reason holds cs replaces ps : ps_waits (snd (buy s m o kind reason holds cs replaces ps)) = ps_waits ps.
Proof. edestruct buy_act as (ps' & -> & _ & _ & E & _). by rewrite act_waits. Qed.
Lemma buy_claimed m o kind reason holds cs replaces ps : ps_claimed (snd (buy s m o kind reason holds cs replaces ps)) = ps_claimed ps.
Proof. edestruct buy_act as (ps' & -> & _ & _ & _ & E & _). by rewrite act_claimed. Qed.
Lemma buy_byMarket m o kind reason holds cs replaces ps : ps_byMarket (snd (buy s m o kind reason holds cs replaces ps)) = ps_byMarket ps.
Proof. edestruct buy_act as (ps' & -> & _ & _ & _ & _ & _ & E & _). by rewrite act_byMarket. Qed.
Lemma buy_hostRoom m o kind reason holds cs replaces ps :
  ps_hostRoom (snd (buy s m o kind reason holds cs replaces ps)) = ps_hostRoom ps - 1.
Proof. edestruct buy_act as (ps' & -> & _ & _ & _ & _ & _ & _ & E & _). by rewrite act_hostRoom. Qed.
Lemma buy_reserveRoom m o kind reason holds cs replaces ps :
  ps_reserveRoom (snd (buy s m o kind reason holds cs replaces ps)) =
  if kind == ActionBuyReserve then ps_reserveRoom ps - 1 else ps_reserveRoom ps.
Proof. edestruct buy_act as (ps' & -> & _ & _ & _ & _ & _ & _ & _ & E & _). by rewrite act_reserveRoom. Qed.
Lemma buy_used m o kind reason holds cs replaces ps : purchase kind = true ->
  ps_used (snd (buy s m o kind reason holds cs replaces ps)) = <[m := default 0 (ps_used ps !! m) + 1]> (ps_used ps).
Proof.
  intros Hk. edestruct buy_act as (ps' & -> & _ & _ & _ & _ & E & _). rewrite act_used, E. simpl. by destruct kind.
Qed.

(** A resume: the state before its action. *)
Lemma resume_act m i reason cs ps :
  exists ps', resume s m i reason cs ps = snd (act (mkAction ActionResume reason m (Some (h_ID (host ps i))) None None cs cap0) ps') /\
    ps_hosts ps' = alter (set_State FleetStarting) i (ps_hosts ps) /\ ps_actions ps' = ps_actions ps /\ ps_waits ps' = ps_waits ps /\
    ps_claimed ps' = ps_claimed ps /\ ps_used ps' = ps_used ps /\ ps_byMarket ps' = ps_byMarket ps /\
    ps_hostRoom ps' = (if h_State (host ps i) == FleetStopping then ps_hostRoom ps else ps_hostRoom ps - 1) /\
    ps_reserveRoom ps' = ps_reserveRoom ps + 1.
Proof.
  unfold resume. destruct (h_State (host ps i) == FleetStopping); cbv iota beta zeta delta [negb];
    (eexists; split; [apply f_equal, f_equal; reflexivity|done]).
Qed.

Lemma resume_hosts m i reason cs ps : ps_hosts (resume s m i reason cs ps) = alter (set_State FleetStarting) i (ps_hosts ps).
Proof. edestruct resume_act as (ps' & -> & E & _). by rewrite act_hosts. Qed.
Lemma resume_actions m i reason cs ps :
  ps_actions (resume s m i reason cs ps) = ps_actions ps ++ [mkAction ActionResume reason m (Some (h_ID (host ps i))) None None cs cap0].
Proof. edestruct resume_act as (ps' & -> & _ & E & _). by rewrite act_actions, E. Qed.
Lemma resume_waits m i reason cs ps : ps_waits (resume s m i reason cs ps) = ps_waits ps.
Proof. edestruct resume_act as (ps' & -> & _ & _ & E & _). by rewrite act_waits. Qed.
Lemma resume_claimed m i reason cs ps : ps_claimed (resume s m i reason cs ps) = ps_claimed ps.
Proof. edestruct resume_act as (ps' & -> & _ & _ & _ & E & _). by rewrite act_claimed. Qed.
Lemma resume_used m i reason cs ps :
  ps_used (resume s m i reason cs ps) = <[m := default 0 (ps_used ps !! m) + 1]> (ps_used ps).
Proof. edestruct resume_act as (ps' & -> & _ & _ & _ & _ & E & _). by rewrite act_used, E. Qed.
Lemma resume_byMarket m i reason cs ps : ps_byMarket (resume s m i reason cs ps) = ps_byMarket ps.
Proof. edestruct resume_act as (ps' & -> & _ & _ & _ & _ & _ & E & _). by rewrite act_byMarket. Qed.
Lemma resume_hostRoom m i reason cs ps :
  ps_hostRoom (resume s m i reason cs ps) = if h_State (host ps i) == FleetStopping then ps_hostRoom ps else ps_hostRoom ps - 1.
Proof. edestruct resume_act as (ps' & -> & _ & _ & _ & _ & _ & _ & E & _). by rewrite act_hostRoom. Qed.
Lemma resume_reserveRoom m i reason cs ps : ps_reserveRoom (resume s m i reason cs ps) = ps_reserveRoom ps + 1.
Proof. edestruct resume_act as (ps' & -> & _ & _ & _ & _ & _ & _ & _ & E). by rewrite act_reserveRoom. Qed.

(** A start counts against its quota; nothing else does. *)
Lemma buy_quotaUsed m o kind reason holds cs replaces ps : counts_quota s o ->
  ps_quotaUsed (snd (buy s m o kind reason holds cs replaces ps)) =
  <[o_Quota o := default 0 (ps_quotaUsed ps !! o_Quota o) + VCPUs (o_Type o)]> (ps_quotaUsed ps).
Proof.
  intros [E _]. unfold buy. rewrite act_quotaUsed. unfold start. rewrite E.
  by destruct (kind == ActionBuyReserve).
Qed.
Lemma resume_quotaUsed m i reason cs ps :
  ps_quotaUsed (resume s m i reason cs ps) =
  if h_State (host ps i) == FleetStopping then ps_quotaUsed ps
  else let '(key, n) := quotaOf s (h_Region (host ps i)) (h_InstanceType (host ps i)) (h_Market (host ps i)) in
       <[key := default 0 (ps_quotaUsed ps !! key) + n]> (ps_quotaUsed ps).
Proof. unfold resume. rewrite act_quotaUsed. by destruct (h_State (host ps i) == FleetStopping). Qed.

(** A host leaves by one of three actions. *)
Inductive leave_kind (v : marketView) (i : nat) (ps : pass) : FleetAction -> (FleetHost -> FleetHost) -> Z -> Prop :=
  | leave_cancel : h_Requested (host ps i) = true ->
      leave_kind v i ps (host_action ActionCancel ReasonUnclaimed (v_m v) (h_ID (host ps i)) None) (fun h => h) 0
  | leave_return why mode : h_Requested (host ps i) = false -> return_reason s ps v (host ps i) = Some why -> 0 < ps_reserveRoom ps ->
      leave_kind v i ps (host_action ActionReturnToReserve why (v_m v) (h_ID (host ps i)) (Some mode)) (set_Preparing mode) 1
  | leave_drain : h_Requested (host ps i) = false ->
      leave_kind v i ps (host_action ActionDrain ReasonIdle (v_m v) (h_ID (host ps i)) None) (set_State FleetDraining) 0.

Lemma update_host_id i ps : update_host i (fun h => h) ps = ps.
Proof. unfold update_host. destruct ps. simpl. unfold set_hosts. simpl. f_equal. by apply list_alter_id. Qed.

Lemma set_reserveRoom_same ps : set_reserveRoom (ps_reserveRoom ps - 0) ps = ps.
Proof. destruct ps. unfold set_reserveRoom. simpl. by rewrite Z.sub_0_r. Qed.

Lemma leave_act v i ps :
  exists a f n, leave_kind v i ps a f n /\
    leave s v i ps = snd (act a (set_reserveRoom (ps_reserveRoom ps - n) (update_host i f ps))).
Proof.
  unfold leave. destruct (h_Requested (host ps i)) eqn:Er.
  { do 3 eexists. split; [by apply leave_cancel|]. by rewrite update_host_id, set_reserveRoom_same. }
  assert (Hd : snd (act (host_action ActionDrain ReasonIdle (v_m v) (h_ID (host ps i)) None) (update_host i (set_State FleetDraining) ps)) =
    snd (act (host_action ActionDrain ReasonIdle (v_m v) (h_ID (host ps i)) None)
      (set_reserveRoom (ps_reserveRoom ps - 0) (update_host i (set_State FleetDraining) ps)))).
  { by rewrite <- (set_reserveRoom_same (update_host i (set_State FleetDraining) ps)) at 1. }
  destruct (return_reason s ps v (host ps i)) as [why|] eqn:Ew.
  - destruct (Z.gtb_spec (ps_reserveRoom ps) 0).
    + do 3 eexists. split; [eapply leave_return; [done|exact Ew|lia]|]. done.
    + do 3 eexists. split; [by apply leave_drain|]. exact Hd.
  - do 3 eexists. split; [by apply leave_drain|]. exact Hd.
Qed.

End Fields.

#[export] Hint Rewrite act_hosts act_actions act_waits act_planned act_claimed act_hostRoom act_reserveRoom act_quotaUsed act_byMarket
  act_used buy_hosts buy_actions buy_waits buy_claimed buy_byMarket buy_hostRoom buy_reserveRoom resume_hosts resume_actions
  resume_waits resume_claimed resume_used resume_byMarket resume_hostRoom resume_reserveRoom : pass.

(** ** Hosts *)

(** A host of the pass and the snapshot's host it began as: a pass assigns
    the state, the load of a claimed host, the reserve mode and the hand-back
    flag, and makes no host serve. *)
Definition host_from (claimed : gset HostID) (h0 h : FleetHost) : Prop :=
  exists st load mode back, h = h_with h0 st load mode back /\ (load = h_Load h0 \/ h_ID h0 ∈ claimed) /\
    (st = h_State h0 \/ In st [FleetStarting; FleetDraining; FleetPreparing]).

Definition hosts_from (s : FleetSnapshot) (ps : pass) : Prop :=
  Forall2 (host_from (ps_claimed ps)) (s_Hosts s) (ps_hosts ps).

Lemma host_from_ID c h0 h : host_from c h0 h -> h_ID h = h_ID h0.
Proof. by intros (? & ? & ? & ? & -> & _). Qed.

Lemma host_from_mono c c' h0 h : c ⊆ c' -> host_from c h0 h -> host_from c' h0 h.
Proof. intros Hc (st & load & mode & back & -> & Hl & Hs). do 4 eexists. split; [done|]. set_solver. Qed.

Lemma host_from_State c h0 h v : In v [FleetStarting; FleetDraining; FleetPreparing] -> host_from c h0 h -> host_from c h0 (set_State v h).
Proof. intros Hv (st & load & mode & back & -> & Hl & Hs). do 4 eexists. split; [reflexivity|]. auto. Qed.

Lemma host_from_Preparing c h0 h mode' : host_from c h0 h -> host_from c h0 (set_Preparing mode' h).
Proof. intros (st & load & mode & back & -> & Hl & Hs). do 4 eexists. split; [reflexivity|]. simpl. auto 10. Qed.

Lemma host_from_HandsBack c h0 h b : host_from c h0 h -> host_from c h0 (set_HandsBack b h).
Proof. intros (st & load & mode & back & -> & Hl & Hs). do 4 eexists. split; [reflexivity|]. auto. Qed.

Lemma host_from_Load c h0 h l : h_ID h0 ∈ c -> host_from c h0 h -> host_from c h0 (add_Load l h).
Proof. intros Hc (st & load & mode & back & -> & Hl & Hs). do 4 eexists. split; [reflexivity|]. auto. Qed.

#[export] Hint Resolve host_from_HandsBack host_from_Preparing : fleet.

Lemma hosts_from_step p s ps ps' : hosts_from s ps -> step p s ps ps' -> hosts_from s ps'.
Proof.
  unfold hosts_from. intros H Hs. destruct Hs as
    [ps ps' Hq|ps i back a Hi Hk Hc|ps ws Hw|ps it b Hl Hb|ps k f Hl Hf|ps m o kind reason holds cs rep Hg|ps m i reason cs Hi Hr Hp Hrf Hfr
    |ps v i Hg|ps reason m i Hi Hr Hn]; autorewrite with pass; try done.
  - by rewrite (q_hosts _ _ Hq), (q_claimed _ _ Hq).
  - simpl. apply Forall2_alter_r; [done|]. intros. by apply host_from_HandsBack.
  - simpl. eapply Forall2_impl; [|intros ?? Hx; exact Hx].
    assert (Hid : forall h0 h, s_Hosts s !! b_host b = Some h0 -> ps_hosts ps !! b_host b = Some h ->
      h_ID (host (update_host (b_host b) (add_Load (reservedShape (it_need it))) ps) (b_host b)) = h_ID h0).
    { intros h0 h Hh0 Hh. unfold host, update_host. simpl. rewrite list_lookup_alter_eq, Hh. simpl.
      eapply Forall2_lookup_lr in H; eauto. by eapply host_from_ID. }
    apply Forall2_alter_r.
    + eapply Forall2_impl; [exact H|]. intros. eapply host_from_mono; [|done]. set_solver.
    + intros h0 h Hh0 Hh Hf. apply host_from_Load; [|done]. rewrite (Hid h0 h) by done. set_solver.
  - apply Forall2_alter_r; [done|]. intros. apply host_from_State; simpl; auto.
  - destruct (leave_act s v i ps) as (a & f & n & Hk & ->). autorewrite with pass. simpl.
    apply Forall2_alter_r; [done|]. intros. destruct Hk; auto with fleet. apply host_from_State; simpl; auto.
Qed.

Lemma host_lookup s ps i : hosts_from s ps -> (i < length (ps_hosts ps))%nat ->
  exists h0, s_Hosts s !! i = Some h0 /\ ps_hosts ps !! i = Some (host ps i) /\ host_from (ps_claimed ps) h0 (host ps i).
Proof.
  intros H [h Hh]%lookup_lt_is_Some. destruct (Forall2_lookup_r _ _ _ _ _ H Hh) as (h0 & Hh0 & Hf).
  exists h0. unfold host. by rewrite Hh.
Qed.

(** ** Rooms and limits *)

Definition is_kind (k : FleetActionKind) (a : FleetAction) : bool := a_Kind a == k.
Definition is_purchase (a : FleetAction) : bool := purchase (a_Kind a).
Definition buys_in (m : ReserveMarket) (a : FleetAction) : bool := purchase (a_Kind a) && (a_Market a == m).

(** The books of a pass: purchases stay within the host room and each
    market's growth room the snapshot left, and the reserve room moves with
    each reserve bought, returned, resumed and retired. *)
Record books (p : Policy) (s : FleetSnapshot) (ps : pass) : Prop := {
  bk_hostRoom : count_actions is_purchase (ps_actions ps) + Z.max 0 (ps_hostRoom ps) <= Z.max 0 (HostRoom s);
  bk_growth m : count_actions (buys_in m) (ps_actions ps) + Z.max 0 (room p ps m) <= Z.max 0 (MaxGrowthActions p);
  bk_reserveRoom :
    ps_reserveRoom ps + count_actions (is_kind ActionBuyReserve) (ps_actions ps) + count_actions (is_kind ActionReturnToReserve) (ps_actions ps) =
    ReserveRoom s + count_actions (is_kind ActionResume) (ps_actions ps) + count_actions (is_kind ActionRetireReserve) (ps_actions ps);
  bk_reserves :
    count_actions (is_kind ActionBuyReserve) (ps_actions ps) + count_actions (is_kind ActionReturnToReserve) (ps_actions ps) <=
    Z.max 0 (ReserveRoom s) + count_actions (is_kind ActionResume) (ps_actions ps) + count_actions (is_kind ActionRetireReserve) (ps_actions ps) }.

(** An action that is none of those the books count. *)
Lemma books_ext p s ps ps' l :
  books p s ps -> ps_actions ps' = ps_actions ps ++ l ->
  Forall (fun a => In (a_Kind a) [ActionDrain; ActionCancel; ActionHandBack; ActionLend]) l ->
  ps_hostRoom ps' = ps_hostRoom ps -> ps_used ps' = ps_used ps -> ps_reserveRoom ps' = ps_reserveRoom ps -> books p s ps'.
Proof.
  intros [H1 H2 H3 H4] Ha Hl Hh Hu Hr.
  assert (Hz : forall f, (forall a, In (a_Kind a) [ActionDrain; ActionCancel; ActionHandBack; ActionLend] -> f a = false) ->
    count_actions f (ps_actions ps') = count_actions f (ps_actions ps)).
  { intros f Hf. rewrite Ha, count_actions_app. assert (count_actions f l = 0); [|lia]. clear Ha. unfold count_actions.
    induction Hl as [|a l Hx Hl IH]; [done|]. simpl. by rewrite Hf. }
  assert (Hk : forall k, In k [ActionBuyReserve; ActionReturnToReserve; ActionResume; ActionRetireReserve] ->
    count_actions (is_kind k) (ps_actions ps') = count_actions (is_kind k) (ps_actions ps)).
  { intros k Hk. apply Hz. unfold is_kind. intros a Hin. apply bool_decide_eq_false. intros <-. simpl in *. intuition congruence. }
  split; rewrite ?Hk by (simpl; auto 6); rewrite ?Hh, ?Hr; try done.
  - rewrite Hz; [done|]. unfold is_purchase. intros a Hin. destruct (a_Kind a); simpl in *; intuition congruence.
  - intros m. unfold room. rewrite Hu, Hz; [apply H2|]. unfold buys_in. intros a Hin. destruct (a_Kind a); simpl in *; intuition congruence.
Qed.

Lemma books_step p s ps ps' : books p s ps -> step p s ps ps' -> books p s ps'.
Proof.
  intros H Hs. destruct Hs as
    [ps ps' Hq|ps i back a Hi Hk Hc|ps ws Hw|ps it b Hl Hb|ps k f Hl Hf|ps m o kind reason holds cs rep Hg|ps m i reason cs Hi Hr Hp Hrf Hfr
    |ps v i Hg|ps reason m i Hi Hr Hn].
  - destruct Hq. eapply (books_ext _ _ _ _ []); [exact H|rewrite app_nil_r; done|constructor|done..].
  - eapply (books_ext _ _ _ _ [a]); [exact H|by autorewrite with pass| |autorewrite with pass; try done..].
    + constructor; [simpl in *; tauto|constructor].
    + simpl in Hk. destruct (a_Kind a); simpl; intuition congruence.
  - eapply (books_ext _ _ _ _ []); [exact H|by rewrite app_nil_r|constructor|done..].
  - eapply (books_ext _ _ _ _ []); [exact H|by rewrite app_nil_r|constructor|done..].
  - eapply (books_ext _ _ _ _ []); [exact H|by rewrite app_nil_r|constructor|done..].
  - destruct H as [H1 H2 H3 H4], Hg as [Hk Hh Hm Hr _ _ _ _]. split; autorewrite with pass; rewrite ?count_actions_app.
    + unfold is_purchase at 2, count_actions at 2. simpl. rewrite Hk. simpl. lia.
    + intros m'. specialize (H2 m'). unfold room in *. rewrite count_actions_app, buy_used by done.
      unfold buys_in at 2, count_actions at 2. simpl. rewrite Hk. simpl.
      destruct (decide (m = m')) as [->|];
        [rewrite lookup_insert_eq, bool_decide_true by done|rewrite lookup_insert_ne, bool_decide_false by done]; simpl in *; lia.
    + destruct kind; unfold count_actions in *; simpl in *; try done; lia.
    + destruct kind; unfold count_actions in *; simpl in *; try done; try lia. specialize (Hr eq_refl). lia.
  - destruct H as [H1 H2 H3 H4]. split; autorewrite with pass; rewrite ?count_actions_app.
    + unfold count_actions at 2. simpl. destruct (h_State (host ps i) == FleetStopping); lia.
    + intros m'. specialize (H2 m'). unfold room in *. autorewrite with pass. rewrite count_actions_app. unfold count_actions at 2. simpl.
      destruct (decide (m = m')) as [->|]; [rewrite lookup_insert_eq|rewrite lookup_insert_ne by done]; simpl in *; lia.
    + unfold count_actions in *. simpl. lia.
    + unfold count_actions in *. simpl. lia.
  - destruct (leave_act s v i ps) as (a & f & n & Hk & ->). destruct H as [H1 H2 H3 H4].
    destruct Hk; [eapply (books_ext _ _ _ _ [_]); [by split|by autorewrite with pass|repeat constructor; simpl; auto 6|..];
      autorewrite with pass; simpl; try done; lia| |
      eapply (books_ext _ _ _ _ [_]); [by split|by autorewrite with pass|repeat constructor; simpl; auto 6|..];
      autorewrite with pass; simpl; try done; lia].
    split; autorewrite with pass; rewrite ?count_actions_app; unfold count_actions in *; simpl; try lia.
    intros m. specialize (H2 m). unfold room in *. autorewrite with pass. rewrite List.filter_app, length_app. simpl. lia.
  - destruct H as [H1 H2 H3 H4]. split; autorewrite with pass; rewrite ?count_actions_app; unfold count_actions in *; simpl; try lia.
    intros m'. specialize (H2 m'). unfold room in *. autorewrite with pass. rewrite List.filter_app, length_app. simpl. lia.
Qed.

(** ** What room is left *)

(** Whether the snapshot has a host as stopping. *)
Definition was_stopping (s : FleetSnapshot) (id : HostID) : bool :=
  existsb (fun h => (h_ID h == id) && (h_State h == FleetStopping)) (s_Hosts s).
(** An action that takes one of the fleet's hosts: a purchase, or a resume of
    a reserve that is not still stopping, which counts as running already. *)
Definition takes_host (s : FleetSnapshot) (a : FleetAction) : bool :=
  is_purchase a || (is_kind ActionResume a && match a_Host a with Some id => negb (was_stopping s id) | None => true end).
(** An action that counts against its market's growth. *)
Definition grows_in (m : ReserveMarket) (a : FleetAction) : bool := grows (a_Kind a) && (a_Market a == m).

(** What the actions before it left a purchase. *)
Definition had_room (p : Policy) (s : FleetSnapshot) (before : list FleetAction) (a : FleetAction) : Prop :=
  is_purchase a = true ->
  count_actions (takes_host s) before < HostRoom s /\ count_actions (grows_in (a_Market a)) before < MaxGrowthActions p.

(** The rooms are what the actions so far left of the snapshot's, and every
    purchase found some of both. *)
Record rooms (p : Policy) (s : FleetSnapshot) (ps : pass) : Prop := {
  rm_hosts : hosts_from s ps;
  rm_hostRoom : ps_hostRoom ps = HostRoom s - count_actions (takes_host s) (ps_actions ps);
  rm_growth m : room p ps m = MaxGrowthActions p - count_actions (grows_in m) (ps_actions ps);
  rm_had k a : ps_actions ps !! k = Some a -> had_room p s (take k (ps_actions ps)) a }.

Lemma rooms_app p s ps ps' l :
  rooms p s ps -> hosts_from s ps' -> ps_actions ps' = ps_actions ps ++ l -> (length l <= 1)%nat ->
  ps_hostRoom ps' = ps_hostRoom ps - count_actions (takes_host s) l ->
  (forall m, default 0 (ps_used ps' !! m) = default 0 (ps_used ps !! m) + count_actions (grows_in m) l) ->
  (forall a, In a l -> is_purchase a = true -> 0 < ps_hostRoom ps /\ 0 < room p ps (a_Market a)) -> rooms p s ps'.
Proof.
  intros [H1 H2 H3 H4] Hh Ha Hl Hr Hu Hg. split; [done|rewrite Ha, count_actions_app; lia| |].
  - intros m. specialize (H3 m). unfold room in *. rewrite Ha, count_actions_app, Hu. lia.
  - intros k a. rewrite Ha, lookup_app. destruct (ps_actions ps !! k) as [b|] eqn:E.
    + intros [= <-]. rewrite take_app_le by (apply lookup_lt_Some in E; lia). by apply H4.
    + intros Hk Hp. apply lookup_ge_None in E.
      assert (k - length (ps_actions ps) = 0)%nat as Hz by (apply lookup_lt_Some in Hk; lia).
      replace k with (length (ps_actions ps)) by lia. rewrite take_app_length.
      destruct (Hg a) as [G1 G2]; [|done|rewrite H3 in G2; lia].
      apply list_elem_of_In, list_elem_of_lookup. eauto.
Qed.

Lemma was_stopping_host s ps i : NoDup (map h_ID (s_Hosts s)) -> hosts_from s ps -> (i < length (ps_hosts ps))%nat ->
  resumable (host ps i) || (h_State (host ps i) == FleetStopping) = true ->
  was_stopping s (h_ID (host ps i)) = (h_State (host ps i) == FleetStopping).
Proof.
  intros Hnd Hf Hi Hst. destruct (host_lookup s ps i Hf Hi) as (h0 & Hh0 & _ & Hfr). pose proof (host_from_ID _ _ _ Hfr) as Eid.
  assert (Est : h_State (host ps i) = h_State h0).
  { destruct Hfr as (st & load & mode & back & Eh & _ & [->|Hin]); [by rewrite Eh|]. exfalso.
    rewrite Eh in Hst. destruct Hin as [<-|[<-|[<-|[]]]]; discriminate Hst. }
  rewrite Eid, Est. unfold was_stopping. apply eq_true_iff_eq. rewrite existsb_exists, bool_decide_eq_true. split.
  - intros (h & Hin & Hb). apply andb_true_iff in Hb as [Hb1%bool_decide_eq_true Hb2%bool_decide_eq_true].
    apply list_elem_of_In, list_elem_of_lookup in Hin as [j Hj].
    assert (j = i) as ->; [|congruence].
    eapply (NoDup_lookup (map h_ID (s_Hosts s)) j i (h_ID h0)); [done| |]; rewrite list_lookup_fmap; [rewrite Hj|rewrite Hh0]; simpl; congruence.
  - intros E. exists h0. split; [apply list_elem_of_In, list_elem_of_lookup; eauto|].
    apply andb_true_iff. split; by apply bool_decide_eq_true.
Qed.

Lemma no_room_taken s l : Forall (fun a => In (a_Kind a) [ActionDrain; ActionCancel; ActionReturnToReserve; ActionRetireReserve; ActionHandBack; ActionLend]) l ->
  count_actions (takes_host s) l = 0 /\ (forall m, count_actions (grows_in m) l = 0) /\ (forall a, In a l -> is_purchase a = false).
Proof.
  induction 1 as [|a l Ha _ (IH1 & IH2 & IH3)]; [done|].
  assert (E : takes_host s a = false /\ (forall m, grows_in m a = false) /\ is_purchase a = false).
  { unfold takes_host, grows_in, is_purchase, is_kind. destruct (a_Kind a); simpl in *; intuition congruence. }
  destruct E as (E1 & E2 & E3). unfold count_actions in *. simpl. rewrite E1. split_and!; [done|intros m; by rewrite E2|].
  intros b [<-|Hb]; auto.
Qed.

Lemma rooms_still p s ps ps' l :
  rooms p s ps -> hosts_from s ps' -> ps_actions ps' = ps_actions ps ++ l -> (length l <= 1)%nat ->
  Forall (fun a => In (a_Kind a) [ActionDrain; ActionCancel; ActionReturnToReserve; ActionRetireReserve; ActionHandBack; ActionLend]) l ->
  ps_hostRoom ps' = ps_hostRoom ps -> ps_used ps' = ps_used ps -> rooms p s ps'.
Proof.
  intros H Hh Ha Hl (N1 & N2 & N3)%(no_room_taken s) Hr Hu.
  eapply rooms_app; [exact H|done|exact Ha|done|lia|intros m; rewrite N2, Hu; lia|].
  intros a Hin Hp. by rewrite N3 in Hp.
Qed.

Lemma rooms_step p s ps ps' : NoDup (map h_ID (s_Hosts s)) -> rooms p s ps -> step p s ps ps' -> rooms p s ps'.
Proof.
  intros Hnd H Hs. pose proof (hosts_from_step p s ps ps' (rm_hosts _ _ _ H) Hs) as Hh. destruct Hs as
    [ps ps' Hq|ps i back a Hi Hk Hc|ps ws Hw|ps it b Hl Hb|ps k f Hl Hf|ps m o kind reason holds cs rep Hg|ps m i reason cs Hi Hr Hp Hrf Hfr
    |ps v i Hg|ps reason m i Hi Hr Hn].
  - destruct Hq. eapply (rooms_still _ _ _ _ []); [exact H|done|by rewrite app_nil_r|simpl; lia|constructor|done..].
  - assert (G : grows (a_Kind a) = false) by (destruct (a_Kind a); simpl in *; intuition congruence).
    eapply (rooms_still _ _ _ _ [a]); [exact H|done|by autorewrite with pass|done|constructor; [simpl in *; tauto|constructor]|..];
      autorewrite with pass; [done|by rewrite G].
  - eapply (rooms_still _ _ _ _ []); [exact H|done|by rewrite app_nil_r|simpl; lia|constructor|done..].
  - eapply (rooms_still _ _ _ _ []); [exact H|done|by rewrite app_nil_r|simpl; lia|constructor|done..].
  - eapply (rooms_still _ _ _ _ []); [exact H|done|by rewrite app_nil_r|simpl; lia|constructor|done..].
  - destruct Hg as [Hk Hh0 Hm Hr _ _ _ _]. eapply (rooms_app _ _ _ _ [_]); [exact H|done|by autorewrite with pass|done|..].
    + autorewrite with pass. unfold count_actions, takes_host, is_purchase. simpl. by rewrite Hk.
    + intros m'. rewrite buy_used by done. unfold count_actions, grows_in. simpl.
      assert (grows kind = true) as -> by by destruct kind.
      destruct (decide (m = m')) as [->|];
        [rewrite lookup_insert_eq, bool_decide_true by done|rewrite lookup_insert_ne, bool_decide_false by done]; simpl; lia.
    + intros a [<-|[]] _. done.
  - eapply (rooms_app _ _ _ _ [_]); [exact H|done|by autorewrite with pass|done|..].
    + autorewrite with pass. unfold count_actions, takes_host, is_purchase, is_kind. simpl.
      rewrite (was_stopping_host s ps i) by (done || apply H). by destruct (h_State (host ps i) == FleetStopping); simpl; lia.
    + intros m'. autorewrite with pass. unfold count_actions, grows_in. simpl.
      destruct (decide (m = m')) as [->|];
        [rewrite lookup_insert_eq, bool_decide_true by done|rewrite lookup_insert_ne, bool_decide_false by done]; simpl; lia.
    + intros a [<-|[]] Hx. done.
  - destruct (leave_act s v i ps) as (a & f & n & Hk & E). rewrite E in *.
    eapply (rooms_still _ _ _ _ [a]); [exact H|done|by autorewrite with pass|done|..]; destruct Hk; autorewrite with pass;
      try done; (constructor; [simpl; auto 6|constructor]).
  - eapply (rooms_still _ _ _ _ [_]); [exact H|done|by autorewrite with pass|done|..]; autorewrite with pass;
      try done. constructor; [simpl; auto 6|constructor].
Qed.

(** ** Containers *)

(** What the plan says of pending containers: the ones actions name are
    pending and named once, there is a wait for each pending container in
    snapshot order, and a wait that names an action names the purchase made
    for its container. *)
Record naming (s : FleetSnapshot) (ps : pass) : Prop := {
  nm_once : NoDup (bought_ids ps);
  nm_pending c : In c (bought_ids ps) -> In c (pending_ids s);
  nm_waits : ps_waits ps = [] \/ map w_Container (ps_waits ps) = pending_ids s;
  nm_actions : Forall (wait_action_ok ps) (ps_waits ps) }.

Lemma wait_action_ok_app ps ps' l w : ps_actions ps' = ps_actions ps ++ l -> wait_action_ok ps w -> wait_action_ok ps' w.
Proof.
  intros E H n Hn. destruct (H n Hn) as (Hw & a & Ha & Hk). split; [done|]. exists a. split; [|done].
  rewrite E. by apply lookup_app_l_Some.
Qed.

Lemma naming_app s ps ps' l :
  naming s ps -> ps_actions ps' = ps_actions ps ++ l -> ps_waits ps' = ps_waits ps ->
  fresh s ps (flat_map a_Containers l) -> naming s ps'.
Proof.
  intros [H1 H2 H3 H4] Ha Hw [Hn Hf].
  assert (E : bought_ids ps' = bought_ids ps ++ flat_map a_Containers l) by (unfold bought_ids; by rewrite Ha, flat_map_app).
  split; rewrite ?E, ?Hw; try done.
  - apply NoDup_app. repeat split; try done. intros c Hc Hc'%list_elem_of_In. apply list_elem_of_In in Hc.
    by apply (Hf c Hc').
  - intros c [Hc|Hc]%in_app_or; [auto|by apply Hf].
  - eapply Forall_impl; [exact H4|]. intros w. by apply wait_action_ok_app with l.
Qed.

Lemma fresh_nil s ps : fresh s ps [].
Proof. split; [constructor|done]. Qed.

Lemma naming_quiet s ps ps' :
  naming s ps -> ps_actions ps' = ps_actions ps -> ps_waits ps' = ps_waits ps -> naming s ps'.
Proof. intros H Ha Hw. eapply (naming_app _ _ _ []); [exact H|by rewrite app_nil_r|done|apply fresh_nil]. Qed.

Lemma naming_step p s ps ps' : naming s ps -> step p s ps ps' -> naming s ps'.
Proof.
  intros H Hs. destruct Hs as
    [ps ps' Hq|ps i back a Hi Hk Hc|ps ws Hw Hws Hnone|ps it b Hl Hb|ps k f Hl Hf|ps m o kind reason holds cs rep Hg|ps m i reason cs Hi Hr Hp Hrf Hfr
    |ps v i Hg|ps reason m i Hi Hr Hn].
  - destruct Hq. by eapply naming_quiet.
  - eapply (naming_app _ _ _ [a]); [exact H|by autorewrite with pass..|]. simpl. rewrite Hc. apply fresh_nil.
  - destruct H as [H1 H2 _ _]. split; try done; [by right|]. eapply Forall_impl; [exact Hnone|].
    intros w [_ Hw'] n Hn. simpl in Hw'. congruence.
  - by eapply naming_quiet.
  - destruct H as [H1 H2 H3 H4]. split; try done; simpl.
    + destruct H3 as [H3|H3]; [left; by rewrite H3|right]. rewrite <- H3. apply list_eq. intros j. rewrite !list_lookup_fmap.
      destruct (decide (k = j)) as [->|]; [|by rewrite list_lookup_alter_ne].
      rewrite list_lookup_alter_eq. destruct (ps_waits ps !! j) as [w|] eqn:E; [|done]. simpl. f_equal. by apply Hf.
    + apply Forall_alter; [done|]. intros w Hw _. by apply Hf.
  - destruct Hg as [_ _ _ _ _ Hfr _ _]. eapply (naming_app _ _ _ [_]); [exact H|by autorewrite with pass..|]. simpl. by rewrite app_nil_r.
  - eapply (naming_app _ _ _ [_]); [exact H|by autorewrite with pass..|]. simpl. by rewrite app_nil_r.
  - destruct (leave_act s v i ps) as (a & f & n & Hk & ->).
    eapply (naming_app _ _ _ [a]); [exact H|by autorewrite with pass..|]. by destruct Hk; simpl; apply fresh_nil.
  - eapply (naming_app _ _ _ [_]); [exact H|by autorewrite with pass..|]. apply fresh_nil.
Qed.

(** ** Departures *)

(** The host an action removes, as the snapshot has it: it runs nothing that
    holds it up, no pending container is placed on it or waits for it and it
    updates no agent; a cancelled one EC2 has not launched, any other serves. *)
Record departs (s : FleetSnapshot) (ps : pass) (a : FleetAction) (h0 : FleetHost) : Prop := {
  dt_host : In h0 (s_Hosts s);
  dt_named : a_Host a = Some (h_ID h0);
  dt_claimed : h_ID h0 ∉ ps_claimed ps;
  dt_busy : busy h0 = false;
  dt_update : h_UpdateDue h0 = false;
  dt_phase : if is_kind ActionCancel a then h_Requested h0 = true else serving h0 = true /\ h_Requested h0 = false;
  dt_waits : Forall (fun w => w_Host w <> Some (h_ID h0)) (ps_waits ps) }.

Record departures (s : FleetSnapshot) (ps : pass) : Prop := {
  dp_hosts : hosts_from s ps;
  dp_waits : Forall (wait_host_ok ps) (ps_waits ps);
  dp_leaves : Forall (fun a => leaves (a_Kind a) = true -> exists h0, departs s ps a h0) (ps_actions ps) }.

(** A host a wait may name, and an update that keeps it so. *)
Definition holds_wait (h : FleetHost) : Prop := h_UpdateDue h = true \/ (starting h = true /\ h_Requested h = false).

Lemma awaited_alter ps ps' i f id :
  ps_claimed ps ⊆ ps_claimed ps' -> ps_hosts ps' = alter f i (ps_hosts ps) ->
  (forall h, ps_hosts ps !! i = Some h -> h_ID h = id -> holds_wait h -> h_ID (f h) = id /\ holds_wait (f h)) ->
  awaited ps id -> awaited ps' id.
Proof.
  intros Hc Hh Hf [Hid|(h & Hin & Hid & Hw)]; [left; set_solver|right].
  apply list_elem_of_In, list_elem_of_lookup in Hin as [j Hj].
  destruct (decide (i = j)) as [->|Hne].
  - exists (f h). destruct (Hf h Hj Hid Hw). split; [|done].
    apply list_elem_of_In, list_elem_of_lookup. exists j. by rewrite Hh, list_lookup_alter_eq, Hj.
  - exists h. split; [|done]. apply list_elem_of_In, list_elem_of_lookup. exists j. by rewrite Hh, list_lookup_alter_ne.
Qed.

(** A step that removes no host keeps the departures so far. *)
Lemma departures_alter s ps ps' i f l :
  departures s ps -> hosts_from s ps' -> ps_waits ps' = ps_waits ps -> ps_claimed ps' = ps_claimed ps ->
  ps_actions ps' = ps_actions ps ++ l -> Forall (fun a => leaves (a_Kind a) = false) l -> ps_hosts ps' = alter f i (ps_hosts ps) ->
  (forall h, ps_hosts ps !! i = Some h -> holds_wait h -> h_ID (f h) = h_ID h /\ holds_wait (f h)) ->
  departures s ps'.
Proof.
  intros [H1 H2 H3] Hhf Hw Hc Ha Hl Hh Hf. split; [done|rewrite Hw|rewrite Ha].
  - eapply Forall_impl; [exact H2|]. intros w Hw' id Hid. apply (awaited_alter ps ps' i f); [by rewrite Hc|exact Hh| |by apply Hw'].
    intros h Hh' <- Hwt. by apply Hf.
  - apply Forall_app. split.
    + eapply Forall_impl; [exact H3|]. intros a Hd Hk. destruct (Hd Hk) as [h0 [D1 D2 D3 D4 D5 D6 D7]]. exists h0.
      split; try done; [by rewrite Hc|by rewrite Hw].
    + eapply Forall_impl; [exact Hl|]. intros a E Hk. simpl in *. congruence.
Qed.

Lemma departures_same s ps ps' l :
  departures s ps -> hosts_from s ps' -> ps_waits ps' = ps_waits ps -> ps_claimed ps' = ps_claimed ps -> ps_hosts ps' = ps_hosts ps ->
  ps_actions ps' = ps_actions ps ++ l -> Forall (fun a => leaves (a_Kind a) = false) l -> departures s ps'.
Proof.
  intros. eapply (departures_alter _ _ _ 0 (fun h => h)); try done. by rewrite list_alter_id.
Qed.

(** With no host gone, claims and waits only need hosts to wait for. *)
Lemma departures_no_leaves s ps :
  no_leaves ps -> hosts_from s ps -> Forall (wait_host_ok ps) (ps_waits ps) -> departures s ps.
Proof.
  intros Hl H1 H2. split; [done..|]. eapply Forall_impl; [exact Hl|]. intros a E Hk. simpl in *. congruence.
Qed.

Lemma unique_host s ps i j h :
  NoDup (map h_ID (s_Hosts s)) -> hosts_from s ps -> ps_hosts ps !! i = Some h -> (j < length (ps_hosts ps))%nat ->
  h_ID (host ps j) = h_ID h -> j = i.
Proof.
  intros Hnd Hf Hi Hj E. destruct (host_lookup s ps j Hf Hj) as (h1 & H1 & _ & F1%host_from_ID).
  destruct (Forall2_lookup_r _ _ _ _ _ Hf Hi) as (h2 & H2 & F2%host_from_ID).
  eapply (NoDup_lookup (map h_ID (s_Hosts s)) j i (h_ID h1)); [done| |]; rewrite list_lookup_fmap.
  - by rewrite H1.
  - rewrite H2. simpl. congruence.
Qed.

(** A host nothing holds up: what its departure leaves true. *)
Lemma leave_departs s ps v i a f n :
  NoDup (map h_ID (s_Hosts s)) -> departures s ps -> leave_guard ps i -> leave_kind s v i ps a f n ->
  exists h0, departs s ps a h0.
Proof.
  intros Hnd [H1 H2 H3] [Hi Hst Hr Hph] Hk. destruct (host_lookup s ps i H1 Hi) as (h0 & Hh0 & Hh & Hf).
  unfold stays in Hst. bools.
  match goal with H : h_ID _ ∉ ps_claimed ps |- _ => rename H into Hcl end.
  destruct Hf as (st & load & mode & back & Eh & Hload & Hstate).
  assert (Eid : h_ID (host ps i) = h_ID h0) by (by rewrite Eh). rewrite Eid in Hcl.
  destruct Hload as [->|]; [|done].
  exists h0. split.
  - apply list_elem_of_In, list_elem_of_lookup. eauto.
  - destruct Hk; simpl; by rewrite Eid.
  - done.
  - match goal with H : busy _ = false |- _ => by rewrite Eh in H end.
  - match goal with H : h_UpdateDue _ = false |- _ => by rewrite Eh in H end.
  - assert (Hreq : h_Requested (host ps i) = h_Requested h0) by (by rewrite Eh).
    assert (Hsv : h_Requested h0 = false -> serving h0 = true).
    { intros Hrq. match goal with H : starting _ && negb _ = false |- _ => rewrite Hreq, Hrq, andb_true_r in H; rename H into Hst' end.
      rewrite Hreq, Hrq, Hst', !orb_false_r, Eh in Hph. unfold serving in *. simpl in Hph. bools. subst st.
      destruct Hstate as [<-|Hs']; [done|]. simpl in Hs'. intuition congruence. }
    destruct Hk; [change (h_Requested h0 = true)|change (serving h0 = true /\ h_Requested h0 = false)..];
      [congruence|split; [apply Hsv|]; congruence..].
  - apply List.Forall_forall. intros w Hw E. rewrite List.Forall_forall in H2.
    destruct (H2 w Hw _ E) as [?|(h & Hin & Hid & Hwt)]; [done|].
    apply list_elem_of_In, list_elem_of_lookup in Hin as [j Hj].
    assert (i = j) as -> by (eapply unique_host; eauto; congruence).
    assert (host ps j = h) as E' by congruence. rewrite E' in *.
    destruct Hwt as [Hu|[Hs1 Hs2]]; [congruence|]. rewrite Hs1, Hs2 in *. done.
Qed.

Lemma departures_step p s ps ps' :
  NoDup (map h_ID (s_Hosts s)) -> departures s ps -> step p s ps ps' -> departures s ps'.
Proof.
  intros Hnd H Hs. assert (Hhf : hosts_from s ps') by (eapply hosts_from_step; [apply H|exact Hs]).
  destruct Hs as
    [ps ps' Hq|ps i back a Hi Hk Hc|ps ws Hw Hws Hnone|ps it b Hl Hb|ps k f Hl Hf|ps m o kind reason holds cs rep Hg|ps m i reason cs Hi Hr Hp Hrf Hfr
    |ps v i Hg|ps reason m i Hi Hr Hn].
  - destruct Hq. eapply (departures_same _ _ _ []); try done; by rewrite app_nil_r.
  - eapply departures_alter; [exact H|exact Hhf|by autorewrite with pass..| |by autorewrite with pass|].
    + constructor; [|constructor]. simpl in Hk. by destruct Hk as [<-|[<-|[]]].
    + simpl. done.
  - destruct H as [H1 H2 H3]. split; [done| |].
    + eapply Forall_impl; [exact Hnone|]. intros w [Hw' _] id Hid. simpl in *. congruence.
    + eapply Forall_impl; [exact H3|]. intros a Hd Hk. destruct (Hd Hk) as [h0 [D1 D2 D3 D4 D5 D6 D7]].
      exists h0. split; try done. eapply Forall_impl; [exact Hnone|]. simpl. intros w [-> _]. done.
  - apply departures_no_leaves; [done..|]. destruct H as [_ H2 _]. simpl. eapply Forall_impl; [exact H2|].
    intros w Hw id Hid. eapply awaited_alter; [|reflexivity| |by apply Hw]; [set_solver|]. by intros h Hh <- Hwt.
  - apply departures_no_leaves; [done..|]. simpl. apply Forall_alter; [apply H|]. intros w Hw _. by apply Hf.
  - eapply departures_same; [exact H|exact Hhf|by autorewrite with pass..|]. constructor; [|constructor].
    destruct Hg as [Hk _ _ _ _ _ _ _]. simpl. by destruct kind.
  - eapply departures_alter; [exact H|exact Hhf|by autorewrite with pass..|by repeat constructor|by autorewrite with pass|].
    intros h Hh [Hw|[Hw Hw']]; (split; [done|]); [by left|by right].
  - destruct (leave_act s v i ps) as (a & f & n & Hk & E).
    destruct (leave_departs s ps v i a f n Hnd H Hg Hk) as [h0 Hd]. rewrite E in *. destruct H as [H1 H2 H3].
    assert (Hid : forall h, ps_hosts ps !! i = Some h -> h_ID h = h_ID h0).
    { intros h Hh. assert (En : a_Host a = Some (h_ID (host ps i))) by (by destruct Hk).
      rewrite (dt_named _ _ _ _ Hd) in En. unfold host in En. rewrite Hh in En. simpl in En. congruence. }
    split; [done|rewrite act_waits|rewrite act_actions].
    + apply List.Forall_forall. intros w Hw id Hw'. rewrite List.Forall_forall in H2.
      eapply (awaited_alter ps _ i f); [rewrite act_claimed; reflexivity|by autorewrite with pass| |by apply (H2 w)].
      intros h Hh Eh _. exfalso. destruct Hd as [_ _ _ _ _ _ D7]. rewrite List.Forall_forall in D7.
      apply (D7 w Hw). rewrite <- (Hid h Hh). congruence.
    + apply Forall_app. split.
      * eapply Forall_impl; [exact H3|]. intros a' Hd' Hk'. destruct (Hd' Hk') as [h1 [D1 D2 D3 D4 D5 D6 D7]]. exists h1.
        by split; autorewrite with pass.
      * constructor; [|constructor]. intros _. exists h0. destruct Hd. by split; autorewrite with pass.
  - eapply departures_same; [exact H|exact Hhf|by autorewrite with pass..|]. by repeat constructor.
Qed.

(** ** Purchases and resumes *)

(** Every purchase names an offer, and one made for containers an offer that
    holds what it is bought for. *)
Definition offer_holds (a : FleetAction) : Prop :=
  purchase (a_Kind a) = true -> exists o, a_Offer a = Some o /\ (a_Containers a <> [] -> a_Holds a ⊑c o_Usable o).
Definition holds_fit (ps : pass) : Prop := Forall offer_holds (ps_actions ps).

Lemma holds_fit_step p s ps ps' : holds_fit ps -> step p s ps ps' -> holds_fit ps'.
Proof.
  assert (Hx : forall ps ps' l, holds_fit ps -> ps_actions ps' = ps_actions ps ++ l ->
    Forall offer_holds l -> holds_fit ps').
  { intros q q' l H E Hl. unfold holds_fit. rewrite E. by apply Forall_app. }
  intros H Hs. destruct Hs as
    [ps ps' Hq|ps i back a Hi Hk Hc|ps ws Hw Hws Hnone|ps it b Hl Hb|ps k f Hl Hf|ps m o kind reason holds cs rep Hg|ps m i reason cs Hi Hr Hp Hrf Hfr
    |ps v i Hg|ps reason m i Hi Hr Hn]; try done.
  - unfold holds_fit. by rewrite (q_actions _ _ Hq).
  - eapply Hx; [exact H|by autorewrite with pass|]. constructor; [|constructor]. unfold offer_holds. simpl in Hk. by destruct Hk as [<-|[<-|[]]].
  - eapply Hx; [exact H|by autorewrite with pass|]. constructor; [|constructor]. intros _. exists o. split; [done|].
    apply (bg_holds _ _ _ _ _ _ _ _ Hg).
  - eapply Hx; [exact H|by autorewrite with pass|]. by repeat constructor.
  - destruct (leave_act s v i ps) as (a & f & n & Hk & ->). eapply Hx; [exact H|by autorewrite with pass|].
    constructor; [|constructor]. by destruct Hk.
  - eapply Hx; [exact H|by autorewrite with pass|]. by repeat constructor.
Qed.

(** The hosts resumes name. *)
Definition resumed (a : FleetAction) : option HostID := if is_kind ActionResume a then a_Host a else None.

(** A stopped or stopping reserve. *)
Definition asleep (h : FleetHost) : bool := resumable h || (h_State h == FleetStopping).

(** A resume names a reserve the snapshot holds stopped or stopping, that no
    interruption marks and whose start was not refused; it names each once,
    since the host no longer sleeps. *)
Record restarts (s : FleetSnapshot) (ps : pass) : Prop := {
  rs_hosts : hosts_from s ps;
  rs_from id : In id (omap resumed (ps_actions ps)) -> exists h0, In h0 (s_Hosts s) /\ h_ID h0 = id /\ asleep h0 = true /\
    h_Protected h0 = false /\ h_StartRefused h0 = false;
  rs_awake id h : In id (omap resumed (ps_actions ps)) -> In h (ps_hosts ps) -> h_ID h = id -> asleep h = false;
  rs_once : NoDup (omap resumed (ps_actions ps)) }.

Lemma asleep_awake h : In (h_State h) [FleetStarting; FleetDraining; FleetPreparing] -> asleep h = false.
Proof. unfold asleep, resumable. simpl. by intros [<-|[<-|[<-|[]]]]. Qed.

(** A step that resumes nothing and puts no host to sleep. *)
Lemma restarts_alter s ps ps' i f l :
  restarts s ps -> hosts_from s ps' -> ps_actions ps' = ps_actions ps ++ l -> Forall (fun a => a_Kind a <> ActionResume) l ->
  ps_hosts ps' = alter f i (ps_hosts ps) -> (forall h, h_ID (f h) = h_ID h /\ (asleep h = false -> asleep (f h) = false)) ->
  restarts s ps'.
Proof.
  intros [H1 H2 H3 H4] Hhf Ha Hl Hh Hf.
  assert (E : omap resumed (ps_actions ps') = omap resumed (ps_actions ps)).
  { rewrite Ha, omap_app. assert (omap resumed l = []) as ->; [|apply app_nil_r].
    apply elem_of_nil_inv. intros id (a & Hin & Hr)%list_elem_of_omap. rewrite Forall_forall in Hl.
    unfold resumed, is_kind in Hr. rewrite bool_decide_false in Hr by (by apply Hl). done. }
  split; rewrite ?E; try done. intros id h Hin Hh' Hid.
  apply list_elem_of_In, list_elem_of_lookup in Hh' as [j Hj]. rewrite Hh in Hj.
  destruct (decide (i = j)) as [->|Hne].
  - rewrite list_lookup_alter_eq in Hj. destruct (ps_hosts ps !! j) as [h'|] eqn:Ej; [|done]. injection Hj as <-.
    destruct (Hf h') as [Hi Hs]. apply Hs. apply (H3 id); [done| |congruence]. apply list_elem_of_In, list_elem_of_lookup. eauto.
  - rewrite list_lookup_alter_ne in Hj by done. apply (H3 id); [done| |done]. apply list_elem_of_In, list_elem_of_lookup. eauto.
Qed.

Lemma restarts_same s ps ps' l :
  restarts s ps -> hosts_from s ps' -> ps_actions ps' = ps_actions ps ++ l -> Forall (fun a => a_Kind a <> ActionResume) l ->
  ps_hosts ps' = ps_hosts ps -> restarts s ps'.
Proof. intros. eapply (restarts_alter _ _ _ 0 (fun h => h)); try done. by rewrite list_alter_id. Qed.

Lemma restarts_resume s ps m i reason cs :
  NoDup (map h_ID (s_Hosts s)) -> restarts s ps -> hosts_from s (resume s m i reason cs ps) ->
  (i < length (ps_hosts ps))%nat -> asleep (host ps i) = true -> h_Protected (host ps i) = false ->
  h_StartRefused (host ps i) = false -> restarts s (resume s m i reason cs ps).
Proof.
  intros Hnd [H1 H2 H3 H4] Hhf Hi Hs Hp Hr. destruct (host_lookup s ps i H1 Hi) as (h0 & Hh0 & Hh & Hf).
  assert (Hid := host_from_ID _ _ _ Hf).
  assert (Hin0 : In h0 (s_Hosts s)) by (apply list_elem_of_In, list_elem_of_lookup; eauto).
  assert (Hin : In (host ps i) (ps_hosts ps)) by (apply list_elem_of_In, list_elem_of_lookup; eauto).
  assert (E : omap resumed (ps_actions (resume s m i reason cs ps)) = omap resumed (ps_actions ps) ++ [h_ID (host ps i)]).
  { autorewrite with pass. by rewrite omap_app. }
  split; [done|rewrite E..].
  - intros id [Hi'|[<-|[]]]%in_app_or; [auto|]. exists h0. split; [done|]. split; [done|].
    destruct Hf as (st & load & mode & back & Eh & _ & Hst). rewrite Eh in Hs, Hp, Hr. split; [|done].
    destruct Hst as [->|Hst]; [done|]. by rewrite asleep_awake in Hs.
  - intros id h Hid' Hh' Hx. autorewrite with pass in Hh'. apply list_elem_of_In, list_elem_of_lookup in Hh' as [j Hj].
    destruct (decide (i = j)) as [->|Hne].
    + rewrite list_lookup_alter_eq, Hh in Hj. injection Hj as <-. done.
    + rewrite list_lookup_alter_ne in Hj by done. apply in_app_or in Hid' as [Hid'|[<-|[]]].
      * apply (H3 id); [done| |done]. apply list_elem_of_In, list_elem_of_lookup. eauto.
      * exfalso. apply Hne. by apply (unique_host s ps j i h).
  - apply NoDup_app. repeat split; [done| |apply NoDup_singleton].
    intros id Hid1%list_elem_of_In ->%list_elem_of_singleton. by rewrite (H3 (h_ID (host ps i)) (host ps i)) in Hs.
Qed.

Lemma restarts_step p s ps ps' :
  NoDup (map h_ID (s_Hosts s)) -> restarts s ps -> step p s ps ps' -> restarts s ps'.
Proof.
  intros Hnd H Hs. assert (Hhf : hosts_from s ps') by (eapply hosts_from_step; [apply H|exact Hs]).
  destruct Hs as
    [ps ps' Hq|ps i back a Hi Hk Hc|ps ws Hw Hws Hnone|ps it b Hl Hb|ps k f Hl Hf|ps m o kind reason holds cs rep Hg|ps m i reason cs Hi Hr Hp Hrf Hfr
    |ps v i Hg|ps reason m i Hi Hr Hn].
  - destruct Hq. eapply (restarts_same _ _ _ []); try done. by rewrite app_nil_r.
  - eapply (restarts_alter _ _ _ i (set_HandsBack back)); [exact H|exact Hhf|by autorewrite with pass| |by autorewrite with pass|done].
    constructor; [|constructor]. simpl in Hk. by destruct Hk as [<-|[<-|[]]].
  - eapply (restarts_same _ _ _ []); try done. by rewrite app_nil_r.
  - eapply (restarts_alter _ _ _ (b_host b) (add_Load (reservedShape (it_need it))) []); try done. by rewrite app_nil_r.
  - eapply (restarts_same _ _ _ []); try done. by rewrite app_nil_r.
  - eapply restarts_same; [exact H|exact Hhf|by autorewrite with pass| |by autorewrite with pass].
    constructor; [|constructor]. destruct Hg as [Hk _ _ _ _ _ _ _]. simpl. by intros ->.
  - by apply restarts_resume.
  - destruct (leave_act s v i ps) as (a & f & n & Hk & E). rewrite E in *.
    eapply (restarts_alter _ _ _ i f); [exact H|exact Hhf|by autorewrite with pass| |by autorewrite with pass|by destruct Hk].
    constructor; [|constructor]. by destruct Hk.
  - eapply restarts_same; [exact H|exact Hhf|by autorewrite with pass| |by autorewrite with pass]. by repeat constructor.
Qed.

(** ** Quotas *)

(** What a room leaves for a quota moves with what is used of it. *)
Lemma quotaRoom_moves quotas used used' key v :
  quotaRoom quotas used !! key = Some v ->
  quotaRoom quotas used' !! key = Some (v + default 0 (used !! key) - default 0 (used' !! key)).
Proof.
  unfold quotaRoom. revert v. induction quotas as [|q quotas IH] using rev_ind; intros v; [done|].
  rewrite !fold_left_app. simpl. destruct (decide (vq_Key q = key)) as [<-|Hne].
  - rewrite !lookup_insert_eq. intros [= <-]. f_equal. lia.
  - rewrite !lookup_insert_ne by done. apply IH.
Qed.

(** The vCPUs of the hosts bought to serve or to sleep under one quota. *)
Definition quota_bought (key : QuotaKey) (a : FleetAction) : Z :=
  match a_Kind a, a_Offer a with
  | (ActionBuy | ActionBuyReserve), Some o => if o_Quota o == key then VCPUs (o_Type o) else 0
  | _, _ => 0
  end.
Definition quota_total (key : QuotaKey) (actions : list FleetAction) : Z := sumZ (map (quota_bought key) actions).

Lemma quota_total_snoc key l a : quota_total key (l ++ [a]) = quota_total key l + quota_bought key a.
Proof. unfold quota_total. rewrite map_app, sumZ_app. simpl. lia. Qed.

(** Purchases fit what the snapshot's hosts leave of each quota. *)
Record quotas_kept (s : FleetSnapshot) (used0 : gmap QuotaKey Z) (ps : pass) : Prop := {
  qk_used key : default 0 (used0 !! key) + quota_total key (ps_actions ps) <= default 0 (ps_quotaUsed ps !! key);
  qk_limit key v : quotaRoom (Quotas (s_Offers s)) used0 !! key = Some v -> quota_total key (ps_actions ps) <= Z.max 0 v }.

Lemma quotas_kept_same s used0 ps ps' l :
  quotas_kept s used0 ps -> ps_actions ps' = ps_actions ps ++ l -> Forall (fun a => a_Offer a = None) l ->
  (forall key, default 0 (ps_quotaUsed ps !! key) <= default 0 (ps_quotaUsed ps' !! key)) -> quotas_kept s used0 ps'.
Proof.
  intros [H1 H2] E Hl Hu. assert (Ht : forall key, quota_total key (ps_actions ps') = quota_total key (ps_actions ps)).
  { intros key. rewrite E. unfold quota_total. rewrite map_app, sumZ_app. assert (sumZ (map (quota_bought key) l) = 0); [|lia].
    clear E. induction Hl as [|a l Ha Hl IH]; [done|]. simpl. unfold quota_bought at 1. rewrite Ha. destruct (a_Kind a); simpl; lia. }
  split; intros key; rewrite Ht; [|auto]. specialize (H1 key). specialize (Hu key). lia.
Qed.

Lemma quotas_kept_buy s used0 ps m o kind reason holds cs rep :
  quotas_kept s used0 ps -> counts_quota s o ->
  (kind <> ActionRightsize -> forall v, quotaRoom (Quotas (s_Offers s)) (ps_quotaUsed ps) !! o_Quota o = Some v -> VCPUs (o_Type o) <= v) ->
  quotas_kept s used0 (snd (buy s m o kind reason holds cs rep ps)).
Proof.
  intros [H1 H2] Ho Hq. split; intros key; rewrite buy_actions, ?buy_quotaUsed, quota_total_snoc by done.
  - specialize (H1 key). destruct Ho as [_ Hv]. unfold quota_bought, buy_action. simpl.
    destruct (decide (o_Quota o = key)) as [<-|Hne].
    + rewrite lookup_insert_eq, bool_decide_true by done. simpl. destruct kind; lia.
    + rewrite lookup_insert_ne, bool_decide_false by done. destruct kind; lia.
  - intros v Hv. specialize (H1 key). specialize (H2 key v Hv). unfold quota_bought, buy_action. simpl.
    destruct (decide (o_Quota o = key)) as [<-|Hne]; [|rewrite bool_decide_false by done; destruct kind; lia].
    rewrite bool_decide_true by done.
    assert (Hb : kind <> ActionRightsize -> quota_total (o_Quota o) (ps_actions ps) + VCPUs (o_Type o) <= v).
    { intros Hk. apply (quotaRoom_moves _ _ (ps_quotaUsed ps)) in Hv. specialize (Hq Hk _ Hv). lia. }
    destruct kind; try (specialize (Hb ltac:(done))); lia.
Qed.

(** Catalog types count no negative number of vCPUs. *)
Definition vcpus_nonneg (s : FleetSnapshot) : Prop := forall t, In t (Catalog (s_Offers s)) -> 0 <= VCPUs t.

Lemma typeOf_nonneg s name : vcpus_nonneg s -> 0 <= VCPUs (typeOf s name).
Proof.
  intros H. unfold typeOf, typeNamed. destruct (List.find _ _) as [t|] eqn:E; [|done]. simpl. apply H. by apply find_some in E as [E _].
Qed.

Lemma quotas_kept_step p s used0 ps ps' : vcpus_nonneg s -> quotas_kept s used0 ps -> step p s ps ps' -> quotas_kept s used0 ps'.
Proof.
  intros Hn H Hst. destruct Hst as
    [ps ps' Hq|ps i back a Hi Hk Hc|ps ws Hw Hws Hnone|ps it b Hl Hb|ps k f Hl Hf|ps m o kind reason holds cs rep Hg|ps m i reason cs Hi Hr Hp Hrf Hfr
    |ps v i Hg|ps reason m i Hi Hr Hns].
  - eapply (quotas_kept_same _ _ _ _ []); [exact H|rewrite app_nil_r; apply Hq|constructor|]. intros key. by rewrite (q_quotaUsed _ _ Hq).
  - destruct H as [H1 H2]. simpl in Hk.
    assert (Hz : forall key, quota_bought key a = 0) by (intros key; unfold quota_bought; by destruct Hk as [<-|[<-|[]]]).
    split; intros key; autorewrite with pass; rewrite quota_total_snoc, Hz, Z.add_0_r; [apply H1|apply H2].
  - by eapply (quotas_kept_same _ _ _ _ []); [exact H|by rewrite app_nil_r|constructor|].
  - by eapply (quotas_kept_same _ _ _ _ []); [exact H|by rewrite app_nil_r|constructor|].
  - by eapply (quotas_kept_same _ _ _ _ []); [exact H|by rewrite app_nil_r|constructor|].
  - by apply quotas_kept_buy; [|apply Hg..].
  - eapply (quotas_kept_same _ _ _ _ [_]); [exact H|by autorewrite with pass|by repeat constructor|].
    intros key. rewrite resume_quotaUsed. destruct (_ == FleetStopping); [done|]. unfold quotaOf.
    pose proof (typeOf_nonneg s (h_InstanceType (host ps i)) Hn).
    match goal with |- context [<[?k := _]> _] => destruct (decide (k = key)) as [<-|Hne] end.
    + rewrite lookup_insert_eq. simpl. lia.
    + by rewrite lookup_insert_ne.
  - destruct (leave_act s v i ps) as (a & f & n & Hk & ->).
    eapply (quotas_kept_same _ _ _ _ [a]); [exact H|by autorewrite with pass|constructor; [by destruct Hk|constructor]|].
    intros key. by autorewrite with pass.
  - eapply (quotas_kept_same _ _ _ _ [_]); [exact H|by autorewrite with pass|by repeat constructor|]. intros key. by autorewrite with pass.
Qed.
