(* ===== verification/Simulation.v ===== *)
(** Every stage of a planning pass is a sequence of the steps of [Steps.v],
    so what those steps keep holds of the plan [PlanFleet] makes. *)

From S2P Require Import Prelude Capacity Catalog Billing Policy Placement Offers Cover Fleet Pass Demand Purchase Keep Plan Steps.

(** What a planner's snapshot satisfies: host ids and pending container ids
    are distinct, a stopped or stopping reserve was launched, and pending
    containers ask for no negative resources. *)
Class snapshot_ok (s : FleetSnapshot) : Prop := {
  sn_hosts : NoDup (map h_ID (s_Hosts s));
  sn_pending : NoDup (pending_ids s);
  sn_launched : forall h, In h (s_Hosts s) -> asleep h = true -> h_Requested h = false;
  sn_shapes : forall g, In g (s_Pending s) -> cap_nonneg (reservedShape (dg_Need g));
  sn_types : NoDup (map t_Name (Catalog (s_Offers s)));
  sn_vcpus : vcpus_nonneg s }.

Section Simulation.
Context (p : Policy) (s : FleetSnapshot) {Hs : snapshot_ok s}.

Local Abbreviation steps := (Steps.steps p s).

(** ** States between stages *)

Definition pended (ps : pass) : Prop := map w_Container (ps_waits ps) = pending_ids s.

(** What holds between any two steps. *)
Record good (ps : pass) : Prop := { gd_departures : departures s ps; gd_naming : naming s ps }.

Lemma good_step ps ps' : good ps -> step p s ps ps' -> good ps'.
Proof. intros [H1 H2] Hst. split; [eapply departures_step; eauto; apply Hs|eapply naming_step; eauto]. Qed.

Lemma good_steps ps ps' : steps ps ps' -> good ps -> good ps'.
Proof. apply steps_inv. apply good_step. Qed.

Lemma good_hosts ps : good ps -> hosts_from s ps.
Proof. intros [[H _ _] _]. exact H. Qed.

Lemma pended_step ps ps' : pended ps -> step p s ps ps' -> pended ps'.
Proof.
  unfold pended. intros H Hst. destruct Hst as
    [ps ps' Hq|ps i back a Hi Hk Hc|ps ws Hw Hws Hnone|ps it b Hl Hb|ps k f Hl Hf|ps m o kind reason holds cs rep Hg|ps m i reason cs Hi Hr Hp Hrf Hfr
    |ps v i Hg|ps reason m i Hi Hr Hn]; autorewrite with pass; try done.
  - by rewrite (q_waits _ _ Hq).
  - rewrite <- H. simpl. apply list_eq. intros j. rewrite !list_lookup_fmap.
    destruct (decide (k = j)) as [->|]; [|by rewrite list_lookup_alter_ne].
    rewrite list_lookup_alter_eq. destruct (ps_waits ps !! j) as [w|] eqn:E; [|done]. simpl. f_equal. by apply Hf.
  - destruct (leave_act s v i ps) as (a & f & n & Hk & ->). by autorewrite with pass.
Qed.

Lemma hosts_length ps : good ps -> length (ps_hosts ps) = length (s_Hosts s).
Proof. intros H%good_hosts. symmetry. by eapply Forall2_length. Qed.

(** ** Steps before any host leaves *)

Definition calm (ps ps' : pass) : Prop := steps ps ps' /\ (no_leaves ps -> no_leaves ps') /\ (pended ps -> pended ps').

Lemma calm_refl ps : calm ps ps.
Proof. split; [apply steps_refl|done]. Qed.

Lemma calm_trans ps1 ps2 ps3 : calm ps1 ps2 -> calm ps2 ps3 -> calm ps1 ps3.
Proof. intros (H1 & H2 & H3) (H4 & H5 & H6). split; [by eapply steps_trans|auto]. Qed.

Lemma calm_one ps ps' l :
  step p s ps ps' -> ps_actions ps' = ps_actions ps ++ l -> Forall (fun a => leaves (a_Kind a) = false) l -> calm ps ps'.
Proof.
  intros H E Hl. split; [by apply steps_one|]. split; [|intros; by eapply pended_step].
  unfold no_leaves. rewrite E. intros. by apply Forall_app.
Qed.

Lemma calm_quiet ps ps' : quiet ps ps' -> calm ps ps'.
Proof. intros H. apply (calm_one _ _ []); [by apply step_quiet|by rewrite app_nil_r, (q_actions _ _ H)|constructor]. Qed.

Lemma calm_good ps ps' : calm ps ps' -> good ps -> good ps'.
Proof. intros [H _]. by apply good_steps. Qed.

(** The state of the demand stages. *)
Record open (ps : pass) : Prop := { op_good : good ps; op_leaves : no_leaves ps; op_pended : pended ps }.

Lemma open_calm ps ps' : open ps -> calm ps ps' -> open ps'.
Proof. intros [H1 H2 H3] (H4 & H5 & H6). split; [by eapply good_steps|auto..]. Qed.

(** An item's wait is its container's. *)
Definition item_ok (it : coverItem) : Prop :=
  pending_ids s !! it_wait it = Some (it_id it) /\ cap_nonneg (reservedShape (it_need it)).

Lemma item_wait ps it : pended ps -> item_ok it -> exists w, ps_waits ps !! it_wait it = Some w /\ w_Container w = it_id it.
Proof.
  intros Hp [Hi _]. unfold pended in Hp. rewrite <- Hp, list_lookup_fmap in Hi.
  destruct (ps_waits ps !! it_wait it) as [w|]; [|done]. simpl in Hi. injection Hi as Hi. eauto.
Qed.

(** Changing one wait: the container keeps its id. *)
Lemma calm_note ps it f :
  open ps -> item_ok it ->
  (forall w, w_Container w = it_id it -> wait_action_ok ps w -> wait_host_ok ps w ->
     w_Container (f w) = w_Container w /\ wait_action_ok ps (f w) /\ wait_host_ok ps (f w)) ->
  calm ps (set_waits (alter f (it_wait it) (ps_waits ps)) ps).
Proof.
  intros [[H1 H2] Hl Hp] Hi Hf. apply (calm_one _ _ []); [|by rewrite app_nil_r|constructor].
  apply step_note; [done|]. intros w Hw. destruct (item_wait ps it Hp Hi) as (w' & Hw' & Hc). simplify_eq.
  apply Hf; [done| |].
  - destruct H2 as [_ _ _ H2]. by eapply Forall_lookup_1.
  - destruct H1 as [_ H1 _]. by eapply Forall_lookup_1.
Qed.

Lemma calm_provisioning ps it h action :
  open ps -> item_ok it -> (forall id, h = Some id -> awaited ps id) ->
  (forall n, action = Some n -> exists a, ps_actions ps !! n = Some a /\ a_Kind a = ActionBuy /\ In (it_id it) (a_Containers a)) ->
  calm ps (provisioning it h action ps).
Proof.
  intros Ho Hi Hh Ha. apply calm_note; [done..|]. intros w Hw _ _. split; [done|]. split.
  - intros n Hn. simpl in *. split; [done|]. rewrite Hw. auto.
  - intros id Hid. simpl in *. auto.
Qed.

Lemma calm_claim ps it b : open ps -> (b_host b < length (ps_hosts ps))%nat -> calm ps (claim it b ps).
Proof. intros [_ Hl _] Hb. apply (calm_one _ _ []); [by apply step_claim|by rewrite app_nil_r|constructor]. Qed.

(** A loop of calm steps. *)
Lemma fold_calm {A} (f : pass -> A -> pass) l ps :
  (forall ps' x, In x l -> calm ps ps' -> calm ps' (f ps' x)) -> calm ps (fold_left f l ps).
Proof.
  intros Hf. apply (fold_left_inv (calm ps)); [apply calm_refl|]. intros ps' x Hx Hc. eapply calm_trans; [exact Hc|auto].
Qed.

(** ** Handing back *)

Lemma handBack_steps ps :
  good ps -> calm ps (handBack p s ps) /\ bought_ids (handBack p s ps) = bought_ids ps.
Proof.
  intros Hg. unfold handBack.
  apply (fold_left_inv (fun ps' => calm ps ps' /\ bought_ids ps' = bought_ids ps)); [split; [apply calm_refl|done]|].
  intros ps' i Hi [Hc Hb]. assert (Hl : (i < length (ps_hosts ps'))%nat).
  { rewrite hosts_length by (by eapply calm_good). rewrite <- (hosts_length ps Hg). apply in_seq in Hi. lia. }
  unfold handBack_one. destruct (_ || _); [done|]. destruct (Bool.eqb _ _); [done|].
  match goal with |- context [if ?b then host_action ActionHandBack _ _ _ _ else _] => set (back := b) end.
  match goal with |- context [act ?a _] => set (act0 := a) end.
  assert (Ha : In (a_Kind act0) [ActionHandBack; ActionLend] /\ a_Containers act0 = [] /\ a_Host act0 = Some (h_ID (host ps' i)))
    by (unfold act0; destruct back; simpl; auto).
  destruct Ha as (Ha & Hcs & Hh). split.
  - eapply calm_trans; [exact Hc|]. apply (calm_one _ _ [act0]); [by apply step_back|by autorewrite with pass|].
    constructor; [|constructor]. simpl in Ha. by destruct Ha as [<-|[<-|[]]].
  - unfold bought_ids in *. autorewrite with pass. rewrite flat_map_app. simpl. by rewrite Hcs, !app_nil_r.
Qed.

(** ** Pending items *)

(** The containers of the snapshot, each with its group's need. *)
Lemma pending_flat ps :
  pending_ids s = map (fun '((_, _, c) : Requirement * ReserveMarket * PendingContainer) => pd_ID c)
    (flat_map (fun g => map (fun c => (dg_Need g, demandMarket p s ps (dg_Need g), c)) (dg_Containers g)) (s_Pending s)).
Proof.
  unfold pending_ids. induction (s_Pending s) as [|g l IH]; simpl; [done|]. by rewrite map_app, map_map, IH.
Qed.

Lemma raw_ids ps : map it_id (raw_items p s ps) = pending_ids s.
Proof.
  rewrite (pending_flat ps). unfold raw_items. apply list_eq. intros i. rewrite !list_lookup_fmap, list_lookup_imap.
  destruct (_ !! i) as [[[need m] c]|]; done.
Qed.

Lemma raw_item_ok ps it : In it (raw_items p s ps) -> item_ok it.
Proof.
  intros (n & Hn)%list_elem_of_In%list_elem_of_lookup. unfold item_ok.
  assert (Hid : pending_ids s !! n = Some (it_id it)) by (by rewrite <- (raw_ids ps), list_lookup_fmap, Hn).
  unfold raw_items in Hn. rewrite list_lookup_imap in Hn. destruct (_ !! n) as [[[need m] c]|] eqn:E; [|done].
  simpl in Hn. injection Hn as <-. split; [done|]. simpl.
  apply list_elem_of_lookup_2, list_elem_of_In, in_flat_map in E as (g & Hg & Hc). apply in_map_iff in Hc as (c' & Ec & _).
  injection Ec as <- _ _. by apply sn_shapes.
Qed.

Lemma pendingItems_steps ps items ps' :
  good ps -> no_leaves ps -> ps_waits ps = [] -> pendingItems p s ps = (items, ps') ->
  open ps' /\ steps ps ps' /\ Permutation (map it_id items) (pending_ids s) /\ Forall item_ok items /\
  bought_ids ps' = bought_ids ps.
Proof.
  intros Hg Hl Hw E. injection E as <- <-. rewrite Hw. simpl.
  assert (Hc : map w_Container (map (fun it => mkWait (it_id it) None None None) (raw_items p s ps)) = pending_ids s)
    by (by rewrite map_map, raw_ids).
  assert (Hst : step p s ps (set_waits (map (fun it => mkWait (it_id it) None None None) (raw_items p s ps)) ps)).
  { apply step_pend; [done..|]. apply Forall_map, Forall_true. done. }
  split; [split; [by eapply good_step|done|done]|]. split; [by apply steps_one|]. split; [|split; [|done]].
  - rewrite <- (raw_ids ps). apply Permutation_map, sort_by_perm.
  - apply List.Forall_forall. intros it Hit. rewrite sort_by_In in Hit. by eapply raw_item_ok.
Qed.

Lemma targets_steps items ps ms ps' : targets p s items ps = (ms, ps') -> quiet ps ps'.
Proof.
  intros E. injection E as _ <-. apply (fold_left_inv (quiet ps)); [by split|]. intros ps' m _ []. by split.
Qed.

(** ** The cover over running hosts *)

Definition bins_ok (bins : list bin) : Prop := Forall (fun b => (b_host b < length (s_Hosts s))%nat) bins.

Record run_ok (ps : pass) (st : cover_run) : Prop := {
  ro_open : open (cv_ps st);
  ro_calm : calm ps (cv_ps st);
  ro_actions : ps_actions (cv_ps st) = ps_actions ps;
  ro_ready : bins_ok (cv_ready st);
  ro_coming : bins_ok (cv_coming st) }.

Lemma bin_host ps bins i b : good ps -> bins_ok bins -> bins !! i = Some b -> (b_host b < length (ps_hosts ps))%nat.
Proof. intros Hg Hb Hi. rewrite hosts_length by done. unfold bins_ok in Hb. rewrite Forall_lookup in Hb. exact (Hb i b Hi). Qed.

Lemma reserve_bin_ok ps need i bins rooms bins' rooms' :
  bins_ok bins -> reserve_bin ps need i bins rooms = (bins', rooms') -> bins_ok bins'.
Proof.
  unfold reserve_bin. intros Hb E. destruct (bins !! i) as [b|] eqn:Hi; injection E as <- <-; [|done].
  apply Forall_insert; [done|]. unfold bins_ok in Hb. rewrite Forall_lookup in Hb. exact (Hb i b Hi).
Qed.

Lemma claim_awaited ps it b : (b_host b < length (ps_hosts ps))%nat -> awaited (claim it b ps) (h_ID (host ps (b_host b))).
Proof.
  intros Hb. left. unfold claim. simpl.
  assert (h_ID (host (update_host (b_host b) (add_Load (reservedShape (it_need it))) ps) (b_host b)) = h_ID (host ps (b_host b))) as ->;
    [|set_solver].
  unfold host, update_host. simpl. rewrite list_lookup_alter_eq. by destruct (ps_hosts ps !! b_host b).
Qed.

Lemma take_ready_ok ps st it i record :
  run_ok ps st -> item_ok it ->
  (forall b ps', cv_ready st !! i = Some b -> ps' = claim it b (cv_ps st) -> open ps' ->
     calm ps' (record b ps') /\ ps_actions (record b ps') = ps_actions ps') ->
  run_ok ps (take_ready st it i record).
Proof.
  intros [H1 H2 H3 H4 H5] Hit Hrec. unfold take_ready. destruct (cv_ready st !! i) as [b|] eqn:Hi; [|by split].
  destruct (reserve_bin _ _ _ _ _) as [bins rooms] eqn:E.
  assert (Hb : (b_host b < length (ps_hosts (cv_ps st)))%nat) by (eapply bin_host; [apply H1|exact H4|exact Hi]).
  assert (Hc : calm (cv_ps st) (claim it b (cv_ps st))) by (by apply calm_claim).
  assert (Ho : open (claim it b (cv_ps st))) by (by eapply open_calm).
  destruct (Hrec b _ eq_refl eq_refl Ho) as [Hr1 Hr2].
  split; simpl; [by eapply open_calm|do 2 (eapply calm_trans; [eassumption|]); done|by rewrite Hr2|exact (reserve_bin_ok _ _ _ _ _ _ _ H4 E)|done].
Qed.

Lemma take_coming_ok ps st it need i : run_ok ps st -> item_ok it -> run_ok ps (take_coming st it need i).
Proof.
  intros [H1 H2 H3 H4 H5] Hit. unfold take_coming. destruct (cv_coming st !! i) as [b|] eqn:Hi; [|by split].
  destruct (reserve_bin _ _ _ _ _) as [bins rooms] eqn:E.
  assert (Hb : (b_host b < length (ps_hosts (cv_ps st)))%nat) by (eapply bin_host; [apply H1|exact H5|exact Hi]).
  assert (Hc : calm (cv_ps st) (claim it b (cv_ps st))) by (by apply calm_claim).
  assert (Ho : open (claim it b (cv_ps st))) by (by eapply open_calm).
  assert (Hp : calm (claim it b (cv_ps st)) (provisioning it (Some (h_ID (host (cv_ps st) (b_host b)))) None (claim it b (cv_ps st)))).
  { apply calm_provisioning; [done..| |done]. intros id [= <-]. by apply claim_awaited. }
  split; simpl; [by eapply open_calm|do 2 (eapply calm_trans; [eassumption|]); done|done|done|exact (reserve_bin_ok _ _ _ _ _ _ _ H5 E)].
Qed.

Lemma bought_bin_host ps it bins rooms i :
  boughtBin ps it bins rooms = Some i -> exists b, bins !! i = Some b /\ it_bought it = Some (h_ID (host ps (b_host b))).
Proof.
  unfold boughtBin. destruct (it_bought it) as [id|]; [|done]. destruct (index_func _ bins) as [j|] eqn:E; [|done].
  destruct (rooms !! j) as [r|]; [|done]. destruct (Fits r (it_need it)); [|done]. intros [= <-].
  apply index_func_Some in E as (b & Hb & E%Z.eqb_eq). exists b. by rewrite E.
Qed.

Lemma cover_one_ok floor ps st it : run_ok ps st -> item_ok it -> run_ok ps (cover_one p s floor st it).
Proof.
  intros Hr Hit. unfold cover_one. destruct (_ || _); [done|].
  destruct (boughtBin _ _ _ _) as [i|] eqn:Eb.
  { apply take_ready_ok; [done..|]. intros b ps' Hi -> Ho. split; [|done]. apply calm_note; [done..|].
    intros w Hw Ha Hh. split; [done|]. split; [done|]. intros id Hid. simpl in Hid.
    apply bought_bin_host in Eb as (b' & Hb' & E). assert (b' = b) as -> by congruence.
    rewrite E in Hid. injection Hid as <-.
    apply claim_awaited. eapply bin_host; [apply Hr|apply Hr|exact Hi]. }
  destruct (ChooseHost _ _ _) as [i|]; [apply take_ready_ok; [done..|]; intros; split; [apply calm_refl|done]|].
  destruct (bought_coming st it) as [i|]; [by apply take_coming_ok|].
  destruct (bought_updating st it) as [i|] eqn:Eu.
  { destruct (cv_ready st !! i) as [b|] eqn:Hi; [|done]. destruct Hr as [H1 H2 H3 H4 H5].
    assert (Hp : calm (cv_ps st) (provisioning it (Some (h_ID (host (cv_ps st) (b_host b)))) None (cv_ps st))).
    { apply calm_provisioning; [done..| |done]. intros id [= <-]. right. unfold bought_updating in Eu.
      destruct (it_bought it) as [id|]; [|done]. apply index_func_Some in Eu as (b' & Hb' & Hu).
      assert (b' = b) as -> by congruence. bools.
      exists (host (cv_ps st) (b_host b)). split; [|auto]. eapply list_elem_of_In, list_elem_of_lookup. exists (b_host b).
      destruct (host_lookup s (cv_ps st) (b_host b)) as (h0 & _ & Hh & _); [apply good_hosts, H1| |done].
      eapply bin_host; [apply H1|exact H4|exact Hi]. }
    split; simpl; [by eapply open_calm|by eapply calm_trans|done..]. }
  destruct (comingFor _ _ _ _ _ _) as [i|]; [by apply take_coming_ok|]. by destruct Hr.
Qed.

(** A container the running hosts do not take is left, in order. *)
Lemma cover_one_left floor st it : cv_left (cover_one p s floor st it) = cv_left st \/ cv_left (cover_one p s floor st it) = cv_left st ++ [it].
Proof.
  unfold cover_one, take_ready, take_coming. repeat case_match; simpl; auto.
Qed.

Lemma cover_fold floor ps items st :
  run_ok ps st -> Forall item_ok items ->
  run_ok ps (fold_left (cover_one p s floor) items st) /\
  exists l, cv_left (fold_left (cover_one p s floor) items st) = cv_left st ++ l /\ sublist l items.
Proof.
  revert st. induction items as [|it items IH]; intros st Hr Hit; simpl.
  { split; [done|]. exists []. by rewrite app_nil_r. }
  inversion_clear Hit as [|?? Hi Hit']. destruct (IH (cover_one p s floor st it)) as [H1 (l & H2 & H3)]; [by apply cover_one_ok|done|].
  split; [done|]. rewrite H2. destruct (cover_one_left floor st it) as [->| ->]; [exists l; split; [done|by constructor]|].
  exists (it :: l). rewrite <- app_assoc. split; [done|by constructor].
Qed.

Lemma bins_of_ok ps keep : good ps -> bins_ok (bins_of ps keep).
Proof.
  intros Hg. apply List.Forall_forall. intros b (i & <- & Hi)%in_map_iff. apply List.filter_In in Hi as [Hi%in_seq _].
  simpl. rewrite <- (hosts_length ps Hg). lia.
Qed.

Lemma cover_running_steps items ps left_items ps' :
  open ps -> Forall item_ok items -> cover_running p s items ps = (left_items, ps') ->
  open ps' /\ calm ps ps' /\ ps_actions ps' = ps_actions ps /\ sublist left_items items.
Proof.
  intros Ho Hit E. unfold cover_running in E. injection E as <- <-.
  match goal with |- context [fold_left (cover_one p s ?fl) items ?st] =>
    assert (Hst : run_ok ps st); [|destruct (cover_fold fl ps items st Hst Hit) as [[H1 H2 H3 _ _] (l & -> & Hl)]] end.
  { split; simpl; [done|apply calm_refl|done|apply bins_of_ok, Ho..]. }
  match goal with |- open ?q /\ _ => match type of H1 with open ?q' => assert (Hq : calm q' q) by (by apply calm_quiet; split) end end.
  split; [by eapply open_calm|]. split; [by eapply calm_trans|done].
Qed.

(** ** Items no action names yet *)

Record unbought (ps : pass) (items : list coverItem) : Prop := {
  ub_once : NoDup (map it_id items);
  ub_ok : Forall item_ok items;
  ub_free it : In it items -> ~ In (it_id it) (bought_ids ps) }.

Lemma unbought_sublist ps items items' : sublist items' items -> unbought ps items -> unbought ps items'.
Proof.
  intros Hsub [H1 H2 H3]. split.
  - eapply sublist_NoDup; [exact H1|]. by apply sublist_map.
  - apply List.Forall_forall. intros it Hit. rewrite List.Forall_forall in H2. apply H2. by eapply sublist_In.
  - intros it Hit. apply H3. by eapply sublist_In.
Qed.

#[global] Instance unbought_proper ps : Proper (Permutation ==> iff) (unbought ps).
Proof.
  assert (Hp : forall l k, Permutation l k -> unbought ps l -> unbought ps k).
  { intros l k Hp [H1 H2 H3]. split.
    - by rewrite <- Hp.
    - by rewrite <- Hp.
    - intros it Hit. apply H3. by rewrite Hp. }
  intros l k Hlk. split; apply Hp; [done|by symmetry].
Qed.

Lemma item_pending it : item_ok it -> In (it_id it) (pending_ids s).
Proof. intros [Hi _]. apply list_elem_of_In. by eapply list_elem_of_lookup_2. Qed.

(** The ids of unbought items are fresh. *)
Lemma unbought_fresh ps items : unbought ps items -> fresh s ps (map it_id items).
Proof.
  intros [H1 H2 H3]. split; [done|]. intros c (it & <- & Hit)%in_map_iff. split; [|auto].
  apply item_pending. rewrite List.Forall_forall in H2. auto.
Qed.

(** Items stay unbought while actions name other containers. *)
Lemma unbought_app ps ps' taken rest :
  unbought ps (taken ++ rest) -> bought_ids ps' = bought_ids ps ++ map it_id taken -> unbought ps' rest.
Proof.
  intros [H1 H2 H3] E. rewrite map_app in H1. apply NoDup_app in H1 as (H4 & H5 & H6). apply Forall_app in H2 as [_ H2].
  split; [done..|]. intros it Hit. rewrite E. intros [Hin|Hin]%in_app_or.
  - apply (H3 it); [|done]. apply in_or_app. auto.
  - apply (H5 (it_id it)); apply list_elem_of_In; [done|]. apply in_map_iff. eauto.
Qed.

Lemma unbought_same ps ps' items : unbought ps items -> bought_ids ps' = bought_ids ps -> unbought ps' items.
Proof. intros H E. apply (unbought_app ps ps' [] items); [done|]. by rewrite app_nil_r. Qed.

End Simulation.
