(* ===== verification/BuySim.v ===== *)
(** Resumes and purchases for pending work are steps: the reserves resumed are
    ready ones, each container is named once, and a cover buys within the
    room the pass has left. *)

From S2P Require Import Prelude Capacity Catalog Billing Policy Placement Offers Cover Fleet Pass Demand Purchase Keep Plan Steps Simulation.

Section BuySim.
Context (p : Policy) (s : FleetSnapshot) {Hs : snapshot_ok s}.

Local Abbreviation calm := (Simulation.calm p s).
Local Abbreviation open := (Simulation.open s).
Local Abbreviation unbought := (Simulation.unbought s).

(** ** Resumes for work *)

Lemma ready_asleep ps h work :
  ready p s ps h work = true -> asleep h = true /\ h_Protected h = false /\ h_StartRefused h = false.
Proof.
  unfold ready, asleep. destruct (h_Protected h), (h_StartRefused h); simpl; try done.
  destruct (resumable h); [done|]. destruct (h_State h == FleetStopping); simpl; done.
Qed.

Lemma takes_of_sublist ps lends items r taken r' :
  takes_of p ps lends items r = (taken, r') -> sublist taken (seq 0 (length items)).
Proof.
  unfold takes_of. rewrite <- imap_pair_fst.
  assert (Hf : forall l acc r0, exists l', sublist l' (map fst l) /\
    fst (fold_left (fun '(taken, r) '((n, it) : nat * coverItem) =>
      if (room p ps (it_market it) <=? 0) || negb (Fits r (it_need it)) || (r_Preemptible (it_need it) && negb (lends (it_need it)))
      then (taken, r) else (taken ++ [n], hc_Reserve r (it_need it))) l (acc, r0)) = acc ++ l').
  { induction l as [|[n it] l IH]; intros acc r0; simpl; [exists []; by rewrite app_nil_r|].
    destruct (_ || _); [destruct (IH acc r0) as (l' & H1 & H2); exists l'; split; [by constructor|done]|].
    destruct (IH (acc ++ [n]) (hc_Reserve r0 (it_need it))) as (l' & H1 & H2). exists (n :: l').
    split; [by constructor|]. by rewrite H2, <- app_assoc. }
  intros E. destruct (Hf (imap pair items) [] r) as (l' & H1 & H2). rewrite E in H2. simpl in H2. by subst.
Qed.

Record choice_ok (ps : pass) (items : list coverItem) (c : reserve_choice) : Prop := {
  ch_host : (rc_host c < length (ps_hosts ps))%nat;
  ch_ready : ready p s ps (host ps (rc_host c)) true = true;
  ch_some : rc_taken c <> [];
  ch_sub : sublist (rc_taken c) (seq 0 (length items)) }.

Lemma choice_of_ok ps items i c : (i < length (ps_hosts ps))%nat -> choice_of p s ps items i = Some c -> choice_ok ps items c.
Proof.
  intros Hi. unfold choice_of. destruct (ready p s ps (host ps i) true) eqn:Er; [|done]. simpl.
  destruct (takes_of _ _ _ _ _) as [taken r] eqn:Et. apply takes_of_sublist in Et.
  destruct taken as [|n taken]; [done|]. intros [= <-]. by split.
Qed.

Lemma bestReserve_ok ps items c : bestReserve p s ps items = Some c -> choice_ok ps items c.
Proof.
  unfold bestReserve. revert c.
  apply (fold_left_inv (fun best => forall c, best = Some c -> choice_ok ps items c)); [done|].
  intros best i Hi Hb c. apply in_seq in Hi. unfold best_step. destruct (choice_of p s ps items i) as [c'|] eqn:Ec; [|auto].
  apply choice_of_ok in Ec; [|lia]. destruct best as [b|]; [destruct (is_lt _)|]; naive_solver.
Qed.

(** The containers taken and those left. *)
Lemma taken_ids (items : list coverItem) taken :
  NoDup (map it_id items) -> NoDup taken ->
  NoDup (omap (fun n => it_id <$> items !! n) taken).
Proof.
  intros Hn Ht. induction Ht as [|n taken Hn' Ht IH]; [constructor|]. simpl.
  destruct (items !! n) as [it|] eqn:Ei; simpl; [|done]. constructor; [|done].
  intros (n' & Hin & Hid)%list_elem_of_omap. apply Hn'.
  destruct (items !! n') as [it'|] eqn:Ei'; [|done]. injection Hid as Hid.
  assert (n = n') as ->; [|done]. eapply (NoDup_lookup (map it_id items)); [done| |].
  - by rewrite list_lookup_fmap, Ei.
  - rewrite list_lookup_fmap, Ei'. simpl. by rewrite Hid.
Qed.

Lemma picked_In taken (items : list coverItem) it : In it (picked taken items) <-> exists n, In n taken /\ items !! n = Some it.
Proof.
  unfold picked. rewrite in_map_iff. split.
  - intros ([n it'] & <- & [Hin Hn]%List.filter_In). bools. exists n. split; [by apply list_elem_of_In|by apply imap_pair_In].
  - intros (n & Hn & Hi). exists (n, it). split; [done|]. apply List.filter_In. split; [by apply imap_pair_In|].
    by apply bool_decide_eq_true, list_elem_of_In.
Qed.

Lemma unpicked_sublist taken items : sublist (unpicked taken items) items.
Proof. unfold unpicked. rewrite <- (imap_pair_snd items) at 2. apply sublist_map, sublist_List_filter. Qed.

Lemma unpicked_In taken items it : In it (unpicked taken items) -> exists n, ~ In n taken /\ items !! n = Some it.
Proof.
  unfold unpicked. intros ([n it'] & <- & [Hin Hn]%List.filter_In)%in_map_iff. bools.
  exists n. split; [by rewrite <- list_elem_of_In|by apply imap_pair_In].
Qed.

Lemma unpicked_shorter taken (items : list coverItem) : taken <> [] -> sublist taken (seq 0 (length items)) ->
  (length (unpicked taken items) < length items)%nat.
Proof.
  intros Hne Hsub. destruct taken as [|n taken]; [done|].
  assert (Hn : In n (seq 0 (length items))) by (eapply sublist_In; [exact Hsub|simpl; auto]).
  apply in_seq in Hn. destruct (lookup_lt_is_Some_2 items n) as [it Hit]; [lia|].
  unfold unpicked. rewrite length_map. rewrite <- (imap_pair_snd items) at 2. rewrite length_map.
  assert (Hin : In (n, it) (imap pair items)) by (by apply imap_pair_In).
  revert Hin. generalize (imap pair items). intros l. induction l as [|[k x] l IH]; [done|].
  intros [E|Hin]; simpl.
  - injection E as -> ->. rewrite bool_decide_true by (by constructor). simpl.
    pose proof (List.filter_length_le (fun '(n0, _) => negb (bool_decide (n0 ∈ n :: taken))) l). lia.
  - specialize (IH Hin). destruct (negb _); simpl; lia.
Qed.

Lemma resume_calm ps m i reason cs :
  (i < length (ps_hosts ps))%nat -> asleep (host ps i) = true -> h_Protected (host ps i) = false ->
  h_StartRefused (host ps i) = false -> fresh s ps cs -> calm ps (resume s m i reason cs ps).
Proof.
  intros Hi H1 H2 H3 Hf. eapply (calm_one _ _ _ _ [_]); [by apply step_resume|by autorewrite with pass|by repeat constructor].
Qed.

(** A host just resumed may be waited for. *)
Lemma resume_awaited ps m i reason cs :
  good s ps -> (i < length (ps_hosts ps))%nat -> asleep (host ps i) = true ->
  awaited (resume s m i reason cs ps) (h_ID (host ps i)).
Proof.
  intros Hg Hi Ha. right. destruct (host_lookup s ps i) as (h0 & Hh0 & Hh & Hf); [by apply good_hosts|done|].
  exists (set_State FleetStarting (host ps i)). autorewrite with pass. split; [|split; [done|right; split; [done|]]].
  - apply list_elem_of_In, list_elem_of_lookup. exists i. by rewrite list_lookup_alter_eq, Hh.
  - destruct Hf as (st & load & mode & back & E & _ & Hst). rewrite E in Ha |- *. simpl.
    apply sn_launched; [apply list_elem_of_In, list_elem_of_lookup; eauto|].
    destruct Hst as [->|Hst]; [done|]. by rewrite asleep_awake in Ha.
Qed.

(** Each container taken waits for the host. *)
Lemma provisioning_fold ps (l : list coverItem) h action :
  open ps -> Forall (item_ok s) l -> (forall id, h = Some id -> awaited ps id) ->
  (forall n, action = Some n -> exists a, ps_actions ps !! n = Some a /\ a_Kind a = ActionBuy /\
     forall it, In it l -> In (it_id it) (a_Containers a)) ->
  calm ps (fold_left (fun ps it => provisioning it h action ps) l ps) /\
  ps_actions (fold_left (fun ps it => provisioning it h action ps) l ps) = ps_actions ps /\
  ps_hostRoom (fold_left (fun ps it => provisioning it h action ps) l ps) = ps_hostRoom ps /\
  ps_used (fold_left (fun ps it => provisioning it h action ps) l ps) = ps_used ps /\
  ps_reserveRoom (fold_left (fun ps it => provisioning it h action ps) l ps) = ps_reserveRoom ps.
Proof.
  intros Ho Hl Hh Ha.
  set (q := fun ps' : pass => calm ps ps' /\ ps_hosts ps' = ps_hosts ps /\ ps_claimed ps' = ps_claimed ps /\ ps_actions ps' = ps_actions ps /\
    ps_hostRoom ps' = ps_hostRoom ps /\ ps_used ps' = ps_used ps /\ ps_reserveRoom ps' = ps_reserveRoom ps).
  assert (Hq : q (fold_left (fun ps it => provisioning it h action ps) l ps)); [|unfold q in Hq; tauto].
  apply fold_left_inv; [unfold q; split; [apply calm_refl|done]|].
  intros ps' it Hit (Hc & E1 & E2 & E3 & E4). split; [|done]. eapply calm_trans; [exact Hc|].
  rewrite List.Forall_forall in Hl. apply calm_provisioning; [by eapply open_calm|auto| |].
  - intros id Hid. unfold awaited. rewrite E1, E2. by apply Hh.
  - intros n Hn. rewrite E3. destruct (Ha n Hn) as (a & ? & ? & ?). eauto.
Qed.

Lemma resumeFor_loop_ok fuel items ps items' ps' :
  open ps -> unbought ps items -> resumeFor_loop p s fuel items ps = (items', ps') ->
  open ps' /\ calm ps ps' /\ unbought ps' items' /\ sublist items' items.
Proof.
  revert items ps. induction fuel as [|fuel IH]; intros items ps Ho Hu; simpl.
  { intros [= <- <-]. split; [done|]; split; [apply calm_refl|done]. }
  destruct (_ || _); [intros [= <- <-]; split; [done|]; split; [apply calm_refl|done]|].
  destruct (bestReserve p s ps items) as [c|] eqn:Eb; [|intros [= <- <-]; split; [done|]; split; [apply calm_refl|done]].
  apply bestReserve_ok in Eb as [Hc Hr Hne Hsub]. apply ready_asleep in Hr as (Ha & Hp & Hf).
  set (ids := omap (fun n => it_id <$> items !! n) (rc_taken c)).
  set (m := default (mkRM false "") (first_market items (rc_taken c))).
  assert (Hnt : NoDup (rc_taken c)) by (eapply sublist_NoDup; [apply NoDup_seq|exact Hsub]).
  assert (Hids : forall id, In id ids -> exists n it, In n (rc_taken c) /\ items !! n = Some it /\ it_id it = id).
  { intros id (n & Hn & Hid)%list_elem_of_In%list_elem_of_omap. destruct (items !! n) as [it|] eqn:Ei; [|done].
    injection Hid as <-. exists n, it. split; [by apply list_elem_of_In|done]. }
  assert (Hfresh : fresh s ps ids).
  { split; [by apply taken_ids; [apply Hu|]|]. intros id (n & it & _ & Hi & <-)%Hids.
    apply list_elem_of_lookup_2, list_elem_of_In in Hi. destruct Hu as [_ Hok Hfr]. rewrite List.Forall_forall in Hok.
    split; [by apply (item_pending s), Hok|by apply Hfr]. }
  set (ps1 := resume s m (rc_host c) ReasonWork ids ps).
  assert (C1 : calm ps ps1) by (by apply resume_calm).
  assert (Hpk : Forall (item_ok s) (picked (rc_taken c) items)).
  { apply List.Forall_forall. intros it (n & _ & Hi)%picked_In. destruct Hu as [_ Hok _]. by eapply Forall_lookup_1. }
  destruct (provisioning_fold ps1 (picked (rc_taken c) items) (Some (h_ID (host ps (rc_host c)))) None) as (C2 & E2 & _);
    [by eapply open_calm|done| |done|].
  { intros id [= <-]. apply resume_awaited; [apply Ho|done..]. }
  set (ps2 := fold_left _ _ ps1) in *. intros E.
  assert (Hu2 : unbought ps2 (unpicked (rc_taken c) items)).
  { destruct (unbought_sublist s ps _ _ (unpicked_sublist (rc_taken c) items) Hu) as [U1 U2 U3]. split; [done..|].
    intros it Hit. unfold bought_ids. rewrite E2. unfold ps1. autorewrite with pass. rewrite flat_map_app. simpl. rewrite app_nil_r.
    intros [Hin|Hin]%in_app_or; [by apply (U3 it)|]. apply Hids in Hin as (n & it' & Hn & Hi & Hid).
    apply unpicked_In in Hit as (n' & Hn' & Hi'). apply Hn'. replace n' with n; [done|].
    destruct Hu as [Hnd _ _]. eapply (NoDup_lookup (map it_id items)); [done| |]; rewrite list_lookup_fmap; [by rewrite Hi|].
    rewrite Hi'. simpl. by rewrite Hid. }
  destruct (IH _ _ (open_calm p s ps ps2 Ho (calm_trans p s _ _ _ C1 C2)) Hu2 E) as (R1 & R2 & R3 & R4).
  split; [done|]. split; [by eapply calm_trans; [|eapply calm_trans]|]. split; [done|]. etrans; [exact R4|apply unpicked_sublist].
Qed.

(** ** Classes *)

Definition class_items (c : demandClass) : list coverItem := flat_map g_items (c_groups c).

(** The containers of a group share its shape. *)
Record group_ok (g : itemGroup) : Prop := {
  gr_shape : cap_nonneg (g_shape g);
  gr_items : Forall (fun it => reservedShape (it_need it) = g_shape g) (g_items g) }.

Definition class_ok (c : demandClass) : Prop := Forall group_ok (c_groups c).

Lemma add_group_items groups it : Permutation (flat_map g_items (add_group groups it)) (it :: flat_map g_items groups).
Proof.
  unfold add_group. destruct (index_func _ groups) as [i|] eqn:E.
  - apply index_func_Some in E as (g & Hg & _).
    assert (Hp := flat_map_alter g_items (fun g => g_set_items (g_items g ++ [it]) g) groups i g Hg). simpl in Hp.
    apply (Permutation_app_inv_r (g_items g)). rewrite Hp. simpl. rewrite (Permutation_app_comm (g_items g)), app_assoc.
    rewrite (Permutation_app_comm (flat_map g_items groups)). done.
  - rewrite flat_map_app. simpl. by rewrite (Permutation_app_comm (flat_map g_items groups)).
Qed.

Lemma add_group_ok groups it : item_ok s it -> Forall group_ok groups -> Forall group_ok (add_group groups it).
Proof.
  intros [_ Hit] Hg. unfold add_group. destruct (index_func _ groups) as [i|] eqn:E.
  - apply Forall_alter; [done|]. intros g Hi [H1 H2]. split; [done|]. simpl. apply Forall_app. split; [done|].
    constructor; [|constructor]. apply index_func_Some in E as (g' & Hg' & Hs'). assert (g' = g) as -> by congruence. bools. done.
  - apply Forall_app. split; [done|]. constructor; [|constructor]. split; [done|]. by repeat constructor.
Qed.

Lemma add_class_items classes it : Permutation (flat_map class_items (add_class s classes it)) (it :: flat_map class_items classes).
Proof.
  unfold add_class. destruct (classKey s (it_need it)) as [need key]. destruct (index_func _ classes) as [i|] eqn:E.
  - apply index_func_Some in E as (c & Hc & _).
    assert (Hp := flat_map_alter class_items (fun c => c_set_groups (add_group (c_groups c) it) c) classes i c Hc).
    apply (Permutation_app_inv_r (class_items c)). rewrite Hp. unfold class_items at 2. simpl. rewrite add_group_items.
    by rewrite <- Permutation_middle.
  - rewrite flat_map_app. simpl. by rewrite (Permutation_app_comm (flat_map class_items classes)).
Qed.

Lemma classes_of_ok items :
  Forall (item_ok s) items -> Permutation (flat_map class_items (classes_of s items)) items /\ Forall class_ok (classes_of s items).
Proof.
  intros Hit. unfold classes_of.
  assert (Hf : forall l acc, Forall (item_ok s) l -> Forall class_ok acc ->
    Permutation (flat_map class_items (fold_left (add_class s) l acc)) (l ++ flat_map class_items acc) /\
    Forall class_ok (fold_left (add_class s) l acc)).
  { induction l as [|it l IH]; intros acc Hl Hacc; simpl; [done|]. inversion_clear Hl.
    destruct (IH (add_class s acc it)) as [H1 H2]; [done| |].
    - unfold add_class. destruct (classKey s (it_need it)) as [need key]. destruct (index_func _ acc) as [i|] eqn:E.
      + apply Forall_alter; [done|]. intros c _ Hc. by apply add_group_ok.
      + apply Forall_app. split; [done|]. constructor; [|constructor]. by apply (add_group_ok []).
    - split; [|done]. rewrite H1, add_class_items. by rewrite Permutation_middle. }
  destruct (Hf items [] Hit) as [H1 H2]; [constructor|]. rewrite app_nil_r in H1. done.
Qed.

(** ** What a node takes *)

(** The room [n] of each group's shape take. *)
Definition placed_shapes (shapes : list FleetCapacity) (l : list (nat * Z)) : FleetCapacity :=
  totalOf l (fun '(i, n) => Times (default cap0 (shapes !! i)) n).

Definition item_total (l : list coverItem) : FleetCapacity := totalOf l (fun it => reservedShape (it_need it)).

Lemma item_total_le g n : group_ok g -> 0 <= n -> item_total (take (Z.to_nat n) (g_items g)) ⊑c Times (g_shape g) n.
Proof.
  intros [Hs1 Hi] Hn. rewrite <- (Z2Nat.id n Hn) at 2. generalize (Z.to_nat n) as k. clear n Hn.
  induction Hi as [|it items E Hi IH]; intros [|k]; simpl take; unfold item_total in *.
  1-3: unfold totalOf; cap_lia.
  rewrite totalOf_cons, E. specialize (IH k). revert IH. generalize (totalOf (take k items) (fun it => reservedShape (it_need it))).
  intros c. cap_lia.
Qed.

Lemma take_placed_ok at_ placed groups taken groups' :
  take_placed at_ placed groups = (taken, groups') -> Forall group_ok groups -> Forall (fun n => 0 <= n) placed ->
  Permutation (taken ++ flat_map g_items groups') (flat_map g_items groups) /\ Forall group_ok groups' /\
  map g_shape groups' = map g_shape groups /\ item_total taken ⊑c placed_shapes (map g_shape groups) (zip at_ placed).
Proof.
  unfold take_placed. intros E Hg Hp.
  assert (Hz : Forall (fun '(_, n) => 0 <= n) (zip at_ placed)).
  { apply List.Forall_forall. intros [i n] Hin%in_combine_r. rewrite List.Forall_forall in Hp. auto. }
  set (F := fun '((taken, groups) : list coverItem * list itemGroup) '((i, n) : nat * Z) =>
    match groups !! i with
    | None => (taken, groups)
    | Some g => (taken ++ take (Z.to_nat n) (g_items g), <[i := g_set_items (drop (Z.to_nat n) (g_items g)) g]> groups)
    end) in *.
  assert (Hf : forall l acc groups taken groups', Forall (fun '(_, n) => 0 <= n) l -> Forall group_ok groups ->
    fold_left F l (acc, groups) = (taken, groups') -> exists new, taken = acc ++ new /\
      Permutation (new ++ flat_map g_items groups') (flat_map g_items groups) /\ Forall group_ok groups' /\
      map g_shape groups' = map g_shape groups /\ item_total new ⊑c placed_shapes (map g_shape groups) l).
  { clear. induction l as [|[i n] l IH]; intros acc groups taken groups' Hl Hg E; simpl in E.
    { injection E as <- <-. exists []. rewrite app_nil_r. do 4 (split; [done|]). unfold item_total, placed_shapes, totalOf. cap_lia. }
    inversion_clear Hl as [|?? Hn Hl']. unfold placed_shapes. rewrite totalOf_cons, list_lookup_fmap.
    destruct (groups !! i) as [g|] eqn:Ei; simpl.
    - assert (Hgi : group_ok g) by (rewrite Forall_lookup in Hg; by eapply Hg).
      destruct (IH _ _ _ _ Hl' (Forall_insert _ _ i (g_set_items (drop (Z.to_nat n) (g_items g)) g) Hg
        (Build_group_ok (g_set_items _ g) (gr_shape g Hgi) (Forall_drop _ _ _ (gr_items g Hgi)))) E) as (new & -> & H1 & H2 & H3 & H4).
      assert (Hsh : map g_shape (<[i:=g_set_items (drop (Z.to_nat n) (g_items g)) g]> groups) = map g_shape groups).
      { rewrite (list_fmap_insert g_shape groups). apply list_insert_id. by rewrite list_lookup_fmap, Ei. }
      exists (take (Z.to_nat n) (g_items g) ++ new). rewrite <- app_assoc. split; [done|]. split; [|split; [done|split; [congruence|]]].
      + rewrite <- app_assoc, H1.
        assert (Hp := flat_map_insert g_items groups i g (g_set_items (drop (Z.to_nat n) (g_items g)) g) Ei). simpl in Hp.
        apply (Permutation_app_inv_r (drop (Z.to_nat n) (g_items g))). rewrite <- Hp.
        rewrite (Permutation_app_comm (take _ _)), <- app_assoc. by rewrite take_drop.
      + rewrite Hsh in H4. unfold item_total in *. rewrite totalOf_app. pose proof (item_total_le g n Hgi Hn) as Hle.
        unfold item_total, placed_shapes in *. cap_lia.
    - destruct (IH _ _ _ _ Hl' Hg E) as (new & -> & H1 & H2 & H3 & H4). exists new. do 4 (split; [done|]).
      unfold placed_shapes in H4. cap_lia. }
  destruct (Hf _ _ _ _ _ Hz Hg E) as (new & -> & H1 & H2 & H3 & H4). done.
Qed.

(** ** Covers *)

Lemma classNeed_shape need : cap_nonneg (need_shape (classNeed s need)).
Proof. unfold need_shape, GPUsNeeded, classNeed. simpl. destruct (bool_decide _); cap_lia. Qed.

Lemma rank_nonneg need reserve i o : cap_nonneg (need_shape need) -> In o (RankOffers p need reserve i) -> cap_nonneg (o_Usable o).
Proof. intros Hn Ho%RankOffers_holds. unfold cap_nonneg in *. by etrans. Qed.

(** An offer whose room is not negative and that counts against its own
    quota. *)
Definition offers_ok (offers : list FleetOffer) : Prop := Forall (fun o => cap_nonneg (o_Usable o) /\ counts_quota s o) offers.

Lemma offers_ok_nonneg offers : offers_ok offers -> Forall (fun o => cap_nonneg (o_Usable o)) offers.
Proof. intros H. eapply Forall_impl; [exact H|]. by intros o []. Qed.

(** A catalog type is the one its name finds. *)
Lemma typeOf_In t : In t (Catalog (s_Offers s)) -> typeOf s (t_Name t) = t.
Proof.
  intros Ht. unfold typeOf, typeNamed. destruct (List.find _ _) as [t'|] eqn:E.
  - apply find_some in E as [Ht' E]. bools. simpl.
    apply list_elem_of_In, list_elem_of_lookup in Ht as [i Hi], Ht' as [j Hj].
    assert (i = j) as <-; [|congruence]. apply (NoDup_lookup (t_Name <$> Catalog (s_Offers s)) i j (t_Name t)); [apply sn_types|..].
    + by rewrite list_lookup_fmap, Hi.
    + rewrite list_lookup_fmap, Hj. simpl. by f_equal.
  - exfalso. apply (find_none _ _ E) in Ht. by rewrite bool_decide_true in Ht.
Qed.

Lemma rank_counts need reserve i o :
  Catalog i = Catalog (s_Offers s) -> In o (RankOffers p need reserve i) -> counts_quota s o.
Proof.
  intros Ei (region & net & subnet & t & market & _ & _ & Ht & _ & _ & _ & _ & Ho)%RankOffers_In. rewrite Ei in Ht.
  apply offer_at_Some in Ho as (E1 & E2 & _ & _ & E3 & _ & E4 & _). subst. split; [|by apply sn_vcpus].
  unfold quotaOf. by rewrite typeOf_In, E4.
Qed.

Lemma offers_ok_delete del offers : offers_ok offers -> offers_ok (delete_func del offers).
Proof.
  unfold offers_ok. rewrite !List.Forall_forall. intros H o [Ho _]%delete_func_In. auto.
Qed.

Lemma offers_ok_rank need reserve i :
  Catalog i = Catalog (s_Offers s) -> cap_nonneg (need_shape need) -> offers_ok (RankOffers p need reserve i).
Proof. intros Ei Hn. apply List.Forall_forall. intros o Ho. split; [by eapply rank_nonneg|by eapply rank_counts]. Qed.

(** The items of a class's need are its groups' shapes. *)
Lemma coverNeed_ok c only need at_ :
  coverNeed c only = (need, at_) ->
  Forall (fun i => 0 <= ci_Count i) (Items need) /\ cap_nonneg (Aggregate need) /\
  forall placed, placed_shapes (map g_shape (c_groups c)) (zip at_ placed) = placed_cap (Items need) placed.
Proof.
  intros E. unfold coverNeed in E. injection E as <- <-. simpl.
  set (kept := List.filter _ _).
  assert (Hk : Forall (fun '(i, g) => c_groups c !! i = Some g) kept).
  { apply List.Forall_forall. intros [i g] [Hin _]%List.filter_In. by apply imap_pair_In. }
  clearbody kept. split; [|split; [cap_lia|]].
  { apply Forall_map, Forall_true. intros [i g]. simpl. lia. }
  induction Hk as [|[i g] kept Hi Hk IH]; intros placed; [by destruct placed|].
  destruct placed as [|n placed]; [done|]. simpl. unfold placed_shapes in *. rewrite totalOf_cons, IH.
  by rewrite list_lookup_fmap, Hi.
Qed.

(** A class whose containers no action names, beside other containers. *)
Record class_ready (rest : list coverItem) (c : demandClass) (ps : pass) : Prop := {
  cr_open : open ps;
  cr_items : unbought ps (class_items c ++ rest);
  cr_groups : class_ok c }.

(** What buying for a class leaves. *)
Record class_bought (rest : list coverItem) (c : demandClass) (ps : pass) (c' : demandClass) (ps' : pass) : Prop := {
  cb_ready : class_ready rest c' ps';
  cb_calm : calm ps ps';
  cb_items : incl (class_items c') (class_items c);
  cb_shapes : map g_shape (c_groups c') = map g_shape (c_groups c);
  cb_need : c_need c' = c_need c /\ c_market c' = c_market c }.

Lemma class_bought_refl rest c ps : class_ready rest c ps -> class_bought rest c ps c ps.
Proof. intros H. split; [done|apply calm_refl|apply incl_refl|done|done]. Qed.

Lemma class_bought_trans rest c ps c1 ps1 c2 ps2 :
  class_bought rest c ps c1 ps1 -> class_bought rest c1 ps1 c2 ps2 -> class_bought rest c ps c2 ps2.
Proof.
  intros [H1 H2 H3 H4 [H5 H5']] [K1 K2 K3 K4 [K5 K5']].
  split; [done|by eapply calm_trans|by eapply incl_tran|congruence|split; congruence].
Qed.

Lemma room_eq ps ps' m : ps_used ps' = ps_used ps -> room p ps' m = room p ps m.
Proof. unfold room. by intros ->. Qed.

Lemma buy_calm ps m o kind reason holds cs rep :
  buy_guard p s ps m o kind holds cs -> kind <> ActionRightsize -> calm ps (snd (buy s m o kind reason holds cs rep ps)).
Proof.
  intros Hg Hn. eapply (calm_one _ _ _ _ [_]); [by apply step_buy|by autorewrite with pass|].
  constructor; [|constructor]. destruct Hg as [Hk _ _ _ _ _ _ _]. simpl. by destruct kind.
Qed.

Lemma room_buy ps m o kind reason holds cs rep m' : purchase kind = true ->
  room p (snd (buy s m o kind reason holds cs rep ps)) m' = room p ps m' - (if m == m' then 1 else 0).
Proof.
  intros Hk. unfold room. rewrite buy_used by done. destruct (decide (m = m')) as [->|].
  - rewrite lookup_insert_eq, bool_decide_true by done. simpl. lia.
  - rewrite lookup_insert_ne, bool_decide_false by done. lia.
Qed.

(** What is left of each quota holds the nodes still to buy. *)
Record nodes_quota (ps : pass) (nodes : list CoverNode) : Prop := {
  nq_counts : Forall (fun n => counts_quota s (cn_Offer n)) nodes;
  nq_room key v n : quotaRoom (Quotas (s_Offers s)) (ps_quotaUsed ps) !! key = Some v -> In n nodes -> o_Quota (cn_Offer n) = key ->
    quota_use key nodes <= v }.

Lemma quota_use_nonneg key nodes : Forall (fun n => counts_quota s (cn_Offer n)) nodes -> 0 <= quota_use key nodes.
Proof.
  intros H. unfold quota_use. apply sumZ_nonneg. intros x (n & <- & Hn)%in_map_iff. apply List.filter_In in Hn as [Hn _].
  rewrite List.Forall_forall in H. apply (H n Hn).
Qed.

Lemma quota_use_cons key n nodes :
  quota_use key (n :: nodes) = (if o_Quota (cn_Offer n) == key then VCPUs (o_Type (cn_Offer n)) else 0) + quota_use key nodes.
Proof. unfold quota_use. simpl. by destruct (_ == key). Qed.

Lemma nodes_quota_first ps n nodes : nodes_quota ps (n :: nodes) ->
  counts_quota s (cn_Offer n) /\
  forall v, quotaRoom (Quotas (s_Offers s)) (ps_quotaUsed ps) !! o_Quota (cn_Offer n) = Some v -> VCPUs (o_Type (cn_Offer n)) <= v.
Proof.
  intros [H1 H2]. apply Forall_cons in H1 as [Hc H1]. split; [done|]. intros v Hv.
  specialize (H2 _ v n Hv (or_introl eq_refl) eq_refl). rewrite quota_use_cons, bool_decide_true in H2 by done.
  pose proof (quota_use_nonneg (o_Quota (cn_Offer n)) nodes H1). lia.
Qed.

Lemma nodes_quota_next ps ps' n nodes :
  nodes_quota ps (n :: nodes) ->
  ps_quotaUsed ps' = <[o_Quota (cn_Offer n) := default 0 (ps_quotaUsed ps !! o_Quota (cn_Offer n)) + VCPUs (o_Type (cn_Offer n))]> (ps_quotaUsed ps) ->
  nodes_quota ps' nodes.
Proof.
  intros [H1 H2] E. apply Forall_cons in H1 as [Hc H1]. split; [done|]. intros key v k Hv Hk Ek.
  apply (quotaRoom_moves _ _ (ps_quotaUsed ps)) in Hv. rewrite E in Hv.
  specialize (H2 key _ k Hv (or_intror Hk) Ek). rewrite quota_use_cons in H2.
  destruct (decide (o_Quota (cn_Offer n) = key)) as [<-|Hne].
  - rewrite lookup_insert_eq, bool_decide_true in H2 by done. simpl in H2. lia.
  - rewrite lookup_insert_ne, bool_decide_false in H2 by done. lia.
Qed.

(** The nodes of a cover within what the pass leaves of each quota. *)
Lemma cover_nodes_quota offers need ps n r result :
  offers_ok offers -> cover_promise offers need (limits p s ps n r) result -> nodes_quota ps (cr_Nodes result).
Proof.
  intros Hof [_ K2 _ _ _ K6]. split; [|exact K6]. eapply Forall_impl; [exact K2|]. intros x [Hx _]. simpl.
  unfold offers_ok in Hof. rewrite List.Forall_forall in Hof. apply (Hof _ Hx).
Qed.

(** One node: its containers are bought together and wait for the purchase. *)
Lemma buy_node_ok rest m at_ atLoss need sz node c ps c' ps' :
  class_ready rest c ps ->
  (forall placed, placed_shapes (map g_shape (c_groups c)) (zip at_ placed) = placed_cap (Items need) placed) ->
  node_ok need sz node -> 0 < room p ps m -> 0 < ps_hostRoom ps ->
  counts_quota s (cn_Offer node) ->
  (forall v, quotaRoom (Quotas (s_Offers s)) (ps_quotaUsed ps) !! o_Quota (cn_Offer node) = Some v -> VCPUs (o_Type (cn_Offer node)) <= v) ->
  buy_node s m at_ atLoss (c, ps) node = (c', ps') ->
  class_bought rest c ps c' ps' /\ room p ps' m = room p ps m - 1 /\ ps_hostRoom ps' = ps_hostRoom ps - 1 /\
  ps_quotaUsed ps' = <[o_Quota (cn_Offer node) := default 0 (ps_quotaUsed ps !! o_Quota (cn_Offer node)) + VCPUs (o_Type (cn_Offer node))]>
    (ps_quotaUsed ps).
Proof.
  intros [Ho Hu Hg] Hsh Hn Hr Hh Hcq Hq E. unfold buy_node in E.
  destruct (take_placed at_ (Placed node) (c_groups c)) as [taken groups] eqn:Et.
  apply take_placed_ok in Et as (Hp & Hg' & Hshapes & Hle); [|done|apply Hn]. rewrite Hsh in Hle.
  change (totalOf taken (fun it => reservedShape (it_need it))) with (item_total taken) in E.
  set (reason := if atLoss then ReasonSpotWait else ReasonWork) in *.
  destruct (buy s m (cn_Offer node) ActionBuy reason (item_total taken) (map it_id taken) None ps) as [action ps1] eqn:Eb.
  assert (Ea : action = length (ps_actions ps)) by (rewrite <- (buy_index s m (cn_Offer node) ActionBuy reason (item_total taken) (map it_id taken) None ps); by rewrite Eb).
  assert (E1 : ps1 = snd (buy s m (cn_Offer node) ActionBuy reason (item_total taken) (map it_id taken) None ps)) by (by rewrite Eb).
  assert (Hu' : unbought ps (taken ++ flat_map g_items groups ++ rest)) by (rewrite app_assoc, Hp; exact Hu).
  assert (Hut : unbought ps taken) by (eapply unbought_sublist; [|exact Hu']; by apply sublist_inserts_r).
  assert (Hguard : buy_guard p s ps m (cn_Offer node) ActionBuy (item_total taken) (map it_id taken)).
  { split; try done; [|by apply unbought_fresh]. intros _. etrans; [exact Hle|]. apply Hn. }
  assert (C1 : calm ps ps1) by (rewrite E1; by apply buy_calm).
  assert (Ho1 : open ps1) by (by eapply open_calm).
  assert (Ha1 : ps_actions ps1 = ps_actions ps ++ [buy_action m (cn_Offer node) ActionBuy reason (item_total taken) (map it_id taken) None])
    by (rewrite E1; by autorewrite with pass).
  destruct (provisioning_fold ps1 taken None (Some action)) as (C2 & A2 & R2 & U2 & _); [done|apply Hut|done| |].
  { intros n [= <-]. eexists. rewrite Ha1, Ea. split; [by apply list_lookup_middle|]. split; [done|].
    intros it Hit. simpl. apply in_map_iff. eauto. }
  injection E as <- <-.
  assert (Hb1 : bought_ids ps1 = bought_ids ps ++ map it_id taken).
  { unfold bought_ids. rewrite Ha1, flat_map_app. simpl. by rewrite app_nil_r. }
  split; [|split; [|split]].
  - split; [split|by eapply calm_trans| |done|done].
    + by eapply open_calm.
    + eapply unbought_same; [eapply unbought_app; [exact Hu'|exact Hb1]|]. unfold bought_ids. by rewrite A2.
    + done.
    + intros it Hit. apply (Permutation_in _ Hp). apply in_or_app. by right.
  - rewrite (room_eq ps1) by done. rewrite E1, room_buy by done. by rewrite bool_decide_true.
  - rewrite R2, E1. by autorewrite with pass.
  - rewrite <- (buy_quotaUsed s m (cn_Offer node) ActionBuy reason (item_total taken) (map it_id taken) None ps Hcq), <- E1.
    apply (fold_left_inv (fun q => ps_quotaUsed q = ps_quotaUsed ps1)); [done|]. by intros q it _ Hq'.
Qed.

Lemma buy_nodes_ok rest m at_ atLoss need sz nodes c ps c' ps' :
  class_ready rest c ps ->
  (forall placed, placed_shapes (map g_shape (c_groups c)) (zip at_ placed) = placed_cap (Items need) placed) ->
  Forall (node_ok need sz) nodes -> Z.of_nat (length nodes) <= Z.max 0 (Z.min (room p ps m) (ps_hostRoom ps)) ->
  nodes_quota ps nodes -> fold_left (buy_node s m at_ atLoss) nodes (c, ps) = (c', ps') -> class_bought rest c ps c' ps'.
Proof.
  revert c ps. induction nodes as [|n nodes IH]; intros c ps Hr Hsh Hn Hl Hnq E; cbn [fold_left length] in *.
  { injection E as <- <-. by apply class_bought_refl. }
  inversion_clear Hn as [|?? Hn1 Hn2]. destruct (buy_node s m at_ atLoss (c, ps) n) as [c1 ps1] eqn:E1.
  destruct (nodes_quota_first ps n nodes Hnq) as [Q1 Q2].
  apply (buy_node_ok rest m at_ atLoss need sz) in E1 as (B1 & R1 & R2 & R3); [|done..|lia|lia|done|done].
  eapply class_bought_trans; [exact B1|]. apply IH; [apply B1| |done|lia|by eapply nodes_quota_next|done].
  intros placed. rewrite (cb_shapes _ _ _ _ _ B1). apply Hsh.
Qed.

Lemma coverClass_ok rest c m offers r only atLoss ps c' ps' :
  class_ready rest c ps -> offers_ok offers -> coverClass p s c m offers r only atLoss ps = (c', ps') ->
  class_bought rest c ps c' ps'.
Proof.
  intros Hr Hof E. unfold coverClass in E. destruct (coverNeed c only) as [need at_] eqn:En.
  destruct at_ as [|a0 at0]; [injection E as <- <-; by apply class_bought_refl|].
  apply coverNeed_ok in En as (H1 & H2 & H3).
  assert (Hcp := Cover_promise offers need (servingCost p) (limits p s ps (Z.min (room p ps m) (ps_hostRoom ps)) r) (offers_ok_nonneg _ Hof) H1 H2).
  assert (Hnq := cover_nodes_quota _ _ _ _ _ _ Hof Hcp). destruct Hcp as [K1 K2 _ _ _ _].
  eapply buy_nodes_ok; [done|exact H3| |exact K1|exact Hnq|exact E].
  eapply Forall_impl; [exact K2|]. intros n [_ Hn]. exact Hn.
Qed.

(** A loop of purchases for one class. *)
Lemma fold_bought {A} rest (f : demandClass * pass -> A -> demandClass * pass) l c ps c' ps' :
  class_ready rest c ps ->
  (forall c1 ps1 x c2 ps2, In x l -> class_bought rest c ps c1 ps1 -> f (c1, ps1) x = (c2, ps2) -> class_bought rest c1 ps1 c2 ps2) ->
  fold_left f l (c, ps) = (c', ps') -> class_bought rest c ps c' ps'.
Proof.
  intros Hr Hf E.
  assert (H := fold_left_inv (fun st : demandClass * pass => class_bought rest c ps (fst st) (snd st)) f l (c, ps)).
  rewrite E in H. apply H; [by apply class_bought_refl|]. intros [c1 ps1] x Hx H1. simpl in H1.
  destruct (f (c1, ps1) x) as [c2 ps2] eqn:E2. simpl. eapply class_bought_trans; [exact H1|]. by eapply Hf.
Qed.

(** ** Purchases past the Spot wait *)

Lemma delete_id (items : list coverItem) it :
  NoDup (map it_id items) -> In it items -> Permutation items (it :: delete_func (fun o => it_id o =? it_id it) items).
Proof.
  intros Hn Hin. induction items as [|x items IH]; [done|]. simpl in Hn. apply NoDup_cons in Hn as [Hx Hn].
  unfold delete_func in *. simpl. destruct Hin as [->|Hin].
  - rewrite Z.eqb_refl. simpl. f_equiv. rewrite forallb_filter_id; [done|]. apply forallb_forall. intros y Hy.
    apply negb_true_iff, Z.eqb_neq. intros E. apply Hx. rewrite <- E. apply list_elem_of_In, in_map_iff. eauto.
  - destruct (Z.eqb_spec (it_id x) (it_id it)) as [E|]; simpl.
    + exfalso. apply Hx. rewrite E. apply list_elem_of_In, in_map_iff. eauto.
    + rewrite (IH Hn Hin) at 1. apply perm_swap.
Qed.

Lemma buy_alone_ok rest r c g it ps alone ps' :
  class_ready rest (mkClass (c_need c) (c_key c) (c_market c) [mkGroup (g_shape g) (g_disks g) [it]]) ps ->
  offers_ok (rk_offers r) -> buy_alone p s r c g it ps = (alone, ps') ->
  class_bought rest (mkClass (c_need c) (c_key c) (c_market c) [mkGroup (g_shape g) (g_disks g) [it]]) ps alone ps'.
Proof.
  intros Hr Hof. apply fold_bought; [done|]. intros c1 ps1 mk c2 ps2 _ H1. apply fold_bought; [apply H1|].
  intros c3 ps3 model c4 ps4 _ H3 E. eapply coverClass_ok; [apply H3| |exact E]. by apply offers_ok_delete.
Qed.

Definition in_group (c : demandClass) (gi : nat) (it : coverItem) : Prop := exists g, c_groups c !! gi = Some g /\ In it (g_items g).

(** The containers of one group are distinct. *)
Lemma group_NoDup rest c ps gi g : class_ready rest c ps -> c_groups c !! gi = Some g -> NoDup (map it_id (g_items g)).
Proof.
  intros [_ [Hn _ _] _] Hgi. rewrite map_app in Hn. apply NoDup_app in Hn as (Hn & _ & _).
  eapply sublist_NoDup; [exact Hn|]. apply sublist_map. unfold class_items.
  apply list_elem_of_split_length in Hgi as (k1 & k2 & -> & _). rewrite flat_map_app. simpl.
  by apply sublist_inserts_l, sublist_inserts_r.
Qed.

Lemma atLoss_one_ok rest r gi c ps it c' ps' :
  class_ready rest c ps -> offers_ok (rk_offers r) -> in_group c gi it -> atLoss_one p s r gi (c, ps) it = (c', ps') ->
  class_bought rest c ps c' ps' /\ forall it', it_id it' <> it_id it -> in_group c gi it' -> in_group c' gi it'.
Proof.
  intros Hr Hof (g & Hgi & Hit) E. unfold atLoss_one in E. rewrite Hgi in E.
  destruct (negb (waited p s ps it)); [injection E as <- <-; split; [by apply class_bought_refl|done]|].
  destruct (buy_alone p s r c g it ps) as [alone ps1] eqn:Ea.
  destruct Hr as [Ho Hu Hg].
  assert (Hgr : group_ok g) by (unfold class_ok in Hg; rewrite Forall_lookup in Hg; by eapply Hg).
  assert (Hin : In it (class_items c)).
  { apply in_flat_map. exists g. split; [|done]. apply list_elem_of_In. by eapply list_elem_of_lookup_2. }
  apply in_split in Hin as (l1 & l2 & Hl).
  assert (Hperm : Permutation (class_items c) (it :: l1 ++ l2)) by (rewrite Hl; by rewrite <- Permutation_middle).
  assert (Hra : class_ready ((l1 ++ l2) ++ rest) (mkClass (c_need c) (c_key c) (c_market c) [mkGroup (g_shape g) (g_disks g) [it]]) ps).
  { split; [done|change (unbought ps ((it :: l1 ++ l2) ++ rest)); by rewrite <- Hperm|]. constructor; [|constructor]. split; [apply Hgr|]. simpl.
    constructor; [|constructor]. destruct Hgr as [_ Hgi']. rewrite List.Forall_forall in Hgi'. auto. }
  apply buy_alone_ok with (1 := Hra) in Ea as [[Ho1 Hu1 Hg1] C1 I1 S1 _]; [|done]. simpl in S1.
  destruct (c_groups alone) as [|g1 gs] eqn:Egs; [done|]. injection S1 as S1 S2. destruct gs as [|g2 gs]; [clear S2|done].
  assert (Eal : class_items alone = g_items g1) by (unfold class_items; rewrite Egs; simpl; apply app_nil_r).
  rewrite Eal in Hu1, I1. simpl in E. rewrite andb_true_r in E.
  destruct (bool_decide (g_items g1 = [])) eqn:Eg1; bools; injection E as <- <-.
  - rewrite Eg1 in Hu1. simpl in Hu1.
    assert (Hnd : NoDup (map it_id (g_items g))) by (by eapply (group_NoDup rest c ps)).
    set (g' := g_set_items (delete_func (fun o => it_id o =? it_id it) (g_items g)) g).
    assert (Hp' : Permutation (flat_map g_items (<[gi := g']> (c_groups c))) (l1 ++ l2)).
    { apply (Permutation_app_inv_r (g_items g)). rewrite (flat_map_insert g_items _ _ _ g' Hgi).
      change (flat_map g_items (c_groups c)) with (class_items c). rewrite Hperm, (delete_id (g_items g) it Hnd Hit) at 1.
      simpl. by rewrite Permutation_middle. }
    split.
    + split; [split|done| | |done].
      * done.
      * unfold class_items. simpl. by rewrite Hp'.
      * apply Forall_insert; [done|]. split; [apply Hgr|]. simpl. destruct Hgr as [_ Hgi']. rewrite List.Forall_forall in *.
        intros x [Hx _]%delete_func_In. auto.
      * intros x Hx. unfold class_items in Hx. simpl in Hx. apply (Permutation_in _ Hp') in Hx.
        apply (Permutation_in _ (Permutation_sym Hperm)). by right.
      * simpl. rewrite (list_fmap_insert g_shape). apply list_insert_id. by rewrite list_lookup_fmap, Hgi.
    + intros it' Hne (g0 & Hg0 & Hin0). assert (g0 = g) as -> by congruence. exists g'. simpl.
      split; [by apply list_lookup_insert_eq, (lookup_lt_Some _ _ _ Hgi)|]. apply delete_func_In. split; [done|]. by apply Z.eqb_neq.
  - assert (Hone : g_items g1 = [it]).
    { destruct Hu1 as [Hn _ _]. rewrite map_app in Hn. apply NoDup_app in Hn as (Hn & _ & _).
      destruct (g_items g1) as [|x [|y l]]; [done| |].
      - destruct (I1 x) as [<-|[]]; [by left|done].
      - exfalso. destruct (I1 x) as [<-|[]]; [by left|]. destruct (I1 y) as [<-|[]]; [right; by left|].
        simpl in Hn. apply NoDup_cons in Hn as [Hn _]. apply Hn. by constructor. }
    rewrite Hone in Hu1. split; [|done]. split; [split|done|apply incl_refl|done|done]; [done| |done]. by rewrite Hperm.
Qed.

Lemma atLoss_group_ok rest r gi its c ps c' ps' :
  class_ready rest c ps -> offers_ok (rk_offers r) -> NoDup (map it_id its) -> (forall it, In it its -> in_group c gi it) ->
  fold_left (atLoss_one p s r gi) its (c, ps) = (c', ps') -> class_bought rest c ps c' ps'.
Proof.
  revert c ps. induction its as [|it its IH]; intros c ps Hr Hof Hn Hin E; cbn [fold_left map] in *.
  { injection E as <- <-. by apply class_bought_refl. }
  apply NoDup_cons in Hn as [Hx Hn]. destruct (atLoss_one p s r gi (c, ps) it) as [c1 ps1] eqn:E1.
  apply (atLoss_one_ok rest) in E1 as [B1 K1]; [|done|done|apply Hin; by left].
  eapply class_bought_trans; [exact B1|]. apply IH; [apply B1|done|done| |done].
  intros it' Hit'. apply K1; [|apply Hin; by right]. intros Eq. apply Hx. rewrite <- Eq. apply list_elem_of_In, in_map_iff. eauto.
Qed.

Lemma buyAtLoss_ok rest c ps c' ps' :
  class_ready rest c ps -> cap_nonneg (need_shape (c_need c)) -> buyAtLoss p s c ps = (c', ps') -> class_bought rest c ps c' ps'.
Proof.
  intros Hr Hn. unfold buyAtLoss. destruct (negb _); [intros [= <- <-]; by apply class_bought_refl|].
  destruct (_ && _); [intros [= <- <-]; by apply class_bought_refl|].
  apply fold_bought; [done|]. intros c1 ps1 gi c2 ps2 _ B1 E. simpl in E.
  destruct (c_groups c1 !! gi) as [g|] eqn:Hg; [|injection E as <- <-; apply class_bought_refl, B1].
  eapply atLoss_group_ok; [apply B1| |eapply group_NoDup; [apply B1|exact Hg]| |exact E].
  - simpl. by apply offers_ok_rank.
  - intros it Hit. by exists g.
Qed.

(** ** Buying a class *)

Lemma buy_models_ok rest r m mk only models c ps c' ps' :
  class_ready rest c ps -> offers_ok (rk_offers r) -> buy_models p s r m mk only models (c, ps) = (c', ps') ->
  class_bought rest c ps c' ps'.
Proof.
  intros Hr Hof. apply fold_bought; [done|]. intros c1 ps1 model c2 ps2 _ B1 E.
  eapply coverClass_ok; [apply B1| |exact E]. by apply offers_ok_delete.
Qed.

Lemma buyClass_ok rest c r ps c' ps' :
  class_ready rest c ps -> cap_nonneg (need_shape (c_need c)) -> offers_ok (rk_offers r) ->
  buyClass p s c r ps = (c', ps') -> class_bought rest c ps c' ps'.
Proof.
  intros Hr Hn Hof. unfold buyClass. destruct (rm_GPU (c_market c) != "").
  - destruct (negb _); [by apply buy_models_ok|].
    destruct (buy_models p s r (c_market c) MarketSpot _ _ (c, ps)) as [c1 ps1] eqn:E1.
    apply buy_models_ok with (1 := Hr) in E1; [|done].
    destruct (buy_models p s r (c_market c) MarketOnDemand _ _ (c1, ps1)) as [c2 ps2] eqn:E2.
    apply (buy_models_ok rest) in E2; [|apply E1|done]. intros E3.
    assert (B2 := class_bought_trans _ _ _ _ _ _ _ E1 E2). eapply class_bought_trans; [exact B2|].
    apply buyAtLoss_ok; [apply B2| |done]. destruct (cb_need _ _ _ _ _ B2) as [-> _]. done.
  - match goal with |- (let '(_, _) := ?x in _) = _ -> _ => destruct x as [c1 ps1] eqn:E1 end.
    assert (B1 : class_bought rest c ps c1 ps1).
    { destruct (ps_byMarket ps !! c_market c) as [v|]; [destruct (spotCPU _)|]; try (injection E1 as <- <-; by apply class_bought_refl).
      eapply coverClass_ok; [done| |exact E1]. by apply offers_ok_delete. }
    intros E2. eapply class_bought_trans; [exact B1|]. eapply coverClass_ok; [apply B1|done|exact E2].
Qed.

(** ** Waits *)

Lemma waits_calm ps it wait : open ps -> unbought ps [it] -> calm ps (waits it wait ps).
Proof.
  intros Ho Hu. unfold waits. eapply calm_trans; [apply (calm_note p s ps it (fun w => mkWait (w_Container w) (Some wait) (w_Host w) (w_Action w)))|].
  - done.
  - destruct Hu as [_ Hok _]. by inversion Hok.
  - intros w Hw Ha Hh. split; [done|]. split; [|done]. intros n Hn. simpl in Hn. exfalso.
    destruct (Ha n Hn) as (_ & a & Han & _ & Hc). apply (ub_free s ps [it] Hu it); [by left|]. unfold bought_ids. apply in_flat_map.
    exists a. split; [apply list_elem_of_In; by eapply list_elem_of_lookup_2|congruence].
  - apply calm_quiet. by split.
Qed.

Lemma wait_one_calm c held short ps it : open ps -> unbought ps [it] -> calm ps (wait_one c held short ps it).
Proof.
  intros Ho Hu. unfold wait_one. destruct (ps_hostRoom ps <=? 0); [|destruct held; [|by apply waits_calm]];
    (eapply calm_trans; [by apply waits_calm|apply calm_quiet; by split]).
Qed.

Lemma wait_one_actions c held short ps it : ps_actions (wait_one c held short ps it) = ps_actions ps.
Proof. unfold wait_one. by destruct (_ <=? _), held. Qed.

Lemma wait_groups_ok c held groups ps :
  open ps -> unbought ps (flat_map g_items groups) ->
  calm ps (fold_left (wait_group p s c held) groups ps) /\ ps_actions (fold_left (wait_group p s c held) groups ps) = ps_actions ps.
Proof.
  intros Ho Hu.
  apply (fold_left_inv (fun ps' => calm ps ps' /\ ps_actions ps' = ps_actions ps)); [split; [apply calm_refl|done]|].
  intros ps1 g Hg [C1 A1]. unfold wait_group.
  apply (fold_left_inv (fun ps' => calm ps ps' /\ ps_actions ps' = ps_actions ps)); [done|].
  intros ps2 it Hit [C2 A2]. split; [|by rewrite wait_one_actions]. eapply calm_trans; [exact C2|].
  apply wait_one_calm; [by eapply open_calm|]. eapply unbought_same; [|unfold bought_ids; by rewrite A2].
  assert (Hin : In it (flat_map g_items groups)) by (apply in_flat_map; eauto).
  apply in_split in Hin as (l1 & l2 & E). eapply unbought_sublist; [|exact Hu]. rewrite E.
  apply sublist_inserts_l. constructor. apply sublist_nil_l.
Qed.

(** ** All pending work *)

Lemma batching_quiet ps b ps' : batching s ps = (b, ps') -> quiet ps ps'.
Proof. unfold batching. destruct (_ <=? _); intros [= _ <-]; by split. Qed.

Lemma buy_class_step_ok rest c ps :
  class_ready rest c ps -> cap_nonneg (need_shape (c_need c)) ->
  calm ps (buy_class_step p s ps c) /\ unbought (buy_class_step p s ps c) rest.
Proof.
  intros Hr Hn. unfold buy_class_step.
  destruct (if ps_hostRoom ps >? 0 then batching s ps else (false, ps)) as [held ps1] eqn:E1.
  assert (Q1 : quiet ps ps1) by (destruct (_ >? _); [by eapply batching_quiet|injection E1 as _ <-; by split]).
  assert (C1 : calm ps ps1) by (by apply calm_quiet).
  assert (R1 : class_ready rest c ps1).
  { destruct Hr as [Ho Hu Hg]. split; [by eapply open_calm|eapply unbought_same; [exact Hu|]|done].
    unfold bought_ids. by rewrite (q_actions _ _ Q1). }
  match goal with |- context [let '(_, _) := ?x in _] => destruct x as [c2 ps2] eqn:E2 end.
  assert (B2 : class_bought rest c ps1 c2 ps2).
  { destruct (_ && _); [|injection E2 as <- <-; by apply class_bought_refl]. eapply buyClass_ok; [done|done| |exact E2].
    simpl. apply offers_ok_rank; [done|apply classNeed_shape]. }
  destruct B2 as [[Ho2 Hu2 _] C2 _ _ _].
  assert (Huc : unbought ps2 (flat_map g_items (c_groups c2))) by (eapply unbought_sublist; [|exact Hu2]; by apply sublist_inserts_r).
  destruct (wait_groups_ok c2 held (c_groups c2) ps2 Ho2 Huc) as [C3 A3].
  split; [by eapply calm_trans; [|eapply calm_trans]|].
  eapply unbought_same; [eapply unbought_sublist; [|exact Hu2]; by apply sublist_inserts_l|]. unfold bought_ids. by rewrite A3.
Qed.

Lemma buy_classes_ok classes ps :
  open ps -> unbought ps (flat_map class_items classes) -> Forall class_ok classes ->
  Forall (fun c => cap_nonneg (need_shape (c_need c))) classes -> calm ps (fold_left (buy_class_step p s) classes ps).
Proof.
  revert ps. induction classes as [|c classes IH]; intros ps Ho Hu Hc Hn; cbn [fold_left]; [apply calm_refl|].
  inversion_clear Hc. inversion_clear Hn.
  destruct (buy_class_step_ok (flat_map class_items classes) c ps) as [C1 U1]; [by split|done|].
  eapply calm_trans; [exact C1|]. apply IH; [by eapply open_calm|done..].
Qed.

Lemma classes_need items : Forall (fun c => cap_nonneg (need_shape (c_need c))) (classes_of s items).
Proof.
  unfold classes_of. apply fold_left_inv; [constructor|]. intros classes it _ H. unfold add_class, classKey.
  destruct (index_func _ classes) as [i|]; [by apply Forall_alter|]. apply Forall_app. split; [done|].
  constructor; [apply classNeed_shape|constructor].
Qed.

Lemma buyFor_ok items ps : open ps -> unbought ps items -> calm ps (buyFor p s items ps).
Proof.
  intros Ho Hu. destruct (classes_of_ok items) as [Hp Hc]; [apply Hu|].
  apply buy_classes_ok; [done|by rewrite Hp|done|apply classes_need].
Qed.

(** The cover of pending work. *)
Lemma cover_steps items ps : open ps -> unbought ps items -> calm ps (cover p s items ps).
Proof.
  intros Ho Hu. unfold cover. destruct (cover_running p s items ps) as [l1 ps1] eqn:E1.
  destruct (cover_running_steps p s items ps l1 ps1) as (O1 & C1 & A1 & S1); [done|apply Hu|done|].
  assert (U1 : unbought ps1 l1).
  { eapply unbought_same; [by eapply unbought_sublist|]. unfold bought_ids. by rewrite A1. }
  destruct (resumeFor p s l1 ps1) as [l2 ps2] eqn:E2. apply resumeFor_loop_ok in E2 as (O2 & C2 & U2 & _); [|done|done].
  eapply calm_trans; [exact C1|]. eapply calm_trans; [exact C2|]. by apply buyFor_ok.
Qed.

End BuySim.
