(* ===== verification/KeepSim.v ===== *)
(** Keeping, growing, reserving and rightsizing a market are steps, and so is
    the whole pass. *)

From S2P Require Import Prelude Capacity Catalog Billing Policy Placement Offers Cover Fleet Pass Demand Purchase Keep Plan Steps Simulation BuySim.

(** ** Rightsizing *)

Section Rightsize.
Context (p : Policy) (s : FleetSnapshot) (ps : pass) (v : marketView).

(** What replacing a host that costs [cost] by [o] pays back. *)
Definition payback (cost : Z) (o : FleetOffer) : Z := cost - servingCost p o - HourlyMicros o * seconds (Provision p).

(** An offer that may replace [h]. *)
Definition replaces_with (h : FleetHost) (o : FleetOffer) : Prop :=
  In o (marketOffers p s (v_m v) false) /\ t_Name (o_Type o) <> h_InstanceType h /\ Covers (o_Usable o) (holdsOf ps v h) = true.

(** A host at rest. *)
Definition at_rest (h : FleetHost) : Prop :=
  serving h = true /\ busy h = false /\ (h_ID h ∉ ps_claimed ps) /\ h_Protected h = false.

Lemma replacement_spec h o n :
  replacement p s ps v h = Some (o, n) ->
  at_rest h /\ exists cost, hostCost p s h = Some cost /\ replaces_with h o /\ n = payback cost o /\ 0 < n /\
    forall o', replaces_with h o' -> payback cost o' <= n.
Proof.
  unfold replacement. destruct (hostCost p s h) as [cost|]; [|done].
  destruct (negb (serving h) || _ || _ || _ || _) eqn:Er; [done|].
  destruct (Empty (holdsOf ps v h)); [done|].
  rewrite !orb_false_iff, negb_false_iff, bool_decide_eq_false in Er. destruct Er as ((((R1 & R2) & R3) & R4) & _).
  set (f := fun o' => if (t_Name (o_Type o') != h_InstanceType h) && Covers (o_Usable o') (holdsOf ps v h)
                      then Some (o', payback cost o') else None).
  assert (Hf : forall o', f o' = Some (o', payback cost o') <->
    t_Name (o_Type o') <> h_InstanceType h /\ Covers (o_Usable o') (holdsOf ps v h) = true).
  { intros o'. unfold f. destruct (_ && _) eqn:E; bools; [tauto|]. split; [done|]. intros [H1 H2]. rewrite H2 in E.
    rewrite bool_decide_false in E by done. done. }
  rewrite (fold_left_ext _ (argmax_step f)).
  2: { intros best o'. unfold argmax_step, f, payback. destruct (_ && Covers _ _); simpl; [|by destruct best as [[? ?]|]].
       by destruct best as [[? ?]|]. }
  intros E. destruct (fold_argmax f (marketOffers p s (v_m v) false)) as [H1 H2]. destruct (H1 o n E) as (Hn & x & Hx & Ex).
  assert (x = o /\ n = payback cost o) as [-> ->] by (unfold f in Ex; destruct (_ && _); [injection Ex; auto with congruence|done]).
  apply Hf in Ex. split; [done|]. exists cost. split; [done|]. split; [done|]. split; [done|]. split; [done|].
  intros o' (Ho & Hr). apply Hf in Hr. destruct (Z.le_gt_cases (payback cost o') 0); [lia|].
  destruct (H2 o' _ _ Ho Hr ltac:(lia)) as (y' & n' & E' & ?). congruence.
Qed.

Lemma best_replacement_spec o i n :
  best_replacement p s ps v = Some (o, i, n) ->
  In i (v_kept v) /\ replacement p s ps v (host ps i) = Some (o, n) /\
  forall j o' n', In j (v_kept v) -> replacement p s ps v (host ps j) = Some (o', n') -> n' <= n.
Proof.
  unfold best_replacement. set (f := fun i => match replacement p s ps v (host ps i) with Some (o, n) => Some (o, i, n) | None => None end).
  rewrite (fold_left_ext _ (argmax_step f)).
  2: { intros best j. unfold argmax_step, f. destruct (replacement _ _ _ _ _) as [[? ?]|]; [|done]. by destruct best as [[[? ?] ?]|]. }
  intros E. destruct (fold_argmax f (v_kept v)) as [H1 H2]. destruct (H1 _ _ E) as (Hn & x & Hx & Ex).
  unfold f in Ex. destruct (replacement p s ps v (host ps x)) as [[o1 n1]|] eqn:Er; [|done]. injection Ex as <- <- <-.
  split; [done|]. split; [done|]. intros j o' n' Hj Er'. destruct (replacement_spec _ _ _ Er') as (_ & _ & _ & _ & _ & Hpos & _).
  destruct (H2 j (o', j) n' Hj) as (y & n2 & E' & ?); [unfold f; by rewrite Er'|done|]. congruence.
Qed.

End Rightsize.

Section KeepSim.
Context (p : Policy) (s : FleetSnapshot) {Hs : snapshot_ok s}.

Local Abbreviation steps := (Steps.steps p s).

Lemma steps_quiet ps ps' : quiet ps ps' -> steps ps ps'.
Proof. intros H. by apply steps_one, step_quiet. Qed.

Lemma quiet_update_view m f ps : quiet ps (update_view m f ps).
Proof. by split. Qed.

(** ** Hosts a loop has not reached *)

(** The hosts at [idx] are as they were, and none is added. *)
Record untouched (idx : list nat) (ps ps' : pass) : Prop := {
  ut_hosts i : In i idx -> host ps' i = host ps i;
  ut_length : length (ps_hosts ps') = length (ps_hosts ps);
  ut_claimed : ps_claimed ps' = ps_claimed ps }.

Lemma untouched_refl idx ps : untouched idx ps ps.
Proof. by split. Qed.

Lemma host_alter ps ps' f i j : ps_hosts ps' = alter f i (ps_hosts ps) -> i <> j -> host ps' j = host ps j.
Proof. intros E Hne. unfold host. by rewrite E, list_lookup_alter_ne. Qed.

(** A change of host [i] leaves the hosts after it in the walk. *)
Lemma untouched_alter i idx ps ps1 ps2 f :
  ~ In i idx -> untouched (i :: idx) ps ps1 -> ps_hosts ps2 = alter f i (ps_hosts ps1) -> ps_claimed ps2 = ps_claimed ps1 ->
  untouched idx ps ps2.
Proof.
  intros Hni [H1 H2 H3] Eh Ec. split.
  - intros j Hj. rewrite (host_alter ps1 ps2 f i j); [apply H1; by right|done|]. intros ->. done.
  - by rewrite Eh, length_alter.
  - congruence.
Qed.

Lemma untouched_cons i idx ps ps' : untouched (i :: idx) ps ps' -> untouched idx ps ps'.
Proof. intros [H1 H2 H3]. split; [|done..]. intros j Hj. apply H1. by right. Qed.

Lemma inMarket_In ps m keep i :
  In i (inMarket ps m keep) <-> (i < length (ps_hosts ps))%nat /\ market (host ps i) = m /\ keep (host ps i) = true.
Proof.
  unfold inMarket. rewrite List.filter_In, in_seq. rewrite andb_true_iff, bool_decide_eq_true. intuition lia.
Qed.

Lemma inMarket_NoDup ps m keep : NoDup (inMarket ps m keep).
Proof. apply NoDup_ListNoDup, List.NoDup_filter, NoDup_ListNoDup, NoDup_seq. Qed.

(** ** Keeping *)

Lemma leave_fields v i ps : exists f, ps_hosts (leave s v i ps) = alter f i (ps_hosts ps) /\ ps_claimed (leave s v i ps) = ps_claimed ps.
Proof. destruct (leave_act s v i ps) as (a & f & n & _ & ->). exists f. by autorewrite with pass. Qed.

Lemma keep_fold_steps ps order k :
  NoDup order ->
  (forall i, In i order -> (i < length (ps_hosts ps))%nat /\ reserve_host (host ps i) = false /\
     serving (host ps i) || starting (host ps i) || h_Requested (host ps i) = true) ->
  untouched order ps (k_ps k) -> steps (k_ps k) (k_ps (fold_left (keep_one s) order k)).
Proof.
  revert k. induction order as [|i order IH]; intros k Hn Hin Hu; cbn [fold_left]; [apply steps_refl|].
  apply NoDup_cons in Hn as [Hni Hn]. rewrite list_elem_of_In in Hni.
  assert (Hq : steps (k_ps k) (k_ps (keep_one s k i)) /\ untouched order ps (k_ps (keep_one s k i))).
  { unfold keep_one. destruct (negb (stays (k_ps k) (host (k_ps k) i)) && _) eqn:E.
    - bools. destruct (Hin i) as (H1 & H2 & H3); [by left|]. destruct (leave_fields (k_view k) i (k_ps k)) as (f & Eh & Ec).
      split; [|by eapply untouched_alter]. apply steps_one, step_leave. destruct Hu as [U1 U2 U3].
      rewrite <- (U1 i) in H2, H3 by (by left). split; simpl; [by rewrite U2|done..].
    - assert (Hu' := untouched_cons _ _ _ _ Hu). destruct (negb (serving _)); [|destruct (leaving _ _ _)];
        simpl; (split; [apply steps_refl|done]). }
  destruct Hq as [H1 H2]. eapply steps_trans; [exact H1|]. apply IH; [done| |done]. intros j Hj. apply Hin. by right.
Qed.

Lemma keep_steps m ps : steps ps (keep p s m ps).
Proof.
  unfold keep, keep_walk. destruct (keep_planned (view ps m) (ps_planned ps)) as [v1 rooms].
  eapply steps_trans; [|apply steps_quiet, quiet_update_view].
  apply (keep_fold_steps ps (keepOrder p s ps (view ps m)) (mkKeep ps v1 [] rooms)).
  - unfold keepOrder. rewrite sort_by_perm. apply inMarket_NoDup.
  - intros i Hi. unfold keepOrder in Hi. rewrite sort_by_In, inMarket_In in Hi. destruct Hi as (H1 & _ & H2). bools. auto.
  - apply untouched_refl.
Qed.

(** ** Growth *)

(** Resumes of ready reserves for headroom. *)
Lemma resumes_fold m reason order ps ps1 :
  NoDup order ->
  (forall i, In i order -> (i < length (ps_hosts ps))%nat /\ asleep (host ps i) = true /\ h_Protected (host ps i) = false /\
     h_StartRefused (host ps i) = false) ->
  untouched order ps ps1 -> steps ps1 (fold_left (fun ps i => resume s m i reason [] ps) order ps1).
Proof.
  revert ps1. induction order as [|i order IH]; intros ps1 Hn Hin Hu; cbn [fold_left]; [apply steps_refl|].
  apply NoDup_cons in Hn as [Hni Hn]. rewrite list_elem_of_In in Hni.
  destruct (Hin i) as (H1 & H2 & H3 & H4); [by left|]. destruct Hu as [U1 U2 U3].
  eapply steps_trans; [apply steps_one, step_resume|].
  - by rewrite U2.
  - rewrite (U1 i) by (by left). exact H2.
  - by rewrite (U1 i) by (by left).
  - by rewrite (U1 i) by (by left).
  - apply fresh_nil.
  - apply IH; [done|intros j Hj; apply Hin; by right|]. eapply untouched_alter; [done|by split| |]; by autorewrite with pass.
Qed.

Lemma resumes_loop_sublist ps v order need out need' :
  resumes_loop p s ps v order need = (out, need') ->
  sublist out order /\ (Forall (fun i => 0 <= ci_Count i) (Items need) -> Forall (fun i => 0 <= ci_Count i) (Items need')) /\
  (cap_nonneg (Aggregate need) -> cap_nonneg (Aggregate need')).
Proof.
  revert need out. induction order as [|i order IH]; intros need out; simpl; [by intros [= <- <-]|].
  destruct (_ || _); [intros [= <- <-]; split; [apply sublist_nil_l|done]|].
  destruct (fit_items (h_Usable (host ps i)) (Items need)) as [r rest] eqn:Ef.
  destruct (_ || _); [intros E; destruct (IH _ _ E) as (H1 & H2 & H3); split; [by constructor|done]|].
  destruct (resumes_loop p s ps v order _) as [out1 need1] eqn:E1. intros [= <- <-].
  destruct (IH _ _ E1) as (H1 & H2 & H3). split; [by constructor|]. simpl in *. split; [|intros _; apply H3; cap_lia].
  intros Hi. apply H2. unfold fit_items in Ef.
  assert (Hr : Forall (fun i => 0 <= ci_Count i) (snd (r, rest))); [|done]. rewrite <- Ef.
  apply (fold_left_inv (fun st : FleetCapacity * list CoverItem => Forall (fun i => 0 <= ci_Count i) (snd st))); [constructor|].
  intros [r0 rest0] it Hit H. rewrite List.Forall_forall in Hi. destruct (Covers _ _); simpl in *; [done|].
  apply Forall_app. split; [done|]. constructor; [auto|constructor].
Qed.

(** ** Purchases no container waits for *)

(** Purchases of the nodes of a cover, for headroom or the reserve. *)
Definition buy_all (m : ReserveMarket) (kind : FleetActionKind) (reason : CoverNode -> ActionReason) (holds : CoverNode -> FleetCapacity)
    (nodes : list CoverNode) (ps : pass) : pass :=
  fold_left (fun ps n => snd (buy s m (cn_Offer n) kind (reason n) (holds n) [] None ps)) nodes ps.

Lemma buy_all_steps m kind reason holds nodes ps :
  purchase kind = true -> kind <> ActionRightsize -> Z.of_nat (length nodes) <= Z.max 0 (Z.min (room p ps m) (ps_hostRoom ps)) ->
  (kind = ActionBuyReserve -> Z.of_nat (length nodes) <= Z.max 0 (ps_reserveRoom ps)) -> nodes_quota s ps nodes ->
  steps ps (buy_all m kind reason holds nodes ps).
Proof.
  intros Hk Hnr. revert ps. induction nodes as [|n nodes IH]; intros ps Hl Hr Hq; [apply steps_refl|].
  destruct (nodes_quota_first s ps n nodes Hq) as [Q1 Q2].
  unfold buy_all in *. cbn [fold_left length] in *.
  eapply steps_trans; [apply steps_one, step_buy|apply IH].
  - split; [done|lia|lia|intros E; specialize (Hr E); lia|done|apply fresh_nil|done|auto].
  - done.
  - rewrite room_buy, bool_decide_true by done. autorewrite with pass. lia.
  - intros E. specialize (Hr E). autorewrite with pass. rewrite bool_decide_true by done. lia.
  - eapply nodes_quota_next; [exact Hq|by apply buy_quotaUsed].
Qed.

Lemma market_need_shape m read : cap_nonneg (need_shape (r_with_Read (marketNeed m) read)).
Proof. unfold need_shape, GPUsNeeded, marketNeed. simpl. destruct (_ != ""); simpl; cap_lia. Qed.

Lemma market_offers_ok m reserve : offers_ok s (marketOffers p s m reserve).
Proof. unfold marketOffers, marketRanking. simpl. apply offers_ok_delete, offers_ok_rank; [exact Hs|done|apply market_need_shape]. Qed.

(** A need whose covers keep their promise. *)
Definition need_ok (need : CoverNeed) : Prop := Forall (fun i => 0 <= ci_Count i) (Items need) /\ cap_nonneg (Aggregate need).

Lemma need_after_ok offers need limits r : cover_promise offers need limits r -> need_ok (need_after need r).
Proof. intros [_ _ _ H _ _]. split; [done|]. simpl. cap_lia. Qed.

Lemma buy_growth_steps m r offers need ps result ps' :
  offers_ok s offers -> need_ok need -> buy_growth p s m r offers need ps = (result, ps') ->
  steps ps ps' /\ need_ok (need_after need result).
Proof.
  intros Hof [H1 H2] E. unfold buy_growth in E. apply pair_equal_spec in E as [<- <-].
  assert (Hcp := Cover_promise offers need (servingCost p) (limits p s ps (Z.min (room p ps m) (ps_hostRoom ps)) r) (offers_ok_nonneg _ _ Hof) H1 H2).
  split; [apply (buy_all_steps m ActionBuy); [done|done|apply Hcp|done|by eapply cover_nodes_quota]|by eapply need_after_ok].
Qed.

Lemma buyHeadroom_steps v need ps result ps' :
  need_ok need -> buyHeadroom p s v need ps = (result, ps') -> steps ps ps'.
Proof.
  intros Hn. unfold buyHeadroom. assert (Hof := market_offers_ok (v_m v) false). unfold marketOffers in Hof.
  destruct (_ != ""); [intros E; eapply buy_growth_steps in E as [E _]; [done|by apply offers_ok_delete|done]|].
  destruct (negb _); [intros E; by eapply buy_growth_steps in E as [E _]|].
  match goal with |- (let '(_, _) := ?x in _) = _ -> _ => destruct x as [r1 ps1] eqn:E1 end.
  eapply buy_growth_steps in E1 as [E1 N1]; [|by apply offers_ok_delete|done].
  destruct (Complete r1 need); [by intros [= _ <-]|].
  match goal with |- (let '(_, _) := ?x in _) = _ -> _ => destruct x as [r2 ps2] eqn:E2 end.
  eapply buy_growth_steps in E2 as [E2 _]; [|done|done]. intros [= _ <-]. by eapply steps_trans.
Qed.

Lemma grow_need_ok v : need_ok (grow_need v).
Proof. split; simpl; [by apply Forall_map, Forall_true|cap_lia]. Qed.

Lemma grow_supply_steps v need ps v' ps' :
  need_ok need -> grow_supply p s v need ps = (v', ps') -> steps ps ps'.
Proof.
  intros Hn. unfold grow_supply. destruct (resumesFor p s ps v need) as [out need1] eqn:Er.
  unfold resumesFor in Er. apply resumes_loop_sublist in Er as (Hsub & Hi & Ha).
  assert (Hn1 : need_ok need1) by (destruct Hn; split; auto).
  set (ps1 := fold_left _ out ps).
  assert (S1 : steps ps ps1).
  { apply (resumes_fold (v_m v) (growReason need1) out ps ps); [| |apply untouched_refl].
    - eapply sublist_NoDup; [|exact Hsub]. rewrite sort_by_perm. apply inMarket_NoDup.
    - intros i Hi'. eapply sublist_In in Hi'; [|exact Hsub]. rewrite sort_by_In, inMarket_In in Hi'.
      destruct Hi' as (H1 & _ & H2%ready_asleep). tauto. }
  destruct (needMet need1); [by intros [= _ <-]|].
  destruct (batching s ps1) as [b ps2] eqn:Eb. apply (batching_quiet s) in Eb.
  assert (S2 : steps ps ps2) by (eapply steps_trans; [exact S1|by apply steps_quiet]).
  destruct b; [by intros [= _ <-]|]. destruct (buyHeadroom p s v need1 ps2) as [r ps3] eqn:Eh.
  apply buyHeadroom_steps in Eh; [|done]. assert (S3 := steps_trans _ _ _ _ _ S2 Eh).
  destruct (negb _); by intros [= _ <-].
Qed.

Lemma grow_steps m ps : steps ps (grow p s m ps).
Proof.
  unfold grow. destruct (needMet _); [apply steps_quiet, quiet_update_view|].
  destruct (bool_decide _); [apply steps_quiet, quiet_update_view|].
  destruct (_ && _); [apply steps_quiet, quiet_update_view|].
  destruct (_ || _); [apply steps_quiet, quiet_update_view|].
  match goal with |- context [let '(_, _) := ?x in _] => destruct x as [v1 ps1] eqn:E1 end.
  apply grow_supply_steps in E1; [|apply grow_need_ok]. eapply steps_trans; [exact E1|apply steps_quiet, quiet_update_view].
Qed.

(** ** Reserves *)

Lemma retire_steps reason i v ps v' ps' :
  (i < length (ps_hosts ps))%nat -> reserve_host (host ps i) = true -> h_State (host ps i) <> FleetStopping ->
  retire reason i (v, ps) = (v', ps') -> steps ps ps' /\ ps_hosts ps' = ps_hosts ps /\ ps_byMarket ps' = ps_byMarket ps /\ v_target v' = v_target v.
Proof.
  intros Hi Hr Hst [= <- <-]. autorewrite with pass. split; [|done]. by apply steps_one, step_retire.
Qed.

Lemma reserve_walk_steps v ps : steps ps (rr_ps (reserve_walk p s v ps)).
Proof.
  unfold reserve_walk.
  set (ints := inMarket ps (v_m v) (fun h => resumable h && h_Protected h)).
  destruct (fold_left _ ints (v, ps)) as [v1 ps1] eqn:E1.
  assert (H1 : steps ps ps1 /\ ps_hosts ps1 = ps_hosts ps).
  { assert (H := fold_left_inv (fun st : marketView * pass => steps ps (snd st) /\ ps_hosts (snd st) = ps_hosts ps)
      (fun st i => retire ReasonInterrupted i st) ints (v, ps)). rewrite E1 in H. apply H; [split; [apply steps_refl|done]|].
    intros [v2 ps2] i Hi [S2 E2]. apply inMarket_In in Hi as (Hl & _ & Hp). bools. simpl in S2, E2.
    assert (Eh : host ps2 i = host ps i) by (unfold host; by rewrite E2).
    destruct (retire ReasonInterrupted i (v2, ps2)) as [v3 ps3] eqn:E3. simpl.
    apply retire_steps in E3 as (S3 & E3 & _); rewrite ?Eh, ?E2 in *; [split; [by eapply steps_trans|congruence]|done|..].
    - unfold reserve_host. by match goal with H : resumable _ = true |- _ => rewrite H end.
    - intros Est. unfold resumable in *. by rewrite Est in *. }
  destruct H1 as [S1 Eh1].
  apply (fold_left_inv (fun st => steps ps (rr_ps st) /\ ps_hosts (rr_ps st) = ps_hosts ps1)); [done|].
  intros st i Hi [S2 E2]. rewrite sort_by_In, inMarket_In in Hi. destruct Hi as (Hl & _ & Hp). bools.
  assert (Eh : host (rr_ps st) i = host ps1 i) by (unfold host; by rewrite E2).
  unfold reserve_one. destruct (_ && _).
  - destruct (retire ReasonSurplus i (rr_view st, rr_ps st)) as [v3 ps3] eqn:E3. simpl.
    apply retire_steps in E3 as (S3 & E3 & _); rewrite ?Eh, ?E2 in *; [split; [by eapply steps_trans|congruence]|done..].
  - destruct (counted _ _); [destruct (resumable _)|]; done.
Qed.

Lemma coverReserves_steps m need offers ps result ps' :
  offers_ok s offers -> need_ok need -> coverReserves p s m need offers ps = (result, ps') ->
  steps ps ps' /\ need_ok (need_after need result).
Proof.
  intros Hof [H1 H2] E. unfold coverReserves in E. apply pair_equal_spec in E as [<- <-].
  assert (Hcp := Cover_promise offers need (reserveCost p)
    (limits p s ps (Z.min (room p ps m) (Z.min (ps_reserveRoom ps) (ps_hostRoom ps))) (marketRanking p s m true)) (offers_ok_nonneg _ _ Hof) H1 H2).
  assert (K1 := cp_nodes _ _ _ _ Hcp). simpl in K1.
  split; [apply (buy_all_steps m ActionBuyReserve); [done|done|lia|intros _; lia|by eapply cover_nodes_quota]|by eapply need_after_ok].
Qed.

Lemma offers_ok_prefer offers shape disks : offers_ok s offers -> offers_ok s (preferHibernating offers shape disks).
Proof. intros H. unfold preferHibernating. destruct (negb _); [done|by apply offers_ok_delete]. Qed.

Lemma buyReserves_steps v need shape least ps result ps' :
  need_ok need -> buyReserves p s v need shape least ps = (result, ps') -> steps ps ps'.
Proof.
  intros Hn. unfold buyReserves. assert (Hof := market_offers_ok (v_m v) true).
  set (offers := if negb (Empty shape) then _ else _).
  assert (Ho : offers_ok s offers) by (unfold offers; destruct (negb _); [by apply offers_ok_prefer|done]). clearbody offers.
  destruct (_ || _); [intros E; by eapply coverReserves_steps in E as [E _]|].
  match goal with |- (let '(_, _) := ?x in _) = _ -> _ => destruct x as [r1 ps1] eqn:E1 end.
  eapply coverReserves_steps in E1 as [E1 N1]; [|by apply offers_ok_delete|done].
  destruct (Complete r1 need); [by intros [= _ <-]|].
  match goal with |- (let '(_, _) := ?x in _) = _ -> _ => destruct x as [r2 ps2] eqn:E2 end.
  eapply coverReserves_steps in E2 as [E2 _]; [|done|done]. intros [= _ <-]. by eapply steps_trans.
Qed.

Lemma largest_need_ok v item agg : cap_nonneg agg -> need_ok (mkNeed [largest_item v item] agg).
Proof. split; [by repeat constructor|done]. Qed.

Lemma reserveReason_pass item v ps : snd (reserveReason p s item (v, ps)) = ps.
Proof. unfold reserveReason. by destruct (Empty _). Qed.

Lemma buy_loaded_steps v short item ps : cap_nonneg short -> steps ps (snd (buy_loaded p s v short item ps)).
Proof.
  intros Hsh. unfold buy_loaded. match goal with |- context [buyReserves p s v ?n ?a ?b ps] => set (need := n); set (least := a) end.
  assert (Hn : need_ok need).
  { unfold need. destruct (Empty item); [by split; [constructor|]|]. apply largest_need_ok. cap_lia. }
  destruct (buyReserves p s v need least least ps) as [r ps1] eqn:E. apply buyReserves_steps in E; [|done].
  by rewrite reserveReason_pass.
Qed.

Lemma buy_floor_steps v short item ps : steps ps (snd (buy_floor p s v short item ps)).
Proof.
  unfold buy_floor. match goal with |- context [let '(_, _) := ?x in _] => destruct x as [[sup unmet] ps1] eqn:E1 end.
  assert (S1 : steps ps ps1).
  { destruct (Empty item); [injection E1 as _ _ <-; apply steps_refl|].
    destruct (buyReserves p s v _ item cap0 ps) as [r ps2] eqn:E2. injection E1 as _ _ <-.
    apply buyReserves_steps in E2; [done|]. apply largest_need_ok. cap_lia. }
  match goal with |- context [let '(_, _) := ?x in _] => destruct x as [sup2 ps2] eqn:E2 end.
  rewrite reserveReason_pass. eapply steps_trans; [exact S1|].
  match goal with H : (if ?b then _ else _) = _ |- _ => destruct b end; [injection E2 as _ <-; apply steps_refl|].
  match goal with H : (let '(_, _) := ?x in _) = _ |- _ => destruct x as [r ps3] eqn:E3 end. injection E2 as _ <-.
  apply buyReserves_steps in E3; [done|]. split; [constructor|]. simpl. cap_lia.
Qed.

Lemma reserves_steps m ps : steps ps (reserves p s m ps).
Proof.
  unfold reserves. assert (S1 := reserve_walk_steps (view ps m) ps). set (st := reserve_walk p s (view ps m) ps) in *. clearbody st.
  match goal with |- context [let '(_, _) := ?x in _] => destruct x as [v1 ps1] eqn:E1 end.
  eapply steps_trans; [|apply steps_quiet, quiet_update_view]. eapply steps_trans; [exact S1|].
  destruct (Empty _); [injection E1 as _ <-; apply steps_refl|]. destruct (bool_decide _); [injection E1 as _ <-; apply steps_refl|].
  destruct (_ && _); [injection E1 as _ <-; apply steps_refl|].
  destruct (batching s (rr_ps st)) as [b ps2] eqn:Eb. apply (batching_quiet s) in Eb. apply steps_quiet in Eb.
  eapply steps_trans; [exact Eb|]. destruct b; [injection E1 as _ <-; apply steps_refl|].
  destruct (t_loaded _).
  - match goal with H : buy_loaded p s ?v ?a ?b ps2 = _ |- _ => assert (S2 := buy_loaded_steps v a b ps2); rewrite H in S2 end.
    apply S2. cap_lia.
  - match goal with H : buy_floor p s ?v ?a ?b ps2 = _ |- _ => assert (S2 := buy_floor_steps v a b ps2); rewrite H in S2 end. done.
Qed.

(** ** Rightsizing and the pass *)

Lemma steady_room ps v : steady p s ps v = true -> 0 < room p ps (v_m v) /\ 0 < ps_hostRoom ps.
Proof. unfold steady. intros H. bools. lia. Qed.

Lemma rightsize_steps m ps : steps ps (rightsize p s m ps).
Proof.
  unfold rightsize. destruct (steady p s ps (view ps m)) eqn:E; cbn [negb]; [|apply steps_refl].
  apply steady_room in E as [H1 H2]. destruct (best_replacement p s ps (view ps m)) as [[[o i] b]|] eqn:Eb; [|apply steps_refl].
  apply best_replacement_spec in Eb as (_ & Er & _). apply replacement_spec in Er as (_ & _ & _ & (Ho & _) & _).
  assert (Hof := market_offers_ok (v_m (view ps m)) false). unfold offers_ok in Hof. rewrite List.Forall_forall in Hof.
  apply steps_one, step_buy; [|done]. by split; try apply fresh_nil; try apply (Hof o Ho).
Qed.

Lemma market_pass_steps ps m : steps ps (market_pass p s ps m).
Proof.
  unfold market_pass.
  assert (H : steps ps (rightsize p s m (reserves p s m (grow p s m (keep p s m ps))))).
  { eapply steps_trans; [apply (keep_steps m)|]. eapply steps_trans; [apply (grow_steps m)|].
    eapply steps_trans; [apply (reserves_steps m)|apply (rightsize_steps m)]. }
  revert H. generalize (rightsize p s m (reserves p s m (grow p s m (keep p s m ps)))). intros ps1 H.
  eapply steps_trans; [exact H|]. apply steps_quiet. by split.
Qed.

(** The pass before any stage. *)
Lemma start_hosts : hosts_from s (start_pass s).
Proof.
  apply Forall2_same_length_lookup. split; [done|]. intros i h0 h H1 H2. change (s_Hosts s !! i = Some h) in H2.
  rewrite H1 in H2. injection H2 as <-.
  exists (h_State h0), (h_Load h0), (h_ReserveMode h0), (h_HandsBack h0). split; [by destruct h0|auto].
Qed.

Lemma start_good : good s (start_pass s).
Proof.
  split.
  - apply departures_no_leaves; [constructor|apply start_hosts|constructor].
  - split; [constructor|done|by left|constructor].
Qed.

Lemma run_pass_steps : steps (start_pass s) (run_pass p s) /\ pended s (run_pass p s).
Proof.
  unfold run_pass, work_pass.
  destruct (handBack_steps p s (start_pass s) start_good) as [[S1 [L1 _]] B1]. set (ps1 := handBack p s (start_pass s)) in *.
  assert (G1 : good s ps1) by (apply (good_steps p s (start_pass s) ps1 S1), start_good).
  assert (W1 : ps_waits ps1 = []).
  { unfold ps1, handBack. apply (fold_left_inv (fun ps => ps_waits ps = [])); [done|]. intros ps i _ Hw. unfold handBack_one.
    destruct (_ || _); [done|]. destruct (Bool.eqb _ _); [done|]. by autorewrite with pass. }
  destruct (pendingItems p s ps1) as [items ps2] eqn:E2.
  destruct (pendingItems_steps p s ps1 items ps2 G1) as (O2 & S2 & P2 & I2 & B2); [apply L1; constructor|done|done|].
  destruct (targets p s items ps2) as [ms ps3] eqn:E3. apply (targets_steps p s) in E3.
  assert (C3 := calm_quiet p s _ _ E3). assert (O3 := open_calm p s _ _ O2 C3).
  assert (U3 : unbought s ps3 items).
  { split; [rewrite P2; apply sn_pending|done|]. intros it _. unfold bought_ids in *. rewrite (q_actions _ _ E3).
    rewrite B2, B1. simpl. auto. }
  assert (C4 := cover_steps p s items ps3 O3 U3).
  assert (O4 := open_calm p s _ _ O3 C4).
  assert (S4 : steps (start_pass s) (cover p s items ps3)).
  { eapply steps_trans; [exact S1|]. eapply steps_trans; [exact S2|]. eapply steps_trans; [apply C3|apply C4]. }
  revert O4 S4. generalize (cover p s items ps3). intros ps O4 S4.
  assert (S5 : steps ps (fold_left (market_pass p s) ms ps)).
  { apply (fold_left_inv (steps ps)); [apply steps_refl|]. intros ps' m _ H. eapply steps_trans; [exact H|apply market_pass_steps]. }
  split; [by eapply steps_trans|]. eapply steps_inv; [|exact S5|apply O4]. intros q q'. apply pended_step.
Qed.

End KeepSim.
