(* ===== verification/TargetProps.v ===== *)
(** What a market's targets promise: a held target is the peak of what the
    passes within its window asked for, and the running and stopped targets
    hold what the policy asks of the market.  The fleets it starts with are
    evaluated here and in the other files of theorems about planning. *)

From S2P Require Import Prelude Capacity Catalog Calendar Billing Policy Placement Offers Cover Fleet Pass Demand Purchase Keep Plan Steps Simulation.

Definition planSmall : CatalogType := mkType "m.small" "" (twoPerCore 16) (16 * gib) "" 0 false false [100000; 100000; 100000; 100000].
Definition planLarge : CatalogType := mkType "m.large" "" (twoPerCore 64) (64 * gib) "" 0 false false [300000; 300000; 300000; 300000].
Definition small_room : FleetCapacity := Usable planSmall 0.
Definition large_room : FleetCapacity := Usable planLarge 0.

(** On-demand floors only. *)
Definition plan_policy (warm stopped : FleetCapacity) : Policy :=
  let d := DefaultPolicy in
  mkPolicy (MarginPercent d) (Provision d) (CostHorizon d) (MaxGrowthActions d) mr0 (mkMR (mkHT warm 0) (mkHT stopped 0) false false) ∅
    (p_LargestShape d) (ArrivalWindow d) (WarmWindow d) (Batch d) (Policy.Keep d) (SpotPriceAge d) (SpotWait d) (LossCapPercent d)
    (LossBudget d) (QueueTimeout d) (Starts d).

Definition plan_inputs : OfferInputs :=
  mkInputs sample_now [planSmall; planLarge]
    {[ "us-east-2" := mkNetwork "vpc" "sg" [mkSubnet "subnet-1" "us-east-2a" "use2-az1"] ]}
    [] [] (default [] (FleetComputeRates published sample_now)) ∅ ∅ ∅ [] ∅ false false "us-east-2" ∅.

Definition sample_host (id : HostID) (t : CatalogType) (state : FleetState) (requested : bool) (load : FleetCapacity) (containers : Z) :
    FleetHost :=
  mkHost id (t_Name t) "us-east-2" "us-east-2a" "use2-az1" MarketOnDemand "" (Usable t 0) state load cap0 containers 0
    false false requested false (match state with FleetStopped => Some ReserveStop | _ => None end) false true
    (Some 105000) (sample_now - hour) None None None false false [] false.

Definition sample_work (cpu memory : Z) : Requirement := mkReq 0 None "" "" "" false [] 0 cpu memory 0 None None false.
Definition sample_group (cpu memory : Z) (ids : list uuid) : DemandGroup :=
  mkDG (sample_work cpu memory) (map (fun id => mkPC id sample_now None) ids).

(** The inputs with a known on-demand quota. *)
Definition quota_key : QuotaKey := mkQK "us-east-2" QuotaStandard MarketOnDemand.
Definition quota_inputs (vcpus : Z) : OfferInputs :=
  mkInputs sample_now (Catalog plan_inputs) (Networks plan_inputs) [] [] (Rates plan_inputs) ∅ ∅ ∅ [mkQuota quota_key vcpus] ∅ false false
    "us-east-2" ∅.

Definition sample_snapshot (hosts : list FleetHost) (pending : list DemandGroup) (burst : gmap ReserveMarket FleetCapacity)
    (hostRoom reserveRoom : Z) : FleetSnapshot :=
  mkSnapshot sample_now hosts pending ∅ ∅ burst ∅ ∅ plan_inputs hostRoom reserveRoom 0 ∅ 0.

(** Hosts that serve work, serve nothing, start, are only requested and sleep;
    containers that fit the reserve, need a larger host, or share one. *)
Definition sample_fleet : FleetSnapshot :=
  sample_snapshot
    [sample_host 1 planSmall FleetServing false (mkCap 2000 (4 * gib) 0) 2;
     sample_host 2 planSmall FleetServing false cap0 0;
     sample_host 3 planLarge FleetServing false cap0 0;
     sample_host 4 planSmall FleetStarting true cap0 0;
     sample_host 5 planSmall FleetStopped false cap0 0]
    [sample_group 6000 (8 * gib) [11; 12; 13; 14; 15; 16; 17; 18]; sample_group 26000 (40 * gib) [21; 22]] ∅ 10 5.

Definition sample_idle_fleet : FleetSnapshot :=
  sample_snapshot
    [sample_host 1 planSmall FleetServing false (mkCap 2000 (4 * gib) 0) 2;
     sample_host 2 planSmall FleetServing false cap0 0;
     sample_host 3 planLarge FleetServing false cap0 0;
     sample_host 4 planSmall FleetStarting true cap0 0] [] ∅ 10 5.

(** One idle host of a costly type, and more reserves than the target. *)
Definition sample_costly_fleet : FleetSnapshot :=
  sample_snapshot [sample_host 1 planLarge FleetServing false cap0 0] [] ∅ 10 5.
Definition sample_reserve_fleet : FleetSnapshot :=
  sample_snapshot [sample_host 5 planSmall FleetStopped false cap0 0; sample_host 6 planSmall FleetStopped false cap0 0] [] ∅ 10 5.

(** A burst of three small shapes over three stopped reserves, with room for
    one more host. *)
Definition sample_burst_fleet : FleetSnapshot :=
  sample_snapshot (map (fun id => sample_host id planSmall FleetStopped false cap0 0) [1; 2; 3]) []
    {[ mkRM false "" := Times small_room 3 ]} 1 5.

(** ** Checking a snapshot *)

Definition snapshot_okb (s : FleetSnapshot) : bool :=
  bool_decide (NoDup (map h_ID (s_Hosts s))) && bool_decide (NoDup (pending_ids s)) &&
  forallb (fun h => implb (asleep h) (negb (h_Requested h))) (s_Hosts s) &&
  forallb (fun g => Covers (reservedShape (dg_Need g)) cap0) (s_Pending s) &&
  bool_decide (NoDup (map t_Name (Catalog (s_Offers s)))) && forallb (fun t => 0 <=? VCPUs t) (Catalog (s_Offers s)).

Lemma snapshot_okb_spec s : snapshot_okb s = true -> snapshot_ok s.
Proof.
  unfold snapshot_okb. rewrite !andb_true_iff, !bool_decide_eq_true, !forallb_forall. intros [[[[[H1 H2] H3] H4] H5] H6]. split; try done.
  - intros h Hh Ha. specialize (H3 h Hh). rewrite Ha in H3. by destruct (h_Requested h).
  - intros g Hg. apply Covers_spec. apply (H4 g Hg).
  - intros t Ht. apply Z.leb_le, (H6 t Ht).
Qed.

Lemma sample_fleet_ok : snapshot_ok sample_fleet.
Proof. apply snapshot_okb_spec. vm_compute. reflexivity. Qed.

Lemma sample_idle_fleet_ok : snapshot_ok sample_idle_fleet.
Proof. apply snapshot_okb_spec. vm_compute. reflexivity. Qed.

(** ** Held targets *)

Lemma hold_within p value now window :
  time_sub now (lp_At p) < window -> lp_Load (hold p value now window) = Upper (lp_Load p) value.
Proof.
  intros Hw. unfold hold. destruct (value == lp_Load p) eqn:Ev; bools.
  { subst. simpl. apply cap_eq; cap_lia. }
  destruct (Covers value (lp_Load p)) eqn:Ec; simpl.
  { cap_simpl. apply cap_eq; cap_lia. }
  by replace (time_sub now (lp_At p) >=? window) with false by lia.
Qed.

Lemma hold_past p value now window : window <= time_sub now (lp_At p) -> lp_Load (hold p value now window) = value.
Proof.
  intros Hw. unfold hold. destruct (value == lp_Load p) eqn:Ev; bools; [done|].
  replace (time_sub now (lp_At p) >=? window) with true by lia. by rewrite orb_true_r.
Qed.

Lemma hold_covers p value now window : value ⊑c lp_Load (hold p value now window).
Proof.
  destruct (Z.lt_ge_cases (time_sub now (lp_At p)) window) as [H|H];
    [rewrite (hold_within _ _ _ _ H)|rewrite (hold_past _ _ _ _ H)]; cap_lia.
Qed.

Lemma hold_At p value now window : lp_At (hold p value now window) = lp_At p \/ lp_At (hold p value now window) = now.
Proof. unfold hold. destruct (value == lp_Load p); [auto|]. case_match; auto. Qed.

(** The passes of a window, each with the value it computes and its time. *)
Definition hold_run (window : Z) (passes : list (FleetCapacity * Z)) (p : LoadPeak) : LoadPeak :=
  fold_left (fun p '(value, now) => hold p value now window) passes p.

Definition peak_of (passes : list (FleetCapacity * Z)) (c : FleetCapacity) : FleetCapacity :=
  fold_left (fun c '(value, _) => Upper c value) passes c.

Lemma time_sub_later now a b : a <= b -> time_sub now b <= time_sub now a.
Proof. unfold time_sub. lia. Qed.

Lemma hold_run_peak window passes p0 p :
  lp_At p0 <= lp_At p -> Forall (fun x => lp_At p0 <= x.2 /\ time_sub x.2 (lp_At p0) < window) passes ->
  lp_Load (hold_run window passes p) = peak_of passes (lp_Load p).
Proof.
  revert p. induction passes as [|[value now] passes IH]; intros p Hat Hp; [done|]. simpl.
  apply Forall_cons in Hp as [[Hnow Hlt] Hp]. simpl in *. pose proof (time_sub_later now _ _ Hat).
  rewrite IH; [|destruct (hold_At p value now window); lia|done]. by rewrite hold_within by lia.
Qed.

(** ** Targets *)

Lemma warm_target_spec p s m load :
  let '(floor, warm, _) := warm_target p s m load in
  Floor (Warm (Reserve p m)) ⊑c floor /\ floor ⊑c warm /\ Percent load (LoadPercent (Warm (Reserve p m))) ⊑c warm.
Proof.
  unfold warm_target. destruct (negb (Empty _)), (spotCPU m && _); simpl;
    generalize (Percent load (LoadPercent (Warm (Reserve p m)))); intros; repeat split; cap_lia.
Qed.

(** ** Theorems *)

(** a held target rises at once and holds its peak for the window: after
    any passes within the window since the target last changed, it is exactly
    the component-wise maximum of what it held and of what every pass asked
    for; a pass after the window takes its own value. *)
Theorem hold_is_peak (window : Z) (p : LoadPeak) (passes : list (FleetCapacity * Z)) (value : FleetCapacity) (now : Z) :
  Forall (fun x => lp_At p <= x.2 /\ time_sub x.2 (lp_At p) < window) passes ->
  lp_Load (hold_run window passes p) = peak_of passes (lp_Load p) /\
  (window <= time_sub now (lp_At (hold_run window passes p)) -> lp_Load (hold (hold_run window passes p) value now window) = value).
Proof. intros Hp. split; [by apply (hold_run_peak window passes p p)|apply hold_past]. Qed.

Lemma hold_is_peak_witness :
  lp_Load (hold_run (5 * minute) [(mkCap 2000 (8 * gib) 0, sample_now); (mkCap 6000 (4 * gib) 0, sample_now + minute)]
    (mkPeak (mkCap 4000 (4 * gib) 0) (sample_now - minute))) = mkCap 6000 (8 * gib) 0.
Proof.
  refine (eq_trans (proj1 (hold_is_peak (5 * minute) (mkPeak (mkCap 4000 (4 * gib) 0) (sample_now - minute))
    [(mkCap 2000 (8 * gib) 0, sample_now); (mkCap 6000 (4 * gib) 0, sample_now + minute)] cap0 0 _)) _).
  - repeat constructor; vm_compute; congruence.
  - vm_compute. reflexivity.
Defined.

(** the window counts from the held target's last change, not from the
    last pass that needed it: passes that ask for exactly the held value leave
    the target and its time alone, so the first lower pass once the window has
    passed since the change lowers the target at once, however recently the
    whole of it was needed. *)
Theorem hold_counts_from_change (window : Z) (p : LoadPeak) (passes : list (FleetCapacity * Z)) (value : FleetCapacity) (now : Z) :
  Forall (fun x => x.1 = lp_Load p) passes -> window <= time_sub now (lp_At p) ->
  hold_run window passes p = p /\ lp_Load (hold (hold_run window passes p) value now window) = value.
Proof.
  intros Hp Hw. assert (E : hold_run window passes p = p).
  { induction passes as [|[v t] passes IH]; [done|]. apply Forall_cons in Hp as [Hv Hp]. simpl in *. subst v.
    replace (hold p (lp_Load p) t window) with p by (unfold hold; by rewrite bool_decide_true). by apply IH. }
  rewrite E. split; [done|by apply hold_past].
Qed.

Lemma hold_counts_from_change_witness :
  lp_Load (hold (hold_run (5 * minute) [(mkCap 4000 (4 * gib) 0, sample_now - second)] (mkPeak (mkCap 4000 (4 * gib) 0) (sample_now - hour)))
    cap0 sample_now (5 * minute)) = cap0.
Proof.
  apply (hold_counts_from_change (5 * minute) (mkPeak (mkCap 4000 (4 * gib) 0) (sample_now - hour))
    [(mkCap 4000 (4 * gib) 0, sample_now - second)] cap0 sample_now).
  - repeat constructor.
  - vm_compute. discriminate.
Defined.

(** a market's targets hold what its policy asks for. The running target
    is the load plus headroom; the headroom covers the warm floor and the
    policy's share of load, is split into parts that together cover it, and
    the held running target never falls below this pass's. The stopped target
    covers the policy's and, where the market keeps one, its floor beside the
    largest shape. *)
Theorem target_holds_policy (p : Policy) (s : FleetSnapshot) (hosts : list FleetHost) (m : ReserveMarket) (items : list coverItem) :
  let t := target p s hosts m items in
  let r := Reserve p m in
  t_want t = Plus (t_load t) (t_headroom t) /\
  Covers (t_headroom t) (Floor (Warm r)) = true /\ Covers (t_headroom t) (Percent (t_load t) (LoadPercent (Warm r))) = true /\
  (cap_nonneg (t_headroom t) -> Covers (total (t_wantParts t)) (t_headroom t) = true) /\
  Covers (lp_Load (mh_Running (t_holds t))) (t_want t) = true /\
  Covers (lp_Load (mh_Stopped (t_holds t))) (ht_Of (Stopped r) (t_load t)) = true /\
  (FitLargest r = true -> Covers (lp_Load (mh_Stopped (t_holds t))) (Plus (Floor (Stopped r)) (t_largest t)) = true).
Proof.
  intros t r. subst t r. unfold target. destruct (item_demand m items _ _ _) as [[load recent] disks].
  pose proof (warm_target_spec p s m load) as Hw. destruct (warm_target p s m load) as [[floor warm] arriving].
  destruct Hw as (H1 & H2 & H3). set (r := Reserve p m) in *.
  destruct (FitLargest r) eqn:Ef; [destruct (ls_of _ _ _ _ _) as [largest largestDisks]|]; cbn [t_want t_load t_headroom t_wantParts t_holds t_largest mh_Running mh_Stopped].
  all: split; [done|]; split; [apply Covers_spec; by etransitivity|]; split; [by apply Covers_spec|];
    split; [intros Hn; by apply split_covers|]; split; [apply Covers_spec, hold_covers|].
  - rewrite !Covers_spec. split; [|intros _]; (etransitivity; [|apply hold_covers]); generalize (ht_Of (Stopped r) load); intros; cap_lia.
  - rewrite !Covers_spec. split; [apply hold_covers|done].
Qed.
