(* ===== verification/KeepProps.v ===== *)
(** What each market's walks promise: the hosts kept after a cut hold the
    market's target without the hosts that leave, the reserves left after
    surplus ones retire hold the stopped target, and a replacement pays
    back. *)

From S2P Require Import Prelude Capacity Catalog Calendar Billing Policy Placement Offers Cover Fleet Pass Demand Purchase Keep Plan Steps Simulation KeepSim TargetProps.

(** ** Hosts that keep their record through a walk *)

(** What no walk changes of a host. *)
Definition same_place (h h' : FleetHost) : Prop := market h = market h' /\ h_Replaces h = h_Replaces h'.

Lemma leave_static s v i ps :
  exists f, ps_hosts (leave s v i ps) = alter f i (ps_hosts ps) /\ (forall h, same_place (f h) h) /\
    ps_claimed (leave s v i ps) = ps_claimed ps.
Proof.
  destruct (leave_act s v i ps) as (a & f & n & Hk & ->). exists f. autorewrite with pass. split; [done|]. split; [|done].
  by destruct Hk.
Qed.

Lemma host_alter_static ps ps' f i j :
  ps_hosts ps' = alter f i (ps_hosts ps) -> (forall h, same_place (f h) h) -> same_place (host ps' j) (host ps j).
Proof.
  intros E Hf. unfold host. rewrite E. destruct (decide (i = j)) as [->|Hne]; [|by rewrite list_lookup_alter_ne].
  rewrite list_lookup_alter_eq. destruct (ps_hosts ps !! j); simpl; [apply Hf|done].
Qed.

Section Keep.
Context (p : Policy) (s : FleetSnapshot).

(** What a kept host covers of the running target, and the free room the kept
    serving hosts that stay bring. *)
Definition cover_part (ps : pass) (v : marketView) (i : nat) : FleetCapacity :=
  let h := host ps i in
  if negb (serving h) then cap0 else if leaving ps v h then h_Load h else h_Usable h.
Definition ready_rooms (ps : pass) (v : marketView) (kept : list nat) : list FleetCapacity :=
  map (fun i => host_room (host ps i)) (List.filter (fun i => serving (host ps i) && negb (leaving ps v (host ps i))) kept).

(** The hosts this pass bought to serve in the market. *)
Definition bought_in (ps : pass) (m : ReserveMarket) : list plannedHost :=
  List.filter (fun n => (pl_market n == m) && negb (pl_reserve n)) (ps_planned ps).

Definition hosts_nonneg (ps : pass) : Prop := forall i, cap_nonneg (h_Usable (host ps i)) /\ cap_nonneg (h_Load (host ps i)).

Lemma hosts_nonneg_check ps :
  forallb (fun h => Covers (h_Usable h) cap0 && Covers (h_Load h) cap0) (ps_hosts ps) = true -> hosts_nonneg ps.
Proof.
  intros H i. unfold host. destruct (ps_hosts ps !! i) as [h|] eqn:E; simpl; [|by split].
  apply lookup_In in E. rewrite forallb_forall in H. specialize (H h E). apply andb_true_iff in H as [H1 H2].
  by split; apply Covers_spec.
Qed.

Lemma cover_part_nonneg ps v i : hosts_nonneg ps -> cap_nonneg (cover_part ps v i).
Proof. intros H. destruct (H i). unfold cover_part. by repeat case_match. Qed.

Lemma leaving_same ps ps' v v' h :
  v_m v = v_m v' -> ps_claimed ps = ps_claimed ps' -> length (ps_hosts ps) = length (ps_hosts ps') ->
  (forall i, same_place (host ps i) (host ps' i)) -> leaving ps v h = leaving ps' v' h.
Proof.
  intros Em Ec El Hs. unfold leaving, stays, inMarket. rewrite Em, Ec, El.
  erewrite List.filter_ext; [done|]. intros i. cbv beta. by destruct (Hs i) as [-> ->].
Qed.

(** The state of the walk after the hosts [pre]. *)
Record keep_inv (ps : pass) (v : marketView) (pre : list nat) (k : keep_run) : Prop := {
  ki_host i : In i (v_kept (k_view k)) \/ ~ In i pre -> host (k_ps k) i = host ps i;
  ki_static i : same_place (host (k_ps k) i) (host ps i);
  ki_length : length (ps_hosts (k_ps k)) = length (ps_hosts ps);
  ki_claimed : ps_claimed (k_ps k) = ps_claimed ps;
  ki_target : v_target (k_view k) = v_target v;
  ki_kept i : In i (v_kept (k_view k)) -> In i pre;
  ki_covered : v_covered (k_view k) = totalOf (v_kept (k_view k)) (cover_part ps v);
  ki_ready : k_ready k = ready_rooms ps v (v_kept (k_view k));
  ki_capacity : v_capacity (k_view k) =
    Plus (totalOf (bought_in ps (v_m v)) (fun n => o_Usable (pl_offer n))) (totalOf (v_kept (k_view k)) (fun i => h_Usable (host ps i)));
  ki_rooms : k_rooms k =
    map (fun n => Clamp (Minus (o_Usable (pl_offer n)) (pl_holds n))) (bought_in ps (v_m v)) ++
    map (fun i => host_room (host ps i)) (v_kept (k_view k));
  ki_cut i : In i pre -> ~ In i (v_kept (k_view k)) -> stays ps (host ps i) = false /\ surplus k (host ps i) = true }.

(** Keeping a host as the walk does. *)
Definition keep_host (k : keep_run) (i : nat) : keep_run :=
  let ps := k_ps k in
  let h := host ps i in
  let v := v_set_capacity (Plus (v_capacity (k_view k)) (h_Usable h)) (v_set_kept (v_kept (k_view k) ++ [i]) (k_view k)) in
  let rooms := k_rooms k ++ [host_room h] in
  if negb (serving h) then mkKeep ps v (k_ready k) rooms
  else if leaving ps v h then mkKeep ps (v_set_covered (Plus (v_covered v) (h_Load h)) v) (k_ready k) rooms
  else mkKeep ps (v_set_covered (Plus (v_covered v) (h_Usable h)) v) (k_ready k ++ [host_room h]) rooms.

Lemma keep_one_cases k i :
  (stays (k_ps k) (host (k_ps k) i) = false /\ surplus k (host (k_ps k) i) = true /\
   keep_one s k i = mkKeep (leave s (k_view k) i (k_ps k)) (k_view k) (k_ready k) (k_rooms k)) \/
  keep_one s k i = keep_host k i.
Proof. unfold keep_one. destruct (stays (k_ps k) _); simpl; [by right|]. destruct (surplus k _); simpl; auto. Qed.

(** Keeping more hosts leaves a surplus host surplus. *)
Lemma surplus_mono k k' h :
  v_target (k_view k') = v_target (k_view k) -> v_covered (k_view k) ⊑c v_covered (k_view k') ->
  v_capacity (k_view k) ⊑c v_capacity (k_view k') -> (exists more, k_ready k' = k_ready k ++ more) ->
  (exists more, k_rooms k' = k_rooms k ++ more) -> surplus k h = true -> surplus k' h = true.
Proof.
  intros Et Hc Hp [m1 E1] [m2 E2]. unfold surplus. rewrite Et, E1, E2.
  destruct (h_Requested h); rewrite !andb_true_iff, !Covers_spec; intros [H1 H2]; (split; [by etransitivity|by apply placesAll_app]).
Qed.

(** What [keep_host] adds, read in the state before the walk. *)
Lemma keep_host_fields ps v k i :
  host (k_ps k) i = host ps i -> v_m (k_view k) = v_m v -> ps_claimed (k_ps k) = ps_claimed ps ->
  length (ps_hosts (k_ps k)) = length (ps_hosts ps) -> (forall j, same_place (host (k_ps k) j) (host ps j)) ->
  let k' := keep_host k i in
  k_ps k' = k_ps k /\ v_target (k_view k') = v_target (k_view k) /\ v_kept (k_view k') = v_kept (k_view k) ++ [i] /\
  v_covered (k_view k') = Plus (v_covered (k_view k)) (cover_part ps v i) /\
  v_capacity (k_view k') = Plus (v_capacity (k_view k)) (h_Usable (host ps i)) /\
  k_ready k' = k_ready k ++ ready_rooms ps v [i] /\ k_rooms k' = k_rooms k ++ [host_room (host ps i)].
Proof.
  intros Eh Em Ec El Hs. unfold keep_host, cover_part, ready_rooms. rewrite Eh.
  rewrite (leaving_same (k_ps k) ps _ v (host ps i)); [|done..]. simpl.
  destruct (serving (host ps i)); simpl; [destruct (leaving ps v (host ps i)); simpl|]; repeat split; rewrite ?app_nil_r; try done.
  destruct (v_covered (k_view k)). unfold Plus. simpl. f_equal; lia.
Qed.

Lemma ready_rooms_app ps v l k : ready_rooms ps v (l ++ k) = ready_rooms ps v l ++ ready_rooms ps v k.
Proof. unfold ready_rooms. by rewrite List.filter_app, map_app. Qed.

Lemma stays_same ps ps' h : ps_claimed ps = ps_claimed ps' -> stays ps h = stays ps' h.
Proof. intros E. unfold stays. by rewrite E. Qed.

Lemma keep_inv_leave ps v pre k i :
  ~ In i pre -> keep_inv ps v pre k -> stays (k_ps k) (host (k_ps k) i) = false -> surplus k (host (k_ps k) i) = true ->
  keep_inv ps v (pre ++ [i]) (mkKeep (leave s (k_view k) i (k_ps k)) (k_view k) (k_ready k) (k_rooms k)).
Proof.
  intros Hi [H1 H2 H3 H4 H5 H6 H7 H8 H9 H10 H11] Hs Hsur.
  destruct (leave_static s (k_view k) i (k_ps k)) as (f & Ef & Hf & Ec).
  assert (Hk : host (k_ps k) i = host ps i) by (apply H1; by right). rewrite Hk in *.
  split; simpl; try done.
  - intros j Hj. assert (j <> i). { intros ->. destruct Hj as [Hj|Hj]; [by apply H6 in Hj|apply Hj, in_or_app; simpl; auto]. }
    rewrite (host_alter (k_ps k) _ f i j); [|done..]. apply H1. destruct Hj as [Hj|Hj]; [auto|right; contradict Hj; apply in_or_app; auto].
  - intros j. destruct (host_alter_static (k_ps k) _ f i j Ef Hf), (H2 j). split; congruence.
  - by rewrite Ef, length_alter.
  - congruence.
  - intros j Hj. apply in_or_app. auto.
  - intros j Hj Hn. apply in_app_or in Hj as [Hj|[<-|[]]]; [by apply H11|]. split; [|done]. by rewrite <- Hs; apply stays_same.
Qed.

Lemma keep_inv_keep ps v pre k i :
  hosts_nonneg ps -> ~ In i pre -> keep_inv ps v pre k -> keep_inv ps v (pre ++ [i]) (keep_host k i).
Proof.
  intros Hnn Hi [H1 H2 H3 H4 H5 H6 H7 H8 H9 H10 H11].
  assert (Hk : host (k_ps k) i = host ps i) by (apply H1; by right).
  assert (Em : v_m (k_view k) = v_m v) by (unfold v_m; by rewrite H5).
  destruct (keep_host_fields ps v k i Hk Em H4 H3 H2) as (F1 & F2 & F3 & F4 & F5 & F6 & F7).
  split; rewrite ?F1, ?F2, ?F3; try done.
  - intros j Hj. destruct (decide (j = i)) as [->|Hne]; [done|]. apply H1.
    destruct Hj as [Hj|Hj]; [apply in_app_or in Hj as [Hj|[Hj|[]]]; [by left|congruence]|]. right. contradict Hj. apply in_or_app. auto.
  - intros j Hj. apply in_or_app. apply in_app_or in Hj as [Hj|Hj]; auto.
  - by rewrite F4, H7, totalOf_snoc.
  - by rewrite F6, H8, ready_rooms_app.
  - by rewrite F5, H9, totalOf_snoc, Plus_assoc.
  - by rewrite F7, H10, <- app_assoc, map_app.
  - intros j Hj Hn. assert (Hj' : In j pre /\ ~ In j (v_kept (k_view k))).
    { apply in_app_or in Hj as [Hj|[<-|[]]]; [split; [done|]|]; [|exfalso; apply Hn; apply in_or_app; simpl; auto].
      contradict Hn. apply in_or_app. auto. }
    destruct (H11 j) as [Hs Hu]; [tauto..|]. split; [done|]. eapply surplus_mono; [done|..|exact Hu].
    + rewrite F4. pose proof (cover_part_nonneg ps v i Hnn). cap_lia.
    + rewrite F5. destruct (Hnn i). cap_lia.
    + eauto.
    + eauto.
Qed.

Lemma keep_planned_spec v planned v1 rooms :
  keep_planned v planned = (v1, rooms) ->
  let bought := List.filter (fun n => (pl_market n == v_m v) && negb (pl_reserve n)) planned in
  v_target v1 = v_target v /\ v_kept v1 = v_kept v /\ v_covered v1 = v_covered v /\
  v_capacity v1 = Plus (v_capacity v) (totalOf bought (fun n => o_Usable (pl_offer n))) /\
  rooms = map (fun n => Clamp (Minus (o_Usable (pl_offer n)) (pl_holds n))) bought.
Proof.
  revert v1 rooms. unfold keep_planned. induction planned as [|n planned IH] using rev_ind; intros v1 rooms; simpl.
  { intros [= <- <-]. repeat split. destruct (v_capacity v). unfold Plus. simpl. f_equal; lia. }
  rewrite fold_left_app. simpl. destruct (fold_left _ planned _) as [v2 rooms2].
  destruct (IH v2 rooms2 eq_refl) as (E1 & E2 & E3 & E4 & E5). rewrite List.filter_app. simpl.
  replace (v_m v2) with (v_m v) by (unfold v_m; by rewrite E1).
  destruct (_ && _); intros [= <- <-]; simpl; rewrite ?app_nil_r; [|done].
  rewrite E4, totalOf_snoc, map_app, Plus_assoc, E5. done.
Qed.

(** A view no stage has walked yet. *)
Definition fresh_view (v : marketView) : Prop := v_kept v = [] /\ v_covered v = cap0 /\ v_capacity v = cap0.

Lemma keep_walk_inv m ps :
  hosts_nonneg ps -> fresh_view (view ps m) ->
  keep_inv ps (view ps m) (keepOrder p s ps (view ps m)) (keep_walk p s m ps).
Proof.
  intros Hnn (V1 & V2 & V3). unfold keep_walk. set (v := view ps m) in *.
  destruct (keep_planned v (ps_planned ps)) as [v1 rooms] eqn:Ep.
  destruct (keep_planned_spec v _ _ _ Ep) as (E1 & E2 & E3 & E4 & E5).
  apply (fold_left_prefix (keep_inv ps v)).
  - split; simpl; rewrite ?E1, ?E2, ?E3, ?V1, ?V2; try done.
    + rewrite E4, V3, Plus_0_l, Plus_comm. symmetry. apply Plus_0_l.
    + by rewrite app_nil_r.
  - intros pre i post k El Hk.
    assert (Hi : ~ In i pre).
    { assert (Hnd : NoDup (keepOrder p s ps v)) by (unfold keepOrder; rewrite sort_by_perm; apply inMarket_NoDup).
      rewrite El in Hnd. apply NoDup_app in Hnd as (_ & Hd & _). intros Hin. apply (Hd i); [by apply list_elem_of_In|left]. }
    destruct (keep_one_cases k i) as [(Hs & Hu & ->)| ->]; [by apply keep_inv_leave|by apply keep_inv_keep].
Qed.

End Keep.

(** ** The walk over reserves *)

Section Reserves.
Context (p : Policy) (s : FleetSnapshot) (v0 : marketView) (ps0 : pass).
Hypothesis unique : forall i j, (i < length (ps_hosts ps0))%nat -> (j < length (ps_hosts ps0))%nat ->
  h_ID (host ps0 i) = h_ID (host ps0 j) -> i = j.

Local Abbreviation stopped_target := (lp_Load (mh_Stopped (t_holds (v_target v0)))).

(** Reserve [i] was walked and is kept, ready. *)
Definition ready_kept (v : marketView) (i : nat) : Prop :=
  (i < length (ps_hosts ps0))%nat /\ resumable (host ps0 i) = true /\ counted v (host ps0 i) = true.

(** The state of the walk after the reserves [pre]; [retired] are those
    retired before it. *)
Record reserve_inv (retired : gset HostID) (pre : list nat) (st : reserve_run) : Prop := {
  ri_hosts : ps_hosts (rr_ps st) = ps_hosts ps0;
  ri_target : v_target (rr_view st) = v_target v0;
  ri_retired id : id ∈ v_retired (rr_view st) -> id ∈ retired \/
    (exists i, In i pre /\ id = h_ID (host ps0 i)) /\ Covers (rr_ready st) stopped_target && rr_readyLargest st = true;
  ri_ready : exists kept, NoDup kept /\ (forall i, In i kept -> In i pre /\ ready_kept (rr_view st) i) /\
    rr_ready st = usable_of ps0 kept /\
    (rr_readyLargest st = true -> Empty (t_largest (v_target v0)) = true \/ exists i, In i kept /\ fitsLargest s v0 (host ps0 i) = true) }.

Lemma fitsLargest_target v h : v_target v = v_target v0 -> fitsLargest s v h = fitsLargest s v0 h.
Proof. intros E. unfold fitsLargest, view_fits. by rewrite E. Qed.

Lemma host_same ps i : ps_hosts ps = ps_hosts ps0 -> host ps i = host ps0 i.
Proof. intros E. unfold host. by rewrite E. Qed.

(** Retiring reserve [i] counts every other reserve as before. *)
Lemma counted_retire v i j :
  (i < length (ps_hosts ps0))%nat -> (j < length (ps_hosts ps0))%nat -> j <> i -> counted v (host ps0 j) = true ->
  counted (v_set_retired ({[ h_ID (host ps0 i) ]} ∪ v_retired v) v) (host ps0 j) = true.
Proof.
  intros Hi Hj Hne. unfold counted. simpl. rewrite !andb_true_iff, !negb_true_iff, !bool_decide_eq_false.
  intros [H1 H2]. split; [done|]. rewrite elem_of_union, elem_of_singleton. intros [E|E]; [|done]. by apply Hne, unique.
Qed.

Lemma reserve_one_inv retired pre st i :
  (i < length (ps_hosts ps0))%nat -> (forall j, In j pre -> (j < length (ps_hosts ps0))%nat) -> ~ In i pre ->
  reserve_inv retired pre st -> reserve_inv retired (pre ++ [i]) (reserve_one s stopped_target st i).
Proof.
  intros Hi Hpre Hni [H1 H2 H3 (kept & K1 & K2 & K3 & K4)]. unfold reserve_one. rewrite (host_same _ i H1).
  destruct (Covers (rr_ready st) stopped_target && rr_readyLargest st) eqn:Ec; simpl.
  - split; simpl; rewrite ?act_hosts, ?(host_same _ i H1); [done|done| |].
    + intros id. rewrite elem_of_union, elem_of_singleton. intros [->|Hid].
      * right. split; [|done]. exists i. split; [apply in_or_app; simpl; auto|done].
      * destruct (H3 id Hid) as [?|[(j & Hj & ->) _]]; [by left|]. right. split; [|done]. exists j. split; [apply in_or_app; auto|done].
    + exists kept. repeat split; [done|..|done|done]; destruct (K2 _ H) as (J1 & J2 & J3 & J4); [apply in_or_app; auto|done|done|].
      apply counted_retire; [done..| |done]. intros ->. done.
  - assert (Hr : forall id, id ∈ v_retired (rr_view st) -> id ∈ retired).
    { intros id Hid. destruct (H3 id Hid) as [?|[_ Hc]]; [done|congruence]. }
    assert (Hk : forall j, In j kept -> In j (pre ++ [i]) /\ ready_kept (rr_view st) j).
    { intros j Hj. destruct (K2 j Hj). split; [apply in_or_app; auto|done]. }
    destruct (counted (rr_view st) (host ps0 i)) eqn:Ecn; [destruct (resumable (host ps0 i)) eqn:Er|].
    + split; simpl; [done|done|intros; left; auto|]. exists (kept ++ [i]). rewrite fitsLargest_target by done. split; [|split; [|split]].
      * apply NoDup_app. split; [done|]. split; [|apply NoDup_singleton]. intros x Hx. rewrite list_elem_of_singleton. intros ->.
        apply list_elem_of_In in Hx. by apply K2 in Hx as [Hx _].
      * intros j Hj. apply in_app_or in Hj as [Hj|[<-|[]]]; [auto|]. split; [apply in_or_app; simpl; auto|]. by split.
      * unfold usable_of. by rewrite totalOf_snoc, K3.
      * intros [Hl|Hl]%orb_true_iff; [|right; exists i; split; [apply in_or_app; simpl; auto|done]].
        destruct (K4 Hl) as [?|(j & Hj & ?)]; [by left|right]. exists j. split; [apply in_or_app; auto|done].
    + split; simpl; [done|done|intros; left; auto|]. exists kept. done.
    + split; [done|done|intros; left; auto|]. exists kept. done.
Qed.

(** The interrupted reserves retire first. *)
Lemma retire_all reason idx v ps v' ps' :
  ps_hosts ps = ps_hosts ps0 -> fold_left (fun st i => retire reason i st) idx (v, ps) = (v', ps') ->
  ps_hosts ps' = ps_hosts ps0 /\ v_target v' = v_target v /\
  forall id, id ∈ v_retired v' -> id ∈ v_retired v \/ exists i, In i idx /\ id = h_ID (host ps0 i).
Proof.
  revert v ps. induction idx as [|i idx IH]; intros v ps Hh; cbn [fold_left].
  { intros [= <- <-]. auto. }
  unfold retire at 2. intros E. apply IH in E as (E1 & E2 & E3); [|by rewrite act_hosts]. split; [done|]. split; [done|].
  intros id Hid. destruct (E3 id Hid) as [Hr|(j & Hj & ->)]; [|right; exists j; split; [by right|done]].
  simpl in Hr. rewrite elem_of_union, elem_of_singleton, (host_same ps i Hh) in Hr.
  destruct Hr as [->|Hr]; [right; exists i; split; [by left|done]|by left].
Qed.

Lemma reserve_walk_inv :
  exists retired order, NoDup order /\ (forall i, In i order -> (i < length (ps_hosts ps0))%nat /\ market (host ps0 i) = v_m v0) /\
    (forall id, id ∈ retired -> id ∈ v_retired v0 \/ exists i, (i < length (ps_hosts ps0))%nat /\ h_Protected (host ps0 i) = true /\
      id = h_ID (host ps0 i)) /\
    reserve_inv retired order (reserve_walk p s v0 ps0).
Proof.
  unfold reserve_walk. destruct (fold_left _ _ (v0, ps0)) as [v1 ps1] eqn:E1.
  apply retire_all in E1 as (Hh & Ht & Hr); [|done].
  set (order := sort_by _ _). assert (Hin : forall i, In i order -> (i < length (ps_hosts ps0))%nat /\ market (host ps0 i) = v_m v0).
  { intros i Hi. apply sort_by_In, inMarket_In in Hi as (Hi & Hm & _). rewrite Hh in Hi. rewrite (host_same _ i Hh) in Hm.
    split; [done|]. rewrite Hm. unfold v_m. by rewrite Ht. }
  assert (Hnd : NoDup order) by (unfold order; rewrite sort_by_perm; apply inMarket_NoDup).
  exists (v_retired v1), order. split; [done|]. split; [done|]. split.
  { intros id Hid. destruct (Hr id Hid) as [?|(i & Hi & ->)]; [by left|right]. exists i. apply inMarket_In in Hi as (Hi & _ & Hp).
    apply andb_true_iff in Hp as [_ Hp]. done. }
  rewrite Ht. apply (fold_left_prefix (reserve_inv (v_retired v1))).
  - split; simpl; [done|done|by left|]. exists []. split; [constructor|]. split; [done|]. split; [done|]. by left.
  - intros pre i post st El Hst. apply reserve_one_inv; [apply Hin; rewrite El; apply in_or_app; simpl; auto|..|done].
    + intros j Hj. apply Hin. rewrite El. apply in_or_app. auto.
    + rewrite El in Hnd. apply NoDup_app in Hnd as (_ & Hd & _). intros Hx. apply (Hd i); [by apply list_elem_of_In|left].
Qed.

End Reserves.

(** Hosts with distinct ids are the same index. *)
Lemma host_unique ps i j :
  NoDup (map h_ID (ps_hosts ps)) -> (i < length (ps_hosts ps))%nat -> (j < length (ps_hosts ps))%nat ->
  h_ID (host ps i) = h_ID (host ps j) -> i = j.
Proof.
  intros Hnd Hi Hj E. unfold host in E. apply lookup_lt_is_Some in Hi as [a Ha]. apply lookup_lt_is_Some in Hj as [b Hb].
  rewrite Ha, Hb in E. simpl in E. apply (NoDup_lookup (h_ID <$> ps_hosts ps) i j (h_ID a)); [done|..].
  - by rewrite list_lookup_fmap, Ha.
  - rewrite list_lookup_fmap, Hb. simpl. by f_equal.
Qed.

(** ** Theorems *)

(** a walk never cuts into the target. Every host that stays is kept. A
    serving host leaves only while the hosts kept without it cover the held
    running target, counting of a host that is leaving only the load it runs,
    and the parts of held headroom fit the free room of the kept hosts that
    stay; a requested host is cancelled only while the kept hosts and this
    pass's purchases cover what this pass asks for, its parts of headroom
    included. *)
Theorem keep_cuts_only_surplus (p : Policy) (s : FleetSnapshot) (m : ReserveMarket) (ps : pass) (i : nat) :
  let v := view ps m in
  let t := v_target v in
  let kept := v_kept (k_view (keep_walk p s m ps)) in
  hosts_nonneg ps -> fresh_view v -> In i (keepOrder p s ps v) ->
  (stays ps (host ps i) = true -> In i kept) /\
  (~ In i kept -> h_Requested (host ps i) = false ->
     Covers (totalOf kept (cover_part ps v)) (lp_Load (mh_Running (t_holds t))) = true /\
     placesAll (ready_rooms ps v kept) (t_heldParts t) = true) /\
  (~ In i kept -> h_Requested (host ps i) = true ->
     Covers (Plus (totalOf (bought_in ps (v_m v)) (fun n => o_Usable (pl_offer n))) (totalOf kept (fun j => h_Usable (host ps j))))
       (t_want t) = true /\
     placesAll (map (fun n => Clamp (Minus (o_Usable (pl_offer n)) (pl_holds n))) (bought_in ps (v_m v)) ++
       map (fun j => host_room (host ps j)) kept) (t_wantParts t) = true).
Proof.
  intros v t kept Hnn Hf Hi.
  destruct (keep_walk_inv p s m ps Hnn Hf) as [_ _ _ _ H5 _ H7 H8 H9 H10 H11]. fold v in H5, H7, H8, H9, H10, H11. subst kept.
  specialize (H11 i Hi). unfold surplus in H11. rewrite H5, H7, H8, H9, H10 in H11. fold t in H11.
  split; [|split].
  - intros Hs. destruct (in_dec Nat.eq_dec i (v_kept (k_view (keep_walk p s m ps)))) as [Hin|Hn]; [done|].
    destruct (H11 Hn). congruence.
  - intros Hn Hr. destruct (H11 Hn) as [_ Hu]. rewrite Hr in Hu. by apply andb_true_iff in Hu.
  - intros Hn Hr. destruct (H11 Hn) as [_ Hu]. rewrite Hr in Hu. by apply andb_true_iff in Hu.
Qed.

(** a reserve retires as surplus only while the rest hold the target. If
    the walk over a market's reserves retires one that no interruption marks,
    the reserves left that are ready to resume together cover the held stopped
    target, and one of them fits the market's largest shape where it keeps
    one. *)
Theorem reserves_retire_only_surplus (p : Policy) (s : FleetSnapshot) (v : marketView) (ps : pass) (i : nat) :
  let v' := rr_view (reserve_walk p s v ps) in
  let left_ready := inMarket ps (v_m v) (fun h => resumable h && counted v' h) in
  NoDup (map h_ID (ps_hosts ps)) -> hosts_nonneg ps -> (i < length (ps_hosts ps))%nat -> h_Protected (host ps i) = false ->
  (h_ID (host ps i) ∉ v_retired v) -> h_ID (host ps i) ∈ v_retired v' ->
  Covers (usable_of ps left_ready) (lp_Load (mh_Stopped (t_holds (v_target v)))) = true /\
  (Empty (t_largest (v_target v)) = true \/ exists j, In j left_ready /\ fitsLargest s v (host ps j) = true).
Proof.
  intros v' left_ready Hnd Hnn Hi Hp Hn Hr.
  assert (Hu := fun j k => host_unique ps j k Hnd).
  destruct (reserve_walk_inv p s v ps Hu) as (retired & order & _ & Ho & Hret & [_ _ H3 (kept & K1 & K2 & K3 & K4)]).
  destruct (H3 _ Hr) as [Hx|[_ Hc]].
  { destruct (Hret _ Hx) as [?|(j & Hj & Hpj & E)]; [done|]. apply Hu in E; [|done..]. congruence. }
  assert (Hin : forall j, In j kept -> In j left_ready).
  { intros j Hj. destruct (K2 j Hj) as (Hj1 & Hj2 & Hj3 & Hj4). apply inMarket_In. split; [done|]. split; [by apply Ho|].
    by rewrite Hj3. }
  apply andb_true_iff in Hc as [Hc Hl]. rewrite K3, Covers_spec in Hc. split.
  - apply Covers_spec. etransitivity; [exact Hc|]. apply totalOf_incl; [done|done|]. intros j _. apply Hnn.
  - destruct (K4 Hl) as [?|(j & Hj & Hf)]; [by left|right; eauto].
Qed.

(** a replacement pays back. A market replaces at most one host in a pass:
    a kept host that serves, holds no work and is no interruption's, by an
    offer of another type that holds what the host holds of the running target
    and whose cost over the horizon with its provisioning is below what the
    host costs; no other kept host and no other offer pays back more. *)
Theorem rightsize_pays_back (p : Policy) (s : FleetSnapshot) (m : ReserveMarket) (ps : pass) :
  let v := view ps m in
  rightsize p s m ps = ps \/
  exists i o cost, In i (v_kept v) /\ at_rest ps (host ps i) /\ replaces_with p s ps v (host ps i) o /\
    hostCost p s (host ps i) = Some cost /\ servingCost p o + HourlyMicros o * seconds (Provision p) < cost /\
    rightsize p s m ps = snd (buy s (v_m v) o ActionRightsize ReasonCheaper (holdsOf ps v (host ps i)) [] (Some (h_ID (host ps i))) ps) /\
    (forall o', replaces_with p s ps v (host ps i) o' -> payback p cost o' <= payback p cost o) /\
    (forall j o' n', In j (v_kept v) -> replacement p s ps v (host ps j) = Some (o', n') -> n' <= payback p cost o).
Proof.
  intros v. unfold rightsize. fold v. destruct (negb (steady p s ps v)); [by left|].
  destruct (best_replacement p s ps v) as [[[o i] n]|] eqn:Eb; [|by left]. right.
  apply best_replacement_spec in Eb as (Hi & Er & Hbest). apply replacement_spec in Er as (Hr & cost & Hc & Ho & -> & Hpos & Hmax).
  exists i, o, cost. repeat split; try done; try apply Hr; try apply Ho. unfold payback in Hpos. lia.
Qed.

(** ** Witnesses *)

Local Abbreviation stopped_policy := (plan_policy cap0 small_room).

(** The sample fleet's pass before its markets' walks. *)
Definition sample_pass (s : FleetSnapshot) : pass := snd (work_pass stopped_policy s).

Lemma sample_pass_nonneg : hosts_nonneg (sample_pass sample_idle_fleet).
Proof. apply hosts_nonneg_check. vm_compute. reflexivity. Qed.

Lemma keep_cuts_only_surplus_witness :
  let ps := sample_pass sample_idle_fleet in
  let v := view ps (mkRM false "") in
  let kept := v_kept (k_view (keep_walk stopped_policy sample_idle_fleet (mkRM false "") ps)) in
  Covers (totalOf kept (cover_part ps v)) (lp_Load (mh_Running (t_holds (v_target v)))) = true /\ placesAll (ready_rooms ps v kept) (t_heldParts (v_target v)) = true.
Proof.
  intros ps v kept.
  refine (proj1 (proj2 (keep_cuts_only_surplus stopped_policy sample_idle_fleet (mkRM false "") ps 1 sample_pass_nonneg _ _)) _ _).
  - vm_compute. repeat split.
  - vm_compute. right. left. reflexivity.
  - vm_compute. intros [H|[]]; discriminate.
  - vm_compute. reflexivity.
Defined.

Lemma sample_reserves_nonneg : hosts_nonneg (sample_pass sample_reserve_fleet).
Proof. apply hosts_nonneg_check. vm_compute. reflexivity. Qed.

Lemma reserves_retire_only_surplus_witness :
  let ps := sample_pass sample_reserve_fleet in
  let v := view ps (mkRM false "") in
  let v' := rr_view (reserve_walk stopped_policy sample_reserve_fleet v ps) in
  Covers (usable_of ps (inMarket ps (v_m v) (fun h => resumable h && counted v' h))) (lp_Load (mh_Stopped (t_holds (v_target v)))) = true.
Proof.
  intros ps v v'.
  refine (proj1 (reserves_retire_only_surplus stopped_policy sample_reserve_fleet v ps 1 _ sample_reserves_nonneg _ _ _ _)).
  - apply (bool_decide_unpack _). vm_compute. exact I.
  - vm_compute. lia.
  - vm_compute. reflexivity.
  - apply (bool_decide_unpack _). vm_compute. exact I.
  - apply (bool_decide_unpack _). vm_compute. exact I.
Defined.

Lemma rightsize_pays_back_witness :
  let p := plan_policy small_room cap0 in
  let s := sample_costly_fleet in
  let m := mkRM false "" in
  let ps := reserves p s m (grow p s m (keep p s m (snd (work_pass p s)))) in
  exists i o cost, hostCost p s (host ps i) = Some cost /\ servingCost p o + HourlyMicros o * seconds (Provision p) < cost.
Proof.
  intros p s m ps. destruct (rightsize_pays_back p s m ps) as [E|(i & o & cost & _ & _ & _ & Hc & Hlt & _)].
  - exfalso. apply (f_equal (fun q => length (ps_actions q))) in E. vm_compute in E. discriminate.
  - exists i, o, cost. split; assumption.
Defined.
