(* ===== verification/KeyProps.v ===== *)
(** The tables a pass memoizes (internal/compute/fleet_plan.go, [classKey],
    [classOffers], [marketRanking] and [spotOffered]): a key determines what
    it stands for, and the answers stay the same for the whole pass, so the
    model may compute them at each use. *)

From S2P Require Import Prelude Capacity Catalog Calendar Billing Policy Placement Offers Cover Fleet Pass Demand Purchase Keep Plan Steps TargetProps.
From Stdlib Require Import Ascii.

(** ** Strings cut at a separator *)

Fixpoint lacks (c : ascii) (t : string) : bool :=
  match t with
  | EmptyString => true
  | String d t => negb (Ascii.eqb c d) && lacks c t
  end.

Lemma lacks_app c a b : lacks c (a +:+ b) = lacks c a && lacks c b.
Proof. induction a as [|d a IH]; simpl; [done|]. by rewrite IH, andb_assoc. Qed.

Lemma append_cons d (a b : string) : String d a +:+ b = String d (a +:+ b).
Proof. done. Qed.

Lemma append_assoc (a b c : string) : (a +:+ b) +:+ c = a +:+ b +:+ c.
Proof. induction a as [|d a IH]; [done|]. by rewrite !append_cons, IH. Qed.

Lemma append_nil_r (a : string) : a +:+ "" = a.
Proof. induction a as [|d a IH]; [done|]. by rewrite append_cons, IH. Qed.

(** The first separator of a string cuts it in one way. *)
Lemma cut_first c a b a' b' :
  lacks c a = true -> lacks c a' = true -> a +:+ String c b = a' +:+ String c b' -> a = a' /\ b = b'.
Proof.
  revert a'. induction a as [|d a IH]; intros [|d' a']; simpl; rewrite ?append_cons; intros Ha Ha' E.
  - by injection E.
  - injection E as <- _. by rewrite Ascii.eqb_refl in Ha'.
  - injection E as -> _. by rewrite Ascii.eqb_refl in Ha.
  - apply andb_true_iff in Ha as [_ Ha], Ha' as [_ Ha']. injection E as <- E. destruct (IH a' Ha Ha' E) as [-> ->]. done.
Qed.

Lemma lacks_cut c a b x : lacks c x = true -> x <> a +:+ String c b.
Proof. intros H ->. rewrite lacks_app in H. simpl in H. rewrite Ascii.eqb_refl in H. by rewrite andb_false_r in H. Qed.

(** A GPU name or "any": not empty, without the key's separators. *)
Definition gpu_ok (g : string) : bool := (g != "") && lacks "," g && lacks "/" g.

Lemma concat_lacks gs : forallb gpu_ok gs = true -> lacks "/" (String.concat "," gs) = true.
Proof.
  induction gs as [|g gs IH]; [done|]. simpl. intros [Hg Hgs]%andb_true_iff. specialize (IH Hgs).
  unfold gpu_ok in Hg. bools. destruct gs; [done|]. rewrite lacks_app. by apply andb_true_iff.
Qed.

Lemma concat_inj gs gs' :
  forallb gpu_ok gs = true -> forallb gpu_ok gs' = true -> String.concat "," gs = String.concat "," gs' -> gs = gs'.
Proof.
  revert gs'. induction gs as [|g gs IH]; intros [|g' gs']; intros H H' E; [done|..].
  - simpl in H', E. apply andb_true_iff in H' as [H' _]. unfold gpu_ok in H'. destruct g'; [done|]. by destruct gs'.
  - simpl in H, E. apply andb_true_iff in H as [H _]. unfold gpu_ok in H. destruct g; [done|]. by destruct gs.
  - cbn [forallb] in H, H'. apply andb_true_iff in H as [Hg Hgs], H' as [Hg' Hgs'].
    assert (Lg : lacks "," g = true) by (unfold gpu_ok in Hg; by bools).
    assert (Lg' : lacks "," g' = true) by (unfold gpu_ok in Hg'; by bools).
    simpl in E. destruct gs as [|x gs], gs' as [|x' gs'].
    + by subst.
    + by apply lacks_cut in E.
    + symmetry in E. by apply lacks_cut in E.
    + apply cut_first in E as [-> E]; [|done..]. f_equal. by apply IH.
Qed.

(** ** Keys *)

(** The names a requirement's key is built from: regions and zones without a
    slash, GPU names without slash or comma. *)
Definition names_ok (need : Requirement) : bool :=
  lacks "/" (r_Region need) && lacks "/" (r_Zone need) && forallb gpu_ok (r_GPUs need).

(** The key of [marketRanking]. *)
Definition market_key (m : ReserveMarket) (reserve : bool) : string := rm_String m +:+ "/" +:+ boolKey reserve.

(** What follows the placement in a class key. *)
Definition key_tail (need : Requirement) : string :=
  String.concat "," (r_GPUs need) +:+ match r_Read need with Some read => "/" +:+ vr_Region read | None => "" end.

Lemma class_key_tail need :
  class_key need = "demand/" +:+ r_Region need +:+ "/" +:+ r_Zone need +:+ "/" +:+ boolKey (r_Preemptible need) +:+ "/" +:+ key_tail need.
Proof.
  unfold class_key, class_base, key_tail. destruct (r_Read need); [|by rewrite append_nil_r].
  by rewrite !append_assoc.
Qed.

Lemma boolKey_inj a b : boolKey a = boolKey b -> a = b.
Proof. by destruct a, b. Qed.

Lemma key_tail_inj a b :
  forallb gpu_ok (r_GPUs a) = true -> forallb gpu_ok (r_GPUs b) = true -> key_tail a = key_tail b ->
  r_GPUs a = r_GPUs b /\ (vr_Region <$> r_Read a) = (vr_Region <$> r_Read b).
Proof.
  unfold key_tail. intros Ha Hb. pose proof (concat_lacks _ Ha) as La. pose proof (concat_lacks _ Hb) as Lb.
  destruct (r_Read a) as [x|], (r_Read b) as [y|]; simpl; rewrite ?append_nil_r; intros E.
  - apply cut_first in E as [E ->]; [|done..]. split; [by apply concat_inj|done].
  - symmetry in E. by apply lacks_cut in E.
  - by apply lacks_cut in E.
  - split; [by apply concat_inj|done].
Qed.

(** A class key determines the placement, the GPUs and the region read. *)
Lemma class_key_inj a b :
  names_ok a = true -> names_ok b = true -> class_key a = class_key b ->
  r_Region a = r_Region b /\ r_Zone a = r_Zone b /\ r_Preemptible a = r_Preemptible b /\ r_GPUs a = r_GPUs b /\
  (vr_Region <$> r_Read a) = (vr_Region <$> r_Read b).
Proof.
  unfold names_ok. rewrite !andb_true_iff. intros [[A1 A2] A3] [[B1 B2] B3]. rewrite !class_key_tail. intros E.
  injection E as E.
  apply cut_first in E as [E1 E]; [|done..]. apply cut_first in E as [E2 E]; [|done..].
  apply cut_first in E as [E3 E]; [|by destruct (r_Preemptible a)|by destruct (r_Preemptible b)].
  apply boolKey_inj in E3. apply key_tail_inj in E as [E4 E5]; done.
Qed.

Lemma classNeed_key s a b :
  names_ok a = true -> names_ok b = true -> class_key a = class_key b -> classNeed s a = classNeed s b.
Proof.
  intros Ha Hb E. destruct (class_key_inj a b Ha Hb E) as (E1 & E2 & E3 & E4 & E5). unfold classNeed.
  rewrite E, E1, E2, E3, E4. f_equal. destruct (r_Read a), (r_Read b); simpl in *; congruence.
Qed.

Lemma market_key_inj m r m' r' :
  lacks "/" (rm_GPU m) = true -> lacks "/" (rm_GPU m') = true -> rm_GPU m <> "cpu" -> rm_GPU m' <> "cpu" ->
  market_key m r = market_key m' r' -> m = m' /\ r = r'.
Proof.
  destruct m as [b g], m' as [b' g']. unfold market_key, rm_String. simpl. intros L L' N N' E.
  assert (Hl : forall (x : bool) h, lacks "/" h = true ->
    lacks "/" ((if x then "spot" else "on_demand") +:+ ":" +:+ (if h != "" then h else "cpu")) = true).
  { intros x h Hh. rewrite lacks_app. destruct x, (h != ""); simpl; by rewrite ?Hh. }
  apply cut_first in E as [E Er]; [|by apply Hl..]. apply boolKey_inj in Er. split; [|done].
  apply cut_first in E as [E1 E2]; [|by destruct b|by destruct b']. assert (b = b') as -> by (by destruct b, b').
  f_equal. destruct (g != "") eqn:Eg, (g' != "") eqn:Eg'; bools; congruence.
Qed.

(** ** Answers that hold for the pass *)

(** What [gpuModels] reads of a host: its GPU, and whether it terminates. *)
Definition stock (h : FleetHost) : string * bool := (h_GPU h, h_State h == FleetTerminating).

Lemma stock_alter f i l : (forall h, l !! i = Some h -> stock (f h) = stock h) -> map stock (alter f i l) = map stock l.
Proof.
  revert i. induction l as [|h l IH]; intros [|i] H; simpl; try done.
  - f_equal. by apply H.
  - f_equal. by apply IH.
Qed.

Lemma stock_step p s ps ps' : step p s ps ps' -> map stock (ps_hosts ps') = map stock (ps_hosts ps).
Proof.
  intros Hst.
  assert (Hh : forall i h, ps_hosts ps !! i = Some h -> host ps i = h) by (intros i h E; unfold host; by rewrite E).
  destruct Hst as [ps ps' Hq|ps i back a Hi Ha Hc|ps ws Hw Hm Hf|ps it b Hn Hi|ps k f Hn Hf|ps m o kind reason holds cs replaces Hg
    |ps m i reason cs Hi Ha Hp Hr Hf|ps v i Hg|ps reason m i Hi Hr Hs].
  - by rewrite (q_hosts _ _ Hq).
  - rewrite act_hosts. by apply stock_alter.
  - done.
  - by apply stock_alter.
  - done.
  - by rewrite buy_hosts.
  - rewrite resume_hosts. apply stock_alter. intros h E. rewrite (Hh i h E) in Ha. unfold stock, resumable in *. simpl.
    f_equal. destruct (h_State h); try done; by vm_compute in Ha.
  - destruct (leave_act s v i ps) as (a & f & n & Hk & ->). autorewrite with pass. simpl. apply stock_alter.
    intros h E. destruct Hg as [_ _ _ Hph]. rewrite (Hh i h E) in *. unfold stock.
    destruct Hk as [Hr|why mode Hr _ _|Hr]; [done|..]; rewrite (Hh i h E) in Hr; rewrite Hr, orb_false_r in Hph; simpl; f_equal;
      unfold serving, starting in Hph; destruct (h_State h); try done; by vm_compute in Hph.
  - by rewrite act_hosts.
Qed.

Lemma stock_steps p s ps ps' : steps p s ps ps' -> map stock (ps_hosts ps') = map stock (ps_hosts ps).
Proof.
  intros H. apply (steps_inv p s (fun q => map stock (ps_hosts q) = map stock (ps_hosts ps))) in H; [done|..|done].
  intros q q' E Hq. by rewrite (stock_step p s q q' Hq).
Qed.

Lemma existsb_stock gpu l l' : map stock l = map stock l' ->
  existsb (fun h => (h_GPU h == gpu) && (h_State h != FleetTerminating)) l =
  existsb (fun h => (h_GPU h == gpu) && (h_State h != FleetTerminating)) l'.
Proof.
  revert l'. induction l as [|h l IH]; intros [|h' l'] E; [done..|]. unfold stock in E. simpl in E. injection E as E1 E2 E3.
  simpl. rewrite (IH l') by done. by rewrite E1, E2.
Qed.

Lemma spotOffered_key p s ps ps' a b :
  map stock (ps_hosts ps) = map stock (ps_hosts ps') -> names_ok a = true -> names_ok b = true -> class_key a = class_key b ->
  reservedShape a = reservedShape b -> r_Disks a = r_Disks b -> spotOffered p s ps a = spotOffered p s ps' b.
Proof.
  intros Hst Ha Hb E Es Ed. unfold spotOffered, classOffers. rewrite (classNeed_key s a b Ha Hb E), Es, Ed.
  destruct (class_key_inj a b Ha Hb E) as (_ & _ & _ & Eg & _).
  assert (Em : forall offers, gpuModels p ps a offers = gpuModels p ps' b offers); [|by rewrite Em].
  intros offers. unfold gpuModels. do 2 f_equal. apply fold_left_ext. intros models o. unfold gpu_step.
  by rewrite Eg, (existsb_stock _ _ _ Hst).
Qed.

(** ** Theorems *)

(** the tables of a pass answer as a fresh computation would. Requirements
    with one class key have the same class and offers; a market's key names
    its market and kind of offer and is no class key; and [spotOffered] gives
    the same answer, at every state the pass reaches, to requirements with one
    class key, shape and disk count. *)
Theorem memo_transparent (p : Policy) (s : FleetSnapshot) (ps ps' : pass) (a b : Requirement) :
  names_ok a = true -> names_ok b = true -> class_key a = class_key b ->
  steps p s (start_pass s) ps -> steps p s (start_pass s) ps' ->
  classKey s a = classKey s b /\ classOffers p s a = classOffers p s b /\
  (reservedShape a = reservedShape b -> r_Disks a = r_Disks b -> spotOffered p s ps a = spotOffered p s ps' b) /\
  (forall m reserve, market_key m reserve <> class_key a) /\
  (forall m r m' r', lacks "/" (rm_GPU m) = true -> lacks "/" (rm_GPU m') = true -> rm_GPU m <> "cpu" -> rm_GPU m' <> "cpu" ->
     market_key m r = market_key m' r' -> m = m' /\ r = r').
Proof.
  intros Ha Hb E Hp Hp'. split; [unfold classKey; by rewrite E, (classNeed_key s a b Ha Hb E)|].
  split; [unfold classOffers; by rewrite (classNeed_key s a b Ha Hb E)|]. split; [|split].
  - intros Es Ed. apply spotOffered_key; try done. by rewrite (stock_steps _ _ _ _ Hp), (stock_steps _ _ _ _ Hp').
  - intros m reserve. rewrite class_key_tail. unfold market_key, rm_String. by destruct (Preemptible m).
  - intros m r m' r'. apply market_key_inj.
Qed.

Lemma memo_transparent_witness :
  classOffers DefaultPolicy sample_fleet (sample_work 1000 gib) = classOffers DefaultPolicy sample_fleet (sample_work 2000 (4 * gib)).
Proof.
  refine (proj1 (proj2 (memo_transparent DefaultPolicy sample_fleet (start_pass sample_fleet) (start_pass sample_fleet)
    (sample_work 1000 gib) (sample_work 2000 (4 * gib)) eq_refl eq_refl eq_refl _ _))); apply steps_refl.
Defined.
