(* ===== verification/PlanProps.v ===== *)
(** What every plan [PlanFleet] makes satisfies, from the invariants of its
    steps: no host that holds work up leaves, pending containers are named
    once and their waits name the purchases made for them, purchases stay
    within the fleet's and each market's limits, and reserves resume once. *)

From S2P Require Import Prelude Capacity Catalog Calendar Billing Policy Placement Offers Cover Fleet Pass Demand Purchase Keep Plan Steps Simulation BuySim KeepSim TargetProps.

(** The snapshot [PlanFleet] runs its stages on. *)
Definition counted_snapshot (s : FleetSnapshot) : FleetSnapshot :=
  s_with_Offers s (with_QuotaUsed (s_Offers s) (QuotaUse (s_Hosts s) (Catalog (s_Offers s)))).

#[export] Instance counted_ok s : snapshot_ok s -> snapshot_ok (counted_snapshot s).
Proof. intros []. by split. Qed.

Lemma plan_steps p s : snapshot_ok s ->
  exists ps, PlanFleet p s = plan_of ps /\ steps p (counted_snapshot s) (start_pass (counted_snapshot s)) ps /\
    pended (counted_snapshot s) ps.
Proof.
  intros Hs. exists (run_pass p (counted_snapshot s)). split; [done|]. apply (run_pass_steps p (counted_snapshot s) (Hs := counted_ok s Hs)).
Qed.

(** An invariant of steps that holds at the start holds of the plan. *)
Lemma plan_inv p s (P : pass -> Prop) : snapshot_ok s ->
  P (start_pass (counted_snapshot s)) ->
  (forall ps ps', P ps -> step p (counted_snapshot s) ps ps' -> P ps') ->
  exists ps, PlanFleet p s = plan_of ps /\ P ps.
Proof.
  intros Hs H0 Hst. destruct (plan_steps p s Hs) as (ps & E & Hsteps & _). exists ps. split; [done|].
  by eapply steps_inv.
Qed.

Lemma plan_good p s : snapshot_ok s ->
  exists ps, PlanFleet p s = plan_of ps /\ good (counted_snapshot s) ps /\ pended (counted_snapshot s) ps.
Proof.
  intros Hs. destruct (plan_steps p s Hs) as (ps & E & Hst & Hp). exists ps. split; [done|]. split; [|done].
  apply (good_steps p (counted_snapshot s) (Hs := counted_ok s Hs) _ _ Hst), start_good.
Qed.

Lemma start_books p s : books p s (start_pass s).
Proof.
  split; unfold count_actions, room; simpl; try lia.
  intros m. rewrite lookup_empty. simpl. lia.
Qed.

Lemma start_rooms p s : rooms p s (start_pass s).
Proof.
  split; [apply start_hosts|unfold count_actions; simpl; lia| |done].
  intros m. unfold room, count_actions. simpl. rewrite lookup_empty. simpl. lia.
Qed.

Lemma start_restarts s : restarts s (start_pass s).
Proof. split; [apply start_hosts|done|done|constructor]. Qed.

(** A round of [resumeFor] takes a container or ends the loop. *)
Lemma resumeFor_loop_done p s fuel items ps left_items ps' :
  (length items <= fuel)%nat -> resumeFor_loop p s fuel items ps = (left_items, ps') ->
  left_items = [] \/ ps_hostRoom ps' <= 0 \/ bestReserve p s ps' left_items = None.
Proof.
  revert items ps. induction fuel as [|fuel IH]; intros items ps Hf; cbn [resumeFor_loop].
  { destruct items; [|simpl in Hf; lia]. intros [= <- <-]. by left. }
  destruct (bool_decide (items = []) || (ps_hostRoom ps <=? 0)) eqn:E.
  { intros [= <- <-]. apply orb_true_iff in E as [E|E]; [apply bool_decide_eq_true in E; by left|right; left; lia]. }
  destruct (bestReserve p s ps items) as [c|] eqn:Eb; [|intros [= <- <-]; auto].
  apply bestReserve_ok in Eb as [_ _ Hne Hsub]. pose proof (unpicked_shorter _ _ Hne Hsub). apply IH. lia.
Qed.

(** ** Theorems *)

(** C1: a pass never takes a host from under its work. Every host a plan
    drains, returns to the reserve or cancels is a host of the snapshot that
    runs nothing that keeps it up, updates no agent and has no pending
    container waiting for it in the plan; a cancelled one EC2 has not launched
    yet, and one that drains or returns was serving. *)
Theorem PlanFleet_never_cuts_work (p : Policy) (s : FleetSnapshot) (a : FleetAction) :
  snapshot_ok s -> In a (fp_Actions (PlanFleet p s)) ->
  a_Kind a = ActionDrain \/ a_Kind a = ActionReturnToReserve \/ a_Kind a = ActionCancel ->
  exists h, In h (s_Hosts s) /\ a_Host a = Some (h_ID h) /\ busy h = false /\ h_UpdateDue h = false /\
    (a_Kind a = ActionCancel -> h_Requested h = true) /\
    (a_Kind a <> ActionCancel -> serving h = true /\ h_Requested h = false) /\
    forall w, In w (fp_Waits (PlanFleet p s)) -> w_Host w <> Some (h_ID h).
Proof.
  intros Hs Ha Hk. destruct (plan_good p s Hs) as (ps & E & [[_ _ Hd] _] & _). rewrite E in *. simpl in *.
  rewrite List.Forall_forall in Hd. destruct (Hd a Ha) as (h & [D1 D2 D3 D4 D5 D6 D7]).
  { by destruct Hk as [->|[->| ->]]. }
  exists h. unfold is_kind in D6. do 4 (split; [done|]). split; [|split].
  - intros Ec. by rewrite bool_decide_true in D6.
  - intros Ec. by rewrite bool_decide_false in D6.
  - rewrite List.Forall_forall in D7. exact D7.
Qed.

(** C18: the plan answers for every pending container, in the snapshot's
    order, and a wait that names an action names the purchase made for that
    container: an action of the plan that buys a host, lists the container,
    and is provisioning it. *)
Theorem PlanFleet_waits (p : Policy) (s : FleetSnapshot) :
  snapshot_ok s ->
  map w_Container (fp_Waits (PlanFleet p s)) = pending_ids s /\
  forall w n, In w (fp_Waits (PlanFleet p s)) -> w_Action w = Some n ->
    w_Wait w = Some WaitProvisioning /\ exists a, fp_Actions (PlanFleet p s) !! n = Some a /\ a_Kind a = ActionBuy /\
      In (w_Container w) (a_Containers a).
Proof.
  intros Hs. destruct (plan_good p s Hs) as (ps & E & [_ [_ _ _ Ha]] & Hw). rewrite E. simpl. split; [done|].
  intros w n Hin Hn. rewrite List.Forall_forall in Ha. by apply (Ha w Hin).
Qed.

(** no container is bought or resumed for twice: over all actions of a
    plan each container is named at most once, and only pending containers
    are named. *)
Theorem PlanFleet_names_once (p : Policy) (s : FleetSnapshot) :
  snapshot_ok s ->
  NoDup (flat_map a_Containers (fp_Actions (PlanFleet p s))) /\
  forall c, In c (flat_map a_Containers (fp_Actions (PlanFleet p s))) -> In c (pending_ids s).
Proof. intros Hs. destruct (plan_good p s Hs) as (ps & E & [_ [H1 H2 _ _]] & _). rewrite E. done. Qed.

(** C15: purchases keep the fleet's limits. A plan buys at most [HostRoom]
    hosts, reserves and replacements among them, and at most
    [MaxGrowthActions] in each market. Resumes use the limits up as well: a
    plan buys a host only while the purchases and the resumes before it in the
    plan, those of hosts still stopping apart, number fewer than [HostRoom],
    and the purchases and resumes before it in its market fewer than
    [MaxGrowthActions]. *)
Theorem PlanFleet_buys_within_limits (p : Policy) (s : FleetSnapshot) :
  snapshot_ok s ->
  let actions := fp_Actions (PlanFleet p s) in
  count_actions is_purchase actions <= Z.max 0 (HostRoom s) /\
  (forall m, count_actions (buys_in m) actions <= Z.max 0 (MaxGrowthActions p)) /\
  forall k a, actions !! k = Some a -> is_purchase a = true ->
    count_actions (takes_host s) (take k actions) < HostRoom s /\
    count_actions (grows_in (a_Market a)) (take k actions) < MaxGrowthActions p.
Proof.
  intros Hs. set (s' := counted_snapshot s).
  destruct (plan_inv p s (fun ps => books p s' ps /\ rooms p s' ps) Hs) as (ps & E & [[H1 H2 _ _] [_ _ _ H3]]).
  { split; [apply start_books|apply start_rooms]. }
  { intros ps ps' [Hb Hr] Hst. split; [by eapply books_step|eapply rooms_step; [|done..]; apply Hs]. }
  rewrite E. simpl. split_and!; [simpl in *; lia|intros m; specialize (H2 m); simpl in *; lia|exact H3].
Qed.

(** purchases keep the vCPU quotas. Under each known quota, the vCPUs of
    the hosts and reserves a plan buys are at most what the hosts of the
    snapshot leave of it, whatever the pass resumes beside them. *)
Theorem PlanFleet_buys_within_quota (p : Policy) (s : FleetSnapshot) (key : QuotaKey) (free_vcpus : Z) :
  snapshot_ok s ->
  quotaRoom (Quotas (s_Offers s)) (QuotaUse (s_Hosts s) (Catalog (s_Offers s))) !! key = Some free_vcpus ->
  quota_total key (fp_Actions (PlanFleet p s)) <= Z.max 0 free_vcpus.
Proof.
  intros Hs Hq. set (used := QuotaUse (s_Hosts s) (Catalog (s_Offers s))) in *.
  destruct (plan_inv p s (quotas_kept (counted_snapshot s) used) Hs) as (ps & E & [_ H]).
  { split; [intros k; unfold quota_total; simpl; fold used; lia|intros k v _; unfold quota_total; simpl; lia]. }
  { intros ps ps'. apply quotas_kept_step. apply Hs. }
  rewrite E. by apply H.
Qed.

(** the reserve never outgrows its room: the reserves a plan buys and the
    hosts it returns to the reserve number at most the reserve room, the
    reserves it resumes and those it retires together. *)
Theorem PlanFleet_reserves_within_room (p : Policy) (s : FleetSnapshot) :
  snapshot_ok s ->
  let n kind := count_actions (is_kind kind) (fp_Actions (PlanFleet p s)) in
  n ActionBuyReserve + n ActionReturnToReserve <= Z.max 0 (ReserveRoom s) + n ActionResume + n ActionRetireReserve.
Proof.
  intros Hs. destruct (plan_inv p s (books p (counted_snapshot s)) Hs) as (ps & E & [_ _ _ H4]).
  { apply start_books. }
  { intros ps ps'. apply books_step. }
  rewrite E. exact H4.
Qed.

(** a host bought for pending containers holds them all at once: every
    purchase names an offer, and one made for containers holds on one host
    of that offer the room its [Holds] asks for. *)
Theorem PlanFleet_holds_fit (p : Policy) (s : FleetSnapshot) (a : FleetAction) :
  snapshot_ok s -> In a (fp_Actions (PlanFleet p s)) -> purchase (a_Kind a) = true ->
  exists o, a_Offer a = Some o /\ (a_Containers a <> [] -> Covers (o_Usable o) (a_Holds a) = true).
Proof.
  intros Hs Ha Hk. destruct (plan_inv p s holds_fit Hs) as (ps & E & H).
  { constructor. }
  { intros ps ps'. apply holds_fit_step. }
  rewrite E in Ha. unfold holds_fit in H. rewrite List.Forall_forall in H. destruct (H a Ha Hk) as (o & Ho & Hc).
  exists o. split; [done|]. intros Hne. by apply Covers_spec, Hc.
Qed.

(** a plan resumes each reserve at most once, and only a reserve the
    snapshot holds stopped or stopping, that no interruption marks and whose
    start EC2 has not just refused. *)
Theorem PlanFleet_resumes_ready (p : Policy) (s : FleetSnapshot) :
  snapshot_ok s ->
  NoDup (omap resumed (fp_Actions (PlanFleet p s))) /\
  forall id, In id (omap resumed (fp_Actions (PlanFleet p s))) ->
    exists h, In h (s_Hosts s) /\ h_ID h = id /\ asleep h = true /\ h_Protected h = false /\ h_StartRefused h = false.
Proof.
  intros Hs. destruct (plan_inv p s (restarts (counted_snapshot s)) Hs) as (ps & E & [_ H2 _ H4]).
  { apply start_restarts. }
  { intros ps ps'. apply restarts_step. apply Hs. }
  rewrite E. done.
Qed.

(** C39: the loop that resumes reserves for work ends only when it is done: no
    container is left, no host room is left, or no ready reserve takes any of
    the containers left. The fuel of the model, one round for each container,
    never stops it. *)
Theorem resumeFor_finishes (p : Policy) (s : FleetSnapshot) (items : list coverItem) (ps : pass) :
  let '(left_items, ps') := resumeFor p s items ps in
  left_items = [] \/ ps_hostRoom ps' <= 0 \/ bestReserve p s ps' left_items = None.
Proof.
  destruct (resumeFor p s items ps) as [left_items ps'] eqn:E. unfold resumeFor in E. by apply resumeFor_loop_done in E.
Qed.

(** resumes for headroom are not counted while they are chosen. The loop
    that picks reserves for a market's headroom reads the host room before
    any of them resumes, so a plan can resume more reserves than the fleet's
    host room holds: here three with room for one. Each gives the reason of
    a market that lacks headroom for load, though what it lacks are parts of
    its floor, since the reason is read off the need the loop has already
    covered. *)
Theorem grow_resumes_past_host_room :
  exists p s, snapshot_ok s /\
    count_actions (is_kind ActionResume) (fp_Actions (PlanFleet p s)) > HostRoom s /\
    growReason (grow_need (view (keep p s (mkRM false "") (snd (work_pass p s))) (mkRM false ""))) = ReasonFloor /\
    map a_Reason (fp_Actions (PlanFleet p s)) = [ReasonLoad; ReasonLoad; ReasonLoad].
Proof.
  exists (plan_policy small_room cap0), sample_burst_fleet. split; [apply snapshot_okb_spec; vm_compute; reflexivity|].
  split; [vm_compute; reflexivity|]. split; vm_compute; reflexivity.
Qed.

(** a reserve still preparing retires as surplus as soon as the ready ones
    hold the target; it does not wait until it is ready. *)
Theorem reserves_retire_pending :
  exists p s h, snapshot_ok s /\ In h (s_Hosts s) /\ h_State h = FleetPreparing /\ resumable h = false /\
    fp_Actions (PlanFleet p s) = [host_action ActionRetireReserve ReasonSurplus (market h) (h_ID h) None].
Proof.
  exists (plan_policy cap0 small_room),
    (sample_snapshot [sample_host 5 planSmall FleetStopped false cap0 0; sample_host 6 planSmall FleetPreparing false cap0 0] [] ∅ 10 5),
    (sample_host 6 planSmall FleetPreparing false cap0 0).
  split; [apply snapshot_okb_spec; vm_compute; reflexivity|]. split; [right; left; reflexivity|].
  split; [reflexivity|]. split; [reflexivity|]. vm_compute. reflexivity.
Qed.

(** ** Witnesses *)

Local Abbreviation stopped_policy := (plan_policy cap0 small_room).

Lemma PlanFleet_never_cuts_work_witness :
  let a := host_action ActionReturnToReserve ReasonReserve (mkRM false "") 2 (Some ReserveStop) in
  exists h, In h (s_Hosts sample_idle_fleet) /\ a_Host a = Some (h_ID h) /\ busy h = false /\ serving h = true.
Proof.
  intros a. destruct (PlanFleet_never_cuts_work stopped_policy sample_idle_fleet a sample_idle_fleet_ok) as (h & H1 & H2 & H3 & _ & _ & H6 & _).
  - vm_compute. left. reflexivity.
  - right. left. reflexivity.
  - exists h. split; [exact H1|]. split; [exact H2|]. split; [exact H3|]. apply H6. discriminate.
Defined.

Lemma PlanFleet_waits_witness :
  exists a, fp_Actions (PlanFleet stopped_policy sample_fleet) !! 3%nat = Some a /\ a_Kind a = ActionBuy /\ In 22 (a_Containers a).
Proof.
  destruct (PlanFleet_waits stopped_policy sample_fleet sample_fleet_ok) as [_ H].
  destruct (H (mkWait 22 (Some WaitProvisioning) None (Some 3%nat)) 3%nat) as [_ Ha].
  - vm_compute. do 9 right. left. reflexivity.
  - reflexivity.
  - exact Ha.
Defined.

Lemma PlanFleet_names_once_witness :
  flat_map a_Containers (fp_Actions (PlanFleet stopped_policy sample_fleet)) = [15; 16; 17; 22; 18] /\
  NoDup (flat_map a_Containers (fp_Actions (PlanFleet stopped_policy sample_fleet))).
Proof. split; [vm_compute; reflexivity|]. exact (proj1 (PlanFleet_names_once stopped_policy sample_fleet sample_fleet_ok)). Defined.

Lemma PlanFleet_buys_within_limits_witness :
  let actions := fp_Actions (PlanFleet stopped_policy sample_fleet) in
  count_actions is_purchase actions = 4 /\ count_actions is_purchase actions <= Z.max 0 (HostRoom sample_fleet) /\
  count_actions (takes_host sample_fleet) (take 3 actions) = 3 /\ count_actions (takes_host sample_fleet) (take 3 actions) < HostRoom sample_fleet.
Proof.
  destruct (PlanFleet_buys_within_limits stopped_policy sample_fleet sample_fleet_ok) as (H1 & _ & H3). intros actions.
  destruct (actions !! 3%nat) as [a|] eqn:E; [|vm_compute in E; discriminate].
  split; [vm_compute; reflexivity|]. split; [exact H1|]. split; [vm_compute; reflexivity|].
  apply (proj1 (H3 3%nat a E ltac:(vm_compute in E; injection E as <-; reflexivity))).
Defined.

(** The sample fleet with room for two small hosts under its quota. *)
Local Abbreviation quota_fleet := (s_with_Offers sample_fleet (quota_inputs 144)).

Lemma PlanFleet_buys_within_quota_witness :
  quota_total quota_key (fp_Actions (PlanFleet stopped_policy quota_fleet)) = 16 /\
  quota_total quota_key (fp_Actions (PlanFleet stopped_policy quota_fleet)) <= Z.max 0 32.
Proof.
  split; [vm_compute; reflexivity|].
  refine (PlanFleet_buys_within_quota stopped_policy quota_fleet quota_key 32 _ _).
  - apply snapshot_okb_spec. vm_compute. reflexivity.
  - vm_compute. reflexivity.
Defined.

Lemma PlanFleet_reserves_within_room_witness :
  let n kind := count_actions (is_kind kind) (fp_Actions (PlanFleet stopped_policy sample_fleet)) in
  n ActionBuyReserve = 1 /\ n ActionBuyReserve + n ActionReturnToReserve <= Z.max 0 (ReserveRoom sample_fleet) + n ActionResume + n ActionRetireReserve.
Proof.
  split; [vm_compute; reflexivity|]. exact (PlanFleet_reserves_within_room stopped_policy sample_fleet sample_fleet_ok).
Defined.

Lemma PlanFleet_holds_fit_witness :
  exists a o, In a (fp_Actions (PlanFleet stopped_policy sample_fleet)) /\ a_Containers a = [22; 18] /\ a_Offer a = Some o /\
    Covers (o_Usable o) (a_Holds a) = true.
Proof.
  destruct (fp_Actions (PlanFleet stopped_policy sample_fleet) !! 3%nat) as [a|] eqn:E; [|vm_compute in E; discriminate].
  pose proof (lookup_In _ _ _ E) as Hin.
  assert (Ha : a_Kind a = ActionBuy /\ a_Containers a = [22; 18]) by (vm_compute in E; injection E as <-; split; reflexivity).
  destruct Ha as [Hk Hc]. exists a.
  destruct (PlanFleet_holds_fit stopped_policy sample_fleet a sample_fleet_ok Hin) as (o & Ho & Hh); [rewrite Hk; reflexivity|].
  exists o. split; [exact Hin|]. split; [exact Hc|]. split; [exact Ho|]. apply Hh. rewrite Hc. discriminate.
Defined.

Lemma PlanFleet_resumes_ready_witness :
  exists h, In h (s_Hosts sample_fleet) /\ h_ID h = 5 /\ asleep h = true /\ h_Protected h = false /\ h_StartRefused h = false.
Proof.
  destruct (PlanFleet_resumes_ready stopped_policy sample_fleet sample_fleet_ok) as [_ H]. apply (H 5).
  vm_compute. left. reflexivity.
Defined.
