(* ===== verification/Hosts.v ===== *)
(** The hosts table and the phases a host moves through
    (internal/compute/host_phases.go, types.go, and the columns of [hosts] the
    statements of the .sql.go files read and write).

    [hosts] is a finite map from host ids to rows.  A statement is a function
    of the transaction's clock and the table; [execrows] statements also say
    how many rows they changed and [returning] ones which. *)

From S2P Require Import Prelude Capacity Catalog Billing Policy Placement Offers Cover Fleet.

(** ** Phases *)

Inductive Phase :=
  | PhaseRequested | PhaseProvisioning | PhaseBooting | PhaseJoining | PhaseReady | PhaseDraining | PhasePreparing
  | PhaseStopping | PhaseStopped | PhaseResuming | PhaseTerminating | PhaseDeleted | PhaseFailed.
#[export] Instance Phase_eq_dec : EqDecision Phase.
Proof. solve_decision. Defined.

(** [Phase.Message]. *)
Definition phase_Message (p : Phase) : string :=
  match p with
  | PhaseRequested => "Waiting for the machine to be launched"
  | PhaseProvisioning => "Instance is starting; waiting for the node to report"
  | PhaseBooting => "Node is installing the agent"
  | PhaseJoining => "Agent joined; waiting for its first heartbeat"
  | PhaseReady => "Ready for workloads"
  | PhaseDraining => "Draining; no new work is placed here"
  | PhasePreparing => "Preparing to stop into the reserve"
  | PhaseStopping => "Stopping into the reserve"
  | PhaseStopped => "Stopped in the reserve"
  | PhaseResuming => "Starting from the reserve"
  | PhaseTerminating => "Shutting down"
  | PhaseDeleted => "Removed"
  | PhaseFailed => "Failed"
  end.

(** [Phase.CanBecome]. *)
Definition CanBecome (p next : Phase) : bool :=
  if next == PhaseFailed then p != PhaseDeleted
  else if next == PhaseDeleted then p != PhaseDeleted
  else if next == PhaseTerminating then
    (p != PhaseRequested) && (p != PhaseTerminating) && (p != PhaseFailed) && (p != PhaseDeleted)
  else match p with
  | PhaseRequested => (next == PhaseProvisioning) || (next == PhaseJoining)
  | PhaseProvisioning => (next == PhaseBooting) || (next == PhaseJoining)
  | PhaseBooting => next == PhaseJoining
  | PhaseJoining => (next == PhaseReady) || (next == PhasePreparing) || (next == PhaseDraining)
  | PhaseReady => (next == PhaseDraining) || (next == PhasePreparing)
  | PhaseDraining => next == PhaseReady
  | PhasePreparing => (next == PhaseStopping) || (next == PhaseReady) || (next == PhaseDraining)
  | PhaseStopping => (next == PhaseStopped) || (next == PhaseResuming)
  | PhaseStopped => next == PhaseResuming
  | PhaseResuming => (next == PhaseJoining) || (next == PhaseStopped)
  | PhaseFailed => next == PhaseRequested
  | PhaseTerminating | PhaseDeleted => false
  end.

(** ** The row *)

Inductive Failure :=
  | FailureProviderIdentity | FailureEnrollment | FailureBootstrapTimedOut | FailurePreflight | FailureServiceLost
  | FailureProviderStopped | FailureProviderGone | FailureNoCapacity | FailureUnknown.
#[export] Instance Failure_eq_dec : EqDecision Failure.
Proof. solve_decision. Defined.

Inductive HostState := HostOnline | HostOffline | HostLost | HostRetired.
#[export] Instance HostState_eq_dec : EqDecision HostState.
Proof. solve_decision. Defined.

Inductive CapacityState := CapacityAvailable | CapacityDraining | CapacityPreempting.
#[export] Instance CapacityState_eq_dec : EqDecision CapacityState.
Proof. solve_decision. Defined.

Inductive ImageEvidence := EvidenceUnknown | EvidenceSaved | EvidenceFailed | EvidenceUnavailable.
#[export] Instance ImageEvidence_eq_dec : EqDecision ImageEvidence.
Proof. solve_decision. Defined.

Inductive ResumeOutcome := ResumeMemoryRestored | ResumeColdBoot.
#[export] Instance ResumeOutcome_eq_dec : EqDecision ResumeOutcome.
Proof. solve_decision. Defined.

(** [PreflightCheck] (machines.go). *)
Record PreflightCheck := mkCheck {
  ck_Name : string;
  ck_OK : bool;
  ck_Message : string;
  ck_Severity : string;
  ck_Remediation : string }.

(** The columns the modelled statements read or write; a nullable one is an
    [option]. [updated_at] is left out: every write sets it and none reads it.
    [hr_history] holds the phases the row has had, which the triggers record in
    [host_phase_changes] (there with capacity states, and purged by age). *)
Record HostRow := mkRow {
  hr_kind : HostKind;
  hr_provider : Provider;
  hr_name : string;
  hr_connection : option uuid;
  hr_account : option uuid;
  hr_authorization : option uuid;
  hr_phase : Phase;
  hr_phase_at : Z;
  hr_phase_message : string;
  hr_failure : option Failure;
  hr_state : HostState;
  hr_token_hash : option string;
  hr_capacity_state : CapacityState;
  hr_capacity_reason : string;
  hr_cpu : Z;
  hr_memory : Z;
  hr_gpu_type : string;
  hr_gpu_count : Z;
  hr_disk_slots : Z;
  hr_region : string;
  hr_zone : string;
  hr_zone_id : string;
  hr_instance_type : string;
  hr_market : option Market;
  hr_hourly_micros : option Z;
  hr_reserve_mode : option ReserveMode;
  hr_replaces : option HostID;
  hr_holds_cpu : option Z;
  hr_holds_memory : option Z;
  hr_holds_disks : option Z;
  hr_margin_waived : bool;
  hr_instance_id : option string;
  hr_spot_request_id : option string;
  hr_node_role : option string;
  hr_node_image : option string;
  hr_hibernation_configured : bool;
  hr_launched_at : option Z;
  hr_launch_lease_until : option Z;
  hr_action_token : option uuid;
  hr_launch_attempts : Z;
  hr_launch_pools : Z;
  hr_image_evidence : ImageEvidence;
  hr_stop_requested_at : option Z;
  hr_force_stop_at : option Z;
  hr_hibernate_refused_at : option Z;
  hr_stopped_at : option Z;
  hr_start_refused_at : option Z;
  hr_terminate_requested_at : option Z;
  hr_sleep_attempt_id : option uuid;
  hr_sleep_boot_id : option string;
  hr_prepared_agent_version : option string;
  hr_gpu_proven : bool;
  hr_last_resume_outcome : option ResumeOutcome;
  hr_session_epoch : Z;
  hr_boot_id : string;
  hr_agent_version : string;
  hr_agent_updatable : bool;
  hr_agent_rejected : option string;
  hr_peer_address : string;
  hr_architecture : string;
  hr_preflight : list PreflightCheck;
  hr_updating_until : option Z;
  hr_last_seen_at : option Z;
  hr_interruption_at : option Z;
  hr_rightsize_refused_at : option Z;
  hr_hands_back_at : option Z;
  hr_history : list Phase }.

#[export] Instance eta_HostRow : Eta HostRow := fun r =>
  mkRow (hr_kind r) (hr_provider r) (hr_name r) (hr_connection r) (hr_account r) (hr_authorization r) (hr_phase r) (hr_phase_at r)
    (hr_phase_message r) (hr_failure r) (hr_state r) (hr_token_hash r) (hr_capacity_state r) (hr_capacity_reason r) (hr_cpu r)
    (hr_memory r) (hr_gpu_type r) (hr_gpu_count r) (hr_disk_slots r) (hr_region r) (hr_zone r) (hr_zone_id r) (hr_instance_type r)
    (hr_market r) (hr_hourly_micros r) (hr_reserve_mode r) (hr_replaces r) (hr_holds_cpu r) (hr_holds_memory r) (hr_holds_disks r)
    (hr_margin_waived r) (hr_instance_id r) (hr_spot_request_id r) (hr_node_role r) (hr_node_image r) (hr_hibernation_configured
    r) (hr_launched_at r) (hr_launch_lease_until r) (hr_action_token r) (hr_launch_attempts r) (hr_launch_pools r)
    (hr_image_evidence r) (hr_stop_requested_at r) (hr_force_stop_at r) (hr_hibernate_refused_at r) (hr_stopped_at r)
    (hr_start_refused_at r) (hr_terminate_requested_at r) (hr_sleep_attempt_id r) (hr_sleep_boot_id r) (hr_prepared_agent_version
    r) (hr_gpu_proven r) (hr_last_resume_outcome r) (hr_session_epoch r) (hr_boot_id r) (hr_agent_version r) (hr_agent_updatable
    r) (hr_agent_rejected r) (hr_peer_address r) (hr_architecture r) (hr_preflight r) (hr_updating_until r) (hr_last_seen_at r)
    (hr_interruption_at r) (hr_rightsize_refused_at r) (hr_hands_back_at r) (hr_history r).

(** What [insert] leaves to the columns' defaults. *)
Definition new_row (kind : HostKind) (provider : Provider) (name : string) (phase : Phase) (phase_message : string)
    (phase_at : Z) : HostRow :=
  mkRow kind provider name None None None phase phase_at phase_message None HostOffline None CapacityAvailable "" 0 0 "" 0 0 "" ""
    "" "" None None None None None None None false None None None None false None None None 0 0 EvidenceUnknown None None None
    None None None None None None false None 0 "" "" false None "" "amd64" [] None None None None None
    [phase].

(** ** The table *)

Abbreviation hosts := (gmap HostID HostRow).

(** [update hosts set f where id = $id and guard]: the table and the rows
    changed. *)
Definition update_one (id : HostID) (guard : HostRow -> bool) (f : HostRow -> HostRow) (t : hosts) : hosts * Z :=
  match t !! id with
  | Some h => if guard h then (<[id := f h]> t, 1) else (t, 0)
  | None => (t, 0)
  end.

(** [update hosts set f where guard]: the table. *)
Definition update_where (guard : HostID -> HostRow -> bool) (f : HostID -> HostRow -> HostRow) (t : hosts) : hosts :=
  map_imap (fun id h => Some (if guard id h then f id h else h)) t.

(** The ids such an update returns. *)
Definition where_ids (guard : HostID -> HostRow -> bool) (t : hosts) : list HostID :=
  map fst (List.filter (fun '(id, h) => guard id h) (map_to_list t)).

(** [id = any($ids)]. *)
Definition any_of (ids : list HostID) (id : HostID) : bool := bool_decide (id ∈ ids).

(** A phase change as the statements write it. The trigger
    [hosts_phase_updated] records a phase that changed, here in [hr_history],
    newest first. *)
Definition to_phase (p : Phase) (message : string) (now : Z) (h : HostRow) : HostRow :=
  h <| hr_phase := p |> <| hr_phase_message := message |> <| hr_phase_at := now |>
    <| hr_history := if hr_phase h == p then hr_history h else p :: hr_history h |>.

(** [state = 'retired', token_hash = null]. *)
Definition retire_row (h : HostRow) : HostRow := h <| hr_state := HostRetired |> <| hr_token_hash := None |>.

(** [x is null or x < y]. *)
Definition null_or_before (x : option Z) (y : Z) : bool := match x with Some t => t <? y | None => true end.

(** [x is not null]. *)
Definition is_set {A} (x : option A) : bool := match x with Some _ => true | None => false end.
