(* ===== verification/HostSql.v ===== *)
(** The statements that read and write the hosts table
    (internal/compute/*.sql.go): every [update hosts] and [insert into hosts]
    of the program, with the rows of containers and join tokens they consult.
    [now] is the transaction's clock, and an interval in seconds is passed as
    the duration the code took it from. *)

From S2P Require Import Prelude Capacity Catalog Billing Policy Placement Offers Cover Fleet Hosts.

(** ** Containers *)

Inductive ContainerState := ContainerPending | ContainerStarting | ContainerReady | ContainerDraining | ContainerStopped.
#[export] Instance ContainerState_eq_dec : EqDecision ContainerState.
Proof. solve_decision. Defined.

Record ContainerRow := mkContainer {
  c_state : ContainerState;
  c_host : option HostID;
  c_gpu_count : Z;
  c_capacity_wait : option CapacityWait;
  c_capacity_host : option HostID }.

#[export] Instance eta_ContainerRow : Eta ContainerRow := fun r =>
  mkContainer (c_state r) (c_host r) (c_gpu_count r) (c_capacity_wait r) (c_capacity_host r).

Abbreviation containers := (gmap uuid ContainerRow).

Definition some_container (f : ContainerRow -> bool) (cs : containers) : bool := existsb (fun c => f c.2) (map_to_list cs).

(** [packed(provider, host_gpus, container_gpus)]. *)
Definition packed_on (h : HostRow) (c : ContainerRow) : bool :=
  (hr_provider h == ProviderAWS) && (hr_gpu_count h >? 0) && (c_gpu_count c =? 0).

(** [exists (select 1 from containers c where c.host_id = h.id and c.state <>
    'stopped')], and the same with [not packed(...)]. *)
Definition runs_some (cs : containers) (id : HostID) : bool :=
  some_container (fun c => (c_host c == Some id) && (c_state c != ContainerStopped)) cs.
Definition runs_work (cs : containers) (id : HostID) (h : HostRow) : bool :=
  some_container (fun c => (c_host c == Some id) && (c_state c != ContainerStopped) && negb (packed_on h c)) cs.

(** [LiveHostContainers]. *)
Definition LiveHostContainers (id : HostID) (cs : containers) : Z :=
  Z.of_nat (length (List.filter (fun c => (c_host c.2 == Some id) && (c_state c.2 != ContainerStopped)) (map_to_list cs))).

(** A pending container waits for the host. *)
Definition awaited (cs : containers) (id : HostID) : bool :=
  some_container (fun c => (c_capacity_host c == Some id) && (c_state c == ContainerPending)) cs.

(** ** actuator.sql.go *)

(** The [where] of [ClaimHostActions]. *)
Definition claimable (phases : list Phase) (settle grace now : Z) (cs : containers) (id : HostID) (h : HostRow) : bool :=
  (hr_provider h == ProviderAWS) && bool_decide (hr_phase h ∈ phases) && null_or_before (hr_launch_lease_until h) now &&
  match hr_phase h with
  | PhaseRequested => true
  | PhaseTerminating => is_set (hr_instance_id h) && null_or_before (hr_terminate_requested_at h) (now - settle)
  | PhaseDraining => is_set (hr_instance_id h) && null_or_before (hr_interruption_at h) (now - grace) && negb (runs_some cs id)
  | _ => is_set (hr_instance_id h)
  end.

(** [order by phase_at, id]. *)
Definition claim_order (a b : HostID * HostRow) : comparison :=
  Z.compare (hr_phase_at a.2) (hr_phase_at b.2) <+> Z.compare a.1 b.1.

(** The [set] of [ClaimHostActions], under the row's new token. *)
Definition claim_row (lease now : Z) (token : uuid) (h : HostRow) : HostRow :=
  let drains := hr_phase h == PhaseDraining in
  let h' := h <| hr_launch_lease_until := Some (now + lease) |> <| hr_action_token := Some token |>
    <| hr_launch_attempts := hr_launch_attempts h + (if hr_phase h == PhaseRequested then 1 else 0) |> in
  if drains then retire_row (to_phase PhaseTerminating "Shutting down" now h') else h'.

(** [ClaimHostActions]: up to [batch] rows no other transaction has locked,
    oldest phase change first, each under a token of its own. *)
Definition ClaimHostActions (phases : list Phase) (lease settle grace : Z) (batch : nat) (locked : HostID -> bool)
    (token : HostID -> uuid) (now : Z) (cs : containers) (t : hosts) : hosts * list (HostID * HostRow) :=
  let due := List.filter (fun '(id, h) => claimable phases settle grace now cs id h && negb (locked id)) (map_to_list t) in
  let claimed := map fst (take batch (sort_by claim_order due)) in
  let t' := update_where (fun id _ => any_of claimed id) (fun id => claim_row lease now (token id)) t in
  (t', omap (fun id => (fun h => (id, h)) <$> t' !! id) claimed).

(** What the outcome writes of an action share: the claim's token and the
    phase it was claimed in. *)
Definition held (token : uuid) (phase : Phase) (h : HostRow) : bool :=
  (hr_action_token h == Some token) && (hr_phase h == phase).

Definition proven (evidence : ImageEvidence) (h : HostRow) : ImageEvidence :=
  if hr_image_evidence h == EvidenceUnknown then evidence else hr_image_evidence h.

Definition MarkReserveStopped (id : HostID) (token : uuid) (evidence : ImageEvidence) (now : Z) : hosts -> hosts * Z :=
  update_one id (held token PhaseStopping) (fun h =>
    (to_phase PhaseStopped "Stopped in the reserve" now h)
      <| hr_stopped_at := Some (default now (hr_stopped_at h)) |> <| hr_image_evidence := proven evidence h |>
      <| hr_launch_lease_until := None |>).

Definition RecordHibernateRefused (id : HostID) (token : uuid) (now : Z) : hosts -> hosts * Z :=
  update_one id (held token PhaseStopping) (fun h =>
    h <| hr_hibernate_refused_at := Some (default now (hr_hibernate_refused_at h)) |>).

Definition RecordInstanceStopped (id : HostID) (token : uuid) (evidence : ImageEvidence) (now : Z) : hosts -> hosts * Z :=
  update_one id (fun h => held token PhaseStopping h && negb (is_set (hr_stopped_at h))) (fun h =>
    h <| hr_stopped_at := Some now |> <| hr_image_evidence := proven evidence h |>).

(** The facts of the last stop end. *)
Definition end_stop (h : HostRow) : HostRow :=
  h <| hr_stop_requested_at := None |> <| hr_force_stop_at := None |> <| hr_hibernate_refused_at := None |>
    <| hr_stopped_at := None |>.

Definition RecordStartRequested (id : HostID) (token : uuid) : hosts -> hosts * Z :=
  update_one id (held token PhaseResuming) end_stop.

Definition RecordStopRequested (id : HostID) (token : uuid) (evidence : ImageEvidence) (forced : bool) (now : Z) :
    hosts -> hosts * Z :=
  update_one id (held token PhaseStopping) (fun h =>
    h <| hr_stop_requested_at := Some (default now (hr_stop_requested_at h)) |>
      <| hr_force_stop_at := if forced then Some now else hr_force_stop_at h |> <| hr_image_evidence := evidence |>).

Definition RecordTerminateRequested (id : HostID) (token : uuid) (now : Z) : hosts -> hosts * Z :=
  update_one id (held token PhaseTerminating) (fun h => h <| hr_terminate_requested_at := Some now |>).

Definition ReleaseHostActions (claims : list (HostID * uuid)) (recheck now : Z) (t : hosts) : hosts :=
  update_where (fun id h => existsb (fun '(i, k) => (i =? id) && (hr_action_token h == Some k)) claims)
    (fun _ h => h <| hr_launch_lease_until := Some (now + recheck) |>) t.

Definition RetireReserve (id : HostID) (token : uuid) (message : string) (now : Z) : hosts -> hosts * Z :=
  update_one id (held token PhaseStopping) (fun h =>
    (retire_row (to_phase PhaseTerminating message now h)) <| hr_launch_lease_until := None |>).

Definition ReturnStartToReserve (id : HostID) (token : uuid) (message : string) (now : Z) : hosts -> hosts * Z :=
  update_one id (held token PhaseResuming) (fun h =>
    (to_phase PhaseStopped message now h) <| hr_start_refused_at := Some now |>
      <| hr_reserve_mode := Some (if (hr_image_evidence h == EvidenceSaved) || (hr_image_evidence h == EvidenceUnknown)
                                  then ReserveHibernate else ReserveStop) |>
      <| hr_launch_lease_until := None |>).

(** ** planner.sql.go *)

Definition drainable (ids : list HostID) (cs : containers) (id : HostID) (h : HostRow) : bool :=
  any_of ids id && ((hr_phase h == PhaseReady) || (hr_phase h == PhasePreparing)) && negb (runs_work cs id h).

Definition drain_row (reason : string) (now : Z) (h : HostRow) : HostRow :=
  (to_phase PhaseDraining "Draining; no new work is placed here" now h) <| hr_capacity_state := CapacityDraining |>
    <| hr_capacity_reason := reason |>.

Definition DrainHosts (ids : list HostID) (reason : string) (now : Z) (cs : containers) (t : hosts) : hosts * list HostID :=
  (update_where (drainable ids cs)
     (fun _ h => (drain_row reason now h) <| hr_reserve_mode := None |> <| hr_hands_back_at := None |>) t,
   where_ids (drainable ids cs) t).

Definition overdue (ids : list HostID) (limit now : Z) (id : HostID) (h : HostRow) : bool :=
  any_of ids id && (hr_phase h == PhasePreparing) && (hr_phase_at h <? now - limit) && null_or_before (hr_updating_until h) now.

Definition FailPreparing (ids : list HostID) (limit : Z) (message : string) (now : Z) (t : hosts) : hosts * list HostID :=
  (update_where (overdue ids limit now)
     (fun _ h => (retire_row (to_phase PhaseTerminating message now h)) <| hr_failure := Some FailureServiceLost |>) t,
   where_ids (overdue ids limit now) t).

(** [requestedHost] (planner.go), a row for [InsertRequestedHosts]. *)
Record requestedHost := mkRequested {
  rq_ID : HostID;
  rq_Kind : HostKind;
  rq_ConnectionID : option uuid;
  rq_CPUMillis : Z;
  rq_MemoryBytes : Z;
  rq_GPUType : string;
  rq_GPUCount : Z;
  rq_Region : string;
  rq_Zone : string;
  rq_ZoneID : string;
  rq_InstanceType : string;
  rq_Market : Market;
  rq_HourlyMicros : Z;
  rq_ReserveMode : option ReserveMode;
  rq_Replaces : option HostID;
  rq_HoldsCPUMillis : option Z;
  rq_HoldsMemoryBytes : option Z;
  rq_HoldsDisks : option Z;
  rq_MarginWaived : bool }.

(** The inserted row; [host_name] is [split_part(id::text, '-', 5)]. *)
Definition requested_row (host_name : HostID -> string) (now : Z) (v : requestedHost) : HostRow :=
  (new_row (rq_Kind v) ProviderAWS (String.append "lazycloud-" (host_name (rq_ID v))) PhaseRequested
     "Waiting for the machine to be launched" now)
    <| hr_connection := rq_ConnectionID v |> <| hr_cpu := rq_CPUMillis v |> <| hr_memory := rq_MemoryBytes v |>
    <| hr_gpu_type := rq_GPUType v |> <| hr_gpu_count := rq_GPUCount v |> <| hr_region := rq_Region v |>
    <| hr_zone := rq_Zone v |> <| hr_zone_id := rq_ZoneID v |> <| hr_instance_type := rq_InstanceType v |>
    <| hr_market := Some (rq_Market v) |> <| hr_hourly_micros := Some (rq_HourlyMicros v) |>
    <| hr_reserve_mode := rq_ReserveMode v |> <| hr_replaces := rq_Replaces v |>
    <| hr_holds_cpu := rq_HoldsCPUMillis v |> <| hr_holds_memory := rq_HoldsMemoryBytes v |>
    <| hr_holds_disks := rq_HoldsDisks v |> <| hr_margin_waived := rq_MarginWaived v |>.

(** One row of an [insert]; an id in use breaks the primary key. *)
Definition insert_row (id : HostID) (h : HostRow) (t : hosts) : option hosts :=
  match t !! id with Some _ => None | None => Some (<[id := h]> t) end.

Definition InsertRequestedHosts (host_name : HostID -> string) (rows : list requestedHost) (now : Z) (t : hosts) : option hosts :=
  fold_left (fun t v => t ≫= insert_row (rq_ID v) (requested_row host_name now v)) rows (Some t).

Definition can_resume (ids : list HostID) (id : HostID) (h : HostRow) : bool :=
  any_of ids id && ((hr_phase h == PhaseStopped) || ((hr_phase h == PhaseStopping) && is_set (hr_stopped_at h))).

Definition ResumeReserves (ids : list HostID) (now : Z) (t : hosts) : hosts * list HostID :=
  (update_where (can_resume ids) (fun _ h =>
     (to_phase PhaseResuming "Starting from the reserve" now h) <| hr_reserve_mode := None |>
       <| hr_stopped_at := if hr_phase h == PhaseStopping then hr_stopped_at h else None |>) t,
   where_ids (can_resume ids) t).

Definition can_retire (ids : list HostID) (now : Z) (cs : containers) (id : HostID) (h : HostRow) : bool :=
  any_of ids id &&
  ((hr_phase h == PhaseStopped) ||
   ((hr_phase h == PhaseRequested) && null_or_before (hr_launch_lease_until h) now && negb (awaited cs id))).

Definition RetireReserves (ids : list HostID) (now : Z) (cs : containers) (t : hosts) : hosts * list HostID :=
  (update_where (can_retire ids now cs) (fun _ h =>
     retire_row (if hr_phase h == PhaseRequested then to_phase PhaseDeleted "Removed" now h
                 else to_phase PhaseTerminating "Shutting down" now h)) t,
   where_ids (can_retire ids now cs) t).

Definition can_return (ids : list HostID) (cs : containers) (id : HostID) (h : HostRow) : bool :=
  any_of ids id && (hr_phase h == PhaseReady) && (hr_capacity_state h == CapacityAvailable) && negb (runs_work cs id h).

Definition ReturnToReserve (ids hibernate : list HostID) (now : Z) (cs : containers) (t : hosts) : hosts * list HostID :=
  (update_where (can_return ids cs) (fun id h =>
     (to_phase PhasePreparing "Preparing to stop into the reserve" now h)
       <| hr_reserve_mode := Some (if any_of hibernate id then ReserveHibernate else ReserveStop) |>
       <| hr_hands_back_at := None |>) t,
   where_ids (can_return ids cs) t).

Definition hands (ids : list HostID) (id : HostID) (h : HostRow) : bool :=
  any_of ids id && (hr_phase h == PhaseReady) && (hr_market h == Some MarketOnDemand).

Definition SetHandsBack (back lend : list HostID) (now : Z) (t : hosts) : hosts * list HostID :=
  (update_where (hands (back ++ lend)) (fun id h =>
     h <| hr_hands_back_at := if any_of back id then Some (default now (hr_hands_back_at h)) else None |>) t,
   where_ids (hands (back ++ lend)) t).

(** [SetCapacityWaits]: the waits of pending containers. *)
Definition SetCapacityWaits (waits : gmap uuid (option CapacityWait * option HostID)) (cs : containers) : containers :=
  map_imap (fun id c => Some (
    match waits !! id with
    | Some (w, host) => if c_state c == ContainerPending then c <| c_capacity_wait := w |> <| c_capacity_host := host |> else c
    | None => c
    end)) cs.

(** ** fleet.sql.go *)

Definition CancelConnectionLaunches (leaving : uuid -> bool) (now : Z) (t : hosts) : hosts :=
  update_where (fun _ h => match hr_connection h with Some c => leaving c | None => false end &&
      (hr_phase h == PhaseRequested) && null_or_before (hr_launch_lease_until h) now)
    (fun _ h => (to_phase PhaseDeleted "Removed" now h) <| hr_state := HostRetired |>) t.

(** A reserve phase, whose hosts run no work. *)
Definition in_reserve_phase (h : HostRow) : bool :=
  (hr_phase h == PhasePreparing) || (hr_phase h == PhaseStopping) || (hr_phase h == PhaseStopped) || (hr_phase h == PhaseResuming).
Definition in_service_phase (h : HostRow) : bool := (hr_phase h == PhaseReady) || (hr_phase h == PhaseJoining).

(** The two updates of [DrainConnectionHosts] and [DrainAuthorizationHosts]:
    of the rows they select, reserves end and the others drain. *)
Definition end_or_drain (selects : HostRow -> bool) (reason : string) (now : Z) (t : hosts) : hosts * list HostID :=
  (update_where (fun _ h => selects h && (in_reserve_phase h || in_service_phase h)) (fun _ h =>
     if in_reserve_phase h then retire_row (to_phase PhaseTerminating "Shutting down" now h) else drain_row reason now h) t,
   where_ids (fun _ h => selects h && (in_reserve_phase h || in_service_phase h)) t).

Definition DrainConnectionHosts (leaving : uuid -> bool) : Z -> hosts -> hosts * list HostID :=
  end_or_drain (fun h => match hr_connection h with Some c => leaving c | None => false end) "disconnecting".

Definition EndHost (id : HostID) (from : Phase) (failure : Failure) (message : string) (now : Z) : hosts -> hosts * Z :=
  update_one id (fun h => hr_phase h == from) (fun h =>
    (retire_row (to_phase PhaseTerminating message now h)) <| hr_failure := Some failure |>).

Definition fail_row (failure : Failure) (message : string) (now : Z) (h : HostRow) : HostRow :=
  (retire_row (to_phase PhaseFailed message now h)) <| hr_failure := Some failure |> <| hr_launch_lease_until := None |>.

Definition FailHost (id : HostID) (from : Phase) (failure : Failure) (message : string) (now : Z) : hosts -> hosts * Z :=
  update_one id (fun h => hr_phase h == from) (fail_row failure message now).

Definition FailLaunch (id : HostID) (token : uuid) (failure : Failure) (message : string) (now : Z) : hosts -> hosts * Z :=
  update_one id (held token PhaseRequested) (fail_row failure message now).

Definition MarkHostDeleted (id : HostID) (from : Phase) (now : Z) : hosts -> hosts * Z :=
  update_one id (fun h => hr_phase h == from) (fun h => retire_row (to_phase PhaseDeleted "Removed" now h)).

(** [MoveLaunchPool], to the pool of [next]. *)
Definition MoveLaunchPool (id : HostID) (token : uuid) (next : FleetOffer) (lease now : Z) : hosts -> hosts * Z :=
  update_one id (held token PhaseRequested) (fun h =>
    h <| hr_instance_type := t_Name (o_Type next) |> <| hr_region := o_Region next |> <| hr_zone := o_Zone next |>
      <| hr_zone_id := o_ZoneID next |> <| hr_hourly_micros := Some (HourlyMicros next) |>
      <| hr_cpu := CPUMillis (o_Usable next) |> <| hr_memory := MemoryBytes (o_Usable next) |>
      <| hr_launch_pools := hr_launch_pools h + 1 |> <| hr_launch_attempts := 0 |>
      <| hr_launch_lease_until := Some (now + lease) |>).

Record RecordLaunchParams := mkLaunch {
  la_InstanceID : string;
  la_Zone : string;
  la_ZoneID : string;
  la_AuthorizationID : option uuid;
  la_NodeRole : option string;
  la_SpotRequestID : option string;
  la_NodeImage : option string;
  la_Hibernation : bool }.

Definition RecordLaunch (id : HostID) (token : uuid) (p : RecordLaunchParams) (now : Z) : hosts -> hosts * Z :=
  update_one id (held token PhaseRequested) (fun h =>
    (to_phase PhaseProvisioning "Instance is starting; waiting for the node to report" now h)
      <| hr_instance_id := Some (la_InstanceID p) |> <| hr_zone := la_Zone p |> <| hr_zone_id := la_ZoneID p |>
      <| hr_launched_at := Some now |> <| hr_launch_lease_until := None |>
      <| hr_authorization := la_AuthorizationID p |> <| hr_node_role := la_NodeRole p |>
      <| hr_spot_request_id := la_SpotRequestID p |> <| hr_node_image := la_NodeImage p |>
      <| hr_hibernation_configured := la_Hibernation p |>).

Definition RefuseRightsize (id : HostID) (now : Z) : hosts -> hosts * Z :=
  update_one id (fun _ => true) (fun h => h <| hr_rightsize_refused_at := Some now |>).

Definition SetHostPhase (id : HostID) (from to : Phase) (message : string) (now : Z) : hosts -> hosts * Z :=
  update_one id (fun h => hr_phase h == from) (to_phase to message now).

(** ** reserve_session.sql.go *)

Record AcceptReserveStopParams := mkAccept {
  as_Message : string;
  as_Attempt : uuid;
  as_BootID : string;
  as_AgentVersion : string;
  as_GpuProven : bool }.

Definition AcceptReserveStop (id : HostID) (phase_at : Z) (p : AcceptReserveStopParams) (now : Z) : hosts -> hosts * Z :=
  update_one id (fun h => (hr_phase h == PhasePreparing) && (hr_phase_at h =? phase_at)) (fun h =>
    (to_phase PhaseStopping (as_Message p) now h) <| hr_sleep_attempt_id := Some (as_Attempt p) |>
      <| hr_sleep_boot_id := Some (as_BootID p) |> <| hr_prepared_agent_version := Some (as_AgentVersion p) |>
      <| hr_gpu_proven := as_GpuProven p |>).

Definition EndLastStop (id : HostID) : hosts -> hosts * Z := update_one id (fun _ => true) end_stop.

Definition settled_evidence (outcome : ResumeOutcome) (e : ImageEvidence) : ImageEvidence :=
  match outcome, e with
  | ResumeMemoryRestored, _ => EvidenceSaved
  | ResumeColdBoot, EvidenceSaved => EvidenceFailed
  | ResumeColdBoot, _ => e
  end.

Definition RecordResumeOutcome (id : HostID) (outcome : ResumeOutcome) : hosts -> hosts * Z :=
  update_one id (fun _ => true) (fun h =>
    h <| hr_last_resume_outcome := Some outcome |> <| hr_image_evidence := settled_evidence outcome (hr_image_evidence h) |>
      <| hr_sleep_attempt_id := None |> <| hr_sleep_boot_id := None |>).

(** ** enrollment.sql.go *)

(** [Capacity] and [HostReport] (enrollment.go). *)
Record Capacity := mkCapacity {
  cp_CPUMillis : Z;
  cp_MemoryBytes : Z;
  cp_GPUType : string;
  cp_GPUCount : Z;
  cp_DiskSlots : Z }.

Record HostReport := mkReport {
  rp_Hostname : string;
  rp_Capacity : Capacity;
  rp_Architecture : string;
  rp_Preflight : list PreflightCheck }.

(** [HostReport.architecture]. *)
Definition architecture (r : HostReport) : string := if rp_Architecture r == "arm64" then "arm64" else "amd64".

Definition can_enroll_cloud (instance : option string) (h : HostRow) : bool :=
  (hr_provider h == ProviderAWS) && is_set instance && (hr_instance_id h == instance) &&
  ((hr_phase h == PhaseProvisioning) || (hr_phase h == PhaseBooting)) && negb (is_set (hr_token_hash h)).

Definition EnrollCloudHost (id : HostID) (instance : option string) (digest : string) (r : HostReport) (now : Z) :
    hosts -> hosts * Z :=
  update_one id (can_enroll_cloud instance) (fun h =>
    (to_phase PhaseJoining "Agent joined; waiting for its first heartbeat" now h)
      <| hr_token_hash := Some digest |> <| hr_state := HostOffline |>
      <| hr_cpu := cp_CPUMillis (rp_Capacity r) |> <| hr_memory := cp_MemoryBytes (rp_Capacity r) |>
      <| hr_gpu_type := if cp_GPUType (rp_Capacity r) == "" then hr_gpu_type h else cp_GPUType (rp_Capacity r) |>
      <| hr_gpu_count := Z.max (hr_gpu_count h) (cp_GPUCount (rp_Capacity r)) |>
      <| hr_architecture := architecture r |> <| hr_preflight := rp_Preflight r |>).

Definition can_enroll_machine (h : HostRow) : bool :=
  (hr_kind h == KindMachine) && ((hr_phase h == PhaseRequested) || (hr_phase h == PhaseFailed)) && (hr_state h != HostRetired).

Definition EnrollMachine (id : HostID) (digest : string) (phase : Phase) (message : string) (failure : option Failure)
    (r : HostReport) (now : Z) : hosts -> hosts * Z :=
  update_one id can_enroll_machine (fun h =>
    (to_phase phase message now h) <| hr_token_hash := Some digest |> <| hr_state := HostOffline |>
      <| hr_failure := failure |> <| hr_cpu := cp_CPUMillis (rp_Capacity r) |> <| hr_memory := cp_MemoryBytes (rp_Capacity r) |>
      <| hr_gpu_type := cp_GPUType (rp_Capacity r) |> <| hr_gpu_count := cp_GPUCount (rp_Capacity r) |>
      <| hr_architecture := architecture r |> <| hr_preflight := rp_Preflight r |>).

Definition HostByToken (digest : string) (t : hosts) : option HostID :=
  fst <$> List.find (fun r => (hr_token_hash r.2 == Some digest) && (hr_state r.2 != HostRetired)) (map_to_list t).

Definition InsertPlatformHost (id : HostID) (digest : string) (r : HostReport) (now : Z) : hosts -> option hosts :=
  insert_row id (
    (new_row KindPlatform ProviderAgent (rp_Hostname r) PhaseJoining "Agent joined; waiting for its first heartbeat" now)
      <| hr_token_hash := Some digest |> <| hr_cpu := cp_CPUMillis (rp_Capacity r) |>
      <| hr_memory := cp_MemoryBytes (rp_Capacity r) |> <| hr_gpu_type := cp_GPUType (rp_Capacity r) |>
      <| hr_gpu_count := cp_GPUCount (rp_Capacity r) |> <| hr_architecture := architecture r |>
      <| hr_preflight := rp_Preflight r |>).

(** [SessionOpen] (enrollment.go). *)
Record SessionOpen := mkOpen {
  so_BootID : string;
  so_Capacity : Capacity;
  so_AgentVersion : string;
  so_AgentUpdatable : bool;
  so_AgentRejected : option string;
  so_SleepAttempt : option uuid;
  so_SleptSeconds : Z;
  so_PeerAddress : string }.

(** [OpenHostSession]; the epoch it returns is the row's. *)
Definition OpenHostSession (id : HostID) (open : SessionOpen) (now : Z) (t : hosts) : hosts * option Z :=
  let r := update_one id (fun h => hr_state h != HostRetired) (fun h =>
    (if hr_phase h == PhaseJoining then to_phase PhaseReady "Ready for workloads" now h else h)
      <| hr_session_epoch := hr_session_epoch h + 1 |> <| hr_state := HostOnline |>
      <| hr_cpu := cp_CPUMillis (so_Capacity open) |> <| hr_memory := cp_MemoryBytes (so_Capacity open) |>
      <| hr_gpu_type := cp_GPUType (so_Capacity open) |> <| hr_gpu_count := cp_GPUCount (so_Capacity open) |>
      <| hr_disk_slots := cp_DiskSlots (so_Capacity open) |> <| hr_boot_id := so_BootID open |>
      <| hr_agent_version := so_AgentVersion open |> <| hr_agent_updatable := so_AgentUpdatable open |>
      <| hr_agent_rejected := so_AgentRejected open |> <| hr_peer_address := so_PeerAddress open |>
      <| hr_updating_until := None |> <| hr_last_seen_at := Some now |>) t in
  (r.1, if r.2 =? 1 then hr_session_epoch <$> r.1 !! id else None).

Definition TouchHost (id : HostID) (epoch : Z) (now : Z) : hosts -> hosts * Z :=
  update_one id (fun h => (hr_session_epoch h =? epoch) && (hr_state h == HostOnline))
    (fun h => h <| hr_last_seen_at := Some now |>).

(** ** machines.sql.go *)

Definition InsertMachine (id : HostID) (name : string) (account : uuid) (gpu : string) (now : Z) : hosts -> option hosts :=
  insert_row id (
    (new_row KindMachine ProviderAgent name PhaseRequested "Waiting for the join command to run on the host" now)
      <| hr_account := Some account |> <| hr_gpu_type := gpu |>).

Definition ResetMachine (id : HostID) (gpu : string) (now : Z) : hosts -> hosts * Z :=
  update_one id (fun _ => true) (fun h =>
    (to_phase PhaseRequested "Waiting for the join command to run on the host" now h) <| hr_state := HostOffline |>
      <| hr_token_hash := None |> <| hr_failure := None |> <| hr_gpu_type := gpu |> <| hr_preflight := [] |>).

Definition RetireMachine (id : HostID) (message : string) (now : Z) : hosts -> hosts * Z :=
  update_one id (fun _ => true) (fun h =>
    (retire_row (to_phase PhaseDeleted message now h)) <| hr_capacity_state := CapacityAvailable |>).

(** A machine of the account that still exists, by name; at most one, by the
    unique index on account and name. *)
Definition named_machine (account : uuid) (name : string) (h : HostRow) : bool :=
  (hr_kind h == KindMachine) && (hr_account h == Some account) && (hr_name h == name) && (hr_phase h != PhaseDeleted).

Definition LockMachineByName (account : uuid) (name : string) (t : hosts) : option (HostID * HostRow) :=
  List.find (fun r => named_machine account name r.2) (map_to_list t).

(** [LockAccountMachine]: by id, or by name among those not deleted; a live
    one first, then the newest. [id_text] is [id::text]. *)
Definition account_order (a b : HostID * HostRow) : comparison :=
  boolOrder (hr_phase a.2 == PhaseDeleted) (hr_phase b.2 == PhaseDeleted) <+> Z.compare b.1 a.1.

Definition LockAccountMachine (id_text : HostID -> string) (account : uuid) (machine : string) (t : hosts) :
    option (HostID * HostRow) :=
  head (sort_by account_order (List.filter (fun r =>
    (hr_kind r.2 == KindMachine) && (hr_account r.2 == Some account) &&
    ((id_text r.1 == machine) || ((hr_name r.2 == machine) && (hr_phase r.2 != PhaseDeleted)))) (map_to_list t))).

(** [host_join_tokens], by token hash. *)
Record JoinToken := mkToken { jt_expires : Z; jt_used : option Z; jt_host : option HostID }.
Abbreviation tokens := (gmap string JoinToken).

Definition UseJoinToken (digest : string) (now : Z) (ts : tokens) : option (tokens * option HostID) :=
  match ts !! digest with
  | Some k => if negb (is_set (jt_used k)) && (now <? jt_expires k)
              then Some (<[digest := mkToken (jt_expires k) (Some now) (jt_host k)]> ts, jt_host k)
              else None
  | None => None
  end.

(** [InsertJoinToken]; a hash in use breaks the unique constraint. *)
Definition InsertJoinToken (digest : string) (ttl : Z) (host : option HostID) (now : Z) (ts : tokens) : option (tokens * Z) :=
  match ts !! digest with
  | Some _ => None
  | None => Some (<[digest := mkToken (now + ttl) None host]> ts, now + ttl)
  end.

Definition RevokeMachineJoinTokens (host : HostID) (now : Z) (ts : tokens) : tokens :=
  (fun k => if (jt_host k == Some host) && negb (is_set (jt_used k)) then mkToken (jt_expires k) (Some now) (jt_host k) else k) <$> ts.

(** ** connections.sql.go, interruptions.sql.go, liveness.sql.go, releases.sql.go *)

Definition AbandonConnectionHosts (connection : uuid) (now : Z) (t : hosts) : hosts :=
  update_where (fun _ h => (hr_connection h == Some connection) && (hr_phase h != PhaseDeleted) && (hr_phase h != PhaseFailed))
    (fun _ h => (to_phase PhaseFailed "Left in the AWS account when its connection was forgotten" now h)
       <| hr_state := HostRetired |> <| hr_failure := Some FailureUnknown |> <| hr_launch_lease_until := None |>) t.

Definition DrainAuthorizationHosts (authorization : uuid) : Z -> hosts -> hosts * list HostID :=
  end_or_drain (fun h => hr_authorization h == Some authorization) "authorization replaced".

Definition MarkInterrupted (id : HostID) (message reason : string) (reclaim : Z) (now : Z) : hosts -> hosts * Z :=
  update_one id (fun _ => true) (fun h =>
    (if in_service_phase h then to_phase PhaseDraining message now h else h <| hr_phase_message := message |>)
      <| hr_phase_at := now |> <| hr_capacity_state := CapacityPreempting |> <| hr_capacity_reason := reason |>
      <| hr_interruption_at := Some reclaim |>).

(** Asleep in the reserve or waking, so not lost. *)
Definition asleep (h : HostRow) : bool :=
  (hr_phase h == PhaseResuming) ||
  (((hr_phase h == PhaseStopping) || (hr_phase h == PhaseStopped)) && is_set (hr_reserve_mode h)).

Definition MarkHostLost (id : HostID) (timeout now : Z) : hosts -> hosts * Z :=
  update_one id (fun h => (hr_state h == HostOnline) &&
      match hr_last_seen_at h with Some seen => seen <? now - timeout | None => false end &&
      null_or_before (hr_updating_until h) now && negb (asleep h))
    (fun h => h <| hr_state := HostLost |>).

Definition MarkUpdating (id : HostID) (limit now : Z) : hosts -> hosts * Z :=
  update_one id (fun _ => true) (fun h => h <| hr_updating_until := Some (now + limit) |>).
