(* ===== verification/Cooldowns.v ===== *)
(** Offer cooldowns (the statements on [capacity_cooldowns] in
    internal/compute/fleet.sql.go and planner.sql.go, the quota refusals of
    quotas.sql.go, [offerCooldowns] of planner_snapshot.go, and the AWS error
    codes of aws.go that start one).

    A refused pool cools for the capacity cooldown; refused again after it
    ended, for twice as long as the last time, up to [cooldownGrowth] times.
    The pools one launch walk refuses end their cooldowns together. *)

From S2P Require Import Prelude Capacity Catalog Billing Policy Placement Offers Cover Fleet Hosts HostSql.

(** ** AWS errors *)

(** An error of an AWS call: one the service answered, with its code, message
    and whether the service is at fault, or no answer. *)
Inductive aws_error :=
  | APIError (code message : string) (server_fault : bool)
  | NoAnswer (text : string).

Definition awsCode (e : aws_error) : string := match e with APIError code _ _ => code | NoAnswer _ => "" end.

Definition describeAWSError (e : aws_error) : string :=
  match e with APIError code message _ => String.append code (String.append ": " message) | NoAnswer text => text end.

Definition capacityRefusal (code : string) : bool :=
  bool_decide (code ∈ ["InsufficientInstanceCapacity"; "InstanceLimitExceeded"; "VcpuLimitExceeded";
    "MaxSpotInstanceCountExceeded"; "SpotMaxPriceTooLow"; "Unsupported"; "InsufficientCapacity"]).

Definition quotaRefusal (code : string) : bool :=
  (code == "VcpuLimitExceeded") || (code == "MaxSpotInstanceCountExceeded") || (code == "InstanceLimitExceeded").

Definition transientAWS (e : aws_error) : bool :=
  match e with
  | NoAnswer _ => true
  | APIError code _ fault =>
      bool_decide (code ∈ ["RequestLimitExceeded"; "Throttling"; "ThrottlingException"; "IncorrectInstanceState";
        "InternalError"; "Unavailable"]) || fault
  end.

(** [truncate] (validation.go). *)
Definition maxMessage : nat := 512.
Definition truncate (s : string) : string :=
  if (String.length s <=? maxMessage)%nat then s else String.substring 0 maxMessage s.

(** ** The table *)

(** Owner, region, zone id, instance type and market. *)
Abbreviation cool_key := (string * string * string * string * Market)%type.

Record CooldownRow := mkCool { cd_until : Z; cd_for : Z; cd_reason : string; cd_walk : option HostID }.
Abbreviation cooldowns_table := (gmap cool_key CooldownRow).

(** How long a pool refused again after its cooldown ended cools. *)
Definition next_cooldown (last seconds max : Z) : Z := Z.min (Z.max (last * 2) seconds) max.

(** [InsertCooldown]. *)
Definition InsertCooldown (key : cool_key) (seconds max : Z) (reason : string) (walk : option HostID) (now : Z)
    (t : cooldowns_table) : cooldowns_table :=
  match t !! key with
  | None => <[key := mkCool (now + seconds) seconds reason walk]> t
  | Some r =>
      if cd_until r >? now then
        <[key := mkCool (cd_until r) (cd_for r) reason (match cd_walk r with Some w => Some w | None => walk end)]> t
      else
        let d := next_cooldown (cd_for r) seconds max in <[key := mkCool (now + d) d reason walk]> t
  end.

(** The latest end of the pools a walk refused. *)
Definition walk_until (walk : HostID) (t : cooldowns_table) : option Z :=
  map_fold (fun _ r acc =>
    if cd_walk r == Some walk then Some (match acc with Some u => Z.max u (cd_until r) | None => cd_until r end) else acc) None t.

(** [AlignWalk]. *)
Definition AlignWalk (walk : HostID) (t : cooldowns_table) : cooldowns_table :=
  match walk_until walk t with
  | None => t
  | Some u => (fun r => if cd_walk r == Some walk then mkCool u (cd_for r) (cd_reason r) (cd_walk r) else r) <$> t
  end.

(** [ClearCooldown]: the pool's cooldown and its region's. *)
Definition ClearCooldown (owner region zone type : string) (market : Market) (t : cooldowns_table) : cooldowns_table :=
  delete (owner, region, zone, type, market) (delete (owner, region, "", type, market) t).

(** [PlannerCooldowns], in its order, which is the key's. *)
Definition key_order (a b : cool_key * CooldownRow) : comparison :=
  let '((o1, r1, z1, t1, m1), _) := a in let '((o2, r2, z2, t2, m2), _) := b in
  String.compare o1 o2 <+> String.compare r1 r2 <+> String.compare z1 z2 <+> String.compare t1 t2 <+>
  boolOrder (m1 == MarketSpot) (m2 == MarketSpot).

Definition PlannerCooldowns (now : Z) (t : cooldowns_table) : list (cool_key * CooldownRow) :=
  sort_by key_order (List.filter (fun r => cd_until r.2 >? now) (map_to_list t)).

(** [offerCooldowns]: the cooldowns an account launches under. *)
Definition offerCooldowns (rows : list (cool_key * CooldownRow)) (owner : string) : list OfferCooldown :=
  omap (fun '((o, region, zone, type, market), r) =>
    if (o != owner) && (zone == "") then None
    else Some (mkCooldown region zone type market (cd_until r) false)) rows.

(** ** Quota refusals *)

Abbreviation quota_table := (gmap (string * string * QuotaClass * Market) Z).

(** [RefuseQuota] and [refuseQuota]: until when each refused class waits. *)
Definition RefuseQuota (owner region : string) (class : QuotaClass) (market : Market) (seconds now : Z) (t : quota_table) : quota_table :=
  <[(owner, region, class, market) := now + seconds]> t.

Definition refuseQuota (owner region type : string) (market : Market) (cooldown now : Z) (t : quota_table) : quota_table :=
  let '(class, ok) := QuotaClassOf type in if ok then RefuseQuota owner region class market cooldown now t else t.

(** ** What a refusal cools *)

Definition cooldownGrowth : Z := 4.

Record cool_db := mkCoolDB { cl_pools : cooldowns_table; cl_quotas : quota_table }.

(** [coolRefusal] (fleet_actuator.go) of a claimed row; [owner] is the key of
    its account. *)
Definition coolRefusal (owner : string) (h : HostRow) (refusal : option aws_error) (cooldown now : Z) (d : cool_db) : cool_db :=
  match refusal, hr_market h with
  | Some e, Some market =>
      let code := awsCode e in
      let zone := if capacityRefusal code && negb (quotaRefusal code) then hr_zone_id h else "" in
      let pools := InsertCooldown (owner, hr_region h, zone, hr_instance_type h, market) cooldown (cooldownGrowth * cooldown)
        (truncate (describeAWSError e)) None now (cl_pools d) in
      mkCoolDB pools (if quotaRefusal code then refuseQuota owner (hr_region h) (hr_instance_type h) market cooldown now (cl_quotas d)
                      else cl_quotas d)
  | _, _ => d
  end.

(** [poolCooldown] and [coolPool] (launcher.go): the walk's pools end their
    cooldowns together. *)
Record poolCooldown := mkPoolCool { pc_zoneID : string; pc_quota : bool }.

Definition coolPool (owner : string) (id : HostID) (h : HostRow) (message : string) (cool : poolCooldown) (cooldown now : Z)
    (d : cool_db) : cool_db :=
  match hr_market h with
  | None => d
  | Some market =>
      let pools := AlignWalk id (InsertCooldown (owner, hr_region h, pc_zoneID cool, hr_instance_type h, market) cooldown
        (cooldownGrowth * cooldown) (truncate message) (Some id) now (cl_pools d)) in
      mkCoolDB pools (if pc_quota cool then refuseQuota owner (hr_region h) (hr_instance_type h) market cooldown now (cl_quotas d)
                      else cl_quotas d)
  end.
