(* ===== verification/Sessions.v ===== *)
(** Host sessions and the reserve (internal/compute/reserve_session.go,
    host_phases.go, and the session parts of enrollment.go, interruptions.go,
    liveness.go, releases.go and retirement.go): what a host's session does to
    its row when it opens, answers a request to stop, is lost or is reclaimed.

    An operation is one transaction: [Ret] is its commit, [Err] rolls it back. *)

From S2P Require Import Prelude Capacity Catalog GoLib Billing Policy Placement Offers Cover Fleet Hosts HostSql.

(** ** Errors *)

Inductive host_error :=
  | ErrPhaseTransition (from to : Phase)
  | ErrLeftWhileLocked (from : Phase)
  | ErrUnknownHost
  | ErrInvalidJoinToken
  | ErrNotFound (machine : string)
  | ErrServedBy (machine workspace : string)
  | ErrAlreadyJoined (machine : string)
  | ErrPinned (machine : string) (workspaces : list string)
  | ErrIdentity (message : string)
  | ErrUniqueViolation
  | ErrContainers.

(** [transition]. *)
Definition transition (from to : Phase) : go host_error unit :=
  if CanBecome from to then Ret tt else Err (ErrPhaseTransition from to).

(** [changePhase]: whether the host was still in [from]. *)
Definition changePhase (id : HostID) (from to : Phase) (now : Z) (t : hosts) : go host_error (hosts * bool) :=
  _ <-! transition from to;
  let r := SetHostPhase id from to (phase_Message to) now t in
  Ret (r.1, r.2 =? 1).

(** [movePhase]. *)
Definition movePhase (id : HostID) (from to : Phase) (now : Z) (t : hosts) : go host_error hosts :=
  r <-! changePhase id from to now t;
  if r.2 then Ret r.1 else Err (ErrLeftWhileLocked from).

(** ** Opening a session *)

Definition resumeOutcome (h : HostRow) (open : SessionOpen) : option ResumeOutcome :=
  match hr_sleep_attempt_id h, so_SleepAttempt open, hr_sleep_boot_id h with
  | Some a, Some b, Some boot =>
      if a != b then None
      else if so_BootID open != boot then Some ResumeColdBoot
      else if so_SleptSeconds open >? 0 then Some ResumeMemoryRestored
      else None
  | _, _, _ => None
  end.

(** The host comes back: it was asked to, or it slept or booted unasked. *)
Definition comes_back (h : HostRow) (outcome : option ResumeOutcome) : bool :=
  (hr_phase h == PhaseResuming) ||
  (is_set outcome && ((hr_phase h == PhaseStopping) || (hr_phase h == PhaseStopped))).

(** The moves of a host that comes back, to joining. *)
Definition rejoin (id : HostID) (h : HostRow) (outcome : option ResumeOutcome) (now : Z) (t : hosts) : go host_error hosts :=
  let t := match outcome with Some o => (RecordResumeOutcome id o t).1 | None => t end in
  t <-! (if hr_phase h == PhaseResuming then Ret t else movePhase id (hr_phase h) PhaseResuming now t);
  t <-! movePhase id PhaseResuming PhaseJoining now t;
  Ret (EndLastStop id t).1.

Definition settleSession (id : HostID) (open : SessionOpen) (now : Z) (t : hosts) : go host_error hosts :=
  match t !! id with
  | None => Ret t
  | Some h =>
      let outcome := resumeOutcome h open in
      let back := comes_back h outcome in
      t <-! (if back then rejoin id h outcome now t else Ret t);
      if (back || (hr_phase h == PhaseJoining)) && is_set (hr_reserve_mode h)
      then movePhase id PhaseJoining PhasePreparing now t
      else Ret t
  end.

(** [OpenSession]: the epoch of the session. *)
Definition OpenSession (id : HostID) (open : SessionOpen) (now : Z) (t : hosts) : go host_error (hosts * Z) :=
  t <-! settleSession id open now t;
  let r := OpenHostSession id open now t in
  match r.2 with
  | Some epoch => Ret (r.1, epoch)
  | None => Err ErrUnknownHost
  end.

(** [Touch]: whether the session is still the host's latest and the host is
    online. *)
Definition Touch (id : HostID) (epoch now : Z) (t : hosts) : hosts * bool :=
  let r := TouchHost id epoch now t in (r.1, r.2 =? 1).

(** ** Stopping into the reserve *)

(** [strconv.FormatInt(n, 10)]. *)
Definition FormatInt (n : Z) : string := if n <? 0 then String.append "-" (Itoa (- n)) else Itoa n.

(** January 1, 1970, and [Time.UnixMicro]. *)
Definition unix_epoch : Z := 719162 * 24 * hour.
Definition UnixMicro (t : Z) : Z := (t - unix_epoch) / 1000.

Definition reserveRequestID (phaseAt : Z) : string := FormatInt (UnixMicro phaseAt).

Record ReserveRequest := mkRR { rr_ID : string; rr_Mode : ReserveMode; rr_GPUs : Z }.

Inductive ReserveStep := ReserveIdle | ReservePrepare | ReserveWait | ReserveRejoin.

(** [ReserveSync]; [update] says [UpdateFor] finds a release to move to. *)
Definition ReserveSync (id : HostID) (update : bool) (now : Z) (t : hosts) : ReserveStep * option ReserveRequest :=
  match t !! id with
  | None => (ReserveIdle, None)
  | Some h =>
      if hr_phase h == PhaseResuming then (ReserveRejoin, None)
      else if hr_phase h != PhasePreparing then (ReserveIdle, None)
      else if match hr_updating_until h with Some u => now <? u | None => false end then (ReserveWait, None)
      else if update then (ReserveWait, None)
      else (ReservePrepare,
            Some (mkRR (reserveRequestID (hr_phase_at h)) (default ReserveStop (hr_reserve_mode h)) (hr_gpu_count h)))
  end.

Record ReserveAnswer := mkRA {
  ra_RequestID : string;
  ra_Attempt : uuid;
  ra_BootID : string;
  ra_AgentVersion : string;
  ra_GPUs : Z;
  ra_Refused : string;
  ra_Updating : bool }.

Inductive ReserveVerdict := ReserveStopping | ReserveReturned | ReserveStale | ReserveDeferred.
#[export] Instance ReserveVerdict_eq_dec : EqDecision ReserveVerdict.
Proof. solve_decision. Defined.

(** [failedChecks] (enrollment.go). *)
Definition failedChecks (checks : list PreflightCheck) : list string :=
  map ck_Message (List.filter (fun c => negb (ck_OK c) && (ck_Severity c == "error")) checks).

(** [unproven]; [current] is what [on_target] says of the agent's release. *)
Definition unproven (answer : ReserveAnswer) (h : HostRow) (current : bool) (live : Z) : string :=
  if ra_Refused answer != "" then ra_Refused answer
  else if negb current then String.append "the agent runs " (String.append (ra_AgentVersion answer) ", not the target release's build")
  else if (hr_gpu_count h >? 0) && (ra_GPUs answer <? hr_gpu_count h) then
    String.append "the driver found " (String.append (FormatInt (ra_GPUs answer))
      (String.append " of " (String.append (FormatInt (hr_gpu_count h)) " GPUs")))
  else if negb (bool_decide (failedChecks (hr_preflight h) = [])) then
    String.append "preflight failed: " (String.concat "; " (failedChecks (hr_preflight h)))
  else if live >? 0 then String.append "containers are still assigned to it (" (String.append (FormatInt live) ")")
  else "".

(** The answer is for the request and boot the row has now. *)
Definition answers (h : HostRow) (answer : ReserveAnswer) : bool :=
  (hr_phase h == PhasePreparing) && (reserveRequestID (hr_phase_at h) == ra_RequestID answer) && (hr_boot_id h == ra_BootID answer).

Definition AnswerReserve (id : HostID) (answer : ReserveAnswer) (current : bool) (now : Z) (cs : containers) (t : hosts) :
    go host_error (hosts * ReserveVerdict) :=
  if ra_Updating answer then Ret (t, ReserveDeferred)
  else match t !! id with
  | None => Err ErrUnknownHost
  | Some h =>
      if negb (answers h answer) then Ret (t, ReserveStale)
      else
        let reason := unproven answer h current (LiveHostContainers id cs) in
        if reason != "" then
          _ <-! transition PhasePreparing PhaseReady;
          Ret ((SetHostPhase id PhasePreparing PhaseReady
                  (String.append (phase_Message PhaseReady) (String.append "; not stopped: " reason)) now t).1, ReserveReturned)
        else
          _ <-! transition PhasePreparing PhaseStopping;
          let r := AcceptReserveStop id (hr_phase_at h)
            (mkAccept (phase_Message PhaseStopping) (ra_Attempt answer) (ra_BootID answer) (ra_AgentVersion answer)
               (hr_gpu_count h >? 0)) now t in
          Ret (r.1, if r.2 =? 0 then ReserveStale else ReserveStopping)
  end.

(** ** Lost, reclaimed and disconnecting hosts *)

Definition LivenessTimeout : Z := 30 * second.

(** [MarkLost]. *)
Definition MarkLost (id : HostID) (now : Z) (t : hosts) : hosts * bool :=
  let r := MarkHostLost id LivenessTimeout now t in (r.1, r.2 =? 1).

(** [Containers] (compute.go): what the fleet asks of execution, in its own
    transaction. [None] is a call that returns an error, which ends the
    transaction. *)
Class HostContainers := {
  StopHostContainers : HostID -> string -> containers -> option containers;
  DrainHostContainers : HostID -> containers -> option containers;
  DrainHostWorkspaces : HostID -> list uuid -> containers -> option containers;
  WakeReleasesOnHosts : list HostID -> containers -> option containers;
  EvictContainers : list uuid -> containers -> option containers }.

(** What such a call answered. *)
Definition asked (answer : option containers) : go host_error containers :=
  match answer with Some cs => Ret cs | None => Err ErrContainers end.

Section Ops.
Context `{!HostContainers}.

(** [ReportInterruption]; [stamp] is the reclaim time as RFC 3339. *)
Definition ReportInterruption (id : HostID) (reason : string) (reclaim : Z) (stamp : string) (now : Z) (t : hosts)
    (cs : containers) : go host_error (hosts * containers) :=
  match t !! id with
  | None => Err ErrUnknownHost
  | Some h =>
      if is_set (hr_interruption_at h) then Ret (t, cs)
      else
        let t' := (MarkInterrupted id (String.append "The provider reclaims this instance at " stamp) reason reclaim now t).1 in
        cs' <-! asked (DrainHostContainers id cs);
        Ret (t', cs')
  end.

(** [Retire]: the hosts of disconnecting accounts, and how many left. *)
Definition Retire (leaving : uuid -> bool) (now : Z) (t : hosts) (cs : containers) : go host_error (hosts * containers * Z) :=
  let r := DrainConnectionHosts leaving now t in
  cs' <-! go_fold (fun cs id => asked (DrainHostContainers id cs)) r.2 cs;
  Ret (CancelConnectionLaunches leaving now r.1, cs', Z.of_nat (length r.2)).

End Ops.
