(* ===== verification/Actuator.v ===== *)
(** The actuator (internal/compute/fleet_actuator.go): the EC2 calls that
    stop, start and end the instances of hosts it claimed, and what each
    answer writes.

    EC2 is an argument: [answer] says how it answers each call, and what it
    lists about an instance is part of the call's arguments.  The calls made
    are recorded in order.  [clock] is Go's clock and [now] the database's. *)

From S2P Require Import Prelude Capacity Catalog GoLib Billing Policy Placement Offers Cover Fleet Hosts HostSql Cooldowns Sessions.

Definition actionLease : Z := 2 * minute.
Definition actuatorRecheck : Z := 10 * second.
Definition providerCallsPerPass : nat := 10.
Definition launchesPerPass : nat := 10.
Definition hibernateAfterStart : Z := 2 * minute.
Definition providerDeadline : Z := 10 * minute.
Definition stopSettle : Z := minute.
Definition ReclaimGrace : Z := 2 * minute.

(** ** EC2 *)

Inductive InstanceState := InstancePending | InstanceRunning | InstanceShuttingDown | InstanceTerminated | InstanceStopping | InstanceStopped.
#[export] Instance InstanceState_eq_dec : EqDecision InstanceState.
Proof. solve_decision. Defined.

(** An instance as EC2 lists it: whether it is Spot, launched able to
    hibernate, when it last started and why it last changed state. *)
Record Instance := mkInstance {
  in_State : InstanceState;
  in_Spot : bool;
  in_Hibernation : bool;
  in_LaunchTime : option Z;
  in_Reason : string }.

Inductive stop_kind := StopPlain | StopHibernate | StopForced.
#[export] Instance stop_kind_eq_dec : EqDecision stop_kind.
Proof. solve_decision. Defined.

Inductive ec2_call :=
  | CallStop (host : HostID) (kind : stop_kind)
  | CallStart (host : HostID)
  | CallTerminate (host : HostID).
#[export] Instance ec2_call_eq_dec : EqDecision ec2_call.
Proof. solve_decision. Defined.

(** ** A pass *)

(** The tables a pass writes, the calls it made and [ActuateResult]. *)
Record act_state := mkAct {
  ac_hosts : hosts;
  ac_cool : cool_db;
  ac_calls : list ec2_call;
  ac_Stopped : Z;
  ac_Started : Z;
  ac_Terminated : Z }.
#[export] Instance eta_act_state : Eta act_state := fun r =>
  mkAct (ac_hosts r) (ac_cool r) (ac_calls r) (ac_Stopped r) (ac_Started r) (ac_Terminated r).

(** What a host's action ends with: nothing, an error it logs and retries
    next pass. *)
Definition outcome : Type := act_state * option aws_error.
Definition settled (s : act_state) : outcome := (s, None).

Section Actuator.
(** How EC2 answers each call, the key of a host's account, and
    [CapacityCooldown]. *)
Context (answer : ec2_call -> option aws_error) (owner : HostRow -> string) (cooldown : Z).
Context (clock now : Z).

(** A call and its answer. *)
Definition call (c : ec2_call) (s : act_state) : act_state * option aws_error :=
  (s <| ac_calls := ac_calls s ++ [c] |>, answer c).

Definition write (f : hosts -> hosts * Z) (s : act_state) : act_state := s <| ac_hosts := (f (ac_hosts s)).1 |>.

(** [ActionToken] of a claimed row, which always has one. *)
Definition token_of (h : HostRow) : uuid := default (-1) (hr_action_token h).

Definition recordStop (id : HostID) (h : HostRow) (evidence : ImageEvidence) (forced : bool) (s : act_state) : outcome :=
  settled (write (RecordStopRequested id (token_of h) evidence forced now) s).

Definition recordStart (id : HostID) (h : HostRow) (s : act_state) : outcome :=
  settled (write (RecordStartRequested id (token_of h)) s).

(** A guarded phase change that cools the refused offer when it took the
    row: the transaction of [retireReserve] and [refuseStart]. *)
Definition move_and_cool (f : hosts -> hosts * Z) (h : HostRow) (refusal : option aws_error) (s : act_state) : act_state :=
  let r := f (ac_hosts s) in
  if r.2 =? 0 then s
  else s <| ac_hosts := r.1 |> <| ac_cool := coolRefusal (owner h) h refusal cooldown now (ac_cool s) |>.

Definition retireReserve (id : HostID) (h : HostRow) (message : string) (refusal : option aws_error) (s : act_state) : outcome :=
  match transition PhaseStopping PhaseTerminating with
  | Ret _ => settled (move_and_cool (RetireReserve id (token_of h) message now) h refusal s)
  | _ => settled s
  end.

Definition stopRefused (id : HostID) (h : HostRow) (e : aws_error) (s : act_state) : outcome :=
  if transientAWS e then (s, Some e)
  else retireReserve id h (truncate (String.append "Stop refused: " (describeAWSError e))) (Some e) s.

Definition refuseStart (id : HostID) (h : HostRow) (e : aws_error) (s : act_state) : outcome :=
  match transition PhaseResuming PhaseStopped with
  | Ret _ =>
      settled (move_and_cool (ReturnStartToReserve id (token_of h)
        (truncate (String.append "Start refused: " (describeAWSError e))) now) h (Some e) s)
  | _ => settled s
  end.

Definition hibernatedReason : string := "Client.UserInitiatedHibernate".

Definition reserveStopped (id : HostID) (h : HostRow) (reason : string) (requestActive : bool) (s : act_state) : outcome :=
  let evidence := if reason == hibernatedReason then EvidenceSaved else EvidenceFailed in
  if requestActive then settled (write (RecordInstanceStopped id (token_of h) evidence now) s)
  else match transition PhaseStopping PhaseStopped with
  | Ret _ => settled (write (MarkReserveStopped id (token_of h) evidence now) s)
  | _ => settled s
  end.

(** Whether a host's stop hibernates it. *)
Definition hibernates_on_stop (h : HostRow) (i : Instance) : bool :=
  (hr_reserve_mode h == Some ReserveHibernate) && hr_hibernation_configured h && in_Hibernation i.

(** A plain stop of a running instance. *)
Definition stop_plainly (id : HostID) (h : HostRow) (s : act_state) : outcome :=
  let '(s, e) := call (CallStop id StopPlain) s in
  match e with
  | Some e => stopRefused id h e s
  | None => recordStop id h EvidenceUnavailable false (s <| ac_Stopped := ac_Stopped s + 1 |>)
  end.

(** A hibernating stop; a refusal retries until the deadline, then stops
    plainly. *)
Definition stop_hibernating (id : HostID) (h : HostRow) (i : Instance) (s : act_state) : outcome :=
  if match in_LaunchTime i with Some l => time_sub clock l <? hibernateAfterStart | None => false end then settled s
  else
    let '(s, e) := call (CallStop id StopHibernate) s in
    match e with
    | None => recordStop id h EvidenceUnknown false (s <| ac_Stopped := ac_Stopped s + 1 |>)
    | Some e =>
        let refusedSince := default clock (hr_hibernate_refused_at h) in
        if (awsCode e != "UnsupportedHibernationConfiguration") && (time_sub clock refusedSince <? providerDeadline)
        then settled (write (RecordHibernateRefused id (token_of h) now) s)
        else stop_plainly id h s
    end.

(** [stopReserve]. *)
Definition stopReserve (id : HostID) (h : HostRow) (i : Instance) (requestActive : bool) (s : act_state) : outcome :=
  let hibernate := hibernates_on_stop h i in
  let lostEvidence := if hibernate then EvidenceUnknown else EvidenceUnavailable in
  if in_Spot i && negb (is_set (hr_spot_request_id h)) then
    retireReserve id h "A one-time Spot instance cannot stop into the reserve" None s
  else match in_State i with
  | InstanceStopped =>
      let s := if is_set (hr_stop_requested_at h) then s else (recordStop id h lostEvidence false s).1 in
      reserveStopped id h (in_Reason i) requestActive s
  | InstanceStopping =>
      match hr_stop_requested_at h with
      | None => recordStop id h lostEvidence false s
      | Some first =>
          let requested := default first (hr_force_stop_at h) in
          if time_sub clock requested <=? providerDeadline then settled s
          else
            let '(s, e) := call (CallStop id StopForced) s in
            match e with
            | Some e => stopRefused id h e s
            | None => recordStop id h EvidenceUnavailable true (s <| ac_Stopped := ac_Stopped s + 1 |>)
            end
      end
  | InstancePending | InstanceShuttingDown | InstanceTerminated => settled s
  | InstanceRunning =>
      if match hr_stop_requested_at h with Some first => time_sub clock first <? stopSettle | None => false end then settled s
      else if hibernate then stop_hibernating id h i s
      else stop_plainly id h s
  end.

(** [startReserve]. *)
Definition startReserve (id : HostID) (h : HostRow) (i : Instance) (requestActive : bool) (s : act_state) : outcome :=
  match in_State i with
  | InstancePending | InstanceRunning => recordStart id h s
  | InstanceStopping | InstanceShuttingDown | InstanceTerminated => settled s
  | InstanceStopped =>
      if requestActive then settled s
      else
        let '(s, e) := call (CallStart id) s in
        match e with
        | None => recordStart id h (s <| ac_Started := ac_Started s + 1 |>)
        | Some e => if capacityRefusal (awsCode e) then refuseStart id h e s else (s, Some e)
        end
  end.

(** [terminateHost]; [CallTerminate] stands for [terminate]. *)
Definition ending (i : Instance) : bool := (in_State i == InstanceTerminated) || (in_State i == InstanceShuttingDown).

Definition terminateHost (id : HostID) (h : HostRow) (i : option Instance) (s : act_state) : outcome :=
  let record s := settled (write (RecordTerminateRequested id (token_of h) now) s) in
  match i with
  | Some i =>
      if ending i then record s
      else
        let '(s, e) := call (CallTerminate id) s in
        match e with
        | Some e => (s, Some e)
        | None => record (s <| ac_Terminated := ac_Terminated s + 1 |>)
        end
  | None => record s
  end.

(** One claimed host of [actuateRegion]: [i] is its instance, if EC2 lists
    it, and [requestActive] whether EC2 holds its Spot request active. *)
Definition actuate_host (s : act_state) (claim : HostID * HostRow * option Instance * bool) : act_state :=
  let '(id, h, i, requestActive) := claim in
  (match hr_phase h, i with
   | PhaseStopping, Some i => stopReserve id h i requestActive s
   | PhaseResuming, Some i => startReserve id h i requestActive s
   | PhaseTerminating, _ => terminateHost id h i s
   | _, _ => settled s
   end).1.

End Actuator.

(** [activeSpotRequests] asks only about the persistent requests of stopped
    instances of hosts that are not terminating; [held_active] is EC2's
    answer. *)
Definition request_active (held_active : string -> bool) (h : HostRow) (i : option Instance) : bool :=
  match i, hr_spot_request_id h with
  | Some i, Some r => (hr_phase h != PhaseTerminating) && (in_State i == InstanceStopped) && held_active r
  | _, _ => false
  end.

(** [Actuate]: the claims, the calls of each claimed host and the release.
    [describe] is what EC2 lists of an instance id; a host of a region EC2
    does not answer for is skipped, which [reached] says; [arrange] is the
    order Go ranges over the accounts and regions in. *)
Definition Actuate (answer : ec2_call -> option aws_error) (owner : HostRow -> string) (cooldown : Z)
    (locked : HostID -> bool) (token : HostID -> uuid) (describe : string -> option Instance) (held_active : string -> bool)
    (reached : HostRow -> bool) (arrange : list (HostID * HostRow) -> list (HostID * HostRow)) (clock now : Z) (cs : containers) (s : act_state) : act_state :=
  let '(t, claimed) := ClaimHostActions [PhaseStopping; PhaseResuming; PhaseTerminating; PhaseDraining] actionLease stopSettle
    ReclaimGrace providerCallsPerPass locked token now cs (ac_hosts s) in
  let s := s <| ac_hosts := t |> in
  let views := map (fun '(id, h) =>
    let i := hr_instance_id h ≫= describe in (id, h, i, request_active held_active h i)) (arrange (List.filter (fun c => reached c.2) claimed)) in
  let s := fold_left (actuate_host answer owner cooldown clock now) views s in
  s <| ac_hosts := ReleaseHostActions (map (fun c => (c.1, token_of c.2)) claimed) actuatorRecheck now (ac_hosts s) |>.
