(* ===== verification/Machines.v ===== *)
(** Joining the fleet (internal/compute/machines.go, enrollment.go,
    identity.go): join tokens, the machines accounts bring, and the instances
    the fleet launched.  Token digests are the keys of the token table; a
    fresh row's id is [uuidv7()], an argument.  What STS answers about an
    instance's proof is an argument too. *)

From S2P Require Import Prelude Capacity Catalog GoLib Billing Policy Placement Offers Cover Fleet Hosts HostSql Cooldowns Sessions.

(** The tables: hosts, join tokens, and [host_workspaces]. *)
Record join_db := mkJoin { jd_hosts : hosts; jd_tokens : tokens; jd_serves : gset (HostID * uuid) }.

Definition DefaultJoinTTL : Z := 30 * minute.

Section Join.
(** The names of workspaces, and [id::text]. *)
Context (workspace_name : uuid -> string) (id_text : HostID -> string).

(** [MachineNameConflict]: the first workspace, by name, of [workspaces] that
    another account's machine of this name serves. *)
Definition conflicts (name : string) (account : uuid) (workspaces : list uuid) (d : join_db) : list string :=
  omap (fun '(id, w) =>
    match jd_hosts d !! id with
    | Some h =>
        if (hr_kind h == KindMachine) && (hr_name h == name) && (hr_phase h != PhaseDeleted) &&
           (hr_account h != Some account) && bool_decide (w ∈ workspaces)
        then Some (workspace_name w) else None
    | None => None
    end) (elements (jd_serves d)).

Definition MachineNameConflict (name : string) (account : uuid) (workspaces : list uuid) (d : join_db) : option string :=
  head (sort_by String.compare (conflicts name account workspaces d)).

(** [ReplaceMachineWorkspaces]. *)
Definition ReplaceMachineWorkspaces (id : HostID) (workspaces : list uuid) (s : gset (HostID * uuid)) : gset (HostID * uuid) :=
  list_to_set (map (fun w => (id, w)) workspaces) ∪ filter (fun p => p.1 <> id) s.

(** The machine a join is for: a new one, or one that never joined or failed
    its checks. *)
Definition join_host (account : uuid) (name gpu : string) (fresh : HostID) (now : Z) (t : hosts) : go host_error (hosts * HostID) :=
  match LockMachineByName account name t with
  | None =>
      match InsertMachine fresh name account gpu now t with
      | Some t' => Ret (t', fresh)
      | None => Err (ErrAlreadyJoined name)
      end
  | Some (id, h) =>
      if (hr_phase h != PhaseRequested) && (hr_phase h != PhaseFailed) then Err (ErrAlreadyJoined name)
      else Ret ((ResetMachine id gpu now t).1, id)
  end.

Record MachineJoin := mkMJ {
  mj_Account : uuid;
  mj_Name : string;
  mj_Workspaces : list uuid;
  mj_GPUs : list string;
  mj_TTL : Z }.

(** [CreateMachineJoin]'s transaction: the machine and when its token
    expires. *)
Definition CreateMachineJoin (req : MachineJoin) (digest : string) (fresh : HostID) (now : Z) (d : join_db) :
    go host_error (join_db * (HostID * Z)) :=
  let ttl := if mj_TTL req =? 0 then DefaultJoinTTL else mj_TTL req in
  match MachineNameConflict (mj_Name req) (mj_Account req) (mj_Workspaces req) d with
  | Some ws => Err (ErrServedBy (mj_Name req) ws)
  | None =>
      j <-! join_host (mj_Account req) (mj_Name req) (default "" (head (mj_GPUs req))) fresh now (jd_hosts d);
      let '(t, host) := j in
      match InsertJoinToken digest ttl (Some host) now (RevokeMachineJoinTokens host now (jd_tokens d)) with
      | Some (ts, expires) => Ret (mkJoin t ts (ReplaceMachineWorkspaces host (mj_Workspaces req) (jd_serves d)), (host, expires))
      | None => Err ErrUniqueViolation
      end
  end.

(** [CreateJoinToken]: a token for a platform host. *)
Definition CreateJoinToken (digest : string) (ttl now : Z) (d : join_db) : go host_error (join_db * Z) :=
  match InsertJoinToken digest ttl None now (jd_tokens d) with
  | Some (ts, expires) => Ret (mkJoin (jd_hosts d) ts (jd_serves d), expires)
  | None => Err ErrUniqueViolation
  end.

(** What a report enrolls a machine as. *)
Definition enrolled_as (r : HostReport) : Phase * string * option Failure :=
  match failedChecks (rp_Preflight r) with
  | [] => (PhaseJoining, phase_Message PhaseJoining, None)
  | failed => (PhaseFailed, String.concat "; " failed, Some FailurePreflight)
  end.

(** [Enroll]: the host the token enrolls. *)
Definition Enroll (token digest : string) (r : HostReport) (fresh : HostID) (now : Z) (d : join_db) :
    go host_error (join_db * HostID) :=
  match UseJoinToken token now (jd_tokens d) with
  | None => Err ErrInvalidJoinToken
  | Some (ts, None) =>
      match InsertPlatformHost fresh digest r now (jd_hosts d) with
      | Some t => Ret (mkJoin t ts (jd_serves d), fresh)
      | None => Err ErrUniqueViolation
      end
  | Some (ts, Some host) =>
      let '(phase, message, failure) := enrolled_as r in
      let u := EnrollMachine host digest phase message failure r now (jd_hosts d) in
      if u.2 =? 1 then Ret (mkJoin u.1 ts (jd_serves d), host) else Err ErrInvalidJoinToken
  end.

(** [AuthenticateHost]. *)
Definition AuthenticateHost (digest : string) (t : hosts) : go host_error HostID :=
  match HostByToken digest t with Some id => Ret id | None => Err ErrUnknownHost end.

(** ** Removing a machine *)

Context `{!HostContainers}.

Definition RemoveMachine (account : uuid) (machine : string) (now : Z) (d : join_db) (cs : containers) :
    go host_error (join_db * containers) :=
  match LockAccountMachine id_text account machine (jd_hosts d) with
  | None => Err (ErrNotFound machine)
  | Some (id, h) =>
      if hr_phase h == PhaseDeleted then Ret (d, cs)
      else
        let message := if is_set (hr_token_hash h) then "Removed; the host's credential was revoked" else "Removed" in
        let d' := mkJoin (RetireMachine id message now (jd_hosts d)).1 (RevokeMachineJoinTokens id now (jd_tokens d)) (jd_serves d) in
        cs' <-! asked (StopHostContainers id "the machine was removed" cs);
        Ret (d', cs')
  end.

(** [UpdateMachineWorkspaces]; [pinned] is [PinnedDeployments], the names of
    the workspaces whose active workloads still name the machine. *)
Definition UpdateMachineWorkspaces (pinned : list uuid -> string -> list string) (account : uuid) (machine : string)
    (workspaces : list uuid) (d : join_db) (cs : containers) : go host_error (join_db * containers) :=
  match LockAccountMachine id_text account machine (jd_hosts d) with
  | None => Err (ErrNotFound machine)
  | Some (id, h) =>
      if hr_phase h == PhaseDeleted then Err (ErrNotFound machine)
      else match MachineNameConflict (hr_name h) account workspaces d with
      | Some ws => Err (ErrServedBy (hr_name h) ws)
      | None =>
          let current := map snd (List.filter (fun p => p.1 =? id) (elements (jd_serves d))) in
          let dropped := List.filter (fun w => negb (bool_decide (w ∈ workspaces))) current in
          let held := if bool_decide (dropped = []) then [] else pinned dropped (hr_name h) in
          match held with
          | _ :: _ => Err (ErrPinned (hr_name h) held)
          | [] =>
              let d' := mkJoin (jd_hosts d) (jd_tokens d) (ReplaceMachineWorkspaces id workspaces (jd_serves d)) in
              cs' <-! asked (DrainHostWorkspaces id dropped cs);
              Ret (d', cs')
          end
      end
  end.

End Join.

(** ** Enrolling a launched instance *)

(** Who STS says signed a proof: [callerIdentity], with the groups
    [assumedRoleArn] matches in its ARN. *)
Record callerIdentity := mkCaller {
  ci_Account : string;
  ci_UserID : string;
  ci_session : option (string * string * string) }.

(** [strings.HasSuffix(s, suffix)]. *)
Definition HasSuffix (s suffix : string) : bool :=
  (String.length suffix <=? String.length s)%nat &&
  (String.substring (String.length s - String.length suffix) (String.length suffix) s == suffix).

(** [EnrollCloud]: [row] is the host as [CloudHostIdentity] read it, [caller]
    what [verifyProof] answers, [account] the account the host runs in and
    [role] its role's name there. The table is the one its write finds. *)
Definition EnrollCloud (id : HostID) (row : option HostRow) (caller : go host_error callerIdentity) (account role digest : string) (r : HostReport)
    (now : Z) (t : hosts) : go host_error hosts * hosts :=
  let refuse e := (Err e, t) in
  match row with
  | None => refuse (ErrIdentity "the host is not a launched instance")
  | Some h =>
      match hr_instance_id h with
      | None => refuse (ErrIdentity "the host has no instance yet")
      | Some instance =>
          match caller with
          | Err e => refuse e
          | Panic => (Panic, t)
          | Spins => (Spins, t)
          | Ret who =>
              match ci_session who with
              | None => refuse (ErrIdentity "the proof is not from an instance role session")
              | Some (a, rl, i) =>
                  if (a != account) || (ci_Account who != account) || (rl != role) || (i != instance) ||
                     negb (HasSuffix (ci_UserID who) (String.append ":" instance))
                  then refuse (ErrIdentity "the proof does not match the host's instance and role")
                  else match failedChecks (rp_Preflight r) with
                  | _ :: _ as failed =>
                      match transition (hr_phase h) PhaseTerminating with
                      | Ret _ =>
                          (Err (ErrIdentity (String.append "the host failed its preflight checks: " (String.concat "; " failed))),
                           (EndHost id (hr_phase h) FailurePreflight (truncate (String.concat "; " failed)) now t).1)
                      | _ => refuse (ErrPhaseTransition (hr_phase h) PhaseTerminating)
                      end
                  | [] =>
                      let u := EnrollCloudHost id (Some instance) digest r now t in
                      if u.2 =? 1 then (Ret u.1, u.1)
                      else refuse (ErrIdentity "the host already enrolled or stopped waiting for its instance")
                  end
              end
          end
      end
  end.
