(* ===== verification/Reconcile.v ===== *)
(** Reconciling hosts with EC2 (internal/compute/reconcile.go, and
    [endSpotRequest] of fleet_actuator.go): the end of a host whose instance is
    gone or must end, and of instances and Spot requests no live host records.

    A host is judged by the row read before EC2 was asked; every write is
    guarded by the phase that row had.  [clock] is Go's clock, [now] the
    database's. *)

From S2P Require Import Prelude Capacity Catalog GoLib Billing Policy Placement Offers Cover Fleet Hosts HostSql Cooldowns Sessions Actuator.

Definition serviceLostAfter : Z := 5 * minute.
Definition launchGrace : Z := 2 * minute.
Definition stopStuck : Z := 3 * providerDeadline.

(** [observedInstance]: the state EC2 reports, the host its tag names and
    when EC2 last started it. *)
Record observedInstance := mkObserved { ob_state : InstanceState; ob_host : option HostID; ob_started : Z }.

(** [FleetHostsInRegion]. *)
Definition FleetHostsInRegion (region : string) (connection : option uuid) (t : hosts) : list (HostID * HostRow) :=
  sort_by (fun a b => Z.compare a.1 b.1) (List.filter (fun r =>
    (hr_provider r.2 == ProviderAWS) && (hr_region r.2 == region) && (hr_connection r.2 == connection) &&
    (hr_phase r.2 != PhaseDeleted) && (hr_phase r.2 != PhaseFailed) && (hr_phase r.2 != PhaseRequested)) (map_to_list t)).

(** ** Judging one host *)

Inductive verdict :=
  | Leave
  | Gone (failure : option Failure) (message : string)
  | End_ (failure : Failure) (message : string)
  | Boot.

Section Judge.
Context (BootTimeout clock : Z).

(** [time.Since]. *)
Definition since (t : Z) : Z := time_sub clock t.

Definition o_gone (o : option observedInstance) : bool :=
  match o with
  | None => true
  | Some o => (ob_state o == InstanceTerminated) || (ob_state o == InstanceShuttingDown)
  end.

Definition o_stopped (o : option observedInstance) : bool :=
  match o with
  | None => false
  | Some o => (ob_state o == InstanceStopped) || (ob_state o == InstanceStopping)
  end.

(** When EC2 last started it; the zero time for one EC2 does not list. *)
Definition o_started (o : option observedInstance) : Z := match o with Some o => ob_started o | None => 0 end.

Definition in_state (o : option observedInstance) (st : InstanceState) : bool :=
  match o with Some o => ob_state o == st | None => false end.

Definition not_listed_yet (h : HostRow) (o : option observedInstance) : bool :=
  negb (is_set o) && (hr_phase h != PhaseTerminating) &&
  match hr_launched_at h with Some l => since l <? launchGrace | None => false end.

(** The judgement of a host in a reserve phase whose instance is there. *)
Definition judge_reserve (h : HostRow) (o : option observedInstance) : verdict :=
  let stopped := o_stopped o in
  match hr_phase h with
  | PhaseStopping =>
      if in_state o InstanceStopped then Leave
      else if stopped then
        match hr_stop_requested_at h with
        | Some r => if since r >? stopStuck then End_ FailureUnknown "The reserve did not stop in time" else Leave
        | None => Leave
        end
      else if since (hr_phase_at h) >? BootTimeout + providerDeadline then End_ FailureUnknown "The reserve did not stop in time"
      else Leave
  | PhaseResuming =>
      if is_set o && negb stopped then
        if since (o_started o) >? BootTimeout then End_ FailureBootstrapTimedOut "The reserve did not resume in time" else Leave
      else if since (hr_phase_at h) >? BootTimeout + providerDeadline
      then End_ FailureBootstrapTimedOut "The reserve did not resume in time"
      else Leave
  | PhaseStopped =>
      if negb stopped && (since (o_started o) >? BootTimeout) then End_ FailureUnknown "The reserve started without a resume"
      else Leave
  | _ => Leave
  end.

(** The judgement of any other host whose instance is there. *)
Definition judge_serving (h : HostRow) (o : option observedInstance) : verdict :=
  let updating := match hr_updating_until h with Some u => clock <? u | None => false end in
  if o_stopped o then End_ FailureProviderStopped "The provider stopped the instance"
  else if ((hr_phase h == PhaseProvisioning) || (hr_phase h == PhaseBooting)) &&
          match hr_launched_at h with Some l => since l >? BootTimeout | None => false end
  then End_ FailureBootstrapTimedOut "The instance did not enroll in time"
  else if (hr_phase h == PhaseJoining) && (since (hr_phase_at h) >? BootTimeout)
  then End_ FailureEnrollment "The agent enrolled but never opened a session"
  else if (hr_phase h == PhaseProvisioning) && in_state o InstanceRunning then Boot
  else if (hr_phase h == PhaseReady) && (hr_state h == HostLost) && negb updating &&
          match hr_last_seen_at h with Some l => since l >? serviceLostAfter | None => false end
  then End_ FailureServiceLost "The agent stopped reporting"
  else Leave.

(** The switch of [reconcileRegion]. *)
Definition judge (h : HostRow) (o : option observedInstance) : verdict :=
  if not_listed_yet h o then Leave
  else if hr_phase h == PhaseTerminating then
    if o_gone o then Gone (hr_failure h) (hr_phase_message h) else Leave
  else if o_gone o then
    if is_set (hr_interruption_at h) then Gone None "" else Gone (Some FailureProviderGone) "The provider terminated the instance"
  else if (hr_phase h == PhaseStopping) || (hr_phase h == PhaseStopped) || (hr_phase h == PhaseResuming) then judge_reserve h o
  else judge_serving h o.

End Judge.

(** ** Writing the judgement *)

Section Writes.
Context `{!HostContainers}.

Definition tables : Type := hosts * containers.

(** A guarded write that stops the host's containers when it took the row. *)
Definition end_with (id : HostID) (f : hosts -> hosts * Z) (why : string) (d : tables) : go host_error tables :=
  let r := f d.1 in
  if r.2 =? 0 then Ret d else cs <-! asked (StopHostContainers id why d.2); Ret (r.1, cs).

Definition endHost (id : HostID) (from : Phase) (failure : Failure) (message : string) (now : Z) (d : tables) : go host_error tables :=
  _ <-! transition from PhaseTerminating;
  end_with id (EndHost id from failure message now) "the host's instance is ending" d.

Definition hostGone (id : HostID) (from : Phase) (failure : option Failure) (message : string) (now : Z) (d : tables) :
    go host_error tables :=
  match failure with
  | None =>
      _ <-! transition from PhaseDeleted;
      end_with id (MarkHostDeleted id from now) "the host's instance is gone" d
  | Some f =>
      _ <-! transition from PhaseFailed;
      end_with id (FailHost id from f message now) "the host's instance is gone" d
  end.

(** One host of [reconcileRegion]; an error is logged. *)
Definition reconcile_host (BootTimeout clock now : Z) (o : option observedInstance) (id : HostID) (h : HostRow) (d : tables) :
    go host_error tables :=
  if negb (is_set (hr_instance_id h)) then Ret d
  else match judge BootTimeout clock h o with
  | Leave => Ret d
  | Gone failure message => hostGone id (hr_phase h) failure message now d
  | End_ failure message => endHost id (hr_phase h) failure message now d
  | Boot => r <-! changePhase id PhaseProvisioning PhaseBooting now d.1; Ret (r.1, d.2)
  end.

End Writes.

(** ** Orphans *)

(** [LiveHosts] of one tag: what a live host records. *)
Definition LiveHost (t : hosts) (id : HostID) : option HostRow :=
  h ← t !! id; if (hr_phase h != PhaseDeleted) && (hr_phase h != PhaseFailed) then Some h else None.

(** A live host keeps what it records, or anything while it records none. *)
Definition keeps (recorded : option string) (thing : string) : bool :=
  match recorded with None => true | Some r => r == thing end.

(** Whether [reconcileRegion] terminates an observed instance: [wanted] are
    the instances of the hosts read first, [t] the table read after EC2
    listed. *)
Definition orphan (wanted : list string) (t : hosts) (instance : string) (o : observedInstance) : bool :=
  negb (bool_decide (instance ∈ wanted)) && negb (o_gone (Some o)) &&
  negb match ob_host o ≫= LiveHost t with Some h => keeps (hr_instance_id h) instance | None => false end.

(** The instances [reconcileRegion] ends. *)
Definition orphans (region_hosts : list (HostID * HostRow)) (observed : list (string * observedInstance)) (t : hosts) : list string :=
  let wanted := omap (fun r => hr_instance_id r.2) region_hosts in
  map fst (List.filter (fun io => orphan wanted t io.1 io.2) observed).

(** [cancelOrphanSpotRequests]: the requests it ends, of those EC2 can still
    launch from, each with the host its tag names. *)
Definition orphan_requests (requests : list (string * option HostID)) (t : hosts) : list string :=
  map fst (List.filter (fun r =>
    negb match r.2 ≫= LiveHost t with Some h => keeps (hr_spot_request_id h) r.1 | None => false end) requests).

(** ** Ending a persistent Spot request *)

Inductive SpotState := SpotOpen | SpotActive | SpotDisabled | SpotCancelled | SpotClosed | SpotFailed.

Definition can_launch (s : SpotState) : bool :=
  match s with SpotOpen | SpotActive | SpotDisabled => true | SpotCancelled | SpotClosed | SpotFailed => false end.

Inductive spot_call := CallCancel (request : string) | CallEnd (instances : list string).

(** An instance of a request: its id, the request EC2 names and its state. *)
Definition spot_instance : Type := string * string * option InstanceState.

Definition live_state (s : option InstanceState) : bool :=
  match s with Some InstanceTerminated | Some InstanceShuttingDown | None => false | Some _ => true end.

Section Spot.
(** EC2's answers: the request described, the cancel, the instances listed
    and the terminate. *)
Context (described : aws_error + list (string * SpotState)) (cancel : option aws_error)
  (listed : aws_error + list spot_instance) (terminated : option aws_error).

Definition request_missing : string := "InvalidSpotInstanceRequestID.NotFound".

(** The request's end: the calls made and whether it cannot launch any more. *)
Definition end_request (request : string) : list spot_call * bool :=
  match described with
  | inl e => ([], awsCode e == request_missing)
  | inr [(r, st)] =>
      if r != request then ([], false)
      else if can_launch st then
        ([CallCancel request], match cancel with None => true | Some e => awsCode e == request_missing end)
      else ([], true)
  | inr _ => ([], false)
  end.

(** The end of what it launched; [None] when EC2 answers about another
    request or not at all. *)
Definition end_instances (request : string) : list spot_call * bool :=
  match listed with
  | inl _ => ([], false)
  | inr l =>
      if existsb (fun i => i.1.2 != request) l then ([], false)
      else match map (fun i => i.1.1) (List.filter (fun i => live_state i.2) l) with
      | [] => ([], true)
      | live => ([CallEnd live], match terminated with None => true | Some e => awsCode e == "InvalidInstanceID.NotFound" end)
      end
  end.

(** [endSpotRequest]: the calls in order, and whether it returned no error. *)
Definition endSpotRequest (request : string) : list spot_call * bool :=
  let '(calls, ended) := end_request request in
  if ended then let '(more, ok) := end_instances request in (calls ++ more, ok) else (calls, false).

(** [terminate]: [request] is the persistent request that launched the
    instance, if any. *)
Definition terminate (request : option string) (instance : string) : list spot_call * bool :=
  match request with
  | Some r => endSpotRequest r
  | None =>
      ([CallEnd [instance]], match terminated with None => true | Some e => awsCode e == "InvalidInstanceID.NotFound" end)
  end.

End Spot.
