(* ===== verification/Launcher.v ===== *)
(** The launcher (internal/compute/launcher.go, the accounts of accounts.go
    and [subnetFor] of offers.go): launching a requested host, and walking to
    the next pool when EC2 refuses the last.

    The account a host runs in, the node images, whether a release is
    published, the offer inputs a walk reads and EC2's answers are arguments;
    the waits of other containers are read once per refusal through
    [waiters]. *)

From S2P Require Import Prelude Capacity Catalog GoLib Billing Policy Placement Offers Cover Fleet Hosts HostSql Cooldowns Sessions Actuator.

(** ** Accounts *)

Record account := mkAccount {
  at_connection : option uuid;
  at_authorization : option uuid;
  at_awsAccount : string;
  at_networks : gmap string Network;
  at_nodeRole : string;
  at_instanceProfile : string;
  at_pays : bool;
  at_hosting : bool;
  at_managed : bool;
  at_inUse : bool }.

(** [account.kind] and [owns]. *)
Definition account_kind (a : account) : HostKind := match at_connection a with None => KindPlatform | Some _ => KindConnection end.
Definition owns (a : account) (connection : option uuid) : bool := sameOwner (at_connection a) connection.

Section Owner.
Context (uuid_text : uuid -> string).

(** [hostOwner] and [account.key]. *)
Definition ownerPlatform : string := "platform".
Definition hostOwner (connection : option uuid) : string := match connection with None => ownerPlatform | Some c => uuid_text c end.
Definition account_key (a : account) : string := hostOwner (at_connection a).
End Owner.

(** ** What a launch asks for *)

Record launchOptions := mkOptions {
  lo_rootGiB : Z;
  lo_rootMiBps : Z;
  lo_dataGiB : Z;
  lo_hibernate : bool;
  lo_persistent : bool }.

(** [launchOptionsFor]. *)
Definition launchOptionsFor (h : HostRow) : launchOptions :=
  let t := default type0 (CatalogTypeNamed (hr_instance_type h)) in
  let persistent := (hr_market h == Some MarketSpot) && (is_set (hr_reserve_mode h) || (hr_gpu_count h >? 0)) in
  match hr_reserve_mode h with
  | None => mkOptions rootVolumeGiB (RootMiBps t) (DataVolumeGiB t) false persistent
  | Some mode =>
      let hibernate := (mode == ReserveHibernate) && t_Hibernates t in
      mkOptions (RootGiB t hibernate) (RootMiBps t) (DataVolumeGiB t) hibernate persistent
  end.

(** [strings.EqualFold] on the ASCII names of zones. *)
Definition EqualFold (a b : string) : bool :=
  map lower_char (String.list_ascii_of_string a) == map lower_char (String.list_ascii_of_string b).

(** [subnetFor]; [host[15]] is the last byte of the id. *)
Definition subnetFor (n : Network) (zone : string) (host : HostID) : option Subnet :=
  let candidates := List.filter (fun s => (zone == "") || EqualFold (sn_Zone s) zone) (Subnets n) in
  match candidates with
  | [] => None
  | _ => candidates !! Z.to_nat ((host mod 256) mod Z.of_nat (length candidates))
  end.

(** ** The pools a walk may move to *)

Record HostWaitersRow := mkWaiter {
  hw_Region : string;
  hw_Zone : string;
  hw_Preemptible : bool;
  hw_Disks : Z;
  hw_Read : option VolumeRead }.

(** [cmp.Or] on strings and pointers. *)
Definition str_or (a b : string) : string := if a == "" then b else a.
Definition opt_or {A} (a b : option A) : option A := match a with Some _ => a | None => b end.

(** What the host was bought for, from its row. *)
Definition bought_need (h : HostRow) (market : Market) (i : OfferInputs) : Requirement :=
  let '(cpu, memory) :=
    match hr_holds_cpu h, hr_holds_memory h with Some c, Some m => (c, m) | _, _ => (hr_cpu h, hr_memory h) end in
  mkReq 0 None "" "" "" (market == MarketSpot) (if hr_gpu_type h != "" then [hr_gpu_type h] else []) (hr_gpu_count h) cpu memory
    (default 0 (hr_holds_disks h)) None
    (if is_set (hr_reserve_mode h) then marketRead i (reserveMarketOf market (hr_gpu_type h)) else None) false.

(** One container waiting for it adds its placement and disks. *)
Definition add_waiter (need : Requirement) (w : HostWaitersRow) : Requirement :=
  mkReq (r_Workspace need) (r_Connection need) (r_Machine need) (str_or (r_Region need) (hw_Region w))
    (str_or (r_Zone need) (hw_Zone w)) (r_Preemptible need || hw_Preemptible w) (r_GPUs need) (r_GPUCount need)
    (r_CPUMillis need) (r_MemoryBytes need) (r_Disks need + hw_Disks w) (r_Prefer need) (opt_or (r_Read need) (hw_Read w))
    (r_Packs need).

Definition walk_need (h : HostRow) (market : Market) (waiters : list HostWaitersRow) (i : OfferInputs) : Requirement :=
  fold_left add_waiter waiters (bought_need h market i).

(** The smallest offer that could host it, cooling or not, in vCPUs. *)
Definition walk_kind (h : HostRow) (market : Market) (o : FleetOffer) : bool :=
  (o_Market o == market) && (t_GPU (o_Type o) == hr_gpu_type h) &&
  Bool.eqb (Hibernate o) (hr_reserve_mode h == Some ReserveHibernate).

Definition smallest (h : HostRow) (market : Market) (offers : list FleetOffer) : Z :=
  fold_left (fun size o =>
    if walk_kind h market o && ((size =? 0) || (VCPUs (o_Type o) <? size)) then VCPUs (o_Type o) else size) offers 0.

Definition pinned_elsewhere (o : FleetOffer) (w : HostWaitersRow) : bool :=
  ((hw_Region w != "") && (ProductRegion (o_Region o) != hw_Region w)) ||
  ((hw_Zone w != "") && (o_Zone o != hw_Zone w) && (o_ZoneID o != hw_Zone w)).

Section Walk.
Context (p : Policy) (imaged : string -> bool -> bool).

(** [walkable] of [walkPools]. *)
Definition walkable (h : HostRow) (market : Market) (waiters : list HostWaitersRow) (need : Requirement) (size : Z)
    (i : OfferInputs) : list FleetOffer :=
  let reserve := is_set (hr_reserve_mode h) in
  delete_func (fun o =>
    negb (walk_kind h market o) || negb (imaged (o_Region o) (t_GPUCount (o_Type o) >? 0)) ||
    (reserve && (VCPUs (o_Type o) >? size)) || existsb (pinned_elsewhere o) waiters) (RankOffers p need reserve i).

Definition walkPools (h : HostRow) (market : Market) (waiters : list HostWaitersRow) (i : OfferInputs) : list FleetOffer :=
  let reserve := is_set (hr_reserve_mode h) in
  let need := walk_need h market waiters i in
  let size := smallest h market (RankOffers p need reserve (with_Cooldowns i [])) in
  let i := with_WaiveMargin i (hr_margin_waived h) in
  let offers := walkable h market waiters need size i in
  let refs := sizeRefs p need reserve i in
  let soon := match refs with [] => offers | _ => walkable h market waiters need size (availableSoon p i) end in
  delete_func (fun o => negb (sized p o (reservedShape need) (r_Disks need) refs soon)) offers.

(** [slices.MinFunc]: the first of the least. *)
Definition min_by (cost : FleetOffer -> Z) (o : FleetOffer) (rest : list FleetOffer) : FleetOffer :=
  fold_left (fun best x => if cost x <? cost best then x else best) rest o.

Definition fallbackPool (h : HostRow) (market : Market) (waiters : list HostWaitersRow) (i : OfferInputs) : option FleetOffer :=
  match walkPools h market waiters i with
  | [] => None
  | o :: rest => Some (min_by (if is_set (hr_reserve_mode h) then reserveCost p else servingCost p) o rest)
  end.

(** [nextPool]: the pool to try after a refusal, and the offer inputs with
    the walk's own refusal and its vCPUs given back. *)
Definition nextPool (owner : string) (h : HostRow) (waiters : list HostWaitersRow) (cool : poolCooldown) (cooldown now : Z)
    (pools : cooldowns_table) (i : OfferInputs) : OfferInputs * option FleetOffer :=
  match hr_market h with
  | None => (i, None)
  | Some market =>
      let cooldowns := offerCooldowns (PlannerCooldowns now pools) owner ++
        [mkCooldown (hr_region h) (pc_zoneID cool) (hr_instance_type h) market (oi_Now i + cooldown) (pc_quota cool)] in
      let i := with_Cooldowns i cooldowns in
      let i := match CatalogTypeNamed (hr_instance_type h) with
               | Some t =>
                   let key := mkQK (hr_region h) (fst (QuotaClassOf (t_Name t))) market in
                   with_QuotaUsed i (<[key := default 0 (QuotaUsed i !! key) - VCPUs t]> (QuotaUsed i))
               | None => i
               end in
      (i, fallbackPool h market waiters i)
  end.

End Walk.

(** ** Launching *)

Definition maxLaunchAttempts : Z := 5.
Definition passPools : nat := 8.

(** What [RunInstances] answers for an instance: its id, its zone, its image
    and the Spot request that launched it. *)
Record launched := mkLaunched { ln_InstanceID : string; ln_Zone : string; ln_Image : option string; ln_SpotRequest : string }.

(** A pool's refusal, and the zone the launch tried. *)
Record poolRefusal := mkRefusal { pr_err : aws_error; pr_zoneID : string }.

Definition refusal_failure (r : poolRefusal) : Failure :=
  if quotaRefusal (awsCode (pr_err r)) then FailureUnknown else FailureNoCapacity.
Definition refusal_cooldown (r : poolRefusal) : poolCooldown :=
  if quotaRefusal (awsCode (pr_err r)) then mkPoolCool "" true else mkPoolCool (pr_zoneID r) false.
Definition refusal_message (r : poolRefusal) : string := describeAWSError (pr_err r).

(** [persistentRequest]. *)
Definition persistentRequest (opts : launchOptions) (i : launched) : option string :=
  if negb (lo_persistent opts) || (ln_SpotRequest i == "") then None else Some (ln_SpotRequest i).

Record launch_state := mkLS {
  ls_hosts : hosts;
  ls_cool : cool_db;
  ls_runs : list (HostID * string * string * string) }.
#[export] Instance eta_launch_state : Eta launch_state := fun r => mkLS (ls_hosts r) (ls_cool r) (ls_runs r).

Section Launch.
Context (uuid_text : uuid -> string) (p : Policy) (cooldown : Z).
(** The account of a host or why it takes none, the published release, node
    images, the share of an image and [RunInstances]. *)
Context (account_of : HostRow -> string + account) (published : bool) (nodeImage : string -> bool -> option string)
  (share : HostRow -> option aws_error) (run : HostRow -> Subnet -> aws_error + launched).
(** The waits of containers on the host, and the offer inputs of its account
    now. *)
Context (waiters : HostID -> list HostWaitersRow) (poolInputs : HostRow -> option OfferInputs).
Context (now : Z).

Definition owner_of (h : HostRow) : string := hostOwner uuid_text (hr_connection h).

(** [launchTarget]. *)
Definition launchTarget (h : HostRow) : string + account * Network :=
  match account_of h with
  | inl e => inl e
  | inr a =>
      if negb (at_hosting a) then inl "the account takes no new hosts"
      else match at_networks a !! hr_region h with
      | None => inl (String.append "the account has no network in " (hr_region h))
      | Some n =>
          if (at_nodeRole a == "") || (at_instanceProfile a == "") then inl "the account names no node role" else inr (a, n)
      end
  end.

(** [failLaunch]. *)
Definition failLaunch (id : HostID) (h : HostRow) (failure : Failure) (message : string) (cool : option poolCooldown)
    (s : launch_state) : launch_state :=
  let s := match cool with
           | Some c => s <| ls_cool := coolPool (owner_of h) id h message c cooldown now (ls_cool s) |>
           | None => s
           end in
  let t := (FailLaunch id (token_of h) failure (truncate (String.append "Launch failed: " message)) now (ls_hosts s)).1 in
  s <| ls_hosts := match hr_replaces h, cool with
                   | Some r, Some _ => (RefuseRightsize r now t).1
                   | _, _ => t
                   end |>.

(** [movePool]: whether the claim still held the host. *)
Definition movePool (id : HostID) (h : HostRow) (next : FleetOffer) (message : string) (cool : poolCooldown) (lease : Z)
    (s : launch_state) : launch_state * bool :=
  let s := s <| ls_cool := coolPool (owner_of h) id h message cool cooldown now (ls_cool s) |> in
  let r := MoveLaunchPool id (token_of h) next lease now (ls_hosts s) in
  (s <| ls_hosts := r.1 |>, r.2 =? 1).

(** [strings.HasPrefix]. *)
Definition HasPrefix (s prefix : string) : bool := String.prefix prefix s.

Definition accessDenied (e : aws_error) : bool :=
  let code := awsCode e in
  (code == "AccessDenied") || (code == "AccessDeniedException") || (code == "UnauthorizedOperation") ||
  ((12 <=? String.length code)%nat && (String.substring (String.length code - 12) 12 code == "AccessDenied")).

(** The outcome of one launch: whether it started, or the pool's refusal. *)
Definition launch_outcome : Type := launch_state * (bool + poolRefusal).
Definition no_start (s : launch_state) : launch_outcome := (s, inl false).

(** What [RunInstances] answered, written. *)
Definition record_launch (id : HostID) (h : HostRow) (a : account) (subnet : Subnet) (i : launched) (s : launch_state) : launch_outcome :=
  let opts := launchOptionsFor h in
  let zoneID := if ln_Zone i != sn_Zone subnet then "" else sn_ZoneID subnet in
  let r := RecordLaunch id (token_of h)
    (mkLaunch (ln_InstanceID i) (ln_Zone i) zoneID (at_authorization a)
       (if at_nodeRole a == "" then None else Some (at_nodeRole a)) (persistentRequest opts i) (ln_Image i) (lo_hibernate opts))
    now (ls_hosts s) in
  if r.2 =? 0 then no_start (s <| ls_hosts := r.1 |>)
  else
    let pools := match hr_market h with
                 | Some m => ClearCooldown (owner_of h) (hr_region h) (sn_ZoneID subnet) (hr_instance_type h) m (cl_pools (ls_cool s))
                 | None => cl_pools (ls_cool s)
                 end in
    (s <| ls_hosts := r.1 |> <| ls_cool := mkCoolDB pools (cl_quotas (ls_cool s)) |>, inl true).

(** [launchHost]. *)
Definition launchHost (id : HostID) (h : HostRow) (s : launch_state) : launch_outcome :=
  let fails message := no_start (failLaunch id h FailureUnknown message None s) in
  match launchTarget h with
  | inl e => fails e
  | inr (a, network) =>
      if negb published then fails "no agent release is published"
      else match subnetFor network (hr_zone h) id with
      | None => fails (String.append "no subnet in " (String.append (hr_region h) (String.append " " (hr_zone h))))
      | Some subnet =>
          match nodeImage (hr_region h) (hr_gpu_count h >? 0) with
          | None => fails (String.append "no node image for " (hr_region h))
          | Some _ =>
              match share h with
              | Some e =>
                  if accessDenied e || HasPrefix (awsCode e) "InvalidAMI"
                  then fails (String.append "share node image: " (describeAWSError e)) else no_start s
              | None =>
                  let s := s <| ls_runs := ls_runs s ++ [(id, hr_region h, sn_ZoneID subnet, hr_instance_type h)] |> in
                  match run h subnet with
                  | inr i => record_launch id h a subnet i s
                  | inl e =>
                      let code := awsCode e in
                      if capacityRefusal code then (s, inr (mkRefusal e (sn_ZoneID subnet)))
                      else if HasPrefix code "InvalidParameter" || (code == "UnauthorizedOperation")
                      then no_start (failLaunch id h FailureUnknown (describeAWSError e) (Some (mkPoolCool "" false)) s)
                      else if hr_launch_attempts h >=? maxLaunchAttempts
                      then no_start (failLaunch id h FailureUnknown (describeAWSError e) None s)
                      else no_start s
                  end
              end
          end
      end
  end.

(** The claim's copy of the row in the next pool. *)
Definition moved_row (h : HostRow) (next : FleetOffer) : HostRow :=
  h <| hr_region := o_Region next |> <| hr_zone := o_Zone next |> <| hr_instance_type := t_Name (o_Type next) |>
    <| hr_launch_pools := hr_launch_pools h + 1 |>.

Definition count_quota (next : FleetOffer) (i : OfferInputs) : OfferInputs :=
  with_QuotaUsed i (<[o_Quota next := default 0 (QuotaUsed i !! o_Quota next) + VCPUs (o_Type next)]> (QuotaUsed i)).

(** [launchPools]: [left] pools may still be tried this pass, and [i] are the
    inputs the walk read at its first refusal. *)
Fixpoint launchPools (left : nat) (id : HostID) (h : HostRow) (i : option OfferInputs) (s : launch_state) : launch_state * bool :=
  match left with
  | O => (s, false)
  | S left' =>
      match launchHost id h s with
      | (s, inl started) => (s, started)
      | (s, inr refusal) =>
          let cool := refusal_cooldown refusal in
          let message := refusal_message refusal in
          let fails := (failLaunch id h (refusal_failure refusal) message (Some cool) s, false) in
          if is_set (hr_replaces h) then fails
          else match (match i with Some i => Some i | None => if is_set (hr_market h) then poolInputs h else None end) with
          | None => if is_set (hr_market h) then (s, false) else fails
          | Some i =>
              match nextPool p (fun r gpu => is_set (nodeImage r gpu)) (owner_of h) h (waiters id) cool cooldown now (cl_pools (ls_cool s)) i with
              | (_, None) => fails
              | (i, Some next) =>
                  let lease := if (left' =? 0)%nat then 0 else actionLease in
                  let '(s, moved) := movePool id h next message cool lease s in
                  if negb moved || (left' =? 0)%nat then (s, false)
                  else launchPools left' id (moved_row h next) (Some (count_quota next i)) s
              end
          end
      end
  end.

(** [launch]. *)
Definition launch (id : HostID) (h : HostRow) (s : launch_state) : launch_state * bool := launchPools passPools id h None s.

End Launch.
