(* ===== verification/HostProps.v ===== *)
(** What every statement and operation keeps of the hosts table: a row stays
    well formed, its phase moves along the lifecycle, and its kind and provider
    never change.  [table_step] says it of a whole table and composes, so a
    transaction is the composition of its statements. *)

From S2P Require Import Prelude Capacity Catalog GoLib Billing Policy Placement Offers Cover Fleet Hosts HostSql Cooldowns Sessions Machines.

(** ** The lifecycle *)

(** Phases, newest first, each of which the one before could become. *)
Fixpoint chain (l : list Phase) : bool :=
  match l with
  | p :: (q :: _) as l' => CanBecome q p && chain l'
  | _ => true
  end.

(** A history that ends in phase [p]. *)
Definition history_ok (p : Phase) (l : list Phase) : bool :=
  match l with q :: _ => (q == p) && chain l | [] => false end.

Lemma history_cons p q l : history_ok q l = true -> CanBecome q p = true -> history_ok p (p :: l) = true.
Proof.
  intros Hl Hp. destruct l as [|r l]; [done|]. unfold history_ok in *. apply andb_true_iff in Hl as [Hq Hc].
  apply bool_decide_eq_true in Hq as ->. rewrite bool_decide_eq_true_2 by done.
  change (CanBecome q p && chain (q :: l) = true). by rewrite Hp.
Qed.

Lemma history_to p0 p l :
  history_ok p0 l = true -> p0 = p \/ CanBecome p0 p = true -> history_ok p (if p0 == p then l else p :: l) = true.
Proof. intros Hl Hp. case_bool_decide as E; [by subst|]. destruct Hp as [|Hp]; [done|]. by eapply history_cons. Qed.

(** ** Well-formed rows *)

(** Some fact of the last stop is recorded. *)
Definition stop_facts (h : HostRow) : bool :=
  is_set (hr_stop_requested_at h) || is_set (hr_force_stop_at h) || is_set (hr_hibernate_refused_at h) || is_set (hr_stopped_at h).

(** Phases in which a cloud host has no instance it must account for. *)
Definition unlaunched (p : Phase) : bool := (p == PhaseRequested) || (p == PhaseDeleted) || (p == PhaseFailed).
Definition ended (p : Phase) : bool := (p == PhaseTerminating) || (p == PhaseDeleted).
Definition over_phase (p : Phase) : bool := ended p || (p == PhaseFailed).
Definition reserve_phase (p : Phase) : bool := (p == PhasePreparing) || (p == PhaseStopping) || (p == PhaseStopped).
Definition stop_phase (p : Phase) : bool :=
  (p == PhaseStopping) || (p == PhaseStopped) || (p == PhaseResuming) || ended p || (p == PhaseFailed).
Definition before_enrolled (p : Phase) : bool := (p == PhaseRequested) || (p == PhaseProvisioning) || (p == PhaseBooting).

Record row_ok (h : HostRow) : Prop := {
  (** A host that is ending is retired, and only one that ended or is ending. *)
  ok_over : ended (hr_phase h) = true -> hr_state h = HostRetired;
  ok_retired : hr_state h = HostRetired -> ended (hr_phase h) || (hr_phase h == PhaseFailed) = true;
  (** A launched cloud host records its instance. *)
  ok_instance : hr_provider h = ProviderAWS -> unlaunched (hr_phase h) = false -> is_set (hr_instance_id h) = true;
  (** A host on its way into the reserve, or in it, has a reserve mode. *)
  ok_mode : reserve_phase (hr_phase h) = true -> is_set (hr_reserve_mode h) = true;
  (** The facts of a stop are gone before the next one. *)
  ok_stop : hr_provider h = ProviderAWS -> stop_facts h = true -> stop_phase (hr_phase h) = true;
  (** A cloud host has no token before it enrolls. *)
  ok_token : hr_provider h = ProviderAWS -> before_enrolled (hr_phase h) = true -> hr_token_hash h = None;
  (** The phases it went through follow the lifecycle and end in its own. *)
  ok_history : history_ok (hr_phase h) (hr_history h) = true;
  (** A machine is no cloud host: it has no connection, and no actuator
      claims it. *)
  ok_machine : hr_kind h = KindMachine ->
    hr_provider h = ProviderAgent /\ hr_connection h = None /\ hr_authorization h = None /\ hr_action_token h = None }.

(** ** A step of a row *)

(** [waits]: the step is not one that a machine's join makes, and leaves a
    machine that waits for its join waiting. *)
Record good (waits : bool) (h h' : HostRow) : Prop := {
  g_ok : row_ok h -> row_ok h';
  g_waits : waits = true -> row_ok h -> hr_kind h = KindMachine -> hr_phase h = PhaseRequested -> hr_phase h' = PhaseRequested;
  g_over : row_ok h -> hr_provider h = ProviderAWS -> over_phase (hr_phase h) = true -> over_phase (hr_phase h') = true;
  g_history : hr_history h `suffix_of` hr_history h';
  g_kind : hr_kind h' = hr_kind h;
  g_provider : hr_provider h' = hr_provider h }.

#[export] Instance good_refl w : Reflexive (good w).
Proof. intros h. split; done. Qed.

#[export] Instance good_trans w : Transitive (good w).
Proof. intros x y z [A1 A2 A3 A4 A5 A6] [B1 B2 B3 B4 B5 B6]. split; [auto| | |by etrans|congruence..]; intros.
  - apply B2; auto. congruence.
  - apply B3; auto. congruence.
 Qed.

Lemma good_weaken w h h' : good w h h' -> good false h h'.
Proof. intros [? ? ? ? ? ?]. by split. Qed.

(** How a row may start: a host to launch, a machine to join, or a platform
    host that enrolled with a token. *)
Definition born (h : HostRow) : Prop :=
  row_ok h /\ (hr_phase h = PhaseRequested \/ hr_phase h = PhaseJoining /\ hr_kind h = KindPlatform /\ hr_provider h = ProviderAgent).

Definition row_step (w : bool) (o o' : option HostRow) : Prop :=
  match o, o' with
  | Some h, Some h' => good w h h'
  | None, None => True
  | None, Some h' => exists b, born b /\ good false b h'
  | Some _, None => False
  end.

Definition table_step (w : bool) (t t' : hosts) : Prop := forall id, row_step w (t !! id) (t' !! id).

#[export] Instance table_step_refl w : Reflexive (table_step w).
Proof. intros t id. unfold row_step. by destruct (t !! id). Qed.

#[export] Instance table_step_trans w : Transitive (table_step w).
Proof.
  intros x y z A B id. specialize (A id). specialize (B id). unfold row_step in *.
  destruct (x !! id), (y !! id), (z !! id); try done.
  - by etrans.
  - destruct A as (b & Hb & Hg). exists b. split; [done|]. etrans; [done|]. by eapply good_weaken.
Qed.

Lemma table_step_weaken w t t' : table_step w t t' -> table_step false t t'.
Proof. intros H id. specialize (H id). unfold row_step in *. destruct (t !! id), (t' !! id); try done. by eapply good_weaken. Qed.

(** ** Statements *)

Lemma update_one_step w id guard f t :
  (forall h, t !! id = Some h -> guard h = true -> good w h (f h)) -> table_step w t (update_one id guard f t).1.
Proof.
  intros H. unfold update_one. destruct (t !! id) as [h|] eqn:E; [|done]. destruct (guard h) eqn:G; [|done].
  intros k. cbn [fst]. destruct (decide (k = id)) as [->|Hk].
  - rewrite E, lookup_insert_eq. by apply H.
  - rewrite lookup_insert_ne by done. unfold row_step. by destruct (t !! k).
Qed.

Lemma update_where_lookup guard f t id :
  update_where guard f t !! id = (fun h => if guard id h then f id h else h) <$> t !! id.
Proof. unfold update_where. rewrite map_lookup_imap. by destruct (t !! id). Qed.

Lemma update_where_step guard f t :
  (forall id h, t !! id = Some h -> guard id h = true -> good true h (f id h)) -> table_step true t (update_where guard f t).
Proof.
  intros H id. rewrite update_where_lookup. destruct (t !! id) as [h|] eqn:E; [|done]. simpl.
  destruct (guard id h) eqn:G; [by apply H|done].
Qed.

Lemma insert_row_step id h t t' : born h -> insert_row id h t = Some t' -> table_step true t t'.
Proof.
  unfold insert_row. intros Hb. destruct (t !! id) eqn:E; [done|]. intros [= <-] k.
  destruct (decide (k = id)) as [->|Hk].
  - rewrite E, lookup_insert_eq. by exists h.
  - rewrite lookup_insert_ne by done. unfold row_step. by destruct (t !! k).
Qed.

(** Rows named by [ids] are cloud hosts. *)
Definition aws_ids (ids : list HostID) (t : hosts) : Prop :=
  forall id h, id ∈ ids -> t !! id = Some h -> hr_provider h = ProviderAWS.

(** ** One row's step *)

(** Evaluates the columns of rows that are constructor applications. *)
Ltac row_cbv :=
  cbv beta iota zeta delta [to_phase retire_row end_stop drain_row fail_row stop_facts over
    hr_kind hr_provider hr_name hr_connection hr_account hr_authorization hr_phase hr_phase_at hr_phase_message
    hr_failure hr_state hr_token_hash hr_capacity_state hr_capacity_reason hr_cpu hr_memory hr_gpu_type hr_gpu_count
    hr_disk_slots hr_region hr_zone hr_zone_id hr_instance_type hr_market hr_hourly_micros hr_reserve_mode hr_replaces
    hr_holds_cpu hr_holds_memory hr_holds_disks hr_margin_waived hr_instance_id hr_spot_request_id hr_node_role
    hr_node_image hr_hibernation_configured hr_launched_at hr_launch_lease_until hr_action_token hr_launch_attempts
    hr_launch_pools hr_image_evidence hr_stop_requested_at hr_force_stop_at hr_hibernate_refused_at hr_stopped_at
    hr_start_refused_at hr_terminate_requested_at hr_sleep_attempt_id hr_sleep_boot_id hr_prepared_agent_version
    hr_gpu_proven hr_last_resume_outcome hr_session_epoch hr_boot_id hr_agent_version hr_agent_updatable
    hr_agent_rejected hr_peer_address hr_architecture hr_preflight hr_updating_until hr_last_seen_at hr_interruption_at
    hr_rightsize_refused_at hr_hands_back_at hr_history] in *.

Lemma suffix_if (b : bool) (p : Phase) l : l `suffix_of` (if b then l else p :: l).
Proof. destruct b; [done|]. by apply suffix_cons_r. Qed.

(** Reads the guard of a statement: the phase it fixes, and the rest. *)
Ltac read_guard :=
  repeat match goal with
  | H : _ && _ = true |- _ => apply andb_true_iff in H; destruct H
  | H : bool_decide _ = true |- _ => apply bool_decide_eq_true in H
  | H : negb (bool_decide _) = true |- _ => apply negb_true_iff, bool_decide_eq_false in H
  | H : _ || _ = true |- _ => apply orb_true_iff in H; destruct H
  end.

(** Decides tests of known phases. *)
Ltac phase_tests :=
  repeat match goal with
  | |- context [bool_decide (?p = ?q :> Phase)] =>
      first [rewrite (bool_decide_eq_true_2 (p = q)) by reflexivity | rewrite (bool_decide_eq_false_2 (p = q)) by discriminate]
  end; cbn [is_set orb andb negb].

Ltac solve_history := first [eassumption | eapply history_cons; [solve_history|reflexivity]].

Ltac row_close :=
  phase_tests;
  first [ done | apply suffix_if
        | solve [repeat first [reflexivity | apply suffix_cons_r]]
        | apply history_to; [assumption|first [by left|by right]]
        | solve_history
        | solve [intros; simpl in *; intuition congruence] ].

(** A statement's effect on one row. *)
Ltac row_good :=
  intros;
  match goal with |- good _ ?h _ => destruct h end; row_cbv; read_guard; subst;
  (split; [intros [O1 O2 O3 O4 O5 O6 O7 O8]; row_cbv; split|intros HW [O1 O2 O3 O4 O5 O6 O7 O8] HK HQ|intros [O1 O2 O3 O4 O5 O6 O7 O8] HK HQ| | |]); row_cbv; row_close.

(** ** actuator.sql.go *)

Lemma claim_row_good lease now token h : hr_provider h = ProviderAWS -> good true h (claim_row lease now token h).
Proof.
  intros HP. unfold claim_row. destruct (bool_decide_reflect (hr_phase h = PhaseDraining)) as [E|E]; row_good.
Qed.

Lemma ClaimHostActions_step phases lease settle grace batch locked token now cs t :
  table_step true t (ClaimHostActions phases lease settle grace batch locked token now cs t).1.
Proof.
  unfold ClaimHostActions. cbn [fst]. apply update_where_step. intros id h Hid Hc. apply claim_row_good.
  apply bool_decide_eq_true, list_elem_of_In, in_map_iff in Hc as ([i r] & [= ->] & Hin).
  apply list_elem_of_In, elem_of_take in Hin as (n & Hn & _). apply list_elem_of_lookup_2, list_elem_of_In, sort_by_In in Hn.
  apply filter_In in Hn as [Hm Hc]. apply list_elem_of_In, elem_of_map_to_list in Hm. rewrite Hid in Hm. injection Hm as ->.
  unfold claimable in Hc. read_guard. done.
Qed.
Lemma MarkReserveStopped_step id token ev now t : table_step true t (MarkReserveStopped id token ev now t).1.
Proof. apply update_one_step. unfold held. row_good. Qed.
Lemma RecordHibernateRefused_step id token now t : table_step true t (RecordHibernateRefused id token now t).1.
Proof. apply update_one_step. unfold held. row_good. Qed.
Lemma RecordInstanceStopped_step id token ev now t : table_step true t (RecordInstanceStopped id token ev now t).1.
Proof. apply update_one_step. unfold held. row_good. Qed.
Lemma RecordStartRequested_step id token t : table_step true t (RecordStartRequested id token t).1.
Proof. apply update_one_step. unfold held. row_good. Qed.
Lemma RecordStopRequested_step id token ev forced now t : table_step true t (RecordStopRequested id token ev forced now t).1.
Proof. apply update_one_step. unfold held. row_good. Qed.
Lemma RecordTerminateRequested_step id token now t : table_step true t (RecordTerminateRequested id token now t).1.
Proof. apply update_one_step. unfold held. row_good. Qed.
Lemma ReleaseHostActions_step claims recheck now t : table_step true t (ReleaseHostActions claims recheck now t).
Proof. apply update_where_step. row_good. Qed.
Lemma RetireReserve_step id token message now t : table_step true t (RetireReserve id token message now t).1.
Proof. apply update_one_step. unfold held. row_good. Qed.
Lemma ReturnStartToReserve_step id token message now t : table_step true t (ReturnStartToReserve id token message now t).1.
Proof. apply update_one_step. unfold held. row_good. Qed.

(** ** planner.sql.go *)

Lemma DrainHosts_step ids reason now cs t : table_step true t (DrainHosts ids reason now cs t).1.
Proof. apply update_where_step. unfold drainable. row_good. Qed.
Lemma FailPreparing_step ids limit message now t : table_step true t (FailPreparing ids limit message now t).1.
Proof. apply update_where_step. unfold overdue. row_good. Qed.
Lemma ResumeReserves_step ids now t : table_step true t (ResumeReserves ids now t).1.
Proof. apply update_where_step. unfold can_resume. row_good. Qed.
Lemma RetireReserves_step ids now cs t : aws_ids ids t -> table_step true t (RetireReserves ids now cs t).1.
Proof.
  intros HA. apply update_where_step. unfold can_retire, any_of. intros id h Hid Hc. read_guard; pose proof (HA id h ltac:(done) Hid); rewrite ?bool_decide_eq_false_2 by congruence;
    rewrite ?bool_decide_eq_true_2 by done; row_good.
Qed.
Lemma ReturnToReserve_step ids hibernate now cs t : table_step true t (ReturnToReserve ids hibernate now cs t).1.
Proof. apply update_where_step. unfold can_return. row_good. Qed.
Lemma SetHandsBack_step back lend now t : table_step true t (SetHandsBack back lend now t).1.
Proof. apply update_where_step. unfold hands. row_good. Qed.

Lemma requested_row_born host_name now v : rq_Kind v <> KindMachine -> born (requested_row host_name now v).
Proof. intros HK. split; [|by left]. split; try done. Qed.

Lemma InsertRequestedHosts_step host_name rows now t t' :
  Forall (fun v => rq_Kind v <> KindMachine) rows -> InsertRequestedHosts host_name rows now t = Some t' -> table_step true t t'.
Proof.
  unfold InsertRequestedHosts. intros H. revert t. induction H as [|v rows Hv _ IH]; intros t; cbn [fold_left].
  - by intros [= <-].
  - unfold mbind, option_bind. destruct (insert_row (rq_ID v) (requested_row host_name now v) t) as [t1|] eqn:E.
    + intros Ht. etrans; [|by apply IH]. eapply insert_row_step; [|exact E]. by apply requested_row_born.
    + intros Ht. exfalso. clear -Ht. induction rows; [done|by apply IHrows].
Qed.

(** ** fleet.sql.go *)

Lemma CancelConnectionLaunches_step leaving now t : table_step true t (CancelConnectionLaunches leaving now t).
Proof. apply update_where_step. intros id h Hid Hc. destruct (hr_connection h) eqn:Ec; [row_good|done]. Qed.
Lemma end_or_drain_step selects reason now t : table_step true t (end_or_drain selects reason now t).1.
Proof.
  apply update_where_step. intros id h Hid [_ Hc]%andb_true_iff. destruct (in_reserve_phase h) eqn:E.
  - unfold in_reserve_phase in E. row_good.
  - simpl in Hc. clear E. unfold in_service_phase in Hc. row_good.
Qed.
Lemma EndHost_step id from failure message now t :
  CanBecome from PhaseTerminating = true -> table_step true t (EndHost id from failure message now t).1.
Proof. intros Hf. apply update_one_step. intros h Hid Hg. read_guard. destruct from; try discriminate Hf; row_good. Qed.
Lemma FailHost_step id from failure message now t :
  CanBecome from PhaseFailed = true -> aws_ids [id] t -> table_step true t (FailHost id from failure message now t).1.
Proof.
  intros Hf HA. apply update_one_step. intros h Hid Hg. pose proof (HA id h ltac:(by left) Hid). read_guard. destruct from; try discriminate Hf; row_good.
Qed.
Lemma FailLaunch_step id token failure message now t : table_step true t (FailLaunch id token failure message now t).1.
Proof. apply update_one_step. unfold held. row_good. Qed.
Lemma MarkHostDeleted_step id from now t :
  CanBecome from PhaseDeleted = true -> aws_ids [id] t -> table_step true t (MarkHostDeleted id from now t).1.
Proof.
  intros Hf HA. apply update_one_step. intros h Hid Hg. pose proof (HA id h ltac:(by left) Hid). read_guard. destruct from; try discriminate Hf; row_good.
Qed.
Lemma MoveLaunchPool_step id token next lease now t : table_step true t (MoveLaunchPool id token next lease now t).1.
Proof. apply update_one_step. unfold held. row_good. Qed.
Lemma RecordLaunch_step id token p now t : table_step true t (RecordLaunch id token p now t).1.
Proof. apply update_one_step. unfold held. row_good. Qed.
Lemma RefuseRightsize_step id now t : table_step true t (RefuseRightsize id now t).1.
Proof. apply update_one_step. row_good. Qed.

(** ** Sessions *)

Lemma update_one_at id (guard : HostRow -> bool) f t h :
  t !! id = Some h -> guard h = true -> update_one id guard f t = (<[id := f h]> t, 1).
Proof. intros E G. unfold update_one. by rewrite E, G. Qed.

(** A write of one row. *)
Lemma put_step id h h' t : t !! id = Some h -> good true h h' -> table_step true t (<[id := h']> t).
Proof.
  intros E G k. destruct (decide (k = id)) as [->|Hk].
  - by rewrite E, lookup_insert_eq.
  - rewrite lookup_insert_ne by done. unfold row_step. by destruct (t !! k).
Qed.

Lemma movePhase_at id from to now t h :
  t !! id = Some h -> hr_phase h = from -> CanBecome from to = true ->
  movePhase id from to now t = Ret (<[id := to_phase to (phase_Message to) now h]> t).
Proof.
  intros E P C. unfold movePhase, changePhase, transition. rewrite C. cbn [go_bind]. unfold SetHostPhase.
  rewrite (update_one_at _ _ _ _ h) by (done || by rewrite bool_decide_eq_true_2). done.
Qed.

(** The row [settleSession] leaves. *)
Definition record_outcome (outcome : option ResumeOutcome) (h : HostRow) : HostRow :=
  match outcome with
  | Some o => h <| hr_last_resume_outcome := Some o |> <| hr_image_evidence := settled_evidence o (hr_image_evidence h) |>
                <| hr_sleep_attempt_id := None |> <| hr_sleep_boot_id := None |>
  | None => h
  end.

Definition move (p : Phase) (now : Z) (h : HostRow) : HostRow := to_phase p (phase_Message p) now h.

Definition rejoined (h : HostRow) (outcome : option ResumeOutcome) (now : Z) : HostRow :=
  let h1 := record_outcome outcome h in
  end_stop (move PhaseJoining now (if hr_phase h == PhaseResuming then h1 else move PhaseResuming now h1)).

Definition settled_row (h : HostRow) (open : SessionOpen) (now : Z) : HostRow :=
  let outcome := resumeOutcome h open in
  let back := comes_back h outcome in
  let h1 := if back then rejoined h outcome now else h in
  if (back || (hr_phase h == PhaseJoining)) && is_set (hr_reserve_mode h) then move PhasePreparing now h1 else h1.

Lemma phase_to p m now h : hr_phase (to_phase p m now h) = p.
Proof. by destruct h. Qed.
Lemma phase_end_stop h : hr_phase (end_stop h) = hr_phase h.
Proof. by destruct h. Qed.
Lemma phase_record o h : hr_phase (record_outcome o h) = hr_phase h.
Proof. by destruct h, o. Qed.
Lemma RecordResumeOutcome_at id o t h :
  t !! id = Some h -> (RecordResumeOutcome id o t).1 = <[id := record_outcome (Some o) h]> t.
Proof. intros E. unfold RecordResumeOutcome. by rewrite (update_one_at _ _ _ _ h). Qed.

Lemma rejoin_at id h outcome now t :
  t !! id = Some h -> comes_back h outcome = true ->
  rejoin id h outcome now t = Ret (<[id := rejoined h outcome now]> t).
Proof.
  intros E B. unfold rejoin.
  assert (E1 : match outcome with Some o => (RecordResumeOutcome id o t).1 | None => t end = <[id := record_outcome outcome h]> t).
  { destruct outcome; [by apply RecordResumeOutcome_at|]. symmetry. by apply insert_id. }
  rewrite E1. clear E1. unfold rejoined, move. cbv zeta. case_bool_decide as P.
  - cbn [go_bind]. rewrite (movePhase_at _ _ _ _ _ (record_outcome outcome h)) by
      (by rewrite ?lookup_insert_eq, ?phase_record). cbn [go_bind].
    unfold EndLastStop. erewrite update_one_at by (done || apply lookup_insert_eq). by rewrite !insert_insert_eq.
  - assert (C : CanBecome (hr_phase h) PhaseResuming = true).
    { unfold comes_back in B. rewrite bool_decide_eq_false_2 in B by done. simpl in B. read_guard; congruence || by rewrite H0. }
    rewrite (movePhase_at _ _ _ _ _ (record_outcome outcome h)) by (by rewrite ?lookup_insert_eq, ?phase_record). cbn [go_bind].
    erewrite movePhase_at by (done || apply lookup_insert_eq || apply phase_to). cbn [go_bind].
    unfold EndLastStop. erewrite update_one_at by (done || apply lookup_insert_eq). by rewrite !insert_insert_eq.
Qed.

(** Settling a session cannot fail: every move it makes is allowed and the
    row is locked. *)
Lemma settleSession_at id open now t h :
  t !! id = Some h -> settleSession id open now t = Ret (<[id := settled_row h open now]> t).
Proof.
  intros E. unfold settleSession, settled_row. rewrite E. cbv zeta.
  destruct (comes_back h (resumeOutcome h open)) eqn:B.
  - rewrite rejoin_at by done. cbn [go_bind orb]. destruct (is_set (hr_reserve_mode h)); [|done]. cbn [andb].
    erewrite movePhase_at; [by rewrite insert_insert_eq|apply lookup_insert_eq| |done].
    unfold rejoined, move. cbv zeta. by rewrite phase_end_stop, phase_to.
  - cbn [go_bind orb]. destruct (bool_decide_reflect (hr_phase h = PhaseJoining)) as [P|P]; cbn [andb].
    + destruct (is_set (hr_reserve_mode h)); [by apply movePhase_at|]. by rewrite insert_id.
    + by rewrite insert_id.
Qed.

Lemma settled_good h open now : good true h (settled_row h open now).
Proof.
  unfold settled_row, comes_back, rejoined, move, record_outcome. generalize (resumeOutcome h open). intros outcome.
  destruct (hr_phase h) eqn:EP; destruct outcome; destruct (hr_reserve_mode h) eqn:EM; phase_tests; try done.
  all: row_good.
Qed.

(** The row [OpenSession] leaves. *)
Definition opened_row (h : HostRow) (open : SessionOpen) (now : Z) : HostRow :=
  (if hr_phase h == PhaseJoining then to_phase PhaseReady "Ready for workloads" now h else h)
    <| hr_session_epoch := hr_session_epoch h + 1 |> <| hr_state := HostOnline |>
    <| hr_cpu := cp_CPUMillis (so_Capacity open) |> <| hr_memory := cp_MemoryBytes (so_Capacity open) |>
    <| hr_gpu_type := cp_GPUType (so_Capacity open) |> <| hr_gpu_count := cp_GPUCount (so_Capacity open) |>
    <| hr_disk_slots := cp_DiskSlots (so_Capacity open) |> <| hr_boot_id := so_BootID open |>
    <| hr_agent_version := so_AgentVersion open |> <| hr_agent_updatable := so_AgentUpdatable open |>
    <| hr_agent_rejected := so_AgentRejected open |> <| hr_peer_address := so_PeerAddress open |>
    <| hr_updating_until := None |> <| hr_last_seen_at := Some now |>.

Lemma opened_good h open now : hr_state h <> HostRetired -> good true h (opened_row h open now).
Proof.
  intros HR. unfold opened_row. destruct (bool_decide_reflect (hr_phase h = PhaseJoining)) as [P|P]; [row_good|].
  destruct (hr_phase h) eqn:E; try done; destruct h; row_cbv; subst.
  all: split; [intros [O1 O2 O3 O4 O5 O6 O7 O8]; row_cbv; split| | | | |]; row_cbv; try row_close.
Qed.

Lemma OpenSession_at id open now t h t' epoch :
  t !! id = Some h -> OpenSession id open now t = Ret (t', epoch) ->
  hr_state (settled_row h open now) <> HostRetired /\ t' = <[id := opened_row (settled_row h open now) open now]> t /\
  epoch = hr_session_epoch (settled_row h open now) + 1.
Proof.
  intros E. unfold OpenSession. rewrite (settleSession_at _ _ _ _ h) by done. cbn [go_bind]. unfold OpenHostSession.
  destruct (bool_decide_reflect (hr_state (settled_row h open now) = HostRetired)) as [R|R].
  - unfold update_one. rewrite lookup_insert_eq. rewrite bool_decide_eq_true_2 by done. done.
  - rewrite (update_one_at _ _ _ _ (settled_row h open now)) by (by rewrite ?lookup_insert_eq, ?bool_decide_eq_false_2).
    cbn [fst snd]. rewrite Z.eqb_refl, lookup_insert_eq, insert_insert_eq. cbn [fmap option_fmap option_map].
    intros [= <- <-]. split_and!; [done|done|].
    generalize (settled_row h open now). intros x. destruct (bool_decide_reflect (hr_phase x = PhaseJoining)); by destruct x.
Qed.

Lemma OpenSession_step id open now t t' epoch : OpenSession id open now t = Ret (t', epoch) -> table_step true t t'.
Proof.
  intros H. destruct (t !! id) as [h|] eqn:E.
  - destruct (OpenSession_at _ _ _ _ _ _ _ E H) as (HR & -> & _). apply (put_step _ h); [done|].
    etrans; [apply settled_good|]. by apply opened_good.
  - unfold OpenSession, settleSession in H. rewrite E in H. cbn [go_bind] in H. unfold OpenHostSession, update_one in H.
    rewrite E in H. done.
Qed.

Lemma TouchHost_step id epoch now t : table_step true t (TouchHost id epoch now t).1.
Proof. apply update_one_step. row_good. Qed.
Lemma MarkUpdating_step id limit now t : table_step true t (MarkUpdating id limit now t).1.
Proof. apply update_one_step. row_good. Qed.
Lemma MarkHostLost_step id timeout now t : table_step true t (MarkHostLost id timeout now t).1.
Proof. apply update_one_step. row_good. Qed.
Lemma MarkInterrupted_step id message reason reclaim now t : table_step true t (MarkInterrupted id message reason reclaim now t).1.
Proof.
  apply update_one_step. intros h _ _. destruct (in_service_phase h) eqn:E; [|row_good]. unfold in_service_phase in E. row_good.
Qed.
Lemma AcceptReserveStop_step id phase_at p now t : table_step true t (AcceptReserveStop id phase_at p now t).1.
Proof. apply update_one_step. row_good. Qed.
Lemma SetHostPhase_ready_step id message now t : table_step true t (SetHostPhase id PhasePreparing PhaseReady message now t).1.
Proof. apply update_one_step. row_good. Qed.
Lemma SetHostPhase_boot_step id message now t : table_step true t (SetHostPhase id PhaseProvisioning PhaseBooting message now t).1.
Proof. apply update_one_step. row_good. Qed.

Lemma AnswerReserve_step id answer current now cs t t' v : AnswerReserve id answer current now cs t = Ret (t', v) -> table_step true t t'.
Proof.
  unfold AnswerReserve. destruct (ra_Updating answer); [by intros [= <- _]|]. destruct (t !! id) as [h|]; [|done].
  destruct (negb (answers h answer)); [by intros [= <- _]|]. cbv zeta.
  destruct (negb (bool_decide (unproven answer h current (LiveHostContainers id cs) = ""))); cbn [transition go_bind].
  - intros [= <- _]. apply SetHostPhase_ready_step.
  - intros [= <- _]. apply AcceptReserveStop_step.
Qed.

Lemma DrainConnectionHosts_step leaving now t : table_step true t (DrainConnectionHosts leaving now t).1.
Proof. unfold DrainConnectionHosts, DrainAuthorizationHosts. apply end_or_drain_step. Qed.
Lemma DrainAuthorizationHosts_step a now t : table_step true t (DrainAuthorizationHosts a now t).1.
Proof. unfold DrainConnectionHosts, DrainAuthorizationHosts. apply end_or_drain_step. Qed.
Lemma AbandonConnectionHosts_step c now t : table_step true t (AbandonConnectionHosts c now t).
Proof. apply update_where_step. intros id h _ Hg. destruct (hr_phase h) eqn:E; row_good. Qed.

(** ** Joining *)

Lemma EnrollCloudHost_step id instance digest r now t : table_step true t (EnrollCloudHost id instance digest r now t).1.
Proof.
  apply update_one_step. unfold can_enroll_cloud. intros h Hid Hg. destruct (hr_token_hash h) eqn:Et; [by rewrite !andb_false_r in Hg|].
  row_good.
Qed.

(** Enrolling a machine that waits for its join. *)
Lemma EnrollMachine_step id digest r now t :
  (forall h, t !! id = Some h -> hr_phase h = PhaseRequested) ->
  let '(phase, message, failure) := enrolled_as r in
  table_step false t (EnrollMachine id digest phase message failure r now t).1.
Proof.
  intros Hr. unfold enrolled_as. destruct (failedChecks (rp_Preflight r)).
  all: apply update_one_step; intros h Hid Hg; pose proof (Hr h Hid) as HP; unfold can_enroll_machine in Hg; row_good.
Qed.

Lemma InsertPlatformHost_step id digest r now t t' : InsertPlatformHost id digest r now t = Some t' -> table_step true t t'.
Proof. apply insert_row_step. split; [split; done|by right]. Qed.

Lemma InsertMachine_step id name account gpu now t t' : InsertMachine id name account gpu now t = Some t' -> table_step true t t'.
Proof. apply insert_row_step. split; [split; done|by left]. Qed.

Lemma ResetMachine_step id gpu now t :
  (forall h, t !! id = Some h -> hr_kind h = KindMachine /\ (hr_phase h = PhaseRequested \/ hr_phase h = PhaseFailed)) ->
  table_step true t (ResetMachine id gpu now t).1.
Proof. intros Hr. apply update_one_step. intros h Hid _. destruct (Hr h Hid) as [HK [HP|HP]]; row_good. Qed.

Lemma RetireMachine_step id message now t :
  (forall h, t !! id = Some h -> hr_kind h = KindMachine /\ hr_phase h <> PhaseDeleted) ->
  table_step false t (RetireMachine id message now t).1.
Proof. intros Hr. apply update_one_step. intros h Hid _. destruct (Hr h Hid) as [HK HP]. destruct (hr_phase h) eqn:E; row_good. Qed.
