(* ===== verification/Lifecycle.v ===== *)
(** The life of the hosts table: every transaction that writes it as a step of
    one transition system, so what holds of every reachable table holds of the
    program, however its passes, sessions and requests interleave.

    A pass works on rows it read earlier, so a statement's arguments are
    whatever an earlier read may have given; what the statements themselves
    check is what keeps the table right. *)

From S2P Require Import Prelude Capacity Catalog GoLib Billing Policy Placement Offers Cover Fleet Hosts HostSql Cooldowns Sessions Actuator Machines Reconcile Launcher HostProps.

(** ** One transaction on hosts *)

(** Every statement that writes hosts outside the joins.  [cloud] rows are
    what the planner and [reconcileRegion] read: [provider = 'aws'], and no
    statement changes a provider. *)
Inductive stmt (cs : containers) (t : hosts) : hosts -> Prop :=
  | st_ClaimHostActions phases lease settle grace batch locked token now :
      stmt cs t (ClaimHostActions phases lease settle grace batch locked token now cs t).1
  | st_MarkReserveStopped id token ev now : stmt cs t (MarkReserveStopped id token ev now t).1
  | st_RecordHibernateRefused id token now : stmt cs t (RecordHibernateRefused id token now t).1
  | st_RecordInstanceStopped id token ev now : stmt cs t (RecordInstanceStopped id token ev now t).1
  | st_RecordStartRequested id token : stmt cs t (RecordStartRequested id token t).1
  | st_RecordStopRequested id token ev forced now : stmt cs t (RecordStopRequested id token ev forced now t).1
  | st_RecordTerminateRequested id token now : stmt cs t (RecordTerminateRequested id token now t).1
  | st_ReleaseHostActions claims recheck now : stmt cs t (ReleaseHostActions claims recheck now t)
  | st_RetireReserve id token message now : stmt cs t (RetireReserve id token message now t).1
  | st_ReturnStartToReserve id token message now : stmt cs t (ReturnStartToReserve id token message now t).1
  | st_DrainHosts ids reason now : stmt cs t (DrainHosts ids reason now cs t).1
  | st_FailPreparing ids limit message now : stmt cs t (FailPreparing ids limit message now t).1
  | st_InsertRequestedHosts name rows now t' :
      Forall (fun v => rq_Kind v <> KindMachine) rows -> InsertRequestedHosts name rows now t = Some t' -> stmt cs t t'
  | st_ResumeReserves ids now : stmt cs t (ResumeReserves ids now t).1
  | st_RetireReserves ids now : aws_ids ids t -> stmt cs t (RetireReserves ids now cs t).1
  | st_ReturnToReserve ids hibernate now : stmt cs t (ReturnToReserve ids hibernate now cs t).1
  | st_SetHandsBack back lend now : stmt cs t (SetHandsBack back lend now t).1
  | st_CancelConnectionLaunches leaving now : stmt cs t (CancelConnectionLaunches leaving now t)
  | st_DrainConnectionHosts leaving now : stmt cs t (DrainConnectionHosts leaving now t).1
  | st_EndHost id from failure message now :
      CanBecome from PhaseTerminating = true -> stmt cs t (EndHost id from failure message now t).1
  | st_FailHost id from failure message now :
      CanBecome from PhaseFailed = true -> aws_ids [id] t -> stmt cs t (FailHost id from failure message now t).1
  | st_FailLaunch id token failure message now : stmt cs t (FailLaunch id token failure message now t).1
  | st_MarkHostDeleted id from now :
      CanBecome from PhaseDeleted = true -> aws_ids [id] t -> stmt cs t (MarkHostDeleted id from now t).1
  | st_MoveLaunchPool id token next lease now : stmt cs t (MoveLaunchPool id token next lease now t).1
  | st_RecordLaunch id token p now : stmt cs t (RecordLaunch id token p now t).1
  | st_RefuseRightsize id now : stmt cs t (RefuseRightsize id now t).1
  | st_boot id now t' b : changePhase id PhaseProvisioning PhaseBooting now t = Ret (t', b) -> stmt cs t t'
  | st_OpenSession id open now t' epoch : OpenSession id open now t = Ret (t', epoch) -> stmt cs t t'
  | st_Touch id epoch now : stmt cs t (Touch id epoch now t).1
  | st_AnswerReserve id answer current now t' v : AnswerReserve id answer current now cs t = Ret (t', v) -> stmt cs t t'
  | st_MarkUpdating id limit now : stmt cs t (MarkUpdating id limit now t).1
  | st_MarkLost id now : stmt cs t (MarkLost id now t).1
  | st_MarkInterrupted id message reason reclaim now : stmt cs t (MarkInterrupted id message reason reclaim now t).1
  | st_DrainAuthorizationHosts a now : stmt cs t (DrainAuthorizationHosts a now t).1
  | st_AbandonConnectionHosts c now : stmt cs t (AbandonConnectionHosts c now t)
  | st_EnrollCloudHost id instance digest r now : stmt cs t (EnrollCloudHost id instance digest r now t).1.

Create HintDb hosts_db discriminated.
#[export] Hint Constants Opaque : hosts_db.
#[export] Hint Resolve ClaimHostActions_step MarkReserveStopped_step RecordHibernateRefused_step RecordInstanceStopped_step
  RecordStartRequested_step RecordStopRequested_step RecordTerminateRequested_step ReleaseHostActions_step RetireReserve_step
  ReturnStartToReserve_step DrainHosts_step FailPreparing_step InsertRequestedHosts_step ResumeReserves_step RetireReserves_step
  ReturnToReserve_step SetHandsBack_step CancelConnectionLaunches_step DrainConnectionHosts_step EndHost_step FailHost_step
  FailLaunch_step MarkHostDeleted_step MoveLaunchPool_step RecordLaunch_step RefuseRightsize_step OpenSession_step TouchHost_step
  AnswerReserve_step MarkUpdating_step MarkHostLost_step MarkInterrupted_step DrainAuthorizationHosts_step
  AbandonConnectionHosts_step EnrollCloudHost_step : hosts_db.

Lemma stmt_step cs t t' : stmt cs t t' -> table_step true t t'.
Proof.
  destruct 1; eauto with hosts_db.
  - unfold changePhase in H. cbn [transition go_bind] in H. injection H as <- _. apply SetHostPhase_boot_step.
  - apply TouchHost_step.
  - apply MarkHostLost_step.
Qed.

(** ** The system *)

Record world := mkWorld { w_join : join_db; w_containers : containers }.

Definition w_hosts (w : world) : hosts := jd_hosts (w_join w).
Definition with_hosts (d : join_db) (t : hosts) : join_db := mkJoin t (jd_tokens d) (jd_serves d).
Definition empty_world : world := mkWorld (mkJoin ∅ ∅ ∅) ∅.

Section Life.
Context (workspace_name : uuid -> string) (id_text : HostID -> string) (pinned : list uuid -> string -> list string).
Context `{!HostContainers}.

(** A committed transaction: a statement on hosts, execution's own writes to
    containers, or one of the joins. *)
Inductive step : world -> world -> Prop :=
  | step_stmt d cs t' : stmt cs (jd_hosts d) t' -> step (mkWorld d cs) (mkWorld (with_hosts d t') cs)
  | step_containers d cs cs' : step (mkWorld d cs) (mkWorld d cs')
  | step_join d cs req digest fresh now d' r :
      CreateMachineJoin workspace_name req digest fresh now d = Ret (d', r) -> step (mkWorld d cs) (mkWorld d' cs)
  | step_token d cs digest ttl now d' expires :
      CreateJoinToken digest ttl now d = Ret (d', expires) -> step (mkWorld d cs) (mkWorld d' cs)
  | step_enroll d cs token digest r fresh now d' id :
      Enroll token digest r fresh now d = Ret (d', id) -> step (mkWorld d cs) (mkWorld d' cs)
  | step_remove d cs account machine now d' cs' :
      RemoveMachine id_text account machine now d cs = Ret (d', cs') -> step (mkWorld d cs) (mkWorld d' cs')
  | step_workspaces d cs account machine workspaces d' cs' :
      UpdateMachineWorkspaces workspace_name id_text pinned account machine workspaces d cs = Ret (d', cs') ->
      step (mkWorld d cs) (mkWorld d' cs').

(** Any number of them. *)
Inductive run (w : world) : world -> Prop :=
  | run_refl : run w w
  | run_step w1 w2 : run w w1 -> step w1 w2 -> run w w2.

Definition reachable (w : world) : Prop := run empty_world w.

#[export] Instance run_trans : Transitive run.
Proof. intros x y z Hxy Hyz. induction Hyz; [done|by eapply run_step]. Qed.

(** ** What every reachable table satisfies *)

(** An unused token of a machine is the only one, and its machine waits. *)
Record world_ok (w : world) : Prop := {
  wo_rows : forall id h, w_hosts w !! id = Some h -> row_ok h;
  wo_waits : forall digest k host, jd_tokens (w_join w) !! digest = Some k -> jt_used k = None -> jt_host k = Some host ->
    exists h, w_hosts w !! host = Some h /\ hr_kind h = KindMachine /\ hr_phase h = PhaseRequested;
  wo_one : forall d1 d2 k1 k2 host, jd_tokens (w_join w) !! d1 = Some k1 -> jd_tokens (w_join w) !! d2 = Some k2 ->
    jt_used k1 = None -> jt_used k2 = None -> jt_host k1 = Some host -> jt_host k2 = Some host -> d1 = d2 }.

Lemma rows_ok_step w t t' :
  table_step w t t' -> (forall id h, t !! id = Some h -> row_ok h) -> forall id h, t' !! id = Some h -> row_ok h.
Proof.
  intros Hs Ht id h' E'. specialize (Hs id). rewrite E' in Hs. unfold row_step in Hs. destruct (t !! id) as [h|] eqn:E.
  - by apply Hs, (Ht id).
  - destruct Hs as (b & [Hb _] & Hg). by apply Hg.
Qed.

(** A machine that waits goes on waiting. *)
Lemma waiting_step t t' host h :
  table_step true t t' -> row_ok h -> t !! host = Some h -> hr_kind h = KindMachine -> hr_phase h = PhaseRequested ->
  exists h', t' !! host = Some h' /\ hr_kind h' = KindMachine /\ hr_phase h' = PhaseRequested.
Proof.
  intros Hs Hok E HK HP. specialize (Hs host). rewrite E in Hs. unfold row_step in Hs. destruct (t' !! host) as [h'|]; [|done].
  exists h'. split_and!; [done|by rewrite (g_kind _ _ _ Hs)|by apply (g_waits _ _ _ Hs)].
Qed.

Lemma update_one_ne id guard f t k : k <> id -> (update_one id guard f t).1 !! k = t !! k.
Proof.
  intros Hk. unfold update_one. destruct (t !! id) as [h|]; [|done]. destruct (guard h); [|done]. by apply lookup_insert_ne.
Qed.

Lemma update_one_at_inv id guard f t h' :
  (update_one id guard f t).2 = 1 -> (update_one id guard f t).1 !! id = Some h' ->
  exists h, t !! id = Some h /\ guard h = true /\ h' = f h.
Proof.
  unfold update_one. destruct (t !! id) as [h|] eqn:E; [|done]. destruct (guard h) eqn:G; [|done]. cbn [fst snd].
  rewrite lookup_insert_eq. intros _ [= <-]. by exists h.
Qed.

(** Revoking a machine's tokens leaves its other tokens as they were. *)
Lemma revoke_unused host now ts digest k :
  RevokeMachineJoinTokens host now ts !! digest = Some k -> jt_used k = None -> ts !! digest = Some k /\ jt_host k <> Some host.
Proof.
  unfold RevokeMachineJoinTokens. rewrite lookup_fmap. destruct (ts !! digest) as [k0|]; [|done]. simpl.
  destruct ((jt_host k0 == Some host) && negb (is_set (jt_used k0))) eqn:E; intros [= <-] Hu; [done|]. split; [done|].
  intros Hh. rewrite Hu, bool_decide_eq_true_2 in E by done. done.
Qed.

(** A step of hosts alone that keeps machines waiting. *)
Lemma world_ok_hosts d cs cs' t' s' :
  table_step true (jd_hosts d) t' -> world_ok (mkWorld d cs) -> world_ok (mkWorld (mkJoin t' (jd_tokens d) s') cs').
Proof.
  intros Hs [R W O]. split; cbn in *; [by eapply rows_ok_step| |done].
  intros digest k host Hk Hu Hh. destruct (W digest k host Hk Hu Hh) as (h & E & HK & HP). eapply waiting_step; eauto.
Qed.

(** Every step of [t] at [host] only, whose unused tokens are gone. *)
Lemma world_ok_spent d cs cs' t' ts' host :
  table_step false (jd_hosts d) t' -> (forall k, k <> host -> t' !! k = jd_hosts d !! k) ->
  (forall digest k, ts' !! digest = Some k -> jt_used k = None -> jd_tokens d !! digest = Some k /\ jt_host k <> Some host) ->
  world_ok (mkWorld d cs) -> world_ok (mkWorld (mkJoin t' ts' (jd_serves d)) cs').
Proof.
  intros Hs Hne Hts [R W O]. split; cbn in *; [by eapply rows_ok_step| |].
  - intros digest k m Hk Hu Hh. destruct (Hts _ _ Hk Hu) as [Hk0 Hm]. destruct (W digest k m Hk0 Hu Hh) as (h & E & HK & HP).
    exists h. split; [|done]. etrans; [apply Hne; congruence|exact E].
  - intros d1 d2 k1 k2 m E1 E2 U1 U2. destruct (Hts _ _ E1 U1) as [E1' _], (Hts _ _ E2 U2) as [E2' _]. eauto.
Qed.

(** ** The joins *)

Lemma find_named account name t id h :
  LockMachineByName account name t = Some (id, h) -> t !! id = Some h /\ named_machine account name h = true.
Proof.
  unfold LockMachineByName. intros [Hin Hn]%find_some. split; [|done]. by apply elem_of_map_to_list, list_elem_of_In.
Qed.

Lemma find_account account machine t id h :
  LockAccountMachine id_text account machine t = Some (id, h) -> t !! id = Some h /\ hr_kind h = KindMachine.
Proof.
  unfold LockAccountMachine. intros Hh. assert (Hin : In (id, h) (sort_by account_order (List.filter (fun r =>
    (hr_kind r.2 == KindMachine) && (hr_account r.2 == Some account) &&
    ((id_text r.1 == machine) || ((hr_name r.2 == machine) && (hr_phase r.2 != PhaseDeleted)))) (map_to_list t)))).
  { destruct (sort_by _ _); [done|]. injection Hh as ->. by left. }
  apply sort_by_In, filter_In in Hin as [Hin Hc]. split; [by apply elem_of_map_to_list, list_elem_of_In|].
  cbn [snd fst] in Hc. apply andb_true_iff in Hc as [[Hc _]%andb_true_iff _]. by apply bool_decide_eq_true in Hc.
Qed.

(** [join_host] leaves the machine waiting, and touches no other row. *)
Lemma join_host_spec account name gpu fresh now t t' host :
  join_host account name gpu fresh now t = Ret (t', host) ->
  table_step true t t' /\ (forall k, k <> host -> t' !! k = t !! k) /\
  exists h, t' !! host = Some h /\ hr_kind h = KindMachine /\ hr_phase h = PhaseRequested.
Proof.
  unfold join_host. destruct (LockMachineByName account name t) as [[id h]|] eqn:L.
  - destruct (find_named _ _ _ _ _ L) as [E Hn]. destruct ((hr_phase h != PhaseRequested) && (hr_phase h != PhaseFailed)) eqn:G; [done|].
    intros [= <- <-]. assert (HK : hr_kind h = KindMachine) by (unfold named_machine in Hn; by read_guard). split_and!.
    + apply ResetMachine_step. intros h0 E0. rewrite E in E0. injection E0 as <-. split; [done|].
      apply andb_false_iff in G as [G|G]; apply negb_false_iff, bool_decide_eq_true in G; auto.
    + intros k Hk. by apply update_one_ne.
    + unfold ResetMachine. rewrite (update_one_at _ _ _ _ h) by done. cbn [fst]. rewrite lookup_insert_eq.
      eexists. split; [done|]. by destruct h.
  - destruct (InsertMachine fresh name account gpu now t) as [t1|] eqn:I; [|done]. intros [= <- <-].
    split; [by eapply InsertMachine_step|]. unfold InsertMachine, insert_row in I. destruct (t !! fresh); [done|].
    injection I as <-. split; [intros; by apply lookup_insert_ne|]. rewrite lookup_insert_eq. eexists. done.
Qed.

Lemma CreateMachineJoin_ok req digest fresh now d d' r cs :
  CreateMachineJoin workspace_name req digest fresh now d = Ret (d', r) ->
  world_ok (mkWorld d cs) -> world_ok (mkWorld d' cs) /\ table_step true (jd_hosts d) (jd_hosts d').
Proof.
  unfold CreateMachineJoin. destruct (MachineNameConflict _ _ _ _ _); [done|].
  destruct (join_host _ _ _ _ _ _) as [[t host]| | |] eqn:J; try done. cbn [go_bind].
  destruct (join_host_spec _ _ _ _ _ _ _ _ J) as (Hs & Hne & h & E & HK & HP). unfold InsertJoinToken.
  destruct (RevokeMachineJoinTokens host now (jd_tokens d) !! digest) eqn:D; [done|]. intros [= <- <-] [R W O]. split; [|done].
  assert (Hts : forall dg k, <[digest:=mkToken (now + (if mj_TTL req =? 0 then DefaultJoinTTL else mj_TTL req)) None (Some host)]>
      (RevokeMachineJoinTokens host now (jd_tokens d)) !! dg = Some k -> jt_used k = None ->
      dg = digest /\ jt_host k = Some host \/ jd_tokens d !! dg = Some k /\ jt_host k <> Some host).
  { intros dg k. destruct (decide (dg = digest)) as [->|Hd].
    - rewrite lookup_insert_eq. intros [= <-] _. by left.
    - rewrite lookup_insert_ne by done. intros A B. right. by eapply revoke_unused. }
  split; cbn in *; [by eapply rows_ok_step| |].
  - intros dg k m Hk Hu Hm. destruct (Hts _ _ Hk Hu) as [[-> Hh]|[Hk0 Hh]].
    + rewrite Hm in Hh. injection Hh as ->. by exists h.
    + destruct (W dg k m Hk0 Hu Hm) as (h1 & E1 & ?). exists h1. split; [|done]. etrans; [apply Hne; congruence|exact E1].
  - intros d1 d2 k1 k2 m E1 E2 U1 U2 H1 H2. destruct (Hts _ _ E1 U1) as [[-> Hh]|[E1' Hh]], (Hts _ _ E2 U2) as [[-> Hh']|[E2' Hh']];
      try congruence. eauto.
Qed.

Lemma use_unused digest now ts ts' host :
  UseJoinToken digest now ts = Some (ts', host) ->
  exists k, ts !! digest = Some k /\ jt_used k = None /\ jt_host k = host /\
    forall dg k', ts' !! dg = Some k' -> jt_used k' = None -> dg <> digest /\ ts !! dg = Some k'.
Proof.
  unfold UseJoinToken. destruct (ts !! digest) as [k|] eqn:E; [|done]. destruct (jt_used k) eqn:U; [done|]. cbn [is_set negb andb].
  destruct (now <? jt_expires k); [|done]. intros [= <- <-]. exists k. split_and!; [done..|]. intros dg k'.
  destruct (decide (dg = digest)) as [->|Hd]; [rewrite lookup_insert_eq; by intros [= <-]|]. by rewrite lookup_insert_ne.
Qed.

(** [Enroll] finds the machine waiting. *)
Lemma Enroll_ok token digest r fresh now d d' id cs :
  Enroll token digest r fresh now d = Ret (d', id) ->
  world_ok (mkWorld d cs) -> world_ok (mkWorld d' cs) /\ table_step false (jd_hosts d) (jd_hosts d').
Proof.
  unfold Enroll. destruct (UseJoinToken token now (jd_tokens d)) as [[ts [host|]]|] eqn:U; [| |done].
  - destruct (use_unused _ _ _ _ _ U) as (k & Hk & Hu & Hh & Hts).
    destruct (enrolled_as r) as [[phase message] failure] eqn:EA. destruct (_ =? 1) eqn:N; [|done]. intros [= <- <-] HW.
    assert (Hs : table_step false (jd_hosts d) (EnrollMachine host digest phase message failure r now (jd_hosts d)).1).
    { pose proof (EnrollMachine_step host digest r now (jd_hosts d)) as HE. rewrite EA in HE. apply HE. intros h E.
      destruct (wo_waits _ HW token k host Hk Hu Hh) as (h0 & E0 & _ & HP). unfold w_hosts in E0. cbn in E0. congruence. }
    split; [|done]. eapply world_ok_spent; [done|intros; by apply update_one_ne| |done].
    intros dg k' Hk' Hu'. destruct (Hts _ _ Hk' Hu') as [Hd Hk'']. split; [done|]. intros Hh'. apply Hd. by eapply (wo_one _ HW).
  - destruct (use_unused _ _ _ _ _ U) as (k & Hk & Hu & Hh & Hts).
    destruct (InsertPlatformHost fresh digest r now (jd_hosts d)) as [t|] eqn:I; [|done]. intros [= <- <-] HW.
    pose proof (InsertPlatformHost_step _ _ _ _ _ _ I) as Hs. split; [|by eapply table_step_weaken].
    destruct HW as [R W O]. split; cbn in *; [by eapply rows_ok_step| |].
    + intros dg k' m Hk' Hu' Hm. destruct (Hts _ _ Hk' Hu') as [_ Hk'']. destruct (W _ _ _ Hk'' Hu' Hm) as (h & E & HK & HP).
      eapply waiting_step; eauto.
    + intros d1 d2 k1 k2 m E1 E2 U1 U2. destruct (Hts _ _ E1 U1) as [_ E1'], (Hts _ _ E2 U2) as [_ E2']. eauto.
Qed.

Lemma RemoveMachine_ok account machine now d cs d' cs' :
  RemoveMachine id_text account machine now d cs = Ret (d', cs') ->
  world_ok (mkWorld d cs) -> world_ok (mkWorld d' cs') /\ table_step false (jd_hosts d) (jd_hosts d').
Proof.
  unfold RemoveMachine. destruct (LockAccountMachine _ _ _ _) as [[id h]|] eqn:L; [|done].
  destruct (find_account _ _ _ _ _ L) as [E HK]. case_bool_decide as HP.
  - intros [= <- <-] [R W O]. by split.
  - cbv zeta. destruct (asked _) as [cs1| | |]; try done. intros [= <- <-] HW. cbn [jd_hosts].
    assert (Hs : forall m, table_step false (jd_hosts d) (RetireMachine id m now (jd_hosts d)).1).
    { intros m. apply RetireMachine_step. intros h0 E0. rewrite E in E0. by injection E0 as <-. }
    split; [|done]. eapply world_ok_spent; [done|intros; by apply update_one_ne| |done].
    intros dg k Hk Hu. by eapply revoke_unused.
Qed.

(** ** Steps and runs *)

Lemma step_ok w w' : step w w' -> world_ok w -> world_ok w' /\ table_step false (w_hosts w) (w_hosts w').
Proof.
  destruct 1 as [d cs t' Hs|d cs cs'|d cs req digest fresh now d' r Hr|d cs digest ttl now d' e Hr|d cs token digest r fresh now d' id Hr
    |d cs account machine now d' cs' Hr|d cs account machine ws d' cs' Hr]; intros HW; cbn [w_hosts w_join].
  - apply stmt_step in Hs. split; [by eapply world_ok_hosts|by eapply table_step_weaken].
  - split; [|done]. by destruct HW.
  - destruct (CreateMachineJoin_ok _ _ _ _ _ _ _ _ Hr HW). split; [done|by eapply table_step_weaken].
  - unfold CreateJoinToken, InsertJoinToken in Hr. destruct (jd_tokens d !! digest) eqn:D; [done|]. injection Hr as <- <-.
    split; [|done]. destruct HW as [R W O]. split; cbn in *; [done| |].
    + intros dg k m. destruct (decide (dg = digest)) as [->|Hd]; [rewrite lookup_insert_eq; by intros [= <-]|].
      rewrite lookup_insert_ne by done. apply W.
    + intros d1 d2 k1 k2 m. destruct (decide (d1 = digest)) as [->|H1]; [rewrite lookup_insert_eq; by intros [= <-]|].
      destruct (decide (d2 = digest)) as [->|H2]; [rewrite lookup_insert_eq; by intros _ [= <-]|].
      rewrite !lookup_insert_ne by done. apply O.
  - by eapply Enroll_ok.
  - by eapply RemoveMachine_ok.
  - unfold UpdateMachineWorkspaces in Hr. destruct (LockAccountMachine _ _ _ _) as [[id h]|]; [|done].
    destruct (_ == _); [done|]. destruct (MachineNameConflict _ _ _ _ _); [done|].
    destruct (if bool_decide _ then _ else _); [|done].
    destruct (asked _) as [cs1| | |]; try done. injection Hr as <- <-. split; [|done]. by apply (world_ok_hosts d cs).
Qed.

Lemma empty_ok : world_ok empty_world.
Proof. split; cbn; intros *; by rewrite lookup_empty. Qed.

Lemma run_ok w w' : run w w' -> world_ok w -> world_ok w' /\ table_step false (w_hosts w) (w_hosts w').
Proof.
  intros Hr HW. induction Hr as [|w1 w2 _ IH Hs]; [done|]. destruct IH as [HW1 H1]. destruct (step_ok _ _ Hs HW1) as [HW2 H2].
  split; [done|by etrans].
Qed.

Lemma life_reachable_ok w : reachable w -> world_ok w.
Proof. intros Hr. apply (run_ok _ _ Hr empty_ok). Qed.

End Life.
