(* ===== verification/LifecycleProps.v ===== *)
(** The theorems about host lifecycles: the invariants of every reachable
    table, what no later transaction undoes, that a join token works once, and
    that the passes which touch hosts are sequences of the transactions. *)

From S2P Require Import Prelude Capacity Catalog GoLib Billing Policy Placement Offers Cover Fleet Hosts HostSql Cooldowns Sessions Actuator Machines Reconcile Launcher HostProps Lifecycle.

(** ** Sequences of statements *)

Inductive stmts (cs : containers) (t : hosts) : hosts -> Prop :=
  | stmts_refl : stmts cs t t
  | stmts_snoc t1 t2 : stmts cs t t1 -> stmt cs t1 t2 -> stmts cs t t2.

#[export] Instance stmts_preorder cs : PreOrder (stmts cs).
Proof. split; [by constructor|]. intros x y z Hxy Hyz. induction Hyz; [done|by eapply stmts_snoc]. Qed.

Lemma stmts_one cs t t' : stmt cs t t' -> stmts cs t t'.
Proof. intros. by eapply stmts_snoc; [constructor|]. Qed.

(** ** The actuator *)

Section Actuator.
Context (answer : ec2_call -> option aws_error) (owner : HostRow -> string) (cooldown clock now : Z) (cs : containers).

Lemma move_and_cool_stmts f h refusal s :
  stmts cs (ac_hosts s) (f (ac_hosts s)).1 ->
  stmts cs (ac_hosts s) (ac_hosts (move_and_cool owner cooldown now f h refusal s)).
Proof. intros Hf. unfold move_and_cool. destruct (_ =? 0); [done|]. by destruct s. Qed.

(** A step of the pass that writes hosts by statements only. *)
Definition by_stmts (s : act_state) (o : outcome) : Prop := stmts cs (ac_hosts s) (ac_hosts o.1).

(** Recording calls and counts leaves the table alone. *)
Lemma after_call s s0 o : by_stmts s o -> ac_hosts s = ac_hosts s0 -> by_stmts s0 o.
Proof. unfold by_stmts. by intros ? <-. Qed.

Lemma recordStop_stmts id h ev forced s : by_stmts s (recordStop now id h ev forced s).
Proof. apply stmts_one. destruct s. apply st_RecordStopRequested. Qed.
Lemma recordStart_stmts id h s : by_stmts s (recordStart id h s).
Proof. apply stmts_one. destruct s. apply st_RecordStartRequested. Qed.
Lemma retireReserve_stmts id h message refusal s : by_stmts s (retireReserve owner cooldown now id h message refusal s).
Proof. apply move_and_cool_stmts, stmts_one, st_RetireReserve. Qed.
Lemma refuseStart_stmts id h e s : by_stmts s (refuseStart owner cooldown now id h e s).
Proof. apply move_and_cool_stmts, stmts_one, st_ReturnStartToReserve. Qed.
Lemma stopRefused_stmts id h e s : by_stmts s (stopRefused owner cooldown now id h e s).
Proof. unfold stopRefused. destruct (transientAWS e); [by unfold by_stmts|]. apply retireReserve_stmts. Qed.
Lemma reserveStopped_stmts id h reason active s : by_stmts s (reserveStopped now id h reason active s).
Proof. unfold reserveStopped. destruct active; apply stmts_one; destruct s; [apply st_RecordInstanceStopped|apply st_MarkReserveStopped]. Qed.

Lemma stop_plainly_stmts id h s : by_stmts s (stop_plainly answer owner cooldown now id h s).
Proof.
  unfold stop_plainly, call. destruct (answer _); [eapply after_call; [apply stopRefused_stmts|by destruct s]|].
  eapply after_call; [apply recordStop_stmts|by destruct s].
Qed.
Lemma stop_hibernating_stmts id h i s : by_stmts s (stop_hibernating answer owner cooldown clock now id h i s).
Proof.
  unfold stop_hibernating, call. destruct (match in_LaunchTime i with Some _ => _ | None => _ end); [by unfold by_stmts|].
  destruct (answer _); [|eapply after_call; [apply recordStop_stmts|by destruct s]].
  destruct (_ && _); [apply stmts_one; destruct s; apply st_RecordHibernateRefused|]. eapply after_call; [apply stop_plainly_stmts|by destruct s].
Qed.

Lemma stopReserve_stmts id h i active s : by_stmts s (stopReserve answer owner cooldown clock now id h i active s).
Proof.
  unfold stopReserve. destruct (_ && _); [apply retireReserve_stmts|]. destruct (in_State i); try by unfold by_stmts.
  - destruct (match hr_stop_requested_at h with Some _ => _ | None => _ end); [by unfold by_stmts|].
    destruct (hibernates_on_stop h i); [apply stop_hibernating_stmts|apply stop_plainly_stmts].
  - destruct (hr_stop_requested_at h); [|apply recordStop_stmts]. cbv zeta. destruct (_ <=? _); [by unfold by_stmts|].
    unfold call. destruct (answer _); [eapply after_call; [apply stopRefused_stmts|by destruct s]|].
    eapply after_call; [apply recordStop_stmts|by destruct s].
  - destruct (is_set (hr_stop_requested_at h)); [apply reserveStopped_stmts|].
    unfold by_stmts. etrans; [|apply reserveStopped_stmts]. apply recordStop_stmts.
Qed.

Lemma startReserve_stmts id h i active s : by_stmts s (startReserve answer owner cooldown now id h i active s).
Proof.
  unfold startReserve, call. destruct (in_State i); try apply recordStart_stmts; try by unfold by_stmts.
  destruct active; [by unfold by_stmts|]. destruct (answer _) as [e|].
  - destruct (capacityRefusal _); [eapply after_call; [apply refuseStart_stmts|by destruct s]|]. by unfold by_stmts.
  - eapply after_call; [apply recordStart_stmts|by destruct s].
Qed.

Lemma terminateHost_stmts id h i s : by_stmts s (terminateHost answer now id h i s).
Proof.
  unfold terminateHost, call. destruct i as [i|]; [destruct (ending i)|]; try (apply stmts_one; destruct s; apply st_RecordTerminateRequested).
  destruct (answer _); [by unfold by_stmts|]. apply stmts_one. destruct s. apply st_RecordTerminateRequested.
Qed.

Lemma actuate_host_stmts s claim :
  stmts cs (ac_hosts s) (ac_hosts (actuate_host answer owner cooldown clock now s claim)).
Proof.
  destruct claim as [[[id h] i] active]. unfold actuate_host.
  destruct (hr_phase h), i; try done; auto using stopReserve_stmts, startReserve_stmts, terminateHost_stmts.
  all: first [apply stopReserve_stmts | apply startReserve_stmts | apply terminateHost_stmts].
Qed.
End Actuator.

Lemma views_stmts answer owner cooldown clock now cs views s :
  stmts cs (ac_hosts s) (ac_hosts (fold_left (actuate_host answer owner cooldown clock now) views s)).
Proof.
  revert s. induction views as [|v views IH]; intros s; [done|]. cbn [fold_left]. etrans; [|apply IH]. apply actuate_host_stmts.
Qed.

Lemma Actuate_stmts answer owner cooldown locked token describe active reached arrange clock now cs s :
  stmts cs (ac_hosts s) (ac_hosts (Actuate answer owner cooldown locked token describe active reached arrange clock now cs s)).
Proof.
  unfold Actuate. destruct (ClaimHostActions _ _ _ _ _ _ _ _ _ _) as [t claimed] eqn:C.
  eapply stmts_snoc; [|apply st_ReleaseHostActions]. etrans; [|apply views_stmts]. apply stmts_one.
  change t with (t, claimed).1. rewrite <- C. apply st_ClaimHostActions.
Qed.

(** ** The launcher *)

Section Launcher.
Context (uuid_text : uuid -> string) (p : Policy) (cooldown : Z) (account_of : HostRow -> string + account) (published : bool)
  (nodeImage : string -> bool -> option string) (share : HostRow -> option aws_error)
  (run : HostRow -> Subnet -> aws_error + launched) (waiters : HostID -> list HostWaitersRow)
  (poolInputs : HostRow -> option OfferInputs) (now : Z) (cs : containers).

Lemma failLaunch_stmts id h failure message cool s :
  stmts cs (ls_hosts s) (ls_hosts (failLaunch uuid_text cooldown now id h failure message cool s)).
Proof.
  unfold failLaunch. destruct cool, (hr_replaces h); destruct s.
  1: eapply stmts_snoc; [|apply st_RefuseRightsize]. all: apply stmts_one, st_FailLaunch.
Qed.

Lemma launchHost_stmts id h s :
  stmts cs (ls_hosts s) (ls_hosts (launchHost uuid_text cooldown account_of published nodeImage share run now id h s).1).
Proof.
  unfold launchHost, no_start. destruct (launchTarget account_of h) as [e|[a n]]; [apply failLaunch_stmts|].
  destruct published; [|apply failLaunch_stmts]. cbn [negb]. destruct (subnetFor n (hr_zone h) id) as [subnet|]; [|apply failLaunch_stmts].
  destruct (nodeImage _ _); [|apply failLaunch_stmts]. destruct (share h) as [e|].
  { destruct (_ || _); [apply failLaunch_stmts|done]. }
  set (s' := s <| ls_runs := _ |>). assert (E : ls_hosts s' = ls_hosts s) by by destruct s. rewrite <- E. clearbody s'.
  destruct (run h subnet) as [e|i].
  - cbv zeta. destruct (capacityRefusal _); [done|]. destruct (_ || _); [apply failLaunch_stmts|].
    destruct (_ >=? _); [apply failLaunch_stmts|done].
  - unfold record_launch, no_start. cbv zeta. destruct (_ =? 0); destruct s'; apply stmts_one, st_RecordLaunch.
Qed.

Lemma movePool_stmts id h next message cool lease s :
  stmts cs (ls_hosts s) (ls_hosts (movePool uuid_text cooldown now id h next message cool lease s).1).
Proof. unfold movePool. destruct s. apply stmts_one, st_MoveLaunchPool. Qed.

Lemma launchPools_stmts left id h i s :
  stmts cs (ls_hosts s)
    (ls_hosts (launchPools uuid_text p cooldown account_of published nodeImage share run waiters poolInputs now left id h i s).1).
Proof.
  revert h i s. induction left as [|left IH]; intros h i s; [done|]. cbn [launchPools].
  pose proof (launchHost_stmts id h s) as HL. destruct (launchHost _ _ _ _ _ _ _ _ _ _ s) as [s1 [started|refusal]]; [done|].
  cbv zeta. destruct (is_set (hr_replaces h)); [etrans; [exact HL|apply failLaunch_stmts]|].
  destruct (match i with Some _ => _ | None => _ end) as [i1|].
  2: { destruct (is_set (hr_market h)); [exact HL|etrans; [exact HL|apply failLaunch_stmts]]. }
  destruct (nextPool _ _ _ _ _ _ _ _ _ _) as [i2 [next|]]; [|etrans; [exact HL|apply failLaunch_stmts]].
  pose proof (movePool_stmts id h next (refusal_message refusal) (refusal_cooldown refusal)
    (if (left =? 0)%nat then 0 else actionLease) s1) as HM.
  destruct (movePool _ _ _ _ _ _ _ _ _ _) as [s2 moved]. destruct (_ || _); [by etrans|].
  etrans; [exact HL|]. etrans; [exact HM|apply IH].
Qed.
End Launcher.

(** ** Reconciling *)

Section Reconcile.
Context `{!HostContainers}.

Lemma end_with_fst id f why d d' : end_with id f why d = Ret d' -> d'.1 = d.1 \/ d'.1 = (f d.1).1.
Proof.
  unfold end_with. destruct (_ =? 0); [intros [= <-]; by left|]. destruct (asked _) as [cs| | |]; try done. intros [= <-]. by right.
Qed.

Lemma transition_ret from to (u : unit) : transition from to = Ret u -> CanBecome from to = true.
Proof. unfold transition. by destruct (CanBecome from to). Qed.

Lemma reconcile_host_stmts boot clock now o id h d d' :
  aws_ids [id] d.1 -> reconcile_host boot clock now o id h d = Ret d' -> stmts d.2 d.1 d'.1.
Proof.
  intros HA. unfold reconcile_host. destruct (is_set (hr_instance_id h)); cbn [negb]; [|by intros [= <-]]. destruct (judge boot clock h o) as [|failure message|failure message|].
  - by intros [= <-].
  - unfold hostGone. destruct failure as [f|]; destruct (transition _ _) eqn:T; cbn [go_bind]; try done; apply transition_ret in T.
    + intros [-> | ->]%end_with_fst; [done|].
      by apply stmts_one, st_FailHost.
    + intros [-> | ->]%end_with_fst; [done|].
      by apply stmts_one, st_MarkHostDeleted.
  - unfold endHost. destruct (transition _ _) eqn:T; cbn [go_bind]; try done. apply transition_ret in T. intros [-> | ->]%end_with_fst; [done|].
    by apply stmts_one, st_EndHost.
  - destruct (changePhase _ _ _ _ _) as [[t b]| | |] eqn:C; cbn [go_bind]; try done. intros [= <-]. by eapply stmts_one, st_boot.
Qed.
End Reconcile.

(** ** Tokens *)

(** A used token stays used. *)
Definition spent (digest : string) (ts : tokens) : Prop := exists k, ts !! digest = Some k /\ is_set (jt_used k) = true.

Lemma spent_invalid digest now ts : spent digest ts -> UseJoinToken digest now ts = None.
Proof. intros (k & E & U). unfold UseJoinToken. by rewrite E, U. Qed.

Lemma spent_insert digest d ttl host now ts r :
  spent digest ts -> InsertJoinToken d ttl host now ts = Some r -> spent digest r.1.
Proof.
  intros (k & E & U). unfold InsertJoinToken. destruct (ts !! d) eqn:D; [done|]. intros [= <-]. exists k. split; [|done]. cbn [fst].
  rewrite lookup_insert_ne; congruence.
Qed.

Lemma spent_revoke digest host now ts : spent digest ts -> spent digest (RevokeMachineJoinTokens host now ts).
Proof.
  intros (k & E & U). unfold spent, RevokeMachineJoinTokens. rewrite lookup_fmap, E. simpl. rewrite U, andb_false_r. eauto.
Qed.

Lemma spent_use digest d now ts r : spent digest ts -> UseJoinToken d now ts = Some r -> spent digest r.1.
Proof.
  intros Hs. unfold UseJoinToken. destruct (ts !! d) as [k|] eqn:D; [|done]. destruct (_ && _); [|done]. intros [= <-]. cbn [fst].
  destruct (decide (digest = d)) as [->|Hd]; [eexists; by rewrite lookup_insert_eq|].
  destruct Hs as (k0 & E & U). exists k0. by rewrite lookup_insert_ne.
Qed.

Section Life.
Context (workspace_name : uuid -> string) (id_text : HostID -> string) (pinned : list uuid -> string -> list string).
Context `{!HostContainers}.
Abbreviation step := (step workspace_name id_text pinned).
Abbreviation run := (run workspace_name id_text pinned).
Abbreviation reachable := (reachable workspace_name id_text pinned).

Lemma step_spent digest w w' : step w w' -> spent digest (jd_tokens (w_join w)) -> spent digest (jd_tokens (w_join w')).
Proof.
  destruct 1 as [| |d cs req dg fresh now d' r Hr|d cs dg ttl now d' e Hr|d cs token dg r fresh now d' id Hr
    |d cs account machine now d' cs' Hr|d cs account machine ws d' cs' Hr]; intros Hs; cbn [w_join] in *; try done.
  - unfold CreateMachineJoin in Hr. destruct (MachineNameConflict _ _ _ _ _); [done|].
    destruct (join_host _ _ _ _ _ _) as [[t host]| | |]; try done. cbn [go_bind] in Hr.
    destruct (InsertJoinToken _ _ _ _ _) as [[ts e]|] eqn:I; [|done]. injection Hr as <- _.
    by apply (spent_insert _ _ _ _ _ _ _ (spent_revoke _ host now _ Hs) I).
  - unfold CreateJoinToken in Hr. destruct (InsertJoinToken _ _ _ _ _) as [[ts e']|] eqn:I; [|done]. injection Hr as <- _.
    by apply (spent_insert _ _ _ _ _ _ _ Hs I).
  - unfold Enroll in Hr. destruct (UseJoinToken _ _ _) as [[ts host]|] eqn:U; [|done].
    assert (d' = mkJoin (jd_hosts d') ts (jd_serves d)) as ->.
    { destruct host; [|destruct (InsertPlatformHost _ _ _ _ _); by simplify_eq/=].
      destruct (enrolled_as r) as [[? ?] ?]. destruct (_ =? 1); by simplify_eq/=. }
    by apply (spent_use _ _ _ _ _ Hs U).
  - unfold RemoveMachine in Hr. destruct (LockAccountMachine _ _ _ _) as [[id h]|]; [|done]. destruct (_ == _); [by injection Hr as <- _|].
    destruct (asked _) as [cs1| | |]; try done. injection Hr as <- _. by apply spent_revoke.
  - unfold UpdateMachineWorkspaces in Hr. destruct (LockAccountMachine _ _ _ _) as [[id h]|]; [|done]. destruct (_ == _); [done|].
    destruct (MachineNameConflict _ _ _ _ _); [done|]. destruct (if bool_decide _ then _ else _); [|done].
    destruct (asked _) as [cs1| | |]; try done. by injection Hr as <- _.
Qed.

Lemma run_spent digest w w' : run w w' -> spent digest (jd_tokens (w_join w)) -> spent digest (jd_tokens (w_join w')).
Proof. intros Hr Hs. induction Hr; [done|by eapply step_spent]. Qed.

Lemma Enroll_spends token digest r fresh now d d' id : Enroll token digest r fresh now d = Ret (d', id) -> spent token (jd_tokens d').
Proof.
  unfold Enroll. destruct (UseJoinToken token now (jd_tokens d)) as [[ts host]|] eqn:U; [|done].
  assert (Hs : spent token ts).
  { unfold UseJoinToken in U. destruct (jd_tokens d !! token) eqn:D; [|done]. destruct (_ && _); [|done]. injection U as <- _.
    eexists. by rewrite lookup_insert_eq. }
  destruct host as [host|].
  - destruct (enrolled_as r) as [[? ?] ?]. destruct (_ =? 1); [|done]. by intros [= <- _].
  - destruct (InsertPlatformHost _ _ _ _ _); [|done]. by intros [= <- _].
Qed.

(** ** What no later transaction undoes *)

Lemma chain_final l r : chain (l ++ PhaseDeleted :: r) = true -> l = [].
Proof.
  induction l as [|p l IH]; [done|]. destruct l as [|q l].
  - cbn [app chain]. intros [Hc _]%andb_true_iff. by destruct p.
  - cbn [app]. intros [_ Hc]%andb_true_iff. by discriminate (IH Hc).
Qed.

Lemma deleted_final h h' w : row_ok h -> good w h h' -> hr_phase h = PhaseDeleted -> hr_phase h' = PhaseDeleted.
Proof.
  intros Hok Hg HP. pose proof (ok_history _ Hok) as Hh. pose proof (ok_history _ (g_ok _ _ _ Hg Hok)) as Hh'.
  destruct (g_history _ _ _ Hg) as [l El]. rewrite El in Hh'. rewrite HP in Hh. destruct (hr_history h) as [|q r]; [done|].
  apply andb_true_iff in Hh as [Hq _]. apply bool_decide_eq_true in Hq as ->.
  assert (l = []) as ->.
  { apply (chain_final l r). destruct l; by apply andb_true_iff in Hh' as [_ ?]. }
  apply andb_true_iff in Hh' as [Hq _]. by apply bool_decide_eq_true in Hq.
Qed.

Lemma stmts_run d cs t' : stmts cs (jd_hosts d) t' -> run (mkWorld d cs) (mkWorld (with_hosts d t') cs).
Proof.
  induction 1 as [|t1 t2 _ IH Hs]; [destruct d; constructor|]. eapply run_step; [exact IH|].
  apply (step_stmt _ _ _ (with_hosts d t1) cs t2 Hs).
Qed.

(** ** The theorems *)

(** C3: in every table the program's transactions can reach, every host row is
    well formed. A host that is terminating or deleted is retired, and a
    retired one is terminating, deleted or failed; a launched cloud host
    records its instance; one in a reserve phase has a reserve mode; a cloud
    host keeps facts of a stop only while it stops, sleeps, resumes, ends or
    has failed; it has no token before it enrolls; a machine belongs to no
    cloud connection and carries no actuator's claim; and the phases a host
    went through follow [CanBecome] and end in the one it has. *)
Theorem hosts_follow_lifecycle w id h : reachable w -> w_hosts w !! id = Some h -> row_ok h.
Proof. intros Hw. apply (wo_rows _ (life_reachable_ok _ _ _ _ Hw)). Qed.

(** C25: whatever transactions follow, a host stays in the table, its
    phase history only grows, its kind and provider never change, a deleted
    host stays deleted, and a cloud host that is terminating, deleted or failed
    never leaves those phases. *)
Theorem ended_hosts_stay_ended w w' id h :
  reachable w -> run w w' -> w_hosts w !! id = Some h ->
  exists h', w_hosts w' !! id = Some h' /\ hr_history h `suffix_of` hr_history h' /\
    hr_kind h' = hr_kind h /\ hr_provider h' = hr_provider h /\
    (hr_phase h = PhaseDeleted -> hr_phase h' = PhaseDeleted) /\
    (hr_provider h = ProviderAWS -> over_phase (hr_phase h) = true -> over_phase (hr_phase h') = true).
Proof.
  intros Hw Hr E. pose proof (life_reachable_ok _ _ _ _ Hw) as HW. destruct (run_ok _ _ _ _ _ Hr HW) as [_ Hs]. specialize (Hs id).
  rewrite E in Hs. unfold row_step in Hs. destruct (w_hosts w' !! id) as [h'|]; [|done]. pose proof (wo_rows _ HW _ _ E) as Hok.
  exists h'. split_and!; [done|apply Hs..| |by apply Hs]. by eapply deleted_final.
Qed.

(** C34: a join token enrolls once. When [Enroll] accepts a machine's token,
    the machine was waiting for its join, so it moves as the lifecycle allows
    although the statement also admits failed machines; and whatever
    transactions follow, the token is refused. *)
Theorem join_token_works_once w token digest r fresh now d' id :
  reachable w -> Enroll token digest r fresh now (w_join w) = Ret (d', id) ->
  (forall k host, jd_tokens (w_join w) !! token = Some k -> jt_host k = Some host ->
     exists h h', w_hosts w !! host = Some h /\ hr_phase h = PhaseRequested /\ jd_hosts d' !! host = Some h' /\ id = host /\
       hr_phase h' = (enrolled_as r).1.1) /\
  forall w2 digest2 r2 fresh2 now2, run (mkWorld d' (w_containers w)) w2 ->
    Enroll token digest2 r2 fresh2 now2 (w_join w2) = Err ErrInvalidJoinToken.
Proof.
  intros Hw HE. split.
  - intros k host Hk Hh. unfold Enroll in HE. destruct (UseJoinToken token now (jd_tokens (w_join w))) as [[ts host0]|] eqn:U; [|done].
    destruct (use_unused _ _ _ _ _ U) as (k0 & Hk0 & Hu & Hh0 & _). rewrite Hk in Hk0. injection Hk0 as <-. rewrite Hh in Hh0. subst host0.
    destruct (wo_waits _ (life_reachable_ok _ _ _ _ Hw) _ _ _ Hk Hu Hh) as (h & E & HK & HP).
    destruct (enrolled_as r) as [[phase message] failure]. destruct (Z.eqb_spec (EnrollMachine host digest phase message failure r now (jd_hosts (w_join w))).2 1) as [N|]; [|done].
    injection HE as <- <-. exists h. unfold EnrollMachine, w_hosts in *.
    assert (G : can_enroll_machine h = true).
    { unfold update_one in N. rewrite E in N. by destruct (can_enroll_machine h). }
    erewrite update_one_at by done. cbn [fst jd_hosts]. rewrite lookup_insert_eq. eexists. split_and!; try done.
  - intros w2 digest2 r2 fresh2 now2 Hr. unfold Enroll. rewrite spent_invalid; [done|].
    apply (run_spent _ _ _ Hr). by eapply Enroll_spends.
Qed.

(** the actuator's pass, a launch with its walk over pools, and the
    reconciliation of a cloud host, whatever EC2 answers and however old the
    rows they read, write hosts only by transactions of the lifecycle. *)
Theorem passes_are_transactions d cs :
  (forall answer owner cooldown locked token describe active reached arrange clock now s, ac_hosts s = jd_hosts d ->
     run (mkWorld d cs) (mkWorld (with_hosts d (ac_hosts
       (Actuate answer owner cooldown locked token describe active reached arrange clock now cs s))) cs)) /\
  (forall uuid_text p cooldown account_of published nodeImage share start waiters poolInputs now id h s, ls_hosts s = jd_hosts d ->
     run (mkWorld d cs) (mkWorld (with_hosts d (ls_hosts
       (launch uuid_text p cooldown account_of published nodeImage share start waiters poolInputs now id h s).1)) cs)) /\
  (forall boot clock now o id h tables', aws_ids [id] (jd_hosts d) -> reconcile_host boot clock now o id h (jd_hosts d, cs) = Ret tables' ->
     run (mkWorld d cs) (mkWorld (with_hosts d tables'.1) tables'.2)).
Proof.
  split_and!.
  - intros * E. apply stmts_run. rewrite <- E. apply Actuate_stmts.
  - intros * E. apply stmts_run. rewrite <- E. apply launchPools_stmts.
  - intros * HA HR. eapply run_step; [|apply step_containers]. apply stmts_run. apply (reconcile_host_stmts boot clock now o id h (jd_hosts d, cs) tables' HA HR).
Qed.

End Life.

(** ** Witnesses *)

(** A machine joins and fails its checks, joins again and passes; a cloud host
    is requested and removed before it launches. *)
Definition quiet_containers : HostContainers := {|
  StopHostContainers := fun _ _ => Some;
  DrainHostContainers := fun _ => Some;
  DrainHostWorkspaces := fun _ _ => Some;
  WakeReleasesOnHosts := fun _ => Some;
  EvictContainers := fun _ => Some |}.
Definition no_text : Z -> string := fun _ => "".
Definition none_pinned : list uuid -> string -> list string := fun _ _ => [].
Definition sample_report (ok : bool) : HostReport :=
  mkReport "box" (mkCapacity 4000 8000000000 "" 0 4) "arm64" [mkCheck "kvm" ok "no /dev/kvm" "error" ""].
Definition sample_request : requestedHost :=
  mkRequested 7 KindPlatform None 4000 8000000000 "" 0 "us-east-1" "" "" "m6a.large" MarketOnDemand 90000 None None None None None false.

Definition outcome_db {A} (r : go host_error (join_db * A)) : join_db := match r with Ret (d, _) => d | _ => mkJoin ∅ ∅ ∅ end.
Definition joined1 : join_db := outcome_db (CreateMachineJoin no_text (mkMJ 1 "box" [5] [] 0) "k1" 3 0 (w_join empty_world)).
Definition failed1 : join_db := outcome_db (Enroll "k1" "host1" (sample_report false) 0 10 joined1).
Definition joined2 : join_db := outcome_db (CreateMachineJoin no_text (mkMJ 1 "box" [5] [] 0) "k2" 4 20 failed1).
Definition bought : join_db := with_hosts joined2 (default ∅ (InsertRequestedHosts no_text [sample_request] 30 (jd_hosts joined2))).
Definition retired : join_db := with_hosts bought (RetireReserves [7] 40 ∅ (jd_hosts bought)).1.

Lemma joined2_reachable : @reachable no_text no_text none_pinned quiet_containers (mkWorld joined2 ∅).
Proof.
  apply (run_step _ _ _ _ (mkWorld failed1 ∅)). 2: by eapply (step_join _ _ _ failed1 ∅ (mkMJ 1 "box" [5] [] 0) "k2" 4 20); vm_compute.
  apply (run_step _ _ _ _ (mkWorld joined1 ∅)). 2: by eapply (step_enroll _ _ _ joined1 ∅ "k1" "host1" (sample_report false) 0 10); vm_compute.
  apply (run_step _ _ _ _ empty_world); [constructor|].
  by eapply (step_join _ _ _ (w_join empty_world) ∅ (mkMJ 1 "box" [5] [] 0) "k1" 3 0); vm_compute.
Qed.

Lemma retires_requested : @run no_text no_text none_pinned quiet_containers (mkWorld joined2 ∅) (mkWorld retired ∅).
Proof.
  apply (run_step _ _ _ _ (mkWorld bought ∅)).
  - apply (run_step _ _ _ _ (mkWorld joined2 ∅)); [constructor|]. apply step_stmt.
    by apply (st_InsertRequestedHosts _ _ no_text [sample_request] 30); [repeat constructor|vm_compute].
  - apply step_stmt, st_RetireReserves. intros id h ->%list_elem_of_singleton. vm_compute. by intros [= <-].
Qed.

Lemma hosts_follow_lifecycle_witness :
  hr_history <$> jd_hosts joined2 !! 3 = Some [PhaseRequested; PhaseFailed; PhaseRequested] /\
  forall h, jd_hosts joined2 !! 3 = Some h -> row_ok h.
Proof.
  split; [by vm_compute|]. intros h. apply (@hosts_follow_lifecycle no_text no_text none_pinned quiet_containers (mkWorld joined2 ∅)).
  exact joined2_reachable.
Defined.

Lemma ended_hosts_stay_ended_witness :
  exists h h', jd_hosts joined2 !! 3 = Some h /\ jd_hosts retired !! 3 = Some h' /\ hr_history h `suffix_of` hr_history h'.
Proof.
  destruct (jd_hosts joined2 !! 3) as [h|] eqn:E; [|by vm_compute in E].
  destruct (@ended_hosts_stay_ended no_text no_text none_pinned quiet_containers (mkWorld joined2 ∅) (mkWorld retired ∅) 3 h
    joined2_reachable retires_requested E) as (h' & E' & Hs & _). by exists h, h'.
Defined.

Lemma join_token_works_once_witness :
  exists d', Enroll "k2" "host2" (sample_report true) 0 50 joined2 = Ret (d', 3) /\
    Enroll "k2" "host3" (sample_report true) 0 60 d' = Err ErrInvalidJoinToken /\ hr_phase <$> jd_hosts d' !! 3 = Some PhaseJoining.
Proof.
  destruct (Enroll "k2" "host2" (sample_report true) 0 50 joined2) as [[d' id]| | |] eqn:E; try by vm_compute in E.
  assert (id = 3 /\ hr_phase <$> jd_hosts d' !! 3 = Some PhaseJoining) as [-> HP] by (vm_compute in E; by injection E as <- <-).
  exists d'. split_and!; [done| |done].
  destruct (@join_token_works_once no_text no_text none_pinned quiet_containers (mkWorld joined2 ∅) _ _ _ _ _ _ _ joined2_reachable E)
    as [_ H2].
  apply (H2 (mkWorld d' ∅)). constructor.
Defined.

Definition idle_pass : act_state := mkAct (jd_hosts bought) (mkCoolDB ∅ ∅) [] 0 0 0.

Lemma passes_are_transactions_witness :
  exists t, @run no_text no_text none_pinned quiet_containers (mkWorld bought ∅) (mkWorld (with_hosts bought t) ∅).
Proof.
  eexists. exact (proj1 (@passes_are_transactions no_text no_text none_pinned quiet_containers bought ∅)
    (fun _ => None) (fun _ => "platform") 60 (fun _ => false) (fun id => id) (fun _ => None) (fun _ => false) (fun _ => true)
    (fun l => l) 100 100 idle_pass eq_refl).
Defined.
