(* ===== verification/ReserveProps.v ===== *)
(** Theorems about the reserve and the calls the fleet makes to EC2: when a
    host stops into the reserve and what it comes back as, which calls the
    actuator makes, how a Spot request ends, and how long refused pools cool. *)

From S2P Require Import Prelude Capacity Catalog GoLib Billing Policy Placement Offers Cover Fleet Hosts HostSql Cooldowns Sessions Actuator Machines Reconcile Launcher HostProps.

(** ** Opening a session *)

(** The phase a session leaves its host in: a host that joins or comes back
    serves, or prepares to stop while it has a reserve mode; any other stays. *)
Definition session_phase (h : HostRow) (open : SessionOpen) : Phase :=
  if comes_back h (resumeOutcome h open) || (hr_phase h == PhaseJoining)
  then if is_set (hr_reserve_mode h) then PhasePreparing else PhaseReady
  else hr_phase h.

Lemma state_kept h open now : hr_state (settled_row h open now) = hr_state h.
Proof.
  unfold settled_row, rejoined, record_outcome, move. destruct (resumeOutcome h open), (comes_back h _), (is_set (hr_reserve_mode h)), (_ == PhaseJoining);
    cbn [orb andb]; try done; destruct (_ == PhaseResuming); by destruct h.
Qed.

Lemma session_phase_opened h open now : hr_phase (opened_row (settled_row h open now) open now) = session_phase h open.
Proof.
  unfold session_phase, settled_row. cbv zeta.
  assert (HO : forall x, hr_phase (opened_row x open now) = if hr_phase x == PhaseJoining then PhaseReady else hr_phase x).
  { intros x. unfold opened_row. destruct (bool_decide_reflect (hr_phase x = PhaseJoining)); by destruct x. }
  rewrite HO. clear HO.
  assert (HR : hr_phase (rejoined h (resumeOutcome h open) now) = PhaseJoining).
  { unfold rejoined, move. cbv zeta. by rewrite phase_end_stop, phase_to. }
  destruct (comes_back h (resumeOutcome h open)), (is_set (hr_reserve_mode h)); cbn [orb andb].
  - unfold move. by rewrite phase_to.
  - by rewrite HR.
  - destruct (bool_decide_reflect (hr_phase h = PhaseJoining)) as [E|E].
    + cbn [andb]. unfold move. by rewrite phase_to.
    + cbn [andb]. by rewrite bool_decide_eq_false_2.
  - rewrite andb_false_r. by destruct (bool_decide_reflect (hr_phase h = PhaseJoining)).
Qed.

(** ** Calls *)

(** What the actuator may ask of EC2 for a claimed row and the instance EC2
    lists. [CallTerminate] is the whole of [terminate], whose requests to EC2
    [endSpotRequest_ends] is about. An instance without a launch time hibernates:
    the code then has no start to wait after. *)
Definition allowed (clock : Z) (h : HostRow) (i : option Instance) (active : bool) (id : HostID) (c : ec2_call) : bool :=
  match c, i with
  | CallStart k, Some i => (k =? id) && (hr_phase h == PhaseResuming) && (in_State i == InstanceStopped) && negb active
  | CallTerminate k, Some i => (k =? id) && (hr_phase h == PhaseTerminating) && negb (ending i)
  | CallStop k kind, Some i =>
      (k =? id) && (hr_phase h == PhaseStopping) && (negb (in_Spot i) || is_set (hr_spot_request_id h)) &&
      match kind with
      | StopForced =>
          (in_State i == InstanceStopping) &&
          match hr_stop_requested_at h with
          | Some first => time_sub clock (default first (hr_force_stop_at h)) >? providerDeadline
          | None => false
          end
      | StopHibernate =>
          (in_State i == InstanceRunning) && hibernates_on_stop h i &&
          match in_LaunchTime i with Some l => time_sub clock l >=? hibernateAfterStart | None => true end
      | StopPlain => in_State i == InstanceRunning
      end &&
      match kind, hr_stop_requested_at h with
      | StopForced, _ | _, None => true
      | _, Some first => time_sub clock first >=? stopSettle
      end
  | _, None => false
  end.

Section Calls.
Context (answer : ec2_call -> option aws_error) (owner : HostRow -> string) (cooldown clock now : Z).

(** The calls an action adds. *)
Definition adds (s : act_state) (o : outcome) (calls : list ec2_call) : Prop := ac_calls o.1 = ac_calls s ++ calls.

Lemma recordStop_adds id h ev forced s : adds s (recordStop now id h ev forced s) [].
Proof. destruct s. unfold adds. by rewrite app_nil_r. Qed.
Lemma recordStart_adds id h s : adds s (recordStart id h s) [].
Proof. destruct s. unfold adds. by rewrite app_nil_r. Qed.
Lemma move_and_cool_calls f h refusal s : ac_calls (move_and_cool owner cooldown now f h refusal s) = ac_calls s.
Proof. unfold move_and_cool. destruct (_ =? 0); by destruct s. Qed.
Lemma retireReserve_adds id h message refusal s : adds s (retireReserve owner cooldown now id h message refusal s) [].
Proof. etrans; [exact (move_and_cool_calls _ _ _ _)|by rewrite app_nil_r]. Qed.
Lemma refuseStart_adds id h e s : adds s (refuseStart owner cooldown now id h e s) [].
Proof. etrans; [exact (move_and_cool_calls _ _ _ _)|by rewrite app_nil_r]. Qed.
Lemma stopRefused_adds id h e s : adds s (stopRefused owner cooldown now id h e s) [].
Proof. unfold stopRefused. destruct (transientAWS e); [unfold adds; by rewrite app_nil_r|]. apply retireReserve_adds. Qed.
Lemma reserveStopped_adds id h reason active s : adds s (reserveStopped now id h reason active s) [].
Proof. unfold adds, reserveStopped. rewrite app_nil_r. destruct active; by destruct s. Qed.

(** After a call, the actions that make none. *)
Lemma adds_call s o c l : adds (s <| ac_calls := ac_calls s ++ [c] |>) o l -> adds s o (c :: l).
Proof. unfold adds. intros ->. exact (eq_sym (app_assoc (ac_calls s) [c] l)). Qed.
Lemma adds_count_stopped s o n l : adds (s <| ac_Stopped := n |>) o l -> adds s o l.
Proof. by destruct s. Qed.
Lemma adds_count_started s o n l : adds (s <| ac_Started := n |>) o l -> adds s o l.
Proof. by destruct s. Qed.

Lemma stop_plainly_adds id h s : adds s (stop_plainly answer owner cooldown now id h s) [CallStop id StopPlain].
Proof.
  unfold stop_plainly, call. destruct (answer _); apply adds_call; [apply stopRefused_adds|].
  eapply adds_count_stopped, recordStop_adds.
Qed.

Lemma stop_hibernating_adds id h i s :
  exists calls, adds s (stop_hibernating answer owner cooldown clock now id h i s) calls /\
    (calls = [] \/ match in_LaunchTime i with Some l => time_sub clock l <? hibernateAfterStart | None => false end = false /\
       (calls = [CallStop id StopHibernate] \/
        calls = [CallStop id StopHibernate; CallStop id StopPlain] /\ is_Some (answer (CallStop id StopHibernate)))).
Proof.
  unfold stop_hibernating, call. destruct (match in_LaunchTime i with Some _ => _ | None => _ end) eqn:EL.
  { exists []. split; [unfold adds; by rewrite app_nil_r|by left]. }
  destruct (answer (CallStop id StopHibernate)) as [e|]; [destruct (_ && _)|].
  - exists [CallStop id StopHibernate]. split; [|auto]. apply adds_call. exact (eq_sym (app_nil_r _)).
  - exists [CallStop id StopHibernate; CallStop id StopPlain]. split; [|eauto 6]. apply adds_call, stop_plainly_adds.
  - exists [CallStop id StopHibernate]. split; [|auto]. eapply adds_call, adds_count_stopped, recordStop_adds.
Qed.

(** A host's calls: one at most, or a plain stop after EC2 refused to
    hibernate it. *)
Definition few_calls (id : HostID) (calls : list ec2_call) : Prop :=
  (length calls <= 1)%nat \/ calls = [CallStop id StopHibernate; CallStop id StopPlain] /\ is_Some (answer (CallStop id StopHibernate)).

(** What [actuate_host] promises of its calls: each is allowed for its host, at
    most two are made, and a second only after EC2 refused to hibernate. *)
Definition calls_ok (h : HostRow) (i : option Instance) (active : bool) (id : HostID) (s : act_state) (o : outcome) : Prop :=
  exists calls, adds s o calls /\ forallb (allowed clock h i active id) calls = true /\ few_calls id calls.

Lemma no_call h i active id s o : adds s o [] -> calls_ok h i active id s o.
Proof. intros Ho. exists []. split_and!; [done|done|left; simpl; lia]. Qed.

Lemma one_call c h i active id s o : adds s o [c] -> allowed clock h i active id c = true -> calls_ok h i active id s o.
Proof. intros Ho Hc. exists [c]. split_and!; [done|simpl; by rewrite Hc|left; simpl; lia]. Qed.

Lemma no_change s e : adds s (s, e) [].
Proof. exact (eq_sym (app_nil_r _)). Qed.

Lemma stopReserve_calls id h i active s :
  hr_phase h = PhaseStopping -> calls_ok h (Some i) active id s (stopReserve answer owner cooldown clock now id h i active s).
Proof.
  intros EP. unfold stopReserve. destruct (in_Spot i && negb (is_set (hr_spot_request_id h))) eqn:ES; [apply no_call, retireReserve_adds|].
  assert (HS : negb (in_Spot i) || is_set (hr_spot_request_id h) = true) by (by destruct (in_Spot i), (hr_spot_request_id h)).
  destruct (in_State i) eqn:EI; try apply no_call, no_change.
  - destruct (match hr_stop_requested_at h with Some _ => _ | None => _ end) eqn:ER; [apply no_call, no_change|].
    assert (HT : match hr_stop_requested_at h with Some first => time_sub clock first >=? stopSettle | None => true end = true)
      by (destruct (hr_stop_requested_at h); [lia|done]).
    assert (HP : allowed clock h (Some i) active id (CallStop id StopPlain) = true).
    { unfold allowed. rewrite Z.eqb_refl, EP, EI, HS. done. }
    destruct (hibernates_on_stop h i) eqn:EH; [|by eapply one_call; [apply stop_plainly_adds|]].
    destruct (stop_hibernating_adds id h i s) as (calls & Ha & [-> | [HL Hc]]); [by apply no_call|].
    assert (HH : allowed clock h (Some i) active id (CallStop id StopHibernate) = true).
    { unfold allowed. rewrite Z.eqb_refl, EP, EI, HS, EH, HT. destruct (in_LaunchTime i); [|done]. rewrite !bool_decide_eq_true_2 by done. cbn [andb]. rewrite andb_true_r. lia. }
    exists calls. split; [done|]. destruct Hc as [-> | [-> Hr]]; cbn [forallb]; rewrite HH; [split; [done|left; simpl; lia]|].
    rewrite HP. split; [done|by right].
  - destruct (hr_stop_requested_at h) as [first|] eqn:ER; [|apply no_call, recordStop_adds]. cbv zeta.
    destruct (_ <=? providerDeadline) eqn:ED; [apply no_call, no_change|].
    assert (HF : allowed clock h (Some i) active id (CallStop id StopForced) = true).
    { unfold allowed. rewrite Z.eqb_refl, EP, EI, HS, ER, !bool_decide_eq_true_2 by done. cbn [andb]. rewrite andb_true_r. lia. }
    unfold call. destruct (answer _); eapply one_call; try exact HF; apply adds_call; [apply stopRefused_adds|].
    eapply adds_count_stopped, recordStop_adds.
  - apply no_call. destruct (is_set (hr_stop_requested_at h)); [apply reserveStopped_adds|].
    unfold adds. etrans; [apply reserveStopped_adds|]. rewrite app_nil_r. apply recordStop_adds.
Qed.

Lemma startReserve_calls id h i active s :
  hr_phase h = PhaseResuming -> calls_ok h (Some i) active id s (startReserve answer owner cooldown now id h i active s).
Proof.
  intros EP. unfold startReserve. destruct (in_State i) eqn:EI; try apply no_call, recordStart_adds; try apply no_call, no_change.
  destruct active; [apply no_call, no_change|].
  assert (HA : allowed clock h (Some i) false id (CallStart id) = true) by (unfold allowed; by rewrite Z.eqb_refl, EP, EI).
  unfold call. destruct (answer _) as [e|]; eapply one_call; try exact HA; apply adds_call.
  - destruct (capacityRefusal _); [apply refuseStart_adds|apply no_change].
  - eapply adds_count_started, recordStart_adds.
Qed.

Lemma terminateHost_calls id h i active s :
  hr_phase h = PhaseTerminating -> calls_ok h i active id s (terminateHost answer now id h i s).
Proof.
  intros EP. unfold terminateHost. destruct i as [i|]; [|apply no_call; exact (eq_sym (app_nil_r _))].
  destruct (ending i) eqn:EE; [apply no_call; exact (eq_sym (app_nil_r _))|].
  assert (HA : allowed clock h (Some i) active id (CallTerminate id) = true) by (unfold allowed; by rewrite Z.eqb_refl, EP, EE).
  unfold call. destruct (answer _) as [e|]; eapply one_call; try exact HA; apply adds_call; [apply no_change|exact (eq_sym (app_nil_r _))].
Qed.

Lemma actuate_host_calls id h i active s :
  exists calls, ac_calls (actuate_host answer owner cooldown clock now s (id, h, i, active)) = ac_calls s ++ calls /\
    forallb (allowed clock h i active id) calls = true /\ few_calls id calls.
Proof.
  unfold actuate_host. destruct (hr_phase h) eqn:EP, i as [i|]; try (apply no_call, no_change);
    by first [apply stopReserve_calls | apply startReserve_calls | apply terminateHost_calls].
Qed.
End Calls.

(** ** Theorems: calls *)

(** What [Actuate] hands to [actuate_host] for a claimed row. *)
Definition view (describe : string -> option Instance) (held_active : string -> bool) (c : HostID * HostRow) :
    HostID * HostRow * option Instance * bool :=
  let i := hr_instance_id c.2 ≫= describe in (c.1, c.2, i, request_active held_active c.2 i).

(** The calls made for a claimed row: each allowed, and few. *)
Definition row_calls answer describe held_active clock (e : HostID * HostRow * list ec2_call) : Prop :=
  let '(id, h, calls) := e in
  let i := hr_instance_id h ≫= describe in
  forallb (allowed clock h i (request_active held_active h i) id) calls = true /\ few_calls answer id calls.

Lemma views_calls answer owner cooldown describe held_active clock now l s :
  exists log, map fst log = l /\ Forall (row_calls answer describe held_active clock) log /\
    ac_calls (fold_left (actuate_host answer owner cooldown clock now) (map (view describe held_active) l) s) = ac_calls s ++ flat_map snd log.
Proof.
  revert s. induction l as [|[id h] l IH]; intros s.
  - exists []. split_and!; [done|done|exact (eq_sym (app_nil_r _))].
  - cbn [map fold_left]. unfold view at 2. cbn [fst snd]. cbv zeta.
    destruct (actuate_host_calls answer owner cooldown clock now id h (hr_instance_id h ≫= describe)
      (request_active held_active h (hr_instance_id h ≫= describe)) s) as (c1 & E1 & A1 & L1).
    destruct (IH (actuate_host answer owner cooldown clock now s (id, h, hr_instance_id h ≫= describe,
      request_active held_active h (hr_instance_id h ≫= describe)))) as (log & EL & A2 & E2).
    exists ((id, h, c1) :: log). split_and!; [by rewrite <- EL|by constructor|].
    rewrite E2, E1. cbn [flat_map snd]. by rewrite <- app_assoc.
Qed.

Lemma length_omap_bound {A B} (f : A -> option B) l : (length (omap f l) <= length l)%nat.
Proof. induction l as [|x l IH]; [done|]. cbn. destruct (f x); cbn; lia. Qed.

Lemma claimed_bound phases lease settle grace batch locked token now cs t :
  (length (ClaimHostActions phases lease settle grace batch locked token now cs t).2 <= batch)%nat.
Proof. unfold ClaimHostActions. cbn [snd]. etrans; [apply length_omap_bound|]. rewrite length_map, length_take. lia. Qed.

(** The rows a pass claims are of distinct hosts. *)
Lemma claimed_distinct phases lease settle grace batch locked token now cs t :
  NoDup (map fst (ClaimHostActions phases lease settle grace batch locked token now cs t).2).
Proof.
  unfold ClaimHostActions. cbn [snd]. set (t' := update_where _ _ t). set (due := List.filter _ _).
  assert (Hsub : forall l, sublist (map fst (omap (fun id => (fun h => (id, h)) <$> t' !! id) l)) l).
  { induction l as [|id l IH]; [constructor|]. cbn. destruct (t' !! id); cbn; by constructor. }
  eapply sublist_NoDup; [|apply Hsub]. eapply sublist_NoDup; [|apply sublist_map, sublist_take].
  rewrite (Permutation_map fst (sort_by_perm claim_order _)). eapply sublist_NoDup; [apply (NoDup_fst_map_to_list t)|].
  apply sublist_map, sublist_List_filter.
Qed.


(** ** Theorems: sessions *)

Lemma epoch_kept h open now : hr_session_epoch (settled_row h open now) = hr_session_epoch h.
Proof.
  unfold settled_row, rejoined, record_outcome, move. destruct (resumeOutcome h open), (comes_back h _), (is_set (hr_reserve_mode h)), (_ == PhaseJoining);
    cbn [orb andb]; try done; destruct (_ == PhaseResuming); by destruct h.
Qed.

(** Coming back ends the facts of the stop, and settles what its image was. *)
Lemma settled_facts h open now :
  let h' := settled_row h open now in
  comes_back h (resumeOutcome h open) = true ->
  stop_facts h' = false /\
  match resumeOutcome h open with
  | Some o => hr_last_resume_outcome h' = Some o /\ hr_image_evidence h' = settled_evidence o (hr_image_evidence h) /\
              hr_sleep_attempt_id h' = None
  | None => hr_image_evidence h' = hr_image_evidence h
  end.
Proof.
  unfold settled_row, rejoined, record_outcome, move. destruct (resumeOutcome h open) as [o|]; intros ->; cbn [orb];
    destruct (is_set (hr_reserve_mode h)), (hr_phase h == PhaseResuming); by destruct h.
Qed.

Lemma opened_facts h open now :
  let h' := opened_row h open now in
  hr_state h' = HostOnline /\ hr_session_epoch h' = hr_session_epoch h + 1 /\ hr_boot_id h' = so_BootID open /\
  stop_facts h' = stop_facts h /\ hr_last_resume_outcome h' = hr_last_resume_outcome h /\
  hr_image_evidence h' = hr_image_evidence h /\ hr_sleep_attempt_id h' = hr_sleep_attempt_id h.
Proof. unfold opened_row. destruct (hr_phase h == PhaseJoining); by destruct h. Qed.

Lemma OpenSession_retired id open now t h :
  t !! id = Some h -> hr_state h = HostRetired -> OpenSession id open now t = Err ErrUnknownHost.
Proof.
  intros E R. unfold OpenSession. rewrite (settleSession_at _ _ _ _ h) by done. cbn [go_bind]. unfold OpenHostSession, update_one.
  rewrite lookup_insert_eq, state_kept, bool_decide_eq_true_2 by done. done.
Qed.

Lemma OpenSession_online id open now t h :
  t !! id = Some h -> hr_state h <> HostRetired ->
  OpenSession id open now t = Ret (<[id := opened_row (settled_row h open now) open now]> t, hr_session_epoch h + 1).
Proof.
  intros E R. destruct (OpenSession id open now t) as [[t' epoch]|e| |] eqn:O.
  - destruct (OpenSession_at _ _ _ _ _ _ _ E O) as (_ & -> & ->). by rewrite epoch_kept.
  - exfalso. unfold OpenSession in O. rewrite (settleSession_at _ _ _ _ h) in O by done. cbn [go_bind] in O. unfold OpenHostSession in O.
    erewrite update_one_at in O; [|apply lookup_insert_eq|by rewrite state_kept, bool_decide_eq_false_2]. cbn [fst snd] in O.
    by rewrite lookup_insert_eq in O.
  - exfalso. unfold OpenSession in O. rewrite (settleSession_at _ _ _ _ h) in O by done. cbn [go_bind] in O. by case_match.
  - exfalso. unfold OpenSession in O. rewrite (settleSession_at _ _ _ _ h) in O by done. cbn [go_bind] in O. by case_match.
Qed.

(** opening a session fails only for a retired host and leaves the
    table then as it was; otherwise the host is online under the next epoch. A
    host that joins or comes back from the reserve becomes ready, or prepares
    to stop again while it has a reserve mode, and a host that comes back has
    the facts of its stop cleared and what its image was settled; any other
    host keeps its phase. *)
Theorem OpenSession_spec id open now t h :
  t !! id = Some h ->
  if hr_state h == HostRetired then OpenSession id open now t = Err ErrUnknownHost
  else exists h', OpenSession id open now t = Ret (<[id := h']> t, hr_session_epoch h + 1) /\
    hr_phase h' = session_phase h open /\ hr_state h' = HostOnline /\ hr_session_epoch h' = hr_session_epoch h + 1 /\
    hr_boot_id h' = so_BootID open /\
    (comes_back h (resumeOutcome h open) = true -> stop_facts h' = false /\
     match resumeOutcome h open with
     | Some o => hr_last_resume_outcome h' = Some o /\ hr_image_evidence h' = settled_evidence o (hr_image_evidence h) /\
                 hr_sleep_attempt_id h' = None
     | None => hr_image_evidence h' = hr_image_evidence h
     end).
Proof.
  intros E. case_bool_decide as R; [by eapply OpenSession_retired|].
  destruct (opened_facts (settled_row h open now) open now) as (F1 & F2 & F3 & F4 & F5 & F6 & F7).
  eexists. split; [by apply OpenSession_online|]. rewrite session_phase_opened, F1, F2, F3, F4, F5, F6, F7, epoch_kept.
  split_and!; try done. apply settled_facts.
Qed.

(** ** Theorems: answers *)

Lemma live_none id cs : (LiveHostContainers id cs >? 0) = runs_some cs id.
Proof.
  unfold LiveHostContainers, runs_some, some_container. induction (map_to_list cs) as [|c l IH]; [done|]. cbn [List.filter existsb].
  destruct ((c_host c.2 == Some id) && (c_state c.2 != ContainerStopped)); [|exact IH]. cbn [length orb]. by apply Z.gtb_lt.
Qed.

(** What [unproven] wants of a host before it stops. *)
Definition stop_proven (answer : ReserveAnswer) (h : HostRow) (current : bool) (id : HostID) (cs : containers) : Prop :=
  ra_Refused answer = "" /\ current = true /\ (hr_gpu_count h <= 0 \/ hr_gpu_count h <= ra_GPUs answer) /\
  failedChecks (hr_preflight h) = [] /\ runs_some cs id = false.

Lemma unproven_empty answer h current id cs :
  unproven answer h current (LiveHostContainers id cs) = "" <-> stop_proven answer h current id cs.
Proof.
  unfold unproven, stop_proven. rewrite live_none. destruct (bool_decide_reflect (ra_Refused answer = "")) as [R|R]; cbn [negb].
  2: { split; [done|]. by intros [? _]. }
  destruct current; cbn [negb]; [|split; [done|by intros (_ & ? & _)]].
  destruct ((hr_gpu_count h >? 0) && (ra_GPUs answer <? hr_gpu_count h)) eqn:G; [split; [done|]; intros (_ & _ & ? & _); lia|].
  destruct (bool_decide_reflect (failedChecks (hr_preflight h) = [])) as [F|F]; cbn [negb]; [|split; [done|by intros (_ & _ & _ & ? & _)]].
  destruct (runs_some cs id); [split; [done|by intros (_ & _ & _ & _ & ?)]|]. split; [|done]. intros _. split_and!; try done. lia.
Qed.

(** the verdict on an agent's answer to a request to stop, on every
    branch: an agent that updates is asked again later, an answer to another
    request or from another boot changes nothing, a host that could not prove
    the stop serves again, and a host stops exactly when the agent agreed and
    runs the target build, its GPUs and checks are proven and no container is
    left on it, with the attempt and boot recorded. *)
Theorem AnswerReserve_spec id answer current now cs t h :
  t !! id = Some h ->
  exists t' v, AnswerReserve id answer current now cs t = Ret (t', v) /\
    match v with
    | ReserveDeferred => t' = t /\ ra_Updating answer = true
    | ReserveStale => t' = t /\ ra_Updating answer = false /\ answers h answer = false
    | ReserveReturned => exists h', t' = <[id := h']> t /\ hr_phase h' = PhaseReady /\ answers h answer = true /\
        ra_Updating answer = false /\ ~ stop_proven answer h current id cs
    | ReserveStopping => exists h', t' = <[id := h']> t /\ hr_phase h' = PhaseStopping /\ answers h answer = true /\
        ra_Updating answer = false /\ stop_proven answer h current id cs /\ hr_sleep_attempt_id h' = Some (ra_Attempt answer) /\
        hr_sleep_boot_id h' = Some (ra_BootID answer) /\ hr_reserve_mode h' = hr_reserve_mode h
    end.
Proof.
  intros E. unfold AnswerReserve. destruct (ra_Updating answer); [by eexists _, _|]. rewrite E.
  destruct (answers h answer) eqn:A; cbn [negb]; [|by eexists _, _]. cbv zeta.
  assert (HP : hr_phase h = PhasePreparing) by (unfold answers in A; by read_guard).
  destruct (bool_decide_reflect (unproven answer h current (LiveHostContainers id cs) = "")) as [U|U]; cbn [negb transition CanBecome go_bind].
  - unfold AcceptReserveStop. erewrite update_one_at; [|exact E|by rewrite HP, bool_decide_eq_true_2, Z.eqb_refl].
    eexists _, _. split; [done|]. cbn [snd fst]. eexists. split_and!; try done; by apply unproven_empty.
  - unfold SetHostPhase. erewrite update_one_at; [|exact E|by rewrite HP, bool_decide_eq_true_2].
    eexists _, _. split; [done|]. cbn [snd fst]. eexists. split_and!; try done; by rewrite <- unproven_empty.
Qed.

(** ** Theorems: stopping and coming back *)

(** The row an accepted stop leaves. *)
Definition accepted_row (h : HostRow) (answer : ReserveAnswer) (now : Z) : HostRow :=
  (to_phase PhaseStopping (phase_Message PhaseStopping) now h) <| hr_sleep_attempt_id := Some (ra_Attempt answer) |>
    <| hr_sleep_boot_id := Some (ra_BootID answer) |> <| hr_prepared_agent_version := Some (ra_AgentVersion answer) |>
    <| hr_gpu_proven := (hr_gpu_count h >? 0) |>.

Lemma AnswerReserve_stopping id answer current now cs t h t1 :
  t !! id = Some h -> AnswerReserve id answer current now cs t = Ret (t1, ReserveStopping) ->
  t1 = <[id := accepted_row h answer now]> t /\ hr_phase h = PhasePreparing.
Proof.
  intros E. unfold AnswerReserve. destruct (ra_Updating answer); [done|]. rewrite E.
  destruct (answers h answer) eqn:A; cbn [negb]; [|done]. cbv zeta.
  assert (HP : hr_phase h = PhasePreparing) by (unfold answers in A; by read_guard).
  destruct (bool_decide_reflect (unproven answer h current (LiveHostContainers id cs) = "")) as [U|U]; cbn [negb transition CanBecome go_bind]; [|done].
  unfold AcceptReserveStop. erewrite update_one_at; [|exact E|by rewrite HP, bool_decide_eq_true_2, Z.eqb_refl]. cbn [fst snd].
  by intros [= <-].
Qed.

(** What the agent of a host that was told to sleep reports when it opens its
    next session: another boot, the memory it slept with, or no sleep yet. *)
Definition woke (answer : ReserveAnswer) (open : SessionOpen) : option ResumeOutcome :=
  if so_BootID open != ra_BootID answer then Some ResumeColdBoot
  else if so_SleptSeconds open >? 0 then Some ResumeMemoryRestored else None.

(** What the actuator and the planner write of a host while it sleeps: the
    stop asked of EC2 and its end, a resume somebody asks for, the start, and a
    start EC2 refuses. *)
Inductive sleeps (t : hosts) : hosts -> Prop :=
  | sleeps_on : sleeps t t
  | sleeps_stop id token ev forced now t' : sleeps t t' -> sleeps t (RecordStopRequested id token ev forced now t').1
  | sleeps_refused id token now t' : sleeps t t' -> sleeps t (RecordHibernateRefused id token now t').1
  | sleeps_instance id token ev now t' : sleeps t t' -> sleeps t (RecordInstanceStopped id token ev now t').1
  | sleeps_stopped id token ev now t' : sleeps t t' -> sleeps t (MarkReserveStopped id token ev now t').1
  | sleeps_resume ids now t' : sleeps t t' -> sleeps t (ResumeReserves ids now t').1
  | sleeps_start id token t' : sleeps t t' -> sleeps t (RecordStartRequested id token t').1
  | sleeps_back id token message now t' : sleeps t t' -> sleeps t (ReturnStartToReserve id token message now t').1.

(** A sleeping host: it keeps the attempt and the boot it agreed to stop in,
    and its reserve mode until a resume is asked for. *)
Record slept (answer : ReserveAnswer) (epoch : Z) (h : HostRow) : Prop := {
  sp_attempt : hr_sleep_attempt_id h = Some (ra_Attempt answer);
  sp_boot : hr_sleep_boot_id h = Some (ra_BootID answer);
  sp_state : hr_state h <> HostRetired;
  sp_epoch : hr_session_epoch h = epoch;
  sp_phase : In (hr_phase h) [PhaseStopping; PhaseStopped] /\ is_set (hr_reserve_mode h) = true \/
             hr_phase h = PhaseResuming /\ hr_reserve_mode h = None }.

Lemma slept_one answer epoch k guard f t id h :
  (forall x, guard x = true -> slept answer epoch x -> slept answer epoch (f x)) ->
  t !! id = Some h -> slept answer epoch h -> exists h', (update_one k guard f t).1 !! id = Some h' /\ slept answer epoch h'.
Proof.
  intros Hf E Hs. unfold update_one. destruct (t !! k) as [x|] eqn:Ek; [|by exists h]. destruct (guard x) eqn:G; [|by exists h]. cbn [fst].
  destruct (decide (k = id)) as [->|Hn]; [|rewrite lookup_insert_ne by done; by exists h]. rewrite lookup_insert_eq.
  rewrite E in Ek. injection Ek as <-. eauto.
Qed.

Lemma sleeps_slept answer epoch t t' id h : sleeps t t' -> t !! id = Some h -> slept answer epoch h ->
  exists h', t' !! id = Some h' /\ slept answer epoch h'.
Proof.
  intros Hs E Hh. induction Hs as [|k token ev forced now t' _ IH|k token now t' _ IH|k token ev now t' _ IH|k token ev now t' _ IH|ids now t' _ IH
    |k token t' _ IH|k token message now t' _ IH]; [by exists h|..]; destruct IH as (h1 & E1 & H1).
  5: { unfold ResumeReserves. cbn [fst]. rewrite update_where_lookup, E1. eexists. split; [done|]. cbn.
       destruct (can_resume ids id h1); [|done]. destruct H1 as [S1 S2 S3 S4 S5]. split; try done. right. done. }
  all: eapply slept_one; [|exact E1|exact H1]; intros x G [S1 S2 S3 S4 S5]; unfold held in G; read_guard; split; try done; cbn;
    try (left; split; [auto|done]; fail); try (by destruct S5 as [?|[? _]]; [left|congruence]).
  left. split; [right; by left|]. destruct S5 as [[_ ?]|[? _]]; [done|congruence].
Qed.


(** ** Theorems: Spot requests *)

Lemma end_request_calls described cancel r c : In c (end_request described cancel r).1 -> c = CallCancel r.
Proof. unfold end_request. repeat case_match; cbn; intuition congruence. Qed.

(** A request EC2 could launch from is cancelled first. *)
Lemma end_request_cancels described cancel r st :
  (end_request described cancel r).2 = true -> described = inr [(r, st)] -> can_launch st = true ->
  In (CallCancel r) (end_request described cancel r).1 /\ (cancel = None \/ exists e, cancel = Some e /\ awsCode e = request_missing).
Proof.
  intros He -> Hl. unfold end_request in *. rewrite bool_decide_eq_true_2 in * by done. cbn [negb] in *. rewrite Hl in *. cbn [fst snd] in *.
  split; [by left|]. destruct cancel as [e|]; [|by left]. right. exists e. split; [done|]. by apply bool_decide_eq_true in He.
Qed.

(** The live instances of a listing. *)
Definition live_of (l : list spot_instance) : list string := map (fun i => i.1.1) (List.filter (fun i => live_state i.2) l).

Lemma end_instances_cases listed terminated r :
  let '(calls, ok) := end_instances listed terminated r in
  calls = [] /\ ok = false \/
  exists l, listed = inr l /\ existsb (fun i => i.1.2 != r) l = false /\ (live_of l = [] /\ calls = [] \/ calls = [CallEnd (live_of l)]).
Proof.
  unfold end_instances. destruct listed as [e|l]; [by left|]. destruct (existsb (fun i : string * string * option InstanceState => i.1.2 != r) l) eqn:EX; [by left|]. fold (live_of l).
  destruct (live_of l) eqn:EL; right; exists l; split_and!; auto. rewrite EL. by right.
Qed.

Lemma in_live i l : In i (live_of l) <-> exists r st, In (i, r, st) l /\ live_state st = true.
Proof.
  unfold live_of. rewrite in_map_iff. setoid_rewrite filter_In. split.
  - intros ([[i' r] st] & <- & Hin & Hl). eauto.
  - intros (r & st & Hin & Hl). by exists (i, r, st).
Qed.

Lemma of_request l r i r' st : existsb (fun i : spot_instance => i.1.2 != r) l = false -> In (i, r', st) l -> r' = r.
Proof.
  intros Hx Hin. destruct (bool_decide_reflect (r' = r)) as [|Hn]; [done|]. rewrite <- not_true_iff_false in Hx. exfalso. apply Hx.
  apply existsb_exists. exists (i, r', st). split; [done|]. cbn. by rewrite bool_decide_eq_false_2.
Qed.

(** ending a persistent Spot request cancels only that request and
    ends only live instances EC2 lists for it; a request that could still
    launch is cancelled, and the cancel accepted, before any instance ends and
    before the call reports success; and on success every live instance of the
    request was told to end. *)
Theorem endSpotRequest_ends described cancel listed terminated r :
  let '(calls, ok) := endSpotRequest described cancel listed terminated r in
  (forall r', In (CallCancel r') calls -> r' = r) /\
  (forall l i, In (CallEnd l) calls -> In i l -> exists L st, listed = inr L /\ In (i, r, st) L /\ live_state st = true) /\
  (forall l st, In (CallEnd l) calls \/ ok = true -> described = inr [(r, st)] -> can_launch st = true ->
     In (CallCancel r) calls /\ (cancel = None \/ exists e, cancel = Some e /\ awsCode e = request_missing)) /\
  (ok = true -> exists L, listed = inr L /\
     forall i r' st, In (i, r', st) L -> r' = r /\ (live_state st = true -> exists l, In (CallEnd l) calls /\ In i l)).
Proof.
  unfold endSpotRequest. pose proof (end_request_calls described cancel r) as HC. pose proof (end_request_cancels described cancel r) as HD.
  destruct (end_request described cancel r) as [calls ended]. cbn [fst snd] in *. destruct ended.
  2: { split_and!; try done; [intros r' Hr|intros l i Hl|intros l st [Hl|Hl]]; try done; apply HC in Hr || apply HC in Hl; congruence. }
  pose proof (end_instances_cases listed terminated r) as HI. destruct (end_instances listed terminated r) as [more ok].
  assert (HE : forall l, In (CallEnd l) (calls ++ more) -> In (CallEnd l) more).
  { intros l [Hl|Hl]%in_app_or; [apply HC in Hl; congruence|done]. }
  split_and!.
  - intros r' [Hr|Hr]%in_app_or; [apply HC in Hr; congruence|].
    destruct HI as [[-> _]|(l & _ & _ & [[_ ->]| ->])]; cbn in Hr; intuition congruence.
  - intros l i Hl Hi. apply HE in Hl. destruct HI as [[-> _]|(L & -> & HX & [[_ ->]| ->])]; [done|done|].
    destruct Hl as [[= <-]|[]]. apply in_live in Hi as (r' & st & Hin & Hs). exists L, st. split_and!; try done.
    by rewrite <- (of_request _ _ _ _ _ HX Hin).
  - intros l st _ Hd Hs. destruct (HD st eq_refl Hd Hs) as [? ?]. split; [|done]. apply in_or_app. by left.
  - intros ->. destruct HI as [[_ ?]|(L & -> & HX & Hm)]; [done|]. exists L. split; [done|]. intros i r' st Hin.
    split; [by eapply of_request|]. intros Hs. assert (Hi : In i (live_of L)) by (apply in_live; eauto).
    destruct Hm as [[Hm _]| ->]; [by rewrite Hm in Hi|]. exists (live_of L). split; [|done]. apply in_or_app. right. by left.
Qed.

(** ** Witnesses *)

(** A host that prepares to hibernate, with its agent's answer. *)
Definition preparing_host : HostRow :=
  (new_row KindPlatform ProviderAWS "n" PhasePreparing "" 1000) <| hr_reserve_mode := Some ReserveHibernate |>
    <| hr_instance_id := Some "i-1" |> <| hr_hibernation_configured := true |> <| hr_token_hash := Some "t" |> <| hr_boot_id := "boot-1" |>
    <| hr_session_epoch := 3 |> <| hr_history := [PhasePreparing; PhaseJoining; PhaseProvisioning; PhaseRequested] |>.
Definition yes_answer : ReserveAnswer := mkRA (reserveRequestID 1000) 77 "boot-1" "v1" 0 "" false.
Definition wake_open : SessionOpen := mkOpen "boot-1" (mkCapacity 4000 8000 "" 0 4) "v1" true None (Some 77) 60 "".
Definition preparing_table : hosts := {[ 5 := preparing_host ]}.

Lemma preparing_ok : row_ok preparing_host.
Proof. split; done. Qed.

Lemma OpenSession_spec_witness :
  exists h', OpenSession 5 wake_open 2000 preparing_table = Ret (<[5 := h']> preparing_table, 4) /\ hr_phase h' = PhasePreparing.
Proof.
  pose proof (OpenSession_spec 5 wake_open 2000 preparing_table preparing_host (lookup_insert_eq _ _ _)) as Hs.
  destruct Hs as (h' & E & HP & _). exists h'. exact (conj E HP).
Defined.

Lemma AnswerReserve_spec_witness :
  exists t', AnswerReserve 5 yes_answer true 2000 ∅ preparing_table = Ret (t', ReserveStopping) /\
    exists h', t' = <[5 := h']> preparing_table /\ hr_phase h' = PhaseStopping /\ hr_sleep_attempt_id h' = Some 77.
Proof.
  destruct (AnswerReserve_spec 5 yes_answer true 2000 ∅ preparing_table preparing_host (lookup_insert_eq _ _ _)) as (t' & v & E & Hv).
  assert (v = ReserveStopping) as ->.
  { assert (EV : match AnswerReserve 5 yes_answer true 2000 ∅ preparing_table with Ret (_, v) => v | _ => ReserveStale end = ReserveStopping)
      by by vm_compute. by rewrite E in EV. }
  exists t'. split; [exact E|]. destruct Hv as (h' & Et & HP & _ & _ & _ & HA & _).
  exists h'. exact (conj Et (conj HP HA)).
Defined.

(** The host resumes unasked, or once it stopped and a resume was asked. *)
Definition slept_table (t : hosts) : hosts := (RecordInstanceStopped 5 9 EvidenceUnknown 5000 t).1.
Definition asked_table (t : hosts) : hosts := (ResumeReserves [5] 8000 (slept_table t)).1.


(** A stopping host whose instance runs. *)
Definition stopping_table : hosts :=
  {[ 5 := preparing_host <| hr_phase := PhaseStopping |> <| hr_history := [PhaseStopping; PhasePreparing] |> ]}.
Definition running_instance : Instance := mkInstance InstanceRunning false true (Some 0) "".
Definition stopping_pass : act_state := mkAct stopping_table (mkCoolDB ∅ ∅) [] 0 0 0.
Definition run_stopping (calls : ec2_call -> option aws_error) : act_state :=
  Actuate calls (fun _ => "platform") minute (fun _ => false) (fun id => id) (fun _ => Some running_instance) (fun _ => false)
    (fun _ => true) (fun l => l) (10 * minute) (10 * minute) ∅ stopping_pass.

