(* ===== verification/CooldownProps.v ===== *)
(** Theorems about cooldowns: however refusals and launches follow each other,
    a refused pool cools for at least the capacity cooldown and never for more
    than [cooldownGrowth] of them, and the pools of one walk end together. *)

From S2P Require Import Prelude Capacity Catalog Billing Policy Placement Offers Cover Fleet Hosts HostSql Cooldowns Sessions Machines.

Section Cooling.
Context (s : Z).

(** What a refusal or a launch does to cooldowns at [now]. *)
Inductive cool_step (now : Z) (d : cool_db) : cool_db -> Prop :=
  | cool_pool owner id h message cool : cool_step now d (coolPool owner id h message cool s now d)
  | cool_refusal owner h refusal : cool_step now d (coolRefusal owner h refusal s now d)
  | cool_launch owner region zone type market :
      cool_step now d (mkCoolDB (ClearCooldown owner region zone type market (cl_pools d)) (cl_quotas d)).

(** Any sequence of them as time goes on. *)
Inductive cool_run : Z -> cool_db -> Prop :=
  | cool_start now : cool_run now (mkCoolDB ∅ ∅)
  | cool_wait now now' d : cool_run now d -> now <= now' -> cool_run now' d
  | cool_then now d d' : cool_run now d -> cool_step now d d' -> cool_run now d'.

(** One row's bounds. *)
Definition row_bounds (now : Z) (r : CooldownRow) : Prop := s <= cd_for r <= cooldownGrowth * s /\ cd_until r <= now + cooldownGrowth * s.
Definition bounds (now : Z) (t : cooldowns_table) : Prop := map_Forall (fun _ r => row_bounds now r) t.

(** The row [InsertCooldown] leaves for a pool. *)
Definition cooled_row (old : option CooldownRow) (max : Z) (reason : string) (walk : option HostID) (now : Z) : CooldownRow :=
  match old with
  | None => mkCool (now + s) s reason walk
  | Some r =>
      if cd_until r >? now then mkCool (cd_until r) (cd_for r) reason (match cd_walk r with Some w => Some w | None => walk end)
      else mkCool (now + next_cooldown (cd_for r) s max) (next_cooldown (cd_for r) s max) reason walk
  end.

Lemma InsertCooldown_eq key max reason walk now t :
  InsertCooldown key s max reason walk now t = <[key := cooled_row (t !! key) max reason walk now]> t.
Proof. unfold InsertCooldown, cooled_row. destruct (t !! key) as [r|]; [|done]. by destruct (cd_until r >? now). Qed.

Context (Hs : 0 <= s).

Lemma cooled_row_bounds old reason walk now :
  (forall r, old = Some r -> row_bounds now r) -> row_bounds now (cooled_row old (cooldownGrowth * s) reason walk now).
Proof.
  unfold row_bounds, cooled_row, next_cooldown, cooldownGrowth. intros Ho. destruct old as [r|]; [|cbn; lia].
  specialize (Ho r eq_refl). destruct (cd_until r >? now); cbn; lia.
Qed.

Lemma insert_bounds key reason walk now t :
  bounds now t -> bounds now (InsertCooldown key s (cooldownGrowth * s) reason walk now t).
Proof.
  intros Hb. rewrite InsertCooldown_eq. apply map_Forall_insert_2; [|done]. apply cooled_row_bounds. intros r. apply Hb.
Qed.

(** The end of a walk is the end of one of its pools, and none ends later. *)
Lemma walk_until_max walk t :
  match walk_until walk t with
  | Some u => (exists k r, t !! k = Some r /\ cd_walk r = Some walk /\ cd_until r = u) /\
              forall k r, t !! k = Some r -> cd_walk r = Some walk -> cd_until r <= u
  | None => forall k r, t !! k = Some r -> cd_walk r <> Some walk
  end.
Proof.
  unfold walk_until. apply (map_fold_weak_ind (fun acc t => match acc with
    | Some u => (exists k r, t !! k = Some r /\ cd_walk r = Some walk /\ cd_until r = u) /\
                forall k r, t !! k = Some r -> cd_walk r = Some walk -> cd_until r <= u
    | None => forall k r, t !! k = Some r -> cd_walk r <> Some walk
    end)).
  { intros k r. by rewrite lookup_empty. }
  intros k r t' acc Hk IH.
  assert (Hold : forall k' r', t' !! k' = Some r' -> <[k:=r]> t' !! k' = Some r').
  { intros k' r' E. rewrite lookup_insert_ne; congruence. }
  assert (Hnew : forall k' r', <[k:=r]> t' !! k' = Some r' -> r' = r \/ t' !! k' = Some r').
  { intros k' r'. destruct (decide (k = k')) as [<-|Hn]; [rewrite lookup_insert_eq|rewrite lookup_insert_ne by done]; intros; simplify_eq; auto. }
  case_bool_decide as W; destruct acc as [u|].
  - destruct IH as [(k1 & r1 & E1 & W1 & U1) Hall]. split.
    + destruct (Z.le_ge_cases u (cd_until r)).
      * exists k, r. rewrite lookup_insert_eq. split_and!; [done..|lia].
      * exists k1, r1. split_and!; [by apply Hold|done|lia].
    + intros k' r' [-> | E']%Hnew W'; [lia|]. specialize (Hall k' r' E' W'). lia.
  - split; [exists k, r; by rewrite lookup_insert_eq|]. intros k' r' [-> | E']%Hnew W'; [lia|]. by destruct (IH k' r' E').
  - destruct IH as [(k1 & r1 & E1 & W1 & U1) Hall]. split; [exists k1, r1; split; [by apply Hold|done]|].
    intros k' r' [-> | E']%Hnew W'; [done|by eapply Hall].
  - intros k' r' [-> | E']%Hnew; [done|by eapply IH].
Qed.

Lemma align_bounds walk now t : bounds now t -> bounds now (AlignWalk walk t).
Proof.
  intros Hb. unfold AlignWalk. pose proof (walk_until_max walk t) as HW. destruct (walk_until walk t) as [u|]; [|done].
  destruct HW as [(k1 & r1 & E1 & _ & <-) _]. apply map_Forall_fmap. intros k r E. unfold compose. destruct (Hb k r E), (Hb k1 r1 E1).
  destruct (_ == _); by split.
Qed.

(** The rows of a walk end together. *)
Lemma align_together walk t k1 k2 r1 r2 :
  AlignWalk walk t !! k1 = Some r1 -> AlignWalk walk t !! k2 = Some r2 ->
  cd_walk r1 = Some walk -> cd_walk r2 = Some walk -> cd_until r1 = cd_until r2.
Proof.
  unfold AlignWalk. pose proof (walk_until_max walk t) as HW. destruct (walk_until walk t) as [u|].
  - rewrite !lookup_fmap. intros E1 E2 W1 W2. destruct (t !! k1) as [x1|], (t !! k2) as [x2|]; try done. cbn in E1, E2.
    assert (forall x r, (if cd_walk x == Some walk then mkCool u (cd_for x) (cd_reason x) (cd_walk x) else x) = r ->
      cd_walk r = Some walk -> cd_until r = u) as H.
    { intros x r <-. destruct (bool_decide_reflect (cd_walk x = Some walk)) as [W|W]; cbn; [done|congruence]. }
    injection E1 as E1. injection E2 as E2. by rewrite (H _ _ E1 W1), (H _ _ E2 W2).
  - intros E1 _ W1. by destruct (HW _ _ E1).
Qed.

Lemma step_bounds now d d' : cool_step now d d' -> bounds now (cl_pools d) -> bounds now (cl_pools d').
Proof.
  destruct 1 as [owner id h message cool|owner h refusal|owner region zone type market]; intros Hb.
  - unfold coolPool. destruct (hr_market h); [|done]. cbn. by apply align_bounds, insert_bounds.
  - unfold coolRefusal. destruct refusal, (hr_market h); try done. cbn. by apply insert_bounds.
  - cbn. unfold ClearCooldown. by do 2 apply map_Forall_delete.
Qed.

Lemma run_bounds now d : cool_run now d -> bounds now (cl_pools d).
Proof.
  induction 1 as [now|now now' d _ IH Hn|now d d' _ IH Hd]; [apply map_Forall_empty| |by eapply step_bounds].
  intros k r E. destruct (IH k r E). split; lia.
Qed.

(** A refused pool cools from now on. *)
Lemma align_later walk t k r : t !! k = Some r -> exists r', AlignWalk walk t !! k = Some r' /\ cd_until r <= cd_until r' /\ cd_for r' = cd_for r.
Proof.
  intros E. unfold AlignWalk. pose proof (walk_until_max walk t) as HW. destruct (walk_until walk t) as [u|]; [|by exists r].
  rewrite lookup_fmap, E. eexists. split; [done|]. destruct HW as [_ Hall]. case_bool_decide as W; cbn; [|done].
  split; [by eapply Hall|done].
Qed.

End Cooling.

(** however refusals, quota refusals and launches follow each other, a
    pool cools for between one and [cooldownGrowth] capacity cooldowns and ends
    within that time from now; and after a refused launch the pool it tried
    cools, and all pools its walk refused end their cooldowns together. *)
Theorem cooldowns_bounded s now d :
  0 < s -> cool_run s now d ->
  (forall key r, cl_pools d !! key = Some r -> s <= cd_for r <= cooldownGrowth * s /\ cd_until r <= now + cooldownGrowth * s) /\
  (forall owner id h message cool market, hr_market h = Some market ->
     let d' := coolPool owner id h message cool s now d in
     (exists r, cl_pools d' !! (owner, hr_region h, pc_zoneID cool, hr_instance_type h, market) = Some r /\ now < cd_until r) /\
     forall k1 k2 r1 r2, cl_pools d' !! k1 = Some r1 -> cl_pools d' !! k2 = Some r2 -> cd_walk r1 = Some id -> cd_walk r2 = Some id ->
       cd_until r1 = cd_until r2).
Proof.
  intros Hs Hr. pose proof (run_bounds s ltac:(lia) _ _ Hr) as Hb. split; [apply Hb|]. intros owner id h message cool market HM.
  unfold coolPool. rewrite HM. cbn [cl_pools]. split; [|intros *; apply align_together].
  set (key := (owner, hr_region h, pc_zoneID cool, hr_instance_type h, market)).
  destruct (align_later id (InsertCooldown key s (cooldownGrowth * s) (truncate message) (Some id) now (cl_pools d)) key
    (cooled_row s (cl_pools d !! key) (cooldownGrowth * s) (truncate message) (Some id) now)) as (r & E & L & _).
  { by rewrite InsertCooldown_eq, lookup_insert_eq. }
  exists r. split; [exact E|]. eapply Z.lt_le_trans; [|exact L]. unfold cooled_row, next_cooldown, cooldownGrowth.
  destruct (cl_pools d !! key) as [x|]; [|cbn; lia]. destruct (cd_until x >? now) eqn:U; cbn; lia.
Qed.

(** A spot host refused in two pools of one walk. *)
Definition refused_host (zone : string) : HostRow :=
  (new_row KindPlatform ProviderAWS "n" PhaseRequested "" 0) <| hr_market := Some MarketSpot |> <| hr_region := "us-east-2" |>
    <| hr_instance_type := "m7i.large" |> <| hr_zone_id := zone |>.
Definition one_refused : cool_db := coolPool "platform" 5 (refused_host "a") "full" (mkPoolCool "a" false) minute 0 (mkCoolDB ∅ ∅).

Lemma cooldowns_bounded_witness :
  exists r, cl_pools (coolPool "platform" 5 (refused_host "b") "full" (mkPoolCool "b" false) minute second one_refused)
    !! ("platform", "us-east-2", "b", "m7i.large", MarketSpot) = Some r /\ second < cd_until r.
Proof.
  destruct (cooldowns_bounded minute second one_refused) as [_ H].
  - done.
  - apply (cool_wait _ 0); [|done]. eapply cool_then; [apply cool_start|]. apply cool_pool.
  - apply (H "platform" 5 (refused_host "b") "full" (mkPoolCool "b" false) MarketSpot eq_refl).
Defined.
