(* ===== verification/Snapshot.v ===== *)
(** What a planning pass reads (internal/compute/planner_snapshot.go, and
    [quotaRooms] of quotas.go): fleet hosts from the hosts table, pending
    demand by group, recent shapes by market, and the inputs offers rank from.

    The rows other tables give (what a host's containers reserve, pending
    demand, recent shapes, prices, offerings, quotas) are arguments. *)

From S2P Require Import Prelude Capacity Catalog Calendar GoLib Billing Policy Placement Offers Cover Fleet Hosts HostSql Cooldowns Sessions Actuator Launcher.

(** ** Hosts *)

(** One container that could move to a Spot host, as [PlannerHosts] lists it:
    the GPU models it accepts are one comma-separated text. *)
Record MoveRow := mkMove { mv_cpu : Z; mv_memory : Z; mv_gpu_count : Z; mv_gpus : string; mv_region : string }.

(** What a host's live containers reserve, and whether its agent must update:
    the [used] columns of [PlannerHosts]. *)
Record HostUse := mkUse {
  hu_cpu : Z;
  hu_memory : Z;
  hu_gpus : Z;
  hu_containers : Z;
  hu_disks : Z;
  hu_stays : bool;
  hu_packed_cpu : Z;
  hu_packed_memory : Z;
  hu_packed_ids : list uuid;
  hu_moves : list MoveRow;
  hu_update_due : bool }.

Record PlannerHostsRow := mkPH { ph_ID : HostID; ph_row : HostRow; ph_StartRefused : bool; ph_use : HostUse }.

(** [PlannerHosts]: every cloud host the fleet holds or is buying, by id. *)
Definition planner_host (h : HostRow) : bool :=
  (hr_provider h == ProviderAWS) && (hr_phase h != PhaseDeleted) && (hr_phase h != PhaseFailed).

Definition PlannerHosts (use : HostID -> HostUse) (cooldown now : Z) (t : hosts) : list PlannerHostsRow :=
  map (fun '(id, h) => mkPH id h match hr_start_refused_at h with Some r => r >? now - cooldown | None => false end (use id))
    (sort_by (fun a b => Z.compare a.1 b.1) (List.filter (fun r => planner_host r.2) (map_to_list t))).

(** [marketOf] (capacity.go). *)
Definition marketOf (m : option Market) : Market := default MarketNone m.

(** [fleetStateOf]. *)
Definition fleetStateOf (h : HostRow) (now : Z) : FleetState :=
  let reserve := is_set (hr_reserve_mode h) in
  match hr_phase h with
  | PhaseRequested | PhaseProvisioning | PhaseBooting | PhaseJoining | PhaseResuming =>
      if reserve then FleetPreparing else FleetStarting
  | PhaseReady =>
      if hr_capacity_state h != CapacityAvailable then FleetDraining
      else if (hr_state h == HostOnline) && match hr_last_seen_at h with Some seen => time_sub now seen <? LivenessTimeout | None => false end
      then FleetServing
      else FleetUnavailable
  | PhaseDraining => FleetDraining
  | PhasePreparing => FleetPreparing
  | PhaseStopping => FleetStopping
  | PhaseStopped =>
      if hr_reserve_mode h == Some ReserveHibernate then
        match hr_image_evidence h with
        | EvidenceSaved => FleetImageSaved
        | EvidenceUnknown => FleetHibernateUnverified
        | EvidenceFailed | EvidenceUnavailable => FleetStopped
        end
      else FleetStopped
  | PhaseTerminating | PhaseDeleted | PhaseFailed => FleetTerminating
  end.

Definition refusedReserve (h : HostRow) : bool := (hr_phase h == PhaseReady) && is_set (hr_reserve_mode h).

Definition preparingLimit : Z := 15 * minute.

Definition stuckPreparing (h : HostRow) (now : Z) : bool :=
  (hr_phase h == PhasePreparing) && (time_sub now (hr_phase_at h) >=? preparingLimit) &&
  match hr_updating_until h with None => true | Some u => negb (u >? now) end.

(** The requirement of a container that could move. *)
Definition move_of (m : MoveRow) : Requirement :=
  mkReq 0 None "" (mv_region m) "" true (if mv_gpus m != "" then Split ","%char (mv_gpus m) else []) (mv_gpu_count m) (mv_cpu m)
    (mv_memory m) 0 None None false.

(** [fleetHostOf]. *)
Definition fleetHostOf (r : PlannerHostsRow) (now : Z) : FleetHost :=
  let h := ph_row r in
  let u := ph_use r in
  let market := marketOf (hr_market h) in
  mkHost (ph_ID r) (hr_instance_type h) (hr_region h) (hr_zone h) (hr_zone_id h) market (hr_gpu_type h)
    (mkCap (hr_cpu h) (hr_memory h) (hr_gpu_count h)) (fleetStateOf h now) (mkCap (hu_cpu u) (hu_memory u) (hu_gpus u))
    (mkCap (hu_packed_cpu u) (hu_packed_memory u) 0) (hu_containers u) (hu_disks u) (is_set (hr_interruption_at h))
    (ph_StartRefused r) (hr_phase h == PhaseRequested) (hu_update_due u) (hr_reserve_mode h) (hr_hibernation_configured h)
    (((market == MarketOnDemand) || is_set (hr_spot_request_id h)) && negb (refusedReserve h)) (hr_hourly_micros h) (hr_phase_at h)
    (hr_replaces h) (hr_rightsize_refused_at h) (hr_stopped_at h) (is_set (hr_prepared_agent_version h))
    (is_set (hr_hands_back_at h)) (map move_of (hu_moves u)) (hu_stays u).

(** ** Pending demand *)

(** A row of [PendingDemand]; [dr_Gpus] is what its JSON decodes to. *)
Record PendingDemandRow := mkDemand {
  dr_ConnectionID : option uuid;
  dr_CPUMillis : Z;
  dr_MemoryBytes : Z;
  dr_Machine : string;
  dr_Region : string;
  dr_Zone : string;
  dr_Preemptible : bool;
  dr_Gpus : option (list string);
  dr_GPUCount : Z;
  dr_Disks : Z;
  dr_ReadRegion : option string;
  dr_ReadBytes : Z;
  dr_Packs : bool;
  dr_Containers : list (uuid * option HostID * string * Z) }.

Record pendingGroup := mkPG { pg_connection : option uuid; pg_group : DemandGroup }.

Inductive plan_error := ErrDecodeGPUs | ErrTransition | ErrInsertHosts | ErrNameHost | ErrHostContainers.

(** The group of one row. *)
Definition group_of (r : PendingDemandRow) (gpus : list string) : pendingGroup :=
  mkPG (dr_ConnectionID r)
    (mkDG (mkReq 0 None "" (dr_Region r) (dr_Zone r) (dr_Preemptible r) gpus (dr_GPUCount r) (dr_CPUMillis r) (dr_MemoryBytes r)
             (dr_Disks r) None (VolumeReadOf (dr_ReadRegion r) (dr_ReadBytes r)) (dr_Packs r))
          (map (fun '(id, bought, _, since) => mkPC id since bought) (dr_Containers r))).

Fixpoint pendingGroups (rows : list PendingDemandRow) : go plan_error (list pendingGroup) :=
  match rows with
  | [] => Ret []
  | r :: rows =>
      if dr_Machine r != "" then pendingGroups rows
      else match dr_Gpus r with
      | None => Err ErrDecodeGPUs
      | Some gpus => rest <-! pendingGroups rows; Ret (group_of r gpus :: rest)
      end
  end.

(** ** Recent shapes *)

Inductive shapeKind := shapeRecent | shapeStarted | shapeBurst | shapeArrived.
#[export] Instance shapeKind_eq_dec : EqDecision shapeKind.
Proof. solve_decision. Defined.

Record RecentShapesRow := mkShapes {
  rs_Owner : string;
  rs_Kind : shapeKind;
  rs_Preemptible : bool;
  rs_GpuType : string;
  rs_CPUMillis : Z;
  rs_MemoryBytes : Z;
  rs_Gpus : Z;
  rs_Disks : Z;
  rs_ReadBytes : Z;
  rs_Starts : Z }.

(** [RecentShapesRow.market]. *)
Definition shapes_market (r : RecentShapesRow) : option ReserveMarket :=
  if rs_GpuType r != "" then Some (mkRM (rs_Preemptible r) (rs_GpuType r))
  else if rs_Gpus r >? 0 then None
  else Some (mkRM (rs_Preemptible r) "").

Definition readsByMarket (rows : list RecentShapesRow) : gmap ReserveMarket Z :=
  fold_left (fun reads r =>
    match shapes_market r with
    | Some m => if (rs_Kind r == shapeRecent) && (rs_ReadBytes r >? 0) && (rs_Starts r >? 0)
                then <[m := rs_ReadBytes r / rs_Starts r]> reads else reads
    | None => reads
    end) rows ∅.

(** The maps [shapesByMarket] returns. *)
Record Shapes := mkShapesBy {
  sh_recent : gmap ReserveMarket FleetCapacity;
  sh_started : gmap ReserveMarket FleetCapacity;
  sh_burst : gmap ReserveMarket FleetCapacity;
  sh_arrived : gmap ReserveMarket FleetCapacity;
  sh_disks : gmap ReserveMarket Z }.
#[export] Instance eta_Shapes : Eta Shapes := fun r =>
  mkShapesBy (sh_recent r) (sh_started r) (sh_burst r) (sh_arrived r) (sh_disks r).

Definition capAt (t : gmap ReserveMarket FleetCapacity) (m : ReserveMarket) : FleetCapacity := default cap0 (t !! m).

Definition add_shape (s : Shapes) (r : RecentShapesRow) : Shapes :=
  match shapes_market r with
  | None => s
  | Some m =>
      let shape := mkCap (rs_CPUMillis r) (rs_MemoryBytes r) (rs_Gpus r) in
      match rs_Kind r with
      | shapeRecent => s <| sh_recent := <[m := Upper (capAt (sh_recent s) m) shape]> (sh_recent s) |>
                         <| sh_disks := <[m := Z.max (default 0 (sh_disks s !! m)) (rs_Disks r)]> (sh_disks s) |>
      | shapeStarted => s <| sh_started := <[m := Upper (capAt (sh_started s) m) shape]> (sh_started s) |>
      | shapeBurst => s <| sh_burst := <[m := Upper (capAt (sh_burst s) m) shape]> (sh_burst s) |>
      | shapeArrived => s <| sh_arrived := <[m := Plus (capAt (sh_arrived s) m) shape]> (sh_arrived s) |>
      end
  end.

Definition shapesByMarket (rows : list RecentShapesRow) : Shapes := fold_left add_shape rows (mkShapesBy ∅ ∅ ∅ ∅ ∅).

(** ** Quotas *)

Definition quotaFresh : Z := 3 * hour.

Record QuotaRow := mkQuotaRow {
  qr_Owner : string;
  qr_Region : string;
  qr_Class : QuotaClass;
  qr_Market : Market;
  qr_Vcpus : option Z;
  qr_ObservedAt : option Z;
  qr_Refused : bool }.

Record QuotaRoom := mkRoom { qm_Region : string; qm_Class : QuotaClass; qm_Market : Market; qm_Known : bool; qm_VCPUs : Z; qm_Refused : bool }.

(** One row of [quotaRooms]. *)
Definition quota_room (now : Z) (r : QuotaRow) : QuotaRoom :=
  let '(known, vcpus) :=
    match qr_Vcpus r, qr_ObservedAt r with
    | Some v, Some at_ => if time_sub now at_ <? quotaFresh then (true, v) else (false, 0)
    | _, _ => (false, 0)
    end in
  if qr_Refused r then mkRoom (qr_Region r) (qr_Class r) (qr_Market r) true 0 true
  else mkRoom (qr_Region r) (qr_Class r) (qr_Market r) known vcpus false.

Definition quotaRooms (now : Z) (rows : list QuotaRow) : gmap string (list QuotaRoom) :=
  fold_left (fun out r => <[qr_Owner r := default [] (out !! qr_Owner r) ++ [quota_room now r]]> out) rows ∅.

Definition vcpuQuotas (rooms : list QuotaRoom) : list VCPUQuota :=
  omap (fun r => if qm_Known r then Some (mkQuota (mkQK (qm_Region r) (qm_Class r) (qm_Market r)) (qm_VCPUs r)) else None) rooms.

(** ** What offers rank from *)

Record offerRead := mkOfferRead {
  or_now : Z;
  or_hosts : list PlannerHostsRow;
  or_recent : gmap string (list RecentShapesRow);
  or_cooldowns : list (cool_key * CooldownRow);
  or_spot : list SpotQuote;
  or_zoneTypes : gmap string (gmap string (list string));
  or_quotas : gmap string (list QuotaRoom);
  or_rates : list ComputeRate;
  or_reported : gmap string Z }.

(** The least memory hosts of each type report. *)
Definition reported_of (rows : list PlannerHostsRow) : gmap string Z :=
  fold_left (fun seen r =>
    let h := ph_row r in
    if (hr_session_epoch h >? 0) && (hr_instance_type h != "") &&
       match seen !! hr_instance_type h with None => true | Some m => hr_memory h <? m end
    then <[hr_instance_type h := hr_memory h]> seen else seen) rows ∅.

Definition by_owner (rows : list RecentShapesRow) : gmap string (list RecentShapesRow) :=
  fold_left (fun out r => <[rs_Owner r := default [] (out !! rs_Owner r) ++ [r]]> out) rows ∅.

(** [readOffers] of what its statements return. *)
Definition readOffers (use : HostID -> HostUse) (recent : list RecentShapesRow) (spot : list SpotQuote)
    (zoneTypes : gmap string (gmap string (list string))) (quotas : list QuotaRow) (rates : list ComputeRate) (cooldown now : Z)
    (pools : cooldowns_table) (t : hosts) : offerRead :=
  let rows := PlannerHosts use cooldown now t in
  mkOfferRead now rows (by_owner recent) (PlannerCooldowns now pools) spot zoneTypes (quotaRooms now quotas) rates (reported_of rows).

Definition zone_hosts (hosts : list FleetHost) : gmap string Z :=
  fold_left (fun zones h =>
    if (h_State h != FleetTerminating) && (h_ZoneID h != "")
    then <[h_ZoneID h := default 0 (zones !! h_ZoneID h) + 1]> zones else zones) hosts ∅.

(** [offerRead.inputs]. *)
Definition inputs (r : offerRead) (key storageRegion : string) (a : account) (hosts : list FleetHost) : OfferInputs :=
  mkInputs (or_now r) FleetCatalog (at_networks a) (or_spot r) (offerCooldowns (or_cooldowns r) key) (or_rates r) (or_reported r)
    (zone_hosts hosts) (or_zoneTypes r) (vcpuQuotas (default [] (or_quotas r !! key))) ∅ (at_pays a) false storageRegion
    (readsByMarket (default [] (or_recent r !! key))).
