(* ===== verification/Driver.v ===== *)
(** The fleet pass (internal/compute/planner.go and planner_markets.go): one
    transaction that reads a snapshot, plans each account with [PlanFleet] and
    writes the plan's intents, the waits of pending containers, cooldowns and
    the published markets.

    What a pass logs and the reasons it logs are left out; the spans it traces
    and the notifications it sends are kept.  A new host's id is the next
    answer of [fresh], which fails where [uuid.NewV7] does. *)

From S2P Require Import Prelude Capacity Catalog Calendar GoLib Billing Policy Placement Offers Cover Fleet Pass Plan Hosts HostSql Cooldowns Sessions Actuator Launcher Snapshot.

Definition planExpiry : Z := 5 * minute.
Definition planRefresh : Z := minute.

(** [unusedPolicy]. *)
Definition unusedPolicy (p : Policy) : Policy :=
  mkPolicy (MarginPercent p) (Provision p) (CostHorizon p) (MaxGrowthActions p) mr0 mr0 ∅ (p_LargestShape p) (ArrivalWindow p)
    (WarmWindow p) (Batch p) 0 (SpotPriceAge p) (SpotWait p) (LossCapPercent p) (LossBudget p) (QueueTimeout p) (Starts p).

(** ** Published markets *)

Record PublishedMarket := mkPublished {
  pm_Preemptible : bool;
  pm_GPUType : string;
  pm_ConnectionID : option uuid;
  pm_Load : FleetCapacity;
  pm_WarmTarget : FleetCapacity;
  pm_WarmFree : FleetCapacity;
  pm_StoppedTarget : FleetCapacity;
  pm_ReserveReady : FleetCapacity;
  pm_Reason : CapacityWait;
  pm_Holds : MarketHolds;
  pm_States : list FleetStateCapacity;
  pm_Decision : string }.

(** A row of [fleet_markets], by its key; [None] is a plan that does not
    decode. *)
Record marketRow := mkMarketRow { mr_Plan : option PublishedMarket; mr_GeneratedAt : Z; mr_ExpiresAt : Z }.

(** ** Writes *)

Record coolRow := mkCoolRow { cr_connectionKey : string; cr_region : string; cr_instanceType : string; cr_reason : string; cr_market : Market }.

Record fleetWrites := mkWrites {
  fw_stuck : list HostID;
  fw_drains : list HostID;
  fw_retirePreparing : list HostID;
  fw_retires : list HostID;
  fw_returns : list HostID;
  fw_hibernate : list HostID;
  fw_handBacks : list HostID;
  fw_lends : list HostID;
  fw_buys : list requestedHost;
  fw_resumes : list HostID;
  fw_cools : list coolRow;
  fw_markets : list (string * marketRow) }.
#[export] Instance eta_fleetWrites : Eta fleetWrites := fun r =>
  mkWrites (fw_stuck r) (fw_drains r) (fw_retirePreparing r) (fw_retires r) (fw_returns r) (fw_hibernate r) (fw_handBacks r)
    (fw_lends r) (fw_buys r) (fw_resumes r) (fw_cools r) (fw_markets r).
Definition no_writes : fleetWrites := mkWrites [] [] [] [] [] [] [] [] [] [] [] [].

(** A container's wait, where [WaitNone] is the empty text. *)
Record waitRow := mkWaitRow { wr_wait : CapacityWait; wr_host : option HostID }.
Definition no_wait : waitRow := mkWaitRow WaitNone None.

(** A span of a container's trace. *)
Record capacityDecision := mkDecision { cd_traceparent : string; cd_container : uuid; cd_wait : waitRow }.

(** What a pending container's trace is and the host and wait it had. *)
Record pendingTrace := mkTrace { pt_traceparent : string; pt_bought : option HostID; pt_wait : CapacityWait }.

Record fleetPass := mkFleetPass {
  fq_waits : gmap uuid waitRow;
  fq_w : fleetWrites;
  fq_Limited : Z;
  fq_BatchWait : Z;
  fq_decisions : list capacityDecision }.
#[export] Instance eta_fleetPass : Eta fleetPass := fun r =>
  mkFleetPass (fq_waits r) (fq_w r) (fq_Limited r) (fq_BatchWait r) (fq_decisions r).

(** [fleetRead]. *)
Record fleetRead := mkFleetRead {
  fr_offers : offerRead;
  fr_atLossSpent : Z;
  fr_pending : list PendingDemandRow;
  fr_markets : gmap string marketRow;
  fr_accounts : list account;
  fr_batchWaits : gmap string Z }.

#[export] Instance OfferCooldown_eq_dec : EqDecision OfferCooldown.
Proof. solve_decision. Defined.

(** [newFleetPass]. *)
Definition newFleetPass (r : fleetRead) : fleetPass :=
  mkFleetPass (list_to_map (flat_map (fun g => map (fun '(id, _, _, _) => (id, no_wait)) (dr_Containers g)) (fr_pending r)))
    no_writes 0 0 [].

Section Driver.
(** [id::text], the text of a plan's decision, new ids, and the fleet's
    configuration. *)
Context (uuid_text : uuid -> string) (decision_text : MarketPlan -> list FleetAction -> string) (fresh : nat -> option HostID).
Context (policy : Policy) (CapacityCooldown MaxHosts : Z) (StorageRegion : string).

(** [account.key]. *)
Definition key_of (a : account) : string := account_key uuid_text a.

(** [cool]. *)
Definition cool (owner : string) (cools : list OfferCooldown) (why : string) (ps : fleetPass) : fleetPass :=
  ps <| fq_w := (fq_w ps) <| fw_cools := fw_cools (fq_w ps) ++
    map (fun c => mkCoolRow owner (oc_Region c) (oc_InstanceType c) why (oc_Market c)) cools |> |>.

(** [requested]: the host a purchase inserts; [None] where the code reads the
    host a rightsize replaces and the action has none. *)
Definition requested (id : HostID) (acct : account) (o : FleetOffer) (a : FleetAction) : option requestedHost :=
  let holds := negb (Empty (a_Holds a)) in
  let host mode replaces disks :=
    mkRequested id (account_kind acct) (at_connection acct) (CPUMillis (o_Usable o)) (MemoryBytes (o_Usable o)) (t_GPU (o_Type o))
      (t_GPUCount (o_Type o)) (o_Region o) (o_Zone o) (o_ZoneID o) (t_Name (o_Type o)) (o_Market o) (HourlyMicros o) mode replaces
      (if holds then Some (CPUMillis (a_Holds a)) else None) (if holds then Some (MemoryBytes (a_Holds a)) else None) disks
      (a_Reason a == ReasonSpotWait) in
  match a_Kind a with
  | ActionBuyReserve => Some (host (a_Mode a) None (Some (DiskSlots (o_Type o))))
  | ActionRightsize => match a_Host a with Some r => Some (host None (Some r) None) | None => None end
  | _ => Some (host None None None)
  end.

(** One action of [apply]: its writes, and the host it starts. A nil pointer
    the code reads panics. *)
Definition apply_one (phase_of : HostID -> option Phase) (acct : account) (w : fleetWrites) (a : FleetAction) :
    go plan_error (fleetWrites * option HostID) :=
  match a_Kind a with
  | ActionBuy | ActionBuyReserve | ActionRightsize =>
      match a_Offer a with
      | None => Panic
      | Some o =>
          match fresh (length (fw_buys w)) with
          | None => Err ErrNameHost
          | Some id =>
              match requested id acct o a with
              | None => Panic
              | Some v => Ret (w <| fw_buys := fw_buys w ++ [v] |>, Some id)
              end
          end
      end
  | kind =>
      match a_Host a with
      | None => Panic
      | Some h =>
          match kind with
          | ActionResume => Ret (w <| fw_resumes := fw_resumes w ++ [h] |>, Some h)
          | ActionReturnToReserve =>
              match a_Mode a with
              | None => Panic
              | Some mode =>
                  let w := w <| fw_returns := fw_returns w ++ [h] |> in
                  Ret (if mode == ReserveHibernate then w <| fw_hibernate := fw_hibernate w ++ [h] |> else w, None)
              end
          | ActionDrain => Ret (w <| fw_drains := fw_drains w ++ [h] |>, None)
          | ActionHandBack => Ret (w <| fw_handBacks := fw_handBacks w ++ [h] |>, None)
          | ActionLend => Ret (w <| fw_lends := fw_lends w ++ [h] |>, None)
          | ActionCancel => Ret (w <| fw_retires := fw_retires w ++ [h] |>, None)
          | ActionRetireReserve =>
              match phase_of h with
              | Some PhaseStopped | Some PhaseRequested => Ret (w <| fw_retires := fw_retires w ++ [h] |>, None)
              | Some PhasePreparing => Ret (w <| fw_retirePreparing := fw_retirePreparing w ++ [h] |>, None)
              | _ => Ret (w, None)
              end
          | _ => Ret (w, None)
          end
      end
  end.

(** [apply]: the writes, and by action index the host each resume names or
    each purchase buys. *)
Fixpoint apply_from (i : nat) (phase_of : HostID -> option Phase) (acct : account) (actions : list FleetAction) (w : fleetWrites) :
    go plan_error (fleetWrites * gmap nat HostID) :=
  match actions with
  | [] => Ret (w, ∅)
  | a :: actions =>
      r <-! apply_one phase_of acct w a;
      rest <-! apply_from (S i) phase_of acct actions r.1;
      Ret (rest.1, match r.2 with Some h => <[i := h]> rest.2 | None => rest.2 end)
  end.

Definition apply (phase_of : HostID -> option Phase) (plan : FleetPlan) (acct : account) (w : fleetWrites) :
    go plan_error (fleetWrites * gmap nat HostID) := apply_from 0 phase_of acct (fp_Actions plan) w.

(** The row [settleWaits] writes for a wait. *)
Definition wait_row (bought : gmap nat HostID) (w : ContainerWait) : waitRow :=
  let wait := default WaitNone (w_Wait w) in
  match w_Host w, w_Action w with
  | Some h, _ => mkWaitRow wait (Some h)
  | None, Some i => match bought !! i with Some h => mkWaitRow wait (Some h) | None => no_wait end
  | None, None => mkWaitRow wait None
  end.

(** [settleWaits]. *)
Definition settle_one (traces : gmap uuid pendingTrace) (bought : gmap nat HostID) (ps : fleetPass) (w : ContainerWait) : fleetPass :=
  let row := wait_row bought w in
  let decisions :=
    match traces !! w_Container w with
    | Some t =>
        if (pt_traceparent t != "") && ((wr_host row != pt_bought t) || (wr_wait row != pt_wait t)) && (wr_wait row != WaitNone)
        then fq_decisions ps ++ [mkDecision (pt_traceparent t) (w_Container w) row] else fq_decisions ps
    | None => fq_decisions ps
    end in
  ps <| fq_Limited := fq_Limited ps + (if wr_wait row == WaitLimit then 1 else 0) |> <| fq_decisions := decisions |>
     <| fq_waits := <[w_Container w := row]> (fq_waits ps) |>.

Definition settleWaits (traces : gmap uuid pendingTrace) (plan : FleetPlan) (bought : gmap nat HostID) (ps : fleetPass) : fleetPass :=
  fold_left (settle_one traces bought) (fp_Waits plan) ps.

(** ** Held targets *)

(** [carried]. *)
Definition carried (markets : gmap string marketRow) (a : account) : gmap ReserveMarket PublishedMarket :=
  list_to_map (omap (fun '(_, m) =>
    match mr_Plan m with
    | Some plan => if owns a (pm_ConnectionID plan) then Some (mkRM (pm_Preemptible plan) (pm_GPUType plan), plan) else None
    | None => None
    end) (map_to_list markets)).

Definition marketKey (a : account) (m : ReserveMarket) : string :=
  match at_connection a with
  | None => rm_String m
  | Some _ => String.append (key_of a) (String.append "/" (rm_String m))
  end.

(** [holds]. *)
Definition carried_holds (markets : gmap string marketRow) (a : account) : gmap ReserveMarket MarketHolds := pm_Holds <$> carried markets a.

Definition holdsEqual (a b : MarketHolds) : bool :=
  (lp_Load (mh_Running a) == lp_Load (mh_Running b)) && (lp_At (mh_Running a) =? lp_At (mh_Running b)) &&
  (lp_Load (mh_Stopped a) == lp_Load (mh_Stopped b)) && (lp_At (mh_Stopped a) =? lp_At (mh_Stopped b)) &&
  (ShortSince a =? ShortSince b).

Definition publishedMarket (mp : MarketPlan) (actions : list FleetAction) (connection : option uuid) : PublishedMarket :=
  mkPublished (Preemptible (mp_Market mp)) (rm_GPU (mp_Market mp)) connection (mp_Load mp) (mp_WarmTarget mp) (mp_WarmFree mp)
    (mp_StoppedTarget mp) (mp_ReserveReady mp) (mp_Reason mp) (mp_Holds mp) (mp_States mp) (decision_text mp actions).

(** When the account's markets were last published. *)
Definition last_published (markets : gmap string marketRow) (a : account) (plan : FleetPlan) : Z :=
  fold_left (fun last m =>
    match markets !! marketKey a (mp_Market m) with Some row => Z.max last (mr_GeneratedAt row) | None => last end) (fp_Markets plan) 0.

Definition moved_market (stored : gmap ReserveMarket PublishedMarket) (mp : MarketPlan) : bool :=
  let '(holds, reason) := match stored !! mp_Market mp with Some p => (pm_Holds p, pm_Reason p) | None => (holds0, WaitNone) end in
  negb (holdsEqual holds (mp_Holds mp)) || (reason != mp_Reason mp).

(** [publish]. *)
Definition publish (markets : gmap string marketRow) (plan : FleetPlan) (a : account) (now : Z) (ps : fleetPass) : fleetPass :=
  let moved := existsb (moved_market (carried markets a)) (fp_Markets plan) in
  if bool_decide (fp_Actions plan = []) && negb moved && (time_sub now (last_published markets a plan) <? planRefresh) then ps
  else ps <| fq_w := (fq_w ps) <| fw_markets := fw_markets (fq_w ps) ++ map (fun mp =>
    (marketKey a (mp_Market mp),
     mkMarketRow (Some (publishedMarket mp (List.filter (fun act => a_Market act == mp_Market mp) (fp_Actions plan)) (at_connection a)))
       now (now + planExpiry))) (fp_Markets plan) |> |>.

(** ** One account *)

(** [planOwner]: a container's bought host that serves and is too small. *)
Definition missed_offer (s : FleetSnapshot) (cooldown : Z) (need : Requirement) (c : PendingContainer) : option OfferCooldown :=
  host ← pd_Host c;
  h ← List.find (fun h => (h_ID h =? host) && (h_State h == FleetServing)) (s_Hosts s);
  if Covers (h_Usable h) (reservedShape need) then None
  else Some (mkCooldown (h_Region h) "" (h_InstanceType h) (h_Market h) (s_Now s + cooldown) false).

Definition add_missed (cools : list OfferCooldown) (m : option OfferCooldown) : list OfferCooldown :=
  match m with Some c => if bool_decide (c ∈ cools) then cools else cools ++ [c] | None => cools end.

Definition missed_offers (s : FleetSnapshot) (cooldown : Z) : list OfferCooldown :=
  fold_left add_missed (flat_map (fun g => map (missed_offer s cooldown (dg_Need g)) (dg_Containers g)) (s_Pending s)) [].

Definition planOwner (p : Policy) (s : FleetSnapshot) (cooldown : Z) : FleetPlan * list OfferCooldown :=
  let cools := missed_offers s cooldown in
  (PlanFleet p (s_with_Offers s (with_Cooldowns (s_Offers s) (Cooldowns (s_Offers s) ++ cools))), cools).

(** The account's hosts, and those that could not prove a stop. *)
Definition own_rows (a : account) (rows : list PlannerHostsRow) : list PlannerHostsRow :=
  List.filter (fun r => owns a (hr_connection (ph_row r))) rows.
Definition stuck_rows (a : account) (now : Z) (rows : list PlannerHostsRow) : list PlannerHostsRow :=
  List.filter (fun r => stuckPreparing (ph_row r) now) (own_rows a rows).
Definition failed_rows (a : account) (now : Z) (rows : list PlannerHostsRow) : list PlannerHostsRow :=
  List.filter (fun r => stuckPreparing (ph_row r) now ||
    (refusedReserve (ph_row r) && (hu_containers (ph_use r) =? 0) && (time_sub now (hr_phase_at (ph_row r)) <? CapacityCooldown))) (own_rows a rows).
Definition fleet_hosts (a : account) (now : Z) (rows : list PlannerHostsRow) : list FleetHost :=
  map (fun r => fleetHostOf r now) (List.filter (fun r => negb (stuckPreparing (ph_row r) now)) (own_rows a rows)).

(** The offers of hosts that could not prove a stop. *)
Definition unproven_offers (a : account) (now : Z) (rows : list PlannerHostsRow) : list OfferCooldown :=
  map (fun r => mkCooldown (hr_region (ph_row r)) "" (hr_instance_type (ph_row r)) (marketOf (hr_market (ph_row r))) (now + CapacityCooldown)
    false) (failed_rows a now rows).

Definition held_hosts (hosts : list FleetHost) : Z :=
  Z.of_nat (length (List.filter (fun h => negb (reserve_host h) || (h_State h == FleetPreparing) || (h_State h == FleetStopping)) hosts)).
Definition reserve_hosts (hosts : list FleetHost) : Z := Z.of_nat (length (List.filter reserve_host hosts)).

(** The snapshot [account] plans. *)
Definition account_snapshot (r : fleetRead) (a : account) (groups : list pendingGroup) : FleetSnapshot :=
  let now := or_now (fr_offers r) in
  let rows := or_hosts (fr_offers r) in
  let hosts := fleet_hosts a now rows in
  let pending := map pg_group (List.filter (fun g => owns a (pg_connection g)) groups) in
  let i := inputs (fr_offers r) (key_of a) StorageRegion a hosts in
  let shapes := shapesByMarket (default [] (or_recent (fr_offers r) !! key_of a)) in
  mkSnapshot now hosts pending (sh_recent shapes) (sh_started shapes) (sh_burst shapes) (sh_arrived shapes) (sh_disks shapes)
    (with_Cooldowns i (Cooldowns i ++ unproven_offers a now rows)) (Z.max 0 (MaxHosts - held_hosts hosts))
    (Z.max 0 (MaxHosts - reserve_hosts hosts)) (default 0 (fr_batchWaits r !! key_of a))
    (if at_inUse a then carried_holds (fr_markets r) a else ∅) (fr_atLossSpent r).

Definition phase_in (rows : list PlannerHostsRow) (id : HostID) : option Phase :=
  hr_phase ∘ ph_row <$> List.find (fun r => ph_ID r =? id) rows.

(** [fleetPass.account]. *)
Definition account_pass (r : fleetRead) (traces : gmap uuid pendingTrace) (groups : list pendingGroup) (ps : fleetPass) (a : account) :
    go plan_error fleetPass :=
  let now := or_now (fr_offers r) in
  let rows := or_hosts (fr_offers r) in
  let s := account_snapshot r a groups in
  let ps := ps <| fq_w := (fq_w ps) <| fw_stuck := fw_stuck (fq_w ps) ++ map ph_ID (stuck_rows a now rows) |> |> in
  if bool_decide (s_Hosts s = []) && bool_decide (s_Pending s = []) && negb (at_inUse a) then Ret ps
  else
    let ps := cool (key_of a) (unproven_offers a now rows) "its host could not prove a stop into the reserve" ps in
    let p := if at_inUse a then policy else unusedPolicy policy in
    let '(plan, cools) := planOwner p s CapacityCooldown in
    let ps := cool (key_of a) cools "the host bought for a container could not take it" ps in
    applied <-! apply (phase_in rows) plan a (fq_w ps);
    let ps := settleWaits traces plan applied.2 (ps <| fq_w := applied.1 |>) in
    let ps := ps <| fq_BatchWait := Z.max (fq_BatchWait ps) (fp_BatchWait plan) |> in
    Ret (publish (fr_markets r) plan a now ps).

(** The traces [decide] fills; [pendingTrace.wait] is never set. *)
Definition traces_of (rows : list PendingDemandRow) : gmap uuid pendingTrace :=
  list_to_map (rev (flat_map (fun r => map (fun '(id, bought, trace, _) => (id, mkTrace trace bought WaitNone)) (dr_Containers r)) rows)).

(** [decide]. *)
Definition decide_pass (r : fleetRead) : go plan_error fleetPass :=
  groups <-! pendingGroups (fr_pending r);
  go_fold (fun ps a => if at_hosting a then account_pass r (traces_of (fr_pending r)) groups ps a else Ret ps) (fr_accounts r) (newFleetPass r).

End Driver.

(** ** Writing the pass *)

(** The tables a pass writes. *)
Record plan_db := mkPlanDB {
  pd_hosts : hosts;
  pd_containers : containers;
  pd_pools : cooldowns_table;
  pd_markets : gmap string marketRow }.
#[export] Instance eta_plan_db : Eta plan_db := fun r => mkPlanDB (pd_hosts r) (pd_containers r) (pd_pools r) (pd_markets r).

(** [PlanResult]; [Skipped] is [None] of [Plan]. *)
Record PlanResult := mkResult {
  pr_Requested : Z;
  pr_Resumed : Z;
  pr_Returned : Z;
  pr_Drained : Z;
  pr_Retired : Z;
  pr_Failed : Z;
  pr_Limited : Z;
  pr_BatchWait : Z }.

(** What a pass tells others once it commits: the sessions it wakes, and
    whether it wakes the fleet's loops. *)
Record planNotices := mkNotices { pn_hosts : list HostID; pn_compute : bool }.

Section Write.
Context `{!HostContainers} (host_name : HostID -> string) (CapacityCooldown now : Z).

(** What a call of execution answered the pass. *)
Definition asked_by_pass (answer : option containers) : go plan_error containers :=
  match answer with Some cs => Ret cs | None => Err ErrHostContainers end.

(** [evictPacked]. *)
Definition evictPacked (rows : list PlannerHostsRow) (hosts : list HostID) (cs : containers) : go plan_error containers :=
  match flat_map (fun id => match List.find (fun r => ph_ID r =? id) rows with Some r => hu_packed_ids (ph_use r) | None => [] end) hosts with
  | [] => Ret cs
  | ids => asked_by_pass (EvictContainers ids cs)
  end.

Definition unproven_message : string := "The agent did not prove the host could stop within 15m0s".

(** Reserves that never proved a stop fail, and their containers stop. *)
Definition write_stuck (w : fleetWrites) (d : plan_db) : go plan_error (plan_db * Z) :=
  match fw_stuck w with
  | [] => Ret (d, 0)
  | ids =>
      let '(t, failed) := FailPreparing ids preparingLimit unproven_message now (pd_hosts d) in
      cs <-! go_fold (fun cs id => asked_by_pass (StopHostContainers id "the host failed to stop into the reserve" cs)) failed
        (pd_containers d);
      Ret (d <| pd_hosts := t |> <| pd_containers := cs |>, Z.of_nat (length failed))
  end.

Definition write_buys (w : fleetWrites) (d : plan_db) : go plan_error (plan_db * Z) :=
  match InsertRequestedHosts host_name (fw_buys w) now (pd_hosts d) with
  | Some t => Ret (d <| pd_hosts := t |>, Z.of_nat (length (fw_buys w)))
  | None => Err ErrInsertHosts
  end.

Definition write_resumes (w : fleetWrites) (d : plan_db) : plan_db * Z :=
  let '(t, resumed) := ResumeReserves (fw_resumes w) now (pd_hosts d) in (d <| pd_hosts := t |>, Z.of_nat (length resumed)).

(** A move whose hosts' packed work is evicted, and the hosts it moved. *)
Definition write_leaving (rows : list PlannerHostsRow) (f : containers -> hosts -> hosts * list HostID) (d : plan_db) :
    go plan_error (plan_db * list HostID) :=
  let '(t, ids) := f (pd_containers d) (pd_hosts d) in
  cs <-! evictPacked rows ids (pd_containers d);
  Ret (d <| pd_hosts := t |> <| pd_containers := cs |>, ids).

(** Hosts that start or stop handing work back; planning wakes for the
    releases on those changed. *)
Definition write_hands (w : fleetWrites) (d : plan_db) : go plan_error (plan_db * Z) :=
  if bool_decide (fw_handBacks w ++ fw_lends w = []) then Ret (d, 0)
  else
    let '(t, changed) := SetHandsBack (fw_handBacks w) (fw_lends w) now (pd_hosts d) in
    cs <-! asked_by_pass (WakeReleasesOnHosts changed (pd_containers d));
    Ret (d <| pd_hosts := t |> <| pd_containers := cs |>, Z.of_nat (length changed)).

Definition write_retires (w : fleetWrites) (d : plan_db) : plan_db * Z :=
  let '(t, ids) := RetireReserves (fw_retires w) now (pd_containers d) (pd_hosts d) in (d <| pd_hosts := t |>, Z.of_nat (length ids)).

(** [writeWaits]; an empty wait is null. *)
Definition writeWaits (waits : gmap uuid waitRow) (d : plan_db) : plan_db :=
  d <| pd_containers := SetCapacityWaits
    ((fun r => (if wr_wait r == WaitNone then None else Some (wr_wait r), wr_host r)) <$> waits) (pd_containers d) |>.

(** The pass's own cooldowns, in every zone of the region. *)
Definition write_cools (w : fleetWrites) (d : plan_db) : plan_db :=
  d <| pd_pools := fold_left (fun t c => InsertCooldown (cr_connectionKey c, cr_region c, "", cr_instanceType c, cr_market c)
    CapacityCooldown (cooldownGrowth * CapacityCooldown) (cr_reason c) None now t) (fw_cools w) (pd_pools d) |>.

(** [UpsertFleetMarkets]. *)
Definition write_markets (w : fleetWrites) (d : plan_db) : plan_db :=
  d <| pd_markets := fold_left (fun t '(key, row) => <[key := row]> t) (fw_markets w) (pd_markets d) |>.

(** The moves a pass makes, checked before any is written. *)
Definition pass_moves : list (Phase * Phase) :=
  [(PhasePreparing, PhaseTerminating); (PhaseStopped, PhaseResuming); (PhaseStopping, PhaseResuming); (PhaseReady, PhasePreparing);
   (PhaseReady, PhaseDraining); (PhasePreparing, PhaseReady); (PhasePreparing, PhaseDraining); (PhaseStopped, PhaseTerminating);
   (PhaseRequested, PhaseDeleted)].

(** [fleetPass.write]. *)
Definition write_pass (rows : list PlannerHostsRow) (ps : fleetPass) (d : plan_db) :
    go plan_error (plan_db * (PlanResult * planNotices)) :=
  if negb (forallb (fun m => CanBecome m.1 m.2) pass_moves) then Err ErrTransition
  else
    let w := fq_w ps in
    let count ids := Z.of_nat (length ids) in
    stuck <-! write_stuck w d;
    let '(d, failed) := stuck in
    bought <-! write_buys w d;
    let '(d, requested) := bought in
    let '(d, resumed) := write_resumes w d in
    returns <-! write_leaving rows (ReturnToReserve (fw_returns w) (fw_hibernate w) now) d;
    let '(d, returned) := returns in
    drains <-! write_leaving rows (DrainHosts (fw_drains w) (reason_Message ReasonIdle) now) d;
    let '(d, drained) := drains in
    surpluses <-! write_leaving rows (DrainHosts (fw_retirePreparing w) (reason_Message ReasonSurplus) now) d;
    let '(d, surplus) := surpluses in
    hands <-! write_hands w d;
    let '(d, changed) := hands in
    let '(d, retired) := write_retires w d in
    let d := write_markets w (write_cools w (writeWaits (fq_waits ps) d)) in
    let moved := existsb (Z.ltb 0) [failed; requested; resumed; count returned; count drained; count surplus; changed; retired] in
    Ret (d, (mkResult requested resumed (count returned) (count drained + count surplus) retired failed (fq_Limited ps) (fq_BatchWait ps),
             mkNotices returned moved)).

End Write.

(** [Plan]: one pass under the fleet lock, or none. *)
Definition Plan `{!HostContainers} (uuid_text : uuid -> string) (decision_text : MarketPlan -> list FleetAction -> string) (fresh : nat -> option HostID)
    (host_name : HostID -> string) (CapacityCooldown MaxHosts : Z) (StorageRegion : string) (locked : bool) (read : plan_db -> fleetRead)
    (now : Z) (d : plan_db) : go plan_error (plan_db * option (PlanResult * planNotices)) :=
  if negb locked then Ret (d, None)
  else
    let r := read d in
    ps <-! decide_pass uuid_text decision_text fresh DefaultPolicy CapacityCooldown MaxHosts StorageRegion r;
    written <-! write_pass host_name CapacityCooldown now (or_hosts (fr_offers r)) ps d;
    Ret (written.1, Some written.2).
