(* ===== verification/DriverProps.v ===== *)
(** What a fleet pass writes: it commits unless a call of execution fails or a
    host cannot be named, its writes are transactions of the hosts' lifecycle,
    and the host each pending container waits for is a row of the table it
    leaves. *)

From S2P Require Import Prelude Capacity Catalog Calendar GoLib Billing Policy Placement Offers Cover Fleet Pass Demand Purchase Keep Plan Steps Simulation BuySim KeepSim TargetProps PlanProps.
From S2P Require Import Hosts HostSql Cooldowns Sessions Actuator Machines Reconcile Launcher HostProps Lifecycle LifecycleProps Snapshot Driver.

(** ** What a plan names *)

Definition host_ids (s : FleetSnapshot) : list HostID := map h_ID (s_Hosts s).

(** An action has what [apply] reads of it, and acts on hosts of the
    snapshot. *)
Definition action_ok (ids : list HostID) (a : FleetAction) : Prop :=
  (purchase (a_Kind a) = true -> a_Offer a <> None /\ (a_Kind a = ActionRightsize -> a_Host a <> None)) /\
  (purchase (a_Kind a) = false -> exists id, a_Host a = Some id /\ In id ids) /\
  (a_Kind a = ActionReturnToReserve -> a_Mode a <> None).

Record names (s : FleetSnapshot) (ps : pass) : Prop := {
  nm_hosts : hosts_from s ps;
  nm_claimed : forall id, id ∈ ps_claimed ps -> In id (host_ids s);
  nm_waits : Forall (fun w => forall id, w_Host w = Some id -> In id (host_ids s)) (ps_waits ps);
  nm_actions : Forall (action_ok (host_ids s)) (ps_actions ps) }.

Lemma host_named s ps i : hosts_from s ps -> (i < length (ps_hosts ps))%nat -> In (h_ID (host ps i)) (host_ids s).
Proof.
  intros Hf Hi. destruct (host_lookup s ps i Hf Hi) as (h0 & E0 & _ & Hh). rewrite (host_from_ID _ _ _ Hh).
  apply in_map. by apply list_elem_of_In, list_elem_of_lookup_2 with i.
Qed.

Lemma in_hosts_named s ps h : hosts_from s ps -> In h (ps_hosts ps) -> In (h_ID h) (host_ids s).
Proof.
  intros Hf (i & Hi)%list_elem_of_In%list_elem_of_lookup. destruct (Forall2_lookup_r _ _ _ _ _ Hf Hi) as (h0 & E0 & Hh).
  rewrite (host_from_ID _ _ _ Hh). apply in_map. by apply list_elem_of_In, list_elem_of_lookup_2 with i.
Qed.

Lemma names_step p s ps ps' : names s ps -> Steps.step p s ps ps' -> names s ps'.
Proof.
  intros [Hh Hc Hw Ha] Hs. assert (Hhf : hosts_from s ps') by (eapply hosts_from_step; [exact Hh|exact Hs]).
  assert (Hone : forall a, action_ok (host_ids s) a -> Forall (action_ok (host_ids s)) (ps_actions ps ++ [a])).
  { intros a Hok. apply Forall_app. split; [done|]. by constructor. }
  destruct Hs as
    [ps ps' Hq|ps i back a Hi Hk Hcs Hid|ps ws Hws _ Hnone|ps it b Hl Hb|ps k f Hl Hf|ps m o kind reason holds cs rep Hg Hrep
    |ps m i reason cs Hi Hr Hp Hrf Hfr|ps v i Hg|ps reason m i Hi Hr Hn].
  - split; [done|by rewrite (q_claimed _ _ Hq)|by rewrite (q_waits _ _ Hq)|by rewrite (q_actions _ _ Hq)].
  - split; [done| | |]; autorewrite with pass; try done. apply Hone. simpl in Hk. unfold action_ok.
    assert (In (h_ID (host ps i)) (host_ids s)) by (by apply host_named).
    destruct Hk as [<-|[<-|[]]]; (split; [done|split; [|done]]); intros _; eauto.
  - split; try done. eapply Forall_impl; [exact Hnone|]. intros w [E _] id Hid. congruence.
  - split; try done. intros id Hin. apply elem_of_union in Hin as [Hin|Hin]; [|by apply Hc].
    apply elem_of_singleton in Hin as ->. unfold host, update_host. simpl. rewrite list_lookup_alter_eq.
    apply lookup_lt_is_Some_2 in Hb as [h Hh']. rewrite Hh'. simpl. apply (in_hosts_named s ps); [done|].
    by apply list_elem_of_In, list_elem_of_lookup_2 with (b_host b).
  - split; try done. apply Forall_alter; [done|]. intros w Ew _ id Hid. destruct (Hf w Ew) as (_ & _ & Hho).
    destruct (Hho id Hid) as [Hcl|(h & Hin & <- & _)]; [by apply Hc|by apply (in_hosts_named s ps)].
  - split; [done| | |]; autorewrite with pass; try done. apply Hone. destruct Hg as [Hk _ _ _ _ _ _ _].
    split; [|split]; simpl.
    + intros _. split; [done|]. exact Hrep.
    + congruence.
    + by intros ->.
  - split; [done| | |]; autorewrite with pass; try done. apply Hone. split; [done|split; [|done]]. intros _. simpl.
    eexists. split; [done|]. by apply host_named.
  - destruct (leave_act s v i ps) as (a & f & n & Hk & E). rewrite E in *. destruct Hg as [Hi _ _ _].
    assert (In (h_ID (host ps i)) (host_ids s)) by (by apply host_named).
    split; [done| | |]; autorewrite with pass; try done. apply Hone. destruct Hk; (split; [done|split; simpl; [|done]]); eauto.
  - split; [done| | |]; autorewrite with pass; try done. apply Hone. split; [done|split; [|done]]. intros _. simpl.
    eexists. split; [done|]. by apply host_named.
Qed.

Lemma start_names s : names s (start_pass s).
Proof. split; [apply start_hosts|set_solver|constructor|constructor]. Qed.

Lemma plan_names p s : snapshot_ok s ->
  Forall (action_ok (host_ids s)) (fp_Actions (PlanFleet p s)) /\
  Forall (fun w => forall id, w_Host w = Some id -> In id (host_ids s)) (fp_Waits (PlanFleet p s)).
Proof.
  intros Hs. destruct (plan_inv p s (names (counted_snapshot s)) Hs (start_names _)) as (ps & E & [_ _ Hw Ha]).
  { intros ps ps'. apply names_step. }
  rewrite E. by split.
Qed.

(** ** What a pass decides *)

(** ** How a pass may end *)

(** It returns with [P] or with an error of [E]; it neither panics nor
    spins. *)
Definition ends {A} (E : plan_error -> Prop) (P : A -> Prop) (r : go plan_error A) : Prop :=
  match r with Ret a => P a | Err e => E e | Panic | Spins => False end.

Lemma ends_bind {A B} E (P : A -> Prop) (Q : B -> Prop) r f :
  ends E P r -> (forall a, P a -> ends E Q (f a)) -> ends E Q (go_bind r f).
Proof. destruct r; simpl; auto. Qed.

Lemma ends_mono {A} (E F : plan_error -> Prop) (P Q : A -> Prop) r :
  ends E P r -> (forall e, E e -> F e) -> (forall a, P a -> Q a) -> ends F Q r.
Proof. destruct r; simpl; auto. Qed.

Lemma ends_fold {A B} E (P : A -> Prop) (f : A -> B -> go plan_error A) l a :
  (forall a x, P a -> ends E P (f a x)) -> P a -> ends E P (go_fold f l a).
Proof. intros Hf. revert a. induction l as [|x l IH]; intros a Ha; [done|]. eapply ends_bind; [by apply Hf|]. apply IH. Qed.

(** A host cannot be named. *)
Definition unnamed (fresh_id : nat -> option HostID) (e : plan_error) : Prop := e = ErrNameHost /\ exists k, fresh_id k = None.

(** A call of execution fails in some state. *)
Definition call_fails `{!HostContainers} (e : plan_error) : Prop :=
  e = ErrHostContainers /\ exists cs,
    (exists id message, StopHostContainers id message cs = None) \/ (exists ids, EvictContainers ids cs = None) \/
    (exists ids, WakeReleasesOnHosts ids cs = None).

Section Decide.
Context (uuid_text : uuid -> string) (decision_text : MarketPlan -> list FleetAction -> string) (fresh_id : nat -> option HostID).
Context (policy : Policy) (CapacityCooldown MaxHosts : Z) (StorageRegion : string).

(** Hosts a pass may name: ones it read, or ones it buys. *)
Definition named (ids : list HostID) (w : fleetWrites) (id : HostID) : Prop :=
  In id ids \/ exists v, In v (fw_buys w) /\ rq_ID v = id.

Record writes_ok (ids : list HostID) (w : fleetWrites) : Prop := {
  wk_retires : Forall (fun id => In id ids) (fw_retires w);
  wk_buys : forall k v, fw_buys w !! k = Some v -> fresh_id k = Some (rq_ID v) /\ rq_Kind v <> KindMachine }.

(** Writes only gain purchases. *)
Definition more_buys (w w' : fleetWrites) : Prop := fw_buys w `prefix_of` fw_buys w'.

#[local] Instance more_buys_preorder : PreOrder more_buys.
Proof. unfold more_buys. split; [by intros ?|]. intros ? ? ?. apply transitivity. Qed.

Lemma named_more ids w w' id : more_buys w w' -> named ids w id -> named ids w' id.
Proof.
  intros [l E] [Hi|(v & Hv & Hid)]; [by left|]. right. exists v. split; [|done]. rewrite E. apply in_or_app. by left.
Qed.

Lemma buy_writes ids w v :
  writes_ok ids w -> fresh_id (length (fw_buys w)) = Some (rq_ID v) -> rq_Kind v <> KindMachine ->
  let w' := w <| fw_buys := fw_buys w ++ [v] |> in writes_ok ids w' /\ more_buys w w' /\ named ids w' (rq_ID v).
Proof.
  intros [R B] Hid HK. destruct w. cbv zeta. split_and!.
  - split; [done|]. intros k v' E. cbn in E. apply lookup_app_Some in E as [E|[Hl E]]; [by apply B|].
    destruct (k - length _)%nat eqn:D; [|done]. injection E as <-. split; [|done]. rewrite <- Hid. f_equal. cbn in *. lia.
  - exists [v]. done.
  - right. exists v. split; [|done]. cbn. apply in_or_app. right. by left.
Qed.

Lemma account_kind_fleet a : account_kind a <> KindMachine.
Proof. unfold account_kind. by destruct (at_connection a). Qed.

Lemma requested_ok id acct o a : (a_Kind a = ActionRightsize -> a_Host a <> None) ->
  exists v, requested id acct o a = Some v /\ rq_ID v = id /\ rq_Kind v <> KindMachine.
Proof.
  intros Hr. pose proof (account_kind_fleet acct). unfold requested. destruct (a_Kind a); try (eexists; done).
  destruct (a_Host a); [eexists; done|]. by destruct Hr.
Qed.

(** What an applied action leaves. *)
Definition applied_ok (ids : list HostID) (w : fleetWrites) (r : fleetWrites * option HostID) : Prop :=
  writes_ok ids r.1 /\ more_buys w r.1 /\ forall id, r.2 = Some id -> named ids r.1 id.

Lemma applied_host ids w w' h o :
  writes_ok ids w -> In h ids -> fw_buys w' = fw_buys w -> (fw_retires w' = fw_retires w \/ fw_retires w' = fw_retires w ++ [h]) ->
  (o = None \/ o = Some h) -> applied_ok ids w (w', o).
Proof.
  intros [R B] Hin EB ER Eo. split_and!; cbn.
  - split; [|by rewrite EB]. destruct ER as [-> | ->]; [done|]. apply Forall_app. by split; [|constructor].
  - exists []. by rewrite app_nil_r.
  - intros id ->. destruct Eo as [|[= ->]]; [done|by left].
Qed.

(** An action the planner made is applied, and names what it may. *)
Lemma apply_one_ok phase_of acct ids a w :
  action_ok ids a -> writes_ok ids w -> ends (unnamed fresh_id) (applied_ok ids w) (apply_one fresh_id phase_of acct w a).
Proof.
  intros (Hp & Hn & Hm) Hw. unfold apply_one. destruct (purchase (a_Kind a)) eqn:EP.
  - destruct (Hp eq_refl) as [Ho Hh]. destruct (a_Offer a) as [o|]; [|done].
    destruct (fresh_id (length (fw_buys w))) as [id|] eqn:EF.
    + destruct (requested_ok id acct o a Hh) as (v & Hv & Hid & HK). subst id.
      destruct (buy_writes ids w v Hw EF HK) as (B1 & B2 & B3). rewrite Hv.
      assert (Hr : applied_ok ids w (w <| fw_buys := fw_buys w ++ [v] |>, Some (rq_ID v))).
      { split_and!; [done..|]. by intros id [= <-]. }
      by destruct (a_Kind a).
    + assert (Hr : unnamed fresh_id ErrNameHost) by (split; eauto). by destruct (a_Kind a).
  - destruct (Hn eq_refl) as (h & Hh & Hin). rewrite Hh.
    destruct (a_Kind a) eqn:EK; try done; cbn [ends]; try (eapply applied_host; [done|exact Hin|destruct w; auto; done..]).
    + destruct (a_Mode a) as [mode|]; [|by destruct Hm].
      destruct (mode == ReserveHibernate); (eapply applied_host; [done|exact Hin|destruct w; auto..]).
    + destruct (phase_of h) as [[]|]; (eapply applied_host; [done|exact Hin|destruct w; auto..]).
Qed.

Lemma apply_ok phase_of acct ids i actions w :
  Forall (action_ok ids) actions -> writes_ok ids w ->
  ends (unnamed fresh_id) (fun r => writes_ok ids r.1 /\ more_buys w r.1 /\ forall n id, r.2 !! n = Some id -> named ids r.1 id)
    (apply_from fresh_id i phase_of acct actions w).
Proof.
  intros HA. revert i w. induction HA as [|a actions Ha _ IH]; intros i w Hw; cbn [apply_from].
  { split_and!; [done|done|]. intros n id. cbn. by rewrite lookup_empty. }
  eapply ends_bind; [by apply apply_one_ok|]. intros [w1 o] (W1 & M1 & N1).
  eapply ends_bind; [apply (IH (S i) w1 W1)|]. intros [w2 bought] (W2 & M2 & N2). cbn [fst snd] in *.
  split_and!; [done|by etrans|]. intros n id. cbn. destruct o as [h|]; [|apply N2].
  destruct (decide (n = i)) as [->|Hn]; [|rewrite lookup_insert_ne by done; apply N2].
  rewrite lookup_insert_eq. intros [= <-]. eapply named_more; [exact M2|]. by apply N1.
Qed.

(** ** Snapshots *)

(** The containers of a batch. *)
Definition batch_ids (rows : list PendingDemandRow) : list uuid := flat_map (fun g => map (fun c => c.1.1.1) (dr_Containers g)) rows.

Context (batch : list uuid).

Record pass_ok (ids : list HostID) (ps : fleetPass) : Prop := {
  pk_writes : writes_ok ids (fq_w ps);
  pk_batch : forall c, In c batch -> is_Some (fq_waits ps !! c);
  pk_waits : forall c row id, fq_waits ps !! c = Some row -> wr_host row = Some id -> named ids (fq_w ps) id }.

(** What the statements a pass reads with guarantee of its rows. *)
Record read_ok (r : fleetRead) : Prop := {
  rd_hosts : NoDup (map ph_ID (or_hosts (fr_offers r)));
  rd_pending : NoDup (batch_ids (fr_pending r));
  rd_shapes : Forall (fun g => 0 <= dr_CPUMillis g /\ 0 <= dr_MemoryBytes g /\ 0 <= dr_GPUCount g) (fr_pending r);
  rd_gpus : Forall (fun g => is_set (dr_Gpus g) = true) (fr_pending r) }.

Lemma pendingGroups_ok rows :
  Forall (fun g => is_set (dr_Gpus g) = true) rows ->
  exists groups, pendingGroups rows = Ret groups /\
    sublist (flat_map (fun g => map pd_ID (dg_Containers (pg_group g))) groups)
      (batch_ids rows) /\
    Forall (fun g => exists r gpus, In r rows /\ g = group_of r gpus) groups.
Proof.
  unfold batch_ids. induction 1 as [|r rows Hr _ (groups & E & Hs & Hg)]; [by exists []|]. cbn [pendingGroups flat_map].
  assert (Hg' : Forall (fun g => exists r0 gpus, In r0 (r :: rows) /\ g = group_of r0 gpus) groups).
  { eapply Forall_impl; [exact Hg|]. intros g (r0 & gpus & Hin & ->). exists r0, gpus. split; [by right|done]. }
  destruct (dr_Machine r != "").
  - exists groups. split_and!; [done| |done]. by apply sublist_inserts_l.
  - destruct (dr_Gpus r) as [gpus|]; [|done]. rewrite E. cbn [go_bind]. eexists. split_and!; [done| |].
    + cbn [flat_map]. apply sublist_app; [|done]. cbn. rewrite map_map.
      erewrite map_ext; [reflexivity|]. by intros [[[? ?] ?] ?].
    + constructor; [|done]. exists r, gpus. split; [by left|done].
Qed.

Lemma flat_map_filter_sublist {A B} (f : A -> list B) (q : A -> bool) l : sublist (flat_map f (List.filter q l)) (flat_map f l).
Proof.
  induction l as [|x l IH]; [done|]. cbn [List.filter]. destruct (q x); cbn [flat_map]; [by apply sublist_app|by apply sublist_inserts_l].
Qed.

Lemma fleet_hosts_ids a now rows : sublist (map h_ID (fleet_hosts a now rows)) (map ph_ID rows).
Proof.
  unfold fleet_hosts, own_rows. rewrite map_map. rewrite (map_ext _ ph_ID) by done. apply sublist_map.
  etrans; [apply sublist_List_filter|apply sublist_List_filter].
Qed.

Lemma asleep_launched r now : Steps.asleep (fleetHostOf r now) = true -> h_Requested (fleetHostOf r now) = false.
Proof.
  unfold Steps.asleep, resumable, fleetHostOf, fleetStateOf. cbn. destruct (hr_phase (ph_row r)); try done.
  by destruct (is_set (hr_reserve_mode (ph_row r))).
Qed.

Lemma catalog_names : NoDup (map t_Name FleetCatalog).
Proof. apply (bool_decide_unpack _). by vm_compute. Qed.

Lemma catalog_vcpus : forallb (fun t => 0 <=? VCPUs t) FleetCatalog = true.
Proof. by vm_compute. Qed.

(** The snapshot an account is planned from is one [PlanFleet] is proved for. *)
Lemma account_snapshot_ok r a groups :
  read_ok r -> pendingGroups (fr_pending r) = Ret groups ->
  snapshot_ok (account_snapshot uuid_text CapacityCooldown MaxHosts StorageRegion r a groups).
Proof.
  intros [RH RP RS RG] EG. destruct (pendingGroups_ok _ RG) as (groups' & EG' & HS & HF). rewrite EG in EG'. injection EG' as <-.
  split.
  - eapply sublist_NoDup; [exact RH|]. apply fleet_hosts_ids.
  - eapply sublist_NoDup; [exact RP|]. etrans; [|exact HS]. unfold pending_ids. cbn [s_Pending account_snapshot].
    rewrite flat_map_concat_map, map_map, <- flat_map_concat_map. apply flat_map_filter_sublist.
  - intros h Hin. cbn [s_Hosts account_snapshot] in Hin. apply in_map_iff in Hin as (row & <- & _). apply asleep_launched.
  - intros g Hin. cbn [s_Pending account_snapshot] in Hin. apply in_map_iff in Hin as (pg & <- & Hpg). apply filter_In in Hpg as [Hpg _].
    rewrite List.Forall_forall in HF, RS. destruct (HF pg Hpg) as (row & gpus & Hrow & ->). destruct (RS row Hrow) as (? & ? & ?).
    unfold cap_nonneg, cap_le, reservedShape, GPUsNeeded. cbn. destruct (_ && _); lia.
  - apply catalog_names.
  - intros t Hin. pose proof catalog_vcpus as HV. rewrite forallb_forall in HV. apply HV in Hin. lia.
Qed.

#[local] Instance with_offers_ok s i :
  snapshot_ok s -> Catalog i = Catalog (s_Offers s) -> snapshot_ok (s_with_Offers s i).
Proof. intros [] E. split; try done; cbn; [by rewrite E|]. unfold vcpus_nonneg in *. cbn. by rewrite E. Qed.


Lemma action_ok_more ids ids' a : incl ids ids' -> action_ok ids a -> action_ok ids' a.
Proof. intros Hi (H1 & H2 & H3). split_and!; try done. intros Hp. destruct (H2 Hp) as (id & ? & ?). eauto. Qed.

(** A change of the pass that leaves retires, purchases and waits alone. *)
Lemma pass_ok_same ids ps ps' :
  fw_retires (fq_w ps') = fw_retires (fq_w ps) -> fw_buys (fq_w ps') = fw_buys (fq_w ps) -> fq_waits ps' = fq_waits ps ->
  pass_ok ids ps -> pass_ok ids ps'.
Proof.
  intros ER EB EW [[R B] D W]. split; [split; by rewrite ?ER, ?EB|by rewrite EW|]. rewrite EW. unfold named. rewrite EB. exact W.
Qed.

Lemma wait_row_named ids w bought cw :
  (forall n id, bought !! n = Some id -> named ids w id) -> (forall id, w_Host cw = Some id -> In id ids) ->
  forall id, wr_host (wait_row bought cw) = Some id -> named ids w id.
Proof.
  intros HB HH id. unfold wait_row. destruct (w_Host cw) as [h|]; [intros [= <-]; left; by apply HH|].
  destruct (w_Action cw) as [n|]; [|done]. destruct (bought !! n) as [h|] eqn:E; [|done]. intros [= <-]. by eapply HB.
Qed.

Lemma settle_one_ok ids traces bought cw ps :
  (forall n id, bought !! n = Some id -> named ids (fq_w ps) id) -> (forall id, w_Host cw = Some id -> In id ids) ->
  pass_ok ids ps -> pass_ok ids (settle_one traces bought ps cw) /\ fq_w (settle_one traces bought ps cw) = fq_w ps.
Proof.
  intros HB HH [K D W]. split; [|by destruct ps].
  assert (EW : fq_waits (settle_one traces bought ps cw) = <[w_Container cw := wait_row bought cw]> (fq_waits ps)) by by destruct ps.
  assert (Ew : fq_w (settle_one traces bought ps cw) = fq_w ps) by by destruct ps. split; rewrite ?EW, ?Ew; [done| |].
  { intros c Hc. destruct (decide (c = w_Container cw)) as [->|Hn]; [rewrite lookup_insert_eq; eauto|].
    rewrite lookup_insert_ne by done. by apply D. }
  intros c row id. destruct (decide (c = w_Container cw)) as [->|Hc]; [|rewrite lookup_insert_ne by done; apply W].
  rewrite lookup_insert_eq. intros [= <-]. by eapply wait_row_named.
Qed.

Lemma settleWaits_ok ids traces bought plan ps :
  (forall n id, bought !! n = Some id -> named ids (fq_w ps) id) ->
  Forall (fun w => forall id, w_Host w = Some id -> In id ids) (fp_Waits plan) ->
  pass_ok ids ps -> pass_ok ids (settleWaits traces plan bought ps).
Proof.
  unfold settleWaits. intros HB HF. revert ps HB. induction HF as [|cw ws Hw _ IH]; intros ps HB Hp; [done|]. cbn [fold_left].
  destruct (settle_one_ok ids traces bought cw ps HB Hw Hp) as [Hp' Ew]. apply IH; [by rewrite Ew|done].
Qed.

Lemma account_pass_ok r traces groups ps a :
  read_ok r -> pendingGroups (fr_pending r) = Ret groups ->
  pass_ok (map ph_ID (or_hosts (fr_offers r))) ps ->
  ends (unnamed fresh_id) (pass_ok (map ph_ID (or_hosts (fr_offers r))))
    (account_pass uuid_text decision_text fresh_id policy CapacityCooldown MaxHosts StorageRegion r traces groups ps a).
Proof.
  intros HR HG Hp. set (ids := map ph_ID (or_hosts (fr_offers r))) in *. unfold account_pass. cbv zeta.
  set (s := account_snapshot uuid_text CapacityCooldown MaxHosts StorageRegion r a groups).
  assert (Hs : snapshot_ok s) by (by apply account_snapshot_ok).
  assert (Hids : incl (host_ids s) ids).
  { intros id. apply sublist_In, fleet_hosts_ids. }
  destruct (_ && _ && _); [eapply pass_ok_same, Hp; by destruct ps as [? [] ? ? ?]|].
  unfold planOwner. set (p := if at_inUse a then policy else unusedPolicy policy).
  set (s' := s_with_Offers s _). assert (Hs' : snapshot_ok s') by (by apply with_offers_ok).
  destruct (plan_names p s' Hs') as [HA HW]. change (host_ids s') with (host_ids s) in *.
  match goal with |- context [apply fresh_id _ _ _ (fq_w ?x)] => set (ps1 := x) end.
  assert (Hp1 : pass_ok ids ps1) by (eapply pass_ok_same, Hp; by destruct ps as [? [] ? ? ?]).
  eapply ends_bind.
  { apply (apply_ok _ a ids 0); [|apply Hp1]. eapply Forall_impl; [exact HA|]. intros x. by apply action_ok_more. }
  intros [w bought] (K & M & N). cbn [fst snd] in *.
  assert (Hp2 : pass_ok ids (ps1 <| fq_w := w |>)).
  { split; [done|apply Hp1|]. intros c row id Hc Hi. eapply named_more; [exact M|]. by eapply (pk_waits _ _ Hp1). }
  pose proof (settleWaits_ok ids traces bought (PlanFleet p s') (ps1 <| fq_w := w |>) N) as Hset.
  specialize (Hset ltac:(eapply Forall_impl; [exact HW|]; intros x Hx id Hid; by apply Hids, (Hx id Hid)) Hp2).
  eapply pass_ok_same, Hset; unfold publish; destruct (_ && _ && _);
    match goal with |- context [settleWaits ?a ?b ?c ?d] => by destruct (settleWaits a b c d) as [? [] ? ? ?] end.
Qed.

Lemma decide_ok r :
  read_ok r -> batch = batch_ids (fr_pending r) ->
  ends (unnamed fresh_id) (pass_ok (map ph_ID (or_hosts (fr_offers r))))
    (decide_pass uuid_text decision_text fresh_id policy CapacityCooldown MaxHosts StorageRegion r).
Proof.
  intros HR HB. unfold decide_pass. destruct (pendingGroups_ok _ (rd_gpus _ HR)) as (groups & EG & _). rewrite EG. cbn [go_bind].
  apply ends_fold.
  - intros ps a Hp. destruct (at_hosting a); [by apply account_pass_ok|done].
  - split; [split; [constructor|done]| |].
    { intros c Hc. cbn. destruct (list_to_map _ !! c) eqn:EC; [by eexists|]. apply not_elem_of_list_to_map in EC. destruct EC.
      rewrite HB in Hc. apply in_flat_map in Hc as (g & Hg & Hc). apply in_map_iff in Hc as ([[[i b] tr] at_] & <- & Hin).
      apply list_elem_of_fmap. exists (i, no_wait). split; [done|]. apply list_elem_of_In, in_flat_map. exists g. split; [done|].
      apply in_map_iff. by exists (i, b, tr, at_). }
    cbn. intros c row id Hc. apply elem_of_list_to_map_2 in Hc.
    apply list_elem_of_In, in_flat_map in Hc as (g & _ & Hc). apply in_map_iff in Hc as ([[[? ?] ?] ?] & [= <- <-] & _). done.
Qed.

End Decide.

(** ** Writing *)

(** Purchases insert when their ids are new and distinct. *)
Lemma insert_rows_ok host_name rows now t :
  NoDup (map rq_ID rows) -> (forall v, In v rows -> t !! rq_ID v = None) ->
  exists t', InsertRequestedHosts host_name rows now t = Some t' /\
    (forall v, In v rows -> t' !! rq_ID v = Some (requested_row host_name now v)) /\
    (forall id, ~ In id (map rq_ID rows) -> t' !! id = t !! id).
Proof.
  unfold InsertRequestedHosts. revert t. induction rows as [|v rows IH]; intros t Hnd Hnew; [exists t; split_and!; done|].
  cbn [map] in Hnd. apply NoDup_cons in Hnd as [Hv Hnd]. cbn [fold_left]. assert (EI : insert_row (rq_ID v) (requested_row host_name now v) t = Some (<[rq_ID v := requested_row host_name now v]> t)).
  { unfold insert_row. by rewrite (Hnew v) by by left. }
  cbn [mbind option_bind]. rewrite EI. destruct (IH (<[rq_ID v := requested_row host_name now v]> t) Hnd) as (t' & E & Hin & Hout).
  { intros v' Hv'. rewrite lookup_insert_ne; [apply Hnew; by right|]. intros Eq. apply Hv, list_elem_of_In, in_map_iff. by exists v'. }
  exists t'. split_and!; [exact E| |].
  - intros v' [<-|Hv']; [|by apply Hin]. rewrite Hout by (by rewrite <- list_elem_of_In). apply lookup_insert_eq.
  - intros id Hid. cbn in Hid. rewrite Hout by tauto. rewrite lookup_insert_ne; [done|]. intros Eq. apply Hid. by left.
Qed.

(** A requested row no statement of the pass but [RetireReserves] selects. *)
Lemma where_skip guard f t id h : t !! id = Some h -> guard id h = false -> update_where guard f t !! id = Some h.
Proof. intros E G. rewrite update_where_lookup, E. cbn. by rewrite G. Qed.

Section Write.
Context (workspace_name : uuid -> string) (id_text : HostID -> string) (pinned : list uuid -> string -> list string).
Context `{!HostContainers} (host_name : HostID -> string) (fresh_id : nat -> option HostID) (CapacityCooldown now : Z) (j : join_db).
Abbreviation run := (run workspace_name id_text pinned).

Definition at_db (d : plan_db) : world := mkWorld (with_hosts j (pd_hosts d)) (pd_containers d).

(** One statement of the pass, with what it does to containers. *)
Lemma run_write d t' cs' : stmt (pd_containers d) (pd_hosts d) t' -> run (at_db d) (mkWorld (with_hosts j t') cs').
Proof.
  intros Hs. eapply run_step; [|apply step_containers]. eapply run_step; [apply run_refl|].
  apply (step_stmt _ _ _ (with_hosts j (pd_hosts d)) (pd_containers d) t' Hs).
Qed.

(** A write of the pass: a run that keeps requested rows [keep] names. *)
Definition writes (keep : HostID -> Prop) (d d' : plan_db) : Prop :=
  run (at_db d) (at_db d') /\ table_step true (pd_hosts d) (pd_hosts d') /\
  (forall id h, keep id -> pd_hosts d !! id = Some h -> hr_phase h = PhaseRequested -> pd_hosts d' !! id = Some h).

#[local] Instance writes_trans keep : Transitive (writes keep).
Proof.
  intros x y z (A1 & A2 & A3) (B1 & B2 & B3). split_and!; [by etrans|by etrans|]. intros id h Hk E HP. apply B3; [done| |done]. by apply A3.
Qed.

Lemma write_one (keep : HostID -> Prop) d t' cs' pools markets :
  stmt (pd_containers d) (pd_hosts d) t' ->
  (forall id h, keep id -> pd_hosts d !! id = Some h -> hr_phase h = PhaseRequested -> t' !! id = Some h) ->
  writes keep d (mkPlanDB t' cs' pools markets).
Proof. intros Hs Hk. split_and!; [by apply run_write|by eapply stmt_step|done]. Qed.

(** The calls a pass makes to execution return or fail. *)
Lemma stop_ends id message cs : ends call_fails (fun _ => True) (asked_by_pass (StopHostContainers id message cs)).
Proof. unfold asked_by_pass. destruct (StopHostContainers id message cs) eqn:E; [done|]. split; [done|]. exists cs. left. eauto. Qed.
Lemma evict_ends rows ids cs : ends call_fails (fun _ => True) (evictPacked rows ids cs).
Proof.
  unfold evictPacked, asked_by_pass. case_match; [done|].
  case_match; [done|]. split; [done|]. exists cs. right. left. eauto.
Qed.
Lemma wake_ends ids cs : ends call_fails (fun _ => True) (asked_by_pass (WakeReleasesOnHosts ids cs)).
Proof. unfold asked_by_pass. destruct (WakeReleasesOnHosts ids cs) eqn:E; [done|]. split; [done|]. exists cs. right. right. eauto. Qed.

Lemma stuck_writes keep w d :
  ends call_fails (fun r => writes keep d r.1 /\ forall id, pd_hosts d !! id = None -> pd_hosts r.1 !! id = None) (write_stuck now w d).
Proof.
  unfold write_stuck. destruct (fw_stuck w) as [|i l] eqn:E.
  - split; [|done]. split_and!; [constructor|done|done].
  - cbv beta iota delta [FailPreparing]. eapply ends_bind; [apply (ends_fold _ (fun _ => True)); [|done]; intros; apply stop_ends|].
    intros cs _. destruct d as [t cs0 pools markets]. split.
    + apply write_one; [exact (st_FailPreparing _ _ (i :: l) preparingLimit (unproven_message) now)|].
      intros id h _ Hh HP. apply where_skip; [done|]. unfold overdue. by rewrite HP, andb_false_r.
    + intros id EN. cbn in EN. etrans; [apply update_where_lookup|]. cbn [pd_hosts]. by rewrite EN.
Qed.

Lemma resumes_writes keep w d : writes keep d (write_resumes now w d).1.
Proof.
  destruct d. apply write_one; [apply st_ResumeReserves|]. intros id h _ Hh HP. apply where_skip; [done|].
  unfold can_resume. by rewrite HP, andb_false_r.
Qed.

Lemma leaving_writes keep rows f d :
  stmt (pd_containers d) (pd_hosts d) (f (pd_containers d) (pd_hosts d)).1 ->
  (forall id h, pd_hosts d !! id = Some h -> hr_phase h = PhaseRequested -> (f (pd_containers d) (pd_hosts d)).1 !! id = Some h) ->
  ends call_fails (fun r => writes keep d r.1) (write_leaving rows f d).
Proof.
  intros Hs Hk. unfold write_leaving. destruct (f (pd_containers d) (pd_hosts d)) as [t ids]. eapply ends_bind; [apply evict_ends|].
  intros cs _. destruct d. cbn. apply write_one; [exact Hs|]. intros id h _. apply Hk.
Qed.

Lemma returns_writes keep rows ids hibernate d :
  ends call_fails (fun r => writes keep d r.1) (write_leaving rows (ReturnToReserve ids hibernate now) d).
Proof.
  apply leaving_writes; [apply st_ReturnToReserve|]. intros id h Hh HP. apply where_skip; [done|].
  unfold can_return. by rewrite HP, andb_false_r.
Qed.

Lemma drains_writes keep rows ids reason d :
  ends call_fails (fun r => writes keep d r.1) (write_leaving rows (DrainHosts ids reason now) d).
Proof.
  apply leaving_writes; [apply st_DrainHosts|]. intros id h Hh HP. apply where_skip; [done|].
  unfold drainable. by rewrite HP, andb_false_r.
Qed.

Lemma hands_writes keep w d : ends call_fails (fun r => writes keep d r.1) (write_hands now w d).
Proof.
  unfold write_hands. case_bool_decide; [split_and!; [constructor|done|done]|]. cbv beta iota delta [SetHandsBack].
  eapply ends_bind; [apply wake_ends|]. intros cs _. destruct d. apply write_one; [apply (st_SetHandsBack _ _ (fw_handBacks w) (fw_lends w) now)|].
  intros id h _ Hh HP. apply where_skip; [done|]. unfold hands. by rewrite HP, andb_false_r.
Qed.

Lemma retires_writes (keep : HostID -> Prop) w d :
  aws_ids (fw_retires w) (pd_hosts d) -> (forall id, keep id -> ~ In id (fw_retires w)) -> writes keep d (write_retires now w d).1.
Proof.
  intros HA HK. destruct d. apply write_one; [by apply st_RetireReserves|]. intros id h Hk Hh HP. apply where_skip; [done|].
  unfold can_retire, any_of. rewrite bool_decide_eq_false_2; [done|]. rewrite list_elem_of_In. by apply HK.
Qed.

Lemma buys_nodup ids w :
  (forall i k id, fresh_id i = Some id -> fresh_id k = Some id -> i = k) -> writes_ok fresh_id ids w -> NoDup (map rq_ID (fw_buys w)).
Proof.
  intros Hinj [_ B]. apply NoDup_alt. intros i k id Hi Hk. apply (Hinj i k id);
    rewrite list_lookup_fmap in Hi, Hk; (destruct (fw_buys w !! i) as [v|] eqn:Ei; [|done]);
    (destruct (fw_buys w !! k) as [v'|] eqn:Ek; [|done]); cbn in Hi, Hk;
    destruct (B i v Ei) as [F _], (B k v' Ek) as [F' _]; congruence.
Qed.

(** A row of the table after a step of it. *)
Lemma step_row t t' id h : table_step true t t' -> t !! id = Some h -> exists h', t' !! id = Some h' /\ hr_provider h' = hr_provider h.
Proof.
  intros Hs E. specialize (Hs id). rewrite E in Hs. unfold row_step in Hs. destruct (t' !! id) as [h'|]; [|done].
  exists h'. split; [done|apply Hs].
Qed.

(** The waits, cooldowns and markets come last and leave hosts alone. *)
Lemma last_writes keep w waits d : writes keep d (write_markets w (write_cools CapacityCooldown now w (writeWaits waits d))).
Proof. split_and!; [eapply run_step; [constructor|]; apply step_containers|by destruct d|by destruct d]. Qed.

(** The purchases are inserted: their ids are new and distinct. *)
Lemma buys_writes ids w d :
  writes_ok fresh_id ids w -> (forall v, In v (fw_buys w) -> pd_hosts d !! rq_ID v = None) ->
  (forall i k id, fresh_id i = Some id -> fresh_id k = Some id -> i = k) ->
  exists d' n, write_buys host_name now w d = Ret (d', n) /\ run (at_db d) (at_db d') /\ table_step true (pd_hosts d) (pd_hosts d') /\
    forall v, In v (fw_buys w) -> pd_hosts d' !! rq_ID v = Some (requested_row host_name now v).
Proof.
  intros HK Hnew Hinj. unfold write_buys.
  destruct (insert_rows_ok host_name (fw_buys w) now (pd_hosts d)) as (t & E & I & _); [by eapply buys_nodup|done|]. rewrite E.
  assert (HS : stmt (pd_containers d) (pd_hosts d) t).
  { eapply st_InsertRequestedHosts; [|exact E]. apply List.Forall_forall. intros v Hv.
    apply list_elem_of_In, list_elem_of_lookup in Hv as [k Hk]. apply (wk_buys _ _ _ HK k v Hk). }
  eexists _, _. split; [done|]. destruct d. split_and!; [by apply run_write|by eapply stmt_step|exact I].
Qed.

(** What a pass that commits leaves. *)
Definition written (ids : list HostID) (ps : fleetPass) (d d' : plan_db) : Prop :=
  run (at_db d) (at_db d') /\
  (forall id, named ids (fq_w ps) id -> exists h, pd_hosts d' !! id = Some h /\ hr_provider h = ProviderAWS /\
     (pd_hosts d !! id = None -> hr_phase h = PhaseRequested)) /\
  exists cs, pd_containers d' = SetCapacityWaits
    ((fun r => (if wr_wait r == WaitNone then None else Some (wr_wait r), wr_host r)) <$> fq_waits ps) cs.

(** The moves between the purchases and the retirements. *)
Lemma moves_written ids ps d d1 d2 d7 :
  let w := fq_w ps in let keep := fun id => exists v, In v (fw_buys w) /\ rq_ID v = id in
  Forall (fun id => In id ids) (fw_retires w) ->
  (forall id, In id ids -> exists h, pd_hosts d !! id = Some h /\ hr_provider h = ProviderAWS) ->
  (forall id, keep id -> pd_hosts d !! id = None) -> writes (fun _ => True) d d1 ->
  run (at_db d1) (at_db d2) -> table_step true (pd_hosts d1) (pd_hosts d2) ->
  (forall v, In v (fw_buys w) -> pd_hosts d2 !! rq_ID v = Some (requested_row host_name now v)) -> writes keep d2 d7 ->
  written ids ps d (write_markets w (write_cools CapacityCooldown now w (writeWaits (fq_waits ps) (write_retires now w d7).1))).
Proof.
  intros w keep HR Hids Hkeep S1 S2 S2' I2 S27. rewrite List.Forall_forall in HR.
  assert (Hstep : table_step true (pd_hosts d) (pd_hosts d7)) by (etrans; [apply S1|]; etrans; [apply S2'|apply S27]).
  assert (HA : aws_ids (fw_retires w) (pd_hosts d7)).
  { intros id h Hi E. destruct (Hids id (HR id ltac:(by apply list_elem_of_In))) as (h0 & E0 & <-).
    destruct (step_row _ _ _ _ Hstep E0) as (h' & E' & <-). congruence. }
  assert (Hne : forall id, keep id -> ~ In id (fw_retires w)).
  { intros id Hk Hi. apply Hkeep in Hk. destruct (Hids id (HR id Hi)) as (h & E & _). congruence. }
  pose proof (retires_writes keep w d7 HA Hne) as S8. set (d8 := (write_retires now w d7).1) in *.
  pose proof (last_writes keep w (fq_waits ps) d8) as S9. set (d9 := write_markets _ _) in *.
  assert (S29 : writes keep d2 d9) by (etrans; [exact S27|]; etrans; [exact S8|exact S9]).
  split_and!.
  - etrans; [apply S1|]. etrans; [apply S2|apply S29].
  - intros id [Hi|(v & Hv & <-)].
    + destruct (Hids id Hi) as (h & E & HP). assert (HS : table_step true (pd_hosts d) (pd_hosts d9)) by
        (etrans; [apply S1|]; etrans; [apply S2'|apply S29]).
      destruct (step_row _ _ _ _ HS E) as (h' & E' & HP'). exists h'. split_and!; [done|congruence|congruence].
    + exists (requested_row host_name now v). split_and!; [|done|done]. apply S29; [by exists v| |done]. by apply I2.
  - exists (pd_containers d8). by destruct d8.
Qed.

Lemma write_pass_ok batch rows ids ps d :
  pass_ok fresh_id batch ids ps -> (forall id, In id ids -> exists h, pd_hosts d !! id = Some h /\ hr_provider h = ProviderAWS) ->
  (forall k id, fresh_id k = Some id -> pd_hosts d !! id = None) ->
  (forall i k id, fresh_id i = Some id -> fresh_id k = Some id -> i = k) ->
  ends call_fails (fun r => written ids ps d r.1) (write_pass host_name CapacityCooldown now rows ps d).
Proof.
  intros [HK _ _] Hids Hfresh Hinj. set (w := fq_w ps) in *. set (keep := fun id => exists v, In v (fw_buys w) /\ rq_ID v = id).
  assert (Hkeep : forall id, keep id -> pd_hosts d !! id = None).
  { intros id (v & Hv & <-). apply list_elem_of_In, list_elem_of_lookup in Hv as [k Hk].
    eapply Hfresh. apply (wk_buys _ _ _ HK k v Hk). }
  unfold write_pass. change (forallb _ pass_moves) with true. cbn [negb]. cbv zeta. fold w.
  eapply ends_bind; [apply (stuck_writes (fun _ => True))|]. intros [d1 failed] [S1 N1]. cbn [fst] in *.
  destruct (buys_writes ids w d1 HK) as (d2 & n & -> & S2 & S2' & I2); [intros v Hv; apply N1, Hkeep; by exists v|done|]. cbn [go_bind].
  pose proof (resumes_writes keep w d2) as S3. destruct (write_resumes now w d2) as [d3 resumed]. cbn [fst] in S3.
  eapply ends_bind; [apply (returns_writes keep)|]. intros [d4 returned] S4. cbn [fst] in S4.
  eapply ends_bind; [apply (drains_writes keep)|]. intros [d5 drained] S5. cbn [fst] in S5.
  eapply ends_bind; [apply (drains_writes keep)|]. intros [d6 surplus] S6. cbn [fst] in S6.
  eapply ends_bind; [apply (hands_writes keep)|]. intros [d7 changed] S7. cbn [fst] in S7.
  assert (S27 : writes keep d2 d7) by (do 4 (etrans; [eassumption|]); exact S7).
  pose proof (moves_written ids ps d d1 d2 d7 (wk_retires _ _ _ HK) Hids Hkeep S1 S2 S2' I2 S27) as HW. fold w in HW.
  by destruct (write_retires now w d7) as [d8 retired].
Qed.
End Write.

(** ** The theorem *)

Lemma planner_ids use cooldown now t : map ph_ID (PlannerHosts use cooldown now t) =
  map fst (sort_by (fun a b => Z.compare a.1 b.1) (List.filter (fun r => planner_host r.2) (map_to_list t))).
Proof. unfold PlannerHosts. rewrite map_map. apply map_ext. by intros [id h]. Qed.

Lemma planner_ids_nodup use cooldown now t : NoDup (map ph_ID (PlannerHosts use cooldown now t)).
Proof.
  rewrite planner_ids. rewrite (Permutation_map fst (sort_by_perm (fun a b => Z.compare a.1 b.1) _)).
  eapply sublist_NoDup; [apply (NoDup_fst_map_to_list t)|]. apply sublist_map, sublist_List_filter.
Qed.

Lemma planner_ids_cloud use cooldown now t id :
  In id (map ph_ID (PlannerHosts use cooldown now t)) -> exists h, t !! id = Some h /\ hr_provider h = ProviderAWS.
Proof.
  rewrite planner_ids. intros ([i h] & <- & Hin)%in_map_iff. apply sort_by_In, filter_In in Hin as [Hin Hp]. exists h.
  split; [by apply elem_of_map_to_list, list_elem_of_In|]. unfold planner_host in Hp. cbn in Hp. by read_guard.
Qed.

(** C6: a pass under the fleet's lock commits, unless a call it makes to
    execution fails or a host it buys cannot be named; then it returns that
    error and writes nothing. It never panics, spins or fails otherwise. What
    it writes to hosts is a sequence of transactions of the lifecycle; and once
    it has committed, the host a pending container of its batch waits for is a
    cloud host of the table, one just requested if the table did not have it
    before. Assumed of what it reads: its hosts are the rows of
    [PlannerHosts], its pending containers have distinct ids, ask for no
    negative CPU, memory or GPUs and name GPUs that decode; and an id
    [uuid.NewV7] makes is new to the table and made once. *)
Theorem Plan_commits workspace_name id_text pinned `{!HostContainers} uuid_text decision_text fresh_id host_name CapacityCooldown MaxHosts
    StorageRegion use read now d j :
  or_hosts (fr_offers (read d)) = PlannerHosts use CapacityCooldown now (pd_hosts d) ->
  NoDup (batch_ids (fr_pending (read d))) ->
  Forall (fun g => 0 <= dr_CPUMillis g /\ 0 <= dr_MemoryBytes g /\ 0 <= dr_GPUCount g /\ is_set (dr_Gpus g) = true) (fr_pending (read d)) ->
  (forall k id, fresh_id k = Some id -> pd_hosts d !! id = None) ->
  (forall i k id, fresh_id i = Some id -> fresh_id k = Some id -> i = k) ->
  match Plan uuid_text decision_text fresh_id host_name CapacityCooldown MaxHosts StorageRegion true read now d with
  | Ret (d', Some _) =>
      run workspace_name id_text pinned (at_db j d) (at_db j d') /\
      forall c row id, In c (batch_ids (fr_pending (read d))) -> pd_containers d' !! c = Some row -> c_state row = ContainerPending ->
        c_capacity_host row = Some id ->
        exists h, pd_hosts d' !! id = Some h /\ hr_provider h = ProviderAWS /\ (pd_hosts d !! id = None -> hr_phase h = PhaseRequested)
  | Err e => call_fails e \/ unnamed fresh_id e
  | _ => False
  end.
Proof.
  intros EH HND HF Hnew Hinj. set (r := read d) in *.
  assert (HR : read_ok r).
  { split; [rewrite EH; apply planner_ids_nodup|done| |]; eapply Forall_impl; try exact HF; by intros g (? & ? & ? & ?). }
  pose proof (decide_ok uuid_text decision_text fresh_id DefaultPolicy CapacityCooldown MaxHosts StorageRegion _ r HR eq_refl) as HD.
  unfold Plan. cbn [negb]. fold r. destruct (decide_pass _ _ _ _ _ _ _ r) as [ps|e| |]; [|by right|done..]. cbn [ends go_bind] in HD |- *.
  pose proof (write_pass_ok workspace_name id_text pinned host_name fresh_id CapacityCooldown now j _ (or_hosts (fr_offers r)) _ ps d HD) as HW.
  specialize (HW ltac:(intros id Hi; rewrite EH in Hi; by eapply planner_ids_cloud) Hnew Hinj).
  destruct (write_pass _ _ _ _ ps d) as [[d' out]|e| |]; [|by left|done..]. cbn in HW |- *.
  destruct HW as (Hrun & Hnamed & cs & EC). split; [done|].
  intros c row id Hc Erow Hs Hh. apply Hnamed. destruct (pk_batch _ _ _ _ HD c Hc) as [wr Ewr].
  rewrite EC in Erow. unfold SetCapacityWaits in Erow. rewrite map_lookup_imap in Erow. destruct (cs !! c) as [row0|]; [|done].
  cbn in Erow. injection Erow as <-. rewrite lookup_fmap, Ewr in Hs, Hh. cbn in Hs, Hh.
  eapply (pk_waits _ _ _ _ HD c wr id Ewr).
  destruct (bool_decide_reflect (c_state row0 = ContainerPending)) as [P|P]; [by destruct row0|]. by destruct row0.
Qed.

(** ** Traces *)

(** A traced container's wait is recorded in every pass, whether or not the
    pass changed it: the traces carry no earlier wait to compare with. *)
Lemma settle_traces_unchanged rows bought ps cw t :
  traces_of rows !! w_Container cw = Some t -> pt_traceparent t <> "" ->
  wr_host (wait_row bought cw) = pt_bought t -> wr_wait (wait_row bought cw) <> WaitNone ->
  fq_decisions (settle_one (traces_of rows) bought ps cw) =
    fq_decisions ps ++ [mkDecision (pt_traceparent t) (w_Container cw) (wait_row bought cw)].
Proof.
  intros Et Htp Hb Hw.
  assert (HN : pt_wait t = WaitNone).
  { unfold traces_of in Et. apply elem_of_list_to_map_2, list_elem_of_In, in_rev, in_flat_map in Et as (g & _ & Hin).
    apply in_map_iff in Hin as ([[[? ?] ?] ?] & [= _ <-] & _). done. }
  unfold settle_one. rewrite Et. cbv zeta. rewrite HN, Hb.
  rewrite (bool_decide_eq_false_2 (pt_traceparent t = "")), (bool_decide_eq_false_2 (wr_wait _ = WaitNone)) by done.
  cbn [negb andb]. rewrite orb_true_r. by destruct ps.
Qed.

(** ** A pass that buys *)

(** The platform's account with one network, one pending container and no
    host. *)
Definition sample_account : account :=
  mkAccount None None "" {[ "us-east-2" := mkNetwork "vpc" "sg" [mkSubnet "subnet-1" "us-east-2a" "use2-az1"] ]} "node" "node" true true
    true false.
Definition idle_use : HostID -> HostUse := fun _ => mkUse 0 0 0 0 0 false 0 0 [] [] false.
Definition sample_demand : PendingDemandRow :=
  mkDemand None 2000 (4 * gib) "" "" "" false (Some []) 0 0 None 0 false [(21, None, "trace", sample_now)].
Definition sample_read (d : plan_db) : fleetRead :=
  mkFleetRead (readOffers idle_use [] [] ∅ [] (default [] (FleetComputeRates published sample_now)) minute sample_now (pd_pools d) (pd_hosts d))
    0 [sample_demand] (pd_markets d) [sample_account] ∅.
Definition sample_db : plan_db := mkPlanDB ∅ {[ 21 := mkContainer ContainerPending None 0 None None ]} ∅ ∅.
Definition sample_fresh (k : nat) : option HostID := Some (1000 + Z.of_nat k).

Definition sample_plan : go plan_error (plan_db * option (PlanResult * planNotices)) :=
  Plan (H := quiet_containers) no_text (fun _ _ => "") sample_fresh no_text minute 10 "us-east-2" true sample_read sample_now sample_db.

Lemma Plan_commits_witness :
  exists d' out, sample_plan = Ret (d', Some out) /\ pr_Requested out.1 = 1 /\ pn_compute out.2 = true /\
    c_capacity_host <$> pd_containers d' !! 21 = Some (Some 1000) /\
    exists h, pd_hosts d' !! 1000 = Some h /\ hr_phase h = PhaseRequested.
Proof.
  pose proof (@Plan_commits no_text no_text none_pinned quiet_containers no_text (fun _ _ => "") sample_fresh no_text minute 10 "us-east-2"
    idle_use sample_read sample_now sample_db (w_join empty_world)) as HP. fold sample_plan in HP.
  assert (ER : match sample_plan with Ret (d, Some r) => (pr_Requested r.1, pn_compute r.2, pd_containers d !! 21) | _ => (0, false, None) end =
    (1, true, Some (mkContainer ContainerPending None 0 (Some WaitProvisioning) (Some 1000)))) by by vm_compute.
  destruct sample_plan as [[d' [out|]]| | |]; try discriminate ER. injection ER as ER EN EC.
  exists d', out. split; [reflexivity|]. split; [exact ER|]. split; [exact EN|]. split; [by rewrite EC|].
  destruct HP as [_ Hw].
  - reflexivity.
  - apply (bool_decide_unpack _). by vm_compute.
  - constructor; [split_and!; done|constructor].
  - intros k id _. apply lookup_empty.
  - unfold sample_fresh. intros i k id [= <-] [= E]. lia.
  - destruct (Hw 21 _ 1000 ltac:(by left) EC eq_refl eq_refl) as (h & Eh & _ & HP). exists h. split; [done|]. apply HP. apply lookup_empty.
Defined.
