(* ===== verification/Credits.v ===== *)
(** Billing accounts and credit (src/internal/billing: credits.go, rollup.go,
    accounts.go, admin.go and the statements they run): accounts, the credit
    lots they hold, the hours they used, and the rollup that covers hours from
    credit and writes each balance.

    Tables are finite maps by primary key.  A statement whose row breaks a
    check or a key of src/migrations/0001_schema.sql fails; amounts are [Z],
    as a billion dollars in billionths fits an [int64].  Every operation is a
    transaction on [books] that returns, or fails and leaves them as they
    were.  [now] is the transaction's clock. *)

From S2P Require Import Prelude Capacity Catalog Calendar GoLib Billing Placement.

Definition NanosPerUSD : Z := 1000000000.
Definition TrialNanos : Z := 2 * NanosPerUSD.
Definition TrialDays : Z := 30.

(** ** Rows *)

Inductive LotKind := kindTrial | kindSubscription | kindPurchased.
#[export] Instance LotKind_eq_dec : EqDecision LotKind.
Proof. solve_decision. Defined.

Inductive TermsVersion := FreeV2 | TeamV3 | BusinessV2.
#[export] Instance TermsVersion_eq_dec : EqDecision TermsVersion.
Proof. solve_decision. Defined.

Inductive PauseReason := PauseDeclined | PauseActionRequired.

Record BillingAccount := mkAccount {
  ba_terms : TermsVersion;
  ba_past_due : bool;
  ba_customer : option string;
  ba_subscription : option string;
  ba_period : option Z * option Z;
  ba_scheduled : option (TermsVersion * Z);
  ba_card : option Z;
  ba_complimentary : option Z;
  ba_limit : option Z;
  ba_reload : bool;
  ba_threshold_cents : Z;
  ba_amount_cents : Z;
  ba_paused : option (uuid * PauseReason);
  ba_created_at : Z }.
#[export] Instance eta_BillingAccount : Eta BillingAccount := fun r =>
  mkAccount (ba_terms r) (ba_past_due r) (ba_customer r) (ba_subscription r) (ba_period r) (ba_scheduled r) (ba_card r)
    (ba_complimentary r) (ba_limit r) (ba_reload r) (ba_threshold_cents r) (ba_amount_cents r) (ba_paused r) (ba_created_at r).

Record LotRow := mkLot {
  cl_user : uuid;
  cl_kind : LotKind;
  cl_source : string;
  cl_amount : Z;
  cl_reversed : Z;
  cl_spent : Z;
  cl_effective : Z;
  cl_expires : option Z }.
#[export] Instance eta_LotRow : Eta LotRow := fun r =>
  mkLot (cl_user r) (cl_kind r) (cl_source r) (cl_amount r) (cl_reversed r) (cl_spent r) (cl_effective r) (cl_expires r).

Record HourRow := mkHour { bh_cost : Z; bh_credited : Z; bh_subscription : Z; bh_waived : Z }.
#[export] Instance eta_HourRow : Eta HourRow := fun r => mkHour (bh_cost r) (bh_credited r) (bh_subscription r) (bh_waived r).

Record BalanceRow := mkBalance {
  bb_balance : Z;
  bb_accrued : Z;
  bb_live : Z;
  bb_month : Z;
  bb_month_spent : Z;
  bb_due : bool;
  bb_recheck : Z;
  bb_rolled : option Z }.
#[export] Instance eta_BalanceRow : Eta BalanceRow := fun r =>
  mkBalance (bb_balance r) (bb_accrued r) (bb_live r) (bb_month r) (bb_month_spent r) (bb_due r) (bb_recheck r) (bb_rolled r).

Record books := mkBooks {
  bk_accounts : gmap uuid BillingAccount;
  bk_lots : gmap uuid LotRow;
  bk_hours : gmap (uuid * Z) HourRow;
  bk_balances : gmap uuid BalanceRow }.
#[export] Instance eta_books : Eta books := fun b => mkBooks (bk_accounts b) (bk_lots b) (bk_hours b) (bk_balances b).

Inductive billing_error :=
  | BillingNotFound
  | PaymentRequired (message : string)
  | Conflict (message : string)
  | InvalidRequest (message : string)
  | PaymentsFailed
  | ConstraintViolated.

(** ** Times *)

(** [monthStart]: the first instant of a time's UTC month. *)
Definition monthStart (t : Z) : Z := time_Date (time_Year t) (time_Month t) 1 0 0 0 0.

(** [month.AddDate(0, 1, 0)] of a month's first instant. *)
Definition nextMonth (month : Z) : Z :=
  if time_Month month =? 12 then time_Date (time_Year month + 1) 1 1 0 0 0 0
  else time_Date (time_Year month) (time_Month month + 1) 1 0 0 0 0.

(** ** Accounts and credit *)

(** The constraints of a row of [credit_lots]. *)
Definition lot_checks (l : LotRow) : bool :=
  (0 <? cl_amount l) && (0 <=? cl_reversed l) && (cl_reversed l <=? cl_amount l) &&
  negb ((cl_kind l == kindPurchased) && (cl_expires l != None)) &&
  match cl_expires l with Some e => cl_effective l <? e | None => true end.

(** The lot of a user's source. *)
Definition lots_of (user : uuid) (b : books) : list (uuid * LotRow) :=
  List.filter (fun r => cl_user r.2 =? user) (map_to_list (bk_lots b)).
Definition LotBySource (user : uuid) (source : string) (b : books) : option uuid :=
  fst <$> List.find (fun r => cl_source r.2 == source) (lots_of user b).

(** An insert into [credit_lots] that found no lot of the same source. *)
Definition insert_lot (id : uuid) (l : LotRow) (b : books) : go billing_error books :=
  if bool_decide (is_Some (bk_lots b !! id)) || negb (bool_decide (is_Some (bk_accounts b !! cl_user l))) || negb (lot_checks l)
  then Err ConstraintViolated else Ret (b <| bk_lots := <[id := l]> (bk_lots b) |>).

Definition mark_due (user : uuid) (b : books) : books :=
  b <| bk_balances := alter (fun r => r <| bb_due := true |>) user (bk_balances b) |>.

Definition new_account (now : Z) : BillingAccount :=
  mkAccount FreeV2 false None None (None, None) None None None None false 1000 2000 None now.

(** One user of [EnsureAccounts]; [id] is the trial lot's [uuidv7()]. *)
Definition EnsureAccount (id user : uuid) (now : Z) (b : books) : go billing_error books :=
  if bk_accounts b !! user is Some _ then Ret b
  else
    let expires := now + TrialDays * day_nanos in
    let trial := mkLot user kindTrial "trial" TrialNanos 0 0 now (Some expires) in
    let b1 := b <| bk_accounts := <[user := new_account now]> (bk_accounts b) |> in
    if bool_decide (is_Some (LotBySource user "trial" b1)) || bool_decide (is_Some (bk_balances b !! user)) then Err ConstraintViolated
    else
      b2 <-! insert_lot id trial b1;
      Ret (b2 <| bk_balances := <[user := mkBalance TrialNanos 0 0 (monthStart now) 0 true
                                            (Z.min expires (nextMonth (monthStart now))) None]> (bk_balances b2) |>).
Definition EnsureAccounts (fresh : uuid -> uuid) (users : list uuid) (now : Z) (b : books) : go billing_error books :=
  go_fold (fun b user => EnsureAccount (fresh user) user now b) users b.

(** [GrantCredit]: [None] when the source was already granted. *)
Definition GrantCredit (id : uuid) (l : LotRow) (b : books) : go billing_error (books * option uuid) :=
  if LotBySource (cl_user l) (cl_source l) b is Some _ then Ret (b, None)
  else b' <-! insert_lot id l b; Ret (mark_due (cl_user l) b', Some id).

(** The constraint of a row of [billing_hours]. *)
Definition hour_checks (h : HourRow) : bool := (bh_credited h + bh_waived h <=? bh_cost h) && (bh_subscription h <=? bh_credited h).

(** The hourly totals an insert of ledger entries adds to. *)
Definition charge_hour (user : uuid) (at_ cost : Z) (b : books) : go billing_error books :=
  if negb (bool_decide (is_Some (bk_accounts b !! user))) then Err ConstraintViolated
  else
    let h := match bk_hours b !! (user, at_) with Some h => h <| bh_cost := bh_cost h + cost |> | None => mkHour cost 0 0 0 end in
    if hour_checks h then Ret (b <| bk_hours := <[(user, at_) := h]> (bk_hours b) |>) else Err ConstraintViolated.

(** [creditGrant] and [addCredit]. *)
Record creditGrant := mkGrant {
  cg_user : uuid;
  cg_kind : LotKind;
  cg_source : string;
  cg_amount : Z;
  cg_effective : Z;
  cg_expires : option Z }.
Definition addCredit (id : uuid) (g : creditGrant) (b : books) : go billing_error (books * uuid) :=
  r <-! GrantCredit id (mkLot (cg_user g) (cg_kind g) (cg_source g) (cg_amount g) 0 0 (cg_effective g) (cg_expires g)) b;
  match r.2 with
  | Some id => Ret (r.1, id)
  | None =>
      match LotBySource (cg_user g) (cg_source g) r.1 with
      | Some id => Ret (r.1, id)
      | None => Err BillingNotFound
      end
  end.

(** [ReverseCredit]: credit refunded or disputed is taken back. *)
Definition ReverseCredit (reversed : Z) (id : uuid) (b : books) : go billing_error books :=
  match bk_lots b !! id with
  | None => Ret b
  | Some l =>
      let r := Z.min reversed (cl_amount l) in
      if cl_reversed l =? r then Ret b
      else if negb (lot_checks (l <| cl_reversed := r |>)) then Err ConstraintViolated
      else Ret (mark_due (cl_user l) (b <| bk_lots := <[id := l <| cl_reversed := r |>]> (bk_lots b) |>))
  end.

(** [SetComplimentary]. *)
Definition SetComplimentary_row (complimentary : bool) (now : Z) (a : BillingAccount) : BillingAccount :=
  a <| ba_complimentary := if complimentary then Some (default now (ba_complimentary a)) else None |>.
Definition SetComplimentary (known : bool) (id user : uuid) (complimentary : bool) (now : Z) (b : books) : go billing_error books :=
  if negb known then Err BillingNotFound
  else
    b <-! EnsureAccount id user now b;
    Ret (if bk_accounts b !! user is Some _
         then mark_due user (b <| bk_accounts := alter (SetComplimentary_row complimentary now) user (bk_accounts b) |>) else b).

(** [SetPreferences] and [ResumeReload] of accounts.go. *)
Record Preferences := mkPreferences { pf_Limit : option Z; pf_Reload : bool; pf_ThresholdCents : Z; pf_AmountCents : Z }.
Definition preference_checks (p : Preferences) : bool :=
  match pf_Limit p with Some l => 0 <=? l | None => true end &&
  (0 <=? pf_ThresholdCents p) && (pf_ThresholdCents p <=? 100000) && (500 <=? pf_AmountCents p) && (pf_AmountCents p <=? 100000).
Definition SetPreferences (id user : uuid) (p : Preferences) (now : Z) (b : books) : go billing_error books :=
  b <-! EnsureAccount id user now b;
  match bk_accounts b !! user with
  | None => Err BillingNotFound
  | Some a =>
      if pf_Reload p && (ba_card a == None) then Err (PaymentRequired "add a payment method before turning on automatic reload")
      else if negb (preference_checks p) then Err ConstraintViolated
      else Ret (b <| bk_accounts := <[user := a <| ba_limit := pf_Limit p |> <| ba_reload := pf_Reload p |>
                  <| ba_threshold_cents := pf_ThresholdCents p |> <| ba_amount_cents := pf_AmountCents p |>]> (bk_accounts b) |>)
  end.
Definition ResumeReload (id user : uuid) (now : Z) (b : books) : go billing_error books :=
  b <-! EnsureAccount id user now b;
  match bk_accounts b !! user with
  | None => Err BillingNotFound
  | Some a =>
      if ba_card a == None then Err (PaymentRequired "add a payment method before resuming automatic reload")
      else Ret (b <| bk_accounts := <[user := a <| ba_paused := None |>]> (bk_accounts b) |>)
  end.

(** ** The rollup (rollup.go) *)

(** [lot]: an open lot as a rollup spends it. *)
Record lot := mkOpenLot {
  lt_id : uuid;
  lt_kind : LotKind;
  lt_remaining : Z;
  lt_effective : Z;
  lt_expires : option Z;
  lt_spent : Z }.

(** [take] nanos leave the lot. *)
Definition spend (take : Z) (l : lot) : lot := 
  mkOpenLot (lt_id l) (lt_kind l) (lt_remaining l - take) (lt_effective l) (lt_expires l) (lt_spent l + take).

Definition lot_usable (at_ now : Z) (l : lot) : bool :=
  (0 <? lt_remaining l) && (lt_effective l <=? now) && match lt_expires l with None => true | Some e => at_ <? e end.

Definition lot_live (now : Z) (l : lot) : bool :=
  (lt_effective l <=? now) && match lt_expires l with None => true | Some e => now <? e end.

(** [hour]: an hour that is not covered yet. *)
Record open_hour := mkOpenHour { oh_at : Z; oh_uncovered : Z; oh_credit : Z; oh_sub : Z; oh_waived : Z }.

(** [OpenLots]: earliest expiry first, then oldest. *)
Definition lot_left (l : LotRow) : Z := cl_amount l - cl_reversed l - cl_spent l.
Definition expiry_order (a b : option Z) : comparison :=
  match a, b with
  | Some a, Some b => Z.compare a b
  | Some _, None => Lt
  | None, Some _ => Gt
  | None, None => Eq
  end.
Definition spend_order (a b : uuid * LotRow) : comparison :=
  expiry_order (cl_expires a.2) (cl_expires b.2) <+> Z.compare (cl_effective a.2) (cl_effective b.2) <+> Z.compare a.1 b.1.
Definition OpenLots (user : uuid) (b : books) : list (uuid * LotRow) :=
  sort_by spend_order (List.filter (fun r => negb (lot_left r.2 =? 0)) (lots_of user b)).
Definition open_lot (r : uuid * LotRow) : lot := mkOpenLot r.1 (cl_kind r.2) (lot_left r.2) (cl_effective r.2) (cl_expires r.2) 0.

(** [UncoveredHours], oldest first. *)
Definition hours_of (user : uuid) (b : books) : list (Z * HourRow) :=
  omap (fun r => if r.1.1 =? user then Some (r.1.2, r.2) else None) (map_to_list (bk_hours b)).
Definition hour_left (h : HourRow) : Z := bh_cost h - bh_credited h - bh_waived h.
Definition hour_order (a b : Z * HourRow) : comparison := Z.compare a.1 b.1.
Definition UncoveredHours (user : uuid) (b : books) : list (Z * HourRow) :=
  sort_by hour_order (List.filter (fun r => bh_credited r.2 + bh_waived r.2 <? bh_cost r.2) (hours_of user b)).
Definition uncovered_hour (r : Z * HourRow) : open_hour := mkOpenHour r.1 (hour_left r.2) 0 0 0.

(** One payer of one debtor: a lot that a reversal overdrew is debt, which
    other live credit pays.  Lots are shared by pointer: both change in
    place. *)
Definition pay_one (now : Z) (debtor : nat) (lots : list lot) (payer : nat) : list lot :=
  match lots !! debtor, lots !! payer with
  | Some d, Some p =>
      if 0 <=? lt_remaining d then lots
      else if (payer == debtor) || (lt_remaining p <=? 0) || negb (lot_live now p) then lots
      else
        let take := Z.min (- lt_remaining d) (lt_remaining p) in
        <[debtor := spend (- take) d]> (<[payer := spend take p]> lots)
  | _, _ => lots
  end.
Definition pay_debtor (now : Z) (lots : list lot) (debtor : nat) : list lot :=
  fold_left (pay_one now debtor) (seq 0 (length lots)) lots.
Definition pay_debts (now : Z) (lots : list lot) : list lot := fold_left (pay_debtor now) (seq 0 (length lots)) lots.

(** The lots an hour is covered from, in order. *)
Fixpoint cover_hour (now : Z) (h : open_hour) (lots : list lot) : open_hour * list lot :=
  match lots with
  | [] => (h, [])
  | l :: rest =>
      if oh_uncovered h =? 0 then (h, lots)
      else if negb (lot_usable (oh_at h) now l) then let r := cover_hour now h rest in (r.1, l :: r.2)
      else
        let take := Z.min (oh_uncovered h) (lt_remaining l) in
        let h' := mkOpenHour (oh_at h) (oh_uncovered h - take) (oh_credit h + take)
                    (if lt_kind l == kindSubscription then oh_sub h + take else oh_sub h) (oh_waived h) in
        let r := cover_hour now h' rest in
        (r.1, spend take l :: r.2)
  end.

(** Usage while complimentary keeps its price and costs nothing. *)
Definition waived_hour (complimentary : option Z) (h : open_hour) : bool :=
  match complimentary with Some since => since <=? oh_at h + hour | None => false end.
Definition settle_hour (complimentary : option Z) (now : Z) (h : open_hour) (lots : list lot) : open_hour * list lot :=
  if waived_hour complimentary h then (mkOpenHour (oh_at h) 0 (oh_credit h) (oh_sub h) (oh_uncovered h), lots)
  else cover_hour now h lots.
Fixpoint settle_hours (complimentary : option Z) (now : Z) (hours : list open_hour) (lots : list lot) : list open_hour * list lot :=
  match hours with
  | [] => ([], lots)
  | h :: hours =>
      let r := settle_hour complimentary now h lots in
      let s := settle_hours complimentary now hours r.2 in
      (r.1 :: s.1, s.2)
  end.

(** [SpendLots] and [CoverHours]; the latter's rows keep their constraint. *)
Definition SpendLots (deltas : list (uuid * Z)) (b : books) : books :=
  b <| bk_lots := fold_left (fun m d => alter (fun l => l <| cl_spent := cl_spent l + d.2 |>) d.1 m) deltas (bk_lots b) |>.
Definition covered_row (c : open_hour) (h : HourRow) : HourRow :=
  mkHour (bh_cost h) (bh_credited h + oh_credit c) (bh_subscription h + oh_sub c) (bh_waived h + oh_waived c).
Definition cover_row (user : uuid) (b : books) (c : open_hour) : go billing_error books :=
  match bk_hours b !! (user, oh_at c) with
  | None => Ret b
  | Some h =>
      if hour_checks (covered_row c h) then Ret (b <| bk_hours := <[(user, oh_at c) := covered_row c h]> (bk_hours b) |>)
      else Err ConstraintViolated
  end.
Definition CoverHours (user : uuid) (covers : list open_hour) (b : books) : go billing_error books :=
  go_fold (cover_row user) covers b.

(** [MonthSpent] and [SetBalance]. *)
Definition MonthSpent (user : uuid) (from to : Z) (b : books) : Z :=
  sumZ (map (fun r => bh_cost r.2) (List.filter (fun r => (from <=? r.1) && (r.1 <? to)) (hours_of user b))).
Definition SetBalance (user : uuid) (balance month spent recheck now : Z) (b : books) : books :=
  b <| bk_balances := alter (fun r => mkBalance balance (bb_accrued r) (bb_live r) month spent false recheck (Some now)) user (bk_balances b) |>.

(** What a lot adds to the balance and when it next changes it. *)
Definition balance_step (now : Z) (acc : Z * Z) (l : lot) : Z * Z :=
  let '(balance, recheck) := acc in
  if lt_remaining l <? 0 then (balance + lt_remaining l, recheck)
  else if (0 <? lt_remaining l) && lot_live now l then
    (balance + lt_remaining l, match lt_expires l with Some e => if e <? recheck then e else recheck | None => recheck end)
  else if (0 <? lt_remaining l) && (now <? lt_effective l) && (lt_effective l <? recheck) then (balance, lt_effective l)
  else acc.

(** [settle]. *)
Definition settle (user : uuid) (complimentary : option Z) (now : Z) (b : books) : go billing_error books :=
  let r := settle_hours complimentary now (map uncovered_hour (UncoveredHours user b)) (pay_debts now (map open_lot (OpenLots user b))) in
  let hours := r.1 in
  let lots := r.2 in
  let b1 := SpendLots (omap (fun l => if lt_spent l =? 0 then None else Some (lt_id l, lt_spent l)) lots) b in
  let debt := sumZ (map oh_uncovered hours) in
  b2 <-! CoverHours user (List.filter (fun h => negb ((oh_credit h =? 0) && (oh_waived h =? 0))) hours) b1;
  let month := monthStart now in
  let '(balance, recheck) := fold_left (balance_step now) lots (- debt, nextMonth month) in
  Ret (SetBalance user balance month (MonthSpent user month (nextMonth month) b2) recheck now b2).

(** [ClaimRollup]'s condition. *)
Definition rollup_due (now : Z) (r : BalanceRow) : bool := bb_due r || (bb_recheck r <=? now).

(** [rollupOne] of the account [LockBalance] or [ClaimRollup] locked. *)
Definition rollup_account (user : uuid) (now : Z) (b : books) : go billing_error books :=
  match bk_accounts b !! user, bk_balances b !! user with
  | Some a, Some _ => settle user (ba_complimentary a) now b
  | _, _ => Err BillingNotFound
  end.

(** [rollupOne]; [pick] is the row [ClaimRollup] returns among the due ones
    that no other transaction holds. *)
Definition rollupOne (user : option uuid) (pick : list uuid -> option uuid) (now : Z) (b : books) : go billing_error (books * bool) :=
  match user with
  | Some u => b' <-! rollup_account u now b; Ret (b', true)
  | None =>
      match pick (map fst (List.filter (fun r => rollup_due now r.2) (map_to_list (bk_balances b)))) with
      | None => Ret (b, false)
      | Some u => b' <-! rollup_account u now b; Ret (b', true)
      end
  end.

(** [Rollup]: each account settles in a transaction of its own, [now n] the
    clock of the [n]th.  An error ends the pass with what was settled kept. *)
Definition rollupBatch : nat := 200.
Record RollupResult := mkRollup { ru_Accounts : nat; ru_More : bool; ru_error : option billing_error }.
Fixpoint rollup_loop (fuel : nat) (pick : list uuid -> option uuid) (now : nat -> Z) (accounts : nat) (b : books) : books * RollupResult :=
  match fuel with
  | O => (b, mkRollup accounts true None)
  | S fuel =>
      match rollupOne None pick (now accounts) b with
      | Ret (b', true) => rollup_loop fuel pick now (S accounts) b'
      | Ret (b', false) => (b', mkRollup accounts false None)
      | Err e => (b, mkRollup accounts false (Some e))
      | Panic | Spins => (b, mkRollup accounts false None)
      end
  end.
Definition Rollup (pick : list uuid -> option uuid) (now : nat -> Z) (b : books) : books * RollupResult :=
  rollup_loop rollupBatch pick now 0 b.

(** ** Enforcement (enforcement.go) *)

(** [UnfundedAccounts] and the reason their containers stop; [owned] are the
    workspaces of [OwnedWorkspaces]. *)
Definition no_credit (r : BalanceRow) : bool := bb_balance r - bb_accrued r <=? 0.
Definition over_limit (a : BillingAccount) (r : BalanceRow) : bool :=
  match ba_limit a with Some l => l <=? bb_month_spent r + bb_accrued r | None => false end.
Definition unfunded_row (a : BillingAccount) (r : BalanceRow) : bool :=
  (0 <? bb_live r) && (ba_complimentary a == None) && (no_credit r || ba_past_due a || over_limit a r).
Definition unfunded_reason (a : BillingAccount) (r : BalanceRow) : string :=
  if ba_past_due a then "a payment for the account did not go through"
  else if over_limit a r && negb (no_credit r) then "the account reached its monthly usage limit"
  else "the account's credit ran out".
Record Unfunded := mkUnfunded { uf_User : uuid; uf_Workspaces : list uuid; uf_Reason : string }.
Definition UnfundedAccounts (owned : uuid -> list uuid) (b : books) : list Unfunded :=
  omap (fun r => a ← bk_accounts b !! r.1; if unfunded_row a r.2 then Some (mkUnfunded r.1 (owned r.1) (unfunded_reason a r.2)) else None)
    (map_to_list (bk_balances b)).
