(* ===== verification/Admission.v ===== *)
(** Plans and admission (src/internal/billing: ratecard.go, admission.go,
    allowance.go): what each plan entitles an account to, its standing, and
    whether it may start containers, add workspaces, members, disks and
    domains, or deploy a workload.

    The rows admission counts are arguments: who is in which workspace
    ([directory]), the containers, and which accounts have a plan change open.
    A refusal is a value that says which rule refuses and with which numbers;
    its English text is left out.  Counts are [int]s far below their bounds. *)

From S2P Require Import Prelude Capacity Catalog Calendar GoLib Billing Placement Credits.

(** ** Plans (ratecard.go) *)

Inductive PlanID := PlanFree | PlanTeam | PlanBusiness.
#[export] Instance PlanID_eq_dec : EqDecision PlanID.
Proof. solve_decision. Defined.

Definition TermsFree : TermsVersion := FreeV2.
Definition TermsTeam : TermsVersion := TeamV3.
Definition TermsBusiness : TermsVersion := BusinessV2.

Definition noCardMaxCPUContainers : Z := 10.
Definition noCardMaxGPUs : Z := 1.
Definition noCardGPUs : list string := ["A10G"; "L4"; "T4"].
Definition gpuModels : list string := map gm_Type GPUModels.

Record Limit := mkLimit { lm_Max : Z; lm_Unlimited : bool }.
#[export] Instance Limit_eq_dec : EqDecision Limit.
Proof. solve_decision. Defined.
Definition limitOf (n : Z) : Limit := mkLimit n false.
Definition unlimited : Limit := mkLimit 0 true.

Record Entitlements := mkEntitlements {
  en_MaxCPUContainers : Z;
  en_MaxGPUs : Z;
  en_GPUTypes : list string;
  en_MaxWorkspaces : Limit;
  en_MaxMembers : Limit;
  en_ConnectedCloud : bool;
  en_CustomDomains : bool;
  en_SelfHosted : bool;
  en_RegionSelection : bool;
  en_RetentionDays : Z;
  en_MaxWorkspaceDiskGiB : Z }.
#[export] Instance eta_Entitlements : Eta Entitlements := fun e =>
  mkEntitlements (en_MaxCPUContainers e) (en_MaxGPUs e) (en_GPUTypes e) (en_MaxWorkspaces e) (en_MaxMembers e) (en_ConnectedCloud e)
    (en_CustomDomains e) (en_SelfHosted e) (en_RegionSelection e) (en_RetentionDays e) (en_MaxWorkspaceDiskGiB e).

(** The names, summaries and notes of a plan are presentation. *)
Record Plan := mkPlan {
  pn_ID : PlanID;
  pn_Terms : TermsVersion;
  pn_MonthlyNanos : Z;
  pn_IncludedNanos : Z;
  pn_Entitlements : Entitlements }.

Definition paidDiskGiB : Z := 1024.
Definition Plans : list Plan :=
  [mkPlan PlanFree TermsFree 0 0
     (mkEntitlements 30 5 gpuModels (limitOf 1) (limitOf 1) false false true false 1 0);
   mkPlan PlanTeam TermsTeam (49 * NanosPerUSD) (25 * NanosPerUSD)
     (mkEntitlements 1000 50 gpuModels unlimited (limitOf 3) false true true true 30 paidDiskGiB);
   mkPlan PlanBusiness TermsBusiness (199 * NanosPerUSD) (100 * NanosPerUSD)
     (mkEntitlements 2000 100 gpuModels unlimited unlimited true true true true 90 paidDiskGiB)].

Definition PlanFor (id : PlanID) : option Plan := List.find (fun p => pn_ID p == id) Plans.
Definition planOfTerms (v : TermsVersion) : option Plan := List.find (fun p => pn_Terms p == v) Plans.

Definition accountEntitlements (plan : Plan) (hasCard complimentary : bool) : option Entitlements :=
  if complimentary then pn_Entitlements <$> PlanFor PlanBusiness
  else
    let e := pn_Entitlements plan in
    Some (if negb hasCard
          then e <| en_MaxCPUContainers := noCardMaxCPUContainers |> <| en_MaxGPUs := noCardMaxGPUs |> <| en_GPUTypes := noCardGPUs |>
          else e).

(** ** What admission reads *)

(** [workspace_members], [workspaces], [users], [invitations] and
    [cloud_connections]. *)
Record Member := mkMember { mb_workspace : uuid; mb_user : uuid; mb_owner : bool }.
Record Invitation := mkInvitation { iv_workspace : uuid; iv_email : string; iv_expires : Z }.
Record directory := mkDirectory {
  dr_members : list Member;
  dr_connected : list uuid;
  dr_emails : list (uuid * string);
  dr_invitations : list Invitation;
  dr_connections : list uuid }.

(** A row of [containers] with its image build. *)
Record Held := mkHeld { hd_workspace : uuid; hd_gpus : Z; hd_stopped : bool; hd_mirror : bool }.

Definition WorkspaceOwner (workspace : uuid) (dir : directory) : option uuid :=
  mb_user <$> List.find (fun m => (mb_workspace m =? workspace) && mb_owner m) (dr_members dir).
Definition AdmissionWorkspace (workspace : uuid) (dir : directory) : option (uuid * bool) :=
  user ← WorkspaceOwner workspace dir; Some (user, bool_decide (workspace ∈ dr_connected dir)).

Definition owns (user : uuid) (dir : directory) (workspace : uuid) : bool :=
  existsb (fun m => (mb_user m =? user) && mb_owner m && (mb_workspace m =? workspace)) (dr_members dir).
Definition OwnedWorkspaceCount (user : uuid) (dir : directory) : Z :=
  Z.of_nat (length (List.filter (fun m => (mb_user m =? user) && mb_owner m) (dr_members dir))).

(** The people in the workspaces an account owns. *)
Definition people (owner : uuid) (dir : directory) : list uuid :=
  map mb_user (List.filter (fun m => owns owner dir (mb_workspace m)) (dr_members dir)).
Definition OwnerHasMember (owner member : uuid) (dir : directory) : bool := bool_decide (member ∈ people owner dir).
Definition email_of (dir : directory) (user : uuid) : option string := assoc user (dr_emails dir).
Definition OwnerHasMemberEmail (lower : string -> string) (owner : uuid) (email : string) (dir : directory) : bool :=
  existsb (fun u => match email_of dir u with Some e => lower e == email | None => false end) (people owner dir).
Definition OwnerMemberCount (owner : uuid) (dir : directory) : Z := Z.of_nat (length (remove_dups (people owner dir))).
Definition OwnerOpenInvitations (lower : string -> string) (owner : uuid) (now : Z) (dir : directory) : Z :=
  Z.of_nat (length (remove_dups (map iv_email (List.filter (fun i =>
    owns owner dir (iv_workspace i) && (now <? iv_expires i) && negb (OwnerHasMemberEmail lower owner (iv_email i) dir)) (dr_invitations dir))))).
Definition ConnectedCloudCount (user : uuid) (dir : directory) : Z :=
  Z.of_nat (length (List.filter (fun a => a =? user) (dr_connections dir))).

(** [OwnerLiveContainers]: the two concurrency pools. *)
Definition counted (owner : uuid) (dir : directory) (c : Held) : bool :=
  owns owner dir (hd_workspace c) && negb (hd_stopped c) && negb (hd_mirror c).
Record LiveContainers := mkLiveContainers { lc_CpuContainers : Z; lc_Gpus : Z }.
Definition OwnerLiveContainers (owner : uuid) (dir : directory) (cs : list Held) : LiveContainers :=
  mkLiveContainers (Z.of_nat (length (List.filter (fun c => counted owner dir c && (hd_gpus c =? 0)) cs)))
    (sumZ (map hd_gpus (List.filter (counted owner dir) cs))).

(** ** Standing (admission.go) *)

(** The rule an operation breaks, with the numbers its message names. *)
Inductive refusal :=
  | PastDue
  | NoCredit
  | LimitReached
  | RegionRefused
  | ModelRefused (model : string)
  | GPUUnavailable (models : list string)
  | GPUsRefused (live more limit : Z)
  | ContainersRefused (live limit : Z)
  | ChangePending
  | WorkspacesRefused (owned limit : Z)
  | MembersRefused (members offers limit : Z)
  | DiskRefused (declared limit : Z)
  | CapabilityRefused
  | AdmissionFailed (e : billing_error).

Record standing := mkStanding {
  st_user : uuid;
  st_plan : Plan;
  st_pastDue : bool;
  st_hasCard : bool;
  st_complimentary : bool;
  st_limit : option Z;
  st_balance : Z;
  st_monthSpent : Z;
  st_changePending : bool;
  st_entitlements : Entitlements;
  st_limits : Entitlements }.

Definition stricter (a b : Limit) : Limit :=
  if lm_Unlimited a then b else if lm_Unlimited b then a else limitOf (Z.min (lm_Max a) (lm_Max b)).

Definition lift_error {A} (x : go billing_error A) : go refusal A :=
  match x with Ret a => Ret a | Err e => Err (AdmissionFailed e) | Panic => Panic | Spins => Spins end.

(** [readStanding]; [AccountStanding] joins the account and its balance. *)
Definition standing_of (user : uuid) (pending : bool) (now : Z) (a : BillingAccount) (r : BalanceRow) : option standing :=
  plan ← planOfTerms (ba_terms a);
  let hasCard := bool_decide (is_Some (ba_card a)) in
  let complimentary := bool_decide (is_Some (ba_complimentary a)) in
  let monthSpent := (if bb_month r =? monthStart now then bb_month_spent r else 0) + bb_accrued r in
  e ← accountEntitlements plan hasCard complimentary;
  limits ← match ba_scheduled a with
           | Some (terms, _) =>
               if complimentary then Some e
               else
                 next ← planOfTerms terms;
                 Some (e <| en_MaxWorkspaces := stricter (en_MaxWorkspaces e) (en_MaxWorkspaces (pn_Entitlements next)) |>
                         <| en_MaxMembers := stricter (en_MaxMembers e) (en_MaxMembers (pn_Entitlements next)) |>)
           | None => Some e
           end;
  Some (mkStanding user plan (ba_past_due a) hasCard complimentary (ba_limit a) (bb_balance r - bb_accrued r) monthSpent pending e limits).
Definition AccountStanding (user : uuid) (b : books) : option (BillingAccount * BalanceRow) :=
  a ← bk_accounts b !! user; r ← bk_balances b !! user; Some (a, r).
Definition readStanding (fresh user : uuid) (pending : uuid -> bool) (now : Z) (b : books) : go refusal (books * standing) :=
  b <-! lift_error (EnsureAccount fresh user now b);
  match '(a, r) ← AccountStanding user b; standing_of user (pending user) now a r with
  | Some s => Ret (b, s)
  | None => Err (AdmissionFailed BillingNotFound)
  end.

Definition fundsRefusal (s : standing) : option refusal :=
  if st_complimentary s then None
  else if st_pastDue s then Some PastDue
  else if st_balance s <=? 0 then Some NoCredit
  else if match st_limit s with Some l => l <=? st_monthSpent s | None => false end then Some LimitReached
  else None.

Definition refuse_if (r : option refusal) : go refusal unit := match r with Some e => Err e | None => Ret tt end.

(** ** GPU models *)

Definition GPUAny : string := "any".

(** [unoffered]: the models asked for, when the fleet offers none of them. *)
Definition unoffered (requested : list string) : option (list string) :=
  if existsb (fun m => (m == GPUAny) || GPUEnabled m) requested then None
  else if requested is [] then None else Some requested.

(** [Entitlements.gpuModels]: the models placement may give, or the first one
    the account may not use. *)
Definition fleet_models (fleet : bool) (models : list string) : list string :=
  if fleet then List.filter (fun m => GPUEnabled m) models else models.
Fixpoint named_models (e : Entitlements) (fleet : bool) (allowed named requested : list string) : sum (list string) string :=
  match requested with
  | [] => inl (if named is [] then allowed else named)
  | m :: requested =>
      if m == GPUAny then inl allowed
      else if fleet && negb (GPUEnabled m) then named_models e fleet allowed named requested
      else if negb (bool_decide (m ∈ en_GPUTypes e)) then inr m
      else named_models e fleet allowed (named ++ [m]) requested
  end.
Definition entitled_models (e : Entitlements) (requested : list string) (fleet : bool) : sum (list string) string :=
  named_models e fleet (fleet_models fleet (en_GPUTypes e)) [] requested.

(** ** Admit *)

Record Request := mkRequest {
  rq_Workspace : uuid;
  rq_Start : Z;
  rq_Cold : bool;
  rq_GPUs : Z;
  rq_GPUModels : list string;
  rq_Pinned : bool;
  rq_Machine : bool }.
Record Grant := mkGranted { gr_Start : Z; gr_GPUModels : list string }.

(** The fleet serves work that is neither on a machine nor in a connected
    account. *)
Definition on_fleet (machine connected : bool) : bool := negb machine && negb connected.

(** How many of the containers asked for may start. *)
Definition grant_start (e : Entitlements) (req : Request) (live : LiveContainers) : go refusal Z :=
  if rq_GPUs req >? 0 then
    let limit := en_MaxGPUs e in
    if rq_Cold req && (lc_Gpus live + rq_GPUs req >? limit) then Err (GPUsRefused (lc_Gpus live) (rq_GPUs req) limit)
    else Ret (Z.max 0 (Z.min (rq_Start req) (Z.quot (limit - lc_Gpus live) (rq_GPUs req))))
  else
    let limit := en_MaxCPUContainers e in
    if rq_Cold req && (limit <=? lc_CpuContainers live) then Err (ContainersRefused (lc_CpuContainers live) limit)
    else Ret (Z.max 0 (Z.min (rq_Start req) (limit - lc_CpuContainers live))).

(** What [Admit] checks of a standing, after the funds. *)
Definition grant_models (s : standing) (req : Request) (fleet : bool) : go refusal (list string) :=
  if rq_Pinned req && negb (en_RegionSelection (st_entitlements s)) then Err RegionRefused
  else if rq_GPUs req >? 0 then
    match entitled_models (st_entitlements s) (rq_GPUModels req) fleet with inl models => Ret models | inr m => Err (ModelRefused m) end
  else Ret [].
Definition admit_standing (s : standing) (req : Request) (fleet : bool) (live : LiveContainers) : go refusal Grant :=
  _ <-! refuse_if (fundsRefusal s);
  models <-! grant_models s req fleet;
  if (rq_Start req =? 0) && negb (rq_Cold req) then Ret (mkGranted 0 models)
  else start <-! grant_start (st_entitlements s) req live; Ret (mkGranted start models).

Section Admit.
(** The account lock serializes additions, so what is counted is exact. *)
Context (fresh : uuid) (pending : uuid -> bool) (dir : directory) (lower : string -> string) (now : Z).

Definition Admit (req : Request) (cs : list Held) (b : books) : go refusal (books * Grant) :=
  match AdmissionWorkspace (rq_Workspace req) dir with
  | None => Err (AdmissionFailed BillingNotFound)
  | Some (owner, connected) =>
      let fleet := on_fleet (rq_Machine req) connected in
      _ <-! refuse_if (if (rq_GPUs req >? 0) && fleet then GPUUnavailable <$> unoffered (rq_GPUModels req) else None);
      r <-! readStanding fresh owner pending now b;
      g <-! admit_standing r.2 req fleet (OwnerLiveContainers owner dir cs);
      Ret (r.1, g)
  end.

(** ** The other additions *)

Definition AdmitWorkspace (owner : uuid) (b : books) : go refusal books :=
  let owned := OwnedWorkspaceCount owner dir in
  if owned =? 0 then Ret b
  else
    r <-! readStanding fresh owner pending now b;
    if st_changePending r.2 then Err ChangePending
    else
      let l := en_MaxWorkspaces (st_limits r.2) in
      if negb (lm_Unlimited l) && (lm_Max l <=? owned) then Err (WorkspacesRefused owned (lm_Max l)) else Ret r.1.

(** A candidate is an invited email or the user that accepts. *)
Definition AdmitMember (workspace : uuid) (who : sum string uuid) (b : books) : go refusal books :=
  match WorkspaceOwner workspace dir with
  | None => Err (AdmissionFailed BillingNotFound)
  | Some owner =>
      r <-! readStanding fresh owner pending now b;
      if st_changePending r.2 then Err ChangePending
      else
        let limit := en_MaxMembers (st_limits r.2) in
        if lm_Unlimited limit then Ret r.1
        else if match who with inr user => OwnerHasMember owner user dir | inl email => OwnerHasMemberEmail lower owner (lower email) dir end
        then Ret r.1
        else
          let members := OwnerMemberCount owner dir in
          let offers := match who with inl _ => OwnerOpenInvitations lower owner now dir | inr _ => 0 end in
          if lm_Max limit <=? members + offers then Err (MembersRefused members offers (lm_Max limit)) else Ret r.1
  end.

Definition disk_allowed (declared : Z) (e : Entitlements) : bool := declared <=? en_MaxWorkspaceDiskGiB e * bytesPerGiB.
Definition AdmitDisk (workspace : uuid) (declared : Z) (b : books) : go refusal books :=
  match WorkspaceOwner workspace dir with
  | None => Err (AdmissionFailed BillingNotFound)
  | Some owner =>
      r <-! readStanding fresh owner pending now b;
      _ <-! refuse_if (fundsRefusal r.2);
      if disk_allowed declared (st_entitlements r.2) then Ret r.1 else Err (DiskRefused declared (en_MaxWorkspaceDiskGiB (st_entitlements r.2)))
  end.
Definition AdmitStorage (workspace : uuid) (b : books) : go refusal books :=
  match WorkspaceOwner workspace dir with
  | None => Err (AdmissionFailed BillingNotFound)
  | Some owner =>
      r <-! readStanding fresh owner pending now b;
      _ <-! refuse_if (fundsRefusal r.2);
      Ret r.1
  end.

Definition admitCapability (user : uuid) (has : Entitlements -> bool) (b : books) : go refusal books :=
  r <-! readStanding fresh user pending now b;
  if st_changePending r.2 then Err ChangePending
  else if negb (has (st_entitlements r.2)) then Err CapabilityRefused else Ret r.1.
Definition AdmitCustomDomain (workspace : uuid) (b : books) : go refusal books :=
  match WorkspaceOwner workspace dir with
  | None => Err (AdmissionFailed BillingNotFound)
  | Some owner => admitCapability owner en_CustomDomains b
  end.
Definition AdmitAccountCustomDomain (user : uuid) (b : books) : go refusal books := admitCapability user en_CustomDomains b.
Definition AdmitConnectedCloud (user : uuid) (b : books) : go refusal books := admitCapability user en_ConnectedCloud b.

(** [Retention]: an account that does not exist yet is on Free. *)
Definition Retention (workspace : uuid) (b : books) : option Z :=
  owner ← WorkspaceOwner workspace dir;
  free ← PlanFor PlanFree;
  match AccountStanding owner b with
  | None => Some (en_RetentionDays (pn_Entitlements free) * 24 * 3600000000000)
  | Some (a, _) =>
      plan ← planOfTerms (ba_terms a);
      e ← accountEntitlements plan (bool_decide (is_Some (ba_card a))) (bool_decide (is_Some (ba_complimentary a)));
      Some (en_RetentionDays e * 24 * 3600000000000)
  end.
End Admit.

(** ** Deploys (allowance.go) *)

Record Declared := mkDeclared {
  dc_GPUs : Z;
  dc_GPUModels : list string;
  dc_Pinned : bool;
  dc_Machine : bool;
  dc_MinContainers : Z }.

(** The sections of a workload's spec that declare. *)
Record Resources := mkResources { rs_GpuCount : option Z; rs_Gpu : option (list string) }.
Record PlacementSpec := mkPlacementSpec { ps_Region : option string; ps_Zone : option string; ps_Machine : option string }.
Definition some_text (o : option string) : bool := match o with Some s => s != "" | None => false end.
Definition DeclaredBy (resources : option Resources) (placement : option PlacementSpec) (minContainers : option Z) : Declared :=
  mkDeclared
    (match resources with
     | Some r => if match rs_GpuCount r with Some n => n >? 0 | None => false end then default 0 (rs_GpuCount r)
                 else if match rs_Gpu r with Some (_ :: _) => true | _ => false end then 1 else 0
     | None => 0
     end)
    (match resources with Some r => default [] (rs_Gpu r) | None => [] end)
    (match placement with Some p => some_text (ps_Region p) || some_text (ps_Zone p) | None => false end)
    (match placement with Some p => some_text (ps_Machine p) | None => false end)
    (default 0 minContainers).
Definition declared_request (d : Declared) (workspace : uuid) : Request :=
  mkRequest workspace 0 false (dc_GPUs d) (dc_GPUModels d) (dc_Pinned d) (dc_Machine d).

Inductive Gate := GateRegion | GateWarmFloor | GateGpuUnavailable | GateGpuModel | GateGpuCount | GateDisk.
#[export] Instance Gate_eq_dec : EqDecision Gate.
Proof. solve_decision. Defined.

(** How an account lifts a rule: a saved card, a plan above its own, or what
    it can change about the work. *)
Inductive Remedy := AddCard | UpgradeTo (plan : PlanID) | Fallback.
Record Refusal := mkRefusal { rf_Gate : Gate; rf_Remedy : Remedy }.

Fixpoint first_above (allows : Entitlements -> bool) (id : PlanID) (above : bool) (plans : list Plan) : option PlanID :=
  match plans with
  | [] => None
  | p :: plans => if above && allows (pn_Entitlements p) then Some (pn_ID p) else first_above allows id (above || (pn_ID p == id)) plans
  end.
Definition lift (s : standing) (allows : Entitlements -> bool) : Remedy :=
  if st_complimentary s then Fallback
  else if negb (st_hasCard s) && allows (pn_Entitlements (st_plan s)) then AddCard
  else match first_above allows (pn_ID (st_plan s)) false Plans with Some id => UpgradeTo id | None => Fallback end.

Record Allowance := mkAllowance { al_s : standing; al_connected : bool }.
Definition ReadAllowance (fresh : uuid) (pending : uuid -> bool) (dir : directory) (now : Z) (workspace : uuid) (b : books) :
    go refusal (books * Allowance) :=
  match AdmissionWorkspace workspace dir with
  | None => Err (AdmissionFailed BillingNotFound)
  | Some (owner, connected) =>
      r <-! readStanding fresh owner pending now b;
      Ret (r.1, mkAllowance r.2 connected)
  end.

Definition regionRefusal (s : standing) : Refusal := mkRefusal GateRegion (lift s en_RegionSelection).
Definition gpuModelRefusal (s : standing) (model : string) : Refusal :=
  mkRefusal GateGpuModel (lift s (fun e => bool_decide (model ∈ en_GPUTypes e))).
Definition DiskRefusal (s : standing) (declared : Z) : option Refusal :=
  if disk_allowed declared (st_entitlements s) then None else Some (mkRefusal GateDisk (lift s (disk_allowed declared))).

Definition Refusals (a : Allowance) (d : Declared) : list Refusal :=
  let s := al_s a in
  let e := st_entitlements s in
  let fleet := on_fleet (dc_Machine d) (al_connected a) in
  let region := if dc_Pinned d && negb (en_RegionSelection e) then [regionRefusal s] else [] in
  if dc_GPUs d =? 0 then
    region ++ (if dc_MinContainers d >? en_MaxCPUContainers e
               then [mkRefusal GateWarmFloor (lift s (fun e => dc_MinContainers d <=? en_MaxCPUContainers e))] else [])
  else
    let floor := dc_MinContainers d * dc_GPUs d in
    region ++
    (if fleet && bool_decide (is_Some (unoffered (dc_GPUModels d))) then [mkRefusal GateGpuUnavailable Fallback] else []) ++
    match entitled_models e (dc_GPUModels d) fleet with inr m => [gpuModelRefusal s m] | inl _ => [] end ++
    (if dc_GPUs d >? en_MaxGPUs e then [mkRefusal GateGpuCount (lift s (fun e => dc_GPUs d <=? en_MaxGPUs e))]
     else if floor >? en_MaxGPUs e then [mkRefusal GateWarmFloor (lift s (fun e => floor <=? en_MaxGPUs e))] else []).

(** ** Lemmas *)

Lemma refuse_if_Ret r u : refuse_if r = Ret u -> r = None.
Proof. by destruct r. Qed.

(** Every version of the terms is the terms of a plan. *)
Lemma planOfTerms_total v : exists p, planOfTerms v = Some p /\ p ∈ Plans /\ pn_Terms p = v.
Proof. destruct v; eexists; (split; [reflexivity|]); split; try reflexivity; repeat (first [by left | right]). Qed.

Lemma accountEntitlements_total p hasCard complimentary : exists e, accountEntitlements p hasCard complimentary = Some e.
Proof. unfold accountEntitlements. destruct complimentary; by eexists. Qed.

Lemma standing_of_total user pending now a r : exists s, standing_of user pending now a r = Some s.
Proof.
  unfold standing_of. destruct (planOfTerms_total (ba_terms a)) as (p & -> & _). cbn [mbind option_bind].
  destruct (accountEntitlements_total p (bool_decide (is_Some (ba_card a))) (bool_decide (is_Some (ba_complimentary a)))) as [e ->].
  cbn [mbind option_bind]. destruct (ba_scheduled a) as [[terms at_]|]; [|by eexists]. destruct (bool_decide (is_Some (ba_complimentary a))); [by eexists|].
  destruct (planOfTerms_total terms) as (q & -> & _). by eexists.
Qed.

(** What an account is entitled to is a plan's, or a plan's with the limits of
    an account without a card. *)
Definition entitled (e : Entitlements) : Prop :=
  exists p, p ∈ Plans /\ (e = pn_Entitlements p \/ Some e = accountEntitlements p false false).

Lemma entitled_cases (P : Entitlements -> Prop) : (forall p, p ∈ Plans -> P (pn_Entitlements p)) ->
  (forall p e, p ∈ Plans -> accountEntitlements p false false = Some e -> P e) -> forall e, entitled e -> P e.
Proof. intros H1 H2 e (p & Hp & [->|E]); [by apply H1|by eapply H2]. Qed.

Lemma standing_of_spec user pending now a r s :
  standing_of user pending now a r = Some s -> entitled (st_entitlements s) /\ st_plan s ∈ Plans /\
  accountEntitlements (st_plan s) (st_hasCard s) (st_complimentary s) = Some (st_entitlements s).
Proof.
  unfold standing_of. destruct (planOfTerms_total (ba_terms a)) as (p & -> & Hp & _). cbn [mbind option_bind].
  set (card := bool_decide (is_Some (ba_card a))). set (free := bool_decide (is_Some (ba_complimentary a))).
  destruct (accountEntitlements p card free) as [e|] eqn:E; [|done]. cbn [mbind option_bind]. intros Hs.
  assert (He : st_entitlements s = e /\ st_plan s = p /\ st_hasCard s = card /\ st_complimentary s = free).
  { destruct (ba_scheduled a) as [[terms at_]|]; [|by injection Hs as <-]. destruct free; [by injection Hs as <-|].
    destruct (planOfTerms terms); [by injection Hs as <-|done]. }
  destruct He as (-> & -> & -> & ->). split; [|done]. unfold accountEntitlements in E. destruct free.
  - exists (mkPlan PlanBusiness TermsBusiness (199 * NanosPerUSD) (100 * NanosPerUSD)
       (mkEntitlements 2000 100 gpuModels unlimited unlimited true true true true 90 paidDiskGiB)).
    split; [right; right; left|]. injection E as <-. by left.
  - exists p. split; [done|]. destruct card; [left|right]; by injection E as <-.
Qed.

Lemma readStanding_spec fresh user pending now b b' s :
  readStanding fresh user pending now b = Ret (b', s) -> entitled (st_entitlements s) /\ st_plan s ∈ Plans /\
  accountEntitlements (st_plan s) (st_hasCard s) (st_complimentary s) = Some (st_entitlements s).
Proof.
  unfold readStanding. intros (b1 & _ & H)%go_bind_Ret. destruct (AccountStanding user b1) as [[a r]|]; [|done]. cbn [mbind option_bind] in H.
  destruct (standing_of user _ now a r) as [s'|] eqn:E; [|done]. injection H as _ <-. by eapply standing_of_spec.
Qed.

(** ** GPU models *)

Definition usable_model (e : Entitlements) (fleet : bool) (m : string) : Prop := m ∈ en_GPUTypes e /\ (fleet = true -> GPUEnabled m = true).

Lemma fleet_models_usable e fleet m : m ∈ fleet_models fleet (en_GPUTypes e) <-> usable_model e fleet m.
Proof.
  unfold fleet_models, usable_model. destruct fleet; [|split; [by intros|by intros []]].
  rewrite list_elem_of_In, List.filter_In, <- list_elem_of_In. split; intros []; split; auto.
Qed.

Lemma named_models_spec e fleet requested : forall named models,
  Forall (usable_model e fleet) named -> named_models e fleet (fleet_models fleet (en_GPUTypes e)) named requested = inl models ->
  Forall (usable_model e fleet) models /\ (models = fleet_models fleet (en_GPUTypes e) \/ forall m, m ∈ models -> m ∈ named ++ requested).
Proof.
  assert (Hall : Forall (usable_model e fleet) (fleet_models fleet (en_GPUTypes e))) by (apply Forall_forall; intros m; by apply fleet_models_usable).
  induction requested as [|m requested IH]; intros named models Hn; cbn [named_models].
  - destruct named as [|x named]; intros [= <-]; [split; [exact Hall|by left]|]. split; [exact Hn|]. right. intros m. by rewrite app_nil_r.
  - destruct (m == GPUAny); [intros [= <-]; split; [exact Hall|by left]|]. destruct (fleet && negb (GPUEnabled m)) eqn:Ef.
    + intros H. destruct (IH _ _ Hn H) as [H1 [H2|H2]]; (split; [exact H1|]); [by left|right]. intros x Hx. specialize (H2 x Hx). set_solver.
    + destruct (negb (bool_decide _)) eqn:Em; [intros [=]|]. intros H. apply negb_false_iff, bool_decide_eq_true in Em.
      destruct (IH (named ++ [m]) models) as [H1 [H2|H2]]; [|exact H|split; [exact H1|by left]|].
      * apply Forall_app. split; [done|]. apply Forall_singleton. split; [done|]. intros ->. by destruct (GPUEnabled m).
      * split; [exact H1|]. right. intros x Hx. specialize (H2 x Hx). set_solver.
Qed.

Lemma named_models_nonempty e fleet requested : forall named models,
  fleet_models fleet (en_GPUTypes e) <> [] -> named_models e fleet (fleet_models fleet (en_GPUTypes e)) named requested = inl models -> models <> [].
Proof.
  induction requested as [|m requested IH]; intros named models Ha; cbn [named_models].
  - destruct named; intros [= <-]; done.
  - destruct (m == GPUAny); [by intros [= <-]|]. destruct (_ && _); [by apply IH|]. destruct (negb _); [done|by apply IH].
Qed.

Lemma entitled_models_left e : entitled e -> forall fleet, fleet_models fleet (en_GPUTypes e) <> [].
Proof.
  intros He fleet. revert e He. apply (entitled_cases (fun e => fleet_models fleet (en_GPUTypes e) <> [])).
  - intros p Hp. apply list_elem_of_In in Hp. simpl in Hp. destruct Hp as [<-|[<-|[<-|[]]]]; destruct fleet; discriminate.
  - intros p e Hp [= <-]. destruct fleet; discriminate.
Qed.

(** ** Theorems *)

(** [Admit] grants work only to an account that is funded, at most what was
    asked for, within the pool of its plan together with what already runs,
    and GPU work some model, each one the account may use and, on the
    platform's fleet, one it offers. *)
Record granted (s : standing) (req : Request) (fleet : bool) (live : LiveContainers) (g : Grant) : Prop := {
  gd_funded : fundsRefusal s = None;
  gd_start : 0 <= gr_Start g <= Z.max 0 (rq_Start req);
  gd_cpus : rq_GPUs req = 0 -> 0 < gr_Start g -> lc_CpuContainers live + gr_Start g <= en_MaxCPUContainers (st_entitlements s);
  gd_gpus : 0 < gr_Start g -> 0 < rq_GPUs req -> lc_Gpus live + gr_Start g * rq_GPUs req <= en_MaxGPUs (st_entitlements s);
  gd_models : Forall (usable_model (st_entitlements s) fleet) (gr_GPUModels g);
  gd_some : 0 < rq_GPUs req -> gr_GPUModels g <> [] }.

Lemma grant_start_spec e req live n : grant_start e req live = Ret n ->
  0 <= n <= Z.max 0 (rq_Start req) /\
  (rq_GPUs req = 0 -> 0 < n -> lc_CpuContainers live + n <= en_MaxCPUContainers e) /\
  (0 < n -> 0 < rq_GPUs req -> lc_Gpus live + n * rq_GPUs req <= en_MaxGPUs e).
Proof.
  unfold grant_start. destruct (Z.gtb_spec (rq_GPUs req) 0).
  - destruct (rq_Cold req && _); [done|]. intros [= <-]. split; [lia|]. split; [lia|]. intros Hn _.
    set (q := Z.quot (en_MaxGPUs e - lc_Gpus live) (rq_GPUs req)) in *.
    assert (0 < q) by lia. assert (Hq : q * rq_GPUs req <= en_MaxGPUs e - lc_Gpus live).
    { destruct (Z_lt_le_dec (en_MaxGPUs e - lc_Gpus live) 0).
      - assert (q <= 0) by (apply Z.quot_le_upper_bound; lia). lia.
      - pose proof (Z.mul_quot_le (en_MaxGPUs e - lc_Gpus live) (rq_GPUs req)). lia. }
    nia.
  - destruct (rq_Cold req && _); [done|]. intros [= <-]. lia.
Qed.

Lemma admit_standing_granted s req fleet live g :
  entitled (st_entitlements s) -> admit_standing s req fleet live = Ret g -> granted s req fleet live g.
Proof.
  intros He (u & Hf%refuse_if_Ret & (models & Hm & H)%go_bind_Ret)%go_bind_Ret.
  assert (Hmod : Forall (usable_model (st_entitlements s) fleet) models /\ (0 < rq_GPUs req -> models <> [])).
  { unfold grant_models in Hm. destruct (_ && _); [done|]. destruct (Z.gtb_spec (rq_GPUs req) 0); [|injection Hm as <-; split; [done|lia]].
    unfold entitled_models in Hm. destruct (named_models _ _ _ _ _) as [ms|] eqn:E; [|done]. injection Hm as <-.
    split; [by eapply named_models_spec|]. intros _. eapply named_models_nonempty; [|done]. by apply entitled_models_left. }
  destruct Hmod as [Hm1 Hm2]. destruct ((rq_Start req =? 0) && _).
  - injection H as <-. split; simpl; try done; lia.
  - apply go_bind_Ret in H as (n & Hn & [= <-]). destruct (grant_start_spec _ _ _ _ Hn) as (H1 & H2 & H3). by split.
Qed.

Section Accounts.
Context (dir : directory).
(** The unique index [workspace_members_one_owner]. *)
Definition one_owner : Prop := forall m m', m ∈ dr_members dir -> m' ∈ dr_members dir ->
  mb_owner m = true -> mb_owner m' = true -> mb_workspace m = mb_workspace m' -> mb_user m = mb_user m'.

Lemma WorkspaceOwner_owns workspace user : WorkspaceOwner workspace dir = Some user -> owns user dir workspace = true.
Proof.
  unfold WorkspaceOwner, owns. destruct (List.find _ _) as [m|] eqn:E; [|done]. intros [= <-]. apply List.find_some in E as [Hm Hw].
  apply andb_true_iff in Hw as [<-%Z.eqb_eq Hb]. apply existsb_exists. exists m. split; [done|]. by rewrite Hb, !Z.eqb_refl.
Qed.

Lemma owns_WorkspaceOwner workspace user : one_owner -> owns user dir workspace = true -> WorkspaceOwner workspace dir = Some user.
Proof.
  intros Ho (m & Hm & Hw)%existsb_exists. apply andb_true_iff in Hw as [[<-%Z.eqb_eq Hb]%andb_true_iff Hw%Z.eqb_eq]. unfold WorkspaceOwner. destruct (List.find _ _) as [m'|] eqn:E.
  - apply List.find_some in E as [Hm' [Hw'%Z.eqb_eq Hb']%andb_true_iff]. simpl. f_equal.
    apply (Ho m' m); [by apply list_elem_of_In..|done|done|congruence].
  - pose proof (List.find_none _ _ E m Hm) as Hn. simpl in Hn. by rewrite Hw, Z.eqb_refl, Hb in Hn.
Qed.

Lemma live_app owner cs cs' :
  OwnerLiveContainers owner dir (cs ++ cs') =
  mkLiveContainers (lc_CpuContainers (OwnerLiveContainers owner dir cs) + lc_CpuContainers (OwnerLiveContainers owner dir cs'))
    (lc_Gpus (OwnerLiveContainers owner dir cs) + lc_Gpus (OwnerLiveContainers owner dir cs')).
Proof. unfold OwnerLiveContainers. simpl. rewrite !List.filter_app, length_app, map_app, sumZ_app. f_equal. lia. Qed.

Lemma live_cons owner c cs :
  OwnerLiveContainers owner dir (c :: cs) =
  mkLiveContainers ((if counted owner dir c && (hd_gpus c =? 0) then 1 else 0) + lc_CpuContainers (OwnerLiveContainers owner dir cs))
    ((if counted owner dir c then hd_gpus c else 0) + lc_Gpus (OwnerLiveContainers owner dir cs)).
Proof. unfold OwnerLiveContainers. simpl. destruct (counted owner dir c); simpl; [destruct (hd_gpus c =? 0)|]; simpl; f_equal; lia. Qed.

(** The containers an admission starts. *)
Definition new_containers (req : Request) (n : Z) : list Held := replicate (Z.to_nat n) (mkHeld (rq_Workspace req) (rq_GPUs req) false false).

Lemma live_new owner req n : 0 <= n ->
  OwnerLiveContainers owner dir (new_containers req n) =
  if owns owner dir (rq_Workspace req) then mkLiveContainers (if rq_GPUs req =? 0 then n else 0) (n * rq_GPUs req) else mkLiveContainers 0 0.
Proof.
  intros Hn. unfold new_containers. rewrite <- (Z2Nat.id n) at 2 3 by done. clear Hn.
  induction (Z.to_nat n) as [|k IH]; [unfold OwnerLiveContainers; simpl; by destruct (owns owner dir _), (rq_GPUs req =? 0)|].
  rewrite replicate_S, live_cons, IH. unfold counted. simpl. rewrite !andb_true_r.
  destruct (owns owner dir _); [|done]. simpl. destruct (rq_GPUs req =? 0); simpl; f_equal; lia.
Qed.

(** The containers of every account, started through [Admit] and stopped at
    any time; a mirror build's container is the platform's own and needs no
    admission.  [cpus] and [gpus] bound what the account [owner] was ever
    entitled to when it started any. *)
Inductive running (owner : uuid) (cpus gpus : Z) : list Held -> Prop :=
  | running_none : running owner cpus gpus []
  | running_start fresh pending now req cs b b' g n :
      running owner cpus gpus cs -> 0 <= rq_GPUs req -> Admit fresh pending dir now req cs b = Ret (b', g) -> 0 <= n <= gr_Start g ->
      (WorkspaceOwner (rq_Workspace req) dir = Some owner -> forall s, readStanding fresh owner pending now b = Ret (b', s) ->
         en_MaxCPUContainers (st_entitlements s) <= cpus /\ en_MaxGPUs (st_entitlements s) <= gpus) ->
      running owner cpus gpus (new_containers req n ++ cs)
  | running_mirror c cs : running owner cpus gpus cs -> hd_mirror c = true -> running owner cpus gpus (c :: cs)
  | running_stop cs1 c cs2 : running owner cpus gpus (cs1 ++ c :: cs2) ->
      running owner cpus gpus (cs1 ++ mkHeld (hd_workspace c) (hd_gpus c) true (hd_mirror c) :: cs2).

Lemma Admit_Ret fresh pending now req cs b b' g :
  Admit fresh pending dir now req cs b = Ret (b', g) -> exists owner connected s,
  AdmissionWorkspace (rq_Workspace req) dir = Some (owner, connected) /\ readStanding fresh owner pending now b = Ret (b', s) /\
  admit_standing s req (on_fleet (rq_Machine req) connected) (OwnerLiveContainers owner dir cs) = Ret g.
Proof.
  unfold Admit. destruct (AdmissionWorkspace _ _) as [[owner connected]|]; [|done].
  intros (u & _ & ([b1 s] & Hs & (g' & Hg & [= <- <-])%go_bind_Ret)%go_bind_Ret)%go_bind_Ret. by exists owner, connected, s.
Qed.

Lemma running_live owner cpus gpus cs : one_owner -> 0 <= cpus -> 0 <= gpus -> running owner cpus gpus cs ->
  (forall c, c ∈ cs -> counted owner dir c = true -> 0 <= hd_gpus c) /\
  lc_CpuContainers (OwnerLiveContainers owner dir cs) <= cpus /\ lc_Gpus (OwnerLiveContainers owner dir cs) <= gpus.
Proof.
  intros Ho Hc Hg Hr. induction Hr as [|fresh pending now req cs b b' g n Hr (IHg & IHc & IHp) Hq Ha Hn Hb|c cs Hr (IHg & IHc & IHp) Hm|cs1 c cs2 Hr (IHg & IHc & IHp)].
  - split; [intros c H; by apply not_elem_of_nil in H|]. by split.
  - split; [intros c [Hc'|Hc']%elem_of_app; [apply elem_of_replicate_inv in Hc' as ->; done|by apply IHg]|].
    rewrite live_app, live_new by lia. destruct (owns owner dir (rq_Workspace req)) eqn:Eo; cbn [lc_CpuContainers lc_Gpus]; [|lia].
    apply owns_WorkspaceOwner in Eo; [|done]. destruct (Admit_Ret _ _ _ _ _ _ _ _ Ha) as (user & connected & s & Hw & Hs & Hg').
    unfold AdmissionWorkspace in Hw. rewrite Eo in Hw. injection Hw as <- _. destruct (Hb Eo s Hs) as [Hb1 Hb2].
    destruct (readStanding_spec _ _ _ _ _ _ _ Hs) as [He _]. destruct (admit_standing_granted _ _ _ _ _ He Hg') as [_ Hst H1 H2 _ _].
    destruct (decide (n = 0)) as [->|]; [destruct (_ =? 0); lia|]. assert (Hpos : 0 < gr_Start g) by lia.
    destruct (Z.eqb_spec (rq_GPUs req) 0) as [E|Hne]; [specialize (H1 E Hpos); rewrite E; lia|].
    specialize (H2 Hpos ltac:(lia)). split; [lia|nia].
  - split; [|rewrite live_cons; unfold counted; rewrite Hm, !andb_false_r; cbn [andb lc_CpuContainers lc_Gpus]; lia].
    intros x [->|Hx]%elem_of_cons Hcx; [|by apply IHg]. unfold counted in Hcx. by rewrite Hm, !andb_false_r in Hcx.
  - rewrite !live_app, !live_cons in *. unfold counted in *. cbn [hd_workspace hd_gpus hd_stopped hd_mirror negb andb lc_CpuContainers lc_Gpus] in *.
    rewrite !andb_false_r. cbn [andb]. split.
    + intros x [Hx|[->|Hx]%elem_of_cons]%elem_of_app Hcx; [apply IHg; set_solver| |apply IHg; set_solver].
      simpl in Hcx. by rewrite !andb_false_r in Hcx.
    + specialize (IHg c ltac:(set_solver)). destruct (owns owner dir (hd_workspace c) && negb (hd_stopped c) && negb (hd_mirror c)) eqn:E;
        cbn [andb] in *; [specialize (IHg eq_refl); destruct (_ =? 0); lia|lia].
Qed.
End Accounts.

(** ** What a deploy is told *)

Lemma ReadAllowance_Ret fresh pending dir now workspace b b' a :
  ReadAllowance fresh pending dir now workspace b = Ret (b', a) ->
  exists owner, AdmissionWorkspace workspace dir = Some (owner, al_connected a) /\ readStanding fresh owner pending now b = Ret (b', al_s a).
Proof.
  unfold ReadAllowance. destruct (AdmissionWorkspace workspace dir) as [[owner connected]|]; [|done].
  intros ([b1 s] & Hs & [= <- <-])%go_bind_Ret. by exists owner.
Qed.

Lemma gpuModels_refused e models fleet m : entitled_models e models fleet = inr m -> m ∉ en_GPUTypes e.
Proof.
  unfold entitled_models. generalize (fleet_models fleet (en_GPUTypes e)) (@nil string). intros allowed named. revert named.
  induction models as [|x models IH]; intros named; cbn [named_models]; [done|].
  destruct (x == GPUAny); [done|]. destruct (fleet && _); [apply IH|]. destruct (negb (bool_decide _)) eqn:E; [|apply IH].
  intros [= <-]. by apply negb_true_iff, bool_decide_eq_false in E.
Qed.

(** The rules [Admit] holds each start to, as a deploy is told them. *)
Definition start_gate (g : Gate) : bool := match g with GateRegion | GateGpuUnavailable | GateGpuModel => true | _ => false end.

(** A start of [n] containers of a workload, [cold] when it has none to run
    on: the declared request with its start set. *)
Definition start_request (d : Declared) (workspace : uuid) (n : Z) (cold : bool) : Request :=
  let r := declared_request d workspace in
  mkRequest (rq_Workspace r) n cold (rq_GPUs r) (rq_GPUModels r) (rq_Pinned r) (rq_Machine r).

(** The account runs as much as its plan allows. *)
Definition at_limit (e : refusal) : bool := match e with GPUsRefused _ _ _ | ContainersRefused _ _ => true | _ => false end.
Definition no_room (e : Entitlements) (live : LiveContainers) (gpus : Z) : Prop :=
  if gpus >? 0 then en_MaxGPUs e < lc_Gpus live + gpus else en_MaxCPUContainers e <= lc_CpuContainers live.

(** What [Admit] does with a start whose region and models are allowed. *)
Lemma grant_start_cases e req live :
  match grant_start e req live with
  | Ret n => n = Z.max 0 (Z.min (rq_Start req)
               (if rq_GPUs req >? 0 then Z.quot (en_MaxGPUs e - lc_Gpus live) (rq_GPUs req) else en_MaxCPUContainers e - lc_CpuContainers live))
  | Err r => at_limit r = true /\ rq_Cold req = true /\ no_room e live (rq_GPUs req)
  | _ => False
  end.
Proof.
  unfold grant_start, no_room. destruct (rq_GPUs req >? 0).
  - destruct (rq_Cold req); simpl; [|done]. by destruct (Z.gtb_spec (lc_Gpus live + rq_GPUs req) (en_MaxGPUs e)).
  - destruct (rq_Cold req); simpl; [|done]. by destruct (Z.leb_spec (en_MaxCPUContainers e) (lc_CpuContainers live)).
Qed.

(** The rules a start is held to before anything is counted. *)
Definition rules_refuse (s : standing) (d : Declared) (fleet : bool) : option refusal :=
  match (if (dc_GPUs d >? 0) && fleet then GPUUnavailable <$> unoffered (dc_GPUModels d) else None) with
  | Some e => Some e
  | None => match grant_models s (declared_request d 0) fleet with Err e => Some e | _ => None end
  end.

Lemma rules_refuse_plan s d fleet e : rules_refuse s d fleet = Some e -> at_limit e = false.
Proof.
  unfold rules_refuse, grant_models. simpl. destruct (_ && fleet); [destruct (unoffered _); [by intros [= <-]|]|]; simpl;
    (destruct (_ && negb _); [by intros [= <-]|]); (destruct (dc_GPUs d >? 0); [|done]); (destruct (entitled_models _ _ _); [done|]);
    by intros [= <-].
Qed.

Lemma Refusals_rules a d : 0 <= dc_GPUs d ->
  existsb (fun r => start_gate (rf_Gate r)) (Refusals a d) =
    bool_decide (is_Some (rules_refuse (al_s a) d (on_fleet (dc_Machine d) (al_connected a)))).
Proof.
  intros Hg. unfold Refusals, rules_refuse, grant_models. simpl. assert ((dc_GPUs d =? 0) = negb (dc_GPUs d >? 0)) as -> by lia.
  destruct (dc_GPUs d >? 0); simpl; rewrite !existsb_app.
  - destruct (unoffered (dc_GPUModels d)) as [ms|], (on_fleet _ _); simpl; rewrite ?orb_true_r; try done;
      (destruct (dc_Pinned d && _); simpl; [done|]); (destruct (entitled_models _ _ _); simpl; [|done]); by repeat case_match.
  - destruct (dc_Pinned d && _); simpl; [done|]. by case_match.
Qed.

(** [Admit] of a start, once the account can pay. *)
Lemma Admit_start fresh pending dir now workspace d n cold cs b b' a owner :
  AdmissionWorkspace workspace dir = Some (owner, al_connected a) -> readStanding fresh owner pending now b = Ret (b', al_s a) ->
  fundsRefusal (al_s a) = None ->
  Admit fresh pending dir now (start_request d workspace n cold) cs b =
    let fleet := on_fleet (dc_Machine d) (al_connected a) in
    match rules_refuse (al_s a) d fleet with
    | Some e => Err e
    | None =>
        models <-! grant_models (al_s a) (declared_request d 0) fleet;
        if (n =? 0) && negb cold then Ret (b', mkGranted 0 models)
        else start <-! grant_start (st_entitlements (al_s a)) (start_request d workspace n cold) (OwnerLiveContainers owner dir cs);
             Ret (b', mkGranted start models)
    end.
Proof.
  intros Hw Hs Hf. unfold Admit, rules_refuse. simpl. rewrite Hw. cbn zeta beta iota. set (fleet := on_fleet (dc_Machine d) (al_connected a)).
  unfold admit_standing. rewrite Hs. change (grant_models (al_s a) (start_request d workspace n cold) fleet) with
    (grant_models (al_s a) (declared_request d 0) fleet).
  destruct (if _ : bool then _ else None); simpl; [done|]. rewrite Hf. simpl.
  destruct (grant_models _ _ _); simpl; try done. destruct (_ && negb cold); [done|]. by destruct (grant_start _ _ _).
Qed.

Lemma grant_models_returns s req fleet : match grant_models s req fleet with Ret _ | Err _ => True | _ => False end.
Proof. unfold grant_models. destruct (_ && _); [done|]. destruct (_ >? 0); [|done]. by destruct (entitled_models _ _ _). Qed.

(** A deploy with no refusal keeps its floor within the plan. *)
Lemma Refusals_floor a d : 0 <= dc_GPUs d -> Refusals a d = [] ->
  let e := st_entitlements (al_s a) in
  (0 < dc_GPUs d -> dc_GPUs d <= en_MaxGPUs e /\ dc_MinContainers d * dc_GPUs d <= en_MaxGPUs e) /\
  (dc_GPUs d = 0 -> dc_MinContainers d <= en_MaxCPUContainers e).
Proof.
  intros Hg HR. unfold Refusals in HR. destruct (Z.eqb_spec (dc_GPUs d) 0) as [E|NE].
  - apply app_nil in HR as [_ HR]. destruct (Z.gtb_spec (dc_MinContainers d) (en_MaxCPUContainers (st_entitlements (al_s a)))); [done|].
    split; lia.
  - apply app_nil in HR as [_ HR]. apply app_nil in HR as [_ HR]. apply app_nil in HR as [_ HR].
    destruct (Z.gtb_spec (dc_GPUs d) (en_MaxGPUs (st_entitlements (al_s a)))); [done|].
    destruct (Z.gtb_spec (dc_MinContainers d * dc_GPUs d) (en_MaxGPUs (st_entitlements (al_s a)))); [done|]. split; lia.
Qed.

Lemma entitled_room e : entitled e -> 0 < en_MaxCPUContainers e.
Proof.
  intros (p & Hp & [->|E]).
  - unfold Plans in Hp. rewrite !elem_of_cons in Hp. destruct Hp as [->|[->|[->|H]]]; [done..|by apply not_elem_of_nil in H].
  - unfold accountEntitlements in E. by injection E as ->.
Qed.

(** A floor within the plan is granted in full to an account that runs
    nothing. *)
Lemma grant_floor e d workspace cold :
  0 < en_MaxCPUContainers e -> 0 <= dc_GPUs d -> 0 <= dc_MinContainers d ->
  (0 < dc_GPUs d -> dc_GPUs d <= en_MaxGPUs e /\ dc_MinContainers d * dc_GPUs d <= en_MaxGPUs e) ->
  (dc_GPUs d = 0 -> dc_MinContainers d <= en_MaxCPUContainers e) ->
  grant_start e (start_request d workspace (dc_MinContainers d) cold) (mkLiveContainers 0 0) = Ret (dc_MinContainers d).
Proof.
  intros Hc Hg Hn F1 F2. unfold grant_start, start_request, declared_request.
  cbn [rq_Start rq_GPUs rq_Cold lc_Gpus lc_CpuContainers]. rewrite Z.add_0_l, !Z.sub_0_r. destruct (Z.gtb_spec (dc_GPUs d) 0) as [H|H].
  - destruct (F1 H) as [G1 G2]. assert ((dc_GPUs d >? en_MaxGPUs e) = false) as -> by lia. rewrite andb_false_r. f_equal.
    assert (dc_MinContainers d <= Z.quot (en_MaxGPUs e) (dc_GPUs d)); [|lia]. apply Z.quot_le_lower_bound; lia.
  - assert ((en_MaxCPUContainers e <=? 0) = false) as -> by lia. rewrite andb_false_r. f_equal. specialize (F2 ltac:(lia)). lia.
Qed.


Definition above (p : Plan) (allows : Entitlements -> bool) (q : Plan) : bool :=
  (pn_MonthlyNanos p <? pn_MonthlyNanos q) && allows (pn_Entitlements q).

Lemma first_above_find allows p : p ∈ Plans -> first_above allows (pn_ID p) false Plans = pn_ID <$> List.find (above p allows) Plans.
Proof.
  unfold Plans at 1. rewrite !elem_of_cons. intros [->|[->|[->|H]]]; [..|by apply not_elem_of_nil in H]; unfold above; simpl; by repeat case_match.
Qed.

(** The plans are listed cheapest first, so the first found is the cheapest. *)
Lemma find_cheapest f q : List.find f Plans = Some q ->
  f q = true /\ PlanFor (pn_ID q) = Some q /\ forall x, x ∈ Plans -> pn_MonthlyNanos x < pn_MonthlyNanos q -> f x = false.
Proof.
  intros Hq. split; [apply (List.find_some _ _ Hq)|]. unfold Plans in Hq |- *. simpl in Hq.
  split; [by repeat case_match; simplify_eq|]. intros x. rewrite !elem_of_cons. unfold NanosPerUSD.
  repeat case_match; simplify_eq; intros [->|[->|[->|Hx]]]; simpl; try done; try lia; by apply not_elem_of_nil in Hx.
Qed.

(** A remedy lifts the rule: a plan it names is above the account's and the
    cheapest that allows the work, and a card is named only when the account's
    plan allows the work to an account that has one. *)
Theorem lift_works (s : standing) (allows : Entitlements -> bool) :
  st_plan s ∈ Plans -> st_complimentary s = false ->
  match lift s allows with
  | AddCard => accountEntitlements (st_plan s) true false = Some (pn_Entitlements (st_plan s)) /\ allows (pn_Entitlements (st_plan s)) = true
  | UpgradeTo id => exists p, PlanFor id = Some p /\ allows (pn_Entitlements p) = true /\ pn_MonthlyNanos (st_plan s) < pn_MonthlyNanos p /\
      forall q, q ∈ Plans -> pn_MonthlyNanos (st_plan s) < pn_MonthlyNanos q < pn_MonthlyNanos p -> allows (pn_Entitlements q) = false
  | Fallback => forall q, q ∈ Plans -> pn_MonthlyNanos (st_plan s) < pn_MonthlyNanos q -> allows (pn_Entitlements q) = false
  end.
Proof.
  intros Hp Hc. unfold lift. rewrite Hc. destruct (negb (st_hasCard s) && allows _) eqn:E; [by apply andb_true_iff in E as [_ ?]|]. clear E.
  rewrite (first_above_find allows _ Hp). destruct (List.find _ _) as [p|] eqn:E; cbn [fmap option_fmap option_map].
  - destruct (find_cheapest _ _ E) as ([Ha%Z.ltb_lt Hallow]%andb_true_iff & Hf & Hc'). exists p. repeat (split; [done|]). intros q Hq [H1 H2].
    specialize (Hc' q Hq H2). unfold above in Hc'. by rewrite (proj2 (Z.ltb_lt _ _) H1) in Hc'.
  - intros q Hq H. pose proof (List.find_none _ _ E q (proj1 (list_elem_of_In _ _) Hq)) as Hn. unfold above in Hn.
    by rewrite (proj2 (Z.ltb_lt _ _) H) in Hn.
Qed.

(** C13: however containers start and stop, an account never has more running
    than the largest limits it was ever entitled to when it started one: its
    containers without GPUs within the CPU limit, the cards of the others
    within the GPU limit, counted over every workspace it owns. *)
Theorem accounts_stay_within_plan (dir : directory) (owner : uuid) (cpus gpus : Z) (cs : list Held) :
  one_owner dir -> 0 <= cpus -> 0 <= gpus -> running dir owner cpus gpus cs ->
  lc_CpuContainers (OwnerLiveContainers owner dir cs) <= cpus /\ lc_Gpus (OwnerLiveContainers owner dir cs) <= gpus.
Proof. intros Ho Hc Hg Hr. by destruct (running_live dir owner cpus gpus cs Ho Hc Hg Hr). Qed.

(** what [Admit] grants: only an account that is funded gets anything; it
    gets no more containers than it asked for and none past its plan's pools,
    counting what already runs; and GPU work gets at least one model, each one
    its plan includes and, on the platform's fleet, one the fleet offers. *)
Theorem Admit_grants fresh pending (dir : directory) now (req : Request) (cs : list Held) (b b' : books) (g : Grant) :
  Admit fresh pending dir now req cs b = Ret (b', g) ->
  exists owner connected s, AdmissionWorkspace (rq_Workspace req) dir = Some (owner, connected) /\
    readStanding fresh owner pending now b = Ret (b', s) /\
    granted s req (on_fleet (rq_Machine req) connected) (OwnerLiveContainers owner dir cs) g.
Proof.
  intros (owner & connected & s & Hw & Hs & Hg)%Admit_Ret. exists owner, connected, s. split; [done|]. split; [done|].
  apply admit_standing_granted; [|done]. by destruct (readStanding_spec _ _ _ _ _ _ _ Hs).
Qed.

(** ** An account, evaluated *)

(** User 7 owns workspace 2, is new and has no card. *)
Definition sample_dir : directory := mkDirectory [mkMember 2 7 true; mkMember 2 8 false] [] [(7, "a@b.c")] [] [].
Definition sample_books : books := mkBooks ∅ ∅ ∅ ∅.
Definition sample_now : Z := time_Date 2026 11 10 10 0 0 0.
Definition sample_request (n gpus : Z) (models : list string) : Request := mkRequest 2 n false gpus models false false.
Definition sample_account : books := match EnsureAccount 1 7 sample_now sample_books with Ret b => b | _ => sample_books end.

Lemma sample_one_owner : one_owner sample_dir.
Proof. intros m m' Hm Hm'. unfold sample_dir in *. simpl in *. set_solver. Qed.

(** Twelve containers are asked for and ten start; then no GPU model but the
    account's own is granted. *)
Example sample_grant :
  (fun r => gr_Start r.2) <$> (match Admit 1 (fun _ => false) sample_dir sample_now (sample_request 12 0 []) [] sample_books with Ret r => Some r | _ => None end)
    = Some 10 /\
  match Admit 1 (fun _ => false) sample_dir sample_now (sample_request 1 1 ["L40S"; "T4"]) [] sample_books with Err e => e = ModelRefused "L40S" | _ => False end /\
  match Admit 1 (fun _ => false) sample_dir sample_now (sample_request 1 1 ["H100"]) [] sample_books with Err e => e = GPUUnavailable ["H100"] | _ => False end.
Proof. vm_compute. repeat split. Qed.

Lemma Admit_grants_witness : exists owner connected s,
  AdmissionWorkspace 2 sample_dir = Some (owner, connected) /\ readStanding 1 owner (fun _ => false) sample_now sample_books = Ret (sample_account, s) /\
  granted s (sample_request 12 0 []) (on_fleet false connected) (OwnerLiveContainers owner sample_dir []) (mkGranted 10 []).
Proof.
  apply (Admit_grants 1 (fun _ => false) sample_dir sample_now (sample_request 12 0 []) [] sample_books sample_account (mkGranted 10 [])).
  vm_compute. reflexivity.
Defined.

Lemma accounts_stay_within_plan_witness :
  lc_CpuContainers (OwnerLiveContainers 7 sample_dir (new_containers (sample_request 12 0 []) 10 ++ [])) = 10 /\
  lc_CpuContainers (OwnerLiveContainers 7 sample_dir (new_containers (sample_request 12 0 []) 10 ++ [])) <= 10 /\
  lc_Gpus (OwnerLiveContainers 7 sample_dir (new_containers (sample_request 12 0 []) 10 ++ [])) <= 1.
Proof.
  split; [vm_compute; reflexivity|].
  apply (accounts_stay_within_plan sample_dir 7 10 1); [exact sample_one_owner|lia|lia|].
  apply (running_start sample_dir 7 10 1 1 (fun _ => false) sample_now (sample_request 12 0 []) [] sample_books sample_account (mkGranted 10 []));
    [constructor|done|vm_compute; reflexivity|done|].
  intros _ s Hs. vm_compute in Hs. injection Hs as <-. done.
Defined.

