(* ===== verification/Payments.v ===== *)
(** Payments and plan changes (src/internal/billing: payments.go, plans.go,
    the parts of stripe.go and webhooks.go that interpret what Stripe answers,
    and the statements they run): buying credit, automatic reloads, settling a
    purchase, refunds and disputes, changing plans, subscriptions and the
    credit an invoice includes.

    Stripe is a record of the calls the code makes, each a function from its
    arguments to an answer or [None] when it fails; its objects carry the
    fields the code reads.  A handler that calls Stripe between transactions
    is a function of the rows it read, which may be older than the tables its
    last transaction writes.  Returned errors keep their kind; texts that only
    describe a failure are left out. *)

From Stdlib Require QArith_base.
From S2P Require Import Prelude Capacity Catalog Calendar GoLib Billing Placement Credits Admission.

Definition nanosPerCent : Z := NanosPerUSD / 100.

(** ** Rows *)

Inductive PaymentStatus := paymentPending | paymentActionRequired | paymentSucceeded | paymentDeclined | paymentCancelled.
#[export] Instance PaymentStatus_eq_dec : EqDecision PaymentStatus.
Proof. solve_decision. Defined.

Inductive PurchaseKind := purchaseManual | purchaseAutomatic.
#[export] Instance PurchaseKind_eq_dec : EqDecision PurchaseKind.
Proof. solve_decision. Defined.

(** [checkout]: a session of Stripe Checkout. *)
Record checkout := mkCheckout { ck_id : string; ck_url : string; ck_expires : Z }.

Record CreditPurchase := mkPurchase {
  cp_user : uuid;
  cp_kind : PurchaseKind;
  cp_request : option uuid;
  cp_amount : Z;
  cp_status : PaymentStatus;
  cp_success : string;
  cp_cancel : string;
  cp_checkout : option checkout;
  cp_intent : option string;
  cp_lot : option uuid;
  cp_reversed : Z;
  cp_attempts : Z;
  cp_next : Z;
  cp_created : Z;
  cp_funded : option Z }.
#[export] Instance eta_CreditPurchase : Eta CreditPurchase := fun r =>
  mkPurchase (cp_user r) (cp_kind r) (cp_request r) (cp_amount r) (cp_status r) (cp_success r) (cp_cancel r) (cp_checkout r) (cp_intent r)
    (cp_lot r) (cp_reversed r) (cp_attempts r) (cp_next r) (cp_created r) (cp_funded r).

Record payments := mkPayments { py_books : books; py_purchases : gmap uuid CreditPurchase }.
#[export] Instance eta_payments : Eta payments := fun s => mkPayments (py_books s) (py_purchases s).

(** The constraints of a row of [credit_purchases] against the others: its
    checkout, its payment, its request and a pending automatic payment are its
    own. *)
Definition pending_automatic (p : CreditPurchase) : bool := (cp_kind p == purchaseAutomatic) && (cp_status p == paymentPending).
Definition same_some {A} `{EqDecision A} (a b : option A) : bool := match a, b with Some x, Some y => x == y | _, _ => false end.
Definition purchase_conflicts (p q : CreditPurchase) : bool :=
  same_some (ck_id <$> cp_checkout p) (ck_id <$> cp_checkout q) || same_some (cp_intent p) (cp_intent q) ||
  ((cp_user p =? cp_user q) && (same_some (cp_request p) (cp_request q) || (pending_automatic p && pending_automatic q))).
Definition purchase_checks (p : CreditPurchase) : bool :=
  (0 <? cp_amount p) && (0 <=? cp_reversed p) && Bool.eqb (bool_decide (cp_kind p = purchaseManual)) (bool_decide (is_Some (cp_request p))).
Definition write_purchase (id : uuid) (p : CreditPurchase) (s : payments) : go billing_error payments :=
  if purchase_checks p && forallb (fun r => (r.1 =? id) || negb (purchase_conflicts p r.2)) (map_to_list (py_purchases s))
  then Ret (s <| py_purchases := <[id := p]> (py_purchases s) |>) else Err ConstraintViolated.

(** A statement that updates one purchase, if it is there and the statement's
    condition holds of it. *)
Definition update_purchase (id : uuid) (f : CreditPurchase -> option CreditPurchase) (s : payments) : go billing_error payments :=
  match p ← py_purchases s !! id; f p with Some p => write_purchase id p s | None => Ret s end.

(** ** Statements (payments.sql.go) *)

Definition accounts_of (f : BillingAccount -> BillingAccount) (user : uuid) (s : payments) : payments :=
  s <| py_books := (py_books s) <| bk_accounts := alter f user (bk_accounts (py_books s)) |> |>.
Definition account_of (user : uuid) (s : payments) : option BillingAccount := bk_accounts (py_books s) !! user.

Definition AccountByCustomer (customer : string) (b : books) : option uuid :=
  fst <$> List.find (fun r => bool_decide (ba_customer r.2 = Some customer)) (map_to_list (bk_accounts b)).

Definition SetCard (user : uuid) (present : bool) (now : Z) : payments -> payments :=
  accounts_of (fun a => a <| ba_card := if present then Some (default now (ba_card a)) else None |>) user.
(** The first customer recorded wins; a customer is one account's. *)
Definition SetCustomer (user : uuid) (customer : string) (s : payments) : go billing_error (payments * string) :=
  match account_of user s with
  | None => Err BillingNotFound
  | Some a =>
      match ba_customer a, AccountByCustomer customer (py_books s) with
      | Some c, _ => Ret (s, c)
      | None, Some _ => Err ConstraintViolated
      | None, None => Ret (accounts_of (fun a => a <| ba_customer := Some customer |>) user s, customer)
      end
  end.
Definition PauseReload (user id : uuid) (reason : PauseReason) : payments -> payments :=
  accounts_of (fun a => if ba_paused a is Some _ then a else a <| ba_paused := Some (id, reason) |>) user.

Definition DuePurchases (limit : nat) (now : Z) (s : payments) : list uuid :=
  take limit (map fst (sort_by (fun a b => Z.compare (cp_next a.2) (cp_next b.2))
    (List.filter (fun r => (cp_status r.2 == paymentPending) && (cp_next r.2 <=? now)) (map_to_list (py_purchases s))))).

(** An account that automatic reload may charge. *)
Definition reload_on (a : BillingAccount) : bool :=
  ba_reload a && bool_decide (ba_paused a = None) && bool_decide (is_Some (ba_card a)) && negb (ba_past_due a) &&
  bool_decide (ba_complimentary a = None).
Definition automatic_pending (user : uuid) (s : payments) : bool :=
  existsb (fun r => (cp_user r.2 =? user) && pending_automatic r.2) (map_to_list (py_purchases s)).
Definition at_threshold (a : BillingAccount) (r : BalanceRow) : bool := bb_balance r - bb_accrued r <=? ba_threshold_cents a * 10000000.
Definition reload_due (user : uuid) (a : BillingAccount) (r : BalanceRow) (s : payments) : bool :=
  reload_on a && bool_decide (is_Some (ba_customer a)) && at_threshold a r && negb (automatic_pending user s).
(** No order is asked for. *)
Definition DueReloads (limit : nat) (s : payments) : list uuid :=
  take limit (omap (fun r => match bk_balances (py_books s) !! r.1 with
                             | Some bal => if reload_due r.1 r.2 bal s then Some r.1 else None
                             | None => None
                             end) (map_to_list (bk_accounts (py_books s)))).
Definition ReloadAmount (user : uuid) (s : payments) : option Z :=
  a ← account_of user s; r ← bk_balances (py_books s) !! user;
  if reload_due user a r s && negb (bb_due r) then Some (ba_amount_cents a) else None.
Definition ReloadEligible (user : uuid) (s : payments) : bool := match account_of user s with Some a => reload_on a | None => false end.

Definition new_purchase (user : uuid) (kind : PurchaseKind) (request : option uuid) (amount : Z) (success cancel : string) (now : Z) : CreditPurchase :=
  mkPurchase user kind request amount paymentPending success cancel None None None 0 0 now now None.

(** [InsertManualPurchase]: nothing when the request was made before. *)
Definition PurchaseByRequest (user request : uuid) (s : payments) : option (uuid * CreditPurchase) :=
  List.find (fun r => (cp_user r.2 =? user) && bool_decide (cp_request r.2 = Some request)) (map_to_list (py_purchases s)).
Definition InsertManualPurchase (id user request : uuid) (amount : Z) (success cancel : string) (now : Z) (s : payments) : go billing_error payments :=
  if PurchaseByRequest user request s is Some _ then Ret s
  else if bool_decide (is_Some (py_purchases s !! id)) then Err ConstraintViolated
  else write_purchase id (new_purchase user purchaseManual (Some request) amount success cancel now) s.
Definition InsertAutomaticPurchase (id user : uuid) (amount now : Z) (s : payments) : go billing_error (payments * bool) :=
  if automatic_pending user s then Ret (s, false)
  else if bool_decide (is_Some (py_purchases s !! id)) then Err ConstraintViolated
  else s' <-! write_purchase id (new_purchase user purchaseAutomatic None amount "" "" now) s; Ret (s', true).

Definition PurchaseIntentFound (id : uuid) (intent : string) : payments -> go billing_error payments :=
  update_purchase id (fun p => if cp_intent p is Some _ then None else Some (p <| cp_intent := Some intent |>)).
Definition SetCheckout (id : uuid) (c : checkout) (next : Z) : payments -> go billing_error payments :=
  update_purchase id (fun p => if cp_checkout p is Some _ then None else Some (p <| cp_checkout := Some c |> <| cp_next := next |>)).
Definition RetryPurchase (id : uuid) (next : Z) : payments -> go billing_error payments :=
  update_purchase id (fun p => Some (p <| cp_attempts := cp_attempts p + 1 |> <| cp_next := next |>)).

Record SettlePurchaseParams := mkSettle {
  sp_Status : PaymentStatus;
  sp_Intent : option string;
  sp_Lot : option uuid;
  sp_Reversed : Z;
  sp_Funded : option Z;
  sp_Next : Z }.
Definition settled_purchase (a : SettlePurchaseParams) (p : CreditPurchase) : CreditPurchase :=
  p <| cp_status := sp_Status a |> <| cp_intent := if cp_intent p is Some i then Some i else sp_Intent a |>
    <| cp_lot := if cp_lot p is Some l then Some l else sp_Lot a |> <| cp_reversed := sp_Reversed a |>
    <| cp_funded := if cp_funded p is Some f then Some f else sp_Funded a |> <| cp_next := sp_Next a |>.
Definition SettlePurchase (id : uuid) (a : SettlePurchaseParams) : payments -> go billing_error payments :=
  update_purchase id (fun p => Some (settled_purchase a p)).

(** ** What Stripe answers (stripe.go) *)

Inductive IntentStatus :=
  | IntentSucceeded | IntentCanceled | IntentRequiresAction | IntentRequiresPaymentMethod
  | IntentProcessing | IntentRequiresCapture | IntentRequiresConfirmation | IntentOther.
Inductive DisputeStatus :=
  | DisputeNeedsResponse | DisputeUnderReview | DisputeLost | DisputeWon | DisputeWarningClosed
  | DisputeWarningNeedsResponse | DisputeWarningUnderReview | DisputePrevented.
Record Charge_ := mkCharge_ { ch_ID : string; ch_Refunded : Z; ch_Disputed : bool }.
Record PaymentIntent := mkIntent {
  pi_ID : string;
  pi_Purchase : string;
  pi_Amount : Z;
  pi_Customer : option string;
  pi_Status : IntentStatus;
  pi_AuthRequired : bool;
  pi_Received : Z;
  pi_Charge : option Charge_ }.
Record Dispute := mkDispute { dp_Status : DisputeStatus; dp_Amount : Z }.
Record CheckoutSession := mkSession { cs_Intent : option string; cs_Purchase : string; cs_Expired : bool }.

(** What a charge of a saved card answers: a payment, a refusal of the card
    with the payment it left, or a failure. *)
Inductive ChargeAnswer := ChargeMade (i : PaymentIntent) | ChargeRefused (auth : bool) (intent : option string) | ChargeFailed.

Record Stripe := mkStripe {
  RetrieveIntent : string -> option PaymentIntent;
  ListDisputes : string -> option (list Dispute);
  SearchIntents : uuid -> option (list PaymentIntent);
  RetrieveCheckout : string -> option CheckoutSession;
  CreateCheckout : string -> uuid -> Z -> string -> string -> option checkout;
  DefaultCard : string -> option (option string);
  CreateIntent : string -> uuid -> Z -> string -> ChargeAnswer }.

(** [payment]: what Stripe holds of one credit payment; the empty text is
    none. *)
Record payment := mkPayment {
  pm_intent : string;
  pm_customer : string;
  pm_purchase : string;
  pm_status : PaymentStatus;
  pm_amount : Z;
  pm_retained : Z }.

Definition open_dispute (d : Dispute) : bool :=
  match dp_Status d with DisputeNeedsResponse | DisputeUnderReview | DisputeLost => true | _ => false end.
Definition disputed (st : Stripe) (charge : string) : option Z :=
  ds ← ListDisputes st charge; Some (sumZ (map dp_Amount (List.filter open_dispute ds))).

Definition intent_status (i : PaymentIntent) : option PaymentStatus :=
  match pi_Status i with
  | IntentSucceeded => Some paymentSucceeded
  | IntentCanceled => Some paymentCancelled
  | IntentRequiresAction => Some paymentActionRequired
  | IntentRequiresPaymentMethod => Some (if pi_AuthRequired i then paymentActionRequired else paymentDeclined)
  | IntentProcessing | IntentRequiresCapture | IntentRequiresConfirmation => Some paymentPending
  | IntentOther => None
  end.
Definition paymentOf (st : Stripe) (i : PaymentIntent) : option payment :=
  status ← intent_status i;
  retained ← match pi_Charge i with
             | None => Some (pi_Received i)
             | Some c => if ch_Disputed c then d ← disputed st (ch_ID c); Some (pi_Received i - ch_Refunded c - d)
                         else Some (pi_Received i - ch_Refunded c)
             end;
  Some (mkPayment (pi_ID i) (default "" (pi_Customer i)) (pi_Purchase i) status (pi_Amount i) (Z.max 0 retained)).
Definition payment_by (st : Stripe) (intent : string) : option payment := i ← RetrieveIntent st intent; paymentOf st i.

Section Settle.
Context (uuid_text : uuid -> string).

Definition paymentOfPurchase (st : Stripe) (id : uuid) : option (option string) :=
  found ← SearchIntents st id; Some (pi_ID <$> List.find (fun i => pi_Purchase i == uuid_text id) found).
Definition checkoutPayment (st : Stripe) (session : string) : option payment :=
  c ← RetrieveCheckout st session;
  match cs_Intent c with
  | Some i => if i != "" then payment_by st i
              else Some (mkPayment "" "" (cs_Purchase c) (if cs_Expired c then paymentCancelled else paymentPending) 0 0)
  | None => Some (mkPayment "" "" (cs_Purchase c) (if cs_Expired c then paymentCancelled else paymentPending) 0 0)
  end.
Definition chargeCard (st : Stripe) (customer : string) (id : uuid) (cents : Z) : option payment :=
  card ← DefaultCard st customer;
  match card with
  | None => Some (mkPayment "" "" (uuid_text id) paymentDeclined 0 0)
  | Some method =>
      match CreateIntent st customer id cents method with
      | ChargeRefused auth intent =>
          Some (mkPayment (default "" intent) "" (uuid_text id) (if auth then paymentActionRequired else paymentDeclined) 0 0)
      | ChargeFailed => None
      | ChargeMade i => paymentOf st i
      end
  end.

(** ** Purchases (payments.go) *)

Definition purchaseRetryWindow : Z := 20 * 3600000000000.
Definition settledRecheck : Z := 30 * 24 * 3600000000000.
Definition minute : Z := 60000000000.

(** [customerFor]'s record of the customer Stripe made. *)
Definition customerFor (st_customer : option string) (fresh user : uuid) (now : Z) (s : payments) : go billing_error (payments * string) :=
  b <-! EnsureAccount fresh user now (py_books s);
  let s := s <| py_books := b |> in
  match account_of user s with
  | None => Err BillingNotFound
  | Some a =>
      match ba_customer a, st_customer with
      | Some c, _ => Ret (s, c)
      | None, None => Err PaymentsFailed
      | None, Some c => SetCustomer user c s
      end
  end.

(** [BuyCredit]: the transaction, whose return addresses were checked, and
    then the checkout. *)
Record CreditRequest := mkCreditRequest { cq_Key : uuid; cq_Cents : Z; cq_Success : string; cq_Cancel : string }.
Definition buy_tx (fresh id user : uuid) (req : CreditRequest) (now : Z) (s : payments) :
    go billing_error (payments * (uuid * CreditPurchase * string)) :=
  let amount := cq_Cents req * nanosPerCent in
  b <-! EnsureAccount fresh user now (py_books s);
  let s := s <| py_books := b |> in
  match account_of user s with
  | None => Err BillingNotFound
  | Some a =>
      match ba_card a, ba_customer a with
      | Some _, Some customer =>
          s <-! InsertManualPurchase id user (cq_Key req) amount (cq_Success req) (cq_Cancel req) now s;
          match PurchaseByRequest user (cq_Key req) s with
          | None => Err BillingNotFound
          | Some (pid, p) =>
              if negb (cp_amount p =? amount) || (cp_success p != cq_Success req) || (cp_cancel p != cq_Cancel req)
              then Err (Conflict "a purchase request cannot be reused with different terms")
              else Ret (s, (pid, p, customer))
          end
      | _, _ => Err (PaymentRequired "add a payment method before buying credit")
      end
  end.
Definition BuyCredit (st : Stripe) (fresh id user : uuid) (req : CreditRequest) (now : Z) (s : payments) : payments * option billing_error :=
  match buy_tx fresh id user req now s with
  | Ret (s', (pid, p, customer)) =>
      if bool_decide (cp_checkout p = None) && (cp_status p == paymentPending) then
        match CreateCheckout st customer pid (Z.quot (cp_amount p) nanosPerCent) (cq_Success req) (cq_Cancel req) with
        | None => (s', Some PaymentsFailed)
        | Some c => match SetCheckout pid c (ck_expires c + minute) s' with Ret s'' => (s'', None) | _ => (s', Some ConstraintViolated) end
        end
      else (s', None)
  | Err e => (s, Some e)
  | Panic | Spins => (s, Some ConstraintViolated)
  end.

(** [recordPayment] of the purchase [LockPurchase] read; [lot] is the id of the
    lot it may grant. *)
Definition purchase_source (id : uuid) : string := "purchase:" ++ uuid_text id.
Definition recordPayment (lot id : uuid) (row : CreditPurchase) (p : payment) (now : Z) (s : payments) : go billing_error payments :=
  let intent := if pm_intent p != "" then Some (pm_intent p) else None in
  s <-! (if pm_status p == paymentSucceeded then
           r <-! match cp_lot row with
                 | Some l => Ret (py_books s, l, None, None)
                 | None =>
                     g <-! addCredit lot (mkGrant (cp_user row) kindPurchased (purchase_source id) (cp_amount row) now None) (py_books s);
                     Ret (g.1, g.2, Some g.2, Some now)
                 end;
           let '(b, l, granted, funded) := r in
           let reversed := Z.max 0 (cp_amount row - pm_retained p * nanosPerCent) in
           b <-! (if negb (reversed =? cp_reversed row) then ReverseCredit reversed l b else Ret b);
           SettlePurchase id (mkSettle (pm_status p) intent granted reversed funded (now + settledRecheck)) (s <| py_books := b |>)
         else SettlePurchase id (mkSettle (pm_status p) intent None (cp_reversed row) None (now + minute)) s);
  Ret (if cp_kind row == purchaseAutomatic then
         match pm_status p with
         | paymentDeclined => PauseReload (cp_user row) id PauseDeclined s
         | paymentActionRequired => PauseReload (cp_user row) id PauseActionRequired s
         | _ => s
         end
       else s).

(** The last transaction of [settlePurchase]. *)
Definition record_tx (lot id : uuid) (p : payment) (now : Z) (s : payments) : go billing_error payments :=
  match py_purchases s !! id with Some row => recordPayment lot id row p now s | None => Err BillingNotFound end.

(** A payment that is not this purchase's. *)
Definition mismatched (id : uuid) (row : CreditPurchase) (customer : string) (p : payment) : bool :=
  (pm_purchase p != uuid_text id) || ((pm_customer p != "") && (pm_customer p != customer)) ||
  ((pm_intent p != "") && negb (pm_amount p =? 0) && negb (pm_amount p * nanosPerCent =? cp_amount row)).

Definition ran {A} (s : A) (x : go billing_error A) : A * option billing_error :=
  match x with Ret s' => (s', None) | Err e => (s, Some e) | Panic | Spins => (s, Some ConstraintViolated) end.

Definition settlePurchase (st : Stripe) (lot id : uuid) (now : Z) (s : payments) : payments * option billing_error :=
  match py_purchases s !! id with
  | None => (s, Some BillingNotFound)
  | Some row =>
      match a ← account_of (cp_user row) s; ba_customer a with
      | None => (s, Some PaymentsFailed)
      | Some customer =>
          let record (p : payment) (s : payments) :=
            if mismatched id row customer p then (s, Some PaymentsFailed) else ran s (record_tx lot id p now s) in
          let read (p : option payment) (s : payments) := match p with Some p => record p s | None => (s, Some PaymentsFailed) end in
          let cancelled := mkPayment "" "" (uuid_text id) paymentCancelled 0 0 in
          match cp_intent row, cp_checkout row with
          | Some intent, _ => read (payment_by st intent) s
          | None, Some c => read (checkoutPayment st (ck_id c)) s
          | None, None =>
              if cp_status row != paymentPending then (s, None)
              else
                match cp_kind row with
                | purchaseAutomatic =>
                    match paymentOfPurchase st id with
                    | None => (s, Some PaymentsFailed)
                    | Some (Some found) =>
                        match PurchaseIntentFound id found s with Ret s => read (payment_by st found) s | _ => (s, Some ConstraintViolated) end
                    | Some None =>
                        if now - cp_created row >? purchaseRetryWindow then record cancelled s
                        else if negb (ReloadEligible (cp_user row) s) then record cancelled s
                        else read (chargeCard st customer id (Z.quot (cp_amount row) nanosPerCent)) s
                    end
                | purchaseManual =>
                    if now - cp_created row >? purchaseRetryWindow then record cancelled s
                    else
                      match CreateCheckout st customer id (Z.quot (cp_amount row) nanosPerCent) (cp_success row) (cp_cancel row) with
                      | None => (s, Some PaymentsFailed)
                      | Some c => ran s (SetCheckout id c (ck_expires c + minute) s)
                      end
                end
          end
      end
  end.

(** [SweepPurchases]. *)
Definition paymentSweepBatch : nat := 50.
Fixpoint sweep (st : Stripe) (fresh : uuid -> uuid) (now : Z) (ids : list uuid) (s : payments) : payments * option billing_error :=
  match ids with
  | [] => (s, None)
  | id :: ids =>
      let r := settlePurchase st (fresh id) id now s in
      match r.2 with
      | None => sweep st fresh now ids r.1
      | Some _ => let w := ran r.1 (RetryPurchase id (now + 5 * minute) r.1) in
                  if w.2 is Some e then (w.1, Some e) else sweep st fresh now ids w.1
      end
  end.
Definition SweepPurchases (st : Stripe) (fresh : uuid -> uuid) (now : Z) (s : payments) : payments * option billing_error :=
  sweep st fresh now (DuePurchases paymentSweepBatch now s) s.

(** [startReload]: the balance is settled first, so credit a reload just added
    counts. *)
Definition startReload (id user : uuid) (now : Z) (s : payments) : go billing_error (payments * bool) :=
  b <-! rollup_account user now (py_books s);
  let s := s <| py_books := b |> in
  match ReloadAmount user s with
  | None => Ret (s, false)
  | Some cents => InsertAutomaticPurchase id user (cents * nanosPerCent) now s
  end.
Definition reloadBatch : nat := 20.
Fixpoint reload (st : Stripe) (fresh : uuid -> uuid) (now : Z) (users : list uuid) (started : nat) (s : payments) : payments * nat * option billing_error :=
  match users with
  | [] => (s, started, None)
  | user :: users =>
      let id := fresh user in
      match startReload id user now s with
      | Ret (s, true) => reload st fresh now users (S started) (settlePurchase st (fresh id) id now s).1
      | Ret (s, false) => reload st fresh now users started s
      | Err e => (s, started, Some e)
      | Panic | Spins => (s, started, Some ConstraintViolated)
      end
  end.
Definition Reload (st : Stripe) (fresh : uuid -> uuid) (now : Z) (s : payments) : payments * nat * option billing_error :=
  reload st fresh now (DueReloads reloadBatch s) 0 s.
End Settle.

(** ** Plan changes and subscriptions (plans.go) *)

Inductive ChangeState := changeOpen | changeApplied | changeFailed.
#[export] Instance ChangeState_eq_dec : EqDecision ChangeState.
Proof. solve_decision. Defined.

Record PlanChangeRow := mkPlanChange {
  pc_user : uuid;
  pc_from : TermsVersion;
  pc_to : TermsVersion;
  pc_state : ChangeState;
  pc_attempts : Z;
  pc_next : Z;
  pc_lease : option Z;
  pc_created : Z;
  pc_finished : option Z }.
#[export] Instance eta_PlanChangeRow : Eta PlanChangeRow := fun r =>
  mkPlanChange (pc_user r) (pc_from r) (pc_to r) (pc_state r) (pc_attempts r) (pc_next r) (pc_lease r) (pc_created r) (pc_finished r).

Record plan_changes := mkChanges { pg_books : books; pg_rows : gmap uuid PlanChangeRow }.
#[export] Instance eta_plan_changes : Eta plan_changes := fun s => mkChanges (pg_books s) (pg_rows s).

Inductive SubscriptionStatus :=
  | SubscriptionActive | SubscriptionTrialing | SubscriptionPastDue | SubscriptionUnpaid | SubscriptionIncomplete
  | SubscriptionPaused | SubscriptionCanceled | SubscriptionIncompleteExpired | SubscriptionOther.

(** [subscription], [invoiceLine] and [invoice]: what the code reads of
    Stripe's objects. *)
Record subscription := mkSubscription {
  su_id : string;
  su_customer : string;
  su_status : SubscriptionStatus;
  su_terms : TermsVersion;
  su_periodStart : Z;
  su_periodEnd : Z;
  su_scheduled : option TermsVersion;
  su_scheduledAt : option Z;
  su_invoice : string }.
Record invoiceLine := mkLine {
  li_terms : TermsVersion;
  li_amount : Z;
  li_proration : bool;
  li_periodStart : Z;
  li_periodEnd : Z }.
Record invoice := mkInvoice {
  in_id : string;
  in_customer : string;
  in_subscription : string;
  in_paid : bool;
  in_paidAt : Z;
  in_lines : list invoiceLine }.

(** A call that changes a subscription: Stripe holds it now, declined the
    request itself, or nobody knows. *)
Inductive SubscriptionAnswer := Subscribed (s : subscription) | SubscriptionRefused (card : bool) | SubscriptionUnknown.
Record StripeSubscriptions := mkStripeSubscriptions {
  Subscribe : string -> TermsVersion -> SubscriptionAnswer;
  GetSubscription : string -> option subscription;
  KeepSubscription : subscription -> SubscriptionAnswer;
  Upgrade : subscription -> TermsVersion -> SubscriptionAnswer;
  ScheduleDowngrade : subscription -> TermsVersion -> SubscriptionAnswer;
  GetInvoice : string -> option invoice }.

(** [planFits]: what the account has that the plan does not allow. *)
Definition plan_violations (user : uuid) (target : Plan) (hasCard : bool) (dir : directory) : bool :=
  match accountEntitlements target hasCard false with
  | None => true
  | Some e =>
      (negb (lm_Unlimited (en_MaxWorkspaces e)) && (lm_Max (en_MaxWorkspaces e) <? OwnedWorkspaceCount user dir)) ||
      (negb (lm_Unlimited (en_MaxMembers e)) && (lm_Max (en_MaxMembers e) <? OwnerMemberCount user dir)) ||
      (negb (en_ConnectedCloud e) && (0 <? ConnectedCloudCount user dir))
  end.

(** [InsertPlanChange]: one open change per account. *)
Definition change_open (user : uuid) (s : plan_changes) : bool :=
  existsb (fun r => (pc_user r.2 =? user) && (pc_state r.2 == changeOpen)) (map_to_list (pg_rows s)).
Definition planChangeLease : Z := 5 * minute.
Definition InsertPlanChange (id user : uuid) (from to : TermsVersion) (now : Z) (s : plan_changes) : go billing_error plan_changes :=
  if change_open user s then Err (Conflict "a plan change for this account is already being settled")
  else if bool_decide (is_Some (pg_rows s !! id)) then Err ConstraintViolated
  else Ret (s <| pg_rows := <[id := mkPlanChange user from to changeOpen 1 now (Some (now + planChangeLease)) now None]> (pg_rows s) |>).

(** The transaction of [ChangePlan]; [terms] is [None] for terms that were
    never published.  The change it commits is the caller's to settle. *)
Definition change_tx (fresh id user : uuid) (terms : option TermsVersion) (plan : PlanID) (dir : directory) (now : Z) (s : plan_changes) :
    go billing_error (plan_changes * option uuid) :=
  match terms ≫= planOfTerms with
  | None => Err (InvalidRequest "these terms are not the published terms of that plan")
  | Some target =>
      if pn_ID target != plan then Err (InvalidRequest "these terms are not the published terms of that plan")
      else
        b <-! EnsureAccount fresh user now (pg_books s);
        let s := s <| pg_books := b |> in
        match bk_accounts b !! user with
        | None => Err BillingNotFound
        | Some a =>
            if bool_decide (is_Some (ba_complimentary a))
            then Err (Conflict "this account's usage is complimentary; it holds no plan to change")
            else
              match planOfTerms (ba_terms a) with
              | None => Err BillingNotFound
              | Some current =>
                  let same := pn_Terms current == pn_Terms target in
                  if same && bool_decide (ba_scheduled a = None) then Ret (s, None)
                  else if negb same && (pn_MonthlyNanos current <? pn_MonthlyNanos target) && bool_decide (ba_card a = None)
                  then Err (PaymentRequired "add a payment method before upgrading your subscription")
                  else if negb same && plan_violations user target (bool_decide (is_Some (ba_card a))) dir
                  then Err (Conflict "this account cannot move to the requested plan")
                  else s <-! InsertPlanChange id user (ba_terms a) (pn_Terms target) now s; Ret (s, Some id)
              end
        end
  end.

Definition update_change (id : uuid) (f : PlanChangeRow -> PlanChangeRow) (s : plan_changes) : plan_changes :=
  s <| pg_rows := alter (fun r => if pc_state r == changeOpen then f r else r) id (pg_rows s) |>.
Definition FinishPlanChange (id : uuid) (state : ChangeState) (now : Z) : plan_changes -> plan_changes :=
  update_change id (fun r => r <| pc_state := state |> <| pc_finished := Some now |> <| pc_lease := None |>).
Definition RetryPlanChange (id : uuid) (next : Z) : plan_changes -> plan_changes :=
  update_change id (fun r => r <| pc_lease := None |> <| pc_next := next |>).

(** [ClaimPlanChanges]; [locked] are the rows other transactions hold. *)
Definition claimable (now : Z) (locked : list uuid) (r : uuid * PlanChangeRow) : bool :=
  (pc_state r.2 == changeOpen) && (pc_next r.2 <=? now) && match pc_lease r.2 with Some l => l <? now | None => true end &&
  negb (bool_decide (r.1 ∈ locked)).
Definition claimed_change (now : Z) (r : PlanChangeRow) : PlanChangeRow :=
  r <| pc_attempts := pc_attempts r + 1 |> <| pc_lease := Some (now + planChangeLease) |>.
Definition ClaimPlanChanges (limit : nat) (locked : list uuid) (now : Z) (s : plan_changes) : plan_changes * list uuid :=
  let ids := take limit (map fst (sort_by (fun a b => Z.compare (pc_next a.2) (pc_next b.2))
                                    (List.filter (claimable now locked) (map_to_list (pg_rows s))))) in
  (s <| pg_rows := fold_left (fun m id => alter (claimed_change now) id m) ids (pg_rows s) |>, ids).

(** [applySubscription]: a delivery about a subscription the account no longer
    holds changes nothing; a subscription is one account's. *)
Definition subscribed_account (sub : subscription) (a : BillingAccount) : option BillingAccount :=
  match su_status sub with
  | SubscriptionCanceled | SubscriptionIncompleteExpired =>
      Some (a <| ba_terms := TermsFree |> <| ba_past_due := false |> <| ba_subscription := None |> <| ba_period := (None, None) |>
              <| ba_scheduled := None |>)
  | SubscriptionOther => None
  | status =>
      Some (a <| ba_terms := su_terms sub |>
              <| ba_past_due := match status with SubscriptionActive | SubscriptionTrialing => false | _ => true end |>
              <| ba_subscription := Some (su_id sub) |> <| ba_period := (Some (su_periodStart sub), Some (su_periodEnd sub)) |>
              <| ba_scheduled := match su_scheduled sub, su_scheduledAt sub with Some v, Some t => Some (v, t) | _, _ => None end |>)
  end.
Definition other_subscriber (user : uuid) (id : string) (b : books) : bool :=
  existsb (fun r => negb (r.1 =? user) && bool_decide (ba_subscription r.2 = Some id)) (map_to_list (bk_accounts b)).
Definition applySubscription (user : uuid) (sub : subscription) (b : books) : go billing_error books :=
  match bk_accounts b !! user with
  | None => Err BillingNotFound
  | Some a =>
      if match ba_subscription a with Some held => held != su_id sub | None => false end then Ret b
      else
        match subscribed_account sub a with
        | None => Err PaymentsFailed
        | Some a' =>
            if bool_decide (is_Some (ba_subscription a')) && other_subscriber user (su_id sub) b then Err ConstraintViolated
            else Ret (b <| bk_accounts := <[user := a']> (bk_accounts b) |>)
        end
  end.

(** [syncSubscription]: the transaction on the account of the subscription's
    customer. *)
Definition syncSubscription (st : StripeSubscriptions) (id : string) (b : books) : go billing_error books :=
  match GetSubscription st id with
  | None => Err PaymentsFailed
  | Some sub => match AccountByCustomer (su_customer sub) b with None => Ret b | Some user => applySubscription user sub b end
  end.

(** [applyPlanChange]: the call a change needs, from what Stripe holds now. *)
Inductive ChangeOutcome := ChangeSettled (sub : option subscription) | ChangeRefused (card : bool) | ChangeUnknown.
Definition outcome_of (a : SubscriptionAnswer) : ChangeOutcome :=
  match a with Subscribed s => ChangeSettled (Some s) | SubscriptionRefused card => ChangeRefused card | SubscriptionUnknown => ChangeUnknown end.
Definition applyPlanChange (st : StripeSubscriptions) (user : uuid) (to : TermsVersion) (b : books) : ChangeOutcome :=
  match bk_accounts b !! user, planOfTerms to with
  | Some a, Some target =>
      match ba_subscription a with
      | None =>
          if to == TermsFree then ChangeSettled None
          else match ba_customer a with None => ChangeUnknown | Some customer => outcome_of (Subscribe st customer to) end
      | Some id =>
          match GetSubscription st id with
          | None => ChangeUnknown
          | Some current =>
              match planOfTerms (su_terms current) with
              | None => ChangeUnknown
              | Some held =>
                  outcome_of (if su_terms current == to then KeepSubscription st current
                              else if pn_MonthlyNanos held <? pn_MonthlyNanos target then Upgrade st current to
                              else ScheduleDowngrade st current to)
              end
          end
      end
  | _, _ => ChangeUnknown
  end.

(** ** The credit an invoice includes *)

Definition Rat : Type := QArith_base.Q.
Definition rat (num den : Z) : Rat := QArith_base.Qmake num (Z.to_pos den).
Definition micros (d : Z) : Z := Z.quot d 1000.

Record included := mkIncluded { ic_sum : Rat; ic_effective : Z; ic_positive : bool }.
Definition included_line (inv : invoice) (start end_ : Z) (acc : included) (line : invoiceLine) : included :=
  if negb (li_periodEnd line =? end_) || (li_periodStart line <? start) then acc
  else
    match planOfTerms (li_terms line) with
    | None => acc
    | Some plan =>
        if pn_MonthlyNanos plan =? 0 then acc
        else
          let share := rat (micros (li_periodEnd line - li_periodStart line)) (micros (end_ - start)) in
          let credit (share : Rat) := QArith_base.Qmult share (rat (pn_IncludedNanos plan) 1) in
          if li_amount line >? 0 then
            let paid := rat (li_amount line * nanosPerCent) (pn_MonthlyNanos plan) in
            let share := if li_proration line && negb (QArith_base.Qle_bool share paid) then paid else share in
            let at_ := if li_proration line && (in_paidAt inv >? li_periodStart line) then in_paidAt inv else li_periodStart line in
            mkIncluded (QArith_base.Qplus (ic_sum acc) (credit share))
              (if negb (ic_positive acc) || (at_ >? ic_effective acc) then at_ else ic_effective acc) true
          else if li_amount line <? 0 then mkIncluded (QArith_base.Qminus (ic_sum acc) (credit share)) (ic_effective acc) (ic_positive acc)
          else acc
    end.
Definition includedCredit (inv : invoice) (start end_ : Z) : option (Z * Z) :=
  if micros (end_ - start) <=? 0 then None
  else
    let acc := fold_left (included_line inv start end_) (in_lines inv) (mkIncluded (rat 0 1) 0 false) in
    let num := QArith_base.Qnum (ic_sum acc) in
    if negb (ic_positive acc) || (num <=? 0) || (end_ <=? ic_effective acc) then None
    else
      let amount := Z.quot num (Z.pos (QArith_base.Qden (ic_sum acc))) in
      if amount <=? 0 then None else Some (amount, ic_effective acc).

(** [creditInvoice]: once per invoice. *)
Definition creditInvoice (st : StripeSubscriptions) (lot : uuid) (id : string) (b : books) : go billing_error books :=
  match GetInvoice st id with
  | None => Err PaymentsFailed
  | Some inv =>
      if negb (in_paid inv) || (in_subscription inv == "") then Ret b
      else
        match AccountByCustomer (in_customer inv) b with
        | None => Ret b
        | Some user =>
            match GetSubscription st (in_subscription inv) with
            | None => Err PaymentsFailed
            | Some sub =>
                match includedCredit inv (su_periodStart sub) (su_periodEnd sub) with
                | None => Ret b
                | Some (amount, effective) =>
                    g <-! addCredit lot (mkGrant user kindSubscription ("invoice:" ++ in_id inv) amount effective (Some (su_periodEnd sub))) b;
                    Ret g.1
                end
            end
        end
  end.

(** [settlePlanChange]: the outcome of one claimed change. *)
Definition planChangeWindow : Z := 20 * 3600000000000.
Definition change_delay (attempts : Z) : Z := Z.min (Z.shiftl (30 * 1000000000) (Z.min attempts 6)) (30 * minute).
Definition settlePlanChange (st : StripeSubscriptions) (lot id : uuid) (row : PlanChangeRow) (now : Z) (s : plan_changes) :
    plan_changes * option billing_error :=
  match applyPlanChange st (pc_user row) (pc_to row) (pg_books s) with
  | ChangeRefused card =>
      (FinishPlanChange id changeFailed now s,
       Some (if card then PaymentRequired "your payment method was declined" else Conflict "the plan change was refused"))
  | ChangeUnknown =>
      if now - pc_created row >? planChangeWindow then (FinishPlanChange id changeFailed now s, None)
      else (RetryPlanChange id (now + change_delay (pc_attempts row)) s, None)
  | ChangeSettled sub =>
      match match sub with Some sub => applySubscription (pc_user row) sub (pg_books s) | None => Ret (pg_books s) end with
      | Ret b =>
          let s := FinishPlanChange id changeApplied now (s <| pg_books := b |>) in
          match sub with
          | Some sub =>
              if su_invoice sub != "" then
                match creditInvoice st lot (su_invoice sub) (pg_books s) with Ret b => (s <| pg_books := b |>, None) | _ => (s, None) end
              else (s, None)
          | None => (s, None)
          end
      | Err e => (s, Some e)
      | Panic | Spins => (s, Some ConstraintViolated)
      end
  end.

(** [SettlePlanChanges]: a refusal of one change does not stop the others. *)
Definition planChangeBatch : nat := 20.
Fixpoint settle_changes (st : StripeSubscriptions) (fresh : uuid -> uuid) (now : Z) (ids : list uuid) (s : plan_changes) : plan_changes * option billing_error :=
  match ids with
  | [] => (s, None)
  | id :: ids =>
      match pg_rows s !! id with
      | None => settle_changes st fresh now ids s
      | Some row =>
          let r := settlePlanChange st (fresh id) id row now s in
          match r.2 with
          | None | Some (PaymentRequired _) | Some (Conflict _) => settle_changes st fresh now ids r.1
          | Some e => (r.1, Some e)
          end
      end
  end.
Definition SettlePlanChanges (st : StripeSubscriptions) (fresh : uuid -> uuid) (locked : list uuid) (now : Z) (s : plan_changes) :
    plan_changes * option billing_error :=
  let c := ClaimPlanChanges planChangeBatch locked now s in settle_changes st fresh now c.2 c.1.
