(* ===== verification/CreditLoops.v ===== *)
(** What the loops of a rollup do to the lots and hours they work on: credit
    only moves towards zero, what leaves the lots is what covers the hours,
    and nothing is left that could still be paid. *)

From S2P Require Import Prelude Capacity Catalog Calendar GoLib Billing Placement Credits.

(** ** One lot *)

(** A lot before and after some payments: it keeps what it is, what it lost
    is what it spent, and its remainder moved towards zero. *)
Record settled_lot (l m : lot) : Prop := {
  sl_id : lt_id m = lt_id l;
  sl_kind : lt_kind m = lt_kind l;
  sl_effective : lt_effective m = lt_effective l;
  sl_expires : lt_expires m = lt_expires l;
  sl_sum : lt_remaining m + lt_spent m = lt_remaining l + lt_spent l;
  sl_pos : 0 <= lt_remaining l -> 0 <= lt_remaining m <= lt_remaining l;
  sl_neg : lt_remaining l <= 0 -> lt_remaining l <= lt_remaining m <= 0 }.

#[export] Instance settled_lot_preorder : PreOrder settled_lot.
Proof.
  split; [intros l; split; try done; lia|]. intros l m k [] []. split; try congruence; try lia.
Qed.

Lemma lot_live_settled now l m : settled_lot l m -> lot_live now m = lot_live now l.
Proof. intros [_ _ He Hx _ _ _]. unfold lot_live. by rewrite He, Hx. Qed.

Lemma lot_usable_settled at_ now l m : settled_lot l m -> lot_usable at_ now m = true -> lot_usable at_ now l = true.
Proof.
  intros [_ _ He Hx _ Hp Hn]. unfold lot_usable. rewrite He, Hx, !andb_true_iff, !Z.ltb_lt, !Z.leb_le. intuition lia.
Qed.

Lemma spend_settled take l :
  (0 <= take <= lt_remaining l \/ lt_remaining l <= take <= 0) -> settled_lot l (spend take l).
Proof. intros H. split; try done; cbn; lia. Qed.

Definition credit_left (lots : list lot) : Z := sumZ (map lt_remaining lots).

Lemma remaining_insert i l m lots :
  lots !! i = Some l -> credit_left (<[i := m]> lots) = credit_left lots - lt_remaining l + lt_remaining m.
Proof.
  unfold credit_left. revert i. induction lots as [|x lots IH]; intros [|i] H; simplify_eq/=; [lia|].
  rewrite (IH _ H). lia.
Qed.

Lemma Forall2_insert_step (R : lot -> lot -> Prop) `{!Reflexive R} i l m lots :
  lots !! i = Some l -> R l m -> Forall2 R lots (<[i := m]> lots).
Proof.
  revert i. induction lots as [|x lots IH]; intros [|i] H HR; simplify_eq/=; constructor; auto. by apply Forall_Forall2_diag, Forall_true.
Qed.

#[local] Abbreviation settled := (Forall2 settled_lot).

Lemma settled_refl lots : settled lots lots.
Proof. by apply Forall_Forall2_diag, Forall_true. Qed.

Lemma settled_trans a b c : settled a b -> settled b c -> settled a c.
Proof. intros H H'. by transitivity b. Qed.

(** ** Debts *)

(** No live lot has credit left. *)
Definition payers_dry (now : Z) (lots : list lot) : Prop := forall l, l ∈ lots -> lot_live now l = true -> lt_remaining l <= 0.

Lemma payers_dry_settled now lots lots' : settled lots lots' -> payers_dry now lots -> payers_dry now lots'.
Proof.
  intros H Hd m (i & Hm)%list_elem_of_lookup Hl.
  destruct (Forall2_lookup_r _ _ _ _ _ H Hm) as (l & Hlk & Hs). rewrite (lot_live_settled _ _ _ Hs) in Hl.
  apply list_elem_of_lookup_2 in Hlk. specialize (Hd _ Hlk Hl). destruct Hs. lia.
Qed.

Lemma pay_one_settled now i lots j :
  settled lots (pay_one now i lots j) /\ credit_left (pay_one now i lots j) = credit_left lots.
Proof.
  unfold pay_one. destruct (lots !! i) as [d|] eqn:Hd; [|by split; [apply settled_refl|]].
  destruct (lots !! j) as [p|] eqn:Hp; [|by split; [apply settled_refl|]].
  destruct (0 <=? lt_remaining d) eqn:E1; [by split; [apply settled_refl|]|]. apply Z.leb_gt in E1.
  destruct (_ || _ || _) eqn:E2; [by split; [apply settled_refl|]|].
  rewrite !orb_false_iff, bool_decide_eq_false, Z.leb_gt in E2. destruct E2 as [[Hij Hpos] Hlive].
  assert (Hd' : <[j := spend (Z.min (- lt_remaining d) (lt_remaining p)) p]> lots !! i = Some d) by by rewrite list_lookup_insert_ne.
  split.
  - eapply settled_trans; eapply Forall2_insert_step; try done; try apply _; apply spend_settled; lia.
  - rewrite (remaining_insert _ _ _ _ Hd'), (remaining_insert _ _ _ _ Hp). cbn. lia.
Qed.

Lemma pay_one_dry now i k lots :
  (forall d, lots !! i = Some d -> 0 <= lt_remaining d) \/
  (forall j p, (j < k)%nat -> lots !! j = Some p -> lot_live now p = true -> lt_remaining p <= 0) ->
  let lots' := pay_one now i lots k in
  (forall d, lots' !! i = Some d -> 0 <= lt_remaining d) \/
  (forall j p, (j < S k)%nat -> lots' !! j = Some p -> lot_live now p = true -> lt_remaining p <= 0).
Proof.
  intros H. cbv zeta. unfold pay_one. destruct (lots !! i) as [d|] eqn:Hd; [|left; intros d'; congruence].
  destruct (lots !! k) as [p|] eqn:Hp; cycle 1.
  { destruct H as [H|H]; [left; intros d' Hd'; apply H; congruence|right]. intros j q Hj Hq Hl.
    destruct (decide (j = k)) as [->|]; [congruence|]. apply (H j q); auto; lia. }
  destruct (0 <=? lt_remaining d) eqn:E1.
  { apply Z.leb_le in E1. left. intros d' Hd'. rewrite Hd in Hd'. injection Hd' as <-. done. }
  apply Z.leb_gt in E1. destruct H as [H|H]; [specialize (H _ eq_refl); lia|].
  destruct (_ || _ || _) eqn:E2.
  - right. intros j q Hj Hq Hl. destruct (decide (j = k)) as [->|]; [|by apply (H j q); auto; lia].
    rewrite Hp in Hq. injection Hq as <-. rewrite Hl in E2. simpl in E2. rewrite orb_false_r in E2.
    apply orb_true_iff in E2 as [->%bool_decide_eq_true|E2%Z.leb_le]; [|done]. rewrite Hd in Hp. injection Hp as <-. lia.
  - rewrite !orb_false_iff, bool_decide_eq_false, Z.leb_gt in E2. destruct E2 as [[Hki Hpos] _].
    destruct (Z_le_gt_dec (- lt_remaining d) (lt_remaining p)) as [Hle|Hgt].
    + left. intros d' Hd'. rewrite list_lookup_insert_eq in Hd' by (rewrite length_insert; by eapply lookup_lt_Some).
      injection Hd' as <-. cbn. lia.
    + right. intros j q Hj Hq Hl. destruct (decide (j = i)) as [->|Hji].
      { rewrite list_lookup_insert_eq in Hq by (rewrite length_insert; by eapply lookup_lt_Some). injection Hq as <-. cbn. lia. }
      rewrite list_lookup_insert_ne in Hq by done. destruct (decide (j = k)) as [->|].
      * rewrite list_lookup_insert_eq in Hq by by eapply lookup_lt_Some. injection Hq as <-. cbn. lia.
      * rewrite list_lookup_insert_ne in Hq by done. apply (H j q); auto; lia.
Qed.

(** A loop over indices keeps what its steps keep. *)
Lemma fold_seq_ind {A} (f : A -> nat -> A) (P : nat -> A -> Prop) n a :
  P 0%nat a -> (forall k x, (k < n)%nat -> P k x -> P (S k) (f x k)) -> P n (fold_left f (seq 0 n) a).
Proof.
  intros H0 Hs. enough (H : forall m k x, (k + m = n)%nat -> P k x -> P n (fold_left f (seq k m) x)) by by apply (H n 0%nat).
  induction m as [|m IH]; intros k x Hk Hx; simpl; [by replace n with k by lia|]. apply IH; [lia|]. apply Hs; [lia|done].
Qed.

Lemma pay_debtor_spec now lots i :
  let lots' := pay_debtor now lots i in
  settled lots lots' /\ credit_left lots' = credit_left lots /\
  ((forall d, lots' !! i = Some d -> 0 <= lt_remaining d) \/ payers_dry now lots').
Proof.
  cbv zeta. unfold pay_debtor.
  assert (H : (fun k x => (settled lots x /\ credit_left x = credit_left lots) /\
    ((forall d, x !! i = Some d -> 0 <= lt_remaining d) \/
     (forall j p, (j < k)%nat -> x !! j = Some p -> lot_live now p = true -> lt_remaining p <= 0)))
    (length lots) (fold_left (pay_one now i) (seq 0 (length lots)) lots)).
  { apply fold_seq_ind; [split; [by split; [apply settled_refl|]|right; lia]|]. intros k x _ [[Hs Hr] Hd]. split.
    - pose proof (pay_one_settled now i x k) as [Hs' Hr']. split; [by eapply settled_trans|lia].
    - by apply pay_one_dry. }
  simpl in H. destruct H as [[Hs Hr] Hd]. split; [done|]. split; [done|]. destruct Hd as [Hd|Hd]; [by left|right].
  intros l (j & Hl)%list_elem_of_lookup. apply (Hd j); [|done]. rewrite (Forall2_length _ _ _ Hs). by eapply lookup_lt_Some.
Qed.

(** After the debts are paid, a debt remains only when no live credit does. *)
Lemma pay_debts_spec now lots :
  let lots' := pay_debts now lots in
  settled lots lots' /\ credit_left lots' = credit_left lots /\
  ((forall d, d ∈ lots' -> 0 <= lt_remaining d) \/ payers_dry now lots').
Proof.
  cbv zeta. unfold pay_debts.
  assert (H : (fun k x => (settled lots x /\ credit_left x = credit_left lots) /\
    ((forall i d, (i < k)%nat -> x !! i = Some d -> 0 <= lt_remaining d) \/ payers_dry now x))
    (length lots) (fold_left (pay_debtor now) (seq 0 (length lots)) lots)).
  { apply fold_seq_ind; [split; [by split; [apply settled_refl|]|left; lia]|]. intros k x _ [[Hs Hr] Hd].
    destruct (pay_debtor_spec now x k) as (Hs' & Hr' & Hd'). split; [split; [by eapply settled_trans|lia]|].
    destruct Hd as [Hd|Hd]; [|right; by eapply payers_dry_settled]. destruct Hd' as [Hd'|Hd']; [left|by right].
    intros i d Hi Hlk. destruct (decide (i = k)) as [->|]; [by apply Hd'|].
    destruct (Forall2_lookup_r _ _ _ _ _ Hs' Hlk) as (l & Hl & []). assert (0 <= lt_remaining l) by (apply (Hd i); [lia|done]). lia. }
  simpl in H. destruct H as [[Hs Hr] Hd]. split; [done|]. split; [done|]. destruct Hd as [Hd|Hd]; [left|by right].
  intros l (j & Hl)%list_elem_of_lookup. apply (Hd j); [|done]. rewrite (Forall2_length _ _ _ Hs). by eapply lookup_lt_Some.
Qed.

(** ** Hours *)

(** An hour before and after credit covered some of it. *)
Record covered_hour (h k : open_hour) : Prop := {
  ch_at : oh_at k = oh_at h;
  ch_waived : oh_waived k = oh_waived h;
  ch_left : 0 <= oh_uncovered k;
  ch_credit : oh_credit h <= oh_credit k;
  ch_sum : oh_uncovered k + oh_credit k = oh_uncovered h + oh_credit h;
  ch_sub : 0 <= oh_sub k - oh_sub h <= oh_credit k - oh_credit h }.

Lemma covered_refl h : 0 <= oh_uncovered h -> covered_hour h h.
Proof. intros H. split; lia. Qed.

Lemma covered_trans h k m : covered_hour h k -> covered_hour k m -> covered_hour h m.
Proof. intros [] []. split; try congruence; lia. Qed.

(** Credit leaves the lots exactly for the hour, and an hour stays uncovered
    only when no lot is usable for it. *)
Lemma cover_hour_spec now h lots :
  0 <= oh_uncovered h ->
  let r := cover_hour now h lots in
  covered_hour h r.1 /\ settled lots r.2 /\
  credit_left lots - credit_left r.2 = oh_credit r.1 - oh_credit h /\
  (oh_uncovered r.1 = 0 \/ forall l, l ∈ r.2 -> lot_usable (oh_at h) now l = false).
Proof.
  revert h. induction lots as [|l lots IH]; intros h Hh; simpl.
  { split; [by apply covered_refl|]. split; [constructor|]. split; [lia|]. right. intros l Hl. by apply not_elem_of_nil in Hl. }
  destruct (oh_uncovered h =? 0) eqn:E0.
  { apply Z.eqb_eq in E0. split; [by apply covered_refl|]. split; [apply settled_refl|]. split; [simpl; lia|by left]. }
  destruct (lot_usable (oh_at h) now l) eqn:Eu; simpl.
  - set (take := Z.min (oh_uncovered h) (lt_remaining l)). set (h' := mkOpenHour _ _ _ _ _).
    apply Z.eqb_neq in E0. assert (Hl : 0 < lt_remaining l).
    { unfold lot_usable in Eu. rewrite !andb_true_iff, Z.ltb_lt in Eu. tauto. }
    assert (Hc : covered_hour h h') by (split; simpl; try case_bool_decide; lia).
    destruct (IH h' (ch_left _ _ Hc)) as (Hc' & Hs & Hr & Hd). split; [by eapply covered_trans|].
    split; [constructor; [apply spend_settled; lia|done]|]. split; [unfold credit_left in *; simpl in *; lia|].
    destruct Hd as [Hd|Hd]; [by left|]. destruct (decide (oh_uncovered (cover_hour now h' lots).1 = 0)) as [|Hne]; [by left|right].
    intros m [->|Hm]%elem_of_cons; [|by apply Hd]. unfold lot_usable. simpl.
    replace (lt_remaining l - take) with 0; [done|]. destruct Hc', Hc. simpl in *. lia.
  - destruct (IH h Hh) as (Hc & Hs & Hr & Hd). split; [done|]. split; [by constructor|]. split; [unfold credit_left in *; simpl; lia|].
    destruct Hd as [Hd|Hd]; [by left|right]. intros m [->|Hm]%elem_of_cons; auto.
Qed.

Section Hours.
Context (complimentary : option Z) (now : Z).

(** An hour before and after a rollup: waived in full, or covered. *)
Definition closed_hour (h k : open_hour) : Prop :=
  if waived_hour complimentary h then k = mkOpenHour (oh_at h) 0 (oh_credit h) (oh_sub h) (oh_uncovered h) else covered_hour h k.

Lemma settle_hour_spec h lots :
  0 <= oh_uncovered h ->
  let r := settle_hour complimentary now h lots in
  closed_hour h r.1 /\ settled lots r.2 /\
  credit_left lots - credit_left r.2 = oh_credit r.1 - oh_credit h /\
  (oh_uncovered r.1 = 0 \/ forall l, l ∈ r.2 -> lot_usable (oh_at h) now l = false).
Proof.
  intros Hh. cbv zeta. unfold settle_hour, closed_hour. destruct (waived_hour complimentary h); [|by apply cover_hour_spec].
  simpl. split; [done|]. split; [apply settled_refl|]. split; [lia|by left].
Qed.

Lemma closed_at h k : closed_hour h k -> oh_at k = oh_at h.
Proof. unfold closed_hour. destruct (waived_hour _ _); [by intros ->|by intros []]. Qed.

Lemma settle_hours_spec hours : forall lots,
  (forall h, h ∈ hours -> 0 <= oh_uncovered h) ->
  let r := settle_hours complimentary now hours lots in
  Forall2 closed_hour hours r.1 /\ settled lots r.2 /\
  credit_left lots - credit_left r.2 = sumZ (map oh_credit r.1) - sumZ (map oh_credit hours) /\
  (forall k, k ∈ r.1 -> oh_uncovered k = 0 \/ forall l, l ∈ r.2 -> lot_usable (oh_at k) now l = false).
Proof.
  induction hours as [|h hours IH]; intros lots Hh; simpl.
  { split; [constructor|]. split; [apply settled_refl|]. split; [lia|]. intros k Hk. by apply not_elem_of_nil in Hk. }
  destruct (settle_hour_spec h lots) as (Hc & Hs & Hr & Hd); [apply Hh; left|].
  destruct (IH (settle_hour complimentary now h lots).2) as (Hcs & Hss & Hrs & Hds); [intros k Hk; apply Hh; by right|].
  split; [by constructor|]. split; [by eapply settled_trans|]. split; [lia|].
  intros k [->|Hk]%elem_of_cons; [|by apply Hds]. destruct Hd as [Hd|Hd]; [by left|right].
  intros l (i & Hl)%list_elem_of_lookup. destruct (Forall2_lookup_r _ _ _ _ _ Hss Hl) as (m & Hm & Hml).
  apply list_elem_of_lookup_2 in Hm. rewrite (closed_at _ _ Hc). destruct (lot_usable _ _ l) eqn:E; [|done].
  specialize (Hd m Hm). by rewrite (lot_usable_settled _ _ _ _ Hml E) in Hd.
Qed.
End Hours.

(** ** The balance *)

(** What a lot adds to the balance, and the instant from which it adds
    something else. *)
Definition lot_counts (now : Z) (l : lot) : Z :=
  if lt_remaining l <? 0 then lt_remaining l else if lot_live now l then lt_remaining l else 0.
Definition lot_recheck (now : Z) (l : lot) : option Z :=
  if 0 <? lt_remaining l then
    if lot_live now l then lt_expires l else if now <? lt_effective l then Some (lt_effective l) else None
  else None.
Definition first_recheck (now month_end : Z) (lots : list lot) : Z :=
  fold_right (fun l t => match lot_recheck now l with Some e => Z.min e t | None => t end) month_end lots.

Lemma first_recheck_min now a b lots : first_recheck now (Z.min a b) lots = Z.min a (first_recheck now b lots).
Proof. unfold first_recheck. induction lots as [|l lots IH]; simpl; [done|]. rewrite IH. destruct (lot_recheck now l); lia. Qed.

Lemma balance_fold now lots : forall balance recheck,
  fold_left (balance_step now) lots (balance, recheck) =
  (balance + sumZ (map (lot_counts now) lots), first_recheck now recheck lots).
Proof.
  induction lots as [|l lots IH]; intros balance recheck; [simpl; by rewrite Z.add_0_r|].
  assert (H : balance_step now (balance, recheck) l =
    (balance + lot_counts now l, match lot_recheck now l with Some e => Z.min e recheck | None => recheck end)).
  { unfold balance_step, lot_counts, lot_recheck, lot_live. destruct (Z.ltb_spec (lt_remaining l) 0), (Z.ltb_spec 0 (lt_remaining l)); simpl;
      [lia|done| |].
    - destruct (Z.leb_spec (lt_effective l) now); simpl.
      + destruct (lt_expires l) as [e|]; simpl; [|done]. destruct (Z.ltb_spec now e); simpl.
        * f_equal. destruct (Z.ltb_spec e recheck); lia.
        * destruct (Z.ltb_spec now (lt_effective l)); simpl; [lia|]. f_equal. lia.
      + destruct (Z.ltb_spec now (lt_effective l)); simpl; [|lia].
        destruct (Z.ltb_spec (lt_effective l) recheck); simpl; f_equal; lia.
    - f_equal. destruct (_ && _); lia. }
  cbn [fold_left]. rewrite H, IH. clear H IH. simpl. destruct (lot_recheck now l) as [e|]; simpl; [rewrite first_recheck_min|]; f_equal; lia.
Qed.

Lemma first_recheck_perm now m lots lots' : lots ≡ₚ lots' -> first_recheck now m lots = first_recheck now m lots'.
Proof.
  unfold first_recheck. induction 1 as [|x l l' _ IH|x y l| ]; simpl; [done| | |congruence].
  - by rewrite IH.
  - destruct (lot_recheck now x), (lot_recheck now y); lia.
Qed.

Lemma first_recheck_le now m lots l e : l ∈ lots -> lot_recheck now l = Some e -> first_recheck now m lots <= e.
Proof.
  unfold first_recheck. induction lots as [|x lots IH]; intros Hl He; [by apply not_elem_of_nil in Hl|].
  apply elem_of_cons in Hl as [->|Hl]; simpl; [rewrite He; simpl; lia|]. specialize (IH Hl He). case_match; simpl; lia.
Qed.

Lemma first_recheck_month now m lots : first_recheck now m lots <= m.
Proof. unfold first_recheck. induction lots as [|l lots IH]; simpl; [lia|]. destruct (lot_recheck now l); lia. Qed.

Lemma first_recheck_later now m lots : now < m -> now < first_recheck now m lots.
Proof.
  intros Hm. unfold first_recheck. induction lots as [|l lots IH]; simpl; [done|].
  assert (He : forall e, lot_recheck now l = Some e -> now < e).
  { intros e. unfold lot_recheck, lot_live. destruct (0 <? _); [|done]. destruct (Z.leb_spec (lt_effective l) now); simpl.
    - destruct (lt_expires l) as [x|]; simpl; [|done]. destruct (Z.ltb_spec now x); [by intros [= <-]|].
      destruct (Z.ltb_spec now (lt_effective l)); [lia|done].
    - destruct (Z.ltb_spec now (lt_effective l)); [|lia]. intros [= <-]. lia. }
  destruct (lot_recheck now l) as [e|] eqn:E; [|done]. simpl. specialize (He e eq_refl). lia.
Qed.

(** Nothing about a lot changes before the instant it is rechecked at. *)
Lemma lot_constant now later l :
  now <= later -> (forall e, lot_recheck now l = Some e -> later < e) ->
  lot_counts later l = lot_counts now l /\ lot_recheck later l = lot_recheck now l /\
  (0 < lt_remaining l -> lot_live later l = lot_live now l).
Proof.
  intros Hle H. unfold lot_counts. assert (Hlive : 0 < lt_remaining l -> lot_live later l = lot_live now l).
  { intros Hp. unfold lot_recheck in H. destruct (Z.ltb_spec 0 (lt_remaining l)); [|lia]. revert H. unfold lot_live.
    destruct (Z.leb_spec (lt_effective l) now); simpl.
    - destruct (Z.leb_spec (lt_effective l) later); [|lia]. destruct (lt_expires l) as [e|]; [|done]. simpl. intros H'.
      destruct (Z.ltb_spec now e); [specialize (H' e eq_refl); destruct (Z.ltb_spec later e); lia|].
      destruct (Z.ltb_spec later e); lia.
    - destruct (Z.ltb_spec now (lt_effective l)); [|lia]. intros H'. specialize (H' _ eq_refl).
      destruct (Z.leb_spec (lt_effective l) later); [lia|done]. }
  destruct (Z.ltb_spec (lt_remaining l) 0).
  { split; [done|]. split; [|lia]. unfold lot_recheck. destruct (Z.ltb_spec 0 (lt_remaining l)); [lia|done]. }
  destruct (Z.eq_dec (lt_remaining l) 0) as [E|E].
  { rewrite E. split; [by destruct (lot_live later l), (lot_live now l)|]. split; [|lia]. unfold lot_recheck. by rewrite E. }
  rewrite Hlive by lia. split; [done|]. split; [|done]. unfold lot_recheck in *. rewrite Hlive by lia.
  destruct (0 <? _); [|done]. destruct (lot_live now l); [done|].
  destruct (Z.ltb_spec now (lt_effective l)), (Z.ltb_spec later (lt_effective l)); try done; [|lia]. specialize (H _ eq_refl). lia.
Qed.

(** ** Nothing left to pay *)

Lemma pay_debts_quiet now lots :
  (forall d, d ∈ lots -> 0 <= lt_remaining d) \/ payers_dry now lots -> pay_debts now lots = lots.
Proof.
  intros H. unfold pay_debts. apply (fold_seq_ind (pay_debtor now) (fun _ x => x = lots)); [done|]. intros i x _ ->.
  unfold pay_debtor. apply (fold_seq_ind (pay_one now i) (fun _ x => x = lots)); [done|]. intros j x _ ->. unfold pay_one.
  destruct (lots !! i) as [d|] eqn:Hd; [|done]. destruct (lots !! j) as [p|] eqn:Hp; [|done].
  destruct (Z.leb_spec 0 (lt_remaining d)); [done|]. apply list_elem_of_lookup_2 in Hd, Hp.
  destruct H as [H|H]; [specialize (H _ Hd); lia|]. destruct (lot_live now p) eqn:Hl.
  - specialize (H _ Hp Hl). replace (lt_remaining p <=? 0) with true by lia. by rewrite orb_true_r.
  - by rewrite orb_true_r.
Qed.

Lemma settle_hours_quiet complimentary now hours lots :
  (forall h, h ∈ hours -> 0 < oh_uncovered h /\ waived_hour complimentary h = false /\
                          forall l, l ∈ lots -> lot_usable (oh_at h) now l = false) ->
  settle_hours complimentary now hours lots = (hours, lots).
Proof.
  assert (Hq : forall h ls, (forall l, l ∈ ls -> lot_usable (oh_at h) now l = false) -> cover_hour now h ls = (h, ls)).
  { intros h ls. induction ls as [|l ls IH]; intros H; simpl; [done|]. destruct (oh_uncovered h =? 0); [done|].
    rewrite H by left. simpl. rewrite IH; [done|]. intros m Hm. apply H. by right. }
  induction hours as [|h hours IH]; intros H; simpl; [done|]. unfold settle_hour.
  destruct (H h) as (_ & -> & Hu); [left|]. rewrite Hq by done. simpl. rewrite IH; [done|]. intros k Hk. apply H. by right.
Qed.
