(* ===== verification/CreditProps.v ===== *)
(** What a rollup writes to the lots it spends and the hours it covers, row by
    row, the sums over an account's lots and hours that balance, and the
    soundness of the books. *)

From S2P Require Import Prelude Capacity Catalog Calendar GoLib Billing Placement Credits CreditLoops.

(** ** Sums over a table *)

Definition sum_over {K A} `{Countable K} (f : K * A -> Z) (m : gmap K A) : Z := sumZ (map f (map_to_list m)).

Lemma sum_over_new {K A} `{Countable K} (f : K * A -> Z) m i x : m !! i = None -> sum_over f (<[i := x]> m) = sum_over f m + f (i, x).
Proof. intros Hi. unfold sum_over. rewrite (sumZ_perm _ _ (Permutation_map f (map_to_list_insert m i x Hi))). simpl. lia. Qed.

Lemma sum_over_update {K A} `{Countable K} (f : K * A -> Z) m i x y :
  m !! i = Some x -> sum_over f (<[i := y]> m) = sum_over f m - f (i, x) + f (i, y).
Proof.
  intros Hi. rewrite <- insert_delete_eq, sum_over_new by apply lookup_delete_eq.
  rewrite <- (insert_delete_id m i x Hi) at 2. rewrite sum_over_new by apply lookup_delete_eq. lia.
Qed.

Lemma sum_over_ext {K A} `{Countable K} (f g : K * A -> Z) m :
  (forall i x, m !! i = Some x -> f (i, x) = g (i, x)) -> sum_over f m = sum_over g m.
Proof.
  intros Hfg. unfold sum_over. f_equal. apply map_ext_in. intros [i x] Hi. apply list_elem_of_In, elem_of_map_to_list in Hi. auto.
Qed.

(** What an account's lots spent and what its hours were credited. *)
Definition spend_for (user : uuid) (r : uuid * LotRow) : Z := if cl_user r.2 =? user then cl_spent r.2 else 0.
Definition credit_for (user : uuid) (r : (uuid * Z) * HourRow) : Z := if r.1.1 =? user then bh_credited r.2 else 0.
Definition spent_by (user : uuid) (b : books) : Z := sum_over (spend_for user) (bk_lots b).
Definition credited_by (user : uuid) (b : books) : Z := sum_over (credit_for user) (bk_hours b).

(** ** Reads *)

Lemma lots_of_elem user b id l : (id, l) ∈ lots_of user b <-> bk_lots b !! id = Some l /\ cl_user l = user.
Proof.
  unfold lots_of. rewrite list_elem_of_In, List.filter_In, <- list_elem_of_In, elem_of_map_to_list. simpl. rewrite Z.eqb_eq. done.
Qed.

Lemma OpenLots_elem user b id l :
  (id, l) ∈ OpenLots user b <-> bk_lots b !! id = Some l /\ cl_user l = user /\ lot_left l <> 0.
Proof.
  unfold OpenLots. rewrite list_elem_of_In, sort_by_In, List.filter_In, <- list_elem_of_In, lots_of_elem. simpl.
  rewrite negb_true_iff, Z.eqb_neq. tauto.
Qed.

Lemma NoDup_map_filter {A B} (f : A -> B) (p : A -> bool) l : NoDup (map f l) -> NoDup (map f (List.filter p l)).
Proof.
  induction l as [|x l IH]; simpl; [done|]. intros [Hx H]%NoDup_cons. destruct (p x); [|auto]. simpl. apply NoDup_cons. split; [|auto].
  contradict Hx. apply list_elem_of_In, in_map_iff in Hx as (y & <- & Hy). apply List.filter_In in Hy as [Hy _].
  apply list_elem_of_In. by apply in_map.
Qed.

Lemma OpenLots_nodup user b : NoDup (map fst (OpenLots user b)).
Proof.
  unfold OpenLots. rewrite (Permutation_map fst (sort_by_perm _ _)). apply NoDup_map_filter, NoDup_map_filter.
  apply (NoDup_fst_map_to_list (bk_lots b)).
Qed.

Lemma hours_of_elem user b t h : (t, h) ∈ hours_of user b <-> bk_hours b !! (user, t) = Some h.
Proof.
  unfold hours_of. rewrite list_elem_of_omap. split.
  - intros ([[u s] k] & Hk & E). simpl in E. destruct (Z.eqb_spec u user) as [->|]; [|done]. injection E as -> ->.
    by apply elem_of_map_to_list in Hk.
  - intros Hh. exists ((user, t), h). rewrite elem_of_map_to_list. simpl. by rewrite Z.eqb_refl.
Qed.

Lemma UncoveredHours_elem user b t h :
  (t, h) ∈ UncoveredHours user b <-> bk_hours b !! (user, t) = Some h /\ 0 < hour_left h.
Proof.
  unfold UncoveredHours, hour_left.
  rewrite list_elem_of_In, sort_by_In, List.filter_In, <- list_elem_of_In, hours_of_elem. simpl. rewrite Z.ltb_lt.
  split; intros []; split; try done; lia.
Qed.

Lemma UncoveredHours_nodup user b : NoDup (map fst (UncoveredHours user b)).
Proof.
  unfold UncoveredHours. rewrite (Permutation_map fst (sort_by_perm _ _)). apply NoDup_map_filter. unfold hours_of.
  pose proof (NoDup_fst_map_to_list (bk_hours b)) as H. induction (map_to_list (bk_hours b)) as [|[[u t] h] l IH]; [constructor|].
  simpl in *. apply NoDup_cons in H as [Hn H]. destruct (Z.eqb_spec u user) as [->|]; [|auto]. simpl. apply NoDup_cons. split; [|auto].
  contradict Hn. apply list_elem_of_In, in_map_iff in Hn as ([s k] & E & Hk). simpl in E. subst s.
  apply list_elem_of_In, list_elem_of_omap in Hk as ([[u' s'] k'] & Hk & E). simpl in E.
  destruct (Z.eqb_spec u' user) as [->|]; [|done]. injection E as -> ->. apply list_elem_of_In in Hk.
  apply list_elem_of_fmap. exists ((user, t), k). split; [done|]. by apply list_elem_of_In.
Qed.

(** ** Spending lots *)

Definition deltas (lots : list lot) : list (uuid * Z) := omap (fun l => if lt_spent l =? 0 then None else Some (lt_id l, lt_spent l)) lots.

Definition spent_more (d : Z) (l : LotRow) : LotRow := l <| cl_spent := cl_spent l + d |>.

Lemma spent_more_0 l : spent_more 0 l = l.
Proof. destruct l. unfold spent_more, over. simpl. by rewrite Z.add_0_r. Qed.

Lemma alter_id {K A} `{Countable K} (f : A -> A) (m : gmap K A) i : (forall x, f x = x) -> alter f i m = m.
Proof. intros Hf. apply map_eq. intros j. destruct (decide (i = j)) as [->|]; [rewrite lookup_alter_eq|by rewrite lookup_alter_ne]. destruct (m !! j); simpl; by rewrite ?Hf. Qed.

(** [SpendLots] of a rollup's lots, one alteration per lot. *)
Definition spend_rows (lots : list lot) (m : gmap uuid LotRow) : gmap uuid LotRow :=
  fold_left (fun m l => alter (spent_more (lt_spent l)) (lt_id l) m) lots m.

Lemma SpendLots_rows lots b : SpendLots (deltas lots) b = b <| bk_lots := spend_rows lots (bk_lots b) |>.
Proof.
  unfold SpendLots. f_equal. generalize (bk_lots b). unfold spend_rows, deltas. induction lots as [|l lots IH]; intros m; [done|].
  simpl. destruct (Z.eqb_spec (lt_spent l) 0) as [E|]; simpl; [|apply IH].
  rewrite E, (alter_id (spent_more 0)) by apply spent_more_0. apply IH.
Qed.

Lemma spend_rows_other lots m id : (forall l, l ∈ lots -> lt_id l <> id) -> spend_rows lots m !! id = m !! id.
Proof.
  unfold spend_rows. revert m. induction lots as [|l lots IH]; intros m H; simpl; [done|]. rewrite IH; [|intros k Hk; apply H; by right].
  apply lookup_alter_ne, H. left.
Qed.

Lemma spend_rows_lot lots m l row :
  NoDup (map lt_id lots) -> l ∈ lots -> m !! lt_id l = Some row ->
  spend_rows lots m !! lt_id l = Some (spent_more (lt_spent l) row).
Proof.
  unfold spend_rows. revert m. induction lots as [|k lots IH]; intros m Hn Hl Hm; [by apply not_elem_of_nil in Hl|].
  simpl in *. apply NoDup_cons in Hn as [Hk Hn]. apply elem_of_cons in Hl as [->|Hl].
  - fold (spend_rows lots (alter (spent_more (lt_spent k)) (lt_id k) m)). rewrite spend_rows_other.
    + by rewrite lookup_alter_eq, Hm.
    + intros j Hj E. apply Hk. rewrite <- E. by apply list_elem_of_fmap_2.
  - apply IH; [done|done|]. rewrite lookup_alter_ne; [done|]. intros E. apply Hk. rewrite E. by apply list_elem_of_fmap_2.
Qed.

Lemma spend_rows_sum user lots : forall m,
  (forall l, l ∈ lots -> exists row, m !! lt_id l = Some row /\ cl_user row = user) ->
  forall u, sum_over (spend_for u) (spend_rows lots m) =
    sum_over (spend_for u) m + (if user =? u then sumZ (map lt_spent lots) else 0).
Proof.
  unfold spend_rows. induction lots as [|l lots IH]; intros m H u; simpl; [destruct (_ =? _); lia|].
  destruct (H l) as (row & Hrow & Hu); [left|].
  assert (Ea : alter (spent_more (lt_spent l)) (lt_id l) m = <[lt_id l := spent_more (lt_spent l) row]> m).
  { apply map_eq. intros j. destruct (decide (j = lt_id l)) as [->|]; [by rewrite lookup_alter_eq, lookup_insert_eq, Hrow|].
    by rewrite lookup_alter_ne, lookup_insert_ne by done. }
  rewrite IH.
  - rewrite Ea, (sum_over_update _ _ _ _ _ Hrow). unfold spend_for. simpl. change (cl_user (spent_more (lt_spent l) row)) with (cl_user row).
    change (cl_spent (spent_more (lt_spent l) row)) with (cl_spent row + lt_spent l). rewrite Hu. destruct (user =? u); lia.
  - intros k Hk. destruct (H k) as (rk & Hrk & Hku); [by right|]. rewrite Ea. destruct (decide (lt_id k = lt_id l)) as [E|].
    + rewrite E, lookup_insert_eq. exists (spent_more (lt_spent l) row). done.
    + rewrite lookup_insert_ne by done. eauto.
Qed.

(** ** Covering hours *)

Lemma CoverHours_spec user covers : forall b,
  NoDup (map oh_at covers) ->
  (forall c, c ∈ covers -> exists h, bk_hours b !! (user, oh_at c) = Some h /\ hour_checks (covered_row c h) = true) ->
  exists hs, CoverHours user covers b = Ret (b <| bk_hours := hs |>) /\
    (forall c h, c ∈ covers -> bk_hours b !! (user, oh_at c) = Some h -> hs !! (user, oh_at c) = Some (covered_row c h)) /\
    (forall k, (forall c, c ∈ covers -> k <> (user, oh_at c)) -> hs !! k = bk_hours b !! k) /\
    (forall u, sum_over (credit_for u) hs =
      sum_over (credit_for u) (bk_hours b) + (if user =? u then sumZ (map oh_credit covers) else 0)).
Proof.
  unfold CoverHours. induction covers as [|c covers IH]; intros b Hn H; simpl.
  { exists (bk_hours b). split; [by destruct b|]. split; [intros c h Hc; by apply not_elem_of_nil in Hc|]. split; [done|].
    intros u. destruct (_ =? _); lia. }
  apply NoDup_cons in Hn as [Hc Hn]. destruct (H c) as (h & Hh & Hck); [left|]. unfold cover_row at 1. rewrite Hh, Hck. simpl.
  assert (Hne : forall k, k ∈ covers -> (user, oh_at k) <> (user, oh_at c)).
  { intros k Hk [= E]. apply Hc. rewrite <- E. by apply list_elem_of_fmap_2. }
  destruct (IH (b <| bk_hours := <[(user, oh_at c) := covered_row c h]> (bk_hours b) |>)) as (hs & -> & Hin & Hout & Hsum); [done| |].
  { intros k Hk. destruct (H k) as (hk & Hhk & Hkk); [by right|]. exists hk. split; [|done]. simpl.
    rewrite lookup_insert_ne; [done|]. symmetry. by apply Hne. }
  exists hs. split; [done|]. simpl in *. split; [|split].
  - intros k hk [->|Hk]%elem_of_cons Hhk.
    + rewrite Hout by (intros j Hj E; by apply (Hne j)). rewrite lookup_insert_eq. congruence.
    + apply Hin; [done|]. rewrite lookup_insert_ne; [done|]. symmetry. by apply Hne.
  - intros k Hk. rewrite Hout by (intros j Hj; apply Hk; by right). apply lookup_insert_ne. symmetry. apply Hk. left.
  - intros u. rewrite Hsum, (sum_over_update _ _ _ _ _ Hh). unfold credit_for. simpl. destruct (user =? u); lia.
Qed.

#[local] Abbreviation settled := (Forall2 settled_lot).

(** ** Sound books *)

Record lot_ok (accounts : gmap uuid BillingAccount) (l : LotRow) : Prop := {
  lo_checks : lot_checks l = true;
  lo_spent : 0 <= cl_spent l <= cl_amount l;
  lo_user : is_Some (accounts !! cl_user l) }.

Record hour_ok (accounts : gmap uuid BillingAccount) (user : uuid) (h : HourRow) : Prop := {
  ho_credited : 0 <= bh_credited h;
  ho_sub : 0 <= bh_subscription h <= bh_credited h;
  ho_waived : 0 <= bh_waived h;
  ho_left : 0 <= hour_left h;
  ho_user : is_Some (accounts !! user) }.

Record books_ok (b : books) : Prop := {
  bo_lot : forall id l, bk_lots b !! id = Some l -> lot_ok (bk_accounts b) l;
  bo_source : forall i j l m, bk_lots b !! i = Some l -> bk_lots b !! j = Some m ->
                cl_user l = cl_user m -> cl_source l = cl_source m -> i = j;
  bo_hour : forall user t h, bk_hours b !! (user, t) = Some h -> hour_ok (bk_accounts b) user h;
  bo_balance : forall user, is_Some (bk_accounts b !! user) <-> is_Some (bk_balances b !! user);
  bo_sum : forall user, spent_by user b = credited_by user b }.

(** ** The rows after a rollup *)

Definition unspent (l : lot) : lot := mkOpenLot (lt_id l) (lt_kind l) (lt_remaining l) (lt_effective l) (lt_expires l) 0.

Section Rows.
Context (user : uuid) (b : books) (lots : list lot).
Hypothesis Hlots : settled (map open_lot (OpenLots user b)) lots.

Lemma lots_ids : map lt_id lots = map fst (OpenLots user b).
Proof using Hlots.
  clear -Hlots. revert lots Hlots. induction (OpenLots user b) as [|r rs IH]; intros ls H; simpl in H.
  - by apply Forall2_nil_inv_l in H as ->.
  - apply Forall2_cons_inv_l in H as (m & ls' & Hs & Hr & ->). simpl. rewrite (IH _ Hr). f_equal. by destruct Hs.
Qed.

Lemma lots_nodup : NoDup (map lt_id lots).
Proof using Hlots. rewrite lots_ids. apply OpenLots_nodup. Qed.

Lemma lots_origin f : f ∈ lots -> exists l, (lt_id f, l) ∈ OpenLots user b /\ settled_lot (open_lot (lt_id f, l)) f.
Proof using Hlots.
  intros (i & Hf)%list_elem_of_lookup. destruct (Forall2_lookup_r _ _ _ _ _ Hlots Hf) as (o & Ho & Hs).
  apply list_lookup_fmap_Some in Ho as ([id l] & -> & Hr). exists l. assert (E : lt_id f = id) by apply (sl_id _ _ Hs). rewrite E.
  split; [by eapply list_elem_of_lookup_2|done].
Qed.

Lemma lots_image id l : (id, l) ∈ OpenLots user b -> exists f, f ∈ lots /\ settled_lot (open_lot (id, l)) f.
Proof using Hlots.
  intros (i & Hr)%list_elem_of_lookup.
  assert (Ho : map open_lot (OpenLots user b) !! i = Some (open_lot (id, l))) by by rewrite list_lookup_fmap, Hr.
  destruct (Forall2_lookup_l _ _ _ _ _ Hlots Ho) as (f & Hf & Hs). exists f. split; [by eapply list_elem_of_lookup_2|done].
Qed.

(** A lot's row after the rollup spent it, or as it was. *)
Lemma lot_after id l' :
  spend_rows lots (bk_lots b) !! id = Some l' ->
  exists l, bk_lots b !! id = Some l /\
    ((exists f, (f ∈ lots) /\ settled_lot (open_lot (id, l)) f /\ ((id, l) ∈ OpenLots user b) /\ l' = spent_more (lt_spent f) l) \/
     (((id, l) ∉ OpenLots user b) /\ l' = l)).
Proof using Hlots.
  intros H. destruct (decide (id ∈ map lt_id lots)) as [Hin|Hout].
  - apply list_elem_of_In, in_map_iff in Hin as (f & <- & Hf). apply list_elem_of_In in Hf.
    destruct (lots_origin f Hf) as (l & Hl & Hs). apply OpenLots_elem in Hl as Hl'. destruct Hl' as (Hlk & _ & _).
    rewrite (spend_rows_lot _ _ _ _ lots_nodup Hf Hlk) in H. injection H as <-. exists l. split; [done|]. left. eauto.
  - rewrite spend_rows_other in H.
    + exists l'. split; [done|]. right. split; [|done]. contradict Hout. rewrite lots_ids.
      apply (list_elem_of_fmap_2 fst) in Hout. exact Hout.
    + intros f Hf <-. apply Hout. by apply list_elem_of_fmap_2.
Qed.

Lemma lot_left_after f id l : settled_lot (open_lot (id, l)) f -> lot_left (spent_more (lt_spent f) l) = lt_remaining f.
Proof.
  intros [_ _ _ _ H _ _]. unfold lot_left in *. simpl in *. unfold spent_more, over, lot_left in *. simpl in *. lia.
Qed.

Lemma open_lot_after f id l : settled_lot (open_lot (id, l)) f -> open_lot (id, spent_more (lt_spent f) l) = unspent f.
Proof.
  intros H. unfold open_lot, unspent. simpl. rewrite (lot_left_after _ _ _ H). destruct H as [-> -> -> -> _ _ _]. done.
Qed.

(** The open lots of the books a rollup leaves. *)
Lemma OpenLots_after b' :
  bk_lots b' = spend_rows lots (bk_lots b) ->
  map open_lot (OpenLots user b') ≡ₚ map unspent (List.filter (fun f => negb (lt_remaining f =? 0)) lots).
Proof using Hlots.
  intros Eb. apply NoDup_Permutation.
  - apply (NoDup_fmap_1 lt_id). rewrite <- list_fmap_compose. exact (OpenLots_nodup user b').
  - apply (NoDup_fmap_1 lt_id). rewrite <- list_fmap_compose. apply (NoDup_map_filter lt_id), lots_nodup.
  - intros x. rewrite !list_elem_of_fmap. split.
    + intros ([id l'] & -> & Hl). apply OpenLots_elem in Hl as (Hl & Hu & Hne). rewrite Eb in Hl.
      destruct (lot_after _ _ Hl) as (l & Hlk & [(f & Hf & Hs & Ho & ->)|[Ho ->]]).
      * exists f. split; [by apply open_lot_after|]. apply list_elem_of_In, List.filter_In. rewrite <- list_elem_of_In. split; [done|].
        rewrite (lot_left_after _ _ _ Hs) in Hne. apply negb_true_iff. by apply Z.eqb_neq.
      * exfalso. apply Ho. by apply OpenLots_elem.
    + intros (f & -> & Hf). apply list_elem_of_In, List.filter_In in Hf as [Hf Hne]. apply list_elem_of_In in Hf.
      apply negb_true_iff, Z.eqb_neq in Hne. destruct (lots_origin f Hf) as (l & Hl & Hs).
      exists (lt_id f, spent_more (lt_spent f) l). split; [symmetry; by apply open_lot_after|].
      apply OpenLots_elem in Hl as (Hlk & Hu & _). apply OpenLots_elem. rewrite Eb, (spend_rows_lot _ _ _ _ lots_nodup Hf Hlk).
      split; [done|]. split; [done|]. by rewrite (lot_left_after _ _ _ Hs).
Qed.
End Rows.

Section HourRows.
Context (complimentary : option Z) (user : uuid) (b : books) (hours : list open_hour).
Hypothesis Hok : books_ok b.
Hypothesis Hhours : Forall2 (closed_hour complimentary) (map uncovered_hour (UncoveredHours user b)) hours.

Lemma hours_ats : map oh_at hours = map fst (UncoveredHours user b).
Proof using Hhours.
  clear -Hhours. revert hours Hhours. induction (UncoveredHours user b) as [|r rs IH]; intros ls H; simpl in H.
  - by apply Forall2_nil_inv_l in H as ->.
  - apply Forall2_cons_inv_l in H as (m & ls' & Hs & Hr & ->). simpl. rewrite (IH _ Hr). f_equal. exact (closed_at _ _ _ Hs).
Qed.

Lemma hours_origin c :
  c ∈ hours -> exists h, bk_hours b !! (user, oh_at c) = Some h /\ 0 < hour_left h /\ closed_hour complimentary (uncovered_hour (oh_at c, h)) c.
Proof using Hhours.
  intros (i & Hc)%list_elem_of_lookup. destruct (Forall2_lookup_r _ _ _ _ _ Hhours Hc) as (o & Ho & Hs).
  apply list_lookup_fmap_Some in Ho as ([t h] & -> & Hr). assert (E : oh_at c = t) by exact (closed_at _ _ _ Hs). rewrite E.
  apply list_elem_of_lookup_2, UncoveredHours_elem in Hr as [Hr Hl]. eauto.
Qed.

Lemma hours_inj c c' : c ∈ hours -> c' ∈ hours -> oh_at c = oh_at c' -> c = c'.
Proof using Hhours.
  intros (i & Hi)%list_elem_of_lookup (j & Hj)%list_elem_of_lookup E. pose proof (UncoveredHours_nodup user b) as Hn.
  rewrite <- hours_ats in Hn. assert (i = j) as ->; [|congruence].
  apply (NoDup_lookup (map oh_at hours) i j (oh_at c) Hn); rewrite list_lookup_fmap, ?Hi, ?Hj; simpl; congruence.
Qed.

Lemma hours_image t h :
  (t, h) ∈ UncoveredHours user b -> exists c, c ∈ hours /\ oh_at c = t.
Proof using Hhours.
  intros Hr. assert (Ht : t ∈ map oh_at hours) by (rewrite hours_ats; apply (list_elem_of_fmap_2 fst _ _ Hr)).
  apply list_elem_of_In, in_map_iff in Ht as (c & <- & Hc). exists c. split; [by apply list_elem_of_In|done].
Qed.

(** What a rollup adds to an hour's row: no more than what was left. *)
Lemma closed_row c h :
  hour_ok (bk_accounts b) user h -> 0 < hour_left h -> closed_hour complimentary (uncovered_hour (oh_at c, h)) c ->
  hour_ok (bk_accounts b) user (covered_row c h) /\ hour_checks (covered_row c h) = true /\ hour_left (covered_row c h) = oh_uncovered c /\
  0 <= oh_credit c /\ (oh_credit c = 0 -> oh_waived c = 0 -> covered_row c h = h).
Proof.
  intros [] Hl Hc. unfold closed_hour in Hc.
  assert (H : 0 <= oh_credit c /\ 0 <= oh_sub c <= oh_credit c /\ 0 <= oh_waived c /\ 0 <= oh_uncovered c /\
    oh_uncovered c + oh_credit c + oh_waived c = hour_left h).
  { destruct (waived_hour _ _); [rewrite Hc; simpl in *; lia|]. destruct Hc. simpl in *. lia. }
  clear Hc. unfold hour_checks, covered_row, hour_left in *. simpl in *. split; [split; simpl; unfold hour_left; simpl; try lia; done|].
  rewrite andb_true_iff, !Z.leb_le. split; [lia|]. split; [lia|]. split; [lia|]. intros E E'.
  replace (oh_sub c) with 0 by lia. rewrite E, E', !Z.add_0_r. by destruct h.
Qed.

(** The hours' rows after [CoverHours], and their sum. *)
Lemma hours_after b1 :
  bk_hours b1 = bk_hours b ->
  exists hs, CoverHours user (List.filter (fun h => negb ((oh_credit h =? 0) && (oh_waived h =? 0))) hours) b1 = Ret (b1 <| bk_hours := hs |>) /\
    (forall c h, c ∈ hours -> bk_hours b !! (user, oh_at c) = Some h -> hs !! (user, oh_at c) = Some (covered_row c h)) /\
    (forall k, (forall c, c ∈ hours -> k <> (user, oh_at c)) -> hs !! k = bk_hours b !! k) /\
    (forall u, sum_over (credit_for u) hs = sum_over (credit_for u) (bk_hours b) + (if user =? u then sumZ (map oh_credit hours) else 0)).
Proof using Hok Hhours.
  intros Eb. set (covers := List.filter _ _).
  assert (Hin : forall c, c ∈ covers <-> c ∈ hours /\ negb ((oh_credit c =? 0) && (oh_waived c =? 0)) = true).
  { intros c. rewrite !list_elem_of_In. apply List.filter_In. }
  assert (Hrow : forall c, c ∈ hours -> exists h, bk_hours b !! (user, oh_at c) = Some h /\ hour_checks (covered_row c h) = true /\
    (oh_credit c = 0 -> oh_waived c = 0 -> covered_row c h = h)).
  { intros c Hc. destruct (hours_origin c Hc) as (h & Hh & Hl & Hcl). exists h. split; [done|].
    destruct (closed_row c h (bo_hour _ Hok _ _ _ Hh) Hl Hcl) as (_ & Hck & _ & _ & E). done. }
  destruct (CoverHours_spec user covers b1) as (hs & -> & H1 & H2 & H3).
  - apply NoDup_map_filter. rewrite hours_ats. apply UncoveredHours_nodup.
  - intros c [Hc _]%Hin. destruct (Hrow c Hc) as (h & Hh & Hck & _). rewrite Eb. eauto.
  - rewrite Eb in *. exists hs. split; [done|]. split; [|split].
    + intros c h Hc Hh. destruct (negb ((oh_credit c =? 0) && (oh_waived c =? 0))) eqn:Ez; [apply H1; [by apply Hin|done]|].
      destruct (Hrow c Hc) as (h' & Hh' & _ & E). rewrite Hh in Hh'. injection Hh' as <-.
      apply negb_false_iff in Ez as Ez'. apply andb_true_iff in Ez' as [Ec%Z.eqb_eq Ew%Z.eqb_eq]. rewrite (E Ec Ew), H2; [done|].
      intros c' [Hc' Hne]%Hin [= Eat]. rewrite <- (hours_inj c c' Hc Hc' Eat) in Hne. congruence.
    + intros k Hk. apply H2. intros c [Hc _]%Hin. by apply Hk.
    + intros u. rewrite H3. f_equal. destruct (user =? u); [|done]. unfold covers. clear. induction hours as [|c l IH]; [done|].
      simpl. destruct (Z.eqb_spec (oh_credit c) 0) as [E|]; simpl; [|lia]. destruct (_ =? 0); simpl; lia.
Qed.

(** The uncovered hours of the books a rollup leaves. *)
Lemma UncoveredHours_after b' :
  (forall c h, c ∈ hours -> bk_hours b !! (user, oh_at c) = Some h -> bk_hours b' !! (user, oh_at c) = Some (covered_row c h)) ->
  (forall k, (forall c, c ∈ hours -> k <> (user, oh_at c)) -> bk_hours b' !! k = bk_hours b !! k) ->
  map (fun r => (r.1, hour_left r.2)) (UncoveredHours user b') ≡ₚ
  map (fun c => (oh_at c, oh_uncovered c)) (List.filter (fun c => 0 <? oh_uncovered c) hours).
Proof using Hok Hhours.
  intros Hin Hout. apply NoDup_Permutation.
  - apply (NoDup_fmap_1 fst). rewrite <- list_fmap_compose. exact (UncoveredHours_nodup user b').
  - apply (NoDup_fmap_1 fst). rewrite <- list_fmap_compose. apply (NoDup_map_filter oh_at). rewrite hours_ats. apply UncoveredHours_nodup.
  - intros x. rewrite !list_elem_of_fmap. split.
    + intros ([t h'] & -> & Hr). apply UncoveredHours_elem in Hr as [Hr Hl]. destruct (decide (t ∈ map oh_at hours)) as [Ht|Ht].
      * apply list_elem_of_In, in_map_iff in Ht as (c & <- & Hc). apply list_elem_of_In in Hc.
        destruct (hours_origin c Hc) as (h & Hh & Hhl & Hcl). rewrite (Hin c h Hc Hh) in Hr. injection Hr as <-.
        destruct (closed_row c h (bo_hour _ Hok _ _ _ Hh) Hhl Hcl) as (_ & _ & El & _). exists c. simpl. rewrite El. split; [done|].
        apply list_elem_of_In, List.filter_In. rewrite <- list_elem_of_In, Z.ltb_lt. split; [done|lia].
      * rewrite Hout in Hr by (intros c Hc [= ->]; apply Ht; by apply list_elem_of_fmap_2).
        exfalso. apply Ht. rewrite hours_ats. apply (list_elem_of_fmap_2 fst _ (t, h')). by apply UncoveredHours_elem.
    + intros (c & -> & Hc). apply list_elem_of_In, List.filter_In in Hc as [Hc Hl%Z.ltb_lt]. apply list_elem_of_In in Hc.
      destruct (hours_origin c Hc) as (h & Hh & Hhl & Hcl).
      destruct (closed_row c h (bo_hour _ Hok _ _ _ Hh) Hhl Hcl) as (_ & _ & El & _).
      exists (oh_at c, covered_row c h). simpl. rewrite El. split; [done|]. apply UncoveredHours_elem. rewrite (Hin c h Hc Hh). split; [done|lia].
Qed.
End HourRows.
