(* ===== verification/RollupProps.v ===== *)
(** The rollup against the books: one call of [settle] always commits, keeps
    the books sound, pays everything credit can pay and writes the balance
    that is left; what it leaves stands until the instant it names.  Every
    other transaction on accounts, credit and hours keeps the books sound
    too. *)

From S2P Require Import Prelude Capacity Catalog Calendar GoLib Billing Placement Credits CreditLoops CreditProps.

(** ** Months *)

Lemma next_month_day y m :
  1 <= m <= 12 ->
  (if m =? 12 then day_number (y + 1) 1 1 else day_number y (m + 1) 1) = day_number y m 1 + month_length (is_leap y) m.
Proof.
  intros Hm. unfold day_number, month_length, before_month. destruct (Z.eqb_spec m 12) as [->|Hn].
  - rewrite days_before_next_year. unfold year_length. change (days_before_month 1) with 0. change (days_before_month 12) with 334.
    change (1 >? 2) with false. change (12 >? 2) with true. simpl. destruct (is_leap y); lia.
  - destruct (_ && is_leap y), (_ && is_leap y); lia.
Qed.

Lemma time_Date_midnight y m d : time_Date y m d 0 0 0 0 = day_number y m d * day_nanos.
Proof. unfold time_Date. lia. Qed.

Lemma day_of_midnight n : day_of (n * day_nanos) = n.
Proof. unfold day_of. apply Z.div_mul. unfold day_nanos, hour, minute, second. lia. Qed.

Lemma date_parts t : 1 <= time_Month t <= 12 /\ 1 <= time_Day t <= month_length (is_leap (time_Year t)) (time_Month t).
Proof. exact (proj2 (date_roundtrip (day_of t))). Qed.

Lemma monthStart_parts t : time_Year (monthStart t) = time_Year t /\ time_Month (monthStart t) = time_Month t.
Proof.
  destruct (date_parts t) as [Hm Hd]. unfold monthStart. rewrite time_Date_midnight. unfold time_Year at 1, time_Month at 2.
  rewrite day_of_midnight. destruct (day_number_parts (time_Year t) (time_Month t) 1) as (-> & -> & _); [|done].
  pose proof (month_length_pos (is_leap (time_Year t)) _ Hm). split; [done|lia].
Qed.

Lemma nextMonth_start t :
  nextMonth (monthStart t) = monthStart t + month_length (is_leap (time_Year t)) (time_Month t) * day_nanos.
Proof.
  unfold nextMonth. destruct (monthStart_parts t) as [-> ->]. destruct (date_parts t) as [Hm _].
  pose proof (next_month_day (time_Year t) (time_Month t) Hm) as H. unfold monthStart.
  rewrite !time_Date_midnight. destruct (_ =? 12); rewrite H; lia.
Qed.

Lemma month_bounds t : monthStart t <= t < nextMonth (monthStart t).
Proof.
  rewrite nextMonth_start. destruct (date_parts t) as [_ Hd]. pose proof (day_of_date t) as Hday.
  unfold monthStart. rewrite time_Date_midnight. replace (time_Day t) with (1 + (time_Day t - 1)) in Hday by lia.
  rewrite day_number_add in Hday. unfold day_of in Hday.
  pose proof (Z.div_mod t day_nanos). pose proof (Z.mod_pos_bound t day_nanos). unfold day_nanos, hour, minute, second in *. nia.
Qed.

Lemma monthStart_same t u : monthStart t <= u < nextMonth (monthStart t) -> monthStart u = monthStart t.
Proof.
  rewrite nextMonth_start. destruct (date_parts t) as [Hm _]. unfold monthStart at 1 2 4. rewrite !time_Date_midnight. intros Hu.
  set (n := day_number (time_Year t) (time_Month t) 1) in *.
  assert (Hd : n <= day_of u < n + month_length (is_leap (time_Year t)) (time_Month t)).
  { unfold day_of. assert (0 < day_nanos) by (unfold day_nanos, hour, minute, second; lia).
    split; [apply Z.div_le_lower_bound; lia|apply Z.div_lt_upper_bound; lia]. }
  assert (Eu : day_of u = day_number (time_Year t) (time_Month t) (1 + (day_of u - n))) by (rewrite day_number_add; fold n; lia).
  unfold monthStart. unfold time_Year at 1, time_Month at 1. rewrite Eu.
  destruct (day_number_parts (time_Year t) (time_Month t) (1 + (day_of u - n))) as (-> & -> & _); [|apply time_Date_midnight].
  split; [done|lia].
Qed.

(** ** What an account is left with *)

Definition book_lots (user : uuid) (b : books) : list lot := map open_lot (OpenLots user b).

(** Its balance: the credit that counts at an instant, less what reversals
    overdrew and what hours are not covered. *)
Definition balance_at (user : uuid) (now : Z) (b : books) : Z :=
  sumZ (map (lot_counts now) (book_lots user b)) - sumZ (map (fun r => hour_left r.2) (UncoveredHours user b)).

(** The next instant its balance changes by itself. *)
Definition recheck_at (user : uuid) (now : Z) (b : books) : Z := first_recheck now (nextMonth (monthStart now)) (book_lots user b).

(** Nothing credit could pay is unpaid: an overdrawn lot remains only when no
    live lot has credit, and an hour stays uncovered only when it was not
    waived and no lot is usable for it. *)
Record paid_up (complimentary : option Z) (user : uuid) (now : Z) (b : books) : Prop := {
  pu_debt : (forall l, l ∈ book_lots user b -> 0 <= lt_remaining l) \/ payers_dry now (book_lots user b);
  pu_hours : forall t h, bk_hours b !! (user, t) = Some h -> 0 < hour_left h ->
    waived_hour complimentary (uncovered_hour (t, h)) = false /\ forall l, l ∈ book_lots user b -> lot_usable t now l = false }.

(** The balance row [settle] writes. *)
Definition settled_balance (user : uuid) (now : Z) (b : books) (r : BalanceRow) : BalanceRow :=
  mkBalance (balance_at user now b) (bb_accrued r) (bb_live r) (monthStart now)
    (MonthSpent user (monthStart now) (nextMonth (monthStart now)) b) false (recheck_at user now b) (Some now).

(** What a rollup keeps of the other tables and rows: accounts and balances,
    what each lot and each hour is, and every other account's rows. *)
Record rollup_keeps (user : uuid) (b b' : books) : Prop := {
  rk_accounts : bk_accounts b' = bk_accounts b;
  rk_lots : forall id, (fun l => l <| cl_spent := 0 |>) <$> bk_lots b' !! id = (fun l => l <| cl_spent := 0 |>) <$> bk_lots b !! id;
  rk_hours : forall k, bh_cost <$> bk_hours b' !! k = bh_cost <$> bk_hours b !! k;
  rk_other_lots : forall id l, bk_lots b !! id = Some l -> cl_user l <> user -> bk_lots b' !! id = Some l;
  rk_other_hours : forall u t, u <> user -> bk_hours b' !! (u, t) = bk_hours b !! (u, t);
  rk_other_balances : forall u, u <> user -> bk_balances b' !! u = bk_balances b !! u }.

Lemma sumZ_counts now lots :
  sumZ (map (lot_counts now) (map unspent (List.filter (fun f => negb (lt_remaining f =? 0)) lots))) = sumZ (map (lot_counts now) lots).
Proof.
  induction lots as [|l lots IH]; simpl; [done|]. destruct (Z.eqb_spec (lt_remaining l) 0) as [E|]; simpl; rewrite IH; [|done].
  replace (lot_counts now l) with 0; [done|]. unfold lot_counts. rewrite E. simpl. by destruct (lot_live now l).
Qed.

Lemma recheck_counts now m lots :
  first_recheck now m (map unspent (List.filter (fun f => negb (lt_remaining f =? 0)) lots)) = first_recheck now m lots.
Proof.
  unfold first_recheck. induction lots as [|l lots IH]; simpl; [done|]. destruct (Z.eqb_spec (lt_remaining l) 0) as [E|]; simpl; rewrite IH; [|done].
  replace (lot_recheck now l) with (@None Z); [done|]. unfold lot_recheck. by rewrite E.
Qed.

Lemma sumZ_uncovered hours :
  (forall c, c ∈ hours -> 0 <= oh_uncovered c) ->
  sumZ (map snd (map (fun c => (oh_at c, oh_uncovered c)) (List.filter (fun c => 0 <? oh_uncovered c) hours))) = sumZ (map oh_uncovered hours).
Proof.
  induction hours as [|c hours IH]; intros H; simpl; [done|]. assert (0 <= oh_uncovered c) by (apply H; left).
  specialize (IH (fun k Hk => H k (list_elem_of_further _ _ _ Hk))).
  destruct (Z.ltb_spec 0 (oh_uncovered c)); simpl; lia.
Qed.

(** ** One rollup *)

Lemma settled_spent lots lots' :
  Forall2 settled_lot lots lots' -> sumZ (map lt_spent lots') - sumZ (map lt_spent lots) = credit_left lots - credit_left lots'.
Proof. unfold credit_left. induction 1 as [|l m ls ms [] _ IH]; simpl; lia. Qed.

Section Settle.
Context (complimentary : option Z) (user : uuid) (now : Z) (b : books).
Hypothesis Hok : books_ok b.

#[local] Abbreviation loops :=
  (settle_hours complimentary now (map uncovered_hour (UncoveredHours user b)) (pay_debts now (book_lots user b))).

Lemma settle_loops :
  Forall2 (closed_hour complimentary) (map uncovered_hour (UncoveredHours user b)) loops.1 /\
  Forall2 settled_lot (book_lots user b) loops.2 /\
  sumZ (map lt_spent loops.2) = sumZ (map oh_credit loops.1) /\
  ((forall l, l ∈ loops.2 -> 0 <= lt_remaining l) \/ payers_dry now loops.2) /\
  (forall k, k ∈ loops.1 -> oh_uncovered k = 0 \/ forall l, l ∈ loops.2 -> lot_usable (oh_at k) now l = false).
Proof.
  destruct (pay_debts_spec now (book_lots user b)) as (Hs & Hr & Hd).
  destruct (settle_hours_spec complimentary now (map uncovered_hour (UncoveredHours user b)) (pay_debts now (book_lots user b)))
    as (Hc & Hs' & Hr' & Hm).
  { intros h Hin. apply list_elem_of_In, in_map_iff in Hin as ([t row] & <- & Hrow).
    apply list_elem_of_In, UncoveredHours_elem in Hrow as [_ Hl]. simpl. lia. }
  assert (Hst : Forall2 settled_lot (book_lots user b) loops.2) by exact (settled_trans _ _ _ Hs Hs').
  split; [done|]. split; [done|]. split; [|split; [|done]].
  - pose proof (settled_spent _ _ Hst) as Hsp. assert (E0 : sumZ (map lt_spent (book_lots user b)) = 0).
    { unfold book_lots. clear. induction (OpenLots user b); simpl; lia. }
    assert (E1 : sumZ (map oh_credit (map uncovered_hour (UncoveredHours user b))) = 0).
    { clear. induction (UncoveredHours user b); simpl; lia. }
    lia.
  - destruct Hd as [Hd|Hd]; [left|right; exact (payers_dry_settled _ _ _ Hs' Hd)]. intros m (i & Hm')%list_elem_of_lookup.
    destruct (Forall2_lookup_r _ _ _ _ _ Hs' Hm') as (l & Hl & []). apply list_elem_of_lookup_2 in Hl. specialize (Hd _ Hl). lia.
Qed.

(** The tables [settle] writes before the balance. *)
Definition settled_tables (hs : gmap (uuid * Z) HourRow) : books :=
  b <| bk_lots := spend_rows loops.2 (bk_lots b) |> <| bk_hours := hs |>.

Record hours_written (hs : gmap (uuid * Z) HourRow) : Prop := {
  hw_in : forall c h, c ∈ loops.1 -> bk_hours b !! (user, oh_at c) = Some h -> hs !! (user, oh_at c) = Some (covered_row c h);
  hw_out : forall k, (forall c, c ∈ loops.1 -> k <> (user, oh_at c)) -> hs !! k = bk_hours b !! k;
  hw_sum : forall u, sum_over (credit_for u) hs = sum_over (credit_for u) (bk_hours b) + (if user =? u then sumZ (map oh_credit loops.1) else 0) }.

Lemma settle_writes : exists hs, hours_written hs /\
  settle user complimentary now b =
  Ret ((settled_tables hs) <| bk_balances := alter (settled_balance user now (settled_tables hs)) user (bk_balances b) |>).
Proof using Hok.
  destruct settle_loops as (Hc & Hs & _ & _ & _).
  destruct (hours_after _ user b loops.1 Hok Hc (SpendLots (deltas loops.2) b)) as (hs & Hcov & H1 & H2 & H3); [done|].
  exists hs. split; [done|]. unfold settle. fold (book_lots user b). fold (deltas loops.2). rewrite Hcov. cbn [go_bind].
  rewrite balance_fold, SpendLots_rows. fold (settled_tables hs). 
  assert (Ebal : balance_at user now (settled_tables hs) = - sumZ (map oh_uncovered loops.1) + sumZ (map (lot_counts now) loops.2)).
  { unfold balance_at. unfold book_lots at 1. rewrite (sumZ_perm _ _ (Permutation_map (lot_counts now) (OpenLots_after user b loops.2 Hs (settled_tables hs) eq_refl))).
    rewrite sumZ_counts. replace (map (fun r => hour_left r.2) (UncoveredHours user (settled_tables hs)))
      with (map snd (map (fun r => (r.1, hour_left r.2)) (UncoveredHours user (settled_tables hs)))) by by rewrite map_map.
    rewrite (sumZ_perm _ _ (Permutation_map snd (UncoveredHours_after _ user b loops.1 Hok Hc (settled_tables hs) H1 H2))), sumZ_uncovered; [lia|].
    intros c Hin. destruct (hours_origin _ _ _ _ Hc c Hin) as (h & Hh & Hl & Hcl).
    destruct (closed_row _ _ _ _ _ (bo_hour _ Hok _ _ _ Hh) Hl Hcl) as ([] & _ & <- & _). done. }
  assert (Erec : recheck_at user now (settled_tables hs) = first_recheck now (nextMonth (monthStart now)) loops.2).
  { unfold recheck_at. unfold book_lots at 1.
    rewrite (first_recheck_perm _ _ _ _ (OpenLots_after user b loops.2 Hs (settled_tables hs) eq_refl)). apply recheck_counts. }
  rewrite <- Ebal, <- Erec. reflexivity.
Qed.

(** A row of the hours after the rollup: closed, or as it was. *)
Lemma hour_written hs t h' :
  hours_written hs -> hs !! (user, t) = Some h' ->
  exists h, bk_hours b !! (user, t) = Some h /\
    ((exists c, (c ∈ loops.1) /\ oh_at c = t /\ h' = covered_row c h /\ 0 < hour_left h /\ closed_hour complimentary (uncovered_hour (t, h)) c) \/
     (h' = h /\ hour_left h <= 0)).
Proof using Hok.
  intros [Hin Hout _] H. destruct settle_loops as (Hc & _). destruct (decide (t ∈ map oh_at loops.1)) as [Ht|Ht].
  - apply list_elem_of_In, in_map_iff in Ht as (c & <- & Hcin). apply list_elem_of_In in Hcin.
    destruct (hours_origin _ _ _ _ Hc c Hcin) as (h & Hh & Hl & Hcl). rewrite (Hin c h Hcin Hh) in H. injection H as <-. eauto 10.
  - rewrite Hout in H by (intros c Hcin [= ->]; apply Ht; by apply list_elem_of_fmap_2). exists h'. split; [done|right].
    split; [done|]. destruct (Z_le_gt_dec (hour_left h') 0); [done|]. exfalso. apply Ht. rewrite (hours_ats _ _ _ _ Hc).
    apply (list_elem_of_fmap_2 fst _ (t, h')), UncoveredHours_elem. split; [done|lia].
Qed.

Lemma lot_checks_spent d l : lot_checks (spent_more d l) = lot_checks l.
Proof. done. Qed.

Lemma hours_other hs u t : hours_written hs -> u <> user -> hs !! (u, t) = bk_hours b !! (u, t).
Proof. intros [_ Hout _] Hu. apply Hout. intros c _ [= E _]. done. Qed.

Lemma settled_tables_ok hs : hours_written hs -> books_ok (settled_tables hs).
Proof using Hok.
  intros Hw. destruct settle_loops as (Hc & Hs & Hsum & _). destruct Hok as [Hlot Hsrc Hhour Hbal Hsums].
  assert (Hlots : forall id l', bk_lots (settled_tables hs) !! id = Some l' -> exists l, bk_lots b !! id = Some l /\
    cl_user l' = cl_user l /\ cl_source l' = cl_source l /\ lot_ok (bk_accounts b) l').
  { intros id l' Hl'. destruct (lot_after _ _ _ Hs _ _ Hl') as (l & Hl & Hcase). exists l. split; [done|].
    destruct (Hlot _ _ Hl) as [Hck Hsp Hu]. destruct Hcase as [(f & Hf & Hsl & _ & ->)|[_ ->]]; [|done]. split; [done|]. split; [done|].
    split; [done| |done]. unfold lot_checks in Hck. rewrite !andb_true_iff, !Z.leb_le in Hck.
    pose proof (lot_left_after _ _ _ Hsl) as El. destruct Hsl. simpl in *. unfold lot_left, spent_more, over in *. simpl in *. lia. }
  split.
  - intros id l' Hl'. destruct (Hlots _ _ Hl') as (l & _ & _ & _ & H). done.
  - intros i j l m Hl Hm. destruct (Hlots _ _ Hl) as (l0 & Hl0 & -> & -> & _), (Hlots _ _ Hm) as (m0 & Hm0 & -> & -> & _). eauto.
  - intros u t h' Hh'. destruct (decide (u = user)) as [->|Hu].
    + destruct (hour_written hs t h' Hw Hh') as (h & Hh & [(c & Hcin & <- & -> & Hl & Hcl)|[-> _]]); [|exact (Hhour _ _ _ Hh)].
      exact (proj1 (closed_row _ user b _ _ (Hhour _ _ _ Hh) Hl Hcl)).
    + change (hs !! (u, t) = Some h') in Hh'. rewrite (hours_other hs) in Hh' by done. exact (Hhour _ _ _ Hh').
  - done.
  - intros u. unfold spent_by, credited_by. change (bk_lots (settled_tables hs)) with (spend_rows loops.2 (bk_lots b)).
    change (bk_hours (settled_tables hs)) with hs. rewrite (hw_sum _ Hw). specialize (Hsums u). unfold spent_by, credited_by in Hsums.
    rewrite (spend_rows_sum user), Hsum, Hsums; [done|]. intros f Hf. destruct (lots_origin _ _ _ Hs f Hf) as (l & Hl & _).
    apply OpenLots_elem in Hl as (Hl & Hu & _). eauto.
Qed.

Lemma settled_tables_paid hs : hours_written hs -> paid_up complimentary user now (settled_tables hs).
Proof using Hok.
  intros Hw. destruct settle_loops as (Hc & Hs & _ & Hdry & Hmax).
  assert (Hlots : forall l, l ∈ book_lots user (settled_tables hs) -> exists f, f ∈ loops.2 /\ l = unspent f).
  { intros l Hl. unfold book_lots in Hl. rewrite (OpenLots_after user b loops.2 Hs (settled_tables hs) eq_refl) in Hl.
    apply list_elem_of_fmap in Hl as (f & -> & Hf). apply list_elem_of_In, List.filter_In in Hf as [Hf _]. apply list_elem_of_In in Hf. eauto. }
  split.
  - destruct Hdry as [H|H]; [left|right].
    + intros l Hl. destruct (Hlots l Hl) as (f & Hf & ->). exact (H f Hf).
    + intros l Hl. destruct (Hlots l Hl) as (f & Hf & ->). exact (H f Hf).
  - intros t h' Hh' Hl'. destruct (hour_written hs t h' Hw Hh') as (h & Hh & [(c & Hcin & <- & -> & Hl & Hcl)|[-> Hn]]); [|lia].
    destruct (closed_row _ user b _ _ (bo_hour _ Hok _ _ _ Hh) Hl Hcl) as (_ & _ & El & _). unfold closed_hour in Hcl.
    change (waived_hour complimentary (uncovered_hour (oh_at c, h)))
      with (waived_hour complimentary (uncovered_hour (oh_at c, covered_row c h))) in Hcl.
    destruct (waived_hour _ _); [apply (f_equal oh_uncovered) in Hcl; simpl in Hcl; lia|]. split; [done|].
    intros l Hlin. destruct (Hlots l Hlin) as (f & Hf & ->). destruct (Hmax c Hcin) as [H0|H]; [lia|]. apply (H f Hf).
Qed.

Lemma settled_tables_keep hs bals :
  hours_written hs -> (forall u, u <> user -> bals !! u = bk_balances b !! u) ->
  rollup_keeps user b ((settled_tables hs) <| bk_balances := bals |>).
Proof using Hok.
  intros Hw Hb. destruct settle_loops as (Hc & Hs & _). split; [done| | | | |done].
  - intros id. change ((fun l => l <| cl_spent := 0 |>) <$> spend_rows loops.2 (bk_lots b) !! id = (fun l => l <| cl_spent := 0 |>) <$> bk_lots b !! id).
    destruct (spend_rows loops.2 (bk_lots b) !! id) as [l'|] eqn:E.
    + destruct (lot_after _ _ _ Hs _ _ E) as (l & -> & [(f & _ & _ & _ & ->)|[_ ->]]); done.
    + destruct (bk_lots b !! id) as [l|] eqn:El; [|done]. exfalso. destruct (decide (id ∈ map lt_id loops.2)) as [Hin|Hout].
      * apply list_elem_of_In, in_map_iff in Hin as (f & <- & Hf). apply list_elem_of_In in Hf.
        by rewrite (spend_rows_lot _ _ _ _ (lots_nodup _ _ _ Hs) Hf El) in E.
      * rewrite spend_rows_other, El in E; [done|]. intros f Hf <-. apply Hout. by apply list_elem_of_fmap_2.
  - intros [u t]. change (bh_cost <$> hs !! (u, t) = bh_cost <$> bk_hours b !! (u, t)). destruct (decide (u = user)) as [->|]; [|by rewrite (hours_other hs)].
    destruct Hw as [Hin Hout _]. destruct (decide (t ∈ map oh_at loops.1)) as [Ht|Ht].
    + apply list_elem_of_In, in_map_iff in Ht as (c & <- & Hcin). apply list_elem_of_In in Hcin.
      destruct (hours_origin _ _ _ _ Hc c Hcin) as (h & Hh & _). transitivity (bh_cost <$> Some (covered_row c h)); [f_equal; exact (Hin c h Hcin Hh)|].
      change (bh_cost <$> Some h = bh_cost <$> bk_hours b !! (user, oh_at c)). f_equal. by symmetry.
    + rewrite Hout; [done|]. intros c Hcin [= ->]. apply Ht. by apply list_elem_of_fmap_2.
  - intros id l Hl Hu. change (spend_rows loops.2 (bk_lots b) !! id = Some l). rewrite spend_rows_other; [done|].
    intros f Hf <-. destruct (lots_origin _ _ _ Hs f Hf) as (m & Hm & _). apply OpenLots_elem in Hm as (Hm & Hmu & _). congruence.
  - intros u t Hu. by apply hours_other.
Qed.

(** A rollup commits, and what it leaves. *)
Lemma settle_spec : exists b', settle user complimentary now b = Ret b' /\
  books_ok b' /\ paid_up complimentary user now b' /\ rollup_keeps user b b' /\
  bk_balances b' !! user = settled_balance user now b' <$> bk_balances b !! user.
Proof using Hok.
  destruct settle_writes as (hs & Hw & ->). eexists. split; [done|]. pose proof (settled_tables_ok hs Hw) as [H1 H2 H3 H4 H5].
  split; [split; try done|split; [|split]].
  - intros u. rewrite H4. 
    change (is_Some (bk_balances b !! u) <-> is_Some (alter (settled_balance user now (settled_tables hs)) user (bk_balances b) !! u)).
    destruct (decide (u = user)) as [->|]; [rewrite lookup_alter_eq, fmap_is_Some|rewrite lookup_alter_ne]; done.
  - destruct (settled_tables_paid hs Hw) as [P1 P2]. split; [exact P1|exact P2].
  - apply settled_tables_keep; [done|]. intros u Hu. by apply lookup_alter_ne.
  - apply lookup_alter_eq.
Qed.
End Settle.

(** ** Rolling up again *)

(** A rollup of an account that is paid up only writes its balance. *)
Lemma settle_quiet complimentary (user : uuid) now b :
  paid_up complimentary user now b ->
  settle user complimentary now b = Ret (b <| bk_balances := alter (settled_balance user now b) user (bk_balances b) |>).
Proof.
  intros [Hd Hh]. unfold settle. fold (book_lots user b). rewrite pay_debts_quiet by done. rewrite settle_hours_quiet; cycle 1.
  { intros h Hin. apply list_elem_of_In, in_map_iff in Hin as ([t row] & <- & Hrow).
    apply list_elem_of_In, UncoveredHours_elem in Hrow as [Hrow Hl]. destruct (Hh t row Hrow Hl) as [Hw Hu]. done. }
  cbn [fst snd].
  assert (Es : forall ls, omap (fun l => if lt_spent l =? 0 then None else Some (lt_id l, lt_spent l)) (map open_lot ls) = [])
    by (intros ls; induction ls; done).
  assert (Ec : forall hs, List.filter (fun h => negb ((oh_credit h =? 0) && (oh_waived h =? 0))) (map uncovered_hour hs) = [])
    by (intros hs; induction hs; done).
  unfold book_lots. rewrite Es, Ec. cbn [go_bind CoverHours go_fold]. rewrite balance_fold. unfold SetBalance, SpendLots.
  f_equal. destruct b as [accs lts hrs bals]. unfold over. simpl. do 2 f_equal. unfold settled_balance, balance_at, book_lots.
  rewrite map_map. replace (map (fun x => oh_uncovered (uncovered_hour x))) with (map (fun r : Z * HourRow => hour_left r.2)) by done.
  rewrite Z.add_comm, Z.add_opp_r. done.
Qed.

Lemma usable_constant now later at_ l :
  now <= later -> (forall e, lot_recheck now l = Some e -> later < e) -> lot_usable at_ later l = lot_usable at_ now l.
Proof.
  intros Hle H. unfold lot_usable. destruct (Z.ltb_spec 0 (lt_remaining l)) as [Hp|]; [|done]. simpl. f_equal.
  unfold lot_recheck, lot_live in H. destruct (Z.ltb_spec 0 (lt_remaining l)); [|lia].
  destruct (Z.leb_spec (lt_effective l) now), (Z.leb_spec (lt_effective l) later); try done; [lia|]. simpl in H.
  destruct (Z.ltb_spec now (lt_effective l)); [|lia]. specialize (H _ eq_refl). lia.
Qed.

(** Until the instant a rollup names, nothing it decided changes. *)
Lemma paid_up_constant complimentary (user : uuid) now later b :
  now <= later < recheck_at user now b -> paid_up complimentary user now b ->
  paid_up complimentary user later b /\ balance_at user later b = balance_at user now b /\
  recheck_at user later b = recheck_at user now b /\ monthStart later = monthStart now.
Proof.
  intros [Hle Hlt] [Hd Hh]. assert (Hl : forall l, l ∈ book_lots user b -> forall e, lot_recheck now l = Some e -> later < e).
  { intros l Hl e He. pose proof (first_recheck_le now (nextMonth (monthStart now)) _ l e Hl He). unfold recheck_at in Hlt. lia. }
  assert (Em : monthStart later = monthStart now).
  { apply monthStart_same. pose proof (month_bounds now). unfold recheck_at in Hlt.
    pose proof (first_recheck_month now (nextMonth (monthStart now)) (book_lots user b)). lia. }
  split; [split|split; [|split; [|done]]].
  - destruct Hd as [Hd|Hd]; [by left|right]. intros l Hin Hlive. destruct (lot_constant now later l Hle (Hl l Hin)) as (_ & _ & H).
    destruct (Z_le_gt_dec (lt_remaining l) 0); [done|]. rewrite H in Hlive by lia. by apply Hd.
  - intros t h Hrow Hleft. destruct (Hh t h Hrow Hleft) as [Hw Hu]. split; [done|]. intros l Hin.
    rewrite (usable_constant now later t l Hle (Hl l Hin)). by apply Hu.
  - unfold balance_at. f_equal. f_equal. apply map_ext_in. intros l Hin. apply list_elem_of_In in Hin.
    by destruct (lot_constant now later l Hle (Hl l Hin)) as (-> & _).
  - unfold recheck_at. rewrite Em. unfold first_recheck. generalize (nextMonth (monthStart now)). clear -Hl Hle.
    induction (book_lots user b) as [|l ls IH]; intros m; simpl; [done|]. rewrite IH by (intros k Hk; apply Hl; by right).
    by destruct (lot_constant now later l Hle (Hl l (list_elem_of_here _ _))) as (_ & -> & _).
Qed.

Lemma settle_again complimentary (user : uuid) now later b r :
  paid_up complimentary user now b -> now <= later < recheck_at user now b ->
  bk_balances b !! user = Some (settled_balance user now b r) ->
  settle user complimentary later b = Ret (b <| bk_balances := alter (fun r => r <| bb_rolled := Some later |>) user (bk_balances b) |>).
Proof.
  intros Hp Ht Hr. destruct (paid_up_constant _ _ _ _ _ Ht Hp) as (Hp' & Eb & Er & Em). rewrite settle_quiet by done.
  assert (E : alter (settled_balance user later b) user (bk_balances b) = alter (fun r => r <| bb_rolled := Some later |>) user (bk_balances b));
    [|by rewrite E].
  apply map_eq. intros u. destruct (decide (u = user)) as [->|]; [|by rewrite !lookup_alter_ne].
  rewrite !lookup_alter_eq, Hr. cbn [fmap option_fmap option_map]. f_equal.
  unfold settled_balance, over. cbn [bb_accrued bb_live bb_balance bb_month bb_month_spent bb_due bb_recheck]. by rewrite Eb, Er, Em.
Qed.

(** Books whose lots and hours are the same are as sound. *)
Lemma books_ok_same b b' :
  books_ok b -> bk_lots b' = bk_lots b -> bk_hours b' = bk_hours b ->
  (forall u, is_Some (bk_accounts b' !! u) <-> is_Some (bk_accounts b !! u)) ->
  (forall u, is_Some (bk_balances b' !! u) <-> is_Some (bk_balances b !! u)) -> books_ok b'.
Proof.
  intros [H1 H2 H3 H4 H5] El Eh Ha Hb. split; unfold spent_by, credited_by; rewrite ?El, ?Eh; try done.
  - intros id l Hl. destruct (H1 _ _ Hl). split; [done|done|by apply Ha].
  - intros u t h Hh. destruct (H3 _ _ _ Hh). split; try done. by apply Ha.
  - intros u. by rewrite Ha, Hb.
Qed.

Lemma is_Some_alter {K A} `{Countable K} (f : A -> A) (m : gmap K A) i j : is_Some (alter f i m !! j) <-> is_Some (m !! j).
Proof. destruct (decide (i = j)) as [->|]; [by rewrite lookup_alter_eq, fmap_is_Some|by rewrite lookup_alter_ne]. Qed.

Lemma is_Some_update {K A} `{Countable K} (m : gmap K A) i x y j : m !! i = Some x -> is_Some (<[i := y]> m !! j) <-> is_Some (m !! j).
Proof. intros Hi. destruct (decide (i = j)) as [->|]; [rewrite lookup_insert_eq, Hi|by rewrite lookup_insert_ne]. split; eauto. Qed.

Lemma mark_due_ok user b : books_ok b -> books_ok (mark_due user b).
Proof. intros H. apply (books_ok_same b); try done. intros u. apply is_Some_alter. Qed.

(** ** Lots *)

Lemma LotBySource_none user source b :
  LotBySource user source b = None -> forall id l, bk_lots b !! id = Some l -> cl_user l = user -> cl_source l <> source.
Proof.
  unfold LotBySource. destruct (List.find _ _) eqn:E; [done|]. intros _ id l Hl Hu Hs.
  pose proof (List.find_none _ _ E (id, l)) as H. simpl in H. rewrite bool_decide_eq_true_2 in H by done.
  assert (Hin : In (id, l) (lots_of user b)) by (apply list_elem_of_In, lots_of_elem; done). by specialize (H Hin).
Qed.

Lemma insert_lot_ok id l b b' :
  books_ok b -> cl_spent l = 0 -> LotBySource (cl_user l) (cl_source l) b = None -> insert_lot id l b = Ret b' -> books_ok b'.
Proof.
  intros [H1 H2 H3 H4 H5] Hsp Hsrc. unfold insert_lot. destruct (_ || _ || _) eqn:E; [done|]. intros [= <-].
  rewrite !orb_false_iff, !negb_false_iff, bool_decide_eq_false, bool_decide_eq_true in E. destruct E as [[Hid Hacc] Hck].
  apply eq_None_not_Some in Hid. pose proof (LotBySource_none _ _ _ Hsrc) as Hnone.
  assert (Hpos : 0 < cl_amount l) by (unfold lot_checks in Hck; rewrite !andb_true_iff, Z.ltb_lt in Hck; tauto).
  split; try done; unfold over; simpl.
  - intros i m. destruct (decide (i = id)) as [->|]; [rewrite lookup_insert_eq; intros [= <-]|rewrite lookup_insert_ne by done; apply H1].
    split; [done|lia|done].
  - intros i j m n. destruct (decide (i = id)) as [->|], (decide (j = id)) as [->|]; rewrite ?lookup_insert_eq, ?lookup_insert_ne by done.
    + done.
    + intros [= <-] Hn Eu Es. exfalso. by apply (Hnone _ _ Hn).
    + intros Hm [= <-] Eu Es. exfalso. by apply (Hnone _ _ Hm).
    + apply H2.
  - intros u. specialize (H5 u). unfold spent_by, credited_by in *. simpl. rewrite sum_over_new, H5 by done. unfold spend_for. simpl.
    rewrite Hsp. destruct (_ =? _); lia.
Qed.

Lemma GrantCredit_ok id l b r : books_ok b -> cl_spent l = 0 -> GrantCredit id l b = Ret r -> books_ok r.1.
Proof.
  intros Hok Hsp. unfold GrantCredit. destruct (LotBySource _ _ b) eqn:E; [by intros [= <-]|].
  intros (b' & Hb' & [= <-])%go_bind_Ret. apply mark_due_ok. by eapply insert_lot_ok.
Qed.

Lemma addCredit_ok id g b r : books_ok b -> addCredit id g b = Ret r -> books_ok r.1.
Proof.
  intros Hok. unfold addCredit. intros ([b' o] & H & Hr)%go_bind_Ret. apply GrantCredit_ok in H; [|done|done]. simpl in *.
  destruct o; [by injection Hr as <-|]. destruct (LotBySource _ _ _); [by injection Hr as <-|done].
Qed.

Lemma ReverseCredit_ok reversed id b b' : books_ok b -> ReverseCredit reversed id b = Ret b' -> books_ok b'.
Proof.
  intros Hok. unfold ReverseCredit. destruct (bk_lots b !! id) as [l|] eqn:Hl; [|by intros [= <-]].
  destruct (_ =? _); [by intros [= <-]|]. destruct (lot_checks _) eqn:Hck; simpl; [|done]. intros [= <-]. apply mark_due_ok.
  destruct Hok as [H1 H2 H3 H4 H5]. destruct (H1 _ _ Hl) as [_ Hsp Hu]. split; try done; unfold over; simpl.
  - intros i m. destruct (decide (i = id)) as [->|]; [rewrite lookup_insert_eq; intros [= <-]|rewrite lookup_insert_ne by done; apply H1]. done.
  - intros i j m n. destruct (decide (i = id)) as [->|], (decide (j = id)) as [->|]; rewrite ?lookup_insert_eq, ?lookup_insert_ne by done.
    + done.
    + intros [= <-] Hn Eu Es. exact (H2 _ _ l n Hl Hn Eu Es).
    + intros Hm [= <-] Eu Es. exact (H2 _ _ m l Hm Hl Eu Es).
    + apply H2.
  - intros u. specialize (H5 u). unfold spent_by, credited_by in *. simpl. rewrite (sum_over_update _ _ _ _ _ Hl), <- H5. unfold spend_for. simpl.
    destruct (_ =? _); lia.
Qed.

(** ** Accounts *)

Lemma EnsureAccount_ok id user now b b' : books_ok b -> EnsureAccount id user now b = Ret b' -> books_ok b'.
Proof.
  intros Hok. unfold EnsureAccount. destruct (bk_accounts b !! user) as [a|] eqn:Ha; [by intros [= <-]|].
  destruct (_ || _) eqn:E; [done|]. rewrite orb_false_iff, !bool_decide_eq_false in E. destruct E as [Hsrc Hbal].
  apply eq_None_not_Some in Hsrc, Hbal. intros (b2 & Hins & [= <-])%go_bind_Ret. destruct Hok as [H1 H2 H3 H4 H5].
  set (b1 := b <| bk_accounts := <[user := new_account now]> (bk_accounts b) |> <| bk_balances := <[user := mkBalance TrialNanos 0 0 (monthStart now) 0 true 0 None]> (bk_balances b) |>).
  assert (Hacc : forall u, is_Some (bk_accounts b !! u) -> is_Some (<[user := new_account now]> (bk_accounts b) !! u)).
  { intros u Hu. destruct (decide (u = user)) as [->|]; [rewrite lookup_insert_eq; eauto|by rewrite lookup_insert_ne]. }
  assert (Hok1 : books_ok b1).
  { split; try done.
    - intros i l Hl. destruct (H1 _ _ Hl). split; [done|done|by apply Hacc].
    - intros u t h Hh. destruct (H3 _ _ _ Hh). split; try done. by apply Hacc.
    - intros u. unfold b1, over. simpl. destruct (decide (u = user)) as [->|]; [rewrite !lookup_insert_eq; split; eauto|].
      rewrite !lookup_insert_ne by done. apply H4. }
  set (l := mkLot _ _ _ _ _ _ _ _) in Hins. assert (Hok2 : books_ok (b1 <| bk_lots := <[id := l]> (bk_lots b) |>)).
  { apply (insert_lot_ok id l b1); [done|done|exact Hsrc|]. unfold insert_lot in *. destruct (_ || _ || _) eqn:E in Hins; [done|].
    destruct (_ || _ || _) eqn:E' in |- *; [|done]. exfalso. assert (true = false); [|done]. rewrite <- E', <- E. done. }
  unfold insert_lot in Hins. destruct (_ || _ || _) in Hins; [done|]. injection Hins as <-.
  apply (books_ok_same _ _ Hok2); try done. intros u. unfold b1, over. simpl.
  destruct (decide (u = user)) as [->|]; [rewrite !lookup_insert_eq; split; eauto|by rewrite !lookup_insert_ne].
Qed.

Lemma EnsureAccounts_ok fresh users now b b' : books_ok b -> EnsureAccounts fresh users now b = Ret b' -> books_ok b'.
Proof.
  unfold EnsureAccounts. revert b. induction users as [|u users IH]; intros b Hok; simpl; [by intros [= <-]|].
  intros (b1 & H1 & H)%go_bind_Ret. eapply IH; [|done]. by eapply EnsureAccount_ok.
Qed.

Lemma SetComplimentary_ok known id user c now b b' : books_ok b -> SetComplimentary known id user c now b = Ret b' -> books_ok b'.
Proof.
  intros Hok. unfold SetComplimentary. destruct (negb known); [done|]. intros (b1 & H1 & [= <-])%go_bind_Ret.
  apply EnsureAccount_ok in H1; [|done]. destruct (bk_accounts b1 !! user); [|done]. apply mark_due_ok.
  apply (books_ok_same b1); try done. intros u. apply is_Some_alter.
Qed.

Lemma SetPreferences_ok id user p now b b' : books_ok b -> SetPreferences id user p now b = Ret b' -> books_ok b'.
Proof.
  intros Hok. unfold SetPreferences. intros (b1 & H1 & H)%go_bind_Ret. apply EnsureAccount_ok in H1; [|done].
  destruct (bk_accounts b1 !! user) as [a|] eqn:Ha; [|done]. destruct (_ && _); [done|]. destruct (negb _); [done|]. injection H as <-.
  apply (books_ok_same b1); try done. intros u. by eapply is_Some_update.
Qed.

Lemma ResumeReload_ok id user now b b' : books_ok b -> ResumeReload id user now b = Ret b' -> books_ok b'.
Proof.
  intros Hok. unfold ResumeReload. intros (b1 & H1 & H)%go_bind_Ret. apply EnsureAccount_ok in H1; [|done].
  destruct (bk_accounts b1 !! user) as [a|] eqn:Ha; [|done]. destruct (_ == _); [done|]. injection H as <-.
  apply (books_ok_same b1); try done. intros u. by eapply is_Some_update.
Qed.

(** ** Hours *)

Lemma charge_hour_ok user at_ cost b b' : 0 <= cost -> books_ok b -> charge_hour user at_ cost b = Ret b' -> books_ok b'.
Proof.
  intros Hc [H1 H2 H3 H4 H5]. unfold charge_hour. destruct (negb _) eqn:Ea; [done|]. apply negb_false_iff, bool_decide_eq_true in Ea.
  destruct (hour_checks _) eqn:Hck; [|done]. intros [= <-]. unfold over.
  split; try done; simpl.
  - intros u t h. destruct (decide ((u, t) = (user, at_))) as [[= -> ->]|Hne]; [rewrite lookup_insert_eq|rewrite lookup_insert_ne by done; apply H3].
    intros [= <-]. destruct (bk_hours b !! (user, at_)) as [h|] eqn:Hh; [|split; unfold hour_left; simpl; try lia; done].
    destruct (H3 _ _ _ Hh). unfold hour_left in *. split; unfold hour_left; simpl; try lia; done.
  - intros u. specialize (H5 u). unfold spent_by, credited_by in *. simpl. rewrite H5.
    destruct (bk_hours b !! (user, at_)) as [h|] eqn:Hh; [rewrite (sum_over_update _ _ _ _ _ Hh)|rewrite sum_over_new by done];
      unfold credit_for; simpl; destruct (_ =? _); lia.
Qed.

(** A charge that costs nothing less is never refused. *)
Lemma charge_hour_returns user at_ cost b :
  books_ok b -> 0 <= cost -> is_Some (bk_accounts b !! user) -> exists b', charge_hour user at_ cost b = Ret b'.
Proof.
  intros [H1 H2 H3 H4 H5] Hc Ha. unfold charge_hour. rewrite bool_decide_eq_true_2 by done. simpl.
  destruct (bk_hours b !! (user, at_)) as [h|] eqn:Hh.
  - destruct (H3 _ _ _ Hh). unfold hour_checks, hour_left, over in *. simpl.
    replace (bh_credited h + bh_waived h <=? bh_cost h + cost) with true by lia. replace (bh_subscription h <=? bh_credited h) with true by lia. eexists. reflexivity.
  - unfold hour_checks. simpl. cbn [bh_cost bh_credited bh_waived bh_subscription]. replace (0 + 0 <=? cost) with true by lia. eexists. reflexivity.
Qed.

Lemma rollup_account_spec user now b a :
  books_ok b -> bk_accounts b !! user = Some a -> exists b' r, rollup_account user now b = Ret b' /\
    books_ok b' /\ paid_up (ba_complimentary a) user now b' /\ rollup_keeps user b b' /\
    bk_balances b !! user = Some r /\ bk_balances b' !! user = Some (settled_balance user now b' r).
Proof.
  intros Hb Ha. destruct (settle_spec (ba_complimentary a) user now b Hb) as (b' & E & Hb' & Hp & Hk & Hr).
  destruct (proj1 (bo_balance _ Hb user) (ex_intro _ a Ha)) as [r Er]. exists b', r. unfold rollup_account. rewrite Ha, Er.
  split; [done|]. split; [done|]. split; [done|]. split; [done|]. split; [done|]. by rewrite Hr, Er.
Qed.

Lemma empty_books_ok : books_ok (mkBooks ∅ ∅ ∅ ∅).
Proof.
  split; simpl; [by intros id l H; rewrite lookup_empty in H|by intros i j l k H; rewrite lookup_empty in H|by intros u t h H; rewrite lookup_empty in H| |done].
  intros u. by rewrite !lookup_empty.
Qed.
