(* ===== verification/PaymentProps.v ===== *)
(** What payments guarantee: a purchase is funded once, with its own amount,
    whatever Stripe's deliveries, retries and stale readings say and in which
    order; its lot holds what Stripe retains; a reload starts only for an
    account that is due; and the credit an invoice includes is bounded by what
    its plans include. *)

From Stdlib Require QArith_base.
From stdpp Require Import pretty.
From S2P Require Import Prelude Capacity Catalog Calendar GoLib Billing Placement Credits Admission Payments CreditLoops CreditProps RollupProps.

Section Purchases.
Context (uuid_text : uuid -> string).
#[local] Abbreviation source := (purchase_source uuid_text).

(** ** Steps *)

(** A change of the books by anything but a purchase: lots stay but for what
    they spent, accounts stay, and no lot of a purchase is new. *)
Record lots_kept (b b' : books) : Prop := {
  lk_old : forall id l, bk_lots b !! id = Some l -> exists spent, bk_lots b' !! id = Some (l <| cl_spent := spent |>);
  lk_new : forall id l, bk_lots b' !! id = Some l -> bk_lots b !! id = None -> cl_kind l <> kindPurchased /\ forall p, cl_source l <> source p;
  lk_accounts : forall u, is_Some (bk_accounts b !! u) -> is_Some (bk_accounts b' !! u) }.

(** A transaction: those of payments, whatever Stripe answered and however
    old the answer is, and those of the rest of billing. *)
Inductive pay_step (s : payments) : payments -> Prop :=
  | pay_buy fresh id user req now s' r : buy_tx fresh id user req now s = Ret (s', r) -> pay_step s s'
  | pay_checkout id c next s' : SetCheckout id c next s = Ret s' -> pay_step s s'
  | pay_found id intent s' : PurchaseIntentFound id intent s = Ret s' -> pay_step s s'
  | pay_record lot id p now s' : 0 <= pm_retained p -> record_tx uuid_text lot id p now s = Ret s' -> pay_step s s'
  | pay_retry id next s' : RetryPurchase id next s = Ret s' -> pay_step s s'
  | pay_reload id user now s' started : startReload id user now s = Ret (s', started) -> pay_step s s'
  | pay_books b : lots_kept (py_books s) b -> pay_step s (s <| py_books := b |>).
Inductive pay_reach : payments -> Prop :=
  | pay_empty : pay_reach (mkPayments (mkBooks ∅ ∅ ∅ ∅) ∅)
  | pay_more s s' : pay_reach s -> pay_step s s' -> pay_reach s'.

(** ** The invariant *)

(** The lot of a funded purchase. *)
Record lot_of (id : uuid) (p : CreditPurchase) (l : LotRow) : Prop := {
  lf_user : cl_user l = cp_user p;
  lf_kind : cl_kind l = kindPurchased;
  lf_source : cl_source l = source id;
  lf_amount : cl_amount l = cp_amount p;
  lf_expires : cl_expires l = None;
  lf_reversed : cl_reversed l = Z.min (cp_reversed p) (cp_amount p) }.

Record pay_ok (s : payments) : Prop := {
  po_checks : forall id p, py_purchases s !! id = Some p -> purchase_checks p = true;
  po_apart : forall id j p q, py_purchases s !! id = Some p -> py_purchases s !! j = Some q -> j <> id -> purchase_conflicts p q = false;
  po_account : forall id p, py_purchases s !! id = Some p -> is_Some (bk_accounts (py_books s) !! cp_user p);
  po_funded : forall id p l, py_purchases s !! id = Some p -> cp_lot p = Some l ->
                exists r, bk_lots (py_books s) !! l = Some r /\ lot_of id p r;
  po_lots : forall l r, bk_lots (py_books s) !! l = Some r -> cl_kind r = kindPurchased \/ (exists id, cl_source r = source id) ->
              exists id p, py_purchases s !! id = Some p /\ cp_lot p = Some l;
  po_unfunded : forall id p, py_purchases s !! id = Some p -> cp_lot p = None -> cp_reversed p = 0 /\ cp_status p <> paymentSucceeded }.

(** ** Writes of one purchase *)

Lemma same_some_sym {A} `{EqDecision A} (a b : option A) : same_some a b = same_some b a.
Proof. destruct a as [x|], b as [y|]; try done. simpl. destruct (x == y) eqn:E, (y == x) eqn:E'; bools; congruence. Qed.

Lemma purchase_conflicts_sym p q : purchase_conflicts p q = purchase_conflicts q p.
Proof.
  unfold purchase_conflicts. rewrite (same_some_sym (ck_id <$> cp_checkout p)), (same_some_sym (cp_intent p)), (same_some_sym (cp_request p)),
    (Z.eqb_sym (cp_user p)), (andb_comm (pending_automatic p)). done.
Qed.

Lemma write_purchase_Ret id p s s' : write_purchase id p s = Ret s' ->
  s' = s <| py_purchases := <[id := p]> (py_purchases s) |> /\ purchase_checks p = true /\
  forall j q, py_purchases s !! j = Some q -> j <> id -> purchase_conflicts p q = false.
Proof.
  unfold write_purchase. destruct (_ && _) eqn:E; [|done]. intros [= <-]. apply andb_true_iff in E as [Hc Hf]. split; [done|]. split; [done|].
  intros j q Hj Hne. rewrite forallb_forall in Hf. specialize (Hf (j, q)). simpl in Hf.
  assert (Hin : In (j, q) (map_to_list (py_purchases s))) by by apply list_elem_of_In, elem_of_map_to_list.
  specialize (Hf Hin). apply orb_true_iff in Hf as [Hf%Z.eqb_eq|Hf]; [done|]. by apply negb_true_iff in Hf.
Qed.

Lemma update_purchase_Ret id f s s' : update_purchase id f s = Ret s' ->
  s' = s \/ exists p p', py_purchases s !! id = Some p /\ f p = Some p' /\ write_purchase id p' s = Ret s'.
Proof.
  unfold update_purchase. destruct (py_purchases s !! id) as [p|] eqn:E; cbn [mbind option_bind]; [|intros [= <-]; by left].
  destruct (f p) as [p'|] eqn:Ef; [|intros [= <-]; by left]. intros H. right. by exists p, p'.
Qed.

(** ** Changes of the books *)

Lemma lots_kept_same b b' : bk_lots b' = bk_lots b -> (forall u, is_Some (bk_accounts b !! u) -> is_Some (bk_accounts b' !! u)) -> lots_kept b b'.
Proof. intros El Ha. split; [|intros id l; rewrite El; congruence|done]. intros id l Hl. rewrite El, Hl. exists (cl_spent l). by destruct l. Qed.

Lemma SpendLots_kept deltas b : lots_kept b (SpendLots deltas b).
Proof.
  unfold SpendLots. enough (H : forall m : gmap uuid LotRow, (forall id l, bk_lots b !! id = Some l -> exists spent, m !! id = Some (l <| cl_spent := spent |>)) ->
    (forall id, bk_lots b !! id = None -> m !! id = None) ->
    let m' := fold_left (fun m d => alter (fun l => l <| cl_spent := cl_spent l + d.2 |>) d.1 m) deltas m in
    (forall id l, bk_lots b !! id = Some l -> exists spent, m' !! id = Some (l <| cl_spent := spent |>)) /\
    (forall id, bk_lots b !! id = None -> m' !! id = None)).
  { destruct (H (bk_lots b)) as [H1 H2]; [|done|].
    - intros id l Hl. exists (cl_spent l). rewrite Hl. by destruct l.
    - split; [done| |done]. simpl. intros id l Hl Hn. by rewrite (H2 id Hn) in Hl. }
  induction deltas as [|d deltas IH]; intros m Hs Hn; [done|]. simpl. apply IH.
  - intros id l Hl. destruct (Hs id l Hl) as [spent E]. destruct (decide (d.1 = id)) as [<-|].
    + rewrite lookup_alter_eq, E. simpl. by eexists.
    + rewrite lookup_alter_ne by done. eauto.
  - intros id Hi. destruct (decide (d.1 = id)) as [<-|]; [rewrite lookup_alter_eq; by rewrite Hn|rewrite lookup_alter_ne by done; auto].
Qed.

Lemma CoverHours_lots user covers b b' : CoverHours user covers b = Ret b' -> bk_lots b' = bk_lots b /\ bk_accounts b' = bk_accounts b.
Proof.
  revert b. induction covers as [|c covers IH]; intros b; [by intros [= <-]|]. intros (b1 & H1 & H)%go_bind_Ret.
  destruct (IH b1 H) as [-> ->]. unfold cover_row in H1. destruct (bk_hours b !! _) as [h|]; [|by injection H1 as <-].
  destruct (hour_checks _); [|done]. by injection H1 as <-.
Qed.

Lemma rollup_lots_kept user now b b' : rollup_account user now b = Ret b' -> lots_kept b b'.
Proof.
  unfold rollup_account. destruct (bk_accounts b !! user) as [a|]; [|done]. destruct (bk_balances b !! user); [|done].
  unfold settle. intros (b2 & Hc & H)%go_bind_Ret. destruct (fold_left _ _ _) as [bal recheck]. injection H as <-.
  apply CoverHours_lots in Hc as [El Ea]. destruct (SpendLots_kept (omap (fun l => if lt_spent l =? 0 then None else Some (lt_id l, lt_spent l))
    (settle_hours (ba_complimentary a) now (map uncovered_hour (UncoveredHours user b)) (pay_debts now (map open_lot (OpenLots user b)))).2) b) as [H1 H2 H3].
  split; simpl.
  - intros id l Hl. rewrite El. by apply H1.
  - intros id l Hl. rewrite El in Hl. by apply H2.
  - intros u Hu. rewrite Ea. by apply H3.
Qed.

Lemma insert_lot_Ret id l b b' : insert_lot id l b = Ret b' ->
  b' = b <| bk_lots := <[id := l]> (bk_lots b) |> /\ bk_lots b !! id = None /\ is_Some (bk_accounts b !! cl_user l) /\ lot_checks l = true.
Proof.
  unfold insert_lot. destruct (_ || _) eqn:E; [done|]. intros [= <-]. apply orb_false_iff in E as [[E1 E2]%orb_false_iff E3%negb_false_iff].
  apply bool_decide_eq_false in E1. apply negb_false_iff, bool_decide_eq_true in E2. split; [done|]. split; [|done].
  destruct (bk_lots b !! id) eqn:El; [|done]. destruct E1. by eexists.
Qed.

(** A new lot that is not a purchase's. *)
Lemma lots_kept_insert id l b b' :
  bk_lots b' = <[id := l]> (bk_lots b) -> bk_lots b !! id = None -> cl_kind l <> kindPurchased -> (forall p, cl_source l <> source p) ->
  (forall u, is_Some (bk_accounts b !! u) -> is_Some (bk_accounts b' !! u)) -> lots_kept b b'.
Proof.
  intros El Hi Hk Hs Ha. split; [| |done].
  - intros j r Hr. rewrite El, lookup_insert_ne by congruence. exists (cl_spent r). rewrite Hr. by destruct r.
  - intros j r Hr Hn. rewrite El in Hr. destruct (decide (id = j)) as [<-|]; [|rewrite lookup_insert_ne in Hr; congruence].
    rewrite lookup_insert_eq in Hr. by injection Hr as <-.
Qed.

Lemma purchase_source_head id : exists s, source id = String "p" s.
Proof. by eexists. Qed.

Lemma EnsureAccount_kept id user now b b' : EnsureAccount id user now b = Ret b' -> lots_kept b b' /\ is_Some (bk_accounts b' !! user).
Proof.
  unfold EnsureAccount. destruct (bk_accounts b !! user) as [a|] eqn:Ea; [intros [= <-]; split; [by apply lots_kept_same|by eexists]|].
  destruct (_ || _); [done|]. intros (b2 & (-> & Hn & _ & _)%insert_lot_Ret & [= <-])%go_bind_Ret. simpl in *. split.
  - eapply lots_kept_insert; simpl; [done|done|done|by intros p|]. intros u Hu. destruct (decide (user = u)) as [<-|].
    + rewrite lookup_insert_eq. by eexists.
    + by rewrite lookup_insert_ne.
  - rewrite lookup_insert_eq. by eexists.
Qed.

(** Credit of another kind, as an invoice grants. *)
Lemma addCredit_kept id g b r :
  cg_kind g <> kindPurchased -> (forall p, cg_source g <> source p) -> addCredit id g b = Ret r -> lots_kept b r.1.
Proof.
  intros Hk Hs. unfold addCredit, GrantCredit. simpl. destruct (LotBySource (cg_user g) (cg_source g) b) as [l|] eqn:El.
  - simpl. rewrite El. intros [= <-]. by apply lots_kept_same.
  - intros ([b1 o] & (b2 & (-> & Hn & _)%insert_lot_Ret & [= <- <-])%go_bind_Ret & [= <-])%go_bind_Ret. simpl.
    by eapply lots_kept_insert.
Qed.

(** ** What each step keeps *)

Lemma pay_ok_books s b : pay_ok s -> lots_kept (py_books s) b -> pay_ok (s <| py_books := b |>).
Proof.
  intros [H1 H2 H3 H4 H5 H6] [K1 K2 K3]. split; simpl; try done.
  - intros id p Hp. by eapply K3, H3.
  - intros id p l Hp Hl. destruct (H4 id p l Hp Hl) as (r & Hr & [F1 F2 F3 F4 F5 F6]). destruct (K1 l r Hr) as [spent E]. eexists. split; [exact E|]. by split.
  - intros l r Hr Hk. destruct (bk_lots (py_books s) !! l) as [r0|] eqn:E.
    + destruct (K1 l r0 E) as [spent E']. rewrite Hr in E'. injection E' as ->. by apply (H5 l r0 E).
    + destruct (K2 l r Hr E) as [N1 N2]. destruct Hk as [Hk|[p Hp]]; [done|by destruct (N2 p)].
Qed.

Lemma pay_ok_insert s s' id p : pay_ok s -> py_purchases s !! id = None -> write_purchase id p s = Ret s' ->
  cp_lot p = None -> cp_reversed p = 0 -> cp_status p <> paymentSucceeded -> is_Some (bk_accounts (py_books s) !! cp_user p) -> pay_ok s'.
Proof.
  intros [H1 H2 H3 H4 H5 H6] Hn (-> & Hc & Hx)%write_purchase_Ret Hl Hr Hst Ha. split; simpl.
  - intros j q. rewrite lookup_insert_Some. intros [[<- <-]|[_ Hq]]; eauto.
  - intros j k q r. rewrite !lookup_insert_Some. intros [[<- <-]|[Hj Hq]] [[<- <-]|[Hk Hr']] Hne; try done; eauto.
    rewrite purchase_conflicts_sym. eauto.
  - intros j q. rewrite lookup_insert_Some. intros [[<- <-]|[_ Hq]]; eauto.
  - intros j q l. rewrite lookup_insert_Some. intros [[<- <-]|[_ Hq]]; [congruence|eauto].
  - intros l r Hlr Hk. destruct (H5 l r Hlr Hk) as (j & q & Hq & Hlq). exists j, q. split; [|done]. rewrite lookup_insert_ne; [done|congruence].
  - intros j q. rewrite lookup_insert_Some. intros [[<- <-]|[_ Hq]]; eauto.
Qed.

(** A write of a purchase whose account and amount stay, with the lots as they
    then are. *)
Lemma pay_ok_write s b id p p' s' : pay_ok s -> py_purchases s !! id = Some p -> write_purchase id p' (s <| py_books := b |>) = Ret s' ->
  cp_user p' = cp_user p -> (forall u, is_Some (bk_accounts (py_books s) !! u) -> is_Some (bk_accounts b !! u)) ->
  (forall j q l r, py_purchases s !! j = Some q -> j <> id -> cp_lot q = Some l -> bk_lots (py_books s) !! l = Some r -> bk_lots b !! l = Some r) ->
  (forall l, cp_lot p' = Some l -> exists r, bk_lots b !! l = Some r /\ lot_of id p' r) ->
  (forall l r, bk_lots b !! l = Some r -> cl_kind r = kindPurchased \/ (exists i, cl_source r = source i) ->
     cp_lot p' = Some l \/ exists j q, j <> id /\ py_purchases s !! j = Some q /\ cp_lot q = Some l) ->
  (cp_lot p' = None -> cp_reversed p' = 0 /\ cp_status p' <> paymentSucceeded) -> pay_ok s'.
Proof.
  intros [H1 H2 H3 H4 H5 H6] Hp (-> & Hc & Hx)%write_purchase_Ret Hu Ha Hother Hown Hlots Hun. simpl in *. split; simpl.
  - intros j q. rewrite lookup_insert_Some. intros [[<- <-]|[_ Hq]]; eauto.
  - intros j k q r. rewrite !lookup_insert_Some. intros [[<- <-]|[Hj Hq]] [[<- <-]|[Hk Hr']] Hne; try done; eauto.
    rewrite purchase_conflicts_sym. eauto.
  - intros j q. rewrite lookup_insert_Some. intros [[<- <-]|[_ Hq]]; [rewrite Hu|]; eauto.
  - intros j q l. rewrite lookup_insert_Some. intros [[<- <-]|[Hj Hq]] Hl; [eauto|]. destruct (H4 j q l Hq Hl) as (r & Hr & Hf). eauto.
  - intros l r Hr Hk. destruct (Hlots l r Hr Hk) as [Hl|(j & q & Hj & Hq & Hl)].
    + exists id, p'. by rewrite lookup_insert_eq.
    + exists j, q. by rewrite lookup_insert_ne.
  - intros j q. rewrite lookup_insert_Some. intros [[<- <-]|[_ Hq]]; eauto.
Qed.

(** A write that leaves how a purchase is funded. *)
Lemma pay_ok_rewrite s s' id p p' : pay_ok s -> py_purchases s !! id = Some p -> write_purchase id p' s = Ret s' ->
  cp_user p' = cp_user p -> cp_amount p' = cp_amount p -> cp_lot p' = cp_lot p -> cp_reversed p' = cp_reversed p ->
  (cp_status p' = cp_status p \/ cp_status p' <> paymentSucceeded) -> pay_ok s'.
Proof.
  intros Hs Hp Hw Eu Ea El Er Est. apply (pay_ok_write s (py_books s) id p p'); [done|done| |done|done|done| | |].
  - by destruct s.
  - intros l Hl. rewrite El in Hl. destruct (po_funded s Hs id p l Hp Hl) as (r & Hr & [F1 F2 F3 F4 F5 F6]). exists r. split; [done|]. split; congruence.
  - intros l r Hr Hk. destruct (po_lots s Hs l r Hr Hk) as (j & q & Hq & Hl). destruct (decide (j = id)) as [->|]; [left; congruence|right; eauto].
  - intros Hn. rewrite El in Hn. destruct (po_unfunded s Hs id p Hp Hn) as [H1 H2]. rewrite Er. split; [done|]. destruct Est; congruence.
Qed.

Lemma pay_ok_update s s' id f : pay_ok s -> update_purchase id f s = Ret s' ->
  (forall p p', f p = Some p' -> cp_user p' = cp_user p /\ cp_amount p' = cp_amount p /\ cp_lot p' = cp_lot p /\ cp_reversed p' = cp_reversed p /\
     (cp_status p' = cp_status p \/ cp_status p' <> paymentSucceeded)) -> pay_ok s'.
Proof.
  intros Hs [->|(p & p' & Hp & Hf & Hw)]%update_purchase_Ret H; [done|]. destruct (H p p' Hf) as (? & ? & ? & ? & ?). by eapply pay_ok_rewrite.
Qed.

(** What [recordPayment] of a payment that succeeded writes. *)
Definition retained_of (row : CreditPurchase) (p : payment) : Z := Z.max 0 (cp_amount row - pm_retained p * nanosPerCent).

Lemma ReverseCredit_Ret reversed id b b' l : ReverseCredit reversed id b = Ret b' -> bk_lots b !! id = Some l ->
  bk_lots b' = <[id := l <| cl_reversed := Z.min reversed (cl_amount l) |>]> (bk_lots b) /\ bk_accounts b' = bk_accounts b.
Proof.
  unfold ReverseCredit. intros H Hl. rewrite Hl in H. destruct (Z.eqb_spec (cl_reversed l) (Z.min reversed (cl_amount l))) as [E|].
  - injection H as <-. split; [|done]. rewrite <- E. rewrite insert_id; [done|]. rewrite Hl. by destruct l.
  - destruct (negb _); [done|]. by injection H as <-.
Qed.

(** The lot a purchase that succeeded has, new or old, before its reversal. *)
Definition granted_lot (lot id : uuid) (row : CreditPurchase) (now : Z) (b b1 : books) (l : uuid) : Prop :=
  (cp_lot row = Some l /\ b1 = b) \/
  (cp_lot row = None /\ l = lot /\ bk_lots b !! lot = None /\ bk_accounts b1 = bk_accounts b /\
   bk_lots b1 = <[lot := mkLot (cp_user row) kindPurchased (source id) (cp_amount row) 0 0 now None]> (bk_lots b)).

Lemma addCredit_new lot id row now b r :
  (forall l x, bk_lots b !! l = Some x -> cl_source x <> source id) ->
  addCredit lot (mkGrant (cp_user row) kindPurchased (source id) (cp_amount row) now None) b = Ret r ->
  r.2 = lot /\ bk_lots b !! lot = None /\ bk_accounts r.1 = bk_accounts b /\
  bk_lots r.1 = <[lot := mkLot (cp_user row) kindPurchased (source id) (cp_amount row) 0 0 now None]> (bk_lots b).
Proof.
  intros Hsrc. unfold addCredit, GrantCredit. simpl. destruct (LotBySource (cp_user row) (source id) b) as [l|] eqn:El.
  - unfold LotBySource in El. destruct (List.find _ _) as [[l' x]|] eqn:Ef; [|done]. apply List.find_some in Ef as [Hin Hx]. bools.
    apply list_elem_of_In, lots_of_elem in Hin as [Hin _]. by destruct (Hsrc l' x Hin).
  - intros ([b1 o] & (b2 & (-> & Hn & _)%insert_lot_Ret & [= <- <-])%go_bind_Ret & [= <-])%go_bind_Ret. done.
Qed.

Context (Htext : forall i j, uuid_text i = uuid_text j -> i = j).

Lemma source_inj i j : source i = source j -> i = j.
Proof. unfold purchase_source. intros H. simpl in H. repeat (injection H as H). auto. Qed.

(** No lot has the source of a purchase that was not funded. *)
Lemma unfunded_source s id p l x : pay_ok s -> py_purchases s !! id = Some p -> cp_lot p = None ->
  bk_lots (py_books s) !! l = Some x -> cl_source x <> source id.
Proof using Htext.
  intros Hs Hp Hn Hx E. destruct (po_lots s Hs l x Hx (or_intror (ex_intro _ id E))) as (j & q & Hq & Hl).
  destruct (po_funded s Hs j q l Hq Hl) as (r & Hr & Hf). assert (j = id) as ->; [|congruence].
  apply source_inj. rewrite <- (lf_source _ _ _ Hf). congruence.
Qed.

Lemma pay_ok_succeeded s id row lot l b1 b2 rev a s' :
  pay_ok s -> py_purchases s !! id = Some row -> (exists now, granted_lot lot id row now (py_books s) b1 l) ->
  (forall r, bk_lots b1 !! l = Some r -> bk_lots b2 = <[l := r <| cl_reversed := Z.min rev (cl_amount r) |>]> (bk_lots b1)) ->
  bk_accounts b2 = bk_accounts b1 -> sp_Reversed a = rev -> (cp_lot row = None -> sp_Lot a = Some l) ->
  write_purchase id (settled_purchase a row) (s <| py_books := b2 |>) = Ret s' -> pay_ok s'.
Proof using Htext.
  intros Hs Hp [now Hg] Hrev Ha2 Er El Hw.
  assert (Hlot : cp_lot (settled_purchase a row) = Some l).
  { unfold settled_purchase. simpl. destruct Hg as [[-> _]|[Hn _]]; [done|]. rewrite Hn. by apply El. }
  assert (Hl1 : exists r, bk_lots b1 !! l = Some r /\ cl_user r = cp_user row /\ cl_kind r = kindPurchased /\ cl_source r = source id /\ cl_amount r = cp_amount row /\ cl_expires r = None).
  { destruct Hg as [[Hc ->]|(Hn & -> & _ & _ & E1)].
    - destruct (po_funded s Hs id row l Hp Hc) as (r & Hr & []). by exists r.
    - eexists. split; [rewrite E1; apply lookup_insert_eq|done]. }
  destruct Hl1 as (r & Hr & F1 & F2 & F3 & F4 & F5). specialize (Hrev r Hr).
  assert (Hold : forall l' x, bk_lots (py_books s) !! l' = Some x -> l' <> l -> bk_lots b2 !! l' = Some x).
  { intros l' x Hx Hne. rewrite Hrev, lookup_insert_ne by done. destruct Hg as [[_ ->]|(_ & -> & _ & _ & ->)]; [done|]. by rewrite lookup_insert_ne. }
  apply (pay_ok_write s b2 id row (settled_purchase a row)); [done|done|done|done| | | | |].
  - intros u Hu. rewrite Ha2. destruct Hg as [[_ ->]|(_ & _ & _ & -> & _)]; done.
  - intros j q l' x Hq Hj Hlq Hx. apply Hold; [done|]. intros ->. destruct (po_funded s Hs j q l Hq Hlq) as (y & Hy & Hf).
    destruct Hg as [[Hc _]|(_ & -> & Hnone & _)]; [|congruence]. destruct (po_funded s Hs id row l Hp Hc) as (z & Hz & Hf').
    apply Hj, source_inj. rewrite <- (lf_source _ _ _ Hf), <- (lf_source _ _ _ Hf'). congruence.
  - intros l' Hl'. rewrite Hlot in Hl'. injection Hl' as <-. eexists. split; [rewrite Hrev; apply lookup_insert_eq|].
    split; simpl; try done. by rewrite Er, F4.
  - intros l' x Hx Hk. destruct (decide (l' = l)) as [->|Hne]; [by left|]. right. rewrite Hrev, lookup_insert_ne in Hx by done.
    assert (Hx0 : bk_lots (py_books s) !! l' = Some x).
    { destruct Hg as [[_ ->]|(_ & -> & _ & _ & E1)]; [done|]. by rewrite E1, lookup_insert_ne in Hx. }
    destruct (po_lots s Hs l' x Hx0 Hk) as (j & q & Hq & Hlq). exists j, q. split; [|done]. intros ->.
    destruct Hg as [[Hc _]|(Hn & _)]; congruence.
  - congruence.
Qed.

(** Pausing reload writes accounts only. *)
Lemma accounts_of_kept f user s : lots_kept (py_books s) (py_books (accounts_of f user s)).
Proof. apply lots_kept_same; [done|]. intros u. simpl. by rewrite is_Some_alter. Qed.

Lemma pay_ok_accounts f user s : pay_ok s -> pay_ok (accounts_of f user s).
Proof. intros Hs. apply (pay_ok_books s _ Hs), accounts_of_kept. Qed.

Lemma update_purchase_some id f s p p' : py_purchases s !! id = Some p -> f p = Some p' -> update_purchase id f s = write_purchase id p' s.
Proof. intros Hp Hf. unfold update_purchase. rewrite Hp. cbn [mbind option_bind]. by rewrite Hf. Qed.

Lemma SettlePurchase_Ret id a s s' row : SettlePurchase id a s = Ret s' -> py_purchases s !! id = Some row ->
  write_purchase id (settled_purchase a row) s = Ret s'.
Proof. intros H Hr. rewrite <- H. symmetry. by apply (update_purchase_some _ _ _ row). Qed.

(** A succeeded payment: the purchase has a lot, and the lot is reversed by
    what is not retained. *)
Lemma record_succeeded lot id row p now s s1 :
  pay_ok s -> py_purchases s !! id = Some row ->
  (r <-! match cp_lot row with
         | Some l => Ret (py_books s, l, None, None)
         | None => g <-! addCredit lot (mkGrant (cp_user row) kindPurchased (source id) (cp_amount row) now None) (py_books s);
                   Ret (g.1, g.2, Some g.2, Some now)
         end;
   let '(b, l, granted, funded) := r in
   b <-! (if negb (retained_of row p =? cp_reversed row) then ReverseCredit (retained_of row p) l b else Ret b);
   SettlePurchase id (mkSettle (pm_status p) (if pm_intent p != "" then Some (pm_intent p) else None) granted (retained_of row p) funded
     (now + settledRecheck)) (s <| py_books := b |>)) = Ret s1 ->
  pay_ok s1 /\ exists row' l x, py_purchases s1 !! id = Some row' /\ cp_lot row' = Some l /\ cp_status row' = pm_status p /\
    bk_lots (py_books s1) !! l = Some x /\ lot_of id row' x /\ cp_reversed row' = retained_of row p /\ cp_amount row' = cp_amount row.
Proof using Htext.
  intros Hs Hp ([[[b1 l] granted] funded] & Hg & (b2 & Hrev & Hset)%go_bind_Ret)%go_bind_Ret.
  assert (Hgl : granted_lot lot id row now (py_books s) b1 l /\ (cp_lot row = None -> granted = Some l)).
  { destruct (cp_lot row) as [l0|] eqn:E; [injection Hg as <- <- <- <-; split; [left; by rewrite E|done]|].
    apply go_bind_Ret in Hg as (g & Hg & [= <- <- <- <-]). split; [|done]. right.
    by destruct (addCredit_new lot id row now _ g (fun l x => unfunded_source s id row l x Hs Hp E) Hg) as (E1 & E2 & E3 & E4). }
  destruct Hgl as [Hgl Hgr]. apply (SettlePurchase_Ret _ _ _ _ row) in Hset; [|done].
  assert (Hlot : exists r, bk_lots b1 !! l = Some r /\ cl_reversed r = Z.min (cp_reversed row) (cl_amount r)).
  { destruct Hgl as [[Hc ->]|(Hn & -> & _ & _ & E1)].
    - destruct (po_funded s Hs id row l Hp Hc) as (r & Hr & [_ _ _ Ea _ Er]). exists r. split; [done|]. by rewrite Ea.
    - eexists. split; [rewrite E1; apply lookup_insert_eq|]. simpl. destruct (po_unfunded s Hs id row Hp Hn) as [-> _].
      pose proof (po_checks s Hs id row Hp) as Hck. unfold purchase_checks in Hck. bools. lia. }
  destruct Hlot as (r & Hr & Hrr).
  assert (Hb2 : bk_lots b2 = <[l := r <| cl_reversed := Z.min (retained_of row p) (cl_amount r) |>]> (bk_lots b1) /\ bk_accounts b2 = bk_accounts b1).
  { destruct (Z.eqb_spec (retained_of row p) (cp_reversed row)) as [E|]; simpl in Hrev; [|by eapply ReverseCredit_Ret].
    injection Hrev as <-. split; [|done]. rewrite E, <- Hrr, insert_id; [done|]. rewrite Hr. by destruct r. }
  destruct Hb2 as [Hb2 Ha2]. set (a := mkSettle _ _ _ _ _ _) in Hset.
  assert (Hok : pay_ok s1).
  { eapply (pay_ok_succeeded s id row lot l b1 b2 (retained_of row p) a s1); eauto. intros r' Hr'. by assert (r' = r) as -> by congruence. }
  split; [done|]. apply write_purchase_Ret in Hset as (-> & _ & _). simpl.
  assert (Hl : cp_lot (settled_purchase a row) = Some l).
  { unfold settled_purchase. simpl. destruct Hgl as [[-> _]|[Hn _]]; [done|]. rewrite Hn. by apply Hgr. }
  destruct (po_funded _ Hok id (settled_purchase a row) l) as (x & Hx & Hf); [simpl; apply lookup_insert_eq|done|].
  exists (settled_purchase a row), l, x. split; [apply lookup_insert_eq|]. repeat (split; [assumption || reflexivity|]). reflexivity.
Qed.

Lemma record_tx_ok lot id p now s s' : pay_ok s -> record_tx uuid_text lot id p now s = Ret s' -> pay_ok s'.
Proof using Htext.
  intros Hs. unfold record_tx. destruct (py_purchases s !! id) as [row|] eqn:Hp; [|done].
  unfold recordPayment. intros (s1 & H1 & [= <-])%go_bind_Ret.
  assert (Hok : pay_ok s1).
  { destruct (pm_status p == paymentSucceeded) eqn:Est; [by eapply record_succeeded|]. apply (SettlePurchase_Ret _ _ _ _ row) in H1; [|done].
    eapply pay_ok_rewrite; [done|done|exact H1|done|done|by destruct row as [? ? ? ? ? ? ? ? ? [] ?]|done|]. right. simpl. by bools. }
  destruct (cp_kind row == purchaseAutomatic); [|done]. destruct (pm_status p); try done; by apply pay_ok_accounts.
Qed.

Lemma PurchaseByRequest_none user request s : PurchaseByRequest user request s = None ->
  forall id p, py_purchases s !! id = Some p -> cp_user p = user -> cp_request p <> Some request.
Proof.
  unfold PurchaseByRequest. intros H id p Hp Hu Hr. pose proof (List.find_none _ _ H (id, p)) as Hn. simpl in Hn.
  rewrite Hu, Z.eqb_refl, bool_decide_eq_true_2 in Hn by done. discriminate Hn. by apply list_elem_of_In, elem_of_map_to_list.
Qed.

Lemma pay_step_ok s s' : pay_ok s -> pay_step s s' -> pay_ok s'.
Proof using Htext.
  intros Hs Hst. destruct Hst as [fresh id user req now s' r H|id c next s' H|id intent s' H|lot id p now s' Hr H|id next s' H|id user now s' started H|b H].
  - unfold buy_tx in H. apply go_bind_Ret in H as (b & Hb & H). destruct (EnsureAccount_kept _ _ _ _ _ Hb) as [Hk Ha].
    pose proof (pay_ok_books s b Hs Hk) as Hs1. destruct (account_of user _) as [a|] eqn:Ea; [|done].
    destruct (ba_card a), (ba_customer a); try done. apply go_bind_Ret in H as (s1 & Hi & H).
    assert (Hok : pay_ok s1).
    { unfold InsertManualPurchase in Hi. destruct (PurchaseByRequest _ _ _); [by injection Hi as <-|]. destruct (bool_decide _) eqn:E; [done|].
      apply bool_decide_eq_false in E. eapply pay_ok_insert; [exact Hs1| |exact Hi|done|done|discriminate|exact Ha]. by apply eq_None_not_Some. }
    destruct (PurchaseByRequest _ _ s1) as [[pid p]|]; [|done]. destruct (_ || _); [done|]. by injection H as <- _.
  - eapply pay_ok_update; [done|exact H|]. intros p p' Hf. simpl in Hf. destruct (cp_checkout p); [discriminate|]. injection Hf as <-. repeat (split; [reflexivity|]). by left.
  - eapply pay_ok_update; [done|exact H|]. intros p p' Hf. simpl in Hf. destruct (cp_intent p); [discriminate|]. injection Hf as <-. repeat (split; [reflexivity|]). by left.
  - by eapply record_tx_ok.
  - eapply pay_ok_update; [done|exact H|]. intros p p' Hf. injection Hf as <-. repeat (split; [reflexivity|]). by left.
  - unfold startReload in H. apply go_bind_Ret in H as (b & Hb & H). pose proof (pay_ok_books s b Hs (rollup_lots_kept _ _ _ _ Hb)) as Hs1.
    destruct (ReloadAmount user _) as [cents|] eqn:Er; [|by injection H as <- _]. unfold InsertAutomaticPurchase in H.
    destruct (automatic_pending _ _); [by injection H as <- _|]. destruct (bool_decide _) eqn:E; [done|]. apply bool_decide_eq_false in E.
    apply go_bind_Ret in H as (s1 & Hw & [= <- _]). eapply pay_ok_insert; [exact Hs1| |exact Hw|done|done|discriminate|]; [by apply eq_None_not_Some|].
    unfold ReloadAmount, account_of in Er. simpl in *. destruct (bk_accounts b !! user); [by eexists|done].
  - by apply pay_ok_books.
Qed.

Lemma pay_reach_ok s : pay_reach s -> pay_ok s.
Proof using Htext.
  induction 1 as [|s s' _ IH Hst]; [|by eapply pay_step_ok]. split; simpl; intros *; rewrite ?lookup_empty; done.
Qed.

(** ** The handlers are steps *)

Lemma ran_reach (x : go billing_error payments) s : pay_reach s -> (forall s', x = Ret s' -> pay_step s s') -> pay_reach (ran s x).1.
Proof. intros Hs H. unfold ran. destruct x; simpl; [|done..]. eapply pay_more; [exact Hs|]. by apply H. Qed.

Lemma paymentOf_retained st i p : paymentOf st i = Some p -> 0 <= pm_retained p.
Proof.
  unfold paymentOf. destruct (intent_status i); [|done]. cbn [mbind option_bind]. destruct (match pi_Charge i with None => _ | _ => _ end); [|done].
  cbn [mbind option_bind]. intros [= <-]. simpl. lia.
Qed.

Lemma payment_by_retained st intent p : payment_by st intent = Some p -> 0 <= pm_retained p.
Proof. unfold payment_by. destruct (RetrieveIntent st intent) as [i|]; [|done]. apply paymentOf_retained. Qed.

Lemma checkoutPayment_retained st session p : checkoutPayment st session = Some p -> 0 <= pm_retained p.
Proof.
  unfold checkoutPayment. destruct (RetrieveCheckout st session) as [c|]; [|done]. cbn [mbind option_bind].
  destruct (cs_Intent c) as [i|]; [destruct (i != ""); [apply payment_by_retained|]|]; intros [= <-]; done.
Qed.

Lemma chargeCard_retained st customer id cents p : chargeCard uuid_text st customer id cents = Some p -> 0 <= pm_retained p.
Proof.
  unfold chargeCard. destruct (DefaultCard st customer) as [[method|]|]; [| |done]; cbn [mbind option_bind]; [|by intros [= <-]].
  destruct (CreateIntent _ _ _ _ _); [apply paymentOf_retained|by intros [= <-]|done].
Qed.

Lemma settlePurchase_reach st lot id now s : pay_reach s -> pay_reach (settlePurchase uuid_text st lot id now s).1.
Proof.
  intros Hs. unfold settlePurchase. destruct (py_purchases s !! id) as [row|]; [|done]. destruct (_ ≫= _) as [customer|]; [|done].
  set (record := fun (p : payment) (s : payments) =>
    if mismatched uuid_text id row customer p then (s, Some PaymentsFailed) else ran s (record_tx uuid_text lot id p now s)).
  assert (Hrec : forall p s, pay_reach s -> 0 <= pm_retained p -> pay_reach (record p s).1).
  { intros p s0 Hs0 Hp. unfold record. destruct (mismatched _ _ _ _ _); [done|]. apply ran_reach; [done|]. intros s1 H. by eapply pay_record. }
  cbv zeta. destruct (cp_intent row) as [intent|].
  { destruct (payment_by st intent) as [p|] eqn:E; [|done]. apply Hrec; [done|by eapply payment_by_retained]. }
  destruct (cp_checkout row) as [c|].
  { destruct (checkoutPayment st (ck_id c)) as [p|] eqn:E; [|done]. apply Hrec; [done|by eapply checkoutPayment_retained]. }
  destruct (cp_status row != paymentPending); [done|]. destruct (cp_kind row).
  - destruct (_ >? _); [by apply Hrec|]. destruct (CreateCheckout _ _ _ _ _ _) as [c|]; [|done]. apply ran_reach; [done|]. intros s1 H. by eapply pay_checkout.
  - destruct (paymentOfPurchase uuid_text st id) as [[found|]|]; [| |done].
    + destruct (PurchaseIntentFound id found s) as [s1|e| |] eqn:Ef; [|done..].
      assert (Hs1 : pay_reach s1) by (eapply pay_more; [done|by eapply pay_found]).
      destruct (payment_by st found) as [p|] eqn:E; [|done]. apply Hrec; [done|by eapply payment_by_retained].
    + destruct (_ >? _); [by apply Hrec|]. destruct (negb _); [by apply Hrec|].
      destruct (chargeCard uuid_text st customer id _) as [p|] eqn:E; [|done]. apply Hrec; [done|by eapply chargeCard_retained].
Qed.

Lemma BuyCredit_reach st fresh id user req now s : pay_reach s -> pay_reach (BuyCredit st fresh id user req now s).1.
Proof.
  intros Hs. unfold BuyCredit. destruct (buy_tx fresh id user req now s) as [[s1 [[pid p] customer]]|e| |] eqn:E; [|done..].
  assert (Hs1 : pay_reach s1) by (eapply pay_more; [done|by eapply pay_buy]). destruct (_ && _); [|done].
  destruct (CreateCheckout _ _ _ _ _ _) as [c|]; [|done]. destruct (SetCheckout _ _ _ _) as [s2|e| |] eqn:Ec; [|done..].
  simpl. eapply pay_more; [done|by eapply pay_checkout].
Qed.

Lemma SweepPurchases_reach st fresh now s : pay_reach s -> pay_reach (SweepPurchases uuid_text st fresh now s).1.
Proof.
  unfold SweepPurchases. generalize (DuePurchases paymentSweepBatch now s). intros ids. revert s. induction ids as [|id ids IH]; intros s Hs; [done|].
  cbn [sweep]. pose proof (settlePurchase_reach st (fresh id) id now s Hs) as H1. destruct (settlePurchase uuid_text st (fresh id) id now s) as [s1 [e|]]; simpl in *; [|auto].
  pose proof (ran_reach (RetryPurchase id (now + 5 * minute) s1) s1 H1 (fun s' H => pay_retry s1 id _ s' H)) as H2.
  destruct (ran s1 _) as [s2 [e2|]]; simpl in *; auto.
Qed.

Lemma Reload_reach st fresh now s : pay_reach s -> pay_reach (Reload uuid_text st fresh now s).1.1.
Proof.
  unfold Reload. generalize (DueReloads reloadBatch s), 0%nat. intros users. revert s. induction users as [|user users IH]; intros s n Hs; [done|].
  cbn [reload]. destruct (startReload (fresh user) user now s) as [[s1 []]|e| |] eqn:E; [| |done..].
  - apply IH, settlePurchase_reach. eapply pay_more; [done|by eapply pay_reload].
  - apply IH. eapply pay_more; [done|by eapply pay_reload].
Qed.

(** ** Theorems *)

(** C9: a purchase is funded once: in every reachable state a purchase that
    succeeded has a lot, the lot is its account's, is granted its whole amount
    and is reversed by exactly what the purchase's row records as reversed, at
    most that amount; no two purchases share a lot; and every lot of bought
    credit is some purchase's.  This holds whatever Stripe answered, however
    old the answer was when it was recorded, and however often a delivery
    came. What the row records is the reading recorded last, so it is what was
    refunded or disputed only when that reading is current. *)
Theorem purchases_fund_once (s : payments) :
  pay_reach s ->
  (forall id p, py_purchases s !! id = Some p -> cp_status p = paymentSucceeded -> is_Some (cp_lot p)) /\
  (forall id p l, py_purchases s !! id = Some p -> cp_lot p = Some l ->
     exists r, bk_lots (py_books s) !! l = Some r /\ lot_of id p r) /\
  (forall i j p q l, py_purchases s !! i = Some p -> py_purchases s !! j = Some q -> cp_lot p = Some l -> cp_lot q = Some l -> i = j) /\
  (forall l r, bk_lots (py_books s) !! l = Some r -> cl_kind r = kindPurchased -> exists id p, py_purchases s !! id = Some p /\ cp_lot p = Some l).
Proof using Htext.
  intros Hs%pay_reach_ok. split; [|split; [exact (po_funded s Hs)|split]].
  - intros id p Hp Hst. destruct (cp_lot p) eqn:E; [by eexists|]. by destruct (po_unfunded s Hs id p Hp E).
  - intros i j p q l Hp Hq Hl Hm. destruct (po_funded s Hs i p l Hp Hl) as (r & Hr & Hf), (po_funded s Hs j q l Hq Hm) as (r' & Hr' & Hf').
    apply source_inj. rewrite <- (lf_source _ _ _ Hf), <- (lf_source _ _ _ Hf'). congruence.
  - intros l r Hr Hk. apply (po_lots s Hs l r Hr). by left.
Qed.

(** A write of a row that keeps its request, its checkout and its account and
    is not a pending automatic payment commits, when its payment is its own. *)
Lemma write_settled s b id row a : pay_ok s -> py_purchases s !! id = Some row -> 0 <= sp_Reversed a -> sp_Status a <> paymentPending ->
  (forall i j q, sp_Intent a = Some i -> py_purchases s !! j = Some q -> j <> id -> cp_intent q <> Some i) ->
  exists s', write_purchase id (settled_purchase a row) (s <| py_books := b |>) = Ret s'.
Proof.
  intros Hs Hp Hr Hst Hi. unfold write_purchase. set (p' := settled_purchase a row).
  assert (E : purchase_checks p' && forallb (fun r => (r.1 =? id) || negb (purchase_conflicts p' r.2)) (map_to_list (py_purchases s)) = true); [|simpl; rewrite E; by eexists].
  apply andb_true_iff. split.
  - pose proof (po_checks s Hs id row Hp) as Hc. unfold purchase_checks in *. simpl in *. apply andb_true_iff in Hc as [[-> _]%andb_true_iff ->].
    by rewrite (proj2 (Z.leb_le 0 _) Hr).
  - apply forallb_forall. intros [j q] Hq%list_elem_of_In%elem_of_map_to_list. simpl. destruct (Z.eqb_spec j id) as [|Hne]; [done|]. simpl. apply negb_true_iff.
    pose proof (po_apart s Hs id j row q Hp Hq Hne) as Hx. unfold purchase_conflicts in *. simpl. apply orb_false_iff in Hx as [[-> Hx2]%orb_false_iff Hx3]. simpl.
    assert (same_some (if cp_intent row is Some i then Some i else sp_Intent a) (cp_intent q) = false) as ->.
    { destruct (cp_intent row) as [i|]; [done|]. destruct (sp_Intent a) as [i|] eqn:Ei; [|done]. destruct (cp_intent q) as [k|] eqn:Ek; [|done]. simpl.
      destruct (i == k) eqn:E; [|done]. bools. subst. by destruct (Hi k j q eq_refl Hq Hne). }
    simpl. apply andb_false_iff in Hx3 as [->|[Hx3 _]%orb_false_iff]; [done|]. rewrite Hx3. simpl. unfold pending_automatic. simpl.
    destruct (sp_Status a); try done; by rewrite andb_false_r; simpl; rewrite andb_false_r.
Qed.

Lemma ReverseCredit_commits reversed l b r :
  bk_lots b !! l = Some r -> 0 < cl_amount r -> 0 <= reversed -> cl_expires r = None -> exists b', ReverseCredit reversed l b = Ret b'.
Proof.
  intros Hr Ha Hrev He. unfold ReverseCredit. rewrite Hr. destruct (_ =? _); [by eexists|]. unfold lot_checks. simpl. rewrite He.
  rewrite (proj2 (Z.ltb_lt 0 _) Ha), (proj2 (Z.leb_le 0 (Z.min reversed (cl_amount r)))), (proj2 (Z.leb_le (Z.min reversed (cl_amount r)) (cl_amount r))) by lia.
  rewrite andb_false_r. by eexists.
Qed.

(** The grant of a payment that succeeded commits, and leaves its lot. *)
Lemma grant_commits s lot id row now : pay_ok s -> py_purchases s !! id = Some row -> (cp_lot row = None -> bk_lots (py_books s) !! lot = None) ->
  exists b1 granted funded,
    match cp_lot row with
    | Some l => Ret (py_books s, l, None, None)
    | None => g <-! addCredit lot (mkGrant (cp_user row) kindPurchased (source id) (cp_amount row) now None) (py_books s); Ret (g.1, g.2, Some g.2, Some now)
    end = Ret (b1, default lot (cp_lot row), granted, funded) /\
    exists r, bk_lots b1 !! default lot (cp_lot row) = Some r /\ cl_amount r = cp_amount row /\ cl_expires r = None.
Proof using Htext.
  intros Hs Hp Hlot. pose proof (po_checks s Hs id row Hp) as Hck. unfold purchase_checks in Hck.
  apply andb_true_iff in Hck as [[Hamt%Z.ltb_lt _]%andb_true_iff _].
  destruct (cp_lot row) as [l|] eqn:El.
  - destruct (po_funded s Hs id row l Hp El) as (r & Hr & []). exists (py_books s), None, None. split; [done|]. by exists r.
  - specialize (Hlot eq_refl). unfold addCredit, GrantCredit. simpl.
      destruct (LotBySource (cp_user row) (source id) (py_books s)) as [l|] eqn:Es.
      { unfold LotBySource in Es. destruct (List.find _ _) as [[l' x]|] eqn:Ef; [|done]. apply List.find_some in Ef as [Hin Hx]. bools.
        apply list_elem_of_In, lots_of_elem in Hin as [Hin _]. by destruct (unfunded_source s id row l' x Hs Hp El Hin). }
      unfold insert_lot. simpl. rewrite Hlot, (bool_decide_eq_true_2 _ (po_account s Hs id row Hp)). rewrite bool_decide_eq_false_2 by (by intros []).
      unfold lot_checks. simpl. rewrite (proj2 (Z.ltb_lt 0 _) Hamt), (proj2 (Z.leb_le 0 (cp_amount row))) by lia. simpl.
      do 3 eexists. split; [reflexivity|]. eexists. split; [apply lookup_insert_eq|done].
Qed.

(** C21: a payment that succeeded is always recorded, unless it is another
    purchase's, and afterwards the purchase's lot holds exactly what Stripe
    retains of it, up to the amount that was bought; recording it again, or a
    refund of it later, moves the same lot. *)
Theorem payment_credits_what_is_retained (s : payments) (lot id : uuid) (row : CreditPurchase) (p : payment) (now : Z) :
  pay_reach s -> py_purchases s !! id = Some row -> pm_status p = paymentSucceeded -> 0 <= pm_retained p ->
  (cp_lot row = None -> bk_lots (py_books s) !! lot = None) ->
  (forall j q, py_purchases s !! j = Some q -> j <> id -> cp_intent q <> Some (pm_intent p)) ->
  exists s' row' l x, record_tx uuid_text lot id p now s = Ret s' /\ py_purchases s' !! id = Some row' /\ cp_status row' = paymentSucceeded /\
    cp_lot row' = Some l /\ l = default lot (cp_lot row) /\ bk_lots (py_books s') !! l = Some x /\
    cl_amount x - cl_reversed x = Z.min (cp_amount row) (pm_retained p * nanosPerCent).
Proof using Htext.
  intros Hs%pay_reach_ok Hp Hst Hret Hlot Hint. pose proof (po_checks s Hs id row Hp) as Hck. unfold purchase_checks in Hck.
  apply andb_true_iff in Hck as [[Hamt%Z.ltb_lt _]%andb_true_iff _].
  unfold record_tx. rewrite Hp. unfold recordPayment. rewrite Hst. cbn [bool_decide]. simpl (paymentSucceeded == paymentSucceeded).
  fold (retained_of row p). set (a := fun granted funded => mkSettle paymentSucceeded (if pm_intent p != "" then Some (pm_intent p) else None) granted (retained_of row p) funded (now + settledRecheck)).
  assert (Hrev : 0 <= retained_of row p) by (unfold retained_of; lia).
  destruct (grant_commits s lot id row now Hs Hp Hlot) as (b1 & granted & funded & Eg & r & Hr & Ha & He). 
  assert (Hb2 : exists b2, (if negb (retained_of row p =? cp_reversed row) then ReverseCredit (retained_of row p) (default lot (cp_lot row)) b1 else Ret b1) = Ret b2).
  { destruct (negb (_ =? _)); [|exists b1; reflexivity]. apply (ReverseCredit_commits _ _ _ r Hr); [lia|done|done]. }
  destruct Hb2 as [b2 Eb2]. destruct (write_settled s b2 id row (a granted funded)) as [s1 Hw]; [done|done|done|done| |].
  { intros i j q Hi Hq Hne. simpl in Hi. destruct (pm_intent p != ""); [|done]. injection Hi as <-. by eapply Hint. }
  assert (Hset : SettlePurchase id (a granted funded) (s <| py_books := b2 |>) = Ret s1) by (rewrite <- Hw; by apply (update_purchase_some _ _ _ row)).
  destruct (record_succeeded lot id row p now s s1 Hs Hp) as (_ & row' & l & x & H1 & H2 & H3 & H4 & [F1 F2 F3 F4 F5 F6] & H6 & H7).
  { rewrite Eg. simpl. rewrite Eb2, Hst. simpl. exact Hset. }
  assert (El : l = default lot (cp_lot row)).
  { apply write_purchase_Ret in Hw as (-> & _ & _). simpl in H1. rewrite lookup_insert_eq in H1. injection H1 as <-. simpl in H2.
    clear -H2 Eg. destruct (cp_lot row) as [l0|]; simpl in *; [by injection H2 as <-|].
    apply go_bind_Ret in Eg as (g & _ & E). injection E as _ E <- _. congruence. }
  rewrite Eg. cbn [go_bind]. rewrite Eb2. cbn [go_bind]. unfold a in Hset. rewrite Hset. cbn [go_bind].
  exists s1, row', l, x. split; [by destruct (cp_kind row == purchaseAutomatic)|]. rewrite H3, Hst. repeat (split; [done|]).
  rewrite F6, F4, H6, H7. unfold retained_of.
  assert (0 <= pm_retained p * nanosPerCent) by (apply Z.mul_nonneg_nonneg; [done|vm_compute; discriminate]). lia.
Qed.

(** ** Findings *)

(** A purchase that succeeded is never due again, so the sweep reads no refund
    or dispute that no delivery reported. *)
Theorem settled_purchases_are_not_swept (limit : nat) (now : Z) (s : payments) (id : uuid) (p : CreditPurchase) :
  py_purchases s !! id = Some p -> cp_status p = paymentSucceeded -> id ∉ DuePurchases limit now s.
Proof.
  intros Hp Hst Hin. unfold DuePurchases in Hin. apply elem_of_take in Hin as (n & Hn & _). apply list_elem_of_lookup_2 in Hn.
  apply list_elem_of_In, in_map_iff in Hn as ([j q] & <- & Hq). rewrite sort_by_In in Hq. apply List.filter_In in Hq as [Hq Hd].
  apply list_elem_of_In, elem_of_map_to_list in Hq. simpl in *. bools. congruence.
Qed.

End Purchases.

(** ** The credit an invoice includes *)

Section Invoice.
Context (inv : invoice) (start end_ : Z) (Hd : 0 < micros (end_ - start)).

(** A line of the period, and the credit its plan includes. *)
Definition in_period (l : invoiceLine) : bool := (li_periodEnd l =? end_) && (start <=? li_periodStart l).
Definition included_of (l : invoiceLine) : Z := match planOfTerms (li_terms l) with Some p => pn_IncludedNanos p | None => 0 end.
Definition bought (l : invoiceLine) : bool := in_period l && (0 <? li_amount l).

Lemma included_nonneg l : 0 <= included_of l.
Proof. unfold included_of. destruct (li_terms l); vm_compute; discriminate. Qed.

Lemma rat_le_one x : x <= micros (end_ - start) -> QArith_base.Qle (rat x (micros (end_ - start))) (rat 1 1).
Proof using Hd. intros H. unfold rat, QArith_base.Qle. simpl. rewrite Z2Pos.id by done. lia. Qed.

Lemma share_credit_le share n : 0 <= n -> QArith_base.Qle share (rat 1 1) -> QArith_base.Qle (QArith_base.Qmult share (rat n 1)) (rat n 1).
Proof. unfold QArith_base.Qle. destruct share as [x d]. simpl. rewrite Pos.mul_1_r. intros Hn H. nia. Qed.

Lemma micros_mono a b : a <= b -> micros a <= micros b.
Proof. intros H. unfold micros. apply Z.quot_le_mono; lia. Qed.

Record included_ok (bound : Z) (acc : included) : Prop := {
  io_sum : QArith_base.Qle (ic_sum acc) (rat bound 1);
  io_effective : ic_positive acc = true -> start <= ic_effective acc }.

Lemma Qplus_bound a b m n : QArith_base.Qle a (rat m 1) -> QArith_base.Qle b (rat n 1) -> QArith_base.Qle (QArith_base.Qplus a b) (rat (m + n) 1).
Proof. unfold QArith_base.Qle, QArith_base.Qplus. destruct a as [x c], b as [y d]. simpl. rewrite !Z.mul_1_r, Pos2Z.inj_mul. nia. Qed.

Lemma Qminus_bound a b m : QArith_base.Qle a (rat m 1) -> 0 <= QArith_base.Qnum b -> QArith_base.Qle (QArith_base.Qminus a b) (rat m 1).
Proof.
  unfold QArith_base.Qle, QArith_base.Qminus, QArith_base.Qplus, QArith_base.Qopp. destruct a as [x c], b as [y d]. simpl.
  rewrite !Z.mul_1_r, Pos2Z.inj_mul. nia.
Qed.

Lemma included_line_ok bound acc l : li_periodStart l <= li_periodEnd l -> included_ok bound acc ->
  included_ok (bound + if bought l then included_of l else 0) (included_line inv start end_ acc l).
Proof using Hd.
  intros Hl [Hs He]. pose proof (included_nonneg l) as Hn. unfold bought, in_period, included_line, included_of in *.
  destruct (Z.eqb_spec (li_periodEnd l) end_) as [E|]; simpl; [|rewrite Z.add_0_r; by split].
  rewrite Z.leb_antisym. destruct (Z.ltb_spec (li_periodStart l) start); simpl; [rewrite Z.add_0_r; by split|].
  destruct (planOfTerms (li_terms l)) as [plan|]; [|destruct (0 <? _); rewrite Z.add_0_r; by split].
  assert (Hm : micros (li_periodEnd l - li_periodStart l) <= micros (end_ - start)) by (apply micros_mono; lia).
  assert (Hz : 0 <= micros (li_periodEnd l - li_periodStart l)) by (unfold micros; apply Z.quot_pos; lia).
  assert (Hup : forall n, included_ok bound acc -> 0 <= n -> included_ok (bound + n) acc).
  { intros n [S1 S2] Hn'. split; [|done]. unfold QArith_base.Qle in *. simpl in *. rewrite Z.mul_1_r in *. nia. }
  destruct (Z.eqb_spec (pn_MonthlyNanos plan) 0); [destruct (0 <? _); apply Hup; try done; by split|].
  rewrite Z.gtb_ltb. destruct (Z.ltb_spec 0 (li_amount l)).
  - split; simpl.
    + apply Qplus_bound; [done|]. apply share_credit_le; [done|]. destruct (li_proration l && negb _) eqn:Ep; [|by apply rat_le_one].
      apply andb_true_iff in Ep as [_ Ep%negb_true_iff]. pose proof (rat_le_one _ Hm) as H1. revert H1 Ep. unfold QArith_base.Qle_bool, QArith_base.Qle.
      simpl. rewrite Z.leb_gt. intros H1 Ep. set (a := Z.pos (Z.to_pos (pn_MonthlyNanos plan))) in *. set (d := Z.pos (Z.to_pos (micros (end_ - start)))) in *.
      assert (0 < a) by done. assert (0 < d) by done. nia.
    + intros _. destruct (li_proration l && _) eqn:Ep; destruct (negb _ || _) eqn:Eo; try lia;
        apply orb_false_iff in Eo as [Eo%negb_false_iff _]; auto.
  - destruct (li_amount l <? 0); [|rewrite Z.add_0_r; by split]. split; simpl; [|done]. rewrite Z.add_0_r. apply Qminus_bound; [done|].
    simpl. by apply Z.mul_nonneg_nonneg.
Qed.

Lemma included_fold_ok ls : forall acc bound, Forall (fun l => li_periodStart l <= li_periodEnd l) ls -> included_ok bound acc ->
  included_ok (bound + sumZ (map included_of (List.filter bought ls))) (fold_left (included_line inv start end_) ls acc).
Proof using Hd.
  induction ls as [|l ls IH]; intros acc bound Hl H0; simpl; [by rewrite Z.add_0_r|]. apply Forall_cons_1 in Hl as [Hl Hls].
  pose proof (IH _ _ Hls (included_line_ok bound acc l Hl H0)) as H.
  destruct (bought l); simpl; [by rewrite Z.add_assoc|by rewrite Z.add_0_r in H].
Qed.
End Invoice.

(** an invoice's included credit is positive, at most what the plans of
    its charged lines of the period include, and usable only inside the period
    it was paid for; credit taken back for an old plan's unused time never
    adds to it. *)
Theorem includedCredit_bounded (inv : invoice) (start end_ amount effective : Z) :
  Forall (fun l => li_periodStart l <= li_periodEnd l) (in_lines inv) -> includedCredit inv start end_ = Some (amount, effective) ->
  0 < amount <= sumZ (map included_of (List.filter (bought start end_) (in_lines inv))) /\ start <= effective < end_.
Proof.
  intros Hl. unfold includedCredit. destruct (Z.leb_spec (micros (end_ - start)) 0) as [|Hd]; [done|].
  pose proof (included_fold_ok inv start end_ Hd (in_lines inv) (mkIncluded (rat 0 1) 0 false) 0 Hl) as Hok.
  rewrite Z.add_0_l in Hok. specialize (Hok ltac:(by split)).
  destruct (fold_left _ _ _) as [[num den] eff pos]. destruct Hok as [Hsum Heff]. simpl in *. destruct (negb pos || _ || _) eqn:Eg; [done|].
  destruct (Z.leb_spec (Z.quot num (Z.pos den)) 0); [done|]. intros [= <- <-].
  apply orb_false_iff in Eg as [[Hp%negb_false_iff Hn%Z.leb_gt]%orb_false_iff He%Z.leb_gt]. split; [|split; [by apply Heff|done]].
  split; [lia|]. unfold QArith_base.Qle in Hsum. simpl in Hsum. rewrite Z.mul_1_r in Hsum. apply Z.quot_le_upper_bound; lia.
Qed.

(** ** Reloads *)

(** an automatic reload starts only for an account that is due: reload is
    on and not paused, the account has a card and is neither past due nor
    complimentary, no automatic payment is pending, and after its balance is
    settled, so that credit that just arrived counts, what is left and not
    accruing is at or below its threshold.  It then has one pending payment,
    of the amount it chose. *)
Theorem reload_starts_only_when_due (s s' : payments) (id user : uuid) (now : Z) :
  books_ok (py_books s) -> startReload id user now s = Ret (s', true) ->
  exists a r p, account_of user s' = Some a /\ reload_on a = true /\ bk_balances (py_books s') !! user = Some r /\
    bb_balance r = balance_at user now (py_books s') /\ bb_balance r - bb_accrued r <= ba_threshold_cents a * 10000000 /\
    automatic_pending user s = false /\ py_purchases s' !! id = Some p /\ pending_automatic p = true /\ cp_user p = user /\
    cp_amount p = ba_amount_cents a * nanosPerCent /\
    forall j q, py_purchases s' !! j = Some q -> cp_user q = user -> pending_automatic q = true -> j = id.
Proof.
  intros Hok (b & Hb & H)%go_bind_Ret. cbv zeta in H.
  destruct (bk_accounts (py_books s) !! user) as [a|] eqn:Ea; [|unfold rollup_account in Hb; by rewrite Ea in Hb].
  destruct (rollup_account_spec user now _ a Hok Ea) as (b1 & r0 & E & _ & _ & Hk & _ & Hr). rewrite Hb in E. injection E as <-.
  destruct (ReloadAmount user _) as [cents|] eqn:Er; [|done]. unfold InsertAutomaticPurchase in H.
  destruct (automatic_pending user (s <| py_books := b |>)) eqn:Ep; [done|]. destruct (bool_decide _); [done|].
  apply go_bind_Ret in H as (s1 & (-> & _ & _)%write_purchase_Ret & [= <-]).
  unfold ReloadAmount, account_of in Er. simpl in Er. rewrite (rk_accounts _ _ _ Hk), Ea, Hr in Er. cbn [mbind option_bind] in Er.
  destruct (reload_due _ _ _ _ && _) eqn:Ed; [|done]. injection Er as <-. apply andb_true_iff in Ed as [Ed _]. unfold reload_due, at_threshold in Ed.
  apply andb_true_iff in Ed as [[[Ed1 _]%andb_true_iff Ed2%Z.leb_le]%andb_true_iff _].
  exists a, (settled_balance user now b r0), (new_purchase user purchaseAutomatic None (ba_amount_cents a * nanosPerCent) "" "" now).
  unfold account_of. simpl. rewrite (rk_accounts _ _ _ Hk). split; [done|]. split; [done|]. split; [done|]. split; [done|].
  split; [done|]. split; [exact Ep|]. rewrite lookup_insert_eq. do 4 (split; [done|]).
  intros j q. rewrite lookup_insert_Some. intros [[<- _]|[_ Hq]] Hu Hpq; [done|]. exfalso.
  assert (E : automatic_pending user s = true); [|unfold automatic_pending in *; simpl in *; congruence].
  apply existsb_exists. exists (j, q). split; [by apply list_elem_of_In, elem_of_map_to_list|]. simpl. by rewrite Hu, Z.eqb_refl, Hpq.
Qed.

(** ** A history, evaluated *)

Definition pay_clock (mi : Z) : Z := time_Date 2026 11 10 10 mi 0 0.
Definition pay_text (i : uuid) : string := pretty (i : Z).

Lemma pay_text_inj i j : pay_text i = pay_text j -> i = j.
Proof. apply (inj (pretty : Z -> string)). Qed.

Definition or_else {A} (a : A) (x : go billing_error A) : A := match x with Ret b => b | _ => a end.

(** User 7 has an account and a card, and buys 20 dollars of credit. *)
Definition pay_account : books := or_else (mkBooks ∅ ∅ ∅ ∅) (EnsureAccount 1 7 (pay_clock 0) (mkBooks ∅ ∅ ∅ ∅)).
Definition pay_state0 : payments := mkPayments pay_account ∅.
Definition pay_state1 : payments :=
  accounts_of (fun a => a <| ba_customer := Some "cus" |> <| ba_card := Some (pay_clock 1) |> <| ba_reload := true |>) 7 pay_state0.
Definition pay_request : CreditRequest := mkCreditRequest 50 2000 "ok" "no".
Definition pay_state2 : payments := (or_else (pay_state1, (0, new_purchase 0 purchaseManual None 0 "" "" 0, "")) (buy_tx 1 5 7 pay_request (pay_clock 2) pay_state1)).1.
Definition pay_row : CreditPurchase := new_purchase 7 purchaseManual (Some 50) (2000 * nanosPerCent) "ok" "no" (pay_clock 2).
Definition paid (retained : Z) : payment := mkPayment "pi" "cus" (pay_text 5) paymentSucceeded 2000 retained.
Definition recorded (retained mi : Z) (s : payments) : payments := or_else s (record_tx pay_text 9 5 (paid retained) (pay_clock mi) s).

Lemma pay_demo_reach : pay_reach pay_text pay_state2.
Proof.
  assert (H0 : EnsureAccount 1 7 (pay_clock 0) (mkBooks ∅ ∅ ∅ ∅) = Ret pay_account) by (vm_compute; reflexivity).
  eapply pay_more; [eapply pay_more; [eapply pay_more; [apply pay_empty|]|]|].
  - apply (pay_books _ _ pay_account), (EnsureAccount_kept pay_text _ _ _ _ _ H0).
  - apply (pay_books pay_text pay_state0 (py_books pay_state1)), accounts_of_kept.
  - eapply (pay_buy _ _ 1 5 7 pay_request (pay_clock 2) pay_state2 (5, pay_row, "cus")). vm_compute. reflexivity.
Qed.

Lemma pay_row_there : py_purchases pay_state2 !! 5 = Some pay_row.
Proof. vm_compute. reflexivity. Qed.

Lemma payment_credits_what_is_retained_witness : exists s' row' l x,
  record_tx pay_text 9 5 (paid 1500) (pay_clock 3) pay_state2 = Ret s' /\ py_purchases s' !! 5 = Some row' /\ cp_status row' = paymentSucceeded /\
  cp_lot row' = Some l /\ l = default 9 (cp_lot pay_row) /\ bk_lots (py_books s') !! l = Some x /\
  cl_amount x - cl_reversed x = Z.min (cp_amount pay_row) (pm_retained (paid 1500) * nanosPerCent).
Proof.
  apply (payment_credits_what_is_retained pay_text pay_text_inj pay_state2 9 5 pay_row (paid 1500) (pay_clock 3));
    [exact pay_demo_reach|exact pay_row_there|reflexivity|vm_compute; discriminate|intros _; vm_compute; reflexivity|].
  intros j q Hq Hj. change (py_purchases pay_state2) with (<[5 := pay_row]> (∅ : gmap uuid CreditPurchase)) in Hq.
  rewrite lookup_insert_ne, lookup_empty in Hq by congruence. discriminate Hq.
Defined.

Definition pay_state3 : payments := recorded 2000 3 pay_state2.

Lemma pay_state3_reach : pay_reach pay_text pay_state3.
Proof.
  eapply pay_more; [exact pay_demo_reach|]. apply (pay_record _ _ 9 5 (paid 2000) (pay_clock 3)); [vm_compute; discriminate|]. vm_compute. reflexivity.
Qed.

Lemma purchases_fund_once_witness :
  (fun l => (cl_amount l, cl_reversed l)) <$> bk_lots (py_books pay_state3) !! 9 = Some (2000 * nanosPerCent, 0) /\
  forall id p, py_purchases pay_state3 !! id = Some p -> cp_status p = paymentSucceeded -> is_Some (cp_lot p).
Proof. split; [vm_compute; reflexivity|]. exact (proj1 (purchases_fund_once pay_text pay_text_inj pay_state3 pay_state3_reach)). Defined.

(** A reading taken before a refund and recorded after it gives the refunded
    credit back, and the sweep never reads the purchase again. *)
Example stale_reading_undoes_refund :
  let refunded := recorded 0 5 pay_state3 in
  let stale := recorded 2000 6 refunded in
  cl_reversed <$> bk_lots (py_books refunded) !! 9 = Some (2000 * nanosPerCent) /\
  cl_reversed <$> bk_lots (py_books stale) !! 9 = Some 0 /\ DuePurchases 50 (pay_clock 6 + 365 * 24 * 3600000000000) stale = [].
Proof. vm_compute. repeat split. Qed.

(** A month of Team, and an upgrade to Business half way through it. *)
Definition month_of : Z * Z := (time_Date 2026 11 1 0 0 0 0, time_Date 2026 12 1 0 0 0 0).
Definition team_invoice : invoice := mkInvoice "in_1" "cus" "sub" true month_of.1 [mkLine TermsTeam 4900 false month_of.1 month_of.2].
Definition upgrade_invoice : invoice :=
  let half := time_Date 2026 11 16 0 0 0 0 in
  mkInvoice "in_2" "cus" "sub" true half [mkLine TermsTeam (-2450) true half month_of.2; mkLine TermsBusiness 9950 true half month_of.2].

Lemma includedCredit_bounded_witness :
  includedCredit team_invoice month_of.1 month_of.2 = Some (25 * NanosPerUSD, month_of.1) /\
  0 < 37500000000 <= sumZ (map included_of (List.filter (bought month_of.1 month_of.2) (in_lines upgrade_invoice))) /\
  month_of.1 <= time_Date 2026 11 16 0 0 0 0 < month_of.2.
Proof.
  split; [vm_compute; reflexivity|].
  apply (includedCredit_bounded upgrade_invoice); [repeat constructor; vm_compute; discriminate|vm_compute; reflexivity].
Defined.

(** The account of the history is due for a reload. *)
Lemma reload_starts_only_when_due_witness : exists a r p,
  account_of 7 (or_else (pay_state1, false) (startReload 6 7 (pay_clock 3) pay_state1)).1 = Some a /\ reload_on a = true /\
  bk_balances (py_books (or_else (pay_state1, false) (startReload 6 7 (pay_clock 3) pay_state1)).1) !! 7 = Some r /\
  py_purchases (or_else (pay_state1, false) (startReload 6 7 (pay_clock 3) pay_state1)).1 !! 6 = Some p /\ pending_automatic p = true.
Proof.
  destruct (reload_starts_only_when_due pay_state1 (or_else (pay_state1, false) (startReload 6 7 (pay_clock 3) pay_state1)).1 6 7 (pay_clock 3))
    as (a & r & p & H1 & H2 & H3 & _ & _ & _ & H4 & H5 & _).
  - assert (H0 : EnsureAccount 1 7 (pay_clock 0) (mkBooks ∅ ∅ ∅ ∅) = Ret pay_account) by (vm_compute; reflexivity).
    apply (books_ok_same pay_account); [by eapply EnsureAccount_ok; [apply empty_books_ok|]|reflexivity|reflexivity| |done].
    intros u. apply is_Some_alter.
  - vm_compute. reflexivity.
  - exists a, r, p. exact (conj H1 (conj H2 (conj H3 (conj H4 H5)))).
Defined.

(** ** Plan changes *)

(** A transaction on plan changes; the row a settler works on may be older
    than the table. *)
Inductive change_step (s : plan_changes) : plan_changes -> Prop :=
  | change_ask fresh id user terms plan dir now s' o : change_tx fresh id user terms plan dir now s = Ret (s', o) -> change_step s s'
  | change_claim limit locked now : change_step s (ClaimPlanChanges limit locked now s).1
  | change_settle st lot id row now : change_step s (settlePlanChange st lot id row now s).1
  | change_books b : change_step s (s <| pg_books := b |>).
Inductive change_reach : plan_changes -> Prop :=
  | change_none b : change_reach (mkChanges b ∅)
  | change_more s s' : change_reach s -> change_step s s' -> change_reach s'.

(** What every step does to the rows: a closed one stays as it is, an open one
    keeps what it asks for, and a new one is the only one open of its
    account. *)
Record rows_step (m m' : gmap uuid PlanChangeRow) : Prop := {
  rs_closed : forall id r, m !! id = Some r -> pc_state r <> changeOpen -> m' !! id = Some r;
  rs_old : forall id r, m !! id = Some r -> exists r', m' !! id = Some r' /\ pc_user r' = pc_user r /\ pc_to r' = pc_to r;
  rs_new : forall id r, m' !! id = Some r -> m !! id = None -> forall j q, m !! j = Some q -> pc_user q = pc_user r -> pc_state q <> changeOpen;
  rs_one : forall i j r q, m' !! i = Some r -> m' !! j = Some q -> m !! i = None -> m !! j = None -> i = j }.

Lemma rows_same m : rows_step m m.
Proof. split; [done| |congruence|]; [|intros i j r q Hi _ Hn; congruence]. intros id r Hr. by exists r. Qed.

Lemma rows_alter m id f :
  (forall r, pc_user (f r) = pc_user r /\ pc_to (f r) = pc_to r) -> rows_step m (alter (fun r => if pc_state r == changeOpen then f r else r) id m).
Proof.
  intros Hf. assert (Hn : forall j r, alter (fun r => if pc_state r == changeOpen then f r else r) id m !! j = Some r -> m !! j = None -> False).
  { intros j r Hr Hj. destruct (decide (id = j)) as [<-|]; [by rewrite lookup_alter_eq, Hj in Hr|rewrite lookup_alter_ne in Hr; congruence]. }
  split.
  - intros j r Hr Hst. destruct (decide (id = j)) as [<-|]; [|by rewrite lookup_alter_ne]. rewrite lookup_alter_eq, Hr. simpl.
    destruct (pc_state r == changeOpen) eqn:E; [by bools|done].
  - intros j r Hr. destruct (decide (id = j)) as [<-|]; [|rewrite lookup_alter_ne by done; by exists r]. rewrite lookup_alter_eq, Hr.
    eexists. split; [reflexivity|]. destruct (pc_state r == changeOpen); [apply Hf|done].
  - intros j r Hr Hj. by destruct (Hn j r Hr Hj).
  - intros i j r q Hi _ Hn' _. by destruct (Hn i r Hi Hn').
Qed.

(** The rows a claim takes are open ones. *)
Lemma rows_claim limit locked now s : rows_step (pg_rows s) (pg_rows (ClaimPlanChanges limit locked now s).1).
Proof.
  unfold ClaimPlanChanges. simpl. set (ids := take _ _).
  assert (Hids : forall id, id ∈ ids -> exists r, pg_rows s !! id = Some r /\ pc_state r = changeOpen).
  { intros id Hin. apply (sublist_subseteq _ _ (sublist_take _ _)), list_elem_of_In, in_map_iff in Hin as ([j r] & <- & Hr).
    rewrite sort_by_In in Hr. apply List.filter_In in Hr as [Hr Hc]. apply list_elem_of_In, elem_of_map_to_list in Hr. exists r. split; [done|].
    unfold claimable in Hc. rewrite !andb_true_iff in Hc. destruct Hc as [[[Hc _] _] _]. simpl in Hc. by bools. }
  generalize dependent ids. intros ids. set (m0 := pg_rows s).
  enough (H : forall m : gmap uuid PlanChangeRow, (forall id, id ∈ ids -> exists r, m0 !! id = Some r /\ pc_state r = changeOpen) ->
    (forall j, m0 !! j = None -> m !! j = None) -> (forall j r, m0 !! j = Some r -> pc_state r <> changeOpen -> m !! j = Some r) ->
    (forall j r, m0 !! j = Some r -> exists r', m !! j = Some r' /\ pc_user r' = pc_user r /\ pc_to r' = pc_to r) ->
    let m' := fold_left (fun m id => alter (claimed_change now) id m) ids m in
    (forall j, m0 !! j = None -> m' !! j = None) /\ (forall j r, m0 !! j = Some r -> pc_state r <> changeOpen -> m' !! j = Some r) /\
    (forall j r, m0 !! j = Some r -> exists r', m' !! j = Some r' /\ pc_user r' = pc_user r /\ pc_to r' = pc_to r)).
  { intros Hids. destruct (H m0 Hids) as (H1 & H2 & H3); [done|done|intros j r Hr; by exists r|]. split; [done|done| |].
    - intros id r Hr Hn. by rewrite (H1 id Hn) in Hr.
    - intros i j r q Hi _ Hn. by rewrite (H1 i Hn) in Hi. }
  induction ids as [|id ids IH]; intros m Hids H1 H2 H3; [done|]. simpl. destruct (Hids id) as (r0 & Hr0 & Hst0); [left|].
  apply IH; [intros j Hj; apply Hids; by right| | |].
  - intros j Hj. rewrite lookup_alter_ne by congruence. auto.
  - intros j r Hr Hst. rewrite lookup_alter_ne by congruence. auto.
  - intros j r Hr. destruct (H3 j r Hr) as (r' & Hr' & E). destruct (decide (id = j)) as [<-|]; [rewrite lookup_alter_eq, Hr'|rewrite lookup_alter_ne by done; eauto].
    eexists. split; [reflexivity|done].
Qed.

Lemma settle_rows st lot id row now s : rows_step (pg_rows s) (pg_rows (settlePlanChange st lot id row now s).1).
Proof.
  unfold settlePlanChange. destruct (applyPlanChange _ _ _ _) as [sub|card|]; [|by apply rows_alter|destruct (_ >? _); by apply rows_alter].
  destruct (match sub with Some _ => _ | None => _ end) as [b|e| |]; [|apply rows_same..].
  destruct sub as [sub|]; [|by apply rows_alter]. destruct (su_invoice sub != ""); [|by apply rows_alter].
  destruct (creditInvoice _ _ _ _); by apply rows_alter.
Qed.

Lemma change_step_rows s s' : change_step s s' -> rows_step (pg_rows s) (pg_rows s').
Proof.
  intros [fresh id user terms plan dir now s0 o H|limit locked now|st lot id row now|b]; [|apply rows_claim|apply settle_rows|apply rows_same].
  unfold change_tx in H. destruct (terms ≫= planOfTerms) as [target|]; [|done]. destruct (_ != _); [done|]. apply go_bind_Ret in H as (b & _ & H).
  cbv zeta in H. destruct (bk_accounts b !! user) as [a|]; [|done]. destruct (bool_decide _); [done|]. destruct (planOfTerms (ba_terms a)) as [cur|]; [|done].
  destruct (_ && bool_decide (ba_scheduled a = None)); [injection H as <- _; apply rows_same|]. destruct (_ && _ && _); [done|]. destruct (_ && plan_violations _ _ _ _); [done|].
  apply go_bind_Ret in H as (s1 & Hi & [= <- _]). unfold InsertPlanChange in Hi. destruct (change_open user _) eqn:Eo; [done|]. destruct (bool_decide _) eqn:En; [done|].
  injection Hi as <-. simpl in *. apply bool_decide_eq_false, eq_None_not_Some in En. split.
  - intros j r Hr _. rewrite lookup_insert_ne; congruence.
  - intros j r Hr. exists r. rewrite lookup_insert_ne; [done|congruence].
  - intros j r Hr Hn k q Hq Hu Hst. destruct (decide (id = j)) as [<-|]; [|rewrite lookup_insert_ne in Hr; congruence].
    rewrite lookup_insert_eq in Hr. injection Hr as <-. simpl in Hu. assert (E : change_open user s = true); [|unfold change_open in *; simpl in *; congruence].
    apply existsb_exists. exists (k, q). split; [by apply list_elem_of_In, elem_of_map_to_list|]. simpl. rewrite Hu, Z.eqb_refl, Hst. done.
  - intros i j r q Hi Hj Hn1 Hn2. destruct (decide (id = i)) as [<-|]; [|rewrite lookup_insert_ne in Hi; congruence].
    destruct (decide (id = j)) as [<-|]; [done|]. rewrite lookup_insert_ne in Hj; congruence.
Qed.

(** C26: an account has at most one plan change open at any time, and a change
    that was applied, refused or abandoned never opens or changes again,
    however late an answer of Stripe is recorded. *)
Theorem plan_changes_settle_once (s s' : plan_changes) :
  change_reach s -> change_step s s' ->
  (forall i j r q, pg_rows s' !! i = Some r -> pg_rows s' !! j = Some q -> pc_user r = pc_user q ->
     pc_state r = changeOpen -> pc_state q = changeOpen -> i = j) /\
  (forall id r, pg_rows s !! id = Some r -> pc_state r <> changeOpen -> pg_rows s' !! id = Some r).
Proof.
  intros Hr Hst. split; [|apply (rs_closed _ _ (change_step_rows s s' Hst))].
  assert (H : change_reach s') by by eapply change_more. clear Hr Hst. induction H as [b|t t' _ IH Ht]; [by intros i j r q Hi; simpl in Hi; rewrite lookup_empty in Hi|].
  destruct (change_step_rows t t' Ht) as [K1 K2 K3 K4].
  assert (Hopen : forall i r, pg_rows t' !! i = Some r -> pc_state r = changeOpen -> forall r0, pg_rows t !! i = Some r0 -> pc_state r0 = changeOpen /\ pc_user r = pc_user r0).
  { intros i r Hi Hs r0 H0. destruct (K2 i r0 H0) as (r' & Hr' & Hu & _). assert (r' = r) as -> by congruence. split; [|done].
    destruct (decide (pc_state r0 = changeOpen)) as [|Hc]; [done|]. rewrite (K1 i r0 H0 Hc) in Hi. congruence. }
  intros i j r q Hi Hj Hu Hsr Hsq. destruct (pg_rows t !! i) as [r0|] eqn:Ei, (pg_rows t !! j) as [q0|] eqn:Ej.
  - destruct (Hopen i r Hi Hsr r0 Ei), (Hopen j q Hj Hsq q0 Ej). apply (IH i j r0 q0); congruence.
  - destruct (Hopen i r Hi Hsr r0 Ei) as [E1 E2]. destruct (K3 j q Hj Ej i r0 Ei); congruence.
  - destruct (Hopen j q Hj Hsq q0 Ej) as [E1 E2]. destruct (K3 i r Hi Ei j q0 Ej); congruence.
  - by eapply K4.
Qed.

(** A Free account that asked for Team, refused by Stripe, asks again. *)
Definition change_state0 : plan_changes := mkChanges (py_books pay_state1) ∅.
Definition change_state1 : plan_changes := (or_else (change_state0, None) (change_tx 1 20 7 (Some TermsTeam) PlanTeam (mkDirectory [] [] [] [] []) (pay_clock 1) change_state0)).1.
Definition refusing : StripeSubscriptions :=
  mkStripeSubscriptions (fun _ _ => SubscriptionRefused true) (fun _ => None) (fun _ => SubscriptionUnknown) (fun _ _ => SubscriptionUnknown)
    (fun _ _ => SubscriptionUnknown) (fun _ => None).
Definition change_state2 : plan_changes :=
  (settlePlanChange refusing 30 20 (mkPlanChange 7 TermsFree TermsTeam changeOpen 1 0 None (pay_clock 1) None) (pay_clock 2) change_state1).1.

Lemma change_demo_reach : change_reach change_state2.
Proof.
  eapply change_more; [eapply change_more; [apply (change_none (py_books pay_state1))|]|apply change_settle].
  apply (change_ask _ 1 20 7 (Some TermsTeam) PlanTeam (mkDirectory [] [] [] [] []) (pay_clock 1) change_state1 (Some 20)). vm_compute. reflexivity.
Qed.

Lemma plan_changes_settle_once_witness :
  pc_state <$> pg_rows change_state2 !! 20 = Some changeFailed /\
  forall id r, pg_rows change_state2 !! id = Some r -> pc_state r <> changeOpen ->
    pg_rows (ClaimPlanChanges 20 [] (pay_clock 9) change_state2).1 !! id = Some r.
Proof.
  split; [vm_compute; reflexivity|].
  exact (proj2 (plan_changes_settle_once change_state2 _ change_demo_reach (change_claim change_state2 20 [] (pay_clock 9)))).
Defined.
