(* ===== verification/Metering.v ===== *)
(** Metering (src/internal/billing: metering.go, measured.go and
    metering.sql.go): what a pass writes to the ledger for containers, stored
    data and egress, and the cost it accrues for what is still open.

    A pass holds an advisory lock, so passes run one after another and a
    cursor a pass read is the cursor its writes find.  The rows a pass reads
    of other tables (containers, attempts, volumes, artifacts, disks and
    measured use) are arguments; cursors and waivers are joined from the
    tables here.  Rates are the publications of [Billing]. *)

From Stdlib Require Import Floats.SpecFloat.
From S2P Require Import Prelude Float64 Capacity Catalog Calendar GoLib Billing Placement Credits.

Definition MeteringPeriod : Z := 15 * minute.
Definition stoppedLookBack : Z := 5 * minute.
Definition storageGone : Z := 24 * hour.
Definition meteringWriteBatch : nat := 500.
Definition egressLag : Z := 5 * minute.
Definition buildBilledMemoryBytes : Z := Z.shiftl 2 30.

Definition minTime (a b : Z) : Z := if a <? b then a else b.
Definition maxTime (a b : Z) : Z := if a >? b then a else b.

(** [t.Truncate(MeteringPeriod)] and [date_trunc('hour', t, 'UTC')]. *)
Definition truncate_period (t : Z) : Z := t - t mod MeteringPeriod.
Definition truncate_hour (t : Z) : Z := t - t mod hour.

Inductive SourceKind := SourceContainer | SourceVolume | SourceArtifacts | SourceDisk | SourceEgress.
#[export] Instance SourceKind_eq_dec : EqDecision SourceKind.
Proof. solve_decision. Defined.
#[export] Instance SourceKind_countable : Countable SourceKind.
Proof.
  refine (inj_countable' (fun k => match k with SourceContainer => 0%nat | SourceVolume => 1%nat | SourceArtifacts => 2%nat | SourceDisk => 3%nat | SourceEgress => 4%nat end)
    (fun n => match n with 0%nat => SourceContainer | 1%nat => SourceVolume | 2%nat => SourceArtifacts | 3%nat => SourceDisk | _ => SourceEgress end) _).
  by intros [].
Defined.

(** ** Plans *)

(** [source]; [src_shape] is [None] for stored data. *)
Record source := mkSource {
  src_kind : SourceKind;
  src_id : uuid;
  src_owner : uuid;
  src_workspace : uuid;
  src_app : option uuid;
  src_workload : option uuid;
  src_category : string;
  src_price : RateCard -> Z -> option Charge;
  src_shape : option Shape }.

Record entry := mkEntry { en_start : Z; en_end : Z; en_charge : Charge; en_billed : option Shape }.

Record sourcePlan := mkSourcePlan {
  pn_src : source;
  pn_entries : list entry;
  pn_through : Z;
  pn_complete : bool;
  pn_accrued : Z;
  pn_advance : bool }.

Record span := mkSpan { sn_start : Z; sn_end : Z }.

Record meteredContainer := mkMetered {
  mc_id : uuid;
  mc_workspace : uuid;
  mc_owner : uuid;
  mc_app : option uuid;
  mc_workload : option uuid;
  mc_build : bool;
  mc_shape : Shape;
  mc_readyAt : Z;
  mc_stoppedAt : option Z;
  mc_hostLost : bool;
  mc_lastSeenAt : option Z;
  mc_billedThrough : option Z;
  mc_replacedAt : option Z;
  mc_heldFrom : option Z;
  mc_preemptedFrom : option Z;
  mc_kept : list span }.

Inductive meter_error := NoRate.

Section Rates.
Context (rates : list rateChange).

(** The loop of [entries]: pieces that end on the metering grid and on
    published rate changes. *)
Fixpoint drop_until (from : Z) (cuts : list Z) : list Z :=
  match cuts with
  | c :: rest => if c <=? from then drop_until from rest else cuts
  | [] => []
  end.
Definition piece_end (cuts : list Z) (from end_ : Z) : Z :=
  let to := minTime (truncate_period from + MeteringPeriod) end_ in
  match drop_until from cuts with c :: _ => if c <? to then c else to | [] => to end.
Fixpoint entry_loop (fuel : nat) (src : source) (cuts : list Z) (from end_ : Z) : go meter_error (list entry) :=
  if end_ <=? from then Ret []
  else
    match fuel with
    | O => Spins
    | S fuel =>
        let to := piece_end cuts from end_ in
        match cardAt rates from with
        | None => Err NoRate
        | Some card =>
            match src_price src card (to - from) with
            | None => Err NoRate
            | Some charge => rest <-! entry_loop fuel src (drop_until from cuts) to end_; Ret (mkEntry from to charge None :: rest)
            end
        end
    end.
Definition entry_fuel (cuts : list Z) (start end_ : Z) : nat := Z.to_nat ((end_ - start) / MeteringPeriod) + 2 + length cuts.
Definition entries (src : source) (start end_ : Z) : go meter_error (list entry) :=
  let cuts := changesBetween rates start end_ in entry_loop (entry_fuel cuts start end_) src cuts start end_.

(** [spanEntries]. *)
Fixpoint spanEntries (src : source) (spans : list span) : go meter_error (list entry) :=
  match spans with
  | [] => Ret []
  | s :: spans =>
      e <-! entries src (sn_start s) (sn_end s);
      rest <-! spanEntries src spans;
      Ret (e ++ rest)
  end.

(** [billedSpans]; [out] is built backwards, its last span first. *)
Fixpoint keep_spans (end_ : Z) (last : span) (done : list span) (kept : list span) : list span :=
  match kept with
  | [] => rev (last :: done)
  | k :: kept =>
      let k := mkSpan (maxTime (sn_start k) (sn_start last)) (minTime (sn_end k) end_) in
      if sn_end k <=? sn_start k then keep_spans end_ last done kept
      else if sn_start k <=? sn_end last then keep_spans end_ (mkSpan (sn_start last) (maxTime (sn_end last) (sn_end k))) done kept
      else keep_spans end_ k (last :: done) kept
  end.
Definition billedSpans (start end_ : Z) (preempted : option Z) (kept : list span) : list span :=
  match preempted with
  | None => [mkSpan start end_]
  | Some p =>
      delete_func (fun s => sn_end s <=? sn_start s)
        (keep_spans end_ (mkSpan start (maxTime start (minTime p end_))) [] kept)
  end.

(** [planOpen]: what closed and is measured is written, the rest accrues. *)
Definition written_spans (closed : Z) (billed : list span) : list span :=
  omap (fun s => if sn_start s <? closed then Some (mkSpan (sn_start s) (minTime (sn_end s) closed)) else None) billed.
Definition open_spans (closed : Z) (billed : list span) : list span :=
  omap (fun s => if closed <? sn_end s then Some (mkSpan (maxTime (sn_start s) closed) (sn_end s)) else None) billed.
Definition planOpen (src : source) (start horizon : Z) (billed : list span) (measured : Z) : go meter_error sourcePlan :=
  let closed := truncate_period (minTime horizon measured) in
  let finish (entries : list entry) (through : Z) (advance : bool) :=
    accrued <-! spanEntries src (open_spans closed billed);
    Ret (mkSourcePlan src entries through false (sumZ (map (fun e => Total (en_charge e)) accrued)) advance) in
  if start <? closed then e <-! spanEntries src (written_spans closed billed); finish e closed true
  else finish [] start false.

(** [planContainer]. *)
Definition container_source (c : meteredContainer) : source :=
  let shape := if mc_build c then mkShape (sh_Owner (mc_shape c)) (sh_Class (mc_shape c)) (sh_GPU (mc_shape c)) (sh_GPUCount (mc_shape c))
                 (sh_CPUMillis (mc_shape c)) (Z.min (sh_MemoryBytes (mc_shape c)) buildBilledMemoryBytes) else mc_shape c in
  mkSource SourceContainer (mc_id c) (mc_owner c) (mc_workspace c) (mc_app c) (mc_workload c)
    (if mc_build c then "image-build" else "") (fun card d => price card shape d) (Some shape).
Definition container_start (c : meteredContainer) : Z :=
  match mc_billedThrough c with Some t => if t >? mc_readyAt c then t else mc_readyAt c | None => mc_readyAt c end.
(** Where a container's billing ends, and whether it ended. *)
Definition container_end (c : meteredContainer) (now : Z) : Z * bool :=
  let start := container_start c in
  let '(end_, ended) :=
    match mc_stoppedAt c, mc_lastSeenAt c with
    | Some stopped, seen =>
        (match seen with Some s => if mc_hostLost c && (s <? stopped) then s else stopped | None => stopped end, true)
    | None, Some seen => (maxTime start (minTime now seen), false)
    | None, None => (start, false)
    end in
  match mc_replacedAt c with Some r => if r <=? end_ then (r, true) else (end_, ended) | None => (end_, ended) end.
Definition measured_for (c : meteredContainer) (measured : Z) : Z :=
  match mc_heldFrom c with Some h => minTime measured h | None => measured end.
Definition planContainer (c : meteredContainer) (now measured : Z) : go meter_error sourcePlan :=
  let src := container_source c in
  let start := container_start c in
  let '(end_, ended) := container_end c now in
  let measured := measured_for c measured in
  let billed := billedSpans start end_ (mc_preemptedFrom c) (mc_kept c) in
  if ended && (end_ <=? measured) then
    e <-! spanEntries src billed;
    Ret (mkSourcePlan src e (maxTime start end_) true 0 true)
  else planOpen src start end_ billed measured.

(** ** Stored data *)

Record storageSource := mkStorage { ss_src : source; ss_from : Z; ss_cursor : option Z; ss_deleted : option Z }.

Definition volumePrice (bytes : Z) (waived : bool) : RateCard -> Z -> option Charge := fun card d =>
  Some (mkCharge (rd_Version card) 0 0 0 0 bytes 0 (if waived then 0 else storageCost (VolumeGiBMonth (rd_Platform card)) bytes d) 0 0 0).
Definition diskPrice (stored attached : Z) (waived : bool) : RateCard -> Z -> option Charge := fun card d =>
  match rd_Disk card with
  | None => None
  | Some disk => Some (mkCharge (rd_Version card) 0 0 0 0 stored attached
      (if waived then 0 else storageCost (StoredGiBMonth disk) stored d) (if waived then 0 else storageCost (AttachedGiBMonth disk) attached d) 0 0)
  end.

(** [planStorage]. *)
Definition storage_start (s : storageSource) : Z :=
  match ss_cursor s with Some t => if t >? ss_from s then t else ss_from s | None => ss_from s end.
Definition planStorage (s : storageSource) (now : Z) : go meter_error sourcePlan :=
  let start := storage_start s in
  let '(end_, complete) := match ss_deleted s with Some d => (d, true) | None => (truncate_period now, false) end in
  if end_ <=? start then Ret (mkSourcePlan (ss_src s) [] start false 0 (complete && (ss_cursor s == None)))
  else e <-! entries (ss_src s) start end_; Ret (mkSourcePlan (ss_src s) e end_ complete 0 true).

(** ** Measured use (measured.go) *)

Record MeasuredUse := mkUse { mu_CoreSeconds : float64; mu_MemoryByteSeconds : float64 }.

(** [math.Ceil] and the conversion to [int64], which Go leaves to the
    platform outside its range. *)
Definition ceil_int (x : float64) : option Z :=
  match x with
  | S754_zero _ => Some 0
  | S754_finite s m e =>
      let v := if s then Z.neg m else Z.pos m in
      Some (if 0 <=? e then v * 2 ^ e else - (- v / 2 ^ (- e)))
  | _ => None
  end.
Definition ceil_int64 (big : float64 -> Z) (x : float64) : Z :=
  match ceil_int x with Some n => if (- 2 ^ 63 <=? n) && (n <? 2 ^ 63) then n else big x | None => big x end.

(** [Duration.Seconds]. *)
Definition duration_seconds (d : Z) : float64 :=
  fadd (of_int (Z.quot d second)) (fdiv (of_int (Z.rem d second)) (of_int 1000000000)).

(** [applyMeasuredUse]: each entry bills its period's mean use where that
    exceeds the reservation; [used] is what the period measured. *)
Definition covered_time (from to period : Z) : Z := minTime (period + MeteringPeriod) to - maxTime period from.
Definition measured_shape (big : float64 -> Z) (shape : Shape) (use : MeasuredUse) (length covered : Z) : Shape :=
  let share := fdiv (of_int length) (of_int covered) in
  let seconds := duration_seconds length in
  mkShape (sh_Owner shape) (sh_Class shape) (sh_GPU shape) (sh_GPUCount shape)
    (Z.max (sh_CPUMillis shape) (ceil_int64 big (fdiv (SFmul 53 1024 (SFmul 53 1024 (mu_CoreSeconds use) share) (of_int millisPerCPU)) seconds)))
    (Z.max (sh_MemoryBytes shape) (ceil_int64 big (fdiv (SFmul 53 1024 (mu_MemoryByteSeconds use) share) seconds))).
#[export] Instance Shape_eq_dec : EqDecision Shape.
Proof. solve_decision. Defined.
Definition measured_entry (big : float64 -> Z) (used : Z -> option MeasuredUse) (shape : Shape) (from to : Z) (e : entry) : go meter_error entry :=
  let period := truncate_period (en_start e) in
  match used period with
  | None => Ret e
  | Some use =>
      let length := en_end e - en_start e in
      let billed := measured_shape big shape use length (covered_time from to period) in
      if billed == shape then Ret e
      else
        match cardAt rates (en_start e) with
        | None => Err NoRate
        | Some card =>
            match price card billed length with
            | None => Err NoRate
            | Some charge => Ret (mkEntry (en_start e) (en_end e) charge (Some billed))
            end
        end
  end.
Fixpoint measured_entries (big : float64 -> Z) (used : Z -> option MeasuredUse) (shape : Shape) (from to : Z) (es : list entry) : go meter_error (list entry) :=
  match es with
  | [] => Ret []
  | e :: es =>
      e' <-! measured_entry big used shape from to e;
      rest <-! measured_entries big used shape from to es;
      Ret (e' :: rest)
  end.
Definition applyMeasuredUse (big : float64 -> Z) (used : uuid -> Z -> option MeasuredUse) (p : sourcePlan) : go meter_error sourcePlan :=
  match src_shape (pn_src p), pn_entries p, last (pn_entries p) with
  | Some shape, e :: _, Some l =>
      es <-! measured_entries big (used (src_id (pn_src p))) shape (en_start e) (en_end l) (pn_entries p);
      Ret (mkSourcePlan (pn_src p) es (pn_through p) (pn_complete p) (pn_accrued p) (pn_advance p))
  | _, _, _ => Ret p
  end.
Fixpoint chargeMeasuredUse (big : float64 -> Z) (used : uuid -> Z -> option MeasuredUse) (plans : list sourcePlan) : go meter_error (list sourcePlan) :=
  match plans with
  | [] => Ret []
  | p :: plans =>
      p' <-! (if src_kind (pn_src p) == SourceContainer then applyMeasuredUse big used p else Ret p);
      rest <-! chargeMeasuredUse big used plans;
      Ret (p' :: rest)
  end.
End Rates.

(** ** The ledger *)

Record LedgerRow := mkLedger {
  le_end : Z;
  le_user : uuid;
  le_workspace : uuid;
  le_app : option uuid;
  le_workload : option uuid;
  le_category : string;
  le_shape : Shape;
  le_charge : Charge }.

Record CursorRow := mkCursor { cu_through : Z; cu_complete : bool; cu_updated : Z }.

(** An account's egress of a quarter, by workspace, app and workload; the
    owner is joined from the workspace's members. *)
Abbreviation egress_key := (uuid * option uuid * option uuid * Z)%type.

Record meter := mkMeter {
  mt_books : books;
  mt_entries : gmap (SourceKind * uuid * Z) LedgerRow;
  mt_cursors : gmap (SourceKind * uuid) CursorRow;
  mt_egress : gmap egress_key Z;
  mt_stopped_since : option Z }.
#[export] Instance eta_meter : Eta meter := fun m => mkMeter (mt_books m) (mt_entries m) (mt_cursors m) (mt_egress m) (mt_stopped_since m).

(** A row of [ledgerParams]. *)
Definition storage_shape : Shape := mkShape OwnerPlatformFleet ClassAuto noGPU 0 0 0.
Definition ledger_row (src : source) (e : entry) : (SourceKind * uuid * Z) * LedgerRow :=
  ((src_kind src, src_id src, en_start e),
   mkLedger (en_end e) (src_owner src) (src_workspace src) (src_app src) (src_workload src) (src_category src)
     (match en_billed e with Some s => s | None => default storage_shape (src_shape src) end) (en_charge e)).
Definition ledgerParams (batch : list sourcePlan) : list uuid * list ((SourceKind * uuid * Z) * LedgerRow) * list (SourceKind * uuid * Z * bool) :=
  (remove_dups (map (fun p => src_owner (pn_src p)) batch),
   flat_map (fun p => map (ledger_row (pn_src p)) (pn_entries p)) batch,
   omap (fun p => if pn_advance p then Some (src_kind (pn_src p), src_id (pn_src p), pn_through p, pn_complete p) else None) batch).

(** The constraints of a row of [ledger_entries]. *)
Definition ledger_checks (start : Z) (r : LedgerRow) : bool :=
  (start <? le_end r) && (0 <=? sh_GPUCount (le_shape r)) && (0 <=? sh_CPUMillis (le_shape r)) && (0 <=? sh_MemoryBytes (le_shape r)) &&
  (0 <=? ContainerNanos (le_charge r)) && (0 <=? CPUNanos (le_charge r)) && (0 <=? MemoryNanos (le_charge r)) && (0 <=? GPUNanos (le_charge r)) &&
  (0 <=? StoredBytes (le_charge r)) && (0 <=? AttachedBytes (le_charge r)) && (0 <=? StorageNanos (le_charge r)) &&
  (0 <=? AttachedNanos (le_charge r)) && (0 <=? EgressBytes (le_charge r)) && (0 <=? EgressNanos (le_charge r)).

(** [InsertLedgerEntries]: entries already written are skipped; the others
    add to their hours, and their accounts become due. *)
Definition insert_entry (m : meter) (row : (SourceKind * uuid * Z) * LedgerRow) : go billing_error meter :=
  let '(key, r) := row in
  if mt_entries m !! key is Some _ then Ret m
  else if negb (ledger_checks key.2 r) then Err ConstraintViolated
  else
    b <-! charge_hour (le_user r) (truncate_hour key.2) (Total (le_charge r)) (mt_books m);
    Ret (m <| mt_books := mark_due (le_user r) b |> <| mt_entries := <[key := r]> (mt_entries m) |>).
Definition InsertLedgerEntries (rows : list ((SourceKind * uuid * Z) * LedgerRow)) (m : meter) : go billing_error meter :=
  go_fold insert_entry rows m.

(** [AdvanceCursors]: a cursor never moves back. *)
Definition advanced (through : Z) (complete : bool) (now : Z) (old : option CursorRow) : CursorRow :=
  match old with
  | Some c => mkCursor (Z.max (cu_through c) through) (cu_complete c || complete) now
  | None => mkCursor through complete now
  end.
Definition AdvanceCursors (cursors : list (SourceKind * uuid * Z * bool)) (now : Z) (m : meter) : meter :=
  m <| mt_cursors := fold_left (fun cs c => let '(kind, id, through, complete) := c in
        <[(kind, id) := advanced through complete now (cs !! (kind, id))]> cs) cursors (mt_cursors m) |>.

(** [writeLedger] and [writeMetering]; [fresh] gives the ids of new accounts'
    trial lots. *)
Definition writeLedger (fresh : uuid -> uuid) (users : list uuid) (rows : list ((SourceKind * uuid * Z) * LedgerRow))
    (cursors : list (SourceKind * uuid * Z * bool)) (now : Z) (m : meter) : go billing_error meter :=
  b <-! EnsureAccounts fresh users now (mt_books m);
  m <-! InsertLedgerEntries rows (m <| mt_books := b |>);
  Ret (AdvanceCursors cursors now m).
Definition writeMetering (fresh : uuid -> uuid) (batch : list sourcePlan) (now : Z) (m : meter) : go billing_error meter :=
  let '(users, rows, cursors) := ledgerParams batch in writeLedger fresh users rows cursors now m.

(** [SetAccrued]: accounts that are not listed are zeroed where they had live
    containers. *)
Definition SetAccrued (accrued : list (uuid * (Z * Z))) (b : books) : books :=
  let listed (u : uuid) := assoc u accrued in
  b <| bk_balances := map_imap (fun u r =>
        Some (match listed u with
              | Some (nanos, live) => r <| bb_accrued := nanos |> <| bb_live := live |>
              | None => if 0 <? bb_live r then r <| bb_accrued := 0 |> <| bb_live := 0 |> else r
              end)) (bk_balances b) |>.

(** [PruneCursors], of the cursors the limit lets through. *)
Definition prunable (complete_before gone_before : Z) (key : SourceKind * uuid) (c : CursorRow) : bool :=
  (cu_complete c && (cu_updated c <? complete_before)) || ((key.1 != SourceContainer) && (cu_updated c <? gone_before)).
Definition PruneCursors (complete_before gone_before : Z) (limit : list (SourceKind * uuid) -> list (SourceKind * uuid)) (m : meter) : meter :=
  let old := omap (fun r => if prunable complete_before gone_before r.1 r.2 then Some r.1 else None) (map_to_list (mt_cursors m)) in
  m <| mt_cursors := foldr delete (mt_cursors m) (List.filter (fun k => bool_decide (k ∈ old)) (limit old)) |>.

(** ** Egress *)

Record Egress := mkEgress { eg_Workspace : uuid; eg_App : option uuid; eg_Workload : option uuid; eg_Bytes : Z; eg_At : Z }.

(** [RecordEgress]. *)
Definition RecordEgress (e : Egress) (m : meter) : meter :=
  if eg_Bytes e <=? 0 then m
  else
    let key := (eg_Workspace e, eg_App e, eg_Workload e, truncate_period (eg_At e)) in
    m <| mt_egress := <[key := default 0 (mt_egress m !! key) + eg_Bytes e]> (mt_egress m) |>.

Section Egress.
Context (rates : list rateChange) (owner_of : uuid -> option uuid).

(** [ClosedEgress]: quarters that closed before the edge's lag, of
    workspaces with an owner. *)
Definition ClosedEgress (before : Z) (limit : nat) (m : meter) : list (egress_key * Z * uuid) :=
  take limit (sort_by (fun a b => Z.compare a.1.1.2 b.1.1.2)
    (omap (fun r => if r.1.2 <? before then (fun o => (r, o)) <$> owner_of r.1.1.1.1 else None) (map_to_list (mt_egress m)))).

(** One quarter's plan. *)
Definition egress_plan (row : egress_key * Z * uuid) : option sourcePlan :=
  let '(workspace, app, workload, quarter, bytes, owner) := row in
  card ← cardAt rates quarter;
  let id := match workload, app with Some w, _ => w | None, Some a => a | None, None => workspace end in
  let charge := mkCharge (rd_Version card) 0 0 0 0 0 0 0 0 bytes (costOver (EgressGiB (rd_Platform card)) bytes bytesPerGiB 1 1) in
  Some (mkSourcePlan (mkSource SourceEgress id owner workspace app workload "" (fun _ _ => None) None)
          [mkEntry quarter (quarter + MeteringPeriod) charge None] 0 false 0 false).

(** [meterEgressBatch]: the quarters are priced and removed together. *)
Inductive egress_error := EgressNoRate | EgressBilling (e : billing_error).
Definition meterEgressBatch (fresh : uuid -> uuid) (clock now : Z) (m : meter) : go egress_error (meter * nat) :=
  let rows := ClosedEgress (clock - egressLag - MeteringPeriod) meteringWriteBatch m in
  match rows with
  | [] => Ret (m, O)
  | _ =>
      match mapM egress_plan rows with
      | None => Err EgressNoRate
      | Some batch =>
          match writeMetering fresh batch now m with
          | Ret m => Ret (m <| mt_egress := foldr delete (mt_egress m) (map (fun r => r.1.1) rows) |>, length rows)
          | Err e => Err (EgressBilling e)
          | Panic => Panic
          | Spins => Spins
          end
      end
  end.

(** [meterEgress]: batches until one is short; those before a failure stay
    committed. *)
Fixpoint meterEgress (fuel : nat) (fresh : uuid -> uuid) (clock now : Z) (written : nat) (m : meter) : meter * go egress_error nat :=
  match fuel with
  | O => (m, Spins)
  | S fuel =>
      match meterEgressBatch fresh clock now m with
      | Ret (m', n) =>
          if (n <? meteringWriteBatch)%nat then (m', Ret (written + n)%nat) else meterEgress fuel fresh clock now (written + n) m'
      | Err e => (m, Err e)
      | Panic => (m, Panic)
      | Spins => (m, Spins)
      end
  end.
End Egress.

(** ** A pass *)

Section Pass.
Context (rates : list rateChange) (owner_of : uuid -> option uuid).

(** The rows of [LiveMeteredContainers] and [StoppedMeteredContainers], with
    their cursors joined; a container in both was read as it stopped, and its
    stopped row wins. *)
Definition with_cursor (c : meteredContainer) (through : option Z) : meteredContainer :=
  mkMetered (mc_id c) (mc_workspace c) (mc_owner c) (mc_app c) (mc_workload c) (mc_build c) (mc_shape c) (mc_readyAt c) (mc_stoppedAt c)
    (mc_hostLost c) (mc_lastSeenAt c) through (mc_replacedAt c) (mc_heldFrom c) (mc_preemptedFrom c) (mc_kept c).
Definition read_container (m : meter) (c : meteredContainer) : option meteredContainer :=
  match mt_cursors m !! (SourceContainer, mc_id c) with
  | Some cu => if cu_complete cu then None else Some (with_cursor c (Some (cu_through cu)))
  | None => Some (with_cursor c None)
  end.
Definition meteredContainers (live stopped : list meteredContainer) (m : meter) : list meteredContainer :=
  omap (read_container m) (List.filter (fun c => negb (bool_decide (mc_id c ∈ map mc_id stopped))) live) ++ omap (read_container m) stopped.

(** [storageSources]: the rows of volumes, artifacts and disks; a source
    whose owner is in an unfunded period stores free. *)
Record VolumeRow := mkVolume { vo_ID : uuid; vo_Workspace : uuid; vo_Owner : uuid; vo_Bytes : Z; vo_CreatedAt : Z; vo_DeletedAt : option Z }.
Record ArtifactsRow := mkArtifacts { ar_Workspace : uuid; ar_App : option uuid; ar_Owner : uuid; ar_Bytes : Z; ar_FirstStoredAt : Z }.
Record DiskRow := mkDiskRow {
  di_ID : uuid; di_Workspace : uuid; di_Owner : uuid; di_StoredBytes : Z; di_SizeBytes : Z; di_CreatedAt : Z; di_DeletedAt : option Z;
  di_holder : option uuid; di_released_at : option Z }.
Definition cursor_of (m : meter) (kind : SourceKind) (id : uuid) : option Z := cu_through <$> mt_cursors m !! (kind, id).
Definition volume_source (waived : uuid -> bool) (m : meter) (v : VolumeRow) : storageSource :=
  mkStorage (mkSource SourceVolume (vo_ID v) (vo_Owner v) (vo_Workspace v) None None "volume" (volumePrice (vo_Bytes v) (waived (vo_Owner v))) None)
    (vo_CreatedAt v) (cursor_of m SourceVolume (vo_ID v)) (vo_DeletedAt v).
Definition artifacts_source (waived : uuid -> bool) (m : meter) (a : ArtifactsRow) : storageSource :=
  let id := default (ar_Workspace a) (ar_App a) in
  mkStorage (mkSource SourceArtifacts id (ar_Owner a) (ar_Workspace a) (ar_App a) None "artifacts" (volumePrice (ar_Bytes a) (waived (ar_Owner a))) None)
    (ar_FirstStoredAt a) (cursor_of m SourceArtifacts id) None.
Definition disk_held (m : meter) (d : DiskRow) : bool :=
  (di_holder d != None) ||
  match di_released_at d, cursor_of m SourceDisk (di_ID d) with Some r, Some t => t <? r | _, _ => false end.
Definition disk_source (waived : uuid -> bool) (m : meter) (d : DiskRow) : storageSource :=
  mkStorage (mkSource SourceDisk (di_ID d) (di_Owner d) (di_Workspace d) None None "disk"
      (diskPrice (di_StoredBytes d) (if disk_held m d then di_SizeBytes d else 0) (waived (di_Owner d))) None)
    (di_CreatedAt d) (cursor_of m SourceDisk (di_ID d)) (di_DeletedAt d).
Definition storageSources (waived : uuid -> bool) (volumes : list VolumeRow) (artifacts : list ArtifactsRow) (disks : list DiskRow) (m : meter) : list storageSource :=
  map (volume_source waived m) volumes ++ map (artifacts_source waived m) artifacts ++ map (disk_source waived m) disks.

(** The plans of a pass: a source that cannot be priced is left out. *)
Definition priced {A} (plan : A -> go meter_error sourcePlan) (xs : list A) : list (A * sourcePlan) :=
  omap (fun x => match plan x with Ret p => Some (x, p) | _ => None end) xs.

(** What accrues: the open cost and the live containers of each account. *)
Definition container_live (c : meteredContainer) : bool := (mc_stoppedAt c == None) && (mc_replacedAt c == None).
Definition accrue (acc : gmap uuid (Z * Z)) (cp : meteredContainer * sourcePlan) : gmap uuid (Z * Z) :=
  let live := container_live cp.1 in
  if live || (0 <? pn_accrued cp.2) then
    let a := default (0, 0) (acc !! mc_owner cp.1) in
    <[mc_owner cp.1 := (a.1 + pn_accrued cp.2, if live then a.2 + 1 else a.2)]> acc
  else acc.

(** [add] and [flush]: a transaction per batch. *)
Definition worth_writing (p : sourcePlan) : bool := pn_advance p || negb (bool_decide (pn_entries p = [])).
Fixpoint write_plans (fresh : uuid -> uuid) (tx : Z) (batch plans : list sourcePlan) (m : meter) : meter * option billing_error :=
  let flush (rest : meter -> meter * option billing_error) (batch : list sourcePlan) :=
    match batch with
    | [] => rest m
    | _ => match writeMetering fresh batch tx m with Ret m' => rest m' | Err e => (m, Some e) | Panic | Spins => (m, Some ConstraintViolated) end
    end in
  match plans with
  | [] => flush (fun m => (m, None)) batch
  | p :: plans =>
      if negb (worth_writing p) then write_plans fresh tx batch plans m
      else if (meteringWriteBatch <=? length (batch ++ [p]))%nat then flush (write_plans fresh tx [] plans) (batch ++ [p])
      else write_plans fresh tx (batch ++ [p]) plans m
  end.

(** [Meter], after it took the lock: what a pass read and how EnsureAccounts
    names new lots are arguments; [tx] is the transactions' clock. *)
Record MeterInput := mkMeterInput {
  mi_now : Z;
  mi_measured : Z;
  mi_live : list meteredContainer;
  mi_stopped : Z -> list meteredContainer;
  mi_used : uuid -> Z -> option MeasuredUse;
  mi_volumes : list VolumeRow;
  mi_artifacts : list ArtifactsRow;
  mi_disks : list DiskRow;
  mi_waived : uuid -> bool }.
Inductive meter_failure := MeterPrice | MeterWrite (e : billing_error) | MeterEgress (e : egress_error).
(** The look-back over stopped containers; a first pass looks back over
    everything. *)
Definition epoch : Z := time_Date 1970 1 1 0 0 0 0.
Definition look_back (i : MeterInput) (m : meter) : Z := minTime (default epoch (mt_stopped_since m)) (mi_measured i) - stoppedLookBack.
Definition finish_pass (fresh : uuid -> uuid) (limit : list (SourceKind * uuid) -> list (SourceKind * uuid)) (i : MeterInput) (tx : Z)
    (accrued : gmap uuid (Z * Z)) (m : meter) : go billing_error meter :=
  b <-! EnsureAccounts fresh (map fst (map_to_list accrued)) tx (mt_books m);
  Ret (PruneCursors (mi_now i - 2 * stoppedLookBack) (mi_now i - storageGone) limit
        (m <| mt_books := SetAccrued (map_to_list accrued) b |> <| mt_stopped_since := Some (mi_now i) |>)).
Definition Meter (big : float64 -> Z) (fresh : uuid -> uuid) (limit : list (SourceKind * uuid) -> list (SourceKind * uuid))
    (i : MeterInput) (tx : Z) (m : meter) : meter * option meter_failure :=
  let containers := meteredContainers (mi_live i) (mi_stopped i (look_back i m)) m in
  let planned := priced (fun c => planContainer rates c (mi_now i) (mi_measured i)) containers in
  let accrued := fold_left accrue planned ∅ in
  match chargeMeasuredUse rates big (mi_used i) (map snd planned) with
  | Ret plans =>
      let stored := priced (fun s => planStorage rates s (mi_now i)) (storageSources (mi_waived i) (mi_volumes i) (mi_artifacts i) (mi_disks i) m) in
      match write_plans fresh tx [] (plans ++ map snd stored) m with
      | (m, Some e) => (m, Some (MeterWrite e))
      | (m, None) =>
          match meterEgress rates owner_of (S (size (mt_egress m))) fresh (mi_now i) tx 0 m with
          | (m, Ret _) =>
              match finish_pass fresh limit i tx accrued m with
              | Ret m => (m, None)
              | Err e => (m, Some (MeterWrite e))
              | Panic | Spins => (m, Some MeterPrice)
              end
          | (m, Err e) => (m, Some (MeterEgress e))
          | (m, _) => (m, Some MeterPrice)
          end
      end
  | _ => (m, Some MeterPrice)
  end.
End Pass.
