(* ===== verification/MeteringProps.v ===== *)
(** What a metering plan bills: the spans of a container without the time lost
    to preemption, the pieces they are cut into at periods and rate changes,
    and the plans made of them, which bill no instant twice. *)

From S2P Require Import Prelude Float64 Capacity Catalog Calendar GoLib Billing Placement Credits CreditLoops CreditProps RollupProps Metering.

Lemma minTime_min a b : minTime a b = Z.min a b.
Proof. unfold minTime. destruct (Z.ltb_spec a b); lia. Qed.

Lemma maxTime_max a b : maxTime a b = Z.max a b.
Proof. unfold maxTime. destruct (a >? b) eqn:E; [apply Z.gtb_lt in E|rewrite Z.gtb_ltb in E; apply Z.ltb_ge in E]; lia. Qed.

Lemma period_pos : 0 < MeteringPeriod.
Proof. reflexivity. Qed.

Lemma truncate_period_le t : truncate_period t <= t < truncate_period t + MeteringPeriod.
Proof. unfold truncate_period. pose proof (Z.mod_pos_bound t MeteringPeriod period_pos). lia. Qed.

(** ** Instants *)

Definition during (t : Z) (e : entry) : bool := (en_start e <=? t) && (t <? en_end e).

(** How often an instant is billed. *)
Definition times (t : Z) (es : list entry) : nat := length (List.filter (during t) es).
Definition span_times (t : Z) (l : list span) : nat := length (List.filter (fun s => (sn_start s <=? t) && (t <? sn_end s)) l).

Lemma times_app t a b : times t (a ++ b) = (times t a + times t b)%nat.
Proof. unfold times. by rewrite List.filter_app, length_app. Qed.

Definition once (b : bool) : nat := if b then 1%nat else 0%nat.

(** Entries that follow each other from [from] to [end_]. *)
Fixpoint tiles (from end_ : Z) (es : list entry) : Prop :=
  match es with
  | [] => end_ <= from
  | e :: es => en_start e = from /\ from < en_end e <= end_ /\ tiles (en_end e) end_ es
  end.

Lemma tiles_times from end_ es t : tiles from end_ es -> times t es = once ((from <=? t) && (t <? end_)).
Proof.
  revert from. induction es as [|e es IH]; intros from H; simpl in *.
  - unfold times, once. simpl. destruct (Z.leb_spec from t), (Z.ltb_spec t end_); simpl; lia.
  - destruct H as (Hs & He & Ht). specialize (IH _ Ht). unfold times in *. simpl. unfold during at 1. rewrite Hs.
    destruct (Z.leb_spec from t), (Z.ltb_spec t (en_end e)); simpl; rewrite IH; unfold once;
      destruct (Z.leb_spec (en_end e) t), (Z.ltb_spec t end_); simpl; lia.
Qed.

Lemma tiles_within from end_ es e : tiles from end_ es -> e ∈ es -> from <= en_start e /\ en_start e < en_end e <= end_.
Proof.
  revert from. induction es as [|x es IH]; intros from H He; [by apply not_elem_of_nil in He|].
  destruct H as (Hs & Hx & Ht). apply elem_of_cons in He as [->|He]; [lia|]. specialize (IH _ Ht He). lia.
Qed.

Section Rates.
Context (rates : list rateChange).

(** ** The loop of [entries] *)

Lemma drop_until_head from cuts c rest : drop_until from cuts = c :: rest -> from < c.
Proof.
  induction cuts as [|x cuts IH]; simpl; [done|]. destruct (Z.leb_spec x from); [done|]. by intros [= <- <-].
Qed.

Lemma drop_until_length from cuts : (length (drop_until from cuts) <= length cuts)%nat.
Proof. induction cuts as [|x cuts IH]; simpl; [lia|]. destruct (_ <=? _); simpl; lia. Qed.

Lemma piece_end_later cuts from end_ : from < end_ -> from < piece_end cuts from end_ <= end_.
Proof.
  intros H. unfold piece_end. rewrite minTime_min. pose proof (truncate_period_le from).
  destruct (drop_until from cuts) as [|c rest] eqn:E; [lia|]. apply drop_until_head in E. destruct (Z.ltb_spec c (Z.min (truncate_period from + MeteringPeriod) end_)); lia.
Qed.

Lemma entry_loop_tiles src fuel : forall cuts from end_ es, entry_loop rates fuel src cuts from end_ = Ret es -> tiles from end_ es.
Proof.
  induction fuel as [|fuel IH]; intros cuts from end_ es; simpl; destruct (Z.leb_spec end_ from); try done; try by intros [= <-].
  destruct (cardAt rates from) as [card|]; [|done]. destruct (src_price src card _) as [charge|]; [|done].
  intros (rest & Hr & [= <-])%go_bind_Ret. simpl. split; [done|]. split; [by apply piece_end_later|]. by apply IH in Hr.
Qed.

(** Pieces left: grid lines and cuts ahead. *)
Definition pieces_left (cuts : list Z) (from end_ : Z) : nat :=
  Z.to_nat ((end_ - 1) / MeteringPeriod - from / MeteringPeriod) + length (drop_until from cuts).

Lemma drop_until_twice from to cuts : from <= to -> drop_until to (drop_until from cuts) = drop_until to cuts.
Proof.
  intros H. induction cuts as [|c cuts IH]; simpl; [done|]. destruct (Z.leb_spec c from); [|done]. rewrite IH.
  destruct (Z.leb_spec c to); [done|lia].
Qed.

Lemma pieces_left_less cuts from end_ :
  from < end_ -> piece_end cuts from end_ < end_ ->
  (pieces_left (drop_until from cuts) (piece_end cuts from end_) end_ < pieces_left cuts from end_)%nat.
Proof.
  intros H. pose proof (piece_end_later cuts from end_ H) as [Hlt _]. unfold pieces_left. rewrite drop_until_twice by lia. revert Hlt.
  unfold piece_end. rewrite minTime_min. pose proof (truncate_period_le from) as Ht. pose proof period_pos as Hp.
  assert (Hgrid : forall to, from <= to -> to < end_ -> from / MeteringPeriod <= to / MeteringPeriod <= (end_ - 1) / MeteringPeriod)
    by (intros to H1 H2; split; apply Z.div_le_mono; lia).
  assert (Htail : forall to c rest, drop_until from cuts = c :: rest -> c <= to -> (length (drop_until to cuts) <= length rest)%nat).
  { intros to c rest E Hc. pose proof (drop_until_head _ _ _ _ E). rewrite <- (drop_until_twice from to cuts) by lia. rewrite E. simpl.
    destruct (Z.leb_spec c to); [apply drop_until_length|lia]. }
  assert (Hsame : forall to, from <= to -> (length (drop_until to cuts) <= length (drop_until from cuts))%nat)
    by (intros to Hto; rewrite <- (drop_until_twice from to cuts) by lia; apply drop_until_length).
  assert (Hnext : (truncate_period from + MeteringPeriod) / MeteringPeriod = from / MeteringPeriod + 1).
  { unfold truncate_period. rewrite (Z.div_mod from MeteringPeriod) at 1 by lia.
    replace (MeteringPeriod * (from / MeteringPeriod) + from mod MeteringPeriod - from mod MeteringPeriod + MeteringPeriod)
      with ((from / MeteringPeriod + 1) * MeteringPeriod) by lia. by apply Z.div_mul. }
  destruct (drop_until from cuts) as [|c rest] eqn:E.
  - intros Hlt Hend. specialize (Hgrid (Z.min (truncate_period from + MeteringPeriod) end_)). specialize (Hsame (Z.min (truncate_period from + MeteringPeriod) end_)).
    rewrite Z.min_l in * by lia. rewrite Hnext in *. simpl in *. lia.
  - destruct (Z.ltb_spec c (Z.min (truncate_period from + MeteringPeriod) end_)) as [Hc|Hc]; intros Hlt Hend.
    + specialize (Hgrid c). specialize (Htail c c rest eq_refl). simpl. lia.
    + specialize (Hgrid (Z.min (truncate_period from + MeteringPeriod) end_)). specialize (Hsame (Z.min (truncate_period from + MeteringPeriod) end_)).
      rewrite Z.min_l in * by lia. rewrite Hnext in *. simpl in *. lia.
Qed.

(** The loop ends within its fuel. *)
Lemma entry_loop_returns src fuel : forall cuts from end_,
  (pieces_left cuts from end_ < fuel)%nat -> returns (entry_loop rates fuel src cuts from end_).
Proof.
  induction fuel as [|fuel IH]; intros cuts from end_ Hf; [lia|]. simpl. destruct (Z.leb_spec end_ from); [apply returns_Ret|].
  destruct (cardAt rates from) as [card|]; [|apply returns_Err]. destruct (src_price src card _) as [charge|]; [|apply returns_Err].
  apply returns_bind; [|intros; apply returns_Ret]. destruct (Z_lt_le_dec (piece_end cuts from end_) end_) as [Hlt|Hge].
  - apply IH. pose proof (pieces_left_less cuts from end_ ltac:(lia) Hlt). lia.
  - destruct fuel; simpl; destruct (Z.leb_spec end_ (piece_end cuts from end_)); try apply returns_Ret; lia.
Qed.

Lemma entries_returns src start end_ : returns (entries rates src start end_).
Proof.
  unfold entries. apply entry_loop_returns. unfold pieces_left, entry_fuel. pose proof (drop_until_length start (changesBetween rates start end_)).
  pose proof period_pos as Hp. assert (Hg : (end_ - 1) / MeteringPeriod - start / MeteringPeriod <= (end_ - start) / MeteringPeriod + 1).
  { pose proof (Z.div_mod (end_ - 1) MeteringPeriod). pose proof (Z.mod_pos_bound (end_ - 1) MeteringPeriod Hp).
    pose proof (Z.div_mod start MeteringPeriod). pose proof (Z.mod_pos_bound start MeteringPeriod Hp).
    pose proof (Z.div_mod (end_ - start) MeteringPeriod). pose proof (Z.mod_pos_bound (end_ - start) MeteringPeriod Hp). nia. }
  lia.
Qed.

Lemma entries_tiles src start end_ es : entries rates src start end_ = Ret es -> tiles start end_ es.
Proof. apply entry_loop_tiles. Qed.

Lemma spanEntries_returns src spans : returns (spanEntries rates src spans).
Proof.
  induction spans as [|s spans IH]; simpl; [apply returns_Ret|]. apply returns_bind; [apply entries_returns|]. intros es _.
  apply returns_bind; [done|]. intros; apply returns_Ret.
Qed.

(** A source whose every instant from [since] on has a card that prices it. *)
Definition priced_from (src : source) (since : Z) : Prop :=
  forall t d, since <= t -> exists card charge, cardAt rates t = Some card /\ src_price src card d = Some charge.

Lemma entry_loop_errorless src since fuel : forall cuts from end_,
  priced_from src since -> since <= from -> errorless (entry_loop rates fuel src cuts from end_).
Proof.
  induction fuel as [|fuel IH]; intros cuts from end_ Hp Hf; simpl; destruct (Z.leb_spec end_ from); try done.
  destruct (Hp from (piece_end cuts from end_ - from) Hf) as (card & charge & -> & ->).
  apply errorless_bind; [|done]. apply IH; [done|]. pose proof (piece_end_later cuts from end_ ltac:(lia)). lia.
Qed.

Lemma spanEntries_errorless src since spans :
  priced_from src since -> (forall s, s ∈ spans -> since <= sn_start s) -> errorless (spanEntries rates src spans).
Proof.
  intros Hp. induction spans as [|s spans IH]; intros Hs; simpl; [done|].
  apply errorless_bind; [eapply entry_loop_errorless; [done|]; apply Hs; left|]. intros es _.
  apply errorless_bind; [|done]. apply IH. intros x Hx. apply Hs. by right.
Qed.

(** The entries of spans bill what the spans hold. *)
Lemma spanEntries_times src spans : forall es t, spanEntries rates src spans = Ret es -> times t es = span_times t spans.
Proof.
  induction spans as [|s spans IH]; intros es t; simpl; [by intros [= <-]|]. intros (e & He & (rest & Hr & [= <-])%go_bind_Ret)%go_bind_Ret.
  rewrite times_app, (IH _ t Hr), (tiles_times _ _ _ t (entries_tiles _ _ _ _ He)). unfold span_times. simpl.
  destruct ((sn_start s <=? t) && (t <? sn_end s)); simpl; lia.
Qed.

Lemma spanEntries_within src spans : forall es e, spanEntries rates src spans = Ret es -> e ∈ es ->
  exists s, s ∈ spans /\ sn_start s <= en_start e /\ en_start e < en_end e <= sn_end s.
Proof.
  induction spans as [|s spans IH]; intros es e; simpl; [intros [= <-] He; by apply not_elem_of_nil in He|].
  intros (l & Hl & (rest & Hr & [= <-])%go_bind_Ret)%go_bind_Ret [He|He]%elem_of_app.
  - exists s. split; [left|]. exact (tiles_within _ _ _ _ (entries_tiles _ _ _ _ Hl) He).
  - destruct (IH _ _ Hr He) as (s' & Hs' & H). exists s'. split; [by right|done].
Qed.

(** ** Rates *)

(** Every entry is priced by the card in force over all of it. *)
Definition constant_rate (e : entry) : Prop := forall t, en_start e <= t < en_end e -> cardAt rates t = cardAt rates (en_start e).

Lemma drop_until_sorted from cuts : StronglySorted Z.le cuts -> StronglySorted Z.le (drop_until from cuts).
Proof. induction 1 as [|c cuts H IH Hc]; simpl; [constructor|]. destruct (_ <=? _); [done|by constructor]. Qed.

Lemma drop_until_dropped from cuts c : StronglySorted Z.le cuts -> c ∈ cuts -> c <= from \/ c ∈ drop_until from cuts.
Proof.
  intros H. induction H as [|x cuts H IH Hx]; intros Hc; [by apply not_elem_of_nil in Hc|]. simpl. destruct (Z.leb_spec x from); [|by right].
  apply elem_of_cons in Hc as [->|Hc]; [by left|auto].
Qed.

Lemma piece_end_uncut cuts from end_ c : StronglySorted Z.le cuts -> c ∈ cuts -> from < c -> piece_end cuts from end_ <= c.
Proof.
  intros Hs Hc Hlt. destruct (drop_until_dropped from cuts c Hs Hc) as [|Hd]; [lia|]. pose proof (drop_until_sorted from cuts Hs) as Hds.
  unfold piece_end. destruct (drop_until from cuts) as [|x rest]; [by apply not_elem_of_nil in Hd|].
  assert (x <= c). { apply StronglySorted_inv in Hds as [_ Hx]. apply elem_of_cons in Hd as [->|Hd]; [lia|].
    rewrite Forall_forall in Hx. by apply Hx. }
  destruct (Z.ltb_spec x (minTime (truncate_period from + MeteringPeriod) end_)); lia.
Qed.

Lemma entry_loop_uncut src fuel : forall cuts from end_ es,
  StronglySorted Z.le cuts -> entry_loop rates fuel src cuts from end_ = Ret es ->
  forall e c, e ∈ es -> c ∈ cuts -> ~ (en_start e < c < en_end e).
Proof.
  induction fuel as [|fuel IH]; intros cuts from end_ es Hs; simpl; destruct (Z.leb_spec end_ from); try done; try by intros [= <-] e c He%not_elem_of_nil.
  destruct (cardAt rates from) as [card|]; [|done]. destruct (src_price src card _) as [charge|]; [|done].
  intros (rest & Hr & [= <-])%go_bind_Ret e c He Hc. apply elem_of_cons in He as [->|He].
  - simpl. intros [H1 H2]. pose proof (piece_end_uncut cuts from end_ c Hs Hc H1). lia.
  - destruct (drop_until_dropped from cuts c Hs Hc) as [Hle|Hd]; [|by apply (IH _ _ _ _ (drop_until_sorted from cuts Hs) Hr)].
    pose proof (piece_end_later cuts from end_ ltac:(lia)). pose proof (tiles_within _ _ _ _ (entry_loop_tiles _ _ _ _ _ _ Hr) He). lia.
Qed.

Lemma changes_sorted start end_ : StronglySorted Z.le (map rc_effectiveAt rates) -> StronglySorted Z.le (changesBetween rates start end_).
Proof.
  unfold changesBetween. induction rates as [|r rs IH]; intros H; simpl in *; [constructor|]. apply StronglySorted_inv in H as [H Hr].
  destruct (_ && _); simpl; [|auto]. constructor; [auto|]. rewrite Forall_forall in *. intros x Hx. apply Hr.
  apply list_elem_of_In, in_map_iff in Hx as (y & <- & Hy). apply List.filter_In in Hy as [Hy _]. apply list_elem_of_In. by apply in_map.
Qed.

Lemma entries_constant src start end_ es :
  StronglySorted Z.le (map rc_effectiveAt rates) -> entries rates src start end_ = Ret es -> forall e, e ∈ es -> constant_rate e.
Proof.
  intros Hs He e Hin t Ht. pose proof (tiles_within _ _ _ _ (entries_tiles _ _ _ _ He) Hin) as [H1 H2]. symmetry.
  apply (changesBetween_constant rates start end_); try lia. intros c Hc Hlt. apply list_elem_of_In in Hc.
  apply (entry_loop_uncut _ _ _ _ _ _ (changes_sorted start end_ Hs) He e c Hin Hc). lia.
Qed.
End Rates.

(** ** Billed spans *)

Definition in_span (t : Z) (s : span) : bool := (sn_start s <=? t) && (t <? sn_end s).

(** What a container bills: everything before the first attempt preemption
    ended, and after it the time its other attempts ran. *)
Definition billed_at (start end_ : Z) (preempted : option Z) (kept : list span) (t : Z) : bool :=
  (start <=? t) && (t <? end_) && match preempted with None => true | Some p => (t <? p) || existsb (in_span t) kept end.

Lemma span_times_app t a b : span_times t (a ++ b) = (span_times t a + span_times t b)%nat.
Proof. unfold span_times. by rewrite List.filter_app, length_app. Qed.

Lemma span_times_rev t l : span_times t (rev l) = span_times t l.
Proof. induction l as [|s l IH]; simpl; [done|]. rewrite span_times_app, IH. unfold span_times. simpl. destruct (_ && _); simpl; lia. Qed.

Lemma span_times_cons t s l : span_times t (s :: l) = (once (in_span t s) + span_times t l)%nat.
Proof. unfold span_times, in_span. simpl. by destruct (_ && _). Qed.

#[local] Abbreviation by_start := (fun a b => sn_start a <= sn_start b).

Lemma keep_spans_times end_ kept : forall last done t,
  StronglySorted by_start kept -> sn_start last <= sn_end last ->
  span_times t (keep_spans end_ last done kept) =
  Nat.add (span_times t done) (once ((sn_start last <=? t) && ((t <? sn_end last) || ((t <? end_) && existsb (in_span t) kept)))).
Proof.
  induction kept as [|k kept IH]; intros last done t Hs Hl; cbn [keep_spans].
  { rewrite span_times_rev, span_times_cons. simpl. rewrite andb_false_r, orb_false_r. unfold in_span. lia. }
  apply StronglySorted_inv in Hs as [Hs Hk]. rewrite minTime_min, maxTime_max. cbn [sn_start sn_end].
  cbn [existsb]. unfold in_span at 1.
  destruct (Z.leb_spec (Z.min (sn_end k) end_) (Z.max (sn_start k) (sn_start last))) as [He|He].
  { rewrite IH by done. f_equal. f_equal. destruct (Z.leb_spec (sn_start last) t); [|done]. simpl. f_equal.
    destruct (Z.ltb_spec t end_); [|done]. simpl. replace ((sn_start k <=? t) && (t <? sn_end k)) with false; [done|].
    destruct (Z.leb_spec (sn_start k) t), (Z.ltb_spec t (sn_end k)); try done. lia. }
  destruct (Z.leb_spec (Z.max (sn_start k) (sn_start last)) (sn_end last)) as [Hm|Hm].
  { rewrite IH by (done || (rewrite maxTime_max; cbn; lia)). rewrite maxTime_max. cbn [sn_start sn_end]. f_equal. f_equal.
    destruct (Z.leb_spec (sn_start last) t); [|done]. simpl.
    destruct (Z.ltb_spec t (Z.max (sn_end last) (Z.min (sn_end k) end_))), (Z.ltb_spec t (sn_end last)), (Z.ltb_spec t end_),
      (Z.leb_spec (sn_start k) t), (Z.ltb_spec t (sn_end k)); simpl; try done; lia. }
  rewrite IH by (done || (cbn; lia)). rewrite span_times_cons. cbn [sn_start sn_end]. unfold in_span at 1.
  assert (Hnone : t < sn_start k -> existsb (in_span t) kept = false).
  { intros Ht. destruct (existsb _ _) eqn:E; [|done]. apply existsb_exists in E as (x & Hx & E). rewrite Forall_forall in Hk.
    apply list_elem_of_In in Hx. specialize (Hk x Hx). unfold in_span in E. rewrite andb_true_iff, Z.leb_le in E. lia. }
  destruct (Z_lt_le_dec t (sn_start k)) as [Hlt|Hge].
  - rewrite (Hnone Hlt). rewrite Z.max_l by lia. replace (sn_start k <=? t) with false by lia. simpl. rewrite andb_false_r, orb_false_r. lia.
  - rewrite Z.max_l by lia. replace (sn_start k <=? t) with true by lia. replace (sn_start last <=? t) with true by lia.
    replace (t <? sn_end last) with false by lia. simpl.
    replace (t <? Z.min (sn_end k) end_) with ((t <? sn_end k) && (t <? end_)) by (destruct (Z.ltb_spec t (sn_end k)), (Z.ltb_spec t end_); simpl; lia).
    destruct (t <? sn_end k), (t <? end_), (existsb _ _); simpl; lia.
Qed.

Lemma delete_empty_times t l : span_times t (delete_func (fun s => sn_end s <=? sn_start s) l) = span_times t l.
Proof.
  unfold delete_func. induction l as [|s l IH]; [done|]. rewrite span_times_cons, <- IH. simpl.
  destruct (Z.leb_spec (sn_end s) (sn_start s)); simpl; [|by rewrite span_times_cons]. unfold in_span.
  destruct (Z.leb_spec (sn_start s) t), (Z.ltb_spec t (sn_end s)); simpl; try lia; done.
Qed.

(** [billedSpans] bills each instant it should once, and no other. *)
Lemma billedSpans_times start end_ preempted kept t :
  StronglySorted by_start kept -> span_times t (billedSpans start end_ preempted kept) = once (billed_at start end_ preempted kept t).
Proof.
  intros Hs. unfold billedSpans, billed_at. destruct preempted as [p|]; [|unfold span_times; simpl; rewrite andb_true_r; by destruct (_ && _)].
  rewrite delete_empty_times, keep_spans_times; [|done|rewrite maxTime_max; cbn; lia]. simpl. rewrite maxTime_max, minTime_min. f_equal.
  destruct (Z.leb_spec start t); [|done]. simpl.
  destruct (Z.ltb_spec t (Z.max start (Z.min p end_))), (Z.ltb_spec t end_), (Z.ltb_spec t p); simpl; try done; lia.
Qed.

Lemma billedSpans_within start end_ preempted kept s :
  s ∈ billedSpans start end_ preempted kept -> start <= sn_start s.
Proof.
  unfold billedSpans. destruct preempted as [p|]; [|intros ->%list_elem_of_singleton; done]. unfold delete_func. intros Hs.
  apply list_elem_of_In, List.filter_In in Hs as [Hs _]. apply list_elem_of_In in Hs. revert Hs.
  assert (H : forall kept last done, start <= sn_start last -> (forall x, x ∈ done -> start <= sn_start x) ->
    s ∈ keep_spans end_ last done kept -> start <= sn_start s); [|apply H; [done|]; intros x Hx; by apply not_elem_of_nil in Hx].
  clear. induction kept as [|k kept IH]; intros last done Hl Hd; cbn [keep_spans].
  - rewrite list_elem_of_In, <- in_rev, <- list_elem_of_In. intros [->|Hs]%elem_of_cons; auto.
  - cbv zeta. repeat case_match; apply IH; cbn; rewrite ?maxTime_max; try done; try lia. intros x [->|Hx]%elem_of_cons; auto.
Qed.

(** What [planOpen] writes and what it leaves open split the billed spans. *)
Lemma written_spans_cons closed s l :
  written_spans closed (s :: l) =
  (if sn_start s <? closed then [mkSpan (sn_start s) (minTime (sn_end s) closed)] else []) ++ written_spans closed l.
Proof. unfold written_spans. simpl. by destruct (_ <? _). Qed.

Lemma open_spans_cons closed s l :
  open_spans closed (s :: l) =
  (if closed <? sn_end s then [mkSpan (maxTime (sn_start s) closed) (sn_end s)] else []) ++ open_spans closed l.
Proof. unfold open_spans. simpl. by destruct (_ <? _). Qed.

Lemma written_spans_within closed since l s :
  (forall x, x ∈ l -> since <= sn_start x) -> s ∈ written_spans closed l -> since <= sn_start s.
Proof. intros H (x & Hx & E)%list_elem_of_omap. destruct (_ <? _) in E; [|done]. injection E as <-. exact (H x Hx). Qed.

Lemma open_spans_within closed since l s :
  (forall x, x ∈ l -> since <= sn_start x) -> s ∈ open_spans closed l -> since <= sn_start s.
Proof.
  intros H (x & Hx & E)%list_elem_of_omap. destruct (_ <? _) in E; [|done]. injection E as <-. specialize (H x Hx). simpl.
  rewrite maxTime_max. lia.
Qed.

Lemma written_times closed l t : span_times t (written_spans closed l) = if t <? closed then span_times t l else 0%nat.
Proof.
  induction l as [|s l IH]; [by destruct (_ <? _)|]. rewrite written_spans_cons, span_times_app, span_times_cons, IH. unfold in_span.
  destruct (Z.ltb_spec (sn_start s) closed); [rewrite span_times_cons; unfold in_span; cbn; rewrite minTime_min|];
    destruct (Z.ltb_spec t closed), (Z.leb_spec (sn_start s) t), (Z.ltb_spec t (sn_end s)); simpl; try lia;
    destruct (Z.ltb_spec t (Z.min (sn_end s) closed)); simpl; lia.
Qed.

Lemma open_times closed l t : span_times t (open_spans closed l) = if t <? closed then 0%nat else span_times t l.
Proof.
  induction l as [|s l IH]; [by destruct (_ <? _)|]. rewrite open_spans_cons, span_times_app, span_times_cons, IH. unfold in_span.
  destruct (Z.ltb_spec closed (sn_end s)); [rewrite span_times_cons; unfold in_span; cbn; rewrite maxTime_max|];
    destruct (Z.ltb_spec t closed), (Z.leb_spec (sn_start s) t), (Z.ltb_spec t (sn_end s)); simpl; try lia;
    destruct (Z.leb_spec (Z.max (sn_start s) closed) t); simpl; lia.
Qed.

(** ** Plans *)

(** The entries of a plan bill no instant twice, lie from [start] on and end
    by the cursor it advances to. *)
Record plan_sound (start : Z) (p : sourcePlan) : Prop := {
  ps_within : forall e, e ∈ pn_entries p -> start <= en_start e /\ en_start e < en_end e <= pn_through p;
  ps_advance : pn_entries p <> [] -> pn_advance p = true;
  ps_through : start <= pn_through p;
  ps_once : forall t, (times t (pn_entries p) <= 1)%nat }.

Lemma once_le b : (once b <= 1)%nat.
Proof. destruct b; simpl; lia. Qed.

Section Plans.
Context (rates : list rateChange).

Lemma planOpen_spec src start horizon billed measured p t :
  (forall s, s ∈ billed -> start <= sn_start s) -> planOpen rates src start horizon billed measured = Ret p ->
  pn_src p = src /\ start <= pn_through p /\
  times t (pn_entries p) = (if t <? pn_through p then span_times t billed else 0%nat) /\
  (forall e, e ∈ pn_entries p -> start <= en_start e /\ en_start e < en_end e <= pn_through p) /\
  (pn_entries p <> [] -> pn_advance p = true).
Proof.
  intros Hb. unfold planOpen. set (closed := truncate_period _). destruct (Z.ltb_spec start closed).
  - intros (es & Hes & (acc & _ & [= <-])%go_bind_Ret)%go_bind_Ret. simpl. split; [done|]. split; [lia|].
    split; [by rewrite (spanEntries_times _ _ _ _ _ Hes), written_times|]. split; [|done]. intros e He.
    destruct (spanEntries_within _ _ _ _ _ Hes He) as (s & Hs & H1 & H2). unfold written_spans in Hs.
    apply list_elem_of_omap in Hs as (s0 & Hs0 & E). destruct (_ <? _); [|done]. injection E as <-. simpl in *. rewrite minTime_min in H2.
    specialize (Hb _ Hs0). lia.
  - intros (acc & _ & [= <-])%go_bind_Ret. simpl. split; [done|]. split; [done|]. split; [|split; [|done]].
    + destruct (Z.ltb_spec t start); [|done]. unfold times. simpl. symmetry. unfold span_times.
      induction billed as [|s l IH]; [done|]. simpl. assert (start <= sn_start s) by (apply Hb; left).
      replace (sn_start s <=? t) with false by lia. simpl. apply IH. intros x Hx. apply Hb. by right.
    + intros e He. by apply not_elem_of_nil in He.
Qed.

(** Every instant a container bills by its cursor is in one entry, and no
    other instant is in any. *)
Lemma planContainer_spec c now measured p :
  StronglySorted by_start (mc_kept c) -> planContainer rates c now measured = Ret p ->
  pn_src p = container_source c /\ plan_sound (container_start c) p /\
  forall t, times t (pn_entries p) =
    once (billed_at (container_start c) (container_end c now).1 (mc_preemptedFrom c) (mc_kept c) t && (t <? pn_through p)).
Proof.
  intros Hk. unfold planContainer. destruct (container_end c now) as [end_ ended]. cbn [fst].
  set (start := container_start c). set (billed := billedSpans _ _ _ _).
  assert (Hin : forall s, s ∈ billed -> start <= sn_start s) by (intros s; apply billedSpans_within).
  assert (Ht : forall t, span_times t billed = once (billed_at start end_ (mc_preemptedFrom c) (mc_kept c) t))
    by (intros t; by apply billedSpans_times).
  destruct (ended && _).
  - intros (es & Hes & [= <-])%go_bind_Ret. simpl. rewrite maxTime_max.
    assert (Ht' : forall t, times t es = once (billed_at start end_ (mc_preemptedFrom c) (mc_kept c) t && (t <? Z.max start end_))).
    { intros t. rewrite (spanEntries_times _ _ _ _ _ Hes), Ht. f_equal. unfold billed_at.
      destruct (Z.ltb_spec t end_), (Z.ltb_spec t (Z.max start end_)); rewrite ?andb_false_r, ?andb_true_r; try done; lia. }
    split; [done|]. split; [|done]. split; simpl; [|done|lia|intros t; rewrite Ht'; apply once_le].
    intros e He. destruct (spanEntries_within _ _ _ _ _ Hes He) as (s & Hs & H1 & H2). specialize (Hin _ Hs).
    assert (He' : times (en_end e - 1) es <> 0%nat).
    { unfold times. intros E. apply length_zero_iff_nil in E. assert (Hf : In e (List.filter (during (en_end e - 1)) es)).
      - apply List.filter_In. split; [by apply list_elem_of_In|]. unfold during. lia.
      - by rewrite E in Hf. }
    rewrite Ht' in He'. destruct (Z.ltb_spec (en_end e - 1) (Z.max start end_)); [|by rewrite andb_false_r in He'].
    lia.
  - intros Hp. destruct (planOpen_spec _ _ _ _ _ _ 0 Hin Hp) as (Hsrc & Hth & _ & Hw & Ha).
    assert (Htm : forall t, times t (pn_entries p) = if t <? pn_through p then span_times t billed else 0%nat).
    { intros t. by destruct (planOpen_spec _ _ _ _ _ _ t Hin Hp) as (_ & _ & H & _). }
    split; [done|]. split; [split; [done|done|done|]|]; intros t; rewrite Htm, Ht.
    + destruct (_ <? _); [apply once_le|lia].
    + destruct (_ <? _); by rewrite ?andb_true_r, ?andb_false_r.
Qed.

Lemma planContainer_returns c now measured : returns (planContainer rates c now measured).
Proof.
  unfold planContainer. destruct (container_end c now) as [end_ ended]. destruct (ended && _).
  - apply returns_bind; [apply spanEntries_returns|]. intros; apply returns_Ret.
  - unfold planOpen. destruct (_ <? _); repeat (apply returns_bind; [apply spanEntries_returns|intros ? _]); apply returns_Ret.
Qed.

(** Where a plan of a container advances its cursor to: the end of a container
    whose use is all measured, or the last period that is over and measured. *)
Definition billed_through (c : meteredContainer) (now measured : Z) : Z :=
  let end_ := (container_end c now).1 in
  let m := measured_for c measured in
  Z.max (container_start c) (if (container_end c now).2 && (end_ <=? m) then end_ else truncate_period (Z.min end_ m)).

Lemma planContainer_through c now measured p : planContainer rates c now measured = Ret p -> pn_through p = billed_through c now measured.
Proof.
  unfold planContainer, billed_through. destruct (container_end c now) as [end_ ended]. cbn [fst snd]. destruct (ended && _).
  - intros (es & _ & [= <-])%go_bind_Ret. simpl. by rewrite maxTime_max.
  - unfold planOpen. rewrite minTime_min. destruct (Z.ltb_spec (container_start c) (truncate_period (Z.min end_ (measured_for c measured)))).
    + intros (es & _ & (acc & _ & [= <-])%go_bind_Ret)%go_bind_Ret. simpl. lia.
    + intros (acc & _ & [= <-])%go_bind_Ret. simpl. lia.
Qed.

(** A container that can be priced from where its billing starts is planned. *)
Lemma planContainer_Ret c now measured :
  priced_from rates (container_source c) (container_start c) -> exists p, planContainer rates c now measured = Ret p.
Proof.
  intros Hp. apply returns_errorless; [apply planContainer_returns|]. unfold planContainer. destruct (container_end c now) as [end_ ended].
  set (billed := billedSpans _ _ _ _). assert (Hin : forall s, s ∈ billed -> container_start c <= sn_start s) by (intros s; apply billedSpans_within).
  assert (Hopen : forall closed, errorless (spanEntries rates (container_source c) (open_spans closed billed)))
    by (intros closed; eapply spanEntries_errorless; [done|]; intros s; by apply open_spans_within).
  destruct (ended && _).
  - apply errorless_bind; [|done]. by eapply spanEntries_errorless.
  - unfold planOpen. destruct (_ <? _); [|by apply errorless_bind]. apply errorless_bind; [|intros es _; by apply errorless_bind].
    eapply spanEntries_errorless; [done|]. intros s. by apply written_spans_within.
Qed.

Lemma planStorage_spec s now p :
  planStorage rates s now = Ret p -> pn_src p = ss_src s /\ plan_sound (storage_start s) p.
Proof.
  unfold planStorage. destruct (match ss_deleted s with Some d => _ | None => _ end) as [end_ complete].
  destruct (Z.leb_spec end_ (storage_start s)).
  - intros [= <-]. split; [done|]. split; simpl; [intros e He; by apply not_elem_of_nil in He|done|lia|]. intros t. unfold times. simpl. lia.
  - intros (es & Hes & [= <-])%go_bind_Ret. split; [done|]. apply entries_tiles in Hes. split; simpl; [|done|lia|].
    + intros e He. apply (tiles_within _ _ _ _ Hes He).
    + intros t. rewrite (tiles_times _ _ _ t Hes). apply once_le.
Qed.

(** Measured use changes charges, never intervals. *)
Lemma measured_entries_spans big used shape from to es : forall es',
  measured_entries rates big used shape from to es = Ret es' -> Forall2 (fun a b => en_start b = en_start a /\ en_end b = en_end a) es es'.
Proof.
  induction es as [|e es IH]; intros es'; simpl; [by intros [= <-]|]. intros (e' & He & (rest & Hr & [= <-])%go_bind_Ret)%go_bind_Ret.
  constructor; [|auto]. unfold measured_entry in He. destruct (used _); [|by injection He as <-]. destruct (_ == _); [by injection He as <-|].
  destruct (cardAt _ _); [|done]. destruct (price _ _ _); [|done]. by injection He as <-.
Qed.

Lemma same_spans_times t es es' :
  Forall2 (fun a b => en_start b = en_start a /\ en_end b = en_end a) es es' -> times t es' = times t es.
Proof.
  unfold times. induction 1 as [|a b es es' [E1 E2] _ IH]; [done|]. simpl.
  replace (during t b) with (during t a) by (unfold during; by rewrite E1, E2). destruct (during t a); simpl; lia.
Qed.

Lemma applyMeasuredUse_sound big used start p p' :
  plan_sound start p -> applyMeasuredUse rates big used p = Ret p' -> pn_src p' = pn_src p /\ plan_sound start p'.
Proof.
  intros [Hw Ha Hth Ho]. unfold applyMeasuredUse. destruct (src_shape _) as [shape|]; [|by intros [= <-]].
  destruct (pn_entries p) as [|e es] eqn:E; [intros [= <-]; split; [done|]; split; by rewrite ?E|].
  destruct (last _) as [l|]; [|intros [= <-]; split; [done|]; split; by rewrite ?E]. rewrite <- E in *.
  intros (es' & Hes & [= <-])%go_bind_Ret. apply measured_entries_spans in Hes. split; [done|]. split; simpl.
  - intros x (i & Hx)%list_elem_of_lookup. destruct (Forall2_lookup_r _ _ _ _ _ Hes Hx) as (y & Hy & -> & ->). apply Hw.
    by eapply list_elem_of_lookup_2.
  - intros _. apply Ha. by rewrite E.
  - done.
  - intros t. by rewrite (same_spans_times t _ _ Hes).
Qed.
End Plans.

(** ** Where entries may start *)

(** Entries of a source that was there from [from] on start there, on the
    metering grid or at a rate change, and end by the next of those: so two
    of them that start apart never overlap, whenever they were written. *)
Section Aligned.
Context (rates : list rateChange) (from : Z).

Definition point (t : Z) : Prop := t = from \/ t mod MeteringPeriod = 0 \/ t ∈ map rc_effectiveAt rates.

Record aligned (s e : Z) : Prop := {
  al_from : from <= s;
  al_point : point s;
  al_grid : e <= truncate_period s + MeteringPeriod;
  al_cut : forall c, c ∈ map rc_effectiveAt rates -> s < c -> e <= c }.

Lemma aligned_disjoint s1 e1 s2 e2 : aligned s1 e1 -> aligned s2 e2 -> s1 < s2 -> e1 <= s2.
Proof.
  intros [F1 _ G1 C1] [_ [->|[H|H]] _ _] Hlt; [lia| |by apply C1]. unfold truncate_period in *. pose proof period_pos as Hp.
  pose proof (Z.div_mod s1 MeteringPeriod ltac:(lia)). pose proof (Z.div_mod s2 MeteringPeriod ltac:(lia)).
  assert (s1 / MeteringPeriod < s2 / MeteringPeriod) by (apply Z.div_lt_upper_bound; lia). nia.
Qed.

Lemma truncate_point t : point (truncate_period t).
Proof.
  right. left. unfold truncate_period. rewrite Zminus_mod, Z.mod_mod, Z.sub_diag by done. apply Z.mod_0_l. done.
Qed.

Lemma next_period_point t : point (truncate_period t + MeteringPeriod).
Proof.
  right. left. unfold truncate_period. replace (t - t mod MeteringPeriod + MeteringPeriod) with ((t / MeteringPeriod + 1) * MeteringPeriod).
  - apply Z.mod_mul. done.
  - pose proof (Z.div_mod t MeteringPeriod ltac:(done)). lia.
Qed.

(** A piece that does not reach the end of its interval ends at a point. *)
Lemma piece_end_point cuts t end_ :
  (forall c, c ∈ cuts -> point c) -> piece_end cuts t end_ < end_ -> point (piece_end cuts t end_).
Proof.
  intros Hc. unfold piece_end. rewrite minTime_min. destruct (drop_until t cuts) as [|c rest] eqn:E.
  - intros H. rewrite Z.min_l by lia. apply next_period_point.
  - destruct (_ <? _) eqn:El; [|intros H; rewrite Z.min_l by lia; apply next_period_point]. intros _. apply Hc.
    assert (Hsub : forall x, x ∈ drop_until t cuts -> x ∈ cuts); [|apply Hsub; rewrite E; left].
    clear. induction cuts as [|c cuts IH]; simpl; [done|]. intros x. destruct (_ <=? _); [|done]. intros H. right. auto.
Qed.

Lemma piece_end_grid cuts t end_ : piece_end cuts t end_ <= truncate_period t + MeteringPeriod.
Proof. unfold piece_end. rewrite minTime_min. destruct (drop_until t cuts) as [|c rest]; [lia|]. destruct (c <? _) eqn:E; [apply Z.ltb_lt in E|]; lia. Qed.

Lemma entry_loop_points src fuel : forall cuts t end_ es, (forall c, c ∈ cuts -> point c) -> point t ->
  entry_loop rates fuel src cuts t end_ = Ret es ->
  forall e, e ∈ es -> point (en_start e) /\ en_end e <= truncate_period (en_start e) + MeteringPeriod.
Proof.
  induction fuel as [|fuel IH]; intros cuts t end_ es Hc Ht; simpl; destruct (Z.leb_spec end_ t); try done;
    try by intros [= <-] e He%not_elem_of_nil.
  destruct (cardAt rates t) as [card|]; [|done]. destruct (src_price src card _) as [charge|]; [|done].
  intros (rest & Hr & [= <-])%go_bind_Ret e [->|He]%elem_of_cons; [split; [done|apply piece_end_grid]|].
  assert (Hsub : forall x, x ∈ drop_until t cuts -> x ∈ cuts).
  { clear. induction cuts as [|c cuts IH]; simpl; [done|]. intros x. destruct (_ <=? _); [|done]. intros H. right. auto. }
  destruct (Z_lt_le_dec (piece_end cuts t end_) end_) as [Hlt|Hge].
  - exact (IH _ _ _ _ (fun c Hin => Hc c (Hsub c Hin)) (piece_end_point _ _ _ Hc Hlt) Hr e He).
  - apply entry_loop_tiles in Hr. pose proof (tiles_within _ _ _ _ Hr He). lia.
Qed.

Hypothesis Hrates : StronglySorted Z.le (map rc_effectiveAt rates).

Lemma entries_aligned src start end_ es : from <= start -> point start -> entries rates src start end_ = Ret es ->
  forall e, e ∈ es -> aligned (en_start e) (en_end e).
Proof using Hrates.
  intros Hf Hp He e Hin. pose proof (tiles_within _ _ _ _ (entries_tiles _ _ _ _ _ He) Hin) as [H1 H2].
  assert (Hcuts : forall c, c ∈ changesBetween rates start end_ -> c ∈ map rc_effectiveAt rates).
  { intros c Hc. apply list_elem_of_In, in_map_iff in Hc as (x & <- & Hx). apply List.filter_In in Hx as [Hx _]. by apply list_elem_of_In, in_map. }
  destruct (entry_loop_points _ _ _ _ _ _ (fun c Hc => or_intror (or_intror (Hcuts c Hc))) Hp He e Hin) as [H3 H4].
  split; [lia|done|done|]. intros c Hc Hlt. destruct (Z_le_gt_dec (en_end e) c); [done|].
  exfalso. apply (entry_loop_uncut _ _ _ _ _ _ _ (changes_sorted _ start end_ Hrates) He e c Hin); [|lia].
  apply list_elem_of_In, in_map_iff in Hc as (x & <- & Hx). apply list_elem_of_In, in_map, List.filter_In. split; [done|]. lia.
Qed.

Lemma spanEntries_aligned src start spans : forall es, from <= start -> point start -> (forall s, s ∈ spans -> sn_start s = start) ->
  spanEntries rates src spans = Ret es -> forall e, e ∈ es -> aligned (en_start e) (en_end e).
Proof using Hrates.
  induction spans as [|s spans IH]; intros es Hf Hp Hs; simpl; [intros [= <-] e He; by apply not_elem_of_nil in He|].
  intros (l & Hl & (rest & Hr & [= <-])%go_bind_Ret)%go_bind_Ret e [He|He]%elem_of_app.
  - rewrite (Hs s) in Hl by left. by eapply entries_aligned.
  - apply (IH rest); try done. intros x Hx. apply Hs. by right.
Qed.

End Aligned.

(** A container that lost no time before its end is billed in one span. *)
Lemma billedSpans_unbroken start end_ preempted kept s :
  match preempted with Some p => end_ <= p | None => True end -> s ∈ billedSpans start end_ preempted kept -> sn_start s = start.
Proof.
  unfold billedSpans. destruct preempted as [p|]; [|intros _ ->%list_elem_of_singleton; done]. intros Hp. unfold delete_func.
  intros Hs. apply list_elem_of_In, List.filter_In in Hs as [Hs _]. apply list_elem_of_In in Hs. revert Hs.
  assert (H : forall kept last, sn_start last = start -> end_ <= sn_end last -> s ∈ keep_spans end_ last [] kept -> sn_start s = start);
    [|apply H; cbn; [done|rewrite maxTime_max, minTime_min; lia]]. clear.
  induction kept as [|k kept IH]; intros last Hl He; cbn [keep_spans]; [by intros ->%list_elem_of_singleton|].
  cbv zeta. cbn [sn_start sn_end]. rewrite maxTime_max, minTime_min. destruct (Z.leb_spec (Z.min (sn_end k) end_) (Z.max (sn_start k) (sn_start last))).
  - by apply IH.
  - replace (Z.max (sn_start k) (sn_start last) <=? sn_end last) with true by lia. apply IH; cbn; [done|rewrite maxTime_max; lia].
Qed.

Section AlignedPlans.
Context (rates : list rateChange) (from : Z).
Hypothesis Hrates : StronglySorted Z.le (map rc_effectiveAt rates).

(** What a plan of a container says of its cursor when it lost no time. *)
Definition plan_aligned (p : sourcePlan) : Prop :=
  (forall e, e ∈ pn_entries p -> aligned rates from (en_start e) (en_end e)) /\
  (pn_advance p = true -> pn_complete p = true \/ point rates from (pn_through p)).

(** A container is complete when it ended and its use is all measured. *)
Definition finished (c : meteredContainer) (now measured : Z) : bool :=
  (container_end c now).2 && ((container_end c now).1 <=? measured_for c measured).

Lemma planContainer_complete c now measured p : planContainer rates c now measured = Ret p -> pn_complete p = finished c now measured.
Proof.
  unfold planContainer, finished. destruct (container_end c now) as [end_ ended]. cbn [fst snd]. destruct (ended && _).
  - by intros (es & _ & [= <-])%go_bind_Ret.
  - unfold planOpen. destruct (_ <? _); [intros (es & _ & (acc & _ & [= <-])%go_bind_Ret)%go_bind_Ret|intros (acc & _ & [= <-])%go_bind_Ret]; done.
Qed.

Lemma planContainer_aligned c now measured p :
  from <= container_start c -> point rates from (container_start c) ->
  match mc_preemptedFrom c with Some t => (container_end c now).1 <= t | None => True end ->
  planContainer rates c now measured = Ret p -> plan_aligned p.
Proof using Hrates.
  intros Hf Hs Hp. unfold planContainer. destruct (container_end c now) as [end_ ended]. cbn [fst] in Hp. set (billed := billedSpans _ _ _ _).
  assert (Hb : forall s, s ∈ billed -> sn_start s = container_start c) by (intros s; by apply billedSpans_unbroken).
  destruct (ended && _).
  - intros (es & Hes & [= <-])%go_bind_Ret. split; simpl; [|by left]. by eapply spanEntries_aligned.
  - unfold planOpen. destruct (_ <? _).
    + intros (es & Hes & (acc & _ & [= <-])%go_bind_Ret)%go_bind_Ret. split; simpl; [|right; apply truncate_point].
      eapply spanEntries_aligned; [done|done|done| |done]. intros s (x & Hx & E)%list_elem_of_omap. destruct (_ <? _); [|done]. injection E as <-. simpl. by apply Hb.
    + intros (acc & _ & [= <-])%go_bind_Ret. split; simpl; [intros e He; by apply not_elem_of_nil in He|done].
Qed.

(** A stored source's plan, as its row says it is or was deleted. *)
Lemma planStorage_aligned s now p :
  from <= storage_start s -> point rates from (storage_start s) -> planStorage rates s now = Ret p ->
  (forall e, e ∈ pn_entries p -> aligned rates from (en_start e) (en_end e)) /\
  (point rates from (pn_through p) \/ ss_deleted s = Some (pn_through p)) /\
  (pn_complete p = true -> ss_deleted s = Some (pn_through p)).
Proof using Hrates.
  intros Hf Hp. unfold planStorage. destruct (ss_deleted s) as [d|].
  - destruct (Z.leb_spec d (storage_start s)).
    + intros [= <-]. simpl. split; [intros e He; by apply not_elem_of_nil in He|]. split; [by left|done].
    + intros (es & Hes & [= <-])%go_bind_Ret. simpl. split; [by eapply entries_aligned|]. split; [by right|done].
  - destruct (Z.leb_spec (truncate_period now) (storage_start s)).
    + intros [= <-]. simpl. split; [intros e He; by apply not_elem_of_nil in He|]. split; [by left|done].
    + intros (es & Hes & [= <-])%go_bind_Ret. simpl. split; [by eapply entries_aligned|]. split; [left; apply truncate_point|done].
Qed.

(** Measured use keeps a plan's intervals and its cursor. *)
Lemma applyMeasuredUse_same big used p p' :
  applyMeasuredUse rates big used p = Ret p' ->
  pn_src p' = pn_src p /\ pn_through p' = pn_through p /\ pn_complete p' = pn_complete p /\ pn_advance p' = pn_advance p /\
  forall e', e' ∈ pn_entries p' -> exists e, e ∈ pn_entries p /\ en_start e' = en_start e /\ en_end e' = en_end e.
Proof.
  unfold applyMeasuredUse. destruct (src_shape _) as [shape|]; [|intros [= <-]; eauto 10].
  destruct (pn_entries p) as [|e es] eqn:E; [intros [= <-]; rewrite E; eauto 10|].
  destruct (last _) as [l|]; [|intros [= <-]; rewrite E; eauto 10]. rewrite <- E.
  intros (es' & Hes & [= <-])%go_bind_Ret. apply measured_entries_spans in Hes. simpl. repeat (split; [done|]).
  intros x (i & Hx)%list_elem_of_lookup. destruct (Forall2_lookup_r _ _ _ _ _ Hes Hx) as (y & Hy & E1 & E2). exists y.
  split; [by eapply list_elem_of_lookup_2|done].
Qed.

End AlignedPlans.
