(* ===== verification/MeterPass.v ===== *)
(** The ledger: whatever a metering pass reads, the books stay sound and the
    hours cost what their entries do.  With what the rows of a history say, a
    pass bills no instant of a source twice: sources whose entries lie on the
    metering grid are kept apart by the ledger's key, the others by their
    cursors, which are pruned only when no pass reads their source again. *)

From S2P Require Import Prelude Float64 Capacity Catalog Calendar GoLib Billing Placement Credits CreditLoops CreditProps RollupProps Metering MeteringProps.

(** What an hour costs, and what an entry adds to it. *)
Definition cost_of (b : books) (user : uuid) (at_ : Z) : Z := match bk_hours b !! (user, at_) with Some h => bh_cost h | None => 0 end.
Definition entry_cost (user : uuid) (at_ : Z) (row : (SourceKind * uuid * Z) * LedgerRow) : Z :=
  if (le_user row.2 =? user) && (truncate_hour row.1.2 =? at_) then Total (le_charge row.2) else 0.

(** The books are sound, every row satisfies the table's constraints, and an
    hour costs the sum of the entries that started in it. *)
Record ledger_core (m : meter) : Prop := {
  lc_books : books_ok (mt_books m);
  lc_checks : forall key r, mt_entries m !! key = Some r -> ledger_checks key.2 r = true;
  lc_hours : forall user at_, cost_of (mt_books m) user at_ = sum_over (entry_cost user at_) (mt_entries m) }.

(** A change of the books that leaves every hour's cost keeps it. *)
Lemma ledger_core_books m b :
  ledger_core m -> books_ok b -> (forall u t, cost_of b u t = cost_of (mt_books m) u t) -> ledger_core (m <| mt_books := b |>).
Proof. intros [H1 H2 H3] Hb Hc. split; try done. intros u t. rewrite <- H3. apply Hc. Qed.

Lemma cost_of_hours b b' u t : bk_hours b' = bk_hours b -> cost_of b' u t = cost_of b u t.
Proof. unfold cost_of. by intros ->. Qed.

(** ** Operations that leave hours alone *)

Lemma insert_lot_hours id l b b' : insert_lot id l b = Ret b' -> bk_hours b' = bk_hours b.
Proof. unfold insert_lot. destruct (_ || _ || _); [done|]. by intros [= <-]. Qed.

Lemma EnsureAccount_hours id user now b b' : EnsureAccount id user now b = Ret b' -> bk_hours b' = bk_hours b.
Proof.
  unfold EnsureAccount. destruct (bk_accounts b !! user); [by intros [= <-]|]. destruct (_ || _); [done|].
  intros (b2 & H & [= <-])%go_bind_Ret. by apply insert_lot_hours in H.
Qed.

Lemma EnsureAccounts_hours fresh users now : forall b b', EnsureAccounts fresh users now b = Ret b' -> bk_hours b' = bk_hours b.
Proof.
  unfold EnsureAccounts. induction users as [|u users IH]; intros b b'; simpl; [by intros [= <-]|].
  intros (b1 & H1 & H)%go_bind_Ret. rewrite (IH _ _ H). by apply EnsureAccount_hours in H1.
Qed.

(** ** Entries *)

Lemma charge_hour_cost user at_ cost b b' :
  charge_hour user at_ cost b = Ret b' ->
  forall u t, cost_of b' u t = cost_of b u t + (if (user =? u) && (at_ =? t) then cost else 0).
Proof.
  unfold charge_hour. destruct (negb _); [done|]. destruct (hour_checks _); [|done]. intros [= <-] u t. unfold cost_of, over. simpl.
  destruct (decide ((user, at_) = (u, t))) as [[= -> ->]|Hne].
  - rewrite lookup_insert_eq, !Z.eqb_refl. simpl. destruct (bk_hours b !! (u, t)); simpl; lia.
  - rewrite lookup_insert_ne by done. replace ((user =? u) && (at_ =? t)) with false; [lia|].
    destruct (Z.eqb_spec user u), (Z.eqb_spec at_ t); try done. subst. done.
Qed.

Lemma Total_nonneg s r : ledger_checks s r = true -> 0 <= Total (le_charge r).
Proof. unfold ledger_checks, Total. rewrite !andb_true_iff, !Z.leb_le. lia. Qed.

Lemma insert_entry_core m row m' : ledger_core m -> insert_entry m row = Ret m' -> ledger_core m'.
Proof.
  intros [H1 H2 H3]. unfold insert_entry. destruct row as [key r]. destruct (mt_entries m !! key) as [old|] eqn:Hk; [by intros [= <-]|].
  destruct (ledger_checks key.2 r) eqn:Hck; simpl; [|done]. intros (b & Hb & [= <-])%go_bind_Ret.
  pose proof (charge_hour_ok _ _ _ _ _ (Total_nonneg _ _ Hck) H1 Hb) as Hbo. pose proof (charge_hour_cost _ _ _ _ _ Hb) as Hcost.
  split; unfold over; simpl.
  - by apply mark_due_ok.
  - intros k r'. destruct (decide (k = key)) as [->|]; [rewrite lookup_insert_eq; by intros [= <-]|rewrite lookup_insert_ne by done; apply H2].
  - intros u t. rewrite sum_over_new, <- H3 by done. unfold entry_cost. simpl. rewrite <- Hcost. by apply cost_of_hours.
Qed.

Lemma InsertLedgerEntries_spec rows : forall m m',
  ledger_core m -> InsertLedgerEntries rows m = Ret m' ->
  ledger_core m' /\ mt_cursors m' = mt_cursors m /\ mt_egress m' = mt_egress m /\ mt_stopped_since m' = mt_stopped_since m /\
  (forall k r, mt_entries m' !! k = Some r -> mt_entries m !! k = Some r \/ (k, r) ∈ rows) /\
  (forall k r, mt_entries m !! k = Some r -> mt_entries m' !! k = Some r) /\
  (forall k r, (k, r) ∈ rows -> is_Some (mt_entries m' !! k)).
Proof.
  unfold InsertLedgerEntries. induction rows as [|[key row] rows IH]; intros m m' Hc; simpl.
  { intros [= <-]. split; [done|]. repeat split; auto. intros k r Hr. by apply not_elem_of_nil in Hr. }
  intros (m1 & H1 & H)%go_bind_Ret. pose proof (insert_entry_core m (key, row) m1 Hc H1) as Hc1.
  destruct (IH _ _ Hc1 H) as (Hc' & Ecu & Eeg & Est & Hin & Hkeep & Hrows).
  assert (Hstep : mt_cursors m1 = mt_cursors m /\ mt_egress m1 = mt_egress m /\ mt_stopped_since m1 = mt_stopped_since m /\
    (forall k r, mt_entries m1 !! k = Some r -> mt_entries m !! k = Some r \/ (k, r) = (key, row)) /\
    (forall k r, mt_entries m !! k = Some r -> mt_entries m1 !! k = Some r) /\ is_Some (mt_entries m1 !! key)).
  { unfold insert_entry in H1. destruct (mt_entries m !! key) as [old|] eqn:Hk; [injection H1 as <-; repeat split; auto; rewrite Hk; eauto|].
    destruct (negb _); [done|]. apply go_bind_Ret in H1 as (b & _ & [= <-]). unfold over. simpl. repeat split; try done.
    - intros k r. destruct (decide (k = key)) as [->|]; [rewrite lookup_insert_eq; intros [= <-]; by right|rewrite lookup_insert_ne by done; by left].
    - intros k r Hr. rewrite lookup_insert_ne; [done|]. congruence.
    - rewrite lookup_insert_eq. eauto. }
  destruct Hstep as (E1 & E2 & E3 & Hin1 & Hkeep1 & Hnew). split; [done|]. split; [congruence|]. split; [congruence|]. split; [congruence|].
  split; [|split].
  - intros k r Hr. destruct (Hin k r Hr) as [Hr1|Hr1]; [|by right; right]. destruct (Hin1 k r Hr1) as [Hl|Hl]; [by left|rewrite Hl; right; left].
  - intros k r Hr. by apply Hkeep, Hkeep1.
  - intros k r [[= -> ->]|Hr]%elem_of_cons; [|by eapply Hrows]. destruct Hnew as [x Hx]. rewrite (Hkeep _ _ Hx). eauto.
Qed.

(** ** A batch *)

Definition source_of (p : sourcePlan) : SourceKind * uuid := (src_kind (pn_src p), src_id (pn_src p)).

Lemma ledgerParams_rows batch k r :
  (k, r) ∈ (ledgerParams batch).1.2 -> exists p e, p ∈ batch /\ e ∈ pn_entries p /\ (k, r) = ledger_row (pn_src p) e.
Proof.
  unfold ledgerParams. simpl. rewrite list_elem_of_In, in_flat_map. intros (p & Hp & (e & E & He)%in_map_iff).
  exists p, e. by rewrite !list_elem_of_In.
Qed.

Lemma times_two t es e e' : e ∈ es -> e' ∈ es -> e <> e' -> during t e = true -> during t e' = true -> (2 <= times t es)%nat.
Proof.
  unfold times. intros He He' Hne Hd Hd'.
  assert (H1 : In e (List.filter (during t) es)) by (apply List.filter_In; split; [by apply list_elem_of_In|done]).
  assert (H2 : In e' (List.filter (during t) es)) by (apply List.filter_In; split; [by apply list_elem_of_In|done]).
  destruct (List.filter (during t) es) as [|x [|y l]]; simpl in *; [done| |lia]. destruct H1 as [->|[]], H2 as [->|[]]. done.
Qed.

(** The cursors a batch advances, and no others. *)
Lemma AdvanceCursors_lookup cursors now m key :
  NoDup (map (fun c => c.1.1) cursors) ->
  (mt_cursors (AdvanceCursors cursors now m) !! key = mt_cursors m !! key /\ key ∉ map (fun c => c.1.1) cursors) \/
  exists through complete, (key, through, complete) ∈ cursors /\
    mt_cursors (AdvanceCursors cursors now m) !! key = Some (advanced through complete now (mt_cursors m !! key)).
Proof.
  unfold AdvanceCursors. change (mt_cursors (m <| mt_cursors := ?x |>)) with x. generalize (mt_cursors m).
  induction cursors as [|[[[kind id] through] complete] cursors IH]; intros cs Hnd; cbn [fold_left map] in *; [left; split; [done|apply not_elem_of_nil]|].
  apply NoDup_cons in Hnd as [Hn Hnd]. cbn [fst] in Hn. destruct (IH (<[(kind, id) := advanced through complete now (cs !! (kind, id))]> cs) Hnd) as [[-> Hk]|(t & co & Hin & ->)].
  - destruct (decide (key = (kind, id))) as [->|Hne].
    + right. exists through, complete. split; [left|]. apply lookup_insert_eq.
    + left. split; [by apply lookup_insert_ne|]. intros [E|H]%elem_of_cons; [by apply Hne|done].
  - right. exists t, co. split; [by right|]. rewrite lookup_insert_ne; [done|]. intros <-. apply Hn.
    by apply (list_elem_of_fmap_2 (fun c : SourceKind * uuid * Z * bool => c.1.1) _ ((kind, id), t, co)).
Qed.

(** What a committed batch did: it kept the ledger's entries and added ones of
    its plans, and it moved the cursors its plans advance. *)
Record written (batch : list sourcePlan) (now : Z) (m m' : meter) : Prop := {
  wr_core : ledger_core m';
  wr_egress : mt_egress m' = mt_egress m;
  wr_since : mt_stopped_since m' = mt_stopped_since m;
  wr_entries : forall k r, mt_entries m' !! k = Some r -> mt_entries m !! k = Some r \/
    exists p e, p ∈ batch /\ e ∈ pn_entries p /\ k = (source_of p, en_start e) /\ le_end r = en_end e;
  wr_kept : forall k r, mt_entries m !! k = Some r -> mt_entries m' !! k = Some r;
  wr_cursors : NoDup (map source_of batch) -> forall key,
    (mt_cursors m' !! key = mt_cursors m !! key /\ forall p, p ∈ batch -> source_of p = key -> pn_advance p = false) \/
    exists p, p ∈ batch /\ source_of p = key /\ pn_advance p = true /\
      mt_cursors m' !! key = Some (advanced (pn_through p) (pn_complete p) now (mt_cursors m !! key)) }.

Lemma writeMetering_written fresh batch now m m' : ledger_core m -> writeMetering fresh batch now m = Ret m' -> written batch now m m'.
Proof.
  intros Hm. unfold writeMetering. destruct (ledgerParams batch) as [[users rows] cursors] eqn:Eparams. unfold writeLedger.
  intros (b & Hb & (m1 & H1 & [= <-])%go_bind_Ret)%go_bind_Ret.
  assert (Hm0 : ledger_core (m <| mt_books := b |>)).
  { apply ledger_core_books; [done|by eapply EnsureAccounts_ok; [apply lc_books|]|]. intros u t. apply cost_of_hours. by eapply EnsureAccounts_hours. }
  destruct (InsertLedgerEntries_spec _ _ _ Hm0 H1) as (Hc1 & Ecu & Eeg & Est & Hin & Hkeep & _).
  assert (Ec : cursors = (ledgerParams batch).2) by by rewrite Eparams.
  split; [by destruct Hc1|done|done| |done|].
  - intros k r Hr. destruct (Hin k r Hr) as [H|H]; [by left|right]. pose proof (ledgerParams_rows batch k r) as Hl. rewrite Eparams in Hl.
    destruct (Hl H) as (p & e & Hpb & He & [= -> ->]). by exists p, e.
  - intros Hnd key. change (mt_cursors (m <| mt_books := b |>)) with (mt_cursors m) in Ecu.
    assert (Hcur : forall t co, (key, t, co) ∈ cursors <->
      exists p, p ∈ batch /\ source_of p = key /\ pn_advance p = true /\ pn_through p = t /\ pn_complete p = co).
    { intros t co. rewrite Ec. unfold ledgerParams. cbn [snd]. rewrite list_elem_of_omap. unfold source_of.
      split; intros (p & Hpb & E); exists p; [destruct (pn_advance p); [|done]; by injection E as <- <- <-|].
      by destruct E as (<- & -> & <- & <-). }
    assert (Hndc : NoDup (map (fun c : SourceKind * uuid * Z * bool => c.1.1) cursors)).
    { rewrite Ec. unfold ledgerParams. cbn [snd]. eapply sublist_NoDup; [exact Hnd|]. clear. induction batch as [|p batch IH]; simpl; [done|].
      destruct (pn_advance p); simpl; [by constructor|by constructor]. }
    destruct (AdvanceCursors_lookup cursors now m1 key Hndc) as [[E Hn]|(t & co & H & E)]; rewrite E, Ecu.
    + left. split; [done|]. intros p Hp Es. destruct (pn_advance p) eqn:Ea; [|done]. destruct Hn.
      apply (list_elem_of_fmap_2 (fun c : SourceKind * uuid * Z * bool => c.1.1) _ (key, pn_through p, pn_complete p)). apply Hcur. by exists p.
    + right. apply Hcur in H as (p & Hp & Es & Ea & <- & <-). by exists p.
Qed.

(** Sources outside a batch are as they were. *)
Lemma written_frame batch now m m' key : written batch now m m' -> NoDup (map source_of batch) -> key ∉ map source_of batch ->
  mt_cursors m' !! key = mt_cursors m !! key /\ forall s, mt_entries m' !! (key, s) = mt_entries m !! (key, s).
Proof.
  intros W Hnd Hn. assert (Hp : forall p, p ∈ batch -> source_of p <> key) by (intros p Hp <-; apply Hn; by apply list_elem_of_fmap_2).
  split; [destruct (wr_cursors _ _ _ _ W Hnd key) as [[-> _]|(p & Hpb & Es & _)]; [done|by destruct (Hp p Hpb)]|].
  intros s. destruct (mt_entries m' !! (key, s)) as [r|] eqn:E.
  - destruct (wr_entries _ _ _ _ W _ _ E) as [->|(p & e & Hpb & _ & [= Ek _] & _)]; [done|by destruct (Hp p Hpb)].
  - destruct (mt_entries m !! (key, s)) eqn:E0; [|done]. by rewrite (wr_kept _ _ _ _ W _ _ E0) in E.
Qed.

(** ** The ledger, whatever a pass reads *)

Lemma write_plans_core fresh tx plans : forall batch m, ledger_core m -> ledger_core (write_plans fresh tx batch plans m).1.
Proof.
  induction plans as [|p plans IH]; intros batch m Hm; cbn [write_plans].
  - destruct batch as [|q batch]; [done|]. destruct (writeMetering _ _ _ _) as [m'|e| |] eqn:E; try done.
    by destruct (writeMetering_written _ _ _ _ _ Hm E).
  - destruct (negb _); [by apply IH|]. destruct (_ <=? _)%nat; [|by apply IH]. destruct (batch ++ [p]); [by apply IH|].
    destruct (writeMetering _ _ _ _) as [m'|e| |] eqn:E; try done. apply IH. by destruct (writeMetering_written _ _ _ _ _ Hm E).
Qed.

(** A batch of egress commits whole, and moves no cursor. *)
Lemma meterEgressBatch_written rates owner_of fresh clock now m m' n :
  ledger_core m -> meterEgressBatch rates owner_of fresh clock now m = Ret (m', n) ->
  m' = m \/ exists batch m1, writeMetering fresh batch now m = Ret m1 /\ (exists eg, m' = m1 <| mt_egress := eg |>) /\
    forall p, p ∈ batch -> src_kind (pn_src p) = SourceEgress /\ pn_advance p = false.
Proof.
  intros Hm E. unfold meterEgressBatch in E. destruct (ClosedEgress _ _ _ m) as [|row rows] eqn:Er; [injection E as <- <-; by left|right].
  destruct (mapM (egress_plan rates) (row :: rows)) as [batch|] eqn:Eb; [|done].
  destruct (writeMetering fresh batch now m) as [m1|e| |] eqn:Ew; try done. injection E as <- <-. exists batch, m1.
  split; [done|]. split; [by eexists|]. intros p Hp. apply mapM_Some in Eb. apply list_elem_of_lookup in Hp as (i & Hi).
  destruct (Forall2_lookup_r _ _ _ _ _ Eb Hi) as (x & _ & Hx). unfold egress_plan in Hx. destruct x as [[[[[w a] wl] q] bytes] o].
  apply bind_Some in Hx as (card & _ & [= <-]). done.
Qed.

(** What every batch of egress keeps, all of them keep. *)
Lemma meterEgress_keeps (P : meter -> Prop) rates owner_of fresh clock now :
  (forall m m' n, P m -> meterEgressBatch rates owner_of fresh clock now m = Ret (m', n) -> P m') ->
  forall fuel written m, P m -> P (meterEgress rates owner_of fuel fresh clock now written m).1.
Proof.
  intros HP. induction fuel as [|fuel IH]; intros written m Hm; cbn [meterEgress]; [done|].
  destruct (meterEgressBatch _ _ _ _ _ m) as [[m' n]|e| |] eqn:E; try done. pose proof (HP _ _ _ Hm E). destruct (_ <? _)%nat; [done|by apply IH].
Qed.

Lemma meterEgressBatch_core rates owner_of fresh clock now m m' n :
  ledger_core m -> meterEgressBatch rates owner_of fresh clock now m = Ret (m', n) -> ledger_core m'.
Proof.
  intros Hm E. destruct (meterEgressBatch_written _ _ _ _ _ _ _ _ Hm E) as [->|(batch & m1 & Ew & (eg & ->) & _)]; [done|].
  by destruct (wr_core _ _ _ _ (writeMetering_written _ _ _ _ _ Hm Ew)).
Qed.

Lemma SetAccrued_ok accrued b : books_ok b -> books_ok (SetAccrued accrued b).
Proof.
  intros H. apply (books_ok_same b); try done. intros u. unfold SetAccrued, over. simpl. rewrite map_lookup_imap.
  destruct (bk_balances b !! u); simpl; split; eauto.
Qed.

Lemma finish_pass_core fresh limit i tx accrued m m' : ledger_core m -> finish_pass fresh limit i tx accrued m = Ret m' -> ledger_core m'.
Proof.
  intros Hm. unfold finish_pass. intros (b & Hb & [= <-])%go_bind_Ret.
  destruct (ledger_core_books m (SetAccrued (map_to_list accrued) b) Hm) as [H1 H2 H3]; [| |by split].
  - apply SetAccrued_ok. by eapply EnsureAccounts_ok; [apply lc_books|].
  - intros u t. transitivity (cost_of b u t); [by apply cost_of_hours|]. apply cost_of_hours. by eapply EnsureAccounts_hours.
Qed.

Lemma Meter_core rates owner_of big fresh limit i tx m : ledger_core m -> ledger_core (Meter rates owner_of big fresh limit i tx m).1.
Proof.
  intros Hm. unfold Meter. destruct (chargeMeasuredUse _ _ _ _) as [plans|e| |]; try done.
  match goal with |- context [write_plans ?a ?b ?c ?d m] => pose proof (write_plans_core a b d c m Hm) as H1; destruct (write_plans a b c d m) as [m1 [e|]] end; [done|].
  match goal with |- context [meterEgress ?a ?b ?c ?d ?e ?f ?g m1] =>
    pose proof (meterEgress_keeps ledger_core a b d e f (meterEgressBatch_core a b d e f) c g m1 H1) as H2; destruct (meterEgress a b c d e f g m1) as [m2 [n|e'| |]] end; try done.
  destruct (finish_pass _ _ _ _ _ _) as [m3|e| |] eqn:Ef; try done. by eapply finish_pass_core.
Qed.

(** ** What the rows of a history say *)

(** Columns that are written once: when a container was ready or a volume or
    disk created, when it was deleted, and when a container stopped; and which
    containers lose time to a preempted attempt before their billing ends. *)
Record facts := mkFacts {
  fa_from : SourceKind -> uuid -> Z;
  fa_deleted : SourceKind -> uuid -> option Z;
  fa_gapped : uuid -> bool;
  fa_stop : uuid -> Z }.

(** The containers a pass reads, with their cursors. *)
Definition read_containers (i : MeterInput) (m : meter) : list meteredContainer :=
  meteredContainers (mi_live i) (mi_stopped i (look_back i m)) m.

#[local] Abbreviation by_start := (fun a b => sn_start a <= sn_start b).

(** A volume or a disk as a pass reads it: a row whose cursor is complete was
    read as deleted before, and stays so. *)
Record stored_row (F : facts) (m : meter) (kind : SourceKind) (id : uuid) (created : Z) (deleted : option Z) : Prop := {
  sr_created : created = fa_from F kind id;
  sr_deleted : deleted = None \/ deleted = fa_deleted F kind id;
  sr_complete : forall c, mt_cursors m !! (kind, id) = Some c -> cu_complete c = true -> deleted = fa_deleted F kind id }.

(** What a pass at [tx] reads. Rows have distinct keys and kept attempts the
    order of their starts; a gapped container is open while it lives; it is
    among the stopped only while it stopped inside the look-back, and the
    watermark is then at most the look-back behind the pass before; the clock
    does not go back; and artifacts that return to a source without a cursor
    were stored after what it was billed for. *)
Record input_ok (F : facts) (tx : Z) (i : MeterInput) (m : meter) : Prop := {
  io_live : NoDup (map mc_id (mi_live i));
  io_stopped : NoDup (map mc_id (mi_stopped i (look_back i m)));
  io_kept : forall c, c ∈ mi_live i ++ mi_stopped i (look_back i m) -> StronglySorted by_start (mc_kept c);
  io_volumes : NoDup (map vo_ID (mi_volumes i));
  io_artifacts : NoDup (map (fun a => default (ar_Workspace a) (ar_App a)) (mi_artifacts i));
  io_disks : NoDup (map di_ID (mi_disks i));
  io_ready : forall c, c ∈ mi_live i ++ mi_stopped i (look_back i m) -> mc_readyAt c = fa_from F SourceContainer (mc_id c);
  io_whole : forall c, c ∈ read_containers i m -> fa_gapped F (mc_id c) = false ->
    match mc_preemptedFrom c with Some p => (container_end c (mi_now i)).1 <= p | None => True end;
  io_open : forall c, c ∈ read_containers i m -> fa_gapped F (mc_id c) = true -> mc_id c ∉ map mc_id (mi_stopped i (look_back i m)) ->
    finished c (mi_now i) (mi_measured i) = false /\ mi_now i - stoppedLookBack <= fa_stop F (mc_id c);
  io_stop : forall c, c ∈ mi_stopped i (look_back i m) -> fa_gapped F (mc_id c) = true -> look_back i m <= fa_stop F (mc_id c) <= tx /\
    forall since, mt_stopped_since m = Some since -> since - stoppedLookBack <= mi_measured i;
  io_clock : forall since, mt_stopped_since m = Some since -> since <= mi_now i;
  io_volume_rows : forall v, v ∈ mi_volumes i -> stored_row F m SourceVolume (vo_ID v) (vo_CreatedAt v) (vo_DeletedAt v);
  io_disk_rows : forall d, d ∈ mi_disks i -> stored_row F m SourceDisk (di_ID d) (di_CreatedAt d) (di_DeletedAt d);
  io_artifact_rows : forall a, a ∈ mi_artifacts i -> mt_cursors m !! (SourceArtifacts, default (ar_Workspace a) (ar_App a)) = None ->
    forall s r, mt_entries m !! (SourceArtifacts, default (ar_Workspace a) (ar_App a), s) = Some r -> le_end r <= ar_FirstStoredAt a }.

(** ** Billing once *)

Section Once.
Context (rates : list rateChange) (F : facts).
Hypothesis Hrates : StronglySorted Z.le (map rc_effectiveAt rates).

(** Sources whose entries start at the points of their grid only, so that the
    ledger's key keeps them apart even when no cursor does. *)
Definition tight (key : SourceKind * uuid) : bool :=
  match key.1 with
  | SourceVolume | SourceDisk => true
  | SourceContainer => negb (fa_gapped F key.2)
  | SourceArtifacts | SourceEgress => false
  end.

#[local] Abbreviation since key := (fa_from F key.1 key.2).

(** A cursor past its source's end. *)
Definition past_end (key : SourceKind * uuid) (complete : bool) (through : Z) : Prop :=
  complete = true /\ match key.1 with SourceContainer => True | _ => exists d, fa_deleted F key.1 key.2 = Some d /\ d <= through end.

Record once_ok (m : meter) : Prop := {
  oo_core : ledger_core m;
  oo_aligned : forall key s r, tight key = true -> mt_entries m !! (key, s) = Some r -> aligned rates (since key) s (le_end r);
  oo_cursor : forall key c, tight key = true -> mt_cursors m !! key = Some c ->
                point rates (since key) (cu_through c) \/ past_end key (cu_complete c) (cu_through c);
  oo_through : forall key s r c, tight key = false -> key.1 <> SourceEgress -> mt_entries m !! (key, s) = Some r ->
                 mt_cursors m !! key = Some c -> le_end r <= cu_through c;
  oo_once : forall key s1 s2 r1 r2, tight key = false -> key.1 <> SourceEgress ->
              mt_entries m !! (key, s1) = Some r1 -> mt_entries m !! (key, s2) = Some r2 -> s1 < s2 -> le_end r1 <= s2;
  oo_stop : forall id c, fa_gapped F id = true -> mt_cursors m !! (SourceContainer, id) = Some c -> cu_complete c = true -> fa_stop F id <= cu_updated c;
  oo_pruned : forall id s, fa_gapped F id = true -> is_Some (mt_entries m !! (SourceContainer, id, s)) ->
                mt_cursors m !! (SourceContainer, id) = None ->
                exists t, mt_stopped_since m = Some t /\ fa_stop F id < t - 2 * stoppedLookBack }.

(** Every source is billed once. *)
Lemma once_disjoint m key s1 s2 r1 r2 : once_ok m -> key.1 <> SourceEgress ->
  mt_entries m !! (key, s1) = Some r1 -> mt_entries m !! (key, s2) = Some r2 -> s1 < s2 -> le_end r1 <= s2.
Proof.
  intros Hm Hk H1 H2. destruct (tight key) eqn:Et; [|by eapply oo_once].
  apply (aligned_disjoint rates (since key) s1 (le_end r1) s2 (le_end r2)); by eapply oo_aligned.
Qed.

(** The invariant reads entries, cursors and the watermark only. *)
Lemma once_ok_same m m' : once_ok m -> ledger_core m' -> mt_entries m' = mt_entries m -> mt_cursors m' = mt_cursors m ->
  mt_stopped_since m' = mt_stopped_since m -> once_ok m'.
Proof. intros [H1 H2 H3 H4 H5 H6 H7] Hc Ee Ecu Es. split; rewrite ?Ee, ?Ecu, ?Es; done. Qed.

(** A plan made from where its source stands. *)
Record plan_fit (tx : Z) (m : meter) (p : sourcePlan) : Prop := {
  pf_kind : src_kind (pn_src p) <> SourceEgress;
  pf_start : exists start, plan_sound start p /\ (tight (source_of p) = false ->
    match mt_cursors m !! source_of p with
    | Some c => cu_through c <= start
    | None => forall s r, mt_entries m !! (source_of p, s) = Some r -> le_end r <= start
    end);
  pf_aligned : tight (source_of p) = true -> forall e, e ∈ pn_entries p -> aligned rates (since (source_of p)) (en_start e) (en_end e);
  pf_cursor : tight (source_of p) = true -> pn_advance p = true ->
    point rates (since (source_of p)) (pn_through p) \/ past_end (source_of p) (pn_complete p) (pn_through p);
  pf_stop : forall id, source_of p = (SourceContainer, id) -> fa_gapped F id = true ->
    (pn_complete p = true -> fa_stop F id <= tx) /\ forall c, mt_cursors m !! source_of p = Some c -> cu_complete c = false }.

Lemma point_max from a b : point rates from a -> point rates from b -> point rates from (Z.max a b).
Proof. intros Ha Hb. by destruct (Z.max_spec a b) as [[_ ->]|[_ ->]]. Qed.

(** A cursor a fitting plan advances is a point or past the end. *)
Lemma advanced_cursor tx m p : once_ok m -> plan_fit tx m p -> tight (source_of p) = true -> pn_advance p = true ->
  let c := advanced (pn_through p) (pn_complete p) tx (mt_cursors m !! source_of p) in
  point rates (since (source_of p)) (cu_through c) \/ past_end (source_of p) (cu_complete c) (cu_through c).
Proof.
  intros Hm Hp Ht Ha. pose proof (pf_cursor _ _ _ Hp Ht Ha) as Hnew. destruct (mt_cursors m !! source_of p) as [c|] eqn:E; simpl; [|done].
  assert (Hend : forall b t, past_end (source_of p) b t -> forall b' t', (b = true -> b' = true) -> t <= t' -> past_end (source_of p) b' t').
  { unfold past_end. intros b t [Hb Hd] b' t' H1 H2. split; [auto|]. destruct (source_of p).1; try done; destruct Hd as (d & Ed & Hle); exists d; (split; [done|lia]). }
  destruct (oo_cursor _ Hm _ _ Ht E) as [Hold|Hold], Hnew as [Hnew|Hnew]; [left; by apply point_max|right..].
  - eapply Hend; [exact Hnew|intros ->; apply orb_true_r|lia].
  - eapply Hend; [exact Hold|by intros ->|lia].
  - eapply Hend; [exact Hold|by intros ->|lia].
Qed.

Lemma entries_apart start p e e' : plan_sound start p -> e ∈ pn_entries p -> e' ∈ pn_entries p -> en_start e < en_start e' -> en_end e <= en_start e'.
Proof.
  intros [Hw _ _ Ho] He He' Hlt. destruct (Hw e He), (Hw e' He'). destruct (Z_le_gt_dec (en_end e) (en_start e')); [done|].
  exfalso. assert (2 <= times (en_start e') (pn_entries p))%nat; [|specialize (Ho (en_start e')); lia].
  apply (times_two _ _ e e'); try done; [intros ->; lia| |]; unfold during; lia.
Qed.

Lemma batch_source batch p q : NoDup (map source_of batch) -> p ∈ batch -> q ∈ batch -> source_of p = source_of q -> p = q.
Proof.
  intros Hnd (i & Hi)%list_elem_of_lookup (j & Hj)%list_elem_of_lookup E. assert (i = j) as ->; [|congruence].
  apply (NoDup_lookup (map source_of batch) i j (source_of p) Hnd); rewrite list_lookup_fmap, ?Hi, ?Hj; simpl; congruence.
Qed.

(** A plan starts after what its source was billed for. *)
Lemma billed_before tx m p : once_ok m -> plan_fit tx m p -> tight (source_of p) = false ->
  exists start, plan_sound start p /\ (forall s r, mt_entries m !! (source_of p, s) = Some r -> le_end r <= start) /\
    forall c, mt_cursors m !! source_of p = Some c -> cu_through c <= start.
Proof.
  intros Hm Hp Ht. destruct (pf_start _ _ _ Hp) as (st & Hs & Hst). specialize (Hst Ht). exists st. split; [done|].
  destruct (mt_cursors m !! source_of p) as [c|] eqn:E; [|done]. split; [|by intros ? [= <-]].
  intros s r Hr. pose proof (oo_through _ Hm _ _ _ _ Ht (pf_kind _ _ _ Hp) Hr E). lia.
Qed.

(** ** A batch bills once *)

Section Batch.
Context (batch : list sourcePlan) (tx : Z) (m m' : meter).
Hypotheses (Hm : once_ok m) (W : written batch tx m m') (Hnd : NoDup (map source_of batch)).
Hypothesis Hfit : forall p, p ∈ batch -> plan_fit tx m p.

Lemma written_cursor key c' : mt_cursors m' !! key = Some c' ->
  (mt_cursors m !! key = Some c' /\ forall p, p ∈ batch -> source_of p = key -> pn_advance p = false) \/
  exists p, p ∈ batch /\ source_of p = key /\ pn_advance p = true /\
    c' = advanced (pn_through p) (pn_complete p) tx (mt_cursors m !! key).
Proof using W Hnd.
  destruct (wr_cursors _ _ _ _ W Hnd key) as [[-> H]|(p & H1 & H2 & H3 & ->)]; [by left|]. intros [= <-]. right. by exists p.
Qed.

(** An entry a batch adds comes with its source's cursor. *)
Lemma added_cursor p e : p ∈ batch -> e ∈ pn_entries p -> exists c, mt_cursors m' !! source_of p = Some c /\ en_end e <= cu_through c.
Proof using W Hnd Hfit.
  intros Hp He. destruct (pf_start _ _ _ (Hfit p Hp)) as (st & [Hw Ha _ _] & _).
  assert (Hadv : pn_advance p = true) by (apply Ha; intros E; rewrite E in He; by apply not_elem_of_nil in He).
  destruct (wr_cursors _ _ _ _ W Hnd (source_of p)) as [[_ H]|(q & Hq & Es & _ & ->)]; [by rewrite (H p Hp eq_refl) in Hadv|].
  assert (q = p) as -> by (by eapply batch_source). eexists. split; [done|]. destruct (Hw e He). destruct (mt_cursors m !! _); simpl; lia.
Qed.

Lemma written_through key s r c : tight key = false -> key.1 <> SourceEgress ->
  mt_entries m' !! (key, s) = Some r -> mt_cursors m' !! key = Some c -> le_end r <= cu_through c.
Proof using Hm W Hnd Hfit.
  intros Ht Hk Hr Hc. destruct (wr_entries _ _ _ _ W _ _ Hr) as [Hold|(p & e & Hp & He & [= -> ->] & ->)].
  - destruct (written_cursor key c Hc) as [[Hc0 _]|(p & Hp & <- & _ & ->)]; [exact (oo_through _ Hm _ _ _ _ Ht Hk Hold Hc0)|].
    destruct (billed_before tx m p Hm (Hfit p Hp) Ht) as (st & [_ _ Hth _] & Hb & _). specialize (Hb _ _ Hold).
    destruct (mt_cursors m !! source_of p); simpl; lia.
  - destruct (added_cursor p e Hp He) as (c' & Hc' & Hle). congruence.
Qed.

Lemma written_once key s1 s2 r1 r2 : tight key = false -> key.1 <> SourceEgress ->
  mt_entries m' !! (key, s1) = Some r1 -> mt_entries m' !! (key, s2) = Some r2 -> s1 < s2 -> le_end r1 <= s2.
Proof using Hm W Hnd Hfit.
  intros Ht Hk H1 H2 Hlt. destruct (wr_entries _ _ _ _ W _ _ H1) as [O1|(p & e & Hp & He & [= -> ->] & ->)];
    destruct (wr_entries _ _ _ _ W _ _ H2) as [O2|(q & e' & Hq & He' & E2 & _)];
    try (pose proof (f_equal fst E2) as Es; pose proof (f_equal snd E2) as Est; cbn [fst snd] in Es, Est; subst s2; clear E2).
  - exact (oo_once _ Hm _ _ _ _ _ Ht Hk O1 O2 Hlt).
  - subst key. destruct (billed_before tx m q Hm (Hfit q Hq) Ht) as (st & [Hw _ _ _] & Hb & _). specialize (Hb _ _ O1). destruct (Hw e' He'). lia.
  - destruct (billed_before tx m p Hm (Hfit p Hp) Ht) as (st & [Hw _ _ _] & Hb & _). specialize (Hb _ _ O2). destruct (Hw e He).
    pose proof (lc_checks _ (oo_core _ Hm) _ _ O2) as Hck. unfold ledger_checks in Hck. rewrite !andb_true_iff, Z.ltb_lt in Hck. simpl in Hck. lia.
  - assert (p = q) as <- by (by eapply batch_source). destruct (pf_start _ _ _ (Hfit p Hp)) as (st & Hs & _). by eapply entries_apart.
Qed.

Lemma written_ok : once_ok m'.
Proof using Hm W Hnd Hfit.
  split; [apply W| | |exact written_through|exact written_once| |].
  - intros key s r Ht Hr. destruct (wr_entries _ _ _ _ W _ _ Hr) as [Hold|(p & e & Hp & He & [= -> ->] & ->)]; [by eapply oo_aligned|].
    by apply (pf_aligned _ _ _ (Hfit p Hp)).
  - intros key c Ht Hc. destruct (written_cursor key c Hc) as [[Hc0 _]|(p & Hp & <- & Ha & ->)]; [by eapply oo_cursor|].
    exact (advanced_cursor tx m p Hm (Hfit p Hp) Ht Ha).
  - intros id c Hg Hc Hco. destruct (written_cursor _ c Hc) as [[Hc0 _]|(p & Hp & Es & Ha & ->)]; [by eapply oo_stop|].
    destruct (pf_stop _ _ _ (Hfit p Hp) id Es Hg) as [H1 H2]. rewrite Es in H2. destruct (mt_cursors m !! _) as [c0|]; simpl in *; [|auto].
    rewrite (H2 c0 eq_refl) in Hco. auto.
  - intros id s Hg [r Hr] Hc. rewrite (wr_since _ _ _ _ W). apply (oo_pruned _ Hm id s Hg).
    + destruct (wr_entries _ _ _ _ W _ _ Hr) as [Hold|(p & e & Hp & He & E%(f_equal fst) & _)]; [by rewrite Hold|].
      destruct (added_cursor p e Hp He) as (c & Ec & _). cbn [fst] in E. congruence.
    + destruct (wr_cursors _ _ _ _ W Hnd (SourceContainer, id)) as [[<- _]|(p & _ & _ & _ & E)]; [done|congruence].
Qed.

(** Plans of other sources still fit. *)
Lemma written_fit p : plan_fit tx m p -> source_of p ∉ map source_of batch -> plan_fit tx m' p.
Proof using W Hnd.
  intros [H1 (st & H2 & H3) H4 H5 H6] Hn. destruct (written_frame _ _ _ _ _ W Hnd Hn) as [Ec Ee].
  split; [done| |done|done|by rewrite Ec]. exists st. split; [done|]. rewrite Ec. intros Ht. specialize (H3 Ht).
  destruct (mt_cursors m !! source_of p); [done|]. intros s r. rewrite Ee. apply H3.
Qed.
End Batch.

Lemma write_plans_once fresh tx plans : forall batch m,
  once_ok m -> NoDup (map source_of (batch ++ plans)) -> (forall p, p ∈ batch ++ plans -> plan_fit tx m p) ->
  once_ok (write_plans fresh tx batch plans m).1.
Proof.
  induction plans as [|p plans IH]; intros batch m Hm Hnd Hp; cbn [write_plans].
  - rewrite app_nil_r in *. destruct batch as [|q batch]; [done|]. destruct (writeMetering _ _ _ _) as [m'|e| |] eqn:E; try done.
    by apply (written_ok (q :: batch) tx m m' Hm (writeMetering_written _ _ _ _ _ (oo_core _ Hm) E)).
  - assert (Eapp : batch ++ p :: plans = (batch ++ [p]) ++ plans) by by rewrite <- app_assoc. destruct (negb _).
    { apply IH; [done| |].
      - rewrite map_app in *. simpl in Hnd. apply NoDup_app in Hnd as (H1 & H2 & H3). apply NoDup_cons in H3 as [H4 H5].
        apply NoDup_app. split; [done|]. split; [|done]. intros x Hx Hx'. apply (H2 x Hx). by right.
      - intros q [Hq|Hq]%elem_of_app; apply Hp, elem_of_app; [by left|right; by right]. }
    destruct (_ <=? _)%nat; [|apply IH; [done|by rewrite <- Eapp|by rewrite <- Eapp]].
    destruct (batch ++ [p]) as [|x xs] eqn:Ex; [by destruct batch|]. rewrite Eapp, map_app in Hnd. rewrite Eapp in Hp.
    destruct (writeMetering _ _ _ _) as [m'|e| |] eqn:E; try done. apply NoDup_app in Hnd as (H1 & H2 & H3).
    assert (W : written (x :: xs) tx m m') by (exact (writeMetering_written _ _ _ _ _ (oo_core _ Hm) E)).
    apply IH; [|done|].
    + apply (written_ok (x :: xs) tx m m' Hm W H1). intros q Hq. apply Hp, elem_of_app. by left.
    + intros q Hq. apply (written_fit (x :: xs) tx m m' W H1); [apply Hp, elem_of_app; by right|]. intros Hin. apply (H2 _ Hin). by apply list_elem_of_fmap_2.
Qed.

(** ** Egress and the end of a pass *)

Lemma meterEgressBatch_once owner_of fresh clock now m m' n :
  once_ok m -> meterEgressBatch rates owner_of fresh clock now m = Ret (m', n) -> once_ok m'.
Proof.
  intros Hm E. pose proof (oo_core _ Hm) as Hc. destruct (meterEgressBatch_written _ _ _ _ _ _ _ _ Hc E) as [->|(batch & m1 & Ew & (eg & ->) & Hb)]; [done|].
  pose proof (writeMetering_written _ _ _ _ _ Hc Ew) as W.
  assert (Ecu : mt_cursors m1 = mt_cursors m).
  { unfold writeMetering in Ew. destruct (ledgerParams batch) as [[users rows] cursors] eqn:Ep. unfold writeLedger in Ew.
    apply go_bind_Ret in Ew as (b & Hbk & (m2 & H2 & [= <-])%go_bind_Ret).
    assert (Hc0 : ledger_core (m <| mt_books := b |>)).
    { apply ledger_core_books; [done|by eapply EnsureAccounts_ok; [apply lc_books|]|]. intros u t. apply cost_of_hours. by eapply EnsureAccounts_hours. }
    destruct (InsertLedgerEntries_spec _ _ _ Hc0 H2) as (_ & Ecu & _). assert (cursors = []) as ->; [|exact Ecu].
    assert (E' : cursors = (ledgerParams batch).2) by by rewrite Ep. rewrite E'. unfold ledgerParams. cbn [snd]. clear -Hb.
    induction batch as [|p batch IH]; [done|]. simpl. destruct (Hb p) as [_ ->]; [left|]. apply IH. intros q Hq. apply Hb. by right. }
  assert (Hold : forall key s r, key.1 <> SourceEgress -> mt_entries m1 !! (key, s) = Some r -> mt_entries m !! (key, s) = Some r).
  { intros key s r Hk Hr. destruct (wr_entries _ _ _ _ W _ _ Hr) as [|(p & e & Hp & _ & [= -> _] & _)]; [done|]. by destruct (Hb p Hp). }
  assert (Hne : forall key, tight key = true -> key.1 <> SourceEgress) by (intros [[] id]; done).
  destruct (wr_core _ _ _ _ W) as [C1 C2 C3]. destruct Hm as [H1 H2 H3 H4 H5 H6 H7].
  split; [by split|..]; unfold over; simpl; rewrite ?Ecu, ?(wr_since _ _ _ _ W); try done.
  - intros key s r Ht Hr. apply H2; [done|]. apply Hold; [by apply Hne|done].
  - intros key s r c Ht Hk Hr. apply (H4 key s r c Ht Hk). by apply Hold.
  - intros key s1 s2 r1 r2 Ht Hk Hr1 Hr2. apply (H5 key s1 s2 r1 r2 Ht Hk); by apply Hold.
  - intros id s Hg [r Hr]. apply (H7 id s Hg). by rewrite (Hold (SourceContainer, id) s r ltac:(done) Hr).
Qed.

Lemma foldr_delete_lookup {K A} `{Countable K} (ks : list K) (m : gmap K A) k x : foldr delete m ks !! k = Some x -> m !! k = Some x.
Proof. induction ks as [|k' ks IH]; simpl; [done|]. intros H'. apply lookup_delete_Some in H' as [_ H']. auto. Qed.

Lemma foldr_delete_gone {K A} `{Countable K} (ks : list K) (m : gmap K A) k x : foldr delete m ks !! k = None -> m !! k = Some x -> k ∈ ks.
Proof.
  induction ks as [|k' ks IH]; simpl; [congruence|]. intros H' Hm. destruct (decide (k = k')) as [->|]; [left|]. right. apply IH; [|done].
  by rewrite lookup_delete_ne in H' by done.
Qed.

(** A pruned cursor was prunable. *)
Lemma PruneCursors_gone a b limit m key c :
  mt_cursors (PruneCursors a b limit m) !! key = None -> mt_cursors m !! key = Some c -> prunable a b key c = true.
Proof.
  unfold PruneCursors. set (old := omap _ _). change (mt_cursors (m <| mt_cursors := ?x |>)) with x. intros H Hc.
  pose proof (foldr_delete_gone _ _ _ _ H Hc) as Hin. apply list_elem_of_In, List.filter_In in Hin as [_ Ho%bool_decide_eq_true].
  unfold old in Ho. apply list_elem_of_omap in Ho as ([k c'] & Hkc & E). apply elem_of_map_to_list in Hkc. simpl in E.
  destruct (prunable a b k c') eqn:Ep; [|done]. injection E as ->. congruence.
Qed.

(** The end of a pass at [now], which sets the watermark that [PruneCursors]
    prunes by. *)
Lemma prune_once now limit b m : once_ok m -> ledger_core (m <| mt_books := b |>) -> (forall t, mt_stopped_since m = Some t -> t <= now) ->
  once_ok (PruneCursors (now - 2 * stoppedLookBack) (now - storageGone) limit (m <| mt_books := b |> <| mt_stopped_since := Some now |>)).
Proof.
  intros [H1 H2 H3 H4 H5 H6 H7] Hc Hnow. set (m0 := m <| mt_books := b |> <| mt_stopped_since := Some now |>).
  assert (Hsub : forall key c, mt_cursors (PruneCursors (now - 2 * stoppedLookBack) (now - storageGone) limit m0) !! key = Some c -> mt_cursors m !! key = Some c).
  { intros key c H. unfold PruneCursors, over in H. simpl in H. by apply foldr_delete_lookup in H. }
  split; [by destruct Hc|exact H2| | |exact H5| |].
  - intros key c Ht Hk. by apply H3, Hsub.
  - intros key s r c Ht Hk Hr Hcu. eapply H4; [done|done|exact Hr|by apply Hsub].
  - intros id c Hg Hk. by apply H6, Hsub.
  - intros id s Hg Hr Hn. exists now. split; [done|]. destruct (mt_cursors m !! (SourceContainer, id)) as [c|] eqn:Ec.
    + pose proof (PruneCursors_gone _ _ _ m0 _ c Hn Ec) as Hp. unfold prunable in Hp. simpl in Hp. rewrite orb_false_r in Hp.
      apply andb_true_iff in Hp as [Hco Hu%Z.ltb_lt]. specialize (H6 id c Hg Ec Hco). lia.
    + destruct (H7 id s Hg Hr Ec) as (t & Et & Hlt). specialize (Hnow t Et). lia.
Qed.

Lemma finish_pass_once fresh limit i tx accrued m m' : once_ok m -> (forall t, mt_stopped_since m = Some t -> t <= mi_now i) ->
  finish_pass fresh limit i tx accrued m = Ret m' -> once_ok m'.
Proof.
  intros Hm Hnow. unfold finish_pass. intros (b & Hb & [= <-])%go_bind_Ret. apply prune_once; [done| |done].
  apply ledger_core_books; [by apply oo_core| |].
  - apply SetAccrued_ok. eapply EnsureAccounts_ok; [|exact Hb]. apply lc_books, (oo_core _ Hm).
  - intros u t. transitivity (cost_of b u t); [by apply cost_of_hours|]. apply cost_of_hours. by eapply EnsureAccounts_hours.
Qed.

(** Batches leave the watermark to the end of the pass. *)
Lemma write_plans_since fresh tx plans : forall batch m, ledger_core m ->
  mt_stopped_since (write_plans fresh tx batch plans m).1 = mt_stopped_since m.
Proof.
  induction plans as [|p plans IH]; intros batch m Hm; cbn [write_plans].
  - destruct batch as [|q batch]; [done|]. destruct (writeMetering _ _ _ _) as [m'|e| |] eqn:E; try done.
    apply (wr_since _ _ _ _ (writeMetering_written _ _ _ _ _ Hm E)).
  - destruct (negb _); [by apply IH|]. destruct (_ <=? _)%nat; [|by apply IH]. destruct (batch ++ [p]); [by apply IH|].
    destruct (writeMetering _ _ _ _) as [m'|e| |] eqn:E; try done. pose proof (writeMetering_written _ _ _ _ _ Hm E) as W.
    rewrite IH by apply W. apply W.
Qed.

Lemma meterEgressBatch_since owner_of fresh clock now t m m' n :
  once_ok m /\ mt_stopped_since m = t -> meterEgressBatch rates owner_of fresh clock now m = Ret (m', n) -> once_ok m' /\ mt_stopped_since m' = t.
Proof.
  intros [Hm Et] E. split; [by eapply meterEgressBatch_once|]. pose proof (oo_core _ Hm) as Hc.
  destruct (meterEgressBatch_written _ _ _ _ _ _ _ _ Hc E) as [->|(batch & m1 & Ew & (eg & ->) & _)]; [done|].
  rewrite <- Et. exact (wr_since _ _ _ _ (writeMetering_written _ _ _ _ _ Hc Ew)).
Qed.

(** ** The plans of a pass *)

Lemma omap_sublist_keys {A B K} (f : A -> option B) (ka : A -> K) (kb : B -> K) l :
  (forall a b, f a = Some b -> kb b = ka a) -> map kb (omap f l) `sublist_of` map ka l.
Proof.
  intros H. induction l as [|a l IH]; simpl; [done|]. destruct (f a) as [b|] eqn:E; simpl; [rewrite (H a b E); by constructor|by constructor].
Qed.

(** A container as it is read: its row with where its cursor stands, which is
    not complete. *)
Lemma read_container_row m c c' : read_container m c = Some c' ->
  c' = with_cursor c (cursor_of m SourceContainer (mc_id c)) /\
  forall cu, mt_cursors m !! (SourceContainer, mc_id c) = Some cu -> cu_complete cu = false.
Proof.
  unfold read_container, cursor_of. destruct (mt_cursors m !! _) as [cu|]; [destruct (cu_complete cu) eqn:E; [done|]|]; intros [= <-]; split; try done.
  by intros ? [= <-].
Qed.

Lemma after_cursor (through : option Z) from : match through with Some t => t <= (if t >? from then t else from) | None => True end.
Proof. destruct through as [t|]; [|done]. destruct (Z.gtb_spec t from); lia. Qed.

Lemma later_of_max t from : (if t >? from then t else from) = Z.max t from.
Proof. destruct (Z.gtb_spec t from); lia. Qed.

Section Input.
Context (tx : Z) (m : meter) (i : MeterInput).
Hypotheses (Hm : once_ok m) (Hi : input_ok F tx i m).

Lemma read_nodup : NoDup (map mc_id (read_containers i m)).
Proof using Hi.
  unfold read_containers, meteredContainers. rewrite map_app.
  assert (Hs : forall l, map mc_id (omap (read_container m) l) `sublist_of` map mc_id l)
    by (intros l; apply omap_sublist_keys; intros a b H; by apply read_container_row in H as [-> _]).
  apply NoDup_app. split; [|split].
  - eapply sublist_NoDup; [|apply Hs]. apply NoDup_map_filter, (io_live _ _ _ _ Hi).
  - intros x Hx Hx'. pose proof (elem_of_sublist _ _ _ Hx (Hs _)) as Hl. clear Hx.
    apply list_elem_of_In, in_map_iff in Hl as (c & <- & Hc). apply List.filter_In in Hc as [_ Hc]. apply negb_true_iff, bool_decide_eq_false in Hc.
    apply Hc. exact (elem_of_sublist _ _ _ Hx' (Hs _)).
  - eapply sublist_NoDup; [|apply Hs]. apply (io_stopped _ _ _ _ Hi).
Qed.

Lemma read_origin c : c ∈ read_containers i m -> exists c0, read_container m c0 = Some c /\
  (c0 ∈ mi_stopped i (look_back i m) \/ c0 ∈ mi_live i /\ mc_id c0 ∉ map mc_id (mi_stopped i (look_back i m))).
Proof.
  unfold read_containers, meteredContainers. intros [(c0 & H0 & E)%list_elem_of_omap|(c0 & H0 & E)%list_elem_of_omap]%elem_of_app;
    exists c0; (split; [done|]); [right|by left].
  apply list_elem_of_In, List.filter_In in H0 as [H0 H%negb_true_iff%bool_decide_eq_false]. split; [by apply list_elem_of_In|done].
Qed.

(** A gapped container without a cursor was never billed: [PruneCursors] lets
    its cursor go only when no pass looks back to its stop any more. *)
Lemma gapped_unbilled c s : c ∈ read_containers i m -> fa_gapped F (mc_id c) = true ->
  mt_cursors m !! (SourceContainer, mc_id c) = None -> mt_entries m !! (SourceContainer, mc_id c, s) = None.
Proof using Hm Hi.
  intros Hc Hg Hn. destruct (mt_entries m !! (SourceContainer, mc_id c, s)) as [r|] eqn:E; [|done]. exfalso.
  destruct (oo_pruned _ Hm (mc_id c) s Hg) as (t & Et & Hlt); [by rewrite E|done|]. pose proof (io_clock _ _ _ _ Hi t Et) as Hnow.
  destruct (read_origin c Hc) as (c0 & Hrow & H0). apply read_container_row in Hrow as [Ec _].
  assert (Eid : mc_id c = mc_id c0) by by rewrite Ec. assert (0 < stoppedLookBack) by done. destruct H0 as [H0|[_ H0]].
  - destruct (io_stop _ _ _ _ Hi c0 H0) as [[Hlb _] Hlag]; [by rewrite <- Eid|]. specialize (Hlag t Et). rewrite <- Eid in Hlb.
    unfold look_back in Hlb. rewrite Et, minTime_min in Hlb. simpl in Hlb. lia.
  - destruct (io_open _ _ _ _ Hi c Hc Hg) as [_ Hlive]; [by rewrite Eid|]. lia.
Qed.

Lemma container_plan_fit c p : c ∈ read_containers i m -> planContainer rates c (mi_now i) (mi_measured i) = Ret p ->
  source_of p = (SourceContainer, mc_id c) /\ plan_fit tx m p.
Proof using Hrates Hm Hi.
  intros Hc Hp. destruct (read_origin c Hc) as (c0 & Hrow & H0). apply read_container_row in Hrow as [Ec Hopen].
  assert (Hin : c0 ∈ mi_live i ++ mi_stopped i (look_back i m)) by (apply elem_of_app; destruct H0 as [|[]]; auto).
  assert (Eid : mc_id c = mc_id c0) by by rewrite Ec.
  destruct (planContainer_spec rates c (mi_now i) (mi_measured i) p) as (Es & Hs & _); [rewrite Ec; exact (io_kept _ _ _ _ Hi c0 Hin)|done|].
  assert (Esrc : source_of p = (SourceContainer, mc_id c)) by (unfold source_of; by rewrite Es). split; [done|].
  assert (Hready : mc_readyAt c = fa_from F SourceContainer (mc_id c)) by (rewrite Ec; exact (io_ready _ _ _ _ Hi c0 Hin)).
  assert (Hbt : mc_billedThrough c = cu_through <$> mt_cursors m !! (SourceContainer, mc_id c)) by (rewrite Eid, Ec; done).
  assert (Htight : tight (SourceContainer, mc_id c) = negb (fa_gapped F (mc_id c))) by done.
  assert (Halign : tight (SourceContainer, mc_id c) = true -> plan_aligned rates (fa_from F SourceContainer (mc_id c)) p).
  { rewrite Htight. intros Hg%negb_true_iff. eapply planContainer_aligned; [done|..|exact (io_whole _ _ _ _ Hi c Hc Hg)|exact Hp];
      unfold container_start; rewrite Hready, Hbt; destruct (mt_cursors m !! (SourceContainer, mc_id c)) as [cu|] eqn:Ecu; cbn [fmap option_fmap option_map];
      rewrite ?later_of_max; try lia; try by left.
    - apply point_max; [|by left]. destruct (oo_cursor _ Hm (SourceContainer, mc_id c) cu) as [|[Hco _]]; try done; [by rewrite Htight, Hg|].
      rewrite (Hopen cu) in Hco; [done|]. by rewrite <- ?Eid. }
  split; rewrite ?Esrc.
  - by rewrite Es.
  - exists (container_start c). split; [done|]. rewrite Htight. intros Hg%negb_false_iff. unfold container_start. rewrite Hbt.
    destruct (mt_cursors m !! (SourceContainer, mc_id c)) as [cu|] eqn:Ecu; simpl; [apply (after_cursor (Some (cu_through cu)))|].
    intros s r Hr. by rewrite (gapped_unbilled c s Hc Hg Ecu) in Hr.
  - intros Ht. exact (proj1 (Halign Ht)).
  - intros Ht Ha. destruct (proj2 (Halign Ht) Ha) as [Hco|]; [right|by left]. by split.
  - intros id [= <-] Hg. split; [|by rewrite Eid]. intros Hco. rewrite (planContainer_complete _ _ _ _ _ Hp) in Hco. destruct H0 as [H0|[_ H0]].
    + rewrite Eid in *. by destruct (io_stop _ _ _ _ Hi c0 H0 Hg) as [[_ ?] _].
    + destruct (io_open _ _ _ _ Hi c Hc Hg) as [Hf _]; [by rewrite Eid|]. congruence.
Qed.

(** A volume's or a disk's plan. *)
Lemma stored_plan_fit s kind id created p : kind = SourceVolume \/ kind = SourceDisk ->
  src_kind (ss_src s) = kind -> src_id (ss_src s) = id -> ss_from s = created -> ss_cursor s = cursor_of m kind id ->
  stored_row F m kind id created (ss_deleted s) ->
  planStorage rates s (mi_now i) = Ret p -> source_of p = (kind, id) /\ plan_fit tx m p.
Proof using Hrates Hm.
  intros Hkind Ek Eid Ef Hc [Hcr Hdel Hcomp] Hp. destruct (planStorage_spec _ _ _ _ Hp) as [Es Hs].
  assert (Esrc : source_of p = (kind, id)) by (unfold source_of; by rewrite Es, Ek, Eid). split; [done|].
  assert (Htight : tight (kind, id) = true) by (by destruct Hkind as [-> | ->]).
  assert (Hle : fa_from F kind id <= storage_start s).
  { unfold storage_start. rewrite Ef, Hcr. destruct (ss_cursor s) as [t|]; rewrite ?later_of_max; lia. }
  assert (Hplan : (forall e, e ∈ pn_entries p -> aligned rates (fa_from F kind id) (en_start e) (en_end e)) /\
    (pn_advance p = true -> point rates (fa_from F kind id) (pn_through p) \/ past_end (kind, id) (pn_complete p) (pn_through p))).
  { assert (Hcase : point rates (fa_from F kind id) (storage_start s) \/ exists d, ss_deleted s = Some d /\ d <= storage_start s /\ ss_cursor s <> None).
    { unfold storage_start. rewrite Hc. unfold cursor_of. destruct (mt_cursors m !! (kind, id)) as [cu|] eqn:Ecu; cbn [fmap option_fmap option_map]; rewrite ?later_of_max; [|left; left; congruence].
      destruct (oo_cursor _ Hm (kind, id) cu Htight Ecu) as [Hpt|[Hco Hd]]; [left; apply point_max; [done|left; congruence]|]. right.
      rewrite (Hcomp cu eq_refl Hco). destruct Hkind as [-> | ->]; destruct Hd as (d & Ed & Hdl); exists d;
        (split; [done|split; [simpl in *; lia|done]]). }
    destruct Hcase as [Hpt|(d & Ed & Hdl & Hcn)].
    - destruct (planStorage_aligned rates _ Hrates s (mi_now i) p Hle Hpt Hp) as (H1 & H2 & H3). split; [done|]. intros Ha.
      destruct H2 as [|H2]; [by left|]. destruct (pn_complete p) eqn:Eco.
      + right. split; [done|]. destruct Hdel as [Hdel|Hdel]; [congruence|]. destruct Hkind as [-> | ->]; exists (pn_through p); (split; [simpl; congruence|lia]).
      + left. unfold planStorage in Hp. rewrite H2 in Hp. destruct (_ <=? _) in Hp; [by injection Hp as <-|].
        apply go_bind_Ret in Hp as (es & _ & [= E]). by rewrite <- E in Eco.
    - unfold planStorage in Hp. rewrite Ed in Hp. replace (d <=? storage_start s) with true in Hp by lia. injection Hp as <-. simpl.
      split; [intros e He; by apply not_elem_of_nil in He|]. by rewrite bool_decide_eq_false_2. }
  split; rewrite ?Esrc.
  - rewrite Es, Ek. by destruct Hkind as [-> | ->].
  - exists (storage_start s). split; [done|]. by rewrite Htight.
  - intros _. exact (proj1 Hplan).
  - intros _. exact (proj2 Hplan).
  - intros id' [= -> _]. by destruct Hkind.
Qed.

(** An app's artifacts. *)
Lemma artifacts_plan_fit s id p : src_kind (ss_src s) = SourceArtifacts -> src_id (ss_src s) = id -> ss_cursor s = cursor_of m SourceArtifacts id ->
  (mt_cursors m !! (SourceArtifacts, id) = None -> forall t r, mt_entries m !! (SourceArtifacts, id, t) = Some r -> le_end r <= ss_from s) ->
  planStorage rates s (mi_now i) = Ret p -> source_of p = (SourceArtifacts, id) /\ plan_fit tx m p.
Proof.
  intros Ek Eid Hc Hnew Hp. destruct (planStorage_spec _ _ _ _ Hp) as [Es Hs].
  assert (Esrc : source_of p = (SourceArtifacts, id)) by (unfold source_of; by rewrite Es, Ek, Eid). split; [done|].
  split; rewrite ?Esrc; try done; [by rewrite Es, Ek|]. exists (storage_start s). split; [done|]. intros _. unfold storage_start. rewrite Hc. unfold cursor_of.
  destruct (mt_cursors m !! _) as [cu|] eqn:Ecu; simpl; [apply (after_cursor (Some (cu_through cu)))|]. by apply Hnew.
Qed.

#[local] Abbreviation stored := (storageSources (mi_waived i) (mi_volumes i) (mi_artifacts i) (mi_disks i) m).

Definition stored_key (s : storageSource) : SourceKind * uuid := (src_kind (ss_src s), src_id (ss_src s)).

Lemma stored_nodup : NoDup (map stored_key stored).
Proof using Hi.
  unfold storageSources. rewrite !map_app, !map_map. unfold stored_key. simpl.
  assert (Hpair : forall {A} (kind : SourceKind) (f : A -> uuid) l, NoDup (map f l) -> NoDup (map (fun x => (kind, f x)) l)).
  { intros A kind f l. rewrite <- (map_map f (fun x => (kind, x))). apply NoDup_fmap_2. intros x y [= ->]. done. }
  assert (Hdisj : forall {A B} (k k' : SourceKind) (f : A -> uuid) (g : B -> uuid) l l' (x : SourceKind * uuid), k <> k' ->
    x ∈ map (fun y => (k, f y)) l -> x ∈ map (fun y => (k', g y)) l' -> False).
  { intros A B k k' f g l l' x Hne H1 H2. apply list_elem_of_In, in_map_iff in H1 as (a & <- & _), H2 as (b & [= E _] & _). by apply Hne. }
  apply NoDup_app. split; [apply Hpair, (io_volumes _ _ _ _ Hi)|]. split.
  - intros x H1 [H2|H2]%elem_of_app; [apply (Hdisj _ _ SourceVolume SourceArtifacts _ _ _ _ x ltac:(done) H1 H2)|apply (Hdisj _ _ SourceVolume SourceDisk _ _ _ _ x ltac:(done) H1 H2)].
  - apply NoDup_app. split; [apply Hpair, (io_artifacts _ _ _ _ Hi)|]. split; [|apply Hpair, (io_disks _ _ _ _ Hi)].
    intros x H1 H2. apply (Hdisj _ _ SourceArtifacts SourceDisk _ _ _ _ x ltac:(done) H1 H2).
Qed.

Lemma storage_plan_fit s p : s ∈ stored -> planStorage rates s (mi_now i) = Ret p -> source_of p = stored_key s /\ plan_fit tx m p.
Proof using Hrates Hm Hi.
  unfold storageSources. intros Hs Hp. apply elem_of_app in Hs as [Hs|Hs]; [|apply elem_of_app in Hs as [Hs|Hs]];
    apply list_elem_of_In, in_map_iff in Hs as (r & <- & Hr); apply list_elem_of_In in Hr.
  - refine (stored_plan_fit _ SourceVolume (vo_ID r) (vo_CreatedAt r) p _ _ _ _ _ _ Hp); [by left|done..|]. exact (io_volume_rows _ _ _ _ Hi r Hr).
  - refine (artifacts_plan_fit _ (default (ar_Workspace r) (ar_App r)) p _ _ _ _ Hp); [done..|]. exact (io_artifact_rows _ _ _ _ Hi r Hr).
  - refine (stored_plan_fit _ SourceDisk (di_ID r) (di_CreatedAt r) p _ _ _ _ _ _ Hp); [by right|done..|]. exact (io_disk_rows _ _ _ _ Hi r Hr).
Qed.
End Input.

Lemma priced_elem {A} (plan : A -> go meter_error sourcePlan) xs x p : (x, p) ∈ priced plan xs <-> x ∈ xs /\ plan x = Ret p.
Proof.
  unfold priced. rewrite list_elem_of_omap. split.
  - intros (y & Hy & E). destruct (plan y) as [q|e| |] eqn:Ey; try done. by injection E as -> ->.
  - intros [Hx Hp]. exists x. by rewrite Hp.
Qed.

Lemma priced_sources {A} (plan : A -> go meter_error sourcePlan) (key : A -> SourceKind * uuid) xs :
  (forall x p, x ∈ xs -> plan x = Ret p -> source_of p = key x) -> map source_of (map snd (priced plan xs)) `sublist_of` map key xs.
Proof.
  unfold priced. induction xs as [|x xs IH]; intros H; simpl; [done|].
  specialize (IH (fun y p Hy => H y p (list_elem_of_further _ _ _ Hy))). destruct (plan x) as [p|e| |] eqn:E; simpl; try (by constructor).
  rewrite (H x p (list_elem_of_here _ _) E). by constructor.
Qed.

Lemma chargeMeasuredUse_fit big used tx m plans : forall plans',
  (forall p, p ∈ plans -> plan_fit tx m p) -> chargeMeasuredUse rates big used plans = Ret plans' ->
  map source_of plans' = map source_of plans /\ forall p, p ∈ plans' -> plan_fit tx m p.
Proof.
  induction plans as [|p plans IH]; intros plans' H; simpl; [intros [= <-]; done|].
  intros (p' & Hp & (rest & Hr & [= <-])%go_bind_Ret)%go_bind_Ret. destruct (IH rest) as [Es Hrest]; [intros q Hq; apply H; by right|done|].
  assert (Hone : source_of p' = source_of p /\ plan_fit tx m p').
  { pose proof (H p (list_elem_of_here _ _)) as Hok. destruct (_ == _); [|by injection Hp as <-].
    destruct (applyMeasuredUse_same _ _ _ _ _ Hp) as (E1 & E2 & E3 & E4 & E5). assert (Esrc : source_of p' = source_of p) by (unfold source_of; by rewrite E1).
    split; [done|]. destruct Hok as [H1 (st & H2 & H3) H4 H5 H6]. split; rewrite ?Esrc, ?E1, ?E2, ?E3, ?E4; try done.
    - exists st. split; [|done]. by destruct (applyMeasuredUse_sound _ _ _ _ _ _ H2 Hp).
    - intros Ht e' (e & He & -> & ->)%E5. by apply H4. }
  destruct Hone as [E1 H1]. split; [simpl; by rewrite E1, Es|]. intros q [->|Hq]%elem_of_cons; auto.
Qed.

(** A whole pass, whichever way it ends. *)
Lemma Meter_once owner_of big fresh limit i tx m :
  once_ok m -> input_ok F tx i m -> once_ok (Meter rates owner_of big fresh limit i tx m).1.
Proof.
  intros Hm Hi. unfold Meter. change (meteredContainers (mi_live i) (mi_stopped i (look_back i m)) m) with (read_containers i m). set (planned := priced _ (read_containers i m)).
  destruct (chargeMeasuredUse _ _ _ _) as [plans|e| |] eqn:Ec; try done.
  assert (Hcont : forall p, p ∈ map snd planned -> plan_fit tx m p).
  { intros p Hp. apply list_elem_of_In, in_map_iff in Hp as ([c q] & <- & Hin). apply list_elem_of_In, priced_elem in Hin as [Hc Hq].
    by destruct (container_plan_fit tx m i Hm Hi c _ Hc Hq). }
  destruct (chargeMeasuredUse_fit _ _ _ _ _ _ Hcont Ec) as [Esrc Hplans].
  set (stores := priced _ (storageSources _ _ _ _ _)).
  assert (Hsub1 : map source_of plans `sublist_of` map (fun c => (SourceContainer, mc_id c)) (read_containers i m)).
  { rewrite Esrc. apply priced_sources. intros c p Hc Hp. by destruct (container_plan_fit tx m i Hm Hi c _ Hc Hp). }
  assert (Hsub2 : map source_of (map snd stores) `sublist_of` map stored_key (storageSources (mi_waived i) (mi_volumes i) (mi_artifacts i) (mi_disks i) m)).
  { apply priced_sources. intros s p Hs Hp. by destruct (storage_plan_fit tx m i Hm Hi s _ Hs Hp). }
  pose proof (write_plans_once fresh tx (plans ++ map snd stores) [] m Hm) as Hm1.
  assert (Hsince : mt_stopped_since (write_plans fresh tx [] (plans ++ map snd stores) m).1 = mt_stopped_since m) by apply write_plans_since, Hm.
  destruct (write_plans fresh tx [] (plans ++ map snd stores) m) as [m1 oe] eqn:Ew. cbn [fst] in *. simpl in Hm1.
  assert (Hok1 : once_ok m1).
  { apply Hm1.
    - rewrite map_app. apply NoDup_app. split; [|split].
      + eapply sublist_NoDup; [|exact Hsub1]. rewrite <- (map_map mc_id (fun x => (SourceContainer, x))).
        apply (NoDup_fmap_2 (fun x => (SourceContainer, x))). by eapply read_nodup.
      + intros x H1 H2. pose proof (elem_of_sublist _ _ _ H1 Hsub1) as G1. pose proof (elem_of_sublist _ _ _ H2 Hsub2) as G2.
        apply list_elem_of_In, in_map_iff in G1 as (c & Ec' & _), G2 as (s & Es & Hs). rewrite <- Ec' in Es. apply (f_equal fst) in Es.
        unfold storageSources in Hs. rewrite !in_app_iff, !in_map_iff in Hs. naive_solver.
      + eapply sublist_NoDup; [|exact Hsub2]. by eapply stored_nodup.
    - intros p [Hp|Hp]%elem_of_app; [by apply Hplans|]. apply list_elem_of_In, in_map_iff in Hp as ([s q] & <- & Hin).
      apply list_elem_of_In, priced_elem in Hin as [Hs Hq]. by destruct (storage_plan_fit tx m i Hm Hi s _ Hs Hq). }
  destruct oe as [e|]; [done|].
  pose proof (meterEgress_keeps (fun x => once_ok x /\ mt_stopped_since x = mt_stopped_since m) rates owner_of fresh (mi_now i) tx
    (meterEgressBatch_since owner_of fresh (mi_now i) tx (mt_stopped_since m)) (S (size (mt_egress m1))) 0 m1 (conj Hok1 Hsince)) as [Hm2 Es2].
  destruct (meterEgress _ _ _ _ _ _ _ _) as [m2 [n|e| |]]; try done.
  destruct (finish_pass _ _ _ _ _ _) as [m3|e| |] eqn:Ef; try done. cbn [fst] in Hm2, Es2.
  eapply finish_pass_once; [exact Hm2| |exact Ef]. intros t Et. apply (io_clock _ _ _ _ Hi). congruence.
Qed.
End Once.
