(* ===== verification/BillingProps.v ===== *)
(** Billing as a state machine: metering passes, traffic, and every
    transaction on accounts and credit, in any order; what holds of the ledger
    and the books in every state they reach, and what single plans and rollups
    do. *)

From S2P Require Import Prelude Float64 Capacity Catalog Calendar GoLib Billing Placement Credits CreditLoops CreditProps RollupProps Metering MeteringProps MeterPass.

(** ** Steps *)

(** A transaction on the books.  [op_account] stands for the writes of plans
    and payments to an account's own row. *)
Inductive books_op : books -> books -> Prop :=
  | op_ensure id user now b b' : EnsureAccount id user now b = Ret b' -> books_op b b'
  | op_grant id g b r : addCredit id g b = Ret r -> books_op b r.1
  | op_reverse reversed id b b' : ReverseCredit reversed id b = Ret b' -> books_op b b'
  | op_complimentary known id user c now b b' : SetComplimentary known id user c now b = Ret b' -> books_op b b'
  | op_preferences id user p now b b' : SetPreferences id user p now b = Ret b' -> books_op b b'
  | op_resume id user now b b' : ResumeReload id user now b = Ret b' -> books_op b b'
  | op_account user f b : books_op b (b <| bk_accounts := alter f user (bk_accounts b) |>)
  | op_rollup user now b b' : rollup_account user now b = Ret b' -> books_op b b'.

Section Machine.
Context (rates : list rateChange) (owner_of : uuid -> option uuid) (big : float64 -> Z).

(** What a pass at a time may read of a state. *)
Context (reads : Z -> MeterInput -> meter -> Prop).

Inductive billing_step : meter -> meter -> Prop :=
  | step_meter fresh limit i tx m : reads tx i m -> billing_step m (Meter rates owner_of big fresh limit i tx m).1
  | step_egress e m : billing_step m (RecordEgress e m)
  | step_books m b : books_op (mt_books m) b -> billing_step m (m <| mt_books := b |>).

Definition empty_meter : meter := mkMeter (mkBooks ∅ ∅ ∅ ∅) ∅ ∅ ∅ None.

Inductive billing_reach : meter -> Prop :=
  | reach_empty : billing_reach empty_meter
  | reach_step m m' : billing_reach m -> billing_step m m' -> billing_reach m'.

(** ** What the steps keep *)

Lemma cost_of_rollup user b b' u t : rollup_keeps user b b' -> cost_of b' u t = cost_of b u t.
Proof.
  intros H. unfold cost_of. pose proof (rk_hours _ _ _ H (u, t)) as E.
  destruct (bk_hours b' !! (u, t)), (bk_hours b !! (u, t)); simpl in E; congruence.
Qed.

Lemma addCredit_hours id g b r : addCredit id g b = Ret r -> bk_hours r.1 = bk_hours b.
Proof.
  unfold addCredit. intros ([b' o] & H & Hr)%go_bind_Ret. simpl in Hr. assert (E : r.1 = b').
  { destruct o; [by injection Hr as <-|]. destruct (LotBySource _ _ _); [by injection Hr as <-|done]. }
  rewrite E. unfold GrantCredit in H. destruct (LotBySource _ _ b); [by injection H as <- _|].
  apply go_bind_Ret in H as (b1 & H1 & [= <- _]). by apply insert_lot_hours in H1.
Qed.

Lemma books_op_ok b b' : books_op b b' -> books_ok b -> books_ok b' /\ forall u t, cost_of b' u t = cost_of b u t.
Proof.
  intros [id user now b0 b1 H|id g b0 r H|reversed id b0 b1 H|known id user c now b0 b1 H|id user p now b0 b1 H|id user now b0 b1 H|user f b0|user now b0 b1 H] Hb.
  - split; [by eapply EnsureAccount_ok|]. intros u t. apply cost_of_hours. by eapply EnsureAccount_hours.
  - split; [by eapply addCredit_ok|]. intros u t. apply cost_of_hours. by eapply addCredit_hours.
  - split; [by eapply ReverseCredit_ok|]. intros u t. apply cost_of_hours. unfold ReverseCredit in H.
    destruct (bk_lots b0 !! id); [|by injection H as <-]. destruct (_ =? _); [by injection H as <-|]. destruct (negb _); [done|by injection H as <-].
  - split; [by eapply SetComplimentary_ok|]. intros u t. apply cost_of_hours. unfold SetComplimentary in H. destruct (negb known); [done|].
    apply go_bind_Ret in H as (b2 & H2 & [= <-]). apply EnsureAccount_hours in H2. by destruct (bk_accounts b2 !! user).
  - split; [by eapply SetPreferences_ok|]. intros u t. apply cost_of_hours. unfold SetPreferences in H.
    apply go_bind_Ret in H as (b2 & H2 & H). apply EnsureAccount_hours in H2. destruct (bk_accounts b2 !! user); [|done].
    destruct (_ && _); [done|]. destruct (negb _); [done|by injection H as <-].
  - split; [by eapply ResumeReload_ok|]. intros u t. apply cost_of_hours. unfold ResumeReload in H.
    apply go_bind_Ret in H as (b2 & H2 & H). apply EnsureAccount_hours in H2. destruct (bk_accounts b2 !! user); [|done].
    destruct (_ == _); [done|by injection H as <-].
  - split; [|done]. apply (books_ok_same b0); try done. intros u. apply is_Some_alter.
  - destruct (bk_accounts b0 !! user) as [a|] eqn:Ha; [|unfold rollup_account in H; by rewrite Ha in H].
    destruct (rollup_account_spec user now b0 a Hb Ha) as (b2 & r & E & Hok & _ & Hk & _). rewrite E in H. injection H as <-.
    split; [done|]. intros u t. by eapply cost_of_rollup.
Qed.

Lemma empty_meter_ok : ledger_core empty_meter.
Proof.
  split; [apply empty_books_ok|done..].
Qed.

Lemma RecordEgress_same e m : mt_books (RecordEgress e m) = mt_books m /\ mt_entries (RecordEgress e m) = mt_entries m /\
  mt_cursors (RecordEgress e m) = mt_cursors m /\ mt_stopped_since (RecordEgress e m) = mt_stopped_since m.
Proof. unfold RecordEgress. by destruct (_ <=? _). Qed.

Lemma billing_step_ok m m' : billing_step m m' -> ledger_core m -> ledger_core m'.
Proof.
  intros [fresh limit i tx m0 Hi|e m0|m0 b Hb] Hm.
  - by apply Meter_core.
  - destruct (RecordEgress_same e m0) as (E1 & E2 & _). destruct Hm. split; by rewrite ?E1, ?E2.
  - destruct (books_op_ok _ _ Hb (lc_books _ Hm)). by apply ledger_core_books.
Qed.

Lemma billing_reach_ok m : billing_reach m -> ledger_core m.
Proof. induction 1 as [|m m' _ IH Hs]; [apply empty_meter_ok|by eapply billing_step_ok]. Qed.

(** The state a pass keeps disjoint. *)
Lemma billing_reach_once F m : StronglySorted Z.le (map rc_effectiveAt rates) ->
  (forall tx i m0, reads tx i m0 -> input_ok F tx i m0) -> billing_reach m -> once_ok rates F m.
Proof.
  intros Hrates Hreads. induction 1 as [|m m' _ IH Hs].
  { split; try done; [apply empty_meter_ok|]. intros id s _ [r Hr]. done. }
  destruct Hs as [fresh limit i tx m0 Hi|e m0|m0 b Hb].
  - apply (Meter_once rates F Hrates); [exact IH|exact (Hreads _ _ _ Hi)].
  - destruct (RecordEgress_same e m0) as (E1 & E2 & E3 & E4). apply (once_ok_same rates F m0); try done.
    destruct (oo_core _ _ _ IH). split; by rewrite ?E1, ?E2.
  - destruct (books_op_ok _ _ Hb (lc_books _ (oo_core _ _ _ IH))). apply (once_ok_same rates F m0); try done. apply ledger_core_books; [exact (oo_core _ _ _ IH)|done..].
Qed.
End Machine.

#[local] Abbreviation by_start := (fun a b => sn_start a <= sn_start b).

Section Reach.
Context (rates : list rateChange) (owner_of : uuid -> option uuid) (big : float64 -> Z).
Context (reads : Z -> MeterInput -> meter -> Prop).

(** C5: the books balance in every reachable state, whatever order passes,
    grants, refunds, waivers and rollups come in: what an account's credit
    lots spent is what its hours were credited; an hour costs the sum of the
    ledger entries that started in it; no lot is spent past its amount and no
    hour is covered past its cost. *)
Theorem books_balance (m : meter) :
  billing_reach rates owner_of big reads m ->
  (forall user, sum_over (spend_for user) (bk_lots (mt_books m)) = sum_over (credit_for user) (bk_hours (mt_books m))) /\
  (forall user at_, cost_of (mt_books m) user at_ = sum_over (entry_cost user at_) (mt_entries m)) /\
  (forall id l, bk_lots (mt_books m) !! id = Some l -> 0 <= cl_spent l <= cl_amount l /\ 0 <= cl_reversed l <= cl_amount l) /\
  (forall user at_ h, bk_hours (mt_books m) !! (user, at_) = Some h ->
     0 <= bh_credited h /\ 0 <= bh_waived h /\ bh_credited h + bh_waived h <= bh_cost h /\ 0 <= bh_subscription h <= bh_credited h).
Proof.
  intros [[Hl _ Hh _ Hs] _ Hc]%billing_reach_ok. split; [exact Hs|]. split; [exact Hc|]. split.
  - intros id l H. destruct (Hl id l H) as [Hck Hsp _]. unfold lot_checks in Hck. rewrite !andb_true_iff, !Z.leb_le in Hck. lia.
  - intros user at_ h H. destruct (Hh user at_ h H). unfold hour_left in *. lia.
Qed.

(** C8: no instant of a container, volume, app's artifacts or disk is billed
    twice: over any order of passes and transactions whose passes read what
    [input_ok] says of one set of rows, two entries of one source cover
    disjoint intervals. Cursors may be pruned under it: a volume that waits for
    its sweep, a disk, or a container that lost no time to preemption before
    its end may be read again without one and is not billed again; a container
    that did lose time is read again only inside the look-back, and the prune
    waits twice that, so this needs the watermark of measured use to be at most
    the look-back behind the pass before; and artifacts that return to a
    source without a cursor have to be stored after what it was billed for. *)
Theorem metering_bills_once (F : facts) (m : meter) (kind : SourceKind) (id : uuid) (s1 s2 : Z) (r1 r2 : LedgerRow) :
  StronglySorted Z.le (map rc_effectiveAt rates) -> billing_reach rates owner_of big (input_ok F) m -> kind <> SourceEgress ->
  mt_entries m !! (kind, id, s1) = Some r1 -> mt_entries m !! (kind, id, s2) = Some r2 -> s1 < s2 -> le_end r1 <= s2.
Proof.
  intros Hrates Hr Hk. apply (once_disjoint rates F m (kind, id)); [|done].
  by apply (billing_reach_once rates owner_of big (input_ok F) F m Hrates).
Qed.

(** C19: a rollup of an account always commits and pays all that credit can
    pay: afterwards an overdrawn lot remains only when no live lot has credit,
    an uncovered hour only when it is not waived and no lot is usable for it;
    the balance it writes is the live credit left, less what is overdrawn or
    uncovered, the account is no longer due, and no other account's lots,
    hours or balance change. *)
Theorem rollup_pays_all (m : meter) (user : uuid) (now : Z) (a : BillingAccount) :
  billing_reach rates owner_of big reads m -> bk_accounts (mt_books m) !! user = Some a ->
  exists b' r, rollup_account user now (mt_books m) = Ret b' /\ paid_up (ba_complimentary a) user now b' /\
    rollup_keeps user (mt_books m) b' /\ bk_balances b' !! user = Some r /\ bb_balance r = balance_at user now b' /\
    rollup_due now r = false.
Proof.
  intros Hr Ha. destruct (rollup_account_spec user now _ a (lc_books _ (billing_reach_ok _ _ _ _ _ Hr)) Ha) as (b' & r & E & _ & Hp & Hk & _ & Hr').
  exists b', (settled_balance user now b' r). repeat (split; [done|]). unfold rollup_due, settled_balance, recheck_at. simpl.
  pose proof (month_bounds now). pose proof (first_recheck_later now (nextMonth (monthStart now)) (book_lots user b') ltac:(lia)). lia.
Qed.

(** C33: what a rollup leaves stands until the instant it asks to be rechecked
    at: a rollup of the same books before then changes no lot, no hour and
    nothing of the balance but when it was rolled up. *)
Theorem rollup_stands (m : meter) (user : uuid) (now later : Z) (b' : books) (r : BalanceRow) :
  billing_reach rates owner_of big reads m -> rollup_account user now (mt_books m) = Ret b' ->
  bk_balances b' !! user = Some r -> now <= later < bb_recheck r ->
  rollup_account user later b' = Ret (b' <| bk_balances := alter (fun r => r <| bb_rolled := Some later |>) user (bk_balances b') |>).
Proof.
  intros Hr E Hb Ht. pose proof (lc_books _ (billing_reach_ok _ _ _ _ _ Hr)) as Hok.
  destruct (bk_accounts (mt_books m) !! user) as [a|] eqn:Ha; [|unfold rollup_account in E; by rewrite Ha in E].
  destruct (rollup_account_spec user now _ a Hok Ha) as (b1 & r0 & E1 & _ & Hp & Hk & _ & Hr1). rewrite E in E1. injection E1 as <-.
  assert (r = settled_balance user now b' r0) as -> by congruence. unfold rollup_account. rewrite (rk_accounts _ _ _ Hk), Ha, Hb.
  by eapply settle_again.
Qed.
End Reach.

(** C20: a container whose shape the rate card prices from where its billing
    starts is always planned, and the plan bills every instant it should
    exactly once and nothing else: the instants from where the last plan ended
    to where billing ends now, without the time attempts lost to preemption,
    up to the cursor the plan advances to, which is the end of a container
    whose use is all measured, or the last period that is over and measured. *)
Theorem planContainer_bills_exactly (rates : list rateChange) (c : meteredContainer) (now measured : Z) :
  StronglySorted by_start (mc_kept c) -> priced_from rates (container_source c) (container_start c) ->
  exists p, planContainer rates c now measured = Ret p /\ pn_through p = billed_through c now measured /\
    forall t, times t (pn_entries p) =
      once (billed_at (container_start c) (container_end c now).1 (mc_preemptedFrom c) (mc_kept c) t && (t <? pn_through p)).
Proof.
  intros Hk Hp. destruct (planContainer_Ret rates c now measured Hp) as [p E]. exists p. split; [done|].
  destruct (planContainer_spec rates c now measured p Hk E) as (_ & _ & H). split; [by apply planContainer_through in E|done].
Qed.

(** An account that is not in a pass's list and has no live containers keeps
    the cost that was accrued for it. *)
Theorem accrued_outlives_container (accrued : list (uuid * (Z * Z))) (b : books) (user : uuid) (r : BalanceRow) :
  bk_balances b !! user = Some r -> bb_live r = 0 -> assoc user accrued = None -> bk_balances (SetAccrued accrued b) !! user = Some r.
Proof. intros Hr Hl Ha. unfold SetAccrued, over. simpl. rewrite map_lookup_imap, Hr. simpl. by rewrite Ha, Hl. Qed.

(** ** A history, evaluated *)

Definition clock_at (h mi : Z) : Z := time_Date 2026 11 10 h mi 0 0.
Definition demo_shape : Shape := mkShape OwnerPlatformFleet ClassAuto noGPU 0 1000 (2 ^ 30).
Definition demo_container (stopped : option Z) (seen : Z) : meteredContainer :=
  mkMetered 1 2 7 None None false demo_shape (clock_at 10 5) stopped false (Some seen) None None None None [].
Definition demo_input (now measured : Z) (live stopped : list meteredContainer) : MeterInput :=
  mkMeterInput now measured live (fun _ => stopped) (fun _ _ => None) [] [] [] (fun _ => false).
Definition metered_by (i : MeterInput) (m : meter) : meter :=
  (Meter published (fun _ => Some 7) (fun _ => 0) (fun u => u + 100) (fun l => l) i (mi_now i) m).1.

(** What those rows say: the container stops at 10:44 and loses no time. *)
Definition demo_facts : facts := mkFacts (fun _ _ => clock_at 10 5) (fun _ _ => None) (fun _ => false) (fun _ => clock_at 10 44).

(** A pass while the container runs, and a rollup. *)
Definition demo_running : meter := metered_by (demo_input (clock_at 10 41) (clock_at 10 35) [demo_container None (clock_at 10 40)] []) empty_meter.
Definition demo_rolled : books := match rollup_account 7 (clock_at 10 45) (mt_books demo_running) with Ret b => b | _ => mt_books demo_running end.
Definition demo_meter : meter := demo_running <| mt_books := demo_rolled |>.

Lemma demo_reached : billing_reach published (fun _ => Some 7) (fun _ => 0) (input_ok demo_facts) demo_running.
Proof.
  eapply reach_step; [apply reach_empty|]. unfold demo_running, metered_by. apply step_meter.
  split; try done; try (by intros ? ?%not_elem_of_nil); try (apply (bool_decide_unpack _); vm_compute; done);
    intros c Hc; simpl in Hc; apply list_elem_of_singleton in Hc as ->; [constructor|done..].
Qed.

Lemma published_sorted : StronglySorted Z.le (map rc_effectiveAt published).
Proof.
  apply Sorted_StronglySorted; [intros ? ? ?; lia|]. let l := eval vm_compute in (map rc_effectiveAt published) in
    assert (E : map rc_effectiveAt published = l) by (vm_compute; reflexivity); rewrite E. clear E. repeat constructor; lia.
Qed.

Lemma demo_rolls : rollup_account 7 (clock_at 10 45) (mt_books demo_running) = Ret demo_rolled.
Proof. vm_compute. reflexivity. Qed.

Lemma demo_meter_reached : billing_reach published (fun _ => Some 7) (fun _ => 0) (input_ok demo_facts) demo_meter.
Proof. eapply reach_step; [apply demo_reached|]. apply step_books, (op_rollup 7 (clock_at 10 45)), demo_rolls. Qed.

Lemma books_balance_witness :
  spent_by 7 demo_rolled = 21458333 /\ credited_by 7 demo_rolled = 21458333 /\
  (forall user, sum_over (spend_for user) (bk_lots (mt_books demo_meter)) = sum_over (credit_for user) (bk_hours (mt_books demo_meter))).
Proof.
  split; [vm_compute; reflexivity|]. split; [vm_compute; reflexivity|].
  exact (proj1 (books_balance published (fun _ => Some 7) (fun _ => 0) (input_ok demo_facts) demo_meter demo_meter_reached)).
Defined.

Lemma metering_bills_once_witness : exists r1 r2,
  mt_entries demo_running !! (SourceContainer, 1, clock_at 10 5) = Some r1 /\
  mt_entries demo_running !! (SourceContainer, 1, clock_at 10 15) = Some r2 /\ le_end r1 <= clock_at 10 15.
Proof.
  do 2 eexists. split; [vm_compute; reflexivity|]. split; [vm_compute; reflexivity|].
  apply (metering_bills_once published (fun _ => Some 7) (fun _ => 0) demo_facts demo_running SourceContainer 1 (clock_at 10 5) (clock_at 10 15) _
    (default (mkLedger 0 0 0 None None "" demo_shape (mkCharge "" 0 0 0 0 0 0 0 0 0 0)) (mt_entries demo_running !! (SourceContainer, 1, clock_at 10 15))));
    [exact published_sorted|apply demo_reached|done|vm_compute; reflexivity|vm_compute; reflexivity|vm_compute; reflexivity].
Defined.

Lemma rollup_pays_all_witness : exists b' r,
  rollup_account 7 (clock_at 10 45) (mt_books demo_running) = Ret b' /\ bk_balances b' !! 7 = Some r /\ bb_balance r = balance_at 7 (clock_at 10 45) b'.
Proof.
  destruct (rollup_pays_all published (fun _ => Some 7) (fun _ => 0) (input_ok demo_facts) demo_running 7 (clock_at 10 45) (new_account (clock_at 10 41)))
    as (b' & r & H1 & _ & _ & H2 & H3 & _); [apply demo_reached|vm_compute; reflexivity|]. exists b', r. exact (conj H1 (conj H2 H3)).
Defined.

Lemma rollup_stands_witness : exists b', rollup_account 7 (clock_at 10 50) demo_rolled = Ret b'.
Proof.
  eexists. apply (rollup_stands published (fun _ => Some 7) (fun _ => 0) (input_ok demo_facts) demo_running 7 (clock_at 10 45) (clock_at 10 50) demo_rolled
    (default (mkBalance 0 0 0 0 0 false 0 None) (bk_balances demo_rolled !! 7))); [apply demo_reached|apply demo_rolls|vm_compute; reflexivity|].
  split; vm_compute; congruence.
Defined.

(** A container whose first attempt was preempted and whose second ran on. *)
Definition demo_preempted : meteredContainer :=
  mkMetered 1 2 7 None None false demo_shape (clock_at 10 5) (Some (clock_at 10 44)) false (Some (clock_at 10 44)) None None None
    (Some (clock_at 10 10)) [mkSpan (clock_at 10 20) (clock_at 10 33)].
Definition demo_plan : sourcePlan :=
  match planContainer published demo_preempted (clock_at 11 0) (clock_at 11 0) with
  | Ret p => p
  | _ => mkSourcePlan (container_source demo_preempted) [] 0 false 0 false
  end.

Lemma demo_priced : priced_from published (container_source demo_preempted) (container_start demo_preempted).
Proof.
  intros t d Ht. change (container_start demo_preempted) with (clock_at 10 5) in Ht.
  destruct (rate_card_total t) as (history & card & Hh & Hc & Hr); [transitivity (clock_at 10 5); [vm_compute; discriminate|done]|].
  rewrite rateHistory_published in Hh. injection Hh as <-. destruct (Hr OwnerPlatformFleet ClassAuto noGPU (or_introl eq_refl)) as (r & Er & _).
  exists card. eexists. split; [exact Hc|]. cbn [src_price container_source demo_preempted mc_build mc_shape].
  unfold price. simpl. rewrite Er. reflexivity.
Qed.

Lemma planContainer_bills_exactly_witness :
  times (clock_at 10 7) (pn_entries demo_plan) = 1%nat /\ times (clock_at 10 12) (pn_entries demo_plan) = 0%nat /\
  times (clock_at 10 31) (pn_entries demo_plan) = 1%nat /\
  exists p, planContainer published demo_preempted (clock_at 11 0) (clock_at 11 0) = Ret p /\
    pn_through p = billed_through demo_preempted (clock_at 11 0) (clock_at 11 0) /\
    forall t, times t (pn_entries p) =
      once (billed_at (container_start demo_preempted) (container_end demo_preempted (clock_at 11 0)).1
              (mc_preemptedFrom demo_preempted) (mc_kept demo_preempted) t && (t <? pn_through p)).
Proof.
  do 3 (split; [vm_compute; reflexivity|]).
  apply (planContainer_bills_exactly published demo_preempted (clock_at 11 0) (clock_at 11 0)); [by repeat constructor|exact demo_priced].
Defined.

(** The container stops before its last minutes are measured: the pass that
    writes its last entry leaves the cost it had accrued for them on the
    balance, so both count against the account's credit. *)
Definition demo_stopping : meter :=
  metered_by (demo_input (clock_at 10 46) (clock_at 10 40) [] [demo_container (Some (clock_at 10 44)) (clock_at 10 44)]) demo_running.
Definition demo_stopped : meter :=
  metered_by (demo_input (clock_at 10 51) (clock_at 10 48) [] [demo_container (Some (clock_at 10 44)) (clock_at 10 44)]) demo_stopping.

Example demo_accrued_twice :
  bb_accrued <$> bk_balances (mt_books demo_stopped) !! 7 = Some 12016667 /\
  cu_complete <$> mt_cursors demo_stopped !! (SourceContainer, 1) = Some true /\
  (fun r => Total (le_charge r)) <$> mt_entries demo_stopped !! (SourceContainer, 1, clock_at 10 30) = Some 12016667.
Proof. vm_compute. done. Qed.
