(* ===== verification/Exec.v ===== *)
(** Execution's tables and statements (src/internal/execution: types.go, the
    .sql.go files its transitions run, and the channels of
    src/internal/database it wakes): tasks, attempts, results, dependencies,
    containers, releases and the callbacks a task's transitions record.

    Tables are finite maps by primary key.  A statement is a function of the
    transaction's clock and the tables; [for update] clauses have no effect on
    a transaction that runs alone.  Foreign keys and the JSON of a spec are
    parts of the rows: a release's spec is [None] when it does not decode. *)

From S2P Require Import Prelude Float64 Capacity Catalog GoLib Billing Policy Placement.

(** ** Types (types.go) *)

Abbreviation TaskID := Z.
Abbreviation AttemptID := Z.
Abbreviation ContainerID := Z.
Abbreviation ReleaseID := Z.

Inductive TaskStatus := TaskQueued | TaskRunning | TaskSucceeded | TaskFailed | TaskCancelled.
#[export] Instance TaskStatus_eq_dec : EqDecision TaskStatus.
Proof. solve_decision. Defined.

(** [TaskStatus.Terminal]. *)
Definition Terminal (s : TaskStatus) : bool :=
  match s with TaskSucceeded | TaskFailed | TaskCancelled => true | TaskQueued | TaskRunning => false end.

Inductive AttemptState := AttemptRunning | AttemptSucceeded | AttemptFailed | AttemptTimedOut | AttemptCancelled | AttemptLost.
#[export] Instance AttemptState_eq_dec : EqDecision AttemptState.
Proof. solve_decision. Defined.

Inductive ContainerState := ContainerPending | ContainerStarting | ContainerReady | ContainerDraining | ContainerStopped.
#[export] Instance ContainerState_eq_dec : EqDecision ContainerState.
Proof. solve_decision. Defined.

Inductive StopReason :=
  | StopRequested | StopLoadError | StopStartFailed | StopCrashed | StopOutOfMemory | StopHostLost | StopExited.
#[export] Instance StopReason_eq_dec : EqDecision StopReason.
Proof. solve_decision. Defined.

(** The text of a reason. *)
Definition reason_text (r : StopReason) : string :=
  match r with
  | StopRequested => "stopped" | StopLoadError => "load_error" | StopStartFailed => "start_failed" | StopCrashed => "crashed"
  | StopOutOfMemory => "out_of_memory" | StopHostLost => "host_lost" | StopExited => "exited"
  end.

Inductive FailureKind :=
  | FailureUserError | FailureLoadError | FailureTimeout | FailureLost | FailurePreempted | FailureStartFailed | FailureSystem
  | FailureDependencyFailed.
#[export] Instance FailureKind_eq_dec : EqDecision FailureKind.
Proof. solve_decision. Defined.

(** [FailureKind.Retryable]. *)
Definition Retryable (k : FailureKind) : bool :=
  match k with
  | FailureUserError | FailureTimeout | FailureLost => true
  | FailurePreempted | FailureLoadError | FailureStartFailed | FailureSystem | FailureDependencyFailed => false
  end.

Definition MaxPreemptions : Z := 5.

Record Failure := mkFailure {
  fl_Kind : FailureKind;
  fl_Type : string;
  fl_Message : string;
  fl_Traceback : string;
  fl_Exception : string }.

Inductive Encoding := EncodingJSON | EncodingCloudpickle.

Definition MaxPayloadBytes : Z := Z.shiftl 16 20.

(** [Payload]; [Data] is bytes and [Display] a JSON text. *)
Record Payload := mkPayload { pl_Encoding : Encoding; pl_Data : string; pl_Display : option string }.

(** [octet_length(data)]. *)
Definition octets (p : Payload) : Z := Z.of_nat (String.length (pl_Data p)).

Inductive ContainerPurpose := PurposeServe | PurposeInstance | PurposeShell.
#[export] Instance ContainerPurpose_eq_dec : EqDecision ContainerPurpose.
Proof. solve_decision. Defined.

(** ** Specs: what execution reads of a release's spec *)

Inductive RetryPolicyBackoff := Fixed | Exponential.
#[export] Instance RetryPolicyBackoff_eq_dec : EqDecision RetryPolicyBackoff.
Proof. solve_decision. Defined.

(** [apitypes.RetryPolicy]; delays are the [float32]s widened. *)
Record RetrySpec := mkRetrySpec {
  rs_MaxAttempts : Z;
  rs_DelaySeconds : option float64;
  rs_Backoff : option RetryPolicyBackoff;
  rs_MaxDelaySeconds : option float64;
  rs_RetryOn : option (list FailureKind) }.

Record WorkloadSpec := mkSpec {
  sp_RetryPolicy : option RetrySpec;
  sp_TimeoutSeconds : option Z;
  sp_MaxPendingTasks : option Z;
  sp_CallbackURL : option string;
  sp_Machine : string }.

(** ** Rows *)

Record TaskRow := mkTask {
  tk_workspace : uuid;
  tk_workload : uuid;
  tk_release : ReleaseID;
  tk_status : TaskStatus;
  tk_attempt_count : Z;
  tk_max_attempts : Z;
  tk_preemptions : Z;
  tk_available_at : Z;
  tk_current : option AttemptID;
  tk_failure : option Failure;
  tk_created_at : Z;
  tk_started_at : option Z;
  tk_finished_at : option Z;
  tk_unmet : Z;
  tk_parent : option TaskID;
  tk_root : option TaskID;
  tk_scheduled_for : option Z;
  tk_input : Payload }.
#[export] Instance eta_TaskRow : Eta TaskRow := fun r =>
  mkTask (tk_workspace r) (tk_workload r) (tk_release r) (tk_status r) (tk_attempt_count r) (tk_max_attempts r) (tk_preemptions r)
    (tk_available_at r) (tk_current r) (tk_failure r) (tk_created_at r) (tk_started_at r) (tk_finished_at r) (tk_unmet r)
    (tk_parent r) (tk_root r) (tk_scheduled_for r) (tk_input r).

Record AttemptRow := mkAttempt {
  ap_task : TaskID;
  ap_number : Z;
  ap_container : ContainerID;
  ap_state : AttemptState;
  ap_preempted : bool;
  ap_started_at : Z;
  ap_deadline_at : Z;
  ap_finished_at : option Z }.
#[export] Instance eta_AttemptRow : Eta AttemptRow := fun r =>
  mkAttempt (ap_task r) (ap_number r) (ap_container r) (ap_state r) (ap_preempted r) (ap_started_at r) (ap_deadline_at r)
    (ap_finished_at r).

(** A container runs a release's workload or an image build. *)
Record ContainerRow := mkContainer {
  ct_workspace : uuid;
  ct_release : option ReleaseID;
  ct_build : option uuid;
  ct_state : ContainerState;
  ct_host : option uuid;
  ct_slots : Z;
  ct_purpose : ContainerPurpose;
  ct_created_at : Z;
  ct_assigned_at : option Z;
  ct_ready_at : option Z;
  ct_drain_started_at : option Z;
  ct_stopped_at : option Z;
  ct_stop_reason : option StopReason;
  ct_exit_message : option string;
  ct_exit_code : option Z;
  ct_replaces : option ContainerID;
  ct_keep_warm : option Z;
  ct_active_until : option Z }.
#[export] Instance eta_ContainerRow : Eta ContainerRow := fun r =>
  mkContainer (ct_workspace r) (ct_release r) (ct_build r) (ct_state r) (ct_host r) (ct_slots r) (ct_purpose r) (ct_created_at r)
    (ct_assigned_at r) (ct_ready_at r) (ct_drain_started_at r) (ct_stopped_at r) (ct_stop_reason r) (ct_exit_message r)
    (ct_exit_code r) (ct_replaces r) (ct_keep_warm r) (ct_active_until r).

Record ReleaseRow := mkRelease {
  rl_workload : uuid;
  rl_spec : option WorkloadSpec;
  rl_start_failures : Z;
  rl_load_error : option string }.
#[export] Instance eta_ReleaseRow : Eta ReleaseRow := fun r =>
  mkRelease (rl_workload r) (rl_spec r) (rl_start_failures r) (rl_load_error r).

(** ** Callbacks and wake-ups *)

Inductive CallbackEvent := CallbackRetry | CallbackSucceeded | CallbackFailed | CallbackCancelled.
#[export] Instance CallbackEvent_eq_dec : EqDecision CallbackEvent.
Proof. solve_decision. Defined.

(** A row of [task_callbacks], whose key is the task, event and attempt. *)
Record CallbackRow := mkCallback {
  cb_task : TaskID;
  cb_event : CallbackEvent;
  cb_attempt : Z;
  cb_url : string;
  cb_max_attempts : Z;
  cb_failure : option Failure }.

(** A webhook event of a task. *)
Record WebhookEvent := mkWebhook {
  wh_event : CallbackEvent;
  wh_task : TaskID;
  wh_status : TaskStatus;
  wh_attempt : Z;
  wh_failure : option Failure }.

Inductive Channel :=
  | ChannelHost | ChannelExecution | ChannelTask | ChannelTaskFinished | ChannelClaim | ChannelImageBuild | ChannelContainerOp
  | ChannelCallback.
#[export] Instance Channel_eq_dec : EqDecision Channel.
Proof. solve_decision. Defined.

(** ** The database *)

Record db := mkDB {
  xd_tasks : gmap TaskID TaskRow;
  xd_attempts : gmap AttemptID AttemptRow;
  xd_results : gmap TaskID Payload;
  xd_deps : list (TaskID * TaskID);
  xd_containers : gmap ContainerID ContainerRow;
  xd_releases : gmap ReleaseID ReleaseRow;
  xd_callbacks : list CallbackRow;
  xd_webhooks : list WebhookEvent;
  xd_failed_workloads : list (ReleaseID * StopReason * string);
  xd_notes : list (Channel * uuid) }.
#[export] Instance eta_db : Eta db := fun r =>
  mkDB (xd_tasks r) (xd_attempts r) (xd_results r) (xd_deps r) (xd_containers r) (xd_releases r) (xd_callbacks r) (xd_webhooks r)
    (xd_failed_workloads r) (xd_notes r).

Definition empty_db : db := mkDB ∅ ∅ ∅ [] ∅ ∅ [] [] [] [].

(** [update tasks set f where id = $id], and of several ids. *)
Definition set_task (f : TaskRow -> TaskRow) (id : TaskID) (d : db) : db := d <| xd_tasks := alter f id (xd_tasks d) |>.
Definition set_tasks (f : TaskRow -> TaskRow) (ids : list TaskID) (d : db) : db :=
  d <| xd_tasks := map_imap (fun id t => Some (if bool_decide (id ∈ ids) then f t else t)) (xd_tasks d) |>.
Definition set_container (f : ContainerRow -> ContainerRow) (id : ContainerID) (d : db) : db :=
  d <| xd_containers := alter f id (xd_containers d) |>.
Definition set_release (f : ReleaseRow -> ReleaseRow) (id : ReleaseID) (d : db) : db :=
  d <| xd_releases := alter f id (xd_releases d) |>.

(** [update containers set f where guard], and the ids it returns. *)
Definition set_containers (guard : ContainerID -> ContainerRow -> bool) (f : ContainerRow -> ContainerRow) (d : db) : db :=
  d <| xd_containers := map_imap (fun id c => Some (if guard id c then f c else c)) (xd_containers d) |>.
Definition containers_where (guard : ContainerID -> ContainerRow -> bool) (d : db) : list ContainerID :=
  map fst (List.filter (fun r => guard r.1 r.2) (sort_by (fun a b => Z.compare a.1 b.1) (map_to_list (xd_containers d)))).

(** [array_position] of distinct payloads: the order they are first named. *)
Fixpoint distinct (l seen : list Z) : list Z :=
  match l with
  | [] => []
  | x :: l => if bool_decide (x ∈ seen) then distinct l seen else x :: distinct l (x :: seen)
  end.

(** [database.Notify] and [database.NotifyAll]. *)
Definition Notify (c : Channel) (id : uuid) (d : db) : db := d <| xd_notes := xd_notes d ++ [(c, id)] |>.
Definition NotifyAll (c : Channel) (ids : list uuid) (d : db) : db :=
  d <| xd_notes := xd_notes d ++ map (pair c) (distinct ids []) |>.
Definition notifyFinished (ids : list TaskID) (d : db) : db := NotifyAll ChannelTaskFinished ids d.
Definition notify_host (h : option uuid) (d : db) : db := match h with Some h => Notify ChannelHost h d | None => d end.

(** ** attempts.sql.go *)

(** [LockTasksForAttempts] by attempt. *)
Definition task_of (d : db) (a : AttemptID) : option (TaskID * TaskRow) :=
  r ← xd_attempts d !! a; t ← xd_tasks d !! ap_task r; Some (ap_task r, t).

(** [LockRunningAttempts] by attempt, joined with its container. *)
Definition running_attempt (d : db) (a : AttemptID) : option (AttemptRow * ContainerRow) :=
  r ← xd_attempts d !! a;
  c ← xd_containers d !! ap_container r;
  if ap_state r == AttemptRunning then Some (r, c) else None.

(** [SetAttemptStates]. *)
Definition set_attempt (now : Z) (v : AttemptID * AttemptState * bool) (d : db) : db :=
  let '(id, state, preempted) := v in
  d <| xd_attempts := alter (fun r => r <| ap_state := state |> <| ap_preempted := preempted |> <| ap_finished_at := Some now |>) id
         (xd_attempts d) |>.
Definition SetAttemptStates (vs : list (AttemptID * AttemptState * bool)) (now : Z) (d : db) : db :=
  fold_left (fun d v => set_attempt now v d) vs d.

(** [InsertTaskResults]: [None] when a task has a result already. *)
Fixpoint InsertTaskResults (rs : list (TaskID * Payload)) (d : db) : option db :=
  match rs with
  | [] => Some d
  | (id, p) :: rs =>
      if bool_decide (is_Some (xd_results d !! id)) then None
      else InsertTaskResults rs (d <| xd_results := <[id := p]> (xd_results d) |>)
  end.

Definition finish_task (s : TaskStatus) (now : Z) (t : TaskRow) : TaskRow :=
  t <| tk_status := s |> <| tk_finished_at := Some now |>.

(** [SucceedTasks]. *)
Definition SucceedTasks (ids : list TaskID) (now : Z) : db -> db := set_tasks (finish_task TaskSucceeded now) ids.

(** [RequeueTasks]. *)
Definition requeued (delay : Z) (preempted : bool) (now : Z) (t : TaskRow) : TaskRow :=
  t <| tk_status := TaskQueued |> <| tk_current := None |> <| tk_available_at := now + delay |>
    <| tk_max_attempts := tk_max_attempts t + (if preempted then 1 else 0) |>
    <| tk_preemptions := tk_preemptions t + (if preempted then 1 else 0) |>.
Definition RequeueTasks (vs : list (TaskID * Z * bool)) (now : Z) (d : db) : db :=
  fold_left (fun d '(id, delay, preempted) => set_task (requeued delay preempted now) id d) vs d.

(** [FailRunningTasks]. *)
Definition failed_running (failure : Failure) (preempted : bool) (now : Z) (t : TaskRow) : TaskRow :=
  (finish_task TaskFailed now t) <| tk_failure := Some failure |>
    <| tk_preemptions := tk_preemptions t + (if preempted then 1 else 0) |>.
Definition FailRunningTasks (vs : list (TaskID * Failure * bool)) (now : Z) (d : db) : db :=
  fold_left (fun d '(id, failure, preempted) => set_task (failed_running failure preempted now) id d) vs d.

(** ** cancel.sql.go and planning.sql.go *)

Definition CancelTask (id : TaskID) (now : Z) : db -> db := set_task (finish_task TaskCancelled now) id.

(** [CancelQueuedTasks] and the ids it returns. *)
Definition queued_among (ids : list TaskID) (d : db) : list TaskID :=
  List.filter (fun id => match xd_tasks d !! id with Some t => tk_status t == TaskQueued | None => false end) ids.
Definition CancelQueuedTasks (ids : list TaskID) (now : Z) (d : db) : db * list TaskID :=
  let live := queued_among ids d in (set_tasks (finish_task TaskCancelled now) live d, live).

(** ** dependencies.sql.go *)

(** [FailTasks]. *)
Definition failed_queued (failure : Failure) (now : Z) (t : TaskRow) : TaskRow :=
  (finish_task TaskFailed now t) <| tk_failure := Some failure |> <| tk_current := None |>.
Definition FailTasks (ids : list TaskID) (failure : Failure) (now : Z) : db -> db := set_tasks (failed_queued failure now) ids.

(** [FailQueuedTasksOfRelease] (containers.sql.go) and the ids it returns. *)
Definition FailQueuedTasksOfRelease (ids : list TaskID) (failure : Failure) (now : Z) (d : db) : db * list TaskID :=
  (set_tasks (fun t => (finish_task TaskFailed now t) <| tk_failure := Some failure |>) ids d,
   List.filter (fun id => bool_decide (is_Some (xd_tasks d !! id))) ids).

(** The tasks that name one of [ids] upstream. *)
Definition dependents (deps : list (TaskID * TaskID)) (ids : list TaskID) : list TaskID :=
  map fst (List.filter (fun e => bool_decide (e.2 ∈ ids)) deps).

(** [with recursive closure]: the tasks that name [ids], or one in the
    closure, upstream. A round that adds a task adds one edge's, so as many
    rounds as edges reach the end. *)
Fixpoint closure_from (rounds : nat) (deps : list (TaskID * TaskID)) (ids : list TaskID) : list TaskID :=
  match rounds with
  | O => ids
  | S rounds => closure_from rounds deps (ids ++ distinct (dependents deps ids) ids)
  end.
Definition closure (deps : list (TaskID * TaskID)) (ids : list TaskID) : list TaskID :=
  closure_from (length deps) deps (distinct (dependents deps ids) []).

(** The queued tasks among [ids], in id order, with their releases. *)
Definition queued_of (d : db) (ids : list TaskID) : list (TaskID * ReleaseID) :=
  omap (fun id => t ← xd_tasks d !! id; if tk_status t == TaskQueued then Some (id, tk_release t) else None)
    (sort_by Z.compare (distinct ids [])).

Definition LockDependentClosure (upstream : list TaskID) (d : db) : list (TaskID * ReleaseID) :=
  queued_of d (closure (xd_deps d) upstream).

(** [LockOutcomeDependents]: each with whether it follows a failure. *)
Definition LockOutcomeDependents (succeeded failed : list TaskID) (d : db) : list (TaskID * bool) :=
  let after := closure (xd_deps d) failed in
  map (fun r => (r.1, bool_decide (r.1 ∈ after))) (queued_of d (after ++ dependents (xd_deps d) succeeded)).

Definition LockQueuedDependents (upstream : list TaskID) (d : db) : list TaskID :=
  map fst (queued_of d (dependents (xd_deps d) upstream)).

(** What a task's attempt receives: its input and its upstreams' results. *)
Definition upstreams (d : db) (id : TaskID) : list TaskID :=
  map snd (List.filter (fun e => e.1 =? id) (xd_deps d)).
Definition result_bytes (d : db) (id : TaskID) : Z := match xd_results d !! id with Some p => octets p | None => 0 end.
Definition input_bytes (d : db) (id : TaskID) (t : TaskRow) : Z :=
  octets (tk_input t) + sumZ (map (result_bytes d) (upstreams d id)).

(** How many of [upstream] a task waits on. *)
Definition met (d : db) (upstream : list TaskID) (id : TaskID) : Z :=
  Z.of_nat (length (List.filter (fun u => bool_decide (u ∈ upstream)) (upstreams d id))).

(** [SatisfyDependencies]: [None] when a count falls below zero, which the
    column refuses. *)
Definition SatisfyDependencies (upstream ids : list TaskID) (d : db) : option (db * list (TaskID * TaskRow * Z)) :=
  let ids := List.filter (fun id => bool_decide (is_Some (xd_tasks d !! id)) && (met d upstream id >? 0)) ids in
  let d' := d <| xd_tasks := map_imap (fun id t =>
    Some (if bool_decide (id ∈ ids) then t <| tk_unmet := tk_unmet t - met d upstream id |> else t)) (xd_tasks d) |> in
  let rows := omap (fun id => (fun t => (id, t, input_bytes d' id t)) <$> xd_tasks d' !! id) ids in
  if existsb (fun r => tk_unmet r.1.2 <? 0) rows then None else Some (d', rows).

(** [LockQueuedWithDependents]: the queued tasks of the release it locks;
    [arrange] is the order the unordered [limit] takes them in. *)
Definition LockQueuedWithDependents (arrange : list TaskID -> list TaskID) (release : ReleaseID) (limit : Z) (d : db) : list TaskID :=
  let queued := map fst (List.filter (fun r => (tk_release r.2 =? release) && (tk_status r.2 == TaskQueued)) (map_to_list (xd_tasks d))) in
  sort_by Z.compare (take (Z.to_nat limit) (arrange queued)).

(** [DependencyResults] of one task, in the order of its upstreams. *)
Definition DependencyResults (id : TaskID) (d : db) : list (TaskID * Payload) :=
  omap (fun u => (fun p => (u, p)) <$> xd_results d !! u) (sort_by Z.compare (upstreams d id)).

(** ** containers.sql.go, reports.sql.go and hosts.sql.go *)

(** [StopContainer]. *)
Definition StopContainerRow (id : ContainerID) (reason : StopReason) (message : string) (code : option Z) (now : Z) : db -> db :=
  set_container (fun c => c <| ct_state := ContainerStopped |> <| ct_stop_reason := Some reason |> <| ct_exit_message := Some message |>
    <| ct_exit_code := code |> <| ct_stopped_at := Some now |>) id.

(** The running attempts on a container, in id order. *)
Definition RunningAttemptsOnContainer (id : ContainerID) (d : db) : list AttemptID :=
  map fst (List.filter (fun r => (ap_container r.2 =? id) && (ap_state r.2 == AttemptRunning))
    (sort_by (fun a b => Z.compare a.1 b.1) (map_to_list (xd_attempts d)))).

(** [CountStartFailure]: the release's failures after. *)
Definition CountStartFailure (id : ReleaseID) (d : db) : option (db * Z) :=
  r ← xd_releases d !! id;
  Some (set_release (fun r => r <| rl_start_failures := rl_start_failures r + 1 |>) id d, rl_start_failures r + 1).

(** [RecordFirstLoadError] then [RecordLoadError]: whether it was the first. *)
Definition record_load_error (id : ReleaseID) (message : string) (d : db) : db * bool :=
  let first := match xd_releases d !! id with Some r => bool_decide (rl_load_error r = None) | None => false end in
  (set_release (fun r => r <| rl_load_error := Some message |>) id d, first).

(** [ReleaseHasPlacedContainer]. *)
Definition ReleaseHasPlacedContainer (release : ReleaseID) (id : ContainerID) (d : db) : bool :=
  existsb (fun c => (ct_release c.2 == Some release) && (c.1 != id) && (ct_state c.2 != ContainerPending) &&
    (ct_state c.2 != ContainerStopped)) (map_to_list (xd_containers d)).

(** [MarkContainerReady]. *)
Definition MarkContainerReady (id : ContainerID) (now : Z) : db -> db :=
  set_container (fun c => if ct_state c == ContainerStarting then
    c <| ct_state := ContainerReady |> <| ct_ready_at := Some now |>
      <| ct_active_until := match ct_keep_warm c with
           | None => ct_active_until c
           | Some s => Some (match ct_active_until c with Some u => Z.max u (now + s * second) | None => now + s * second end)
           end |>
    else c) id.

(** [ResetStartFailures]. *)
Definition ResetStartFailures (id : ReleaseID) : db -> db :=
  set_release (fun r => r <| rl_start_failures := 0 |> <| rl_load_error := None |>) id.

Definition drained (now : Z) (c : ContainerRow) : ContainerRow :=
  c <| ct_state := ContainerDraining |> <| ct_drain_started_at := Some now |>.
Definition drains (c : ContainerRow) : bool := (ct_state c == ContainerStarting) || (ct_state c == ContainerReady).

(** The live containers of a host, in id order. *)
Definition LiveContainersOnHost (host : uuid) (d : db) : list ContainerID :=
  containers_where (fun _ c => (ct_host c == Some host) && (ct_state c != ContainerStopped)) d.
