(* ===== verification/Attempts.v ===== *)
(** Attempts and tasks (src/internal/execution: types.go, attempts.go,
    dependencies.go, completion.go, cancel.go, containers.go and
    workload_runtime.go): how outcomes of attempts advance their tasks, and
    how a task's end reaches the tasks that wait on it.

    Every operation is a transaction on [db] that returns, or fails and leaves
    the database as it was. *)

From Stdlib Require Import SpecFloat.
From S2P Require Import Prelude Float64 Capacity Catalog GoLib Billing Policy Placement Exec.

Inductive exec_error :=
  | ErrStaleAttempt | ErrNotFound | ErrNotAssigned | ErrNotAccepting | ErrPayloadTooLarge | ErrInvalidSubmit
  | ErrTooManyPending (limit queued submitted : Z)
  | ErrUnknownTask (role : string) (task : TaskID)
  | ErrNoResources (* a spec without resources *)
  | ErrRefused (* admission *)
  | ErrOutcome (* an outcome that does not validate *)
  | ErrDecode (* a spec that does not decode *)
  | ErrDatabase (* a constraint the statement breaks *).

(** ** Retry policies (types.go) *)

(** [RetryPolicy]; durations are nanoseconds. *)
Record RetryPolicy := mkRetry {
  rp_MaxAttempts : Z;
  rp_Delay : Z;
  rp_Exponential : bool;
  rp_MaxDelay : Z;
  rp_RetryOn : option (list FailureKind) }.

(** [RetryPolicy.Retries]. *)
Definition Retries (p : RetryPolicy) (k : FailureKind) : bool :=
  Retryable k && match rp_RetryOn p with None => true | Some l => bool_decide (k ∈ l) end.

(** The integer part of a finite float. *)
Definition truncated (x : float64) : option Z :=
  match x with
  | S754_zero _ => Some 0
  | S754_finite s m e =>
      let v := Z.shiftl (Zpos m) e in Some (if s then - v else v)
  | _ => None
  end.

Section Retry.
(** What converting a float outside the range of [int64] gives, which Go
    leaves to the platform. *)
Context (big : float64 -> Z).

(** [int64(x)]. *)
Definition to_int64 (x : float64) : Z :=
  match truncated x with
  | Some v => if (min_int64 <=? v) && (v <=? max_int64) then v else big x
  | None => big x
  end.

Definition fmul (x y : float64) : float64 := SFmul 53 1024 x y.

(** [seconds]. *)
Definition seconds_of (s : float64) : Z := to_int64 (fmul s (of_int second)).

(** [RetryPolicyOf]. *)
Definition RetryPolicyOf (spec : WorkloadSpec) : RetryPolicy :=
  match sp_RetryPolicy spec with
  | None => mkRetry 1 0 false 0 None
  | Some p =>
      mkRetry (rs_MaxAttempts p) (match rs_DelaySeconds p with Some s => seconds_of s | None => 0 end)
        (match rs_Backoff p with Some Exponential => true | _ => false end)
        (match rs_MaxDelaySeconds p with Some s => seconds_of s | None => 0 end) (rs_RetryOn p)
  end.

(** [RetryPolicy.NextAttemptDelay]; [math.Pow(2, k)] is exact. *)
Definition NextAttemptDelay (p : RetryPolicy) (next : Z) : Z :=
  let delay := rp_Delay p in
  let delay := if rp_Exponential p && (next >? 2) then to_int64 (fmul (of_int delay) (of_int (2 ^ (next - 2)))) else delay in
  if (rp_MaxDelay p >? 0) && (delay >? rp_MaxDelay p) then rp_MaxDelay p else delay.

End Retry.

(** ** Outcomes *)

Record AttemptOutcome := mkOutcome {
  ao_Attempt : AttemptID;
  ao_State : AttemptState;
  ao_Result : option Payload;
  ao_Failure : option Failure }.

(** [AttemptOutcome.validate]. *)
Definition outcome_valid (o : AttemptOutcome) : bool :=
  match ao_State o with
  | AttemptSucceeded => bool_decide (is_Some (ao_Result o))
  | AttemptFailed | AttemptTimedOut | AttemptLost => bool_decide (is_Some (ao_Failure o))
  | AttemptCancelled => true
  | AttemptRunning => false
  end.

(** A failure with a kind and a message. *)
Definition failure_of (k : FailureKind) (message : string) : Failure := mkFailure k "" message "" "".

Section Ops.
Context (big : float64 -> Z).
(** Whether a workspace has a webhook enabled, and [id::text]. *)
Context (hooked : uuid -> bool) (uuid_text : uuid -> string).

(** ** Callbacks (workload_runtime.go) *)

Definition webhook_of (event : CallbackEvent) (d : db) (id : TaskID) : option WebhookEvent :=
  t ← xd_tasks d !! id;
  if hooked (tk_workspace t) then Some (mkWebhook event id (tk_status t) (tk_attempt_count t) (tk_failure t)) else None.

Definition callback_of (event : CallbackEvent) (d : db) (id : TaskID) (failure : option Failure) : option CallbackRow :=
  t ← xd_tasks d !! id;
  r ← xd_releases d !! tk_release t;
  s ← rl_spec r;
  url ← sp_CallbackURL s;
  Some (mkCallback id event (tk_attempt_count t) url (tk_max_attempts t) failure).

(** [on conflict (task_id, event, attempt) do nothing]. *)
Definition same_callback (a b : CallbackRow) : bool :=
  (cb_task a =? cb_task b) && (cb_event a == cb_event b) && (cb_attempt a =? cb_attempt b).
Definition add_callback (rows : list CallbackRow) (c : CallbackRow) : list CallbackRow :=
  if existsb (same_callback c) rows then rows else rows ++ [c].

(** [WakeCallbackDelivery], when a callback was queued; its payload is
    empty. *)
Definition wake_delivery (queued : nat) (d : db) : db :=
  match queued with O => d | S _ => Notify ChannelCallback 0 d end.

Definition recordCallbacks (event : CallbackEvent) (tasks : list (TaskID * option Failure)) (d : db) : db :=
  let d := if event == CallbackRetry then d
           else d <| xd_webhooks := xd_webhooks d ++ omap (webhook_of event d) (map fst tasks) |> in
  let rows := fold_left add_callback (omap (fun v => callback_of event d v.1 v.2) tasks) (xd_callbacks d) in
  wake_delivery (length rows - length (xd_callbacks d)) (d <| xd_callbacks := rows |>).

Definition plain (ids : list TaskID) : list (TaskID * option Failure) := map (fun id => (id, None)) ids.

(** ** Dependents (dependencies.go) *)

Definition MaxDependentInputBytes : Z := Z.shiftl 48 20.
Definition MaxDependencies : nat := 100.

Definition dependenciesTooLarge : Failure :=
  mkFailure FailureDependencyFailed "DependenciesTooLarge" "the input and upstream results exceed 48 MiB" "" "".

(** [failQueued] without its cascade. *)
Definition fail_queued (rows : list (TaskID * ReleaseID)) (failure : Failure) (now : Z) (d : db) : db :=
  let ids := map fst rows in
  NotifyAll ChannelExecution (map snd rows) (notifyFinished ids (NotifyAll ChannelTask ids
    (recordCallbacks CallbackFailed (plain ids) (FailTasks ids failure now d)))).

(** [resolveDependents] after an upstream that did not succeed: every queued
    task that depends on it, directly or not, fails. *)
Definition dependency_failed (upstream : list TaskID) : Failure :=
  failure_of FailureDependencyFailed
    match upstream with
    | [u] => String.append "upstream task " (String.append (uuid_text u) " failed or was cancelled")
    | _ => "an upstream task failed or was cancelled"
    end.

Definition fail_dependents (upstream : list TaskID) (now : Z) (d : db) : db :=
  match upstream with
  | [] => d
  | _ =>
      match LockDependentClosure upstream d with
      | [] => d
      | rows => fail_queued rows (dependency_failed upstream) now d
      end
  end.

(** [failQueued]. *)
Definition failQueued (rows : list (TaskID * ReleaseID)) (failure : Failure) (cascade : bool) (now : Z) (d : db) : db :=
  let d := fail_queued rows failure now d in
  if cascade then fail_dependents (map fst rows) now d else d.

(** [resolveDependents] after upstreams that succeeded. *)
Definition satisfy_dependents (upstream : list TaskID) (now : Z) (d : db) : go exec_error db :=
  match upstream with
  | [] => Ret d
  | _ =>
      match LockQueuedDependents upstream d with
      | [] => Ret d
      | ids =>
          match SatisfyDependencies upstream ids d with
          | None => Err ErrDatabase
          | Some (d, rows) =>
              let met := List.filter (fun r => negb (tk_unmet r.1.2 >? 0)) rows in
              let tooLarge := List.filter (fun r => r.2 >? MaxDependentInputBytes) met in
              let ready := map (fun r => tk_release r.1.2) (List.filter (fun r => negb (r.2 >? MaxDependentInputBytes)) met) in
              let d := match tooLarge with
                       | [] => d
                       | _ => failQueued (map (fun r => (r.1.1, tk_release r.1.2)) tooLarge) dependenciesTooLarge true now d
                       end in
              Ret (NotifyAll ChannelExecution ready (NotifyAll ChannelClaim ready d))
          end
      end
  end.

(** [resolveOutcomeDependents]. *)
Definition resolveOutcomeDependents (succeeded failed : list TaskID) (now : Z) (d : db) : go exec_error db :=
  match failed, succeeded with
  | [], _ => satisfy_dependents succeeded now d
  | [_], [] => Ret (fail_dependents failed now d)
  | _, _ =>
      match LockOutcomeDependents succeeded failed d with
      | [] => Ret d
      | locked =>
          d <-! satisfy_dependents succeeded now d;
          if existsb snd locked then Ret (fold_left (fun d id => fail_dependents [id] now d) failed d) else Ret d
      end
  end.

(** ** Advancing tasks (attempts.go) *)

(** [liveOutcome]. *)
Record liveOutcome := mkLive { lo_id : TaskID; lo_task : TaskRow; lo_outcome : AttemptOutcome }.

(** [mayRetry]. *)
Definition mayRetry (t : TaskRow) (f : Failure) : bool := Retryable (fl_Kind f) && (tk_attempt_count t <? tk_max_attempts t).

(** [retryPolicies]: the specs it reads must decode. *)
Definition needs_policy (l : liveOutcome) : bool :=
  match ao_Failure (lo_outcome l) with Some f => mayRetry (lo_task l) f | None => false end.
Definition spec_of (d : db) (release : ReleaseID) : option WorkloadSpec := r ← xd_releases d !! release; rl_spec r.
Definition retryPolicies (live : list liveOutcome) (d : db) : go exec_error unit :=
  if forallb (fun l => negb (needs_policy l) ||
       match xd_releases d !! tk_release (lo_task l) with Some r => bool_decide (is_Some (rl_spec r)) | None => true end) live
  then Ret tt else Err ErrDecode.

(** The policy [advanceTasks] finds for a release; the zero value for one it
    did not read. *)
Definition policy_of (d : db) (release : ReleaseID) : RetryPolicy :=
  match spec_of d release with Some s => RetryPolicyOf big s | None => mkRetry 0 0 false 0 None end.

Inductive advance :=
  | Succeed (p : Payload)
  | Requeue (delay : Z) (preempted : bool) (f : Failure)
  | Fail (f : Failure) (preempted : bool).

Definition preempted_message : string :=
  "Lost to preemption 5 times. Set preemptible=False to run without preemption.".

(** What the loop of [advanceTasks] decides for one outcome; [None] where the
    code reads a result or failure the outcome lacks. *)
Definition decide_outcome (d : db) (l : liveOutcome) : option advance :=
  let t := lo_task l in
  let o := lo_outcome l in
  if ao_State o == AttemptSucceeded then Succeed <$> ao_Result o
  else
    f ← ao_Failure o;
    let preempted := fl_Kind f == FailurePreempted in
    let policy := policy_of d (tk_release t) in
    Some (if preempted && (tk_preemptions t + 1 <? MaxPreemptions) then Requeue 0 true f
          else if mayRetry t f && Retries policy (fl_Kind f)
          then Requeue (NextAttemptDelay big policy (tk_attempt_count t + 1)) preempted f
          else Fail (if preempted then failure_of FailurePreempted preempted_message else f) preempted).

Definition succeeds (l : list (liveOutcome * advance)) : list (TaskID * Payload) :=
  omap (fun v => match v.2 with Succeed p => Some (lo_id v.1, p) | _ => None end) l.
Definition requeues (l : list (liveOutcome * advance)) : list (liveOutcome * Z * bool * Failure) :=
  omap (fun v => match v.2 with Requeue delay p f => Some (v.1, delay, p, f) | _ => None end) l.
Definition fails (l : list (liveOutcome * advance)) : list (TaskID * Failure * bool) :=
  omap (fun v => match v.2 with Fail f p => Some (lo_id v.1, f, p) | _ => None end) l.

(** Go's loop over [live]: a nil result or failure panics. *)
Fixpoint decide_outcomes (d : db) (live : list liveOutcome) : go exec_error (list (liveOutcome * advance)) :=
  match live with
  | [] => Ret []
  | l :: live =>
      match decide_outcome d l with
      | None => Panic
      | Some a => rest <-! decide_outcomes d live; Ret ((l, a) :: rest)
      end
  end.

Definition succeed_all (rs : list (TaskID * Payload)) (now : Z) (d : db) : go exec_error db :=
  match rs with
  | [] => Ret d
  | _ =>
      match InsertTaskResults rs d with
      | None => Err ErrDatabase
      | Some d => Ret (recordCallbacks CallbackSucceeded (plain (map fst rs)) (SucceedTasks (map fst rs) now d))
      end
  end.

Definition requeue_all (vs : list (liveOutcome * Z * bool * Failure)) (now : Z) (d : db) : db :=
  match vs with
  | [] => d
  | _ =>
      NotifyAll ChannelClaim (map (fun '(l, _, _, _) => tk_release (lo_task l)) vs)
        (recordCallbacks CallbackRetry (map (fun '(l, _, _, f) => (lo_id l, Some f)) vs)
          (RequeueTasks (map (fun '(l, delay, p, _) => (lo_id l, delay, p)) vs) now d))
  end.

Definition fail_all (vs : list (TaskID * Failure * bool)) (now : Z) (d : db) : db :=
  match vs with
  | [] => d
  | _ => recordCallbacks CallbackFailed (plain (map (fun v => v.1.1) vs)) (FailRunningTasks vs now d)
  end.

(** [advanceTasks]. *)
Definition advanceTasks (live : list liveOutcome) (now : Z) (d : db) : go exec_error db :=
  match live with
  | [] => Ret d
  | _ =>
      _ <-! retryPolicies live d;
      decided <-! decide_outcomes d live;
      d <-! succeed_all (succeeds decided) now d;
      let d := fail_all (fails decided) now (requeue_all (requeues decided) now d) in
      let won := map fst (succeeds decided) in
      let lost := map (fun v => v.1.1) (fails decided) in
      d <-! resolveOutcomeDependents won lost now d;
      Ret (NotifyAll ChannelExecution (map (fun l => tk_release (lo_task l)) live)
        (notifyFinished (won ++ lost) (NotifyAll ChannelTask (map lo_id live) d)))
  end.

(** ** Finishing attempts *)

(** Which outcomes repeat an earlier attempt. *)
Fixpoint repeats (seen : list AttemptID) (os : list (option ContainerID * AttemptOutcome)) : list bool :=
  match os with
  | [] => []
  | o :: os => bool_decide (ao_Attempt o.2 ∈ seen) :: repeats (ao_Attempt o.2 :: seen) os
  end.

(** Whether an outcome of [host] on a container is fenced out. *)
Definition fenced (host : option uuid) (container : option ContainerID) (r : AttemptRow) (c : ContainerRow) : bool :=
  match host with Some h => ct_host c != Some h | None => false end ||
  match container with Some id => ap_container r != id | None => false end.

(** An outcome the loop accepts: its task, its attempt and its container. *)
Definition accepted (host : option uuid) (d : db) (o : option ContainerID * AttemptOutcome) :
    option (TaskID * TaskRow * AttemptRow * ContainerRow) :=
  t ← task_of d (ao_Attempt o.2);
  rc ← running_attempt d (ao_Attempt o.2);
  if fenced host o.1 rc.1 rc.2 then None else Some (t.1, t.2, rc.1, rc.2).

Definition is_preempted (o : AttemptOutcome) : bool :=
  match ao_Failure o with Some f => fl_Kind f == FailurePreempted | None => false end.

(** The outcome advances the task it was the current attempt of. *)
Definition current_of (t : TaskRow) (o : AttemptOutcome) : bool :=
  (tk_status t == TaskRunning) && (tk_current t == Some (ao_Attempt o)) && (ao_State o != AttemptCancelled).

(** [finishAttempts]: an outcome may name the container it must be on. *)
Definition finishAttempts (host : option uuid) (os : list (option ContainerID * AttemptOutcome)) (now : Z) (d : db) :
    go exec_error (db * list bool) :=
  if negb (forallb (fun o => outcome_valid o.2) os) then Err ErrOutcome
  else
    let judged := zip_with (fun o (again : bool) => (o, if again then None else accepted host d o)) os (repeats [] os) in
    let taken := omap (fun j => (fun a => (j.1.2, a)) <$> j.2) judged in
    let set := map (fun v => (ao_Attempt v.1, ao_State v.1, is_preempted v.1)) taken in
    let live := omap (fun '(o, (id, t, _, _)) => if current_of t o then Some (mkLive id t o) else None) taken in
    let wake := bool_decide (is_Some host) && existsb (fun '(_, (_, _, _, c)) => ct_state c == ContainerDraining) taken in
    d <-! advanceTasks live now (SetAttemptStates set now d);
    Ret (if wake then notify_host host d else d, map (fun j => bool_decide (j.2 = None)) judged).

(** Outcomes without a fence. *)
Definition unfenced (os : list AttemptOutcome) : list (option ContainerID * AttemptOutcome) := map (fun o => (None, o)) os.

(** ** Completions (completion.go) *)

Definition CrashFailure (message : string) : Failure :=
  mkFailure FailureUserError "WorkerCrashed"
    (if message == "" then "the runner process exited while running the attempt" else message) "" "".

(** A result that is too large fails its attempt. *)
Definition sized_outcome (o : AttemptOutcome) : AttemptOutcome :=
  match ao_Result o with
  | Some p => if octets p >? MaxPayloadBytes
              then mkOutcome (ao_Attempt o) AttemptFailed None
                     (Some (mkFailure FailureUserError "ResultTooLarge" "payload exceeds 16 MiB" "" ""))
              else o
  | None => o
  end.

(** The transaction of [CompleteAttempts], with the error of each
    completion. *)
Definition complete_tx (host : uuid) (cs : list (ContainerID * AttemptOutcome)) (now : Z) (d : db) :
    go exec_error (db * list (option exec_error)) :=
  r <-! finishAttempts (Some host) (map (fun c => (Some c.1, sized_outcome c.2)) cs) now d;
  Ret (r.1, map (fun s : bool => if s then Some ErrStaleAttempt else None) r.2).

(** [CompleteAttempts]: when the transaction fails, each completion runs in
    its own. *)
Definition complete_one (host : uuid) (now : Z) (s : db * list (option exec_error)) (c : ContainerID * AttemptOutcome) :
    go exec_error (db * list (option exec_error)) :=
  match complete_tx host [c] now s.1 with
  | Ret (d, errs) => Ret (d, s.2 ++ errs)
  | Err e => Ret (s.1, s.2 ++ [Some e])
  | Panic => Panic
  | Spins => Spins
  end.
Definition CompleteAttempts (host : uuid) (cs : list (ContainerID * AttemptOutcome)) (now : Z) (d : db) :
    go exec_error (db * list (option exec_error)) :=
  match complete_tx host cs now d with
  | Err _ => go_fold (complete_one host now) cs (d, [])
  | r => r
  end.

(** ** Cancelling (cancel.go) *)

(** [cancelTask]: whether the task was queued or running. *)
Definition cancelTask (workspace : option uuid) (id : TaskID) (now : Z) (d : db) : go exec_error (db * bool) :=
  match xd_tasks d !! id with
  | None => Err ErrNotFound
  | Some t =>
      if match workspace with Some w => negb (tk_workspace t =? w) | None => false end then Err ErrNotFound
      else if Terminal (tk_status t) then Ret (d, false)
      else
        let d := recordCallbacks CallbackCancelled (plain [id]) (CancelTask id now d) in
        d <-! match tk_status t, tk_current t with
              | TaskRunning, Some a =>
                  r <-! finishAttempts None (unfenced [mkOutcome a AttemptCancelled None None]) now d;
                  match xd_attempts r.1 !! a ≫= (fun r0 => xd_containers r.1 !! ap_container r0) with
                  | None => Err ErrDatabase
                  | Some c => Ret (notify_host (ct_host c) r.1)
                  end
              | _, _ => Ret d
              end;
        let d := fail_dependents [id] now d in
        Ret (Notify ChannelExecution (tk_release t) (notifyFinished [id] (Notify ChannelTask id d)), true)
  end.

(** [StopTasks]: the tasks stopped and those skipped; another error ends
    it. *)
Fixpoint StopTasks (workspace : uuid) (ids : list TaskID) (now : Z) (d : db) : db * list TaskID * list TaskID * option exec_error :=
  match ids with
  | [] => (d, [], [], None)
  | id :: ids =>
      match cancelTask (Some workspace) id now d with
      | Ret (d, true) => let '(d, stopped, skipped, e) := StopTasks workspace ids now d in (d, id :: stopped, skipped, e)
      | Ret (d, false) => let '(d, stopped, skipped, e) := StopTasks workspace ids now d in (d, stopped, id :: skipped, e)
      | Err ErrNotFound => let '(d, stopped, skipped, e) := StopTasks workspace ids now d in (d, stopped, id :: skipped, e)
      | Err e => (d, [], [], Some e)
      | _ => (d, [], [], Some ErrDatabase)
      end
  end.

(** ** Containers that stop (containers.go) *)

Definition startFailureLimit : Z := 3.

Record ContainerExit := mkExit {
  ce_Reason : StopReason;
  ce_Message : string;
  ce_LoadError : option Failure;
  ce_ExitCode : option Z;
  ce_Preempted : bool }.

(** What the attempts on a container that stops end as. *)
Definition lost_failure (e : ContainerExit) : Failure :=
  let '(kind, message) :=
    if (ce_Reason e == StopHostLost) || ce_Preempted e then (FailurePreempted, "lost to preemption"%string)
    else (FailureLost, String.append "container stopped: " (reason_text (ce_Reason e))) in
  failure_of kind (if ce_Message e == "" then message else String.append message (String.append ": " (ce_Message e))).

Definition lost_outcomes (f : Failure) (ids : list AttemptID) : list AttemptOutcome :=
  map (fun id => mkOutcome id AttemptLost None (Some f)) ids.

(** A container that exits before it was ever ready failed to start. *)
Definition stop_reason (state : ContainerState) (r : StopReason) : StopReason :=
  if (state == ContainerStarting) && ((r == StopCrashed) || (r == StopOutOfMemory) || (r == StopExited)) then StopStartFailed else r.

(** The writes on the release, and the failure its queued tasks get. *)
Definition release_exit (release : ReleaseID) (id : ContainerID) (state : ContainerState) (e : ContainerExit) (d : db) :
    go exec_error (db * option Failure) :=
  match stop_reason state (ce_Reason e) with
  | StopLoadError =>
      let f := default (failure_of FailureLoadError (ce_Message e)) (ce_LoadError e) in
      let '(d, first) := record_load_error release (fl_Message f) d in
      Ret (if first : bool then d <| xd_failed_workloads := xd_failed_workloads d ++ [(release, StopLoadError, fl_Message f)] |> else d, Some f)
  | StopStartFailed =>
      if state == ContainerPending then
        Ret (d, if ReleaseHasPlacedContainer release id d then None else Some (failure_of FailureStartFailed (ce_Message e)))
      else
        match CountStartFailure release d with
        | None => Err ErrDatabase
        | Some (d, failures) =>
            Ret (if failures =? startFailureLimit
                 then d <| xd_failed_workloads := xd_failed_workloads d ++ [(release, StopStartFailed, ce_Message e)] |> else d,
                 if failures >=? startFailureLimit then Some (failure_of FailureStartFailed (ce_Message e)) else None)
        end
  | StopRequested | StopCrashed | StopOutOfMemory | StopHostLost | StopExited => Ret (d, None)
  end.

(** The queued tasks of a release fail, and what waits on them. *)
Definition fail_release (release : ReleaseID) (f : Failure) (now : Z) (d : db) : db :=
  let queued := LockQueuedWithDependents id release 2147483647 d in
  let '(d, failed) := FailQueuedTasksOfRelease queued f now d in
  fail_dependents failed now (notifyFinished failed (NotifyAll ChannelTask failed (recordCallbacks CallbackFailed (plain failed) d))).

(** [notifyStopped]. *)
Definition notifyStopped (host : option uuid) (owner : Channel) (id : uuid) (d : db) : db := Notify owner id (notify_host host d).

(** [containerExited]. *)
Definition containerExited (id : ContainerID) (e : ContainerExit) (now : Z) (d : db) : go exec_error db :=
  match xd_containers d !! id with
  | None => Err ErrDatabase
  | Some row =>
      if ct_state row == ContainerStopped then Ret d
      else
        let d := StopContainerRow id (ce_Reason e) (ce_Message e) (ce_ExitCode e) now d in
        r <-! finishAttempts None (unfenced (lost_outcomes (lost_failure e) (RunningAttemptsOnContainer id d))) now d;
        if existsb Datatypes.id r.2 then Err ErrStaleAttempt
        else
          match ct_release row with
          | None => Ret (notifyStopped (ct_host row) ChannelImageBuild (default 0 (ct_build row)) r.1)
          | Some release =>
              x <-! release_exit release id (ct_state row) e r.1;
              let d := match x.2 with Some f => fail_release release f now x.1 | None => x.1 end in
              Ret (notifyStopped (ct_host row) ChannelExecution release d)
          end
  end.

End Ops.
