(* ===== verification/Claims.v ===== *)
(** Claims, host reports and recovery (src/internal/execution: claims.go,
    reports.go, recovery.go, hosts.go, workload_runtime.go and the stops of
    container_views.go and unfunded.go): what starts attempts, and everything
    that ends the ones whose host, container or time is gone. *)

From S2P Require Import Prelude Float64 Capacity Catalog GoLib Billing Policy Placement Exec Attempts.

(** ** Claims (claims.go) *)

Definition MaxClaimInputBytes : Z := Z.shiftl 64 20.

(** [ClaimedTask]. *)
Record ClaimedTask := mkClaimed {
  cl_Task : TaskID;
  cl_Attempt : AttemptID;
  cl_Number : Z;
  cl_MaxAttempts : Z;
  cl_Input : Payload;
  cl_Deadline : Z;
  cl_Root : TaskID;
  cl_Parent : option TaskID;
  cl_Dependencies : list (TaskID * Payload) }.

Definition due_task (release : ReleaseID) (now : Z) (t : TaskRow) : bool :=
  (tk_release t =? release) && (tk_status t == TaskQueued) && (tk_available_at t <=? now) && (tk_unmet t =? 0).

(** [order by t.available_at, t.id]. *)
Definition claim_task_order (a b : TaskID * TaskRow) : comparison :=
  Z.compare (tk_available_at a.2) (tk_available_at b.2) <+> Z.compare a.1 b.1.

Definition candidates (release : ReleaseID) (limit : nat) (locked : TaskID -> bool) (now : Z) (d : db) : list (TaskID * TaskRow) :=
  take limit (sort_by claim_task_order
    (List.filter (fun r => due_task release now r.2 && negb (locked r.1)) (map_to_list (xd_tasks d)))).

(** [turn = 1 or total_bytes <= max]: the running total in claim order. *)
Fixpoint within (total max : Z) (first : bool) (d : db) (rows : list (TaskID * TaskRow)) : list (TaskID * TaskRow) :=
  match rows with
  | [] => []
  | r :: rows =>
      let total := total + input_bytes d r.1 r.2 in
      if first || (total <=? max) then r :: within total max false d rows else within total max false d rows
  end.

(** The attempt a picked task gets, and the task it becomes. *)
Definition new_attempt (container : ContainerID) (timeout now : Z) (r : TaskID * TaskRow) : AttemptRow :=
  mkAttempt r.1 (tk_attempt_count r.2 + 1) container AttemptRunning false now (now + timeout) None.
Definition claimed_row (a : AttemptID) (now : Z) (t : TaskRow) : TaskRow :=
  t <| tk_status := TaskRunning |> <| tk_current := Some a |> <| tk_attempt_count := tk_attempt_count t + 1 |>
    <| tk_started_at := Some (default now (tk_started_at t)) |>.

Definition claim_row (fresh : TaskID -> AttemptID) (container : ContainerID) (timeout now : Z) (d : db) (r : TaskID * TaskRow) : db :=
  d <| xd_attempts := <[fresh r.1 := new_attempt container timeout now r]> (xd_attempts d) |>
    <| xd_tasks := alter (claimed_row (fresh r.1) now) r.1 (xd_tasks d) |>.

(** [ClaimQueuedTasks]; [fresh] names each new attempt and [locked] says which
    tasks other transactions hold. *)
Definition ClaimQueuedTasks (release : ReleaseID) (limit : nat) (max : Z) (container : ContainerID) (timeout : Z)
    (locked : TaskID -> bool) (fresh : TaskID -> AttemptID) (now : Z) (d : db) : db * list (TaskID * TaskRow) :=
  let picked := within 0 max true d (candidates release limit locked now d) in
  (fold_left (claim_row fresh container timeout now) picked d,
   sort_by (fun a b => Z.compare (fresh a.1) (fresh b.1)) picked).

(** [NextQueuedAt]. *)
Definition NextQueuedAt (release : ReleaseID) (d : db) : option Z :=
  head (sort_by Z.compare (omap (fun r =>
    if (tk_release r.2 =? release) && (tk_status r.2 == TaskQueued) && (tk_unmet r.2 =? 0) then Some (tk_available_at r.2) else None)
    (map_to_list (xd_tasks d)))).

Definition claimed_task (fresh : TaskID -> AttemptID) (timeout now : Z) (d : db) (r : TaskID * TaskRow) : ClaimedTask :=
  mkClaimed r.1 (fresh r.1) (tk_attempt_count r.2 + 1) (tk_max_attempts r.2) (tk_input r.2) (now + timeout)
    (default r.1 (tk_root r.2)) (tk_parent r.2) (DependencyResults r.1 d).

Definition default_timeout : Z := 3600.

(** [claimOnce]: the claimed tasks, or when the next one is due. *)
Definition claimOnce (host : uuid) (container : ContainerID) (maxTasks : Z) (locked : TaskID -> bool) (fresh : TaskID -> AttemptID)
    (now : Z) (d : db) : go exec_error (db * list ClaimedTask * option Z) :=
  match xd_containers d !! container ≫= (fun c => ct_release c ≫= (fun r => (fun rel => (c, r, rel)) <$> xd_releases d !! r)) with
  | None => Err ErrNotAssigned
  | Some (c, release, rel) =>
      if ct_host c != Some host then Err ErrNotAssigned
      else if (ct_state c != ContainerReady) || (ct_purpose c != PurposeServe) then Ret (d, [], None)
      else
        let running := Z.of_nat (length (RunningAttemptsOnContainer container d)) in
        let limit := Z.min maxTasks (ct_slots c - running) in
        if limit <=? 0 then Ret (d, [], None)
        else
          match rl_spec rel with
          | None => Err ErrDecode
          | Some spec =>
              let timeout := default default_timeout (sp_TimeoutSeconds spec) * second in
              let '(d', rows) := ClaimQueuedTasks release (Z.to_nat limit) MaxClaimInputBytes container timeout locked fresh now d in
              match rows with
              | [] => Ret (d, [], NextQueuedAt release d)
              | _ => Ret (d', map (claimed_task fresh timeout now d') rows, None)
              end
          end
  end.

Section Ops.
Context (big : float64 -> Z) (hooked : uuid -> bool) (uuid_text : uuid -> string).
#[local] Abbreviation finish := (finishAttempts big hooked uuid_text).
#[local] Abbreviation exited := (containerExited big hooked uuid_text).

(** An exit with a reason and a message. *)
Definition exit_with (r : StopReason) (message : string) : ContainerExit := mkExit r message None None false.

(** ** Reports (reports.go) *)

Inductive ReportPhase := ReportPreparing | ReportStarting | ReportReady | ReportExited.
#[export] Instance ReportPhase_eq_dec : EqDecision ReportPhase.
Proof using. solve_decision. Defined.

Record ContainerReport := mkReport {
  rt_Container : ContainerID;
  rt_Phase : ReportPhase;
  rt_Exit : option ContainerExit;
  rt_Running : list AttemptID;
  rt_ObservedAt : Z }.

Record ReportActions := mkActions { ra_Stop : list ContainerID; ra_Cancel : list (ContainerID * AttemptID * AttemptState) }.
Definition no_actions : ReportActions := mkActions [] [].

(** [ReportActions.merge]. *)
Definition merge (a b : ReportActions) : ReportActions := mkActions (ra_Stop a ++ ra_Stop b) (ra_Cancel a ++ ra_Cancel b).

(** [OmittedRunningAttempts]. *)
Definition OmittedRunningAttempts (r : ContainerReport) (d : db) : list AttemptID :=
  List.filter (fun a => match xd_attempts d !! a with
    | Some row => (ap_started_at row <? rt_ObservedAt r - 60 * second) && negb (bool_decide (a ∈ rt_Running r))
    | None => false end) (RunningAttemptsOnContainer (rt_Container r) d).

(** [loseOmittedAttempts]. *)
Definition loseOmittedAttempts (r : ContainerReport) (now : Z) (d : db) : go exec_error db :=
  x <-! finish None (unfenced (lost_outcomes (failure_of FailureLost "the host no longer runs the attempt") (OmittedRunningAttempts r d)))
          now d;
  if existsb Datatypes.id x.2 then Err ErrStaleAttempt else Ret x.1.

(** [endedAttempts]: the commands for attempts the host runs that ended. *)
Definition endedAttempts (container : ContainerID) (running : list AttemptID) (d : db) : list (ContainerID * AttemptID * AttemptState) :=
  omap (fun a =>
    match xd_attempts d !! a with
    | Some r =>
        if (ap_container r =? container) && (ap_state r == AttemptRunning) then None
        else Some (container, a, if ap_state r == AttemptTimedOut then AttemptTimedOut else AttemptCancelled)
    | None => Some (container, a, AttemptCancelled)
    end) running.

(** What [ApplyReport] does with a ready report. *)
Definition report_ready (id : ContainerID) (c : ContainerRow) (r : ContainerReport) (now : Z) (d : db) : go exec_error db :=
  let d := if ct_state c == ContainerStarting then Notify ChannelContainerOp id (MarkContainerReady id now d) else d in
  let d := match ct_release c with
           | Some release =>
               if ct_state c == ContainerStarting
               then Notify ChannelClaim release (Notify ChannelExecution release (ResetStartFailures release d)) else d
           | None => d
           end in
  loseOmittedAttempts r now d.

(** [ApplyReport]. *)
Definition ApplyReport (host : uuid) (r : ContainerReport) (now : Z) (d : db) : go exec_error (db * ReportActions) :=
  let stop := if rt_Phase r == ReportExited then no_actions else mkActions [rt_Container r] [] in
  match xd_containers d !! rt_Container r with
  | None => Ret (d, stop)
  | Some c =>
      if (ct_host c != Some host) || (ct_state c == ContainerStopped) then Ret (d, stop)
      else match rt_Phase r with
      | ReportExited =>
          d <-! exited (rt_Container r) (default (mkExit StopCrashed "" None None false) (rt_Exit r)) now d;
          Ret (d, no_actions)
      | ReportReady =>
          d <-! report_ready (rt_Container r) c r now d;
          Ret (d, mkActions [] (endedAttempts (rt_Container r) (rt_Running r) d))
      | ReportPreparing | ReportStarting => Ret (d, mkActions [] (endedAttempts (rt_Container r) (rt_Running r) d))
      end
  end.

(** [ReconcileHost]: each report and each stop is a transaction of its own. *)
Definition reconcile_report (host : uuid) (now : Z) (s : db * ReportActions) (r : ContainerReport) : go exec_error (db * ReportActions) :=
  x <-! ApplyReport host r now s.1; Ret (x.1, merge s.2 x.2).
Definition missing (host : uuid) (reports : list ContainerReport) (d : db) : list ContainerID :=
  containers_where (fun id c => (ct_host c == Some host) && ((ct_state c == ContainerReady) || (ct_state c == ContainerDraining)) &&
    negb (bool_decide (id ∈ map rt_Container reports))) d.
Definition ReconcileHost (host : uuid) (reports : list ContainerReport) (now : Z) (d : db) : go exec_error (db * ReportActions) :=
  s <-! go_fold (reconcile_report host now) reports (d, no_actions);
  d <-! go_fold (fun d id => exited id (exit_with StopCrashed "the host no longer runs the container") now d) (missing host reports s.1) s.1;
  Ret (d, s.2).

(** ** Stops *)

(** [stopContainer] (container_views.go): what a stop tells the exit and the
    attempts. *)
Record stopCause := mkCause { sc_exit : string; sc_lost : string }.

Definition stopContainer (workspace : uuid) (id : ContainerID) (cause : stopCause) (now : Z) (d : db) : go exec_error db :=
  match xd_containers d !! id with
  | None => Err ErrNotFound
  | Some c =>
      match ct_release c with
      | None => Err ErrNotFound
      | Some release =>
          if negb (ct_workspace c =? workspace) then Err ErrNotFound
          else match ct_state c with
          | ContainerStopped => Ret d
          | ContainerPending => exited id (exit_with StopRequested (sc_exit cause)) now d
          | ContainerStarting | ContainerReady | ContainerDraining =>
              let d := set_container (fun c => if drains c then drained now c else c) id d in
              r <-! finish None (unfenced (lost_outcomes (failure_of FailureLost (sc_lost cause)) (RunningAttemptsOnContainer id d))) now d;
              Ret (Notify ChannelExecution release (notify_host (ct_host c) r.1))
          end
      end
  end.

(** [StartFailed] (workload_runtime.go). *)
Definition StartFailed (host : uuid) (id : ContainerID) (message : string) (now : Z) (d : db) : go exec_error db :=
  match xd_containers d !! id with
  | None => Err ErrNotAssigned
  | Some c =>
      if ct_host c != Some host then Err ErrNotAssigned
      else if ct_state c != ContainerStarting then Ret d
      else exited id (exit_with StopStartFailed message) now d
  end.

(** [StopHostContainers] (hosts.go). *)
Definition StopHostContainers (host : uuid) (message : string) (now : Z) (d : db) : go exec_error (db * Z) :=
  let ids := LiveContainersOnHost host d in
  d <-! go_fold (fun d id => exited id (exit_with StopHostLost message) now d) ids d;
  Ret (d, Z.of_nat (length ids)).

(** [drainHost]: of some workspaces, or of all. *)
Definition drains_on (host : uuid) (workspaces : option (list uuid)) (c : ContainerRow) : bool :=
  (ct_host c == Some host) && drains c && match workspaces with Some ws => bool_decide (ct_workspace c ∈ ws) | None => true end.
Definition notify_owner (d : db) (c : ContainerRow) : db :=
  match ct_release c, ct_build c with
  | Some r, _ => Notify ChannelExecution r d
  | None, Some b => Notify ChannelImageBuild b d
  | None, None => d
  end.
Definition drainHost (host : uuid) (workspaces : option (list uuid)) (now : Z) (d : db) : db :=
  match containers_where (fun _ c => drains_on host workspaces c) d with
  | [] => d
  | ids =>
      let rows := omap (fun id => xd_containers d !! id) ids in
      fold_left notify_owner rows (Notify ChannelHost host (set_containers (fun _ c => drains_on host workspaces c) (drained now) d))
  end.
Definition DrainHostContainers (host : uuid) (now : Z) (d : db) : db := drainHost host None now d.
Definition DrainHostWorkspaces (host : uuid) (workspaces : list uuid) (now : Z) (d : db) : db :=
  match workspaces with [] => d | _ => drainHost host (Some workspaces) now d end.

(** [EvictContainers]: in id order. *)
Definition EvictContainers (ids : list ContainerID) (now : Z) (d : db) : go exec_error db :=
  go_fold (fun d id => exited id (mkExit StopRequested "evicted for GPU work" None None true) now d) (sort_by Z.compare ids) d.

(** ** Recovery (recovery.go) *)

Definition StartTimeout : Z := 10 * minute.

(** An attempt of [OverdueAttempts]. *)
Definition overdue_attempt (now : Z) (r : AttemptRow) : bool := (ap_state r == AttemptRunning) && (ap_deadline_at r <? now).

(** The transaction of [TimeOutAttempts] for one attempt the scan found. *)
Definition time_out_attempt (id : AttemptID) (host : option uuid) (now : Z) (d : db) : go exec_error db :=
  r <-! finish None (unfenced [mkOutcome id AttemptTimedOut None (Some (failure_of FailureTimeout "attempt exceeded its timeout"))]) now d;
  if existsb Datatypes.id r.2 then Err ErrStaleAttempt else Ret (notify_host host r.1).

(** [TimeOutAttempts]: the attempts overdue when it scans, by deadline, each
    in a transaction of its own; one that fails is logged. *)
Definition overdue_order (a b : AttemptID * AttemptRow) : comparison :=
  Z.compare (ap_deadline_at a.2) (ap_deadline_at b.2) <+> Z.compare a.1 b.1.
Definition OverdueAttempts (now : Z) (d : db) : list (AttemptID * AttemptRow) :=
  sort_by overdue_order (List.filter (fun r => overdue_attempt now r.2) (map_to_list (xd_attempts d))).
Definition host_of (d : db) (c : ContainerID) : option uuid := c ← xd_containers d !! c; ct_host c.
Definition TimeOutAttempts (now : Z) (d : db) : db * Z :=
  fold_left (fun s r =>
    match time_out_attempt r.1 (host_of s.1 (ap_container r.2)) now s.1 with Ret d => (d, s.2 + 1) | _ => s end)
    (OverdueAttempts now d) (d, 0).

(** The transaction of [TimeOutStarts] for one container. *)
Definition stuck_starting (now : Z) (c : ContainerRow) : bool :=
  (ct_state c == ContainerStarting) && match ct_assigned_at c with Some a => a <? now - StartTimeout | None => false end.
Definition time_out_start (id : ContainerID) (now : Z) (d : db) : go exec_error db :=
  match xd_containers d !! id with
  | Some c => if stuck_starting now c then exited id (exit_with StopStartFailed "container did not become ready within 10m0s") now d else Ret d
  | None => Ret d
  end.
Definition TimeOutStarts (now : Z) (d : db) : db :=
  fold_left (fun d id => match time_out_start id now d with Ret d' => d' | _ => d end)
    (containers_where (fun _ c => stuck_starting now c) d) d.

(** The transaction of [timeOutPending]: [waits] says the container's wait
    still holds, and [message] why it waited. *)
Definition time_out_pending (id : ContainerID) (waits : bool) (message : string) (timeout now : Z) (d : db) : go exec_error db :=
  match xd_containers d !! id with
  | Some c =>
      if (ct_state c == ContainerPending) && (ct_created_at c <? now - timeout) && waits
      then exited id (exit_with StopStartFailed message) now d else Ret d
  | None => Ret d
  end.

(** The transaction of [ReleaseLostHosts] once the host is marked lost. *)
Definition release_lost_host (host : uuid) (now : Z) (d : db) : go exec_error db :=
  go_fold (fun d id => exited id (exit_with StopHostLost "host stopped reporting") now d) (LiveContainersOnHost host d) d.

(** [StopUnfunded] (unfunded.go): every container it lists in one read, the
    batches it reads them in aside. *)
Definition unfunded_cause (reason : string) : stopCause := mkCause reason (String.append "the container was stopped: " reason).
Definition LiveFunctionContainers (workspace : uuid) (d : db) : list ContainerID :=
  containers_where (fun _ c => (ct_workspace c =? workspace) &&
    ((ct_state c == ContainerPending) || (ct_state c == ContainerStarting) || (ct_state c == ContainerReady)) &&
    bool_decide (is_Some (ct_release c))) d.
Definition StopUnfunded (workspace : uuid) (reason : string) (now : Z) (d : db) : go exec_error db :=
  go_fold (fun d id => stopContainer workspace id (unfunded_cause reason) now d) (LiveFunctionContainers workspace d) d.

End Ops.
