(* ===== verification/Submit.v ===== *)
(** Admission of tasks (src/internal/execution/admission.go and
    start_retry.go): a submit admits every input or none, and a release whose
    starts failed gets one fresh start per user action.

    The function's row, joined from workloads, apps and previews, the check of
    a pinned machine and billing's admission are parameters. *)

From S2P Require Import Prelude Float64 Capacity Catalog GoLib Billing Policy Placement Exec Attempts.

(** ** Failed starts *)

Definition startRetryBase : Z := 5 * second.
Definition startRetryMax : Z := minute.

(** [startRetryDelay] (planning.go), of one failure or more. *)
Definition startRetryDelay (failures : Z) : Z :=
  if failures >=? 8 then startRetryMax else Z.min (Z.shiftl startRetryBase (failures - 1)) startRetryMax.

(** The newest serving container of a release: when it stopped and why. *)
Definition newest (a b : ContainerID * ContainerRow) : comparison := Z.compare b.1 a.1.
Definition last_container (release : ReleaseID) (d : db) : option ContainerRow :=
  snd <$> head (sort_by newest (List.filter (fun c => (ct_release c.2 == Some release) && (ct_purpose c.2 == PurposeServe))
    (map_to_list (xd_containers d)))).
Definition last_reason (c : ContainerRow) : string :=
  match ct_exit_message c with
  | Some m => if m == "" then match ct_stop_reason c with Some r => reason_text r | None => "" end else m
  | None => match ct_stop_reason c with Some r => reason_text r | None => "" end
  end.

(** A release [LockStoppedReleases] returns. *)
Definition stopped_release (r : ReleaseRow) : bool :=
  bool_decide (is_Some (rl_load_error r)) || (rl_start_failures r >=? startFailureLimit).

(** Whether [RetryStarts] holds a release, and on which failure. *)
Definition held_start (release : ReleaseID) (clock : Z) (d : db) : option Failure :=
  r ← xd_releases d !! release;
  if stopped_release r then
    c ← last_container release d;
    stopped ← ct_stopped_at c;
    if time_sub clock stopped >=? startRetryDelay (Z.max (rl_start_failures r) startFailureLimit) then None
    else Some match rl_load_error r with
         | Some e => failure_of FailureLoadError e
         | None => failure_of FailureStartFailed (last_reason c)
         end
  else None.

(** [RetryStarts]: the releases it starts over; [held_start] says which are
    held, before and after alike. *)
Definition retried (clock : Z) (d : db) (release : ReleaseID) : bool :=
  match xd_releases d !! release with
  | Some r => stopped_release r && bool_decide (held_start release clock d = None)
  | None => false
  end.
Definition fresh_start (r : ReleaseRow) : ReleaseRow := r <| rl_start_failures := startFailureLimit - 1 |> <| rl_load_error := None |>.
Definition RetryStarts (releases : list ReleaseID) (clock : Z) (d : db) : db * gmap ReleaseID Failure :=
  let ids := List.filter (retried clock d) (sort_by Z.compare (distinct releases [])) in
  (NotifyAll ChannelExecution ids
     (d <| xd_releases := map_imap (fun id r => Some (if bool_decide (id ∈ ids) then fresh_start r else r)) (xd_releases d) |>),
   list_to_map (omap (fun id => (fun f => (id, f)) <$> held_start id clock d) releases)).

(** ** Submitting *)

Record TaskInput := mkInput { ti_Payload : Payload; ti_DependsOn : list TaskID }.

Record SubmitRequest := mkSubmit {
  sr_Workspace : uuid;
  sr_App : string;
  sr_Function : string;
  sr_Release : option ReleaseID;
  sr_Parent : option TaskID;
  sr_ScheduledFor : option Z;
  sr_Inputs : list TaskInput }.

(** [LockFunctionForSubmitRow], with whether the app and the workload are
    active. *)
Record FunctionRow := mkFunction {
  fn_ID : uuid;
  fn_Release : ReleaseID;
  fn_Version : option Z;
  fn_AppActive : bool;
  fn_Active : bool;
  fn_PreviewLive : bool }.

(** [accepting]. *)
Definition accepting (fn : FunctionRow) (explicit : bool) : bool :=
  if explicit then
    match fn_Version fn with
    | None => true
    | Some v => if v <? 0 then fn_PreviewLive fn else fn_AppActive fn && fn_Active fn
    end
  else fn_AppActive fn && fn_Active fn.

(** The limits on one input. *)
Definition input_error (i : TaskInput) : option exec_error :=
  if octets (ti_Payload i) >? MaxPayloadBytes then Some ErrPayloadTooLarge
  else if bool_decide (MaxDependencies < length (ti_DependsOn i))%nat then Some ErrInvalidSubmit
  else None.

(** [uniqueTasks]: the order they are first named. *)
Definition uniqueTasks (ids : list TaskID) : list TaskID := distinct ids [].

(** [lockUpstream]: the first upstream, in id order, the workspace lacks. *)
Definition in_workspace (workspace : uuid) (d : db) (id : TaskID) : bool :=
  match xd_tasks d !! id with Some t => tk_workspace t =? workspace | None => false end.
Definition unknown_upstream (workspace : uuid) (ids : list TaskID) (d : db) : option TaskID :=
  List.find (fun id => negb (in_workspace workspace d id)) (sort_by Z.compare (distinct ids [])).

Definition status_of (d : db) (id : TaskID) : option TaskStatus := tk_status <$> xd_tasks d !! id.

(** What a new task waits for: its unmet upstreams, whether one ended without
    success, and the bytes of its input and of the results it has. *)
Definition unmet_of (d : db) (i : TaskInput) : Z :=
  Z.of_nat (length (List.filter (fun u =>
    match status_of d u with Some TaskQueued | Some TaskRunning => true | _ => false end) (uniqueTasks (ti_DependsOn i)))).
Definition doomed (d : db) (i : TaskInput) : bool :=
  existsb (fun u => match status_of d u with Some TaskFailed | Some TaskCancelled => true | _ => false end) (uniqueTasks (ti_DependsOn i)).
Definition submit_bytes (d : db) (i : TaskInput) : Z :=
  octets (ti_Payload i) + sumZ (map (fun u => match status_of d u with Some TaskSucceeded => result_bytes d u | _ => 0 end)
    (uniqueTasks (ti_DependsOn i))).
Definition too_large (d : db) (i : TaskInput) : bool :=
  negb (doomed d i) && (unmet_of d i =? 0) && (submit_bytes d i >? MaxDependentInputBytes).

(** [CountQueuedTasks] and [CountLiveReleaseContainers]. *)
Definition CountQueuedTasks (workload : uuid) (d : db) : Z :=
  Z.of_nat (length (List.filter (fun r => (tk_workload r.2 =? workload) && (tk_status r.2 == TaskQueued)) (map_to_list (xd_tasks d)))).
Definition CountLiveReleaseContainers (release : ReleaseID) (d : db) : Z :=
  Z.of_nat (length (List.filter (fun c => (ct_release c.2 == Some release) && (ct_state c.2 != ContainerStopped))
    (map_to_list (xd_containers d)))).

(** A row of [InsertTasks]. *)
Definition new_task (req : SubmitRequest) (fn : FunctionRow) (max : Z) (root : option TaskID) (unmet now : Z) (p : Payload) : TaskRow :=
  mkTask (sr_Workspace req) (fn_ID fn) (fn_Release fn) TaskQueued 0 max 0 now None None now None None unmet (sr_Parent req) root
    (sr_ScheduledFor req) p.

(** [InsertTasks]: [None] when a key or the one task of an occurrence
    exists. *)
Definition occurrence_taken (workload : uuid) (at_ : option Z) (d : db) : bool :=
  match at_ with
  | Some s => existsb (fun r => (tk_workload r.2 =? workload) && (tk_scheduled_for r.2 == Some s)) (map_to_list (xd_tasks d))
  | None => false
  end.
Fixpoint InsertTasks (rows : list (TaskID * TaskRow)) (d : db) : option db :=
  match rows with
  | [] => Some d
  | (id, t) :: rows =>
      if bool_decide (is_Some (xd_tasks d !! id)) || occurrence_taken (tk_workload t) (tk_scheduled_for t) d then None
      else InsertTasks rows (d <| xd_tasks := <[id := t]> (xd_tasks d) |>)
  end.

(** [recordDependencies]. *)
Definition recordDependencies (rows : list (TaskID * TaskInput)) (d : db) : db :=
  d <| xd_deps := xd_deps d ++ flat_map (fun r => map (pair r.1) (uniqueTasks (ti_DependsOn r.2))) rows |>.

Section Submit.
Context (big : float64 -> Z) (hooked : uuid -> bool).
(** [LockFunctionForSubmit]; the machine a pinned run asks for can take it;
    [billing.Admit]; the id of the n-th new task. *)
Context (function_of : SubmitRequest -> option FunctionRow) (machine_runs : uuid -> string -> bool)
  (Admit : uuid -> WorkloadSpec -> bool -> bool) (fresh : nat -> TaskID).

(** New tasks that fail at once. *)
Definition fail_new (ids : list TaskID) (release : ReleaseID) (f : Failure) (now : Z) (d : db) : db :=
  match ids with [] => d | _ => fail_queued hooked (map (fun id => (id, release)) ids) f now d end.

(** The admission's checks, up to the tasks it inserts: the spec and the root
    of the new tasks' call graph. *)
Definition submit_checks (req : SubmitRequest) (fn : FunctionRow) (d : db) : go exec_error WorkloadSpec :=
  if negb (accepting fn (bool_decide (is_Some (sr_Release req)))) then Err ErrNotAccepting
  else match spec_of d (fn_Release fn) with
  | None => Err ErrDecode
  | Some spec =>
      if bool_decide (is_Some (sr_Release req)) && (sp_Machine spec != "") && negb (machine_runs (sr_Workspace req) (sp_Machine spec))
      then Err ErrRefused
      else
        let limit := default 0 (sp_MaxPendingTasks spec) in
        let queued := CountQueuedTasks (fn_ID fn) d in
        let n := Z.of_nat (length (sr_Inputs req)) in
        if queued + n >? limit then Err (ErrTooManyPending limit queued n)
        else if negb (Admit (sr_Workspace req) spec (CountLiveReleaseContainers (fn_Release fn) d =? 0)) then Err ErrRefused
        else Ret spec
  end.

Definition parent_root (req : SubmitRequest) (d : db) : go exec_error (option TaskID) :=
  match sr_Parent req with
  | None => Ret None
  | Some p =>
      match xd_tasks d !! p with
      | Some t => if tk_workspace t =? sr_Workspace req then Ret (Some (default p (tk_root t))) else Err (ErrUnknownTask "parent" p)
      | None => Err (ErrUnknownTask "parent" p)
      end
  end.

(** The tasks a submit inserts. *)
Definition new_rows (req : SubmitRequest) (fn : FunctionRow) (spec : WorkloadSpec) (root : option TaskID) (now : Z) (d : db) :
    list (TaskID * TaskRow) :=
  imap (fun n i => (fresh n, new_task req fn (rp_MaxAttempts (RetryPolicyOf big spec)) root (unmet_of d i) now (ti_Payload i)))
    (sr_Inputs req).

(** The new tasks a predicate selects. *)
Definition new_where (f : TaskInput -> bool) (inputs : list TaskInput) : list TaskID :=
  map fresh (map fst (List.filter (fun p => f p.2) (imap pair inputs))).

(** [SubmitInTx]: the new tasks, in the order of the inputs. *)
Definition SubmitInTx (req : SubmitRequest) (clock now : Z) (d : db) : go exec_error (db * list TaskID) :=
  match omap input_error (sr_Inputs req) with
  | e :: _ => Err e
  | [] =>
      match function_of req with
      | None => Err ErrNotFound
      | Some fn =>
          spec <-! submit_checks req fn d;
          let '(d, held) := RetryStarts [fn_Release fn] clock d in
          root <-! parent_root req d;
          match unknown_upstream (sr_Workspace req) (flat_map ti_DependsOn (sr_Inputs req)) d with
          | Some u => Err (ErrUnknownTask "upstream" u)
          | None =>
              match InsertTasks (new_rows req fn spec root now d) d with
              | None => Err ErrDatabase
              | Some d' =>
                  let ids := imap (fun n _ => fresh n) (sr_Inputs req) in
                  let d' := recordDependencies (zip ids (sr_Inputs req)) d' in
                  let d' := match held !! fn_Release fn with
                            | Some f => fail_new ids (fn_Release fn) f now d'
                            | None =>
                                fail_new (new_where (too_large d) (sr_Inputs req)) (fn_Release fn) dependenciesTooLarge now
                                  (fail_new (new_where (doomed d) (sr_Inputs req)) (fn_Release fn)
                                    (failure_of FailureDependencyFailed "an upstream task failed or was cancelled") now d')
                            end in
                  Ret (Notify ChannelClaim (fn_Release fn) (Notify ChannelExecution (fn_Release fn) d'), ids)
              end
          end
      end
  end.

End Submit.
