(* ===== verification/Scaling.v ===== *)
(** Planning (src/internal/execution/planning.go and planning.sql.go): how
    many containers each release gets, which start, drain and stop, and how a
    stopped workload winds down.

    A release's settings, which PlanningReleases joins from its spec, its
    workload, app and workspace, are a record; what it counts is read from the
    tables.  Which containers leave their host ([container_leaves]), which
    rows other transactions hold and what billing admits are parameters. *)

From S2P Require Import Prelude Float64 Capacity Catalog GoLib Billing Policy Placement Exec Attempts Claims Submit.

Definition planningBatch : nat := 100.
Definition cancelBatch : Z := 1000.

(** What [PlanningReleases] reads of a release outside execution's tables. *)
Record PlanConfig := mkConfig {
  pc_Workspace : uuid;
  pc_Active : bool;
  pc_Stopping : bool;
  pc_Retiring : bool;
  pc_MinContainers : Z;
  pc_MaxContainers : Z;
  pc_TasksPerContainer : Z;
  pc_Slots : Z;
  pc_KeepWarmSeconds : Z;
  pc_CpuMillis : Z;
  pc_MemoryBytes : Z }.

(** [PlanningReleasesRow]. *)
Record PlanningRow := mkPlanning {
  pr_Release : ReleaseID;
  pr_Config : PlanConfig;
  pr_QueuedAvailable : Z;
  pr_Running : Z;
  pr_Pending : Z;
  pr_Starting : Z;
  pr_Ready : Z;
  pr_Draining : Z;
  pr_Leaving : bool;
  pr_LoadFailed : bool;
  pr_StartFailures : Z;
  pr_LastStoppedAt : option Z }.

(** [releasePlan]; a drained container with its host. *)
Record releasePlan := mkPlan {
  pn_created : list ContainerID;
  pn_stopped : list ContainerID;
  pn_drained : list (ContainerID * option uuid);
  pn_cancelled : Z;
  pn_retryAt : option Z }.
Definition no_plan : releasePlan := mkPlan [] [] [] 0 None.
#[export] Instance eta_releasePlan : Eta releasePlan := fun r =>
  mkPlan (pn_created r) (pn_stopped r) (pn_drained r) (pn_cancelled r) (pn_retryAt r).

(** [PlanResult] and [PlanResult.add]. *)
Record PlanResult := mkResult { rs_Created : Z; rs_Stopped : Z; rs_Drained : Z; rs_Cancelled : Z; rs_RetryAt : option Z }.
Definition add_plan (r : PlanResult) (p : releasePlan) : PlanResult :=
  mkResult (rs_Created r + Z.of_nat (length (pn_created p))) (rs_Stopped r + Z.of_nat (length (pn_stopped p)))
    (rs_Drained r + Z.of_nat (length (pn_drained p))) (rs_Cancelled r + pn_cancelled p)
    match pn_retryAt p, rs_RetryAt r with
    | Some at_, Some best => Some (if at_ <? best then at_ else best)
    | Some at_, None => Some at_
    | None, best => best
    end.

(** [desiredContainers]; Go's division. *)
Definition desiredContainers (demand tasksPerContainer minimum maximum : Z) : Z :=
  let tasksPerContainer := Z.max tasksPerContainer 1 in
  let needed := Z.quot (demand + tasksPerContainer - 1) tasksPerContainer in
  Z.max (Z.min (Z.max needed minimum) maximum) 0.

(** [releasePlan.holdStart]; [clock] is the process's time. *)
Definition holdStart (failures : Z) (stopped : option Z) (clock : Z) : option Z :=
  match stopped with
  | None => None
  | Some at_ => if failures <=? 0 then None
      else if clock <? at_ + startRetryDelay failures then Some (at_ + startRetryDelay failures) else None
  end.

(** ** Leaving containers *)

(** [leaving]. *)
Record leaving := mkLeaving { lv_drained : Z; lv_running : Z; lv_replacing : Z; lv_unpaired : list ContainerID }.
Definition no_leaving : leaving := mkLeaving 0 0 0 [].

(** [leaving.counts]: active and live. *)
Definition counts (l : leaving) (pending starting ready draining : Z) : Z * Z :=
  let n := pending + starting + ready in
  (n - lv_drained l - lv_replacing l, n + draining - lv_replacing l).

(** [leaving.starts]: pairs and grow. *)
Definition starts (l : leaving) (active desired room : Z) : Z * Z :=
  let unpaired := Z.of_nat (length (lv_unpaired l)) in
  (Z.min unpaired (Z.max (desired - active + unpaired) 0), Z.max (Z.min (desired - active) room) 0).

Section Plan.
Context (leaves : ContainerID -> bool).
(** Rows another transaction holds, which [skip locked] passes over. *)
Context (locked : ContainerID -> bool).

Definition serves (release : ReleaseID) (c : ContainerRow) : bool := (ct_release c == Some release) && (ct_purpose c == PurposeServe).

Definition container_order (a b : ContainerID * ContainerRow) : comparison :=
  Z.compare (ct_created_at a.2) (ct_created_at b.2) <+> Z.compare a.1 b.1.

(** [LeavingContainersRow]. *)
Record LeavingRow := mkLeavingRow { lr_ID : ContainerID; lr_Running : Z; lr_Replaced : bool; lr_Ready : bool }.

Definition replacements (d : db) (id : ContainerID) : list ContainerRow :=
  List.filter (fun c => ct_replaces c == Some id) (map snd (map_to_list (xd_containers d))).
Definition leaving_row (d : db) (c : ContainerID * ContainerRow) : LeavingRow :=
  mkLeavingRow c.1 (Z.of_nat (length (RunningAttemptsOnContainer c.1 d)))
    (existsb (fun x => (ct_state x == ContainerPending) || (ct_state x == ContainerStarting)) (replacements d c.1))
    (existsb (fun x => bool_decide (is_Some (ct_ready_at x))) (replacements d c.1)).
Definition LeavingContainers (release : ReleaseID) (d : db) : list LeavingRow :=
  map (leaving_row d) (sort_by container_order (List.filter (fun c => serves release c.2 && drains c.2 && leaves c.1)
    (map_to_list (xd_containers d)))).

(** [DrainLeavingContainers]: the rows it returns, in id order. *)
Definition drains_now (ids : list ContainerID) (id : ContainerID) (c : ContainerRow) : bool :=
  bool_decide (id ∈ ids) && drains c && negb (locked id).
Definition drain_where (g : ContainerID -> ContainerRow -> bool) (now : Z) (d : db) : db * list (ContainerID * option uuid) :=
  (set_containers g (drained now) d,
   omap (fun id => (fun c => (id, ct_host c)) <$> xd_containers d !! id) (containers_where g d)).

(** [notifyHosts]. *)
Definition notifyHosts (rows : list (ContainerID * option uuid)) (d : db) : db := NotifyAll ChannelHost (omap snd rows) d.

(** [releasePlan.record]. *)
Definition record (rows : list (ContainerID * option uuid)) (s : db * releasePlan) : db * releasePlan :=
  (notifyHosts rows s.1, s.2 <| pn_drained := pn_drained s.2 ++ rows |>).

(** [drainLeaving]. *)
Definition drainLeaving (ids : list ContainerID) (now : Z) (s : db * releasePlan) : db * releasePlan :=
  match ids with
  | [] => s
  | _ => let '(d, rows) := drain_where (drains_now ids) now s.1 in record rows (d, s.2)
  end.

(** [Execution.leaving]. *)
Definition leave_row (l : leaving * list ContainerID) (r : LeavingRow) : leaving * list ContainerID :=
  let '(l, drain) := l in
  if lr_Ready r || (lr_Running r >? 0)
  then (mkLeaving (lv_drained l) (lv_running l + lr_Running r) (lv_replacing l) (lv_unpaired l), drain ++ [lr_ID r])
  else if lr_Replaced r then (mkLeaving (lv_drained l) (lv_running l) (lv_replacing l + 1) (lv_unpaired l), drain)
  else (mkLeaving (lv_drained l) (lv_running l) (lv_replacing l) (lv_unpaired l ++ [lr_ID r]), drain).
Definition leave (release : ReleaseID) (may : bool) (now : Z) (s : db * releasePlan) : leaving * (db * releasePlan) :=
  if negb may then (no_leaving, s)
  else
    let '(l, drain) := fold_left leave_row (LeavingContainers release s.1) (no_leaving, []) in
    (mkLeaving (Z.of_nat (length drain)) (lv_running l) (lv_replacing l) (lv_unpaired l), drainLeaving drain now s).

(** ** Starting containers *)

(** A row of [CreatePendingContainers]. *)
Definition pending_container (release : ReleaseID) (cfg : PlanConfig) (replaces : option ContainerID) (now : Z) : ContainerRow :=
  mkContainer (pc_Workspace cfg) (Some release) None ContainerPending None (pc_Slots cfg) PurposeServe now None None None None None None
    None replaces None None.

(** [CreatePendingContainers]: the first replace those named; [fresh] names
    the new rows. *)
Definition CreatePendingContainers (release : ReleaseID) (cfg : PlanConfig) (count : nat) (replaces : list ContainerID)
    (fresh : nat -> ContainerID) (now : Z) (d : db) : db :=
  d <| xd_containers := fold_left (fun m n => <[fresh n := pending_container release cfg (replaces !! n) now]> m) (seq 0 count)
         (xd_containers d) |>.

(** [start]: [grant] is what [billing.Admit] answers, [Ret None] for a refusal
    planning waits out. *)
Definition start (release : ReleaseID) (cfg : PlanConfig) (replaces : list ContainerID) (count : Z)
    (grant : Z -> go exec_error (option Z)) (fresh : nat -> ContainerID) (now : Z) (s : db * releasePlan) :
    go exec_error (db * releasePlan) :=
  g <-! grant count;
  match g with
  | None => Ret s
  | Some n =>
      let paired := Z.min n (Z.of_nat (length replaces)) in
      let s := if paired <? Z.of_nat (length replaces) then drainLeaving (drop (Z.to_nat paired) replaces) now s else s in
      let replaces := if paired <? Z.of_nat (length replaces) then take (Z.to_nat paired) replaces else replaces in
      if n =? 0 then Ret s
      else Ret (CreatePendingContainers release cfg (Z.to_nat n) replaces fresh now s.1,
                s.2 <| pn_created := map fresh (seq 0 (Z.to_nat n)) |>)
  end.

(** ** Stopping containers *)

Definition stopped_pending (message : string) (now : Z) (c : ContainerRow) : ContainerRow :=
  c <| ct_state := ContainerStopped |> <| ct_stop_reason := Some StopRequested |> <| ct_exit_message := Some message |>
    <| ct_stopped_at := Some now |>.

(** [StopPendingContainers]: the newest of those nobody holds. *)
Definition newest_order (a b : ContainerID * ContainerRow) : comparison :=
  Z.compare (ct_created_at b.2) (ct_created_at a.2) <+> Z.compare b.1 a.1.
Definition StopPendingContainers (release : ReleaseID) (count : nat) (now : Z) (d : db) : db * list ContainerID :=
  let ids := map fst (take count (sort_by newest_order (List.filter (fun c => serves release c.2 && (ct_state c.2 == ContainerPending) &&
    negb (locked c.1)) (map_to_list (xd_containers d))))) in
  (set_containers (fun id _ => bool_decide (id ∈ ids)) (stopped_pending "demand ended" now) d, ids).

(** Since when a container is idle: its last attempt's end, or when it was
    ready. *)
Definition idle_since (d : db) (id : ContainerID) (c : ContainerRow) : option Z :=
  match omap (fun r => if ap_container r =? id then ap_finished_at r else None) (map snd (map_to_list (xd_attempts d))) with
  | [] => ct_ready_at c
  | t :: ts => Some (fold_left Z.max ts t)
  end.
Definition idle (keepWarm now : Z) (d : db) (id : ContainerID) (c : ContainerRow) : bool :=
  (ct_state c == ContainerReady) && bool_decide (RunningAttemptsOnContainer id d = []) &&
  match idle_since d id c with Some t => t <? now - keepWarm * second | None => false end.

(** [LockIdleContainers] then [DrainIdleContainers]: the longest idle. *)
Definition idle_order (d : db) (a b : ContainerID * ContainerRow) : comparison :=
  Z.compare (default 0 (idle_since d a.1 a.2)) (default 0 (idle_since d b.1 b.2)) <+> Z.compare a.1 b.1.
Definition LockIdleContainers (release : ReleaseID) (keepWarm : Z) (count : nat) (now : Z) (d : db) : list ContainerID :=
  map fst (take count (sort_by (idle_order d) (List.filter (fun c => serves release c.2 && idle keepWarm now d c.1 c.2 && negb (locked c.1))
    (map_to_list (xd_containers d))))).

(** [drainIdle]. *)
Definition drainIdle (release : ReleaseID) (keepWarm : Z) (count : nat) (now : Z) (s : db * releasePlan) : db * releasePlan :=
  match LockIdleContainers release keepWarm count now s.1 with
  | [] => s
  | ids =>
      let '(d, rows) := drain_where (fun id c => bool_decide (id ∈ ids) && idle keepWarm now s.1 id c) now s.1 in
      record rows (d, s.2)
  end.

(** ** One release *)

(** The warm minimum, which a release that cannot start does not keep. *)
Definition warm_minimum (r : PlanningRow) : Z :=
  if pc_Active (pr_Config r) && negb (pr_LoadFailed r) && (pr_StartFailures r <? startFailureLimit)
  then pc_MinContainers (pr_Config r) else 0.

(** [planRelease]. *)
Definition planRelease (r : PlanningRow) (grant : Z -> go exec_error (option Z)) (fresh : nat -> ContainerID) (clock now : Z) (d : db) :
    go exec_error (db * releasePlan) :=
  let cfg := pr_Config r in
  if (pc_CpuMillis cfg <=? 0) || (pc_MemoryBytes cfg <=? 0) then Err ErrNoResources
  else
    let '(l, s) := leave (pr_Release r) (pr_Leaving r) now (d, no_plan) in
    let desired := desiredContainers (pr_QueuedAvailable r + pr_Running r - lv_running l) (pc_TasksPerContainer cfg) (warm_minimum r)
                     (pc_MaxContainers cfg) in
    let '(active, live) := counts l (pr_Pending r) (pr_Starting r) (pr_Ready r) (pr_Draining r) in
    let '(pairs, grow) := starts l active desired (pc_MaxContainers cfg - live) in
    if pairs + grow >? 0 then
      match holdStart (pr_StartFailures r) (pr_LastStoppedAt r) clock with
      | Some at_ => Ret (s.1, s.2 <| pn_retryAt := Some at_ |>)
      | None => start (pr_Release r) cfg (take (Z.to_nat pairs) (lv_unpaired l)) (pairs + grow) grant fresh now s
      end
    else if active >? desired then
      let excess := active - desired in
      let pending := Z.min excess (pr_Pending r) in
      let '(s, excess) :=
        if pending >? 0 then
          let '(d, stopped) := StopPendingContainers (pr_Release r) (Z.to_nat pending) now s.1 in
          ((d, s.2 <| pn_stopped := stopped |>), excess - Z.of_nat (length stopped))
        else (s, excess) in
      Ret (if (excess >? 0) && (pr_Ready r >? 0) then drainIdle (pr_Release r) (pc_KeepWarmSeconds cfg) (Z.to_nat excess) now s else s)
    else Ret s.

(** [StopAllPendingContainers]. *)
Definition StopAllPendingContainers (release : ReleaseID) (now : Z) (d : db) : db * list ContainerID :=
  let g := fun (_ : ContainerID) c => (ct_release c == Some release) && (ct_state c == ContainerPending) in
  (set_containers g (stopped_pending "workload stopped" now) d, containers_where g d).

(** [RunningTasksOfRelease]. *)
Definition RunningTasksOfRelease (release : ReleaseID) (limit : nat) (d : db) : list TaskID :=
  take limit (sort_by Z.compare (map fst (List.filter (fun r => (tk_release r.2 =? release) && (tk_status r.2 == TaskRunning))
    (map_to_list (xd_tasks d))))).
End Plan.

Section Wind.
Context (big : float64 -> Z) (hooked : uuid -> bool) (uuid_text : uuid -> string).

(** [stopRelease]; [arrange] is the order an unordered [limit] takes queued
    tasks in. *)
Definition stopRelease (r : PlanningRow) (arrange : list TaskID -> list TaskID) (now : Z) (d : db) : go exec_error (db * releasePlan) :=
  let release := pr_Release r in
  let '(d, stopped) := StopAllPendingContainers release now d in
  let '(d, rows) := drain_where (fun _ c => (ct_release c == Some release) && drains c) now d in
  let d := notifyHosts rows d in
  let '(d, cancelled) := CancelQueuedTasks (LockQueuedWithDependents arrange release cancelBatch d) now d in
  let d := notifyFinished cancelled (NotifyAll ChannelTask cancelled (recordCallbacks hooked CallbackCancelled (plain cancelled) d)) in
  let d := fail_dependents hooked uuid_text cancelled now d in
  let plan := mkPlan [] stopped rows (Z.of_nat (length cancelled)) None in
  if negb (pc_Retiring (pr_Config r)) then Ret (d, plan)
  else
    let running := RunningTasksOfRelease release (Z.to_nat cancelBatch) d in
    d <-! go_fold (fun d id => x <-! cancelTask big hooked uuid_text None id now d; Ret x.1) running d;
    Ret (d, plan <| pn_cancelled := pn_cancelled plan + Z.of_nat (length running) |>).

(** ** The pass *)

Context (leaves : ContainerID -> bool) (locked : ContainerID -> bool).

(** What [PlanningReleases] counts of a release. *)
Definition is_due (now : Z) (t : TaskRow) : bool := (tk_status t == TaskQueued) && (tk_available_at t <=? now) && (tk_unmet t =? 0).
Definition leaves_with (d : db) (t : TaskRow) : bool :=
  match tk_current t ≫= (fun a => xd_attempts d !! a) with
  | Some a => match xd_containers d !! ap_container a with
              | Some c => (ct_state c == ContainerDraining) && leaves (ap_container a)
              | None => false
              end
  | None => false
  end.
Definition in_state (release : ReleaseID) (s : ContainerState) (d : db) : Z :=
  Z.of_nat (length (List.filter (fun c => serves release c.2 && (ct_state c.2 == s)) (map_to_list (xd_containers d)))).
Definition planning_row (cfg : PlanConfig) (release : ReleaseID) (now : Z) (d : db) : PlanningRow :=
  let tasks := List.filter (fun r => tk_release r.2 =? release) (map_to_list (xd_tasks d)) in
  let rel := xd_releases d !! release in
  let failures := match rel with Some r => rl_start_failures r | None => 0 end in
  mkPlanning release cfg
    (Z.min (Z.of_nat (length (List.filter (fun r => is_due now r.2) tasks)))
       (Z.max (pc_MaxContainers cfg) 1 * Z.max (pc_TasksPerContainer cfg) 1))
    (Z.of_nat (length (List.filter (fun r => (tk_status r.2 == TaskRunning) && negb (leaves_with d r.2)) tasks)))
    (in_state release ContainerPending d) (in_state release ContainerStarting d) (in_state release ContainerReady d)
    (in_state release ContainerDraining d)
    (existsb (fun c => serves release c.2 && drains c.2 && leaves c.1) (map_to_list (xd_containers d)))
    (match rel with Some r => bool_decide (is_Some (rl_load_error r)) | None => false end)
    failures (if failures >? 0 then last_container release d ≫= ct_stopped_at else None).

(** [planReleaseIsolated]: a release that fails changes nothing. *)
Definition plan_one (grant : ReleaseID -> Z -> go exec_error (option Z)) (fresh : ReleaseID -> nat -> ContainerID)
    (arrange : list TaskID -> list TaskID) (clock now : Z) (s : db * list releasePlan) (r : PlanningRow) : db * list releasePlan :=
  let out := if pc_Stopping (pr_Config r) then stopRelease r arrange now s.1
             else planRelease leaves locked r (grant (pr_Release r)) (fresh (pr_Release r)) clock now s.1 in
  match out with Ret (d, plan) => (d, s.2 ++ [plan]) | _ => s end.

(** [planBatch], for the rows its query reads first. *)
Definition planBatch (grant : ReleaseID -> Z -> go exec_error (option Z)) (fresh : ReleaseID -> nat -> ContainerID)
    (arrange : list TaskID -> list TaskID) (clock now : Z) (rows : list PlanningRow) (d : db) : db * list releasePlan :=
  fold_left (plan_one grant fresh arrange clock now) rows (d, []).
End Wind.
