(* ===== verification/ExecInv.v ===== *)
(** The invariant of execution's tables: what every task, attempt and
    dependency satisfies between transactions, and how the changes a
    transaction makes keep it.

    Inside a transaction three things may be pending: [L] are attempts that
    ended while their tasks still run, [S] tasks that succeeded while their
    dependents still count them as unmet, and [F] tasks that ended without
    success while tasks that wait on them are still queued. *)

From S2P Require Import Prelude Float64 Capacity Catalog GoLib Billing Policy Placement Exec Attempts Claims Submit.

(** ** Lists of ids *)

Lemma elem_of_distinct x l seen : x ∈ distinct l seen <-> x ∈ l /\ x ∉ seen.
Proof.
  revert seen. induction l as [|y l IH]; intros seen; simpl; [set_solver|].
  case_bool_decide; [rewrite IH; set_solver|].
  rewrite elem_of_cons, IH, elem_of_cons. destruct (decide (x = y)) as [->|]; set_solver.
Qed.

Lemma NoDup_distinct l seen : NoDup (distinct l seen).
Proof.
  revert seen. induction l as [|y l IH]; intros seen; simpl; [constructor|].
  case_bool_decide; [apply IH|]. constructor; [|apply IH]. rewrite elem_of_distinct. set_solver.
Qed.

Lemma elem_of_dependents deps ids t : t ∈ dependents deps ids <-> exists u, u ∈ ids /\ (t, u) ∈ deps.
Proof.
  unfold dependents. rewrite list_elem_of_In, in_map_iff. split.
  - intros ([t' u] & <- & H). apply filter_In in H as [H Hu]. exists u. apply bool_decide_eq_true in Hu. split; [done|by apply list_elem_of_In].
  - intros (u & Hu & H). exists (t, u). split; [done|]. apply filter_In. split; [by rewrite <- list_elem_of_In|]. simpl. by apply bool_decide_eq_true.
Qed.

Lemma dependents_mono deps ids ids' : ids ⊆ ids' -> dependents deps ids ⊆ dependents deps ids'.
Proof. intros H t. rewrite !elem_of_dependents. intros (u & Hu & Ht). eauto. Qed.

Lemma dependents_length deps ids : (length (dependents deps ids) <= length deps)%nat.
Proof. unfold dependents. rewrite length_map. apply List.filter_length_le. Qed.

Lemma dependents_edges deps ids : dependents deps ids ⊆ map fst deps.
Proof. intros t. rewrite elem_of_dependents. intros (u & _ & H). apply list_elem_of_In. apply list_elem_of_In in H. by apply (in_map fst) in H. Qed.

Lemma dependents_nil deps : dependents deps [] = [].
Proof.
  destruct (dependents deps []) as [|t l] eqn:E; [done|].
  assert (t ∈ dependents deps []) as H by (rewrite E; set_solver). rewrite elem_of_dependents in H. set_solver.
Qed.

Lemma closure_from_grows rounds deps ids : ids ⊆ closure_from rounds deps ids.
Proof.
  revert ids. induction rounds as [|n IH]; intros ids; simpl; [done|].
  etrans; [|apply IH]. set_solver.
Qed.

(** A round that changes nothing is the last; others add a task each. *)
Lemma closure_from_closed rounds deps ids :
  dependents deps (closure_from rounds deps ids) ⊆ closure_from rounds deps ids \/
  (length ids + rounds <= length (closure_from rounds deps ids))%nat.
Proof.
  revert ids. induction rounds as [|n IH]; intros ids; simpl; [right; lia|].
  destruct (distinct (dependents deps ids) ids) as [|x new] eqn:E.
  - left. rewrite app_nil_r.
    assert (Hc : dependents deps ids ⊆ ids).
    { intros t Ht. destruct (decide (t ∈ ids)) as [|Hn]; [done|].
      assert (t ∈ distinct (dependents deps ids) ids) as Hd by by apply elem_of_distinct. rewrite E in Hd. set_solver. }
    clear IH. induction n as [|n IHn]; simpl; [done|].
    replace (distinct (dependents deps ids) ids) with (@nil Z); by rewrite ?app_nil_r.
  - destruct (IH (ids ++ x :: new)) as [H|H]; [by left|]. right. rewrite length_app in H. simpl in H. lia.
Qed.

Lemma closure_from_bounds rounds deps ids :
  NoDup ids -> ids ⊆ map fst deps -> NoDup (closure_from rounds deps ids) /\ closure_from rounds deps ids ⊆ map fst deps.
Proof.
  revert ids. induction rounds as [|n IH]; intros ids Hn Hs; simpl; [done|]. apply IH.
  - apply NoDup_app. split_and!; [done| |apply NoDup_distinct]. intros x Hx. rewrite elem_of_distinct. tauto.
  - intros x. rewrite elem_of_app, elem_of_distinct. intros [|[H _]]; [by apply Hs|]. by apply dependents_edges in H.
Qed.

(** The closure names the dependents of [ids] and its own. *)
Lemma closure_closed deps ids : dependents deps ids ⊆ closure deps ids /\ dependents deps (closure deps ids) ⊆ closure deps ids.
Proof.
  unfold closure. set (start := distinct (dependents deps ids) []). split.
  - etrans; [|apply closure_from_grows]. intros t Ht. apply elem_of_distinct. set_solver.
  - destruct (closure_from_closed (length deps) deps start) as [|H]; [done|].
    destruct (closure_from_bounds (length deps) deps start) as [Hn Hs];
      [apply NoDup_distinct | intros t Ht; apply elem_of_distinct in Ht as [Ht _]; by apply dependents_edges in Ht|].
    assert (Hlen : (length (closure_from (length deps) deps start) <= length deps)%nat).
    { transitivity (length (map fst deps)); [by apply submseteq_length, NoDup_submseteq | by rewrite length_map]. }
    destruct start as [|x start']; simpl in *; [|lia].
    assert (Hnil : closure_from (length deps) deps [] = []).
    { clear. induction (length deps) as [|n IH]; simpl; [done|]. rewrite dependents_nil. exact IH. }
    by rewrite Hnil, dependents_nil.
Qed.

Lemma filter_none {A} (f : A -> bool) l : (forall x, In x l -> f x = false) -> List.filter f l = [].
Proof. intros H. induction l as [|x l IH]; simpl; [done|]. rewrite (H x) by (by left). apply IH. intros y Hy. apply H. by right. Qed.

(** ** The invariant *)

(** What the code reads of [d] outside its messages. *)
Definition core (d : db) := (xd_tasks d, xd_attempts d, xd_results d, xd_deps d, xd_containers d, xd_releases d).

Section Inv.
Context (big : float64 -> Z).

(** The attempts a task's policy allows. *)
Definition limit_of (d : db) (t : TaskRow) : Z := rp_MaxAttempts (policy_of big d (tk_release t)).

Record row_ok (m : Z) (t : TaskRow) : Prop := {
  ro_count : 0 <= tk_attempt_count t <= tk_max_attempts t;
  ro_preempted : 0 <= tk_preemptions t <= MaxPreemptions;
  ro_max : tk_max_attempts t <= m + MaxPreemptions - 1;
  ro_live : Terminal (tk_status t) = false -> tk_max_attempts t = m + tk_preemptions t /\ tk_preemptions t < MaxPreemptions;
  ro_queued : tk_status t = TaskQueued -> tk_current t = None /\ tk_attempt_count t < tk_max_attempts t;
  ro_running : tk_status t = TaskRunning -> is_Some (tk_current t);
  ro_finished : is_Some (tk_finished_at t) <-> Terminal (tk_status t) = true;
  ro_failure : is_Some (tk_failure t) <-> tk_status t = TaskFailed }.

(** An upstream a queued task still waits on. *)
Definition unsatisfied (S : list TaskID) (d : db) (u : TaskID) : bool :=
  bool_decide (status_of d u <> Some TaskSucceeded) || bool_decide (u ∈ S).
Definition waiting (S : list TaskID) (d : db) (id : TaskID) : Z :=
  Z.of_nat (length (List.filter (unsatisfied S d) (upstreams d id))).

(** An upstream that ended without success. *)
Definition dead (d : db) (u : TaskID) : Prop := status_of d u = Some TaskFailed \/ status_of d u = Some TaskCancelled.

Record dep_ok (S F : list TaskID) (d : db) (id : TaskID) (t : TaskRow) : Prop := {
  do_queued : tk_status t = TaskQueued -> tk_unmet t = waiting S d id /\ forall u, u ∈ upstreams d id -> dead d u -> u ∈ F;
  do_ran : tk_status t = TaskRunning \/ tk_status t = TaskSucceeded ->
    tk_unmet t = 0 /\ forall u, u ∈ upstreams d id -> status_of d u = Some TaskSucceeded /\ u ∉ S }.

(** An attempt and its task. *)
Record attempt_ok (L : list AttemptID) (d : db) (a : AttemptID) (r : AttemptRow) : Prop := {
  ao_task : exists t, xd_tasks d !! ap_task r = Some t /\ 1 <= ap_number r <= tk_attempt_count t /\
    (ap_state r = AttemptRunning -> tk_status t = TaskRunning /\ tk_current t = Some a);
  ao_container : is_Some (xd_containers d !! ap_container r);
  ao_ended : ap_state r = AttemptRunning <-> ap_finished_at r = None;
  ao_pending : a ∈ L -> ap_state r <> AttemptRunning }.

Record inv (L : list AttemptID) (S F : list TaskID) (d : db) : Prop := {
  i_rows : forall id t, xd_tasks d !! id = Some t -> row_ok (limit_of d t) t;
  i_cur : forall id t a, xd_tasks d !! id = Some t -> tk_status t = TaskRunning -> tk_current t = Some a ->
    exists r, xd_attempts d !! a = Some r /\ ap_task r = id /\ (ap_state r = AttemptRunning \/ a ∈ L);
  i_att : forall a r, xd_attempts d !! a = Some r -> attempt_ok L d a r;
  i_uniq : forall a a' r r', xd_attempts d !! a = Some r -> xd_attempts d !! a' = Some r' -> ap_task r = ap_task r' ->
    ap_number r = ap_number r' -> a = a';
  i_dep : forall id t, xd_tasks d !! id = Some t -> dep_ok S F d id t;
  i_won : forall u, u ∈ S -> status_of d u = Some TaskSucceeded;
  i_res : forall id, is_Some (xd_results d !! id) <-> status_of d id = Some TaskSucceeded;
  i_edges : NoDup (xd_deps d) /\ forall e, e ∈ xd_deps d -> is_Some (xd_tasks d !! e.1) /\ is_Some (xd_tasks d !! e.2);
  i_rank : exists rank : TaskID -> nat, forall e, e ∈ xd_deps d -> (rank e.2 < rank e.1)%nat }.

Lemma inv_core L S F d d' : core d = core d' -> inv L S F d -> inv L S F d'.
Proof.
  destruct d, d'. unfold core. simpl. intros [= -> -> -> -> -> ->] [R C A U D W P E K]. constructor; try assumption.
  - intros a r H. by destruct (A a r H).
  - intros id t H. by destruct (D id t H).
Qed.

(** ** One task moves *)

Definition keeps_row (t t' : TaskRow) : Prop :=
  tk_release t' = tk_release t /\ tk_attempt_count t' = tk_attempt_count t /\ tk_unmet t' = tk_unmet t.

(** The ways a transaction moves a task: a queued one ends, or a running one
    whose attempt ended succeeds, is queued again or ends. *)
Inductive moved (L L' : list AttemptID) (S' F' : list TaskID) (id : TaskID) (t t' : TaskRow) : Prop :=
  | moved_end : tk_status t = TaskQueued -> tk_status t' = TaskFailed \/ tk_status t' = TaskCancelled -> id ∈ F' -> L' = L ->
      moved L L' S' F' id t t'
  | moved_win a : tk_status t = TaskRunning -> tk_current t = Some a -> L = a :: L' -> tk_status t' = TaskSucceeded -> id ∈ S' ->
      moved L L' S' F' id t t'
  | moved_back a : tk_status t = TaskRunning -> tk_current t = Some a -> L = a :: L' -> tk_status t' = TaskQueued ->
      moved L L' S' F' id t t'
  | moved_lose a : tk_status t = TaskRunning -> tk_current t = Some a -> L = a :: L' ->
      tk_status t' = TaskFailed \/ tk_status t' = TaskCancelled -> id ∈ F' -> moved L L' S' F' id t t'.

Definition put (id : TaskID) (t : TaskRow) (d : db) : db := d <| xd_tasks := <[id := t]> (xd_tasks d) |>.

Lemma status_put d id t u : status_of (put id t d) u = if decide (u = id) then Some (tk_status t) else status_of d u.
Proof. unfold status_of, put. simpl. case_decide as H; [subst; by rewrite lookup_insert_eq | by rewrite lookup_insert_ne]. Qed.

Lemma upstreams_put d id t u : upstreams (put id t d) u = upstreams d u.
Proof. done. Qed.

Lemma moved_before L L' S' F' id t t' : moved L L' S' F' id t t' ->
  (tk_status t = TaskQueued /\ L' = L \/ tk_status t = TaskRunning) /\ L' ⊆ L /\
  (tk_status t = TaskRunning -> exists a, tk_current t = Some a /\ L = a :: L') /\
  (tk_status t' = TaskFailed \/ tk_status t' = TaskCancelled -> id ∈ F') /\
  (tk_status t' = TaskSucceeded -> id ∈ S') /\
  tk_status t' <> TaskRunning /\ (tk_status t' = TaskQueued \/ tk_status t' = TaskSucceeded -> tk_status t = TaskRunning).
Proof. intros []; subst; split_and!; try intros; destruct_or?; try congruence; eauto; set_solver. Qed.

(** What another task waits on stays as it was. *)
Lemma unsatisfied_put S S' d id t t' u :
  xd_tasks d !! id = Some t -> tk_status t <> TaskSucceeded -> (tk_status t' = TaskSucceeded -> id ∈ S') ->
  (forall u, u ∈ S' <-> u ∈ S \/ u = id /\ tk_status t' = TaskSucceeded) ->
  unsatisfied S' (put id t' d) u = unsatisfied S d u.
Proof.
  intros Ht Hn Hw HS. unfold unsatisfied. rewrite status_put. case_decide as E.
  - subst. assert (status_of d id <> Some TaskSucceeded) by (unfold status_of; rewrite Ht; simpl; congruence).
    rewrite (bool_decide_true (status_of d id <> _)) by done. simpl.
    destruct (decide (tk_status t' = TaskSucceeded)) as [W|W].
    + rewrite (bool_decide_true (id ∈ S')) by auto. apply orb_true_r.
    + by rewrite bool_decide_true by congruence.
  - f_equal. apply bool_decide_ext. rewrite HS. naive_solver.
Qed.

Lemma status_results d Q id t u :
  status_of (put id t (d <| xd_results := Q |>)) u = if decide (u = id) then Some (tk_status t) else status_of d u.
Proof. rewrite status_put. by case_decide. Qed.

Lemma move_results L L' S S' F F' d id t t' Q :
  inv L S F d -> xd_tasks d !! id = Some t -> moved L L' S' F' id t t' -> keeps_row t t' -> row_ok (limit_of d t) t' ->
  (forall u, u ∈ S' <-> u ∈ S \/ u = id /\ tk_status t' = TaskSucceeded) -> F ⊆ F' ->
  (forall i, is_Some (Q !! i) <-> is_Some (xd_results d !! i) \/ i = id /\ tk_status t' = TaskSucceeded) ->
  inv L' S' F' (put id t' (d <| xd_results := Q |>)).
Proof.
  intros [R C A U D W P E K] Ht Hm (Kr & Kc & Ku) HR HS HF HQ.
  apply moved_before in Hm as (Hst & HL & Hrun & Hdead & Hwin & Hnr & Hback).
  assert (Hns : tk_status t <> TaskSucceeded) by (destruct Hst as [[]|]; congruence).
  assert (Hsu : forall u, unsatisfied S' (put id t' (d <| xd_results := Q |>)) u = unsatisfied S d u) by (intros u; by rewrite <- (unsatisfied_put S S' d id t t' u)).
  assert (Hwait : forall i, waiting S' (put id t' (d <| xd_results := Q |>)) i = waiting S d i).
  { intros i. unfold waiting. rewrite upstreams_put. by rewrite (List.filter_ext _ (unsatisfied S d)). }
  assert (Hstay : forall i, (forall u, u ∈ upstreams d i -> status_of d u = Some TaskSucceeded /\ u ∉ S) ->
    forall u, u ∈ upstreams d i -> status_of (put id t' (d <| xd_results := Q |>)) u = Some TaskSucceeded /\ u ∉ S').
  { intros i Hups u Hin. destruct (Hups u Hin) as [Hs HnS]. rewrite status_results, HS.
    assert (u <> id) by (intros ->; unfold status_of in Hs; rewrite Ht in Hs; simpl in Hs; congruence).
    rewrite decide_False by done. naive_solver. }
  constructor.
  - intros i x. unfold put. simpl. intros [[<- <-]|[Hi Hx]]%lookup_insert_Some; [|by apply R in Hx].
    unfold limit_of. simpl. by rewrite Kr.
  - intros i x a. unfold put. simpl. intros [[<- <-]|[Hi Hx]]%lookup_insert_Some Hs Ha; [congruence|].
    destruct (C i x a Hx Hs Ha) as (r & Hr & Hri & Hor). exists r. split_and!; [done..|]. destruct Hor as [|Hin]; [by left|].
    right. destruct Hst as [[Hq ->]|Hq]; [done|]. destruct (Hrun Hq) as (b & Hb & ->).
    apply elem_of_cons in Hin as [->|]; [|done]. destruct (C id t b Ht Hq Hb) as (r' & Hr' & Hid & _). congruence.
  - intros a r Hr. destruct (A a r Hr) as [(x & Hx & Hn & Hrn) Hc He Hp]. constructor; [|done..|by intros Hin; apply Hp, HL].
    unfold put. simpl. destruct (decide (ap_task r = id)) as [Eq|Hne].
    + exists t'. rewrite Eq, lookup_insert_eq. rewrite Eq, Ht in Hx. injection Hx as <-. split_and!; [done|lia|lia|].
      intros Hs. destruct (Hrn Hs) as [Ht1 Ht2]. destruct (Hrun Ht1) as (b & Hb & ->). exfalso. apply Hp; [set_solver|done].
    + exists x. rewrite lookup_insert_ne by done. split_and!; try done; lia.
  - exact U.
  - intros i x Hx. change (<[id := t']> (xd_tasks d) !! i = Some x) in Hx. apply lookup_insert_Some in Hx as [[<- <-]|[Hi Hx]].
    + constructor.
      * intros Hq. assert (Hr : tk_status t = TaskRunning) by auto. destruct (D id t Ht) as [_ Dr].
        destruct (Dr (or_introl Hr)) as [Hu Hups]. rewrite Hwait, Ku, Hu. split.
        -- unfold waiting. rewrite filter_none; [done|]. intros u Hin. apply list_elem_of_In, Hups in Hin as [Hs HnS].
           unfold unsatisfied. rewrite bool_decide_false by tauto. by rewrite bool_decide_false.
        -- intros u Hin Hd. destruct (Hups u Hin) as [Hs _]. unfold dead in Hd. rewrite !status_results in Hd.
           case_decide; [subst|]; destruct Hd; congruence.
      * intros Hor. assert (Hr : tk_status t = TaskRunning) by (destruct Hor; [congruence|auto]).
        destruct (D id t Ht) as [_ Dr]. destruct (Dr (or_introl Hr)) as [Hu Hups]. rewrite Ku. split; [done|]. by apply Hstay.
    + destruct (D i x Hx) as [Dq Dr]. constructor.
      * intros Hq. destruct (Dq Hq) as [Hu Hd]. rewrite Hwait. split; [done|]. intros u Hin Hdead'. unfold dead in Hdead'.
        rewrite !status_results in Hdead'. case_decide as Eu; [subst; apply Hdead; destruct Hdead'; [left|right]; congruence|].
        by apply HF, Hd.
      * intros Hor. destruct (Dr Hor) as [Hu Hups]. split; [done|]. by apply Hstay.
  - intros u Hu. rewrite status_results. apply HS in Hu as [Hu|[-> Hu]]; [|by rewrite decide_True, Hu by done].
    apply W in Hu as Hs. case_decide; [subst|done]. unfold status_of in Hs. rewrite Ht in Hs. simpl in Hs. congruence.
  - intros i. rewrite status_results. unfold put. simpl. rewrite HQ, P. case_decide as Ei; [|naive_solver].
    subst i. unfold status_of. rewrite Ht. simpl. split; [intros [[=]|[_ ->]]; done|intros [= ->]; by right].
  - destruct E as [En Ee]. split; [done|]. intros e He. destruct (Ee e He) as [H1 H2]. unfold put. simpl.
    by rewrite !lookup_insert_is_Some'; auto.
  - exact K.
Qed.

Lemma move_inv L L' S S' F F' d id t t' :
  inv L S F d -> xd_tasks d !! id = Some t -> moved L L' S' F' id t t' -> keeps_row t t' -> row_ok (limit_of d t) t' ->
  (forall u, u ∈ S' <-> u ∈ S \/ u = id /\ tk_status t' = TaskSucceeded) -> F ⊆ F' -> tk_status t' <> TaskSucceeded ->
  inv L' S' F' (put id t' d).
Proof.
  intros Hi Ht Hm Hk Hr HS HF Hn. replace (put id t' d) with (put id t' (d <| xd_results := xd_results d |>)) by (by destruct d).
  apply move_results with L S F t; try done. naive_solver.
Qed.

Lemma inv_weaken L S F F' d : inv L S F d -> (forall id t, xd_tasks d !! id = Some t -> tk_status t = TaskQueued ->
  forall u, u ∈ upstreams d id -> dead d u -> u ∈ F') -> inv L S F' d.
Proof.
  intros [R C A U D W P E K] H. constructor; try assumption. intros id t Ht. destruct (D id t Ht) as [Dq Dr].
  constructor; [|exact Dr]. intros Hq. split; [by apply Dq|]. eauto.
Qed.

(** ** An attempt ends *)

Lemma set_attempt_inv L S F d a r st p now : inv L S F d -> xd_attempts d !! a = Some r -> ap_state r = AttemptRunning ->
  st <> AttemptRunning -> inv (a :: L) S F (set_attempt now (a, st, p) d).
Proof.
  intros [R C A U D W P E K] Hr Hrun Hst. unfold set_attempt. constructor; try assumption; simpl.
  - intros id t b Ht Hs Hb. destruct (C id t b Ht Hs Hb) as (x & Hx & Hid & Hor).
    destruct (decide (b = a)) as [->|Hne].
    + rewrite lookup_alter_eq, Hx. eexists. split_and!; [done|done|]. right. set_solver.
    + rewrite lookup_alter_ne by done. exists x. split_and!; [done..|]. destruct Hor; [by left|right; set_solver].
  - intros b x Hx. destruct (decide (b = a)) as [->|Hne].
    + rewrite lookup_alter_eq, Hr in Hx. injection Hx as <-. destruct (A a r Hr) as [(t & Ht & Hn & _) Hc _ _].
      constructor; simpl; [|done|by split|done]. exists t. split; [done|]. split; [exact Hn|]. done.
    + rewrite lookup_alter_ne in Hx by done. destruct (A b x Hx) as [Ht Hc He Hp]. constructor; [exact Ht|exact Hc|exact He|].
      intros [->|Hin]%elem_of_cons; auto.
  - intros b b' x x' Hx Hx' Ht Hn.
    assert (Hk : forall c y, alter (fun r : AttemptRow => r <| ap_state := st |> <| ap_preempted := p |> <| ap_finished_at := Some now |>) a
      (xd_attempts d) !! c = Some y -> exists y0, xd_attempts d !! c = Some y0 /\ ap_task y0 = ap_task y /\ ap_number y0 = ap_number y).
    { intros c y Hy. destruct (decide (c = a)) as [->|Hne].
      - rewrite lookup_alter_eq, Hr in Hy. injection Hy as <-. eauto.
      - rewrite lookup_alter_ne in Hy by done. eauto. }
    destruct (Hk _ _ Hx) as (y & Hy & T1 & N1), (Hk _ _ Hx') as (y' & Hy' & T2 & N2). apply (U b b' y y'); congruence.
  - intros id t Ht. by destruct (D id t Ht).
Qed.

(** ** Queued tasks end *)

Lemma tasks_over d m : m = xd_tasks d -> d <| xd_tasks := m |> = d.
Proof. intros ->. by destruct d. Qed.

Lemma set_tasks_nil f d : set_tasks f [] d = d.
Proof. apply tasks_over, map_eq. intros i. rewrite map_lookup_imap. by destruct (_ !! i). Qed.

Lemma set_tasks_cons f id ids d t : id ∉ ids -> xd_tasks d !! id = Some t ->
  set_tasks f (id :: ids) d = set_tasks f ids (put id (f t) d).
Proof.
  intros Hn Ht.
  assert (E : map_imap (fun i x => Some (if bool_decide (i ∈ id :: ids) then f x else x)) (xd_tasks d) =
    map_imap (fun i x => Some (if bool_decide (i ∈ ids) then f x else x)) (<[id := f t]> (xd_tasks d))).
  { apply map_eq. intros i. rewrite !map_lookup_imap. destruct (decide (i = id)) as [->|Hne].
    - rewrite lookup_insert_eq, Ht. simpl. rewrite bool_decide_true by set_solver. by rewrite bool_decide_false.
    - rewrite lookup_insert_ne by done. destruct (_ !! i); simpl; [|done]. f_equal.
      by rewrite (bool_decide_ext (i ∈ id :: ids) (i ∈ ids)) by set_solver. }
  unfold set_tasks. rewrite E. by destruct d.
Qed.

(** The rows a list of queued tasks may become. *)
Definition ends (f : TaskRow -> TaskRow) : Prop := forall m t, row_ok m t -> tk_status t = TaskQueued ->
  (tk_status (f t) = TaskFailed \/ tk_status (f t) = TaskCancelled) /\ keeps_row t (f t) /\ row_ok m (f t).

Definition all_queued (d : db) (ids : list TaskID) : Prop := NoDup ids /\ forall id, id ∈ ids -> status_of d id = Some TaskQueued.

Lemma end_queued_inv f L S F d ids : ends f -> inv L S F d -> all_queued d ids -> inv L S (ids ++ F) (set_tasks f ids d).
Proof.
  intros Hf. revert d F. induction ids as [|id ids IH]; intros d F Hi [Hn Hq]; [by rewrite set_tasks_nil|].
  inversion Hn as [|? ? Hni Hn']; subst.
  assert (exists t, xd_tasks d !! id = Some t /\ tk_status t = TaskQueued) as (t & Ht & Hs).
  { specialize (Hq id). unfold status_of in Hq. destruct (xd_tasks d !! id) as [t|]; [|by ospecialize (Hq _); [set_solver|]].
    exists t. ospecialize (Hq _); [set_solver|]. simpl in Hq. split; [done|congruence]. }
  rewrite (set_tasks_cons f id ids d t) by done.
  destruct (Hf (limit_of d t) t) as (Hst & Hk & Hr); [by apply (i_rows _ _ _ _ Hi id)|done|].
  assert (Hi' : inv L S (id :: F) (put id (f t) d)).
  { apply (move_inv L L S S F (id :: F) d id t); try done; [apply moved_end; [done|done|set_solver|done]| |set_solver|destruct Hst; congruence].
    intros u. destruct Hst; naive_solver congruence. }
  apply (IH _ (id :: F)) in Hi'.
  - eapply inv_weaken; [exact Hi'|]. intros i x Hx Hxs u Hu Hd. destruct (i_dep _ _ _ _ Hi' i x Hx) as [Dq _].
    apply Dq in Hxs as [_ Hd']. specialize (Hd' u Hu Hd). set_solver.
  - split; [done|]. intros i Hin. rewrite status_put, decide_False by (intros ->; done). apply Hq. set_solver.
Qed.
End Inv.
