(* ===== verification/ExecSteps.v ===== *)
(** The transactions of execution keep the invariant of [ExecInv]: how the end
    of a task reaches its dependents, how outcomes advance tasks, and how
    attempts and containers end. *)

From S2P Require Import Prelude Float64 Capacity Catalog GoLib Billing Policy Placement Exec Attempts Claims Submit ExecInv.

(** ** Messages leave the tables alone *)

Create Rewrite HintDb exec_core.

Lemma core_NotifyAll c ids d : core (NotifyAll c ids d) = core d.
Proof. done. Qed.
Lemma core_Notify c id d : core (Notify c id d) = core d.
Proof. done. Qed.
Lemma core_finished ids d : core (notifyFinished ids d) = core d.
Proof. done. Qed.
Lemma core_host h d : core (notify_host h d) = core d.
Proof. by destruct h. Qed.
Lemma core_callbacks hooked e ts d : core (recordCallbacks hooked e ts d) = core d.
Proof. unfold recordCallbacks, wake_delivery. case_bool_decide; by destruct (_ - _)%nat. Qed.
Lemma core_stopped h c id d : core (notifyStopped h c id d) = core d.
Proof. unfold notifyStopped. by rewrite core_Notify, core_host. Qed.
Hint Rewrite core_NotifyAll core_Notify core_finished core_host core_callbacks core_stopped : exec_core.

Lemma core_tasks d d' : core d = core d' -> xd_tasks d = xd_tasks d'.
Proof. by intros [=]. Qed.
Lemma core_attempts d d' : core d = core d' -> xd_attempts d = xd_attempts d'.
Proof. by intros [=]. Qed.
Lemma core_containers d d' : core d = core d' -> xd_containers d = xd_containers d'.
Proof. by intros [=]. Qed.
Lemma core_deps d d' : core d = core d' -> xd_deps d = xd_deps d'.
Proof. by intros [=]. Qed.
Lemma core_releases d d' : core d = core d' -> xd_releases d = xd_releases d'.
Proof. by intros [=]. Qed.

(** ** Dependencies *)

Lemma elem_of_upstreams d id u : u ∈ upstreams d id <-> (id, u) ∈ xd_deps d.
Proof.
  unfold upstreams. rewrite !list_elem_of_In, in_map_iff. split.
  - intros ([t v] & <- & H). apply filter_In in H as [H E]. simpl in *. apply Z.eqb_eq in E. by subst.
  - intros H. exists (id, u). split; [done|]. apply filter_In. split; [done|]. apply Z.eqb_refl.
Qed.

Lemma queued_of_spec d ids id : id ∈ map fst (queued_of d ids) <-> id ∈ ids /\ status_of d id = Some TaskQueued.
Proof.
  unfold queued_of, status_of. rewrite list_elem_of_In, in_map_iff. split.
  - intros ([i rel] & <- & H). apply list_elem_of_In in H. apply list_elem_of_omap in H as (x & Hx & E).
    destruct (xd_tasks d !! x) as [t|] eqn:Ht; simpl in E; [|done]. case_bool_decide; [|done]. injection E as <- <-.
    simpl. rewrite Ht. simpl. split; [|by f_equal]. apply list_elem_of_In, sort_by_In, list_elem_of_In, elem_of_distinct in Hx. tauto.
  - intros [Hin Hs]. destruct (xd_tasks d !! id) as [t|] eqn:Ht; [|done]. simpl in Hs. injection Hs as Hs.
    exists (id, tk_release t). split; [done|]. apply list_elem_of_In, list_elem_of_omap. exists id.
    split; [apply list_elem_of_In, sort_by_In, list_elem_of_In, elem_of_distinct; set_solver|].
    rewrite Ht. simpl. by rewrite bool_decide_true.
Qed.

Lemma queued_of_NoDup d ids : NoDup (map fst (queued_of d ids)).
Proof.
  unfold queued_of. assert (H : NoDup (sort_by Z.compare (distinct ids []))) by (rewrite sort_by_perm; apply NoDup_distinct).
  revert H. generalize (sort_by Z.compare (distinct ids [])) as l. induction l as [|x l IH]; intros Hn; simpl; [constructor|].
  inversion Hn as [|? ? Hx Hl]; subst. destruct (xd_tasks d !! x) as [t|] eqn:Ht; simpl; [|by apply IH].
  case_bool_decide; simpl; [|by apply IH]. constructor; [|by apply IH].
  rewrite list_elem_of_In, in_map_iff. intros ([i rel] & E & Hin). apply list_elem_of_In, list_elem_of_omap in Hin as (y & Hy & Hey).
  destruct (xd_tasks d !! y); simpl in Hey; [|done]. case_bool_decide; simpl in E; congruence.
Qed.

Lemma queued_of_all d ids : all_queued d (map fst (queued_of d ids)).
Proof. split; [apply queued_of_NoDup|]. intros id H. apply queued_of_spec in H. tauto. Qed.

Lemma status_set_tasks f ids d u :
  status_of (set_tasks f ids d) u = if decide (u ∈ ids) then (fun t => tk_status (f t)) <$> xd_tasks d !! u else status_of d u.
Proof.
  unfold status_of, set_tasks. simpl. rewrite map_lookup_imap. destruct (xd_tasks d !! u) as [t|]; simpl; [|by case_decide].
  case_decide; [by rewrite bool_decide_true | by rewrite bool_decide_false].
Qed.

Section Steps.
Context (big : float64 -> Z) (hooked : uuid -> bool) (uuid_text : uuid -> string).
#[local] Abbreviation inv := (inv big).

(** ** Queued tasks fail *)

Lemma ends_failed_queued f now : ends (failed_queued f now).
Proof.
  intros m t [Rc Rp Rm Rl Rq Rr Rfin Rfail] Hq. split_and!; [by left | done |]. destruct (Rl ltac:(by rewrite Hq)), (Rq Hq).
  constructor; simpl; try done; try lia.
Qed.
Lemma ends_failed f now : ends (fun t => (finish_task TaskFailed now t) <| tk_failure := Some f |>).
Proof.
  intros m t [Rc Rp Rm Rl Rq Rr Rfin Rfail] Hq. split_and!; [by left | done |]. destruct (Rl ltac:(by rewrite Hq)), (Rq Hq).
  constructor; simpl; try done; try lia.
Qed.
Lemma ends_cancelled now : ends (finish_task TaskCancelled now).
Proof.
  intros m t [Rc Rp Rm Rl Rq Rr Rfin Rfail] Hq. split_and!; [by right | done |]. destruct (Rl ltac:(by rewrite Hq)), (Rq Hq).
  constructor; simpl; try done; try lia. rewrite Rfail, Hq. split; done.
Qed.

Lemma core_fail_queued rows f now d : core (fail_queued hooked rows f now d) = core (FailTasks (map fst rows) f now d).
Proof. unfold fail_queued. by autorewrite with exec_core. Qed.

Lemma fail_queued_inv L S F d rows f now : inv L S F d -> all_queued d (map fst rows) ->
  inv L S (map fst rows ++ F) (fail_queued hooked rows f now d).
Proof.
  intros Hi Hq. eapply inv_core; [symmetry; apply core_fail_queued|]. apply end_queued_inv; [apply ends_failed_queued|done|done].
Qed.

Lemma fail_queued_status rows f now d u : all_queued d (map fst rows) ->
  status_of (fail_queued hooked rows f now d) u = if decide (u ∈ map fst rows) then Some TaskFailed else status_of d u.
Proof.
  intros [_ Hq]. transitivity (status_of (FailTasks (map fst rows) f now d) u).
  { unfold status_of. by rewrite (core_tasks _ _ (core_fail_queued rows f now d)). }
  unfold FailTasks. rewrite status_set_tasks. case_decide as H; [|done]. apply Hq in H. unfold status_of in H.
  by destruct (xd_tasks d !! u).
Qed.

Lemma fail_queued_deps rows f now d : xd_deps (fail_queued hooked rows f now d) = xd_deps d.
Proof. rewrite (core_deps _ _ (core_fail_queued rows f now d)). done. Qed.

(** The queued dependents of [up] fail: what is left pending is the rest. *)
Lemma fail_dependents_inv L S F F' d up now : inv L S F d -> (forall u, u ∈ F -> u ∈ up \/ u ∈ F') ->
  inv L S F' (fail_dependents hooked uuid_text up now d).
Proof.
  intros Hi HF. destruct (closure_closed (xd_deps d) up) as [Hup Hcl].
  assert (Hnone : up = [] \/ queued_of d (closure (xd_deps d) up) = [] -> inv L S F' d).
  { intros Hor. eapply inv_weaken; [exact Hi|]. intros id t Ht Hs u Hu Hd. destruct (i_dep _ _ _ _ _ Hi id t Ht) as [Dq _].
    destruct (Dq Hs) as [_ Hdead]. destruct (HF u (Hdead u Hu Hd)) as [Hin|]; [|done]. exfalso. destruct Hor as [->|Hq]; [set_solver|].
    assert (id ∈ map fst (queued_of d (closure (xd_deps d) up))) as Hm; [|rewrite Hq in Hm; set_solver].
    apply queued_of_spec. split; [|unfold status_of; rewrite Ht; simpl; congruence].
    apply Hup, elem_of_dependents. exists u. split; [done|]. by apply elem_of_upstreams. }
  unfold fail_dependents. destruct up as [|u0 up0]; [by apply Hnone; left|]. unfold LockDependentClosure.
  destruct (queued_of d _) as [|x rows0] eqn:Hq; [by apply Hnone; right|]. rewrite <- Hq. set (rows := queued_of d _).
  assert (Hall : all_queued d (map fst rows)) by apply queued_of_all.
  pose proof (fail_queued_inv L S F d rows (dependency_failed uuid_text (u0 :: up0)) now Hi Hall) as Hi'.
  eapply inv_weaken; [exact Hi'|]. intros id t Ht Hs u Hu Hd. destruct (i_dep _ _ _ _ _ Hi' id t Ht) as [Dq _].
  destruct (Dq Hs) as [_ Hdead]. specialize (Hdead u Hu Hd).
  assert (Hst : status_of (fail_queued hooked rows (dependency_failed uuid_text (u0 :: up0)) now d) id = Some TaskQueued)
    by (unfold status_of; rewrite Ht; simpl; congruence).
  rewrite fail_queued_status in Hst by done. case_decide as Hin; [done|].
  assert (Hedge : (id, u) ∈ xd_deps d).
  { apply elem_of_upstreams in Hu. by rewrite fail_queued_deps in Hu. }
  assert (Hout : id ∉ closure (xd_deps d) (u0 :: up0)) by (intros Hc; apply Hin, queued_of_spec; done).
  apply elem_of_app in Hdead as [Hr|HuF].
  - exfalso. apply Hout, Hcl, elem_of_dependents. exists u. split; [|done]. by apply queued_of_spec in Hr as [? _].
  - destruct (HF u HuF) as [Hin'|]; [|done]. exfalso. apply Hout, Hup, elem_of_dependents. eauto.
Qed.

Lemma failQueued_inv L S F d rows f now : inv L S F d -> all_queued d (map fst rows) ->
  inv L S F (failQueued hooked uuid_text rows f true now d).
Proof.
  intros Hi Hq. unfold failQueued. eapply fail_dependents_inv; [by apply fail_queued_inv|]. set_solver.
Qed.

(** ** Upstreams that succeeded *)

Lemma filter_twice {A} (f g : A -> bool) l : List.filter f (List.filter g l) = List.filter (fun x => g x && f x) l.
Proof. induction l as [|x l IH]; simpl; [done|]. destruct (g x); simpl; [|done]. destruct (f x); by rewrite IH. Qed.

Lemma filter_count {A} (f g h : A -> bool) l :
  (forall x, In x l -> f x = g x || h x) -> (forall x, In x l -> g x && h x = false) ->
  Z.of_nat (length (List.filter f l)) = Z.of_nat (length (List.filter g l)) + Z.of_nat (length (List.filter h l)).
Proof.
  induction l as [|x l IH]; intros Hf Hg; simpl; [done|]. rewrite (Hf x) by (by left). specialize (Hg x (or_introl eq_refl)) as Hx.
  specialize (IH (fun y Hy => Hf y (or_intror Hy)) (fun y Hy => Hg y (or_intror Hy))).
  destruct (g x), (h x); simpl in *; try done; simpl length; lia.
Qed.

Lemma waiting_split S d id : (forall u, u ∈ S -> status_of d u = Some TaskSucceeded) -> waiting S d id = waiting [] d id + met d S id.
Proof.
  intros HS. unfold waiting, met. apply filter_count; intros u _; unfold unsatisfied; rewrite (bool_decide_false (u ∈ [])) by set_solver.
  - by rewrite orb_false_r.
  - rewrite orb_false_r. apply andb_false_iff. destruct (decide (u ∈ S)) as [Hu|Hu]; [left|right; by apply bool_decide_eq_false].
    apply bool_decide_eq_false. rewrite HS by done. tauto.
Qed.

Lemma met_pos d S id : 0 < met d S id <-> exists u, u ∈ S /\ (id, u) ∈ xd_deps d.
Proof.
  unfold met. split.
  - intros H. destruct (List.filter _ (upstreams d id)) as [|u l] eqn:E; simpl in H; [lia|]. exists u.
    assert (In u (List.filter (fun u => bool_decide (u ∈ S)) (upstreams d id))) as Hin by (rewrite E; by left).
    apply filter_In in Hin as [Hin Hu]. apply bool_decide_eq_true in Hu. split; [done|]. by apply elem_of_upstreams, list_elem_of_In.
  - intros (u & Hu & He). apply elem_of_upstreams, list_elem_of_In in He.
    assert (In u (List.filter (fun u => bool_decide (u ∈ S)) (upstreams d id))) as Hin by (apply filter_In; split; [done|by apply bool_decide_eq_true]).
    destruct (List.filter _ _); [done|simpl; lia].
Qed.

(** Without queued dependents nothing is pending. *)
Lemma drop_won L S F d : inv L S F d -> map fst (queued_of d (dependents (xd_deps d) S)) = [] -> inv L [] F d.
Proof.
  intros [R C A U D W P E K] Hnil. constructor; try assumption; [|set_solver]. intros id t Ht. destruct (D id t Ht) as [Dq Dr].
  constructor.
  - intros Hs. destruct (Dq Hs) as [Hu Hd]. split; [|done]. rewrite Hu, waiting_split by done.
    destruct (decide (0 < met d S id)) as [Hm|Hm]; [|assert (0 <= met d S id) by (unfold met; lia); lia]. exfalso.
    assert (id ∈ map fst (queued_of d (dependents (xd_deps d) S))) as Hin; [|rewrite Hnil in Hin; set_solver].
    apply queued_of_spec. split; [|unfold status_of; rewrite Ht; simpl; congruence]. apply elem_of_dependents. by apply met_pos.
  - intros Hor. destruct (Dr Hor) as [Hu Hups]. split; [done|]. intros u Hin. destruct (Hups u Hin). set_solver.
Qed.

(** The tasks [SatisfyDependencies] writes, and the tables after. *)
Definition lowered (S ids : list TaskID) (d : db) : list TaskID :=
  List.filter (fun id => bool_decide (is_Some (xd_tasks d !! id)) && (met d S id >? 0)) ids.
Definition satisfied (S ids : list TaskID) (d : db) : db :=
  d <| xd_tasks := map_imap (fun id t =>
    Some (if bool_decide (id ∈ lowered S ids d) then t <| tk_unmet := tk_unmet t - met d S id |> else t)) (xd_tasks d) |>.

Lemma satisfied_lookup S ids d id : xd_tasks (satisfied S ids d) !! id =
  (fun t => if bool_decide (id ∈ lowered S ids d) then t <| tk_unmet := tk_unmet t - met d S id |> else t) <$> xd_tasks d !! id.
Proof. unfold satisfied. simpl. rewrite map_lookup_imap. by destruct (_ !! id). Qed.

Lemma satisfied_row S ids d id t : xd_tasks (satisfied S ids d) !! id = Some t -> exists t0, xd_tasks d !! id = Some t0 /\
  t = t0 <| tk_unmet := (if bool_decide (id ∈ lowered S ids d) then tk_unmet t0 - met d S id else tk_unmet t0) |>.
Proof.
  rewrite satisfied_lookup. destruct (_ !! id) as [t0|]; simpl; [|done]. intros [= <-]. exists t0. split; [done|].
  case_bool_decide; [done|by destruct t0].
Qed.

Lemma satisfied_status S ids d u : status_of (satisfied S ids d) u = status_of d u.
Proof. unfold status_of. rewrite satisfied_lookup. destruct (_ !! u); simpl; [|done]. by case_bool_decide. Qed.

Lemma satisfied_waiting S T ids d id : waiting T (satisfied S ids d) id = waiting T d id.
Proof.
  unfold waiting. change (upstreams (satisfied S ids d) id) with (upstreams d id). f_equal. f_equal. apply List.filter_ext.
  intros u. unfold unsatisfied. by rewrite satisfied_status.
Qed.

Lemma satisfied_inv L S F d : inv L S F d -> inv L [] F (satisfied S (LockQueuedDependents S d) d).
Proof.
  intros [R C A U D W P E K]. set (ids := LockQueuedDependents S d).
  assert (Hin : forall id t, xd_tasks d !! id = Some t -> tk_status t = TaskQueued -> id ∉ lowered S ids d -> met d S id = 0).
  { intros id t Ht Hs Hn. destruct (decide (0 < met d S id)) as [Hm|]; [|unfold met in *; lia]. destruct Hn.
    apply list_elem_of_In, filter_In. split.
    - apply list_elem_of_In, queued_of_spec. split; [by apply elem_of_dependents, met_pos|]. unfold status_of. rewrite Ht. simpl. congruence.
    - apply andb_true_iff. split; [by apply bool_decide_eq_true|lia]. }
  assert (Hq : forall id t, xd_tasks d !! id = Some t -> id ∈ lowered S ids d -> tk_status t = TaskQueued).
  { intros id t Ht Hc. apply list_elem_of_In, filter_In in Hc as [Hc _]. apply list_elem_of_In, queued_of_spec in Hc as [_ Hs].
    unfold status_of in Hs. rewrite Ht in Hs. simpl in Hs. congruence. }
  constructor.
  - intros id t Ht. apply satisfied_row in Ht as (t0 & Ht & ->). apply R in Ht. destruct Ht. by constructor.
  - intros id t a Ht. apply satisfied_row in Ht as (t0 & Ht & ->). simpl. by apply C.
  - intros a r Hr. destruct (A a r Hr) as [(t & Ht & Hn & Hrun) Hc He Hp]. constructor; [|done..].
    rewrite satisfied_lookup, Ht. simpl. eexists. split; [done|]. by case_bool_decide.
  - exact U.
  - intros id t Ht. apply satisfied_row in Ht as (t0 & Ht & ->). destruct (D id t0 Ht) as [Dq Dr]. constructor; simpl.
    + intros Hs. destruct (Dq Hs) as [Hu Hd]. rewrite satisfied_waiting. rewrite waiting_split in Hu by done. split.
      * case_bool_decide as Hc; [lia|]. rewrite (Hin id t0) in Hu by done. lia.
      * intros u. unfold dead. rewrite satisfied_status. by apply Hd.
    + intros Hor. destruct (Dr Hor) as [Hu Hups]. rewrite bool_decide_false by (intros Hc; apply (Hq id t0) in Hc; [|done]; destruct Hor; congruence).
      split; [done|]. intros u Hui. rewrite satisfied_status. destruct (Hups u Hui). set_solver.
  - set_solver.
  - intros id. rewrite satisfied_status. apply P.
  - destruct E as [En Ee]. split; [done|]. intros e He. rewrite !satisfied_lookup, !fmap_is_Some. by apply Ee.
  - exact K.
Qed.

Definition satisfied_rows (S ids : list TaskID) (d : db) : list (TaskID * TaskRow * Z) :=
  omap (fun id => (fun t => (id, t, input_bytes (satisfied S ids d) id t)) <$> xd_tasks (satisfied S ids d) !! id) (lowered S ids d).

Lemma satisfied_rows_spec S ids d x : In x (satisfied_rows S ids d) ->
  x.1.1 ∈ lowered S ids d /\ xd_tasks (satisfied S ids d) !! x.1.1 = Some x.1.2.
Proof.
  intros H. apply list_elem_of_In, list_elem_of_omap in H as (id & Hid & E).
  destruct (xd_tasks (satisfied S ids d) !! id) eqn:Ht; simpl in E; [|done]. by injection E as <-.
Qed.

Lemma omap_filter_ids {A B} (f : A -> option B) (key : B -> A) (g : B -> bool) l :
  (forall x y, f x = Some y -> key y = x) -> NoDup l -> NoDup (map key (List.filter g (omap f l))).
Proof.
  intros Hf. induction l as [|x l IH]; intros Hn; simpl; [constructor|]. inversion Hn as [|? ? Hx Hl]; subst.
  destruct (f x) as [y|] eqn:E; simpl; [|by apply IH]. destruct (g y); simpl; [|by apply IH].
  constructor; [|by apply IH]. rewrite (Hf x y E), list_elem_of_In, in_map_iff. intros (z & Hz & Hin).
  apply filter_In in Hin as [Hin _]. apply list_elem_of_In, list_elem_of_omap in Hin as (w & Hw & E'). apply Hf in E'. congruence.
Qed.

Lemma counted_queued S d id : id ∈ lowered S (LockQueuedDependents S d) d -> status_of d id = Some TaskQueued.
Proof.
  intros Hc. apply list_elem_of_In, filter_In in Hc as [Hc _]. apply list_elem_of_In, queued_of_spec in Hc as [_ Hs]. exact Hs.
Qed.

Lemma satisfied_rows_queued S d g : all_queued (satisfied S (LockQueuedDependents S d) d)
  (map (fun x => x.1.1) (List.filter g (satisfied_rows S (LockQueuedDependents S d) d))).
Proof.
  split.
  - unfold satisfied_rows. apply omap_filter_ids; [|apply NoDup_ListNoDup, List.NoDup_filter, NoDup_ListNoDup, queued_of_NoDup].
    intros x y E. destruct (_ !! x); simpl in E; [|done]. by injection E as <-.
  - intros id Hin. apply list_elem_of_In, in_map_iff in Hin as (x & <- & Hx). apply filter_In in Hx as [Hx _].
    apply satisfied_rows_spec in Hx as [Hc _]. apply counted_queued in Hc. by rewrite satisfied_status.
Qed.

Lemma SatisfyDependencies_total L S F d : inv L S F d ->
  SatisfyDependencies S (LockQueuedDependents S d) d =
  Some (satisfied S (LockQueuedDependents S d) d, satisfied_rows S (LockQueuedDependents S d) d).
Proof.
  intros Hi. unfold SatisfyDependencies. fold (lowered S (LockQueuedDependents S d) d).
  fold (satisfied S (LockQueuedDependents S d) d). fold (satisfied_rows S (LockQueuedDependents S d) d).
  destruct (existsb _ _) eqn:E; [|done]. apply existsb_exists in E as (x & Hx & Hneg). apply Z.ltb_lt in Hneg.
  apply satisfied_rows_spec in Hx as [Hc Ht]. apply counted_queued in Hc. rewrite <- (satisfied_status S (LockQueuedDependents S d)) in Hc.
  destruct (i_dep _ _ _ _ _ (satisfied_inv _ _ _ _ Hi) _ _ Ht) as [Dq _]. unfold status_of in Hc. rewrite Ht in Hc. simpl in Hc.
  injection Hc as Hc. destruct (Dq Hc) as [Hu _]. unfold waiting in Hu. lia.
Qed.

Lemma satisfy_dependents_inv L S F d now : inv L S F d ->
  exists d', satisfy_dependents hooked uuid_text S now d = Ret d' /\ inv L [] F d'.
Proof.
  intros Hi. unfold satisfy_dependents. destruct S as [|u0 S0] eqn:ES; [eauto|]. rewrite <- ES in *.
  destruct (LockQueuedDependents S d) as [|i0 ids0] eqn:EL; [exists d; split; [done|by apply drop_won with S]|]. rewrite <- EL.
  rewrite (SatisfyDependencies_total L S F d Hi). eexists. split; [reflexivity|].
  eapply inv_core; [by autorewrite with exec_core|]. pose proof (satisfied_inv _ _ _ _ Hi) as Hs.
  destruct (List.filter _ (List.filter _ _)) as [|x l] eqn:Ef; [done|]. rewrite <- Ef. apply failQueued_inv; [done|].
  rewrite map_map, filter_twice. apply satisfied_rows_queued.
Qed.

(** ** Outcomes reach the dependents *)

Lemma fail_each_inv L S F d now : inv L S F d ->
  inv L S [] (fold_left (fun d id => fail_dependents hooked uuid_text [id] now d) F d).
Proof.
  revert d. induction F as [|u F IH]; intros d Hi; [done|]. cbn [fold_left]. apply IH.
  eapply fail_dependents_inv; [exact Hi|]. set_solver.
Qed.

Lemma locked_outcomes succeeded failed d id : status_of d id = Some TaskQueued ->
  id ∈ closure (xd_deps d) failed ++ dependents (xd_deps d) succeeded ->
  (id, bool_decide (id ∈ closure (xd_deps d) failed)) ∈ LockOutcomeDependents succeeded failed d.
Proof.
  intros Hs Hin. unfold LockOutcomeDependents. apply list_elem_of_In, in_map_iff.
  assert (Hq : id ∈ map fst (queued_of d (closure (xd_deps d) failed ++ dependents (xd_deps d) succeeded))) by by apply queued_of_spec.
  apply list_elem_of_In, in_map_iff in Hq as (r & <- & Hr). eauto.
Qed.

(** Without queued dependents of the failed nothing is pending. *)
Lemma drop_lost L S F d : inv L S F d -> (forall id, status_of d id = Some TaskQueued -> id ∉ closure (xd_deps d) F) -> inv L S [] d.
Proof.
  intros Hi Hn. eapply inv_weaken; [exact Hi|]. intros id t Ht Hs u Hu Hd. exfalso.
  destruct (i_dep _ _ _ _ _ Hi id t Ht) as [Dq _]. destruct (Dq Hs) as [_ Hdead].
  apply (Hn id); [unfold status_of; rewrite Ht; simpl; congruence|]. apply (proj1 (closure_closed (xd_deps d) F)), elem_of_dependents.
  exists u. split; [by apply Hdead|by apply elem_of_upstreams].
Qed.

Lemma resolveOutcomeDependents_inv L S F d now : inv L S F d ->
  exists d', resolveOutcomeDependents hooked uuid_text S F now d = Ret d' /\ inv L [] [] d'.
Proof.
  intros Hi.
  assert (Hmixed : F <> [] -> exists d', match LockOutcomeDependents S F d with
      | [] => Ret d
      | locked =>
          d <-! satisfy_dependents hooked uuid_text S now d;
          if existsb snd locked then Ret (fold_left (fun d id => fail_dependents hooked uuid_text [id] now d) F d) else Ret d
      end = Ret d' /\ inv L [] [] d').
  { intros _. destruct (satisfy_dependents_inv L S F d now Hi) as (d1 & E1 & Hi1).
    destruct (LockOutcomeDependents S F d) as [|x locked] eqn:E.
    - exists d. split; [done|].
      assert (Hnone : forall id, status_of d id = Some TaskQueued -> id ∉ closure (xd_deps d) F ++ dependents (xd_deps d) S)
        by (intros id Hs Hin; apply locked_outcomes in Hin; [|done]; rewrite E in Hin; set_solver).
      apply drop_won with S; [apply drop_lost with F; [done|]; intros id Hs Hin; apply (Hnone id Hs); set_solver|].
      destruct (map fst (queued_of d _)) as [|y l] eqn:Eq; [done|].
      assert (y ∈ map fst (queued_of d (dependents (xd_deps d) S))) as Hy by (rewrite Eq; set_solver).
      apply queued_of_spec in Hy as [Hy Hs]. destruct (Hnone y Hs). set_solver.
    - rewrite E1. unfold go_bind. destruct (existsb snd (x :: locked)) eqn:Ex; [eexists; split; [reflexivity|by apply fail_each_inv]|].
      eexists. split; [done|]. rewrite <- E in Ex. clear E x locked.
      assert (Hno : forall id, status_of d id = Some TaskQueued -> id ∉ closure (xd_deps d) F).
      { intros id Hs Hin. assert (existsb snd (LockOutcomeDependents S F d) = true); [|congruence]. apply existsb_exists.
        exists (id, true). split; [|done]. apply list_elem_of_In. rewrite <- (bool_decide_true (id ∈ closure (xd_deps d) F)) by done.
        apply locked_outcomes; [done|set_solver]. }
      destruct (satisfy_dependents_inv L S [] d now) as (d2 & E2 & Hi2); [by apply drop_lost with F|]. congruence. }
  unfold resolveOutcomeDependents. destruct F as [|f F]; [by apply satisfy_dependents_inv|].
  destruct F as [|f' F]; [|by apply Hmixed]. destruct S as [|s S]; [|by apply Hmixed].
  exists (fail_dependents hooked uuid_text [f] now d). split; [done|]. eapply fail_dependents_inv; [exact Hi|]. set_solver.
Qed.
End Steps.
