(* ===== verification/ExecAdvance.v ===== *)
(** Outcomes advance their tasks ([advanceTasks] and [finishAttempts] of
    src/internal/execution/attempts.go): every transaction that ends attempts
    returns, and keeps the invariant of [ExecInv]. *)

From S2P Require Import Prelude Float64 Capacity Catalog GoLib Billing Policy Placement Exec Attempts Claims Submit ExecInv ExecSteps.

Lemma Ret_inj {E A} (a b : A) : Ret (E:=E) a = Ret b -> a = b.
Proof. by intros [=]. Qed.

(** ** What advancing tasks leaves alone *)

Definition rest (d : db) := (xd_attempts d, xd_containers d, xd_deps d, xd_releases d).

Lemma core_rest d d' : core d = core d' -> rest d = rest d'.
Proof. unfold core, rest. by intros [= _ -> _ -> -> ->]. Qed.

Lemma rest_parts d d' : rest d = rest d' ->
  xd_attempts d = xd_attempts d' /\ xd_containers d = xd_containers d' /\ xd_deps d = xd_deps d' /\ xd_releases d = xd_releases d'.
Proof. unfold rest. intros E. by split_and!; simplify_eq. Qed.

Create Rewrite HintDb exec_rest.

Lemma rest_NotifyAll c ids d : rest (NotifyAll c ids d) = rest d.
Proof. done. Qed.
Lemma rest_Notify c id d : rest (Notify c id d) = rest d.
Proof. done. Qed.
Lemma rest_finished ids d : rest (notifyFinished ids d) = rest d.
Proof. done. Qed.
Lemma rest_host h d : rest (notify_host h d) = rest d.
Proof. by destruct h. Qed.
Lemma rest_callbacks hooked e ts d : rest (recordCallbacks hooked e ts d) = rest d.
Proof. unfold recordCallbacks, wake_delivery. case_bool_decide; by destruct (_ - _)%nat. Qed.
Lemma rest_stopped h c id d : rest (notifyStopped h c id d) = rest d.
Proof. unfold notifyStopped. by rewrite rest_Notify, rest_host. Qed.
Lemma rest_set_tasks f ids d : rest (set_tasks f ids d) = rest d.
Proof. done. Qed.
Lemma rest_FailTasks ids f now d : rest (FailTasks ids f now d) = rest d.
Proof. done. Qed.
Lemma rest_SucceedTasks ids now d : rest (SucceedTasks ids now d) = rest d.
Proof. done. Qed.
Lemma rest_fail_queued hooked rows f now d : rest (fail_queued hooked rows f now d) = rest d.
Proof.
  unfold fail_queued. by rewrite rest_NotifyAll, rest_finished, rest_NotifyAll, rest_callbacks, rest_FailTasks.
Qed.
Lemma rest_fail_dependents hooked text up now d : rest (fail_dependents hooked text up now d) = rest d.
Proof. unfold fail_dependents. destruct up; [done|]. destruct (LockDependentClosure _ d); [done|]. apply rest_fail_queued. Qed.
Lemma rest_fold_tasks {A} (g : A -> TaskRow -> TaskRow) (key : A -> TaskID) vs d :
  rest (fold_left (fun d v => set_task (g v) (key v) d) vs d) = rest d.
Proof. revert d. induction vs as [|v vs IH]; intros d; simpl; [done|]. by rewrite IH. Qed.
Lemma rest_fail_each hooked text ids now d :
  rest (fold_left (fun d id => fail_dependents hooked text [id] now d) ids d) = rest d.
Proof. revert d. induction ids as [|v vs IH]; intros d; cbn [fold_left]; [done|]. by rewrite IH, rest_fail_dependents. Qed.
Hint Rewrite rest_NotifyAll rest_Notify rest_finished rest_host rest_callbacks rest_stopped rest_set_tasks rest_FailTasks
  rest_SucceedTasks rest_fail_queued rest_fail_dependents rest_fail_each : exec_rest.

Lemma rest_failQueued hooked text rows f c now d : rest (failQueued hooked text rows f c now d) = rest d.
Proof. unfold failQueued. destruct c; by autorewrite with exec_rest. Qed.

Lemma rest_satisfy hooked text up now d d' : satisfy_dependents hooked text up now d = Ret d' -> rest d' = rest d.
Proof.
  unfold satisfy_dependents. destruct up as [|u up]; [by intros [= ->]|].
  destruct (LockQueuedDependents _ d); [by intros [= ->]|]. unfold SatisfyDependencies. destruct (existsb _ _); [done|].
  intros H. apply Ret_inj in H. subst d'. rewrite !rest_NotifyAll. case_match; [done|]. etrans; [apply rest_failQueued|done].
Qed.

Lemma rest_resolve hooked text won lost now d d' : resolveOutcomeDependents hooked text won lost now d = Ret d' -> rest d' = rest d.
Proof.
  assert (Hs : forall won d1 d2, satisfy_dependents hooked text won now d1 = Ret d2 -> rest d2 = rest d1)
    by (intros *; apply rest_satisfy).
  assert (Hm : match LockOutcomeDependents won lost d with
      | [] => Ret d
      | locked =>
          d <-! satisfy_dependents hooked text won now d;
          if existsb snd locked then Ret (fold_left (fun d id => fail_dependents hooked text [id] now d) lost d) else Ret d
      end = Ret d' -> rest d' = rest d).
  { destruct (LockOutcomeDependents won lost d); [by intros [= ->]|]. unfold go_bind.
    destruct (satisfy_dependents _ _ _ _ _) as [d1| | |] eqn:E; try done. apply Hs in E.
    destruct (existsb _ _); intros H; apply Ret_inj in H; subst d'; by rewrite ?rest_fail_each. }
  unfold resolveOutcomeDependents. destruct lost as [|f lost]; [apply Hs|]. destruct lost as [|f' lost]; [|exact Hm].
  destruct won as [|s won]; [|exact Hm]. intros H. apply Ret_inj in H. subst d'. apply rest_fail_dependents.
Qed.

Section Advance.
Context (big : float64 -> Z) (hooked : uuid -> bool) (uuid_text : uuid -> string).
#[local] Abbreviation inv := (inv big).

Lemma inv_pending L L' S F d : inv L S F d -> (forall a, a ∈ L <-> a ∈ L') -> inv L' S F d.
Proof.
  intros [R C A U D W P E K] HL. constructor; try assumption.
  - intros id t a Ht Hs Ha. destruct (C id t a Ht Hs Ha) as (r & Hr & Hi & Hor). exists r. rewrite <- HL. eauto.
  - intros a r Hr. destruct (A a r Hr) as [Ht Hc He Hp]. constructor; [done..|]. by rewrite <- HL.
Qed.

Lemma inv_won L S S' F d : inv L S F d -> (forall u, u ∈ S <-> u ∈ S') -> inv L S' F d.
Proof.
  intros [R C A U D W P E K] HS. assert (Hu : forall u, unsatisfied S' d u = unsatisfied S d u).
  { intros u. unfold unsatisfied. f_equal. by apply bool_decide_ext. }
  constructor; try assumption; [|intros u; rewrite <- HS; apply W]. intros id t Ht. destruct (D id t Ht) as [Dq Dr]. constructor.
  - unfold waiting. by rewrite (List.filter_ext _ _ Hu).
  - intros Hor. destruct (Dr Hor) as [Hz Hups]. split; [done|]. intros u. rewrite <- HS. apply Hups.
Qed.

(** ** Groups of tasks whose attempts ended *)

(** A running task whose current attempt is [a]. *)
Definition running_as (d : db) (id : TaskID) (a : AttemptID) (t : TaskRow) : Prop :=
  xd_tasks d !! id = Some t /\ tk_status t = TaskRunning /\ tk_current t = Some a.

Lemma running_put d id a t i x : running_as d id a t -> id <> i -> running_as (put i x d) id a t.
Proof. intros (H & Hs & Hc) Hne. split_and!; [|done..]. unfold put. simpl. by rewrite lookup_insert_ne. Qed.

Lemma set_task_put f id d t : xd_tasks d !! id = Some t -> set_task f id d = put id (f t) d.
Proof.
  intros Ht. assert (E : alter f id (xd_tasks d) = <[id := f t]> (xd_tasks d)).
  { apply map_eq. intros i. destruct (decide (i = id)) as [->|]; [by rewrite lookup_alter_eq, lookup_insert_eq, Ht|].
    by rewrite lookup_alter_ne, lookup_insert_ne by done. }
  unfold set_task, put. by rewrite E.
Qed.

Section Groups.
Context {V : Type} (g : V -> TaskRow -> TaskRow) (key : V -> TaskID) (att : V -> AttemptID).

Definition may_move (F : list TaskID) (d : db) (v : V) : Prop := exists t, running_as d (key v) (att v) t /\
  keeps_row t (g v t) /\ row_ok (limit_of big d t) (g v t) /\
  (tk_status (g v t) = TaskQueued \/ (tk_status (g v t) = TaskFailed \/ tk_status (g v t) = TaskCancelled) /\ key v ∈ F).

Lemma fold_moves vs L S F d : inv (map att vs ++ L) S F d -> NoDup (map key vs) -> (forall v, v ∈ vs -> may_move F d v) ->
  inv L S F (fold_left (fun d v => set_task (g v) (key v) d) vs d).
Proof.
  revert d. induction vs as [|v vs IH]; intros d Hi Hn Hv; cbn [fold_left]; [done|].
  inversion Hn as [|? ? Hx Hl]; subst. destruct (Hv v ltac:(set_solver)) as (t & Hr & Hk & Hrow & Hst).
  assert (Hns : tk_status (g v t) <> TaskSucceeded) by (destruct Hst as [Hq|[[Hq|Hq] _]]; congruence).
  rewrite (set_task_put _ _ _ t) by apply Hr. destruct Hr as (Ht & Hs & Hc). apply IH; [|done|].
  - apply (move_inv big (att v :: map att vs ++ L) _ S S F F d (key v) t); try done.
    + destruct Hst as [Hq|[Hq HF]]; [by apply moved_back with (att v)|by apply moved_lose with (att v)].
    + intros u. split; [by left|]. by intros [|[_ ?]].
  - intros w Hw. destruct (Hv w ltac:(set_solver)) as (x & Hr & Hrest). exists x. split; [|exact Hrest].
    apply running_put; [done|]. intros E. apply Hx. rewrite <- E. apply list_elem_of_In, in_map. by apply list_elem_of_In.
Qed.
End Groups.

Lemma InsertTaskResults_put rs id t d : InsertTaskResults rs (put id t d) = put id t <$> InsertTaskResults rs d.
Proof.
  revert d. induction rs as [|[i p] rs IH]; intros d; simpl; [done|]. unfold put at 1. simpl. case_bool_decide; [done|]. by rewrite <- IH.
Qed.

Lemma InsertTaskResults_tasks rs d d' : InsertTaskResults rs d = Some d' -> xd_tasks d' = xd_tasks d /\ rest d' = rest d.
Proof.
  revert d. induction rs as [|[i p] rs IH]; intros d; simpl; [by intros [= ->]|]. case_bool_decide; [done|]. intros E. by apply IH in E as [-> ->].
Qed.

(** The tasks that succeed. *)
Lemma succeed_moves (att : TaskID -> AttemptID) rs L S F now d : inv (map att (map fst rs) ++ L) S F d -> NoDup (map fst rs) ->
  (forall id, id ∈ map fst rs -> exists t, running_as d id (att id) t) ->
  exists d1, InsertTaskResults rs d = Some d1 /\ inv L (map fst rs ++ S) F (SucceedTasks (map fst rs) now d1).
Proof.
  revert S d. induction rs as [|[id p] rs IH]; intros S d Hi Hn Hv; simpl in *.
  { eexists. split; [done|]. unfold SucceedTasks. by rewrite set_tasks_nil. }
  inversion Hn as [|? ? Hx Hl]; subst. destruct (Hv id ltac:(set_solver)) as (t & Ht & Hs & Hc).
  set (t' := finish_task TaskSucceeded now t).
  assert (Hi' : inv (map att (map fst rs) ++ L) (id :: S) F (put id t' (d <| xd_results := <[id := p]> (xd_results d) |>))).
  { destruct (i_rows _ _ _ _ _ Hi id t Ht) as [Rc Rp Rm Rl Rq Rr Rfin Rfail]. destruct (Rl ltac:(by rewrite Hs)).
    apply (move_results big (att id :: map att (map fst rs) ++ L) _ S _ F F d id t); try done.
    - apply moved_win with (att id); try done. set_solver.
    - constructor; simpl; try done; try lia. rewrite Rfail, Hs. done.
    - set_solver.
    - intros i. destruct (decide (i = id)) as [->|]; [rewrite lookup_insert_eq; naive_solver|rewrite lookup_insert_ne; naive_solver]. }
  rewrite bool_decide_false by (rewrite (i_res _ _ _ _ _ Hi); unfold status_of; rewrite Ht; simpl; congruence).
  destruct (IH (id :: S) _ Hi' Hl) as (d1 & E1 & Hi1).
  { intros i Hi0. destruct (Hv i ltac:(set_solver)) as (x & Hr). exists x. apply running_put; [done|]. by intros ->. }
  rewrite InsertTaskResults_put in E1. destruct (InsertTaskResults _ (d <| _ := _ |>)) as [d0|] eqn:E0; [|done].
  injection E1 as <-. exists d0. split; [done|].
  assert (Ht0 : xd_tasks d0 !! id = Some t) by by rewrite (proj1 (InsertTaskResults_tasks _ _ _ E0)).
  unfold SucceedTasks in *. rewrite (set_tasks_cons _ id _ d0 t) by done.
  eapply inv_won; [exact Hi1|]. set_solver.
Qed.

(** ** The outcomes of a transaction *)

Definition att_of (l : liveOutcome) : AttemptID := ao_Attempt (lo_outcome l).

(** An outcome of its task's current attempt, with what its state needs. *)
Definition live_ok (d : db) (l : liveOutcome) : Prop :=
  running_as d (lo_id l) (att_of l) (lo_task l) /\ outcome_valid (lo_outcome l) = true /\ ao_State (lo_outcome l) <> AttemptCancelled.

Lemma decide_outcomes_total d live : (forall l, l ∈ live -> live_ok d l) ->
  exists ds, decide_outcomes big d live = Ret ds /\ map fst ds = live /\ forall v, v ∈ ds -> decide_outcome big d v.1 = Some v.2.
Proof.
  induction live as [|l live IH]; intros H; simpl; [exists []; set_solver|].
  destruct IH as (ds & -> & Hm & Hd); [set_solver|]. destruct (H l ltac:(set_solver)) as (_ & Hv & Hc).
  assert (exists a, decide_outcome big d l = Some a) as [a Ha].
  { unfold decide_outcome. unfold outcome_valid in Hv. destruct (ao_State (lo_outcome l)) eqn:E; try done; simpl.
    - apply bool_decide_eq_true in Hv as [p ->]. simpl. eauto.
    - apply bool_decide_eq_true in Hv as [p ->]. simpl. eauto.
    - apply bool_decide_eq_true in Hv as [p ->]. simpl. eauto.
    - apply bool_decide_eq_true in Hv as [p ->]. simpl. eauto. }
  rewrite Ha. simpl. eexists. split; [done|]. split; [by rewrite <- Hm|]. intros v [->|Hin]%elem_of_cons; [done|auto].
Qed.

Definition won_ids (ds : list (liveOutcome * advance)) : list TaskID := map fst (succeeds ds).
Definition back_ids (ds : list (liveOutcome * advance)) : list TaskID := map (fun v => lo_id v.1.1.1) (requeues ds).
Definition lost_ids (ds : list (liveOutcome * advance)) : list TaskID := map (fun v => v.1.1) (fails ds).

Lemma decided_ids ds : won_ids ds ++ back_ids ds ++ lost_ids ds ≡ₚ map (fun v => lo_id v.1) ds.
Proof.
  unfold won_ids, back_ids, lost_ids. induction ds as [|[l a] ds IH]; simpl; [done|].
  destruct a; simpl; by rewrite <- IH, ?Permutation_middle.
Qed.

Lemma elem_succeeds ds v : v ∈ succeeds ds -> exists l, (l, Succeed v.2) ∈ ds /\ lo_id l = v.1.
Proof. intros (x & Hx & E)%list_elem_of_omap. destruct x as [l []]; simpl in E; try done. injection E as <-. eauto. Qed.
Lemma elem_requeues ds v : v ∈ requeues ds -> (v.1.1.1, Requeue v.1.1.2 v.1.2 v.2) ∈ ds.
Proof. intros (x & Hx & E)%list_elem_of_omap. destruct x as [l []]; simpl in E; try done. by injection E as <-. Qed.
Lemma elem_fails ds v : v ∈ fails ds -> exists l, (l, Attempts.Fail v.1.2 v.2) ∈ ds /\ lo_id l = v.1.1.
Proof. intros (x & Hx & E)%list_elem_of_omap. destruct x as [l []]; simpl in E; try done. injection E as <-. eauto. Qed.

(** ** Rows *)

Lemma requeued_row d l delay p f m now : decide_outcome big d l = Some (Requeue delay p f) -> row_ok m (lo_task l) ->
  tk_status (lo_task l) = TaskRunning -> row_ok m (requeued delay p now (lo_task l)).
Proof.
  unfold decide_outcome. case_bool_decide; [by destruct (ao_Result _)|]. destruct (ao_Failure _) as [x|]; simpl; [|done].
  intros E [Rc Rp Rm Rl Rq Rr Rfin Rfail] Hs. destruct (Rl ltac:(by rewrite Hs)) as [Hm Hp].
  rewrite Hs in Rfail, Rfin. destruct (_ && _) eqn:Epre in E.
  - injection E as <- <- <-. apply andb_true_iff in Epre as [_ Epre]. apply Z.ltb_lt in Epre.
    constructor; simpl; try done; try lia; [split; [done|lia]|by rewrite Rfail].
  - destruct (_ && _) eqn:Eret in E; [|done]. injection E as _ <- <-. unfold mayRetry in Eret.
    apply andb_true_iff in Eret as [Eret _]. apply andb_true_iff in Eret as [Hret Hlt]. apply Z.ltb_lt in Hlt.
    rewrite bool_decide_false by (intros E; by rewrite E in Hret). constructor; simpl; try done; try lia; [split; [done|lia]|by rewrite Rfail].
Qed.

Lemma failed_row f p m t now : row_ok m t -> tk_status t = TaskRunning -> row_ok m (failed_running f p now t).
Proof.
  intros [Rc Rp Rm Rl Rq Rr Rfin Rfail] Hs. destruct (Rl ltac:(by rewrite Hs)) as [Hm Hp]. 
  constructor; unfold MaxPreemptions in *; simpl; try done; destruct p; lia.
Qed.

(** ** [advanceTasks] *)

Lemma limit_rest d d' t : rest d = rest d' -> limit_of big d t = limit_of big d' t.
Proof. intros [= _ _ _ E]. unfold limit_of, policy_of, spec_of. by rewrite E. Qed.

Lemma fold_left_same {A B} (f g : A -> B -> A) l a : (forall a b, f a b = g a b) -> fold_left f l a = fold_left g l a.
Proof. intros H. revert a. induction l as [|x l IH]; intros a; simpl; [done|]. by rewrite H, IH. Qed.

Lemma fold_left_over {A B C} (f : A -> B -> A) (h : C -> B) l a : fold_left f (map h l) a = fold_left (fun a c => f a (h c)) l a.
Proof. revert a. induction l as [|x l IH]; intros a; simpl; [done|]. by rewrite IH. Qed.

Lemma fold_tasks_lookup {V} (g : V -> TaskRow -> TaskRow) (key : V -> TaskID) vs d i : i ∉ map key vs ->
  xd_tasks (fold_left (fun d v => set_task (g v) (key v) d) vs d) !! i = xd_tasks d !! i.
Proof.
  revert d. induction vs as [|v vs IH]; intros d Hi; cbn [fold_left]; [done|]. simpl in Hi. apply not_elem_of_cons in Hi as [Hne Hi].
  rewrite IH by done. unfold set_task. simpl. by rewrite lookup_alter_ne.
Qed.

Lemma set_tasks_lookup f ids d i : i ∉ ids -> xd_tasks (set_tasks f ids d) !! i = xd_tasks d !! i.
Proof. intros Hi. unfold set_tasks. simpl. rewrite map_lookup_imap, bool_decide_false by done. by destruct (_ !! i). Qed.

(** The current attempt of a task. *)
Definition cur (d : db) (id : TaskID) : AttemptID := default 0 (t ← xd_tasks d !! id; tk_current t).

Lemma cur_running d id a t : running_as d id a t -> cur d id = a.
Proof. intros (Ht & _ & Hc). unfold cur. rewrite Ht. simpl. by rewrite Hc. Qed.

Lemma requeue_all_core vs now d : core (requeue_all hooked vs now d) =
  core (fold_left (fun d v => set_task (requeued v.1.1.2 v.1.2 now) (lo_id v.1.1.1) d) vs d).
Proof.
  unfold requeue_all. destruct vs as [|v vs]; [done|]. rewrite core_NotifyAll, core_callbacks. unfold RequeueTasks.
  rewrite fold_left_over. f_equal. apply fold_left_same. by intros a [[[l x] p] f].
Qed.

Lemma fail_all_core vs now d : core (fail_all hooked vs now d) =
  core (fold_left (fun d v => set_task (failed_running v.1.2 v.2 now) v.1.1 d) vs d).
Proof.
  unfold fail_all. destruct vs as [|v vs]; [done|]. rewrite core_callbacks. unfold FailRunningTasks. f_equal.
  apply fold_left_same. by intros a [[l x] p].
Qed.

Lemma succeed_all_core rs now d d1 : InsertTaskResults rs d = Some d1 ->
  exists d2, succeed_all hooked rs now d = Ret d2 /\ core d2 = core (SucceedTasks (map fst rs) now d1).
Proof.
  intros E. unfold succeed_all. destruct rs as [|r rs]; [|rewrite E; eexists; split; [done|apply core_callbacks]].
  injection E as <-. eexists. split; [done|]. unfold SucceedTasks. simpl. by rewrite set_tasks_nil.
Qed.

Lemma rest_advance live now d d' : advanceTasks big hooked uuid_text live now d = Ret d' -> rest d' = rest d.
Proof.
  unfold advanceTasks. destruct live as [|l0 live0] eqn:El; [by intros [= ->]|]. rewrite <- El. clear El. unfold go_bind.
  destruct (retryPolicies _ _); try done. destruct (decide_outcomes _ _ _) as [ds| | |]; try done.
  unfold succeed_all. destruct (match succeeds ds with [] => _ | _ => _ end) as [d1| | |] eqn:E1; try done.
  assert (Hr1 : rest d1 = rest d).
  { destruct (succeeds ds) as [|r rs]; [by injection E1 as ->|]. destruct (InsertTaskResults _ d) as [d0|] eqn:E0; [|done].
    apply Ret_inj in E1. subst d1. rewrite rest_callbacks, rest_SucceedTasks. by apply InsertTaskResults_tasks in E0 as [_ ->]. }
  destruct (resolveOutcomeDependents _ _ _ _ _ _) as [d2| | |] eqn:E2; try done. apply rest_resolve in E2. intros H.
  apply Ret_inj in H. subst d'. rewrite rest_NotifyAll, rest_finished, rest_NotifyAll, E2.
  rewrite (core_rest _ _ (fail_all_core _ _ _)), rest_fold_tasks, (core_rest _ _ (requeue_all_core _ _ _)), rest_fold_tasks. exact Hr1.
Qed.

Lemma cur_live d live : (forall l, l ∈ live -> live_ok d l) -> map (cur d) (map lo_id live) = map att_of live.
Proof.
  intros H. rewrite map_map. apply map_ext_in. intros l Hl. apply list_elem_of_In, H in Hl as [Hr _]. by apply cur_running in Hr.
Qed.

Lemma advanceTasks_inv live now d : inv (map att_of live) [] [] d -> NoDup (map lo_id live) -> (forall l, l ∈ live -> live_ok d l) ->
  retryPolicies live d = Ret tt -> exists d', advanceTasks big hooked uuid_text live now d = Ret d' /\ inv [] [] [] d'.
Proof.
  intros Hi Hn Hl Hp. unfold advanceTasks. destruct live as [|l0 live0] eqn:El; [by exists d|]. rewrite <- El in *. clear El l0 live0.
  rewrite Hp. destruct (decide_outcomes_total d live Hl) as (ds & -> & Hm & Hd). cbn [go_bind].
  assert (Hrun : forall v, v ∈ ds -> running_as d (lo_id v.1) (cur d (lo_id v.1)) (lo_task v.1)).
  { intros v Hv. destruct (Hl v.1) as [Hr _]; [rewrite <- Hm; apply list_elem_of_In, in_map; by apply list_elem_of_In|].
    by rewrite (cur_running _ _ _ _ Hr). }
  assert (Hids : won_ids ds ++ back_ids ds ++ lost_ids ds ≡ₚ map lo_id live) by by rewrite decided_ids, <- Hm, map_map.
  assert (Hnd : NoDup (won_ids ds ++ back_ids ds ++ lost_ids ds)) by by rewrite Hids.
  apply NoDup_app in Hnd as (Hn1 & Hd1 & Hn2). apply NoDup_app in Hn2 as (Hn2 & Hd2 & Hn3).
  assert (Hi0 : inv (map (cur d) (won_ids ds) ++ map (cur d) (back_ids ds) ++ map (cur d) (lost_ids ds)) [] (lost_ids ds) d).
  { apply inv_weaken with []; [|by intros id t Ht Hs u Hu Hx; destruct (i_dep _ _ _ _ _ Hi id t Ht) as [Dq _];
      destruct (Dq Hs) as [_ Hnone]; specialize (Hnone u Hu Hx); set_solver].
    eapply inv_pending; [exact Hi|]. intros a. rewrite <- (cur_live d live Hl), <- !map_app. by rewrite Hids. }
  destruct (succeed_moves (cur d) (succeeds ds) _ [] _ now d Hi0 Hn1) as (d1 & E1 & Hi1).
  { intros id Hid. apply list_elem_of_In, in_map_iff in Hid as (v & <- & Hv). apply list_elem_of_In, elem_succeeds in Hv as (l & Hv & <-).
    exists (lo_task l). by apply (Hrun _ Hv). }
  destruct (succeed_all_core (succeeds ds) now d d1 E1) as (d2 & -> & Hc2). cbn [go_bind].
  apply InsertTaskResults_tasks in E1 as [Ht1 Hr1].
  assert (Hrest2 : rest d2 = rest d) by by rewrite (core_rest _ _ Hc2).
  apply (inv_core big _ _ _ _ d2 (eq_sym Hc2)) in Hi1.
  assert (Hrow : forall v, v ∈ ds -> row_ok (limit_of big d (lo_task v.1)) (lo_task v.1) /\ tk_status (lo_task v.1) = TaskRunning).
  { intros v Hv. destruct (Hrun v Hv) as (Ht & Hs & _). split; [|done]. by apply (i_rows _ _ _ _ _ Hi (lo_id v.1)). }
  (* the tasks queued again *)
  set (d3 := requeue_all hooked (requeues ds) now d2).
  assert (Hi3 : inv (map (cur d) (lost_ids ds)) (won_ids ds ++ []) (lost_ids ds) d3).
  { eapply inv_core; [symmetry; apply requeue_all_core|].
    apply (fold_moves (fun v => requeued v.1.1.2 v.1.2 now) (fun v => lo_id v.1.1.1) (fun v => cur d (lo_id v.1.1.1))).
    - unfold back_ids in Hi1. by rewrite map_map in Hi1.
    - done.
    - intros v Hv. pose proof (elem_requeues _ _ Hv) as Hin. exists (lo_task v.1.1.1). destruct (Hrow _ Hin) as [Hok Hs].
      destruct (Hrun _ Hin) as (Ht & _ & Hcur). split; [split; [|done]|split; [done|split; [|by left]]].
      + rewrite (core_tasks _ _ Hc2). unfold SucceedTasks. rewrite set_tasks_lookup, Ht1; [done|].
        intros Hw. apply (Hd1 _ Hw). apply elem_of_app. left. apply list_elem_of_In, (in_map (fun v => lo_id v.1.1.1)).
        by apply list_elem_of_In.
      + rewrite (limit_rest d2 d) by done. apply (requeued_row d _ _ _ _ _ _ (Hd _ Hin)); done. }
  assert (Hrest3 : rest d3 = rest d) by (unfold d3; rewrite (core_rest _ _ (requeue_all_core _ _ _)); by rewrite rest_fold_tasks).
  set (d4 := fail_all hooked (fails ds) now d3).
  assert (Hi4 : inv [] (won_ids ds ++ []) (lost_ids ds) d4).
  { eapply inv_core; [symmetry; apply fail_all_core|].
    apply (fold_moves (fun v => failed_running v.1.2 v.2 now) (fun v => v.1.1) (fun v => cur d v.1.1)).
    - unfold lost_ids in Hi3 at 1. rewrite map_map in Hi3. by rewrite app_nil_r.
    - done.
    - intros v Hv. assert (Hlost : v.1.1 ∈ lost_ids ds) by (apply list_elem_of_In, (in_map (fun v => v.1.1)); by apply list_elem_of_In).
      pose proof Hv as Hv'. apply elem_fails in Hv' as (l & Hin & El). exists (lo_task l).
      destruct (Hrow _ Hin) as [Hok Hs]. destruct (Hrun _ Hin) as (Ht & _ & Hcur). simpl in *. rewrite El in *.
      split; [split; [|done]|split; [done|split; [|right; split; [by left|done]]]].
      + unfold d3. rewrite (core_tasks _ _ (requeue_all_core _ _ _)), fold_tasks_lookup, (core_tasks _ _ Hc2).
        * unfold SucceedTasks. rewrite set_tasks_lookup, Ht1; [done|]. intros Hw. apply (Hd1 _ Hw). by apply elem_of_app; right.
        * intros Hb. by apply (Hd2 _ Hb).
      + rewrite (limit_rest d3 d) by done. by apply failed_row. }
  destruct (resolveOutcomeDependents_inv big hooked uuid_text [] (won_ids ds) (lost_ids ds) d4 now) as (d5 & E5 & Hi5).
  { eapply inv_won; [exact Hi4|]. set_solver. }
  fold (won_ids ds) (lost_ids ds). rewrite E5. cbn [go_bind]. eexists. split; [done|]. eapply inv_core; [|exact Hi5]. by autorewrite with exec_core.
Qed.
End Advance.
