(* ===== verification/ExecFinish.v ===== *)
(** Tasks that finished, which no transaction changes; [finishAttempts] and
    what calls it (src/internal/execution: attempts.go, completion.go,
    cancel.go, containers.go, reports.go and recovery.go): between
    transactions the invariant of [ExecInv] holds with nothing pending. *)

From S2P Require Import Prelude Float64 Capacity Catalog GoLib Billing Policy Placement Exec Attempts Claims Submit ExecInv ExecSteps ExecAdvance.

(** What a task is: the columns no transaction writes after its insert. *)
Definition identity (t : TaskRow) := (tk_workspace t, tk_workload t, tk_release t, tk_created_at t, tk_parent t, tk_root t, tk_scheduled_for t, tk_input t).

(** The task is the only one of its occurrence. *)
Definition only_one (m : gmap TaskID TaskRow) (id : TaskID) (t : TaskRow) : Prop := is_Some (tk_scheduled_for t) -> forall j u,
  m !! j = Some u -> tk_workload u = tk_workload t -> tk_scheduled_for u = tk_scheduled_for t -> j = id.

Record final (d d' : db) : Prop := {
  fi_tasks : forall id t, xd_tasks d !! id = Some t -> Terminal (tk_status t) = true -> xd_tasks d' !! id = Some t;
  fi_results : forall id p, xd_results d !! id = Some p -> xd_results d' !! id = Some p;
  fi_same : forall id t, xd_tasks d !! id = Some t -> exists t', xd_tasks d' !! id = Some t' /\ identity t' = identity t;
  fi_new : forall id t, xd_tasks d' !! id = Some t -> xd_tasks d !! id = None -> only_one (xd_tasks d') id t }.

Lemma identity_fields t t' : identity t' = identity t -> tk_workload t' = tk_workload t /\ tk_scheduled_for t' = tk_scheduled_for t.
Proof. unfold identity. by intros [= _ -> _ _ _ _ -> _]. Qed.

(** A transaction that inserts no task: it keeps what each is. *)
Lemma final_rows d d' : (forall id, (exists t', xd_tasks d' !! id = Some t') -> is_Some (xd_tasks d !! id)) ->
  (forall id t, xd_tasks d !! id = Some t -> exists t', xd_tasks d' !! id = Some t' /\ identity t' = identity t /\ (Terminal (tk_status t) = true -> t' = t)) ->
  (forall id p, xd_results d !! id = Some p -> xd_results d' !! id = Some p) -> final d d'.
Proof.
  intros Hd Hs Hr. constructor; [|done| |].
  - intros id t Ht Hf. destruct (Hs id t Ht) as (t' & Ht' & _ & E). by rewrite Ht', E.
  - intros id t Ht. destruct (Hs id t Ht) as (t' & ? & ? & _). eauto.
  - intros id t Ht Hn. destruct (Hd id) as [x Hx]; [eauto|congruence].
Qed.

Lemma final_refl d d' : xd_tasks d' = xd_tasks d -> xd_results d' = xd_results d -> final d d'.
Proof. intros Et Er. apply final_rows; rewrite ?Et, ?Er; [by intros id [t ->]|eauto|done]. Qed.

Lemma final_core d d' : core d' = core d -> final d d'.
Proof. unfold core. intros [= Et _ Er _ _ _]. by apply final_refl. Qed.

Lemma final_trans d1 d2 d3 : final d1 d2 -> final d2 d3 -> final d1 d3.
Proof.
  intros [T1 R1 S1 N1] [T2 R2 S2 N2]. constructor; [auto..| |].
  - intros id t Ht. destruct (S1 id t Ht) as (t1 & H1 & E1). destruct (S2 id t1 H1) as (t2 & H2 & E2). exists t2. split; [done|congruence].
  - intros id t Ht Hn. destruct (xd_tasks d2 !! id) as [t2|] eqn:H2; [|by apply N2].
    destruct (S2 id t2 H2) as (x & Hx & E). rewrite Ht in Hx. injection Hx as <-. destruct (identity_fields _ _ E) as [Ew Es].
    intros Hs j u Hu Hw Hf. destruct (xd_tasks d2 !! j) as [u2|] eqn:Hj.
    + destruct (S2 j u2 Hj) as (y & Hy & E'). rewrite Hu in Hy. injection Hy as <-. destruct (identity_fields _ _ E') as [Ew' Es'].
      apply (N1 id t2 H2 Hn) with u2; congruence.
    + symmetry. apply (N2 j u Hu Hj) with t; congruence.
Qed.

(** Tasks that have not finished. *)
Definition open_tasks (d : db) (ids : list TaskID) : Prop := forall id t, id ∈ ids -> xd_tasks d !! id = Some t -> Terminal (tk_status t) = false.

Lemma queued_open d ids : all_queued d ids -> open_tasks d ids.
Proof.
  intros [_ Hq] id t Hin Ht. specialize (Hq id Hin). unfold status_of in Hq. rewrite Ht in Hq. simpl in Hq. injection Hq as ->. done.
Qed.

Lemma final_set_tasks f ids d : (forall t, identity (f t) = identity t) -> open_tasks d ids -> final d (set_tasks f ids d).
Proof.
  intros Hf Hq. apply final_rows; [| |done].
  - intros id [t' H]. unfold set_tasks in H. simpl in H. rewrite map_lookup_imap in H. by destruct (xd_tasks d !! id).
  - intros id t Ht. unfold set_tasks. simpl. rewrite map_lookup_imap, Ht. simpl. eexists. split; [done|].
    case_bool_decide as Hin; [|done]. split; [done|]. intros Hs. by rewrite (Hq id t Hin Ht) in Hs.
Qed.

Lemma final_set_task f id d : (forall t, identity (f t) = identity t) -> open_tasks d [id] -> final d (set_task f id d).
Proof.
  intros Hf Hq. unfold set_task. apply final_rows; [| |done]; simpl.
  - intros i [t' H]. destruct (decide (i = id)) as [->|Hne]; [rewrite lookup_alter_eq in H|rewrite lookup_alter_ne in H by done]; by destruct (xd_tasks d !! _).
  - intros i t Ht. destruct (decide (i = id)) as [->|Hne]; [|rewrite lookup_alter_ne by done; eauto].
    rewrite lookup_alter_eq, Ht. eexists. split; [done|]. split; [done|]. intros Hs. by rewrite (Hq id t ltac:(set_solver) Ht) in Hs.
Qed.

Lemma final_fold {V} (g : V -> TaskRow -> TaskRow) (key : V -> TaskID) vs d : (forall v t, identity (g v t) = identity t) ->
  NoDup (map key vs) -> open_tasks d (map key vs) -> final d (fold_left (fun d v => set_task (g v) (key v) d) vs d).
Proof.
  intros Hg. revert d. induction vs as [|v vs IH]; intros d Hn Ho; cbn [fold_left]; [by apply final_core|]. inversion Hn as [|? ? Hx Hl]; subst.
  eapply final_trans; [apply (final_set_task (g v) (key v) d); [done|]|apply IH; [done|]].
  - intros id t Hin. apply Ho. set_solver.
  - intros id t Hin. unfold set_task. simpl. rewrite lookup_alter_ne by (intros <-; done). apply Ho. set_solver.
Qed.

Section Final.
Context (big : float64 -> Z) (hooked : uuid -> bool) (uuid_text : uuid -> string).

Lemma fail_queued_final rows f now d : all_queued d (map fst rows) -> final d (fail_queued hooked rows f now d).
Proof.
  intros Hq. eapply final_trans; [apply (final_set_tasks (failed_queued f now) (map fst rows)); [done|by apply queued_open]|]. apply final_core, core_fail_queued.
Qed.

Lemma fail_dependents_final up now d : final d (fail_dependents hooked uuid_text up now d).
Proof.
  unfold fail_dependents. destruct up as [|u up]; [by apply final_core|]. unfold LockDependentClosure.
  destruct (queued_of d _) as [|x rows] eqn:E; [by apply final_core|]. rewrite <- E. apply fail_queued_final, queued_of_all.
Qed.

Lemma satisfied_final S d : final d (satisfied S (LockQueuedDependents S d) d).
Proof.
  apply final_rows; [| |done].
  - intros id [t' H]. rewrite satisfied_lookup in H. by destruct (xd_tasks d !! id).
  - intros id t Ht. rewrite satisfied_lookup, Ht. simpl. eexists. split; [done|]. case_bool_decide as Hc; [|done]. split; [done|].
    apply counted_queued in Hc. unfold status_of in Hc. rewrite Ht in Hc. simpl in Hc. injection Hc as Hc. by rewrite Hc.
Qed.

Lemma satisfy_final S now d d' : satisfy_dependents hooked uuid_text S now d = Ret d' -> final d d'.
Proof.
  unfold satisfy_dependents. destruct S as [|u S0] eqn:ES; [intros [= ->]; by apply final_core|]. rewrite <- ES. clear ES.
  destruct (LockQueuedDependents S d) as [|i ids] eqn:EL; [intros [= ->]; by apply final_core|]. rewrite <- EL. clear EL.
  unfold SatisfyDependencies. fold (lowered S (LockQueuedDependents S d) d). fold (satisfied S (LockQueuedDependents S d) d).
  fold (satisfied_rows S (LockQueuedDependents S d) d). destruct (existsb _ _); [done|]. intros H. apply Ret_inj in H. subst d'.
  eapply final_trans; [apply satisfied_final|]. eapply final_trans; [|apply final_core; etrans; [apply core_NotifyAll|apply core_NotifyAll]].
  destruct (List.filter _ (List.filter _ _)) as [|x l] eqn:El; [by apply final_core|]. rewrite <- El. unfold failQueued.
  eapply final_trans; [apply fail_queued_final|apply fail_dependents_final]. rewrite map_map, filter_twice. apply satisfied_rows_queued.
Qed.

Lemma resolve_final won lost now d d' : resolveOutcomeDependents hooked uuid_text won lost now d = Ret d' -> final d d'.
Proof.
  assert (He : forall ids d1, final d1 (fold_left (fun d id => fail_dependents hooked uuid_text [id] now d) ids d1)).
  { induction ids as [|i ids IH]; intros d1; cbn [fold_left]; [by apply final_core|]. eapply final_trans; [apply fail_dependents_final|apply IH]. }
  assert (Hm : match LockOutcomeDependents won lost d with
      | [] => Ret d
      | locked =>
          d <-! satisfy_dependents hooked uuid_text won now d;
          if existsb snd locked then Ret (fold_left (fun d id => fail_dependents hooked uuid_text [id] now d) lost d) else Ret d
      end = Ret d' -> final d d').
  { destruct (LockOutcomeDependents won lost d); [intros [= ->]; by apply final_core|]. intros H. apply go_bind_Ret in H as (d1 & E & H).
    apply satisfy_final in E. destruct (existsb _ _); apply Ret_inj in H; subst d'; [|done]. eapply final_trans; [exact E|apply He]. }
  unfold resolveOutcomeDependents. destruct lost as [|f lost]; [apply satisfy_final|]. destruct lost as [|f' lost]; [|exact Hm].
  destruct won as [|s won]; [|exact Hm]. intros H. apply Ret_inj in H. subst d'. apply fail_dependents_final.
Qed.

Lemma InsertTaskResults_final rs d d' : InsertTaskResults rs d = Some d' -> final d d'.
Proof.
  intros H. destruct (InsertTaskResults_tasks _ _ _ H) as [Et _]. apply final_rows; rewrite ?Et; [by intros id [t ->]|eauto|]. clear Et. intros id p. revert d H.
  induction rs as [|[i q] rs IH]; intros d; simpl; [by intros [= ->]|]. case_bool_decide as Hn; [done|]. intros H Hp. apply (IH _ H). simpl.
  rewrite lookup_insert_ne; [done|]. intros ->. apply Hn. eauto.
Qed.

(** The tasks of outcomes are running, each named once. *)
Lemma advance_final live now d d' : advanceTasks big hooked uuid_text live now d = Ret d' -> NoDup (map lo_id live) ->
  (forall l, l ∈ live -> live_ok d l) -> final d d'.
Proof.
  unfold advanceTasks. destruct live as [|l0 live0] eqn:El; [intros [= ->]; intros; by apply final_core|]. rewrite <- El. clear El l0 live0. intros H Hn Hl.
  apply go_bind_Ret in H as ([] & _ & H). destruct (decide_outcomes_total big d live Hl) as (ds & E & Hm & Hd). rewrite E in H. cbn [go_bind] in H.
  apply go_bind_Ret in H as (d1 & H1 & H). apply go_bind_Ret in H as (d2 & H2 & H). apply Ret_inj in H. subst d'.
  fold (won_ids ds) (lost_ids ds) in H2.
  assert (Hids : won_ids ds ++ back_ids ds ++ lost_ids ds ≡ₚ map lo_id live) by by rewrite decided_ids, <- Hm, map_map.
  assert (Hnd : NoDup (won_ids ds ++ back_ids ds ++ lost_ids ds)) by by rewrite Hids.
  apply NoDup_app in Hnd as (_ & Hd1 & Hn2). apply NoDup_app in Hn2 as (Hnb & Hd2 & Hnl).
  assert (Hopen : open_tasks d (won_ids ds ++ back_ids ds ++ lost_ids ds)).
  { intros id t Hin Ht. rewrite Hids in Hin. apply list_elem_of_In, in_map_iff in Hin as (l & <- & Hin). apply list_elem_of_In in Hin.
    destruct (Hl l Hin) as [(Ht' & Hs & _) _]. rewrite Ht in Ht'. injection Ht' as ->. by rewrite Hs. }
  assert (F1 : final d d1 /\ forall i, i ∉ won_ids ds -> xd_tasks d1 !! i = xd_tasks d !! i).
  { unfold succeed_all in H1. destruct (succeeds ds) as [|r rs] eqn:Es; [apply Ret_inj in H1; subst d1; split; [by apply final_core|done]|].
    rewrite <- Es in H1. destruct (InsertTaskResults _ d) as [d0|] eqn:E0; [|done]. apply Ret_inj in H1. subst d1.
    destruct (InsertTaskResults_tasks _ _ _ E0) as [Et _]. fold (won_ids ds). split.
    - eapply final_trans; [by apply InsertTaskResults_final in E0|]. eapply final_trans; [|apply final_core, core_callbacks].
      apply final_set_tasks; [done|]. intros id t Hin. rewrite Et. apply Hopen. set_solver.
    - intros i Hi. rewrite (core_tasks _ _ (core_callbacks _ _ _ _)). unfold SucceedTasks. by rewrite set_tasks_lookup, Et. }
  destruct F1 as [F1 L1]. set (d3 := requeue_all hooked (requeues ds) now d1) in *.
  assert (Hc3 : core d3 = core (fold_left (fun d v => set_task (requeued v.1.1.2 v.1.2 now) (lo_id v.1.1.1) d) (requeues ds) d1)) by apply requeue_all_core.
  assert (F3 : final d1 d3).
  { eapply final_trans; [|by apply final_core]. apply final_fold; [done|done|]. fold (back_ids ds). intros id t Hin. rewrite L1; [apply Hopen; set_solver|].
    intros Hw. apply (Hd1 _ Hw). set_solver. }
  assert (F4 : final d3 (fail_all hooked (fails ds) now d3)).
  { eapply final_trans; [|apply final_core, fail_all_core]. apply final_fold; [done|done|]. fold (lost_ids ds). intros id t Hin.
    rewrite (core_tasks _ _ Hc3), fold_tasks_lookup, L1; [apply Hopen; set_solver|intros Hw; apply (Hd1 _ Hw); set_solver|].
    fold (back_ids ds). intros Hb. by apply (Hd2 _ Hb). }
  apply (final_trans _ _ _ F1), (final_trans _ _ _ F3), (final_trans _ _ _ F4). eapply final_trans; [by apply resolve_final in H2|].
  apply final_core. by rewrite core_NotifyAll, core_finished, core_NotifyAll.
Qed.
End Final.

(** ** The attempts a transaction ends *)

(** The outcomes [finishAttempts] accepts, with the rows it locked. *)
Definition judged (host : option uuid) (d : db) (os : list (option ContainerID * AttemptOutcome)) :=
  zip_with (fun o (again : bool) => (o, if again then None else accepted host d o)) os (repeats [] os).
Definition taken (host : option uuid) (d : db) (os : list (option ContainerID * AttemptOutcome)) :
    list (AttemptOutcome * (TaskID * TaskRow * AttemptRow * ContainerRow)) :=
  omap (fun j => (fun a => (j.1.2, a)) <$> j.2) (judged host d os).
Definition ended (l : list (AttemptOutcome * (TaskID * TaskRow * AttemptRow * ContainerRow))) : list (AttemptID * AttemptState * bool) :=
  map (fun v => (ao_Attempt v.1, ao_State v.1, is_preempted v.1)) l.
Definition live_of (l : list (AttemptOutcome * (TaskID * TaskRow * AttemptRow * ContainerRow))) : list liveOutcome :=
  omap (fun '(o, (id, t, _, _)) => if current_of t o then Some (mkLive id t o) else None) l.

Lemma taken_from host d os seen v :
  v ∈ (omap (fun j => (fun a => (j.1.2, a)) <$> j.2)
        (zip_with (fun o (again : bool) => (o, if again then None else accepted host d o)) os (repeats seen os))) ->
  (ao_Attempt v.1 ∉ seen) /\ exists o, o ∈ os /\ o.2 = v.1 /\ accepted host d o = Some v.2.
Proof.
  revert seen. induction os as [|o os IH]; intros seen; simpl; [set_solver|]. case_bool_decide as Hs; simpl.
  - intros H. apply IH in H as (Hn & o' & Ho & E & Ha). split; [set_solver|]. exists o'. set_solver.
  - destruct (accepted host d o) as [a|] eqn:Ea; simpl.
    + intros [->|H]%elem_of_cons; [split; [done|]; exists o; set_solver|].
      apply IH in H as (Hn & o' & Ho & E & Ha'). split; [set_solver|]. exists o'. set_solver.
    + intros H. apply IH in H as (Hn & o' & Ho & E & Ha). split; [set_solver|]. exists o'. set_solver.
Qed.

Lemma taken_spec host d os v : v ∈ taken host d os -> exists o, o ∈ os /\ o.2 = v.1 /\ accepted host d o = Some v.2.
Proof. intros H. by apply taken_from in H as [_ H]. Qed.

Lemma taken_NoDup host d os : NoDup (map (fun v => ao_Attempt v.1) (taken host d os)).
Proof.
  unfold taken, judged. generalize (@nil AttemptID) as seen. induction os as [|o os IH]; intros seen; simpl; [constructor|].
  case_bool_decide as Hs; simpl; [apply IH|]. destruct (accepted host d o) as [a|]; simpl; [|apply IH].
  constructor; [|apply IH]. rewrite list_elem_of_In, in_map_iff. intros (v & E & Hv). apply list_elem_of_In, taken_from in Hv as [Hn _].
  apply Hn. rewrite E. set_solver.
Qed.

Lemma accepted_spec host d o id t r c : accepted host d o = Some (id, t, r, c) ->
  xd_attempts d !! ao_Attempt o.2 = Some r /\ ap_task r = id /\ xd_tasks d !! id = Some t /\ xd_containers d !! ap_container r = Some c /\
  ap_state r = AttemptRunning /\ fenced host o.1 r c = false.
Proof.
  unfold accepted, task_of, running_attempt. destruct (xd_attempts d !! _) as [r'|]; simpl; [|done].
  destruct (xd_tasks d !! _) as [t'|] eqn:Ht; simpl; [|done]. destruct (xd_containers d !! _) as [c'|] eqn:Hc; simpl; [|done].
  case_bool_decide as Hr; simpl; [|done]. destruct (fenced _ _ _ _) eqn:Hf; [done|]. by intros [= <- <- <- <-].
Qed.

Lemma forallb_false {A} (f : A -> bool) l : forallb f l = false -> exists x, In x l /\ f x = false.
Proof.
  induction l as [|x l IH]; simpl; [done|]. destruct (f x) eqn:E; simpl; [|eauto]. intros H. destruct (IH H) as (y & Hy & Ey). eauto.
Qed.

Section Finish.
Context (big : float64 -> Z) (hooked : uuid -> bool) (uuid_text : uuid -> string).
#[local] Abbreviation inv := (inv big).
#[local] Abbreviation ok := (ExecInv.inv big [] [] []).
#[local] Abbreviation finish := (finishAttempts big hooked uuid_text).

Lemma finishAttempts_unfold host os now d : finish host os now d =
  if negb (forallb (fun o => outcome_valid o.2) os) then Err ErrOutcome
  else
    d' <-! advanceTasks big hooked uuid_text (live_of (taken host d os)) now (SetAttemptStates (ended (taken host d os)) now d);
    Ret (if bool_decide (is_Some host) && existsb (fun '(_, (_, _, _, c)) => ct_state c == ContainerDraining) (taken host d os)
         then notify_host host d' else d', map (fun j => bool_decide (j.2 = None)) (judged host d os)).
Proof. done. Qed.

Lemma SetAttemptStates_cons v vs now d : SetAttemptStates (v :: vs) now d = SetAttemptStates vs now (set_attempt now v d).
Proof. done. Qed.

Lemma ended_inv vs L now d : inv L [] [] d -> NoDup (map (fun v => v.1.1) vs) ->
  (forall v, v ∈ vs -> v.1.2 <> AttemptRunning /\ exists r, xd_attempts d !! v.1.1 = Some r /\ ap_state r = AttemptRunning) ->
  inv (map (fun v => v.1.1) vs ++ L) [] [] (SetAttemptStates vs now d).
Proof.
  revert L d. induction vs as [|[[a st] p] vs IH]; intros L d Hi Hn Hv; [done|]. rewrite SetAttemptStates_cons.
  inversion Hn as [|? ? Hx Hl]; subst. destruct (Hv (a, st, p) ltac:(set_solver)) as (Hst & r & Hr & Hrun). simpl in *.
  eapply inv_pending; [apply (IH (a :: L))|set_solver]; [by apply set_attempt_inv with r|done|].
  intros v Hin. destruct (Hv v ltac:(set_solver)) as (Hst' & r' & Hr' & Hrun'). split; [done|]. exists r'. split; [|done]. simpl.
  rewrite lookup_alter_ne; [done|]. intros E. apply Hx. rewrite E. apply list_elem_of_In, (in_map (fun v => v.1.1)). by apply list_elem_of_In.
Qed.

Lemma ended_tasks vs now d : xd_tasks (SetAttemptStates vs now d) = xd_tasks d /\ xd_releases (SetAttemptStates vs now d) = xd_releases d /\
  xd_containers (SetAttemptStates vs now d) = xd_containers d /\ xd_deps (SetAttemptStates vs now d) = xd_deps d /\
  xd_results (SetAttemptStates vs now d) = xd_results d.
Proof. revert d. induction vs as [|[[a st] p] vs IH]; intros d; [done|]. rewrite SetAttemptStates_cons. destruct (IH (set_attempt now (a, st, p) d)) as (-> & -> & -> & -> & ->). done. Qed.

(** Every accepted outcome is its running task's current one. *)
Lemma taken_ok host d os v : ok d -> (forall o, o ∈ os -> outcome_valid o.2 = true /\ ao_State o.2 <> AttemptCancelled) ->
  v ∈ taken host d os -> let '(o, (id, t, r, c)) := v in
  xd_attempts d !! ao_Attempt o = Some r /\ ap_state r = AttemptRunning /\ current_of t o = true /\ live_ok d (mkLive id t o).
Proof.
  intros Hi Ho Hv. apply taken_spec in Hv as (o & Hin & Eo & Ha). destruct v as [o' [[[id t] r] c]]. simpl in *. subst o'.
  apply accepted_spec in Ha as (Hr & Hid & Ht & Hc & Hrun & _). destruct (i_att _ _ _ _ _ Hi _ _ Hr) as [(t' & Ht' & _ & Hcur) _ _ _].
  rewrite Hid, Ht in Ht'. injection Ht' as <-. destruct (Hcur Hrun) as [Hs Hc']. destruct (Ho o Hin) as [Hvalid Hnc].
  split; [done|split; [done|split; [|split; [split; done|done]]]]. unfold current_of. rewrite Hs, Hc'. by repeat case_bool_decide.
Qed.

Lemma live_of_all l : (forall v, v ∈ l -> current_of v.2.1.1.2 v.1 = true) ->
  live_of l = map (fun v => mkLive v.2.1.1.1 v.2.1.1.2 v.1) l.
Proof.
  induction l as [|[o [[[id t] r] c]] l IH]; intros H; simpl; [done|].
  pose proof (H (o, (id, t, r, c)) ltac:(set_solver)) as E. simpl in E. rewrite E. simpl. f_equal.
  apply IH. set_solver.
Qed.

Definition finish_ok (os : list (option ContainerID * AttemptOutcome)) : Prop := forall o, o ∈ os -> ao_State o.2 <> AttemptCancelled.

(** What [finishAttempts] does: refuse an outcome that lacks its parts or a
    spec that does not decode, or end the accepted attempts and nothing
    else. *)
Lemma finishAttempts_cases host os now d : ok d -> finish_ok os ->
  (finish host os now d = Err ErrOutcome /\ forallb (fun o => outcome_valid o.2) os = false) \/
  (finish host os now d = Err ErrDecode /\ exists l, l ∈ live_of (taken host d os) /\ needs_policy l = true /\ xd_tasks d !! lo_id l = Some (lo_task l) /\
     spec_of d (tk_release (lo_task l)) = None) \/
  (exists d', finish host os now d = Ret (d', map (fun j => bool_decide (j.2 = None)) (judged host d os)) /\ ok d' /\ final d d' /\
     rest d' = rest (SetAttemptStates (ended (taken host d os)) now d)).
Proof.
  intros Hi Hnc. rewrite finishAttempts_unfold. destruct (forallb _ os) eqn:Hv; [simpl negb; cbn match|by left].
  assert (Ho : forall o, o ∈ os -> outcome_valid o.2 = true /\ ao_State o.2 <> AttemptCancelled).
  { intros o Hin. split; [|by apply Hnc]. rewrite forallb_forall in Hv. apply Hv. by apply list_elem_of_In. }
  right. set (l := taken host d os). set (d1 := SetAttemptStates (ended l) now d).
  assert (Hl : forall v, v ∈ l -> let '(o, (id, t, r, c)) := v in
    xd_attempts d !! ao_Attempt o = Some r /\ ap_state r = AttemptRunning /\ current_of t o = true /\ live_ok d (mkLive id t o))
    by (intros v; by apply taken_ok).
  assert (Hlive : live_of l = map (fun v => mkLive v.2.1.1.1 v.2.1.1.2 v.1) l)
    by (apply live_of_all; intros [o [[[id t] r] c]] Hin; by apply Hl in Hin as (_ & _ & ? & _)).
  destruct (ended_tasks (ended l) now d) as (Et & Er & Ec & Ed & Eres). fold d1 in Et, Er, Ec, Ed, Eres.
  assert (Hok : forall x, x ∈ live_of l -> live_ok d1 x).
  { intros x. rewrite Hlive, list_elem_of_In, in_map_iff. intros ([o [[[id t] r] c]] & <- & Hin). apply list_elem_of_In, Hl in Hin as (_ & _ & _ & Hx).
    destruct Hx as [Hr Hx]. split; [|exact Hx]. unfold running_as. by rewrite Et. }
  assert (Hn : NoDup (map lo_id (live_of l))).
  { apply (NoDup_fmap_1 (cur d1)). change (fmap (cur d1)) with (map (cur d1)). rewrite (cur_live d1 _ Hok), Hlive, map_map. apply taken_NoDup. }
  assert (Hi1 : inv (map att_of (live_of l)) [] [] d1).
  { replace (map att_of (live_of l)) with (map (fun v => v.1.1) (ended l) ++ []).
    - apply ended_inv; [done|unfold ended; rewrite map_map; apply taken_NoDup|]. intros v Hv'. unfold ended in Hv'.
      apply list_elem_of_In, in_map_iff in Hv' as ([o [[[id t] r] c]] & <- & Hin). apply list_elem_of_In, Hl in Hin as (Hr & Hrun & _ & _ & Hval & _).
      simpl in *. split; [|eauto]. intros E. unfold outcome_valid in Hval. by rewrite E in Hval.
    - rewrite app_nil_r, Hlive. unfold ended. by rewrite !map_map. }
  destruct (retryPolicies (live_of l) d1) as [[]|e| |] eqn:Hp; [|left|unfold retryPolicies in Hp; by destruct (forallb _ (live_of l))..].
  - right. destruct (advanceTasks_inv big hooked uuid_text _ now d1 Hi1 Hn Hok Hp) as (d2 & E2 & Hi2). rewrite E2. cbn [go_bind].
    assert (Hf : final d d2) by (eapply final_trans; [apply final_refl; [exact Et|exact Eres]|by apply (advance_final big hooked uuid_text) in E2]).
    apply rest_advance in E2. eexists. split; [reflexivity|]. destruct (_ && _); [|done].
    rewrite rest_host. split; [eapply inv_core; [|exact Hi2]; by rewrite core_host|]. split; [|done].
    eapply final_trans; [exact Hf|]. apply final_core, core_host.
  - unfold retryPolicies in Hp. destruct (forallb _ (live_of l)) eqn:Hf in Hp; [done|]. injection Hp as <-. split.
    + unfold advanceTasks, retryPolicies. destruct (live_of l) as [|x xs]; [done|]. by rewrite Hf.
    + apply forallb_false in Hf as (x & Hx & Hf). exists x. split; [by apply list_elem_of_In|]. apply orb_false_iff in Hf as [Hneeds Hf].
      apply negb_false_iff in Hneeds. split; [done|]. split; [rewrite <- Et; by destruct (Hok x ltac:(by apply list_elem_of_In)) as [(? & _) _]|].
      rewrite Er in Hf. unfold spec_of. destruct (xd_releases d !! _) as [rel|]; [|done]. simpl. apply bool_decide_eq_false in Hf.
      by apply eq_None_not_Some.
Qed.

(** ** Changes outside tasks and attempts *)

(** Containers may change but not go, and releases keep their specs. *)
Record around (d d' : db) : Prop := {
  ar_tasks : xd_tasks d' = xd_tasks d;
  ar_attempts : xd_attempts d' = xd_attempts d;
  ar_results : xd_results d' = xd_results d;
  ar_deps : xd_deps d' = xd_deps d;
  ar_containers : forall c, is_Some (xd_containers d !! c) -> is_Some (xd_containers d' !! c);
  ar_specs : forall r, spec_of d' r = spec_of d r }.

Lemma around_inv L S F d d' : around d d' -> inv L S F d -> inv L S F d'.
Proof.
  intros [Et Ea Er Ed Ec Es] [R C A U D W P E K].
  assert (Hs : forall u, status_of d' u = status_of d u) by (intros u; unfold status_of; by rewrite Et).
  assert (Hw : forall T id, waiting T d' id = waiting T d id).
  { intros T id. unfold waiting, upstreams. rewrite Ed. f_equal. f_equal. apply List.filter_ext. intros u. unfold unsatisfied. by rewrite Hs. }
  constructor; rewrite ?Et, ?Ea, ?Ed; try assumption.
  - intros id t Ht. replace (limit_of big d' t) with (limit_of big d t); [by apply R in Ht|]. unfold limit_of, policy_of. by rewrite Es.
  - intros a r Hr. destruct (A a r Hr) as [Ht Hc He Hp]. constructor; rewrite ?Et; auto.
  - intros id t Ht. destruct (D id t Ht) as [Dq Dr]. constructor; unfold upstreams; rewrite Ed; unfold dead; setoid_rewrite Hs.
    + rewrite Hw. exact Dq.
    + exact Dr.
  - intros u. rewrite Hs. apply W.
  - intros id. rewrite Er, Hs. apply P.
Qed.

Lemma around_trans d1 d2 d3 : around d1 d2 -> around d2 d3 -> around d1 d3.
Proof.
  intros [T1 A1 R1 D1 C1 S1] [T2 A2 R2 D2 C2 S2]. constructor; [congruence..|by auto|]. intros r. by rewrite S2.
Qed.

Lemma around_core d d' : core d = core d' -> around d d'.
Proof. destruct d, d'. unfold core. simpl. intros [= -> -> -> -> -> ->]. by constructor. Qed.

Lemma around_container f id d : around d (set_container f id d).
Proof.
  constructor; try done. intros c. unfold set_container. simpl. destruct (decide (c = id)) as [->|]; [|by rewrite lookup_alter_ne].
  rewrite lookup_alter_eq. intros [x ->]. simpl. eauto.
Qed.

Lemma around_containers g f d : around d (set_containers g f d).
Proof. constructor; try done. intros c [x Hx]. unfold set_containers. simpl. rewrite map_lookup_imap, Hx. simpl. eauto. Qed.

Lemma around_release f id d : (forall r, rl_spec (f r) = rl_spec r) -> around d (set_release f id d).
Proof.
  intros Hf. constructor; try done. intros r. unfold spec_of, set_release. simpl. destruct (decide (r = id)) as [->|]; [|by rewrite lookup_alter_ne].
  rewrite lookup_alter_eq. destruct (_ !! id); simpl; [apply Hf|done].
Qed.

(** ** Cancelling *)

Lemma cancelled_row m t now : row_ok m t -> Terminal (tk_status t) = false -> row_ok m (finish_task TaskCancelled now t).
Proof.
  intros [Rc Rp Rm Rl Rq Rr Rfin Rfail] Hs. destruct (Rl Hs) as [Hm Hp].
  constructor; simpl; try done; try lia. rewrite Rfail. split; [|done]. intros E. by rewrite E in Hs.
Qed.

(** The attempt of a cancelled task is cancelled with it. *)
Lemma cancel_attempt a r now d : xd_attempts d !! a = Some r -> ap_state r = AttemptRunning ->
  (exists t c, xd_tasks d !! ap_task r = Some t /\ tk_status t <> TaskRunning /\ xd_containers d !! ap_container r = Some c) ->
  finish None (unfenced [mkOutcome a AttemptCancelled None None]) now d =
    Ret (set_attempt now (a, AttemptCancelled, false) d, [false]).
Proof.
  intros Hr Hrun (t & c & Ht & Hs & Hc). rewrite finishAttempts_unfold. simpl forallb. cbn match.
  assert (Ha : accepted None d (None, mkOutcome a AttemptCancelled None None) = Some (ap_task r, t, r, c)).
  { unfold accepted, task_of, running_attempt. simpl. rewrite Hr. simpl. rewrite Ht, Hc. simpl. by rewrite bool_decide_true. }
  unfold taken, judged, unfenced. cbn [map zip_with repeats]. rewrite Ha. simpl. unfold current_of. simpl.
  rewrite (bool_decide_false (tk_status t = TaskRunning)) by done. done.
Qed.

Lemma move_to_end L L' F d id t t' : inv L [] F d -> xd_tasks d !! id = Some t -> moved L L' [] (id :: F) id t t' -> keeps_row t t' ->
  row_ok (limit_of big d t) t' -> tk_status t' <> TaskSucceeded -> inv L' [] (id :: F) (put id t' d).
Proof. intros. apply (move_inv big L L' [] [] F (id :: F) d id t); try done; [|set_solver]. intros u. set_solver. Qed.

Lemma cancel_inv id t now d : ok d -> xd_tasks d !! id = Some t -> Terminal (tk_status t) = false ->
  exists d1, (match tk_status t, tk_current t with
    | TaskRunning, Some a =>
        r <-! finish None (unfenced [mkOutcome a AttemptCancelled None None]) now
                (recordCallbacks hooked CallbackCancelled (plain [id]) (CancelTask id now d));
        match xd_attempts r.1 !! a ≫= (fun r0 => xd_containers r.1 !! ap_container r0) with
        | None => Err ErrDatabase
        | Some c => Ret (notify_host (ct_host c) r.1)
        end
    | _, _ => Ret (recordCallbacks hooked CallbackCancelled (plain [id]) (CancelTask id now d))
    end) = Ret d1 /\ inv [] [] [id] d1 /\ final d d1.
Proof.
  intros Hi Ht Hl. set (t' := finish_task TaskCancelled now t).
  assert (Hrow : row_ok (limit_of big d t) t') by (apply cancelled_row; [by apply (i_rows _ _ _ _ _ Hi id)|done]).
  set (d0 := recordCallbacks _ _ _ _).
  assert (Hc0 : core d0 = core (put id t' d)) by (unfold d0; rewrite core_callbacks; unfold CancelTask; by rewrite (set_task_put _ _ _ t)).
  assert (Hfin : forall Q, final d (put id t' (d <| xd_attempts := Q |>))).
  { intros Q. eapply (final_trans _ (d <| xd_attempts := Q |>)); [by apply final_refl|]. unfold t'. rewrite <- (set_task_put (finish_task TaskCancelled now)) by done.
    apply final_set_task; [done|]. intros i x Hx%list_elem_of_singleton. subst i. simpl. rewrite Ht. by intros [= <-]. }
  destruct (tk_status t) eqn:Hs; try done.
  - exists d0. split; [by destruct (tk_current t)|]. split; [eapply inv_core; [symmetry; exact Hc0|]; apply (move_to_end [] [] [] d id t); try done; apply moved_end; [done|by right|set_solver|done]|].
    eapply final_trans; [apply (Hfin (xd_attempts d))|]. apply final_core. rewrite Hc0. by destruct d.
  - destruct (ro_running _ _ (i_rows _ _ _ _ _ Hi id t Ht) Hs) as [a Ha]. rewrite Ha.
    destruct (i_cur _ _ _ _ _ Hi id t a Ht Hs Ha) as (r & Hr & Hid & [Hrun|]); [|set_solver].
    destruct (ao_container _ _ _ _ (i_att _ _ _ _ _ Hi a r Hr)) as [c Hc].
    rewrite (cancel_attempt a r).
    + cbn [go_bind fst]. set (d1 := set_attempt now _ d0).
      assert (Hc1 : core d1 = core (put id t' (set_attempt now (a, AttemptCancelled, false) d))).
      { unfold d1, set_attempt, core, put in *. simpl in *. congruence. }
      rewrite (core_attempts _ _ Hc1), (core_containers _ _ Hc1). unfold set_attempt at 1 2, put. simpl. rewrite lookup_alter_eq, Hr. simpl.
      rewrite Hc. eexists. split; [done|]. split.
      * eapply inv_core; [symmetry; rewrite core_host; exact Hc1|].
        apply (move_to_end [a] [] [] _ id t); try done; [by apply set_attempt_inv with r|].
        apply moved_lose with a; [done..|by right|set_solver].
      * eapply final_trans; [apply Hfin|]. apply final_core. rewrite core_host, Hc1. done.
    + by rewrite (core_attempts _ _ Hc0).
    + done.
    + exists t', c. rewrite (core_tasks _ _ Hc0), (core_containers _ _ Hc0), Hid. unfold put. simpl. by rewrite lookup_insert_eq.
Qed.

Lemma cancelTask_ok w id now d : ok d -> match cancelTask big hooked uuid_text w id now d with
  | Ret (d', b) => ok d' /\ final d d' | Err e => e = ErrNotFound | Panic | Spins => False end.
Proof.
  intros Hi. unfold cancelTask. destruct (xd_tasks d !! id) as [t|] eqn:Ht; [|done]. destruct (match w with Some _ => _ | None => _ end); [done|].
  destruct (Terminal (tk_status t)) eqn:Hl; [split; [done|by apply final_core]|].
  destruct (cancel_inv id t now d Hi Ht Hl) as (d1 & -> & Hi1 & Hf1). cbn [go_bind]. split.
  - eapply inv_core; [symmetry; by autorewrite with exec_core|]. eapply fail_dependents_inv; [exact Hi1|]. set_solver.
  - eapply final_trans; [exact Hf1|]. eapply final_trans; [apply fail_dependents_final|]. apply final_core.
    etrans; [apply core_Notify|]. etrans; [apply core_finished|]. apply core_Notify.
Qed.
End Finish.
