(* ===== verification/ExecClaims.v ===== *)
(** Containers and the attempts on them (src/internal/execution: containers.go,
    reports.go, recovery.go, hosts.go, container_views.go and unfunded.go): a
    running attempt is on a container that serves, and no container runs more
    attempts than it has slots.  Claims (claims.go) keep that: only due tasks
    whose upstreams all succeeded start, each with a new attempt. *)

From S2P Require Import Prelude Float64 Capacity Catalog GoLib Billing Policy Placement Exec Attempts Claims Submit ExecInv ExecSteps ExecAdvance ExecFinish.

(** ** Outcomes of an operation that may fail *)

(** It returns with [P], or fails; it neither panics nor spins. *)
Definition goes {A} (P : A -> Prop) (r : go exec_error A) : Prop :=
  match r with Ret a => P a | Err _ => True | Panic | Spins => False end.

Lemma goes_bind {A B} (P : A -> Prop) (Q : B -> Prop) r f : goes P r -> (forall a, P a -> goes Q (f a)) -> goes Q (go_bind r f).
Proof. destruct r; simpl; auto. Qed.

Lemma goes_fold {A B} (P : A -> Prop) (f : A -> B -> go exec_error A) l a :
  (forall a x, P a -> goes P (f a x)) -> P a -> goes P (go_fold f l a).
Proof. intros Hf. revert a. induction l as [|x l IH]; intros a Ha; simpl; [done|]. eapply goes_bind; [by apply Hf|]. auto. Qed.

Lemma goes_mono {A} (P Q : A -> Prop) r : goes P r -> (forall a, P a -> Q a) -> goes Q r.
Proof. destruct r; simpl; auto. Qed.

(** ** Where attempts run *)

Definition serving_state (s : ContainerState) : bool := (s == ContainerReady) || (s == ContainerDraining).

(** Running attempts are on containers that serve, those of [X] aside. *)
Definition placed (X : list ContainerID) (d : db) : Prop := forall a r c, xd_attempts d !! a = Some r -> ap_state r = AttemptRunning ->
  xd_containers d !! ap_container r = Some c -> serving_state (ct_state c) = true \/ ap_container r ∈ X.

Definition running_on (c : ContainerID) (d : db) : Z := Z.of_nat (length (RunningAttemptsOnContainer c d)).

Definition slots_ok (d : db) : Prop := forall c row, xd_containers d !! c = Some row -> running_on c d <= Z.max 0 (ct_slots row).

Lemma RunningAttempts_spec c d a : a ∈ RunningAttemptsOnContainer c d <->
  exists r, xd_attempts d !! a = Some r /\ ap_container r = c /\ ap_state r = AttemptRunning.
Proof.
  unfold RunningAttemptsOnContainer. rewrite list_elem_of_In, in_map_iff. split.
  - intros ([a' r] & <- & H). apply filter_In in H as [H E]. apply sort_by_In, list_elem_of_In, elem_of_map_to_list in H. simpl in *.
    apply andb_true_iff in E as [E1 E2]. apply Z.eqb_eq in E1. apply bool_decide_eq_true in E2. eauto.
  - intros (r & Hr & Hc & Hs). exists (a, r). split; [done|]. apply filter_In. split.
    + by apply sort_by_In, list_elem_of_In, elem_of_map_to_list.
    + simpl. rewrite Hc, Hs, Z.eqb_refl. done.
Qed.

Lemma map_filter_NoDup {A B} (f : A -> B) (g : A -> bool) l : NoDup (map f l) -> NoDup (map f (List.filter g l)).
Proof.
  induction l as [|x l IH]; simpl; intros Hn; [constructor|]. inversion Hn as [|? ? Hx Hl]; subst. destruct (g x); simpl; [|by apply IH].
  constructor; [|by apply IH]. intros Hin. apply Hx. apply list_elem_of_In, in_map_iff in Hin as (y & <- & Hy). apply filter_In in Hy as [Hy _].
  apply list_elem_of_In. by apply in_map.
Qed.

Lemma RunningAttempts_NoDup c d : NoDup (RunningAttemptsOnContainer c d).
Proof.
  unfold RunningAttemptsOnContainer. apply map_filter_NoDup. rewrite sort_by_perm. change (map fst) with (fmap (M := list) (A := AttemptID * AttemptRow) fst).
  apply NoDup_fst_map_to_list.
Qed.

(** Attempts that run after also ran before. *)
Definition shrinks (d d' : db) : Prop := forall a r, xd_attempts d' !! a = Some r -> ap_state r = AttemptRunning -> xd_attempts d !! a = Some r.

Lemma shrinks_running d d' c : shrinks d d' -> running_on c d' <= running_on c d.
Proof.
  intros H. unfold running_on. apply inj_le, submseteq_length, NoDup_submseteq; [apply RunningAttempts_NoDup|]. intros a.
  rewrite !RunningAttempts_spec. intros (r & Hr & Hc & Hs). exists r. split; [by apply H|done].
Qed.

Lemma shrinks_refl d d' : xd_attempts d' = xd_attempts d -> shrinks d d'.
Proof. intros E a r. by rewrite E. Qed.

Lemma shrinks_trans d1 d2 d3 : shrinks d1 d2 -> shrinks d2 d3 -> shrinks d1 d3.
Proof. intros H1 H2 a r Hr Hs. apply H1; [by apply H2|done]. Qed.

(** Containers that serve keep serving, those of [X] aside. *)
Definition remains (X : list ContainerID) (d d' : db) : Prop := forall c row', xd_containers d' !! c = Some row' ->
  exists row, xd_containers d !! c = Some row /\ ct_slots row' = ct_slots row /\
  (serving_state (ct_state row) = true -> serving_state (ct_state row') = true \/ c ∈ X).

Lemma placed_shrinks X Y d d' : shrinks d d' -> remains Y d d' -> placed X d -> placed (X ++ Y) d'.
Proof.
  intros Hs Hc Hp a r c' Hr Hrun Hc'. destruct (Hc _ _ Hc') as (c & Hcd & _ & Hsv).
  destruct (Hp a r c) as [Hv|Hx]; [by apply Hs|done|done| |right; set_solver]. destruct (Hsv Hv); [by left|right; set_solver].
Qed.

Lemma slots_shrinks X d d' : shrinks d d' -> remains X d d' -> slots_ok d -> slots_ok d'.
Proof.
  intros Hs Hc Hl c row' Hr. destruct (Hc _ _ Hr) as (row & Hrow & -> & _). specialize (Hl c row Hrow).
  pose proof (shrinks_running d d' c Hs). lia.
Qed.

Lemma stays_refl X d d' : xd_containers d' = xd_containers d -> remains X d d'.
Proof. intros E c row. rewrite E. eauto 6. Qed.

Lemma SetAttemptStates_running vs now d a r : (forall v, v ∈ vs -> v.1.2 <> AttemptRunning) ->
  xd_attempts (SetAttemptStates vs now d) !! a = Some r -> ap_state r = AttemptRunning ->
  (a ∉ map (fun v => v.1.1) vs) /\ xd_attempts d !! a = Some r.
Proof.
  revert d. induction vs as [|[[b st] p] vs IH]; intros d Hv Hr Hs; [split; [set_solver|done]|].
  rewrite SetAttemptStates_cons in Hr. apply IH in Hr as [Hn Hr]; [|set_solver|done]. simpl in *.
  destruct (decide (a = b)) as [->|Hne].
  - rewrite lookup_alter_eq in Hr. destruct (xd_attempts d !! b); [|done]. injection Hr as <-. simpl in Hs.
    destruct (Hv (b, st, p) ltac:(set_solver)). done.
  - rewrite lookup_alter_ne in Hr by done. split; [set_solver|done].
Qed.

Section Places.
(** [d0] is where the transaction began. *)
Context (big : float64 -> Z) (d0 : db).
#[local] Abbreviation inv := (inv big).
#[local] Abbreviation ok := (ExecInv.inv big [] [] []).

(** The specs of releases allow an attempt, which the API's schema asks for. *)
Definition specs_ok (d : db) : Prop := forall r s, spec_of d r = Some s -> 1 <= rp_MaxAttempts (RetryPolicyOf big s).

Record sound (X : list ContainerID) (d : db) : Prop := {
  so_inv : ok d;
  so_placed : placed X d;
  so_slots : slots_ok d;
  so_specs : specs_ok d;
  so_final : final d0 d }.

(** What ends attempts and tasks keeps. *)
Record ends_only (d d' : db) : Prop := {
  eo_containers : xd_containers d' = xd_containers d;
  eo_releases : xd_releases d' = xd_releases d;
  eo_shrinks : shrinks d d' }.

Lemma sound_ends X d d' : sound X d -> ok d' -> final d d' -> ends_only d d' -> sound X d'.
Proof.
  intros [Hi Hp Hs Hsp Hfi] Hi' Hf' [Hc Hr Hsh]. constructor; [done| | | |by apply (final_trans _ d)].
  - rewrite <- (app_nil_r X). by apply (placed_shrinks X [] d d'); [|apply stays_refl|].
  - by apply (slots_shrinks [] d d'); [|apply stays_refl|].
  - intros r s. unfold spec_of. rewrite Hr. apply Hsp.
Qed.

Lemma taken_states host os d v : forallb (fun o => outcome_valid o.2) os = true -> v ∈ ended (taken host d os) -> v.1.2 <> AttemptRunning.
Proof.
  intros Hv Hin. apply list_elem_of_In, in_map_iff in Hin as (x & <- & Hx). apply list_elem_of_In, taken_spec in Hx as (o & Ho & E & _).
  rewrite forallb_forall in Hv. specialize (Hv o). rewrite <- list_elem_of_In in Hv. specialize (Hv Ho). simpl. rewrite <- E.
  intros E'. unfold outcome_valid in Hv. by rewrite E' in Hv.
Qed.

(** ** Containers change *)

Lemma placed_more X Y d : placed X d -> X ⊆ Y -> placed Y d.
Proof. intros Hp HX a r c Hr Hrun Hc. destruct (Hp a r c Hr Hrun Hc); [by left|right; by apply HX]. Qed.

(** Changes around tasks and attempts that leave [Y] pending. *)
Lemma sound_around X Y d d' : around d d' -> remains Y d d' -> sound X d -> sound (X ++ Y) d'.
Proof.
  intros Ha Hc [Hi Hp Hs Hsp Hfi]. pose proof (shrinks_refl d d' (ar_attempts _ _ Ha)). constructor.
  - by apply (around_inv big [] [] [] d).
  - by apply (placed_shrinks X Y d).
  - by apply (slots_shrinks Y d).
  - intros r s. rewrite (ar_specs _ _ Ha). apply Hsp.
  - apply (final_trans _ d); [done|]. apply final_refl; [apply Ha|apply Ha].
Qed.

Lemma sound_same X d d' : around d d' -> xd_containers d' = xd_containers d -> sound X d -> sound X d'.
Proof. intros Ha Hc Hs. rewrite <- (app_nil_r X). apply (sound_around X [] d); [done|by apply stays_refl|done]. Qed.

Lemma sound_core X d d' : core d' = core d -> sound X d -> sound X d'.
Proof. intros Hc. apply sound_same; [by apply around_core|by apply core_containers]. Qed.

Lemma stays_container X f id d : (forall row, ct_slots (f row) = ct_slots row) ->
  (id ∈ X \/ forall row, serving_state (ct_state row) = true -> serving_state (ct_state (f row)) = true) -> remains X d (set_container f id d).
Proof.
  intros Hslots Hf c row'. unfold set_container. simpl. destruct (decide (c = id)) as [->|Hne].
  - rewrite lookup_alter_eq. destruct (_ !! id) as [row|]; [|done]. intros [= <-]. exists row. split; [done|]. split; [apply Hslots|]. naive_solver.
  - rewrite lookup_alter_ne by done. eauto 6.
Qed.

Lemma sound_touch X f id d : (forall row, ct_slots (f row) = ct_slots row) ->
  (forall row, serving_state (ct_state row) = true -> serving_state (ct_state (f row)) = true) -> sound X d -> sound X (set_container f id d).
Proof.
  intros Hs Hf H. rewrite <- (app_nil_r X). apply (sound_around X [] d); [apply around_container|apply stays_container; auto|done].
Qed.

Lemma sound_stop X id reason m code now d : sound X d -> sound (id :: X) (StopContainerRow id reason m code now d).
Proof.
  intros Hs. destruct (sound_around X [id] d (StopContainerRow id reason m code now d)) as [Hi Hp Hl Hsp Hfi];
    [apply around_container|apply stays_container; [done|left; set_solver]|done|].
  constructor; [done| |done|done|done]. eapply placed_more; [exact Hp|set_solver].
Qed.

(** ** Attempts end *)

Context (hooked : uuid -> bool) (uuid_text : uuid -> string).
#[local] Abbreviation finish := (finishAttempts big hooked uuid_text).

Lemma finish_sound X host os now d : sound X d -> finish_ok os ->
  goes (fun r => sound X r.1 /\ ends_only d r.1 /\
    (forall a, a ∈ map (fun v => ao_Attempt v.1) (taken host d os) -> forall x, xd_attempts r.1 !! a = Some x -> ap_state x <> AttemptRunning) /\
    r.2 = map (fun j => bool_decide (j.2 = None)) (judged host d os)) (finish host os now d).
Proof.
  intros Hs Hf. destruct (forallb (fun o => outcome_valid o.2) os) eqn:Hv;
    [|rewrite finishAttempts_unfold, Hv; done].
  destruct (finishAttempts_cases big hooked uuid_text host os now d (so_inv _ _ Hs) Hf) as [[-> _]|[[-> _]|(d' & -> & Hi & Hfin & Hr)]]; [done..|].
  simpl. destruct (ended_tasks (ended (taken host d os)) now d) as (_ & Er & Ec & _ & _). apply rest_parts in Hr as (Ea & Ec' & _ & Er').
  assert (He : ends_only d d').
  { constructor; [congruence..|]. intros a x Hx Hrun. rewrite Ea in Hx.
    apply SetAttemptStates_running in Hx as [_ Hx]; [done| |done]. intros v. by apply taken_states. }
  split; [by apply (sound_ends X d)|]. split; [done|]. split; [|done].
  intros a Hin x Hx Hrun. rewrite Ea in Hx. apply SetAttemptStates_running in Hx as [Hn _]; [|intros v; by apply taken_states|done].
  apply Hn. unfold ended. by rewrite map_map.
Qed.

Lemma lost_finish_ok f ids : finish_ok (unfenced (lost_outcomes f ids)).
Proof. intros o Ho. unfold unfenced, lost_outcomes in Ho. rewrite map_map in Ho. apply list_elem_of_In, in_map_iff in Ho as (a & <- & _). done. Qed.

Lemma unfenced_accepted a r d o : ok d -> xd_attempts d !! a = Some r -> ap_state r = AttemptRunning -> ao_Attempt o = a ->
  exists x, accepted None d (None, o) = Some x.
Proof.
  intros Hi Hr Hrun <-. destruct (i_att _ _ _ _ _ Hi _ _ Hr) as [(t & Ht & _) [c Hc] _ _].
  unfold accepted, task_of, running_attempt. simpl. rewrite Hr. simpl. rewrite Ht, Hc. simpl. rewrite bool_decide_true by done. simpl. eauto.
Qed.

(** Running attempts, each named once, are all ended. *)
Lemma judged_running (mk : AttemptID -> AttemptOutcome) ids d : ok d -> (forall a, ao_Attempt (mk a) = a) -> NoDup ids ->
  (forall a, a ∈ ids -> exists r, xd_attempts d !! a = Some r /\ ap_state r = AttemptRunning) ->
  map (fun v => ao_Attempt v.1) (taken None d (unfenced (map mk ids))) = ids /\
  existsb id (map (fun j => bool_decide (j.2 = None)) (judged None d (unfenced (map mk ids)))) = false.
Proof.
  intros Hi Hmk Hn Hr. unfold taken, judged, unfenced.
  assert (Hseen : forall a, a ∈ ids -> a ∉ @nil AttemptID) by set_solver. revert Hseen. generalize (@nil AttemptID) as seen.
  induction ids as [|a ids IH]; intros seen Hseen; simpl; [done|]. inversion Hn as [|? ? Hx Hl]; subst.
  destruct (Hr a ltac:(set_solver)) as (r & Ha & Hrun). rewrite Hmk, bool_decide_false by (apply Hseen; set_solver).
  destruct (unfenced_accepted a r d (mk a) Hi Ha Hrun (Hmk a)) as [x ->]. simpl. rewrite Hmk.
  destruct (IH Hl ltac:(set_solver) (a :: seen)) as [H1 H2]; [set_solver|]. split; [f_equal; exact H1|exact H2].
Qed.

(** Everything a container still runs ends. *)
Lemma finish_container X f c now d : sound (c :: X) d ->
  goes (fun r => sound X r.1 /\ ends_only d r.1 /\ existsb id r.2 = false)
    (finish None (unfenced (lost_outcomes f (RunningAttemptsOnContainer c d))) now d).
Proof.
  intros Hs. unfold lost_outcomes.
  destruct (judged_running (fun a => mkOutcome a AttemptLost None (Some f)) (RunningAttemptsOnContainer c d) d) as [Ht Hj];
    [apply Hs|done|apply RunningAttempts_NoDup|intros a Ha; apply RunningAttempts_spec in Ha as (r & Hr & _ & Hrun); eauto|].
  eapply goes_mono; [apply (finish_sound (c :: X)); [done|apply lost_finish_ok]|].
  intros [d' st] ([Hi Hp Hl Hsp Hfi] & He & Hend & Hst). simpl in *. rewrite Hst. split; [|split; [done|exact Hj]].
  constructor; [done| |done|done|done]. intros a r row Hr Hrun Hrow. destruct (Hp a r row Hr Hrun Hrow) as [|Hx]; [by left|].
  apply elem_of_cons in Hx as [Hx|]; [|by right]. exfalso. apply (Hend a) in Hr; [done|]. unfold unfenced in Ht. unfold unfenced. rewrite Ht.
  apply RunningAttempts_spec. exists r. split; [by apply (eo_shrinks _ _ He)|done].
Qed.

(** ** Releases whose queued tasks fail *)

Lemma queued_with_spec arrange (release : ReleaseID) limit d : (forall l, arrange l ≡ₚ l) ->
  all_queued d (LockQueuedWithDependents arrange release limit d).
Proof.
  intros Hp. unfold LockQueuedWithDependents. set (g := fun r : TaskID * TaskRow => _). set (l := map fst _).
  assert (Hn : NoDup (arrange l)) by (rewrite Hp; apply map_filter_NoDup, NoDup_fst_map_to_list).
  split.
  - rewrite sort_by_perm. eapply sublist_NoDup; [exact Hn|apply sublist_take].
  - intros id Hin. apply list_elem_of_In, sort_by_In, list_elem_of_In in Hin. apply (sublist_subseteq _ _ (sublist_take _ _)) in Hin.
    rewrite Hp in Hin. apply list_elem_of_In, in_map_iff in Hin as ([i t] & <- & Hin). apply filter_In in Hin as [Hin Hg].
    apply list_elem_of_In, elem_of_map_to_list in Hin. unfold status_of. simpl in *. rewrite Hin. simpl. unfold g in Hg. simpl in Hg.
    apply andb_true_iff in Hg as [_ Hg]. apply bool_decide_eq_true in Hg. by rewrite Hg.
Qed.

Lemma fail_release_ok release f now d : ok d -> ok (fail_release hooked uuid_text release f now d) /\
  rest (fail_release hooked uuid_text release f now d) = rest d /\ final d (fail_release hooked uuid_text release f now d).
Proof.
  intros Hi. unfold fail_release, FailQueuedTasksOfRelease.
  set (queued := LockQueuedWithDependents _ _ _ _). set (failed := List.filter _ queued). set (d1 := set_tasks _ _ _).
  pose proof (queued_with_spec Datatypes.id release 2147483647 d ltac:(done)) as Hq. fold queued in Hq.
  assert (Hi1 : inv [] [] (queued ++ []) d1) by (apply end_queued_inv; [apply ends_failed|done|done]).
  split; [|split; [by autorewrite with exec_rest|]].
  2: { apply (final_trans _ d1); [apply final_set_tasks; [done|by apply queued_open]|].
    eapply final_trans; [|apply fail_dependents_final]. apply final_core. etrans; [apply core_finished|]. etrans; [apply core_NotifyAll|]. apply core_callbacks. }
  eapply fail_dependents_inv; [eapply inv_core; [symmetry; by autorewrite with exec_core|exact Hi1]|].
  intros u. rewrite app_nil_r. intros Hu. left. apply list_elem_of_In, filter_In. split; [by apply list_elem_of_In|].
  apply bool_decide_eq_true. destruct Hq as [_ Hq]. specialize (Hq u Hu). unfold status_of in Hq. destruct (xd_tasks d !! u); [eauto|done].
Qed.

Lemma release_exit_around release id state e d :
  goes (fun x => around d x.1 /\ xd_containers x.1 = xd_containers d) (release_exit release id state e d).
Proof.
  unfold release_exit. destruct (stop_reason _ _); try by split; [apply around_core|].
  - destruct (record_load_error _ _ _) as [d1 first] eqn:E. unfold record_load_error in E. injection E as <- _. simpl.
    split; [|by destruct first]. eapply around_trans; [apply around_release|apply around_core; by destruct first]. done.
  - case_bool_decide; [by split; [apply around_core|]|]. unfold CountStartFailure. destruct (_ !! release) as [r|]; [|done]. simpl.
    split; [|by destruct (_ =? _)]. eapply around_trans; [apply around_release|apply around_core; by destruct (_ =? _)]. done.
Qed.

Lemma containerExited_settles X id e now d : sound X d ->
  goes (fun d' => sound X d' /\ forall row, xd_containers d !! id = Some row -> exists row', xd_containers d' !! id = Some row' /\ ct_state row' = ContainerStopped)
    (containerExited big hooked uuid_text id e now d).
Proof.
  intros Hs. unfold containerExited. destruct (xd_containers d !! id) as [row|] eqn:Hrow; [|done].
  case_bool_decide; [split; [done|]; intros x [= <-]; eauto|]. set (ds := StopContainerRow _ _ _ _ _ _).
  assert (Hstop : exists row', xd_containers ds !! id = Some row' /\ ct_state row' = ContainerStopped).
  { unfold ds, StopContainerRow, set_container. simpl. rewrite lookup_alter_eq, Hrow. simpl. eauto. }
  eapply goes_bind; [apply (finish_container X); by apply sound_stop|]. intros [d1 st] (Hs1 & He1 & Hst). cbn [fst snd] in *.
  unfold Datatypes.id in *. rewrite Hst. destruct (ct_release row) as [release|].
  - eapply goes_bind; [apply release_exit_around|]. intros [d2 f] [Ha Hc]. cbn [fst snd] in *.
    assert (Hs2 : sound X d2) by by apply (sound_same X d1).
    set (d3 := match f with Some f => _ | None => d2 end).
    assert (H3 : sound X d3 /\ xd_containers d3 = xd_containers d2).
    { unfold d3. destruct f as [f|]; [|done]. destruct (fail_release_ok release f now d2 (so_inv _ _ Hs2)) as (Hi3 & Hr3 & Hf3).
      apply rest_parts in Hr3 as (Ea & Ec3 & _ & Er). split; [|done].
      apply (sound_ends X d2); [done|done|done|]. constructor; [done|done|by apply shrinks_refl]. }
    destruct H3 as [Hs3 Hc3]. split; [apply (sound_core X d3); [apply core_stopped|done]|].
    intros _ _. rewrite (core_containers _ _ (core_stopped _ _ _ _)), Hc3, Hc, (eo_containers _ _ He1). exact Hstop.
  - split; [apply (sound_core X d1); [apply core_stopped|done]|]. intros _ _. rewrite (core_containers _ _ (core_stopped _ _ _ _)), (eo_containers _ _ He1). exact Hstop.
Qed.

Lemma containerExited_sound X id e now d : sound X d -> goes (sound X) (containerExited big hooked uuid_text id e now d).
Proof. intros Hs. eapply goes_mono; [by apply containerExited_settles|]. by intros d' [H _]. Qed.
End Places.

Section ClaimInv.
Context (big : float64 -> Z) (d0 : db).
#[local] Abbreviation ok := (ExecInv.inv big [] [] []).
#[local] Abbreviation sound := (ExecClaims.sound big d0).

(** The ids of new attempts. *)
Definition fresh_ok (fresh : TaskID -> AttemptID) (d : db) : Prop :=
  (forall id, xd_attempts d !! fresh id = None) /\ forall i j, fresh i = fresh j -> i = j.

(** A queued task that waits on nothing. *)
Definition may_claim (d : db) (r : TaskID * TaskRow) : Prop :=
  xd_tasks d !! r.1 = Some r.2 /\ tk_status r.2 = TaskQueued /\ tk_unmet r.2 = 0.

(** A task waits on nothing when every upstream succeeded. *)
Lemma waiting_zero S F L d id t : ExecInv.inv big L S F d -> xd_tasks d !! id = Some t -> tk_status t = TaskQueued -> tk_unmet t = 0 ->
  forall u, u ∈ upstreams d id -> status_of d u = Some TaskSucceeded /\ u ∉ S.
Proof.
  intros Hi Ht Hq Hz u Hu. destruct (i_dep _ _ _ _ _ Hi id t Ht) as [Dq _]. destruct (Dq Hq) as [Hw _]. rewrite Hz in Hw.
  unfold waiting in Hw. assert (E : List.filter (unsatisfied S d) (upstreams d id) = []) by (destruct (List.filter _ _); [done|simpl in Hw; lia]).
  assert (Hf : unsatisfied S d u = false).
  { destruct (unsatisfied S d u) eqn:Hf; [|done]. assert (In u (List.filter (unsatisfied S d) (upstreams d id))) as Hin
      by (apply filter_In; split; [by apply list_elem_of_In|done]). by rewrite E in Hin. }
  unfold unsatisfied in Hf. apply orb_false_iff in Hf as [H1 H2]. apply bool_decide_eq_false in H1, H2.
  split; [|done]. destruct (decide (status_of d u = Some TaskSucceeded)); tauto.
Qed.

Lemma claim_put fresh c timeout now d r : xd_tasks d !! r.1 = Some r.2 ->
  claim_row fresh c timeout now d r =
  put r.1 (claimed_row (fresh r.1) now r.2) (d <| xd_attempts := <[fresh r.1 := new_attempt c timeout now r]> (xd_attempts d) |>).
Proof.
  intros Ht. unfold claim_row, put. simpl.
  assert (E : alter (claimed_row (fresh r.1) now) r.1 (xd_tasks d) = <[r.1 := claimed_row (fresh r.1) now r.2]> (xd_tasks d)).
  { apply map_eq. intros i. destruct (decide (i = r.1)) as [->|]; [by rewrite lookup_alter_eq, lookup_insert_eq, Ht|].
    by rewrite lookup_alter_ne, lookup_insert_ne by done. }
  simpl in E. by rewrite E.
Qed.

Lemma claim_status fresh c timeout now d r u : may_claim d r ->
  status_of (claim_row fresh c timeout now d r) u = if decide (u = r.1) then Some TaskRunning else status_of d u.
Proof. intros (Ht & _). rewrite claim_put by done. rewrite status_put. by case_decide. Qed.

Lemma claim_inv fresh c timeout now d r : ok d -> may_claim d r -> xd_attempts d !! fresh r.1 = None -> is_Some (xd_containers d !! c) ->
  ok (claim_row fresh c timeout now d r).
Proof.
  intros Hi Hr Hf Hc. pose proof Hr as (Ht & Hq & Hz). destruct r as [id t]. simpl in *.
  assert (Hups : forall u, u ∈ upstreams d id -> status_of d u = Some TaskSucceeded /\ u ∉ @nil TaskID) by by apply (waiting_zero [] [] [] d id t).
  assert (Hst : forall u, status_of (claim_row fresh c timeout now d (id, t)) u = if decide (u = id) then Some TaskRunning else status_of d u)
    by (intros u; by apply (claim_status fresh c timeout now d (id, t))).
  assert (Hid : status_of d id = Some TaskQueued) by (unfold status_of; rewrite Ht; simpl; congruence).
  assert (Hw : forall i, waiting [] (claim_row fresh c timeout now d (id, t)) i = waiting [] d i).
  { intros i. unfold waiting. f_equal. f_equal. apply List.filter_ext. intros u. unfold unsatisfied. rewrite Hst. f_equal.
    apply bool_decide_ext. case_decide; [subst; rewrite Hid|]; naive_solver. }
  destruct (i_rows _ _ _ _ _ Hi id t Ht) as [Rc Rp Rm Rl Rq Rr Rfin Rfail]. destruct (Rq Hq) as [Hcur Hlt]. rewrite Hq in *.
  pose proof Hi as [R C A U D W P E K]. rewrite (claim_put fresh c timeout now d (id, t)) in * by done. set (d' := put _ _ _) in *.
  assert (Hl : forall i x, xd_tasks d' !! i = Some x -> i = id /\ x = claimed_row (fresh id) now t \/ i <> id /\ xd_tasks d !! i = Some x)
    by (intros i x Hx; simpl in Hx; apply lookup_insert_Some in Hx as [[<- <-]|[]]; auto).
  constructor.
  - intros i x [[-> ->]|[Hne Hx]]%Hl; [|by apply R in Hx].
    change (limit_of big d' (claimed_row (fresh id) now t)) with (limit_of big d t). constructor; simpl; try done; try lia.
    by rewrite Rfail.
  - intros i x a [[-> ->]|[Hne Hx]]%Hl Hs Ha.
    + simpl in Ha. injection Ha as <-. eexists. simpl. rewrite lookup_insert_eq. split; [done|]. split; [done|by left].
    + destruct (C i x a Hx Hs Ha) as (r & Hr' & Hi' & Hor). exists r. simpl. rewrite lookup_insert_ne; [done|]. congruence.
  - intros a r Ha. simpl in Ha. apply lookup_insert_Some in Ha as [[<- <-]|[Hne Ha]].
    + constructor; simpl; [|done|done|set_solver]. eexists. rewrite lookup_insert_eq. split; [done|]. simpl. split; [lia|done].
    + destruct (A a r Ha) as [(x & Hx & Hn & Hrun) Hac He Hp]. constructor; [|done|done|set_solver].
      destruct (decide (ap_task r = id)) as [Eq|Hd].
      * eexists. simpl. rewrite Eq, lookup_insert_eq. split; [done|]. rewrite Eq, Ht in Hx. injection Hx as <-. simpl. split; [lia|].
        intros Hs. destruct (Hrun Hs). congruence.
      * exists x. simpl. rewrite lookup_insert_ne by done. done.
  - intros a a' r r' Ha Ha' Htk Hnum. simpl in Ha, Ha'. apply lookup_insert_Some in Ha as [[<- <-]|[Hne Ha]], Ha' as [[<- <-]|[Hne' Ha']]; simpl in *.
    + done.
    + destruct (A a' r' Ha') as [(x & Hx & Hn & _) _ _ _]. rewrite <- Htk, Ht in Hx. injection Hx as <-. lia.
    + destruct (A a r Ha) as [(x & Hx & Hn & _) _ _ _]. rewrite Htk, Ht in Hx. injection Hx as <-. lia.
    + by apply (U a a' r r').
  - intros i x [[-> ->]|[Hne Hx]]%Hl; constructor; simpl; try done.
    + intros _. split; [done|]. intros u Hu. destruct (Hups u Hu) as [Hs _]. rewrite Hst. case_decide; [congruence|]. set_solver.
    + intros Hs. destruct (D i x Hx) as [Dq _]. destruct (Dq Hs) as [Hu Hd]. rewrite Hw. split; [done|]. intros u Hu' Hdead. apply (Hd u Hu').
      unfold dead in *. rewrite !Hst in Hdead. case_decide; [destruct Hdead; congruence|done].
    + intros Hor. destruct (D i x Hx) as [_ Dr]. destruct (Dr Hor) as [Hu Hd]. split; [done|]. intros u Hu'. rewrite Hst.
      destruct (Hd u Hu'). case_decide; [congruence|done].
  - set_solver.
  - intros i. rewrite Hst. simpl. rewrite P. case_decide; [subst; rewrite Hid; naive_solver|done].
  - destruct E as [En Ee]. split; [done|]. intros e He. destruct (Ee e He). simpl. by rewrite !lookup_insert_is_Some'; auto.
  - exact K.
Qed.

(** ** What a claim starts *)

Lemma claim_running fresh c timeout now d r x : xd_attempts d !! fresh r.1 = None ->
  running_on x (claim_row fresh c timeout now d r) <= running_on x d + (if decide (x = c) then 1 else 0).
Proof.
  intros Hf. unfold running_on.
  assert (Hsub : RunningAttemptsOnContainer x (claim_row fresh c timeout now d r) ⊆+
    (if decide (x = c) then [fresh r.1] else []) ++ RunningAttemptsOnContainer x d).
  { apply NoDup_submseteq; [apply RunningAttempts_NoDup|]. intros a. rewrite elem_of_app, !RunningAttempts_spec.
    intros (row & Hr & Hc & Hs). simpl in Hr. apply lookup_insert_Some in Hr as [[<- <-]|[Hne Hr]]; [|right; eauto].
    left. simpl in Hc. rewrite decide_True by done. set_solver. }
  apply submseteq_length in Hsub. rewrite length_app in Hsub. case_decide; simpl in Hsub; lia.
Qed.

Lemma claim_placed fresh c timeout now d r row : placed [] d -> xd_containers d !! c = Some row -> ct_state row = ContainerReady ->
  placed [] (claim_row fresh c timeout now d r).
Proof.
  intros Hp Hc Hready a x rc Hx Hrun Hrc. simpl in Hx, Hrc. apply lookup_insert_Some in Hx as [[<- <-]|[Hne Hx]]; [|by apply (Hp a x rc)].
  simpl in Hrc. left. rewrite Hc in Hrc. injection Hrc as <-. by rewrite Hready.
Qed.

Lemma claim_final fresh c timeout now d r : may_claim d r -> final d (claim_row fresh c timeout now d r).
Proof.
  intros (Ht & Hq & _). set (d1 := d <| xd_attempts := <[fresh r.1 := new_attempt c timeout now r]> (xd_attempts d) |>).
  apply (final_trans _ d1); [by apply final_refl|]. apply (final_set_task (claimed_row (fresh r.1) now) r.1 d1); [done|].
  intros i x Hx%list_elem_of_singleton. subst i. simpl. rewrite Ht. intros [= <-]. by rewrite Hq.
Qed.

Lemma claims_keep fresh c timeout now rows d row : (forall i j, fresh i = fresh j -> i = j) -> ct_state row = ContainerReady ->
  NoDup (map fst rows) -> ok d -> placed [] d -> xd_containers d !! c = Some row -> (forall r, r ∈ rows -> may_claim d r) ->
  (forall r, r ∈ rows -> xd_attempts d !! fresh r.1 = None) ->
  let d' := fold_left (claim_row fresh c timeout now) rows d in
  ok d' /\ placed [] d' /\ xd_containers d' = xd_containers d /\ xd_releases d' = xd_releases d /\ final d d' /\
  forall x, running_on x d' <= running_on x d + (if decide (x = c) then Z.of_nat (length rows) else 0).
Proof.
  intros Hinj Hready. revert d. induction rows as [|r rows IH]; intros d Hn Hi Hp Hc Hr Hf; cbn [fold_left]; cbn zeta.
  - split_and!; try done; try by apply final_core. intros x. case_decide; simpl; lia.
  - inversion Hn as [|? ? Hx Hl]; subst. assert (Hcl : may_claim d r) by (apply Hr; left).
    assert (Hne : forall r', r' ∈ rows -> r'.1 <> r.1).
    { intros r' Hin E. apply Hx. rewrite <- E. apply list_elem_of_In, in_map. by apply list_elem_of_In. }
    destruct (IH (claim_row fresh c timeout now d r)) as (Hi' & Hp' & Hc' & Hrel' & Hfi' & Hrun); [done| | | | | |].
    + apply claim_inv; [done|done|apply Hf; left|by rewrite Hc].
    + by apply claim_placed with row.
    + done.
    + intros r' Hin. destruct (Hr r' ltac:(by right)) as (Ht & Hrest). split; [|done]. simpl. rewrite lookup_alter_ne; [done|].
      by apply not_eq_sym, Hne.
    + intros r' Hin. simpl. rewrite lookup_insert_ne; [apply Hf; by right|]. intros E. apply Hinj in E. by apply (Hne r').
    + split_and!; [done..| |]; [by apply (final_trans _ (claim_row fresh c timeout now d r)); [apply claim_final|]|]. intros x. specialize (Hrun x). pose proof (claim_running fresh c timeout now d r x ltac:(apply Hf; left)).
      simpl length. case_decide; lia.
Qed.

Lemma within_sublist total max first d rows : sublist (within total max first d rows) rows.
Proof. revert total first. induction rows as [|r rows IH]; intros total first; simpl; [constructor|]. destruct (_ || _); constructor; apply IH. Qed.

Lemma candidates_spec release limit locked now d : NoDup (map fst (candidates release limit locked now d)) /\
  (forall r, r ∈ candidates release limit locked now d -> xd_tasks d !! r.1 = Some r.2 /\ due_task release now r.2 = true /\ locked r.1 = false) /\
  (length (candidates release limit locked now d) <= limit)%nat.
Proof.
  unfold candidates. set (g := fun r : TaskID * TaskRow => _).
  assert (Hn : NoDup (map fst (sort_by claim_task_order (List.filter g (map_to_list (xd_tasks d)))))).
  { rewrite sort_by_perm. apply map_filter_NoDup, NoDup_fst_map_to_list. }
  split_and!.
  - eapply sublist_NoDup; [exact Hn|]. apply sublist_map, sublist_take.
  - intros r Hr. apply (sublist_subseteq _ _ (sublist_take _ _)), list_elem_of_In, sort_by_In, filter_In in Hr as [Hr Hg].
    apply list_elem_of_In in Hr. destruct r as [id t]. apply elem_of_map_to_list in Hr. unfold g in Hg. apply andb_true_iff in Hg as [Hg Hk].
    apply negb_true_iff in Hk. done.
  - rewrite length_take. lia.
Qed.

Lemma due_claimable release now d r : xd_tasks d !! r.1 = Some r.2 -> due_task release now r.2 = true ->
  may_claim d r /\ tk_release r.2 = release /\ tk_available_at r.2 <= now.
Proof.
  intros Ht Hd. unfold due_task in Hd. apply andb_true_iff in Hd as [Hd Hu]. apply andb_true_iff in Hd as [Hd Ha].
  apply andb_true_iff in Hd as [Hd Hq]. apply Z.eqb_eq in Hd, Hu. apply bool_decide_eq_true in Hq. apply Z.leb_le in Ha. done.
Qed.

Lemma picked_spec release limit max locked now d :
  let picked := within 0 max true d (candidates release limit locked now d) in
  NoDup (map fst picked) /\ (forall r, r ∈ picked -> may_claim d r /\ tk_release r.2 = release /\ tk_available_at r.2 <= now /\ locked r.1 = false) /\
  (length picked <= limit)%nat.
Proof.
  destruct (candidates_spec release limit locked now d) as (Hn & Hs & Hl).
  pose proof (within_sublist 0 max true d (candidates release limit locked now d)) as Hsub. split_and!.
  - eapply sublist_NoDup; [exact Hn|]. by apply sublist_map.
  - intros r Hr. apply (sublist_subseteq _ _ Hsub) in Hr. destruct (Hs r Hr) as (Ht & Hd & Hk).
    destruct (due_claimable release now d r Ht Hd) as (? & ? & ?). done.
  - etrans; [by apply sublist_length|done].
Qed.

Lemma claimOnce_sound host c maxTasks locked fresh now d : sound [] d -> fresh_ok fresh d ->
  goes (fun r => sound [] r.1.1) (claimOnce host c maxTasks locked fresh now d).
Proof.
  intros Hd [Hf Hinj]. pose proof Hd as [Hi Hp Hs Hsp Hfi]. unfold claimOnce. destruct (_ ≫= _) as [[[row release] rel]|] eqn:E; [|done].
  assert (Hc : xd_containers d !! c = Some row).
  { destruct (xd_containers d !! c) as [x|]; [|done]. simpl in E. destruct (ct_release x); [|done]. simpl in E.
    destruct (xd_releases d !! _); [|done]. by injection E as -> -> ->. }
  destruct (ct_host row != Some host); [done|]. destruct (ct_state row != ContainerReady) eqn:Hst; [done|]. cbn [orb].
  destruct (ct_purpose row != PurposeServe); [done|]. destruct (Z.min _ _ <=? 0) eqn:Hlim; [done|]. apply Z.leb_gt in Hlim.
  destruct (rl_spec rel) as [spec|]; [|done].
  unfold ClaimQueuedTasks. set (picked := within _ _ _ _ _). case_match; [done|]. unfold goes. cbn [fst].
  apply negb_false_iff, bool_decide_eq_true in Hst. destruct (picked_spec release
    (Z.to_nat (Z.min maxTasks (ct_slots row - Z.of_nat (length (RunningAttemptsOnContainer c d))))) MaxClaimInputBytes locked now d) as (Hn & Hk & Hl).
  fold picked in Hn, Hk, Hl.
  destruct (claims_keep fresh c (default default_timeout (sp_TimeoutSeconds spec) * second) now picked d row Hinj Hst Hn Hi Hp Hc) as (Hi' & Hp' & Hc' & Hrel' & Hfi' & Hr');
    [intros r Hr; by apply Hk|done|].
  constructor; [done|done| |intros r s; unfold spec_of; rewrite Hrel'; apply Hsp|by apply (final_trans _ d)]. intros y yrow. rewrite Hc'. intros Hy. specialize (Hr' y). specialize (Hs y yrow Hy). case_decide as Ey; [|lia].
  subst y. rewrite Hc in Hy. injection Hy as <-. unfold running_on in Hr' at 2. lia.
Qed.
End ClaimInv.
