(* ===== verification/ExecSubmit.v ===== *)
(** A submit keeps execution's tables sound ([SubmitInTx] of
    src/internal/execution/admission.go): every new task waits on exactly its
    unfinished upstreams, or failed at once. *)

From S2P Require Import Prelude Float64 Capacity Catalog GoLib Billing Policy Placement Exec Attempts Claims Submit ExecInv ExecSteps ExecAdvance ExecFinish ExecClaims.

(** A new task with its upstreams. *)
Abbreviation newcomer := (TaskID * TaskRow * list TaskID)%type.

Definition add_task (d : db) (r : newcomer) : db :=
  d <| xd_tasks := <[r.1.1 := r.1.2]> (xd_tasks d) |> <| xd_deps := xd_deps d ++ map (pair r.1.1) r.2 |>.

Section SubmitInv.
Context (big : float64 -> Z).
#[local] Abbreviation ok := (ExecInv.inv big [] [] []).

Record add_ok (d : db) (r : newcomer) : Prop := {
  ad_new : xd_tasks d !! r.1.1 = None;
  ad_ups : NoDup r.2 /\ forall u, u ∈ r.2 -> is_Some (xd_tasks d !! u);
  ad_row : row_ok (limit_of big d r.1.2) r.1.2;
  ad_status : tk_status r.1.2 = TaskFailed \/ tk_status r.1.2 = TaskQueued /\
    tk_unmet r.1.2 = Z.of_nat (length (List.filter (unsatisfied [] d) r.2)) /\ forall u, u ∈ r.2 -> ~ dead d u }.

Lemma add_status d r u : status_of (add_task d r) u = if decide (u = r.1.1) then Some (tk_status r.1.2) else status_of d u.
Proof. unfold status_of, add_task. simpl. case_decide as H; [subst; by rewrite lookup_insert_eq|by rewrite lookup_insert_ne]. Qed.

Lemma add_exists d r u : is_Some (xd_tasks d !! u) -> is_Some (xd_tasks (add_task d r) !! u).
Proof. intros H. unfold add_task. simpl. apply lookup_insert_is_Some'. by right. Qed.

Lemma add_upstreams d r i : (forall e, e ∈ xd_deps d -> is_Some (xd_tasks d !! e.1)) -> xd_tasks d !! r.1.1 = None ->
  upstreams (add_task d r) i = if decide (i = r.1.1) then r.2 else upstreams d i.
Proof.
  intros He Hn. destruct r as [[id t] ups]. unfold upstreams, add_task. simpl in *. rewrite List.filter_app, map_app.
  assert (Hnew : map snd (List.filter (fun e => e.1 =? i) (map (pair id) ups)) = if decide (i = id) then ups else []).
  { clear. induction ups as [|u ups IH]; simpl; [by case_decide|]. case_decide as H.
    - subst. rewrite Z.eqb_refl. simpl. by rewrite IH.
    - rewrite (proj2 (Z.eqb_neq id i)) by congruence. done. }
  rewrite Hnew. case_decide as H; [subst|by rewrite app_nil_r]. rewrite filter_none; [done|]. intros e Hin. apply Z.eqb_neq.
  intros E. apply list_elem_of_In, He in Hin. rewrite E, Hn in Hin. by destruct Hin.
Qed.

Lemma max_ge (l : list nat) n : In n l -> (n <= fold_right Nat.max 0 l)%nat.
Proof. induction l as [|x l IH]; simpl; [done|]. intros [->|H]; [lia|]. specialize (IH H). lia. Qed.

Lemma add_inv d r : ok d -> add_ok d r -> ok (add_task d r).
Proof.
  intros [R C A U D W P E K] [Hnew [Hnd Hups] Hrow Hst]. destruct E as [En Ee].
  assert (Hold : forall u, is_Some (xd_tasks d !! u) -> status_of (add_task d r) u = status_of d u)
    by (intros u Hu; rewrite add_status, decide_False; [done|]; intros ->; rewrite Hnew in Hu; by destruct Hu).
  assert (Hu : forall i, upstreams (add_task d r) i = if decide (i = r.1.1) then r.2 else upstreams d i)
    by (intros i; apply add_upstreams; [intros e He; by apply Ee|done]).
  assert (Hups' : forall i u, u ∈ upstreams d i -> is_Some (xd_tasks d !! u)) by (intros i u Hin; apply elem_of_upstreams in Hin; by apply Ee in Hin as [_ ?]).
  assert (Hun : forall l, (forall u, u ∈ l -> is_Some (xd_tasks d !! u)) ->
    List.filter (unsatisfied [] (add_task d r)) l = List.filter (unsatisfied [] d) l).
  { intros l Hl. apply List.filter_ext_in. intros u Hin. unfold unsatisfied. rewrite Hold; [done|]. by apply Hl, list_elem_of_In. }
  assert (Hl : forall i x, xd_tasks (add_task d r) !! i = Some x -> i = r.1.1 /\ x = r.1.2 \/ i <> r.1.1 /\ xd_tasks d !! i = Some x)
    by (intros i x Hx; simpl in Hx; apply lookup_insert_Some in Hx as [[<- <-]|[]]; auto).
  constructor.
  - intros i x [[-> ->]|[Hne Hx]]%Hl; [exact Hrow|by apply R in Hx].
  - intros i x a [[-> ->]|[Hne Hx]]%Hl Hs; [destruct Hst as [|[]]; congruence|]. by apply C.
  - intros a x Hx. destruct (A a x Hx) as [(t & Ht & Hn & Hrun) Hc Hf Hp]. constructor; [|done..]. exists t. split; [|done].
    simpl. rewrite lookup_insert_ne; [done|]. intros E. rewrite <- E, Hnew in Ht. done.
  - exact U.
  - intros i x [[-> ->]|[Hne Hx]]%Hl; constructor; rewrite Hu, ?decide_True, ?(decide_False (P := i = r.1.1)) by done.
    + intros Hq. destruct Hst as [|(_ & Hm & Hd)]; [congruence|]. unfold waiting. rewrite Hu, decide_True, Hun by done. split; [done|].
      intros u Hin Hdead. destruct (Hd u Hin). unfold dead in *. by rewrite !Hold in Hdead by auto.
    + intros Hor. destruct Hst as [|[]]; destruct Hor; congruence.
    + intros Hq. destruct (D i x Hx) as [Dq _]. destruct (Dq Hq) as [Hm Hd]. unfold waiting. rewrite Hu, decide_False, Hun by eauto.
      split; [done|]. intros u Hin Hdead. apply (Hd u Hin). unfold dead in *. by rewrite !Hold in Hdead by eauto.
    + intros Hor. destruct (D i x Hx) as [_ Dr]. destruct (Dr Hor) as [Hm Hd]. split; [done|]. intros u Hin. rewrite Hold by eauto. by apply Hd.
  - set_solver.
  - intros i. rewrite add_status. change (xd_results (add_task d r)) with (xd_results d). rewrite P. case_decide; [|done]. subst.
    unfold status_of. rewrite Hnew. simpl. destruct Hst as [->|[-> _]]; done.
  - split.
    + apply NoDup_app. split_and!; [done| |apply NoDup_fmap_2; [intros ? ? [=]; done|done]].
      intros e He Hin. apply list_elem_of_In, in_map_iff in Hin as (u & <- & _). apply Ee in He as [He _]. simpl in He. rewrite Hnew in He. by destruct He.
    + intros e. simpl. rewrite elem_of_app. intros [He|Hin].
      * apply Ee in He as [H1 H2]. split; apply lookup_insert_is_Some'; by right.
      * apply list_elem_of_In, in_map_iff in Hin as (u & <- & Hu'). simpl. split; apply lookup_insert_is_Some'; [by left|right].
        apply Hups. by apply list_elem_of_In.
  - destruct K as [rank Hrank].
    exists (fun i => if decide (i = r.1.1) then S (fold_right Nat.max 0%nat (map rank r.2)) else rank i). intros e. simpl. rewrite elem_of_app. intros [He|Hin].
    + specialize (Hrank e He). apply Ee in He as [[x Hx] [y Hy]]. rewrite !decide_False by congruence. done.
    + apply list_elem_of_In, in_map_iff in Hin as (u & <- & Hu'). apply list_elem_of_In in Hu'. destruct (Hups u Hu') as [y Hy]. simpl.
      rewrite decide_False, decide_True by congruence. apply Nat.lt_succ_r, max_ge, in_map. by apply list_elem_of_In.
Qed.

Lemma add_ok_after d r x : add_ok d x -> (forall e, e ∈ xd_deps d -> is_Some (xd_tasks d !! e.1)) -> xd_tasks d !! r.1.1 = None -> x.1.1 <> r.1.1 -> add_ok (add_task d r) x.
Proof.
  intros [Hn [Hnd Hups] Hrow Hst] He Hr Hne.
  assert (Hold : forall u, u ∈ x.2 -> status_of (add_task d r) u = status_of d u).
  { intros u Hu. rewrite add_status, decide_False; [done|]. intros ->. destruct (Hups _ Hu) as [y Hy]. congruence. }
  constructor; [simpl; by rewrite lookup_insert_ne|split; [done|]; intros u Hu; by apply add_exists, Hups|exact Hrow|].
  destruct Hst as [|(Hq & Hm & Hd)]; [by left|right]. split; [done|]. split.
  - rewrite Hm. f_equal. f_equal. apply List.filter_ext_in. intros u Hin. unfold unsatisfied. rewrite Hold; [done|]. by apply list_elem_of_In.
  - intros u Hu. unfold dead. rewrite Hold by done. by apply Hd.
Qed.

Lemma adds_inv rows d : ok d -> NoDup (map (fun r => r.1.1) rows) -> (forall r, r ∈ rows -> add_ok d r) -> ok (fold_left add_task rows d).
Proof.
  revert d. induction rows as [|r rows IH]; intros d Hi Hn Ha; cbn [fold_left]; [done|]. inversion Hn as [|? ? Hx Hl]; subst.
  apply IH; [apply add_inv; [done|apply Ha; set_solver]|done|]. intros x Hin. apply add_ok_after; [apply Ha; set_solver|intros e He; by apply (i_edges _ _ _ _ _ Hi) in He as [? _]|apply (Ha r); set_solver|].
  intros E. apply Hx. rewrite <- E. apply list_elem_of_In, (in_map (fun r : newcomer => r.1.1)). by apply list_elem_of_In.
Qed.

(** ** The tables after the inserts *)

Definition edges_of (rows : list newcomer) : list (TaskID * TaskID) := flat_map (fun r => map (pair r.1.1) r.2) rows.
Definition inserts (rows : list (TaskID * TaskRow)) (m : gmap TaskID TaskRow) : gmap TaskID TaskRow :=
  fold_left (fun m r => <[r.1 := r.2]> m) rows m.

Lemma adds_parts rows d :
  xd_tasks (fold_left add_task rows d) = inserts (map fst rows) (xd_tasks d) /\
  xd_deps (fold_left add_task rows d) = xd_deps d ++ edges_of rows /\
  (xd_attempts (fold_left add_task rows d), xd_results (fold_left add_task rows d), xd_containers (fold_left add_task rows d),
   xd_releases (fold_left add_task rows d)) = (xd_attempts d, xd_results d, xd_containers d, xd_releases d).
Proof.
  revert d. induction rows as [|r rows IH]; intros d; cbn [fold_left]; [by rewrite app_nil_r|].
  destruct (IH (add_task d r)) as (Et & Ed & Er). rewrite Et, Ed, Er. simpl. by rewrite <- app_assoc.
Qed.

Lemma inserts_lookup rows m i t : NoDup (map fst rows) ->
  (inserts rows m !! i = Some t) <-> ((i, t) ∈ rows \/ (i ∉ map fst rows) /\ m !! i = Some t).
Proof.
  revert m. induction rows as [|[j x] rows IH]; intros m Hn; simpl; [set_solver|]. inversion Hn as [|? ? Hx Hl]; subst. simpl in *.
  unfold inserts in *. simpl. rewrite IH by done. destruct (decide (i = j)) as [->|Hne].
  - rewrite lookup_insert_eq. split.
    + intros [H|[_ [= ->]]]; [|set_solver]. destruct Hx. by apply (list_elem_of_fmap_2' fst _ (j, t)).
    + intros [[H|H]%elem_of_cons|[H _]]; [|by left|set_solver]. injection H as ->. by right.
  - rewrite lookup_insert_ne by done. set_solver.
Qed.

Lemma taken_none w s d j u : occurrence_taken w (Some s) d = false -> xd_tasks d !! j = Some u -> tk_workload u = w -> tk_scheduled_for u <> Some s.
Proof.
  simpl. intros H Hu Hw E. apply Bool.not_true_iff_false in H. apply H, existsb_exists. exists (j, u). split.
  - apply list_elem_of_In. by apply elem_of_map_to_list.
  - simpl. rewrite Hw, Z.eqb_refl, E. by apply bool_decide_eq_true.
Qed.

(** What an insert adds: new rows, each the one of its occurrence. *)
Lemma InsertTasks_spec rows d d' : InsertTasks rows d = Some d' ->
  d' = d <| xd_tasks := inserts rows (xd_tasks d) |> /\ NoDup (map fst rows) /\ (forall r, r ∈ rows -> xd_tasks d !! r.1 = None) /\
  forall r, r ∈ rows -> only_one (inserts rows (xd_tasks d)) r.1 r.2.
Proof.
  revert d. induction rows as [|[id t] rows IH]; intros d; simpl; [intros [= <-]; split; [by destruct d|]; split_and!; [constructor|set_solver..]|].
  case_bool_decide as Hid; simpl; [done|]. destruct (occurrence_taken _ _ _) eqn:Ho; [done|]. intros H. apply IH in H as (-> & Hn & Hnew & Hone). simpl in *.
  apply eq_None_not_Some in Hid.
  assert (Hne : forall r, r ∈ rows -> r.1 <> id /\ xd_tasks d !! r.1 = None).
  { intros r Hr. apply Hnew, lookup_insert_None in Hr as []. done. }
  assert (Hout : id ∉ map fst rows).
  { intros Hin. apply list_elem_of_In, in_map_iff in Hin as (r & E & Hr). apply list_elem_of_In, Hne in Hr as [Hr _]. done. }
  assert (Hit : inserts rows (<[id:=t]> (xd_tasks d)) !! id = Some t) by (apply inserts_lookup; [done|]; right; by rewrite lookup_insert_eq).
  split; [done|]. split_and!; [by constructor|intros r [->|Hr]%elem_of_cons; [done|by apply Hne]|].
  intros r [->|Hr]%elem_of_cons; [|by apply Hone]. simpl. intros [s Hs] j u Hu Hw Hf. apply inserts_lookup in Hu as [Hu|[_ Hu]]; [| |done].
  - symmetry. apply (Hone (j, u) Hu) with t; simpl; rewrite ?Hf; eauto.
  - destruct (decide (j = id)) as [->|Hj]; [done|]. rewrite lookup_insert_ne in Hu by done. rewrite Hs in Ho, Hf.
    by destruct (taken_none _ _ _ _ _ Ho Hu Hw).
Qed.

(** New tasks that fail are inserted failed. *)
Definition failing (f : TaskRow -> TaskRow) (ids : list TaskID) (r : newcomer) : newcomer :=
  (r.1.1, if bool_decide (r.1.1 ∈ ids) then f r.1.2 else r.1.2, r.2).

Lemma failing_inserts f ids rows (m : gmap TaskID TaskRow) : (forall id, id ∈ ids -> m !! id = None) ->
  map_imap (fun id t => Some (if bool_decide (id ∈ ids) then f t else t)) (inserts (map fst rows) m) =
  inserts (map fst (map (failing f ids) rows)) m.
Proof.
  intros Hm. set (g := fun m : gmap TaskID TaskRow => map_imap (fun id t => Some (if bool_decide (id ∈ ids) then f t else t)) m).
  assert (Hg : forall m id t, g (<[id := t]> m) = <[id := if bool_decide (id ∈ ids) then f t else t]> (g m)).
  { intros k id t. apply map_eq. intros i. unfold g. rewrite map_lookup_imap. destruct (decide (i = id)) as [->|Hne].
    - by rewrite !lookup_insert_eq.
    - by rewrite !lookup_insert_ne, map_lookup_imap. }
  assert (H0 : g m = m).
  { apply map_eq. intros i. unfold g. rewrite map_lookup_imap. destruct (m !! i) as [t|] eqn:E; simpl; [|done].
    rewrite bool_decide_false; [done|]. intros Hi. apply Hm in Hi. congruence. }
  fold (g (inserts (map fst rows) m)). rewrite <- H0 at 2. clear H0 Hm. revert m.
  induction rows as [|r rows IH]; intros m; simpl; [done|]. rewrite IH. f_equal. apply Hg.
Qed.

Lemma edges_failing f ids rows : edges_of (map (failing f ids) rows) = edges_of rows.
Proof. unfold edges_of. induction rows as [|r rows IH]; simpl; [done|]. by rewrite IH. Qed.

Lemma failing_adds f ids rows d : (forall id, id ∈ ids -> xd_tasks d !! id = None) ->
  core (set_tasks f ids (fold_left add_task rows d)) = core (fold_left add_task (map (failing f ids) rows) d).
Proof.
  intros Hn. destruct (adds_parts rows d) as (Et & Ed & Er). destruct (adds_parts (map (failing f ids) rows) d) as (Et' & Ed' & Er').
  injection Er as E1 E2 E3 E4. injection Er' as F1 F2 F3 F4. unfold core, set_tasks. simpl.
  rewrite Et, Ed, Et', Ed', E1, E2, E3, E4, F1, F2, F3, F4, edges_failing. by rewrite failing_inserts.
Qed.

Lemma fail_new_core hooked ids release f now d : core (fail_new hooked ids release f now d) = core (set_tasks (failed_queued f now) ids d).
Proof.
  unfold fail_new. destruct ids as [|i0 ids0] eqn:E; [by rewrite set_tasks_nil|]. rewrite <- E. rewrite core_fail_queued. unfold FailTasks.
  by rewrite map_map, map_id.
Qed.

Lemma fail_nothing hooked d release f now : fail_new hooked [] release f now d = d.
Proof. done. Qed.

Lemma core_set_tasks f ids d d' : core d = core d' -> core (set_tasks f ids d) = core (set_tasks f ids d').
Proof. unfold core, set_tasks. simpl. intros [= -> -> -> -> -> ->]. done. Qed.

Lemma failed_any f now m t : row_ok m t -> row_ok m (failed_queued f now t).
Proof. intros [Rc Rp Rm Rl Rq Rr Rfin Rfail]. constructor; simpl; done. Qed.

(** ** [SubmitInTx] *)

Section Admission.
Context (d0 : db) (hooked : uuid -> bool) (fresh : nat -> TaskID).
#[local] Abbreviation sound := (ExecClaims.sound big d0).

(** The tasks of a submit, with their upstreams. *)
Definition newcomers (fresh : nat -> TaskID) req fn spec root now d (inputs : list TaskInput) : list newcomer :=
  imap (fun n i => (fresh n, new_task req fn (rp_MaxAttempts (RetryPolicyOf big spec)) root (unmet_of d i) now (ti_Payload i),
    uniqueTasks (ti_DependsOn i))) inputs.

Lemma newcomers_rows req fn spec root now d :
  map fst (newcomers fresh req fn spec root now d (sr_Inputs req)) = new_rows big fresh req fn spec root now d.
Proof. unfold newcomers, new_rows. change (map fst) with (fmap (M := list) (A := TaskID * TaskRow * list TaskID) fst). by rewrite fmap_imap. Qed.

Lemma newcomers_edges (fr : nat -> TaskID) req fn spec root now d inputs :
  flat_map (fun r : TaskID * TaskInput => map (pair r.1) (uniqueTasks (ti_DependsOn r.2))) (zip (imap (fun n _ => fr n) inputs) inputs) =
  edges_of (newcomers fr req fn spec root now d inputs).
Proof.
  unfold newcomers, edges_of. revert fr. induction inputs as [|i inputs IH]; intros fr; [done|]. rewrite !imap_cons. cbn [zip_with flat_map].
  f_equal. apply (IH (fr ∘ S)).
Qed.

Lemma elem_newcomers req fn spec root now d inputs r : r ∈ newcomers fresh req fn spec root now d inputs ->
  exists n i, inputs !! n = Some i /\ r = (fresh n, new_task req fn (rp_MaxAttempts (RetryPolicyOf big spec)) root (unmet_of d i) now (ti_Payload i),
    uniqueTasks (ti_DependsOn i)).
Proof. intros H. apply elem_of_lookup_imap in H as (n & i & -> & Hi). eauto. Qed.

Lemma elem_new_where (f : TaskInput -> bool) inputs n i : inputs !! n = Some i -> f i = true -> fresh n ∈ new_where fresh f inputs.
Proof.
  intros Hi Hf. unfold new_where. apply list_elem_of_In, in_map_iff. exists n. split; [done|]. apply in_map_iff. exists (n, i). split; [done|].
  apply filter_In. split; [|done]. apply list_elem_of_In, (elem_of_lookup_imap_2 pair). done.
Qed.

Lemma new_where_all (f : TaskInput -> bool) inputs id : id ∈ new_where fresh f inputs -> id ∈ imap (fun n _ => fresh n) inputs.
Proof.
  unfold new_where. intros H. apply list_elem_of_In, in_map_iff in H as (n & <- & H). apply in_map_iff in H as ([m i] & <- & H).
  apply filter_In in H as [H _]. apply list_elem_of_In, elem_of_lookup_imap in H as (k & j & [= -> ->] & Hk). simpl.
  apply (elem_of_lookup_imap_2 (fun n _ => fresh n) _ _ _ Hk).
Qed.

(** What a new task counts, when none of its upstreams is dead. *)
Lemma unmet_waiting d i : (forall u, u ∈ uniqueTasks (ti_DependsOn i) -> is_Some (xd_tasks d !! u)) -> doomed d i = false ->
  unmet_of d i = Z.of_nat (length (List.filter (unsatisfied [] d) (uniqueTasks (ti_DependsOn i)))) /\
  forall u, u ∈ uniqueTasks (ti_DependsOn i) -> ~ dead d u.
Proof.
  intros Hex Hd.
  assert (Hnd : forall u, u ∈ uniqueTasks (ti_DependsOn i) -> ~ dead d u).
  { intros u Hu Hdead. assert (doomed d i = true); [|congruence]. apply existsb_exists. exists u. split; [by apply list_elem_of_In|].
    by destruct Hdead as [-> | ->]. }
  split; [|done]. unfold unmet_of. f_equal. f_equal. apply List.filter_ext_in. intros u Hin. apply list_elem_of_In in Hin.
  specialize (Hnd u Hin). destruct (Hex u Hin) as [t Ht]. unfold unsatisfied, dead, status_of in *. rewrite Ht in *. simpl in *.
  destruct (tk_status t); try done; naive_solver.
Qed.

Lemma unknown_upstream_None w ids d u : unknown_upstream w ids d = None -> u ∈ ids -> is_Some (xd_tasks d !! u).
Proof.
  intros H Hu. unfold unknown_upstream in H. eapply List.find_none with (x := u) in H;
    [|apply sort_by_In, list_elem_of_In, elem_of_distinct; set_solver]. apply negb_false_iff in H. unfold in_workspace in H. by destruct (_ !! u).
Qed.

Lemma RetryStarts_around releases clock d : around d (RetryStarts releases clock d).1 /\ xd_containers (RetryStarts releases clock d).1 = xd_containers d.
Proof.
  split; [|done]. constructor; try done. intros r. unfold spec_of, RetryStarts. simpl. rewrite map_lookup_imap. destruct (_ !! r); simpl; [|done].
  by destruct (bool_decide _).
Qed.

(** Whatever a submit decides for a new task, it may be added: it failed, or
    no upstream of it is dead. *)
Lemma decided_add_ok req fn spec root now d f g ids ids' r : specs_ok big d -> spec_of d (fn_Release fn) = Some spec ->
  (forall u, u ∈ flat_map ti_DependsOn (sr_Inputs req) -> is_Some (xd_tasks d !! u)) ->
  (forall n i, sr_Inputs req !! n = Some i -> fresh n ∉ ids -> doomed d i = false) ->
  r ∈ newcomers fresh req fn spec root now d (sr_Inputs req) -> xd_tasks d !! r.1.1 = None ->
  add_ok d (failing (failed_queued g now) ids' (failing (failed_queued f now) ids r)).
Proof.
  intros Hsp Hspec Hups Hdoom Hr Hnew. apply elem_newcomers in Hr as (n & i & Hi & ->). unfold failing. simpl in *.
  set (t := new_task _ _ _ _ _ _ _). set (t' := if bool_decide (fresh n ∈ ids') then _ else _).
  assert (Hlim : limit_of big d t = rp_MaxAttempts (RetryPolicyOf big spec)) by (unfold limit_of, policy_of; simpl; by rewrite Hspec).
  assert (Hrow : row_ok (limit_of big d t) t).
  { rewrite Hlim. specialize (Hsp _ _ Hspec). constructor; simpl; unfold MaxPreemptions; try done; try lia; try (intros _; split; [done || lia|lia]); (split; [intros [? [=]]|done]). }
  assert (Ht' : tk_release t' = fn_Release fn /\ row_ok (limit_of big d t) t' /\ (tk_status t' = TaskFailed \/ t' = t /\ fresh n ∉ ids)).
  { unfold t'. do 2 case_bool_decide; split_and!; try done; try (by left); try (by right); repeat apply failed_any; done. }
  destruct Ht' as (Hrel & Hrow' & Hst).
  assert (Hex : forall u, u ∈ uniqueTasks (ti_DependsOn i) -> is_Some (xd_tasks d !! u)).
  { intros u Hu. apply elem_of_distinct in Hu as [Hu _]. apply Hups. apply list_elem_of_In, in_flat_map. exists i.
    split; [apply list_elem_of_In; by apply list_elem_of_lookup_2 with n|by apply list_elem_of_In]. }
  constructor; simpl; [done|split; [apply NoDup_distinct|done]| |].
  - replace (limit_of big d t') with (limit_of big d t); [done|]. unfold limit_of. by rewrite Hrel.
  - destruct Hst as [|[-> Hn]]; [by left|right]. split; [done|]. apply unmet_waiting; [done|]. by apply (Hdoom n).
Qed.

Definition all_one (rows : list newcomer) (m : gmap TaskID TaskRow) : Prop :=
  forall r, r ∈ rows -> only_one (inserts (map fst rows) m) r.1.1 r.1.2.

Lemma failing_one f ids rows m : (forall t, identity (f t) = identity t) -> (forall id, id ∈ ids -> m !! id = None) -> all_one rows m ->
  all_one (map (failing f ids) rows) m.
Proof.
  intros Hf Hids Ho r Hr Hs j u Hu Hw Hsame. rewrite <- failing_inserts in Hu by done. rewrite map_lookup_imap in Hu.
  apply list_elem_of_In, in_map_iff in Hr as (x & <- & Hx). apply list_elem_of_In in Hx.
  destruct (inserts (map fst rows) m !! j) as [y|] eqn:Hy; [|done]. simpl in Hu. injection Hu as Hu.
  assert (E1 : identity u = identity y) by (rewrite <- Hu; clear Hu; case_bool_decide; [apply Hf|done]).
  assert (E2 : identity (failing f ids x).1.2 = identity x.1.2) by (clear Hu; simpl; case_bool_decide; [apply Hf|done]).
  apply identity_fields in E1 as [? ?], E2 as [? ?]. apply (Ho x Hx) with y; congruence.
Qed.

Lemma adds_final rows d : NoDup (map (fun r => r.1.1) rows) -> (forall r, r ∈ rows -> xd_tasks d !! r.1.1 = None) -> all_one rows (xd_tasks d) ->
  final d (fold_left add_task rows d).
Proof.
  intros Hn Ha Ho. destruct (adds_parts rows d) as (Et & _ & Er). injection Er as _ Er _ _. rewrite <- (map_map fst fst) in Hn.
  assert (Hold : forall id t, xd_tasks d !! id = Some t -> xd_tasks (fold_left add_task rows d) !! id = Some t).
  { intros id t Ht. rewrite Et. apply inserts_lookup; [done|]. right. split; [|done]. intros Hin. rewrite map_map in Hin.
    apply list_elem_of_In, in_map_iff in Hin as (r & <- & Hr). apply list_elem_of_In, Ha in Hr. congruence. }
  constructor; [auto|by rewrite Er|eauto|]. rewrite Et. intros id t Ht Hnone. apply inserts_lookup in Ht as [Ht|[_ Ht]]; [|congruence|done].
  apply list_elem_of_In, in_map_iff in Ht as (r & E & Hr). apply list_elem_of_In in Hr. specialize (Ho r Hr). by rewrite E in Ho.
Qed.

Lemma adds_sound rows d : sound [] d -> NoDup (map (fun r => r.1.1) rows) -> (forall r, r ∈ rows -> add_ok d r) -> all_one rows (xd_tasks d) ->
  sound [] (fold_left add_task rows d).
Proof.
  intros [Hi Hp Hs Hsp Hfi] Hn Ha Ho. destruct (adds_parts rows d) as (_ & _ & Er). injection Er as Ea _ Ec Er. constructor.
  - by apply adds_inv.
  - change (placed ([] ++ []) (fold_left add_task rows d)). apply (placed_shrinks [] [] d); [by apply shrinks_refl|by apply stays_refl|done].
  - apply (slots_shrinks [] d); [by apply shrinks_refl|by apply stays_refl|done].
  - intros r s. unfold spec_of. rewrite Er. apply Hsp.
  - apply (final_trans _ d); [done|]. apply adds_final; [done| |done]. intros r Hr. by apply Ha.
Qed.

(** The tasks a submit inserts and fails leave the tables sound. *)
Lemma insert_sound req fn spec root now d d' f g ids ids' release : sound [] d -> spec_of d (fn_Release fn) = Some spec ->
  unknown_upstream (sr_Workspace req) (flat_map ti_DependsOn (sr_Inputs req)) d = None ->
  InsertTasks (new_rows big fresh req fn spec root now d) d = Some d' ->
  (forall n i, sr_Inputs req !! n = Some i -> fresh n ∉ ids -> doomed d i = false) ->
  (forall id, id ∈ ids \/ id ∈ ids' -> id ∈ imap (fun n _ => fresh n) (sr_Inputs req)) ->
  sound [] (fail_new hooked ids' release g now (fail_new hooked ids release f now
    (recordDependencies (zip (imap (fun n _ => fresh n) (sr_Inputs req)) (sr_Inputs req)) d'))).
Proof.
  intros Hs Hspec Hun Hins Hdoom Hids. rewrite <- newcomers_rows in Hins. set (rows := newcomers fresh req fn spec root now d (sr_Inputs req)) in *.
  apply InsertTasks_spec in Hins as (-> & Hn & Hnew & Hone). rewrite map_map in Hn.
  assert (Hnone : forall r, r ∈ rows -> xd_tasks d !! r.1.1 = None)
    by (intros r Hr; apply (Hnew r.1), list_elem_of_In, in_map; by apply list_elem_of_In).
  assert (Hfree : forall id, id ∈ imap (fun n (_ : TaskInput) => fresh n) (sr_Inputs req) -> xd_tasks d !! id = None).
  { intros id Hid. apply elem_of_lookup_imap in Hid as (n & i & -> & Hi).
    apply (Hnone (fresh n, new_task req fn (rp_MaxAttempts (RetryPolicyOf big spec)) root (unmet_of d i) now (ti_Payload i), uniqueTasks (ti_DependsOn i))).
    by apply (elem_of_lookup_imap_2 (fun n i => (fresh n, new_task req fn _ root (unmet_of d i) now (ti_Payload i), uniqueTasks (ti_DependsOn i)))). }
  set (d1 := recordDependencies _ _).
  assert (H1 : core d1 = core (fold_left add_task rows d)).
  { destruct (adds_parts rows d) as (Et & Ed & Er). injection Er as E1 E2 E3 E4. unfold d1, recordDependencies, core. simpl.
    rewrite (newcomers_edges fresh req fn spec root now d). fold rows. by rewrite Et, Ed, E1, E2, E3, E4. }
  set (rows1 := map (failing (failed_queued f now) ids) rows). set (rows2 := map (failing (failed_queued g now) ids') rows1).
  apply (sound_core big d0 [] (fold_left add_task rows2 d)).
  - rewrite fail_new_core, (core_set_tasks _ _ _ (fold_left add_task rows1 d)); [apply failing_adds; auto|].
    rewrite fail_new_core, (core_set_tasks _ _ _ _ H1). apply failing_adds. auto.
  - assert (Hone' : all_one rows (xd_tasks d)) by (intros r Hr; apply (Hone r.1), list_elem_of_In, in_map; by apply list_elem_of_In).
    apply adds_sound; [done|by unfold rows2, rows1; rewrite !map_map| |by repeat apply failing_one; auto]. intros r Hr. unfold rows2, rows1 in Hr.
    rewrite map_map in Hr. apply list_elem_of_In, in_map_iff in Hr as (x & <- & Hx). apply list_elem_of_In in Hx.
    apply (decided_add_ok req fn spec root); [apply Hs|done|intros u; by apply (unknown_upstream_None (sr_Workspace req))|done|done|by apply Hnone].
Qed.

Context (function_of : SubmitRequest -> option FunctionRow) (machine_runs : uuid -> string -> bool) (Admit : uuid -> WorkloadSpec -> bool -> bool).

Lemma submit_checks_spec req fn d spec : submit_checks machine_runs Admit req fn d = Ret spec -> spec_of d (fn_Release fn) = Some spec.
Proof.
  unfold submit_checks. destruct (negb _); [done|]. destruct (spec_of d _); [|done]. destruct (_ && _); [done|]. destruct (_ >? _); [done|].
  destruct (negb _); [done|]. by intros [= ->].
Qed.

Lemma SubmitInTx_sound req clock now d : sound [] d ->
  goes (fun r => sound [] r.1) (SubmitInTx big hooked function_of machine_runs Admit fresh req clock now d).
Proof.
  intros Hs. unfold SubmitInTx. destruct (omap input_error _); [|done]. destruct (function_of req) as [fn|]; [|done].
  destruct (submit_checks _ _ _ _ _) as [spec|e| |] eqn:Hc; try done; [|unfold submit_checks in Hc; by repeat case_match..].
  apply submit_checks_spec in Hc. cbn [go_bind]. destruct (RetryStarts_around [fn_Release fn] clock d) as [Ha Hcs].
  destruct (RetryStarts _ _ _) as [d1 held]. cbn [fst] in *. assert (Hs0 : sound [] d1) by by apply (sound_same big d0 [] d).
  rewrite <- (ar_specs _ _ Ha) in Hc. clear Hs Ha Hcs d.
  destruct (parent_root req d1) as [root|e| |] eqn:Hr; try done; [|unfold parent_root in Hr; by repeat case_match..]. cbn [go_bind].
  destruct (unknown_upstream _ _ _) eqn:Hun; [done|]. destruct (InsertTasks _ _) as [d'|] eqn:Hins; [|done]. unfold goes. cbn [fst].
  set (out := match held !! fn_Release fn with Some _ => _ | None => _ end).
  apply (sound_core big d0 [] out); [done|]. unfold out. destruct (held !! _) as [f|].
  - rewrite <- (fail_nothing hooked (fail_new _ _ _ _ _ _) (fn_Release fn) f now).
    apply (insert_sound req fn spec root now d1 d'); try done; [|set_solver].
    intros n i Hi Hn. destruct Hn. apply (elem_of_lookup_imap_2 (fun n _ => fresh n) _ _ _ Hi).
  - apply (insert_sound req fn spec root now d1 d'); try done.
    + intros n i Hi Hn. destruct (doomed d1 i) eqn:E; [|done]. destruct Hn. by apply elem_new_where with i.
    + intros id [H|H]; by apply new_where_all in H.
Qed.

Lemma fail_new_identity ids release f now d id t : xd_tasks d !! id = Some t ->
  exists t', xd_tasks (fail_new hooked ids release f now d) !! id = Some t' /\ identity t' = identity t.
Proof.
  intros Ht. rewrite (core_tasks _ _ (fail_new_core _ _ _ _ _ _)). unfold set_tasks. simpl. rewrite map_lookup_imap, Ht. simpl.
  eexists. split; [done|]. by case_bool_decide.
Qed.

(** A submit that returns inserted a task for every input. *)
Lemma SubmitInTx_inserts req clock now d d' ids : SubmitInTx big hooked function_of machine_runs Admit fresh req clock now d = Ret (d', ids) ->
  ids = imap (fun n _ => fresh n) (sr_Inputs req) /\ exists fn, function_of req = Some fn /\ forall id, id ∈ ids -> xd_tasks d !! id = None /\
    exists t, xd_tasks d' !! id = Some t /\ tk_workspace t = sr_Workspace req /\ tk_workload t = fn_ID fn /\ tk_release t = fn_Release fn /\
      tk_scheduled_for t = sr_ScheduledFor req.
Proof.
  unfold SubmitInTx. destruct (omap input_error _); [|done]. destruct (function_of req) as [fn|]; [|done]. intros H.
  apply go_bind_Ret in H as (spec & _ & H). destruct (RetryStarts_around [fn_Release fn] clock d) as [Ha _].
  destruct (RetryStarts _ _ _) as [d1 held]. cbn [fst] in *. apply go_bind_Ret in H as (root & _ & H). destruct (unknown_upstream _ _ _); [done|].
  destruct (InsertTasks _ _) as [d2|] eqn:Hins; [|done]. apply Ret_inj in H. injection H as <- <-. split; [done|]. exists fn. split; [done|].
  apply InsertTasks_spec in Hins as (-> & Hn & Hnew & _). intros id Hid. apply elem_of_lookup_imap in Hid as (n & i & -> & Hi).
  set (row := new_task req fn (rp_MaxAttempts (RetryPolicyOf big spec)) root (unmet_of d1 i) now (ti_Payload i)).
  assert (Hin : (fresh n, row) ∈ new_rows big fresh req fn spec root now d1)
    by (by apply (elem_of_lookup_imap_2 (fun n i => (fresh n, new_task req fn _ root (unmet_of d1 i) now (ti_Payload i))))).
  split; [specialize (Hnew _ Hin); simpl in Hnew; by rewrite (ar_tasks _ _ Ha) in Hnew|].
  set (d3 := recordDependencies _ _). assert (H3 : xd_tasks d3 !! fresh n = Some row) by (apply inserts_lookup; [done|by left]).
  set (out := match held !! fn_Release fn with Some _ => _ | None => _ end).
  assert (Hout : exists t, xd_tasks out !! fresh n = Some t /\ identity t = identity row).
  { unfold out. destruct (held !! _); [by apply fail_new_identity|].
    destruct (fail_new_identity (new_where fresh (doomed d1) (sr_Inputs req)) (fn_Release fn)
      (failure_of FailureDependencyFailed "an upstream task failed or was cancelled") now d3 _ _ H3) as (t1 & H1 & E1).
    destruct (fail_new_identity (new_where fresh (too_large d1) (sr_Inputs req)) (fn_Release fn) dependenciesTooLarge now _ _ _ H1) as (t2 & H2 & E2).
    exists t2. split; [done|congruence]. }
  destruct Hout as (t & Ht & E). exists t. split; [exact Ht|]. unfold identity in E. injection E as E1 E2 E3 _ _ _ E4 _. done.
Qed.
End Admission.
End SubmitInv.
