(* ===== verification/ExecOps.v ===== *)
(** Every transaction of execution keeps its tables sound: the completions,
    cancellations, reports, stops and recovery of [Attempts] and [Claims], a
    claim, a submit, and planning, which never ends an attempt. *)

From S2P Require Import Prelude Float64 Capacity Catalog GoLib Billing Policy Placement Exec Attempts Claims Submit Scaling ExecInv ExecSteps ExecAdvance ExecFinish ExecClaims.

Section Ops.
Context (big : float64 -> Z) (d0 : db) (hooked : uuid -> bool) (uuid_text : uuid -> string).
#[local] Abbreviation ok := (ExecInv.inv big [] [] []).
#[local] Abbreviation sound := (ExecClaims.sound big d0).
#[local] Abbreviation finish := (finishAttempts big hooked uuid_text).
#[local] Abbreviation exited := (containerExited big hooked uuid_text).

Create HintDb exec_sound.
#[local] Hint Resolve containerExited_sound : exec_sound.

Lemma exits_sound X (f : ContainerID -> ContainerExit) ids now d : sound X d -> goes (sound X) (go_fold (fun d id => exited id (f id) now d) ids d).
Proof. intros Hs. apply goes_fold; [|done]. eauto with exec_sound. Qed.

(** ** Completions *)

(** What hosts report: a success or a failure. *)
Definition host_outcome (o : AttemptOutcome) : Prop := ao_State o = AttemptSucceeded \/ ao_State o = AttemptFailed.

Lemma sized_ok o : host_outcome o -> ao_State (sized_outcome o) <> AttemptCancelled.
Proof. intros Ho. unfold sized_outcome. destruct (ao_Result o); [destruct (_ >? _)|]; destruct Ho; simpl; congruence. Qed.

Lemma complete_tx_sound host cs now d : sound [] d -> (forall c, c ∈ cs -> host_outcome c.2) ->
  goes (fun r => sound [] r.1) (complete_tx big hooked uuid_text host cs now d).
Proof.
  intros Hs Ho. unfold complete_tx. eapply goes_bind; [apply (finish_sound big d0 hooked uuid_text []); [done|]|].
  - intros o Hin. apply list_elem_of_In, in_map_iff in Hin as (c & <- & Hc). simpl. apply sized_ok, Ho. by apply list_elem_of_In.
  - intros r (H & _). exact H.
Qed.

Lemma CompleteAttempts_sound host cs now d : sound [] d -> (forall c, c ∈ cs -> host_outcome c.2) ->
  exists r, CompleteAttempts big hooked uuid_text host cs now d = Ret r /\ sound [] r.1.
Proof.
  intros Hs Ho. unfold CompleteAttempts. pose proof (complete_tx_sound host cs now d Hs Ho) as Ht.
  destruct (complete_tx _ _ _ host cs now d) as [r|e| |]; try done; [eauto|].
  assert (H : forall l s, (forall c, c ∈ l -> host_outcome c.2) -> sound [] s.1 ->
    exists r, go_fold (complete_one big hooked uuid_text host now) l s = Ret r /\ sound [] r.1).
  { induction l as [|c l IH]; intros s Hl Hs1; simpl; [eauto|]. unfold complete_one at 1.
    pose proof (complete_tx_sound host [c] now s.1 Hs1) as Hc. destruct (complete_tx _ _ _ host [c] now s.1) as [[d1 errs]|?| |]; simpl.
    - apply IH; [set_solver|]. apply Hc. set_solver.
    - apply IH; [set_solver|done].
    - by ospecialize (Hc _); [set_solver|].
    - by ospecialize (Hc _); [set_solver|]. }
  by apply H.
Qed.

(** ** Cancelling *)

Lemma ends_rest d d1 d' : ends_only d d1 -> rest d' = rest d1 -> ends_only d d'.
Proof.
  intros [Hc Hr Hs] (Ea & Ec & _ & Er)%rest_parts. constructor; [congruence..|]. eapply shrinks_trans; [exact Hs|]. by apply shrinks_refl.
Qed.

Lemma cancelTask_rest w id now d d' b : cancelTask big hooked uuid_text w id now d = Ret (d', b) -> ok d -> ends_only d d'.
Proof.
  intros H Hi. unfold cancelTask in H. destruct (xd_tasks d !! id) as [t|] eqn:Ht; [|done].
  destruct (match w with Some _ => _ | None => _ end); [done|].
  destruct (Terminal (tk_status t)) eqn:Hl; [injection H as <- _; constructor; [done|done|by apply shrinks_refl]|].
  set (dc := recordCallbacks _ _ _ _) in H.
  assert (Hc0 : rest dc = rest d) by (unfold dc; by rewrite rest_callbacks). apply rest_parts in Hc0 as (Ea & Ec & _ & Er).
  apply go_bind_Ret in H as (d1 & H1 & H). apply Ret_inj, (f_equal fst) in H. cbn [fst] in H. subst d'.
  assert (He : ends_only d d1).
  { destruct (tk_status t) eqn:Hs; try done; [destruct (tk_current t); apply Ret_inj in H1; subst d1; constructor; try congruence; by apply shrinks_refl|].
    destruct (tk_current t) as [a|] eqn:Ha; [|apply Ret_inj in H1; subst d1; constructor; try congruence; by apply shrinks_refl].
    destruct (i_cur _ _ _ _ _ Hi id t a Ht Hs Ha) as (r & Hr & Hid & [Hrun|]); [|set_solver].
    destruct (ao_container _ _ _ _ (i_att _ _ _ _ _ Hi a r Hr)) as [c Hc].
    rewrite (cancel_attempt big hooked uuid_text a r) in H1;
      [|by rewrite Ea|done|exists (finish_task TaskCancelled now t), c; rewrite Ec, Hid; split_and!;
        [unfold dc; rewrite (core_tasks _ _ (core_callbacks _ _ _ _)); unfold CancelTask, set_task; simpl; by rewrite lookup_alter_eq, Ht|done|done]].
    cbn [go_bind fst] in H1. destruct (_ ≫= _) as [cc|]; [|done]. apply Ret_inj in H1. subst d1.
    constructor; [by destruct (ct_host cc)|by destruct (ct_host cc)|].
    intros b' x Hx Hrun'. assert (Hx' : xd_attempts (set_attempt now (a, AttemptCancelled, false) dc) !! b' = Some x) by by destruct (ct_host cc).
    apply (SetAttemptStates_running [(a, AttemptCancelled, false)] now dc) in Hx' as [_ Hx']; [by rewrite Ea in Hx'| |done].
    intros v ->%list_elem_of_singleton. done. }
  eapply ends_rest; [exact He|]. rewrite rest_Notify, rest_finished, rest_Notify. apply rest_fail_dependents.
Qed.

Lemma cancelTask_sound w id now d : sound [] d -> goes (fun r => sound [] r.1) (cancelTask big hooked uuid_text w id now d).
Proof.
  intros Hs. pose proof (cancelTask_ok big hooked uuid_text w id now d (so_inv _ _ _ _ Hs)) as Hc.
  destruct (cancelTask _ _ _ _ _ _ _) as [[d' b]|e| |] eqn:E; try done. destruct Hc as [Hi' Hf]. simpl.
  apply (sound_ends big d0 [] d); [done|done|done|]. apply (cancelTask_rest w id now d d' b); [done|apply Hs].
Qed.

Lemma StopTasks_sound w ids now d : sound [] d -> sound [] (StopTasks big hooked uuid_text w ids now d).1.1.1.
Proof.
  revert d. induction ids as [|id ids IH]; intros d Hs; simpl; [done|]. pose proof (cancelTask_sound (Some w) id now d Hs) as Hc.
  destruct (cancelTask _ _ _ _ _ _ _) as [[d' b]|e| |]; try done.
  - specialize (IH d' Hc). destruct b; destruct (StopTasks _ _ _ w ids now d') as [[[]]]; done.
  - specialize (IH d Hs). destruct e; try done. destruct (StopTasks _ _ _ w ids now d) as [[[]]]; done.
Qed.

(** ** Reports *)

(** Some of the running attempts of a container end, each named once. *)
Lemma finish_lost f ids now d : sound [] d -> goes (fun r => sound [] r.1) (finish None (unfenced (lost_outcomes f ids)) now d).
Proof.
  intros Hs. eapply goes_mono; [apply (finish_sound big d0 hooked uuid_text []); [done|apply lost_finish_ok]|]. intros r (H & _). exact H.
Qed.

Lemma loseOmittedAttempts_sound r now d : sound [] d -> goes (sound []) (loseOmittedAttempts big hooked uuid_text r now d).
Proof.
  intros Hs. unfold loseOmittedAttempts. eapply goes_bind; [by apply finish_lost|]. intros x Hx. by destruct (existsb _ _).
Qed.

Lemma ready_sound id now d : sound [] d -> sound [] (MarkContainerReady id now d).
Proof. apply sound_touch; intros row; cbv beta; by case_bool_decide. Qed.

Lemma reset_sound release d : sound [] d -> sound [] (ResetStartFailures release d).
Proof. apply sound_same; [by apply around_release|done]. Qed.

Lemma report_ready_sound id c r now d : sound [] d -> goes (sound []) (report_ready big hooked uuid_text id c r now d).
Proof.
  intros Hs. unfold report_ready. set (d1 := if ct_state c == ContainerStarting then Notify _ _ _ else d). set (d2 := match ct_release c with Some _ => _ | None => _ end).
  assert (H1 : sound [] d1) by (unfold d1; case_bool_decide; [eapply sound_core; [apply core_Notify|]; by apply ready_sound|done]).
  apply loseOmittedAttempts_sound. unfold d2. destruct (ct_release c) as [release|]; [|done]. case_bool_decide; [|done].
  apply (sound_core big d0 [] (ResetStartFailures release d1)); [done|]. by apply reset_sound.
Qed.

Lemma ApplyReport_sound host r now d : sound [] d -> goes (fun x => sound [] x.1) (ApplyReport big hooked uuid_text host r now d).
Proof.
  intros Hs. unfold ApplyReport. destruct (xd_containers d !! _) as [c|]; [|done]. destruct (_ || _); [done|].
  destruct (rt_Phase r); try done.
  - eapply goes_bind; [by apply report_ready_sound|]. done.
  - eapply goes_bind; [by apply containerExited_sound|]. done.
Qed.

Lemma ReconcileHost_sound host reports now d : sound [] d ->
  goes (fun x => sound [] x.1) (ReconcileHost big hooked uuid_text host reports now d).
Proof.
  intros Hs. unfold ReconcileHost. eapply (goes_bind (fun s => sound [] s.1)).
  - apply goes_fold; [|done]. intros s r Hs1. unfold reconcile_report. eapply goes_bind; [by apply ApplyReport_sound|]. done.
  - intros s Hs1. eapply goes_bind; [by apply exits_sound|]. done.
Qed.

(** ** Stops and drains *)

Lemma stopContainer_sound w id cause now d : sound [] d -> goes (sound []) (stopContainer big hooked uuid_text w id cause now d).
Proof.
  intros Hs. unfold stopContainer. destruct (xd_containers d !! id) as [c|]; [|done]. destruct (ct_release c) as [rel|]; [|done].
  destruct (negb _); [done|].
  assert (Hd : sound [] (set_container (fun c => if drains c then drained now c else c) id d)).
  { apply sound_touch; [intros row; by destruct (drains row)|intros row Hr; by destruct (drains row)|done]. }
  destruct (ct_state c); try done; try (by apply containerExited_sound);
    (eapply goes_bind; [by apply finish_lost|]); intros r Hr; (apply (sound_core big d0 [] r.1); [by rewrite core_Notify, core_host|done]).
Qed.

Lemma StartFailed_sound host id m now d : sound [] d -> goes (sound []) (StartFailed big hooked uuid_text host id m now d).
Proof.
  intros Hs. unfold StartFailed. destruct (xd_containers d !! id); [|done]. repeat case_match; try done. by apply containerExited_sound.
Qed.

Lemma StopHostContainers_sound host m now d : sound [] d -> goes (fun r => sound [] r.1) (StopHostContainers big hooked uuid_text host m now d).
Proof. intros Hs. unfold StopHostContainers. eapply goes_bind; [by apply exits_sound|]. done. Qed.

Lemma drainHost_sound host ws now d : sound [] d -> sound [] (drainHost host ws now d).
Proof.
  intros Hs. unfold drainHost. destruct (containers_where _ d); [done|].
  assert (Hf : forall rows d1, core (fold_left notify_owner rows d1) = core d1).
  { induction rows as [|row rows IH]; intros d1; simpl; [done|]. rewrite IH. unfold notify_owner. by destruct (ct_release row), (ct_build row). }
  eapply sound_core; [by rewrite Hf, core_Notify|]. change (@nil ContainerID) with ([] ++ @nil ContainerID).
  apply (sound_around big d0 [] [] d); [apply around_containers| |done]. intros c row'. unfold set_containers. simpl. rewrite map_lookup_imap.
  destruct (_ !! c) as [row|]; [|done]. simpl. intros [= <-]. exists row. split; [done|]. destruct (drains_on _ _ _); [|by auto]. done || (split; [done|]; by left).
Qed.

Lemma EvictContainers_sound ids now d : sound [] d -> goes (sound []) (EvictContainers big hooked uuid_text ids now d).
Proof. intros Hs. unfold EvictContainers. by apply (exits_sound [] (fun _ => _)). Qed.

Lemma StopUnfunded_sound w reason now d : sound [] d -> goes (sound []) (StopUnfunded big hooked uuid_text w reason now d).
Proof. intros Hs. unfold StopUnfunded. apply goes_fold; [|done]. intros d' id Hd. by apply stopContainer_sound. Qed.

(** ** Recovery *)

Lemma time_out_attempt_sound id host now d : sound [] d -> goes (sound []) (time_out_attempt big hooked uuid_text id host now d).
Proof.
  intros Hs. unfold time_out_attempt. eapply goes_bind; [apply (finish_sound big d0 hooked uuid_text []); [done|]|].
  - intros o ->%list_elem_of_singleton. done.
  - intros r (H & _). destruct (existsb _ _); [done|]. apply (sound_core big d0 [] r.1); [apply core_host|done].
Qed.

Lemma TimeOutAttempts_sound now d : sound [] d -> sound [] (TimeOutAttempts big hooked uuid_text now d).1.
Proof.
  intros Hs. unfold TimeOutAttempts. apply (fold_left_inv (fun s : db * Z => sound [] s.1)); [done|]. intros [d1 n] r _ Hd. simpl.
  pose proof (time_out_attempt_sound r.1 (host_of d1 (ap_container r.2)) now d1 Hd) as H. by destruct (time_out_attempt _ _ _ _ _ _ _).
Qed.

Lemma time_out_start_sound id now d : sound [] d -> goes (sound []) (time_out_start big hooked uuid_text id now d).
Proof.
  intros Hs. unfold time_out_start. destruct (xd_containers d !! id); [|done]. destruct (stuck_starting _ _); [|done]. by apply containerExited_sound.
Qed.

Lemma TimeOutStarts_sound now d : sound [] d -> sound [] (TimeOutStarts big hooked uuid_text now d).
Proof.
  intros Hs. unfold TimeOutStarts. apply (fold_left_inv (sound [])); [done|]. intros d1 id _ Hd.
  pose proof (time_out_start_sound id now d1 Hd) as H. by destruct (time_out_start _ _ _ _ _ _).
Qed.

Lemma time_out_pending_sound id waits m timeout now d : sound [] d ->
  goes (sound []) (time_out_pending big hooked uuid_text id waits m timeout now d).
Proof.
  intros Hs. unfold time_out_pending. destruct (xd_containers d !! id); [|done]. destruct (_ && _); [|done]. by apply containerExited_sound.
Qed.

Lemma release_lost_host_sound host now d : sound [] d -> goes (sound []) (release_lost_host big hooked uuid_text host now d).
Proof. intros Hs. by apply (exits_sound [] (fun _ => _)). Qed.
End Ops.

(** ** The containers demand asks for *)

Lemma quot_up a b : 0 <= a -> 0 < b -> let n := Z.quot (a + b - 1) b in a <= n * b /\ (n - 1) * b < a \/ a = 0 /\ n = 0.
Proof.
  intros Ha Hb. cbn zeta. pose proof (Z.quot_rem' (a + b - 1) b). pose proof (Z.rem_bound_pos (a + b - 1) b ltac:(lia) Hb).
  destruct (decide (a = 0)) as [->|]; [right; split; [done|]; apply Z.quot_small; lia|left; nia].
Qed.

Lemma desired_bounds demand tasks minimum maximum : 0 <= desiredContainers demand tasks minimum maximum <= Z.max maximum 0.
Proof. unfold desiredContainers. lia. Qed.

(** ** Containers change, attempts stay *)

Section Sound.
Context (big : float64 -> Z) (d0 : db).
#[local] Abbreviation sound := (ExecClaims.sound big d0).

(** Draining keeps a serving container serving. *)
Lemma drain_sound g now d : (forall id c, g id c = true -> drains c = true) -> sound [] d -> sound [] (drain_where g now d).1.
Proof.
  intros Hg Hs. change (@nil ContainerID) with (@nil ContainerID ++ []). apply (sound_around big d0 [] [] d); [apply around_containers| |done].
  intros c row'. unfold drain_where, set_containers. simpl. rewrite map_lookup_imap. destruct (_ !! c) as [row|]; [|done]. simpl. intros [= <-].
  exists row. split; [done|]. destruct (g c row); [|by auto]. split; [done|]. by left.
Qed.

(** Stopping a pending container stops no attempt. *)
Lemma stop_pending_sound g message now d : (forall id c, xd_containers d !! id = Some c -> g id c = true -> ct_state c = ContainerPending) -> sound [] d ->
  sound [] (set_containers g (stopped_pending message now) d).
Proof.
  intros Hg Hs. change (@nil ContainerID) with (@nil ContainerID ++ []). apply (sound_around big d0 [] [] d); [apply around_containers| |done].
  intros c row'. unfold set_containers. simpl. rewrite map_lookup_imap. destruct (_ !! c) as [row|] eqn:Hc; [|done]. simpl. intros [= <-].
  exists row. split; [done|]. destruct (g c row) eqn:E; [|by auto]. split; [done|]. apply Hg in E; [|done]. rewrite E. done.
Qed.

(** The ids of new containers. *)
Definition fresh_containers (fresh : nat -> ContainerID) (d : db) : Prop :=
  (forall n, xd_containers d !! fresh n = None) /\ forall i j, fresh i = fresh j -> i = j.

Lemma created_lookup release cfg (fresh : nat -> ContainerID) (replaces : list ContainerID) now l (m : gmap ContainerID ContainerRow) c :
  fold_left (fun m n => <[fresh n := pending_container release cfg (replaces !! n) now]> m) l m !! c = m !! c \/
  exists n, n ∈ l /\ c = fresh n /\
    fold_left (fun m n => <[fresh n := pending_container release cfg (replaces !! n) now]> m) l m !! c =
    Some (pending_container release cfg (replaces !! n) now).
Proof.
  revert m. induction l as [|n l IH]; intros m; cbn [fold_left]; [by left|].
  destruct (IH (<[fresh n := pending_container release cfg (replaces !! n) now]> m)) as [E|(k & Hk & Hc & E)].
  - destruct (decide (c = fresh n)) as [->|Hne]; [right; exists n; split; [set_solver|]; split; [done|]; by rewrite E, lookup_insert_eq|].
    left. by rewrite E, lookup_insert_ne.
  - right. exists k. split; [set_solver|]. done.
Qed.

Lemma create_sound release cfg count replaces fresh now d : fresh_containers fresh d -> sound [] d ->
  sound [] (CreatePendingContainers release cfg count replaces fresh now d).
Proof.
  intros [Hf _] [Hi Hp Hs Hsp Hfi]. set (d' := CreatePendingContainers _ _ _ _ _ _ _).
  assert (Hl : forall c, xd_containers d' !! c = xd_containers d !! c \/
    xd_containers d !! c = None /\ exists r, xd_containers d' !! c = Some (pending_container release cfg r now)).
  { intros c. unfold d', CreatePendingContainers. simpl. destruct (created_lookup release cfg fresh replaces now (seq 0 count) (xd_containers d) c) as [|(n & _ & -> & E)]; [by left|].
    right. eauto. }
  assert (Hnone : forall a r, xd_attempts d !! a = Some r -> xd_containers d' !! ap_container r = xd_containers d !! ap_container r).
  { intros a r Hr. destruct (i_att _ _ _ _ _ Hi a r Hr) as [_ [c Hc] _ _]. destruct (Hl (ap_container r)) as [|[Hn _]]; [done|congruence]. }
  constructor.
  - apply (around_inv big [] [] [] d); [|done]. constructor; try done. intros c [x Hx]. destruct (Hl c) as [-> |[Hn _]]; [eauto|congruence].
  - intros a r c Hr Hrun Hc. rewrite (Hnone a r Hr) in Hc. by apply (Hp a r c).
  - intros c row Hrow. destruct (Hl c) as [E|[Hn _]]; [rewrite E in Hrow; by apply Hs|].
    assert (E : RunningAttemptsOnContainer c d' = []).
    { destruct (RunningAttemptsOnContainer c d') as [|a l] eqn:El; [done|].
      assert (a ∈ RunningAttemptsOnContainer c d') as Ha by (rewrite El; set_solver). apply RunningAttempts_spec in Ha as (r & Hr & <- & _).
      destruct (i_att _ _ _ _ _ Hi a r Hr) as [_ [x Hx] _ _]. congruence. }
    unfold running_on. rewrite E. simpl. lia.
  - exact Hsp.
  - apply (final_trans _ d); [done|by apply final_refl].
Qed.

(** ** Planning one release *)

Context (leaves locked : ContainerID -> bool).

Lemma drainLeaving_sound ids now s : sound [] s.1 -> sound [] (drainLeaving locked ids now s).1.
Proof.
  intros Hs. unfold drainLeaving. destruct ids as [|i ids]; [done|]. destruct (drain_where _ _ _) as [d rows] eqn:E.
  apply (sound_core big d0 [] d); [done|]. change d with (d, rows).1. rewrite <- E. apply drain_sound; [|done].
  intros id c H. unfold drains_now in H. apply andb_true_iff in H as [H _]. by apply andb_true_iff in H as [_ H].
Qed.

Lemma leave_sound release may now s : sound [] s.1 -> sound [] (leave leaves locked release may now s).2.1.
Proof.
  intros Hs. unfold leave. destruct may; [|done]. simpl. destruct (fold_left _ _ _) as [l drain]. by apply drainLeaving_sound.
Qed.

Lemma start_sound release cfg replaces count grant fresh now s : fresh_containers fresh s.1 -> sound [] s.1 ->
  (forall n, returns (grant n)) -> goes (fun x => sound [] x.1) (start locked release cfg replaces count grant fresh now s).
Proof.
  intros Hf Hs Hg. unfold start. destruct (Hg count) as [Hg1 Hg2]. destruct (grant count) as [[n|]| | |]; try done. cbn [go_bind].
  set (s' := if _ <? _ then drainLeaving _ _ _ _ else s). assert (Hs' : sound [] s'.1) by (unfold s'; destruct (_ <? _); [by apply drainLeaving_sound|done]).
  destruct (n =? 0); [done|]. simpl. apply create_sound; [|done].
  destruct Hf as [Hf Hinj]. split; [|done]. intros k. unfold s'. destruct (_ <? _); [|done]. unfold drainLeaving. destruct (drop _ _); [done|].
  simpl. rewrite map_lookup_imap. by rewrite Hf.
Qed.

Lemma pending_only release (now : Z) d count id c : xd_containers d !! id = Some c ->
  id ∈ map fst (take count (sort_by newest_order (List.filter (fun c => serves release c.2 && (ct_state c.2 == ContainerPending) &&
    negb (locked c.1)) (map_to_list (xd_containers d))))) -> ct_state c = ContainerPending.
Proof.
  intros Hc Hin. apply list_elem_of_In, in_map_iff in Hin as ([i x] & <- & Hin). apply list_elem_of_In in Hin.
  apply (sublist_subseteq _ _ (sublist_take _ _)), list_elem_of_In, sort_by_In, filter_In in Hin as [Hin Hg].
  apply list_elem_of_In, elem_of_map_to_list in Hin. simpl in *. rewrite Hc in Hin. injection Hin as <-.
  apply andb_true_iff in Hg as [Hg _]. apply andb_true_iff in Hg as [_ Hg]. by apply bool_decide_eq_true in Hg.
Qed.

Lemma StopPending_sound release count now d : sound [] d -> sound [] (StopPendingContainers locked release count now d).1.
Proof.
  intros Hs. apply stop_pending_sound; [|done]. intros id c Hc Hin. apply bool_decide_eq_true in Hin. by apply (pending_only release now d count id).
Qed.

Lemma drainIdle_sound release keepWarm count now s : sound [] s.1 -> sound [] (drainIdle locked release keepWarm count now s).1.
Proof.
  intros Hs. unfold drainIdle. destruct (LockIdleContainers _ _ _ _ _ _) as [|i ids]; [done|]. destruct (drain_where _ _ _) as [d rows] eqn:E.
  apply (sound_core big d0 [] d); [done|]. change d with (d, rows).1. rewrite <- E. apply drain_sound; [|done].
  intros id c H. apply andb_true_iff in H as [_ H]. unfold idle in H. apply andb_true_iff in H as [H _]. apply andb_true_iff in H as [H _].
  apply bool_decide_eq_true in H. unfold drains. by rewrite H.
Qed.

Lemma drain_free fresh g now d : fresh_containers fresh d -> fresh_containers fresh (drain_where g now d).1.
Proof. intros [Hf Hinj]. split; [|done]. intros n. simpl. by rewrite map_lookup_imap, Hf. Qed.

Lemma leave_free fresh release may now s : fresh_containers fresh s.1 -> fresh_containers fresh (leave leaves locked release may now s).2.1.
Proof.
  intros Hf. unfold leave. destruct may; [|done]. simpl. destruct (fold_left _ _ _) as [l drain]. simpl. unfold drainLeaving.
  destruct drain; [done|]. by apply (drain_free fresh _ now).
Qed.

Lemma planRelease_sound r grant fresh clock now d : sound [] d -> fresh_containers fresh d -> (forall n, returns (grant n)) ->
  goes (fun x => sound [] x.1) (planRelease leaves locked r grant fresh clock now d).
Proof.
  intros Hs Hf Hg. unfold planRelease. destruct (_ || _); [done|].
  pose proof (leave_sound (pr_Release r) (pr_Leaving r) now (d, no_plan) Hs) as Hl.
  pose proof (leave_free fresh (pr_Release r) (pr_Leaving r) now (d, no_plan) Hf) as Hf'.
  destruct (leave _ _ _ _ _ _) as [l s]. cbn [snd] in *. destruct (counts _ _ _ _ _) as [active live].
  destruct (starts _ _ _ _) as [pairs grow]. destruct (_ >? 0).
  - destruct (holdStart _ _ _); [done|]. by apply start_sound.
  - destruct (active >? _); [|done]. set (desired := desiredContainers _ _ _ _).
    pose proof (StopPending_sound (pr_Release r) (Z.to_nat (Z.min (active - desired) (pr_Pending r))) now s.1 Hl) as Hp.
    destruct (Z.min _ _ >? 0).
    + destruct (StopPendingContainers _ _ _ _ _) as [d' stopped]. cbn [fst] in Hp. destruct (_ && _); [|done]. by apply drainIdle_sound.
    + destruct (_ && _); [|done]. by apply drainIdle_sound.
Qed.

(** ** Winding down *)

Context (hooked : uuid -> bool) (uuid_text : uuid -> string).

Lemma queued_among_all ids d : NoDup ids -> all_queued d (queued_among ids d).
Proof.
  intros Hn. split; [by apply NoDup_ListNoDup, List.NoDup_filter, NoDup_ListNoDup|]. intros id Hin. apply list_elem_of_In, filter_In in Hin as [_ Hg].
  unfold status_of. destruct (xd_tasks d !! id); [|done]. apply bool_decide_eq_true in Hg. simpl. by rewrite Hg.
Qed.

(** Queued tasks are cancelled, and what waits on them fails. *)
Lemma cancel_queued_sound ids now d : NoDup ids -> sound [] d ->
  let '(d1, cancelled) := CancelQueuedTasks ids now d in
  sound [] (fail_dependents hooked uuid_text cancelled now
    (notifyFinished cancelled (NotifyAll ChannelTask cancelled (recordCallbacks hooked CallbackCancelled (plain cancelled) d1)))).
Proof.
  intros Hn Hs. unfold CancelQueuedTasks. set (live := queued_among ids d). set (d1 := set_tasks _ _ _). set (d2 := notifyFinished _ _).
  assert (Hi1 : ExecInv.inv big [] [] (live ++ []) d1) by (apply end_queued_inv; [apply ends_cancelled|apply Hs|by apply queued_among_all]).
  assert (Hc : core d2 = core d1) by (unfold d2; rewrite core_finished, core_NotifyAll; apply core_callbacks).
  assert (Hr : rest (fail_dependents hooked uuid_text live now d2) = rest d) by (rewrite rest_fail_dependents, (core_rest _ _ Hc); done).
  apply rest_parts in Hr as (Ea & Ec & _ & Er).
  apply (sound_ends big d0 [] d); [done| | |constructor; [done|done|by apply shrinks_refl]].
  2: { apply (final_trans _ d1); [apply final_set_tasks; [done|by apply queued_open, queued_among_all]|].
    eapply final_trans; [by apply final_core|apply fail_dependents_final]. }
  eapply fail_dependents_inv; [apply (inv_core big _ _ _ _ _ (eq_sym Hc) Hi1)|]. set_solver.
Qed.

Lemma cancels_sound ids now d : sound [] d ->
  goes (sound []) (go_fold (fun d id => x <-! cancelTask big hooked uuid_text None id now d; Ret x.1) ids d).
Proof.
  intros Hs. apply goes_fold; [|done]. intros d1 id H1. eapply goes_bind; [by apply cancelTask_sound|]. done.
Qed.

Lemma stopRelease_sound r arrange now d : sound [] d -> (forall l, arrange l ≡ₚ l) ->
  goes (fun x => sound [] x.1) (stopRelease big hooked uuid_text r arrange now d).
Proof.
  intros Hs Hp. unfold stopRelease, StopAllPendingContainers. set (d1 := set_containers _ _ _).
  assert (H1 : sound [] d1) by (apply stop_pending_sound; [|done]; intros id c _ Hg; apply andb_true_iff in Hg as [_ Hg]; by apply bool_decide_eq_true in Hg).
  set (g := fun (_ : ContainerID) c => _). destruct (drain_where g now d1) as [d2 rows] eqn:E2.
  assert (H2 : sound [] (notifyHosts rows d2)).
  { apply (sound_core big d0 [] d2); [done|]. change d2 with (d2, rows).1. rewrite <- E2. apply drain_sound; [|done]. intros id c Hg. by apply andb_true_iff in Hg as [_ Hg]. }
  set (ids := LockQueuedWithDependents _ _ _ _). pose proof (cancel_queued_sound ids now (notifyHosts rows d2)) as H3.
  destruct (CancelQueuedTasks ids now (notifyHosts rows d2)) as [d3 cancelled]. specialize (H3 ltac:(by apply queued_with_spec) H2).
  destruct (negb _); [done|]. eapply goes_bind; [by apply cancels_sound|]. done.
Qed.
End Sound.
