(* ===== verification/ExecMachine.v ===== *)
(** Execution as a state machine: one step per transaction of
    src/internal/execution, with the rows other components write, and what
    holds in every state the steps reach. *)

From S2P Require Import Prelude Float64 Capacity Catalog GoLib Billing Policy Placement Exec Attempts Claims Submit Scaling ExecInv ExecSteps ExecAdvance ExecFinish ExecClaims ExecSubmit ExecOps.

Section Machine.
Context (big : float64 -> Z) (hooked : uuid -> bool) (uuid_text : uuid -> string).
#[local] Abbreviation sound := (ExecClaims.sound big).

(** A container that gets a host. *)
Definition placed_on (host : uuid) (now : Z) (c : ContainerRow) : ContainerRow :=
  if ct_state c == ContainerPending
  then c <| ct_state := ContainerStarting |> <| ct_host := Some host |> <| ct_assigned_at := Some now |> else c.

(** A transaction: those of execution, whatever the clock, the ids drawn, the
    rows other transactions hold and billing's answers; and the writes of
    other components it builds on, a release, a container and its host. *)
Inductive step (d : db) : db -> Prop :=
  | step_submit function_of machine_runs Admit fresh req clock now d' ids :
      SubmitInTx big hooked function_of machine_runs Admit fresh req clock now d = Ret (d', ids) -> step d d'
  | step_claim host c maxTasks locked fresh now d' tasks next : fresh_ok fresh d ->
      claimOnce host c maxTasks locked fresh now d = Ret (d', tasks, next) -> step d d'
  | step_complete host cs now d' errs : (forall c, c ∈ cs -> host_outcome c.2) ->
      CompleteAttempts big hooked uuid_text host cs now d = Ret (d', errs) -> step d d'
  | step_cancel workspace id now d' b : cancelTask big hooked uuid_text workspace id now d = Ret (d', b) -> step d d'
  | step_exit id e now d' : containerExited big hooked uuid_text id e now d = Ret d' -> step d d'
  | step_report host r now d' actions : ApplyReport big hooked uuid_text host r now d = Ret (d', actions) -> step d d'
  | step_start_failed host id message now d' : StartFailed big hooked uuid_text host id message now d = Ret d' -> step d d'
  | step_stop workspace id cause now d' : stopContainer big hooked uuid_text workspace id cause now d = Ret d' -> step d d'
  | step_stop_host host message now d' n : StopHostContainers big hooked uuid_text host message now d = Ret (d', n) -> step d d'
  | step_drain_host host workspaces now : step d (drainHost host workspaces now d)
  | step_evict ids now d' : EvictContainers big hooked uuid_text ids now d = Ret d' -> step d d'
  | step_time_out_attempt id host now d' : time_out_attempt big hooked uuid_text id host now d = Ret d' -> step d d'
  | step_time_out_start id now d' : time_out_start big hooked uuid_text id now d = Ret d' -> step d d'
  | step_time_out_pending id waits message timeout now d' :
      time_out_pending big hooked uuid_text id waits message timeout now d = Ret d' -> step d d'
  | step_lost_host host now d' : release_lost_host big hooked uuid_text host now d = Ret d' -> step d d'
  | step_plan leaves locked r grant fresh clock now d' plan : fresh_containers fresh d -> (forall n, returns (grant n)) ->
      planRelease leaves locked r grant fresh clock now d = Ret (d', plan) -> step d d'
  | step_wind_down r arrange now d' plan : (forall l, arrange l ≡ₚ l) ->
      stopRelease big hooked uuid_text r arrange now d = Ret (d', plan) -> step d d'
  | step_release id (r : ReleaseRow) : xd_releases d !! id = None -> (forall i t, xd_tasks d !! i = Some t -> tk_release t <> id) ->
      (forall s, rl_spec r = Some s -> 1 <= rp_MaxAttempts (RetryPolicyOf big s)) ->
      step d (d <| xd_releases := <[id := r]> (xd_releases d) |>)
  | step_container id c : xd_containers d !! id = None -> step d (d <| xd_containers := <[id := c]> (xd_containers d) |>)
  | step_place id host now : step d (set_container (placed_on host now) id d).

Inductive reachable : db -> Prop :=
  | reachable_empty : reachable empty_db
  | reachable_step d d' : reachable d -> step d d' -> reachable d'.

Lemma release_sound d0 id r d : sound d0 [] d -> xd_releases d !! id = None ->
  (forall i t, xd_tasks d !! i = Some t -> tk_release t <> id) -> (forall s, rl_spec r = Some s -> 1 <= rp_MaxAttempts (RetryPolicyOf big s)) ->
  sound d0 [] (d <| xd_releases := <[id := r]> (xd_releases d) |>).
Proof.
  intros [Hi Hp Hs Hsp Hfi] Hnew Hnone Hr. set (d' := d <| xd_releases := _ |>).
  assert (Hl : forall i t, xd_tasks d !! i = Some t -> limit_of big d' t = limit_of big d t).
  { intros i t Ht. unfold limit_of, policy_of, spec_of. simpl. rewrite lookup_insert_ne; [done|]. intros E. by apply (Hnone i t Ht). }
  constructor; [|exact Hp|exact Hs| |].
  - destruct Hi as [R C A U D W P E K]. constructor; try assumption.
    + intros i t Ht. rewrite (Hl i t Ht). by apply (R i).
    + intros a x Hx. destruct (A a x Hx). by constructor.
    + intros i t Ht. destruct (D i t Ht). by constructor.
  - intros i s. unfold spec_of. simpl. destruct (decide (i = id)) as [->|Hne]; [rewrite lookup_insert_eq; simpl; apply Hr|].
    rewrite lookup_insert_ne by done. apply Hsp.
  - apply (final_trans _ d); [done|by apply final_refl].
Qed.

Lemma container_sound d0 id c d : sound d0 [] d -> xd_containers d !! id = None ->
  sound d0 [] (d <| xd_containers := <[id := c]> (xd_containers d) |>).
Proof.
  intros [Hi Hp Hs Hsp Hfi] Hnew. set (d' := d <| xd_containers := _ |>).
  assert (Hne : forall a r, xd_attempts d !! a = Some r -> ap_container r <> id).
  { intros a r Hr E. destruct (i_att _ _ _ _ _ Hi a r Hr) as [_ [x Hx] _ _]. congruence. }
  constructor; [| | |exact Hsp|apply (final_trans _ d); [done|by apply final_refl]].
  - apply (around_inv big [] [] [] d); [|done]. constructor; try done. intros x Hx. simpl. apply lookup_insert_is_Some'. by right.
  - intros a r row Hr Hrun Hrow. simpl in Hrow. rewrite lookup_insert_ne in Hrow by (apply not_eq_sym; by apply (Hne a)). by apply (Hp a r row).
  - intros x row Hrow. simpl in Hrow. apply lookup_insert_Some in Hrow as [[<- <-]|[Hx Hrow]]; [|by apply Hs].
    unfold running_on. destruct (RunningAttemptsOnContainer id d') as [|a l] eqn:E; [simpl; lia|].
    assert (a ∈ RunningAttemptsOnContainer id d') as Ha by (rewrite E; set_solver). apply RunningAttempts_spec in Ha as (r & Hr & Hc & _).
    by destruct (Hne a r Hr).
Qed.

Lemma placed_on_sound d0 id host now d : sound d0 [] d -> sound d0 [] (set_container (placed_on host now) id d).
Proof. apply sound_touch; intros row; unfold placed_on; case_bool_decide as E; try done. by rewrite E. Qed.

Lemma goes_Ret {A} (P : A -> Prop) r a : goes P r -> r = Ret a -> P a.
Proof. by intros H ->. Qed.

(** One transaction keeps the tables sound, and finished tasks as they are. *)
Lemma step_sound d0 d d' : sound d0 [] d -> step d d' -> sound d0 [] d'.
Proof.
  intros Hs H. destruct H.
  - refine (goes_Ret (fun r => sound d0 [] r.1) _ (d', _) _ ltac:(eassumption)). by apply SubmitInTx_sound.
  - refine (goes_Ret (fun r => sound d0 [] r.1.1) _ (d', _, _) _ ltac:(eassumption)). by apply claimOnce_sound.
  - destruct (CompleteAttempts_sound big d0 hooked uuid_text host cs now d Hs) as (r & E & Hr); [done|]. rewrite E in H0. by injection H0 as ->.
  - refine (goes_Ret (fun r => sound d0 [] r.1) _ (d', _) _ ltac:(eassumption)). by apply cancelTask_sound.
  - eapply goes_Ret; [by apply containerExited_sound|done].
  - refine (goes_Ret (fun r => sound d0 [] r.1) _ (d', _) _ ltac:(eassumption)). by apply ApplyReport_sound.
  - eapply goes_Ret; [by apply StartFailed_sound|done].
  - eapply goes_Ret; [by apply stopContainer_sound|done].
  - refine (goes_Ret (fun r => sound d0 [] r.1) _ (d', _) _ ltac:(eassumption)). by apply StopHostContainers_sound.
  - by apply drainHost_sound.
  - eapply goes_Ret; [by apply EvictContainers_sound|done].
  - eapply goes_Ret; [by apply time_out_attempt_sound|done].
  - eapply goes_Ret; [by apply time_out_start_sound|done].
  - eapply goes_Ret; [by apply time_out_pending_sound|done].
  - eapply goes_Ret; [by apply release_lost_host_sound|done].
  - refine (goes_Ret (fun r => sound d0 [] r.1) _ (d', _) _ ltac:(eassumption)). by apply planRelease_sound.
  - refine (goes_Ret (fun r => sound d0 [] r.1) _ (d', _) _ ltac:(eassumption)). by apply stopRelease_sound.
  - by apply release_sound.
  - by apply container_sound.
  - by apply placed_on_sound.
Qed.
End Machine.
