(* ===== verification/ExecDemo.v ===== *)
(** A short history of execution, evaluated: a release, a container that gets
    a host and becomes ready, two tasks of which the second waits on the first,
    a claim, a completion and another claim. *)

From S2P Require Import Prelude Float64 Capacity Catalog GoLib Billing Policy Placement Exec Attempts Claims Submit Scaling ExecInv ExecSteps ExecAdvance ExecFinish ExecClaims ExecSubmit ExecOps ExecMachine.

Definition demo_big : float64 -> Z := fun _ => min_int64.
Definition demo_hooked : uuid -> bool := fun _ => false.
Definition demo_text : uuid -> string := fun _ => "".
#[local] Abbreviation reachable := (ExecMachine.reachable demo_big demo_hooked demo_text).
#[local] Abbreviation step := (ExecMachine.step demo_big demo_hooked demo_text).

(** Release 7, three attempts; container 5 with two slots on host 3. *)
Definition demo_spec : WorkloadSpec := mkSpec (Some (mkRetrySpec 3 None None None None)) None (Some 100) None "".
Definition demo_row : ReleaseRow := mkRelease 1 (Some demo_spec) 0 None.
Definition demo_container : ContainerRow :=
  mkContainer 2 (Some 7) None ContainerPending None 2 PurposeServe 0 None None None None None None None None None None.
Definition demo_input : Payload := mkPayload EncodingJSON "[1]" None.
Definition demo_result : Payload := mkPayload EncodingJSON "2" None.
Definition demo_function : SubmitRequest -> option FunctionRow := fun _ => Some (mkFunction 1 7 None true true false).
Definition demo_submit (upstream : list TaskID) : SubmitRequest := mkSubmit 2 "app" "f" None None None [mkInput demo_input upstream].

Definition after {A} (f : A -> db) (r : go exec_error A) : db := match r with Ret a => f a | _ => empty_db end.

Definition demo1 : db := empty_db <| xd_releases := <[7 := demo_row]> ∅ |>.
Definition demo2 : db := demo1 <| xd_containers := <[5 := demo_container]> ∅ |>.
Definition demo3 : db := set_container (placed_on 3 10) 5 demo2.
Definition demo4 : db := Eval vm_compute in
  after fst (ApplyReport demo_big demo_hooked demo_text 3 (mkReport 5 ReportReady None [] 20) 20 demo3).
Definition demo5 : db := Eval vm_compute in
  after fst (SubmitInTx demo_big demo_hooked demo_function (fun _ _ => true) (fun _ _ _ => true) (fun n => 10 + Z.of_nat n) (demo_submit []) 30 30 demo4).
Definition demo6 : db := Eval vm_compute in
  after fst (SubmitInTx demo_big demo_hooked demo_function (fun _ _ => true) (fun _ _ _ => true) (fun n => 11 + Z.of_nat n) (demo_submit [10]) 40 40 demo5).
Definition demo7 : db := Eval vm_compute in after (fun r => r.1.1) (claimOnce 3 5 4 (fun _ => false) (fun id => 100 + id) 50 demo6).
Definition demo8 : db := Eval vm_compute in
  after fst (CompleteAttempts demo_big demo_hooked demo_text 3 [(5, mkOutcome 110 AttemptSucceeded (Some demo_result) None)] 60 demo7).
(** The one attempt so far is 110; new ids differ from it. *)
Definition demo_ids (id : TaskID) : AttemptID := if id =? 11 then 200 else 1000 + 2 * Z.abs id + (if id <? 0 then 1 else 0).
Definition demo9 : db := Eval vm_compute in after (fun r => r.1.1) (claimOnce 3 5 4 (fun _ => false) demo_ids 70 demo8).

Lemma demo3_reached : reachable demo3.
Proof.
  eapply reachable_step; [eapply reachable_step; [eapply reachable_step; [constructor|]|]|].
  - apply (step_release demo_big demo_hooked demo_text empty_db 7 demo_row); [done|intros i t H; simpl in H; by rewrite lookup_empty in H|].
    intros s [= <-]. vm_compute. done.
  - by apply (step_container demo_big demo_hooked demo_text demo1 5 demo_container).
  - apply (step_place demo_big demo_hooked demo_text demo2 5 3 10).
Qed.

Lemma demo4_reached : reachable demo4.
Proof.
  eapply reachable_step; [exact demo3_reached|].
  eapply (step_report _ _ _ _ 3 (mkReport 5 ReportReady None [] 20) 20 _ _). vm_compute. reflexivity.
Qed.

Lemma demo6_reached : reachable demo6.
Proof.
  eapply reachable_step; [eapply reachable_step; [exact demo4_reached|]|].
  - eapply (step_submit _ _ _ demo4 demo_function (fun _ _ => true) (fun _ _ _ => true) (fun n => 10 + Z.of_nat n) (demo_submit []) 30 30 demo5 _).
    vm_compute. reflexivity.
  - eapply (step_submit _ _ _ demo5 demo_function (fun _ _ => true) (fun _ _ _ => true) (fun n => 11 + Z.of_nat n) (demo_submit [10]) 40 40 demo6 _).
    vm_compute. reflexivity.
Qed.

Lemma demo6_fresh : fresh_ok (fun id => 100 + id) demo6.
Proof. split; [intros id; change (xd_attempts demo6) with (∅ : gmap AttemptID AttemptRow); apply lookup_empty|intros; lia]. Qed.

Lemma demo7_step : step demo6 demo7.
Proof. eapply (step_claim _ _ _ _ 3 5 4 (fun _ => false) (fun id => 100 + id) 50 _ _ _ demo6_fresh). vm_compute. reflexivity. Qed.

Lemma demo7_reached : reachable demo7.
Proof. eapply reachable_step; [exact demo6_reached|exact demo7_step]. Qed.

Lemma demo8_step : step demo7 demo8.
Proof.
  eapply (step_complete _ _ _ _ 3 [(5, mkOutcome 110 AttemptSucceeded (Some demo_result) None)] 60 _ _).
  - intros c ->%list_elem_of_singleton. by left.
  - vm_compute. reflexivity.
Qed.

Lemma demo8_reached : reachable demo8.
Proof. eapply reachable_step; [exact demo7_reached|exact demo8_step]. Qed.

Lemma demo8_attempts : xd_attempts demo8 = <[110 := mkAttempt 10 1 5 AttemptSucceeded false 50 (50 + 3600 * second) (Some 60)]> ∅.
Proof. vm_compute. reflexivity. Qed.

Lemma demo8_fresh : fresh_ok demo_ids demo8.
Proof.
  assert (Hid : forall id, demo_ids id <> 110) by (intros id; unfold demo_ids; repeat case_match; lia). split.
  - intros id. rewrite demo8_attempts, lookup_insert_ne by (apply not_eq_sym, Hid). apply lookup_empty.
  - intros i j. unfold demo_ids. repeat case_match; lia.
Qed.

Lemma demo9_step : step demo8 demo9.
Proof. eapply (step_claim _ _ _ _ 3 5 4 (fun _ => false) demo_ids 70 _ _ _ demo8_fresh). vm_compute. reflexivity. Qed.

(** What the history shows: the first task runs alone, the second after it. *)
Example demo_statuses : (status_of demo7 10, status_of demo7 11, status_of demo8 10, status_of demo8 11, status_of demo9 11) =
  (Some TaskRunning, Some TaskQueued, Some TaskSucceeded, Some TaskQueued, Some TaskRunning).
Proof. vm_compute. reflexivity. Qed.
