(* ===== verification/ExecProps.v ===== *)
(** What execution guarantees in every state its transactions reach. *)

From S2P Require Import Prelude Float64 Capacity Catalog GoLib Billing Policy Placement Exec Attempts Claims Submit Scaling ExecInv ExecSteps ExecAdvance ExecFinish ExecClaims ExecSubmit ExecOps ExecMachine ExecDemo.

Section Reach.
Context (big : float64 -> Z) (hooked : uuid -> bool) (uuid_text : uuid -> string).
#[local] Abbreviation sound := (ExecClaims.sound big).
#[local] Abbreviation step := (ExecMachine.step big hooked uuid_text).
#[local] Abbreviation reachable := (ExecMachine.reachable big hooked uuid_text).

Lemma sound_empty : sound empty_db [] empty_db.
Proof.
  constructor.
  - constructor; try (by intros *; rewrite ?lookup_empty); try set_solver.
    + intros id. unfold status_of. simpl. rewrite !lookup_empty. by split; [intros []|].
    + split; [constructor|set_solver].
    + exists (fun _ => 0%nat). set_solver.
  - intros a r c H. simpl in H. by rewrite lookup_empty in H.
  - intros c row H. simpl in H. by rewrite lookup_empty in H.
  - intros r s H. unfold spec_of in H. simpl in H. by rewrite lookup_empty in H.
  - by apply final_core.
Qed.

Lemma sound_rebase d0 X d : sound d0 X d -> sound d X d.
Proof. intros [Hi Hp Hs Hsp _]. constructor; [done..|]. by apply final_core. Qed.

Lemma reachable_sound d : reachable d -> sound d [] d.
Proof.
  induction 1 as [|d d' _ IH Hstep]; [apply sound_empty|]. apply (sound_rebase d). by apply (step_sound big hooked uuid_text d d d').
Qed.

Lemma reachable_inv d : reachable d -> ExecInv.inv big [] [] [] d.
Proof. intros H. apply (reachable_sound d H). Qed.

Lemma step_final d d' : reachable d -> step d d' -> final d d'.
Proof.
  intros Hr H. apply (so_final big d [] d'). apply (step_sound big hooked uuid_text d d d'); [|done]. by apply reachable_sound.
Qed.

Lemma reachable_steps d d' : reachable d -> rtc step d d' -> reachable d' /\ final d d'.
Proof.
  intros Hr Hs. revert Hr. induction Hs as [d|d d1 d' H1 _ IH]; intros Hr; [by split; [|apply final_core]|].
  destruct IH as [Hr' Hf]; [by eapply reachable_step|]. split; [done|]. apply (final_trans _ d1); [by apply step_final|done].
Qed.

(** C2: A task runs exactly while one of its attempts does; that attempt is the
    task's current one, and it is on a container that is ready or draining. *)
Theorem running_task_has_one_attempt d id t : reachable d -> xd_tasks d !! id = Some t ->
  (tk_status t = TaskRunning <-> exists a r, xd_attempts d !! a = Some r /\ ap_task r = id /\ ap_state r = AttemptRunning) /\
  forall a r, xd_attempts d !! a = Some r -> ap_task r = id -> ap_state r = AttemptRunning ->
    tk_current t = Some a /\ exists c, xd_containers d !! ap_container r = Some c /\ serving_state (ct_state c) = true.
Proof.
  intros Hr Ht. pose proof (reachable_sound d Hr) as [Hi Hp _ _ _].
  assert (Hcur : forall a r, xd_attempts d !! a = Some r -> ap_task r = id -> ap_state r = AttemptRunning ->
    tk_status t = TaskRunning /\ tk_current t = Some a).
  { intros a r Ha Hid Hrun. destruct (i_att _ _ _ _ _ Hi a r Ha) as [(x & Hx & _ & Hc) _ _ _]. rewrite Hid, Ht in Hx. injection Hx as <-. by apply Hc. }
  split; [split|].
  - intros Hs. destruct (ro_running _ _ (i_rows _ _ _ _ _ Hi id t Ht) Hs) as [a Ha].
    destruct (i_cur _ _ _ _ _ Hi id t a Ht Hs Ha) as (r & Hra & Hid & [Hrun|]); [eauto|set_solver].
  - intros (a & r & Ha & Hid & Hrun). by apply (Hcur a r).
  - intros a r Ha Hid Hrun. destruct (Hcur a r Ha Hid Hrun) as [_ Hc]. split; [done|].
    destruct (i_att _ _ _ _ _ Hi a r Ha) as [_ [c Hcc] _ _]. exists c. split; [done|]. destruct (Hp a r c Ha Hrun Hcc); [done|set_solver].
Qed.

(** C14: A queued task counts exactly its upstreams that have not succeeded, all
    of them queued or running, so each will settle it; a task that runs or
    succeeded has every upstream's result. *)
Theorem queued_task_waits_on_unfinished d id t : reachable d -> xd_tasks d !! id = Some t ->
  (tk_status t = TaskQueued ->
    tk_unmet t = Z.of_nat (length (List.filter (fun u => bool_decide (status_of d u <> Some TaskSucceeded)) (upstreams d id))) /\
    forall u, u ∈ upstreams d id -> status_of d u = Some TaskQueued \/ status_of d u = Some TaskRunning \/ status_of d u = Some TaskSucceeded) /\
  (tk_status t = TaskRunning \/ tk_status t = TaskSucceeded -> forall u, u ∈ upstreams d id -> is_Some (xd_results d !! u)).
Proof.
  intros Hr Ht. pose proof (reachable_inv d Hr) as Hi. destruct (i_dep _ _ _ _ _ Hi id t Ht) as [Dq Dr]. split.
  - intros Hs. destruct (Dq Hs) as [Hu Hd]. split.
    + rewrite Hu. unfold waiting. f_equal. f_equal. apply List.filter_ext. intros u. unfold unsatisfied. by rewrite orb_false_r.
    + intros u Hin. pose proof (Hd u Hin) as Hnd. apply elem_of_upstreams in Hin. destruct (i_edges _ _ _ _ _ Hi) as [_ He].
      destruct (He _ Hin) as [_ [x Hx]]. simpl in Hx. unfold dead, status_of in *. rewrite Hx in *. simpl in *.
      destruct (tk_status x); auto; exfalso; ospecialize (Hnd _); auto; set_solver.
  - intros Hor u Hin. destruct (Dr Hor) as [_ Hups]. apply (i_res _ _ _ _ _ Hi). by apply Hups.
Qed.

(** The attempts of a task. *)
Definition attempts_of (d : db) (id : TaskID) : list (AttemptID * AttemptRow) :=
  List.filter (fun r => ap_task r.2 =? id) (map_to_list (xd_attempts d)).

Lemma numbers_bounded (l : list Z) n : NoDup l -> (forall x, x ∈ l -> 1 <= x <= n) -> 0 <= n -> Z.of_nat (length l) <= n.
Proof.
  intros Hn Hb H0. assert (Hs : l ⊆+ map Z.of_nat (seq 1 (Z.to_nat n))).
  { apply NoDup_submseteq; [done|]. intros x Hx. apply Hb in Hx. apply list_elem_of_In, in_map_iff. exists (Z.to_nat x).
    split; [lia|]. apply in_seq. lia. }
  apply submseteq_length in Hs. rewrite length_map, length_seq in Hs. lia.
Qed.

(** The numbers of a task's attempts are its own, from 1 to its count. *)
Lemma attempt_numbers d id t : reachable d -> xd_tasks d !! id = Some t ->
  NoDup (map (fun r => ap_number r.2) (attempts_of d id)) /\
  forall n, n ∈ map (fun r => ap_number r.2) (attempts_of d id) -> 1 <= n <= tk_attempt_count t.
Proof.
  intros Hr Ht. pose proof (reachable_inv d Hr) as Hi. split.
  - assert (Hm : forall x, x ∈ attempts_of d id -> xd_attempts d !! x.1 = Some x.2 /\ ap_task x.2 = id).
    { intros [a r] Hx. apply list_elem_of_In, filter_In in Hx as [Hx E]. apply list_elem_of_In, elem_of_map_to_list in Hx. apply Z.eqb_eq in E. done. }
    assert (Hk : NoDup (map fst (attempts_of d id))) by apply map_filter_NoDup, NoDup_fst_map_to_list.
    revert Hm Hk. generalize (attempts_of d id) as l. induction l as [|x l IH]; intros Hm Hk; simpl; [constructor|].
    inversion Hk as [|? ? Hx Hl]; subst. constructor; [|apply IH; [set_solver|done]]. intros Hin.
    apply list_elem_of_In, in_map_iff in Hin as (y & E & Hy). apply list_elem_of_In in Hy. destruct (Hm x ltac:(set_solver)) as [Hx1 Hx2], (Hm y ltac:(set_solver)) as [Hy1 Hy2].
    apply Hx. rewrite (i_uniq _ _ _ _ _ Hi x.1 y.1 x.2 y.2 Hx1 Hy1); [apply list_elem_of_In, in_map; by apply list_elem_of_In|congruence|done].
  - intros n Hn. apply list_elem_of_In, in_map_iff in Hn as ([a r] & <- & Hx). apply filter_In in Hx as [Hx E].
    apply list_elem_of_In, elem_of_map_to_list in Hx. apply Z.eqb_eq in E. destruct (i_att _ _ _ _ _ Hi a r Hx) as [(x & Hxt & Hn & _) _ _ _].
    simpl in *. rewrite E, Ht in Hxt. injection Hxt as <-. done.
Qed.

(** C17: A task never runs more often than its retry policy allows, five
    preemptions aside: its attempts are numbered apart from 1 to its count, so
    there are no more of them than its count, and the count stays within the
    policy's attempts and four more. *)
Theorem attempts_bounded d id t : reachable d -> xd_tasks d !! id = Some t ->
  NoDup (map (fun r => ap_number r.2) (attempts_of d id)) /\
  (forall n, n ∈ map (fun r => ap_number r.2) (attempts_of d id) -> 1 <= n <= tk_attempt_count t) /\
  Z.of_nat (length (attempts_of d id)) <= tk_attempt_count t /\ tk_attempt_count t <= limit_of big d t + MaxPreemptions - 1.
Proof.
  intros Hr Ht. destruct (attempt_numbers d id t Hr Ht) as [Hnd Hin].
  destruct (i_rows _ _ _ _ _ (reachable_inv d Hr) id t Ht) as [Rc _ Rm _ _ _ _ _]. split_and!; [done|done| |lia].
  rewrite <- (length_map (fun r => ap_number r.2)). apply numbers_bounded; [done|done|lia].
Qed.

(** C12: No container ever runs more attempts than it has slots. *)
Theorem slots_never_exceeded d c row : reachable d -> xd_containers d !! c = Some row -> running_on c d <= Z.max 0 (ct_slots row).
Proof. intros Hr. apply (so_slots big d [] d). by apply reachable_sound. Qed.

(** In every state a scheduled occurrence has one task at most. *)
Lemma occurrence_once d : reachable d -> forall id t, xd_tasks d !! id = Some t -> only_one (xd_tasks d) id t.
Proof.
  intros Hr. assert (Hf : final empty_db d).
  { induction Hr as [|d d' Hr IH Hs]; [by apply final_core|]. apply (final_trans _ d); [done|]. by apply step_final. }
  intros id t Ht. apply (fi_new _ _ Hf id t Ht). apply lookup_empty.
Qed.

(** C4: Through any sequence of transactions a task stays in its table with the
    workspace, function, release, call graph, occurrence and input it was
    inserted with; once it has finished its row does not change at all, and
    one that succeeded keeps its result. *)
Theorem finished_tasks_never_change d d' id t : reachable d -> rtc step d d' -> xd_tasks d !! id = Some t ->
  exists t', xd_tasks d' !! id = Some t' /\ identity t' = identity t /\ (Terminal (tk_status t) = true -> t' = t) /\
    (forall p, xd_results d !! id = Some p -> xd_results d' !! id = Some p).
Proof.
  intros Hr Hs Ht. destruct (reachable_steps d d' Hr Hs) as [_ [Ft Fr Fs _]]. destruct (Fs id t Ht) as (t' & Ht' & Hi). exists t'.
  split_and!; [done|done| |apply Fr]. intros Hterm. specialize (Ft id t Ht Hterm). congruence.
Qed.

(** C7: The queue is never stuck: while a task is queued, some task runs or some
    queued task waits on nothing. *)
Theorem queue_never_stuck d id : reachable d -> status_of d id = Some TaskQueued ->
  exists id' t, xd_tasks d !! id' = Some t /\ (tk_status t = TaskRunning \/ tk_status t = TaskQueued /\ tk_unmet t = 0).
Proof.
  intros Hr. pose proof (reachable_inv d Hr) as Hi. destruct (i_rank _ _ _ _ _ Hi) as [rank Hrank].
  remember (rank id) as n eqn:En. revert id En. induction n as [n IH] using lt_wf_ind. intros id -> Hq.
  unfold status_of in Hq. destruct (xd_tasks d !! id) as [t|] eqn:Ht; [|done]. simpl in Hq. injection Hq as Hs.
  destruct (decide (tk_unmet t = 0)) as [Hz|Hz]; [eauto 6|]. destruct (i_dep _ _ _ _ _ Hi id t Ht) as [Dq _]. destruct (Dq Hs) as [Hu Hd].
  unfold waiting in Hu. destruct (List.filter (unsatisfied [] d) (upstreams d id)) as [|u l] eqn:E; [done|].
  assert (In u (List.filter (unsatisfied [] d) (upstreams d id))) as Hin by (rewrite E; by left). apply filter_In in Hin as [Hin Hun].
  apply list_elem_of_In in Hin. pose proof (Hd u Hin) as Hnd. apply elem_of_upstreams in Hin as He.
  destruct (proj2 (i_edges _ _ _ _ _ Hi) _ He) as [_ [x Hx]]. simpl in Hx. unfold unsatisfied, dead, status_of in *. rewrite Hx in *. simpl in *.
  destruct (tk_status x) eqn:Hxs; [|by eauto| |exfalso; ospecialize (Hnd _); auto; set_solver|exfalso; ospecialize (Hnd _); auto; set_solver].
  - apply (IH (rank u) (Hrank _ He) u); [done|]. unfold status_of. rewrite Hx. simpl. by rewrite Hxs.
  - rewrite orb_false_r in Hun. by apply bool_decide_eq_true in Hun.
Qed.
End Reach.

(** ** Witnesses *)

Lemma running_task_has_one_attempt_witness : exists t, xd_tasks demo7 !! 10 = Some t /\
  (tk_status t = TaskRunning <-> exists a r, xd_attempts demo7 !! a = Some r /\ ap_task r = 10 /\ ap_state r = AttemptRunning).
Proof.
  eexists. split; [vm_compute; reflexivity|].
  apply (running_task_has_one_attempt demo_big demo_hooked demo_text demo7 10); [exact demo7_reached|vm_compute; reflexivity].
Defined.

Lemma queued_task_waits_on_unfinished_witness : exists t, xd_tasks demo7 !! 11 = Some t /\ tk_status t = TaskQueued /\
  forall u, u ∈ upstreams demo7 11 -> status_of demo7 u = Some TaskQueued \/ status_of demo7 u = Some TaskRunning \/ status_of demo7 u = Some TaskSucceeded.
Proof.
  eexists. split; [vm_compute; reflexivity|]. split; [reflexivity|].
  eapply (queued_task_waits_on_unfinished demo_big demo_hooked demo_text demo7 11); [exact demo7_reached|vm_compute; reflexivity|reflexivity].
Defined.

Lemma attempts_bounded_witness : exists t, xd_tasks demo7 !! 10 = Some t /\
  NoDup (map (fun r => ap_number r.2) (attempts_of demo7 10)) /\
  (forall n, n ∈ map (fun r => ap_number r.2) (attempts_of demo7 10) -> 1 <= n <= tk_attempt_count t) /\
  Z.of_nat (length (attempts_of demo7 10)) <= tk_attempt_count t /\ tk_attempt_count t <= limit_of demo_big demo7 t + MaxPreemptions - 1.
Proof.
  eexists. split; [vm_compute; reflexivity|].
  apply (attempts_bounded demo_big demo_hooked demo_text demo7 10); [exact demo7_reached|vm_compute; reflexivity].
Defined.

Lemma slots_never_exceeded_witness : exists row, xd_containers demo7 !! 5 = Some row /\ running_on 5 demo7 <= Z.max 0 (ct_slots row).
Proof.
  eexists. split; [vm_compute; reflexivity|].
  apply (slots_never_exceeded demo_big demo_hooked demo_text demo7 5); [exact demo7_reached|vm_compute; reflexivity].
Defined.

Lemma finished_tasks_never_change_witness : exists t, xd_tasks demo8 !! 10 = Some t /\ Terminal (tk_status t) = true /\
  exists t', xd_tasks demo9 !! 10 = Some t' /\ identity t' = identity t /\ (Terminal (tk_status t) = true -> t' = t) /\
    (forall p, xd_results demo8 !! 10 = Some p -> xd_results demo9 !! 10 = Some p).
Proof.
  eexists. split; [vm_compute; reflexivity|]. split; [reflexivity|].
  apply (finished_tasks_never_change demo_big demo_hooked demo_text demo8 demo9 10);
    [exact demo8_reached|exact (rtc_once _ _ demo9_step)|vm_compute; reflexivity].
Defined.

Lemma queue_never_stuck_witness : status_of demo7 11 = Some TaskQueued /\
  exists id' t, xd_tasks demo7 !! id' = Some t /\ (tk_status t = TaskRunning \/ tk_status t = TaskQueued /\ tk_unmet t = 0).
Proof.
  split; [vm_compute; reflexivity|].
  apply (queue_never_stuck demo_big demo_hooked demo_text demo7 11); [exact demo7_reached|vm_compute; reflexivity].
Defined.
