(* ===== verification/ScheduleSubmit.v ===== *)
(** Schedules and execution together: the admission [Fire] relies on is
    execution's [SubmitInTx], as [Schedules.admit] of
    src/internal/schedules/schedules.go calls it, so a pass of the scheduler
    is a sequence of execution's transactions. *)

From stdpp Require Import pretty.
From S2P Require Import Prelude Float64 Capacity Catalog Calendar GoLib Cron CronProps Schedules ScheduleProps Billing Policy Placement Exec Attempts Claims Submit Scaling ExecInv ExecSteps ExecAdvance ExecFinish ExecClaims ExecSubmit ExecOps ExecMachine ExecDemo ExecProps.

(** [noArguments]: 36 bytes of pickle. *)
Definition noArguments : string :=
  String.string_of_list_ascii (map Ascii.ascii_of_nat
    [128; 4; 149; 25; 0; 0; 0; 0; 0; 0; 0; 125; 148; 40; 140; 4; 97; 114; 103; 115; 148; 93; 148; 140; 6; 107; 119; 97; 114; 103; 115; 148; 125; 148; 117; 46]%nat).

(** The request of an occurrence. *)
Definition occurrence_request (req : Schedules.SubmitRequest) : SubmitRequest :=
  let n := Schedules.sr_Names req in
  mkSubmit (wn_Workspace n) (wn_App n) (wn_Function n) None None (Schedules.sr_ScheduledFor req)
    (repeat (mkInput (mkPayload EncodingCloudpickle noArguments None) []) (Schedules.sr_Inputs req)).

(** [TooManyPendingError.Error]. *)
Definition pending_message (limit queued submitted : Z) : string :=
  (pretty queued ++ " queued and " ++ pretty submitted ++ " submitted tasks exceed max_pending_tasks " ++ pretty limit)%string.

Section Admission.
Context (big : float64 -> Z) (hooked : uuid -> bool) (uuid_text : uuid -> string).
Context (function_of : SubmitRequest -> option FunctionRow) (machine_runs : uuid -> string -> bool) (Admit : uuid -> WorkloadSpec -> bool -> bool).
(** The ids new tasks get, the process's clock and the transaction's, and the
    text of errors schedules does not name. *)
Context (fresh : db -> nat -> TaskID) (clock now : Z) (text : exec_error -> string).

(** The errors [Schedules.admit] tells apart. *)
Definition submit_error_of (e : exec_error) : submit_error :=
  match e with
  | Attempts.ErrNotAccepting => Schedules.ErrNotAccepting
  | ErrTooManyPending limit queued submitted => TooManyPendingError (pending_message limit queued submitted)
  | Attempts.ErrNotFound => Schedules.ErrNotFound
  | e => SubmitError (text e)
  end.

Definition submit_occurrence (d : db) (req : Schedules.SubmitRequest) : db * (list Z + submit_error) :=
  match SubmitInTx big hooked function_of machine_runs Admit (fresh d) (occurrence_request req) clock now d with
  | Ret (d', ids) => (d', inl ids)
  | Err e => (d, inr (submit_error_of e))
  | Panic | Spins => (d, inr (SubmitError ""))
  end.

Lemma submit_occurrence_tasks d req d' tasks : submit_occurrence d req = (d', inl tasks) -> length tasks = Schedules.sr_Inputs req.
Proof.
  unfold submit_occurrence. destruct (SubmitInTx _ _ _ _ _ _ _ _ _ _) as [[d1 ids]|e| |] eqn:E; try done. intros [= -> ->].
  apply SubmitInTx_inserts in E as [-> _]. rewrite length_imap. apply repeat_length.
Qed.

(** Execution keeps the promise [Fire] is proved against. *)
Definition execution_admission : Admission db :=
  {| Schedules.SubmitInTx := submit_occurrence; SubmitInTx_tasks := submit_occurrence_tasks |}.
#[local] Existing Instance execution_admission.
#[local] Abbreviation reachable := (ExecMachine.reachable big hooked uuid_text).

(** An occurrence changes execution by the submit that admits it. *)
Lemma admit_step joined d row d' r : admit_row joined d row = Ret (d', r) ->
  match r with
  | inl task => step big hooked uuid_text d d' /\ exists t, xd_tasks d' !! task = Some t /\ tk_scheduled_for t = Some (sc_next_fire_at row)
  | inr _ => d' = d
  end.
Proof.
  unfold admit_row. set (req := {| Schedules.sr_Names := _ |}). change (Schedules.SubmitInTx d req) with (submit_occurrence d req).
  unfold submit_occurrence. destruct (SubmitInTx _ _ _ _ _ _ _ _ _ _) as [[d1 ids]|e| |] eqn:E; try by intros [= <- <-].
  destruct ids as [|task ids]; [done|]. intros [= <- <-]. split; [by eapply step_submit|].
  destruct (SubmitInTx_inserts _ _ _ _ _ _ _ _ _ _ _ _ E) as (_ & fn & _ & Hin). destruct (Hin task ltac:(left)) as (_ & t & Ht & _ & _ & _ & Hs). eauto.
Qed.
End Admission.

(** Every task a schedule names exists, and is the one of its occurrence. *)
Definition linked (t : schedules_table) (d : db) : Prop := forall s id, s ∈ t -> sc_last_task_id s = Some id ->
  exists x, xd_tasks d !! id = Some x /\ tk_scheduled_for x = sc_last_fired_at s.

Lemma linked_final t d d' : linked t d -> final d d' -> linked t d'.
Proof.
  intros Hl Hf s id Hs Hid. destruct (Hl s id Hs Hid) as (x & Hx & E). destruct (fi_same _ _ Hf id x Hx) as (y & Hy & Ei).
  apply identity_fields in Ei as [_ Ei]. exists y. split; [done|congruence].
Qed.

Lemma linked_record p t d : linked t d ->
  (forall id, ro_TaskID p = Some id -> exists x, xd_tasks d !! id = Some x /\ tk_scheduled_for x = ro_FiredAt p) -> linked (RecordOccurrence p t) d.
Proof.
  intros Hl Hp s id Hs Hid. unfold RecordOccurrence in Hs. apply list_elem_of_In, in_map_iff in Hs as (s0 & <- & Hs0). apply list_elem_of_In in Hs0.
  destruct (_ =? _); [by apply Hp|]. by apply Hl.
Qed.

Lemma linked_new workload e next d t : linked t d -> linked (ReplaceSchedule workload e next t) d.
Proof.
  intros Hl s id Hs Hid. unfold ReplaceSchedule in Hs. destruct (existsb _ _).
  - apply list_elem_of_In, in_map_iff in Hs as (s0 & <- & Hs0). apply list_elem_of_In in Hs0. destruct (_ =? _); [done|]. by apply Hl.
  - apply elem_of_app in Hs as [Hs|Hs%list_elem_of_singleton]; [by apply (Hl s)|by subst].
Qed.

Lemma linked_delete workload d t : linked t d -> linked (DeleteSchedule workload t) d.
Proof. intros Hl s id Hs. apply list_elem_of_In, filter_In in Hs as [Hs _]. apply Hl. by apply list_elem_of_In. Qed.

Section System.
Context (big : float64 -> Z) (hooked : uuid -> bool) (uuid_text : uuid -> string).
Context (uf : string -> list string) (ul : string -> string) (joined : Z -> workload_names).
#[local] Abbreviation reachable := (ExecMachine.reachable big hooked uuid_text).

(** What one pass of the scheduler runs against. *)
Record world := mkWorld {
  wd_function : SubmitRequest -> option FunctionRow;
  wd_machine : uuid -> string -> bool;
  wd_admit : uuid -> WorkloadSpec -> bool -> bool;
  wd_fresh : db -> nat -> TaskID;
  wd_clock : Z;
  wd_now : Z;
  wd_text : exec_error -> string }.
Definition admission_in (e : world) : Admission db :=
  execution_admission big hooked (wd_function e) (wd_machine e) (wd_admit e) (wd_fresh e) (wd_clock e) (wd_now e) (wd_text e).
Definition fire_in (e : world) := @Fire uf ul joined db (admission_in e).

(** Deploys, passes of the scheduler and execution's transactions, in any
    order. *)
Inductive system : schedules_table -> db -> Prop :=
  | system_empty : system [] empty_db
  | system_apply now workload expression t t' d : system t d -> Apply uf ul now workload expression t = Ret t' -> system t' d
  | system_fire e fuel locked clock n total t d t' d' total' out : system t d ->
      fire_in e fuel locked clock n t d total = ((t', d', total'), out) -> system t' d'
  | system_exec t d d' : system t d -> step big hooked uuid_text d d' -> system t d'.

Definition system_ok (t : schedules_table) (d : db) : Prop := table_ok uf ul t /\ reachable d /\ linked t d.

Lemma fire_ok_system e fuel locked clock n total t d t' d' total' out : system_ok t d ->
  fire_in e fuel locked clock n t d total = ((t', d', total'), out) -> system_ok t' d'.
Proof.
  intros (Ht & Hr & Hl) H. assert (Hkeep := H). apply Fire_keeps in Hkeep as [Hw He]. split.
  { destruct Ht as [Hn Hok]. split; [by rewrite Hw|by apply (stored_ok_expressions uf ul t)]. }
  refine (Fire_invariant uf ul joined (fun t d => reachable d /\ linked t d) _ fuel locked clock n t d total t' d' total' out _ H); [|done].
  clear -hooked. intros now t d res row t' d' res' [Hr Hl] H. apply fire_row_records in H as (p & r & Ha & -> & _ & Hf & Hp).
  apply (admit_step big hooked uuid_text) in Ha. destruct r as [task|reason].
  - destruct Ha as [Hs (x & Hx & E)]. split; [by eapply reachable_step|]. apply linked_record; [apply (linked_final t d); [done|by apply (step_final big hooked uuid_text)]|].
    intros id. rewrite Hp. intros [= <-]. exists x. by rewrite Hf.
  - subst d'. split; [done|]. apply linked_record; [done|]. by rewrite Hp.
Qed.

Lemma system_sound t d : system t d -> system_ok t d.
Proof.
  induction 1 as [|now workload expression t t' d _ (Ht & Hr & Hl) H|e fuel locked clock n total t d t' d' total' out _ IH H|t d d' _ (Ht & Hr & Hl) H].
  - split_and!; [split; constructor|constructor|by intros s id Hs%elem_of_nil].
  - split_and!; [by apply (Apply_ok _ _ _ _ _ _ _ H)|done|]. unfold Apply in H. destruct expression as [e|]; [|apply Ret_inj in H; subst; by apply linked_delete].
    destruct (_ == _); [by apply Ret_inj in H; subst|]. apply go_bind_Ret in H as (c & _ & H). destruct (Next c now) as [[next|]|[]| |]; try done.
    apply Ret_inj in H. subst. by apply linked_new.
  - by apply (fire_ok_system e fuel locked clock n total t d t' d' total' out).
  - split_and!; [done|by eapply reachable_step|]. apply (linked_final t d); [done|by apply (step_final big hooked uuid_text)].
Qed.

End System.

(** ** A sample: one deployed schedule over execution's demo release *)

Definition demo_world : world :=
  mkWorld demo_function (fun _ _ => true) (fun _ _ _ => true) (fun d n => 10 + Z.of_nat (size (xd_tasks d)) + Z.of_nat n) 30 30 (fun _ => "").
Definition demo_schedules : schedules_table := [new_schedule 1 "*/15 * * * *" (time_Date 2026 9 7 12 15 0 0)].
#[local] Abbreviation demo_system := (system demo_big demo_hooked demo_text no_unicode_fields same_text sample_names).
#[local] Abbreviation demo_fire := (fire_in demo_big demo_hooked no_unicode_fields same_text sample_names demo_world).

Lemma demo_system_reached : demo_system demo_schedules demo3.
Proof.
  apply (system_apply _ _ _ _ _ _ deployed_at 1 (Some "*/15 * * * *") []); [|vm_compute; reflexivity].
  eapply system_exec; [eapply system_exec; [eapply system_exec; [constructor|]|]|].
  - apply (step_release demo_big demo_hooked demo_text empty_db 7 demo_row); [done|intros i t H; simpl in H; by rewrite lookup_empty in H|].
    intros s [= <-]. vm_compute. done.
  - by apply (step_container demo_big demo_hooked demo_text demo1 5 demo_container).
  - apply (step_place demo_big demo_hooked demo_text demo2 5 3 10).
Qed.


(** The pass admits task 10, which the schedule names, and wakes planning. *)
Example demo_pass :
  let '((t, d, total), _) := demo_fire 2%nat (fun _ => false) (fun _ => time_Date 2026 9 7 12 50 0 0) 0%nat demo_schedules demo3 no_result in
  map sc_last_task_id t = [Some 10] /\ (tk_scheduled_for <$> xd_tasks d !! 10) = Some (Some (time_Date 2026 9 7 12 15 0 0)) /\
  fr_Admitted total = 1 /\ xd_notes d = [(ChannelExecution, 7); (ChannelClaim, 7)].
Proof. vm_compute. done. Qed.
