(* ===== verification/ExecEffects.v ===== *)
(** What single transactions of execution achieve, from any reachable state:
    a claim, a completion, a stale completion and a container's exit. *)

From S2P Require Import Prelude Float64 Capacity Catalog GoLib Billing Policy Placement Exec Attempts Claims Submit Scaling ExecInv ExecSteps ExecAdvance ExecFinish ExecClaims ExecSubmit ExecOps ExecMachine ExecDemo ExecProps.

Section Effects.
Context (big : float64 -> Z) (hooked : uuid -> bool) (uuid_text : uuid -> string).
#[local] Abbreviation reachable := (ExecMachine.reachable big hooked uuid_text).
#[local] Abbreviation finish := (finishAttempts big hooked uuid_text).
#[local] Abbreviation complete := (CompleteAttempts big hooked uuid_text).

(** ** Stale completions *)

(** The attempt runs on the container, which is on the host. *)
Definition holds_attempt (host : uuid) (d : db) (c : ContainerID) (a : AttemptID) : Prop :=
  exists r row, xd_attempts d !! a = Some r /\ ap_state r = AttemptRunning /\ ap_container r = c /\
    xd_containers d !! c = Some row /\ ct_host row = Some host.

Lemma accepted_holds host d c o x : accepted (Some host) d (Some c, o) = Some x -> holds_attempt host d c (ao_Attempt o).
Proof.
  destruct x as [[[id t] r] row]. intros H. apply accepted_spec in H as (Hr & _ & _ & Hc & Hrun & Hf). unfold fenced in Hf.
  apply orb_false_iff in Hf as [Hh Hk]. apply negb_false_iff, bool_decide_eq_true in Hh, Hk. simpl in *. exists r, row. by rewrite <- Hk.
Qed.

(** C23: An outcome of an attempt that no longer runs on the reporting host's
    container is discarded: nothing changes, and the host is told it is
    stale. *)
Theorem stale_outcomes_change_nothing host cs now d :
  (forall c, c ∈ cs -> outcome_valid (sized_outcome c.2) = true /\ ~ holds_attempt host d c.1 (ao_Attempt (sized_outcome c.2))) ->
  complete host cs now d = Ret (d, map (fun _ => Some ErrStaleAttempt) cs).
Proof.
  intros Hs. unfold CompleteAttempts, complete_tx. set (os := map _ cs).
  assert (Hj : judged (Some host) d os = map (fun o => (o, None)) os).
  { unfold judged. generalize (@nil AttemptID) as seen. assert (Ho : forall o, o ∈ os -> accepted (Some host) d o = None).
    { intros o Hin. apply list_elem_of_In, in_map_iff in Hin as (c & <- & Hc). apply list_elem_of_In in Hc. destruct (Hs c Hc) as [_ Hn].
      destruct (accepted _ _ _) eqn:E; [|done]. by apply accepted_holds in E. }
    clear Hs. induction os as [|o l IH]; intros seen; simpl; [done|]. rewrite Ho by left.
    destruct (bool_decide _); (f_equal; apply IH; intros x Hx; apply Ho; by right). }
  assert (Ht : taken (Some host) d os = []) by (unfold taken; rewrite Hj; clear; induction os as [|o l IH]; simpl; done).
  assert (Hv : forallb (fun o => outcome_valid o.2) os = true).
  { apply forallb_forall. intros o Hin. apply in_map_iff in Hin as (c & <- & Hc). by apply Hs, list_elem_of_In. }
  rewrite finishAttempts_unfold, Hv, Ht, Hj. simpl. unfold os. by rewrite !map_map.
Qed.

(** ** Completions *)

Lemma advance_success id t a p now d d' : advanceTasks big hooked uuid_text [mkLive id t (mkOutcome a AttemptSucceeded (Some p) None)] now d = Ret d' ->
  xd_tasks d !! id = Some t -> status_of d' id = Some TaskSucceeded /\ xd_results d' !! id = Some p.
Proof.
  set (l := mkLive id t _). intros H Ht. unfold advanceTasks in H. apply go_bind_Ret in H as ([] & _ & H).
  assert (E : decide_outcomes big d [l] = Ret [(l, Succeed p)]) by reflexivity. rewrite E in H. cbn [go_bind] in H.
  change (succeeds [(l, Succeed p)]) with [(id, p)] in H. change (requeues [(l, Succeed p)]) with (@nil (liveOutcome * Z * bool * Failure)) in H.
  change (fails [(l, Succeed p)]) with (@nil (TaskID * Failure * bool)) in H.
  apply go_bind_Ret in H as (d1 & H1 & H). cbn [requeue_all fail_all map fst] in H. apply go_bind_Ret in H as (d2 & H2 & H).
  apply Ret_inj in H. subst d'. apply resolve_final in H2 as [Ft Fr]. unfold succeed_all in H1. cbn [InsertTaskResults] in H1.
  destruct (bool_decide _); [done|]. apply Ret_inj in H1.
  assert (Hd1 : xd_tasks d1 !! id = Some (finish_task TaskSucceeded now t) /\ xd_results d1 !! id = Some p).
  { subst d1. rewrite (core_tasks _ _ (core_callbacks _ _ _ _)). unfold SucceedTasks, set_tasks. simpl. rewrite map_lookup_imap, Ht. simpl.
    rewrite bool_decide_true by set_solver. split; [done|]. unfold recordCallbacks, wake_delivery. destruct (_ - _)%nat; simpl; apply lookup_insert_eq. }
  destruct Hd1 as [Hd1 Hr1]. apply Ft in Hd1; [|done]. apply Fr in Hr1. split; [|exact Hr1]. unfold status_of. simpl. by rewrite Hd1.
Qed.

(** C30: A host that reports the success of an attempt it runs gets it accepted:
    the task succeeds with that result, which fits 16 MiB. *)
Theorem completed_attempt_succeeds host c a r row p now d : reachable d -> xd_attempts d !! a = Some r -> ap_state r = AttemptRunning ->
  ap_container r = c -> xd_containers d !! c = Some row -> ct_host row = Some host -> octets p <= MaxPayloadBytes ->
  exists d', complete host [(c, mkOutcome a AttemptSucceeded (Some p) None)] now d = Ret (d', [None]) /\
    status_of d' (ap_task r) = Some TaskSucceeded /\ xd_results d' !! ap_task r = Some p.
Proof.
  intros Hr Ha Hrun <- Hrow Hhost Hp. pose proof (reachable_inv big hooked uuid_text d Hr) as Hi.
  destruct (i_att _ _ _ _ _ Hi a r Ha) as [(t & Ht & _ & Hcur) _ _ _]. destruct (Hcur Hrun) as [Hs Hc]. unfold CompleteAttempts, complete_tx.
  set (o := mkOutcome a AttemptSucceeded (Some p) None).
  assert (Hsz : sized_outcome o = o) by (unfold sized_outcome; simpl; destruct (octets p >? MaxPayloadBytes) eqn:E; [lia|done]).
  cbn [map fst snd]. rewrite Hsz. set (os := [(Some (ap_container r), o)]).
  assert (Hacc : accepted (Some host) d (Some (ap_container r), o) = Some (ap_task r, t, r, row)).
  { unfold accepted, task_of, running_attempt. simpl. rewrite Ha. simpl. rewrite Ht, Hrow. simpl. rewrite bool_decide_true by done. simpl.
    unfold fenced. by rewrite Hhost, !bool_decide_true. }
  assert (Hj : judged (Some host) d os = [((Some (ap_container r), o), Some (ap_task r, t, r, row))]).
  { unfold judged, os. cbn [zip_with repeats]. rewrite bool_decide_false by set_solver. by rewrite Hacc. }
  destruct (finishAttempts_cases big hooked uuid_text (Some host) os now d Hi) as [[_ Hv]|[[_ (l & Hl & Hneed & _)]|(d' & E & _)]].
  - intros x ->%list_elem_of_singleton. done.
  - done.
  - unfold taken in Hl. rewrite Hj in Hl. simpl in Hl. unfold current_of in Hl. rewrite Hs, Hc, !bool_decide_true in Hl by done. simpl in Hl.
    apply list_elem_of_singleton in Hl. subst l. done.
  - rewrite E, Hj. cbn [go_bind map fst snd]. exists d'. split; [done|].
    rewrite finishAttempts_unfold in E. unfold taken in E. rewrite Hj in E. cbn [forallb negb omap list_omap fst snd] in E. simpl in E.
    unfold current_of in E. rewrite Hs, Hc, !bool_decide_true in E by done. cbn [andb negb] in E.
    apply go_bind_Ret in E as (d2 & E2 & E). apply Ret_inj, (f_equal fst) in E. cbn [fst] in E.
    apply advance_success in E2 as [H1 H2]; [|exact Ht].
    subst d'. by destruct (_ || _).
Qed.

(** ** Containers that exit *)

(** An attempt runs on the container for a task whose release has no spec
    that decodes. *)
Definition undecodable_on (id : ContainerID) (d : db) : Prop :=
  exists a r t, a ∈ RunningAttemptsOnContainer id d /\ xd_attempts d !! a = Some r /\ xd_tasks d !! ap_task r = Some t /\
    spec_of d (tk_release t) = None.

(** Ending what runs on a container returns, or meets such a task. *)
Lemma finish_lost_cases f id now d : ExecInv.inv big [] [] [] d ->
  (exists r, finish None (unfenced (lost_outcomes f (RunningAttemptsOnContainer id d))) now d = Ret r) \/
  (finish None (unfenced (lost_outcomes f (RunningAttemptsOnContainer id d))) now d = Err ErrDecode /\ undecodable_on id d).
Proof.
  intros Hi. set (os := unfenced _).
  assert (Hos : forall o, o ∈ os -> exists a, a ∈ RunningAttemptsOnContainer id d /\ o.2 = mkOutcome a AttemptLost None (Some f)).
  { intros o Ho. unfold os, unfenced, lost_outcomes in Ho. rewrite map_map in Ho. apply list_elem_of_In, in_map_iff in Ho as (a & <- & Ha).
    apply list_elem_of_In in Ha. by exists a. }
  destruct (finishAttempts_cases big hooked uuid_text None os now d Hi (lost_finish_ok f _))
    as [[_ Hv]|[[E (l & Hl & _ & Ht & Hn)]|(d' & -> & _)]]; [| |left; eauto].
  - exfalso. apply Bool.not_true_iff_false in Hv. apply Hv, forallb_forall. intros o Ho. apply list_elem_of_In, Hos in Ho as (a & _ & ->). done.
  - right. split; [exact E|]. unfold live_of in Hl. apply list_elem_of_omap in Hl as ([o [[[i t] r] c]] & Hv & Hl).
    destruct (current_of t o); [|done]. injection Hl as <-. simpl in *. apply taken_spec in Hv as (o' & Ho & Eo & Ha).
    apply accepted_spec in Ha as (Hr & Hid & _). destruct (Hos o' Ho) as (a & Hrun & Ea). rewrite Ea in Hr. simpl in Hr.
    exists a, r, t. rewrite Hid. by split_and!.
Qed.

Lemma release_exit_returns release id state e d : is_Some (xd_releases d !! release) -> exists x, release_exit release id state e d = Ret x.
Proof.
  intros [r Hr]. unfold release_exit. destruct (stop_reason _ _); try (by eauto).
  destruct (state == ContainerPending); [by eauto|]. unfold CountStartFailure. rewrite Hr. simpl. eauto.
Qed.

(** C29: The exit of a container settles it: the transaction returns, the
    container is stopped, and no attempt runs on it any more; a container that
    was stopped already stays so. The one error it may end with, changing
    nothing, is of a release spec that does not decode, and then an attempt
    that runs on the container is of such a release. The container's release
    is a row, as its foreign key says. *)
Theorem exited_container_settles id row e now d : reachable d -> xd_containers d !! id = Some row ->
  (forall release, ct_release row = Some release -> is_Some (xd_releases d !! release)) ->
  match containerExited big hooked uuid_text id e now d with
  | Ret d' => exists row', xd_containers d' !! id = Some row' /\ ct_state row' = ContainerStopped /\ RunningAttemptsOnContainer id d' = []
  | Err err => err = ErrDecode /\ undecodable_on id d
  | _ => False
  end.
Proof.
  intros Hr Hrow Hrel. pose proof (reachable_sound big hooked uuid_text d Hr) as Hs.
  assert (Hret : (exists d', containerExited big hooked uuid_text id e now d = Ret d') \/
    (containerExited big hooked uuid_text id e now d = Err ErrDecode /\ undecodable_on id d)).
  { unfold containerExited. rewrite Hrow. case_bool_decide; [left; eauto|]. set (ds := StopContainerRow _ _ _ _ _ _).
    pose proof (sound_stop big d [] id (ce_Reason e) (ce_Message e) (ce_ExitCode e) now d Hs) as Hs1. fold ds in Hs1.
    pose proof (finish_container big d hooked uuid_text [] (lost_failure e) id now ds Hs1) as Hg.
    destruct (finish_lost_cases (lost_failure e) id now ds) as [[[d1 st] E]|[E Hu]]; [apply Hs1| |right; by rewrite E]. left.
    rewrite E in Hg |- *. destruct Hg as (_ & He & Hst). cbn [go_bind fst snd] in *. unfold Datatypes.id in *. rewrite Hst.
    destruct (ct_release row) as [release|]; [|eauto]. destruct (release_exit_returns release id (ct_state row) e d1) as [x ->]; [|cbn [go_bind]; eauto].
    rewrite (eo_releases _ _ He). by apply Hrel. }
  destruct Hret as [[d' E]|[E Hu]]; rewrite E; [|done].
  pose proof (containerExited_settles big d hooked uuid_text [] id e now d Hs) as Hg. rewrite E in Hg.
  destruct Hg as [[Hi' Hp' _ _ _] Hg]. destruct (Hg row Hrow) as (row' & Hrow' & Hstop). exists row'. split_and!; try done.
  destruct (RunningAttemptsOnContainer id d') as [|a l] eqn:El; [done|].
  assert (a ∈ RunningAttemptsOnContainer id d') as Ha by (rewrite El; left). apply RunningAttempts_spec in Ha as (r & Hra & Hc & Hrun).
  destruct (Hp' a r row' Hra Hrun) as [Hv|]; [by rewrite Hc|by rewrite Hstop in Hv|set_solver].
Qed.

(** ** Claims *)

Lemma claims_rows fresh c timeout now rows d : NoDup (map fst rows) -> (forall r, r ∈ rows -> may_claim d r) -> forall r, r ∈ rows ->
  xd_tasks (fold_left (claim_row fresh c timeout now) rows d) !! r.1 = Some (claimed_row (fresh r.1) now r.2).
Proof.
  revert d. induction rows as [|x rows IH]; intros d Hn Hc r Hr; [by apply not_elem_of_nil in Hr|]. cbn [fold_left]. inversion Hn as [|? ? Hx Hl]; subst.
  assert (Hne : forall y, y ∈ rows -> y.1 <> x.1) by (intros y Hy E; apply Hx; rewrite <- E; apply list_elem_of_In, in_map; by apply list_elem_of_In).
  assert (Hc' : forall y, y ∈ rows -> may_claim (claim_row fresh c timeout now d x) y).
  { intros y Hy. destruct (Hc y ltac:(by right)) as (Ht & Hrest). split; [|done]. simpl. rewrite lookup_alter_ne; [done|]. by apply not_eq_sym, Hne. }
  apply elem_of_cons in Hr as [->|Hr]; [|by apply IH].
  assert (Hkeep : forall rows d, (forall y, y ∈ rows -> y.1 <> x.1) -> xd_tasks (fold_left (claim_row fresh c timeout now) rows d) !! x.1 = xd_tasks d !! x.1).
  { clear. induction rows as [|y rows IH]; intros d Hy; [done|]. cbn [fold_left]. rewrite IH by (intros z Hz; apply Hy; by right). simpl.
    rewrite lookup_alter_ne; [done|]. apply Hy. left. }
  rewrite Hkeep by done. simpl. destruct (Hc x ltac:(left)) as (Ht & _). by rewrite lookup_alter_eq, Ht.
Qed.

Lemma claims_same fresh c timeout now rows d :
  xd_results (fold_left (claim_row fresh c timeout now) rows d) = xd_results d /\
  xd_deps (fold_left (claim_row fresh c timeout now) rows d) = xd_deps d.
Proof. revert d. induction rows as [|y rows IH]; intros d; [done|]. cbn [fold_left]. destruct (IH (claim_row fresh c timeout now d y)) as [-> ->]. done. Qed.

Lemma DependencyResults_all id d : (forall u, u ∈ upstreams d id -> is_Some (xd_results d !! u)) ->
  map fst (DependencyResults id d) = sort_by Z.compare (upstreams d id) /\
  sumZ (map (fun x => octets x.2) (DependencyResults id d)) = sumZ (map (result_bytes d) (upstreams d id)).
Proof.
  intros Hall. unfold DependencyResults.
  assert (H : forall l, (forall u, u ∈ l -> is_Some (xd_results d !! u)) ->
    map fst (omap (fun u => (fun p => (u, p)) <$> xd_results d !! u) l) = l /\
    sumZ (map (fun x => octets x.2) (omap (fun u => (fun p => (u, p)) <$> xd_results d !! u) l)) = sumZ (map (result_bytes d) l)).
  { induction l as [|u l IH]; intros Hl; [done|]. destruct (Hl u ltac:(left)) as [p Hp]. destruct IH as [E1 E2]; [intros v Hv; apply Hl; by right|].
    cbn [omap list_omap]. simpl. rewrite Hp. simpl. simpl in E1, E2. rewrite E1. split; [done|]. unfold result_bytes at 1. rewrite Hp. by rewrite E2. }
  destruct (H (sort_by Z.compare (upstreams d id))) as [E1 E2].
  { intros u Hu. apply Hall. by apply list_elem_of_In, sort_by_In, list_elem_of_In in Hu. }
  split; [done|]. rewrite E2. apply sumZ_perm, Permutation_map, sort_by_perm.
Qed.

Lemma DependencyResults_stored id d u p : (u, p) ∈ DependencyResults id d -> xd_results d !! u = Some p.
Proof.
  unfold DependencyResults. intros (v & _ & Hv)%list_elem_of_omap. destruct (xd_results d !! v) eqn:E; [|done]. simpl in Hv. by injection Hv as <- <-.
Qed.

Lemma input_bytes_nonneg d id t : 0 <= input_bytes d id t.
Proof.
  unfold input_bytes, octets. assert (0 <= sumZ (map (result_bytes d) (upstreams d id))); [|lia]. apply sumZ_nonneg. intros x Hx.
  apply in_map_iff in Hx as (u & <- & _). unfold result_bytes, octets. destruct (_ !! u); lia.
Qed.

Definition row_bytes (d : db) (r : TaskID * TaskRow) : Z := input_bytes d r.1 r.2.

Lemma within_bytes total max d rows : within total max false d rows = [] \/ total + sumZ (map (row_bytes d) (within total max false d rows)) <= max.
Proof.
  revert total. induction rows as [|r rows IH]; intros total; simpl; [by left|]. pose proof (input_bytes_nonneg d r.1 r.2) as Hb.
  fold (row_bytes d r) in *. destruct (total + row_bytes d r <=? max) eqn:E; simpl.
  - right. apply Z.leb_le in E. destruct (IH (total + row_bytes d r)) as [-> |H]; simpl; lia.
  - left. apply Z.leb_gt in E. destruct (IH (total + row_bytes d r)) as [|H]; [done|].
    assert (0 <= sumZ (map (row_bytes d) (within (total + row_bytes d r) max false d rows))); [|lia]. apply sumZ_nonneg. intros x Hx.
    apply in_map_iff in Hx as (y & <- & _). apply input_bytes_nonneg.
Qed.

Lemma picked_bytes max d rows : sumZ (map (row_bytes d) (within 0 max true d rows)) <= max \/ (length (within 0 max true d rows) <= 1)%nat.
Proof.
  destruct rows as [|r rows]; simpl; [right; lia|]. fold (row_bytes d r). rewrite Z.add_0_l.
  destruct (within_bytes (row_bytes d r) max d rows) as [-> |H]; [right; simpl; lia|left; simpl; lia].
Qed.

Lemma claimOnce_cases host c maxTasks locked fresh now d d' tasks next : claimOnce host c maxTasks locked fresh now d = Ret (d', tasks, next) ->
  tasks = [] \/ exists release limit timeout,
    let picked := within 0 MaxClaimInputBytes true d (candidates release limit locked now d) in
    d' = fold_left (claim_row fresh c timeout now) picked d /\
    tasks = map (claimed_task fresh timeout now d') (sort_by (fun a b => Z.compare (fresh a.1) (fresh b.1)) picked).
Proof.
  unfold claimOnce. destruct (_ ≫= _) as [[[row release] rel]|]; [|done]. destruct (ct_host row != Some host); [done|].
  destruct (_ || _); [intros [= _ <- _]; by left|]. set (limit := Z.min _ _). destruct (limit <=? 0); [intros [= _ <- _]; by left|].
  destruct (rl_spec rel) as [spec|]; [|done]. set (timeout := default _ _ * second). unfold ClaimQueuedTasks.
  destruct (sort_by _ _) as [|x l] eqn:E; [intros [= _ <- _]; by left|]. rewrite <- E. intros H. apply Ret_inj in H.
  right. exists release, (Z.to_nat limit), timeout. cbn zeta. injection H as H1 H2 _. rewrite <- H1. by split; [|rewrite <- H2].
Qed.

(** What an attempt is sent. *)
Definition claim_bytes (cl : ClaimedTask) : Z := octets (cl_Input cl) + sumZ (map (fun x => octets x.2) (cl_Dependencies cl)).

(** C24: A claim hands out only due tasks whose upstreams all succeeded, each
    with the result of every upstream, in the order of their ids, and as the
    next attempt of a task that now runs; it names no task twice, and more than
    one only within 64 MiB. *)
Theorem claim_starts_ready_tasks host c maxTasks locked fresh now d d' tasks next : reachable d ->
  claimOnce host c maxTasks locked fresh now d = Ret (d', tasks, next) ->
  NoDup (map cl_Task tasks) /\
  (forall cl, cl ∈ tasks -> exists t, xd_tasks d !! cl_Task cl = Some t /\ tk_status t = TaskQueued /\ tk_available_at t <= now /\
    xd_tasks d' !! cl_Task cl = Some (claimed_row (cl_Attempt cl) now t) /\ cl_Number cl = tk_attempt_count t + 1 /\
    map fst (cl_Dependencies cl) = sort_by Z.compare (upstreams d (cl_Task cl)) /\
    (forall u, u ∈ upstreams d (cl_Task cl) -> status_of d u = Some TaskSucceeded) /\
    (forall u p, (u, p) ∈ cl_Dependencies cl -> xd_results d !! u = Some p)) /\
  (sumZ (map claim_bytes tasks) <= MaxClaimInputBytes \/ (length tasks <= 1)%nat).
Proof.
  intros Hr H. pose proof (reachable_inv big hooked uuid_text d Hr) as Hi.
  apply claimOnce_cases in H as [-> |(release & limit & timeout & Hd & Ht)]; [split_and!; [constructor|set_solver|right; simpl; lia]|].
  set (picked := within _ _ _ _ _) in *. set (rows := sort_by _ picked) in *.
  destruct (picked_spec release limit MaxClaimInputBytes locked now d) as (Hn & Hk & _). fold picked in Hn, Hk.
  assert (Hp : rows ≡ₚ picked) by apply sort_by_perm.
  destruct (claims_same fresh c timeout now picked d) as [Er Ed]. rewrite <- Hd in Er, Ed.
  assert (Hups : forall id, upstreams d' id = upstreams d id) by (intros id; unfold upstreams; by rewrite Ed).
  assert (Hsucc : forall r, r ∈ rows -> forall u, u ∈ upstreams d r.1 -> status_of d u = Some TaskSucceeded).
  { intros r Hin u. rewrite Hp in Hin. destruct (Hk r Hin) as ((Ht' & Hq & Hz) & _). by apply (waiting_zero big [] [] [] d r.1 r.2 Hi Ht' Hq Hz). }
  assert (Hall : forall r, r ∈ rows -> may_claim d r /\ tk_available_at r.2 <= now /\ forall u, u ∈ upstreams d' r.1 -> is_Some (xd_results d' !! u)).
  { intros r Hin. pose proof (Hsucc r Hin) as Hu. rewrite Hp in Hin. destruct (Hk r Hin) as (Hc & _ & Ha & _). split; [done|]. split; [done|].
    intros u. rewrite Hups, Er. intros Hin'. apply (i_res _ _ _ _ _ Hi). by apply Hu. }
  assert (Hb : forall r, r ∈ rows -> claim_bytes (claimed_task fresh timeout now d' r) = row_bytes d r).
  { intros r Hin. destruct (Hall r Hin) as (_ & _ & Hu). unfold claim_bytes, row_bytes, input_bytes. simpl. rewrite (proj2 (DependencyResults_all _ _ Hu)).
    rewrite Hups. unfold result_bytes. by rewrite Er. }
  subst tasks. split_and!.
  - rewrite map_map. simpl. change (NoDup (map fst rows)). by rewrite Hp.
  - intros cl Hin. apply list_elem_of_In, in_map_iff in Hin as (r & <- & Hin). apply list_elem_of_In in Hin. destruct (Hall r Hin) as ((Ht & Hq & _) & Ha & Hu).
    exists r.2. simpl. split_and!; try done.
    + rewrite Hd. apply claims_rows; [done|intros x Hx; by apply Hk|by rewrite <- Hp].
    + rewrite (proj1 (DependencyResults_all _ _ Hu)). by rewrite Hups.
    + by apply Hsucc.
    + intros u p Hdep. apply DependencyResults_stored in Hdep. by rewrite Er in Hdep.
  - rewrite length_map. assert (E : sumZ (map claim_bytes (map (claimed_task fresh timeout now d') rows)) = sumZ (map (row_bytes d) picked)).
    { rewrite map_map. rewrite (map_ext_in _ (row_bytes d)) by (intros r Hin; by apply Hb, list_elem_of_In). apply sumZ_perm. by rewrite Hp. }
    rewrite E, (Permutation_length Hp). apply picked_bytes.
Qed.
End Effects.

(** ** Witnesses *)

(** Host 4 reports an attempt that runs on host 3. *)
Lemma stale_outcomes_change_nothing_witness :
  CompleteAttempts demo_big demo_hooked demo_text 4 [(5, mkOutcome 110 AttemptSucceeded (Some demo_result) None)] 60 demo7 =
  Ret (demo7, [Some ErrStaleAttempt]).
Proof.
  apply (stale_outcomes_change_nothing demo_big demo_hooked demo_text 4 [(5, mkOutcome 110 AttemptSucceeded (Some demo_result) None)] 60 demo7).
  intros c ->%list_elem_of_singleton. split; [vm_compute; reflexivity|]. intros (r & row & _ & _ & _ & Hc & Hh). vm_compute in Hc. by injection Hc as <-.
Defined.

Lemma completed_attempt_succeeds_witness : exists d',
  CompleteAttempts demo_big demo_hooked demo_text 3 [(5, mkOutcome 110 AttemptSucceeded (Some demo_result) None)] 60 demo7 = Ret (d', [None]) /\
  status_of d' 10 = Some TaskSucceeded /\ xd_results d' !! 10 = Some demo_result.
Proof.
  eapply (completed_attempt_succeeds demo_big demo_hooked demo_text 3 5 110 (mkAttempt 10 1 5 AttemptRunning false 50 (50 + 3600 * second) None));
    [exact demo7_reached|vm_compute; reflexivity|reflexivity|reflexivity|vm_compute; reflexivity|reflexivity|by vm_compute].
Defined.

Lemma exited_container_settles_witness : exists d' row',
  containerExited demo_big demo_hooked demo_text 5 (exit_with StopCrashed "") 60 demo7 = Ret d' /\ xd_containers d' !! 5 = Some row' /\
  ct_state row' = ContainerStopped /\ RunningAttemptsOnContainer 5 demo7 = [110] /\ RunningAttemptsOnContainer 5 d' = [].
Proof.
  assert (Hc : exists row, xd_containers demo7 !! 5 = Some row /\ ct_release row = Some 7) by (eexists; vm_compute; split; reflexivity).
  destruct Hc as (row & Hrow & Hrel).
  pose proof (exited_container_settles demo_big demo_hooked demo_text 5 row (exit_with StopCrashed "") 60 demo7 demo7_reached Hrow) as H.
  assert (Hok : match containerExited demo_big demo_hooked demo_text 5 (exit_with StopCrashed "") 60 demo7 with Ret _ => true | _ => false end = true)
    by (vm_compute; reflexivity).
  destruct (containerExited demo_big demo_hooked demo_text 5 (exit_with StopCrashed "") 60 demo7) as [d'| | |]; try discriminate Hok.
  destruct H as (row' & H1 & H2 & H3); [intros release E; rewrite Hrel in E; injection E as <-; vm_compute; eauto|].
  exists d', row'. split_and!; try done.
Defined.

Lemma claim_starts_ready_tasks_witness : exists d' tasks next, claimOnce 3 5 4 (fun _ => false) (fun id => 100 + id) 50 demo6 = Ret (d', tasks, next) /\
  map cl_Task tasks = [10] /\ NoDup (map cl_Task tasks).
Proof.
  do 3 eexists. split; [vm_compute; reflexivity|]. split; [reflexivity|].
  eapply (claim_starts_ready_tasks demo_big demo_hooked demo_text 3 5 4 (fun _ => false) (fun id => 100 + id) 50 demo6); [exact demo6_reached|vm_compute; reflexivity].
Defined.

(** ** Retry delays *)

(** An exponential delay that outgrows [int64] is not held to its maximum:
    where converting such a float gives the least [int64], as on amd64, a
    policy of one second, doubling up to a minute, waits a minute before its
    attempts 8 to 35, and the 36th is due at once. *)
Theorem NextAttemptDelay_overflow now t :
  let policy := mkRetry 100 second true (60 * second) None in
  let delay := NextAttemptDelay (fun _ => min_int64) policy in
  (forall next, In next (map Z.of_nat (seq 8 28)) -> delay next = 60 * second) /\
  delay 36 = min_int64 /\ tk_available_at (requeued (delay 36) false now t) <= now.
Proof.
  cbn zeta. assert (E : NextAttemptDelay (fun _ => min_int64) (mkRetry 100 second true (60 * second) None) 36 = min_int64) by (vm_compute; reflexivity).
  split_and!; [|exact E|rewrite E; simpl; unfold min_int64; lia]. assert (Hall : forallb (fun n => NextAttemptDelay (fun _ => min_int64)
    (mkRetry 100 second true (60 * second) None) n =? 60 * second) (map Z.of_nat (seq 8 28)) = true) by (vm_compute; reflexivity).
  rewrite forallb_forall in Hall. intros n Hn. by apply Z.eqb_eq, Hall.
Qed.
