(* ===== verification/ScalingBounds.v ===== *)
(** How far planning scales a release: enough for its demand, within its
    maximum, and never at the cost of work that runs. *)

From S2P Require Import Prelude Float64 Capacity Catalog GoLib Billing Policy Placement Exec Attempts Claims Submit Scaling ExecInv ExecSteps ExecAdvance ExecFinish ExecClaims ExecSubmit ExecOps ExecMachine ExecDemo ExecProps.

(** Demand gets the fewest containers that hold it, between the warm minimum
    and the maximum: they hold all of it or are the maximum, and one fewer
    would not, unless the minimum asks for them. *)
Theorem desired_covers_demand demand tasks minimum maximum : 0 <= demand ->
  let n := desiredContainers demand tasks minimum maximum in
  let k := Z.max tasks 1 in
  0 <= n <= Z.max maximum 0 /\ (demand <= n * k \/ n = Z.max maximum 0) /\ (n = 0 \/ (n - 1) * k < demand \/ n <= minimum).
Proof.
  intros Hd. cbn zeta. unfold desiredContainers. set (k := Z.max tasks 1). assert (Hk : 0 < k) by lia.
  pose proof (quot_up demand k Hd Hk) as H. cbn zeta in H. set (needed := Z.quot (demand + k - 1) k) in *.
  assert (Hn : 0 <= needed) by (apply Z.quot_pos; lia). split; [lia|]. split; destruct H as [[H1 H2]|[-> H2]]; nia.
Qed.

Lemma desired_covers_demand_witness : desiredContainers 7 3 1 10 = 3 /\
  (0 <= 3 <= 10 /\ (7 <= 3 * 3 \/ 3 = 10) /\ (3 = 0 \/ (3 - 1) * 3 < 7 \/ 3 <= 1)).
Proof. split; [reflexivity|]. exact (desired_covers_demand 7 3 1 10 ltac:(lia)). Defined.

(** ** Live containers *)

Definition live_container (release : ReleaseID) (c : ContainerRow) : bool := serves release c && (ct_state c != ContainerStopped).
Definition live_ids (release : ReleaseID) (d : db) : list ContainerID :=
  map fst (List.filter (fun c => live_container release c.2) (map_to_list (xd_containers d))).
Definition live_count (release : ReleaseID) (d : db) : Z := Z.of_nat (length (live_ids release d)).

Lemma live_ids_spec release d c : c ∈ live_ids release d <-> exists row, xd_containers d !! c = Some row /\ live_container release row = true.
Proof.
  unfold live_ids. rewrite list_elem_of_In, in_map_iff. split.
  - intros ([i row] & <- & H). apply filter_In in H as [H E]. apply list_elem_of_In, elem_of_map_to_list in H. eauto.
  - intros (row & Hr & E). exists (c, row). split; [done|]. apply filter_In. split; [|done]. by apply list_elem_of_In, elem_of_map_to_list.
Qed.

Lemma live_ids_NoDup release d : NoDup (live_ids release d).
Proof. apply map_filter_NoDup, NoDup_fst_map_to_list. Qed.

Lemma live_le release d d' extra : (forall c, c ∈ live_ids release d' -> c ∈ live_ids release d ++ extra) ->
  live_count release d' <= live_count release d + Z.of_nat (length extra).
Proof.
  intros H. unfold live_count. assert (Hs : live_ids release d' ⊆+ live_ids release d ++ extra) by (apply NoDup_submseteq; [apply live_ids_NoDup|exact H]).
  apply submseteq_length in Hs. rewrite length_app in Hs. lia.
Qed.

(** Containers whose release and purpose stay, and which do not come back. *)
Lemma live_set release g f d :
  (forall row, ct_release (f row) = ct_release row /\ ct_purpose (f row) = ct_purpose row /\ (ct_state row = ContainerStopped -> ct_state (f row) = ContainerStopped)) \/
  (forall c row, xd_containers d !! c = Some row -> g c row = true -> ct_state row <> ContainerStopped /\ ct_release (f row) = ct_release row /\ ct_purpose (f row) = ct_purpose row) ->
  live_count release (set_containers g f d) <= live_count release d.
Proof.
  intros Hf. assert (H := live_le release d (set_containers g f d) []). simpl in H. rewrite Z.add_0_r in H. apply H. intros c. rewrite app_nil_r, !live_ids_spec.
  intros (row' & Hr & E). unfold set_containers in Hr. simpl in Hr. rewrite map_lookup_imap in Hr. destruct (xd_containers d !! c) as [row|] eqn:Hc; [|done].
  simpl in Hr. injection Hr as <-. exists row. split; [done|]. destruct (g c row) eqn:Hg; [|done]. unfold live_container, serves in *.
  apply andb_true_iff in E as [E1 E2]. apply negb_true_iff, bool_decide_eq_false in E2. destruct Hf as [Hf|Hf].
  - destruct (Hf row) as (H1 & H2 & H3). rewrite H1, H2 in E1. rewrite E1. apply negb_true_iff, bool_decide_eq_false. auto.
  - destruct (Hf c row Hc Hg) as (H1 & H2 & H3). rewrite H2, H3 in E1. rewrite E1. by apply negb_true_iff, bool_decide_eq_false.
Qed.

Lemma live_drain release g now d : (forall id c, g id c = true -> drains c = true) -> live_count release (drain_where g now d).1 <= live_count release d.
Proof.
  intros Hg. apply live_set. right. intros c row _ H. apply Hg in H. split; [|done]. intros E. unfold drains in H. by rewrite E in H.
Qed.

Lemma live_create release cfg count replaces fresh now d :
  live_count release (CreatePendingContainers release cfg count replaces fresh now d) <= live_count release d + Z.of_nat count.
Proof.
  replace (Z.of_nat count) with (Z.of_nat (length (map fresh (seq 0 count)))) by (by rewrite length_map, length_seq).
  apply live_le. intros c. rewrite elem_of_app, !live_ids_spec. intros (row & Hr & E). unfold CreatePendingContainers in Hr. simpl in Hr.
  destruct (created_lookup release cfg fresh replaces now (seq 0 count) (xd_containers d) c) as [H|(n & Hn & -> & H)].
  - left. rewrite H in Hr. eauto.
  - right. apply list_elem_of_In, in_map. by apply list_elem_of_In.
Qed.

Lemma live_states release d : in_state release ContainerPending d + in_state release ContainerStarting d + in_state release ContainerReady d +
  in_state release ContainerDraining d = live_count release d.
Proof.
  unfold in_state, live_count, live_ids. rewrite length_map. generalize (map_to_list (xd_containers d)) as l.
  induction l as [|[c row] l IH]; simpl; [done|]. unfold live_container in *. destruct (serves release row); simpl; [|exact IH].
  destruct (ct_state row); simpl; lia.
Qed.

(** ** Leaving containers *)

(** Each leaving container drains, has a replacement on its way or waits for
    one. *)
Lemma leave_fold rows l drain : let '(l', drain') := fold_left leave_row rows (l, drain) in
  lv_drained l' = lv_drained l /\ lv_replacing l <= lv_replacing l' /\
  lv_replacing l' + Z.of_nat (length (lv_unpaired l')) + Z.of_nat (length drain') =
  lv_replacing l + Z.of_nat (length (lv_unpaired l)) + Z.of_nat (length drain) + Z.of_nat (length rows).
Proof.
  revert l drain. induction rows as [|r rows IH]; intros l drain; cbn [fold_left]; [simpl; lia|].
  destruct (leave_row (l, drain) r) as [l1 drain1] eqn:E. specialize (IH l1 drain1). destruct (fold_left leave_row rows (l1, drain1)) as [l' drain'].
  destruct IH as (H1 & H2 & H3). unfold leave_row in E. repeat case_match; injection E as <- <-; simpl in *; rewrite ?length_app in *; simpl in *; lia.
Qed.

Section Bounds.
Context (leaves locked : ContainerID -> bool).

Lemma drainLeaving_live release ids now s : live_count release (drainLeaving locked ids now s).1 <= live_count release s.1.
Proof.
  unfold drainLeaving. destruct ids as [|i ids]; [lia|]. destruct (drain_where _ _ _) as [d rows] eqn:E.
  change (live_count release (record rows (d, s.2)).1) with (live_count release (d, rows).1). rewrite <- E. apply live_drain.
  intros id c H. unfold drains_now in H. apply andb_true_iff in H as [H _]. by apply andb_true_iff in H as [_ H].
Qed.

Lemma leave_live release may now s : let '(l, s') := leave leaves locked release may now s in
  live_count release s'.1 <= live_count release s.1 /\ 0 <= lv_replacing l /\
  lv_replacing l + Z.of_nat (length (lv_unpaired l)) <= Z.of_nat (length (LeavingContainers leaves release s.1)).
Proof.
  unfold leave. destruct may; simpl; [|lia]. pose proof (leave_fold (LeavingContainers leaves release s.1) no_leaving []) as H.
  destruct (fold_left _ _ _) as [l drain]. simpl in *. pose proof (drainLeaving_live release drain now s). lia.
Qed.

Lemma start_live release cfg replaces count grant fresh now s s' :
  (forall n, match grant n with Ret (Some k) => 0 <= k <= n | _ => True end) ->
  start locked release cfg replaces count grant fresh now s = Ret s' -> live_count release s'.1 <= live_count release s.1 + Z.max count 0.
Proof.
  intros Hg H. unfold start in H. specialize (Hg count). destruct (grant count) as [[n|]| | |]; try done; cbn [go_bind] in H;
    [|apply Ret_inj in H; subst s'; lia].
  set (s1 := if _ <? _ then drainLeaving _ _ _ _ else s) in H.
  assert (H1 : live_count release s1.1 <= live_count release s.1) by (unfold s1; destruct (_ <? _); [apply drainLeaving_live|lia]).
  destruct (n =? 0); apply Ret_inj in H; subst s'; [lia|]. cbn [fst].
  pose proof (live_create release cfg (Z.to_nat n) (if Z.min n (Z.of_nat (length replaces)) <? Z.of_nat (length replaces)
    then take (Z.to_nat (Z.min n (Z.of_nat (length replaces)))) replaces else replaces) fresh now s1.1). lia.
Qed.

Lemma drainIdle_live release keepWarm count now s : live_count release (drainIdle locked release keepWarm count now s).1 <= live_count release s.1.
Proof.
  unfold drainIdle. destruct (LockIdleContainers _ _ _ _ _ _) as [|i ids]; [lia|]. destruct (drain_where _ _ _) as [d rows] eqn:E.
  change (live_count release (record rows (d, s.2)).1) with (live_count release (d, rows).1). rewrite <- E. apply live_drain.
  intros id c H. apply andb_true_iff in H as [_ H]. unfold idle in H. apply andb_true_iff in H as [H _]. apply andb_true_iff in H as [H _].
  apply bool_decide_eq_true in H. unfold drains. by rewrite H.
Qed.

Lemma StopPending_live release count now d : live_count release (StopPendingContainers locked release count now d).1 <= live_count release d.
Proof. apply live_set. left. done. Qed.

(** C31: Planning keeps a release within its maximum, the replacements of
    containers that leave their host aside: when billing grants no more than
    it is asked for, the live containers after are at most those before or the
    maximum, whichever is more, and one more for each that leaves. *)
Theorem planRelease_within_max cfg release grant fresh clock now d d' plan :
  (forall n, match grant n with Ret (Some k) => 0 <= k <= n | _ => True end) ->
  planRelease leaves locked (planning_row leaves cfg release now d) grant fresh clock now d = Ret (d', plan) ->
  live_count release d' <= Z.max (live_count release d) (pc_MaxContainers cfg) + Z.of_nat (length (LeavingContainers leaves release d)).
Proof.
  intros Hg H. set (r := planning_row leaves cfg release now d) in H. pose proof (live_states release d) as Hl.
  assert (Hl0 : 0 <= live_count release d) by (unfold live_count; lia). unfold planRelease in H.
  change (pr_Release r) with release in H. change (pr_Config r) with cfg in H. change (pr_Pending r) with (in_state release ContainerPending d) in H.
  change (pr_Starting r) with (in_state release ContainerStarting d) in H. change (pr_Ready r) with (in_state release ContainerReady d) in H.
  change (pr_Draining r) with (in_state release ContainerDraining d) in H.
  destruct (_ || _); [done|]. pose proof (leave_live release (pr_Leaving r) now (d, no_plan)) as Hv.
  destruct (leave _ _ _ _ _ _) as [l s]. cbn [fst] in Hv. destruct Hv as (Hv1 & Hv2 & Hv3). unfold counts, starts in H. set (desired := desiredContainers _ _ _ _) in H.
  destruct (_ >? 0) eqn:Ep in H.
  - destruct (holdStart _ _ _); [apply Ret_inj, (f_equal fst) in H; cbn [fst] in H; subst d'; lia|].
    apply start_live in H; [|done]. cbn [fst] in H. lia.
  - destruct (_ >? desired) in H; [|apply Ret_inj, (f_equal fst) in H; cbn [fst] in H; subst d'; lia].
    destruct (Z.min _ _ >? 0) in H.
    + destruct (StopPendingContainers _ _ _ _ _) as [d1 stopped] eqn:Es in H.
      assert (H1 : live_count release d1 <= live_count release s.1) by (change d1 with (d1, stopped).1; rewrite <- Es; apply StopPending_live).
      apply Ret_inj, (f_equal fst) in H. cbn [fst] in H. subst d'. destruct (_ && _); [|cbn [fst]; lia].
      match goal with |- live_count release (drainIdle _ _ ?k ?n _ ?s0).1 <= _ => pose proof (drainIdle_live release k n now s0) end. cbn [fst] in *. lia.
    + apply Ret_inj, (f_equal fst) in H. cbn [fst] in H. subst d'. destruct (_ && _); [|lia].
      match goal with |- live_count release (drainIdle _ _ ?k ?n _ ?s0).1 <= _ => pose proof (drainIdle_live release k n now s0) end. lia.
Qed.

(** ** Work that runs *)

(** The ids a leaving container may have. *)
Lemma leave_ids rows l drain x : let '(l', drain') := fold_left leave_row rows (l, drain) in
  x ∈ drain' \/ x ∈ lv_unpaired l' -> x ∈ drain \/ x ∈ lv_unpaired l \/ x ∈ map lr_ID rows.
Proof.
  revert l drain. induction rows as [|r rows IH]; intros l drain; cbn [fold_left]; [set_solver|].
  destruct (leave_row (l, drain) r) as [l1 drain1] eqn:E. specialize (IH l1 drain1). destruct (fold_left leave_row rows (l1, drain1)) as [l' drain'].
  intros Hx. apply IH in Hx. unfold leave_row in E. repeat case_match; injection E as <- <-; simpl in *; set_solver.
Qed.

Lemma leaving_ids release d x : x ∈ map lr_ID (LeavingContainers leaves release d) -> leaves x = true.
Proof.
  intros H. unfold LeavingContainers in H. rewrite map_map in H. apply list_elem_of_In, in_map_iff in H as (y & <- & Hy).
  apply sort_by_In, filter_In in Hy as [_ Hy]. by apply andb_true_iff in Hy as [_ Hy].
Qed.

(** A container planning may not touch: attempts run on it, it serves, and it
    does not leave its host. *)
Record at_work (c : ContainerID) (row : ContainerRow) (d : db) : Prop := {
  bu_row : xd_containers d !! c = Some row;
  bu_runs : RunningAttemptsOnContainer c d <> [];
  bu_serves : serving_state (ct_state row) = true;
  bu_stays : leaves c = false }.

Lemma busy_set c row g f d : at_work c row d -> g c row = false -> at_work c row (set_containers g f d).
Proof.
  intros [H1 H2 H3 H4] Hg. constructor; [|done..]. unfold set_containers. simpl. rewrite map_lookup_imap, H1. simpl. by rewrite Hg.
Qed.

Lemma busy_same c row d d' : xd_containers d' = xd_containers d -> xd_attempts d' = xd_attempts d -> at_work c row d -> at_work c row d'.
Proof. intros Ec Ea [H1 H2 H3 H4]. constructor; [by rewrite Ec| |done..]. unfold RunningAttemptsOnContainer in *. by rewrite Ea. Qed.

Lemma busy_drainLeaving c row ids now s : at_work c row s.1 -> c ∉ ids -> at_work c row (drainLeaving locked ids now s).1.
Proof.
  intros Hb Hn. unfold drainLeaving. destruct ids as [|i ids]; [done|]. simpl.
  apply (busy_same c row (set_containers (drains_now locked (i :: ids)) (drained now) s.1)); [done..|].
  apply busy_set; [done|]. unfold drains_now. by rewrite bool_decide_false.
Qed.

Lemma busy_leave c row release may now s : at_work c row s.1 -> let '(l, s') := leave leaves locked release may now s in
  at_work c row s'.1 /\ c ∉ lv_unpaired l.
Proof.
  intros Hb. unfold leave. destruct may; simpl; [|split; [done|apply not_elem_of_nil]].
  pose proof (leave_ids (LeavingContainers leaves release s.1) no_leaving [] c) as H. destruct (fold_left _ _ _) as [l drain]. simpl in *.
  assert (Hn : ~ (c ∈ drain \/ c ∈ lv_unpaired l)).
  { intros Hx. apply H in Hx as [Hx|[Hx|Hx]]; [by apply not_elem_of_nil in Hx..|]. apply leaving_ids in Hx. rewrite (bu_stays _ _ _ Hb) in Hx. done. }
  split; [apply busy_drainLeaving; [done|tauto]|tauto].
Qed.

Lemma busy_create c row release cfg count replaces fresh now d : at_work c row d -> fresh_containers fresh d ->
  at_work c row (CreatePendingContainers release cfg count replaces fresh now d).
Proof.
  intros [H1 H2 H3 H4] [Hf _]. constructor; [|done..]. unfold CreatePendingContainers. simpl.
  destruct (created_lookup release cfg fresh replaces now (seq 0 count) (xd_containers d) c) as [E|(n & _ & -> & _)]; [by rewrite E|].
  by rewrite Hf in H1.
Qed.

Lemma busy_start c row release cfg replaces count grant fresh now s s' : at_work c row s.1 -> fresh_containers fresh s.1 -> c ∉ replaces ->
  start locked release cfg replaces count grant fresh now s = Ret s' -> at_work c row s'.1.
Proof.
  intros Hb Hf Hn H. unfold start in H. destruct (grant count) as [[n|]| | |]; try done; cbn [go_bind] in H; [|apply Ret_inj in H; by subst s'].
  set (s1 := if _ <? _ then drainLeaving _ _ _ _ else s) in H.
  assert (H1 : at_work c row s1.1 /\ fresh_containers fresh s1.1).
  { unfold s1. destruct (_ <? _); [|done]. split; [apply busy_drainLeaving; [done|]; intros Hx; apply Hn; by apply (sublist_subseteq _ _ (sublist_drop _ _)) in Hx|].
    unfold drainLeaving. destruct (drop _ _); [done|]. apply (drain_free fresh _ now s.1 Hf). }
  destruct (n =? 0); apply Ret_inj in H; subst s'; [apply H1|]. cbn [fst]. apply busy_create; apply H1.
Qed.

Lemma busy_drainIdle c row release keepWarm count now s : at_work c row s.1 -> at_work c row (drainIdle locked release keepWarm count now s).1.
Proof.
  intros Hb. unfold drainIdle. destruct (LockIdleContainers _ _ _ _ _ _) as [|i ids]; [done|].
  apply (busy_same c row (set_containers (fun id c => bool_decide (id ∈ i :: ids) && idle keepWarm now s.1 id c) (drained now) s.1)); [done..|].
  apply busy_set; [done|]. apply andb_false_iff. right. unfold idle. rewrite (bool_decide_false (RunningAttemptsOnContainer c s.1 = [])) by apply Hb.
  by destruct (ct_state row == ContainerReady).
Qed.

Lemma busy_StopPending c row release count now d : at_work c row d -> at_work c row (StopPendingContainers locked release count now d).1.
Proof.
  intros Hb. apply busy_set; [done|]. apply bool_decide_eq_false. intros Hx. apply (pending_only locked release now d count c row) in Hx; [|apply Hb].
  pose proof (bu_serves _ _ _ Hb) as Hs. by rewrite Hx in Hs.
Qed.

(** C32: Planning a release that is to run never interrupts its work:
    [planRelease] starts, stops and drains containers, but leaves the row of
    every container that runs an attempt as it was, unless that container is
    to leave its host. Stopping a release is another operation,
    [stopRelease], and does end work. The ids of the containers it creates are
    new. *)
Theorem planRelease_keeps_work big hooked uuid_text r grant fresh clock now d d' plan c row : reachable big hooked uuid_text d ->
  fresh_containers fresh d -> planRelease leaves locked r grant fresh clock now d = Ret (d', plan) ->
  xd_containers d !! c = Some row -> RunningAttemptsOnContainer c d <> [] -> leaves c = false -> xd_containers d' !! c = Some row.
Proof.
  intros Hr Hf H Hrow Hrun Hstay.
  assert (Hb : at_work c row d).
  { constructor; try done. destruct (RunningAttemptsOnContainer c d) as [|a l] eqn:E; [done|].
    assert (a ∈ RunningAttemptsOnContainer c d) as Ha by (rewrite E; left). apply RunningAttempts_spec in Ha as (x & Hx & Hc & Hs).
    destruct (so_placed _ _ _ _ (reachable_sound big hooked uuid_text d Hr) a x row Hx Hs) as [|Hn]; [by rewrite Hc|done|by apply not_elem_of_nil in Hn]. }
  cut (at_work c row d'); [by intros []|]. clear Hr Hrow Hrun Hstay. unfold planRelease in H. destruct (_ || _); [done|].
  pose proof (busy_leave c row (pr_Release r) (pr_Leaving r) now (d, no_plan) Hb) as Hl.
  pose proof (leave_free leaves locked fresh (pr_Release r) (pr_Leaving r) now (d, no_plan) Hf) as Hf'.
  destruct (leave _ _ _ _ _ _) as [l s]. destruct Hl as [Hbs Hun]. cbn [snd] in Hf'. unfold counts, starts in H. destruct (_ >? 0) in H.
  - destruct (holdStart _ _ _); [apply Ret_inj, (f_equal fst) in H; cbn [fst] in H; by subst d'|].
    apply (busy_start c row) in H; [done|done|done|]. intros Hx. apply Hun. by apply (sublist_subseteq _ _ (sublist_take _ _)) in Hx.
  - destruct (_ >? _) in H; [|apply Ret_inj, (f_equal fst) in H; cbn [fst] in H; by subst d']. destruct (Z.min _ _ >? 0) in H.
    + destruct (StopPendingContainers _ _ _ _ _) as [d1 stopped] eqn:Es in H.
      assert (H1 : at_work c row d1) by (change d1 with (d1, stopped).1; rewrite <- Es; by apply busy_StopPending).
      apply Ret_inj, (f_equal fst) in H. cbn [fst] in H. subst d'. destruct (_ && _); [by apply busy_drainIdle|done].
    + apply Ret_inj, (f_equal fst) in H. cbn [fst] in H. subst d'. destruct (_ && _); [by apply busy_drainIdle|done].
Qed.
End Bounds.

(** ** Witnesses *)

Definition demo_config : PlanConfig := mkConfig 2 true false false 0 3 1 2 10 1000 1024.

(** Billing that grants what it is asked for. *)
Definition demo_grant (n : Z) : go exec_error (option Z) := Ret (if n <? 0 then None else Some n).

(** The queue of two tasks: the container there is ready for the first, and the
    second waits on it. *)
Lemma planRelease_within_max_witness : exists d' plan,
  planRelease (fun _ => false) (fun _ => false) (planning_row (fun _ => false) demo_config 7 50 demo6) demo_grant (fun n => 50 + Z.of_nat n) 50 50
    demo6 = Ret (d', plan) /\
  live_count 7 d' <= Z.max (live_count 7 demo6) 3 + Z.of_nat (length (LeavingContainers (fun _ => false) 7 demo6)).
Proof.
  do 2 eexists. split; [vm_compute; reflexivity|].
  eapply (planRelease_within_max (fun _ => false) (fun _ => false) demo_config 7 demo_grant (fun n => 50 + Z.of_nat n) 50 50 demo6);
    [intros n; unfold demo_grant; destruct (n <? 0) eqn:E; [done|lia]|vm_compute; reflexivity].
Defined.

(** A pass that keeps no container: the one that runs an attempt stays. *)
Definition idle_config : PlanConfig := mkConfig 2 true false false 0 0 1 2 10 1000 1024.

Lemma planRelease_keeps_work_witness : exists d' plan row,
  planRelease (fun _ => false) (fun _ => false) (planning_row (fun _ => false) idle_config 7 50 demo7) demo_grant (fun n => 50 + Z.of_nat n) 50 50
    demo7 = Ret (d', plan) /\ xd_containers demo7 !! 5 = Some row /\ xd_containers d' !! 5 = Some row.
Proof.
  do 3 eexists. split; [vm_compute; reflexivity|]. split; [vm_compute; reflexivity|].
  eapply (planRelease_keeps_work (fun _ => false) (fun _ => false) demo_big demo_hooked demo_text (planning_row (fun _ => false) idle_config 7 50 demo7)
    demo_grant (fun n => 50 + Z.of_nat n) 50 50 demo7);
    [exact demo7_reached| |vm_compute; reflexivity|vm_compute; reflexivity|by vm_compute|reflexivity].
  split; [|intros; lia]. intros n.
  assert (E : xd_containers demo7 = <[5 := default demo_container (xd_containers demo7 !! 5)]> ∅) by (vm_compute; reflexivity).
  rewrite E, lookup_insert_ne by lia. apply lookup_empty.
Defined.
